(* ===== verification/_CoqProject ===== *)
-Q . S2P
Prelude.v
Kfifo.v
NandEcc.v
NandEccFacts.v
NandEccMtd.v
NandEccSpec.v
YaffsTags.v
YaffsTagsFacts.v
YaffsNand.v
YaffsNandFacts.v
YaffsNand2Facts.v
YaffsBlocks.v
YaffsBlocksFacts.v
YaffsBlocksOps.v
YaffsBlocksAlloc.v
YaffsBlocksGc.v
YaffsBlocksSpec.v
YaffsTnodes.v
YaffsObjects.v
YaffsTnodesFacts.v
YaffsTnodesPool.v
YaffsTnodesTree.v
YaffsTnodesAdd.v
YaffsObjectsFacts.v
YaffsObjectsMount.v
YaffsObjectsDirs.v
YaffsTnodesFile.v
YaffsTnodesDelete.v
YaffsTnodesPlug.v
YaffsTnodesPrune.v
YaffsTnodesSpec.v
YaffsObjectsSpec.v
YaffsCheckpoint.v
YaffsCheckpointData.v
YaffsCheckpointFacts.v
YaffsCheckpointDriver.v
YaffsCheckpointStream.v
YaffsCheckpointDevice.v
YaffsCheckpointTnodes.v
YaffsCheckpointObjects.v
YaffsCheckpointWhole.v
YaffsCheckpointSpec.v
Crc.v
CrcFacts.v
Sort.v
Memory.v
UbootString.v
UbootStringFacts.v
UbootVsprintf.v
UbootVsprintfFacts.v
Rwsem.v
Dates.v
DatesFacts.v
Rbtree.v
RbtreeLogic.v
RbtreeInsert.v
RbtreeErase.v
RbtreeWalk.v
Bitmap.v
BitmapFacts.v
BitmapRegion.v
