(* ===== verification/Prelude.v ===== *)
(** * Verification of library code of a Linux 2.6.30.4 kernel and its U-Boot 1.1.6 boot loader

    The repository holds the kernel and the boot loader of a TQ2440 board (S3C2440,
    a 32-bit little-endian ARM): src/linux-2.6.30.4 and src/u-boot-1.1.6.  The
    development models the parts of both that compute: data structures, error
    correcting codes and checksums, the NAND interface, the block manager, the file trees, the objects
    and the checkpoint of YAFFS, string and number formatting, calendar time, and the locking algorithm of the
    read-write semaphore.  U-Boot reads the kernel image from NAND flash with its own copy
    of the error correction, checks images with its CRC-32 and keeps the time in its own
    date routines; the kernel has a second
    (MTD) and a third (YAFFS) copy of the error correction, and its own CRC and date
    routines.  Where two programs must agree on data they share (ECC bytes on the
    flash, checksums of images, the time in the clock chip), the development proves
    that they do.

    ** Files

    - [Prelude]: C integers at their width, bytes, memory copies, list and bit lemmas.
    - [Kfifo]: kernel/kfifo.c and include/linux/kfifo.h.  The state is the record
      [kfifo] of struct kfifo; [rep] relates a ring to the queue of bytes it holds.
      The operations refine the queue operations, also after the 32-bit indices have
      wrapped.  The section on the lock-free use is a step relation with one producer
      and one consumer that copy byte by byte.
    - [NandEcc]: the three NAND codes, one Module each: [Yaffs] (fs/yaffs2/yaffs_ecc.c),
      [UBoot] (u-boot drivers/nand/nand_ecc.c), [Mtd] (drivers/mtd/nand/nand_ecc.c).
      [NandEccFacts] and [NandEccMtd] show that the encoders are affine over GF(2), so
      that they are determined by the blocks with at most one bit set; [NandEccSpec]
      derives correction of single errors, detection of double errors, agreement of
      the three codes, and the failure of the MTD code on 512-byte blocks.
    - [Crc], [CrcFacts]: lib/crc32.c with lib/gen_crc32table.c, crc16, crc-ccitt,
      crc-itu-t, crc-t10dif, crc7, bitrev, and u-boot's lib_generic/crc32.c.  The table
      driven routines equal the bitwise ones; bursts of up to 32 bits are detected.
    - [Sort]: lib/sort.c.  The model works on the bytes of the array with the byte
      offsets of the code, and an access outside the array is a fault; it is related to a
      heap sort on lists of elements.
    - [Memory], [UbootString], [UbootStringFacts]: u-boot's lib_generic/string.c over a
      partial byte memory, where access to unmapped memory is a fault.
    - [UbootVsprintf], [UbootVsprintfFacts]: u-boot's lib_generic/vsprintf.c and ctype.c.
      What is printed can be parsed back; the layout and length of a printed number.
    - [Rwsem]: lib/rwsem-spinlock.c, each operation an atomic step (it runs under
      wait_lock), and a transition system of tasks that use the semaphore.
    - [Dates], [DatesFacts]: drivers/rtc/rtc-lib.c, parts of kernel/time.c, and u-boot's
      rtc/date.c.  The seconds of a timespec have 32 bits and wrap.
    - [Rbtree]: lib/rbtree.c and include/linux/rbtree.h in a state monad over the nodes
      in memory, colours packed into the parent pointer as in the code.
      [RbtreeLogic] relates memory to inductive trees with a focus and gives a weakest
      precondition rule for every access; [RbtreeInsert], [RbtreeErase] and [RbtreeWalk]
      prove insertion, deletion, traversal and replacement.
    - [Bitmap], [BitmapFacts], [BitmapRegion]: lib/bitmap.c.
    - [YaffsTags], [YaffsTagsFacts]: the tags YAFFS keeps in the spare area of a page
      (yaffs_packedtags1.c, yaffs_packedtags2.c, yaffs_tagsvalidity.c and the ECC of
      yaffs_tagscompat.c); the bit-fields of YAFFS1 tags are fields of one 64-bit
      number.  Packing and unpacking are inverse, also after a flipped bit.
    - [YaffsNand]: yaffs_nand.c, yaffs_mtdif1.c, yaffs_mtdif2.c, yaffs_tagscompat.c and
      yaffs_mtdif.c over an MTD device, which is an instance of the class
      [MtdOps].  [YaffsNandFacts] states what such a device promises ([MtdMedium]),
      gives a device that keeps the promise, and proves that a chunk written through
      yaffs_nand.c with the YAFFS1 driver is read back; [YaffsNand2Facts] proves it for
      YAFFS2, and shows for yaffs_tagscompat.c over yaffs_mtdif.c which chunks are read back
      and which come back with another object number.
    - [YaffsBlocks]: the block manager of yaffs_guts.c on top of yaffs_nand.c (chunk bitmap,
      allocation, writing with retries, deletion, erasure and retirement, the choice of
      a block to collect) and the invalidation of the checkpoint of yaffs_checkptrw.c.
      [YaffsBlocksFacts] has the invariant [accounts], which ties the counters of a device
      to its bitmap and to the states of the blocks, and the class [QuietOps] of what a
      driver promises; [YaffsBlocksOps], [YaffsBlocksAlloc] and [YaffsBlocksGc] prove what
      each operation does; [YaffsBlocksSpec] shows that the YAFFS1 and YAFFS2 drivers keep
      the promise, and has the theorems: the accounts are an invariant of every
      sequence of operations, a write ends with a fresh chunk that the driver has
      written or without one, and garbage collection chooses the cheapest block it may,
      unless a sequence number is left over from an earlier search.
    - [YaffsTnodes]: the trees of tnodes in yaffs_guts.c that map the chunks of a file to chunks
      of the device, with the pool of tnodes (whose memory comes from kmalloc, a
      parameter with the class [Allocator] of what it promises) and the
      geometry computed at mount.  A tnode is the list of its 32-bit words, and is
      read as eight pointers or as sixteen packed entries as in the code.
      [YaffsTnodesFacts] has the packed entries; [YaffsTnodesPool] the free list;
      [YaffsTnodesTree] the predicate [tree], which relates the tnodes below an address
      to the function they represent and to the set of their addresses, and
      [YaffsTnodesAdd], [YaffsTnodesFile], [YaffsTnodesDelete] and [YaffsTnodesPrune] prove
      what growing, putting a chunk, soft deletion and pruning do to that function, to
      the pool and to the tnodes of the other files ([transfers]).  [YaffsTnodesSpec] has
      the theorems, with the accounts of the block manager under soft deletion, which chunks
      pruning loses when entries are wider than 16 bits ([blind]), and what a tree becomes that
      cannot grow.
    - [YaffsObjects]: the objects of yaffs_guts.c in memory (files, directories, links): their
      pool, the table that finds an object by its number, the directories, the
      hard links, and the directories that a mount makes.  An object has an address, and a list that is
      linked through objects is the list of their addresses.  [YaffsObjectsFacts] has the invariant
      [objects_ok] and what finding, creating and moving objects do to it, and
      [YaffsObjectsMount] the state at the start of a mount; [YaffsObjectsDirs] has the invariant
      [lists_ok], that the children of a directory are the objects with it as parent and that the
      counts of the buckets are right; [YaffsObjectsSpec] has the theorem on
      new numbers, creation and freeing.  [YaffsTnodesPlug] puts a tnode that was
      read into the tree of a file.
    - [YaffsCheckpoint]: the stream of yaffs_checkptrw.c in which YAFFS saves its state in
      erased blocks when it unmounts, and the markers and the checksum at its ends.
      [YaffsCheckpointData] has what is written between them, from yaffs_CheckpointSave down to
      the layout of the structs in bytes, and the mount that reads it.
      [YaffsCheckpointFacts] has the class [PageStore] of what a driver promises about pages,
      the invariants of a stream that is written and of one that is read, and what each
      operation does to them; [YaffsCheckpointDriver] shows that the YAFFS2 driver keeps the
      promise on an MTD device that does not fail; [YaffsCheckpointStream] turns this into an
      interface of strings of bytes ([emits], [loaded]), on which [YaffsCheckpointDevice],
      [YaffsCheckpointTnodes], [YaffsCheckpointObjects] and [YaffsCheckpointWhole] prove what writing
      and reading the device, the trees, the objects and the whole state do.
      [YaffsCheckpointSpec] has the theorems: a file system that is saved is the
      same after the next mount, an invalidated checkpoint is not restored, and what
      happens when the blocks run out.

    ** Conventions

    A C integer is a [Z]; where the code can wrap, the model applies [u8], [u16], [u32],
    [u64] or [s32].  [int], [long] and pointers have 32 bits and [char] is unsigned.  A
    fault (access outside an array or to unmapped memory, BUG_ON) and exhausted fuel
    are [None]; every theorem about such a function states that the result is [Some].

    ** Fuel

    Loops that are not structural take fuel.  The theorems hold for all fuel above a
    bound that the input gives (the length of a string, the number of nodes of a tree,
    the number of bits of a bitmap, the attempts and the chunks that a write may have to
    give up, [rounds_left], the records of a checkpoint, [rounds_needed]), or the fuel is fixed in the definition and shown
    to be enough: 33 digits in [number], 70 years and 12 months in [to_tm], four
    rounds in [set_normalized_timespec], the byte size of the array in [sort], 32 shifts
    in [Shifts] and [ShiftsGE], 10 levels in [required_tallness], one number more than a bucket has
    objects in [yaffs_CreateNewObjectNumber].

    ** Not modelled

    Code that drives hardware or depends on interrupts and the scheduler (drivers, board
    support, memory management, processes), file systems above the block
    manager, the file trees, the objects and the checkpoint of YAFFS, the network stack, and the boot loader's shell: their
    behaviour is in registers,
    timing and concurrency of the whole system.  Of yaffs_guts.c these are the object headers on the
    flash and all that works through them (names, renaming, deletion of files, scanning when there is no
    checkpoint), the cache of short writes, the copying of chunks by the garbage collection, and
    the functions that only verify or trace.  Variants that the board's
    configuration does not compile are left out unless they serve as a reference
    (the bitwise CRCs).  Memory barriers and the spinlocks around an operation are
    not represented: operations under a lock are single steps, and the lock-free
    kfifo is modelled with sequentially consistent steps.  kmalloc and the caller's
    comparison and swap functions are arguments of the definitions that call them. *)

From Stdlib Require Export ZArith Lia Bool.
From stdpp Require Export base list list_numbers numbers option.

Open Scope Z_scope.

(** ** Fixed-width unsigned and signed integers

    A C integer of width [w] is a [Z]; every place where the source relies on
    wrap-around applies one of the functions below. *)

Definition wrap (w x : Z) : Z := x mod 2 ^ w.

Definition u8 (x : Z) : Z := wrap 8 x.

Definition u16 (x : Z) : Z := wrap 16 x.

Definition u32 (x : Z) : Z := wrap 32 x.

Definition u64 (x : Z) : Z := wrap 64 x.

(** Conversion to a signed 32-bit [int] (two's complement). *)
Definition s32 (x : Z) : Z := (x + 2 ^ 31) mod 2 ^ 32 - 2 ^ 31.

(** The [b2z] of a C truth value. *)
Definition b2z (b : bool) : Z := if b then 1 else 0.

(** C truth of an integer. *)
Definition truthy (x : Z) : bool := negb (x =? 0).

Lemma truthy_true x : x <> 0 -> truthy x = true.
Proof. intros H. unfold truthy. by rewrite (proj2 (Z.eqb_neq x 0)). Qed.

(** [x & mask] used as a condition. *)
Definition tst (x mask : Z) : bool := truthy (Z.land x mask).

(** The complement of a [w]-bit value. *)
Definition not_w (w x : Z) : Z := wrap w (Z.lnot x).

Definition in_w (w x : Z) : Prop := 0 <= x < 2 ^ w.

(** Bounded loop: [step] says whether to continue from a new state ([inl]) or to
    leave the loop with a result ([inr]); [None] is a memory fault of the body
    or exhausted fuel. *)
Fixpoint loop {S R} (fuel : nat) (step : S -> option (S + R)) (s : S) : option R :=
  match fuel with
  | O => None
  | Datatypes.S fuel' =>
      match step s with
      | None => None
      | Some (inl s') => loop fuel' step s'
      | Some (inr r) => Some r
      end
  end.

(** ** Width lemmas *)

Lemma wrap_in w x : 0 <= w -> in_w w (wrap w x).
Proof. intros. apply Z.mod_pos_bound. by apply Z.pow_pos_nonneg. Qed.

Lemma wrap_small w x : in_w w x -> wrap w x = x.
Proof. apply Z.mod_small. Qed.

Lemma u32_small x : 0 <= x < 2 ^ 32 -> u32 x = x.
Proof. apply Z.mod_small. Qed.

Lemma s32_small x : - 2 ^ 31 <= x < 2 ^ 31 -> s32 x = x.
Proof. intros. unfold s32. rewrite Z.mod_small; lia. Qed.

Lemma s32_range x : - 2 ^ 31 <= s32 x < 2 ^ 31.
Proof. unfold s32. pose proof (Z.mod_pos_bound (x + 2 ^ 31) (2 ^ 32)). lia. Qed.

Lemma s32_add_l x y : s32 (s32 x + y) = s32 (x + y).
Proof.
  unfold s32. replace ((x + 2 ^ 31) mod 2 ^ 32 - 2 ^ 31 + y + 2 ^ 31) with ((x + 2 ^ 31) mod 2 ^ 32 + y) by lia.
  rewrite Zplus_mod_idemp_l. do 2 f_equal. lia.
Qed.

Lemma s32_u32 x : s32 (u32 x) = s32 x.
Proof. unfold s32, u32, wrap. by rewrite Zplus_mod_idemp_l. Qed.

Lemma wrap_testbit w x i :
  0 <= w -> Z.testbit (wrap w x) i = (i <? w) && Z.testbit x i.
Proof.
  intros Hw. unfold wrap. destruct (Z.ltb_spec i w); simpl.
  - destruct (Z.leb_spec 0 i); [apply Z.mod_pow2_bits_low; lia|].
    by rewrite !Z.testbit_neg_r by lia.
  - apply Z.mod_pow2_bits_high; lia.
Qed.

Lemma in_w_testbit w x i : in_w w x -> w <= i -> Z.testbit x i = false.
Proof.
  intros Hx Hi. destruct (Z.leb_spec 0 w).
  - rewrite <- (wrap_small w x Hx), wrap_testbit by lia.
    by replace (i <? w) with false by lia.
  - unfold in_w in Hx. rewrite Z.pow_neg_r in Hx; lia.
Qed.

Lemma in_w_of_testbit w x :
  0 <= w -> 0 <= x -> (forall i, w <= i -> Z.testbit x i = false) -> in_w w x.
Proof.
  intros Hw Hx Hb. replace x with (wrap w x).
  - by apply wrap_in.
  - apply Z.bits_inj'. intros i Hi. rewrite wrap_testbit by done.
    destruct (Z.ltb_spec i w); simpl; [done|]. symmetry. apply Hb. lia.
Qed.

Lemma in_w_mono w w' x : 0 <= w <= w' -> in_w w x -> in_w w' x.
Proof.
  unfold in_w. intros Hw Hx. pose proof (Z.pow_le_mono_r 2 w w'). lia.
Qed.

Lemma in_w_lxor w x y : 0 <= w -> in_w w x -> in_w w y -> in_w w (Z.lxor x y).
Proof.
  intros Hw Hx Hy. apply in_w_of_testbit; [done| |].
  - apply Z.lxor_nonneg. unfold in_w in *. lia.
  - intros i Hi. rewrite Z.lxor_spec, !(in_w_testbit w); done.
Qed.

Lemma in_w_lor w x y : 0 <= w -> in_w w x -> in_w w y -> in_w w (Z.lor x y).
Proof.
  intros Hw Hx Hy. apply in_w_of_testbit; [done| |].
  - apply Z.lor_nonneg. unfold in_w in *. lia.
  - intros i Hi. rewrite Z.lor_spec, !(in_w_testbit w); done.
Qed.

Lemma in_w_land w x y : 0 <= w -> in_w w x -> 0 <= y -> in_w w (Z.land x y).
Proof.
  intros Hw Hx Hy. apply in_w_of_testbit; [done| |].
  - apply Z.land_nonneg. unfold in_w in *. lia.
  - intros i Hi. rewrite Z.land_spec, (in_w_testbit w x); done.
Qed.

Lemma in_w_shiftr w x k : 0 <= w -> 0 <= k -> in_w w x -> in_w w (Z.shiftr x k).
Proof.
  intros Hw Hk Hx. apply in_w_of_testbit; [done| |].
  - apply Z.shiftr_nonneg. unfold in_w in *. lia.
  - intros i Hi. rewrite Z.shiftr_spec by lia. apply (in_w_testbit w); [done|lia].
Qed.

Create HintDb width.
#[export] Hint Resolve wrap_in in_w_lxor in_w_lor in_w_land in_w_shiftr : width.
#[export] Hint Extern 1 (0 <= _) => lia : width.

(** ** Bitwise equality of integers *)

Create Rewrite HintDb bits.
#[export] Hint Rewrite Z.lxor_spec Z.lor_spec Z.land_spec Z.ldiff_spec
  Z.testbit_0_l : bits.
#[export] Hint Rewrite wrap_testbit Z.shiftr_spec Z.shiftl_spec Z.lnot_spec
  using lia : bits.

(** Reduce an equation between integers to one between their bits. *)
Ltac by_bits i Hi :=
  apply Z.bits_inj'; intros i Hi; autorewrite with bits.

Lemma wrap_lxor w x y : 0 <= w -> wrap w (Z.lxor x y) = Z.lxor (wrap w x) (wrap w y).
Proof. intros. by_bits i Hi. by destruct (i <? w), (Z.testbit x i), (Z.testbit y i). Qed.

Lemma wrap_lor w x y : 0 <= w -> wrap w (Z.lor x y) = Z.lor (wrap w x) (wrap w y).
Proof. intros. by_bits i Hi. by destruct (i <? w), (Z.testbit x i), (Z.testbit y i). Qed.

Lemma wrap_land w x y : 0 <= w -> wrap w (Z.land x y) = Z.land (wrap w x) (wrap w y).
Proof. intros. by_bits i Hi. by destruct (i <? w), (Z.testbit x i), (Z.testbit y i). Qed.

(** ** Byte buffers

    A C object of [n] bytes is a list of [n] values.  Reads and writes outside
    the object are faults ([None]). *)

Definition in_range (n : Z) (off len : Z) : bool :=
  (0 <=? off) && (0 <=? len) && (off + len <=? n).

Definition blen {A} (l : list A) : Z := Z.of_nat (length l).

(** [copy_bytes(dst + doff, src + soff, n)] between two distinct objects. *)
Definition copy_bytes {A} (dst : list A) (doff : Z) (src : list A) (soff n : Z) : option (list A) :=
  if in_range (blen dst) doff n && in_range (blen src) soff n
  then Some (list_inserts (Z.to_nat doff) (take (Z.to_nat n) (drop (Z.to_nat soff) src)) dst)
  else None.

Definition get (l : list Z) (i : Z) : option Z :=
  if 0 <=? i then l !! Z.to_nat i else None.

Definition set (l : list Z) (i v : Z) : option (list Z) :=
  if (0 <=? i) && (i <? blen l) then Some (<[Z.to_nat i := v]> l) else None.

Lemma copy_Some {A} (dst src : list A) doff soff n :
  0 <= doff -> 0 <= n -> 0 <= soff -> doff + n <= blen dst -> soff + n <= blen src ->
  copy_bytes dst doff src soff n =
  Some (list_inserts (Z.to_nat doff) (take (Z.to_nat n) (drop (Z.to_nat soff) src)) dst).
Proof.
  intros. unfold copy_bytes, in_range.
  by rewrite !(proj2 (Z.leb_le _ _)) by lia.
Qed.

(** The byte at index [j] after a copy. *)
Lemma copy_lookup {A} (dst src d : list A) doff soff n j :
  copy_bytes dst doff src soff n = Some d -> 0 <= j ->
  d !! Z.to_nat j =
    if (doff <=? j) && (j <? doff + n) then src !! Z.to_nat (soff + (j - doff))
    else dst !! Z.to_nat j.
Proof.
  unfold copy_bytes, in_range, blen. intros H Hj. case_match eqn:Hr; [|done]. simplify_eq.
  destruct (Z.leb_spec doff j), (Z.ltb_spec j (doff + n)); simpl.
  - rewrite list_lookup_inserts; [|rewrite length_take, length_drop; lia|lia].
    rewrite lookup_take_lt, lookup_drop by lia. f_equal. lia.
  - rewrite list_lookup_inserts_ge; [done|rewrite length_take, length_drop; lia].
  - by rewrite list_lookup_inserts_lt by lia.
  - by rewrite list_lookup_inserts_lt by lia.
Qed.

Lemma copy_length {A} (dst src d : list A) doff soff n :
  copy_bytes dst doff src soff n = Some d -> length d = length dst.
Proof. unfold copy_bytes. case_match; intros; simplify_eq. apply length_inserts. Qed.

(** ** Powers of two and modular arithmetic *)

Lemma land_mask x k : 0 <= k -> Z.land x (2 ^ k - 1) = x mod 2 ^ k.
Proof. intros. rewrite Z.sub_1_r, <- Z.ones_equiv. by apply Z.land_ones. Qed.

Lemma wrap_mod_pow2 w x k : 0 <= k <= w -> wrap w x mod 2 ^ k = x mod 2 ^ k.
Proof.
  intros. unfold wrap. apply Z.mod_mod_divide.
  exists (2 ^ (w - k)). rewrite <- Z.pow_add_r by lia. f_equal. lia.
Qed.

Lemma mod_add_inj x a b n :
  0 <= a < n -> 0 <= b < n -> (x + a) mod n = (x + b) mod n -> a = b.
Proof.
  intros Ha Hb H.
  pose proof (Z.div_mod (x + a) n). pose proof (Z.div_mod (x + b) n).
  assert (n * ((x + a) / n - (x + b) / n) = a - b) by lia.
  assert ((x + a) / n - (x + b) / n = 0) by nia. lia.
Qed.

(** An offset into a ring, split at the end of the ring. *)
Lemma mod_add_split x i n :
  0 < n -> 0 <= i < n ->
  (x + i) mod n = if i <? n - x mod n then x mod n + i else i - (n - x mod n).
Proof.
  intros Hn Hi. pose proof (Z.mod_pos_bound x n Hn). pose proof (Z.div_mod x n).
  destruct (Z.ltb_spec i (n - x mod n)).
  - rewrite <- Z.add_mod_idemp_l by lia. apply Z.mod_small. lia.
  - rewrite <- Z.add_mod_idemp_l by lia.
    symmetry. apply (Z.mod_unique_pos _ _ 1); lia.
Qed.

Lemma copy_ok {A} (dst src : list A) doff soff n :
  0 <= doff -> 0 <= n -> 0 <= soff -> doff + n <= blen dst -> soff + n <= blen src ->
  exists d, copy_bytes dst doff src soff n = Some d /\ blen d = blen dst.
Proof.
  intros. eexists. rewrite copy_Some by lia. split; [done|].
  unfold blen. by rewrite length_inserts.
Qed.

(** The classical power-of-two test. *)
Lemma land_pred_pow2 n : 0 < n -> Z.land n (n - 1) = 0 <-> n = 2 ^ Z.log2 n.
Proof.
  intros Hn. pose proof (Z.log2_spec n Hn) as Hl. pose proof (Z.log2_nonneg n).
  split.
  - intros Hz. destruct (decide (n = 2 ^ Z.log2 n)) as [|Hne]; [done|exfalso].
    assert (Z.testbit (Z.land n (n - 1)) (Z.log2 n) = true) as Ht; [|by rewrite Hz, Z.bits_0 in Ht].
    rewrite Z.land_spec, Z.bit_log2 by lia. simpl.
    assert (Z.log2 (n - 1) = Z.log2 n) as <- by (apply Z.log2_unique; lia).
    apply Z.bit_log2. lia.
  - intros ->. rewrite land_mask by lia. apply Z.mod_same. lia.
Qed.

(** A [Forall] over an explicit list, from hypotheses about its elements. *)
Ltac forall_list :=
  repeat (apply List.Forall_cons; [assumption|]); try apply List.Forall_nil.

(** ** Folds *)

Lemma fold_left_cons {A B} (f : A -> B -> A) x l a :
  fold_left f (x :: l) a = fold_left f l (f a x).
Proof. reflexivity. Qed.

Lemma fold_left_ext_in {A B} (P : B -> Prop) (f g : A -> B -> A) l a :
  Forall P l -> (forall a x, P x -> f a x = g a x) -> fold_left f l a = fold_left g l a.
Proof.
  intros Hl H. revert a. induction Hl as [|x l Hx Hl IH]; intros a; simpl; [done|].
  by rewrite H, IH.
Qed.

(** ** Sums *)

Definition zsum (l : list Z) : Z := foldr Z.add 0 l.

Lemma zsum_insert l i x y : l !! i = Some x -> zsum (<[i := y]> l) = zsum l - x + y.
Proof.
  revert i. induction l as [|z l IH]; intros [|i]; simpl; try done.
  - intros [= ->]. lia.
  - intros H. rewrite (IH i H). lia.
Qed.

Lemma zsum_fmap_insert {A} (f : A -> Z) l i x y :
  l !! i = Some x -> zsum (f <$> <[i := y]> l) = zsum (f <$> l) - f x + f y.
Proof. intros H. rewrite list_fmap_insert. apply zsum_insert. by rewrite list_lookup_fmap, H. Qed.

Lemma zsum_nonneg {A} (f : A -> Z) l : (forall x, x ∈ l -> 0 <= f x) -> 0 <= zsum (f <$> l).
Proof.
  induction l as [|x l IH]; intros H; [done|]. change (zsum (f <$> x :: l)) with (f x + zsum (f <$> l)).
  apply Z.add_nonneg_nonneg; [apply H; left|]. apply IH. intros y Hy. apply H. by right.
Qed.

(** ** Assigning to a field of a struct

    [r <| f := v |>] is the record [r] with the field [f] set to [v], and
    [r <| f ::= g |>] the one with [g] applied to it.  A record type takes part
    when its [Fields] instance lists the fields once. *)

Class Fields (R : Type) := rebuild : R -> R.

Class Assign {R E : Type} (f : R -> E) := assign : (E -> E) -> R -> R.

Ltac solve_assign :=
  match goal with
  | |- @Assign ?R ?E ?f =>
      let g := fresh "g" in
      let r := fresh "r" in
      intros g r;
      lazymatch constr:(rebuild r) with
      | @rebuild _ ?fields _ =>
          let body := eval hnf in (fields r) in
          lazymatch eval pattern (f r) in body with
          | ?P _ => let t := eval cbv beta in (P (g (f r))) in exact t
          end
      end
  end.

#[export] Hint Extern 1 (Assign _) => solve_assign : typeclass_instances.

Notation "r <| f := v |>" := (assign (f := f) (fun _ => v) r) (at level 1, left associativity).
Notation "r <| f ::= g |>" := (assign (f := f) g r) (at level 1, left associativity).
