(* ===== verification/Kfifo.v ===== *)
(** * kernel/kfifo.c: the kernel's byte FIFO

    A ring buffer of a power-of-two size whose two indices are free-running
    [unsigned int]s.  [kfifo_init], [kfifo_alloc], [__kfifo_put], [__kfifo_get]
    and the inline functions of include/linux/kfifo.h are functions on the record
    [kfifo]; a copy outside the ring or outside the caller's buffer is a fault.
    [rep] relates a ring to the queue of bytes it holds, and the last part of the
    file interleaves one lock-free producer with one lock-free consumer byte by
    byte, as the comment on [__kfifo_put] allows. *)

From S2P Require Import Prelude.

Local Open Scope Z_scope.

(** ** The structure and its operations *)

(** [struct kfifo]; the lock is not part of the data. *)
Record kfifo := mk_kfifo {
  buffer : list Z;
  size : Z;
  in_ : Z;
  out : Z
}.

(** [is_power_of_2] of include/linux/log2.h, on a 32-bit argument. *)
Definition is_power_of_2 (n : Z) : bool :=
  negb (n =? 0) && (Z.land n (u32 (n - 1)) =? 0).

(** [fls_long]: the position of the most significant set bit, counted from 1. *)
Definition fls_long (x : Z) : Z := if x =? 0 then 0 else Z.log2 x + 1.

Definition roundup_pow_of_two (n : Z) : Z := u32 (Z.shiftl 1 (fls_long (u32 (n - 1)))).

(** Outcome of an allocation: [BUG_ON] fired, [ERR_PTR(-ENOMEM)], or a FIFO. *)
Inductive alloc_result :=
| BUG
| ENOMEM
| FIFO (f : kfifo).

(** [ok] says whether [kmalloc] of the header succeeds. *)
Definition kfifo_init (ok : bool) (buf : list Z) (sz : Z) : alloc_result :=
  if negb (is_power_of_2 sz) then BUG
  else if negb ok then ENOMEM
  else FIFO (mk_kfifo buf sz 0 0).

(** [kmalloc sz] returns the bytes of the new buffer, if it succeeds. *)
Definition kfifo_alloc (ok : bool) (kmalloc : Z -> option (list Z)) (sz : Z) : alloc_result :=
  let size1 :=
    if truthy (Z.land sz (u32 (sz - 1)))
    then if 0x80000000 <? sz then None else Some (roundup_pow_of_two sz)
    else Some sz in
  match size1 with
  | None => BUG
  | Some sz' =>
      match kmalloc sz' with
      | None => ENOMEM
      | Some buf => kfifo_init ok buf sz'
      end
  end.

Definition put_len (f : kfifo) (len : Z) : Z :=
  Z.min len (u32 (size f - in_ f + out f)).

Definition put_first (f : kfifo) (len : Z) : Z :=
  Z.min len (u32 (size f - Z.land (in_ f) (u32 (size f - 1)))).

Definition __kfifo_put (f : kfifo) (data : list Z) (len0 : Z) : option (kfifo * Z) :=
  let len := put_len f len0 in
  let l := put_first f len in
  b1 ← copy_bytes (buffer f) (Z.land (in_ f) (u32 (size f - 1))) data 0 l;
  b2 ← copy_bytes b1 0 data l (u32 (len - l));
  Some (mk_kfifo b2 (size f) (u32 (in_ f + len)) (out f), len).

Definition get_len (f : kfifo) (len : Z) : Z := Z.min len (u32 (in_ f - out f)).

Definition get_first (f : kfifo) (len : Z) : Z :=
  Z.min len (u32 (size f - Z.land (out f) (u32 (size f - 1)))).

(** The destination buffer is returned with the new state. *)
Definition __kfifo_get (f : kfifo) (dst : list Z) (len0 : Z) : option (kfifo * list Z * Z) :=
  let len := get_len f len0 in
  let l := get_first f len in
  d1 ← copy_bytes dst 0 (buffer f) (Z.land (out f) (u32 (size f - 1))) l;
  d2 ← copy_bytes d1 l (buffer f) 0 (u32 (len - l));
  Some (mk_kfifo (buffer f) (size f) (in_ f) (u32 (out f + len)), d2, len).

Definition __kfifo_reset (f : kfifo) : kfifo := mk_kfifo (buffer f) (size f) 0 0.

Definition __kfifo_len (f : kfifo) : Z := u32 (in_ f - out f).

(** The locked variants run the body between [spin_lock_irqsave] and
    [spin_unlock_irqrestore]. *)
Definition kfifo_reset := __kfifo_reset.

Definition kfifo_len := __kfifo_len.

Definition kfifo_put := __kfifo_put.

Definition kfifo_get (f : kfifo) (dst : list Z) (len : Z) : option (kfifo * list Z * Z) :=
  '(f', d, ret) ← __kfifo_get f dst len;
  Some ((if in_ f' =? out f' then mk_kfifo (buffer f') (size f') 0 0 else f'), d, ret).

(** ** Representation *)

(** The size is a power of two, the indices are [unsigned int]s. *)
Record wf (f : kfifo) : Prop := mk_wf {
  wf_size : exists k, 0 <= k <= 31 /\ size f = 2 ^ k;
  wf_buffer : blen (buffer f) = size f;
  wf_in : in_w 32 (in_ f);
  wf_out : in_w 32 (out f)
}.

(** The ring holds the queue [q], oldest byte first. *)
Record rep (f : kfifo) (q : list Z) : Prop := mk_rep {
  rep_wf : wf f;
  rep_len : u32 (in_ f - out f) = blen q;
  rep_fits : blen q <= size f;
  rep_bytes : forall i, 0 <= i < blen q ->
    buffer f !! Z.to_nat ((out f + i) mod size f) = q !! Z.to_nat i
}.

Lemma wf_size_bounds f : wf f -> 0 < size f < 2 ^ 32.
Proof.
  intros [(k & Hk & ->) _ _ _].
  pose proof (Z.pow_pos_nonneg 2 k). pose proof (Z.pow_lt_mono_r 2 k 32). lia.
Qed.

Lemma wf_mask f x : wf f -> Z.land x (u32 (size f - 1)) = x mod size f.
Proof.
  intros Hf. pose proof (wf_size_bounds f Hf). destruct Hf as [(k & Hk & Hs) _ _ _].
  unfold u32. rewrite wrap_small by (unfold in_w; lia).
  rewrite Hs. apply land_mask. lia.
Qed.

Lemma wf_u32_mod f x : wf f -> u32 x mod size f = x mod size f.
Proof. intros [(k & Hk & ->) _ _ _]. unfold u32. apply wrap_mod_pow2. lia. Qed.

Lemma wf_mod f x : wf f -> 0 <= x mod size f < size f.
Proof. intros Hf. apply Z.mod_pos_bound. pose proof (wf_size_bounds f Hf). lia. Qed.

Lemma u32_eq_mod x y : u32 x = u32 y -> exists k, x = y + k * 2 ^ 32.
Proof.
  unfold u32, wrap. intros H. exists (x / 2 ^ 32 - y / 2 ^ 32).
  pose proof (Z.div_mod x (2 ^ 32)). pose proof (Z.div_mod y (2 ^ 32)). lia.
Qed.

(** The write index points just behind the last byte of the queue. *)
Lemma rep_in_slot f q i : rep f q -> (in_ f + i) mod size f = (out f + blen q + i) mod size f.
Proof.
  intros [Hf Hl Hs _]. pose proof (wf_size_bounds f Hf).
  assert (u32 (in_ f - out f) = u32 (blen q)) as (k & Hk)%u32_eq_mod.
  { rewrite Hl. unfold u32. rewrite wrap_small; [done|]. unfold in_w, blen in *. lia. }
  rewrite <- (wf_u32_mod f (in_ f + i)), <- (wf_u32_mod f (out f + _ + i)) by done.
  f_equal. unfold u32, wrap. replace (in_ f + i) with (out f + blen q + i + k * 2 ^ 32) by lia.
  apply Z_mod_plus_full.
Qed.

(** Free space, as [__kfifo_put] computes it. *)
Lemma rep_space f q : rep f q -> u32 (size f - in_ f + out f) = size f - blen q.
Proof.
  intros [Hf Hl Hs _]. pose proof (wf_size_bounds f Hf).
  assert (u32 (in_ f - out f) = u32 (blen q)) as (k & Hk)%u32_eq_mod.
  { rewrite Hl. unfold u32. rewrite wrap_small; [done|]. unfold in_w, blen in *. lia. }
  unfold u32, wrap. replace (size f - in_ f + out f) with (size f - blen q + (-k) * 2 ^ 32) by lia.
  rewrite Z_mod_plus_full. apply Z.mod_small. unfold blen in *. lia.
Qed.

Lemma wf_first f x : wf f -> u32 (size f - x mod size f) = size f - x mod size f.
Proof.
  intros Hf. pose proof (wf_size_bounds f Hf). pose proof (wf_mod f x Hf).
  apply wrap_small. unfold in_w. lia.
Qed.

(** ** The two copies of [__kfifo_put] and [__kfifo_get] *)

Lemma ring_write f (b : list Z) x (data : list Z) n :
  wf f -> blen b = size f -> 0 <= n <= size f -> n <= blen data ->
  exists b1 b2,
    copy_bytes b (x mod size f) data 0 (Z.min n (size f - x mod size f)) = Some b1 /\
    copy_bytes b1 0 data (Z.min n (size f - x mod size f))
      (n - Z.min n (size f - x mod size f)) = Some b2 /\
    blen b2 = size f /\
    (forall i, 0 <= i < n -> b2 !! Z.to_nat ((x + i) mod size f) = data !! Z.to_nat i) /\
    (forall i, n <= i < size f ->
       b2 !! Z.to_nat ((x + i) mod size f) = b !! Z.to_nat ((x + i) mod size f)).
Proof.
  intros Hf Hb Hn Hd. pose proof (wf_size_bounds f Hf). pose proof (wf_mod f x Hf).
  destruct (copy_ok b data (x mod size f) 0 (Z.min n (size f - x mod size f)))
    as (b1 & Hc1 & Hl1); [lia..|].
  destruct (copy_ok b1 data 0 (Z.min n (size f - x mod size f))
    (n - Z.min n (size f - x mod size f))) as (b2 & Hc2 & Hl2); [lia..|].
  exists b1, b2. do 3 (split; [done || lia|]).
  assert (forall i, 0 <= i < size f -> 0 <= (x + i) mod size f) as Hpos
    by (intros; apply Z.mod_pos_bound; lia).
  split; intros i Hi; rewrite (copy_lookup _ _ _ _ _ _ _ Hc2) by (apply Hpos; lia);
    rewrite (copy_lookup _ _ _ _ _ _ _ Hc1) by (apply Hpos; lia);
    rewrite mod_add_split by lia;
    destruct (Z.ltb_spec i (size f - x mod size f));
    repeat (case_match; try lia); f_equal; lia.
Qed.

Lemma ring_read f x (dst : list Z) n :
  wf f -> 0 <= n <= size f -> n <= blen dst ->
  exists d1 d2,
    copy_bytes dst 0 (buffer f) (x mod size f) (Z.min n (size f - x mod size f)) = Some d1 /\
    copy_bytes d1 (Z.min n (size f - x mod size f)) (buffer f) 0
      (n - Z.min n (size f - x mod size f)) = Some d2 /\
    blen d2 = blen dst /\
    (forall i, 0 <= i < n -> d2 !! Z.to_nat i = buffer f !! Z.to_nat ((x + i) mod size f)) /\
    (forall i, n <= i -> d2 !! Z.to_nat i = dst !! Z.to_nat i).
Proof.
  intros Hf Hn Hd. pose proof (wf_size_bounds f Hf). pose proof (wf_mod f x Hf).
  pose proof (wf_buffer f Hf) as Hb.
  destruct (copy_ok dst (buffer f) 0 (x mod size f) (Z.min n (size f - x mod size f)))
    as (d1 & Hc1 & Hl1); [lia..|].
  destruct (copy_ok d1 (buffer f) (Z.min n (size f - x mod size f)) 0
    (n - Z.min n (size f - x mod size f))) as (d2 & Hc2 & Hl2); [lia..|].
  exists d1, d2. do 3 (split; [done || lia|]).
  split; intros i Hi; rewrite (copy_lookup _ _ _ _ _ _ _ Hc2) by lia;
    rewrite (copy_lookup _ _ _ _ _ _ _ Hc1) by lia;
    try (rewrite mod_add_split by lia;
    destruct (Z.ltb_spec i (size f - x mod size f)));
    repeat (case_match; try lia); f_equal; lia.
Qed.

Lemma put_first_eq f n : wf f -> put_first f n = Z.min n (size f - in_ f mod size f).
Proof. intros Hf. unfold put_first. by rewrite wf_mask, wf_first. Qed.

Lemma get_first_eq f n : wf f -> get_first f n = Z.min n (size f - out f mod size f).
Proof. intros Hf. unfold get_first. by rewrite wf_mask, wf_first. Qed.

Lemma rest_eq n m : 0 <= n < 2 ^ 32 -> 0 <= m -> u32 (n - Z.min n m) = n - Z.min n m.
Proof. intros. apply wrap_small. unfold in_w. lia. Qed.

(** Appending bytes at the write index. *)
Lemma rep_append f q b (data : list Z) n :
  rep f q -> 0 <= n <= size f - blen q -> n <= blen data -> blen b = size f ->
  (forall i, 0 <= i < n -> b !! Z.to_nat ((in_ f + i) mod size f) = data !! Z.to_nat i) ->
  (forall i, n <= i < size f ->
     b !! Z.to_nat ((in_ f + i) mod size f) = buffer f !! Z.to_nat ((in_ f + i) mod size f)) ->
  rep (mk_kfifo b (size f) (u32 (in_ f + n)) (out f)) (q ++ take (Z.to_nat n) data).
Proof.
  intros Hr Hn Hd Hb Hnew Hold. pose proof Hr as [Hf Hl Hs Hq].
  pose proof (wf_size_bounds f Hf). destruct Hf as [Hsz Hbl Hin Hout].
  assert (blen (q ++ take (Z.to_nat n) data) = blen q + n) as Hlen.
  { unfold blen in *. rewrite length_app, length_take. lia. }
  assert (0 <= blen q) by (unfold blen; lia).
  split; simpl.
  - split; simpl; try done. by apply wrap_in.
  - rewrite Hlen. unfold u32, wrap. rewrite Zminus_mod_idemp_l.
    assert (u32 (in_ f - out f) = u32 (blen q)) as (k & Hk)%u32_eq_mod.
    { rewrite Hl. unfold u32. rewrite wrap_small; [done|]. unfold in_w. lia. }
    replace (in_ f + n - out f) with (blen q + n + k * 2 ^ 32) by lia.
    rewrite Z_mod_plus_full. apply Z.mod_small. lia.
  - lia.
  - intros i Hi. destruct (Z.ltb_spec i (blen q)).
    + rewrite lookup_app_l by (unfold blen in *; lia). rewrite <- Hq by lia.
      replace ((out f + i) mod size f)
        with ((in_ f + (size f - blen q + i)) mod size f).
      * apply Hold. lia.
      * rewrite rep_in_slot with (q := q) by done.
        rewrite <- (Z_mod_plus_full (out f + i) 1). f_equal. lia.
    + rewrite lookup_app_r by (unfold blen in *; lia).
      rewrite lookup_take_lt by (unfold blen in *; lia).
      replace (Z.to_nat i - length q)%nat with (Z.to_nat (i - blen q)) by (unfold blen in *; lia).
      rewrite <- Hnew by lia. do 2 f_equal.
      rewrite rep_in_slot with (q := q) by done. f_equal. lia.
Qed.

(** Dropping bytes at the read index. *)
Lemma rep_drop f q n :
  rep f q -> 0 <= n <= blen q ->
  rep (mk_kfifo (buffer f) (size f) (in_ f) (u32 (out f + n))) (drop (Z.to_nat n) q).
Proof.
  intros Hr Hn. pose proof Hr as [Hf Hl Hs Hq].
  pose proof (wf_size_bounds f Hf). pose proof Hf as [Hsz Hbl Hin Hout].
  assert (blen (drop (Z.to_nat n) q) = blen q - n) as Hlen.
  { unfold blen in *. rewrite length_drop. lia. }
  split; simpl.
  - split; simpl; try done. by apply wrap_in.
  - rewrite Hlen. unfold u32, wrap. rewrite Zminus_mod_idemp_r.
    assert (u32 (in_ f - out f) = u32 (blen q)) as (k & Hk)%u32_eq_mod.
    { rewrite Hl. unfold u32. rewrite wrap_small; [done|]. unfold in_w. lia. }
    replace (in_ f - (out f + n)) with (blen q - n + k * 2 ^ 32) by lia.
    rewrite Z_mod_plus_full. apply Z.mod_small. lia.
  - lia.
  - intros i Hi. rewrite lookup_drop, <- Z2Nat.inj_add, <- Hq by lia. do 2 f_equal.
    rewrite <- Z.add_mod_idemp_l, wf_u32_mod, Z.add_mod_idemp_l by (done || lia).
    f_equal. lia.
Qed.

Lemma rep_reset f : wf f -> rep (mk_kfifo (buffer f) (size f) 0 0) [].
Proof.
  intros Hf. pose proof (wf_size_bounds f Hf). destruct Hf.
  split; simpl.
  - split; simpl; try done; unfold in_w; lia.
  - done.
  - unfold blen; simpl; lia.
  - unfold blen; simpl; lia.
Qed.

(** Two rings of four bytes, used in the examples below. *)
Definition fifo4 : kfifo := mk_kfifo [0; 0; 0; 0] 4 0 0.

Definition fifo4_two : kfifo := mk_kfifo [7; 8; 0; 0] 4 2 0.

Lemma fifo4_rep : rep fifo4 [].
Proof. split; [split; [by exists 2|done|done..]|done|done|]. intros i Hi. unfold blen in Hi. simpl in Hi. lia. Qed.

Lemma fifo4_two_rep : rep fifo4_two [7; 8].
Proof.
  split; [split; [by exists 2|done|done..]|done|done|]. intros i Hi. unfold blen in Hi. simpl in Hi.
  assert (i = 0 \/ i = 1) as [-> | ->] by lia; done.
Qed.

Lemma put_appends f q data len :
  rep f q -> 0 <= len <= blen data ->
  exists f',
    __kfifo_put f data len = Some (f', Z.min len (size f - blen q)) /\
    rep f' (q ++ take (Z.to_nat (Z.min len (size f - blen q))) data) /\ size f' = size f.
Proof.
  intros Hr Hd. pose proof Hr as [Hf Hl Hs Hq]. pose proof (wf_size_bounds f Hf).
  assert (0 <= blen q) by (unfold blen; lia).
  unfold __kfifo_put, put_len. rewrite rep_space with (q := q) by done.
  set (n := Z.min len (size f - blen q)).
  destruct (ring_write f (buffer f) (in_ f) data n) as (b1 & b2 & Hc1 & Hc2 & Hb & Hnew & Hold);
    [done|by apply wf_buffer|lia|lia|].
  rewrite put_first_eq, wf_mask by done. pose proof (wf_mod f (in_ f) Hf).
  rewrite rest_eq by lia. rewrite Hc1. simpl. rewrite Hc2. simpl.
  eexists. split; [done|]. split; [|done]. apply rep_append; try done; lia.
Qed.

Lemma get_removes f q dst len :
  rep f q -> 0 <= len <= blen dst ->
  exists f' dst',
    kfifo_get f dst len = Some (f', dst', Z.min len (blen q)) /\
    rep f' (drop (Z.to_nat (Z.min len (blen q))) q) /\
    take (Z.to_nat (Z.min len (blen q))) dst' = take (Z.to_nat (Z.min len (blen q))) q /\
    drop (Z.to_nat (Z.min len (blen q))) dst' = drop (Z.to_nat (Z.min len (blen q))) dst.
Proof.
  intros Hr Hd. pose proof Hr as [Hf Hl Hs Hq]. pose proof (wf_size_bounds f Hf).
  assert (0 <= blen q) by (unfold blen; lia).
  unfold kfifo_get, __kfifo_get, get_len. rewrite Hl. set (n := Z.min len (blen q)).
  destruct (ring_read f (out f) dst n) as (d1 & d2 & Hc1 & Hc2 & Hb & Hnew & Hold);
    [done|lia|lia|].
  rewrite get_first_eq, wf_mask by done. pose proof (wf_mod f (out f) Hf).
  rewrite rest_eq by lia. rewrite Hc1. simpl. rewrite Hc2. simpl.
  pose proof (rep_drop f q n Hr ltac:(lia)) as Hr'.
  eexists _, d2. split; [done|]. split_and!.
  - case_match; [|done]. pose proof Hr' as [Hf' Hl' _ _]. simpl in *.
    replace (drop (Z.to_nat n) q) with (@nil Z); [by apply (rep_reset _ Hf')|].
    symmetry. apply nil_length_inv. apply Nat2Z.inj. fold (blen (drop (Z.to_nat n) q)).
    rewrite <- Hl'. rewrite (proj1 (Z.eqb_eq _ _) H2). unfold u32, wrap. by rewrite Z.sub_diag.
  - apply list_eq. intros i. destruct (decide (i < Z.to_nat n)%nat).
    + rewrite !lookup_take_lt by done. replace i with (Z.to_nat (Z.of_nat i)) by lia.
      rewrite Hnew by lia. apply Hq. lia.
    + by rewrite !lookup_take_ge by lia.
  - apply list_eq. intros i. rewrite !lookup_drop.
    replace (Z.to_nat n + i)%nat with (Z.to_nat (n + Z.of_nat i)) by lia. apply Hold. lia.
Qed.

(** C33: A ring that holds the sequence q behaves as a bounded queue: __kfifo_put appends as many
    bytes as there is room for and returns their number, also when in and out have wrapped
    around 32 bits; kfifo_get stores the oldest bytes into the destination, removes them and
    returns their number, leaves the rest of the destination alone, and is right also where it
    resets the indices of a ring it has emptied. *)
Theorem kfifo_refines_queue f q data plen dst glen :
  rep f q -> 0 <= plen <= blen data -> 0 <= glen <= blen dst ->
  (exists f',
    __kfifo_put f data plen = Some (f', Z.min plen (size f - blen q)) /\
    rep f' (q ++ take (Z.to_nat (Z.min plen (size f - blen q))) data) /\ size f' = size f) /\
  exists f' dst',
    kfifo_get f dst glen = Some (f', dst', Z.min glen (blen q)) /\
    rep f' (drop (Z.to_nat (Z.min glen (blen q))) q) /\
    take (Z.to_nat (Z.min glen (blen q))) dst' = take (Z.to_nat (Z.min glen (blen q))) q /\
    drop (Z.to_nat (Z.min glen (blen q))) dst' = drop (Z.to_nat (Z.min glen (blen q))) dst.
Proof. intros. split; [by apply put_appends|by apply get_removes]. Qed.

Lemma kfifo_refines_queue_witness :
  (exists f', __kfifo_put fifo4_two [1; 2; 3] 3 = Some (f', 2) /\ rep f' [7; 8; 1; 2] /\ size f' = 4) /\
  exists f' dst', kfifo_get fifo4_two [0; 0; 0] 3 = Some (f', dst', 2) /\ rep f' [] /\
    take 2 dst' = [7; 8] /\ drop 2 dst' = [0].
Proof.
  exact (kfifo_refines_queue fifo4_two [7; 8] [1; 2; 3] 3 [0; 0; 0] 3 fifo4_two_rep
    ltac:(unfold blen; simpl; lia) ltac:(unfold blen; simpl; lia)).
Defined.

(** [kfifo_alloc] of a size of 1 to 2^31 bytes gives a well-formed empty ring whose size is the
    least power of two that is not smaller. *)
Lemma kfifo_alloc_rounds_up kmalloc sz :
  (forall n, 0 < n -> exists b, kmalloc n = Some b /\ blen b = n) ->
  0 < sz <= 2 ^ 31 ->
  exists f, kfifo_alloc true kmalloc sz = FIFO f /\ rep f [] /\ sz <= size f < 2 * sz.
Proof.
  intros Hk Hsz.
  assert (forall k b, 0 <= k <= 31 -> blen b = 2 ^ k ->
    kfifo_init true b (2 ^ k) = FIFO (mk_kfifo b (2 ^ k) 0 0) /\
    rep (mk_kfifo b (2 ^ k) 0 0) []) as Hinit.
  { intros k b Hkb Hb. pose proof (Z.pow_lt_mono_r 2 k 32).
    pose proof (Z.pow_pos_nonneg 2 k). split.
    - unfold kfifo_init, is_power_of_2, u32. rewrite wrap_small by (unfold in_w; lia).
      rewrite land_mask, Z.mod_same by lia. by destruct (Z.eqb_spec (2 ^ k) 0); [lia|].
    - apply (rep_reset (mk_kfifo b (2 ^ k) 0 0)).
      split; simpl; [by exists k| |unfold in_w..]; lia. }
  unfold kfifo_alloc, truthy, u32. rewrite wrap_small by (unfold in_w; lia).
  destruct (Z.eqb_spec (Z.land sz (sz - 1)) 0) as [He|Hne]; simpl.
  - apply land_pred_pow2 in He; [|lia]. set (k := Z.log2 sz) in *.
    assert (k <= 31) by (apply (Z.pow_le_mono_r_iff 2); lia).
    destruct (Hk sz ltac:(lia)) as (b & -> & Hb). rewrite He in Hb |- *.
    destruct (Hinit k b) as [-> Hrep]; [split; [apply Z.log2_nonneg|lia]|done|].
    eexists. split; [done|]. split; [done|]. simpl. lia.
  - replace (0x80000000 <? sz) with false by lia.
    unfold roundup_pow_of_two, fls_long, u32. rewrite wrap_small with (x := sz - 1) by (unfold in_w; lia).
    replace (sz - 1 =? 0) with false.
    2: { symmetry. apply Z.eqb_neq. intros E. replace sz with 1 in Hne by lia. done. }
    assert (0 < sz - 1) as Hp. { destruct (decide (sz = 1)); [subst; done|lia]. }
    pose proof (Z.log2_spec (sz - 1) Hp) as Hlog. pose proof (Z.log2_nonneg (sz - 1)).
    rewrite <- Z.add_1_r in Hlog. set (k := Z.log2 (sz - 1) + 1) in *.
    assert (k <= 31).
    { enough (Z.log2 (sz - 1) < 31) by lia. apply Z.log2_lt_pow2; lia. }
    pose proof (Z.pow_lt_mono_r 2 k 32). assert (0 < 2 ^ k) by lia.
    rewrite Z.shiftl_1_l, wrap_small by (unfold in_w; lia).
    destruct (Hk (2 ^ k)) as (b & -> & Hb); [lia|].
    destruct (Hinit k b) as [-> Hrep]; [lia|done|].
    eexists. split; [done|]. split; [done|]. simpl.
    assert (2 ^ k = 2 * 2 ^ Z.log2 (sz - 1)) by (unfold k; rewrite Z.pow_add_r; lia).
    lia.
Qed.

(** ** One producer and one consumer without a lock

    The producer runs [__kfifo_put] and the consumer [__kfifo_get] on the same
    ring.  A put samples [out] and fixes its length, copies one byte per step and
    publishes by adding to [in]; a get samples [in], copies one byte per step and
    releases the space by adding to [out].  The memory barriers of the source
    order these three phases; the steps below interleave freely. *)

Inductive producer :=
| PIdle
| PCopy (data : list Z) (n j : Z).

Inductive consumer :=
| CIdle
| CCopy (n : Z) (acc : list Z).

(** [sent] and [rcvd] record the bytes of all completed puts and gets. *)
Record conf := mk_conf {
  ring : kfifo;
  prod : producer;
  cons_ : consumer;
  sent : list Z;
  rcvd : list Z
}.

(** Where byte [j] of a put of [n] bytes goes: the first copy of [__kfifo_put]
    runs to the end of the ring, the second starts at its beginning. *)
Definition put_dest (f : kfifo) (n j : Z) : Z :=
  let l := put_first f n in
  if j <? l then Z.land (in_ f) (u32 (size f - 1)) + j else j - l.

Definition get_src (f : kfifo) (n j : Z) : Z :=
  let l := get_first f n in
  if j <? l then Z.land (out f) (u32 (size f - 1)) + j else j - l.

Inductive step : conf -> conf -> Prop :=
| step_put_begin f c s r data len :
    0 <= len <= blen data ->
    step (mk_conf f PIdle c s r) (mk_conf f (PCopy data (put_len f len) 0) c s r)
| step_put_byte f c s r data n j x b :
    j < n -> get data j = Some x -> set (buffer f) (put_dest f n j) x = Some b ->
    step (mk_conf f (PCopy data n j) c s r)
         (mk_conf (mk_kfifo b (size f) (in_ f) (out f)) (PCopy data n (j + 1)) c s r)
| step_put_end f c s r data n :
    step (mk_conf f (PCopy data n n) c s r)
         (mk_conf (mk_kfifo (buffer f) (size f) (u32 (in_ f + n)) (out f)) PIdle c
                  (s ++ take (Z.to_nat n) data) r)
| step_get_begin f p s r len :
    0 <= len ->
    step (mk_conf f p CIdle s r) (mk_conf f p (CCopy (get_len f len) []) s r)
| step_get_byte f p s r n acc x :
    blen acc < n -> get (buffer f) (get_src f n (blen acc)) = Some x ->
    step (mk_conf f p (CCopy n acc) s r) (mk_conf f p (CCopy n (acc ++ [x])) s r)
| step_get_end f p s r n acc :
    blen acc = n ->
    step (mk_conf f p (CCopy n acc) s r)
         (mk_conf (mk_kfifo (buffer f) (size f) (in_ f) (u32 (out f + n))) p CIdle s (r ++ acc)).

Inductive reachable (f0 : kfifo) : conf -> Prop :=
| reach_init : reachable f0 (mk_conf f0 PIdle CIdle [] [])
| reach_step c c' : reachable f0 c -> step c c' -> reachable f0 c'.

(** The bytes between the two indices are the queue [q]; an unfinished put has
    written a prefix of its data behind them, an unfinished get has read a prefix
    of them. *)
Record inv (c : conf) (q : list Z) : Prop := mk_inv {
  inv_rep : rep (ring c) q;
  inv_stream : sent c = rcvd c ++ q;
  inv_prod :
    match prod c with
    | PIdle => True
    | PCopy data n j =>
        0 <= j <= n /\ n <= blen data /\ n <= size (ring c) - blen q /\
        forall i, 0 <= i < j ->
          buffer (ring c) !! Z.to_nat ((in_ (ring c) + i) mod size (ring c)) =
          data !! Z.to_nat i
    end;
  inv_cons :
    match cons_ c with
    | CIdle => True
    | CCopy n acc => blen acc <= n <= blen q /\ acc `prefix_of` q
    end
}.

Lemma put_dest_slot f n j :
  wf f -> 0 <= j < n -> n <= size f -> put_dest f n j = (in_ f + j) mod size f.
Proof.
  intros Hf Hj Hn. unfold put_dest. rewrite put_first_eq, wf_mask by done.
  pose proof (wf_size_bounds f Hf). rewrite mod_add_split by lia.
  repeat case_match; lia.
Qed.

Lemma get_src_slot f n j :
  wf f -> 0 <= j < n -> n <= size f -> get_src f n j = (out f + j) mod size f.
Proof.
  intros Hf Hj Hn. unfold get_src. rewrite get_first_eq, wf_mask by done.
  pose proof (wf_size_bounds f Hf). rewrite mod_add_split by lia.
  repeat case_match; lia.
Qed.

(** Writing into the free part of the ring keeps the queue. *)
Lemma rep_write_free f q j x b :
  rep f q -> 0 <= j < size f - blen q ->
  set (buffer f) ((in_ f + j) mod size f) x = Some b ->
  rep (mk_kfifo b (size f) (in_ f) (out f)) q.
Proof.
  intros Hr Hj Hb. pose proof Hr as [Hf Hl Hs Hq]. pose proof (wf_size_bounds f Hf).
  unfold set in Hb. case_match eqn:Hrange; [|done]. simplify_eq.
  assert (0 <= blen q) by (unfold blen; lia).
  split; simpl; [|done..|].
  - destruct Hf. split; simpl; try done. unfold blen. by rewrite length_insert.
  - intros i Hi. rewrite list_lookup_insert_ne; [by apply Hq|].
    rewrite rep_in_slot with (q := q) by done. intros E.
    apply Z2Nat.inj in E; [|by apply wf_mod..].
    replace (out f + blen q + j) with (out f + (blen q + j)) in E by lia.
    apply mod_add_inj in E; lia.
Qed.

Lemma set_lookup l k x b j :
  set l k x = Some b -> 0 <= j ->
  b !! Z.to_nat j = if j =? k then Some x else l !! Z.to_nat j.
Proof.
  unfold set, blen. intros Hb Hj. case_match eqn:Hr; [|done]. simplify_eq.
  destruct (Z.eqb_spec j k) as [->|].
  - apply list_lookup_insert_eq. lia.
  - apply list_lookup_insert_ne. lia.
Qed.

Lemma get_lookup l i x : get l i = Some x <-> 0 <= i /\ l !! Z.to_nat i = Some x.
Proof. unfold get. destruct (Z.leb_spec 0 i); split; intros; [|tauto|done|lia]. by split. Qed.

Lemma inv_put_byte f c s r data n j x b q :
  inv (mk_conf f (PCopy data n j) c s r) q ->
  j < n -> get data j = Some x -> set (buffer f) (put_dest f n j) x = Some b ->
  inv (mk_conf (mk_kfifo b (size f) (in_ f) (out f)) (PCopy data n (j + 1)) c s r) q.
Proof.
  intros [Hr Hst (Hj & Hd & Hn & Hdone) Hc] Hjn Hx Hb; simpl in *.
  pose proof (rep_wf _ _ Hr) as Hf. assert (0 <= blen q) by (unfold blen; lia).
  pose proof (wf_size_bounds f Hf).
  rewrite put_dest_slot in Hb by (done || lia). apply get_lookup in Hx as [_ Hx].
  split; simpl; try done.
  - eapply rep_write_free; [done| |done]. lia.
  - split_and!; try lia. intros i Hi. rewrite (set_lookup _ _ _ _ _ Hb) by (by apply wf_mod).
    destruct (Z.eqb_spec ((in_ f + i) mod size f) ((in_ f + j) mod size f)) as [E|E].
    + apply mod_add_inj in E; [|lia..]. by subst.
    + apply Hdone. destruct (decide (i = j)) as [->|]; [done|lia].
Qed.

Lemma inv_put_end f c s r data n q :
  inv (mk_conf f (PCopy data n n) c s r) q ->
  inv (mk_conf (mk_kfifo (buffer f) (size f) (u32 (in_ f + n)) (out f)) PIdle c
               (s ++ take (Z.to_nat n) data) r) (q ++ take (Z.to_nat n) data).
Proof.
  intros [Hr Hst (Hj & Hd & Hn & Hdone) Hc]; simpl in *.
  split; simpl; [|by rewrite Hst, app_assoc|done|].
  - apply rep_append; try done; [lia|]. by destruct Hr as [[] _ _ _].
  - destruct c as [|m acc]; [done|]. destruct Hc as [? Hp]. split.
    + unfold blen in *. rewrite length_app. lia.
    + by apply prefix_app_r.
Qed.

Lemma inv_get_byte f p s r n acc x q :
  inv (mk_conf f p (CCopy n acc) s r) q ->
  blen acc < n -> get (buffer f) (get_src f n (blen acc)) = Some x ->
  inv (mk_conf f p (CCopy n (acc ++ [x])) s r) q.
Proof.
  intros [Hr Hst Hp (Hn & Hpre)] Hlt Hx; simpl in *.
  assert (0 <= blen acc) by (unfold blen; lia). pose proof Hr as [Hf _ Hs Hq].
  rewrite get_src_slot in Hx by (done || lia). apply get_lookup in Hx as [_ Hx].
  rewrite Hq in Hx by lia. split; simpl; try done. split.
  - unfold blen in *. rewrite length_app. simpl. lia.
  - destruct Hpre as [q' ->]. rewrite lookup_app_r in Hx by (unfold blen; lia).
    replace (Z.to_nat (blen acc) - length acc)%nat with 0%nat in Hx by (unfold blen; lia).
    destruct q' as [|y q']; [done|]. simpl in Hx. simplify_eq.
    exists q'. by rewrite <- app_assoc.
Qed.

Lemma inv_get_end f p s r n acc q :
  inv (mk_conf f p (CCopy n acc) s r) q -> blen acc = n ->
  inv (mk_conf (mk_kfifo (buffer f) (size f) (in_ f) (u32 (out f + n))) p CIdle s (r ++ acc))
      (drop (Z.to_nat n) q).
Proof.
  intros [Hr Hst Hp (Hn & Hpre)] Hlen; simpl in *.
  assert (0 <= blen acc) by (unfold blen; lia).
  split; simpl; [apply rep_drop; [done|lia]| | |done].
  - rewrite Hst, <- app_assoc. f_equal. destruct Hpre as [q' ->].
    replace (Z.to_nat n) with (length acc) by (unfold blen in *; lia).
    by rewrite drop_app_length.
  - destruct p as [|data m j]; [done|]. destruct Hp as (? & ? & ? & Hdone).
    split_and!; try done; try lia. unfold blen in *. rewrite length_drop. lia.
Qed.

Lemma step_inv c c' q : inv c q -> step c c' -> exists q', inv c' q'.
Proof.
  intros Hi Hstep. inversion Hstep; subst.
  - exists q. destruct Hi as [Hr Hst _ Hc]. split; simpl in *; try done.
    unfold put_len. rewrite rep_space with (q := q) by done.
    pose proof (rep_fits _ _ Hr). split_and!; try lia.
  - exists q. by eapply inv_put_byte.
  - eexists. by eapply inv_put_end.
  - exists q. destruct Hi as [Hr Hst Hp _]. split; simpl in *; try done.
    unfold get_len. rewrite (rep_len _ _ Hr). unfold blen. simpl. split; [lia|].
    apply prefix_nil.
  - exists q. by eapply inv_get_byte.
  - eexists. by eapply inv_get_end.
Qed.

Lemma reachable_inv f0 c : rep f0 [] -> reachable f0 c -> exists q, inv c q.
Proof.
  intros H0 Hr. induction Hr as [|c c' _ [q Hq] Hs].
  - exists []. by split.
  - by eapply step_inv.
Qed.

(** A byte put, and the next one half way. *)
Definition conf_mid : conf := mk_conf (mk_kfifo [9; 5; 0; 0] 4 1 0) (PCopy [5; 6] 2 1) CIdle [9] [].

Lemma conf_mid_reachable : reachable fifo4 conf_mid.
Proof.
  eapply reach_step; [|apply (step_put_byte (mk_kfifo [9; 0; 0; 0] 4 1 0) CIdle [9] [] [5; 6] 2 0 5); done].
  eapply reach_step; [|apply (step_put_begin (mk_kfifo [9; 0; 0; 0] 4 1 0) CIdle [9] [] [5; 6] 2); unfold blen; simpl; lia].
  eapply reach_step; [|apply (step_put_end (mk_kfifo [9; 0; 0; 0] 4 0 0) CIdle [] [] [9] 1)].
  eapply reach_step; [|apply (step_put_byte fifo4 CIdle [] [] [9] 1 0 9); done].
  eapply reach_step; [|apply (step_put_begin fifo4 CIdle [] [] [9] 1); unfold blen; simpl; lia].
  apply reach_init.
Qed.

(** A party in the middle of a copy can go on. *)
Lemma copy_in_bounds f0 c :
  rep f0 [] -> reachable f0 c ->
  (forall data n j, prod c = PCopy data n j -> exists c', step c c' /\ prod c' <> prod c) /\
  (forall n acc, cons_ c = CCopy n acc -> exists c', step c c' /\ cons_ c' <> cons_ c).
Proof.
  intros H0 [q Hinv]%reachable_inv; [|done].
  destruct c as [f p c s r]; simpl. destruct Hinv as [Hr _ Hp Hc]; simpl in *.
  pose proof Hr as [Hf _ Hs _]. pose proof (wf_size_bounds f Hf).
  assert (0 <= blen q) by (unfold blen; lia). split.
  - intros data n j ->. destruct Hp as (Hj & Hd & Hn & _).
    destruct (decide (j = n)) as [->|].
    + eexists. split; [apply step_put_end|done].
    + destruct (lookup_lt_is_Some_2 data (Z.to_nat j)) as [x Hx]; [unfold blen in *; lia|].
      eexists. split.
      * eapply step_put_byte; [lia|apply get_lookup; by split; [lia|exact Hx]|].
        rewrite put_dest_slot by (done || lia). unfold set.
        pose proof (wf_mod f (in_ f + j) Hf). rewrite (wf_buffer f Hf).
        by replace (_ && _) with true by lia.
      * simpl. intros [=]. lia.
  - intros n acc ->. destruct Hc as [Hn _].
    destruct (decide (blen acc = n)) as [<-|].
    + eexists. split; [apply step_get_end; reflexivity|done].
    + assert (0 <= blen acc) by (unfold blen; lia).
      pose proof (wf_mod f (out f + blen acc) Hf). pose proof (wf_buffer f Hf).
      destruct (lookup_lt_is_Some_2 (buffer f) (Z.to_nat ((out f + blen acc) mod size f)))
        as [x Hx]; [unfold blen in *; lia|].
      eexists. split.
      * eapply step_get_byte; [lia|]. rewrite get_src_slot by (done || lia).
        apply get_lookup. by split; [lia|].
      * simpl. intros [= E]. apply (f_equal length) in E. rewrite length_app in E. simpl in E. lia.
Qed.

(** C5: With one producer in __kfifo_put and one consumer in __kfifo_get interleaved byte by byte
    and without a lock, the bytes received are always a prefix of the bytes sent, the bytes sent
    but not received are the contents of the ring, and the bytes the consumer has copied so far
    are the oldest of them; a party in the middle of a copy can always take its next step,
    because every index it computes is inside the buffer. *)
Theorem kfifo_stream_in_order f0 c :
  rep f0 [] -> reachable f0 c ->
  (exists q, sent c = rcvd c ++ q /\ rep (ring c) q /\
     match cons_ c with CIdle => True | CCopy _ acc => acc `prefix_of` q end) /\
  (forall data n j, prod c = PCopy data n j -> exists c', step c c' /\ prod c' <> prod c) /\
  (forall n acc, cons_ c = CCopy n acc -> exists c', step c c' /\ cons_ c' <> cons_ c).
Proof.
  intros H0 Hr. split; [|by eapply copy_in_bounds]. destruct (reachable_inv _ _ H0 Hr) as [q [Hq Hst _ Hc]].
  exists q. split_and!; try done. by destruct (cons_ c); [|destruct Hc].
Qed.

Lemma kfifo_stream_in_order_witness :
  (exists q, sent conf_mid = rcvd conf_mid ++ q /\ rep (ring conf_mid) q /\ True) /\
  exists c', step conf_mid c' /\ prod c' <> prod conf_mid.
Proof.
  destruct (kfifo_stream_in_order fifo4 conf_mid fifo4_rep conf_mid_reachable) as (H1 & H2 & _).
  split; [exact H1|]. exact (H2 [5; 6] 2 1 eq_refl).
Defined.
