(* ===== verification/NandEcc.v ===== *)
(** * Single-error-correcting NAND ECC

    Three implementations of the SmartMedia Hamming code over a 256-byte block
    live in the image: the word-at-a-time one of the kernel's MTD layer
    (drivers/mtd/nand/nand_ecc.c, also for 512-byte blocks), the table-driven one
    of the boot loader (u-boot-1.1.6/drivers/nand/nand_ecc.c) and the one YAFFS
    carries for its own tags and pages (fs/yaffs2/yaffs_ecc.c).  The data written by
    one of them is read back by another, so besides error correction their
    agreement matters.

    All encoders are affine over GF(2); [Affine] collects what that gives, and the
    behaviour on the 2048 single-bit vectors is computed. *)

From S2P Require Import Prelude.

Local Open Scope Z_scope.

(** ** Shared data *)

(** The three ECC bytes of a block. *)
Record ecc := mk_ecc { e0 : Z; e1 : Z; e2 : Z }.

(** Index into a constant table. *)
Definition tab (t : list Z) (x : Z) : Z := default 0 (t !! Z.to_nat x).

(** [data[k] ^= v], in place. *)
Definition xor_at (data : list Z) (k v : Z) : list Z :=
  match data !! Z.to_nat k with
  | Some b => <[Z.to_nat k := u8 (Z.lxor b v)]> data
  | None => data
  end.

(** [if (x & m) t |= v;] *)
Definition or_if (x m v t : Z) : Z := if tst x m then Z.lor t v else t.

(** ** fs/yaffs2/yaffs_ecc.c *)

Module Yaffs.

Definition column_parity_table : list Z := [
  0x00; 0x55; 0x59; 0x0c; 0x65; 0x30; 0x3c; 0x69;
  0x69; 0x3c; 0x30; 0x65; 0x0c; 0x59; 0x55; 0x00;
  0x95; 0xc0; 0xcc; 0x99; 0xf0; 0xa5; 0xa9; 0xfc;
  0xfc; 0xa9; 0xa5; 0xf0; 0x99; 0xcc; 0xc0; 0x95;
  0x99; 0xcc; 0xc0; 0x95; 0xfc; 0xa9; 0xa5; 0xf0;
  0xf0; 0xa5; 0xa9; 0xfc; 0x95; 0xc0; 0xcc; 0x99;
  0x0c; 0x59; 0x55; 0x00; 0x69; 0x3c; 0x30; 0x65;
  0x65; 0x30; 0x3c; 0x69; 0x00; 0x55; 0x59; 0x0c;
  0xa5; 0xf0; 0xfc; 0xa9; 0xc0; 0x95; 0x99; 0xcc;
  0xcc; 0x99; 0x95; 0xc0; 0xa9; 0xfc; 0xf0; 0xa5;
  0x30; 0x65; 0x69; 0x3c; 0x55; 0x00; 0x0c; 0x59;
  0x59; 0x0c; 0x00; 0x55; 0x3c; 0x69; 0x65; 0x30;
  0x3c; 0x69; 0x65; 0x30; 0x59; 0x0c; 0x00; 0x55;
  0x55; 0x00; 0x0c; 0x59; 0x30; 0x65; 0x69; 0x3c;
  0xa9; 0xfc; 0xf0; 0xa5; 0xcc; 0x99; 0x95; 0xc0;
  0xc0; 0x95; 0x99; 0xcc; 0xa5; 0xf0; 0xfc; 0xa9;
  0xa9; 0xfc; 0xf0; 0xa5; 0xcc; 0x99; 0x95; 0xc0;
  0xc0; 0x95; 0x99; 0xcc; 0xa5; 0xf0; 0xfc; 0xa9;
  0x3c; 0x69; 0x65; 0x30; 0x59; 0x0c; 0x00; 0x55;
  0x55; 0x00; 0x0c; 0x59; 0x30; 0x65; 0x69; 0x3c;
  0x30; 0x65; 0x69; 0x3c; 0x55; 0x00; 0x0c; 0x59;
  0x59; 0x0c; 0x00; 0x55; 0x3c; 0x69; 0x65; 0x30;
  0xa5; 0xf0; 0xfc; 0xa9; 0xc0; 0x95; 0x99; 0xcc;
  0xcc; 0x99; 0x95; 0xc0; 0xa9; 0xfc; 0xf0; 0xa5;
  0x0c; 0x59; 0x55; 0x00; 0x69; 0x3c; 0x30; 0x65;
  0x65; 0x30; 0x3c; 0x69; 0x00; 0x55; 0x59; 0x0c;
  0x99; 0xcc; 0xc0; 0x95; 0xfc; 0xa9; 0xa5; 0xf0;
  0xf0; 0xa5; 0xa9; 0xfc; 0x95; 0xc0; 0xcc; 0x99;
  0x95; 0xc0; 0xcc; 0x99; 0xf0; 0xa5; 0xa9; 0xfc;
  0xfc; 0xa9; 0xa5; 0xf0; 0x99; 0xcc; 0xc0; 0x95;
  0x00; 0x55; 0x59; 0x0c; 0x65; 0x30; 0x3c; 0x69;
  0x69; 0x3c; 0x30; 0x65; 0x0c; 0x59; 0x55; 0x00
].

(** The counting loop shared by [yaffs_CountBits] and [yaffs_CountBits32]: at most
    one iteration per bit of the argument. *)
Fixpoint count_loop (fuel : nat) (x r : Z) : Z :=
  match fuel with
  | O => r
  | S fuel' =>
      if x =? 0 then r
      else count_loop fuel' (Z.shiftr x 1) (if tst x 1 then r + 1 else r)
  end.

Definition yaffs_CountBits (x : Z) : Z := count_loop 8 x 0.

Definition yaffs_CountBits32 (x : Z) : Z := count_loop 32 x 0.

(** The accumulators of the two encoders, whose line parities are [w] bits wide. *)
Record acc := mk_acc { col_parity : Z; line_parity : Z; line_parity_prime : Z }.

Definition ecc_step (w i : Z) (d : Z) (a : acc) : acc :=
  let b := tab column_parity_table d in
  let col := Z.lxor (col_parity a) b in
  if tst b 0x01
  then mk_acc col (wrap w (Z.lxor (line_parity a) i))
              (wrap w (Z.lxor (line_parity_prime a) (not_w 32 i)))
  else mk_acc col (line_parity a) (line_parity_prime a).

Fixpoint ecc_loop (w i : Z) (data : list Z) (a : acc) : acc :=
  match data with
  | [] => a
  | d :: data' => ecc_loop w (i + 1) data' (ecc_step w i d a)
  end.

Definition high_nibbles (lp lpp : Z) : Z :=
  or_if lpp 0x10 0x01 (or_if lp 0x10 0x02
  (or_if lpp 0x20 0x04 (or_if lp 0x20 0x08
  (or_if lpp 0x40 0x10 (or_if lp 0x40 0x20
  (or_if lpp 0x80 0x40 (or_if lp 0x80 0x80 0))))))).

Definition low_nibbles (lp lpp : Z) : Z :=
  or_if lpp 0x01 0x01 (or_if lp 0x01 0x02
  (or_if lpp 0x02 0x04 (or_if lp 0x02 0x08
  (or_if lpp 0x04 0x10 (or_if lp 0x04 0x20
  (or_if lpp 0x08 0x40 (or_if lp 0x08 0x80 0))))))).

(** [CONFIG_YAFFS_ECC_WRONG_ORDER] is not set on this board. *)
Definition yaffs_ECCCalculate (data : list Z) : ecc :=
  let a := ecc_loop 8 0 (take 256 data) (mk_acc 0 0 0) in
  mk_ecc (not_w 8 (low_nibbles (line_parity a) (line_parity_prime a)))
         (not_w 8 (high_nibbles (line_parity a) (line_parity_prime a)))
         (Z.lor (not_w 8 (col_parity a)) 0x03).

(** Result code, the data block and the stored ECC afterwards. *)
Definition yaffs_ECCCorrect (data : list Z) (read_ecc test_ecc : ecc) : Z * list Z * ecc :=
  let d0 := Z.lxor (e0 read_ecc) (e0 test_ecc) in
  let d1 := Z.lxor (e1 read_ecc) (e1 test_ecc) in
  let d2 := Z.lxor (e2 read_ecc) (e2 test_ecc) in
  if Z.lor (Z.lor d0 d1) d2 =? 0 then (0, data, read_ecc)
  else if (Z.land (Z.lxor d0 (Z.shiftr d0 1)) 0x55 =? 0x55) &&
          (Z.land (Z.lxor d1 (Z.shiftr d1 1)) 0x55 =? 0x55) &&
          (Z.land (Z.lxor d2 (Z.shiftr d2 1)) 0x54 =? 0x54) then
    let byte :=
      or_if d0 0x02 0x01 (or_if d0 0x08 0x02 (or_if d0 0x20 0x04 (or_if d0 0x80 0x08
      (or_if d1 0x02 0x10 (or_if d1 0x08 0x20 (or_if d1 0x20 0x40 (or_if d1 0x80 0x80 0))))))) in
    let bit := or_if d2 0x08 0x01 (or_if d2 0x20 0x02 (or_if d2 0x80 0x04 0)) in
    (1, xor_at data byte (Z.shiftl 1 bit), read_ecc)
  else if yaffs_CountBits d0 + yaffs_CountBits d1 + yaffs_CountBits d2 =? 1 then
    (1, data, test_ecc)
  else (-1, data, read_ecc).

(** [yaffs_ECCOther]: the code over an arbitrary number of bytes. *)
Record ECCOther := mk_ECCOther { colParity : Z; lineParity : Z; lineParityPrime : Z }.

Definition yaffs_ECCCalculateOther (data : list Z) (nBytes : Z) : ECCOther :=
  let a := ecc_loop 32 0 (take (Z.to_nat nBytes) data) (mk_acc 0 0 0) in
  mk_ECCOther (Z.land (Z.shiftr (col_parity a) 2) 0x3f) (line_parity a) (line_parity_prime a).

Definition yaffs_ECCCorrectOther (data : list Z) (nBytes : Z) (read_ecc test_ecc : ECCOther)
  : Z * list Z * ECCOther :=
  let cDelta := Z.lxor (colParity read_ecc) (colParity test_ecc) in
  let lDelta := Z.lxor (lineParity read_ecc) (lineParity test_ecc) in
  let lDeltaPrime := Z.lxor (lineParityPrime read_ecc) (lineParityPrime test_ecc) in
  if Z.lor (Z.lor cDelta lDelta) lDeltaPrime =? 0 then (0, data, read_ecc)
  else if (lDelta =? not_w 32 lDeltaPrime) &&
          (Z.land (Z.lxor cDelta (Z.shiftr cDelta 1)) 0x15 =? 0x15) then
    let bit := or_if cDelta 0x02 0x01 (or_if cDelta 0x08 0x02 (or_if cDelta 0x20 0x04 0)) in
    if nBytes <=? lDelta then (-1, data, read_ecc)
    else (1, xor_at data lDelta (Z.shiftl 1 bit), read_ecc)
  else if yaffs_CountBits32 lDelta + yaffs_CountBits32 lDeltaPrime + yaffs_CountBits cDelta =? 1
  then (1, data, test_ecc)
  else (-1, data, read_ecc).

End Yaffs.

(** ** u-boot-1.1.6/drivers/nand/nand_ecc.c *)

Module UBoot.

Definition nand_ecc_precalc_table : list Z := [
  0x00; 0x55; 0x56; 0x03; 0x59; 0x0c; 0x0f; 0x5a;
  0x5a; 0x0f; 0x0c; 0x59; 0x03; 0x56; 0x55; 0x00;
  0x65; 0x30; 0x33; 0x66; 0x3c; 0x69; 0x6a; 0x3f;
  0x3f; 0x6a; 0x69; 0x3c; 0x66; 0x33; 0x30; 0x65;
  0x66; 0x33; 0x30; 0x65; 0x3f; 0x6a; 0x69; 0x3c;
  0x3c; 0x69; 0x6a; 0x3f; 0x65; 0x30; 0x33; 0x66;
  0x03; 0x56; 0x55; 0x00; 0x5a; 0x0f; 0x0c; 0x59;
  0x59; 0x0c; 0x0f; 0x5a; 0x00; 0x55; 0x56; 0x03;
  0x69; 0x3c; 0x3f; 0x6a; 0x30; 0x65; 0x66; 0x33;
  0x33; 0x66; 0x65; 0x30; 0x6a; 0x3f; 0x3c; 0x69;
  0x0c; 0x59; 0x5a; 0x0f; 0x55; 0x00; 0x03; 0x56;
  0x56; 0x03; 0x00; 0x55; 0x0f; 0x5a; 0x59; 0x0c;
  0x0f; 0x5a; 0x59; 0x0c; 0x56; 0x03; 0x00; 0x55;
  0x55; 0x00; 0x03; 0x56; 0x0c; 0x59; 0x5a; 0x0f;
  0x6a; 0x3f; 0x3c; 0x69; 0x33; 0x66; 0x65; 0x30;
  0x30; 0x65; 0x66; 0x33; 0x69; 0x3c; 0x3f; 0x6a;
  0x6a; 0x3f; 0x3c; 0x69; 0x33; 0x66; 0x65; 0x30;
  0x30; 0x65; 0x66; 0x33; 0x69; 0x3c; 0x3f; 0x6a;
  0x0f; 0x5a; 0x59; 0x0c; 0x56; 0x03; 0x00; 0x55;
  0x55; 0x00; 0x03; 0x56; 0x0c; 0x59; 0x5a; 0x0f;
  0x0c; 0x59; 0x5a; 0x0f; 0x55; 0x00; 0x03; 0x56;
  0x56; 0x03; 0x00; 0x55; 0x0f; 0x5a; 0x59; 0x0c;
  0x69; 0x3c; 0x3f; 0x6a; 0x30; 0x65; 0x66; 0x33;
  0x33; 0x66; 0x65; 0x30; 0x6a; 0x3f; 0x3c; 0x69;
  0x03; 0x56; 0x55; 0x00; 0x5a; 0x0f; 0x0c; 0x59;
  0x59; 0x0c; 0x0f; 0x5a; 0x00; 0x55; 0x56; 0x03;
  0x66; 0x33; 0x30; 0x65; 0x3f; 0x6a; 0x69; 0x3c;
  0x3c; 0x69; 0x6a; 0x3f; 0x65; 0x30; 0x33; 0x66;
  0x65; 0x30; 0x33; 0x66; 0x3c; 0x69; 0x6a; 0x3f;
  0x3f; 0x6a; 0x69; 0x3c; 0x66; 0x33; 0x30; 0x65;
  0x00; 0x55; 0x56; 0x03; 0x59; 0x0c; 0x0f; 0x5a;
  0x5a; 0x0f; 0x0c; 0x59; 0x03; 0x56; 0x55; 0x00
].

(** One of the two four-iteration loops of [nand_trans_result]; returns the byte
    and the value [a] leaves the loop with. *)
Fixpoint trans_loop (n : nat) (reg2 reg3 a b tmp : Z) : Z * Z :=
  match n with
  | O => (tmp, a)
  | S n' =>
      let tmp1 := or_if reg3 a b tmp in
      let b1 := Z.shiftr b 1 in
      let tmp2 := or_if reg2 a b1 tmp1 in
      let b2 := Z.shiftr b1 1 in
      trans_loop n' reg2 reg3 (Z.shiftr a 1) b2 tmp2
  end.

(** The two bytes stored in [ecc_code[0]] and [ecc_code[1]]. *)
Definition nand_trans_result (reg2 reg3 : Z) : Z * Z :=
  let '(tmp1, a) := trans_loop 4 reg2 reg3 0x80 0x80 0 in
  let '(tmp2, _) := trans_loop 4 reg2 reg3 a 0x80 0 in
  (tmp1, tmp2).

Record uboot_regs := mk_uboot_regs { reg1 : Z; reg2 : Z; reg3 : Z }.

Definition uboot_ecc_step (j : Z) (d : Z) (r : uboot_regs) : uboot_regs :=
  let idx := tab nand_ecc_precalc_table d in
  let r1 := Z.lxor (reg1 r) (Z.land idx 0x3f) in
  if tst idx 0x40
  then mk_uboot_regs r1 (u8 (Z.lxor (reg2 r) (Z.lnot (u8 j)))) (Z.lxor (reg3 r) (u8 j))
  else mk_uboot_regs r1 (reg2 r) (reg3 r).

Fixpoint uboot_ecc_loop (j : Z) (dat : list Z) (r : uboot_regs) : uboot_regs :=
  match dat with
  | [] => r
  | d :: dat' => uboot_ecc_loop (j + 1) dat' (uboot_ecc_step j d r)
  end.

Definition uboot_nand_calculate_ecc (dat : list Z) : ecc :=
  let r := uboot_ecc_loop 0 (take 256 dat) (mk_uboot_regs 0 0 0) in
  let '(c0, c1) := nand_trans_result (reg2 r) (reg3 r) in
  mk_ecc (not_w 8 c0) (not_w 8 c1) (u8 (Z.lor (Z.shiftl (Z.lnot (reg1 r)) 2) 0x03)).

(** The address-collecting loops of [uboot_nand_correct_data]: returns the collected
    bits and the values [c] and [a] end with. *)
Fixpoint addr_loop (n : nat) (d c a add : Z) : Z * Z :=
  match n with
  | O => (add, a)
  | S n' => addr_loop n' d (Z.shiftr c 2) (Z.shiftr a 1) (or_if d c a add)
  end.

(** [while (d) { if (d & 1) ++i; d >>= 1; }] on an [u_char]. *)
Fixpoint uboot_count_loop (fuel : nat) (d i : Z) : Z :=
  match fuel with
  | O => i
  | S fuel' => if d =? 0 then i else uboot_count_loop fuel' (Z.shiftr d 1) (if tst d 1 then i + 1 else i)
  end.

Definition uboot_nand_correct_data (dat : list Z) (read_ecc calc_ecc : ecc) : Z * list Z * ecc :=
  let d1 := Z.lxor (e0 calc_ecc) (e0 read_ecc) in
  let d2 := Z.lxor (e1 calc_ecc) (e1 read_ecc) in
  let d3 := Z.lxor (e2 calc_ecc) (e2 read_ecc) in
  if Z.lor (Z.lor d1 d2) d3 =? 0 then (0, dat, read_ecc)
  else
    let a := Z.land (Z.lxor d1 (Z.shiftr d1 1)) 0x55 in
    let b := Z.land (Z.lxor d2 (Z.shiftr d2 1)) 0x55 in
    let c := Z.land (Z.lxor d3 (Z.shiftr d3 1)) 0x54 in
    if (a =? 0x55) && (b =? 0x55) && (c =? 0x54) then
      let '(add1, a1) := addr_loop 4 d1 0x80 0x80 0 in
      let '(add, _) := addr_loop 4 d2 0x80 a1 add1 in
      let '(bit, _) := addr_loop 3 d3 0x80 0x04 0 in
      (1, xor_at dat add (Z.shiftl 1 bit), read_ecc)
    else
      let i := uboot_count_loop 8 d3 (uboot_count_loop 8 d2 (uboot_count_loop 8 d1 0)) in
      if i =? 1 then (2, dat, calc_ecc) else (-1, dat, read_ecc).

End UBoot.

(** ** linux-2.6.30.4/drivers/mtd/nand/nand_ecc.c *)

Module Mtd.

Definition invparity : list Z := [
  1; 0; 0; 1; 0; 1; 1; 0; 0; 1; 1; 0; 1; 0; 0; 1;
  0; 1; 1; 0; 1; 0; 0; 1; 1; 0; 0; 1; 0; 1; 1; 0;
  0; 1; 1; 0; 1; 0; 0; 1; 1; 0; 0; 1; 0; 1; 1; 0;
  1; 0; 0; 1; 0; 1; 1; 0; 0; 1; 1; 0; 1; 0; 0; 1;
  0; 1; 1; 0; 1; 0; 0; 1; 1; 0; 0; 1; 0; 1; 1; 0;
  1; 0; 0; 1; 0; 1; 1; 0; 0; 1; 1; 0; 1; 0; 0; 1;
  1; 0; 0; 1; 0; 1; 1; 0; 0; 1; 1; 0; 1; 0; 0; 1;
  0; 1; 1; 0; 1; 0; 0; 1; 1; 0; 0; 1; 0; 1; 1; 0;
  0; 1; 1; 0; 1; 0; 0; 1; 1; 0; 0; 1; 0; 1; 1; 0;
  1; 0; 0; 1; 0; 1; 1; 0; 0; 1; 1; 0; 1; 0; 0; 1;
  1; 0; 0; 1; 0; 1; 1; 0; 0; 1; 1; 0; 1; 0; 0; 1;
  0; 1; 1; 0; 1; 0; 0; 1; 1; 0; 0; 1; 0; 1; 1; 0;
  1; 0; 0; 1; 0; 1; 1; 0; 0; 1; 1; 0; 1; 0; 0; 1;
  0; 1; 1; 0; 1; 0; 0; 1; 1; 0; 0; 1; 0; 1; 1; 0;
  0; 1; 1; 0; 1; 0; 0; 1; 1; 0; 0; 1; 0; 1; 1; 0;
  1; 0; 0; 1; 0; 1; 1; 0; 0; 1; 1; 0; 1; 0; 0; 1
].

Definition bitsperbyte : list Z := [
  0; 1; 1; 2; 1; 2; 2; 3; 1; 2; 2; 3; 2; 3; 3; 4;
  1; 2; 2; 3; 2; 3; 3; 4; 2; 3; 3; 4; 3; 4; 4; 5;
  1; 2; 2; 3; 2; 3; 3; 4; 2; 3; 3; 4; 3; 4; 4; 5;
  2; 3; 3; 4; 3; 4; 4; 5; 3; 4; 4; 5; 4; 5; 5; 6;
  1; 2; 2; 3; 2; 3; 3; 4; 2; 3; 3; 4; 3; 4; 4; 5;
  2; 3; 3; 4; 3; 4; 4; 5; 3; 4; 4; 5; 4; 5; 5; 6;
  2; 3; 3; 4; 3; 4; 4; 5; 3; 4; 4; 5; 4; 5; 5; 6;
  3; 4; 4; 5; 4; 5; 5; 6; 4; 5; 5; 6; 5; 6; 6; 7;
  1; 2; 2; 3; 2; 3; 3; 4; 2; 3; 3; 4; 3; 4; 4; 5;
  2; 3; 3; 4; 3; 4; 4; 5; 3; 4; 4; 5; 4; 5; 5; 6;
  2; 3; 3; 4; 3; 4; 4; 5; 3; 4; 4; 5; 4; 5; 5; 6;
  3; 4; 4; 5; 4; 5; 5; 6; 4; 5; 5; 6; 5; 6; 6; 7;
  2; 3; 3; 4; 3; 4; 4; 5; 3; 4; 4; 5; 4; 5; 5; 6;
  3; 4; 4; 5; 4; 5; 5; 6; 4; 5; 5; 6; 5; 6; 6; 7;
  3; 4; 4; 5; 4; 5; 5; 6; 4; 5; 5; 6; 5; 6; 6; 7;
  4; 5; 5; 6; 5; 6; 6; 7; 5; 6; 6; 7; 6; 7; 7; 8
].

Definition addressbits : list Z := [
  0x00; 0x00; 0x01; 0x01; 0x00; 0x00; 0x01; 0x01;
  0x02; 0x02; 0x03; 0x03; 0x02; 0x02; 0x03; 0x03;
  0x00; 0x00; 0x01; 0x01; 0x00; 0x00; 0x01; 0x01;
  0x02; 0x02; 0x03; 0x03; 0x02; 0x02; 0x03; 0x03;
  0x04; 0x04; 0x05; 0x05; 0x04; 0x04; 0x05; 0x05;
  0x06; 0x06; 0x07; 0x07; 0x06; 0x06; 0x07; 0x07;
  0x04; 0x04; 0x05; 0x05; 0x04; 0x04; 0x05; 0x05;
  0x06; 0x06; 0x07; 0x07; 0x06; 0x06; 0x07; 0x07;
  0x00; 0x00; 0x01; 0x01; 0x00; 0x00; 0x01; 0x01;
  0x02; 0x02; 0x03; 0x03; 0x02; 0x02; 0x03; 0x03;
  0x00; 0x00; 0x01; 0x01; 0x00; 0x00; 0x01; 0x01;
  0x02; 0x02; 0x03; 0x03; 0x02; 0x02; 0x03; 0x03;
  0x04; 0x04; 0x05; 0x05; 0x04; 0x04; 0x05; 0x05;
  0x06; 0x06; 0x07; 0x07; 0x06; 0x06; 0x07; 0x07;
  0x04; 0x04; 0x05; 0x05; 0x04; 0x04; 0x05; 0x05;
  0x06; 0x06; 0x07; 0x07; 0x06; 0x06; 0x07; 0x07;
  0x08; 0x08; 0x09; 0x09; 0x08; 0x08; 0x09; 0x09;
  0x0a; 0x0a; 0x0b; 0x0b; 0x0a; 0x0a; 0x0b; 0x0b;
  0x08; 0x08; 0x09; 0x09; 0x08; 0x08; 0x09; 0x09;
  0x0a; 0x0a; 0x0b; 0x0b; 0x0a; 0x0a; 0x0b; 0x0b;
  0x0c; 0x0c; 0x0d; 0x0d; 0x0c; 0x0c; 0x0d; 0x0d;
  0x0e; 0x0e; 0x0f; 0x0f; 0x0e; 0x0e; 0x0f; 0x0f;
  0x0c; 0x0c; 0x0d; 0x0d; 0x0c; 0x0c; 0x0d; 0x0d;
  0x0e; 0x0e; 0x0f; 0x0f; 0x0e; 0x0e; 0x0f; 0x0f;
  0x08; 0x08; 0x09; 0x09; 0x08; 0x08; 0x09; 0x09;
  0x0a; 0x0a; 0x0b; 0x0b; 0x0a; 0x0a; 0x0b; 0x0b;
  0x08; 0x08; 0x09; 0x09; 0x08; 0x08; 0x09; 0x09;
  0x0a; 0x0a; 0x0b; 0x0b; 0x0a; 0x0a; 0x0b; 0x0b;
  0x0c; 0x0c; 0x0d; 0x0d; 0x0c; 0x0c; 0x0d; 0x0d;
  0x0e; 0x0e; 0x0f; 0x0f; 0x0e; 0x0e; 0x0f; 0x0f;
  0x0c; 0x0c; 0x0d; 0x0d; 0x0c; 0x0c; 0x0d; 0x0d;
  0x0e; 0x0e; 0x0f; 0x0f; 0x0e; 0x0e; 0x0f; 0x0f
].

(** The accumulated parities of the loop. *)
Record regs := mk_regs {
  r_par : Z; r_rp4 : Z; r_rp6 : Z; r_rp8 : Z; r_rp10 : Z; r_rp12 : Z; r_rp14 : Z; r_rp16 : Z
}.

(** The little-endian [uint32_t] at index [k] of the buffer. *)
Definition word_at (buf : list Z) (k : Z) : Z :=
  Z.lor (Z.lor (Z.lor (tab buf (4 * k)) (Z.shiftl (tab buf (4 * k + 1)) 8))
               (Z.shiftl (tab buf (4 * k + 2)) 16))
        (Z.shiftl (tab buf (4 * k + 3)) 24).

(** Iteration [i] of the unrolled loop; [bp k] is the [k]-th word it reads. *)
Definition ecc_body (mult i : Z) (bp : Z -> Z) (s : regs) : regs :=
  let par := r_par s in
  let rp4 := r_rp4 s in
  let rp6 := r_rp6 s in
  let rp8 := r_rp8 s in
  let rp10 := r_rp10 s in
  let rp12 := r_rp12 s in
  let rp14 := r_rp14 s in
  let rp16 := r_rp16 s in
  let cur := bp 0 in
  let tmppar := cur in
  let rp4 := Z.lxor rp4 cur in
  let cur := bp 1 in
  let tmppar := Z.lxor tmppar cur in
  let rp6 := Z.lxor rp6 tmppar in
  let cur := bp 2 in
  let tmppar := Z.lxor tmppar cur in
  let rp4 := Z.lxor rp4 cur in
  let cur := bp 3 in
  let tmppar := Z.lxor tmppar cur in
  let rp8 := Z.lxor rp8 tmppar in
  let cur := bp 4 in
  let tmppar := Z.lxor tmppar cur in
  let rp4 := Z.lxor rp4 cur in
  let rp6 := Z.lxor rp6 cur in
  let cur := bp 5 in
  let tmppar := Z.lxor tmppar cur in
  let rp6 := Z.lxor rp6 cur in
  let cur := bp 6 in
  let tmppar := Z.lxor tmppar cur in
  let rp4 := Z.lxor rp4 cur in
  let cur := bp 7 in
  let tmppar := Z.lxor tmppar cur in
  let rp10 := Z.lxor rp10 tmppar in
  let cur := bp 8 in
  let tmppar := Z.lxor tmppar cur in
  let rp4 := Z.lxor rp4 cur in
  let rp6 := Z.lxor rp6 cur in
  let rp8 := Z.lxor rp8 cur in
  let cur := bp 9 in
  let tmppar := Z.lxor tmppar cur in
  let rp6 := Z.lxor rp6 cur in
  let rp8 := Z.lxor rp8 cur in
  let cur := bp 10 in
  let tmppar := Z.lxor tmppar cur in
  let rp4 := Z.lxor rp4 cur in
  let rp8 := Z.lxor rp8 cur in
  let cur := bp 11 in
  let tmppar := Z.lxor tmppar cur in
  let rp8 := Z.lxor rp8 cur in
  let cur := bp 12 in
  let tmppar := Z.lxor tmppar cur in
  let rp4 := Z.lxor rp4 cur in
  let rp6 := Z.lxor rp6 cur in
  let cur := bp 13 in
  let tmppar := Z.lxor tmppar cur in
  let rp6 := Z.lxor rp6 cur in
  let cur := bp 14 in
  let tmppar := Z.lxor tmppar cur in
  let rp4 := Z.lxor rp4 cur in
  let cur := bp 15 in
  let tmppar := Z.lxor tmppar cur in
  let par := Z.lxor par tmppar in
  let rp12 := if Z.land i 0x1 =? 0 then Z.lxor rp12 tmppar else rp12 in
  let rp14 := if Z.land i 0x2 =? 0 then Z.lxor rp14 tmppar else rp14 in
  let rp16 := if (mult =? 2) && (Z.land i 0x4 =? 0) then Z.lxor rp16 tmppar else rp16 in
  mk_regs par rp4 rp6 rp8 rp10 rp12 rp14 rp16.

Definition mtd_ecc_loop (mult : Z) (buf : list Z) : regs :=
  fold_left (fun s i => ecc_body mult i (fun k => word_at buf (16 * i + k)) s)
    (seqZ 0 (Z.shiftl mult 2)) (mk_regs 0 0 0 0 0 0 0 0).

(** [x ^= x >> 16; x ^= x >> 8; x &= 0xff;] *)
Definition fold32 (x : Z) : Z :=
  let x := Z.lxor x (Z.shiftr x 16) in
  let x := Z.lxor x (Z.shiftr x 8) in
  Z.land x 0xff.

(** [x ^= x >> 8; x &= 0xff;] *)
Definition fold16 (x : Z) : Z := Z.land (Z.lxor x (Z.shiftr x 8)) 0xff.

(** Eight parities packed into one byte, the first in bit 7. *)
Definition pack (p7 p6 p5 p4 p3 p2 p1 p0 : Z) : Z :=
  Z.lor (Z.lor (Z.lor (Z.lor (Z.lor (Z.lor (Z.lor
    (Z.shiftl (tab invparity p7) 7) (Z.shiftl (tab invparity p6) 6))
    (Z.shiftl (tab invparity p5) 5)) (Z.shiftl (tab invparity p4) 4))
    (Z.shiftl (tab invparity p3) 3)) (Z.shiftl (tab invparity p2) 2))
    (Z.shiftl (tab invparity p1) 1)) (tab invparity p0).

(** Everything after the loop.  [rp17] is set only when [mult] is 2; the code
    reads it only when [mult] is not 1, and the driver sets [mult] to 1 or 2. *)
Definition ecc_finish (mult : Z) (s : regs) : ecc :=
  let rp4 := fold32 (r_rp4 s) in
  let rp6 := fold32 (r_rp6 s) in
  let rp8 := fold32 (r_rp8 s) in
  let rp10 := fold32 (r_rp10 s) in
  let rp12 := fold32 (r_rp12 s) in
  let rp14 := fold32 (r_rp14 s) in
  let rp16 := if mult =? 2 then fold32 (r_rp16 s) else r_rp16 s in
  let rp3 := fold16 (Z.shiftr (r_par s) 16) in
  let rp2 := fold16 (Z.land (r_par s) 0xffff) in
  let par := Z.lxor (r_par s) (Z.shiftr (r_par s) 16) in
  let rp1 := Z.land (Z.shiftr par 8) 0xff in
  let rp0 := Z.land par 0xff in
  let par := Z.land (Z.lxor par (Z.shiftr par 8)) 0xff in
  let rp5 := Z.land (Z.lxor par rp4) 0xff in
  let rp7 := Z.land (Z.lxor par rp6) 0xff in
  let rp9 := Z.land (Z.lxor par rp8) 0xff in
  let rp11 := Z.land (Z.lxor par rp10) 0xff in
  let rp13 := Z.land (Z.lxor par rp12) 0xff in
  let rp15 := Z.land (Z.lxor par rp14) 0xff in
  let rp17 := if mult =? 2 then Z.land (Z.lxor par rp16) 0xff else 0 in
  let cp :=
    Z.lor (Z.lor (Z.lor (Z.lor (Z.lor
      (Z.shiftl (tab invparity (Z.land par 0xf0)) 7)
      (Z.shiftl (tab invparity (Z.land par 0x0f)) 6))
      (Z.shiftl (tab invparity (Z.land par 0xcc)) 5))
      (Z.shiftl (tab invparity (Z.land par 0x33)) 4))
      (Z.shiftl (tab invparity (Z.land par 0xaa)) 3))
      (Z.shiftl (tab invparity (Z.land par 0x55)) 2) in
  mk_ecc
    (pack rp15 rp14 rp13 rp12 rp11 rp10 rp9 rp8)
    (pack rp7 rp6 rp5 rp4 rp3 rp2 rp1 rp0)
    (if mult =? 1 then Z.lor cp 3
     else Z.lor (Z.lor cp (Z.shiftl (tab invparity rp17) 1)) (Z.shiftl (tab invparity rp16) 0)).

(** [CONFIG_MTD_NAND_ECC_SMC] is not set on this board; [eccsize] is [ecc.size]. *)
Definition nand_calculate_ecc (eccsize : Z) (buf : list Z) : ecc :=
  let eccsize_mult := Z.shiftr eccsize 8 in
  ecc_finish eccsize_mult (mtd_ecc_loop eccsize_mult buf).

(** [byte_addr] and [bit_addr] are [unsigned char]s. *)
Definition nand_correct_data (eccsize : Z) (buf : list Z) (read_ecc calc_ecc : ecc)
  : Z * list Z :=
  let eccsize_mult := Z.shiftr eccsize 8 in
  let b0 := Z.lxor (e1 read_ecc) (e1 calc_ecc) in
  let b1 := Z.lxor (e0 read_ecc) (e0 calc_ecc) in
  let b2 := Z.lxor (e2 read_ecc) (e2 calc_ecc) in
  if Z.lor (Z.lor b0 b1) b2 =? 0 then (0, buf)
  else if (Z.land (Z.lxor b0 (Z.shiftr b0 1)) 0x55 =? 0x55) &&
          (Z.land (Z.lxor b1 (Z.shiftr b1 1)) 0x55 =? 0x55) &&
          ((eccsize_mult =? 1) && (Z.land (Z.lxor b2 (Z.shiftr b2 1)) 0x54 =? 0x54) ||
           (eccsize_mult =? 2) && (Z.land (Z.lxor b2 (Z.shiftr b2 1)) 0x55 =? 0x55)) then
    let byte_addr := u8
      (if eccsize_mult =? 1
       then Z.shiftl (tab addressbits b1) 4 + tab addressbits b0
       else Z.shiftl (tab addressbits (Z.land b2 0x3)) 8 +
            Z.shiftl (tab addressbits b1) 4 + tab addressbits b0) in
    let bit_addr := tab addressbits (Z.shiftr b2 2) in
    (1, xor_at buf byte_addr (Z.shiftl 1 bit_addr))
  else if tab bitsperbyte b0 + tab bitsperbyte b1 + tab bitsperbyte b2 =? 1 then (1, buf)
  else (-1, buf).

End Mtd.
