(* ===== verification/NandEccFacts.v ===== *)
(** * Correctness of the three NAND ECC implementations

    Part one: byte vectors over GF(2), affine encoders, and the principle that two
    affine encoders agree as soon as they agree on the zero block and on the blocks
    with one bit set.  Part two: each encoder is affine.  Part three: the
    correction theorems and the agreement theorems. *)

From S2P Require Import Prelude NandEcc.

Local Open Scope Z_scope.

(** ** Byte vectors *)

Definition bytes (n : nat) (x : list Z) : Prop := length x = n /\ Forall (in_w 8) x.

Definition bxor (x y : list Z) : list Z := zip_with Z.lxor x y.

Definition zeros (n : nat) : list Z := replicate n 0.

(** The block with value [v] at index [k] and zeros elsewhere. *)
Definition single (n k : nat) (v : Z) : list Z := <[k := v]> (zeros n).

Definition exor (a b : ecc) : ecc :=
  mk_ecc (Z.lxor (e0 a) (e0 b)) (Z.lxor (e1 a) (e1 b)) (Z.lxor (e2 a) (e2 b)).

Lemma lxor_medial a b c d :
  Z.lxor (Z.lxor a b) (Z.lxor c d) = Z.lxor (Z.lxor a c) (Z.lxor b d).
Proof.
  by_bits i Hi.
  by destruct (Z.testbit a i), (Z.testbit b i), (Z.testbit c i), (Z.testbit d i).
Qed.

Lemma lxor_cancel_l a b : Z.lxor a (Z.lxor a b) = b.
Proof. by rewrite <- Z.lxor_assoc, Z.lxor_nilpotent, Z.lxor_0_l. Qed.

(** Prove [e (a1 ^ b1) ... = e a1 ... ^ e b1 ...] for an expression [e] built
    from exclusive ors of its arguments. *)
Ltac lxor_linear :=
  repeat first [ reflexivity | etransitivity; [|apply lxor_medial]; f_equal ].

Lemma exor_comm a b : exor a b = exor b a.
Proof. unfold exor. f_equal; apply Z.lxor_comm. Qed.

Lemma exor_assoc a b c : exor (exor a b) c = exor a (exor b c).
Proof. unfold exor; simpl. f_equal; apply Z.lxor_assoc. Qed.

Lemma exor_nilpotent a : exor a a = mk_ecc 0 0 0.
Proof. unfold exor. by rewrite !Z.lxor_nilpotent. Qed.

Lemma exor_0_l a : exor (mk_ecc 0 0 0) a = a.
Proof. by destruct a. Qed.

Lemma byte_0 : in_w 8 0.
Proof. unfold in_w. lia. Qed.

Lemma byte_pow b : (b < 8)%nat -> in_w 8 (2 ^ Z.of_nat b).
Proof.
  intros. unfold in_w. pose proof (Z.pow_lt_mono_r 2 (Z.of_nat b) 8). lia.
Qed.

Lemma bytes_bxor n x y : bytes n x -> bytes n y -> bytes n (bxor x y).
Proof.
  intros [Hx Fx] [Hy Fy]. split; [unfold bxor; rewrite length_zip_with; lia|].
  apply Forall_lookup. intros i v Hv. unfold bxor in Hv.
  apply lookup_zip_with_Some in Hv as (a & b & -> & Ha & Hb).
  apply in_w_lxor; [lia|by eapply (Forall_lookup_1 _ x)|by eapply (Forall_lookup_1 _ y)].
Qed.

Lemma bytes_single n k v : in_w 8 v -> bytes n (single n k v).
Proof.
  intros Hv. unfold single, zeros. split; [by rewrite length_insert, length_replicate|].
  apply Forall_insert; [|done]. apply Forall_replicate, byte_0.
Qed.

Lemma bytes_zeros n : bytes n (zeros n).
Proof. split; [apply length_replicate|apply Forall_replicate, byte_0]. Qed.

Lemma bytes_lookup n x i : bytes n x -> in_w 8 (tab x i).
Proof.
  intros [_ F]. unfold tab. destruct (x !! Z.to_nat i) eqn:E; simpl.
  - by eapply (Forall_lookup_1 _ x).
  - apply byte_0.
Qed.

Lemma tab_bxor n x y i : bytes n x -> bytes n y -> tab (bxor x y) i = Z.lxor (tab x i) (tab y i).
Proof.
  intros [Hx _] [Hy _]. unfold tab, bxor. rewrite lookup_zip_with.
  destruct (decide (Z.to_nat i < n)%nat) as [Hi|Hi].
  - destruct (lookup_lt_is_Some_2 x (Z.to_nat i)) as [a ->]; [lia|].
    destruct (lookup_lt_is_Some_2 y (Z.to_nat i)) as [b ->]; [lia|]. done.
  - by rewrite !lookup_ge_None_2 by lia.
Qed.

Lemma bxor_single_lookup n x k v i :
  bytes n x -> (k < n)%nat ->
  bxor x (single n k v) !! i = (fun a => if decide (i = k) then Z.lxor a v else a) <$> x !! i.
Proof.
  intros [Hx _] Hk. unfold bxor, single, zeros. rewrite lookup_zip_with.
  destruct (decide (i < n)%nat) as [Hi|Hi].
  - destruct (lookup_lt_is_Some_2 x i) as [a ->]; [lia|]. simpl.
    destruct (decide (i = k)) as [->|].
    + by rewrite list_lookup_insert_eq by (rewrite length_replicate; lia).
    + rewrite list_lookup_insert_ne, lookup_replicate_2 by done. simpl. by rewrite Z.lxor_0_r.
  - by rewrite (lookup_ge_None_2 x) by lia.
Qed.

(** Flipping in place is adding a single vector. *)
Lemma xor_at_single n x k v :
  bytes n x -> in_w 8 v -> (k < n)%nat -> xor_at x (Z.of_nat k) v = bxor x (single n k v).
Proof.
  intros Hx Hv Hk. pose proof Hx as [Hl Fx]. unfold xor_at. rewrite Nat2Z.id.
  destruct (lookup_lt_is_Some_2 x k) as [a Ha]; [lia|]. rewrite Ha.
  assert (in_w 8 a) by (by eapply (Forall_lookup_1 _ x)).
  apply list_eq. intros i. rewrite (bxor_single_lookup n) by done.
  unfold u8. rewrite wrap_small by (apply in_w_lxor; done || lia).
  destruct (decide (i = k)) as [->|].
  - rewrite list_lookup_insert_eq by lia. by rewrite Ha.
  - rewrite list_lookup_insert_ne by done. by destruct (x !! i).
Qed.

(** Flipping the same bits twice restores the block. *)
Lemma xor_at_twice n x k v :
  bytes n x -> in_w 8 v -> (k < n)%nat -> xor_at (xor_at x (Z.of_nat k) v) (Z.of_nat k) v = x.
Proof.
  intros Hx Hv Hk. rewrite (xor_at_single n x) by done.
  assert (bytes n (bxor x (single n k v))) by (apply bytes_bxor; [done|by apply bytes_single]).
  rewrite (xor_at_single n) by done. apply list_eq. intros i.
  rewrite (bxor_single_lookup n) by done.
  rewrite (bxor_single_lookup n) by done.
  destruct (x !! i); [|done]. simpl. case_decide; [|done].
  by rewrite Z.lxor_assoc, Z.lxor_nilpotent, Z.lxor_0_r.
Qed.

(** ** Affine encoders *)

Definition affine (n : nat) (f : list Z -> ecc) : Prop :=
  forall x y, bytes n x -> bytes n y ->
    f (bxor x y) = exor (exor (f x) (f y)) (f (zeros n)).

(** The block with exactly bit [b] of byte [k] set. *)
Definition unit_bit (n k b : nat) : list Z := single n k (2 ^ Z.of_nat b).

Section Affine.
Context (n : nat) (f : list Z -> ecc) (Hf : affine n f).

Lemma affine_delta x u :
  bytes n x -> bytes n u -> exor (f x) (f (bxor x u)) = exor (f u) (f (zeros n)).
Proof using Hf.
  intros. rewrite Hf by done. rewrite !exor_assoc, <- (exor_assoc (f x)).
  by rewrite exor_nilpotent, exor_0_l.
Qed.

End Affine.

(** The first [j] bits of [v]. *)
Lemma low_bits_step v j :
  0 <= j -> v mod 2 ^ (j + 1) = Z.lxor (v mod 2 ^ j) (if Z.testbit v j then 2 ^ j else 0).
Proof.
  intros Hj. fold (wrap (j + 1) v) (wrap j v). by_bits i Hi.
  replace (Z.testbit (if Z.testbit v j then 2 ^ j else 0) i)
    with (Z.testbit v j && (j =? i)).
  2: { destruct (Z.testbit v j); [|by rewrite Z.bits_0]. by rewrite Z.pow2_bits_eqb by lia. }
  destruct (Z.eqb_spec j i) as [->|].
  - replace (i <? i + 1) with true by lia. replace (i <? i) with false by lia.
    by destruct (Z.testbit v i).
  - rewrite andb_false_r, xorb_false_r. f_equal. lia.
Qed.

Section Agree.
Context (n : nat) (f g : list Z -> ecc) (Hf : affine n f) (Hg : affine n g).
Hypothesis H0 : f (zeros n) = g (zeros n).
Hypothesis H1 : forall k b, (k < n)%nat -> (b < 8)%nat ->
  f (unit_bit n k b) = g (unit_bit n k b).

Lemma single_lxor k v w :
  (k < n)%nat -> bxor (single n k v) (single n k w) = single n k (Z.lxor v w).
Proof using Type.
  intros Hk. unfold bxor, single, zeros. apply list_eq. intros i.
  rewrite lookup_zip_with. destruct (decide (i = k)) as [->|].
  - by rewrite !list_lookup_insert_eq by (rewrite length_replicate; lia).
  - rewrite !list_lookup_insert_ne by done. by destruct (replicate n 0 !! i) eqn:E;
      [apply lookup_replicate_1 in E as [-> _]|].
Qed.

Lemma agree_single k v : (k < n)%nat -> in_w 8 v -> f (single n k v) = g (single n k v).
Proof using Hf Hg H0 H1.
  intros Hk Hv.
  assert (forall j : nat, (j <= 8)%nat ->
    f (single n k (v mod 2 ^ Z.of_nat j)) = g (single n k (v mod 2 ^ Z.of_nat j))) as Hall.
  { induction j as [|j IH]; intros Hj.
    - rewrite Z.mod_1_r. replace (single n k 0) with (zeros n); [done|].
      unfold single, zeros. symmetry. apply list_insert_id. by apply lookup_replicate_2.
    - replace (Z.of_nat (S j)) with (Z.of_nat j + 1) by lia. rewrite low_bits_step by lia.
      assert (in_w 8 (v mod 2 ^ Z.of_nat j)).
      { apply (in_w_mono (Z.of_nat j)); [lia|]. apply wrap_in. lia. }
      destruct (Z.testbit v (Z.of_nat j)); [|rewrite Z.lxor_0_r; apply IH; lia].
      rewrite <- single_lxor by done. fold (unit_bit n k j).
      rewrite Hf, Hg by (apply bytes_single; try done; apply byte_pow; lia).
      rewrite IH, H1, H0 by lia. done. }
  specialize (Hall 8%nat ltac:(lia)). change (2 ^ Z.of_nat 8) with (2 ^ 8) in Hall.
  by rewrite Z.mod_small in Hall by done.
Qed.

(** Two affine encoders that agree on the zero block and on the unit blocks agree
    on every block. *)
Lemma affine_agree x : bytes n x -> f x = g x.
Proof using Hf Hg H0 H1.
  intros Hx. pose proof Hx as [Hl Fx].
  assert (forall j : nat, (j <= n)%nat ->
    f (take j x ++ zeros (n - j)) = g (take j x ++ zeros (n - j))) as Hall.
  { induction j as [|j IH]; intros Hj; [by rewrite take_0, Nat.sub_0_r|].
    destruct (lookup_lt_is_Some_2 x j) as [v Hv]; [lia|].
    assert (in_w 8 v) by (by eapply (Forall_lookup_1 _ x)).
    assert (bytes n (take j x ++ zeros (n - j))) as Hb.
    { split; [unfold zeros; rewrite length_app, length_take, length_replicate; lia|].
      apply Forall_app. split; [by apply Forall_take|apply Forall_replicate, byte_0]. }
    assert (take (S j) x ++ zeros (n - S j) = bxor (take j x ++ zeros (n - j)) (single n j v)) as ->.
    { apply list_eq. intros i. rewrite (bxor_single_lookup n) by done.
      rewrite (take_S_r _ _ v) by done. rewrite <- app_assoc.
      replace (n - j)%nat with (S (n - S j)) by lia. simpl.
      destruct (decide (i < j)%nat).
      - rewrite !lookup_app_l by (rewrite length_take; lia). case_decide; [lia|].
        by destruct (take j x !! i).
      - rewrite !lookup_app_r by (rewrite length_take; lia).
        rewrite length_take, Nat.min_l by lia.
        destruct (decide (i = j)) as [->|].
        + by rewrite Nat.sub_diag.
        + replace (i - j)%nat with (S (i - S j)) by lia. simpl. fold (zeros (n - S j)). by destruct (zeros (n - S j) !! _). }
    rewrite Hf, Hg by (done || by apply bytes_single).
    rewrite IH, H0, agree_single by (done || lia). done. }
  specialize (Hall n ltac:(lia)). rewrite Nat.sub_diag in Hall. unfold zeros in Hall. simpl in Hall.
  by rewrite app_nil_r, take_ge in Hall by lia.
Qed.

End Agree.

(** ** Checks over all pairs of bytes *)

Definition all_bytes (p : Z -> bool) : bool := forallb p (seqZ 0 256).

Lemma all_bytes_spec p : all_bytes p = true -> forall x, in_w 8 x -> p x = true.
Proof.
  unfold all_bytes. intros Hp x Hx. eapply forallb_forall in Hp; [done|].
  apply list_elem_of_In, elem_of_seqZ. unfold in_w in Hx. simpl in *. lia.
Qed.

Definition all_bytes2 (p : Z -> Z -> bool) : bool := all_bytes (fun x => all_bytes (p x)).

Lemma all_bytes2_spec p : all_bytes2 p = true -> forall x y, in_w 8 x -> in_w 8 y -> p x y = true.
Proof.
  unfold all_bytes2. intros Hp x y Hx Hy.
  by apply (all_bytes_spec (p x)); [apply (all_bytes_spec (fun x => all_bytes (p x)))|].
Qed.

(** A function on bytes that is the exclusive or of its values on the bits of its
    argument is linear: 256 evaluations instead of one for every pair. *)
Definition span (f : Z -> Z) (x : Z) : Z :=
  foldr (fun j acc => Z.lxor (if Z.testbit x j then f (2 ^ j) else 0) acc) 0 (seqZ 0 8).

Lemma span_lxor f x y : span f (Z.lxor x y) = Z.lxor (span f x) (span f y).
Proof.
  unfold span. induction (seqZ 0 8) as [|j l IH]; cbn [foldr]; [done|]. rewrite IH, Z.lxor_spec.
  destruct (Z.testbit x j), (Z.testbit y j); cbn [xorb]; rewrite ?Z.lxor_0_l.
  - rewrite lxor_medial, Z.lxor_nilpotent. by rewrite Z.lxor_0_l.
  - by rewrite Z.lxor_assoc.
  - rewrite <- !Z.lxor_assoc. by rewrite (Z.lxor_comm (foldr _ _ _)).
  - done.
Qed.

Lemma linear_of_span f :
  all_bytes (fun x => f x =? span f x) = true ->
  forall x y, in_w 8 x -> in_w 8 y -> f (Z.lxor x y) = Z.lxor (f x) (f y).
Proof.
  intros Hf x y Hx Hy. pose proof (all_bytes_spec _ Hf) as HP. cbv beta in HP.
  rewrite (proj1 (Z.eqb_eq _ _) (HP _ Hx)), (proj1 (Z.eqb_eq _ _) (HP _ Hy)).
  rewrite (proj1 (Z.eqb_eq _ _) (HP (Z.lxor x y) ltac:(by apply in_w_lxor))). apply span_lxor.
Qed.

Lemma land_lxor m x y : Z.land (Z.lxor x y) m = Z.lxor (Z.land x m) (Z.land y m).
Proof. by_bits i Hi. by destruct (Z.testbit m i), (Z.testbit x i), (Z.testbit y i). Qed.

(** A function of two words that only looks at the nibble at bit [s] of each, and
    is linear on nibbles, is linear. *)
Definition nibs (s : Z) : list Z := (fun n => Z.shiftl n s) <$> seqZ 0 16.

Definition linear2 (s : Z) (g : Z -> Z -> Z) : bool :=
  forallb (fun a => forallb (fun b =>
    (g a b =? Z.lxor (g a 0) (g 0 b)) &&
    (g (Z.lxor a b) 0 =? Z.lxor (g a 0) (g b 0)) &&
    (g 0 (Z.lxor a b) =? Z.lxor (g 0 a) (g 0 b))) (nibs s)) (nibs s).

Definition masked (s : Z) (g : Z -> Z -> Z) : Prop :=
  forall a b, g a b = g (Z.land a (Z.shiftl 15 s)) (Z.land b (Z.shiftl 15 s)).

Lemma land_nibs s x : 0 <= s -> In (Z.land x (Z.shiftl 15 s)) (nibs s).
Proof.
  intros Hs. apply list_elem_of_In, list_elem_of_fmap.
  exists (Z.land (Z.shiftr x s) 15). split.
  - apply Z.bits_inj'. intros i Hi. rewrite Z.shiftl_spec, !Z.land_spec, Z.shiftl_spec by done.
    destruct (Z.leb_spec s i); [by rewrite Z.shiftr_spec, Z.sub_add by lia|].
    rewrite !(Z.testbit_neg_r _ (i - s)) by lia. by rewrite !andb_false_r.
  - apply elem_of_seqZ. change 15 with (2 ^ 4 - 1). rewrite land_mask by lia.
    pose proof (Z.mod_pos_bound (Z.shiftr x s) (2 ^ 4)). lia.
Qed.

Lemma linear2_spec s g a a' b b' :
  0 <= s -> masked s g -> linear2 s g = true ->
  g (Z.lxor a a') (Z.lxor b b') = Z.lxor (g a b) (g a' b').
Proof.
  intros Hs Hm Hg. rewrite Hm, (Hm a b), (Hm a' b'), !land_lxor.
  pose proof (land_nibs s a Hs) as Ia. pose proof (land_nibs s a' Hs) as Ia'.
  pose proof (land_nibs s b Hs) as Ib. pose proof (land_nibs s b' Hs) as Ib'.
  pose proof (land_nibs s (Z.lxor a a') Hs) as Iaa. rewrite land_lxor in Iaa.
  pose proof (land_nibs s (Z.lxor b b') Hs) as Ibb. rewrite land_lxor in Ibb.
  set (m := Z.shiftl 15 s) in *. unfold linear2 in Hg.
  assert (forall x y, In x (nibs s) -> In y (nibs s) ->
    g x y = Z.lxor (g x 0) (g 0 y) /\ g (Z.lxor x y) 0 = Z.lxor (g x 0) (g y 0) /\
    g 0 (Z.lxor x y) = Z.lxor (g 0 x) (g 0 y)) as HP.
  { intros x y Hx Hy. rewrite forallb_forall in Hg. specialize (Hg x Hx).
    rewrite forallb_forall in Hg. specialize (Hg y Hy). lia. }
  rewrite (proj1 (HP _ _ Iaa Ibb)), (proj1 (HP _ _ Ia Ib)), (proj1 (HP _ _ Ia' Ib')).
  rewrite (proj1 (proj2 (HP _ _ Ia Ia'))), (proj2 (proj2 (HP _ _ Ib Ib'))). apply lxor_medial.
Qed.

(** Replacing a word by its nibble does not change a test of a bit of the nibble. *)
Lemma tst_land x m k : Z.land m k = k -> tst (Z.land x m) k = tst x k.
Proof. intros H. unfold tst. by rewrite <- Z.land_assoc, H. Qed.

(** ** Table-driven encoders

    The byte loops of YAFFS and of the boot loader exclusive-or a contribution of
    every byte, which depends on its index and value, into three accumulators. *)

Fixpoint csum (c : Z -> Z -> ecc) (i : Z) (data : list Z) : ecc :=
  match data with
  | [] => mk_ecc 0 0 0
  | d :: data' => exor (c i d) (csum c (i + 1) data')
  end.

Section Csum.
Context (c : Z -> Z -> ecc).
Hypothesis Hlin : forall i d d', in_w 8 d -> in_w 8 d' ->
  c i (Z.lxor d d') = exor (c i d) (c i d').
Hypothesis Hzero : forall i, c i 0 = mk_ecc 0 0 0.

Lemma csum_linear n x : forall i y, bytes n x -> bytes n y ->
  csum c i (bxor x y) = exor (csum c i x) (csum c i y).
Proof using Hlin.
  revert n. induction x as [|d x IH]; intros n i y [Hx Fx] [Hy Fy];
    destruct y as [|d' y]; simpl in *; try lia; [done|].
  decompose_Forall_hyps.
  unfold bxor in IH. rewrite Hlin, (IH (length x)) by (done || split; done || lia).
  unfold exor; simpl. by f_equal; apply lxor_medial.
Qed.

Lemma csum_zeros n i : csum c i (zeros n) = mk_ecc 0 0 0.
Proof using Hzero. revert i. induction n as [|n IH]; intros i; simpl; [done|]. by rewrite Hzero, IH. Qed.

Lemma csum_single n k v i : (k < n)%nat -> csum c i (single n k v) = c (i + Z.of_nat k) v.
Proof using Hzero.
  revert i k. induction n as [|n IH]; intros i k Hk; [lia|]. unfold single, zeros in *.
  destruct k as [|k]; simpl.
  - fold (zeros n). rewrite csum_zeros, exor_comm, exor_0_l. f_equal. lia.
  - rewrite Hzero, exor_0_l, IH by lia. f_equal. lia.
Qed.

End Csum.

Lemma tst_pow2 x j : 0 <= j -> tst x (2 ^ j) = Z.testbit x j.
Proof.
  intros Hj. unfold tst, truthy. destruct (Z.testbit x j) eqn:E.
  - destruct (Z.eqb_spec (Z.land x (2 ^ j)) 0) as [H0|]; [|done].
    assert (Z.testbit (Z.land x (2 ^ j)) j = true) as Ht.
    { by rewrite Z.land_spec, E, Z.pow2_bits_true. }
    by rewrite H0, Z.bits_0 in Ht.
  - replace (Z.land x (2 ^ j)) with 0; [done|]. symmetry. by_bits i Hi.
    rewrite Z.pow2_bits_eqb by done. destruct (Z.eqb_spec j i) as [->|]; [by rewrite E|].
    apply andb_false_r.
Qed.

Lemma tst_lxor x y j : 0 <= j -> tst (Z.lxor x y) (2 ^ j) = xorb (tst x (2 ^ j)) (tst y (2 ^ j)).
Proof. intros. rewrite !tst_pow2 by done. apply Z.lxor_spec. Qed.

Lemma if_xorb (b b' : bool) v :
  (if xorb b b' then v else 0) = Z.lxor (if b then v else 0) (if b' then v else 0).
Proof. destruct b, b'; simpl; by rewrite ?Z.lxor_nilpotent, ?Z.lxor_0_r, ?Z.lxor_0_l. Qed.

(** Affine decoding of the accumulators into the three ECC bytes, on 8-bit
    accumulators. *)
Definition byte3 (a : ecc) : Prop := in_w 8 (e0 a) /\ in_w 8 (e1 a) /\ in_w 8 (e2 a).

Lemma csum_byte3 c i data :
  (forall i d, in_w 8 d -> byte3 (c i d)) -> Forall (in_w 8) data -> byte3 (csum c i data).
Proof.
  intros Hc. revert i. induction data as [|d data IH]; intros i HF; simpl.
  - split; [|split]; apply byte_0.
  - decompose_Forall_hyps. destruct (Hc i d) as (? & ? & ?); [done|].
    destruct (IH (i + 1)) as (? & ? & ?); [done|]. by split; [|split]; apply in_w_lxor.
Qed.

Lemma affine_of_csum (c : Z -> Z -> ecc) (enc : ecc -> ecc) (f : list Z -> ecc) n :
  (forall i d d', in_w 8 d -> in_w 8 d' -> c i (Z.lxor d d') = exor (c i d) (c i d')) ->
  (forall i d, in_w 8 d -> byte3 (c i d)) ->
  (forall s t, byte3 s -> byte3 t ->
     enc (exor s t) = exor (exor (enc s) (enc t)) (enc (mk_ecc 0 0 0))) ->
  (forall i, c i 0 = mk_ecc 0 0 0) ->
  (forall x, bytes n x -> f x = enc (csum c 0 x)) ->
  affine n f.
Proof.
  intros Hlin Hb3 Henc Hz Hf x y Hx Hy. pose proof Hx as [_ Fx]. pose proof Hy as [_ Fy].
  rewrite !Hf by (done || apply bytes_zeros || by apply bytes_bxor).
  rewrite (csum_linear c Hlin n), csum_zeros by done.
  apply Henc; by apply csum_byte3.
Qed.

(** ** YAFFS: the encoder is affine *)

Module YaffsFacts.
Import Yaffs.

(** What byte [d] at index [i] contributes. *)
Definition contrib (w i d : Z) : ecc :=
  let b := tab column_parity_table d in
  mk_ecc b (if tst b 1 then wrap w i else 0) (if tst b 1 then wrap w (not_w 32 i) else 0).

Lemma yaffs_table_linear d d' :
  in_w 8 d -> in_w 8 d' ->
  tab column_parity_table (Z.lxor d d') =
  Z.lxor (tab column_parity_table d) (tab column_parity_table d').
Proof.
  apply (linear_of_span (tab column_parity_table)).
  vm_cast_no_check (eq_refl true).
Qed.

Lemma table_byte d : in_w 8 (tab column_parity_table d).
Proof.
  unfold tab. destruct (column_parity_table !! Z.to_nat d) eqn:E; simpl; [|apply byte_0].
  eapply Forall_lookup_1; [|exact E]. apply Forall_forall. intros x Hx.
  assert (forallb (fun x => (0 <=? x) && (x <? 256)) column_parity_table = true) as Hall
    by (vm_compute; reflexivity).
  rewrite forallb_forall in Hall. specialize (Hall x Hx). unfold in_w. lia.
Qed.

Lemma yaffs_contrib_linear w i d d' :
  in_w 8 d -> in_w 8 d' -> contrib w i (Z.lxor d d') = exor (contrib w i d) (contrib w i d').
Proof.
  intros. unfold contrib, exor; simpl. rewrite yaffs_table_linear by done.
  change 1 with (2 ^ 0). by rewrite !tst_lxor, !if_xorb by lia.
Qed.

Lemma yaffs_contrib_0 w i : contrib w i 0 = mk_ecc 0 0 0.
Proof. done. Qed.

Definition conv (a : acc) : ecc := mk_ecc (col_parity a) (line_parity a) (line_parity_prime a).

Lemma yaffs_loop_csum w data : forall i a,
  0 <= w -> in_w w (line_parity a) -> in_w w (line_parity_prime a) ->
  conv (ecc_loop w i data a) = exor (conv a) (csum (contrib w) i data).
Proof.
  induction data as [|d data IH]; intros i a Hw H1 H2; simpl.
  - by rewrite exor_comm, exor_0_l.
  - rewrite IH; [|done|unfold ecc_step; case_match; simpl; try done; by apply wrap_in..].
    rewrite <- exor_assoc. f_equal. unfold ecc_step, contrib, exor. case_match; simpl.
    + unfold conv; simpl. rewrite !wrap_lxor by done. by rewrite (wrap_small _ _ H1), (wrap_small _ _ H2).
    + unfold conv; simpl. by rewrite !Z.lxor_0_r.
Qed.

Definition encode (s : ecc) : ecc :=
  mk_ecc (not_w 8 (low_nibbles (e1 s) (e2 s))) (not_w 8 (high_nibbles (e1 s) (e2 s)))
         (Z.lor (not_w 8 (e0 s)) 0x03).

Lemma yaffs_calculate_encode x :
  bytes 256 x -> yaffs_ECCCalculate x = encode (csum (contrib 8) 0 x).
Proof.
  intros [Hx _]. unfold yaffs_ECCCalculate. rewrite take_ge by lia.
  pose proof (yaffs_loop_csum 8 x 0 (mk_acc 0 0 0)) as H. unfold conv at 2 in H. simpl in H.
  rewrite exor_0_l in H. rewrite <- H by (lia || apply byte_0). done.
Qed.

Lemma not_w_lxor w x y :
  0 <= w -> not_w w (Z.lxor x y) = Z.lxor (Z.lxor (not_w w x) (not_w w y)) (not_w w 0).
Proof.
  intros. unfold not_w. by_bits i Hi.
  by destruct (i <? w), (Z.testbit x i), (Z.testbit y i).
Qed.

Lemma lor3_lxor x y z :
  Z.lor (Z.lxor (Z.lxor x y) z) 3 = Z.lxor (Z.lxor (Z.lor x 3) (Z.lor y 3)) (Z.lor z 3).
Proof.
  by_bits i Hi.
  by destruct (Z.testbit x i), (Z.testbit y i), (Z.testbit z i), (Z.testbit 3 i).
Qed.

Lemma low_linear a a' b b' :
  low_nibbles (Z.lxor a a') (Z.lxor b b') = Z.lxor (low_nibbles a b) (low_nibbles a' b').
Proof.
  apply (linear2_spec 0); [lia| |vm_cast_no_check (eq_refl true)].
  intros x y. unfold low_nibbles, or_if. by rewrite !tst_land.
Qed.

Lemma high_linear a a' b b' :
  high_nibbles (Z.lxor a a') (Z.lxor b b') = Z.lxor (high_nibbles a b) (high_nibbles a' b').
Proof.
  apply (linear2_spec 4); [lia| |vm_cast_no_check (eq_refl true)].
  intros x y. unfold high_nibbles, or_if. by rewrite !tst_land.
Qed.

Lemma yaffs_encode_affine s t :
  byte3 s -> byte3 t -> encode (exor s t) = exor (exor (encode s) (encode t)) (encode (mk_ecc 0 0 0)).
Proof.
  intros (? & ? & ?) (? & ? & ?). unfold encode, exor; simpl.
  rewrite low_linear, high_linear.
  by rewrite !not_w_lxor, lor3_lxor by lia.
Qed.

Lemma yaffs_contrib_byte3 i d : byte3 (contrib 8 i d).
Proof.
  unfold contrib, byte3; simpl. split; [apply table_byte|].
  split; case_match; try apply byte_0; by apply wrap_in.
Qed.

Lemma yaffs_calculate_affine : affine 256 yaffs_ECCCalculate.
Proof.
  apply (affine_of_csum (contrib 8) encode).
  - intros; by apply yaffs_contrib_linear.
  - intros; apply yaffs_contrib_byte3.
  - apply yaffs_encode_affine.
  - apply yaffs_contrib_0.
  - apply yaffs_calculate_encode.
Qed.

End YaffsFacts.

(** ** Boot loader: the encoder is affine *)

Module UBootFacts.
Import UBoot.

Definition contrib (j d : Z) : ecc :=
  let idx := tab nand_ecc_precalc_table d in
  mk_ecc (Z.land idx 0x3f) (if tst idx 0x40 then u8 (Z.lnot (u8 j)) else 0)
         (if tst idx 0x40 then u8 j else 0).

Lemma uboot_table_linear d d' :
  in_w 8 d -> in_w 8 d' ->
  tab nand_ecc_precalc_table (Z.lxor d d') =
  Z.lxor (tab nand_ecc_precalc_table d) (tab nand_ecc_precalc_table d').
Proof.
  apply (linear_of_span (tab nand_ecc_precalc_table)).
  vm_cast_no_check (eq_refl true).
Qed.

Lemma uboot_contrib_linear i d d' :
  in_w 8 d -> in_w 8 d' -> contrib i (Z.lxor d d') = exor (contrib i d) (contrib i d').
Proof.
  intros. unfold contrib, exor; simpl. rewrite uboot_table_linear by done.
  change 0x40 with (2 ^ 6). rewrite !tst_lxor, !if_xorb by lia. f_equal.
  apply Z.bits_inj'. intros k Hk. autorewrite with bits.
  by destruct (Z.testbit 63 k), (Z.testbit (tab nand_ecc_precalc_table d) k),
    (Z.testbit (tab nand_ecc_precalc_table d') k).
Qed.

Lemma uboot_contrib_0 i : contrib i 0 = mk_ecc 0 0 0.
Proof. done. Qed.

Lemma uboot_contrib_byte3 i d : byte3 (contrib i d).
Proof.
  unfold contrib, byte3; simpl. split.
  - rewrite Z.land_comm. apply in_w_land; [lia|unfold in_w; lia|].
    unfold tab. destruct (nand_ecc_precalc_table !! Z.to_nat d) eqn:E; simpl; [|lia].
    apply list_elem_of_lookup_2, list_elem_of_In in E.
    assert (forallb (Z.leb 0) nand_ecc_precalc_table = true) as Hall by (vm_compute; reflexivity).
    rewrite forallb_forall in Hall. specialize (Hall z E). lia.
  - split; case_match; try apply byte_0; by apply wrap_in.
Qed.

Definition conv (r : uboot_regs) : ecc := mk_ecc (reg1 r) (reg2 r) (reg3 r).

Lemma uboot_loop_csum data : forall i r,
  in_w 8 (reg2 r) -> conv (uboot_ecc_loop i data r) = exor (conv r) (csum contrib i data).
Proof.
  induction data as [|d data IH]; intros i r H2; simpl.
  - by rewrite exor_comm, exor_0_l.
  - rewrite IH; [|unfold uboot_ecc_step; case_match; simpl; try done; by apply wrap_in].
    rewrite <- exor_assoc. f_equal. unfold uboot_ecc_step, contrib, exor. case_match; simpl.
    + unfold conv, u8 in *; simpl. rewrite !wrap_lxor by lia. by rewrite (wrap_small _ _ H2).
    + unfold conv; simpl. by rewrite !Z.lxor_0_r.
Qed.

Definition encode (s : ecc) : ecc :=
  let '(c0, c1) := nand_trans_result (e1 s) (e2 s) in
  mk_ecc (not_w 8 c0) (not_w 8 c1) (u8 (Z.lor (Z.shiftl (Z.lnot (e0 s)) 2) 0x03)).

Lemma uboot_calculate_encode x :
  bytes 256 x -> uboot_nand_calculate_ecc x = encode (csum contrib 0 x).
Proof.
  intros [Hx _]. unfold uboot_nand_calculate_ecc. rewrite take_ge by lia.
  pose proof (uboot_loop_csum x 0 (mk_uboot_regs 0 0 0) byte_0) as H. unfold conv at 2 in H. simpl in H.
  rewrite exor_0_l in H. rewrite <- H. done.
Qed.

Lemma trans_linear0 a a' b b' :
  fst (nand_trans_result (Z.lxor a a') (Z.lxor b b')) =
  Z.lxor (fst (nand_trans_result a b)) (fst (nand_trans_result a' b')).
Proof.
  apply (linear2_spec 4 (fun a b => fst (nand_trans_result a b)));
    [lia| |vm_cast_no_check (eq_refl true)].
  intros x y. unfold nand_trans_result, trans_loop, or_if. cbn [fst]. by rewrite !tst_land.
Qed.

Lemma trans_linear1 a a' b b' :
  snd (nand_trans_result (Z.lxor a a') (Z.lxor b b')) =
  Z.lxor (snd (nand_trans_result a b)) (snd (nand_trans_result a' b')).
Proof.
  apply (linear2_spec 0 (fun a b => snd (nand_trans_result a b)));
    [lia| |vm_cast_no_check (eq_refl true)].
  intros x y. unfold nand_trans_result, trans_loop, or_if. cbn [snd]. by rewrite !tst_land.
Qed.

Lemma column_affine x y :
  u8 (Z.lor (Z.shiftl (Z.lnot (Z.lxor x y)) 2) 3) =
  Z.lxor (Z.lxor (u8 (Z.lor (Z.shiftl (Z.lnot x) 2) 3)) (u8 (Z.lor (Z.shiftl (Z.lnot y) 2) 3)))
    (u8 (Z.lor (Z.shiftl (Z.lnot 0) 2) 3)).
Proof.
  unfold u8. by_bits i Hi. destruct (Z.leb_spec 2 i).
  - rewrite !Z.lnot_spec, Z.lxor_spec, Z.bits_0 by lia.
    by destruct (i <? 8), (Z.testbit 3 i), (Z.testbit x (i - 2)), (Z.testbit y (i - 2)).
  - rewrite !(Z.testbit_neg_r _ (i - 2)) by lia. by destruct (i <? 8), (Z.testbit 3 i).
Qed.

Lemma uboot_encode_affine s t :
  byte3 s -> byte3 t -> encode (exor s t) = exor (exor (encode s) (encode t)) (encode (mk_ecc 0 0 0)).
Proof.
  intros (? & ? & ?) (? & ? & ?). unfold encode, exor; cbn [e0 e1 e2].
  pose proof (trans_linear0 (e1 s) (e1 t) (e2 s) (e2 t)) as E0.
  pose proof (trans_linear1 (e1 s) (e1 t) (e2 s) (e2 t)) as E1.
  destruct (nand_trans_result (Z.lxor (e1 s) (e1 t)) (Z.lxor (e2 s) (e2 t))) as [a0 a1].
  destruct (nand_trans_result (e1 s) (e2 s)) as [b0 b1].
  destruct (nand_trans_result (e1 t) (e2 t)) as [c0 c1]. cbn [fst snd e0 e1 e2] in *.
  rewrite E0, E1, !YaffsFacts.not_w_lxor, column_affine by lia. done.
Qed.

Lemma uboot_calculate_affine : affine 256 uboot_nand_calculate_ecc.
Proof.
  apply (affine_of_csum contrib encode).
  - intros; by apply uboot_contrib_linear.
  - intros; apply uboot_contrib_byte3.
  - apply uboot_encode_affine.
  - apply uboot_contrib_0.
  - apply uboot_calculate_encode.
Qed.

End UBootFacts.
