(* ===== verification/NandEccMtd.v ===== *)
(** * The MTD encoder is affine *)

From S2P Require Import Prelude NandEcc NandEccFacts.

Local Open Scope Z_scope.

(** ** MTD layer: the encoder is affine *)

Module MtdFacts.
Import Mtd.

Definition rxor (a b : regs) : regs :=
  mk_regs (Z.lxor (r_par a) (r_par b)) (Z.lxor (r_rp4 a) (r_rp4 b)) (Z.lxor (r_rp6 a) (r_rp6 b))
    (Z.lxor (r_rp8 a) (r_rp8 b)) (Z.lxor (r_rp10 a) (r_rp10 b)) (Z.lxor (r_rp12 a) (r_rp12 b))
    (Z.lxor (r_rp14 a) (r_rp14 b)) (Z.lxor (r_rp16 a) (r_rp16 b)).

Lemma body_linear mult i w w' s s' :
  ecc_body mult i (fun k => Z.lxor (w k) (w' k)) (rxor s s') =
  rxor (ecc_body mult i w s) (ecc_body mult i w' s').
Proof.
  unfold ecc_body, rxor; simpl. f_equal; repeat case_match; lxor_linear.
Qed.

(** Disjoint bit fields: [|] is [^]. *)
Lemma lor_disjoint k a b : 0 <= k -> in_w k a -> Z.lor a (Z.shiftl b k) = Z.lxor a (Z.shiftl b k).
Proof.
  intros Hk Ha. by_bits i Hi. destruct (Z.ltb_spec i k).
  - rewrite (Z.testbit_neg_r b) by lia. by destruct (Z.testbit a i).
  - rewrite (in_w_testbit k a) by done. by destruct (Z.testbit b (i - k)).
Qed.

Lemma in_w_shiftl w k x : 0 <= w -> 0 <= k -> in_w w x -> in_w (w + k) (Z.shiftl x k).
Proof.
  unfold in_w. intros Hw Hk Hx. rewrite Z.shiftl_mul_pow2, Z.pow_add_r by lia.
  pose proof (Z.pow_pos_nonneg 2 k). nia.
Qed.

Lemma word_lxor_form n x k :
  bytes n x ->
  word_at x k = Z.lxor (Z.lxor (Z.lxor (tab x (4 * k)) (Z.shiftl (tab x (4 * k + 1)) 8))
    (Z.shiftl (tab x (4 * k + 2)) 16)) (Z.shiftl (tab x (4 * k + 3)) 24).
Proof.
  intros Hx. unfold word_at.
  pose proof (fun i => bytes_lookup n x i Hx) as Hb.
  assert (forall i j, in_w (8 + j) (Z.shiftl (tab x i) j) \/ j < 0) as Hs.
  { intros i j. destruct (Z.ltb_spec j 0); [lia|]. left. apply in_w_shiftl; done || lia. }
  assert (in_w 16 (Z.lor (tab x (4 * k)) (Z.shiftl (tab x (4 * k + 1)) 8))) as H16.
  { apply in_w_lor; [lia|apply (in_w_mono 8); [lia|done]|].
    apply (in_w_shiftl 8 8); done || lia. }
  assert (in_w 24 (Z.lor (Z.lor (tab x (4 * k)) (Z.shiftl (tab x (4 * k + 1)) 8))
    (Z.shiftl (tab x (4 * k + 2)) 16))) as H24.
  { apply in_w_lor; [lia|apply (in_w_mono 16); [lia|done]|].
    apply (in_w_shiftl 8 16); done || lia. }
  rewrite (lor_disjoint 24 _ _ ltac:(lia) H24).
  rewrite (lor_disjoint 16 _ _ ltac:(lia) H16).
  by rewrite (lor_disjoint 8 _ _ ltac:(lia) (Hb _)).
Qed.

Lemma word_linear n x y k :
  bytes n x -> bytes n y -> word_at (bxor x y) k = Z.lxor (word_at x k) (word_at y k).
Proof.
  intros Hx Hy. rewrite !(word_lxor_form n) by (done || by apply bytes_bxor).
  rewrite !(tab_bxor n) by done. rewrite !Z.shiftl_lxor. lxor_linear.
Qed.

Lemma mtd_loop_linear n mult x y :
  bytes n x -> bytes n y -> mtd_ecc_loop mult (bxor x y) = rxor (mtd_ecc_loop mult x) (mtd_ecc_loop mult y).
Proof.
  intros Hx Hy. unfold mtd_ecc_loop. change (mk_regs 0 0 0 0 0 0 0 0) with
    (rxor (mk_regs 0 0 0 0 0 0 0 0) (mk_regs 0 0 0 0 0 0 0 0)) at 1.
  generalize (mk_regs 0 0 0 0 0 0 0 0) at 1 3 as s. intros s.
  generalize (mk_regs 0 0 0 0 0 0 0 0) as s'. intros s'.
  revert s s'. induction (seqZ 0 (Z.shiftl mult 2)) as [|i l IH]; intros s s'; simpl; [done|].
  rewrite <- IH. f_equal. rewrite <- body_linear. unfold ecc_body.
  by rewrite !(word_linear n) by done.
Qed.

(** *** From the accumulators to the code bytes *)

Lemma land_ff_byte x : in_w 8 (Z.land x 0xff).
Proof. change 0xff with (2 ^ 8 - 1). rewrite land_mask by lia. by apply wrap_in. Qed.

Lemma fold32_linear x y : fold32 (Z.lxor x y) = Z.lxor (fold32 x) (fold32 y).
Proof. unfold fold32. rewrite !Z.shiftr_lxor, !land_lxor. lxor_linear. Qed.

Lemma fold16_linear x y : fold16 (Z.lxor x y) = Z.lxor (fold16 x) (fold16 y).
Proof. unfold fold16. rewrite !Z.shiftr_lxor, !land_lxor. lxor_linear. Qed.

(** The complemented parity table is an affine function of the byte. *)
Lemma inv_affine a b :
  in_w 8 a -> in_w 8 b ->
  tab invparity (Z.lxor a b) = Z.lxor (Z.lxor (tab invparity a) (tab invparity b)) 1.
Proof.
  intros Ha Hb. assert (Hl := linear_of_span (fun x => Z.lxor (tab invparity x) 1)
    ltac:(vm_cast_no_check (eq_refl true)) a b Ha Hb). cbv beta in Hl.
  rewrite lxor_medial, Z.lxor_nilpotent, Z.lxor_0_r in Hl.
  by rewrite <- Hl, Z.lxor_assoc, Z.lxor_nilpotent, Z.lxor_0_r.
Qed.

Lemma inv_bit a : tab invparity a = 0 \/ tab invparity a = 1.
Proof.
  unfold tab. destruct (invparity !! Z.to_nat a) eqn:E; simpl; [|by left].
  apply list_elem_of_lookup_2, list_elem_of_In in E.
  assert (forallb (fun v => (v =? 0) || (v =? 1)) invparity = true) as Hall
    by (vm_compute; reflexivity).
  rewrite forallb_forall in Hall. specialize (Hall z E). lia.
Qed.

(** Eight bits combined by exclusive or. *)
Definition packx (v7 v6 v5 v4 v3 v2 v1 v0 : Z) : Z :=
  Z.lxor (Z.lxor (Z.lxor (Z.lxor (Z.lxor (Z.lxor (Z.lxor
    (Z.shiftl v7 7) (Z.shiftl v6 6)) (Z.shiftl v5 5)) (Z.shiftl v4 4))
    (Z.shiftl v3 3)) (Z.shiftl v2 2)) (Z.shiftl v1 1)) v0.

Lemma pack_packx p7 p6 p5 p4 p3 p2 p1 p0 :
  pack p7 p6 p5 p4 p3 p2 p1 p0 =
  packx (tab invparity p7) (tab invparity p6) (tab invparity p5) (tab invparity p4)
        (tab invparity p3) (tab invparity p2) (tab invparity p1) (tab invparity p0).
Proof.
  unfold pack, packx.
  destruct (inv_bit p7) as [-> | ->], (inv_bit p6) as [-> | ->], (inv_bit p5) as [-> | ->],
    (inv_bit p4) as [-> | ->], (inv_bit p3) as [-> | ->], (inv_bit p2) as [-> | ->],
    (inv_bit p1) as [-> | ->], (inv_bit p0) as [-> | ->]; reflexivity.
Qed.

Lemma packx_linear a7 a6 a5 a4 a3 a2 a1 a0 b7 b6 b5 b4 b3 b2 b1 b0 :
  packx (Z.lxor a7 b7) (Z.lxor a6 b6) (Z.lxor a5 b5) (Z.lxor a4 b4)
        (Z.lxor a3 b3) (Z.lxor a2 b2) (Z.lxor a1 b1) (Z.lxor a0 b0) =
  Z.lxor (packx a7 a6 a5 a4 a3 a2 a1 a0) (packx b7 b6 b5 b4 b3 b2 b1 b0).
Proof. unfold packx. rewrite !Z.shiftl_lxor. lxor_linear. Qed.

Lemma pack_affine a7 a6 a5 a4 a3 a2 a1 a0 b7 b6 b5 b4 b3 b2 b1 b0 :
  Forall (in_w 8) [a7; a6; a5; a4; a3; a2; a1; a0] ->
  Forall (in_w 8) [b7; b6; b5; b4; b3; b2; b1; b0] ->
  pack (Z.lxor a7 b7) (Z.lxor a6 b6) (Z.lxor a5 b5) (Z.lxor a4 b4)
       (Z.lxor a3 b3) (Z.lxor a2 b2) (Z.lxor a1 b1) (Z.lxor a0 b0) =
  Z.lxor (Z.lxor (pack a7 a6 a5 a4 a3 a2 a1 a0) (pack b7 b6 b5 b4 b3 b2 b1 b0))
    (pack 0 0 0 0 0 0 0 0).
Proof.
  intros Ha Hb. decompose_Forall_hyps. rewrite !pack_packx, !inv_affine by assumption.
  by rewrite <- !packx_linear.
Qed.

(** The parities [ecc_finish] packs, as linear functions of the accumulators. *)
Definition par8 (s : regs) : Z :=
  Z.land (Z.lxor (Z.lxor (r_par s) (Z.shiftr (r_par s) 16))
    (Z.shiftr (Z.lxor (r_par s) (Z.shiftr (r_par s) 16)) 8)) 0xff.

Definition odd_rp (s : regs) (x : Z) : Z := Z.land (Z.lxor (par8 s) (fold32 x)) 0xff.

Lemma par8_linear s t : par8 (rxor s t) = Z.lxor (par8 s) (par8 t).
Proof. unfold par8; simpl. rewrite !Z.shiftr_lxor, !land_lxor. lxor_linear. Qed.

Lemma odd_rp_linear s t x y : odd_rp (rxor s t) (Z.lxor x y) = Z.lxor (odd_rp s x) (odd_rp t y).
Proof. unfold odd_rp. rewrite par8_linear, fold32_linear, !land_lxor. lxor_linear. Qed.

Lemma par8_mask_byte s m : 0 <= m -> in_w 8 (Z.land (par8 s) m).
Proof. intros. apply in_w_land; [lia|apply land_ff_byte|done]. Qed.

(** The parities of the byte position within a word. *)
Definition low_rp (s : regs) : Z * Z * Z * Z :=
  (fold16 (Z.shiftr (r_par s) 16), fold16 (Z.land (r_par s) 0xffff),
   Z.land (Z.shiftr (Z.lxor (r_par s) (Z.shiftr (r_par s) 16)) 8) 0xff,
   Z.land (Z.lxor (r_par s) (Z.shiftr (r_par s) 16)) 0xff).

Lemma low_rp_linear s t :
  low_rp (rxor s t) =
  let '(a3, a2, a1, a0) := low_rp s in
  let '(b3, b2, b1, b0) := low_rp t in
  (Z.lxor a3 b3, Z.lxor a2 b2, Z.lxor a1 b1, Z.lxor a0 b0).
Proof.
  unfold low_rp; simpl. rewrite !Z.shiftr_lxor, !land_lxor, !fold16_linear.
  f_equal; [|lxor_linear]. f_equal. lxor_linear.
Qed.

Lemma fold32_byte x : in_w 8 (fold32 x).
Proof. apply land_ff_byte. Qed.

Lemma fold16_byte x : in_w 8 (fold16 x).
Proof. apply land_ff_byte. Qed.

Lemma odd_rp_byte s x : in_w 8 (odd_rp s x).
Proof. apply land_ff_byte. Qed.

(** The second code byte. *)
Definition low_code (s : regs) : Z :=
  let '(rp3, rp2, rp1, rp0) := low_rp s in
  pack (odd_rp s (r_rp6 s)) (fold32 (r_rp6 s)) (odd_rp s (r_rp4 s)) (fold32 (r_rp4 s))
       rp3 rp2 rp1 rp0.

(** The third code byte. *)
Definition column_code (mult : Z) (s : regs) : Z :=
  pack (Z.land (par8 s) 0xf0) (Z.land (par8 s) 0x0f) (Z.land (par8 s) 0xcc)
       (Z.land (par8 s) 0x33) (Z.land (par8 s) 0xaa) (Z.land (par8 s) 0x55)
       (if mult =? 1 then 0 else odd_rp s (r_rp16 s)) (if mult =? 1 then 0 else fold32 (r_rp16 s)).

Lemma finish_eq mult s :
  mult = 1 \/ mult = 2 ->
  ecc_finish mult s = mk_ecc
    (pack (odd_rp s (r_rp14 s)) (fold32 (r_rp14 s)) (odd_rp s (r_rp12 s)) (fold32 (r_rp12 s))
          (odd_rp s (r_rp10 s)) (fold32 (r_rp10 s)) (odd_rp s (r_rp8 s)) (fold32 (r_rp8 s)))
    (low_code s) (column_code mult s).
Proof.
  intros [-> | ->]; unfold ecc_finish, column_code, pack; simpl; [|by rewrite Z.shiftl_0_r].
  f_equal. fold (par8 s). by rewrite <- !Z.lor_assoc.
Qed.

Create HintDb ecc_bytes.
#[export] Hint Resolve land_ff_byte fold32_byte fold16_byte odd_rp_byte byte_0 par8_mask_byte : ecc_bytes.
#[export] Hint Extern 1 (0 <= _) => lia : ecc_bytes.

Ltac bytes8 := repeat apply List.Forall_cons; try apply List.Forall_nil; auto with ecc_bytes.

Lemma finish_affine mult s t :
  mult = 1 \/ mult = 2 ->
  ecc_finish mult (rxor s t) =
  exor (exor (ecc_finish mult s) (ecc_finish mult t)) (ecc_finish mult (mk_regs 0 0 0 0 0 0 0 0)).
Proof.
  intros Hm. rewrite !finish_eq by done. unfold exor; cbn [e0 e1 e2]. f_equal.
  - cbn [rxor r_rp8 r_rp10 r_rp12 r_rp14]. rewrite !odd_rp_linear, !fold32_linear.
    apply pack_affine; bytes8.
  - unfold low_code. rewrite low_rp_linear. cbn [rxor r_rp4 r_rp6].
    unfold low_rp at 1 2. cbv iota beta zeta. rewrite !odd_rp_linear, !fold32_linear.
    apply pack_affine; bytes8.
  - unfold column_code. rewrite par8_linear, !land_lxor. cbn [rxor r_rp16].
    destruct Hm as [-> | ->]; simpl.
    + apply (pack_affine _ _ _ _ _ _ 0 0 _ _ _ _ _ _ 0 0); bytes8.
    + rewrite odd_rp_linear, fold32_linear. apply pack_affine; bytes8.
Qed.

Lemma loop_zeros n mult : mtd_ecc_loop mult (zeros n) = mk_regs 0 0 0 0 0 0 0 0.
Proof.
  assert (bxor (zeros n) (zeros n) = zeros n) as Hz.
  { unfold bxor, zeros. by rewrite zip_with_replicate. }
  pose proof (mtd_loop_linear n mult (zeros n) (zeros n) (bytes_zeros n) (bytes_zeros n)) as H.
  rewrite Hz in H. rewrite H. unfold rxor. by rewrite !Z.lxor_nilpotent.
Qed.

Lemma mtd_calculate_affine n eccsize :
  eccsize = 256 \/ eccsize = 512 -> affine n (nand_calculate_ecc eccsize).
Proof.
  intros He x y Hx Hy. unfold nand_calculate_ecc. rewrite (mtd_loop_linear n), loop_zeros by done.
  apply finish_affine. destruct He as [-> | ->]; [left|right]; reflexivity.
Qed.

(** *** Evaluating the encoder by 64-byte groups

    Each iteration of the loop reads sixteen consecutive words; consuming the
    buffer group by group avoids indexing it from its start. *)

Fixpoint group_loop (mult : Z) (n : nat) (i : Z) (buf : list Z) (s : regs) : regs :=
  match n with
  | O => s
  | S n' =>
      let g := take 64 buf in
      group_loop mult n' (i + 1) (drop 64 buf) (ecc_body mult i (word_at g) s)
  end.

Lemma word_at_group buf i k :
  0 <= i -> 0 <= k < 16 ->
  word_at (take 64 (drop (Z.to_nat (64 * i)) buf)) k = word_at buf (16 * i + k).
Proof.
  intros Hi Hk. unfold word_at, tab.
  assert (forall j, 0 <= j < 64 ->
    take 64 (drop (Z.to_nat (64 * i)) buf) !! Z.to_nat j = buf !! Z.to_nat (64 * i + j)) as Hj.
  { intros j Hj. rewrite lookup_take_lt, lookup_drop by lia. f_equal. lia. }
  rewrite !Hj by lia. repeat (f_equal; try lia).
Qed.

Lemma body_ext mult i w w' s :
  (forall k, 0 <= k < 16 -> w k = w' k) -> ecc_body mult i w s = ecc_body mult i w' s.
Proof. intros H. unfold ecc_body. by rewrite !H by lia. Qed.

Lemma group_loop_eq mult buf n : forall i s,
  0 <= i ->
  group_loop mult n i (drop (Z.to_nat (64 * i)) buf) s =
  fold_left (fun s i => ecc_body mult i (fun k => word_at buf (16 * i + k)) s)
    (seqZ i (Z.of_nat n)) s.
Proof.
  induction n as [|n IH]; intros i s Hi; [done|].
  rewrite seqZ_cons by lia. simpl. replace (Z.pred (Z.of_nat (S n))) with (Z.of_nat n) by lia.
  rewrite <- IH by lia. rewrite drop_drop.
  replace (Z.to_nat (64 * i) + 64)%nat with (Z.to_nat (64 * Z.succ i)) by lia.
  replace (i + 1) with (Z.succ i) by lia. f_equal. apply body_ext.
  intros k Hk. by apply word_at_group.
Qed.

Lemma calculate_groups eccsize buf :
  0 <= eccsize ->
  nand_calculate_ecc eccsize buf =
  ecc_finish (Z.shiftr eccsize 8)
    (group_loop (Z.shiftr eccsize 8) (Z.to_nat (Z.shiftl (Z.shiftr eccsize 8) 2)) 0 buf
      (mk_regs 0 0 0 0 0 0 0 0)).
Proof.
  intros He. unfold nand_calculate_ecc. f_equal.
  pose proof (group_loop_eq (Z.shiftr eccsize 8) buf
    (Z.to_nat (Z.shiftl (Z.shiftr eccsize 8) 2)) 0 (mk_regs 0 0 0 0 0 0 0 0) ltac:(lia)) as H.
  rewrite Z.mul_0_r, drop_0 in H. rewrite H. unfold mtd_ecc_loop. rewrite Z2Nat.id; [done|].
  by apply Z.shiftl_nonneg, Z.shiftr_nonneg.
Qed.

End MtdFacts.
