(* ===== verification/NandEccSpec.v ===== *)
(** * Error correction and agreement of the NAND ECC implementations *)

From S2P Require Import Prelude NandEcc NandEccFacts NandEccMtd.

Local Open Scope Z_scope.

(** ** Syndrome decoding

    What a correction routine does depends only on the exclusive or of the stored
    and the recomputed code. *)

Inductive verdict :=
| Clean
| FlipAt (byte bit : Z)
| EccOnly
| Fail.

Definition flip (x : list Z) (k b : nat) : list Z := xor_at x (Z.of_nat k) (2 ^ Z.of_nat b).

(** A page of the example byte. *)
Definition page (n : nat) : list Z := replicate n 0xa5.

Lemma page_bytes n : bytes n (page n).
Proof. split; [apply length_replicate|]. apply Forall_replicate. by split. Qed.

(** All pairs of a byte index below [n] and a bit number. *)
Definition all_bits (n : nat) (p : nat -> nat -> bool) : bool :=
  forallb (fun k => forallb (p k) (seq 0 8)) (seq 0 n).

Lemma all_bits_spec n p k b :
  all_bits n p = true -> (k < n)%nat -> (b < 8)%nat -> p k b = true.
Proof.
  unfold all_bits. intros H Hk Hb. rewrite forallb_forall in H.
  specialize (H k). rewrite in_seq in H. specialize (H ltac:(lia)).
  rewrite forallb_forall in H. specialize (H b). rewrite in_seq in H. apply H. lia.
Qed.

Definition verdict_eqb (v w : verdict) : bool :=
  match v, w with
  | Clean, Clean | EccOnly, EccOnly | Fail, Fail => true
  | FlipAt k b, FlipAt k' b' => (k =? k') && (b =? b')
  | _, _ => false
  end.

Lemma verdict_eqb_eq v w : verdict_eqb v w = true -> v = w.
Proof. destruct v, w; simpl; intros; try done. f_equal; lia. Qed.

(** The syndrome of an encoder for an error pattern [u]. *)
Definition syndrome (n : nat) (f : list Z -> ecc) (u : list Z) : ecc := exor (f u) (f (zeros n)).

(** The three bytes of a syndrome a data bit error leaves: in every pair of
    complementary parities exactly one differs. *)
Definition paired (d : ecc) : bool :=
  (0 <=? e0 d) && (e0 d <? 256) && (0 <=? e1 d) && (e1 d <? 256) && (0 <=? e2 d) && (e2 d <? 256) &&
  (Z.land (Z.lxor (e0 d) (Z.shiftr (e0 d) 1)) 0x55 =? 0x55) &&
  (Z.land (Z.lxor (e1 d) (Z.shiftr (e1 d) 1)) 0x55 =? 0x55) &&
  (Z.land (Z.lxor (e2 d) (Z.shiftr (e2 d) 1)) 0x54 =? 0x54) && (Z.land (e2 d) 3 =? 0).

(** What the single-error check of an implementation establishes for every bit. *)
Definition decodes (n : nat) (f : list Z -> ecc) (decode : ecc -> verdict) : bool :=
  let z := f (zeros n) in
  all_bits n (fun k b =>
    let d := exor (f (unit_bit n k b)) z in
    paired d && verdict_eqb (decode d) (FlipAt (Z.of_nat k) (Z.of_nat b))).

Section Decoder.
Context (n : nat) (f : list Z -> ecc) (decode : ecc -> verdict).
Hypothesis Hf : affine n f.
Hypothesis Hd : decodes n f decode = true.

Lemma bytes_unit k b : (b < 8)%nat -> bytes n (unit_bit n k b).
Proof using Type. intros. by apply bytes_single, byte_pow. Qed.

Lemma flip_unit x k b :
  bytes n x -> (k < n)%nat -> (b < 8)%nat -> flip x k b = bxor x (unit_bit n k b).
Proof using Type. intros. apply xor_at_single; try done. by apply byte_pow. Qed.

Lemma flip_bytes x k b : bytes n x -> (k < n)%nat -> (b < 8)%nat -> bytes n (flip x k b).
Proof using Type.
  intros. rewrite flip_unit by done. apply bytes_bxor; [done|by apply bytes_unit].
Qed.

Lemma flip_flip x k b : bytes n x -> (k < n)%nat -> (b < 8)%nat -> flip (flip x k b) k b = x.
Proof using Type. intros. apply (xor_at_twice n); try done. by apply byte_pow. Qed.

(** The stored and the recomputed code of a damaged block differ by the syndrome. *)
Lemma flip_syndrome x k b :
  bytes n x -> (k < n)%nat -> (b < 8)%nat ->
  exor (f x) (f (flip x k b)) = syndrome n f (unit_bit n k b).
Proof using Hf.
  intros. rewrite flip_unit by done. apply (affine_delta n f Hf); [done|by apply bytes_unit].
Qed.

Lemma syndrome_decodes k b :
  (k < n)%nat -> (b < 8)%nat ->
  paired (syndrome n f (unit_bit n k b)) = true /\
  decode (syndrome n f (unit_bit n k b)) = FlipAt (Z.of_nat k) (Z.of_nat b).
Proof using Hd.
  intros Hk Hb. pose proof (all_bits_spec _ _ k b Hd Hk Hb) as H. cbv beta zeta in H.
  apply andb_true_iff in H as [? ?]. split; [done|by apply verdict_eqb_eq].
Qed.

Lemma single_decode x k b :
  bytes n x -> (k < n)%nat -> (b < 8)%nat ->
  decode (exor (f x) (f (flip x k b))) = FlipAt (Z.of_nat k) (Z.of_nat b).
Proof using Hf Hd. intros. rewrite flip_syndrome by done. by apply syndrome_decodes. Qed.

(** Errors in different places have different syndromes. *)
Lemma syndromes_differ k b k' b' :
  (k < n)%nat -> (b < 8)%nat -> (k' < n)%nat -> (b' < 8)%nat -> (k, b) <> (k', b') ->
  syndrome n f (unit_bit n k b) <> syndrome n f (unit_bit n k' b').
Proof using Hd.
  intros Hk Hb Hk' Hb' Hne E. apply Hne.
  pose proof (proj2 (syndrome_decodes k b Hk Hb)) as D.
  rewrite E, (proj2 (syndrome_decodes k' b' Hk' Hb')) in D.
  injection D as E1 E2. f_equal; lia.
Qed.

(** The syndrome of two errors. *)
Lemma double_syndrome x k b k' b' :
  bytes n x -> (k < n)%nat -> (b < 8)%nat -> (k' < n)%nat -> (b' < 8)%nat ->
  exor (f x) (f (flip (flip x k b) k' b')) =
  exor (syndrome n f (unit_bit n k b)) (syndrome n f (unit_bit n k' b')).
Proof using Hf.
  intros. rewrite <- (flip_syndrome x), <- (flip_syndrome (flip x k b)) by (done || by apply flip_bytes).
  rewrite exor_assoc, <- (exor_assoc (f (flip x k b))). by rewrite exor_nilpotent, exor_0_l.
Qed.

End Decoder.

(** Number of set bits of a byte, as both counting loops compute it. *)
Definition even_pairs (a b : Z) : bool :=
  let d := Z.lxor a b in
  Z.even (Yaffs.yaffs_CountBits d) && Z.even (tab Mtd.bitsperbyte d) &&
  Z.even (UBoot.uboot_count_loop 8 d 0).

Definition paired55 (a : Z) : bool := Z.land (Z.lxor a (Z.shiftr a 1)) 0x55 =? 0x55.

Definition paired54 (a : Z) : bool :=
  (Z.land (Z.lxor a (Z.shiftr a 1)) 0x54 =? 0x54) && (Z.land a 3 =? 0).

(** Two paired bytes: no pair of their difference is split and the number of
    differing bits is even. *)
Lemma paired55_xor a b :
  in_w 8 a -> in_w 8 b -> paired55 a = true -> paired55 b = true ->
  paired55 (Z.lxor a b) = false /\ even_pairs a b = true.
Proof.
  intros Ha Hb Hpa Hpb.
  assert (negb (paired55 a && paired55 b) || (negb (paired55 (Z.lxor a b)) && even_pairs a b) = true)
    as Hall; [|destruct (paired55 (Z.lxor a b)), (even_pairs a b); rewrite Hpa, Hpb in Hall; done].
  apply (all_bytes2_spec (fun a b => negb (paired55 a && paired55 b) ||
    (negb (paired55 (Z.lxor a b)) && even_pairs a b))); [|assumption..].
  vm_cast_no_check (eq_refl true).
Qed.

Lemma paired54_xor a b :
  in_w 8 a -> in_w 8 b -> paired54 a = true -> paired54 b = true -> even_pairs a b = true.
Proof.
  intros Ha Hb Hpa Hpb.
  assert (negb (paired54 a && paired54 b) || even_pairs a b = true)
    as Hall; [|rewrite Hpa, Hpb in Hall; done].
  apply (all_bytes2_spec (fun a b => negb (paired54 a && paired54 b) || even_pairs a b));
    [|assumption..].
  vm_cast_no_check (eq_refl true).
Qed.

Lemma paired_spec d :
  paired d = true ->
  byte3 d /\ paired55 (e0 d) = true /\ paired55 (e1 d) = true /\ paired54 (e2 d) = true.
Proof.
  unfold paired, byte3, paired55, paired54, in_w. intros H.
  rewrite !andb_true_iff in H. destruct_and!. rewrite !andb_true_iff.
  change (2 ^ 8) with 256. split_and!; done || lia.
Qed.

(** A verdict on two paired syndromes: neither clean nor a single data error nor a
    single code bit. *)
Lemma double_not_clean (s t : ecc) :
  s <> t -> byte3 s -> byte3 t ->
  Z.lor (Z.lor (Z.lxor (e0 s) (e0 t)) (Z.lxor (e1 s) (e1 t))) (Z.lxor (e2 s) (e2 t)) <> 0.
Proof.
  intros Hne _ _ H.
  apply Z.lor_eq_0_iff in H as [[Ha Hb]%Z.lor_eq_0_iff Hc]. apply Hne.
  destruct s, t; simpl in *. by rewrite !Z.lxor_eq_0_iff in * ; subst.
Qed.

Lemma even_sum_ne_1 a b c :
  Z.even a = true -> Z.even b = true -> Z.even c = true -> (a + b + c =? 1) = false.
Proof.
  intros Ha Hb Hc. apply Z.eqb_neq. intros H. apply (f_equal Z.even) in H.
  by rewrite !Z.even_add, Ha, Hb, Hc in H.
Qed.

(** ** YAFFS *)

Definition yaffs_decode (d : ecc) : verdict :=
  let '(mk_ecc d0 d1 d2) := d in
  if Z.lor (Z.lor d0 d1) d2 =? 0 then Clean
  else if (Z.land (Z.lxor d0 (Z.shiftr d0 1)) 0x55 =? 0x55) &&
          (Z.land (Z.lxor d1 (Z.shiftr d1 1)) 0x55 =? 0x55) &&
          (Z.land (Z.lxor d2 (Z.shiftr d2 1)) 0x54 =? 0x54) then
    FlipAt
      (or_if d0 0x02 0x01 (or_if d0 0x08 0x02 (or_if d0 0x20 0x04 (or_if d0 0x80 0x08
      (or_if d1 0x02 0x10 (or_if d1 0x08 0x20 (or_if d1 0x20 0x40 (or_if d1 0x80 0x80 0))))))))
      (or_if d2 0x08 0x01 (or_if d2 0x20 0x02 (or_if d2 0x80 0x04 0)))
  else if Yaffs.yaffs_CountBits d0 + Yaffs.yaffs_CountBits d1 + Yaffs.yaffs_CountBits d2 =? 1
  then EccOnly else Fail.

Lemma yaffs_correct_eq data r t :
  Yaffs.yaffs_ECCCorrect data r t =
  match yaffs_decode (exor r t) with
  | Clean => (0, data, r)
  | FlipAt k b => (1, xor_at data k (Z.shiftl 1 b), r)
  | EccOnly => (1, data, t)
  | Fail => (-1, data, r)
  end.
Proof. unfold Yaffs.yaffs_ECCCorrect, yaffs_decode, exor. repeat (case_match; try done). Qed.

Lemma yaffs_decodes : decodes 256 Yaffs.yaffs_ECCCalculate yaffs_decode = true.
Proof. vm_cast_no_check (eq_refl true). Qed.

Lemma yaffs_decode_double s t :
  s <> t -> paired s = true -> paired t = true -> yaffs_decode (exor s t) = Fail.
Proof.
  intros Hne (Hs & ? & ? & ?)%paired_spec (Ht & ? & ? & ?)%paired_spec.
  pose proof (proj2 (Z.eqb_neq _ _) (double_not_clean s t Hne Hs Ht)) as Hc.
  destruct Hs as (? & ? & ?), Ht as (? & ? & ?).
  destruct (paired55_xor (e0 s) (e0 t)) as [Hn0 He0]; [assumption..|].
  destruct (paired55_xor (e1 s) (e1 t)) as [_ He1]; [assumption..|].
  pose proof (paired54_xor (e2 s) (e2 t)) as He2. specialize (He2 ltac:(assumption) ltac:(assumption)
    ltac:(assumption) ltac:(assumption)).
  unfold yaffs_decode, exor. rewrite Hc. unfold paired55 in Hn0. rewrite Hn0. cbn [andb].
  unfold even_pairs in *. rewrite !andb_true_iff in *. destruct_and!.
  by rewrite even_sum_ne_1.
Qed.

Lemma shiftl_1_nat b : Z.shiftl 1 (Z.of_nat b) = 2 ^ Z.of_nat b.
Proof. apply Z.shiftl_1_l. Qed.

Lemma yaffs_correct_flip x k b :
  bytes 256 x -> (k < 256)%nat -> (b < 8)%nat ->
  Yaffs.yaffs_ECCCorrect (flip x k b) (Yaffs.yaffs_ECCCalculate x)
    (Yaffs.yaffs_ECCCalculate (flip x k b)) = (1, x, Yaffs.yaffs_ECCCalculate x).
Proof.
  intros Hx Hk Hb. rewrite yaffs_correct_eq.
  rewrite (single_decode 256 _ _ YaffsFacts.yaffs_calculate_affine yaffs_decodes) by assumption.
  rewrite shiftl_1_nat. fold (flip (flip x k b) k b). by rewrite (flip_flip 256).
Qed.

Lemma yaffs_detect_flips x k b k' b' :
  bytes 256 x -> (k < 256)%nat -> (b < 8)%nat -> (k' < 256)%nat -> (b' < 8)%nat ->
  (k, b) <> (k', b') ->
  let y := flip (flip x k b) k' b' in
  Yaffs.yaffs_ECCCorrect y (Yaffs.yaffs_ECCCalculate x) (Yaffs.yaffs_ECCCalculate y) =
  (-1, y, Yaffs.yaffs_ECCCalculate x).
Proof.
  intros Hx Hk Hb Hk' Hb' Hne y. rewrite yaffs_correct_eq. unfold y.
  rewrite (double_syndrome 256 _ YaffsFacts.yaffs_calculate_affine) by assumption.
  rewrite yaffs_decode_double; [reflexivity|..].
  - by apply (syndromes_differ 256 _ _ yaffs_decodes).
  - by apply (syndrome_decodes 256 _ _ yaffs_decodes).
  - by apply (syndrome_decodes 256 _ _ yaffs_decodes).
Qed.

(** ** Boot loader *)

Definition uboot_decode (d : ecc) : verdict :=
  let '(mk_ecc d1 d2 d3) := d in
  if Z.lor (Z.lor d1 d2) d3 =? 0 then Clean
  else if (Z.land (Z.lxor d1 (Z.shiftr d1 1)) 0x55 =? 0x55) &&
          (Z.land (Z.lxor d2 (Z.shiftr d2 1)) 0x55 =? 0x55) &&
          (Z.land (Z.lxor d3 (Z.shiftr d3 1)) 0x54 =? 0x54) then
    let '(add1, a1) := UBoot.addr_loop 4 d1 0x80 0x80 0 in
    FlipAt (fst (UBoot.addr_loop 4 d2 0x80 a1 add1)) (fst (UBoot.addr_loop 3 d3 0x80 0x04 0))
  else if UBoot.uboot_count_loop 8 d3 (UBoot.uboot_count_loop 8 d2 (UBoot.uboot_count_loop 8 d1 0)) =? 1
  then EccOnly else Fail.

Lemma uboot_correct_eq data r t :
  UBoot.uboot_nand_correct_data data r t =
  match uboot_decode (exor t r) with
  | Clean => (0, data, r)
  | FlipAt k b => (1, xor_at data k (Z.shiftl 1 b), r)
  | EccOnly => (2, data, t)
  | Fail => (-1, data, r)
  end.
Proof.
  unfold UBoot.uboot_nand_correct_data, uboot_decode, exor.
  repeat (case_match; try done); by simplify_eq/=.
Qed.

Lemma uboot_decodes : decodes 256 UBoot.uboot_nand_calculate_ecc uboot_decode = true.
Proof. vm_cast_no_check (eq_refl true). Qed.

Lemma count_loop_acc fuel d i : UBoot.uboot_count_loop fuel d i = i + UBoot.uboot_count_loop fuel d 0.
Proof.
  revert d i. induction fuel as [|fuel IH]; intros d i; simpl; [lia|].
  case_match; [lia|]. rewrite IH, (IH _ (if tst d 1 then _ else _)). case_match; lia.
Qed.

Lemma uboot_decode_double s t :
  s <> t -> paired s = true -> paired t = true -> uboot_decode (exor s t) = Fail.
Proof.
  intros Hne (Hs & ? & ? & ?)%paired_spec (Ht & ? & ? & ?)%paired_spec.
  pose proof (proj2 (Z.eqb_neq _ _) (double_not_clean s t Hne Hs Ht)) as Hc.
  destruct Hs as (? & ? & ?), Ht as (? & ? & ?).
  destruct (paired55_xor (e0 s) (e0 t)) as [Hn0 He0]; [assumption..|].
  destruct (paired55_xor (e1 s) (e1 t)) as [_ He1]; [assumption..|].
  pose proof (paired54_xor (e2 s) (e2 t)) as He2. specialize (He2 ltac:(assumption) ltac:(assumption)
    ltac:(assumption) ltac:(assumption)).
  unfold uboot_decode, exor. rewrite Hc. unfold paired55 in Hn0. rewrite Hn0. cbn [andb].
  unfold even_pairs in *. rewrite !andb_true_iff in *. destruct_and!.
  rewrite (count_loop_acc 8 (Z.lxor (e2 s) (e2 t))), (count_loop_acc 8 (Z.lxor (e1 s) (e1 t))).
  by rewrite even_sum_ne_1.
Qed.

Lemma uboot_correct_flip x k b :
  bytes 256 x -> (k < 256)%nat -> (b < 8)%nat ->
  UBoot.uboot_nand_correct_data (flip x k b) (UBoot.uboot_nand_calculate_ecc x)
    (UBoot.uboot_nand_calculate_ecc (flip x k b)) = (1, x, UBoot.uboot_nand_calculate_ecc x).
Proof.
  intros Hx Hk Hb. rewrite uboot_correct_eq, exor_comm.
  rewrite (single_decode 256 _ _ UBootFacts.uboot_calculate_affine uboot_decodes) by assumption.
  rewrite shiftl_1_nat. fold (flip (flip x k b) k b). by rewrite (flip_flip 256).
Qed.

(** ** MTD layer *)

Definition mtd_decode (mult : Z) (d : ecc) : verdict :=
  let '(mk_ecc b1 b0 b2) := d in
  if Z.lor (Z.lor b0 b1) b2 =? 0 then Clean
  else if (Z.land (Z.lxor b0 (Z.shiftr b0 1)) 0x55 =? 0x55) &&
          (Z.land (Z.lxor b1 (Z.shiftr b1 1)) 0x55 =? 0x55) &&
          ((mult =? 1) && (Z.land (Z.lxor b2 (Z.shiftr b2 1)) 0x54 =? 0x54) ||
           (mult =? 2) && (Z.land (Z.lxor b2 (Z.shiftr b2 1)) 0x55 =? 0x55)) then
    FlipAt
      (u8 (if mult =? 1
       then Z.shiftl (tab Mtd.addressbits b1) 4 + tab Mtd.addressbits b0
       else Z.shiftl (tab Mtd.addressbits (Z.land b2 0x3)) 8 +
            Z.shiftl (tab Mtd.addressbits b1) 4 + tab Mtd.addressbits b0))
      (tab Mtd.addressbits (Z.shiftr b2 2))
  else if tab Mtd.bitsperbyte b0 + tab Mtd.bitsperbyte b1 + tab Mtd.bitsperbyte b2 =? 1
  then EccOnly else Fail.

Lemma mtd_correct_eq eccsize data r t :
  Mtd.nand_correct_data eccsize data r t =
  match mtd_decode (Z.shiftr eccsize 8) (exor r t) with
  | Clean => (0, data)
  | FlipAt k b => (1, xor_at data k (Z.shiftl 1 b))
  | EccOnly => (1, data)
  | Fail => (-1, data)
  end.
Proof. unfold Mtd.nand_correct_data, mtd_decode, exor. repeat (case_match; try done). Qed.

(** The encoder in the form that evaluates fast. *)
Definition mtd_fast (mult : Z) (buf : list Z) : ecc :=
  Mtd.ecc_finish mult
    (MtdFacts.group_loop mult (Z.to_nat (Z.shiftl mult 2)) 0 buf (Mtd.mk_regs 0 0 0 0 0 0 0 0)).

Lemma mtd_fast_256 buf : Mtd.nand_calculate_ecc 256 buf = mtd_fast 1 buf.
Proof. apply (MtdFacts.calculate_groups 256). lia. Qed.

Lemma mtd_fast_512 buf : Mtd.nand_calculate_ecc 512 buf = mtd_fast 2 buf.
Proof. apply (MtdFacts.calculate_groups 512). lia. Qed.

Lemma affine_ext n f g : (forall x, f x = g x) -> affine n f -> affine n g.
Proof. intros E Hf x y Hx Hy. rewrite <- !E. by apply Hf. Qed.

Lemma mtd_affine_256 : affine 256 (mtd_fast 1).
Proof. exact (affine_ext _ _ _ mtd_fast_256 (MtdFacts.mtd_calculate_affine 256 256 (or_introl eq_refl))). Qed.

Lemma mtd_affine_512 : affine 512 (mtd_fast 2).
Proof. exact (affine_ext _ _ _ mtd_fast_512 (MtdFacts.mtd_calculate_affine 512 512 (or_intror eq_refl))). Qed.

Lemma mtd_decodes : decodes 256 (mtd_fast 1) (mtd_decode 1) = true.
Proof. vm_cast_no_check (eq_refl true). Qed.

(** On 512-byte blocks the decoded byte address keeps only its low eight bits. *)
Lemma mtd_decodes_512 :
  (let z := mtd_fast 2 (zeros 512) in
   all_bits 512 (fun k b =>
     verdict_eqb (mtd_decode 2 (exor (mtd_fast 2 (unit_bit 512 k b)) z))
       (FlipAt (Z.of_nat (k mod 256)) (Z.of_nat b)))) = true.
Proof. vm_cast_no_check (eq_refl true). Qed.

Lemma mtd_correct_flip x k b :
  bytes 256 x -> (k < 256)%nat -> (b < 8)%nat ->
  Mtd.nand_correct_data 256 (flip x k b) (Mtd.nand_calculate_ecc 256 x)
    (Mtd.nand_calculate_ecc 256 (flip x k b)) = (1, x).
Proof.
  intros Hx Hk Hb. rewrite mtd_correct_eq. change (Z.shiftr 256 8) with 1.
  rewrite !mtd_fast_256, (single_decode 256 _ _ mtd_affine_256 mtd_decodes) by assumption.
  rewrite shiftl_1_nat. fold (flip (flip x k b) k b). by rewrite (flip_flip 256).
Qed.

(** C32: With an ECC step of 512 bytes nand_correct_data of the MTD layer reports one corrected bit
    but flips the bit at the address modulo 256, because byte_addr is an unsigned char: errors
    in the upper half of the block are not corrected and a good bit of the lower half is
    inverted. *)
Theorem mtd_512_flips_low_half x k b :
  bytes 512 x -> (k < 512)%nat -> (b < 8)%nat ->
  Mtd.nand_correct_data 512 (flip x k b) (Mtd.nand_calculate_ecc 512 x)
    (Mtd.nand_calculate_ecc 512 (flip x k b)) = (1, flip (flip x k b) (k mod 256) b).
Proof.
  intros Hx Hk Hb. rewrite mtd_correct_eq. change (Z.shiftr 512 8) with 2.
  rewrite !mtd_fast_512, (flip_syndrome 512 _ mtd_affine_512) by assumption. unfold syndrome.
  pose proof (all_bits_spec _ _ k b mtd_decodes_512 Hk Hb) as H. cbv beta in H.
  apply verdict_eqb_eq in H. rewrite H. by rewrite shiftl_1_nat.
Qed.

Lemma mtd_512_flips_low_half_witness :
  Mtd.nand_correct_data 512 (flip (page 512) 300 2) (Mtd.nand_calculate_ecc 512 (page 512))
    (Mtd.nand_calculate_ecc 512 (flip (page 512) 300 2)) = (1, flip (flip (page 512) 300 2) (300 mod 256) 2).
Proof. apply (mtd_512_flips_low_half (page 512) 300 2); [apply page_bytes|lia|lia]. Defined.

(** ** Agreement *)

Lemma ecc_eqb_spec a b : (e0 a =? e0 b) && (e1 a =? e1 b) && (e2 a =? e2 b) = true -> a = b.
Proof. destruct a, b; simpl. intros. f_equal; lia. Qed.

Lemma mtd_uboot_units :
  all_bits 256 (fun k b =>
    let a := mtd_fast 1 (unit_bit 256 k b) in
    let b := UBoot.uboot_nand_calculate_ecc (unit_bit 256 k b) in
    (e0 a =? e0 b) && (e1 a =? e1 b) && (e2 a =? e2 b)) = true.
Proof. vm_cast_no_check (eq_refl true). Qed.

Lemma mtd_uboot_same x :
  bytes 256 x -> Mtd.nand_calculate_ecc 256 x = UBoot.uboot_nand_calculate_ecc x.
Proof.
  intros Hx. rewrite mtd_fast_256. revert x Hx.
  apply (affine_agree 256 _ _ mtd_affine_256 UBootFacts.uboot_calculate_affine).
  - vm_compute. reflexivity.
  - intros k b Hk Hb. apply ecc_eqb_spec. exact (all_bits_spec _ _ k b mtd_uboot_units Hk Hb).
Qed.

(** The first two code bytes exchanged. *)
Definition swap01 (e : ecc) : ecc := mk_ecc (e1 e) (e0 e) (e2 e).

Lemma swap01_exor a b : swap01 (exor a b) = exor (swap01 a) (swap01 b).
Proof. reflexivity. Qed.

Lemma yaffs_uboot_units :
  all_bits 256 (fun k b =>
    let a := Yaffs.yaffs_ECCCalculate (unit_bit 256 k b) in
    let b := swap01 (UBoot.uboot_nand_calculate_ecc (unit_bit 256 k b)) in
    (e0 a =? e0 b) && (e1 a =? e1 b) && (e2 a =? e2 b)) = true.
Proof. vm_cast_no_check (eq_refl true). Qed.

Lemma yaffs_uboot_swapped x :
  bytes 256 x -> Yaffs.yaffs_ECCCalculate x = swap01 (UBoot.uboot_nand_calculate_ecc x).
Proof.
  apply (affine_agree 256 _ (fun x => swap01 (UBoot.uboot_nand_calculate_ecc x))
    YaffsFacts.yaffs_calculate_affine).
  - intros y z Hy Hz. rewrite UBootFacts.uboot_calculate_affine by assumption. by rewrite !swap01_exor.
  - vm_compute. reflexivity.
  - intros k b Hk Hb. apply ecc_eqb_spec. exact (all_bits_spec _ _ k b yaffs_uboot_units Hk Hb).
Qed.

(** C31: The boot loader's nand_correct_data and, with 256-byte steps, that of the kernel's MTD
    layer restore a block with any one bit flipped and return 1; on every 256-byte block both
    compute the same three ECC bytes, and YAFFS computes the same with the first two bytes
    exchanged. *)
Theorem boot_and_mtd_correct_single_bit x k b :
  bytes 256 x -> (k < 256)%nat -> (b < 8)%nat ->
  UBoot.uboot_nand_correct_data (flip x k b) (UBoot.uboot_nand_calculate_ecc x)
    (UBoot.uboot_nand_calculate_ecc (flip x k b)) = (1, x, UBoot.uboot_nand_calculate_ecc x) /\
  Mtd.nand_correct_data 256 (flip x k b) (Mtd.nand_calculate_ecc 256 x)
    (Mtd.nand_calculate_ecc 256 (flip x k b)) = (1, x) /\
  Mtd.nand_calculate_ecc 256 x = UBoot.uboot_nand_calculate_ecc x /\
  Yaffs.yaffs_ECCCalculate x = swap01 (UBoot.uboot_nand_calculate_ecc x).
Proof.
  intros. split_and!; [by apply uboot_correct_flip|by apply mtd_correct_flip|by apply mtd_uboot_same|by apply yaffs_uboot_swapped].
Qed.

Lemma boot_and_mtd_correct_single_bit_witness :
  UBoot.uboot_nand_correct_data (flip (page 256) 200 3) (UBoot.uboot_nand_calculate_ecc (page 256))
    (UBoot.uboot_nand_calculate_ecc (flip (page 256) 200 3)) =
  (1, page 256, UBoot.uboot_nand_calculate_ecc (page 256)) /\
  Mtd.nand_correct_data 256 (flip (page 256) 200 3) (Mtd.nand_calculate_ecc 256 (page 256))
    (Mtd.nand_calculate_ecc 256 (flip (page 256) 200 3)) = (1, page 256) /\
  Mtd.nand_calculate_ecc 256 (page 256) = UBoot.uboot_nand_calculate_ecc (page 256) /\
  Yaffs.yaffs_ECCCalculate (page 256) = swap01 (UBoot.uboot_nand_calculate_ecc (page 256)).
Proof. apply (boot_and_mtd_correct_single_bit (page 256) 200 3); [apply page_bytes|lia|lia]. Defined.

(** ** The YAFFS code over tags of any length *)

Lemma calculate_other n x :
  bytes n x ->
  Yaffs.yaffs_ECCCalculateOther x (Z.of_nat n) =
  let s := csum (YaffsFacts.contrib 32) 0 x in
  Yaffs.mk_ECCOther (Z.land (Z.shiftr (e0 s) 2) 0x3f) (e1 s) (e2 s).
Proof.
  intros [Hx _]. unfold Yaffs.yaffs_ECCCalculateOther. rewrite Nat2Z.id, take_ge by lia.
  pose proof (YaffsFacts.yaffs_loop_csum 32 x 0 (Yaffs.mk_acc 0 0 0)) as H.
  unfold YaffsFacts.conv at 2 in H. simpl in H. rewrite exor_0_l in H.
  rewrite <- H by (unfold in_w; lia). done.
Qed.

Lemma csum_flip n x k b :
  bytes n x -> (k < n)%nat -> (b < 8)%nat ->
  csum (YaffsFacts.contrib 32) 0 (flip x k b) =
  exor (csum (YaffsFacts.contrib 32) 0 x) (YaffsFacts.contrib 32 (Z.of_nat k) (2 ^ Z.of_nat b)).
Proof.
  intros Hx Hk Hb. rewrite (flip_unit n) by done.
  rewrite (csum_linear _ (YaffsFacts.yaffs_contrib_linear 32) n)
    by (done || by apply bytes_single, byte_pow). unfold unit_bit.
  by rewrite (csum_single _ (YaffsFacts.yaffs_contrib_0 32)).
Qed.

(** The column parities of the eight single-bit bytes. *)
Definition column_of (b : nat) : Z := tab Yaffs.column_parity_table (2 ^ Z.of_nat b).

Lemma column_of_spec b :
  (b < 8)%nat ->
  let c := Z.land (Z.shiftr (column_of b) 2) 0x3f in
  tst (column_of b) 1 = true /\ c <> 0 /\ Z.land (Z.lxor c (Z.shiftr c 1)) 0x15 = 0x15 /\
  or_if c 0x02 0x01 (or_if c 0x08 0x02 (or_if c 0x20 0x04 0)) = Z.of_nat b.
Proof.
  intros Hb. do 8 (destruct b as [|b]; [by vm_compute|]). lia.
Qed.

Lemma column_delta x y :
  Z.lxor (Z.land (Z.shiftr x 2) 0x3f) (Z.land (Z.shiftr (Z.lxor x y) 2) 0x3f) =
  Z.land (Z.shiftr y 2) 0x3f.
Proof.
  rewrite Z.shiftr_lxor, land_lxor. apply lxor_cancel_l.
Qed.

Lemma not_w_involutive w x : 0 <= w -> in_w w x -> not_w w (not_w w x) = x.
Proof.
  intros Hw Hx. unfold not_w. by_bits i Hi. destruct (Z.ltb_spec i w); simpl.
  - by rewrite negb_involutive.
  - symmetry. by apply (in_w_testbit w).
Qed.

Lemma yaffs_other_correct_flip n x k b :
  bytes n x -> Z.of_nat n <= 2 ^ 32 -> (k < n)%nat -> (b < 8)%nat ->
  let ecc := Yaffs.yaffs_ECCCalculateOther in
  Yaffs.yaffs_ECCCorrectOther (flip x k b) (Z.of_nat n) (ecc x (Z.of_nat n))
    (ecc (flip x k b) (Z.of_nat n)) = (1, x, ecc x (Z.of_nat n)).
Proof.
  intros Hx Hn Hk Hb ecc. unfold ecc.
  rewrite (calculate_other n x), (calculate_other n (flip x k b)) by (done || by apply flip_bytes).
  rewrite (csum_flip n) by done. cbv zeta. set (s := csum _ 0 x).
  unfold YaffsFacts.contrib. fold (column_of b). cbn [exor e0 e1 e2].
  destruct (column_of_spec b Hb) as (-> & Hc & H15 & Hbit).
  unfold Yaffs.yaffs_ECCCorrectOther. cbn [Yaffs.colParity Yaffs.lineParity Yaffs.lineParityPrime].
  rewrite column_delta, !lxor_cancel_l. set (c := Z.land (Z.shiftr (column_of b) 2) 0x3f) in *.
  assert (in_w 32 (Z.of_nat k)) as Hk32 by (unfold in_w; lia).
  rewrite (wrap_small 32 (Z.of_nat k)) by done.
  rewrite (wrap_small 32 (not_w 32 _)) by (by apply wrap_in).
  rewrite not_w_involutive, Z.eqb_refl, H15, Hbit by (done || lia).
  replace (Z.lor _ _ =? 0) with false.
  2: { symmetry. apply Z.eqb_neq. intros [[H _]%Z.lor_eq_0_iff _]%Z.lor_eq_0_iff. done. }
  cbn [andb]. replace (Z.of_nat n <=? Z.of_nat k) with false by lia.
  rewrite Z.eqb_refl, shiftl_1_nat. fold (flip (flip x k b) k b). by rewrite (flip_flip n).
Qed.

(** C4: yaffs_ECCCorrect, given the stored code of a 256-byte block and the code of the block with
    any one bit flipped, restores the block and returns 1, and with any two distinct bits
    flipped returns -1 and leaves the block alone; yaffs_ECCCorrectOther, the code of the tags,
    corrects any one flipped bit of a region of any length up to 2^32 bytes. *)
Theorem yaffs_corrects_one_detects_two x k b k2 b2 n y k' :
  bytes 256 x -> (k < 256)%nat -> (b < 8)%nat -> (k2 < 256)%nat -> (b2 < 8)%nat -> (k, b) <> (k2, b2) ->
  bytes n y -> Z.of_nat n <= 2 ^ 32 -> (k' < n)%nat ->
  let ecc := Yaffs.yaffs_ECCCalculateOther in
  let z := flip (flip x k b) k2 b2 in
  Yaffs.yaffs_ECCCorrect (flip x k b) (Yaffs.yaffs_ECCCalculate x)
    (Yaffs.yaffs_ECCCalculate (flip x k b)) = (1, x, Yaffs.yaffs_ECCCalculate x) /\
  Yaffs.yaffs_ECCCorrect z (Yaffs.yaffs_ECCCalculate x) (Yaffs.yaffs_ECCCalculate z) =
    (-1, z, Yaffs.yaffs_ECCCalculate x) /\
  Yaffs.yaffs_ECCCorrectOther (flip y k' b) (Z.of_nat n) (ecc y (Z.of_nat n))
    (ecc (flip y k' b) (Z.of_nat n)) = (1, y, ecc y (Z.of_nat n)).
Proof. intros. split_and!; [by apply yaffs_correct_flip|by apply yaffs_detect_flips|by apply yaffs_other_correct_flip]. Qed.

Lemma yaffs_corrects_one_detects_two_witness :
  let ecc := Yaffs.yaffs_ECCCalculateOther in
  let z := flip (flip (page 256) 200 3) 200 4 in
  Yaffs.yaffs_ECCCorrect (flip (page 256) 200 3) (Yaffs.yaffs_ECCCalculate (page 256))
    (Yaffs.yaffs_ECCCalculate (flip (page 256) 200 3)) =
  (1, page 256, Yaffs.yaffs_ECCCalculate (page 256)) /\
  Yaffs.yaffs_ECCCorrect z (Yaffs.yaffs_ECCCalculate (page 256)) (Yaffs.yaffs_ECCCalculate z) =
  (-1, z, Yaffs.yaffs_ECCCalculate (page 256)) /\
  Yaffs.yaffs_ECCCorrectOther (flip (page 16) 5 3) 16 (ecc (page 16) 16) (ecc (flip (page 16) 5 3) 16) =
  (1, page 16, ecc (page 16) 16).
Proof.
  apply (yaffs_corrects_one_detects_two (page 256) 200 3 200 4 16 (page 16) 5); (apply page_bytes || lia || done).
Defined.
