(* ===== verification/YaffsTags.v ===== *)
(** * YAFFS tags

    The description of a chunk that YAFFS keeps in the spare area of a NAND page:
    fs/yaffs2/yaffs_packedtags1.c, yaffs_packedtags2.c, yaffs_tagsvalidity.c, the tags
    part of yaffs_tagscompat.c, and the types of yaffs_guts.h they use.

    The 8-byte tags of YAFFS1 are bit-fields of two 32-bit words that the code also
    accesses as bytes (yaffs_TagsUnion); on this little-endian machine the union is
    the 64-bit number whose byte [i] is [asBytes[i]].  The tracing functions
    (yaffs_Dump...) have no effect on the tags. *)

From S2P Require Import Prelude NandEcc.

Local Open Scope Z_scope.

(** ** Types of yaffs_guts.h *)

Inductive yaffs_ECCResult :=
| YAFFS_ECC_RESULT_UNKNOWN
| YAFFS_ECC_RESULT_NO_ERROR
| YAFFS_ECC_RESULT_FIXED
| YAFFS_ECC_RESULT_UNFIXED.

#[export] Instance yaffs_ECCResult_eq_dec : EqDecision yaffs_ECCResult.
Proof. solve_decision. Defined.

Definition YAFFS_OBJECT_TYPE_FILE : Z := 1.
Definition YAFFS_OBJECT_TYPE_HARDLINK : Z := 4.

Record yaffs_ExtendedTags := mk_etags {
  validMarker0 : Z;
  chunkUsed : Z;
  objectId : Z;
  chunkId : Z;
  byteCount : Z;
  eccResult : yaffs_ECCResult;
  blockBad : Z;
  chunkDeleted : Z;
  serialNumber : Z;
  sequenceNumber : Z;
  extraHeaderInfoAvailable : Z;
  extraParentObjectId : Z;
  extraIsShrinkHeader : Z;
  extraShadows : Z;
  extraObjectType : Z;
  extraFileLength : Z;
  extraEquivalentObjectId : Z;
  validMarker1 : Z
}.

#[export] Instance etags_fields : Fields yaffs_ExtendedTags := fun r =>
  mk_etags (validMarker0 r) (chunkUsed r) (objectId r) (chunkId r) (byteCount r) (eccResult r)
    (blockBad r) (chunkDeleted r) (serialNumber r) (sequenceNumber r) (extraHeaderInfoAvailable r)
    (extraParentObjectId r) (extraIsShrinkHeader r) (extraShadows r) (extraObjectType r)
    (extraFileLength r) (extraEquivalentObjectId r) (validMarker1 r).

(** [memset(t, 0, sizeof(yaffs_ExtendedTags))]. *)
Definition etags_zero : yaffs_ExtendedTags :=
  mk_etags 0 0 0 0 0 YAFFS_ECC_RESULT_UNKNOWN 0 0 0 0 0 0 0 0 0 0 0 0.

(** ** yaffs_tagsvalidity.c *)

Definition yaffs_InitialiseTags : yaffs_ExtendedTags :=
  etags_zero <| validMarker0 := 0xAAAAAAAA |> <| validMarker1 := 0x55555555 |>.

Definition yaffs_ValidateTags (tags : yaffs_ExtendedTags) : bool :=
  (validMarker0 tags =? 0xAAAAAAAA) && (validMarker1 tags =? 0x55555555).

(** ** yaffs_packedtags2.c: the tags of YAFFS2 *)

Record yaffs_PackedTags2TagsPart := mk_ptt {
  ptt_sequenceNumber : Z; ptt_objectId : Z; ptt_chunkId : Z; ptt_byteCount : Z
}.

#[export] Instance ptt_fields : Fields yaffs_PackedTags2TagsPart := fun r =>
  mk_ptt (ptt_sequenceNumber r) (ptt_objectId r) (ptt_chunkId r) (ptt_byteCount r).

Record yaffs_PackedTags2 := mk_pt2 { pt2_t : yaffs_PackedTags2TagsPart; pt2_ecc : Yaffs.ECCOther }.

Definition EXTRA_HEADER_INFO_FLAG : Z := 0x80000000.
Definition EXTRA_SHRINK_FLAG : Z := 0x40000000.
Definition EXTRA_SHADOWS_FLAG : Z := 0x20000000.
Definition ALL_EXTRA_FLAGS : Z := 0xF0000000.
Definition EXTRA_OBJECT_TYPE_SHIFT : Z := 28.
Definition EXTRA_OBJECT_TYPE_MASK : Z := 0xF0000000.

Definition yaffs_PackTags2TagsPart (t : yaffs_ExtendedTags) : yaffs_PackedTags2TagsPart :=
  let ptt := mk_ptt (sequenceNumber t) (objectId t) (chunkId t) (byteCount t) in
  if (chunkId t =? 0) && truthy (extraHeaderInfoAvailable t) then
    let ptt := ptt <| ptt_chunkId := Z.lor EXTRA_HEADER_INFO_FLAG (extraParentObjectId t) |> in
    let ptt := if truthy (extraIsShrinkHeader t)
               then ptt <| ptt_chunkId ::= fun c => Z.lor c EXTRA_SHRINK_FLAG |> else ptt in
    let ptt := if truthy (extraShadows t)
               then ptt <| ptt_chunkId ::= fun c => Z.lor c EXTRA_SHADOWS_FLAG |> else ptt in
    let ptt := ptt <| ptt_objectId ::= fun o => Z.land o (not_w 32 EXTRA_OBJECT_TYPE_MASK) |> in
    let ptt := ptt <| ptt_objectId ::= fun o =>
                        Z.lor o (u32 (Z.shiftl (extraObjectType t) EXTRA_OBJECT_TYPE_SHIFT)) |> in
    if extraObjectType t =? YAFFS_OBJECT_TYPE_HARDLINK
    then ptt <| ptt_byteCount := extraEquivalentObjectId t |>
    else if extraObjectType t =? YAFFS_OBJECT_TYPE_FILE
    then ptt <| ptt_byteCount := extraFileLength t |>
    else ptt <| ptt_byteCount := 0 |>
  else ptt.

(** The 16 bytes of the struct in memory, and the struct in 16 bytes. *)
Definition le_bytes (n : nat) (v : Z) : list Z := (fun i => u8 (Z.shiftr v (8 * Z.of_nat i))) <$> seq 0 n.

Fixpoint le_value (l : list Z) : Z :=
  match l with [] => 0 | b :: l' => b + 256 * le_value l' end.

Definition ptt_bytes (p : yaffs_PackedTags2TagsPart) : list Z :=
  le_bytes 4 (ptt_sequenceNumber p) ++ le_bytes 4 (ptt_objectId p) ++
  le_bytes 4 (ptt_chunkId p) ++ le_bytes 4 (ptt_byteCount p).

Definition ptt_of_bytes (l : list Z) : yaffs_PackedTags2TagsPart :=
  mk_ptt (le_value (take 4 l)) (le_value (take 4 (drop 4 l))) (le_value (take 4 (drop 8 l)))
         (le_value (take 4 (drop 12 l))).

(** [pt] is the caller's variable: without the tags ECC its [ecc] is not written. *)
Definition yaffs_PackTags2 (noTagsECC : bool) (pt : yaffs_PackedTags2) (t : yaffs_ExtendedTags)
  : yaffs_PackedTags2 :=
  let ptt := yaffs_PackTags2TagsPart t in
  mk_pt2 ptt (if noTagsECC then pt2_ecc pt else Yaffs.yaffs_ECCCalculateOther (ptt_bytes ptt) 16).

Definition yaffs_UnpackTags2TagsPart (ptt : yaffs_PackedTags2TagsPart) : yaffs_ExtendedTags :=
  let t := yaffs_InitialiseTags in
  if negb (ptt_sequenceNumber ptt =? 0xFFFFFFFF) then
    let t := t <| blockBad := 0 |> <| chunkUsed := 1 |> <| objectId := ptt_objectId ptt |>
               <| chunkId := ptt_chunkId ptt |> <| byteCount := ptt_byteCount ptt |>
               <| chunkDeleted := 0 |> <| serialNumber := 0 |>
               <| sequenceNumber := ptt_sequenceNumber ptt |> in
    if tst (ptt_chunkId ptt) EXTRA_HEADER_INFO_FLAG then
      let t := t <| chunkId := 0 |> <| byteCount := 0 |> <| extraHeaderInfoAvailable := 1 |>
                 <| extraParentObjectId := Z.land (ptt_chunkId ptt) (not_w 32 ALL_EXTRA_FLAGS) |>
                 <| extraIsShrinkHeader := if tst (ptt_chunkId ptt) EXTRA_SHRINK_FLAG then 1 else 0 |>
                 <| extraShadows := if tst (ptt_chunkId ptt) EXTRA_SHADOWS_FLAG then 1 else 0 |>
                 <| extraObjectType := Z.shiftr (ptt_objectId ptt) EXTRA_OBJECT_TYPE_SHIFT |>
                 <| objectId ::= fun o => Z.land o (not_w 32 EXTRA_OBJECT_TYPE_MASK) |> in
      if extraObjectType t =? YAFFS_OBJECT_TYPE_HARDLINK
      then t <| extraEquivalentObjectId := ptt_byteCount ptt |>
      else t <| extraFileLength := ptt_byteCount ptt |>
    else t
  else t.

(** The tags, and [pt], which the correction updates in place. *)
Definition yaffs_UnpackTags2 (noTagsECC : bool) (pt : yaffs_PackedTags2)
  : yaffs_ExtendedTags * yaffs_PackedTags2 :=
  let '(res, pt) :=
    if negb (ptt_sequenceNumber (pt2_t pt) =? 0xFFFFFFFF) && negb noTagsECC then
      let ecc := Yaffs.yaffs_ECCCalculateOther (ptt_bytes (pt2_t pt)) 16 in
      let '(result, b, read_ecc) :=
        Yaffs.yaffs_ECCCorrectOther (ptt_bytes (pt2_t pt)) 16 (pt2_ecc pt) ecc in
      (if result =? 0 then YAFFS_ECC_RESULT_NO_ERROR
       else if result =? 1 then YAFFS_ECC_RESULT_FIXED
       else if result =? -1 then YAFFS_ECC_RESULT_UNFIXED
       else YAFFS_ECC_RESULT_UNKNOWN,
       mk_pt2 (ptt_of_bytes b) read_ecc)
    else (YAFFS_ECC_RESULT_NO_ERROR, pt) in
  ((yaffs_UnpackTags2TagsPart (pt2_t pt)) <| eccResult := res |>, pt).

(** ** The 8-byte tags of YAFFS1 *)

Record bitfield := BF { bf_pos : Z; bf_width : Z }.

Definition bf_get (f : bitfield) (v : Z) : Z := Z.land (Z.shiftr v (bf_pos f)) (Z.ones (bf_width f)).

Definition bf_put (f : bitfield) (x v : Z) : Z :=
  Z.lor (Z.ldiff v (Z.shiftl (Z.ones (bf_width f)) (bf_pos f)))
        (Z.shiftl (Z.land x (Z.ones (bf_width f))) (bf_pos f)).

(** [yaffs_Tags]. *)
Definition tag_chunkId : bitfield := BF 0 20.
Definition tag_serialNumber : bitfield := BF 20 2.
Definition tag_byteCountLSB : bitfield := BF 22 10.
Definition tag_objectId : bitfield := BF 32 18.
Definition tag_ecc : bitfield := BF 50 12.
Definition tag_byteCountMSB : bitfield := BF 62 2.

(** The last two bits as [yaffs_PackedTags1] has them. *)
Definition tag_deleted : bitfield := BF 62 1.
Definition tag_unusedStuff : bitfield := BF 63 1.

Definition asBytes (v i : Z) : Z := u8 (Z.shiftr v (8 * i)).

(** ** yaffs_tagscompat.c: the ECC of the tags *)

(** [for (j = 1; j & 0xff; j <<= 1)]: the bit number and the code so far. *)
Fixpoint tags_bit_loop (fuel : nat) (b j bit ecc : Z) : Z * Z :=
  match fuel with
  | O => (bit, ecc)
  | S fuel' =>
      if tst j 0xff then
        let bit := bit + 1 in
        tags_bit_loop fuel' b (Z.shiftl j 1) bit (if tst b j then Z.lxor ecc bit else ecc)
      else (bit, ecc)
  end.

(** [for (i = 0; i < 8; i++)], with [n] rounds left. *)
Fixpoint tags_byte_loop (n : nat) (v i bit ecc : Z) : Z :=
  match n with
  | O => ecc
  | S n' => let '(bit, ecc) := tags_bit_loop 9 (asBytes v i) 1 bit ecc in tags_byte_loop n' v (i + 1) bit ecc
  end.

Definition yaffs_CalcTagsECC (tags : Z) : Z :=
  let tags := bf_put tag_ecc 0 tags in
  bf_put tag_ecc (tags_byte_loop 8 tags 0 0 0) tags.

(** [b[i] ^= x] on the bytes of the union. *)
Definition xor_byte (v i x : Z) : Z := Z.lxor v (Z.shiftl (u8 x) (8 * i)).

Definition yaffs_CheckECCOnTags (tags : Z) : Z * Z :=
  let ecc := bf_get tag_ecc tags in
  let tags := yaffs_CalcTagsECC tags in
  let ecc := Z.lxor ecc (bf_get tag_ecc tags) in
  if truthy ecc && (ecc <=? 64) then
    let ecc := ecc - 1 in
    let tags := xor_byte tags (ecc / 8) (Z.shiftl 1 (Z.land ecc 7)) in
    (1, yaffs_CalcTagsECC tags)
  else if truthy ecc then (-1, tags)
  else (0, tags).

(** ** yaffs_packedtags1.c *)

Record yaffs_PackedTags1 := mk_pt1 { pt1_tags : Z; shouldBeFF : Z }.

Definition yaffs_PackTags1 (pt : yaffs_PackedTags1) (t : yaffs_ExtendedTags) : yaffs_PackedTags1 :=
  let v := bf_put tag_chunkId (chunkId t) (pt1_tags pt) in
  let v := bf_put tag_serialNumber (serialNumber t) v in
  let v := bf_put tag_byteCountLSB (byteCount t) v in
  let v := bf_put tag_objectId (objectId t) v in
  let v := bf_put tag_ecc 0 v in
  let v := bf_put tag_deleted (if truthy (chunkDeleted t) then 0 else 1) v in
  let v := bf_put tag_unusedStuff 0 v in
  mk_pt1 v 0xFFFFFFFF.

(** [t] is the caller's variable; some of its fields are not written. *)
Definition yaffs_UnpackTags1 (t : yaffs_ExtendedTags) (pt : yaffs_PackedTags1) : yaffs_ExtendedTags :=
  if negb ((pt1_tags pt =? 2 ^ 64 - 1) && (shouldBeFF pt =? 0xFFFFFFFF)) then
    t <| blockBad := if negb (shouldBeFF pt =? 0xFFFFFFFF) then 1 else 0 |>
      <| chunkUsed := 1 |>
      <| objectId := bf_get tag_objectId (pt1_tags pt) |>
      <| chunkId := bf_get tag_chunkId (pt1_tags pt) |>
      <| byteCount := bf_get tag_byteCountLSB (pt1_tags pt) |>
      <| eccResult := YAFFS_ECC_RESULT_NO_ERROR |>
      <| chunkDeleted := if truthy (bf_get tag_deleted (pt1_tags pt)) then 0 else 1 |>
      <| serialNumber := bf_get tag_serialNumber (pt1_tags pt) |>
  else etags_zero.
