(* ===== verification/YaffsTagsFacts.v ===== *)
(** * The codes that protect the YAFFS tags

    Bit-fields, the position code over the 8-byte tags of YAFFS1 and what its check does
    for every single flipped bit, and packing and unpacking the tags of YAFFS2. *)

From S2P Require Import Prelude NandEcc NandEccFacts NandEccSpec YaffsTags.

Local Open Scope Z_scope.

(** ** Bit-fields *)

Lemma ones_testbit w i : 0 <= w -> 0 <= i -> Z.testbit (Z.ones w) i = (i <? w).
Proof.
  intros. destruct (Z.ltb_spec i w); [by apply Z.ones_spec_low|by apply Z.ones_spec_high].
Qed.

Lemma bf_get_testbit f v i :
  0 <= bf_pos f -> 0 <= bf_width f -> 0 <= i ->
  Z.testbit (bf_get f v) i = (i <? bf_width f) && Z.testbit v (i + bf_pos f).
Proof.
  intros. unfold bf_get. rewrite Z.land_spec, Z.shiftr_spec, ones_testbit by lia. apply andb_comm.
Qed.

Lemma bf_put_testbit f x v i :
  0 <= bf_pos f -> 0 <= bf_width f -> 0 <= i ->
  Z.testbit (bf_put f x v) i =
  if (bf_pos f <=? i) && (i <? bf_pos f + bf_width f) then Z.testbit x (i - bf_pos f) else Z.testbit v i.
Proof.
  intros. unfold bf_put. rewrite Z.lor_spec, Z.ldiff_spec, !Z.shiftl_spec, Z.land_spec by lia.
  destruct (Z.leb_spec (bf_pos f) i).
  - rewrite ones_testbit by lia.
    destruct (Z.ltb_spec (i - bf_pos f) (bf_width f)), (Z.ltb_spec i (bf_pos f + bf_width f)); try lia;
      cbn [andb negb]; by rewrite ?andb_true_r, ?andb_false_r, ?orb_false_r.
  - rewrite !(Z.testbit_neg_r _ (i - bf_pos f)) by lia. cbn [andb negb]. by rewrite andb_true_r, orb_false_r.
Qed.

(** Compare numbers bit by bit, with every bit-field inside 64 bits. *)
Ltac bf_bits i Hi :=
  apply Z.bits_inj'; intros i Hi;
  repeat (rewrite ?bf_get_testbit, ?bf_put_testbit, ?Z.lxor_spec, ?Z.land_spec, ?ones_testbit by (simpl; lia));
  cbn [bf_pos bf_width tag_chunkId tag_serialNumber tag_byteCountLSB tag_objectId tag_ecc tag_byteCountMSB
       tag_deleted tag_unusedStuff].

Lemma bf_get_put f x v :
  0 <= bf_pos f -> 0 <= bf_width f -> bf_get f (bf_put f x v) = Z.land x (Z.ones (bf_width f)).
Proof.
  intros. apply Z.bits_inj'. intros i Hi.
  rewrite bf_get_testbit, bf_put_testbit, Z.land_spec, ones_testbit by lia.
  destruct (Z.ltb_spec i (bf_width f)); cbn [andb]; [|by rewrite andb_false_r].
  replace ((bf_pos f <=? i + bf_pos f) && (i + bf_pos f <? bf_pos f + bf_width f)) with true by lia.
  rewrite andb_true_r. f_equal. lia.
Qed.

Lemma bf_get_other f g x v :
  0 <= bf_pos f -> 0 <= bf_width f -> 0 <= bf_pos g -> 0 <= bf_width g ->
  bf_pos f + bf_width f <= bf_pos g \/ bf_pos g + bf_width g <= bf_pos f ->
  bf_get f (bf_put g x v) = bf_get f v.
Proof.
  intros. apply Z.bits_inj'. intros i Hi. rewrite !bf_get_testbit, bf_put_testbit by lia.
  destruct (Z.ltb_spec i (bf_width f)); cbn [andb]; [|done].
  by replace ((bf_pos g <=? i + bf_pos f) && (i + bf_pos f <? bf_pos g + bf_width g)) with false by lia.
Qed.

Lemma bf_get_in f v : 0 <= bf_pos f -> 0 <= bf_width f -> in_w (bf_width f) (bf_get f v).
Proof.
  intros. unfold bf_get. rewrite Z.land_ones by done. apply Z.mod_pos_bound. by apply Z.pow_pos_nonneg.
Qed.

Lemma land_ones_small w x : 0 <= w -> in_w w x -> Z.land x (Z.ones w) = x.
Proof. intros. rewrite Z.land_ones by done. by apply Z.mod_small. Qed.

Lemma bf_put_in w f x v :
  0 <= bf_pos f -> 0 <= bf_width f -> bf_pos f + bf_width f <= w -> in_w w v -> in_w w (bf_put f x v).
Proof.
  intros Hp Hw Hle Hv. apply in_w_of_testbit; [lia| |].
  - unfold bf_put. apply Z.lor_nonneg. split; [apply Z.ldiff_nonneg; unfold in_w in Hv; lia|].
    apply Z.shiftl_nonneg, Z.land_nonneg. right. rewrite Z.ones_equiv.
    pose proof (Z.pow_pos_nonneg 2 (bf_width f)). lia.
  - intros i Hi. rewrite bf_put_testbit by lia.
    replace ((bf_pos f <=? i) && (i <? bf_pos f + bf_width f)) with false by lia.
    by apply (in_w_testbit w).
Qed.

(** ** The position code of the YAFFS1 tags *)

(** The exclusive or of the numbers, from [bit + 1], of the bits that are set in [m] bits
    of [v] from bit [k]. *)
Fixpoint xor_bits (m : nat) (k bit v ecc : Z) : Z :=
  match m with
  | O => ecc
  | S m' => xor_bits m' (k + 1) (bit + 1) v (if Z.testbit v k then Z.lxor ecc (bit + 1) else ecc)
  end.

Lemma xor_bits_app m n : forall k bit v ecc,
  xor_bits (m + n) k bit v ecc =
  xor_bits n (k + Z.of_nat m) (bit + Z.of_nat m) v (xor_bits m k bit v ecc).
Proof.
  induction m as [|m IH]; intros k bit v ecc.
  - cbn [xor_bits Nat.add]. by rewrite !Z.add_0_r.
  - cbn [xor_bits Nat.add]. rewrite IH. f_equal; lia.
Qed.

Lemma xor_bits_linear m : forall k bit v w e f,
  xor_bits m k bit (Z.lxor v w) (Z.lxor e f) = Z.lxor (xor_bits m k bit v e) (xor_bits m k bit w f).
Proof.
  induction m as [|m IH]; intros k bit v w e f; [done|]. cbn [xor_bits].
  rewrite <- IH. f_equal. rewrite Z.lxor_spec.
  destruct (Z.testbit v k), (Z.testbit w k); cbn [xorb]; by_bits i Hi;
    by destruct (Z.testbit e i), (Z.testbit f i), (Z.testbit (bit + 1) i).
Qed.

Lemma xor_bits_in m : forall k bit v ecc,
  0 <= bit -> bit + Z.of_nat m < 128 -> in_w 7 ecc -> in_w 7 (xor_bits m k bit v ecc).
Proof.
  induction m as [|m IH]; intros k bit v ecc Hb Hm He; [done|]. cbn [xor_bits].
  apply IH; [lia..|]. case_match; [|done]. apply in_w_lxor; [lia|done|]. unfold in_w. lia.
Qed.

Lemma bit_loop_bits m : forall k b bit ecc,
  Z.of_nat m + k = 8 -> 0 <= k ->
  tags_bit_loop (S m) b (2 ^ k) bit ecc = (bit + Z.of_nat m, xor_bits m k bit b ecc).
Proof.
  induction m as [|m IH]; intros k b bit ecc Hm Hk.
  - replace k with 8 by lia. cbn. by rewrite Z.add_0_r.
  - cbn [xor_bits]. change (tags_bit_loop (S (S m)) b (2 ^ k) bit ecc) with
      (if tst (2 ^ k) 0xff
       then tags_bit_loop (S m) b (Z.shiftl (2 ^ k) 1) (bit + 1)
              (if tst b (2 ^ k) then Z.lxor ecc (bit + 1) else ecc)
       else (bit, ecc)).
    assert (tst (2 ^ k) 0xff = true) as ->.
    { unfold tst, truthy. change 0xff with (2 ^ 8 - 1). rewrite land_mask by done.
      rewrite Z.mod_small by (split; [apply Z.pow_nonneg; done|apply Z.pow_lt_mono_r; lia]).
      pose proof (Z.pow_pos_nonneg 2 k). destruct (Z.eqb_spec (2 ^ k) 0); [lia|done]. }
    rewrite Z.shiftl_mul_pow2, <- Z.pow_add_r, tst_pow2 by lia. rewrite IH by lia. f_equal. lia.
Qed.

(** The bits of a byte are bits of the whole. *)
Lemma xor_bits_byte m : forall k bit v i ecc,
  0 <= k -> 0 <= i -> k + Z.of_nat m <= 8 ->
  xor_bits m k bit (asBytes v i) ecc = xor_bits m (8 * i + k) bit v ecc.
Proof.
  induction m as [|m IH]; intros k bit v i ecc Hk Hi Hm; [done|]. cbn [xor_bits].
  rewrite IH, Z.add_assoc by lia. f_equal. unfold asBytes, u8.
  rewrite wrap_testbit, Z.shiftr_spec by lia. replace (k <? 8) with true by lia. cbn [andb].
  by rewrite Z.add_comm.
Qed.

Lemma byte_loop_bits n : forall v i ecc,
  0 <= i -> tags_byte_loop n v i (8 * i) ecc = xor_bits (8 * n) (8 * i) (8 * i) v ecc.
Proof.
  induction n as [|n IH]; intros v i ecc Hi; [done|].
  cbn [tags_byte_loop]. change 1 with (2 ^ 0) at 1. rewrite bit_loop_bits by done.
  rewrite xor_bits_byte by done. replace (8 * i + Z.of_nat 8) with (8 * (i + 1)) by lia.
  rewrite IH by lia. replace (8 * S n)%nat with (8 + 8 * n)%nat by lia. rewrite xor_bits_app.
  f_equal; [lia..|]. f_equal. lia.
Qed.

Definition tags_code (v : Z) : Z := xor_bits 64 0 0 v 0.

Lemma tags_code_loop v : tags_byte_loop 8 v 0 0 0 = tags_code v.
Proof. unfold tags_code. exact (byte_loop_bits 8 v 0 0 ltac:(lia)). Qed.

Lemma tags_code_in v : in_w 7 (tags_code v).
Proof. unfold tags_code. exact (xor_bits_in 64 0 0 v 0 ltac:(lia) ltac:(lia) ltac:(unfold in_w; lia)). Qed.

Lemma tags_code_lxor v w : tags_code (Z.lxor v w) = Z.lxor (tags_code v) (tags_code w).
Proof. unfold tags_code. exact (xor_bits_linear 64 0 0 v w 0 0). Qed.

Lemma tags_code_bit p : 0 <= p < 64 -> tags_code (2 ^ p) = p + 1.
Proof.
  intros Hp. assert (forallb (fun p => tags_code (2 ^ p) =? p + 1) (seqZ 0 64) = true) as H by reflexivity.
  rewrite forallb_forall in H. apply Z.eqb_eq, H, list_elem_of_In, elem_of_seqZ. lia.
Qed.

Lemma CalcTagsECC_code v :
  yaffs_CalcTagsECC v = bf_put tag_ecc (tags_code (bf_put tag_ecc 0 v)) (bf_put tag_ecc 0 v).
Proof. unfold yaffs_CalcTagsECC. by rewrite tags_code_loop. Qed.

(** ** Single errors in the tags *)

Lemma get_CalcTagsECC v : bf_get tag_ecc (yaffs_CalcTagsECC v) = tags_code (bf_put tag_ecc 0 v).
Proof.
  rewrite CalcTagsECC_code, bf_get_put by (simpl; lia). apply land_ones_small; [simpl; lia|].
  apply (in_w_mono 7); [simpl; lia|apply tags_code_in].
Qed.

Lemma put_ecc_put x y v : bf_put tag_ecc x (bf_put tag_ecc y v) = bf_put tag_ecc x v.
Proof. bf_bits i Hi. by destruct ((50 <=? i) && (i <? 50 + 12)). Qed.

Lemma CalcTagsECC_put x v : yaffs_CalcTagsECC (bf_put tag_ecc x v) = yaffs_CalcTagsECC v.
Proof. by rewrite !CalcTagsECC_code, !put_ecc_put. Qed.

Lemma CalcTagsECC_idem v : yaffs_CalcTagsECC (yaffs_CalcTagsECC v) = yaffs_CalcTagsECC v.
Proof. rewrite (CalcTagsECC_code v) at 1. by rewrite !CalcTagsECC_put. Qed.

Lemma put_ecc_flip x v p :
  0 <= p -> p < 50 \/ 62 <= p -> bf_put tag_ecc x (Z.lxor v (2 ^ p)) = Z.lxor (bf_put tag_ecc x v) (2 ^ p).
Proof.
  intros Hp Hout. bf_bits i Hi. rewrite Z.pow2_bits_eqb by done.
  destruct (Z.leb_spec 50 i), (Z.ltb_spec i (50 + 12)), (Z.eqb_spec p i); cbn [andb]; try lia;
    by rewrite ?xorb_false_r.
Qed.

Lemma put_ecc_flip_in x v p : 50 <= p < 62 -> bf_put tag_ecc x (Z.lxor v (2 ^ p)) = bf_put tag_ecc x v.
Proof.
  intros Hp. bf_bits i Hi. rewrite Z.pow2_bits_eqb by lia.
  destruct (Z.leb_spec 50 i), (Z.ltb_spec i (50 + 12)), (Z.eqb_spec p i); cbn [andb]; try lia;
    by rewrite ?xorb_false_r.
Qed.

Lemma get_ecc_flip v p :
  0 <= p -> p < 50 \/ 62 <= p -> bf_get tag_ecc (Z.lxor v (2 ^ p)) = bf_get tag_ecc v.
Proof.
  intros Hp Hout. bf_bits i Hi. rewrite Z.pow2_bits_eqb by lia.
  destruct (Z.ltb_spec i 12), (Z.eqb_spec p (i + 50)); cbn [andb]; try lia; by rewrite ?xorb_false_r.
Qed.

Lemma get_ecc_flip_in v p :
  50 <= p < 62 -> bf_get tag_ecc (Z.lxor v (2 ^ p)) = Z.lxor (bf_get tag_ecc v) (2 ^ (p - 50)).
Proof.
  intros Hp. bf_bits i Hi. rewrite !Z.pow2_bits_eqb by lia.
  destruct (Z.ltb_spec i 12), (Z.eqb_spec p (i + 50)), (Z.eqb_spec (p - 50) i); cbn [andb]; try lia;
    by rewrite ?xorb_false_r.
Qed.

(** Flipping a bit through the byte that holds it. *)
Lemma xor_byte_bit v p : 0 <= p -> xor_byte v (p / 8) (Z.shiftl 1 (Z.land p 7)) = Z.lxor v (2 ^ p).
Proof.
  intros Hp. unfold xor_byte. f_equal. change 7 with (2 ^ 3 - 1). rewrite land_mask by done.
  pose proof (Z.mod_pos_bound p 8 ltac:(done)). change (2 ^ 3) with 8.
  pose proof (Z.div_pos p 8 Hp ltac:(done)).
  rewrite (Z.shiftl_mul_pow2 1), Z.mul_1_l by lia. unfold u8. rewrite wrap_small.
  - rewrite Z.shiftl_mul_pow2, <- Z.pow_add_r by lia. f_equal. pose proof (Z.div_mod p 8). lia.
  - split; [by apply Z.pow_nonneg|]. apply Z.pow_lt_mono_r; lia.
Qed.

(** Tags whose stored and recomputed codes differ by [d]. *)
Lemma CheckECCOnTags_diff v d :
  Z.lxor (bf_get tag_ecc v) (bf_get tag_ecc (yaffs_CalcTagsECC v)) = d -> 0 < d ->
  yaffs_CheckECCOnTags v =
  if d <=? 64 then (1, yaffs_CalcTagsECC (Z.lxor (yaffs_CalcTagsECC v) (2 ^ (d - 1))))
  else (-1, yaffs_CalcTagsECC v).
Proof.
  intros E Hd. unfold yaffs_CheckECCOnTags. rewrite E. unfold truthy.
  rewrite (proj2 (Z.eqb_neq d 0)) by lia. cbn [negb andb].
  destruct (Z.leb_spec d 64); [|done]. by rewrite xor_byte_bit by lia.
Qed.

Lemma CheckECCOnTags_clean v : yaffs_CheckECCOnTags (yaffs_CalcTagsECC v) = (0, yaffs_CalcTagsECC v).
Proof. unfold yaffs_CheckECCOnTags. by rewrite CalcTagsECC_idem, Z.lxor_nilpotent. Qed.

Lemma CheckECCOnTags_corrects v p :
  0 <= p < 64 -> p < 50 \/ 62 <= p ->
  yaffs_CheckECCOnTags (Z.lxor (yaffs_CalcTagsECC v) (2 ^ p)) = (1, yaffs_CalcTagsECC v).
Proof.
  intros Hp Hout. set (t := yaffs_CalcTagsECC v).
  rewrite (CheckECCOnTags_diff _ (p + 1)); [| |lia].
  - replace (p + 1 <=? 64) with true by lia. replace (p + 1 - 1) with p by lia. f_equal.
    rewrite (CalcTagsECC_code (Z.lxor t _)), <- put_ecc_flip, CalcTagsECC_put by lia.
    rewrite put_ecc_flip, Z.lxor_assoc, Z.lxor_nilpotent, Z.lxor_0_r, CalcTagsECC_put by lia.
    apply CalcTagsECC_idem.
  - rewrite get_ecc_flip, get_CalcTagsECC, put_ecc_flip, tags_code_lxor, tags_code_bit by lia.
    rewrite <- get_CalcTagsECC. unfold t. by rewrite CalcTagsECC_idem, lxor_cancel_l.
Qed.

Lemma CheckECCOnTags_ecc_bit v p :
  50 <= p < 62 ->
  let t := yaffs_CalcTagsECC v in
  yaffs_CheckECCOnTags (Z.lxor t (2 ^ p)) =
  if p <? 57 then (1, yaffs_CalcTagsECC (Z.lxor t (2 ^ (2 ^ (p - 50) - 1)))) else (-1, t).
Proof.
  intros Hp t.
  assert (yaffs_CalcTagsECC (Z.lxor t (2 ^ p)) = t) as Et.
  { rewrite CalcTagsECC_code, !put_ecc_flip_in, <- CalcTagsECC_code by lia. apply CalcTagsECC_idem. }
  rewrite (CheckECCOnTags_diff _ (2 ^ (p - 50))); [| |apply Z.pow_pos_nonneg; lia].
  - rewrite Et. replace (2 ^ (p - 50) <=? 64) with (p <? 57); [done|].
    change 64 with (2 ^ 6). apply eq_true_iff_eq. rewrite Z.ltb_lt, Z.leb_le, <- Z.pow_le_mono_r_iff by lia. lia.
  - rewrite Et, get_ecc_flip_in, Z.lxor_comm, lxor_cancel_l by lia. done.
Qed.

(** C16: Of the 64 bits of YAFFS1 tags with their ECC, yaffs_CheckECCOnTags corrects a flip of any
    bit outside the ECC field and returns 1; a flip of one of the low seven ECC bits makes it
    return 1 with a good tag bit inverted, and a flip of one of the high five makes it return
    -1. *)
Theorem yaffs_tags_ecc_single_bit v p :
  0 <= p < 64 ->
  let t := yaffs_CalcTagsECC v in
  let t' := Z.lxor t (2 ^ p) in
  yaffs_CheckECCOnTags t = (0, t) /\
  (p < 50 \/ 62 <= p -> yaffs_CheckECCOnTags t' = (1, t)) /\
  (50 <= p < 57 ->
     yaffs_CheckECCOnTags t' = (1, yaffs_CalcTagsECC (Z.lxor t (2 ^ (2 ^ (p - 50) - 1))))) /\
  (57 <= p < 62 -> yaffs_CheckECCOnTags t' = (-1, t)).
Proof.
  intros Hp t t'. split; [apply CheckECCOnTags_clean|]. split; [by apply CheckECCOnTags_corrects|].
  split; intros H; unfold t', t; rewrite CheckECCOnTags_ecc_bit by lia.
  - by replace (p <? 57) with true by lia.
  - by replace (p <? 57) with false by lia.
Qed.

Lemma yaffs_tags_ecc_single_bit_witness :
  let t := yaffs_CalcTagsECC 0x0000012300400005 in
  let t' := Z.lxor t (2 ^ 52) in
  yaffs_CheckECCOnTags t = (0, t) /\
  (52 < 50 \/ 62 <= 52 -> yaffs_CheckECCOnTags t' = (1, t)) /\
  (50 <= 52 < 57 ->
     yaffs_CheckECCOnTags t' = (1, yaffs_CalcTagsECC (Z.lxor t (2 ^ (2 ^ (52 - 50) - 1))))) /\
  (57 <= 52 < 62 -> yaffs_CheckECCOnTags t' = (-1, t)).
Proof. exact (yaffs_tags_ecc_single_bit 0x0000012300400005 52 ltac:(lia)). Defined.

(** ** Structs as bytes *)

Lemma le_value_testbit l : forall i,
  Forall (in_w 8) l -> 0 <= i ->
  Z.testbit (le_value l) i = Z.testbit (default 0 (l !! Z.to_nat (i / 8))) (i mod 8).
Proof.
  induction l as [|x l IH]; intros i Hl Hi; cbn [le_value].
  - by rewrite lookup_nil, !Z.bits_0.
  - apply Forall_cons_1 in Hl as [Hx Hl]. unfold in_w in Hx. change (2 ^ 8) with 256 in Hx.
    destruct (Z.ltb_spec i 8).
    + rewrite <- (Z.mod_pow2_bits_low _ 8) by lia. change (2 ^ 8) with 256.
      rewrite Z.mul_comm, Z_mod_plus_full, Z.mod_small by lia.
      by rewrite Z.div_small, Z.mod_small by lia.
    + replace i with (i - 8 + 8) at 1 by lia. rewrite <- Z.div_pow2_bits by lia. change (2 ^ 8) with 256.
      rewrite Z.mul_comm, Z.div_add, Z.div_small, Z.add_0_l, IH by (done || lia).
      replace (i / 8) with ((i - 8) / 8 + 1) by (rewrite <- Z.div_add by lia; f_equal; lia).
      replace (i mod 8) with ((i - 8) mod 8) by (rewrite <- (Z_mod_plus_full (i - 8) 1 8); f_equal; lia).
      pose proof (Z.div_pos (i - 8) 8). by replace (Z.to_nat ((i - 8) / 8 + 1)) with (S (Z.to_nat ((i - 8) / 8))) by lia.
Qed.

Lemma le_value_in l : Forall (in_w 8) l -> in_w (8 * blen l) (le_value l).
Proof.
  unfold blen. induction 1 as [|x l Hx Hl IH]; [by unfold in_w|]. cbn [le_value length]. unfold in_w in *.
  rewrite Nat2Z.inj_succ. replace (8 * Z.succ (Z.of_nat (length l))) with (8 + 8 * Z.of_nat (length l)) by lia.
  rewrite Z.pow_add_r by lia. lia.
Qed.

Lemma le_bytes_lookup n v (k : nat) :
  le_bytes n v !! k = if (k <? n)%nat then Some (u8 (Z.shiftr v (8 * Z.of_nat k))) else None.
Proof.
  unfold le_bytes. rewrite list_lookup_fmap. destruct (Nat.ltb_spec k n).
  - by rewrite lookup_seq_lt by lia.
  - by rewrite lookup_seq_ge by lia.
Qed.

Lemma le_bytes_bytes n v : bytes n (le_bytes n v).
Proof.
  split; [unfold le_bytes; by rewrite length_fmap, length_seq|].
  apply Forall_fmap, Forall_forall. intros. apply wrap_in. lia.
Qed.

Lemma le_value_bytes n v : in_w (8 * Z.of_nat n) v -> le_value (le_bytes n v) = v.
Proof.
  intros Hv. apply Z.bits_inj'. intros i Hi. rewrite le_value_testbit by (done || apply le_bytes_bytes).
  pose proof (Z.div_pos i 8). pose proof (Z.div_mod i 8). pose proof (Z.mod_pos_bound i 8).
  rewrite le_bytes_lookup. destruct (Nat.ltb_spec (Z.to_nat (i / 8)) n).
  - simpl. unfold u8. rewrite wrap_testbit, Z.shiftr_spec by lia.
    replace (i mod 8 <? 8) with true by lia. cbn [andb]. f_equal. lia.
  - simpl. rewrite Z.bits_0. symmetry. apply (in_w_testbit (8 * Z.of_nat n)); [done|lia].
Qed.

Lemma le_bytes_value n l : bytes n l -> le_bytes n (le_value l) = l.
Proof.
  intros [Hn Hl]. apply list_eq. intros k. rewrite le_bytes_lookup.
  destruct (Nat.ltb_spec k n); [|symmetry; apply lookup_ge_None; lia].
  destruct (lookup_lt_is_Some_2 l k) as [x Hx]; [lia|]. rewrite Hx. f_equal.
  assert (in_w 8 x) by (by eapply (Forall_lookup_1 _ l)).
  apply Z.bits_inj'. intros i Hi. unfold u8. rewrite wrap_testbit by lia.
  destruct (Z.ltb_spec i 8); cbn [andb]; [|symmetry; by apply (in_w_testbit 8)].
  rewrite Z.shiftr_spec, le_value_testbit by (done || lia).
  replace ((i + 8 * Z.of_nat k) / 8) with (Z.of_nat k) by (Z.div_mod_to_equations; lia).
  replace ((i + 8 * Z.of_nat k) mod 8) with i by (Z.div_mod_to_equations; lia).
  by rewrite Nat2Z.id, Hx.
Qed.

Lemma ptt_bytes_bytes p : bytes 16 (ptt_bytes p).
Proof.
  unfold ptt_bytes. split; [done|]. rewrite !Forall_app.
  split_and!; apply (le_bytes_bytes 4).
Qed.

Lemma ptt_of_bytes_bytes l : bytes 16 l -> ptt_bytes (ptt_of_bytes l) = l.
Proof.
  intros [Hn Hl]. unfold ptt_of_bytes, ptt_bytes.
  cbn [ptt_sequenceNumber ptt_objectId ptt_chunkId ptt_byteCount].
  assert (forall k, (k <= 12)%nat -> bytes 4 (take 4 (drop k l))) as H4.
  { intros k Hk. split; [rewrite length_take, length_drop; lia|]. by apply Forall_take, Forall_drop. }
  rewrite (le_bytes_value 4 (take 4 l)) by apply (H4 0%nat ltac:(lia)).
  rewrite !(le_bytes_value 4) by (apply H4; lia).
  replace (drop 12 l) with (drop 4 (drop 8 l)) by (by rewrite drop_drop).
  replace (drop 8 l) with (drop 4 (drop 4 l)) by (by rewrite drop_drop).
  rewrite (take_ge (drop 4 (drop 4 (drop 4 l)))) by (rewrite !length_drop; lia).
  by rewrite !take_drop.
Qed.

Definition ptt_ok (p : yaffs_PackedTags2TagsPart) : Prop :=
  in_w 32 (ptt_sequenceNumber p) /\ in_w 32 (ptt_objectId p) /\ in_w 32 (ptt_chunkId p) /\
  in_w 32 (ptt_byteCount p).

Lemma ptt_bytes_of_bytes p : ptt_ok p -> ptt_of_bytes (ptt_bytes p) = p.
Proof.
  intros (H1 & H2 & H3 & H4). destruct p as [a b c d]. simpl in *. unfold ptt_of_bytes, ptt_bytes. simpl.
  f_equal; by apply (le_value_bytes 4).
Qed.

(** ** The tags of YAFFS2 *)

(** Evaluate assignments to fields. *)
Ltac etags :=
  cbv beta iota zeta delta [
       yaffs_InitialiseTags etags_zero assign validMarker0 chunkUsed objectId chunkId byteCount eccResult blockBad chunkDeleted serialNumber
       sequenceNumber extraHeaderInfoAvailable extraParentObjectId extraIsShrinkHeader extraShadows
       extraObjectType extraFileLength extraEquivalentObjectId validMarker1
       ptt_sequenceNumber ptt_objectId ptt_chunkId ptt_byteCount].

(** The values YAFFS gives to the fields of the tags it writes: object identifiers and
    object types leave room for each other, and so do chunk numbers and the flags. *)
Record tags2_ok (t : yaffs_ExtendedTags) : Prop := {
  ok_seq : 0 <= sequenceNumber t < 2 ^ 31 - 1;
  ok_object : in_w 28 (objectId t);
  ok_chunk : in_w 31 (chunkId t);
  ok_count : in_w 32 (byteCount t);
  ok_parent : in_w 28 (extraParentObjectId t);
  ok_type : in_w 4 (extraObjectType t);
  ok_length : in_w 32 (extraFileLength t);
  ok_equivalent : in_w 32 (extraEquivalentObjectId t)
}.

(** What reading gives back of the tags [t]: the fields of a data chunk, or of an object
    header with the extra information. *)
Definition tags2_view (res : yaffs_ECCResult) (t : yaffs_ExtendedTags) : yaffs_ExtendedTags :=
  if (chunkId t =? 0) && truthy (extraHeaderInfoAvailable t) then
    mk_etags 0xAAAAAAAA 1 (objectId t) 0 0 res 0 0 0 (sequenceNumber t) 1 (extraParentObjectId t)
      (b2z (truthy (extraIsShrinkHeader t))) (b2z (truthy (extraShadows t))) (extraObjectType t)
      (if extraObjectType t =? YAFFS_OBJECT_TYPE_FILE then extraFileLength t else 0)
      (if extraObjectType t =? YAFFS_OBJECT_TYPE_HARDLINK then extraEquivalentObjectId t else 0)
      0x55555555
  else
    mk_etags 0xAAAAAAAA 1 (objectId t) (chunkId t) (byteCount t) res 0 0 0 (sequenceNumber t)
      0 0 0 0 0 0 0 0x55555555.

Lemma land_above p k : in_w 28 p -> Z.land p (Z.shiftl k 28) = 0.
Proof.
  intros Hp. by_bits i Hi. destruct (Z.ltb_spec i 28).
  - by rewrite (Z.testbit_neg_r k), andb_false_r by lia.
  - by rewrite (in_w_testbit 28 p) by done.
Qed.

Lemma land_below p : in_w 28 p -> Z.land p 0x0FFFFFFF = p.
Proof. apply (land_ones_small 28). done. Qed.

(** The chunk number that holds the parent and the two flags of a header. *)
Lemma packed_chunk parent (s h : bool) :
  in_w 28 parent ->
  let c := Z.lor (Z.lor (Z.lor EXTRA_HEADER_INFO_FLAG parent) (if s then EXTRA_SHRINK_FLAG else 0))
                 (if h then EXTRA_SHADOWS_FLAG else 0) in
  in_w 32 c /\ tst c EXTRA_HEADER_INFO_FLAG = true /\ Z.land c (not_w 32 ALL_EXTRA_FLAGS) = parent /\
  tst c EXTRA_SHRINK_FLAG = s /\ tst c EXTRA_SHADOWS_FLAG = h.
Proof.
  intros Hp c. pose proof (land_above parent 8 Hp) as H8. pose proof (land_above parent 4 Hp) as H4.
  pose proof (land_above parent 2 Hp) as H2. pose proof (land_below parent Hp) as H0.
  change (Z.shiftl 8 28) with EXTRA_HEADER_INFO_FLAG in H8.
  change (Z.shiftl 4 28) with EXTRA_SHRINK_FLAG in H4. change (Z.shiftl 2 28) with EXTRA_SHADOWS_FLAG in H2.
  split.
  { unfold c. repeat apply in_w_lor; try done; [by apply (in_w_mono 28)|by destruct s|by destruct h]. }
  unfold tst, c. change (not_w 32 ALL_EXTRA_FLAGS) with 0x0FFFFFFF.
  rewrite !Z.land_lor_distr_l, H8, H4, H2, H0.
  destruct s, h; split_and!; try reflexivity; by rewrite !Z.lor_0_r.
Qed.

Lemma packed_object o ty :
  in_w 28 o -> in_w 4 ty ->
  let c := Z.lor (Z.land o (not_w 32 EXTRA_OBJECT_TYPE_MASK)) (u32 (Z.shiftl ty EXTRA_OBJECT_TYPE_SHIFT)) in
  in_w 32 c /\ Z.shiftr c EXTRA_OBJECT_TYPE_SHIFT = ty /\ Z.land c (not_w 32 EXTRA_OBJECT_TYPE_MASK) = o.
Proof.
  intros Ho Ht c. unfold c. change (not_w 32 EXTRA_OBJECT_TYPE_MASK) with 0x0FFFFFFF.
  unfold EXTRA_OBJECT_TYPE_SHIFT. rewrite (land_below o) by done.
  assert (in_w 32 (Z.shiftl ty 28)) as Hs.
  { rewrite Z.shiftl_mul_pow2 by done. unfold in_w in *. lia. }
  unfold u32. rewrite wrap_small by done. split.
  { apply in_w_lor; [done|by apply (in_w_mono 28)|done]. }
  rewrite Z.shiftr_lor, Z.shiftr_shiftl_l, Z.land_lor_distr_l, (land_below o) by done. split.
  - rewrite Z.shiftr_div_pow2, Z.div_small by done. by rewrite Z.sub_diag, Z.shiftl_0_r.
  - replace (Z.land (Z.shiftl ty 28) 0x0FFFFFFF) with 0; [apply Z.lor_0_r|].
    symmetry. change 0x0FFFFFFF with (Z.ones 28).
    by rewrite Z.land_ones, Z.shiftl_mul_pow2, Z.mod_mul by done.
Qed.

(** Packing a header. *)
Lemma PackTags2_header t :
  (chunkId t =? 0) && truthy (extraHeaderInfoAvailable t) = true ->
  yaffs_PackTags2TagsPart t =
  mk_ptt (sequenceNumber t)
    (Z.lor (Z.land (objectId t) (not_w 32 EXTRA_OBJECT_TYPE_MASK))
           (u32 (Z.shiftl (extraObjectType t) EXTRA_OBJECT_TYPE_SHIFT)))
    (Z.lor (Z.lor (Z.lor EXTRA_HEADER_INFO_FLAG (extraParentObjectId t))
                  (if truthy (extraIsShrinkHeader t) then EXTRA_SHRINK_FLAG else 0))
           (if truthy (extraShadows t) then EXTRA_SHADOWS_FLAG else 0))
    (if extraObjectType t =? YAFFS_OBJECT_TYPE_HARDLINK then extraEquivalentObjectId t
     else if extraObjectType t =? YAFFS_OBJECT_TYPE_FILE then extraFileLength t else 0).
Proof.
  intros H. unfold yaffs_PackTags2TagsPart. rewrite H.
  destruct (truthy (extraIsShrinkHeader t)), (truthy (extraShadows t)),
    (extraObjectType t =? YAFFS_OBJECT_TYPE_HARDLINK), (extraObjectType t =? YAFFS_OBJECT_TYPE_FILE);
    etags; by rewrite ?Z.lor_0_r.
Qed.

Lemma PackTags2_ok t : tags2_ok t -> ptt_ok (yaffs_PackTags2TagsPart t).
Proof.
  intros []. unfold ptt_ok.
  destruct ((chunkId t =? 0) && truthy (extraHeaderInfoAvailable t)) eqn:Hh.
  - rewrite PackTags2_header by done. cbn [ptt_sequenceNumber ptt_objectId ptt_chunkId ptt_byteCount].
    split_and!; [unfold in_w; lia|by apply packed_object|by apply packed_chunk|].
    by repeat case_match.
  - unfold yaffs_PackTags2TagsPart. rewrite Hh.
    cbn [ptt_sequenceNumber ptt_objectId ptt_chunkId ptt_byteCount].
    split_and!; [unfold in_w; lia|by apply (in_w_mono 28)|by apply (in_w_mono 31)|done].
Qed.

(** Unpacking a header, and a data chunk. *)
Lemma UnpackTags2_fields sq o c n :
  sq <> 0xFFFFFFFF ->
  yaffs_UnpackTags2TagsPart (mk_ptt sq o c n) =
  if tst c EXTRA_HEADER_INFO_FLAG then
    let ty := Z.shiftr o EXTRA_OBJECT_TYPE_SHIFT in
    mk_etags 0xAAAAAAAA 1 (Z.land o (not_w 32 EXTRA_OBJECT_TYPE_MASK)) 0 0 YAFFS_ECC_RESULT_UNKNOWN 0 0 0 sq 1
      (Z.land c (not_w 32 ALL_EXTRA_FLAGS)) (b2z (tst c EXTRA_SHRINK_FLAG)) (b2z (tst c EXTRA_SHADOWS_FLAG)) ty
      (if ty =? YAFFS_OBJECT_TYPE_HARDLINK then 0 else n) (if ty =? YAFFS_OBJECT_TYPE_HARDLINK then n else 0)
      0x55555555
  else
    mk_etags 0xAAAAAAAA 1 o c n YAFFS_ECC_RESULT_UNKNOWN 0 0 0 sq 0 0 0 0 0 0 0 0x55555555.
Proof.
  intros Hs. unfold yaffs_UnpackTags2TagsPart. etags. rewrite (proj2 (Z.eqb_neq sq 0xFFFFFFFF)) by done.
  cbn [negb]. destruct (tst c EXTRA_HEADER_INFO_FLAG); [|done].
  by destruct (Z.shiftr o EXTRA_OBJECT_TYPE_SHIFT =? YAFFS_OBJECT_TYPE_HARDLINK).
Qed.

Lemma UnpackTags2_PackTags2 t :
  tags2_ok t ->
  yaffs_UnpackTags2TagsPart (yaffs_PackTags2TagsPart t) = tags2_view YAFFS_ECC_RESULT_UNKNOWN t.
Proof.
  intros Hok. pose proof Hok as []. unfold tags2_view.
  destruct ((chunkId t =? 0) && truthy (extraHeaderInfoAvailable t)) eqn:Hh.
  - rewrite PackTags2_header, UnpackTags2_fields by (done || lia).
    destruct (packed_chunk (extraParentObjectId t) (truthy (extraIsShrinkHeader t)) (truthy (extraShadows t)))
      as (_ & -> & -> & -> & ->); [done|].
    destruct (packed_object (objectId t) (extraObjectType t)) as (_ & E1 & E2); [done..|].
    rewrite E1, E2. cbv zeta.
    destruct (Z.eqb_spec (extraObjectType t) YAFFS_OBJECT_TYPE_HARDLINK) as [->|]; [done|].
    by destruct (extraObjectType t =? YAFFS_OBJECT_TYPE_FILE).
  - unfold yaffs_PackTags2TagsPart. rewrite Hh, UnpackTags2_fields by lia.
    replace (tst (chunkId t) EXTRA_HEADER_INFO_FLAG) with false; [done|].
    symmetry. change EXTRA_HEADER_INFO_FLAG with (2 ^ 31). rewrite tst_pow2 by done.
    by apply (in_w_testbit 31).
Qed.

Lemma flip_testbit n x k b (j : nat) c :
  bytes n x -> (k < n)%nat -> (b < 8)%nat -> (j < n)%nat -> 0 <= c < 8 ->
  Z.testbit (default 0 (flip x k b !! j)) c =
  xorb (Z.testbit (default 0 (x !! j)) c) (bool_decide (j = k /\ c = Z.of_nat b)).
Proof.
  intros Hx Hk Hb Hj Hc. rewrite (flip_unit n) by done. unfold unit_bit.
  rewrite bxor_single_lookup by (done || by apply byte_pow).
  destruct (lookup_lt_is_Some_2 x j) as [y Hy]; [destruct Hx; lia|]. rewrite Hy. cbn [fmap option_fmap option_map from_option id default].
  case_decide as Hjk.
  - rewrite Z.lxor_spec, Z.pow2_bits_eqb by lia. f_equal.
    destruct (Z.eqb_spec (Z.of_nat b) c); [rewrite bool_decide_true by lia|rewrite bool_decide_false by lia]; done.
  - rewrite bool_decide_false by tauto. by rewrite xorb_false_r.
Qed.

Lemma ones_prefix w x : 0 <= w -> 0 <= x -> (forall i, 0 <= i < w -> Z.testbit x i = true) -> 2 ^ w - 1 <= x.
Proof.
  intros Hw Hx H. assert (x mod 2 ^ w = Z.ones w) as E.
  { apply Z.bits_inj'. intros i Hi. rewrite ones_testbit by done. destruct (Z.ltb_spec i w).
    - rewrite Z.mod_pow2_bits_low by lia. apply H. lia.
    - by rewrite Z.mod_pow2_bits_high by lia. }
  rewrite Z.ones_equiv in E. pose proof (Z.mod_le x (2 ^ w) Hx). pose proof (Z.pow_pos_nonneg 2 w). lia.
Qed.

(** One flipped bit does not make the sequence number of a chunk in use that of an erased one. *)
Lemma flip_sequence x k b :
  bytes 16 x -> (k < 16)%nat -> (b < 8)%nat -> le_value (take 4 x) < 2 ^ 31 - 1 ->
  le_value (take 4 (flip x k b)) <> 0xFFFFFFFF.
Proof.
  intros Hx Hk Hb Hlt E. pose proof (flip_bytes 16 x k b Hx Hk Hb) as Hf.
  destruct Hx as [Hn Fx]. destruct Hf as [Hn' Ff].
  assert (forall i, 0 <= i < 32 -> i <> 8 * Z.of_nat k + Z.of_nat b -> Z.testbit (le_value (take 4 x)) i = true) as Hbits.
  { intros i Hi Hne. pose proof (Z.div_mod i 8). pose proof (Z.mod_pos_bound i 8).
    pose proof (Z.div_pos i 8). assert (i / 8 < 4) by (apply Z.div_lt_upper_bound; lia).
    assert (Z.testbit (le_value (take 4 (flip x k b))) i = true) as Ht.
    { rewrite E. change 0xFFFFFFFF with (Z.ones 32). by apply Z.ones_spec_low. }
    rewrite le_value_testbit, lookup_take_lt in Ht |- * by (by apply Forall_take || lia).
    rewrite (flip_testbit 16) in Ht by (done || lia).
    rewrite bool_decide_false, xorb_false_r in Ht by lia. done. }
  assert (0 <= le_value (take 4 x)) by (apply (le_value_in (take 4 x)); by apply Forall_take).
  destruct (decide (8 * Z.of_nat k + Z.of_nat b = 31)) as [E31|Hne].
  - assert (2 ^ 31 - 1 <= le_value (take 4 x)); [|lia].
    apply ones_prefix; [lia..|]. intros i Hi. apply Hbits; lia.
  - assert (Z.testbit (le_value (take 4 x)) 31 = false) as Hf31.
    { apply (in_w_testbit 31); [|lia]. unfold in_w. lia. }
    by rewrite Hbits in Hf31 by lia.
Qed.

Lemma CorrectOther_clean x n e : Yaffs.yaffs_ECCCorrectOther x n e e = (0, x, e).
Proof. unfold Yaffs.yaffs_ECCCorrectOther. by rewrite !Z.lxor_nilpotent. Qed.

(** [pt] as it is read from a medium that has changed the bytes of the tags. *)
Definition damaged (pt : yaffs_PackedTags2) (k b : nat) : yaffs_PackedTags2 :=
  mk_pt2 (ptt_of_bytes (flip (ptt_bytes (pt2_t pt)) k b)) (pt2_ecc pt).

Lemma view_result r r' t : (tags2_view r t) <| eccResult := r' |> = tags2_view r' t.
Proof. unfold tags2_view. by destruct ((chunkId t =? 0) && truthy (extraHeaderInfoAvailable t)). Qed.

Lemma PackTags2_sequence t : ptt_sequenceNumber (yaffs_PackTags2TagsPart t) = sequenceNumber t.
Proof. unfold yaffs_PackTags2TagsPart. by repeat case_match. Qed.

Lemma UnpackTags2_result t r :
  tags2_ok t -> (yaffs_UnpackTags2TagsPart (yaffs_PackTags2TagsPart t)) <| eccResult := r |> = tags2_view r t.
Proof. intros Hok. rewrite UnpackTags2_PackTags2 by done. apply view_result. Qed.

(** Tags that are read as they were written. *)
Lemma UnpackTags2_clean noTagsECC pt0 t :
  tags2_ok t ->
  let pt := yaffs_PackTags2 noTagsECC pt0 t in
  yaffs_UnpackTags2 noTagsECC pt = (tags2_view YAFFS_ECC_RESULT_NO_ERROR t, pt).
Proof.
  intros Hok pt. pose proof (PackTags2_ok t Hok) as Hp. pose proof (ok_seq t Hok).
  unfold pt, yaffs_UnpackTags2, yaffs_PackTags2. cbn [pt2_t pt2_ecc]. rewrite PackTags2_sequence.
  replace (sequenceNumber t =? 0xFFFFFFFF) with false by lia. cbn [negb andb].
  destruct noTagsECC; cbn [negb].
  - cbn [pt2_t]. by rewrite UnpackTags2_result.
  - rewrite CorrectOther_clean, ptt_bytes_of_bytes by done. cbn [Z.eqb pt2_t]. by rewrite UnpackTags2_result.
Qed.

(** One flipped bit of the tags. *)
Lemma UnpackTags2_flip pt0 t k b :
  tags2_ok t -> (k < 16)%nat -> (b < 8)%nat ->
  let pt := yaffs_PackTags2 false pt0 t in
  yaffs_UnpackTags2 false (damaged pt k b) = (tags2_view YAFFS_ECC_RESULT_FIXED t, pt).
Proof.
  intros Hok Hk Hb pt. pose proof (PackTags2_ok t Hok) as Hp. pose proof (PackTags2_sequence t) as Hs.
  pose proof (UnpackTags2_result t YAFFS_ECC_RESULT_FIXED Hok) as Hview. pose proof (ok_seq t Hok).
  unfold damaged, pt, yaffs_UnpackTags2, yaffs_PackTags2.
  set (p := yaffs_PackTags2TagsPart t) in *. pose proof (ptt_bytes_bytes p) as Hbytes. cbn [pt2_t pt2_ecc].
  rewrite ptt_of_bytes_bytes by (by apply flip_bytes). rewrite (proj2 (Z.eqb_neq _ 0xFFFFFFFF)).
  2: { apply flip_sequence; try done. pose proof (f_equal ptt_sequenceNumber (ptt_bytes_of_bytes p Hp)) as E.
       unfold ptt_of_bytes in E. cbn [ptt_sequenceNumber] in E. lia. }
  cbn [negb andb]. change 16 with (Z.of_nat 16).
  rewrite (yaffs_other_correct_flip 16) by (done || lia). rewrite ptt_bytes_of_bytes by done.
  cbn [Z.eqb pt2_t]. f_equal. exact Hview.
Qed.

(** The tags of an object header: a file in directory 1. *)
Definition demo_header : yaffs_ExtendedTags :=
  yaffs_InitialiseTags <| objectId := 257 |> <| sequenceNumber := 0x1005 |> <| extraHeaderInfoAvailable := 1 |>
    <| extraParentObjectId := 1 |> <| extraObjectType := YAFFS_OBJECT_TYPE_FILE |> <| extraFileLength := 4096 |>.
