(* ===== verification/YaffsNand.v ===== *)
(** * The NAND interfaces of YAFFS

    fs/yaffs2/yaffs_nand.c and below it the MTD interface of YAFFS1 (yaffs_mtdif1.c), the one
    of YAFFS2 (yaffs_mtdif2.c), and the older interface of YAFFS1 (yaffs_tagscompat.c over
    yaffs_mtdif.c).

    A pointer that may be NULL is an [option]; a buffer the callee fills is an argument with
    its old contents and a result with the new ones.  Statements that trace are left out.
    Where the code would index outside an array or calls BUG() the result is [None]; YBUG()
    only traces. *)

From S2P Require Import Prelude NandEcc YaffsTags.

Local Open Scope Z_scope.

(** ** Types *)

Definition YAFFS_OK : Z := 1.
Definition YAFFS_FAIL : Z := 0.
Definition EBADMSG : Z := 74.
Definition EUCLEAN : Z := 117.

Inductive yaffs_BlockState :=
| YAFFS_BLOCK_STATE_UNKNOWN
| YAFFS_BLOCK_STATE_SCANNING
| YAFFS_BLOCK_STATE_NEEDS_SCANNING
| YAFFS_BLOCK_STATE_EMPTY
| YAFFS_BLOCK_STATE_ALLOCATING
| YAFFS_BLOCK_STATE_FULL
| YAFFS_BLOCK_STATE_DIRTY
| YAFFS_BLOCK_STATE_CHECKPOINT
| YAFFS_BLOCK_STATE_COLLECTING
| YAFFS_BLOCK_STATE_DEAD.

#[export] Instance yaffs_BlockState_eq_dec : EqDecision yaffs_BlockState.
Proof. solve_decision. Defined.

Record yaffs_BlockInfo := mk_bi {
  softDeletions : Z;
  pagesInUse : Z;
  blockState : yaffs_BlockState;
  needsRetiring : bool;
  skipErasedCheck : bool;
  gcPrioritise : bool;
  chunkErrorStrikes : Z;
  hasShrinkHeader : bool;
  bi_sequenceNumber : Z
}.

#[export] Instance bi_fields : Fields yaffs_BlockInfo := fun r =>
  mk_bi (softDeletions r) (pagesInUse r) (blockState r) (needsRetiring r) (skipErasedCheck r) (gcPrioritise r)
    (chunkErrorStrikes r) (hasShrinkHeader r) (bi_sequenceNumber r).

Definition yaffs_BlockInfo_zero : yaffs_BlockInfo :=
  mk_bi 0 0 YAFFS_BLOCK_STATE_UNKNOWN false false false 0 false 0.

Inductive mtd_oob_mode := MTD_OOB_PLACE | MTD_OOB_AUTO | MTD_OOB_RAW.

(** [struct mtd_oob_ops] without the two lengths it returns, which YAFFS does not read. *)
Record mtd_oob_ops := mk_ops {
  ops_mode : mtd_oob_mode;
  ops_len : Z;
  ops_ooblen : Z;
  ops_ooboffs : Z;
  datbuf : option (list Z);
  oobbuf : option (list Z)
}.

(** The operations of [struct mtd_info] that YAFFS calls, for a device whose state has
    type [mtd].  [read_oob] returns the operands with the buffers filled. *)
Class MtdOps (mtd : Type) := {
  write_oob : mtd -> Z -> mtd_oob_ops -> Z * mtd;
  read_oob : mtd -> Z -> mtd_oob_ops -> Z * mtd_oob_ops * mtd;
  mtd_read : mtd -> Z -> Z -> list Z -> Z * list Z * mtd;
  block_isbad : mtd -> Z -> Z;
  block_markbad : mtd -> Z -> Z * mtd;
  mtd_erase : mtd -> Z -> Z -> Z * mtd;
  oobavail : mtd -> Z
}.

(** The part of [yaffs_Device] these files use, in the order of the struct; flags are booleans. *)
Record yaffs_Device (mtd : Type) := mk_dev {
  nDataBytesPerChunk : Z;
  nChunksPerBlock : Z;
  startBlock : Z;
  endBlock : Z;
  nReservedBlocks : Z;
  useNANDECC : bool;
  noTagsECC : bool;
  genericDevice : mtd;
  isYaffs2 : bool;
  skipCheckpointRead : bool;
  skipCheckpointWrite : bool;
  chunkGroupBits : Z;
  chunkGroupSize : Z;
  tnodeWidth : Z;
  tnodeMask : Z;
  chunkShift : Z;
  chunkDiv : Z;
  chunkMask : Z;
  inbandTags : bool;
  totalBytesPerChunk : Z;
  spareBuffer : list Z;
  isCheckpointed : bool;
  internalStartBlock : Z;
  internalEndBlock : Z;
  blockOffset : Z;
  chunkOffset : Z;
  blocksInCheckpoint : Z;
  nCheckpointBlocksRequired : Z;
  blockInfo : list yaffs_BlockInfo;
  chunkBits : list Z;
  chunkBitmapStride : Z;
  nErasedBlocks : Z;
  allocationBlock : Z;
  allocationPage : Z;
  allocationBlockFinder : Z;
  nTnodesCreated : Z;
  nFreeTnodes : Z;
  nObjectsCreated : Z;
  nFreeObjects : Z;
  nFreeChunks : Z;
  currentDirtyChecker : Z;
  nonAggressiveSkip : Z;
  nPageWrites : Z;
  nPageReads : Z;
  nBlockErasures : Z;
  nErasureFailures : Z;
  nRetriedWrites : Z;
  nRetiredBlocks : Z;
  eccFixed : Z;
  eccUnfixed : Z;
  tagsEccFixed : Z;
  tagsEccUnfixed : Z;
  nDeletions : Z;
  nUnmarkedDeletions : Z;
  hasPendingPrioritisedGCs : bool;
  nDeletedFiles : Z;
  nUnlinkedFiles : Z;
  nBackgroundDeletions : Z;
  dev_sequenceNumber : Z;
  oldestDirtySequence : Z
}.

Arguments mk_dev {mtd}.
Arguments nDataBytesPerChunk {mtd}. Arguments nChunksPerBlock {mtd}. Arguments startBlock {mtd}.
Arguments endBlock {mtd}. Arguments nReservedBlocks {mtd}. Arguments useNANDECC {mtd}.
Arguments noTagsECC {mtd}. Arguments genericDevice {mtd}. Arguments isYaffs2 {mtd}.
Arguments skipCheckpointRead {mtd}. Arguments skipCheckpointWrite {mtd}.
Arguments chunkGroupBits {mtd}. Arguments chunkGroupSize {mtd}. Arguments tnodeWidth {mtd}.
Arguments tnodeMask {mtd}. Arguments chunkShift {mtd}. Arguments chunkDiv {mtd}. Arguments chunkMask {mtd}.
Arguments inbandTags {mtd}. Arguments totalBytesPerChunk {mtd}. Arguments spareBuffer {mtd}.
Arguments isCheckpointed {mtd}. Arguments internalStartBlock {mtd}. Arguments internalEndBlock {mtd}.
Arguments blockOffset {mtd}. Arguments chunkOffset {mtd}. Arguments blocksInCheckpoint {mtd}.
Arguments nCheckpointBlocksRequired {mtd}. Arguments blockInfo {mtd}. Arguments chunkBits {mtd}.
Arguments chunkBitmapStride {mtd}. Arguments nErasedBlocks {mtd}. Arguments allocationBlock {mtd}.
Arguments allocationPage {mtd}. Arguments allocationBlockFinder {mtd}. Arguments nTnodesCreated {mtd}.
Arguments nFreeTnodes {mtd}. Arguments nObjectsCreated {mtd}. Arguments nFreeObjects {mtd}.
Arguments nFreeChunks {mtd}. Arguments currentDirtyChecker {mtd}. Arguments nonAggressiveSkip {mtd}.
Arguments nPageWrites {mtd}. Arguments nPageReads {mtd}. Arguments nBlockErasures {mtd}.
Arguments nErasureFailures {mtd}. Arguments nRetriedWrites {mtd}. Arguments nRetiredBlocks {mtd}.
Arguments eccFixed {mtd}. Arguments eccUnfixed {mtd}. Arguments tagsEccFixed {mtd}.
Arguments tagsEccUnfixed {mtd}. Arguments nDeletions {mtd}. Arguments nUnmarkedDeletions {mtd}.
Arguments hasPendingPrioritisedGCs {mtd}. Arguments nDeletedFiles {mtd}. Arguments nUnlinkedFiles {mtd}.
Arguments nBackgroundDeletions {mtd}. Arguments dev_sequenceNumber {mtd}.
Arguments oldestDirtySequence {mtd}.

#[export] Instance dev_fields mtd : Fields (yaffs_Device mtd) := fun r =>
  mk_dev (nDataBytesPerChunk r) (nChunksPerBlock r) (startBlock r) (endBlock r) (nReservedBlocks r)
    (useNANDECC r) (noTagsECC r) (genericDevice r) (isYaffs2 r) (skipCheckpointRead r) (skipCheckpointWrite r) (chunkGroupBits r) (chunkGroupSize r)
    (tnodeWidth r) (tnodeMask r) (chunkShift r) (chunkDiv r) (chunkMask r) (inbandTags r)
    (totalBytesPerChunk r) (spareBuffer r) (isCheckpointed r) (internalStartBlock r) (internalEndBlock r)
    (blockOffset r) (chunkOffset r) (blocksInCheckpoint r) (nCheckpointBlocksRequired r) (blockInfo r)
    (chunkBits r) (chunkBitmapStride r) (nErasedBlocks r) (allocationBlock r) (allocationPage r)
    (allocationBlockFinder r) (nTnodesCreated r) (nFreeTnodes r) (nObjectsCreated r) (nFreeObjects r)
    (nFreeChunks r) (currentDirtyChecker r) (nonAggressiveSkip r) (nPageWrites r) (nPageReads r)
    (nBlockErasures r) (nErasureFailures r) (nRetriedWrites r) (nRetiredBlocks r) (eccFixed r)
    (eccUnfixed r) (tagsEccFixed r) (tagsEccUnfixed r) (nDeletions r) (nUnmarkedDeletions r)
    (hasPendingPrioritisedGCs r) (nDeletedFiles r) (nUnlinkedFiles r) (nBackgroundDeletions r) (dev_sequenceNumber r) (oldestDirtySequence r).

(** A device whose fields are all zero but [genericDevice], as yaffs_internal_read_super makes it. *)
Definition zero_device {mtd} (m : mtd) : yaffs_Device mtd :=
  mk_dev 0 0 0 0 0 false false m false false false 0 0 0 0 0 0 0 false 0 [] false 0 0 0 0 0 0 [] [] 0 0 0 0 0 0 0 0 0 0
    0 0 0 0 0 0 0 0 0 0 0 0 0 0 false 0 0 0 0 0.

Section Device.
Context {mtd : Type}.

(** [yaffs_GetBlockInfo] and an assignment through the pointer it returns. *)
Definition yaffs_GetBlockInfo (dev : yaffs_Device mtd) (blk : Z) : option yaffs_BlockInfo :=
  if blk <? internalStartBlock dev then None else blockInfo dev !! Z.to_nat (blk - internalStartBlock dev).

Definition set_block_info (dev : yaffs_Device mtd) (blk : Z) (bi : yaffs_BlockInfo) : yaffs_Device mtd :=
  dev <| blockInfo ::= fun l => <[Z.to_nat (blk - internalStartBlock dev) := bi]> l |>.

(** ** Error handling of yaffs_guts.c *)

(** [chunkErrorStrikes] has three bits. *)
Definition yaffs_HandleChunkError (dev : yaffs_Device mtd) (bi : yaffs_BlockInfo)
  : yaffs_Device mtd * yaffs_BlockInfo :=
  if negb (gcPrioritise bi) then
    let bi := bi <| gcPrioritise := true |> in
    let dev := dev <| hasPendingPrioritisedGCs := true |> in
    let bi := bi <| chunkErrorStrikes ::= fun n => wrap 3 (n + 1) |> in
    (dev, if 3 <? chunkErrorStrikes bi then bi <| needsRetiring := true |> else bi)
  else (dev, bi).

(** [nBytes] bytes of the buffer. *)
Fixpoint yaffs_CheckFF (buffer : list Z) (nBytes : nat) : option bool :=
  match nBytes with
  | O => Some true
  | S n' =>
      match buffer with
      | [] => None
      | c :: buffer' => if negb (c =? 0xFF) then Some false else yaffs_CheckFF buffer' n'
      end
  end.

End Device.

(** ** yaffs_mtdif1.c *)

Section Mtdif1.
Context {mtd : Type} `{!MtdOps mtd}.

Definition YTAG1_SIZE : Z := 8.

(** [pt1] is a local variable, all of whose bits are assigned before they are used. *)
Definition nandmtd1_WriteChunkWithTagsToNAND (dev : yaffs_Device mtd) (chunkInNAND : Z)
    (data : option (list Z)) (etags : yaffs_ExtendedTags) : Z * yaffs_Device mtd :=
  let chunkBytes := nDataBytesPerChunk dev in
  let addr := chunkInNAND * chunkBytes in
  let pt1 := yaffs_PackTags1 (mk_pt1 0 0) etags in
  let v := yaffs_CalcTagsECC (pt1_tags pt1) in
  let v := if truthy (chunkDeleted etags) then bf_put tag_deleted 0 (2 ^ 64 - 1) else v in
  let ops := mk_ops MTD_OOB_AUTO (match data with Some _ => chunkBytes | None => 0 end) YTAG1_SIZE 0 data
                    (Some (le_bytes 8 v)) in
  let '(retval, m) := write_oob (genericDevice dev) addr ops in
  (if truthy retval then YAFFS_FAIL else YAFFS_OK, dev <| genericDevice := m |>).

(** Empty tags with a result of the error correction. *)
Definition rettags (eccres : yaffs_ECCResult) : yaffs_ExtendedTags := etags_zero <| eccResult := eccres |>.

(** The result, the data buffer and the tags.  [etags] is not NULL: yaffs_nand.c and
    [nandmtd1_QueryNANDBlock] pass the address of a variable. *)
Definition nandmtd1_ReadChunkWithTagsFromNAND (dev : yaffs_Device mtd) (chunkInNAND : Z)
    (data : option (list Z)) (etags : yaffs_ExtendedTags)
  : option (Z * option (list Z) * yaffs_ExtendedTags * yaffs_Device mtd) :=
  let chunkBytes := nDataBytesPerChunk dev in
  let addr := chunkInNAND * chunkBytes in
  let ops := mk_ops MTD_OOB_AUTO (match data with Some _ => chunkBytes | None => 0 end) YTAG1_SIZE 0 data
                    (Some (le_bytes 8 0)) in
  let '(retval, ops, m) := read_oob (genericDevice dev) addr ops in
  let dev := dev <| genericDevice := m |> in
  let data := datbuf ops in
  if (retval =? 0) || (retval =? - EUCLEAN) then
    let '(eccres, dev) :=
      if retval =? 0 then (YAFFS_ECC_RESULT_NO_ERROR, dev)
      else (YAFFS_ECC_RESULT_FIXED, dev <| eccFixed ::= Z.succ |>) in
    pt1 ← oobbuf ops;
    blank ← yaffs_CheckFF pt1 8;
    if (blank : bool) then Some (YAFFS_OK, data, rettags YAFFS_ECC_RESULT_NO_ERROR, dev)
    else
      let v := le_value (take 8 pt1) in
      let deleted := if truthy (bf_get tag_deleted v) then 0 else 1 in
      let v := bf_put tag_deleted 1 v in
      let '(r, v) := yaffs_CheckECCOnTags v in
      if (r =? 0) || (r =? 1) then
        let '(eccres, dev) :=
          if r =? 0 then (eccres, dev)
          else (if decide (eccres = YAFFS_ECC_RESULT_NO_ERROR) then YAFFS_ECC_RESULT_FIXED else eccres,
                dev <| tagsEccFixed ::= Z.succ |>) in
        let etags := yaffs_UnpackTags1 etags (mk_pt1 v 0xFFFFFFFF) in
        let etags := etags <| eccResult := eccres |> in
        Some (YAFFS_OK, data, etags <| chunkDeleted := deleted |>, dev)
      else
        Some (YAFFS_FAIL, data, rettags YAFFS_ECC_RESULT_UNFIXED, dev <| tagsEccUnfixed ::= Z.succ |>)
  else
    let dev := if retval =? - EBADMSG then dev <| eccUnfixed ::= Z.succ |> else dev in
    let etags := rettags YAFFS_ECC_RESULT_UNFIXED in
    Some (YAFFS_FAIL, data, etags <| blockBad := block_isbad m addr |>, dev).

Definition nandmtd1_MarkNANDBlockBad (dev : yaffs_Device mtd) (blockNo : Z) : Z * yaffs_Device mtd :=
  let blocksize := nChunksPerBlock dev * nDataBytesPerChunk dev in
  let '(retval, m) := block_markbad (genericDevice dev) (blocksize * blockNo) in
  (if truthy retval then YAFFS_FAIL else YAFFS_OK, dev <| genericDevice := m |>).

Definition nandmtd1_TestPrerequists (m : mtd) : Z :=
  if oobavail m <? YTAG1_SIZE then YAFFS_FAIL else YAFFS_OK.

(** [etags] is the uninitialised local variable; the results are those of the function and
    the two values it stores, unless it fails. *)
Definition nandmtd1_QueryNANDBlock (dev : yaffs_Device mtd) (etags : yaffs_ExtendedTags) (blockNo : Z)
  : option (Z * option (yaffs_BlockState * Z) * yaffs_Device mtd) :=
  let chunkNo := blockNo * nChunksPerBlock dev in
  let addr := chunkNo * nDataBytesPerChunk dev in
  if negb (nandmtd1_TestPrerequists (genericDevice dev) =? YAFFS_OK) then Some (YAFFS_FAIL, None, dev)
  else
    '(_, _, etags, dev) ← nandmtd1_ReadChunkWithTagsFromNAND dev chunkNo None etags;
    let etags := etags <| blockBad := block_isbad (genericDevice dev) addr |> in
    let '(state, seqnum) :=
      if truthy (blockBad etags) then (YAFFS_BLOCK_STATE_DEAD, 0)
      else if negb (bool_decide (eccResult etags = YAFFS_ECC_RESULT_NO_ERROR))
      then (YAFFS_BLOCK_STATE_NEEDS_SCANNING, 0)
      else if truthy (chunkUsed etags) then (YAFFS_BLOCK_STATE_NEEDS_SCANNING, sequenceNumber etags)
      else (YAFFS_BLOCK_STATE_EMPTY, 0) in
    Some (YAFFS_OK, Some (state, seqnum), dev).

End Mtdif1.

(** ** yaffs_mtdif2.c *)

Section Mtdif2.
Context {mtd : Type} `{!MtdOps mtd}.

(** The bytes of [yaffs_PackedTags2]; nothing reads the three bytes of padding. *)
Definition pt2_bytes (pt : yaffs_PackedTags2) : list Z :=
  ptt_bytes (pt2_t pt) ++ [u8 (Yaffs.colParity (pt2_ecc pt)); 0; 0; 0] ++
  le_bytes 4 (Yaffs.lineParity (pt2_ecc pt)) ++ le_bytes 4 (Yaffs.lineParityPrime (pt2_ecc pt)).

Definition pt2_of_bytes (l : list Z) : yaffs_PackedTags2 :=
  mk_pt2 (ptt_of_bytes l)
    (Yaffs.mk_ECCOther (default 0 (l !! 16%nat)) (le_value (take 4 (drop 20 l))) (le_value (take 4 (drop 24 l)))).

(** The size and the bytes of the packed tags that go to the spare area. *)
Definition packed_tags_size (dev : yaffs_Device mtd) : Z := if noTagsECC dev then 16 else 28.

(** [pt] is a local variable; [None] is BUG().  With in-band tags the tags are stored into
    the data buffer behind the data. *)
Definition nandmtd2_WriteChunkWithTagsToNAND (dev : yaffs_Device mtd) (chunkInNAND : Z)
    (data : option (list Z)) (tags : option yaffs_ExtendedTags) : option (Z * yaffs_Device mtd) :=
  let addr := chunkInNAND * totalBytesPerChunk dev in
  data ← data;
  tags ← tags;
  data ← (if inbandTags dev
          then copy_bytes data (nDataBytesPerChunk dev) (ptt_bytes (yaffs_PackTags2TagsPart tags)) 0 16
          else Some data);
  let pt := yaffs_PackTags2 (noTagsECC dev) (mk_pt2 (mk_ptt 0 0 0 0) (Yaffs.mk_ECCOther 0 0 0)) tags in
  let ops := mk_ops MTD_OOB_AUTO (totalBytesPerChunk dev) (if inbandTags dev then 0 else packed_tags_size dev) 0
                    (Some data)
                    (if inbandTags dev then None
                     else Some (if noTagsECC dev then ptt_bytes (pt2_t pt) else pt2_bytes pt)) in
  let '(retval, m) := write_oob (genericDevice dev) addr ops in
  Some (if retval =? 0 then YAFFS_OK else YAFFS_FAIL, dev <| genericDevice := m |>).

(** The access to the device: the return value, the data buffer and the device. *)
Definition nandmtd2_fetch (dev : yaffs_Device mtd) (addr : Z) (data : option (list Z)) (has_tags : bool)
  : option (Z * option (list Z) * yaffs_Device mtd) :=
  let has_data := match data with Some _ => true | None => false end in
  if inbandTags dev || (has_data && negb has_tags) then
    match data with
    | Some d =>
        let '(retval, d, m) := mtd_read (genericDevice dev) addr (totalBytesPerChunk dev) d in
        Some (retval, Some d, dev <| genericDevice := m |>)
    | None => None
    end
  else if has_tags then
    let ops := mk_ops MTD_OOB_AUTO (if has_data then nDataBytesPerChunk dev else packed_tags_size dev)
                 (packed_tags_size dev) 0 data (Some (spareBuffer dev)) in
    let '(retval, ops, m) := read_oob (genericDevice dev) addr ops in
    match oobbuf ops with
    | Some oob => Some (retval, datbuf ops, dev <| genericDevice := m |> <| spareBuffer := oob |>)
    | None => None
    end
  else Some (0, data, dev).

(** Unpacking what was read.  The bytes of [pt] that are not copied are not used. *)
Definition nandmtd2_unpack (dev : yaffs_Device mtd) (data : option (list Z)) : option yaffs_ExtendedTags :=
  if inbandTags dev then
    d ← data;
    Some (yaffs_UnpackTags2TagsPart (ptt_of_bytes (drop (Z.to_nat (nDataBytesPerChunk dev)) d)))
  else
    let b := take (Z.to_nat (packed_tags_size dev)) (spareBuffer dev) in
    Some (fst (yaffs_UnpackTags2 (noTagsECC dev) (pt2_of_bytes b))).

(** With in-band tags and no data buffer the code reads into a temporary buffer, whose old
    contents do not matter. *)
Definition nandmtd2_ReadChunkWithTagsFromNAND (dev : yaffs_Device mtd) (chunkInNAND : Z)
    (data : option (list Z)) (tags : option yaffs_ExtendedTags)
  : option (Z * option (list Z) * option yaffs_ExtendedTags * yaffs_Device mtd) :=
  let addr := chunkInNAND * totalBytesPerChunk dev in
  let buf := match data with
             | Some d => Some d
             | None => if inbandTags dev then Some (replicate (Z.to_nat (totalBytesPerChunk dev)) 0) else None
             end in
  '(retval, buf, dev) ← nandmtd2_fetch dev addr buf (bool_decide (is_Some tags));
  let ret := if retval =? 0 then YAFFS_OK else YAFFS_FAIL in
  let data := match data with Some _ => buf | None => None end in
  match tags with
  | None => Some (ret, data, None, dev)
  | Some _ =>
      t ← nandmtd2_unpack dev buf;
      let t := if (retval =? - EBADMSG) && bool_decide (eccResult t = YAFFS_ECC_RESULT_NO_ERROR)
               then t <| eccResult := YAFFS_ECC_RESULT_UNFIXED |> else t in
      Some (ret, data, Some t, dev)
  end.

(** The product is computed in 32 bits. *)
Definition nandmtd2_MarkNANDBlockBad (dev : yaffs_Device mtd) (blockNo : Z) : Z * yaffs_Device mtd :=
  let '(retval, m) := block_markbad (genericDevice dev)
                        (u32 (u32 (blockNo * nChunksPerBlock dev) * totalBytesPerChunk dev)) in
  (if retval =? 0 then YAFFS_OK else YAFFS_FAIL, dev <| genericDevice := m |>).

Definition nandmtd2_QueryNANDBlock (dev : yaffs_Device mtd) (blockNo : Z)
  : option (Z * (yaffs_BlockState * Z) * yaffs_Device mtd) :=
  let retval := block_isbad (genericDevice dev)
                  (u32 (u32 (blockNo * nChunksPerBlock dev) * totalBytesPerChunk dev)) in
  '(res, dev) ←
    (if truthy retval then Some ((YAFFS_BLOCK_STATE_DEAD, 0), dev)
     else
       '(_, _, t, dev) ← nandmtd2_ReadChunkWithTagsFromNAND dev (blockNo * nChunksPerBlock dev) None (Some etags_zero);
       t ← t;
       Some (if truthy (chunkUsed t) then (YAFFS_BLOCK_STATE_NEEDS_SCANNING, sequenceNumber t)
             else (YAFFS_BLOCK_STATE_EMPTY, 0), dev));
  Some (if retval =? 0 then YAFFS_OK else YAFFS_FAIL, res, dev).

End Mtdif2.

(** ** yaffs_tagscompat.c *)

Definition yaffs_countBitsTable : list Z := [
  0; 1; 1; 2; 1; 2; 2; 3; 1; 2; 2; 3; 2; 3; 3; 4;
  1; 2; 2; 3; 2; 3; 3; 4; 2; 3; 3; 4; 3; 4; 4; 5;
  1; 2; 2; 3; 2; 3; 3; 4; 2; 3; 3; 4; 3; 4; 4; 5;
  2; 3; 3; 4; 3; 4; 4; 5; 3; 4; 4; 5; 4; 5; 5; 6;
  1; 2; 2; 3; 2; 3; 3; 4; 2; 3; 3; 4; 3; 4; 4; 5;
  2; 3; 3; 4; 3; 4; 4; 5; 3; 4; 4; 5; 4; 5; 5; 6;
  2; 3; 3; 4; 3; 4; 4; 5; 3; 4; 4; 5; 4; 5; 5; 6;
  3; 4; 4; 5; 4; 5; 5; 6; 4; 5; 5; 6; 5; 6; 6; 7;
  1; 2; 2; 3; 2; 3; 3; 4; 2; 3; 3; 4; 3; 4; 4; 5;
  2; 3; 3; 4; 3; 4; 4; 5; 3; 4; 4; 5; 4; 5; 5; 6;
  2; 3; 3; 4; 3; 4; 4; 5; 3; 4; 4; 5; 4; 5; 5; 6;
  3; 4; 4; 5; 4; 5; 5; 6; 4; 5; 5; 6; 5; 6; 6; 7;
  2; 3; 3; 4; 3; 4; 4; 5; 3; 4; 4; 5; 4; 5; 5; 6;
  3; 4; 4; 5; 4; 5; 5; 6; 4; 5; 5; 6; 5; 6; 6; 7;
  3; 4; 4; 5; 4; 5; 5; 6; 4; 5; 5; 6; 5; 6; 6; 7;
  4; 5; 5; 6; 5; 6; 6; 7; 5; 6; 6; 7; 6; 7; 7; 8
].

(** [yaffs_CountBits] of this file. *)
Definition tags_CountBits (x : Z) : Z := tab yaffs_countBitsTable x.

(** [yaffs_Spare] and [struct yaffs_NANDSpare]. *)
Record yaffs_Spare := mk_spare {
  tagByte0 : Z; tagByte1 : Z; tagByte2 : Z; tagByte3 : Z;
  pageStatus : Z; blockStatus : Z;
  tagByte4 : Z; tagByte5 : Z;
  ecc1 : ecc;
  tagByte6 : Z; tagByte7 : Z;
  ecc2 : ecc
}.

#[export] Instance spare_fields : Fields yaffs_Spare := fun r =>
  mk_spare (tagByte0 r) (tagByte1 r) (tagByte2 r) (tagByte3 r) (pageStatus r) (blockStatus r) (tagByte4 r)
    (tagByte5 r) (ecc1 r) (tagByte6 r) (tagByte7 r) (ecc2 r).

#[export] Instance ecc_eq_dec : EqDecision ecc.
Proof. solve_decision. Defined.

#[export] Instance spare_eq_dec : EqDecision yaffs_Spare.
Proof. solve_decision. Defined.

Record yaffs_NANDSpare := mk_nspare { nspare_spare : yaffs_Spare; eccres1 : Z; eccres2 : Z }.

(** [memset(&spare, 0xFF, sizeof(yaffs_Spare))]. *)
Definition yaffs_SpareInitialise : yaffs_Spare :=
  mk_spare 255 255 255 255 255 255 255 255 (mk_ecc 255 255 255) 255 255 (mk_ecc 255 255 255).

Definition yaffs_CalcECC (data : list Z) (spare : yaffs_Spare) : yaffs_Spare :=
  spare <| ecc1 := Yaffs.yaffs_ECCCalculate data |> <| ecc2 := Yaffs.yaffs_ECCCalculate (drop 256 data) |>.

Definition yaffs_LoadTagsIntoSpare (spare : yaffs_Spare) (tags : Z) : yaffs_Spare :=
  let tu := yaffs_CalcTagsECC tags in
  spare <| tagByte0 := asBytes tu 0 |> <| tagByte1 := asBytes tu 1 |> <| tagByte2 := asBytes tu 2 |>
        <| tagByte3 := asBytes tu 3 |> <| tagByte4 := asBytes tu 4 |> <| tagByte5 := asBytes tu 5 |>
        <| tagByte6 := asBytes tu 6 |> <| tagByte7 := asBytes tu 7 |>.

Section TagsCompat.
Context {mtd : Type}.

(** The functions [dev->writeChunkToNAND] and [dev->readChunkFromNAND].  The second fills the
    data buffer and the spare; the two results are only read when [useNANDECC] is set. *)
Context (writeChunkToNAND : yaffs_Device mtd -> Z -> option (list Z) -> yaffs_Spare -> Z * yaffs_Device mtd).
Context (readChunkFromNAND : yaffs_Device mtd -> Z -> option (list Z) ->
                             Z * option (list Z) * yaffs_NANDSpare * yaffs_Device mtd).

Definition yaffs_GetTagsFromSpare (dev : yaffs_Device mtd) (spare : yaffs_Spare) : Z * yaffs_Device mtd :=
  let tu := le_value [tagByte0 spare; tagByte1 spare; tagByte2 spare; tagByte3 spare;
                      tagByte4 spare; tagByte5 spare; tagByte6 spare; tagByte7 spare] in
  let '(result, tags) := yaffs_CheckECCOnTags tu in
  (tags,
   if 0 <? result then dev <| tagsEccFixed ::= Z.succ |>
   else if result <? 0 then dev <| tagsEccUnfixed ::= Z.succ |> else dev).

Definition yaffs_WriteChunkToNAND (dev : yaffs_Device mtd) (chunkInNAND : Z) (data : option (list Z))
    (spare : yaffs_Spare) : Z * yaffs_Device mtd :=
  if chunkInNAND <? startBlock dev * nChunksPerBlock dev then (YAFFS_FAIL, dev)
  else writeChunkToNAND dev chunkInNAND data spare.

Definition yaffs_HandleReadDataError (dev : yaffs_Device mtd) (chunkInNAND : Z) : option (yaffs_Device mtd) :=
  let blk := Z.quot chunkInNAND (nChunksPerBlock dev) + blockOffset dev in
  bi ← yaffs_GetBlockInfo dev blk;
  Some (set_block_info dev blk (bi <| needsRetiring := true |>)).

(** The counters and the result for the two halves of a chunk. *)
Definition count_ecc (dev : yaffs_Device mtd) (r : Z) : yaffs_Device mtd :=
  if 0 <? r then dev <| eccFixed ::= Z.succ |> else if r <? 0 then dev <| eccUnfixed ::= Z.succ |> else dev.

Definition join_ecc (r1 r2 : Z) : yaffs_ECCResult :=
  if (r1 <? 0) || (r2 <? 0) then YAFFS_ECC_RESULT_UNFIXED
  else if (0 <? r1) || (0 <? r2) then YAFFS_ECC_RESULT_FIXED
  else YAFFS_ECC_RESULT_NO_ERROR.

(** The return value, the data, the spare and the result of the error correction; the callers
    pass a spare and ask for error correction. *)
Definition yaffs_ReadChunkFromNAND (dev : yaffs_Device mtd) (chunkInNAND : Z) (data : option (list Z))
    (eccres : yaffs_ECCResult)
  : option (Z * option (list Z) * yaffs_Spare * yaffs_ECCResult * yaffs_Device mtd) :=
  let '(retVal, data, nspare, dev) := readChunkFromNAND dev chunkInNAND data in
  let spare := nspare_spare nspare in
  match data with
  | None => Some (retVal, None, spare, eccres, dev)
  | Some d =>
      if negb (useNANDECC dev) then
        let lo := take 256 d in
        let '(r1, lo, e1) := Yaffs.yaffs_ECCCorrect lo (ecc1 spare) (Yaffs.yaffs_ECCCalculate lo) in
        let hi := take 256 (drop 256 d) in
        let '(r2, hi, e2) := Yaffs.yaffs_ECCCorrect hi (ecc2 spare) (Yaffs.yaffs_ECCCalculate hi) in
        let spare := spare <| ecc1 := e1 |> <| ecc2 := e2 |> in
        let dev := count_ecc (count_ecc dev r1) r2 in
        dev ← (if truthy r1 || truthy r2 then yaffs_HandleReadDataError dev chunkInNAND else Some dev);
        Some (retVal, Some (lo ++ hi ++ drop 512 d), spare, join_ecc r1 r2, dev)
      else
        let '(r1, r2) := (eccres1 nspare, eccres2 nspare) in
        dev ← (if truthy r1 || truthy r2 then yaffs_HandleReadDataError dev chunkInNAND else Some dev);
        Some (retVal, Some d, spare, join_ecc r1 r2, dev)
  end.

(** [tags] is a local variable, all of whose bits are assigned. *)
Definition yaffs_TagsCompatabilityWriteChunkWithTagsToNAND (dev : yaffs_Device mtd) (chunkInNAND : Z)
    (data : option (list Z)) (eTags : yaffs_ExtendedTags) : Z * yaffs_Device mtd :=
  let spare := yaffs_SpareInitialise in
  let spare :=
    if truthy (chunkDeleted eTags) then spare <| pageStatus := 0 |>
    else
      let tags := bf_put tag_objectId (objectId eTags) 0 in
      let tags := bf_put tag_chunkId (chunkId eTags) tags in
      let tags := bf_put tag_byteCountLSB (Z.land (byteCount eTags) 0x3ff) tags in
      let tags := bf_put tag_byteCountMSB
                    (if 1024 <=? nDataBytesPerChunk dev then Z.land (Z.shiftr (byteCount eTags) 10) 3 else 3) tags in
      let tags := bf_put tag_serialNumber (serialNumber eTags) tags in
      let spare := match data with
                   | Some d => if negb (useNANDECC dev) then yaffs_CalcECC d spare else spare
                   | None => spare
                   end in
      yaffs_LoadTagsIntoSpare spare tags in
  yaffs_WriteChunkToNAND dev chunkInNAND data spare.

Definition yaffs_TagsCompatabilityReadChunkWithTagsFromNAND (dev : yaffs_Device mtd) (chunkInNAND : Z)
    (data : option (list Z)) (eTags : option yaffs_ExtendedTags)
  : option (Z * option (list Z) * option yaffs_ExtendedTags * yaffs_Device mtd) :=
  '(ret, data, spare, eccres, dev) ← yaffs_ReadChunkFromNAND dev chunkInNAND data YAFFS_ECC_RESULT_UNKNOWN;
  if truthy ret then
    match eTags with
    | None => Some (YAFFS_OK, data, None, dev)
    | Some t =>
        let t := t <| chunkDeleted := if tags_CountBits (pageStatus spare) <? 7 then 1 else 0 |>
                   <| eccResult := eccres |> <| blockBad := 0 |>
                   <| chunkUsed := if bool_decide (spare = yaffs_SpareInitialise) then 0 else 1 |> in
        if truthy (chunkUsed t) then
          let '(tags, dev) := yaffs_GetTagsFromSpare dev spare in
          let t := t <| objectId := bf_get tag_objectId tags |> <| chunkId := bf_get tag_chunkId tags |>
                     <| byteCount := bf_get tag_byteCountLSB tags |> in
          let t := if 1024 <=? nDataBytesPerChunk dev
                   then t <| byteCount ::= fun c => Z.lor c (Z.shiftl (bf_get tag_byteCountMSB tags) 10) |> else t in
          Some (YAFFS_OK, data, Some (t <| serialNumber := bf_get tag_serialNumber tags |>), dev)
        else Some (YAFFS_OK, data, Some t, dev)
    end
  else Some (YAFFS_FAIL, data, eTags, dev).

Definition yaffs_TagsCompatabilityMarkNANDBlockBad (dev : yaffs_Device mtd) (blockInNAND : Z)
  : Z * yaffs_Device mtd :=
  let spare := yaffs_SpareInitialise <| blockStatus := 89 |> in
  let '(_, dev) := yaffs_WriteChunkToNAND dev (blockInNAND * nChunksPerBlock dev) None spare in
  let '(_, dev) := yaffs_WriteChunkToNAND dev (blockInNAND * nChunksPerBlock dev + 1) None spare in
  (YAFFS_OK, dev).

Definition yaffs_TagsCompatabilityQueryNANDBlock (dev : yaffs_Device mtd) (blockNo : Z)
  : option (Z * (yaffs_BlockState * Z) * yaffs_Device mtd) :=
  '(_, _, spare0, _, dev) ←
    yaffs_ReadChunkFromNAND dev (blockNo * nChunksPerBlock dev) None YAFFS_ECC_RESULT_UNKNOWN;
  '(_, _, spare1, _, dev) ←
    yaffs_ReadChunkFromNAND dev (blockNo * nChunksPerBlock dev + 1) None YAFFS_ECC_RESULT_UNKNOWN;
  let state := if tags_CountBits (Z.land (blockStatus spare0) (blockStatus spare1)) <? 7
               then YAFFS_BLOCK_STATE_DEAD
               else if bool_decide (yaffs_SpareInitialise = spare0) then YAFFS_BLOCK_STATE_EMPTY
               else YAFFS_BLOCK_STATE_NEEDS_SCANNING in
  Some (YAFFS_OK, (state, 0), dev).

End TagsCompat.

(** ** yaffs_mtdif.c: tags and status bits in the free bytes of the spare area *)

Definition translate_spare2oob (spare : yaffs_Spare) : list Z :=
  let oob5 := Z.land (tagByte5 spare) 0x3f in
  let oob5 := Z.lor oob5 (if blockStatus spare =? 89 then 0 else 0x80) in
  let oob5 := Z.lor oob5 (if pageStatus spare =? 0 then 0 else 0x40) in
  [tagByte0 spare; tagByte1 spare; tagByte2 spare; tagByte3 spare; tagByte4 spare; oob5;
   tagByte6 spare; tagByte7 spare].

Definition translate_oob2spare (oob : list Z) : yaffs_NANDSpare :=
  let b := tab oob in
  mk_nspare
    (mk_spare (b 0) (b 1) (b 2) (b 3) (if tst (b 5) 0x40 then 0xff else 0) (if tst (b 5) 0x80 then 0xff else 89)
       (b 4) (if b 5 =? 0xff then 0xff else Z.land (b 5) 0x3f) (mk_ecc 0xff 0xff 0xff) (b 6) (b 7)
       (mk_ecc 0xff 0xff 0xff)) 0 0.

Definition YAFFS_BYTES_PER_SPARE : Z := 16.

(** The mode, [ooblen] and [spareAsBytes] of both functions.  The buffer has 8 bytes, which are
    those of [stack] when nothing is stored there; without [useNANDECC] its length is given
    as 16 to the MTD driver. *)
Definition spare_ops {mtd} (dev : yaffs_Device mtd) (stack : list Z) (data : option (list Z)) : mtd_oob_ops :=
  let '(mode, ooblen) := if useNANDECC dev then (MTD_OOB_AUTO, 8) else (MTD_OOB_RAW, YAFFS_BYTES_PER_SPARE) in
  mk_ops mode (match data with Some _ => nDataBytesPerChunk dev | None => ooblen end) ooblen 0 data (Some stack).

(** For MTD after Linux 2.6.17; the callers in yaffs_tagscompat.c pass a spare. *)
Definition nandmtd_WriteChunkToNAND {mtd} `{!MtdOps mtd} (stack : list Z) (dev : yaffs_Device mtd) (chunkInNAND : Z)
    (data : option (list Z)) (spare : yaffs_Spare) : Z * yaffs_Device mtd :=
  let addr := chunkInNAND * nDataBytesPerChunk dev in
  let spareAsBytes := if useNANDECC dev then translate_spare2oob spare else stack in
  let '(retval, m) := write_oob (genericDevice dev) addr (spare_ops dev spareAsBytes data) in
  (if retval =? 0 then YAFFS_OK else YAFFS_FAIL, dev <| genericDevice := m |>).

(** [unset] is the caller's spare, which is only written with [useNANDECC]. *)
Definition nandmtd_ReadChunkFromNAND {mtd} `{!MtdOps mtd} (stack : list Z) (unset : yaffs_NANDSpare)
    (dev : yaffs_Device mtd) (chunkInNAND : Z) (data : option (list Z))
  : Z * option (list Z) * yaffs_NANDSpare * yaffs_Device mtd :=
  let addr := chunkInNAND * nDataBytesPerChunk dev in
  let '(retval, ops, m) := read_oob (genericDevice dev) addr (spare_ops dev stack data) in
  let spare := if useNANDECC dev then translate_oob2spare (default stack (oobbuf ops)) else unset in
  (if retval =? 0 then YAFFS_OK else YAFFS_FAIL, datbuf ops, spare, dev <| genericDevice := m |>).

Definition nandmtd_EraseBlockInNAND {mtd} `{!MtdOps mtd} (dev : yaffs_Device mtd) (blockNumber : Z)
  : Z * yaffs_Device mtd :=
  let addr := u32 (blockNumber * nDataBytesPerChunk dev * nChunksPerBlock dev) in
  let '(retval, m) := mtd_erase (genericDevice dev) addr (nDataBytesPerChunk dev * nChunksPerBlock dev) in
  (if retval =? 0 then YAFFS_OK else YAFFS_FAIL, dev <| genericDevice := m |>).

(** ** yaffs_nand.c *)

(** The access functions of [yaffs_Device]; those that may be NULL are options. *)
Record nand_ops (mtd : Type) := mk_nand_ops {
  writeChunkToNAND : yaffs_Device mtd -> Z -> option (list Z) -> yaffs_Spare -> Z * yaffs_Device mtd;
  readChunkFromNAND : yaffs_Device mtd -> Z -> option (list Z) ->
                      Z * option (list Z) * yaffs_NANDSpare * yaffs_Device mtd;
  eraseBlockInNAND : yaffs_Device mtd -> Z -> Z * yaffs_Device mtd;
  writeChunkWithTagsToNAND : option (yaffs_Device mtd -> Z -> option (list Z) -> yaffs_ExtendedTags ->
                                     option (Z * yaffs_Device mtd));
  readChunkWithTagsFromNAND : option (yaffs_Device mtd -> Z -> option (list Z) -> yaffs_ExtendedTags ->
                                      option (Z * option (list Z) * yaffs_ExtendedTags * yaffs_Device mtd));
  markNANDBlockBad : option (yaffs_Device mtd -> Z -> Z * yaffs_Device mtd);
  queryNANDBlock : option (yaffs_Device mtd -> Z ->
                           option (Z * option (yaffs_BlockState * Z) * yaffs_Device mtd))
}.

Arguments mk_nand_ops {mtd}.
Arguments writeChunkToNAND {mtd}. Arguments readChunkFromNAND {mtd}. Arguments eraseBlockInNAND {mtd}.
Arguments writeChunkWithTagsToNAND {mtd}. Arguments readChunkWithTagsFromNAND {mtd}.
Arguments markNANDBlockBad {mtd}. Arguments queryNANDBlock {mtd}.

Section Nand.
Context {mtd : Type} (ops : nand_ops mtd).

(** Without tags the code uses a local variable for them. *)
Definition yaffs_ReadChunkWithTagsFromNAND (dev : yaffs_Device mtd) (chunkInNAND : Z) (buffer : option (list Z))
    (tags : option yaffs_ExtendedTags)
  : option (Z * option (list Z) * yaffs_ExtendedTags * yaffs_Device mtd) :=
  let realignedChunkInNAND := chunkInNAND - chunkOffset dev in
  let dev := dev <| nPageReads ::= Z.succ |> in
  let tags := default etags_zero tags in
  '(result, buffer, tags, dev) ←
    match readChunkWithTagsFromNAND ops with
    | Some read => read dev realignedChunkInNAND buffer tags
    | None =>
        '(result, buffer, t, dev) ← yaffs_TagsCompatabilityReadChunkWithTagsFromNAND (readChunkFromNAND ops) dev
                                       realignedChunkInNAND buffer (Some tags);
        Some (result, buffer, default tags t, dev)
    end;
  dev ←
    match eccResult tags with
    | YAFFS_ECC_RESULT_FIXED | YAFFS_ECC_RESULT_UNFIXED =>
        let blk := Z.quot chunkInNAND (nChunksPerBlock dev) in
        bi ← yaffs_GetBlockInfo dev blk;
        let '(dev, bi) := yaffs_HandleChunkError dev bi in
        Some (set_block_info dev blk bi)
    | _ => Some dev
    end;
  Some (result, buffer, tags, dev).

(** The tags are updated in place; writing without tags dereferences NULL in every driver. *)
Definition yaffs_WriteChunkWithTagsToNAND (dev : yaffs_Device mtd) (chunkInNAND : Z) (buffer : option (list Z))
    (tags : option yaffs_ExtendedTags) : option (Z * yaffs_ExtendedTags * yaffs_Device mtd) :=
  let dev := dev <| nPageWrites ::= Z.succ |> in
  let chunkInNAND := chunkInNAND - chunkOffset dev in
  tags ← tags;
  let tags := tags <| sequenceNumber := dev_sequenceNumber dev |> <| chunkUsed := 1 |> in
  '(result, dev) ←
    match writeChunkWithTagsToNAND ops with
    | Some write => write dev chunkInNAND buffer tags
    | None => Some (yaffs_TagsCompatabilityWriteChunkWithTagsToNAND (writeChunkToNAND ops) dev chunkInNAND buffer tags)
    end;
  Some (result, tags, dev).

Definition yaffs_MarkBlockBad (dev : yaffs_Device mtd) (blockNo : Z) : Z * yaffs_Device mtd :=
  let blockNo := blockNo - blockOffset dev in
  match markNANDBlockBad ops with
  | Some mark => mark dev blockNo
  | None => yaffs_TagsCompatabilityMarkNANDBlockBad (writeChunkToNAND ops) dev blockNo
  end.

Definition yaffs_QueryInitialBlockState (dev : yaffs_Device mtd) (blockNo : Z)
  : option (Z * option (yaffs_BlockState * Z) * yaffs_Device mtd) :=
  let blockNo := blockNo - blockOffset dev in
  match queryNANDBlock ops with
  | Some query => query dev blockNo
  | None =>
      '(r, s, dev) ← yaffs_TagsCompatabilityQueryNANDBlock (readChunkFromNAND ops) dev blockNo;
      Some (r, Some s, dev)
  end.

Definition yaffs_EraseBlockInNAND (dev : yaffs_Device mtd) (blockInNAND : Z) : Z * yaffs_Device mtd :=
  let blockInNAND := blockInNAND - blockOffset dev in
  let dev := dev <| nBlockErasures ::= Z.succ |> in
  eraseBlockInNAND ops dev blockInNAND.

End Nand.

(** The access functions that yaffs_internal_read_super of yaffs_fs.c installs for YAFFS1 and
    YAFFS2 on an MTD device.  The two functions for chunks with a spare are not called then;
    [w] and [r] stand for them, and [t] for the uninitialised tags of
    [nandmtd1_QueryNANDBlock]. *)
Section Drivers.
Context {mtd : Type} `{!MtdOps mtd}.
Context (w : yaffs_Device mtd -> Z -> option (list Z) -> yaffs_Spare -> Z * yaffs_Device mtd).
Context (r : yaffs_Device mtd -> Z -> option (list Z) ->
             Z * option (list Z) * yaffs_NANDSpare * yaffs_Device mtd).

Definition yaffs1_ops (t : yaffs_ExtendedTags) : nand_ops mtd :=
  mk_nand_ops w r nandmtd_EraseBlockInNAND
    (Some (fun dev c d t => Some (nandmtd1_WriteChunkWithTagsToNAND dev c d t)))
    (Some nandmtd1_ReadChunkWithTagsFromNAND)
    (Some nandmtd1_MarkNANDBlockBad)
    (Some (fun dev b => nandmtd1_QueryNANDBlock dev t b)).

Definition yaffs2_ops : nand_ops mtd :=
  mk_nand_ops w r nandmtd_EraseBlockInNAND
    (Some (fun dev c d t => nandmtd2_WriteChunkWithTagsToNAND dev c d (Some t)))
    (Some (fun dev c d t =>
       '(res, d, t', dev) ← nandmtd2_ReadChunkWithTagsFromNAND dev c d (Some t);
       Some (res, d, default t t', dev)))
    (Some nandmtd2_MarkNANDBlockBad)
    (Some (fun dev b => '(res, s, dev) ← nandmtd2_QueryNANDBlock dev b; Some (res, Some s, dev))).

End Drivers.

(** Those it installs for YAFFS1 when it does not use yaffs_mtdif1.c; the pointers that are
    NULL make yaffs_nand.c call yaffs_tagscompat.c. *)
Definition compat_ops {mtd} `{!MtdOps mtd} (stack : list Z) (unset : yaffs_NANDSpare) : nand_ops mtd :=
  mk_nand_ops (nandmtd_WriteChunkToNAND stack) (nandmtd_ReadChunkFromNAND stack unset) nandmtd_EraseBlockInNAND
    None None None None.
