(* ===== verification/YaffsNandFacts.v ===== *)
(** * Chunks survive the NAND interfaces of YAFFS

    What a NAND device with a spare area promises ([MtdMedium]), and that a chunk written
    through yaffs_nand.c and the MTD interfaces of YAFFS1 and YAFFS2 is read back with its
    data and tags, also after it was marked deleted and after a bit of its tags has
    flipped; the same for the interface that corrects the data itself. *)

From S2P Require Import Prelude NandEcc NandEccFacts NandEccSpec YaffsTags YaffsTagsFacts YaffsNand.

Local Open Scope Z_scope.

(** ** The medium *)

(** Programming clears bits: every byte becomes the conjunction of the old and the new. *)
Definition program (old new : list Z) : list Z :=
  zip_with Z.land old new ++ drop (length new) old.

(** The data and the free spare bytes of the page at an address, and what [write_oob] and
    [read_oob] do to them in the mode with automatic placement. *)
Class MtdMedium (mtd : Type) `{!MtdOps mtd} := {
  page_data : mtd -> Z -> list Z;
  page_oob : mtd -> Z -> list Z;
  write_oob_programs : forall s a ops s',
    write_oob s a ops = (0, s') -> ops_mode ops = MTD_OOB_AUTO ->
    page_data s' a = match datbuf ops with
                     | Some d => program (page_data s a) (take (Z.to_nat (ops_len ops)) d)
                     | None => page_data s a
                     end /\
    page_oob s' a = match oobbuf ops with
                    | Some o => program (page_oob s a) (take (Z.to_nat (ops_ooblen ops)) o)
                    | None => page_oob s a
                    end;
  read_oob_reads : forall s a ops r ops' s',
    read_oob s a ops = (r, ops', s') -> ops_mode ops = MTD_OOB_AUTO -> r = 0 \/ r = - EUCLEAN ->
    datbuf ops' = (fun d => take (Z.to_nat (ops_len ops)) (page_data s a) ++ drop (Z.to_nat (ops_len ops)) d)
                  <$> datbuf ops /\
    oobbuf ops' = (fun o => take (Z.to_nat (ops_ooblen ops)) (page_oob s a) ++ drop (Z.to_nat (ops_ooblen ops)) o)
                  <$> oobbuf ops
}.

(** A bit of the spare area that flips after it was written, or none. *)
Definition decay (err : option (nat * nat)) (l : list Z) : list Z :=
  match err with Some (k, b) => flip l k b | None => l end.

(** ** Bytes and numbers *)

Lemma land_le_bytes n x y : zip_with Z.land (le_bytes n x) (le_bytes n y) = le_bytes n (Z.land x y).
Proof.
  apply list_eq. intros i. rewrite lookup_zip_with, !le_bytes_lookup. destruct (Nat.ltb_spec i n); [|done].
  cbn. f_equal. unfold u8. by rewrite Z.shiftr_land, wrap_land.
Qed.

Lemma program_app n x y rest :
  length x = n -> length y = n -> program (x ++ rest) y = zip_with Z.land x y ++ rest.
Proof.
  intros Hx Hy. unfold program. rewrite drop_app_length' by lia. f_equal.
  rewrite <- (app_nil_r y) at 1. rewrite zip_with_app by lia. by rewrite zip_with_nil_r, app_nil_r.
Qed.

Lemma program_erased n x rest :
  bytes n x -> program (replicate n 255 ++ rest) x = x ++ rest.
Proof.
  intros [Hn Hx]. rewrite (program_app n) by (done || apply length_replicate). f_equal.
  revert n Hn. induction Hx as [|c x Hc Hx IH]; intros n Hn; simpl in Hn; subst n; [done|].
  cbn [replicate zip_with]. f_equal; [|by apply IH].
  change 255 with (Z.ones 8). rewrite Z.land_comm. by apply land_ones_small.
Qed.

Lemma flip_app x rest k b : (k < length x)%nat -> flip (x ++ rest) k b = flip x k b ++ rest.
Proof.
  intros Hk. unfold flip, xor_at. rewrite Nat2Z.id, lookup_app_l by done.
  destruct (lookup_lt_is_Some_2 x k Hk) as [y ->]. by rewrite insert_app_l.
Qed.

Lemma decay_app n err x rest :
  length x = n -> (forall k b, err = Some (k, b) -> (k < n)%nat) -> decay err (x ++ rest) = decay err x ++ rest.
Proof.
  intros Hn He. destruct err as [[k b]|]; [|done]. apply flip_app. rewrite Hn. by eapply He.
Qed.

(** The error as a number: the bit that flips. *)
Definition err_bit (err : option (nat * nat)) : Z :=
  match err with Some (k, b) => 2 ^ (8 * Z.of_nat k + Z.of_nat b) | None => 0 end.

Lemma le_value_flip n x k b :
  bytes n x -> (k < n)%nat -> (b < 8)%nat ->
  le_value (flip x k b) = Z.lxor (le_value x) (2 ^ (8 * Z.of_nat k + Z.of_nat b)).
Proof.
  intros Hx Hk Hb. pose proof (flip_bytes n x k b Hx Hk Hb) as [Hfn Hf]. pose proof Hx as [Hn Fx].
  apply Z.bits_inj'. intros i Hi. rewrite Z.lxor_spec, !le_value_testbit, Z.pow2_bits_eqb by (done || lia).
  pose proof (Z.div_mod i 8). pose proof (Z.mod_pos_bound i 8). pose proof (Z.div_pos i 8).
  destruct (decide (Z.to_nat (i / 8) < n)%nat) as [Hj|Hj].
  - rewrite (flip_testbit n) by (done || lia). f_equal.
    destruct (Z.eqb_spec (8 * Z.of_nat k + Z.of_nat b) i).
    + rewrite bool_decide_true; [done|]. lia.
    + rewrite bool_decide_false; [done|]. lia.
  - rewrite !lookup_ge_None_2 by lia. cbn. rewrite !Z.bits_0.
    destruct (Z.eqb_spec (8 * Z.of_nat k + Z.of_nat b) i); [lia|done].
Qed.

Lemma le_value_decay n x err :
  bytes n x -> (forall k b, err = Some (k, b) -> (k < n)%nat /\ (b < 8)%nat) ->
  le_value (decay err x) = Z.lxor (le_value x) (err_bit err).
Proof.
  intros Hx He. destruct err as [[k b]|]; cbn [decay err_bit].
  - destruct (He k b eq_refl). by apply (le_value_flip n).
  - by rewrite Z.lxor_0_r.
Qed.

Lemma decay_bytes n x err :
  bytes n x -> (forall k b, err = Some (k, b) -> (k < n)%nat /\ (b < 8)%nat) -> bytes n (decay err x).
Proof.
  intros Hx He. destruct err as [[k b]|]; [|done]. destruct (He k b eq_refl). by apply flip_bytes.
Qed.

Lemma CheckFF_value n : forall x, bytes n x -> yaffs_CheckFF x n = Some (le_value x =? 2 ^ (8 * Z.of_nat n) - 1).
Proof.
  induction n as [|n IH]; intros x [Hn Hx]; destruct x as [|c x]; try done.
  apply Forall_cons_1 in Hx as [Hc Hx]. cbn [yaffs_CheckFF le_value].
  pose proof (le_value_in x Hx) as Hv. injection Hn as Hn. unfold blen in Hv. rewrite Hn in Hv.
  replace (8 * Z.of_nat (S n)) with (8 * Z.of_nat n + 8) by lia. rewrite Z.pow_add_r by lia.
  change (2 ^ 8) with 256. unfold in_w in *. change (2 ^ 8) with 256 in Hc.
  destruct (Z.eqb_spec c 0xFF); cbn [negb].
  - rewrite IH by done. f_equal. apply eq_true_iff_eq. rewrite !Z.eqb_eq. lia.
  - f_equal. symmetry. apply Z.eqb_neq. lia.
Qed.

(** ** The tags of YAFFS1 *)

Record tags1_ok (t : yaffs_ExtendedTags) : Prop := {
  ok1_chunk : in_w 20 (chunkId t);
  ok1_serial : in_w 2 (serialNumber t);
  ok1_count : in_w 10 (byteCount t);
  ok1_object : in_w 18 (objectId t);
  ok1_live : chunkDeleted t = 0
}.

(** The 64 bits that are written for the tags [t], sealed so that they are not computed. *)
Definition tags1_word_def (t : yaffs_ExtendedTags) : Z :=
  yaffs_CalcTagsECC (pt1_tags (yaffs_PackTags1 (mk_pt1 0 0) t)).
Definition tags1_word_aux : seal tags1_word_def.
Proof. by eexists. Qed.
Definition tags1_word : yaffs_ExtendedTags -> Z := unseal tags1_word_aux.

Lemma tags1_word_eq t : tags1_word t = yaffs_CalcTagsECC (pt1_tags (yaffs_PackTags1 (mk_pt1 0 0) t)).
Proof. unfold tags1_word. by rewrite (seal_eq tags1_word_aux). Qed.

(** A chunk is marked deleted by clearing one bit. *)
Definition del_word (del : bool) (v : Z) : Z := if del then bf_put tag_deleted 0 v else v.

(** A flipped bit of the tags that is not one of their code. *)
Definition covered_tags (err : option (nat * nat)) : Prop :=
  forall k b, err = Some (k, b) -> (k < 8)%nat /\ (b < 8)%nat /\
    (8 * Z.of_nat k + Z.of_nat b < 50 \/ 62 <= 8 * Z.of_nat k + Z.of_nat b).

(** A flipped bit that the code covers: not one of the code itself, nor the deletion mark. *)
Definition covered (err : option (nat * nat)) : Prop :=
  forall k b, err = Some (k, b) -> (k < 8)%nat /\ (b < 8)%nat /\
    (8 * Z.of_nat k + Z.of_nat b < 50 \/ 62 < 8 * Z.of_nat k + Z.of_nat b).

Lemma get_CalcTagsECC_other f v :
  0 <= bf_pos f -> 0 <= bf_width f -> bf_pos f + bf_width f <= 50 \/ 62 <= bf_pos f ->
  bf_get f (yaffs_CalcTagsECC v) = bf_get f v.
Proof.
  intros Hp Hw Hd. rewrite CalcTagsECC_code, !bf_get_other; (done || simpl; lia).
Qed.

Lemma CalcTagsECC_in v : in_w 64 v -> in_w 64 (yaffs_CalcTagsECC v).
Proof. intros Hv. rewrite CalcTagsECC_code. by repeat apply bf_put_in. Qed.

Ltac bf_fields :=
  rewrite ?get_CalcTagsECC_other by (simpl; lia);
  unfold yaffs_PackTags1; cbn [pt1_tags];
  repeat first [ rewrite bf_get_put by (simpl; lia) | rewrite bf_get_other by (simpl; lia) ].

Lemma tags1_word_fields t :
  tags1_ok t ->
  let v := tags1_word t in
  in_w 64 v /\ bf_get tag_chunkId v = chunkId t /\ bf_get tag_serialNumber v = serialNumber t /\
  bf_get tag_byteCountLSB v = byteCount t /\ bf_get tag_objectId v = objectId t /\
  bf_get tag_deleted v = 1 /\ bf_get tag_unusedStuff v = 0.
Proof.
  intros [] v. unfold v. rewrite tags1_word_eq. split.
  { apply CalcTagsECC_in. unfold yaffs_PackTags1. cbn [pt1_tags]. by repeat apply bf_put_in. }
  split_and!; bf_fields; try (apply land_ones_small; [simpl; lia|done]).
  by rewrite ok1_live0.
Qed.

Lemma deleted_bit_62 v : Z.testbit v 62 = Z.testbit (bf_get tag_deleted v) 0.
Proof. by rewrite bf_get_testbit by (simpl; lia). Qed.

Lemma ecc_bit_57 v : Z.testbit v 57 = Z.testbit (bf_get tag_ecc v) 7.
Proof. by rewrite bf_get_testbit by (simpl; lia). Qed.

(** The highest bits of the code are never set. *)
Lemma CalcTagsECC_57 v : Z.testbit (yaffs_CalcTagsECC v) 57 = false.
Proof. rewrite ecc_bit_57, get_CalcTagsECC. apply (in_w_testbit 7); [apply tags_code_in|done]. Qed.

Lemma tags1_word_57 t : Z.testbit (tags1_word t) 57 = false.
Proof. rewrite tags1_word_eq. apply CalcTagsECC_57. Qed.

(** What is left of the tags after deletion and decay. *)
Lemma read_word v del err :
  Z.testbit v 57 = false -> Z.testbit v 62 = true -> covered err ->
  let w := Z.lxor (del_word del v) (err_bit err) in
  w <> 2 ^ 64 - 1 /\ bf_get tag_deleted w = b2z (negb del) /\
  bf_put tag_deleted 1 w = Z.lxor v (err_bit err).
Proof.
  intros H57 H62 He w.
  assert (forall i, 50 <= i <= 62 -> Z.testbit (err_bit err) i = false) as Herr.
  { intros i Hi. destruct err as [[k b]|]; [|apply Z.bits_0]. destruct (He k b eq_refl) as (? & ? & ?).
    cbn [err_bit]. rewrite Z.pow2_bits_eqb by lia. apply Z.eqb_neq. lia. }
  assert (forall i, 0 <= i -> Z.testbit w i =
    xorb (if del && (i =? 62) then false else Z.testbit v i) (Z.testbit (err_bit err) i)) as Hw.
  { intros i Hi. unfold w. rewrite Z.lxor_spec. f_equal. unfold del_word. destruct del; [|done].
    rewrite bf_put_testbit by (simpl; lia). cbn [bf_pos bf_width tag_deleted andb].
    destruct (Z.eqb_spec i 62) as [->|]; [done|]. by replace ((62 <=? i) && (i <? 62 + 1)) with false by lia. }
  split_and!.
  - intros E. pose proof (Hw 57 ltac:(lia)) as H. rewrite E, H57, Herr in H by lia.
    by destruct del.
  - bf_bits i Hi. rewrite Hw by lia. destruct (Z.ltb_spec i 1); cbn [andb].
    + replace i with 0 by lia. rewrite Z.add_0_l, Herr, H62 by lia. by destruct del.
    + destruct del; cbn [negb b2z]; [by rewrite Z.bits_0|]. symmetry. by apply (in_w_testbit 1).
  - bf_bits i Hi. destruct (Z.leb_spec 62 i), (Z.ltb_spec i (62 + 1)); cbn [andb].
    + replace i with 62 by lia. by rewrite Herr, H62 by lia.
    + rewrite Hw by lia. replace (i =? 62) with false by lia. by rewrite andb_false_r.
    + rewrite Hw by lia. replace (i =? 62) with false by lia. by rewrite andb_false_r.
    + lia.
Qed.

Lemma covered_corrects v err :
  covered_tags err ->
  yaffs_CheckECCOnTags (Z.lxor (yaffs_CalcTagsECC v) (err_bit err)) =
  (b2z (bool_decide (is_Some err)), yaffs_CalcTagsECC v).
Proof.
  intros He. destruct err as [[k b]|]; cbn [err_bit].
  - destruct (He k b eq_refl) as (? & ? & ?). rewrite CheckECCOnTags_corrects by lia. done.
  - rewrite Z.lxor_0_r. apply CheckECCOnTags_clean.
Qed.

Lemma CheckECCOnTags_word t err :
  covered err ->
  yaffs_CheckECCOnTags (Z.lxor (tags1_word t) (err_bit err)) = (b2z (bool_decide (is_Some err)), tags1_word t).
Proof.
  intros He. rewrite tags1_word_eq. apply covered_corrects.
  intros k b E. destruct (He k b E) as (? & ? & ?). lia.
Qed.

(** Evaluate the fields of an updated device. *)
Ltac dev_fields :=
  unfold assign;
  cbn [nDataBytesPerChunk nChunksPerBlock startBlock endBlock nReservedBlocks useNANDECC noTagsECC
       genericDevice isYaffs2 chunkGroupBits chunkGroupSize tnodeWidth tnodeMask chunkShift chunkDiv
       chunkMask inbandTags totalBytesPerChunk spareBuffer isCheckpointed internalStartBlock
       internalEndBlock blockOffset chunkOffset blocksInCheckpoint nCheckpointBlocksRequired blockInfo
       chunkBits chunkBitmapStride nErasedBlocks allocationBlock allocationPage allocationBlockFinder
       nTnodesCreated nFreeTnodes nObjectsCreated nFreeObjects nFreeChunks currentDirtyChecker
       nonAggressiveSkip nPageWrites nPageReads nBlockErasures nErasureFailures nRetriedWrites
       nRetiredBlocks eccFixed eccUnfixed tagsEccFixed tagsEccUnfixed nDeletions nUnmarkedDeletions
       hasPendingPrioritisedGCs dev_sequenceNumber oldestDirtySequence].

(** What reading leaves alone. *)
Definition same_blocks {mtd} (dev dev' : yaffs_Device mtd) : Prop :=
  blockInfo dev' = blockInfo dev /\ internalStartBlock dev' = internalStartBlock dev /\
  nChunksPerBlock dev' = nChunksPerBlock dev.

(** The block of the chunk [c] is marked for garbage collection. *)
Definition prioritised {mtd} (dev : yaffs_Device mtd) (blk : Z) : Prop :=
  exists bi, yaffs_GetBlockInfo dev blk = Some bi /\ gcPrioritise bi = true.

Lemma HandleChunkError_prioritises {mtd} (dev : yaffs_Device mtd) blk bi dev' bi' :
  yaffs_GetBlockInfo dev blk = Some bi -> yaffs_HandleChunkError dev bi = (dev', bi') ->
  prioritised (set_block_info dev' blk bi') blk.
Proof.
  intros Hget Eh. exists bi'. unfold yaffs_HandleChunkError in Eh. unfold yaffs_GetBlockInfo in *.
  destruct (gcPrioritise bi) eqn:Hg; cbn [negb] in Eh; injection Eh as <- <-; unfold set_block_info; dev_fields;
    (case_match; [done|]);
    (split; [apply list_lookup_insert_eq; by eapply lookup_lt_Some|]); [done|by destruct (3 <? _)].
Qed.

(** yaffs_nand.c passes on what the driver read, and marks the block of a chunk that was read
    with a corrected error. *)
Lemma nand_read {mtd} (ops : nand_ops mtd) dev c buf e0 read r d tg dev' :
  readChunkWithTagsFromNAND ops = Some read ->
  read (dev <| nPageReads ::= Z.succ |>) (c - chunkOffset dev) buf e0 = Some (r, d, tg, dev') ->
  same_blocks dev dev' -> is_Some (yaffs_GetBlockInfo dev (Z.quot c (nChunksPerBlock dev))) ->
  eccResult tg = YAFFS_ECC_RESULT_NO_ERROR \/ eccResult tg = YAFFS_ECC_RESULT_FIXED ->
  exists dev3,
    yaffs_ReadChunkWithTagsFromNAND ops dev c buf (Some e0) = Some (r, d, tg, dev3) /\
    (eccResult tg = YAFFS_ECC_RESULT_FIXED -> prioritised dev3 (Z.quot c (nChunksPerBlock dev))).
Proof.
  intros Hrd E (Hbi & Hs & Hn) [bi Hget] Hres. unfold yaffs_ReadChunkWithTagsFromNAND.
  rewrite Hrd. cbn [default from_option id]. rewrite E. cbn [mbind option_bind].
  destruct Hres as [Hr | Hr]; rewrite Hr; [by eexists|]. rewrite Hn.
  assert (yaffs_GetBlockInfo dev' (Z.quot c (nChunksPerBlock dev)) = Some bi) as Hget'.
  { unfold yaffs_GetBlockInfo in *. by rewrite Hs, Hbi. }
  rewrite Hget'. cbn [mbind option_bind].
  destruct (yaffs_HandleChunkError dev' bi) as [dev4 bi4] eqn:Eh. eexists. split; [done|]. intros _.
  by apply (HandleChunkError_prioritises dev' _ bi).
Qed.

(** What YAFFS1 reads back of the tags [t]; fields that are not stored keep their values. *)
Definition tags1_view (e0 : yaffs_ExtendedTags) (res : yaffs_ECCResult) (del : bool) (t : yaffs_ExtendedTags)
  : yaffs_ExtendedTags :=
  mk_etags (validMarker0 e0) 1 (objectId t) (chunkId t) (byteCount t) res 0 (b2z del) (serialNumber t)
    (sequenceNumber e0) (extraHeaderInfoAvailable e0) (extraParentObjectId e0) (extraIsShrinkHeader e0)
    (extraShadows e0) (extraObjectType e0) (extraFileLength e0) (extraEquivalentObjectId e0) (validMarker1 e0).

Lemma UnpackTags1_word e0 t res del :
  tags1_ok t ->
  (yaffs_UnpackTags1 e0 (mk_pt1 (tags1_word t) 0xFFFFFFFF)) <| eccResult := res |> <| chunkDeleted := b2z del |> =
  tags1_view e0 res del t.
Proof.
  intros Hok. destruct (tags1_word_fields t Hok) as (_ & E1 & E2 & E3 & E4 & E5 & E6).
  unfold yaffs_UnpackTags1. cbn [pt1_tags shouldBeFF].
  assert (tags1_word t <> 2 ^ 64 - 1) as Hne.
  { intros E. rewrite E in E6. vm_compute in E6. done. }
  rewrite (proj2 (Z.eqb_neq _ _) Hne). cbn [andb negb].
  rewrite E1, E2, E3, E4, E5. destruct e0. reflexivity.
Qed.

Section Yaffs1.
Context {mtd : Type} `{!MtdOps mtd} `{!MtdMedium mtd}.

Implicit Types dev : yaffs_Device mtd.

(** The operands with which a chunk is written and read. *)
Definition ops1 (dev : yaffs_Device mtd) (data : option (list Z)) (v : Z) : mtd_oob_ops :=
  mk_ops MTD_OOB_AUTO (match data with Some _ => nDataBytesPerChunk dev | None => 0 end) YTAG1_SIZE 0 data
    (Some (le_bytes 8 v)).

Lemma write1_word dev c data t dev' :
  nandmtd1_WriteChunkWithTagsToNAND dev c data t = (YAFFS_OK, dev') ->
  exists m, dev' = dev <| genericDevice := m |> /\
    write_oob (genericDevice dev) (c * nDataBytesPerChunk dev)
      (ops1 dev data (if truthy (chunkDeleted t) then bf_put tag_deleted 0 (2 ^ 64 - 1) else tags1_word t)) = (0, m).
Proof.
  unfold nandmtd1_WriteChunkWithTagsToNAND, ops1. cbv zeta. rewrite <- tags1_word_eq.
  match goal with |- context [write_oob ?s ?a ?o] => destruct (write_oob s a o) as [r m] eqn:Ew end.
  unfold truthy at 1. destruct (Z.eqb_spec r 0) as [->|]; cbn [negb]; [|done].
  intros [= <-]. by exists m.
Qed.

(** A page with data [d] and the tags [v]. *)
Definition holds_chunk (m : mtd) (a : Z) (d : list Z) (v : Z) (rest : list Z) : Prop :=
  page_data m a = d /\ page_oob m a = le_bytes 8 v ++ rest.

Lemma write1_live dev c d t dev' rest :
  let a := c * nDataBytesPerChunk dev in
  nandmtd1_WriteChunkWithTagsToNAND dev c (Some d) t = (YAFFS_OK, dev') ->
  chunkDeleted t = 0 -> bytes (Z.to_nat (nDataBytesPerChunk dev)) d ->
  page_data (genericDevice dev) a = replicate (length d) 255 ->
  page_oob (genericDevice dev) a = replicate 8 255 ++ rest ->
  exists m, dev' = dev <| genericDevice := m |> /\ holds_chunk m a d (tags1_word t) rest.
Proof.
  intros a Hw Hd Hb Hpd Hpo. destruct (write1_word _ _ _ _ _ Hw) as (m & -> & E). exists m. split; [done|].
  rewrite Hd in E. cbn [truthy negb Z.eqb] in E.
  destruct (write_oob_programs _ _ _ _ E eq_refl) as [E1 E2]. unfold ops1 in E1, E2.
  cbn [datbuf oobbuf ops_len ops_ooblen] in E1, E2. pose proof Hb as [Hn _].
  rewrite take_ge in E1, E2 by (rewrite ?Hn; done || apply Nat.eq_le_incl, le_bytes_bytes).
  split; unfold a in *.
  - rewrite E1, Hpd, <- (app_nil_r (replicate _ _)), (program_erased (length d)), app_nil_r; [done|].
    by rewrite Hn.
  - rewrite E2, Hpo. apply program_erased, le_bytes_bytes.
Qed.

Lemma land_deleted v : in_w 64 v -> Z.land v (bf_put tag_deleted 0 (2 ^ 64 - 1)) = bf_put tag_deleted 0 v.
Proof.
  intros Hv. change (2 ^ 64 - 1) with (Z.ones 64). bf_bits i Hi.
  destruct (Z.leb_spec 62 i), (Z.ltb_spec i (62 + 1)); cbn [andb]; rewrite ?Z.bits_0, ?andb_false_r;
    try done; destruct (Z.ltb_spec i 64); rewrite ?andb_true_r; try done; try lia.
  symmetry. rewrite andb_false_r. by apply (in_w_testbit 64).
Qed.

Lemma write1_delete dev c t dev' d v rest :
  let a := c * nDataBytesPerChunk dev in
  nandmtd1_WriteChunkWithTagsToNAND dev c None t = (YAFFS_OK, dev') ->
  chunkDeleted t = 1 -> in_w 64 v -> holds_chunk (genericDevice dev) a d v rest ->
  exists m, dev' = dev <| genericDevice := m |> /\ holds_chunk m a d (bf_put tag_deleted 0 v) rest.
Proof.
  intros a Hw Hd Hv [Hpd Hpo]. destruct (write1_word _ _ _ _ _ Hw) as (m & -> & E). exists m. split; [done|].
  rewrite Hd in E. cbn [truthy negb Z.eqb] in E.
  destruct (write_oob_programs _ _ _ _ E eq_refl) as [E1 E2]. unfold ops1 in E1, E2.
  cbn [datbuf oobbuf ops_len ops_ooblen] in E1, E2. rewrite take_ge in E2 by done.
  split; unfold a in *; [by rewrite E1|]. rewrite E2, Hpo, (program_app 8) by apply le_bytes_bytes.
  by rewrite land_le_bytes, land_deleted.
Qed.

Definition read_result (r : Z) (err : option (nat * nat)) : yaffs_ECCResult :=
  if (r =? 0) && negb (bool_decide (is_Some err)) then YAFFS_ECC_RESULT_NO_ERROR else YAFFS_ECC_RESULT_FIXED.

Lemma read1_chunk dev c buf e0 t del err d rest r ops' m' :
  let a := c * nDataBytesPerChunk dev in
  tags1_ok t -> covered err -> bytes (Z.to_nat (nDataBytesPerChunk dev)) d -> length buf = length d ->
  page_data (genericDevice dev) a = d ->
  page_oob (genericDevice dev) a = decay err (le_bytes 8 (del_word del (tags1_word t)) ++ rest) ->
  read_oob (genericDevice dev) a (ops1 dev (Some buf) 0) = (r, ops', m') -> r = 0 \/ r = - EUCLEAN ->
  exists dev',
    nandmtd1_ReadChunkWithTagsFromNAND dev c (Some buf) e0 =
      Some (YAFFS_OK, Some d, tags1_view e0 (read_result r err) del t, dev') /\ same_blocks dev dev'.
Proof.
  intros a Hok He Hd Hbuf Hpd Hpo Hr Hret. unfold nandmtd1_ReadChunkWithTagsFromNAND.
  fold (ops1 dev (Some buf) 0). fold a. rewrite Hr.
  destruct (read_oob_reads _ _ _ _ _ _ Hr eq_refl Hret) as [E1 E2].
  unfold ops1 in E1, E2. cbn [datbuf oobbuf ops_len ops_ooblen fmap option_fmap option_map] in E1, E2.
  pose proof Hd as [Hn _]. rewrite Hpd, take_ge, drop_ge, app_nil_r in E1 by lia.
  set (v := tags1_word t) in *. set (w := del_word del v) in *.
  assert (forall k b, err = Some (k, b) -> (k < 8)%nat /\ (b < 8)%nat) as He'.
  { intros k b E. destruct (He k b E) as (? & ? & _). done. }
  pose proof (decay_bytes 8 _ err (le_bytes_bytes 8 w) He') as Hdb.
  rewrite Hpo, (decay_app 8), take_app_length' in E2; [|symmetry; apply Hdb|apply le_bytes_bytes|intros k b E; apply (He' k b E)].
  rewrite drop_ge, app_nil_r in E2 by (apply Nat.eq_le_incl, le_bytes_bytes).
  destruct (tags1_word_fields t Hok) as (Hin & _ & _ & _ & _ & Hdel & _). fold v in Hin, Hdel.
  assert (in_w 64 w) as Hw.
  { unfold w, del_word. destruct del; [|done]. by apply bf_put_in. }
  assert (le_value (decay err (le_bytes 8 w)) = Z.lxor w (err_bit err)) as Hlv.
  { rewrite (le_value_decay 8) by (done || apply le_bytes_bytes). by rewrite (le_value_bytes 8). }
  destruct (read_word v del err) as (Hne & Hgd & Hpd1).
  { apply tags1_word_57. } { rewrite deleted_bit_62, Hdel. done. } { done. }
  fold w in Hne, Hgd, Hpd1.
  pose proof (CheckFF_value 8 _ Hdb) as Hff. rewrite Hlv in Hff. change (8 * Z.of_nat 8) with 64 in Hff.
  rewrite (proj2 (Z.eqb_neq (Z.lxor w (err_bit err)) _) Hne) in Hff.
  unfold read_result. change (- EUCLEAN) with (-117) in *.
  destruct Hret as [-> | ->]; cbn [Z.eqb Pos.eqb orb andb]; rewrite E1, E2;
    cbn [mbind option_bind]; rewrite Hff; cbn [mbind option_bind];
    rewrite take_ge by (apply Nat.eq_le_incl, Hdb); rewrite Hlv, Hgd, Hpd1;
    unfold v; rewrite CheckECCOnTags_word by done;
    replace (if truthy (b2z (negb del)) then 0 else 1) with (b2z del) by (by destruct del);
    destruct (bool_decide (is_Some err)); cbn [Z.eqb Pos.eqb orb andb negb b2z];
    rewrite UnpackTags1_word by done; eexists; split; done.
Qed.

(** ** Through yaffs_nand.c *)

Lemma tags1_word_written t n : tags1_word (t <| sequenceNumber := n |> <| chunkUsed := 1 |>) = tags1_word t.
Proof. rewrite !tags1_word_eq. f_equal. Qed.

Context (wf : yaffs_Device mtd -> Z -> option (list Z) -> yaffs_Spare -> Z * yaffs_Device mtd).
Context (rf : yaffs_Device mtd -> Z -> option (list Z) ->
              Z * option (list Z) * yaffs_NANDSpare * yaffs_Device mtd).
Context (qt : yaffs_ExtendedTags).

Lemma nand_write1 dev c data t t1 dev1 :
  yaffs_WriteChunkWithTagsToNAND (yaffs1_ops wf rf qt) dev c data (Some t) = Some (YAFFS_OK, t1, dev1) ->
  nandmtd1_WriteChunkWithTagsToNAND (dev <| nPageWrites ::= Z.succ |>) (c - chunkOffset dev) data
    (t <| sequenceNumber := dev_sequenceNumber dev |> <| chunkUsed := 1 |>) = (YAFFS_OK, dev1).
Proof.
  unfold yaffs_WriteChunkWithTagsToNAND, yaffs1_ops. cbn [mbind option_bind writeChunkWithTagsToNAND].
  match goal with |- context [nandmtd1_WriteChunkWithTagsToNAND ?x ?y ?z ?u] =>
    destruct (nandmtd1_WriteChunkWithTagsToNAND x y z u) as [r d] eqn:E end.
  cbn [mbind option_bind]. intros [= -> _ ->]. exact E.
Qed.

(** C6: A chunk written through yaffs_nand.c and the YAFFS1 MTD interface to an erased page,
    possibly marked deleted by a second write, with any one stored tag bit outside the tags ECC
    and the deletion mark flipped since, is read back with its data, its tags and its deletion
    mark; when a bit was corrected the block is prioritised for garbage collection. *)
Theorem yaffs1_chunk_survives dev c d t t1 dev1 del t2 dev2 err m buf e0 ret ops' m' rest :
  let ops := yaffs1_ops wf rf qt in
  let a := (c - chunkOffset dev) * nDataBytesPerChunk dev in
  tags1_ok t -> bytes (Z.to_nat (nDataBytesPerChunk dev)) d ->
  page_data (genericDevice dev) a = replicate (length d) 255 ->
  page_oob (genericDevice dev) a = replicate 8 255 ++ rest ->
  yaffs_WriteChunkWithTagsToNAND ops dev c (Some d) (Some t) = Some (YAFFS_OK, t1, dev1) ->
  (if del : bool
   then yaffs_WriteChunkWithTagsToNAND ops dev1 c None (Some (yaffs_InitialiseTags <| chunkDeleted := 1 |>)) =
        Some (YAFFS_OK, t2, dev2)
   else dev2 = dev1) ->
  covered err -> page_data m a = page_data (genericDevice dev2) a ->
  page_oob m a = decay err (page_oob (genericDevice dev2) a) ->
  length buf = length d ->
  read_oob m a (ops1 dev (Some buf) 0) = (ret, ops', m') -> ret = 0 \/ ret = - EUCLEAN ->
  is_Some (yaffs_GetBlockInfo dev (Z.quot c (nChunksPerBlock dev))) ->
  exists dev3,
    yaffs_ReadChunkWithTagsFromNAND ops (dev2 <| genericDevice := m |>) c (Some buf) (Some e0) =
      Some (YAFFS_OK, Some d, tags1_view e0 (read_result ret err) del t, dev3) /\
    (read_result ret err = YAFFS_ECC_RESULT_FIXED -> prioritised dev3 (Z.quot c (nChunksPerBlock dev))).
Proof.
  intros ops a Hok Hd Hpd Hpo Hw1 Hw2 He Hmd Hmo Hbuf Hr Hret Hbi.
  apply nand_write1 in Hw1.
  destruct (write1_live _ _ _ _ _ rest Hw1) as (m1 & -> & Hh); [exact (ok1_live t Hok)|done..|].
  rewrite tags1_word_written in Hh. fold a in Hh. destruct (tags1_word_fields t Hok) as (Hin & _).
  assert (exists m2, (dev2 = dev <| nPageWrites ::= Z.succ |> <| genericDevice := m2 |> \/
                      dev2 = dev <| nPageWrites ::= Z.succ |> <| genericDevice := m1 |>
                             <| nPageWrites ::= Z.succ |> <| genericDevice := m2 |>) /\
    holds_chunk m2 a d (del_word del (tags1_word t)) rest) as (m2 & Hdev2 & Hh2).
  { destruct del; [|exists m1; split; [left; exact Hw2|exact Hh]].
    apply nand_write1 in Hw2.
    destruct (write1_delete _ _ _ _ d (tags1_word t) rest Hw2) as (m2 & -> & Hh2); [done|done|exact Hh|].
    exists m2. split; [right; done|exact Hh2]. }
  destruct Hh2 as [Hd2 Ho2].
  assert (genericDevice dev2 = m2) as Hgd by (by destruct Hdev2 as [-> | ->]).
  rewrite Hgd, Hd2 in Hmd. rewrite Hgd, Ho2 in Hmo.
  assert (same_blocks dev dev2 /\ chunkOffset dev2 = chunkOffset dev /\
          nDataBytesPerChunk dev2 = nDataBytesPerChunk dev) as ((Hb1 & Hb2 & Hb3) & Hco & Hnd).
  { by destruct Hdev2 as [-> | ->]. }
  destruct (read1_chunk (dev2 <| genericDevice := m |> <| nPageReads ::= Z.succ |>) (c - chunkOffset dev) buf e0 t
    del err d rest ret ops' m') as (dev' & Er & Hs); [done|done| |done| | | |done|].
  1-4: unfold ops1; dev_fields; rewrite Hnd; (done || exact Hr).
  rewrite <- Hb3. rewrite <- Hco in Er.
  apply (nand_read ops (dev2 <| genericDevice := m |>) c (Some buf) e0 _ _ _ _ _ eq_refl Er).
  - exact Hs.
  - unfold yaffs_GetBlockInfo in *. dev_fields. by rewrite Hb1, Hb2, Hb3.
  - unfold read_result. destruct ((ret =? 0) && _); auto.
Qed.

End Yaffs1.

(** ** A device *)

(** A flash memory without errors of its own: the data and the spare bytes of every page. *)
Record flash := mk_flash { fl_data : Z -> list Z; fl_oob : Z -> list Z }.

Definition upd (f : Z -> list Z) (a : Z) (l : list Z) : Z -> list Z := fun x => if x =? a then l else f x.

#[export] Instance flash_ops : MtdOps flash := {
  write_oob s a ops :=
    (0, mk_flash
          (match datbuf ops with
           | Some d => upd (fl_data s) a (program (fl_data s a) (take (Z.to_nat (ops_len ops)) d))
           | None => fl_data s
           end)
          (match oobbuf ops with
           | Some o => upd (fl_oob s) a (program (fl_oob s a) (take (Z.to_nat (ops_ooblen ops)) o))
           | None => fl_oob s
           end));
  read_oob s a ops :=
    (0, mk_ops (ops_mode ops) (ops_len ops) (ops_ooblen ops) (ops_ooboffs ops)
          ((fun d => take (Z.to_nat (ops_len ops)) (fl_data s a) ++ drop (Z.to_nat (ops_len ops)) d) <$> datbuf ops)
          ((fun o => take (Z.to_nat (ops_ooblen ops)) (fl_oob s a) ++ drop (Z.to_nat (ops_ooblen ops)) o)
           <$> oobbuf ops), s);
  mtd_read s a n d := (0, take (Z.to_nat n) (fl_data s a), s);
  block_isbad s a := 0;
  block_markbad s a := (0, s);
  mtd_erase s a n := (0, mk_flash (fun x => if bool_decide (a <= x < a + n) then replicate 8 255 else fl_data s x)
                                 (fun x => if bool_decide (a <= x < a + n) then replicate 32 255 else fl_oob s x));
  oobavail s := 32
}.

Lemma upd_same f a l : upd f a l a = l.
Proof. unfold upd. by rewrite Z.eqb_refl. Qed.

#[export, refine] Instance flash_medium : MtdMedium flash := { page_data := fl_data; page_oob := fl_oob }.
Proof.
  - intros s a ops s' [= <-] _. cbn [fl_data fl_oob].
    split; [destruct (datbuf ops)|destruct (oobbuf ops)]; by rewrite ?upd_same.
  - intros s a ops r ops' s' [= <- <- <-] _ _. done.
Defined.

(** A flash memory in which one bit of the spare area of a page has flipped. *)
Definition decayed (m : flash) (a : Z) (k b : nat) : flash :=
  mk_flash (fl_data m) (upd (fl_oob m) a (flip (fl_oob m a) k b)).

Lemma decayed_data m a k b : page_data (decayed m a k b) a = page_data m a.
Proof. done. Qed.

Lemma decayed_oob m a k b : page_oob (decayed m a k b) a = decay (Some (k, b)) (page_oob m a).
Proof. apply upd_same. Qed.

(** An erased flash memory with one block of 32 pages. *)
Definition demo_flash : flash := mk_flash (fun _ => replicate 8 255) (fun _ => replicate 32 255).

Definition demo_dev : yaffs_Device flash :=
  (zero_device demo_flash) <| nDataBytesPerChunk := 8 |> <| nChunksPerBlock := 32 |> <| totalBytesPerChunk := 8 |>
    <| spareBuffer := replicate 32 0 |> <| blockInfo := [yaffs_BlockInfo_zero] |> <| dev_sequenceNumber := 0x1001 |>.

(** The functions for chunks with a spare area, which the MTD interfaces do not call. *)
Definition no_write (d : yaffs_Device flash) (c : Z) (b : option (list Z)) (s : yaffs_Spare)
  : Z * yaffs_Device flash := (YAFFS_FAIL, d).

Definition no_read (d : yaffs_Device flash) (c : Z) (b : option (list Z))
  : Z * option (list Z) * yaffs_NANDSpare * yaffs_Device flash :=
  (YAFFS_FAIL, b, mk_nspare yaffs_SpareInitialise 0 0, d).

Definition demo1_ops : nand_ops flash := yaffs1_ops no_write no_read etags_zero.

Definition demo_data : list Z := [1; 2; 3; 4; 5; 6; 7; 8].

Definition demo_tags : yaffs_ExtendedTags :=
  yaffs_InitialiseTags <| objectId := 257 |> <| chunkId := 3 |> <| byteCount := 8 |> <| serialNumber := 1 |>.

Lemma demo_tags_ok : tags1_ok demo_tags.
Proof. constructor; unfold in_w; vm_compute; intuition discriminate. Qed.

(** The device after a write. *)
Definition after_write (ops : nand_ops flash) (dev : yaffs_Device flash) (data : option (list Z))
    (t : yaffs_ExtendedTags) : yaffs_Device flash :=
  match yaffs_WriteChunkWithTagsToNAND ops dev 5 data (Some t) with Some (_, _, d) => d | None => dev end.

Lemma after_write_eq ops dev data t :
  match yaffs_WriteChunkWithTagsToNAND ops dev 5 data (Some t) with Some (r, _, _) => r =? YAFFS_OK | None => false end =
  true ->
  exists t1, yaffs_WriteChunkWithTagsToNAND ops dev 5 data (Some t) = Some (YAFFS_OK, t1, after_write ops dev data t).
Proof.
  unfold after_write. destruct (yaffs_WriteChunkWithTagsToNAND ops dev 5 data (Some t)) as [[[r t1] d]|]; [|done].
  intros ->%Z.eqb_eq. by exists t1.
Qed.

Definition demo_deleted : yaffs_Device flash :=
  after_write demo1_ops (after_write demo1_ops demo_dev (Some demo_data) demo_tags) None
    (yaffs_InitialiseTags <| chunkDeleted := 1 |>).

(** One bit of the object number flips. *)
Definition demo_decayed : flash := decayed (genericDevice demo_deleted) 40 4 2.

Lemma yaffs1_chunk_survives_witness :
  exists dev3,
    yaffs_ReadChunkWithTagsFromNAND demo1_ops (demo_deleted <| genericDevice := demo_decayed |>) 5
      (Some (replicate 8 0)) (Some etags_zero) =
      Some (YAFFS_OK, Some demo_data, tags1_view etags_zero YAFFS_ECC_RESULT_FIXED true demo_tags, dev3) /\
    (YAFFS_ECC_RESULT_FIXED = YAFFS_ECC_RESULT_FIXED -> prioritised dev3 0).
Proof.
  destruct (after_write_eq demo1_ops demo_dev (Some demo_data) demo_tags) as [t1 E1]; [vm_compute; reflexivity|].
  destruct (after_write_eq demo1_ops (after_write demo1_ops demo_dev (Some demo_data) demo_tags) None
    (yaffs_InitialiseTags <| chunkDeleted := 1 |>)) as [t2 E2]; [vm_compute; reflexivity|].
  eapply (yaffs1_chunk_survives no_write no_read etags_zero demo_dev 5 demo_data demo_tags _
    (after_write demo1_ops demo_dev (Some demo_data) demo_tags) true _ demo_deleted (Some (4%nat, 2%nat))
    demo_decayed (replicate 8 0) etags_zero 0 _ _ (replicate 24 255)).
  - exact demo_tags_ok.
  - split; [done|]. repeat constructor; done.
  - reflexivity.
  - reflexivity.
  - exact E1.
  - exact E2.
  - intros k b [= <- <-]. lia.
  - apply decayed_data.
  - apply decayed_oob.
  - reflexivity.
  - reflexivity.
  - left. reflexivity.
  - by eexists.
Defined.
