(* ===== verification/YaffsNand2Facts.v ===== *)
(** * Chunks survive the other two NAND interfaces of YAFFS

    The MTD interface of YAFFS2 (yaffs_mtdif2.c) under yaffs_nand.c, with a flipped bit
    anywhere in the stored tags or their code, and the older interface of YAFFS1
    (yaffs_tagscompat.c over yaffs_mtdif.c), which drops two bits of the tags to make room
    for the status of the page. *)

From S2P Require Import Prelude NandEcc NandEccFacts NandEccSpec YaffsTags YaffsTagsFacts YaffsNand YaffsNandFacts.

Local Open Scope Z_scope.

(** ** The stored tags of YAFFS2 *)

Lemma flip_app_r x rest k b :
  (length x <= k)%nat -> flip (x ++ rest) k b = x ++ flip rest (k - length x) b.
Proof.
  intros Hk. unfold flip, xor_at. rewrite !Nat2Z.id, lookup_app_r by done.
  destruct (rest !! (k - length x)%nat); [|done]. by rewrite insert_app_r_alt.
Qed.

(** The effect on the code of a flipped bit in the bytes 16 to 27. *)
Definition ecc_damage (k b : nat) (e : Yaffs.ECCOther) : Yaffs.ECCOther :=
  let '(Yaffs.mk_ECCOther c l l') := e in
  if bool_decide (k = 16)%nat then Yaffs.mk_ECCOther (Z.lxor c (2 ^ Z.of_nat b)) l l'
  else if bool_decide (k < 20)%nat then e
  else if bool_decide (k < 24)%nat
  then Yaffs.mk_ECCOther c (Z.lxor l (2 ^ (8 * Z.of_nat (k - 20) + Z.of_nat b))) l'
  else Yaffs.mk_ECCOther c l (Z.lxor l' (2 ^ (8 * Z.of_nat (k - 24) + Z.of_nat b))).

Definition other_ok (e : Yaffs.ECCOther) : Prop :=
  in_w 8 (Yaffs.colParity e) /\ in_w 32 (Yaffs.lineParity e) /\ in_w 32 (Yaffs.lineParityPrime e).

Lemma ecc_loop_in w data : forall i a,
  0 <= w -> in_w w (Yaffs.line_parity a) -> in_w w (Yaffs.line_parity_prime a) ->
  let a' := Yaffs.ecc_loop w i data a in in_w w (Yaffs.line_parity a') /\ in_w w (Yaffs.line_parity_prime a').
Proof.
  induction data as [|d data IH]; intros i a Hw H1 H2; [done|]. cbn [Yaffs.ecc_loop]. apply IH; [done|..];
    unfold Yaffs.ecc_step; case_match; try done; by apply wrap_in.
Qed.

Lemma CalculateOther_ok data n : other_ok (Yaffs.yaffs_ECCCalculateOther data n).
Proof.
  unfold Yaffs.yaffs_ECCCalculateOther, other_ok. cbn [Yaffs.colParity Yaffs.lineParity Yaffs.lineParityPrime].
  split; [|by apply ecc_loop_in].
  change 0x3f with (Z.ones 6). rewrite Z.land_ones by done. unfold in_w.
  pose proof (Z.mod_pos_bound (Z.shiftr (Yaffs.col_parity (Yaffs.ecc_loop 32 0 (take (Z.to_nat n) data)
    (Yaffs.mk_acc 0 0 0))) 2) (2 ^ 6)). lia.
Qed.

Lemma pt2_of_bytes_app x c p q r l l' :
  length x = 16%nat -> length l = 4%nat -> length l' = 4%nat ->
  pt2_of_bytes (x ++ [c; p; q; r] ++ l ++ l') =
  mk_pt2 (ptt_of_bytes x) (Yaffs.mk_ECCOther c (le_value l) (le_value l')).
Proof.
  intros Hx Hl Hl'. do 17 (destruct x as [|? x]; try done).
  do 5 (destruct l as [|? l]; try done). by do 5 (destruct l' as [|? l']; try done).
Qed.

Lemma pt2_bytes_bytes pt : bytes 28 (pt2_bytes pt).
Proof.
  unfold pt2_bytes. destruct (ptt_bytes_bytes (pt2_t pt)) as [H1 F1].
  destruct (le_bytes_bytes 4 (Yaffs.lineParity (pt2_ecc pt))) as [H2 F2].
  destruct (le_bytes_bytes 4 (Yaffs.lineParityPrime (pt2_ecc pt))) as [H3 F3].
  split; [rewrite !length_app, H1, H2, H3; done|]. apply Forall_app_2; [done|].
  apply Forall_app_2; [|by apply Forall_app_2].
  apply Forall_cons_2; [by apply wrap_in|]. do 3 (apply Forall_cons_2; [done|]). by apply Forall_nil_2.
Qed.

Lemma pt2_flip_tags pt k b :
  other_ok (pt2_ecc pt) -> (k < 16)%nat -> (b < 8)%nat -> pt2_of_bytes (flip (pt2_bytes pt) k b) = damaged pt k b.
Proof.
  intros (H1 & H2 & H3) Hk Hb. unfold pt2_bytes, damaged. pose proof (ptt_bytes_bytes (pt2_t pt)) as Hp.
  rewrite flip_app by (destruct Hp; lia).
  rewrite pt2_of_bytes_app by (try apply le_bytes_bytes; by apply flip_bytes).
  rewrite !(le_value_bytes 4) by done. unfold u8. rewrite wrap_small by done. by destruct (pt2_ecc pt).
Qed.

Lemma pt2_clean pt : ptt_ok (pt2_t pt) -> other_ok (pt2_ecc pt) -> pt2_of_bytes (pt2_bytes pt) = pt.
Proof.
  intros Hp (H1 & H2 & H3). unfold pt2_bytes.
  rewrite pt2_of_bytes_app by (try apply le_bytes_bytes; apply ptt_bytes_bytes).
  rewrite ptt_bytes_of_bytes, !(le_value_bytes 4) by done. unfold u8. rewrite wrap_small by done.
  by destruct pt as [? []].
Qed.

Lemma flip_word v k b :
  in_w 32 v -> (k < 4)%nat -> (b < 8)%nat ->
  length (flip (le_bytes 4 v) k b) = 4%nat /\
  le_value (flip (le_bytes 4 v) k b) = Z.lxor v (2 ^ (8 * Z.of_nat k + Z.of_nat b)).
Proof.
  intros Hv Hk Hb. split; [by apply flip_bytes; [apply le_bytes_bytes|..]|].
  rewrite (le_value_flip 4) by (done || apply le_bytes_bytes). by rewrite (le_value_bytes 4).
Qed.

Lemma pt2_flip_ecc pt k b :
  ptt_ok (pt2_t pt) -> other_ok (pt2_ecc pt) -> (16 <= k < 28)%nat -> (b < 8)%nat ->
  pt2_of_bytes (flip (pt2_bytes pt) k b) = mk_pt2 (pt2_t pt) (ecc_damage k b (pt2_ecc pt)).
Proof.
  intros Hp (H1 & H2 & H3) Hk Hb. unfold pt2_bytes.
  destruct (ptt_bytes_bytes (pt2_t pt)) as [Hlen _]. pose proof (le_bytes_bytes 4) as Hle.
  rewrite flip_app_r, Hlen by lia. destruct pt as [p [c l l']].
  cbn [pt2_t pt2_ecc Yaffs.colParity Yaffs.lineParity Yaffs.lineParityPrime ecc_damage] in *.
  assert (u8 (Z.lxor c (2 ^ Z.of_nat b)) = Z.lxor c (2 ^ Z.of_nat b)) as Hc8.
  { apply wrap_small, in_w_lxor; (done || by apply byte_pow). }
  replace (u8 c) with c by (symmetry; by apply wrap_small).
  destruct (decide (k < 20)%nat) as [H20|H20].
  - rewrite flip_app by (simpl; lia).
    assert (k = 16 \/ k = 17 \/ k = 18 \/ k = 19)%nat as Hc by lia.
    destruct Hc as [-> | [-> | [-> | ->]]]; cbn [Nat.sub];
      unfold flip, xor_at; rewrite Nat2Z.id; cbn [lookup list_lookup insert list_insert];
      rewrite pt2_of_bytes_app, ptt_bytes_of_bytes, !(le_value_bytes 4) by (done || apply Hle);
      by rewrite ?Nat2Z.id, ?Hc8.
  - rewrite (flip_app_r [c; 0; 0; 0]) by (simpl; lia). cbn [length].
    rewrite !bool_decide_false by lia.
    destruct (decide (k < 24)%nat) as [H24|H24].
    + rewrite bool_decide_true by lia. rewrite flip_app by (rewrite (proj1 (Hle l)); lia).
      destruct (flip_word l (k - 16 - 4) b) as [E1 E2]; [done|lia|done|].
      rewrite pt2_of_bytes_app by (done || apply ptt_bytes_bytes || apply Hle).
      rewrite E2, ptt_bytes_of_bytes, (le_value_bytes 4) by done.
      by replace (k - 16 - 4)%nat with (k - 20)%nat by lia.
    + rewrite bool_decide_false by lia. rewrite flip_app_r, (proj1 (Hle l)) by (rewrite (proj1 (Hle l)); lia).
      destruct (flip_word l' (k - 16 - 4 - 4) b) as [E1 E2]; [done|lia|done|].
      rewrite pt2_of_bytes_app by (done || apply ptt_bytes_bytes || apply Hle).
      rewrite E2, ptt_bytes_of_bytes, (le_value_bytes 4) by done.
      by replace (k - 16 - 4 - 4)%nat with (k - 24)%nat by lia.
Qed.

(** A flipped bit of the code is recognised as one. *)
Definition one_delta (c l l' : Z) : bool :=
  negb (Z.lor (Z.lor c l) l' =? 0) && negb (l =? not_w 32 l') &&
  (Yaffs.yaffs_CountBits32 l + Yaffs.yaffs_CountBits32 l' + Yaffs.yaffs_CountBits c =? 1).

Lemma one_delta_bits :
  forallb (fun i => one_delta 0 (2 ^ Z.of_nat i) 0 && one_delta 0 0 (2 ^ Z.of_nat i)) (seq 0 32) &&
  forallb (fun i => one_delta (2 ^ Z.of_nat i) 0 0) (seq 0 8) = true.
Proof. vm_compute. reflexivity. Qed.

Lemma one_delta_correct data n c l l' e :
  one_delta c l l' = true ->
  Yaffs.yaffs_ECCCorrectOther data n
    (Yaffs.mk_ECCOther (Z.lxor (Yaffs.colParity e) c) (Z.lxor (Yaffs.lineParity e) l)
       (Z.lxor (Yaffs.lineParityPrime e) l')) e = (1, data, e).
Proof.
  intros H. unfold one_delta in H. rewrite !andb_true_iff, !negb_true_iff in H. destruct H as [[Ha Hb] Hc].
  unfold Yaffs.yaffs_ECCCorrectOther. cbn [Yaffs.colParity Yaffs.lineParity Yaffs.lineParityPrime].
  rewrite !(Z.lxor_comm _ c), !(Z.lxor_comm _ l), !(Z.lxor_comm _ l'), !Z.lxor_assoc, !Z.lxor_nilpotent, !Z.lxor_0_r.
  by rewrite Ha, Hb, Hc.
Qed.

Lemma CorrectOther_ecc data n e k b :
  (16 <= k < 28)%nat -> (b < 8)%nat ->
  Yaffs.yaffs_ECCCorrectOther data n (ecc_damage k b e) e =
  (if bool_decide (17 <= k < 20)%nat then 0 else 1, data, e).
Proof.
  intros Hk Hb. pose proof one_delta_bits as H. apply andb_true_iff in H as [H32 H8].
  rewrite forallb_forall in H32, H8.
  assert (forall i, (i < 32)%nat -> one_delta 0 (2 ^ Z.of_nat i) 0 = true /\ one_delta 0 0 (2 ^ Z.of_nat i) = true) as H.
  { intros i Hi. apply andb_true_iff, H32, in_seq. lia. }
  destruct e as [c l l'] eqn:He. cbn [ecc_damage]. repeat case_bool_decide; try lia.
  - rewrite <- (Z.lxor_0_r l) at 1. rewrite <- (Z.lxor_0_r l') at 1.
    apply (one_delta_correct data n _ 0 0 (Yaffs.mk_ECCOther c l l')), H8, in_seq. lia.
  - apply CorrectOther_clean.
  - rewrite <- (Z.lxor_0_r c) at 1. rewrite <- (Z.lxor_0_r l') at 1.
    replace (8 * Z.of_nat (k - 20) + Z.of_nat b) with (Z.of_nat (8 * (k - 20) + b)) by lia.
    apply (one_delta_correct data n 0 _ 0 (Yaffs.mk_ECCOther c l l')), H. lia.
  - rewrite <- (Z.lxor_0_r c) at 1. rewrite <- (Z.lxor_0_r l) at 1.
    replace (8 * Z.of_nat (k - 24) + Z.of_nat b) with (Z.of_nat (8 * (k - 24) + b)) by lia.
    apply (one_delta_correct data n 0 0 _ (Yaffs.mk_ECCOther c l l')), H. lia.
Qed.

(** What the error correction reports for a flipped bit of the stored tags. *)
Definition tags2_result (err : option (nat * nat)) : yaffs_ECCResult :=
  match err with
  | Some (k, _) => if bool_decide (17 <= k < 20)%nat then YAFFS_ECC_RESULT_NO_ERROR else YAFFS_ECC_RESULT_FIXED
  | None => YAFFS_ECC_RESULT_NO_ERROR
  end.

Lemma UnpackTags2_ecc pt0 t k b :
  tags2_ok t -> (16 <= k < 28)%nat -> (b < 8)%nat ->
  let pt := yaffs_PackTags2 false pt0 t in
  fst (yaffs_UnpackTags2 false (mk_pt2 (pt2_t pt) (ecc_damage k b (pt2_ecc pt)))) =
  tags2_view (tags2_result (Some (k, b))) t.
Proof.
  intros Hok Hk Hb pt. unfold pt, yaffs_UnpackTags2, yaffs_PackTags2. cbn [pt2_t pt2_ecc].
  pose proof (ok_seq t Hok). rewrite PackTags2_sequence.
  replace (sequenceNumber t =? 0xFFFFFFFF) with false by lia. cbn [negb andb].
  rewrite CorrectOther_ecc by done. rewrite ptt_bytes_of_bytes by (by apply PackTags2_ok). cbn [pt2_t fst tags2_result].
  case_bool_decide; cbn [Z.eqb]; by apply UnpackTags2_result.
Qed.

(** The bytes that are stored for the tags [t]. *)
Definition stored2 (noTagsECC : bool) (t : yaffs_ExtendedTags) : list Z :=
  let pt := yaffs_PackTags2 noTagsECC (mk_pt2 (mk_ptt 0 0 0 0) (Yaffs.mk_ECCOther 0 0 0)) t in
  if noTagsECC then ptt_bytes (pt2_t pt) else pt2_bytes pt.

Definition stored2_size (noTagsECC : bool) : nat := if noTagsECC then 16 else 28.

Lemma stored2_bytes noTagsECC t : bytes (stored2_size noTagsECC) (stored2 noTagsECC t).
Proof. destruct noTagsECC; [apply ptt_bytes_bytes|apply pt2_bytes_bytes]. Qed.

(** Without the code no bit may flip; with it, one of the stored bits may. *)
Definition covered2 (noTagsECC : bool) (err : option (nat * nat)) : Prop :=
  forall k b, err = Some (k, b) -> noTagsECC = false /\ (k < 28)%nat /\ (b < 8)%nat.

Lemma unpack_stored2 noTagsECC t err :
  tags2_ok t -> covered2 noTagsECC err ->
  fst (yaffs_UnpackTags2 noTagsECC (pt2_of_bytes (decay err (stored2 noTagsECC t)))) = tags2_view (tags2_result err) t.
Proof.
  intros Hok He. pose proof (PackTags2_ok t Hok) as Hp. unfold stored2.
  set (pt0 := mk_pt2 (mk_ptt 0 0 0 0) (Yaffs.mk_ECCOther 0 0 0)).
  assert (other_ok (pt2_ecc (yaffs_PackTags2 false pt0 t))) as Ho by apply CalculateOther_ok.
  destruct err as [[k b]|]; cbn [decay].
  - destruct (He k b eq_refl) as (-> & Hk & Hb). destruct (decide (k < 16)%nat) as [Hlt|Hge].
    + rewrite pt2_flip_tags by done. rewrite UnpackTags2_flip by done. cbn [fst tags2_result].
      by rewrite bool_decide_false by lia.
    + rewrite pt2_flip_ecc by (done || lia). apply UnpackTags2_ecc; (done || lia).
  - destruct noTagsECC.
    + set (pt := pt2_of_bytes _). assert (pt = yaffs_PackTags2 true pt t) as E.
      { unfold pt, pt2_of_bytes, yaffs_PackTags2. cbn [pt2_t pt2_ecc]. by rewrite ptt_bytes_of_bytes. }
      rewrite E. by rewrite UnpackTags2_clean.
    + rewrite pt2_clean by done. by rewrite UnpackTags2_clean.
Qed.

(** ** YAFFS2 *)

Section Yaffs2.
Context {mtd : Type} `{!MtdOps mtd} `{!MtdMedium mtd}.

Implicit Types dev : yaffs_Device mtd.

Lemma write2_chunk dev c d t dev' rest :
  let a := c * totalBytesPerChunk dev in
  nandmtd2_WriteChunkWithTagsToNAND dev c (Some d) (Some t) = Some (YAFFS_OK, dev') ->
  inbandTags dev = false -> bytes (Z.to_nat (totalBytesPerChunk dev)) d ->
  page_data (genericDevice dev) a = replicate (length d) 255 ->
  page_oob (genericDevice dev) a = replicate (stored2_size (noTagsECC dev)) 255 ++ rest ->
  exists m, dev' = dev <| genericDevice := m |> /\ page_data m a = d /\
            page_oob m a = stored2 (noTagsECC dev) t ++ rest.
Proof.
  intros a Hw Hib Hd Hpd Hpo. unfold nandmtd2_WriteChunkWithTagsToNAND in Hw.
  cbn [mbind option_bind] in Hw. rewrite Hib in Hw. cbn [mbind option_bind] in Hw.
  destruct (write_oob _ _ _) as [r m] eqn:E. injection Hw as Hr <-.
  destruct (Z.eqb_spec r 0) as [->|]; [|done]. exists m. split; [done|].
  destruct (write_oob_programs _ _ _ _ E eq_refl) as [E1 E2].
  cbn [datbuf oobbuf ops_len ops_ooblen] in E1, E2. pose proof Hd as [Hn _]. fold a in E1, E2.
  rewrite take_ge in E1 by lia. split.
  - rewrite E1, Hpd, <- (app_nil_r (replicate _ _)), (program_erased (length d)), app_nil_r; [done|].
    by rewrite Hn.
  - rewrite E2, Hpo. unfold packed_tags_size, stored2_size, stored2.
    destruct (noTagsECC dev); (rewrite take_ge by (apply Nat.eq_le_incl; apply ptt_bytes_bytes || apply pt2_bytes_bytes));
      apply program_erased; (apply ptt_bytes_bytes || apply pt2_bytes_bytes).
Qed.

Definition ops2 (dev : yaffs_Device mtd) (buf : list Z) : mtd_oob_ops :=
  mk_ops MTD_OOB_AUTO (nDataBytesPerChunk dev) (packed_tags_size dev) 0 (Some buf) (Some (spareBuffer dev)).

Lemma read2_chunk dev c buf e0 t err d rest r ops' m' :
  let a := c * totalBytesPerChunk dev in
  tags2_ok t -> covered2 (noTagsECC dev) err -> inbandTags dev = false ->
  bytes (Z.to_nat (nDataBytesPerChunk dev)) d -> length buf = length d ->
  page_data (genericDevice dev) a = d ->
  page_oob (genericDevice dev) a = decay err (stored2 (noTagsECC dev) t ++ rest) ->
  read_oob (genericDevice dev) a (ops2 dev buf) = (r, ops', m') -> r = 0 \/ r = - EUCLEAN ->
  exists dev',
    nandmtd2_ReadChunkWithTagsFromNAND dev c (Some buf) (Some e0) =
      Some (if r =? 0 then YAFFS_OK else YAFFS_FAIL, Some d, Some (tags2_view (tags2_result err) t), dev') /\
    same_blocks dev dev'.
Proof.
  intros a Hok He Hib Hd Hbuf Hpd Hpo Hr Hret. unfold nandmtd2_ReadChunkWithTagsFromNAND, nandmtd2_fetch.
  rewrite Hib, bool_decide_true by done. cbn [orb andb negb]. fold (ops2 dev buf). fold a. rewrite Hr.
  destruct (read_oob_reads _ _ _ _ _ _ Hr eq_refl Hret) as [E1 E2].
  unfold ops2 in E1, E2. cbn [datbuf oobbuf ops_len ops_ooblen fmap option_fmap option_map] in E1, E2.
  pose proof Hd as [Hn _]. rewrite Hpd, take_ge, drop_ge, app_nil_r in E1 by lia.
  pose proof (stored2_bytes (noTagsECC dev) t) as Hs.
  assert (forall k b, err = Some (k, b) -> (k < stored2_size (noTagsECC dev))%nat /\ (b < 8)%nat) as He'.
  { intros k b E. destruct (He k b E) as (-> & ? & ?). done. }
  pose proof (decay_bytes _ _ err Hs He') as [Hdn _].
  assert (Z.to_nat (packed_tags_size dev) = stored2_size (noTagsECC dev)) as Hsz.
  { unfold packed_tags_size, stored2_size. by destruct (noTagsECC dev). }
  rewrite Hpo, (decay_app (stored2_size (noTagsECC dev))) in E2; [|apply Hs|intros k b E; apply (He' k b E)].
  rewrite take_app_length' in E2 by congruence.
  rewrite E1, E2. cbn [mbind option_bind]. unfold nandmtd2_unpack. dev_fields. rewrite Hib.
  rewrite take_app_length' by (unfold packed_tags_size in *; dev_fields; congruence).
  rewrite unpack_stored2 by done. cbn [mbind option_bind].
  replace (r =? - EBADMSG) with false by (destruct Hret as [-> | ->]; done). cbn [andb].
  eexists. split; [reflexivity|done].
Qed.

Context (wf : yaffs_Device mtd -> Z -> option (list Z) -> yaffs_Spare -> Z * yaffs_Device mtd).
Context (rf : yaffs_Device mtd -> Z -> option (list Z) ->
              Z * option (list Z) * yaffs_NANDSpare * yaffs_Device mtd).

(** The tags as yaffs_nand.c passes them to the driver. *)
Definition numbered (dev : yaffs_Device mtd) (t : yaffs_ExtendedTags) : yaffs_ExtendedTags :=
  t <| sequenceNumber := dev_sequenceNumber dev |> <| chunkUsed := 1 |>.

Lemma tags2_view_result res t : eccResult (tags2_view res t) = res.
Proof. unfold tags2_view. by case_match. Qed.

(** C7: A chunk written through yaffs_nand.c and the YAFFS2 MTD interface to an erased page is read
    back with its data and the tags with the sequence number of the device, also when any one
    bit of the stored tags, of their ECC or of its padding has flipped; the result is YAFFS_OK
    when the MTD driver saw no error and YAFFS_FAIL, with the same data and tags, when it
    corrected one. *)
Theorem yaffs2_chunk_survives dev c d t t1 dev1 err m buf e0 ret ops' m' rest :
  let ops := yaffs2_ops wf rf in
  let a := (c - chunkOffset dev) * totalBytesPerChunk dev in
  tags2_ok (numbered dev t) -> inbandTags dev = false -> nDataBytesPerChunk dev = totalBytesPerChunk dev ->
  bytes (Z.to_nat (nDataBytesPerChunk dev)) d ->
  page_data (genericDevice dev) a = replicate (length d) 255 ->
  page_oob (genericDevice dev) a = replicate (stored2_size (noTagsECC dev)) 255 ++ rest ->
  yaffs_WriteChunkWithTagsToNAND ops dev c (Some d) (Some t) = Some (YAFFS_OK, t1, dev1) ->
  covered2 (noTagsECC dev) err -> page_data m a = page_data (genericDevice dev1) a ->
  page_oob m a = decay err (page_oob (genericDevice dev1) a) ->
  length buf = length d ->
  read_oob m a (ops2 dev buf) = (ret, ops', m') -> ret = 0 \/ ret = - EUCLEAN ->
  is_Some (yaffs_GetBlockInfo dev (Z.quot c (nChunksPerBlock dev))) ->
  exists dev3,
    yaffs_ReadChunkWithTagsFromNAND ops (dev1 <| genericDevice := m |>) c (Some buf) (Some e0) =
      Some (if ret =? 0 then YAFFS_OK else YAFFS_FAIL, Some d, tags2_view (tags2_result err) (numbered dev t), dev3) /\
    (tags2_result err = YAFFS_ECC_RESULT_FIXED -> prioritised dev3 (Z.quot c (nChunksPerBlock dev))).
Proof.
  intros ops a Hok Hib Hgeo Hd Hpd Hpo Hw He Hmd Hmo Hbuf Hr Hret Hbi.
  unfold yaffs_WriteChunkWithTagsToNAND, ops, yaffs2_ops in Hw.
  cbn [mbind option_bind writeChunkWithTagsToNAND] in Hw. fold (numbered dev t) in Hw.
  destruct (nandmtd2_WriteChunkWithTagsToNAND _ _ _ _) as [[r dev']|] eqn:E; [|done].
  injection Hw as -> _ ->.
  destruct (write2_chunk _ _ _ _ _ rest E) as (m1 & -> & Hd1 & Ho1); [done|dev_fields; by rewrite <- Hgeo|done..|].
  change (page_data m a = page_data m1 a) in Hmd. change (page_data m1 a = d) in Hd1.
  change (page_oob m a = decay err (page_oob m1 a)) in Hmo.
  change (page_oob m1 a = stored2 (noTagsECC dev) (numbered dev t) ++ rest) in Ho1.
  rewrite Hd1 in Hmd. rewrite Ho1 in Hmo.
  set (dev2 := dev <| nPageWrites ::= Z.succ |> <| genericDevice := m |>).
  destruct (read2_chunk (dev2 <| nPageReads ::= Z.succ |>) (c - chunkOffset dev) buf e0 (numbered dev t) err d rest
    ret ops' m') as (dev' & Er & Hs); [done..|].
  destruct (nand_read ops dev2 c (Some buf) e0
    (fun dev c d t => '(res, d, t', dev) ← nandmtd2_ReadChunkWithTagsFromNAND dev c d (Some t);
                      Some (res, d, default t t', dev)) (if ret =? 0 then YAFFS_OK else YAFFS_FAIL) (Some d)
    (tags2_view (tags2_result err) (numbered dev t)) dev' eq_refl) as (dev3 & E3 & Hf).
  - change (chunkOffset dev2) with (chunkOffset dev). by rewrite Er.
  - exact Hs.
  - exact Hbi.
  - rewrite tags2_view_result. unfold tags2_result. repeat case_match; auto.
  - rewrite tags2_view_result in Hf. by exists dev3.
Qed.

End Yaffs2.

Definition demo2_ops : nand_ops flash := yaffs2_ops no_write no_read.

Definition demo2_written : yaffs_Device flash := after_write demo2_ops demo_dev (Some demo_data) demo_header.

Definition demo2_decayed : flash := decayed (genericDevice demo2_written) 40 21 3.

Lemma yaffs2_chunk_survives_witness :
  exists dev3,
    yaffs_ReadChunkWithTagsFromNAND demo2_ops (demo2_written <| genericDevice := demo2_decayed |>) 5
      (Some (replicate 8 0)) (Some etags_zero) =
      Some (YAFFS_OK, Some demo_data, tags2_view YAFFS_ECC_RESULT_FIXED (numbered demo_dev demo_header), dev3) /\
    (YAFFS_ECC_RESULT_FIXED = YAFFS_ECC_RESULT_FIXED -> prioritised dev3 0).
Proof.
  destruct (after_write_eq demo2_ops demo_dev (Some demo_data) demo_header) as [t1 E1]; [vm_compute; reflexivity|].
  eapply (yaffs2_chunk_survives no_write no_read demo_dev 5 demo_data demo_header _ demo2_written (Some (21%nat, 3%nat))
    demo2_decayed (replicate 8 0) etags_zero 0 _ _ (replicate 4 255)).
  - constructor; unfold in_w; vm_compute; intuition discriminate.
  - reflexivity.
  - reflexivity.
  - split; [done|]. repeat constructor; done.
  - reflexivity.
  - reflexivity.
  - exact E1.
  - intros k b [= <- <-]. split_and!; [reflexivity|lia..].
  - apply decayed_data.
  - apply decayed_oob.
  - reflexivity.
  - reflexivity.
  - left. reflexivity.
  - by eexists.
Defined.

(** ** yaffs_tagscompat.c over yaffs_mtdif.c *)

Definition tag_bytes (sp : yaffs_Spare) : list Z :=
  [tagByte0 sp; tagByte1 sp; tagByte2 sp; tagByte3 sp; tagByte4 sp; tagByte5 sp; tagByte6 sp; tagByte7 sp].

(** Tags that fit their fields; with chunks of 1024 bytes and more there are two further bits
    for the number of bytes. *)
Record compat_ok (n : Z) (t : yaffs_ExtendedTags) : Prop := {
  okc_chunk : in_w 20 (chunkId t);
  okc_serial : in_w 2 (serialNumber t);
  okc_count : in_w (if 1024 <=? n then 12 else 10) (byteCount t);
  okc_object : in_w 18 (objectId t);
  okc_live : chunkDeleted t = 0
}.

(** The tags before their code is added. *)
Definition compat_tags (n : Z) (t : yaffs_ExtendedTags) : Z :=
  bf_put tag_serialNumber (serialNumber t)
    (bf_put tag_byteCountMSB (if 1024 <=? n then Z.land (Z.shiftr (byteCount t) 10) 3 else 3)
      (bf_put tag_byteCountLSB (Z.land (byteCount t) 0x3ff)
        (bf_put tag_chunkId (chunkId t) (bf_put tag_objectId (objectId t) 0)))).

(** The number of bytes in tags that were read. *)
Definition count_read (n u : Z) : Z :=
  if 1024 <=? n then Z.lor (bf_get tag_byteCountLSB u) (Z.shiftl (bf_get tag_byteCountMSB u) 10)
  else bf_get tag_byteCountLSB u.

Lemma join_count c :
  in_w 12 c -> Z.lor (Z.land c 1023) (Z.shiftl (Z.land (Z.land (Z.shiftr c 10) 3) 3) 10) = c.
Proof.
  intros Hc. change 1023 with (Z.ones 10). change 3 with (Z.ones 2). apply Z.bits_inj'. intros i Hi.
  rewrite Z.lor_spec, Z.shiftl_spec, !Z.land_spec, ones_testbit by lia.
  destruct (Z.ltb_spec i 10) as [|Hge].
  - rewrite (Z.testbit_neg_r _ (i - 10)) by lia. by rewrite andb_true_r, orb_false_r.
  - rewrite Z.shiftr_spec, ones_testbit, andb_false_r by lia. replace (i - 10 + 10) with i by lia.
    destruct (Z.ltb_spec (i - 10) 2); rewrite ?andb_true_r, ?andb_false_r; [done|].
    symmetry. apply (in_w_testbit 12); [done|lia].
Qed.

Lemma compat_tags_fields n t :
  compat_ok n t ->
  let u := yaffs_CalcTagsECC (compat_tags n t) in
  in_w 64 u /\ bf_get tag_chunkId u = chunkId t /\ bf_get tag_serialNumber u = serialNumber t /\
  count_read n u = byteCount t /\ bf_get tag_objectId u = objectId t.
Proof.
  intros [] u. unfold u. split.
  { apply CalcTagsECC_in. unfold compat_tags. by repeat apply bf_put_in. }
  unfold compat_tags, count_read. split_and!; bf_fields; try (apply land_ones_small; [simpl; lia|done]).
  change (Z.ones (bf_width tag_byteCountLSB)) with 1023. change (Z.ones (bf_width tag_byteCountMSB)) with 3.
  rewrite <- (Z.land_assoc (byteCount t)). change (Z.land 1023 1023) with 1023.
  destruct (1024 <=? n); [by apply join_count|]. change 1023 with (Z.ones 10). by apply land_ones_small.
Qed.

Lemma load_tag_bytes sp v : tag_bytes (yaffs_LoadTagsIntoSpare sp v) = le_bytes 8 (yaffs_CalcTagsECC v).
Proof. unfold yaffs_LoadTagsIntoSpare. cbv zeta. generalize (yaffs_CalcTagsECC v). reflexivity. Qed.

(** The bytes that are stored for the bytes of the tags, and after the chunk was marked deleted:
    the two upper bits of the byte 5 are those of the block and of the page status. *)
Definition stored_oob (del : bool) (l : list Z) : list Z :=
  alter (fun b => Z.lor (Z.lor (Z.land b 0x3f) 0x80) (if del then 0 else 0x40)) 5%nat l.

Lemma stored_bytes del l : bytes 8 l -> bytes 8 (stored_oob del l).
Proof.
  intros [Hn F]. unfold stored_oob. split; [by rewrite length_alter|]. apply Forall_alter; [done|].
  intros b _ Hb. repeat apply in_w_lor; try by destruct del. change 0x3f with (Z.ones 6).
  rewrite Z.land_ones by done. unfold in_w. pose proof (Z.mod_pos_bound b (2 ^ 6)). lia.
Qed.

(** Which of these two bits of the byte are wrong when they are read back. *)
Definition wrong (del : bool) (b i : Z) : bool := xorb (Z.testbit b i) (negb del && (Z.land b 0x3f =? 0x3f)).

Definition wrong_at (del : bool) (b : Z) (i : nat) : option (nat * nat) :=
  if wrong del b (Z.of_nat i) then Some (5, i)%nat else None.

Definition byte5_ok (del : bool) (b : Z) : bool :=
  let o := Z.lor (Z.lor (Z.land b 0x3f) 0x80) (if del then 0 else 0x40) in
  ((if o =? 0xff then 0xff else Z.land o 0x3f) =?
   Z.lxor (Z.lxor b (if wrong del b 6 then 64 else 0)) (if wrong del b 7 then 128 else 0)) &&
  tst o 0x80 && Bool.eqb (tst o 0x40) (negb del).

Lemma byte5_all del b : in_w 8 b -> byte5_ok del b = true.
Proof.
  intros Hb. assert (forallb (byte5_ok del) (seqZ 0 256) = true) as H by (by destruct del; vm_compute).
  rewrite forallb_forall in H. apply H, list_elem_of_In, elem_of_seqZ. unfold in_w in Hb. lia.
Qed.

Lemma flip_5 x0 x1 x2 x3 x4 x5 x6 x7 i :
  flip [x0; x1; x2; x3; x4; x5; x6; x7] 5 i = [x0; x1; x2; x3; x4; u8 (Z.lxor x5 (2 ^ Z.of_nat i)); x6; x7].
Proof. reflexivity. Qed.

Lemma translated_back del l b :
  bytes 8 l -> l !! 5%nat = Some b ->
  exists sp, translate_oob2spare (stored_oob del l) = mk_nspare sp 0 0 /\
    tag_bytes sp = decay (wrong_at del b 7) (decay (wrong_at del b 6) l) /\
    pageStatus sp = (if del then 0 else 255).
Proof.
  intros [Hn F] Hl. do 9 (destruct l as [|? l]; try done). injection Hl as ->.
  assert (in_w 8 b) as Hb by (by apply (Forall_lookup_1 _ _ 5%nat b F)).
  pose proof (byte5_all del b Hb) as H. unfold byte5_ok in H. rewrite !andb_true_iff in H. destruct H as [[H5 H8] H4].
  apply Z.eqb_eq in H5. apply Bool.eqb_prop in H4. unfold stored_oob, translate_oob2spare, wrong_at.
  change (Z.of_nat 6) with 6. change (Z.of_nat 7) with 7.
  eexists. split; [reflexivity|]. unfold tag_bytes, tab.
  change (Z.to_nat 0) with 0%nat. change (Z.to_nat 1) with 1%nat. change (Z.to_nat 2) with 2%nat.
  change (Z.to_nat 3) with 3%nat. change (Z.to_nat 4) with 4%nat. change (Z.to_nat 5) with 5%nat.
  change (Z.to_nat 6) with 6%nat. change (Z.to_nat 7) with 7%nat.
  cbn [alter list_alter lookup list_lookup default from_option id pageStatus tagByte0 tagByte1 tagByte2
       tagByte3 tagByte4 tagByte5 tagByte6 tagByte7].
  rewrite H5, H4. split; [|by destruct del].
  destruct (wrong del b 6), (wrong del b 7); rewrite ?Z.lxor_0_r; cbn [decay]; rewrite ?flip_5; try done;
    change (2 ^ Z.of_nat 6) with 64; change (2 ^ Z.of_nat 7) with 128;
    unfold u8; by rewrite !wrap_small by (repeat apply in_w_lxor; (done || (by apply wrap_in) || (unfold in_w; lia))).
Qed.

Lemma translate_loaded v :
  translate_spare2oob (yaffs_LoadTagsIntoSpare yaffs_SpareInitialise v) =
  stored_oob false (le_bytes 8 (yaffs_CalcTagsECC v)).
Proof. unfold yaffs_LoadTagsIntoSpare. cbv zeta. generalize (yaffs_CalcTagsECC v). reflexivity. Qed.

(** The spare with which a chunk is marked deleted. *)
Definition deleted_spare : yaffs_Spare := yaffs_SpareInitialise <| pageStatus := 0 |>.

Lemma stored_deleted l :
  bytes 8 l -> zip_with Z.land (stored_oob false l) (translate_spare2oob deleted_spare) = stored_oob true l.
Proof.
  intros [Hn F]. do 9 (destruct l as [|? l]; try done).
  repeat match goal with H : Forall _ (_ :: _) |- _ => apply Forall_cons_1 in H as [? H] end.
  change (translate_spare2oob deleted_spare) with [255; 255; 255; 255; 255; 191; 255; 255].
  unfold stored_oob. cbn [alter list_alter zip_with]. change 255 with (Z.ones 8).
  repeat apply (f_equal2 cons); try done; try by apply (land_ones_small 8).
  rewrite Z.lor_0_r, !Z.land_lor_distr_l, <- Z.land_assoc.
  change (Z.land 0x3f 191) with 0x3f. by rewrite Z.lor_0_r.
Qed.

(** The bits of the tags that hold the byte 5 of them. *)
Lemma byte5_object u : asBytes u 5 = u8 (Z.shiftr (bf_get tag_objectId u) 8).
Proof.
  unfold asBytes, u8. apply Z.bits_inj'. intros i Hi. rewrite !wrap_testbit by lia.
  destruct (Z.ltb_spec i 8); [|done]. rewrite !Z.shiftr_spec, bf_get_testbit by (simpl; lia).
  cbn [bf_pos bf_width tag_objectId]. replace (i + 8 <? 18) with true by lia. cbn [andb]. f_equal. lia.
Qed.

(** Two wrong bits, the 14th and the 15th of the object number, are taken for an error of
    another bit. *)
Lemma CheckECCOnTags_double v :
  let u := yaffs_CalcTagsECC v in
  exists w, yaffs_CheckECCOnTags (Z.lxor (Z.lxor u (2 ^ 46)) (2 ^ 47)) = (1, w) /\
            Z.testbit (bf_get tag_objectId w) 14 = negb (Z.testbit (bf_get tag_objectId u) 14).
Proof.
  intros u. set (w := Z.lxor _ (2 ^ 47)). rewrite (CheckECCOnTags_diff w 31); [| |done].
  - change (31 <=? 64) with true. change (31 - 1) with 30. eexists. split; [reflexivity|].
    assert (forall x, Z.testbit (bf_get tag_objectId x) 14 = Z.testbit x 46) as Hg.
    { intros x. by rewrite bf_get_testbit by (simpl; lia). }
    rewrite get_CalcTagsECC_other, !Hg, Z.lxor_spec by (simpl; lia).
    rewrite <- (Hg (yaffs_CalcTagsECC w)), get_CalcTagsECC_other, Hg by (simpl; lia). unfold w.
    rewrite !Z.lxor_spec. change (Z.testbit (2 ^ 46) 46) with true. change (Z.testbit (2 ^ 47) 46) with false.
    change (Z.testbit (2 ^ 30) 46) with false. by rewrite !xorb_false_r, xorb_true_r.
  - unfold w. rewrite !get_ecc_flip, get_CalcTagsECC, !put_ecc_flip, !tags_code_lxor, !tags_code_bit by lia.
    rewrite <- get_CalcTagsECC. unfold u. rewrite CalcTagsECC_idem, Z.lxor_assoc, lxor_cancel_l. reflexivity.
Qed.

(** Whether both of these bits of the object number are wrong when the tags are read back. *)
Definition lost (del : bool) (id : Z) : bool :=
  let b := u8 (Z.shiftr id 8) in wrong del b 6 && wrong del b 7.

Lemma tags_read v del :
  let u := yaffs_CalcTagsECC v in
  let w := le_value (decay (wrong_at del (asBytes u 5) 7) (decay (wrong_at del (asBytes u 5) 6) (le_bytes 8 u))) in
  in_w 64 u ->
  Z.testbit w 57 = false /\
  exists r u', yaffs_CheckECCOnTags w = (r, u') /\
    if lost del (bf_get tag_objectId u) then bf_get tag_objectId u' <> bf_get tag_objectId u else u' = u.
Proof.
  intros u w Hu. unfold lost. rewrite <- byte5_object.
  assert (w = Z.lxor (Z.lxor u (err_bit (wrong_at del (asBytes u 5) 6))) (err_bit (wrong_at del (asBytes u 5) 7))) as ->.
  { unfold w. assert (forall i k b, (i < 8)%nat -> wrong_at del (asBytes u 5) i = Some (k, b) -> (k < 8)%nat /\ (b < 8)%nat) as H.
    { intros i k b Hi. unfold wrong_at. destruct (wrong _ _ _); [|done]. intros [= <- <-]. lia. }
    rewrite (le_value_decay 8), (le_value_decay 8), (le_value_bytes 8); try done; try apply le_bytes_bytes;
      try apply decay_bytes; try apply le_bytes_bytes; intros; eapply H; try done; lia. }
  pose proof (CalcTagsECC_57 v) as H57. fold u in H57. unfold wrong_at. change (Z.of_nat 6) with 6. change (Z.of_nat 7) with 7.
  destruct (wrong del (asBytes u 5) 6), (wrong del (asBytes u 5) 7); cbn [err_bit andb];
    change (8 * Z.of_nat 5 + Z.of_nat 6) with 46; change (8 * Z.of_nat 5 + Z.of_nat 7) with 47;
    rewrite !Z.lxor_spec, H57; (split; [reflexivity|]); rewrite ?Z.lxor_0_r.
  - destruct (CheckECCOnTags_double v) as (u' & E & Hb). eexists _, u'. split; [exact E|]. intros E'.
    fold u in Hb. rewrite E' in Hb. by destruct (Z.testbit _ 14).
  - eexists _, u. split; [|done]. by apply CheckECCOnTags_corrects; lia.
  - eexists _, u. split; [|done]. by apply CheckECCOnTags_corrects; lia.
  - eexists _, u. split; [|done]. apply CheckECCOnTags_clean.
Qed.

Section Compat.
Context {mtd : Type} `{!MtdOps mtd} `{!MtdMedium mtd}.

(** The bytes of the local buffer before anything is stored there, and those of the caller's spare. *)
Context (stack : list Z) (unset : yaffs_NANDSpare).

Implicit Types dev : yaffs_Device mtd.

(** The spare that is written for a chunk. *)
Definition compat_spare (n : Z) (t : yaffs_ExtendedTags) : yaffs_Spare :=
  if truthy (chunkDeleted t) then deleted_spare else yaffs_LoadTagsIntoSpare yaffs_SpareInitialise (compat_tags n t).

Lemma compat_write dev c data t t1 dev1 :
  useNANDECC dev = true ->
  yaffs_WriteChunkWithTagsToNAND (compat_ops stack unset) dev c data (Some t) = Some (YAFFS_OK, t1, dev1) ->
  exists m, dev1 = dev <| nPageWrites ::= Z.succ |> <| genericDevice := m |> /\
    write_oob (genericDevice dev) ((c - chunkOffset dev) * nDataBytesPerChunk dev)
      (spare_ops dev (translate_spare2oob (compat_spare (nDataBytesPerChunk dev) t)) data) = (0, m).
Proof using Type.
  intros Hecc. unfold yaffs_WriteChunkWithTagsToNAND, compat_ops. cbn [mbind option_bind writeChunkWithTagsToNAND
    writeChunkToNAND]. unfold yaffs_TagsCompatabilityWriteChunkWithTagsToNAND, yaffs_WriteChunkToNAND.
  change (truthy (chunkDeleted (t <| sequenceNumber := _ |> <| chunkUsed := 1 |>))) with (truthy (chunkDeleted t)).
  set (sp := if truthy (chunkDeleted t) then _ else _).
  assert (sp = compat_spare (nDataBytesPerChunk dev) t) as ->.
  { unfold sp, compat_spare. destruct (truthy (chunkDeleted t)); [reflexivity|].
    change (useNANDECC (dev <| nPageWrites ::= Z.succ |>)) with (useNANDECC dev). rewrite Hecc. by destruct data. }
  destruct (_ <? _); [done|]. unfold nandmtd_WriteChunkToNAND.
  change (useNANDECC (dev <| nPageWrites ::= Z.succ |>)) with (useNANDECC dev). rewrite Hecc.
  change (spare_ops (dev <| nPageWrites ::= Z.succ |>)) with (spare_ops dev).
  change (genericDevice (dev <| nPageWrites ::= Z.succ |>)) with (genericDevice dev).
  change (nDataBytesPerChunk (dev <| nPageWrites ::= Z.succ |>)) with (nDataBytesPerChunk dev).
  change (chunkOffset (dev <| nPageWrites ::= Z.succ |>)) with (chunkOffset dev).
  destruct (write_oob _ _ _) as [r m]. cbn [mbind option_bind].
  destruct (Z.eqb_spec r 0) as [->|]; [|done]. intros [= _ <-]. by exists m.
Qed.

(** A page with the data [d] and the spare bytes that hold the tags. *)
Definition holds_compat (m : mtd) (a : Z) (d : list Z) (del : bool) (u : Z) (rest : list Z) : Prop :=
  page_data m a = d /\ page_oob m a = stored_oob del (le_bytes 8 u) ++ rest.

Lemma compat_write_live dev c d t t1 dev1 rest :
  let a := (c - chunkOffset dev) * nDataBytesPerChunk dev in
  useNANDECC dev = true -> chunkDeleted t = 0 -> bytes (Z.to_nat (nDataBytesPerChunk dev)) d ->
  page_data (genericDevice dev) a = replicate (length d) 255 ->
  page_oob (genericDevice dev) a = replicate 8 255 ++ rest ->
  yaffs_WriteChunkWithTagsToNAND (compat_ops stack unset) dev c (Some d) (Some t) = Some (YAFFS_OK, t1, dev1) ->
  exists m, dev1 = dev <| nPageWrites ::= Z.succ |> <| genericDevice := m |> /\
    holds_compat m a d false (yaffs_CalcTagsECC (compat_tags (nDataBytesPerChunk dev) t)) rest.
Proof.
  intros a Hecc Hdel Hd Hpd Hpo Hw. destruct (compat_write _ _ _ _ _ _ Hecc Hw) as (m & -> & E).
  exists m. split; [done|]. unfold compat_spare, spare_ops in E. rewrite Hdel, Hecc in E.
  cbn [truthy negb Z.eqb] in E. rewrite translate_loaded in E. fold a in E.
  destruct (write_oob_programs _ _ _ _ E eq_refl) as [E1 E2].
  cbn [datbuf oobbuf ops_len ops_ooblen] in E1, E2. pose proof Hd as [Hn _].
  pose proof (stored_bytes false _ (le_bytes_bytes 8 (yaffs_CalcTagsECC (compat_tags (nDataBytesPerChunk dev) t)))) as Hs.
  rewrite take_ge in E1, E2 by (rewrite ?Hn; done || apply Nat.eq_le_incl, Hs). split.
  - rewrite E1, Hpd, <- (app_nil_r (replicate _ _)), (program_erased (length d)), app_nil_r; [done|]. by rewrite Hn.
  - rewrite E2, Hpo. by apply program_erased.
Qed.

Lemma compat_write_delete dev c t t1 dev1 d u rest :
  let a := (c - chunkOffset dev) * nDataBytesPerChunk dev in
  useNANDECC dev = true -> chunkDeleted t = 1 -> holds_compat (genericDevice dev) a d false u rest ->
  yaffs_WriteChunkWithTagsToNAND (compat_ops stack unset) dev c None (Some t) = Some (YAFFS_OK, t1, dev1) ->
  exists m, dev1 = dev <| nPageWrites ::= Z.succ |> <| genericDevice := m |> /\ holds_compat m a d true u rest.
Proof.
  intros a Hecc Hdel [Hpd Hpo] Hw. destruct (compat_write _ _ _ _ _ _ Hecc Hw) as (m & -> & E).
  exists m. split; [done|]. unfold compat_spare, spare_ops in E. rewrite Hdel, Hecc in E.
  cbn [truthy negb Z.eqb] in E. fold a in E. destruct (write_oob_programs _ _ _ _ E eq_refl) as [E1 E2].
  cbn [datbuf oobbuf ops_len ops_ooblen] in E1, E2. rewrite take_ge in E2 by done.
  pose proof (stored_bytes false _ (le_bytes_bytes 8 u)) as [Hs _].
  split; [by rewrite E1|]. by rewrite E2, Hpo, (program_app 8), stored_deleted by (done || apply le_bytes_bytes).
Qed.

Lemma spare_in_use sp : Z.testbit (le_value (tag_bytes sp)) 57 = false -> sp <> yaffs_SpareInitialise.
Proof using Type. by intros E ->. Qed.

(** What yaffs_tagscompat.c makes of a spare that was read without an error in the data. *)
Lemma compat_tags_read (rf : yaffs_Device mtd -> Z -> option (list Z) ->
                             Z * option (list Z) * yaffs_NANDSpare * yaffs_Device mtd)
    dev c buf e0 d sp dev1 n (del : bool) r u t :
  rf dev c (Some buf) = (YAFFS_OK, Some d, mk_nspare sp 0 0, dev1) ->
  useNANDECC dev1 = true -> nDataBytesPerChunk dev1 = n ->
  pageStatus sp = (if del then 0 else 255) -> sp <> yaffs_SpareInitialise ->
  yaffs_CheckECCOnTags (le_value (tag_bytes sp)) = (r, u) ->
  exists dev2 tg,
    yaffs_TagsCompatabilityReadChunkWithTagsFromNAND rf dev c (Some buf) (Some e0) = Some (YAFFS_OK, Some d, Some tg, dev2) /\
    tg = tags1_view e0 YAFFS_ECC_RESULT_NO_ERROR del
           (t <| chunkId := bf_get tag_chunkId u |> <| serialNumber := bf_get tag_serialNumber u |>
              <| byteCount := count_read n u |> <| objectId := bf_get tag_objectId u |>).
Proof using Type.
  intros Hr Hecc Hn Hps Hused Ec. unfold yaffs_TagsCompatabilityReadChunkWithTagsFromNAND, yaffs_ReadChunkFromNAND.
  rewrite Hr, Hecc. cbn [nspare_spare eccres1 eccres2 negb truthy Z.eqb orb mbind option_bind YAFFS_OK].
  rewrite Hps, bool_decide_false by done. cbn [chunkUsed truthy Z.eqb negb].
  replace (if tags_CountBits (if del then 0 else 255) <? 7 then 1 else 0) with (b2z del) by (by destruct del).
  unfold yaffs_GetTagsFromSpare. fold (tag_bytes sp). rewrite Ec.
  set (dev5 := if 0 <? _ then _ else _).
  assert (nDataBytesPerChunk dev5 = n) as ->.
  { unfold dev5. by destruct (0 <? r), (r <? 0). }
  eexists dev5, _. split; [reflexivity|]. unfold count_read.
  destruct e0, (1024 <=? n); reflexivity.
Qed.

Lemma compat_read dev c buf e0 n t del d rest ops' m' :
  let a := (c - chunkOffset dev) * nDataBytesPerChunk dev in
  useNANDECC dev = true -> nDataBytesPerChunk dev = n -> compat_ok n t ->
  bytes (Z.to_nat n) d -> length buf = length d -> length stack = 8%nat ->
  holds_compat (genericDevice dev) a d del (yaffs_CalcTagsECC (compat_tags n t)) rest ->
  read_oob (genericDevice dev) a (spare_ops dev stack (Some buf)) = (0, ops', m') ->
  exists dev' tg,
    yaffs_ReadChunkWithTagsFromNAND (compat_ops stack unset) dev c (Some buf) (Some e0) =
      Some (YAFFS_OK, Some d, tg, dev') /\
    if lost del (objectId t) then objectId tg <> objectId t else tg = tags1_view e0 YAFFS_ECC_RESULT_NO_ERROR del t.
Proof.
  intros a Hecc Hn Hok Hd Hbuf Hst [Hpd Hpo] Hr.
  destruct (read_oob_reads _ _ _ _ _ _ Hr) as [E1 E2]; [unfold spare_ops; by rewrite Hecc|by left|].
  unfold spare_ops in E1, E2. rewrite Hecc in E1, E2.
  cbn [datbuf oobbuf ops_len ops_ooblen fmap option_fmap option_map] in E1, E2.
  pose proof Hd as [Hdn _]. rewrite Hpd, take_ge, drop_ge, app_nil_r in E1 by (rewrite Hn; lia).
  destruct (compat_tags_fields n t Hok) as (Hin & F1 & F2 & F3 & F4). cbv zeta in *.
  destruct (tags_read (compat_tags n t) del Hin) as (H57 & r & u' & Ec & Hu). cbv zeta in *. revert Hpo H57 Ec Hu Hin F1 F2 F3 F4.
  generalize (yaffs_CalcTagsECC (compat_tags n t)). intros u Hpo H57 Ec Hu Hin F1 F2 F3 F4.
  pose proof (stored_bytes del _ (le_bytes_bytes 8 u)) as [Hs _].
  rewrite Hpo, take_app_length' in E2 by (by rewrite Hs).
  rewrite drop_ge, app_nil_r in E2 by (rewrite Hst; done).
  destruct (translated_back del (le_bytes 8 u) (asBytes u 5) (le_bytes_bytes 8 u) eq_refl) as (sp & Esp & Htb & Hps).
  rewrite <- Htb in H57, Ec. apply spare_in_use in H57 as Hused. rewrite F4 in Hu.
  destruct (compat_tags_read (nandmtd_ReadChunkFromNAND stack unset) (dev <| nPageReads ::= Z.succ |>)
    (c - chunkOffset dev) buf e0 d sp (dev <| nPageReads ::= Z.succ |> <| genericDevice := m' |>) n del r u' t)
    as (dev2 & tg & Er & Etg); [|done..|].
  { unfold nandmtd_ReadChunkFromNAND.
    change (spare_ops (dev <| nPageReads ::= Z.succ |>)) with (spare_ops dev).
    change (useNANDECC (dev <| nPageReads ::= Z.succ |>)) with (useNANDECC dev).
    change (genericDevice (dev <| nPageReads ::= Z.succ |>)) with (genericDevice dev).
    change (nDataBytesPerChunk (dev <| nPageReads ::= Z.succ |>)) with (nDataBytesPerChunk dev).
    fold a. rewrite Hr, Hecc, E1, E2. cbn [default from_option id Z.eqb]. by rewrite Esp. }
  exists dev2, tg. split.
  - unfold yaffs_ReadChunkWithTagsFromNAND, compat_ops.
    cbn [readChunkWithTagsFromNAND readChunkFromNAND default from_option id].
    change (chunkOffset (dev <| nPageReads ::= Z.succ |>)) with (chunkOffset dev). rewrite Er, Etg. reflexivity.
  - rewrite Etg. destruct (lost del (objectId t)); [exact Hu|]. rewrite Hu, F1, F2, F3, F4. by destruct t.
Qed.

(** C8: On a device with useNANDECC a chunk written to an erased page through yaffs_nand.c,
    yaffs_tagscompat.c and nandmtd_WriteChunkToNAND, and possibly marked deleted by a second
    write, is read back through nandmtd_ReadChunkFromNAND with its data, when the MTD driver
    reports no error. The translation to eight spare bytes stores the status of the chunk in
    place of the bits 14 and 15 of the object number. The tags and the deletion mark are read
    back as they were, by the tags ECC where one of the two bits is wrong, unless both are: then
    another object number is read. For a live chunk whose object number has all of the bits 8 to
    13 set that is when both are clear, otherwise when both are set. *)
Theorem tagscompat_chunk_survives dev c d t t1 dev1 del t2 dev2 buf e0 ops' m' rest :
  let ops := compat_ops stack unset in
  let a := (c - chunkOffset dev) * nDataBytesPerChunk dev in
  useNANDECC dev = true -> compat_ok (nDataBytesPerChunk dev) t ->
  bytes (Z.to_nat (nDataBytesPerChunk dev)) d -> length buf = length d -> length stack = 8%nat ->
  page_data (genericDevice dev) a = replicate (length d) 255 ->
  page_oob (genericDevice dev) a = replicate 8 255 ++ rest ->
  yaffs_WriteChunkWithTagsToNAND ops dev c (Some d) (Some t) = Some (YAFFS_OK, t1, dev1) ->
  (if del : bool
   then yaffs_WriteChunkWithTagsToNAND ops dev1 c None (Some (yaffs_InitialiseTags <| chunkDeleted := 1 |>)) =
        Some (YAFFS_OK, t2, dev2)
   else dev2 = dev1) ->
  read_oob (genericDevice dev2) a (spare_ops dev stack (Some buf)) = (0, ops', m') ->
  exists dev3 tg,
    yaffs_ReadChunkWithTagsFromNAND ops dev2 c (Some buf) (Some e0) = Some (YAFFS_OK, Some d, tg, dev3) /\
    if lost del (objectId t) then objectId tg <> objectId t else tg = tags1_view e0 YAFFS_ECC_RESULT_NO_ERROR del t.
Proof.
  intros ops a Hecc Hok Hd Hbuf Hst Hpd Hpo Hw1 Hw2 Hr.
  destruct (compat_write_live _ _ _ _ _ _ rest Hecc (okc_live _ t Hok) Hd Hpd Hpo Hw1) as (m1 & -> & Hh).
  destruct del; [|subst dev2].
  - destruct (compat_write_delete (dev <| nPageWrites ::= Z.succ |> <| genericDevice := m1 |>) c
      (yaffs_InitialiseTags <| chunkDeleted := 1 |>) t2 dev2 d
      (yaffs_CalcTagsECC (compat_tags (nDataBytesPerChunk dev) t)) rest) as (m2 & -> & Hh2); [done..|].
    by apply (compat_read _ c buf e0 (nDataBytesPerChunk dev) t true d rest ops' m').
  - by apply (compat_read _ c buf e0 (nDataBytesPerChunk dev) t false d rest ops' m').
Qed.

End Compat.

(** An object number of which only the bit 14 is set there: the tags ECC restores it. *)
Definition compat_demo_tags : yaffs_ExtendedTags := demo_tags <| objectId := 0x14201 |>.

Definition compat_demo_dev : yaffs_Device flash := demo_dev <| useNANDECC := true |>.

Definition compat_demo_ops : nand_ops flash := compat_ops (replicate 8 0) (mk_nspare yaffs_SpareInitialise 0 0).

Definition compat_demo_written : yaffs_Device flash :=
  after_write compat_demo_ops compat_demo_dev (Some demo_data) compat_demo_tags.

Definition compat_demo_deleted : yaffs_Device flash :=
  after_write compat_demo_ops compat_demo_written None (yaffs_InitialiseTags <| chunkDeleted := 1 |>).

Lemma tagscompat_chunk_survives_witness :
  exists dev3 tg,
    yaffs_ReadChunkWithTagsFromNAND compat_demo_ops compat_demo_deleted 5 (Some (replicate 8 0)) (Some etags_zero) =
      Some (YAFFS_OK, Some demo_data, tg, dev3) /\
    tg = tags1_view etags_zero YAFFS_ECC_RESULT_NO_ERROR true compat_demo_tags.
Proof.
  destruct (after_write_eq compat_demo_ops compat_demo_dev (Some demo_data) compat_demo_tags) as [t1 E1];
    [vm_compute; reflexivity|].
  destruct (after_write_eq compat_demo_ops compat_demo_written None (yaffs_InitialiseTags <| chunkDeleted := 1 |>))
    as [t2 E2]; [vm_compute; reflexivity|].
  eapply (tagscompat_chunk_survives (replicate 8 0) (mk_nspare yaffs_SpareInitialise 0 0) compat_demo_dev 5 demo_data
    compat_demo_tags _ compat_demo_written true _ compat_demo_deleted (replicate 8 0) etags_zero _ _ (replicate 24 255)).
  - reflexivity.
  - constructor; unfold in_w; vm_compute; intuition discriminate.
  - split; [done|]. repeat constructor; done.
  - reflexivity.
  - reflexivity.
  - reflexivity.
  - reflexivity.
  - exact E1.
  - exact E2.
  - reflexivity.
Defined.
