(* ===== verification/YaffsBlocks.v ===== *)
(** * Block management of YAFFS

    The part of fs/yaffs2/yaffs_guts.c that keeps account of the chunks and blocks of a
    device: the bitmap of chunks in use, allocation, deletion and soft deletion of chunks,
    erasure and retirement of blocks, writing a new chunk with retries, and the choice of a
    block for garbage collection; with the invalidation of the checkpoint of
    yaffs_checkptrw.c.

    A pointer to a [yaffs_BlockInfo] is the number of the block; [None] is an access
    outside an array.  The trace mask has its initial value, so that the functions that
    verify the state return at once.  The flag of the super block that
    [yaffs_InvalidateCheckpoint] sets belongs to the VFS and is left out. *)

From S2P Require Import Prelude NandEcc YaffsTags YaffsNand.

Local Open Scope Z_scope.

(** A signed bit-field of ten bits. *)
Definition s10 (x : Z) : Z := (x + 512) mod 1024 - 512.

Definition YAFFS_PASSIVE_GC_CHUNKS : Z := 2.
Definition YAFFS_SEQUENCE_BAD_BLOCK : Z := 0xFFFF0000.
Definition YAFFS_NTNODES_LEVEL0 : Z := 16.

Section Blocks.
Context {mtd : Type} (ops : nand_ops mtd).

(** The contents of the buffer that [yaffs_GetTempBuffer] returns and of the uninitialised tags of
    [yaffs_CheckChunkErased], and the module parameter that limits the number of attempts to
    write a chunk. *)
Context (tempBuffer : list Z) (localTags : yaffs_ExtendedTags) (yaffs_wr_attempts : Z).

Implicit Types dev : yaffs_Device mtd.

(** An assignment through a pointer to the information of a block. *)
Definition update_block dev (blk : Z) (f : yaffs_BlockInfo -> yaffs_BlockInfo) : option (yaffs_Device mtd) :=
  bi ← yaffs_GetBlockInfo dev blk;
  Some (set_block_info dev blk (f bi)).

(** ** The bitmap of chunks in use *)

(** The index of the first byte of a block. *)
Definition yaffs_BlockBits dev (blk : Z) : option Z :=
  if blk <? internalStartBlock dev then None
  else Some (chunkBitmapStride dev * (blk - internalStartBlock dev)).

Definition yaffs_ClearChunkBits dev (blk : Z) : option (yaffs_Device mtd) :=
  blkBits ← yaffs_BlockBits dev blk;
  l ← copy_bytes (chunkBits dev) blkBits (replicate (Z.to_nat (chunkBitmapStride dev)) 0) 0 (chunkBitmapStride dev);
  Some (dev <| chunkBits := l |>).

Definition yaffs_ClearChunkBit dev (blk chunk : Z) : option (yaffs_Device mtd) :=
  blkBits ← yaffs_BlockBits dev blk;
  x ← get (chunkBits dev) (blkBits + Z.quot chunk 8);
  l ← set (chunkBits dev) (blkBits + Z.quot chunk 8) (Z.land x (not_w 8 (Z.shiftl 1 (Z.land chunk 7))));
  Some (dev <| chunkBits := l |>).

Definition yaffs_SetChunkBit dev (blk chunk : Z) : option (yaffs_Device mtd) :=
  blkBits ← yaffs_BlockBits dev blk;
  x ← get (chunkBits dev) (blkBits + Z.quot chunk 8);
  l ← set (chunkBits dev) (blkBits + Z.quot chunk 8) (Z.lor x (Z.shiftl 1 (Z.land chunk 7)));
  Some (dev <| chunkBits := l |>).

Definition yaffs_CheckChunkBit dev (blk chunk : Z) : option bool :=
  blkBits ← yaffs_BlockBits dev blk;
  x ← get (chunkBits dev) (blkBits + Z.quot chunk 8);
  Some (tst x (Z.shiftl 1 (Z.land chunk 7))).

(** The loops over the bytes of a block, with [n] bytes left from the index [i]. *)
Fixpoint some_bits_loop (n : nat) (l : list Z) (i : Z) : option bool :=
  match n with
  | O => Some false
  | S n' => x ← get l i; if truthy x then Some true else some_bits_loop n' l (i + 1)
  end.

Definition yaffs_StillSomeChunkBits dev (blk : Z) : option bool :=
  blkBits ← yaffs_BlockBits dev blk;
  some_bits_loop (Z.to_nat (chunkBitmapStride dev)) (chunkBits dev) blkBits.

Fixpoint count_bits_loop (k : nat) (l : list Z) (i n : Z) : option Z :=
  match k with
  | O => Some n
  | S k' => x ← get l i; count_bits_loop k' l (i + 1) (Yaffs.count_loop 8 x n)
  end.

Definition yaffs_CountChunkBits dev (blk : Z) : option Z :=
  blkBits ← yaffs_BlockBits dev blk;
  count_bits_loop (Z.to_nat (chunkBitmapStride dev)) (chunkBits dev) blkBits 0.

(** ** The checkpoint *)

Definition yaffs_CheckpointSpaceOk dev : bool :=
  let blocksAvailable := nErasedBlocks dev - nReservedBlocks dev in
  negb (blocksAvailable <=? 0).

(** The body of the loop over the blocks. *)
Definition checkpoint_erase_block dev (i : Z) : option (yaffs_Device mtd) :=
  bi ← yaffs_GetBlockInfo dev i;
  if bool_decide (blockState bi = YAFFS_BLOCK_STATE_CHECKPOINT) then
    let dev := dev <| nBlockErasures ::= Z.succ |> in
    let '(r, dev) := eraseBlockInNAND ops dev (i - blockOffset dev) in
    if truthy r then
      dev ← update_block dev i (fun bi => bi <| blockState := YAFFS_BLOCK_STATE_EMPTY |>);
      let dev := dev <| nErasedBlocks ::= Z.succ |> in
      Some (dev <| nFreeChunks ::= Z.add (nChunksPerBlock dev) |>)
    else
      mark ← markNANDBlockBad ops;
      let '(_, dev) := mark dev i in
      update_block dev i (fun bi => bi <| blockState := YAFFS_BLOCK_STATE_DEAD |>)
  else Some dev.

Fixpoint checkpoint_erase_loop (n : nat) dev (i : Z) : option (yaffs_Device mtd) :=
  match n with
  | O => Some dev
  | S n' => dev ← checkpoint_erase_block dev i; checkpoint_erase_loop n' dev (i + 1)
  end.

Definition block_count dev : nat := Z.to_nat (internalEndBlock dev - internalStartBlock dev + 1).

(** [eraseBlockInNAND] is never NULL here. *)
Definition yaffs_CheckpointErase dev : option (Z * yaffs_Device mtd) :=
  dev ← checkpoint_erase_loop (block_count dev) dev (internalStartBlock dev);
  Some (1, dev <| blocksInCheckpoint := 0 |>).

Definition yaffs_CheckpointInvalidateStream dev : option (Z * yaffs_Device mtd) :=
  if negb (yaffs_CheckpointSpaceOk dev) then Some (0, dev) else yaffs_CheckpointErase dev.

Definition yaffs_InvalidateCheckpoint dev : option (yaffs_Device mtd) :=
  if isCheckpointed dev || (0 <? blocksInCheckpoint dev) then
    let dev := dev <| isCheckpointed := false |> in
    '(_, dev) ← yaffs_CheckpointInvalidateStream dev;
    Some dev
  else Some dev.

(** The sizes of the structs are those of the board's ABI; the sum is formed with 32-bit
    unsigned arithmetic and stored in an int. *)
Definition sizeof_yaffs_Tnode : Z := 32.
Definition sizeof_yaffs_BlockInfo : Z := 8.
Definition sizeof_yaffs_CheckpointValidity : Z := 16.
Definition sizeof_yaffs_CheckpointDevice : Z := 40.
Definition sizeof_yaffs_CheckpointObject : Z := 28.

Definition yaffs_CalcCheckpointBlocksRequired dev : Z * yaffs_Device mtd :=
  if (nCheckpointBlocksRequired dev =? 0) && isYaffs2 dev then
    let devBlocks := endBlock dev - startBlock dev + 1 in
    let tnodeSize := tnodeWidth dev * YAFFS_NTNODES_LEVEL0 / 8 in
    let tnodeSize := if tnodeSize <? sizeof_yaffs_Tnode then sizeof_yaffs_Tnode else tnodeSize in
    let nBytes := s32 (sizeof_yaffs_CheckpointValidity + sizeof_yaffs_CheckpointDevice +
                       devBlocks * sizeof_yaffs_BlockInfo + devBlocks * chunkBitmapStride dev +
                       (sizeof_yaffs_CheckpointObject + 4) * (nObjectsCreated dev - nFreeObjects dev) +
                       (tnodeSize + 4) * (nTnodesCreated dev - nFreeTnodes dev) +
                       sizeof_yaffs_CheckpointValidity + 4) in
    let nBlocks := Z.quot nBytes (nDataBytesPerChunk dev * nChunksPerBlock dev) + 3 in
    (nBlocks, dev <| nCheckpointBlocksRequired := nBlocks |>)
  else (nCheckpointBlocksRequired dev, dev).

(** ** Erasing and retiring blocks *)

(** Marking a block as bad: when that fails, the block is erased and a marker written. *)
Definition retire_mark dev (blockInNAND : Z) : option (yaffs_Device mtd) :=
  let '(r, dev) := yaffs_MarkBlockBad ops dev blockInNAND in
  if negb (r =? YAFFS_OK) then
    let '(r, dev) := yaffs_EraseBlockInNAND ops dev blockInNAND in
    if negb (r =? YAFFS_OK) then Some dev
    else
      let chunkId := blockInNAND * nChunksPerBlock dev in
      let n := Z.to_nat (nDataBytesPerChunk dev) in
      let buffer := replicate n 255 ++ drop n tempBuffer in
      let tags := yaffs_InitialiseTags <| sequenceNumber := YAFFS_SEQUENCE_BAD_BLOCK |> in
      write ← writeChunkWithTagsToNAND ops;
      '(_, dev) ← write dev (chunkId - chunkOffset dev) (Some buffer) tags;
      Some dev
  else Some dev.

Definition yaffs_RetireBlock dev (blockInNAND : Z) : option (yaffs_Device mtd) :=
  _ ← yaffs_GetBlockInfo dev blockInNAND;
  dev ← yaffs_InvalidateCheckpoint dev;
  dev ← retire_mark dev blockInNAND;
  dev ← update_block dev blockInNAND (fun bi =>
          bi <| blockState := YAFFS_BLOCK_STATE_DEAD |> <| gcPrioritise := false |> <| needsRetiring := false |>);
  Some (dev <| nRetiredBlocks ::= Z.succ |>).

(** Erasing a healthy block: whether it worked. *)
Definition dirty_erase dev (bi : yaffs_BlockInfo) (blockNo : Z) : option (Z * yaffs_Device mtd) :=
  if negb (needsRetiring bi) then
    dev ← yaffs_InvalidateCheckpoint dev;
    let '(erasedOk, dev) := yaffs_EraseBlockInNAND ops dev blockNo in
    Some (erasedOk, if truthy erasedOk then dev else dev <| nErasureFailures ::= Z.succ |>)
  else Some (0, dev).

(** A block that has been erased. *)
Definition dirty_clean dev (blockNo : Z) : option (yaffs_Device mtd) :=
  dev ← update_block dev blockNo (fun bi => bi <| blockState := YAFFS_BLOCK_STATE_EMPTY |>);
  let dev := dev <| nErasedBlocks ::= Z.succ |> in
  dev ← update_block dev blockNo (fun bi =>
          bi <| pagesInUse := 0 |> <| softDeletions := 0 |> <| hasShrinkHeader := false |>
             <| skipErasedCheck := true |> <| gcPrioritise := false |>);
  yaffs_ClearChunkBits dev blockNo.

Definition yaffs_BlockBecameDirty dev (blockNo : Z) : option (yaffs_Device mtd) :=
  dev ← update_block dev blockNo (fun bi => bi <| blockState := YAFFS_BLOCK_STATE_DIRTY |>);
  bi ← yaffs_GetBlockInfo dev blockNo;
  '(erasedOk, dev) ← dirty_erase dev bi blockNo;
  if truthy erasedOk then dirty_clean dev blockNo
  else
    let dev := dev <| nFreeChunks ::= fun n => n - nChunksPerBlock dev |> in
    yaffs_RetireBlock dev blockNo.

(** ** Allocation *)

Definition finder_next dev : yaffs_Device mtd :=
  let dev := dev <| allocationBlockFinder ::= Z.succ |> in
  if (allocationBlockFinder dev <? internalStartBlock dev) || (internalEndBlock dev <? allocationBlockFinder dev)
  then dev <| allocationBlockFinder := internalStartBlock dev |> else dev.

(** [for (i = internalStartBlock; i <= internalEndBlock; i++)], with [n] rounds left. *)
Fixpoint find_block_loop (n : nat) dev : option (Z * yaffs_Device mtd) :=
  match n with
  | O => Some (-1, dev)
  | S n' =>
      let dev := finder_next dev in
      let b := allocationBlockFinder dev in
      bi ← yaffs_GetBlockInfo dev b;
      if bool_decide (blockState bi = YAFFS_BLOCK_STATE_EMPTY) then
        dev ← update_block dev b (fun bi => bi <| blockState := YAFFS_BLOCK_STATE_ALLOCATING |>);
        let dev := dev <| dev_sequenceNumber ::= fun s => u32 (s + 1) |> in
        dev ← update_block dev b (fun bi => bi <| bi_sequenceNumber := dev_sequenceNumber dev |>);
        Some (b, dev <| nErasedBlocks ::= Z.pred |>)
      else find_block_loop n' dev
  end.

Definition yaffs_FindBlockForAllocation dev : option (Z * yaffs_Device mtd) :=
  if nErasedBlocks dev <? 1 then Some (-1, dev) else find_block_loop (block_count dev) dev.

Definition yaffs_CheckSpaceForAllocation dev : bool * yaffs_Device mtd :=
  let '(checkpointBlocks, dev) :=
    if isYaffs2 dev then
      let '(n, dev) := yaffs_CalcCheckpointBlocksRequired dev in
      let n := n - blocksInCheckpoint dev in
      (if n <? 0 then 0 else n, dev)
    else (0, dev) in
  let reservedChunks := (nReservedBlocks dev + checkpointBlocks) * nChunksPerBlock dev in
  (reservedChunks <? nFreeChunks dev, dev).

(** Taking a new block when there is none to allocate from. *)
Definition allocation_start dev : option (yaffs_Device mtd) :=
  if allocationBlock dev <? 0 then
    '(b, dev) ← yaffs_FindBlockForAllocation dev;
    Some (dev <| allocationBlock := b |> <| allocationPage := 0 |>)
  else Some dev.

(** Taking the next page of the block [blk]. *)
Definition allocation_take dev (blk : Z) : option (Z * yaffs_Device mtd) :=
  let retVal := blk * nChunksPerBlock dev + allocationPage dev in
  dev ← update_block dev blk (fun bi => bi <| pagesInUse ::= fun n => s10 (n + 1) |>);
  dev ← yaffs_SetChunkBit dev blk (allocationPage dev);
  let dev := dev <| allocationPage ::= fun p => u32 (p + 1) |> in
  let dev := dev <| nFreeChunks ::= Z.pred |> in
  if nChunksPerBlock dev <=? allocationPage dev then
    dev ← update_block dev blk (fun bi => bi <| blockState := YAFFS_BLOCK_STATE_FULL |>);
    Some (retVal, dev <| allocationBlock := -1 |>)
  else Some (retVal, dev).

(** The chunk, or -1, and the block it is in. *)
Definition yaffs_AllocateChunk dev (useReserve : bool) : option (Z * option Z * yaffs_Device mtd) :=
  dev ← allocation_start dev;
  let '(space, dev) := if useReserve then (true, dev) else yaffs_CheckSpaceForAllocation dev in
  if negb space then Some (-1, None, dev)
  else if 0 <=? allocationBlock dev then
    let blk := allocationBlock dev in
    '(retVal, dev) ← allocation_take dev blk;
    Some (retVal, Some blk, dev)
  else Some (-1, None, dev).

Definition yaffs_GetErasedChunks dev : Z :=
  let n := nErasedBlocks dev * nChunksPerBlock dev in
  if 0 <? allocationBlock dev then n + (nChunksPerBlock dev - allocationPage dev) else n.

(** ** Deletion *)

Definition yaffs_SoftDeleteChunk dev (chunk : Z) : option (yaffs_Device mtd) :=
  dev ← update_block dev (Z.quot chunk (nChunksPerBlock dev)) (fun bi =>
          bi <| softDeletions ::= fun n => s10 (n + 1) |>);
  Some (dev <| nFreeChunks ::= Z.succ |>).

(** YAFFS1 writes a marker over the tags of a chunk that is deleted. *)
Definition delete_mark dev (bi : yaffs_BlockInfo) (chunkId : Z) (markNAND : bool) : option (yaffs_Device mtd) :=
  if markNAND && negb (bool_decide (blockState bi = YAFFS_BLOCK_STATE_COLLECTING)) && negb (isYaffs2 dev) then
    '(_, _, dev) ← yaffs_WriteChunkWithTagsToNAND ops dev chunkId None
                     (Some (yaffs_InitialiseTags <| chunkDeleted := 1 |>));
    Some dev
  else Some (dev <| nUnmarkedDeletions ::= Z.succ |>).

(** A test whose only effect is a trace is left out but for its access to the bitmap. *)
Definition yaffs_DeleteChunk dev (chunkId : Z) (markNAND : bool) : option (yaffs_Device mtd) :=
  if chunkId <=? 0 then Some dev
  else
    let dev := dev <| nDeletions ::= Z.succ |> in
    let block := Z.quot chunkId (nChunksPerBlock dev) in
    let page := Z.rem chunkId (nChunksPerBlock dev) in
    _ ← yaffs_CheckChunkBit dev block page;
    bi ← yaffs_GetBlockInfo dev block;
    dev ← delete_mark dev bi chunkId markNAND;
    bi ← yaffs_GetBlockInfo dev block;
    match blockState bi with
    | YAFFS_BLOCK_STATE_ALLOCATING | YAFFS_BLOCK_STATE_FULL
    | YAFFS_BLOCK_STATE_NEEDS_SCANNING | YAFFS_BLOCK_STATE_COLLECTING =>
        let dev := dev <| nFreeChunks ::= Z.succ |> in
        dev ← yaffs_ClearChunkBit dev block page;
        dev ← update_block dev block (fun bi => bi <| pagesInUse ::= fun n => s10 (n - 1) |>);
        bi ← yaffs_GetBlockInfo dev block;
        if (pagesInUse bi =? 0) && negb (hasShrinkHeader bi) &&
           negb (bool_decide (blockState bi = YAFFS_BLOCK_STATE_ALLOCATING)) &&
           negb (bool_decide (blockState bi = YAFFS_BLOCK_STATE_NEEDS_SCANNING))
        then yaffs_BlockBecameDirty dev block else Some dev
    | _ => Some dev
    end.

(** ** Writing a new chunk *)

Definition yaffs_CheckChunkErased dev (chunkInNAND : Z) : option (Z * yaffs_Device mtd) :=
  '(_, data, tags, dev) ← yaffs_ReadChunkWithTagsFromNAND ops dev chunkInNAND (Some tempBuffer) (Some localTags);
  let retval := match eccResult tags with
                | YAFFS_ECC_RESULT_FIXED | YAFFS_ECC_RESULT_UNFIXED => YAFFS_FAIL
                | _ => YAFFS_OK
                end in
  data ← data;
  ff ← yaffs_CheckFF data (Z.to_nat (nDataBytesPerChunk dev));
  Some (if negb ff || truthy (chunkUsed tags) then YAFFS_FAIL else retval, dev).

Definition yaffs_HandleWriteChunkError dev (chunkInNAND : Z) (erasedOk : Z) : option (yaffs_Device mtd) :=
  let blockInNAND := Z.quot chunkInNAND (nChunksPerBlock dev) in
  bi ← yaffs_GetBlockInfo dev blockInNAND;
  let '(dev, bi) := yaffs_HandleChunkError dev bi in
  let bi := if truthy erasedOk then bi <| needsRetiring := true |> else bi in
  yaffs_DeleteChunk (set_block_info dev blockInNAND bi) chunkInNAND true.

(** Whether the chunk may be written, and the result of the check that it is erased. *)
Definition write_check dev (bi : yaffs_BlockInfo) (blk chunk : Z) : option (bool * Z * yaffs_Device mtd) :=
  if negb (skipErasedCheck bi) then
    '(erasedOk, dev) ← yaffs_CheckChunkErased dev chunk;
    if negb (erasedOk =? YAFFS_OK) then Some (false, erasedOk, dev)
    else
      dev ← update_block dev blk (fun bi => bi <| skipErasedCheck := true |>);
      Some (true, erasedOk, dev)
  else Some (true, 0, dev).

(** The part of a round after the allocation of a chunk in a block that is not prioritised: the
    result of the write, the tags and the device. *)
Definition write_attempt dev (data : list Z) (tags : yaffs_ExtendedTags) (bi : yaffs_BlockInfo) (blk chunk writeOk : Z)
  : option (Z * yaffs_ExtendedTags * yaffs_Device mtd) :=
  '(go, erasedOk, dev) ← write_check dev bi blk chunk;
  if (go : bool) then
    '(writeOk, tags, dev) ← yaffs_WriteChunkWithTagsToNAND ops dev chunk (Some data) (Some tags);
    if negb (writeOk =? YAFFS_OK) then
      dev ← yaffs_HandleWriteChunkError dev chunk erasedOk;
      Some (writeOk, tags, dev)
    else Some (writeOk, tags, dev)
  else Some (writeOk, tags, dev).

(** One round of the loop: [None] for the chunk is the [break]. *)
Definition write_round dev (data : list Z) (tags : yaffs_ExtendedTags) (useReserve : bool) (writeOk attempts : Z)
  : option (option Z * Z * Z * yaffs_ExtendedTags * yaffs_Device mtd) :=
  '(chunk, blk, dev) ← yaffs_AllocateChunk dev useReserve;
  match blk with
  | None => Some (None, writeOk, attempts, tags, dev)
  | Some blk =>
      bi ← yaffs_GetBlockInfo dev blk;
      if gcPrioritise bi then
        dev ← yaffs_DeleteChunk dev chunk true;
        Some (Some chunk, writeOk, attempts, tags, dev)
      else
        let attempts := attempts + 1 in
        '(writeOk, tags, dev) ← write_attempt dev data tags bi blk chunk writeOk;
        Some (Some chunk, writeOk, attempts, tags, dev)
  end.

Fixpoint write_loop (fuel : nat) dev (data : list Z) (tags : yaffs_ExtendedTags) (useReserve : bool)
    (writeOk attempts : Z) : option (Z * Z * yaffs_ExtendedTags * yaffs_Device mtd) :=
  match fuel with
  | O => None
  | S fuel' =>
      '(chunk, writeOk, attempts, tags, dev) ← write_round dev data tags useReserve writeOk attempts;
      match chunk with
      | None => Some (-1, attempts, tags, dev)
      | Some chunk =>
          if negb (writeOk =? YAFFS_OK) && ((yaffs_wr_attempts =? 0) || (attempts <=? yaffs_wr_attempts))
          then write_loop fuel' dev data tags useReserve writeOk attempts
          else Some (if truthy writeOk then chunk else -1, attempts, tags, dev)
      end
  end.

(** The chunk, or -1, and the tags, which the write updates. *)
Definition yaffs_WriteNewChunkWithTagsToNAND (fuel : nat) dev (data : list Z) (tags : yaffs_ExtendedTags)
    (useReserve : bool) : option (Z * yaffs_ExtendedTags * yaffs_Device mtd) :=
  dev ← yaffs_InvalidateCheckpoint dev;
  '(chunk, attempts, tags, dev) ← write_loop fuel dev data tags useReserve 0 0;
  Some (chunk, tags, if 1 <? attempts then dev <| nRetriedWrites ::= Z.add (attempts - 1) |> else dev).

(** ** Choosing a block for garbage collection *)

(** [for (i = internalStartBlock; i <= internalEndBlock; i++)], with [n] rounds left. *)
Fixpoint oldest_loop (n : nat) dev (i seq : Z) : option Z :=
  match n with
  | O => Some seq
  | S n' =>
      b ← yaffs_GetBlockInfo dev i;
      let seq := if bool_decide (blockState b = YAFFS_BLOCK_STATE_FULL) &&
                    (pagesInUse b - softDeletions b <? nChunksPerBlock dev) && (bi_sequenceNumber b <? seq)
                 then bi_sequenceNumber b else seq in
      oldest_loop n' dev (i + 1) seq
  end.

Definition yaffs_BlockNotDisqualifiedFromGC dev (bi : yaffs_BlockInfo) : option (bool * yaffs_Device mtd) :=
  if negb (isYaffs2 dev) then Some (true, dev)
  else if negb (hasShrinkHeader bi) then Some (true, dev)
  else
    dev ← (if oldestDirtySequence dev =? 0 then
             seq ← oldest_loop (block_count dev) dev (internalStartBlock dev) (dev_sequenceNumber dev);
             Some (dev <| oldestDirtySequence := seq |>)
           else Some dev);
    Some (bi_sequenceNumber bi <=? oldestDirtySequence dev, dev).

(** The search for a prioritised block: whether one exists, the block to collect with its pages
    in use.  The loop stops before the last block. *)
Fixpoint prioritised_loop (n : nat) dev (i : Z) (pending : bool)
  : option (bool * option (Z * Z) * yaffs_Device mtd) :=
  match n with
  | O => Some (pending, None, dev)
  | S n' =>
      bi ← yaffs_GetBlockInfo dev i;
      if gcPrioritise bi then
        '(fit, dev) ← (if bool_decide (blockState bi = YAFFS_BLOCK_STATE_FULL)
                       then yaffs_BlockNotDisqualifiedFromGC dev bi else Some (false, dev));
        if (fit : bool) then Some (true, Some (i, pagesInUse bi - softDeletions bi), dev)
        else prioritised_loop n' dev (i + 1) true
      else prioritised_loop n' dev (i + 1) pending
  end.

(** The prioritised block to collect, if any. *)
Definition gc_prioritised dev : option (option (Z * Z) * yaffs_Device mtd) :=
  if hasPendingPrioritisedGCs dev then
    '(pending, found, dev) ← prioritised_loop (block_count dev - 1) dev (internalStartBlock dev) false;
    Some (found, if (pending : bool) then dev else dev <| hasPendingPrioritisedGCs := false |>)
  else Some (None, dev).

(** The search for the dirtiest block, from the block after [b], with [n] rounds left. *)
Fixpoint dirtiest_loop (n : nat) dev (b dirtiest pagesInUse0 : Z) : option (Z * Z * yaffs_Device mtd) :=
  match n with
  | O => Some (b, dirtiest, dev)
  | S n' =>
      if 0 <? pagesInUse0 then
        let b := b + 1 in
        let b := if (b <? internalStartBlock dev) || (internalEndBlock dev <? b) then internalStartBlock dev else b in
        bi ← yaffs_GetBlockInfo dev b;
        '(fit, dev) ← (if bool_decide (blockState bi = YAFFS_BLOCK_STATE_FULL) &&
                          (pagesInUse bi - softDeletions bi <? pagesInUse0)
                       then yaffs_BlockNotDisqualifiedFromGC dev bi else Some (false, dev));
        if (fit : bool) then dirtiest_loop n' dev b b (pagesInUse bi - softDeletions bi)
        else dirtiest_loop n' dev b dirtiest pagesInUse0
      else Some (b, dirtiest, dev)
  end.

(** The last block looked at, and the block to collect. *)
Definition gc_dirtiest dev (aggressive : bool) : option (Z * Z * yaffs_Device mtd) :=
  let pages := if aggressive then nChunksPerBlock dev else YAFFS_PASSIVE_GC_CHUNKS + 1 in
  let iterations := internalEndBlock dev - internalStartBlock dev + 1 in
  let iterations := if aggressive then iterations else Z.min 200 (Z.quot iterations 16) in
  dirtiest_loop (Z.to_nat (iterations + 1)) dev (currentDirtyChecker dev) (-1) pages.

Definition yaffs_FindBlockForGarbageCollection dev (aggressive : bool) : option (Z * yaffs_Device mtd) :=
  '(found, dev) ← gc_prioritised dev;
  let prioritised := match found with Some _ => true | None => false end in
  let aggressive := prioritised || aggressive in
  let dev := dev <| nonAggressiveSkip ::= Z.pred |> in
  if negb aggressive && (0 <? nonAggressiveSkip dev) then Some (-1, dev)
  else
    '(b, dirtiest, dev) ← match found with
                          | Some (blk, _) => Some (currentDirtyChecker dev, blk, dev)
                          | None => gc_dirtiest dev aggressive
                          end;
    let dev := dev <| currentDirtyChecker := b |> in
    let dev := dev <| oldestDirtySequence := 0 |> in
    Some (dirtiest, if 0 <? dirtiest then dev <| nonAggressiveSkip := 4 |> else dev).

(** ** The number of free chunks, counted *)

Fixpoint count_free_loop (n : nat) dev (b nFree : Z) : option Z :=
  match n with
  | O => Some nFree
  | S n' =>
      blk ← yaffs_GetBlockInfo dev b;
      let nFree := match blockState blk with
                   | YAFFS_BLOCK_STATE_EMPTY | YAFFS_BLOCK_STATE_ALLOCATING
                   | YAFFS_BLOCK_STATE_COLLECTING | YAFFS_BLOCK_STATE_FULL =>
                       nFree + (nChunksPerBlock dev - pagesInUse blk + softDeletions blk)
                   | _ => nFree
                   end in
      count_free_loop n' dev (b + 1) nFree
  end.

Definition yaffs_CountFreeChunks dev : option Z :=
  count_free_loop (block_count dev) dev (internalStartBlock dev) 0.

End Blocks.
