(* ===== verification/YaffsBlocksFacts.v ===== *)
(** * The accounts of the YAFFS block manager

    The invariant [accounts] that ties the counters of a device (pages in use, erased blocks,
    free chunks) to the chunk bitmap and the states of the blocks, what the drivers promise
    ([QuietOps]), and that every operation of the block manager keeps the accounts. *)

From S2P Require Import Prelude NandEcc NandEccFacts YaffsTags YaffsNand YaffsBlocks.

Local Open Scope Z_scope.

(** ** Bits of a byte *)

Definition ones8 (x : Z) : Z := Yaffs.count_loop 8 x 0.

Lemma count_loop_add fuel : forall x n, Yaffs.count_loop fuel x n = n + Yaffs.count_loop fuel x 0.
Proof.
  induction fuel as [|fuel IH]; intros x n; cbn [Yaffs.count_loop]; [lia|].
  destruct (x =? 0); [lia|]. rewrite IH, (IH _ (if tst x 1 then 0 + 1 else 0)). destruct (tst x 1); lia.
Qed.

(** Setting and clearing a bit changes the number of ones by at most one. *)
Definition byte_bit_ok (x k : Z) : bool :=
  let t := Z.testbit x k in
  (ones8 (Z.lor x (Z.shiftl 1 k)) =? ones8 x + (if t then 0 else 1)) &&
  (ones8 (Z.land x (not_w 8 (Z.shiftl 1 k))) =? ones8 x - (if t then 1 else 0)) && (0 <=? ones8 x).

Lemma byte_bits : all_bytes (fun x => forallb (byte_bit_ok x) (seqZ 0 8)) = true.
Proof. vm_compute. reflexivity. Qed.

Lemma byte_bit x k :
  in_w 8 x -> 0 <= k < 8 ->
  ones8 (Z.lor x (Z.shiftl 1 k)) = ones8 x + (if Z.testbit x k then 0 else 1) /\
  ones8 (Z.land x (not_w 8 (Z.shiftl 1 k))) = ones8 x - (if Z.testbit x k then 1 else 0) /\ 0 <= ones8 x.
Proof.
  intros Hx Hk. pose proof (all_bytes_spec _ byte_bits x Hx) as H. cbv beta in H.
  rewrite forallb_forall in H. specialize (H k). unfold byte_bit_ok in H.
  rewrite !andb_true_iff, !Z.eqb_eq, Z.leb_le in H. destruct H as [[? ?] ?]; [|done].
  apply list_elem_of_In, elem_of_seqZ. lia.
Qed.

Lemma set_bit x k j :
  in_w 8 x -> 0 <= k < 8 -> 0 <= j ->
  in_w 8 (Z.lor x (Z.shiftl 1 k)) /\ Z.testbit (Z.lor x (Z.shiftl 1 k)) j = Z.testbit x j || (j =? k).
Proof.
  intros Hx Hk Hj. rewrite Z.shiftl_1_l. split.
  - apply in_w_lor; [done..|]. unfold in_w. split; [by apply Z.pow_nonneg|]. apply Z.pow_lt_mono_r; lia.
  - rewrite Z.lor_spec, Z.pow2_bits_eqb, Z.eqb_sym by lia. done.
Qed.

Lemma clear_bit x k j :
  in_w 8 x -> 0 <= k < 8 -> 0 <= j ->
  in_w 8 (Z.land x (not_w 8 (Z.shiftl 1 k))) /\
  Z.testbit (Z.land x (not_w 8 (Z.shiftl 1 k))) j = Z.testbit x j && negb (j =? k).
Proof.
  intros Hx Hk Hj. unfold not_w. split.
  - apply in_w_land; [done..|]. by apply wrap_in.
  - rewrite Z.land_spec, wrap_testbit, Z.shiftl_1_l by lia. destruct (Z.ltb_spec j 8).
    + rewrite Z.lnot_spec, Z.pow2_bits_eqb, (Z.eqb_sym k) by lia. done.
    + rewrite (in_w_testbit 8 x) by done. done.
Qed.

(** ** Bits of a list of bytes *)

Definition lbit (l : list Z) (c : Z) : bool := Z.testbit (default 0 (l !! Z.to_nat (c / 8))) (c mod 8).

Definition lcount (l : list Z) : Z := zsum (ones8 <$> l).

Lemma chunk_pos c : 0 <= c -> Z.quot c 8 = c / 8 /\ Z.land c 7 = c mod 8 /\ 0 <= c / 8 /\ 0 <= c mod 8 < 8.
Proof.
  intros Hc. rewrite Z.quot_div_nonneg by lia. change 7 with (Z.ones 3). rewrite Z.land_ones by done.
  change (2 ^ 3) with 8. Z.div_mod_to_equations. lia.
Qed.

Lemma chunk_pos_inj c c' : 0 <= c -> 0 <= c' -> Z.to_nat (c / 8) = Z.to_nat (c' / 8) -> c mod 8 = c' mod 8 -> c = c'.
Proof. intros. Z.div_mod_to_equations. lia. Qed.

Section ListBits.
Context (l : list Z) (c : Z) (x : Z).
Hypothesis (Hl : Forall (in_w 8) l) (Hc : 0 <= c) (Hx : l !! Z.to_nat (c / 8) = Some x).

Local Abbreviation k := (Z.to_nat (c / 8)).
Local Abbreviation b := (c mod 8).

Lemma byte_in : in_w 8 x.
Proof using Hl Hx. by eapply Forall_lookup_1. Qed.

Lemma lbit_insert y c' :
  0 <= c' -> (forall j, 0 <= j < 8 -> j <> b -> Z.testbit y j = Z.testbit x j) ->
  lbit (<[k := y]> l) c' = if c' =? c then Z.testbit y b else lbit l c'.
Proof using Hc Hx.
  intros Hc' Hy. destruct (chunk_pos c Hc) as (_ & _ & ? & ?), (chunk_pos c' Hc') as (_ & _ & ? & ?). unfold lbit.
  destruct (Z.eqb_spec c' c) as [->|Hne].
  - by rewrite list_lookup_insert_eq by (by eapply lookup_lt_Some).
  - destruct (decide (Z.to_nat (c' / 8) = k)) as [E|E].
    + rewrite E, list_lookup_insert_eq, Hx by (by eapply lookup_lt_Some). cbn. apply Hy; [done|].
      intros Eb. apply Hne. by apply chunk_pos_inj.
    + by rewrite list_lookup_insert_ne.
Qed.

Lemma lcount_insert y : lcount (<[k := y]> l) = lcount l - ones8 x + ones8 y.
Proof using Hx. unfold lcount. by apply zsum_fmap_insert. Qed.

Lemma lset_spec :
  let l' := <[k := Z.lor x (Z.shiftl 1 (Z.land c 7))]> l in
  Forall (in_w 8) l' /\ lcount l' = lcount l + (if lbit l c then 0 else 1) /\
  forall c', 0 <= c' -> lbit l' c' = (c' =? c) || lbit l c'.
Proof using Hl Hc Hx.
  destruct (chunk_pos c Hc) as (_ & -> & ? & ?). pose proof byte_in as Hb. cbv zeta. split_and!.
  - apply Forall_insert; [done|]. by apply (set_bit x b 0).
  - rewrite lcount_insert. destruct (byte_bit x b Hb) as (-> & _ & _); [done|]. unfold lbit. rewrite Hx. cbn. lia.
  - intros c' Hc'. rewrite lbit_insert; [|done|].
    + destruct (Z.eqb_spec c' c); [|done]. destruct (set_bit x b b Hb) as [_ ->]; [done|lia|].
      by rewrite Z.eqb_refl, orb_true_r.
    + intros j Hj Hne. destruct (set_bit x b j Hb) as [_ ->]; [done|lia|].
      rewrite (proj2 (Z.eqb_neq j b) Hne). by rewrite orb_false_r.
Qed.

Lemma lclear_spec :
  let l' := <[k := Z.land x (not_w 8 (Z.shiftl 1 (Z.land c 7)))]> l in
  Forall (in_w 8) l' /\ lcount l' = lcount l - (if lbit l c then 1 else 0) /\
  forall c', 0 <= c' -> lbit l' c' = negb (c' =? c) && lbit l c'.
Proof using Hl Hc Hx.
  destruct (chunk_pos c Hc) as (_ & -> & ? & ?). pose proof byte_in as Hb. cbv zeta. split_and!.
  - apply Forall_insert; [done|]. by apply (clear_bit x b 0).
  - rewrite lcount_insert. destruct (byte_bit x b Hb) as (_ & -> & _); [done|]. unfold lbit. rewrite Hx. cbn. lia.
  - intros c' Hc'. rewrite lbit_insert; [|done|].
    + destruct (Z.eqb_spec c' c); [|done]. destruct (clear_bit x b b Hb) as [_ ->]; [done|lia|].
      by rewrite Z.eqb_refl, andb_false_r.
    + intros j Hj Hne. destruct (clear_bit x b j Hb) as [_ ->]; [done|lia|].
      rewrite (proj2 (Z.eqb_neq j b) Hne). by rewrite andb_true_r.
Qed.

End ListBits.

Lemma lcount_zeros n : lcount (replicate n 0) = 0.
Proof. induction n as [|n IH]; [done|]. change (ones8 0 + lcount (replicate n 0) = 0). by rewrite IH. Qed.

Lemma lcount_nonneg l : Forall (in_w 8) l -> 0 <= lcount l.
Proof.
  intros Hl. apply zsum_nonneg. intros x Hx. rewrite Forall_forall in Hl.
  apply list_elem_of_In in Hx. apply (byte_bit x 0 (Hl x Hx)). lia.
Qed.

(** A byte list with a set bit counts at least one. *)
Lemma lcount_pos l c : Forall (in_w 8) l -> 0 <= c -> lbit l c = true -> 0 < lcount l.
Proof.
  intros Hl Hc Hb. destruct (l !! Z.to_nat (c / 8)) as [x|] eqn:Hx.
  - destruct (lclear_spec l c x Hl Hc Hx) as (Hf & E & _). rewrite Hb in E. pose proof (lcount_nonneg _ Hf). lia.
  - unfold lbit in Hb. rewrite Hx in Hb. by rewrite Z.bits_0 in Hb.
Qed.

(** ** The bytes of a block in the bitmap *)

Definition slice (S i : nat) (l : list Z) : list Z := take S (drop (S * i) l).

Lemma slice_lookup S i l k : (k < S)%nat -> slice S i l !! k = l !! (S * i + k)%nat.
Proof. intros Hk. unfold slice. by rewrite lookup_take_lt, lookup_drop. Qed.

Lemma slice_length S i n l : length l = (S * n)%nat -> (i < n)%nat -> length (slice S i l) = S.
Proof. intros Hl Hi. unfold slice. rewrite length_take, length_drop, Hl. nia. Qed.

Lemma slice_ext S i l l' : (forall k, (k < S)%nat -> l' !! (S * i + k)%nat = l !! (S * i + k)%nat) -> slice S i l' = slice S i l.
Proof.
  intros H. apply list_eq. intros k. destruct (decide (k < S)%nat) as [Hk|Hk].
  - rewrite !slice_lookup by done. by apply H.
  - unfold slice. by rewrite !lookup_take_ge by lia.
Qed.

Lemma slice_insert S i j k v l :
  (k < S)%nat -> (S * i + k < length l)%nat ->
  slice S j (<[(S * i + k)%nat := v]> l) = if decide (j = i) then <[k := v]> (slice S i l) else slice S j l.
Proof.
  intros Hk Hlen. destruct (decide (j = i)) as [->|Hne].
  - apply list_eq. intros m. destruct (decide (m < S)%nat) as [Hm|Hm].
    + rewrite slice_lookup by done. destruct (decide (m = k)) as [->|Hmk].
      * rewrite !list_lookup_insert_eq; [done|unfold slice; rewrite length_take, length_drop; lia|done].
      * rewrite !list_lookup_insert_ne by lia. by rewrite slice_lookup.
    + rewrite list_lookup_insert_ne by lia. unfold slice. by rewrite !lookup_take_ge by lia.
  - apply slice_ext. intros m Hm. rewrite list_lookup_insert_ne; [done|]. intros E.
    assert (S * i + k = S * j + m)%nat as E' by done. apply Hne. nia.
Qed.

Lemma slice_inserts S i j (x : list Z) l :
  length x = S -> (S * i + S <= length l)%nat ->
  slice S j (list_inserts (S * i) x l) = if decide (j = i) then x else slice S j l.
Proof.
  intros Hx Hlen. destruct (decide (j = i)) as [->|Hne].
  - apply list_eq. intros m. destruct (decide (m < S)%nat) as [Hm|Hm].
    + rewrite slice_lookup, list_lookup_inserts by lia. f_equal. lia.
    + unfold slice. rewrite lookup_take_ge by lia. by rewrite lookup_ge_None_2 by lia.
  - apply slice_ext. intros m Hm. destruct (decide (j < i)%nat).
    + apply list_lookup_inserts_lt. nia.
    + apply list_lookup_inserts_ge. rewrite Hx. nia.
Qed.

(** ** Geometry *)

Section Accounts.
Context {mtd : Type}.
Implicit Types dev : yaffs_Device mtd.

Record geometry dev : Prop := {
  geo_start : 0 < internalStartBlock dev;
  geo_chunks : 0 < nChunksPerBlock dev <= 511;
  geo_stride : chunkBitmapStride dev = (nChunksPerBlock dev + 7) / 8;
  geo_blocks : internalEndBlock dev = internalStartBlock dev + Z.of_nat (length (blockInfo dev)) - 1;
  geo_bits : length (chunkBits dev) = (Z.to_nat (chunkBitmapStride dev) * length (blockInfo dev))%nat;
  geo_bytes : Forall (in_w 8) (chunkBits dev)
}.

(** The bytes of block number [i], counted from the first. *)
Definition bits dev (i : nat) : list Z := slice (Z.to_nat (chunkBitmapStride dev)) i (chunkBits dev).

Definition blk dev (i : nat) : Z := internalStartBlock dev + Z.of_nat i.

Lemma GetBlockInfo_blk dev i : yaffs_GetBlockInfo dev (blk dev i) = blockInfo dev !! i.
Proof.
  unfold yaffs_GetBlockInfo, blk. rewrite (proj2 (Z.ltb_ge _ _)) by lia. f_equal. lia.
Qed.

Lemma stride_bound dev c :
  geometry dev -> 0 <= c < nChunksPerBlock dev ->
  0 < chunkBitmapStride dev /\ c / 8 < chunkBitmapStride dev /\ (Z.to_nat (c / 8) < Z.to_nat (chunkBitmapStride dev))%nat.
Proof.
  intros [] Hc. assert (0 <= c / 8 < chunkBitmapStride dev) by (rewrite geo_stride0; Z.div_mod_to_equations; lia). lia.
Qed.

Lemma bits_bytes dev i : geometry dev -> Forall (in_w 8) (bits dev i).
Proof. intros []. unfold bits, slice. by apply Forall_take, Forall_drop. Qed.

(** The byte of a chunk. *)
Lemma chunk_byte dev i c :
  geometry dev -> (i < length (blockInfo dev))%nat -> 0 <= c < nChunksPerBlock dev ->
  let a := chunkBitmapStride dev * (blk dev i - internalStartBlock dev) + Z.quot c 8 in
  exists x, get (chunkBits dev) a = Some x /\ 0 <= a < blen (chunkBits dev) /\
    Z.to_nat a = (Z.to_nat (chunkBitmapStride dev) * i + Z.to_nat (c / 8))%nat /\
    bits dev i !! Z.to_nat (c / 8) = Some x.
Proof.
  intros Hg Hi Hc a. pose proof Hg as []. destruct (stride_bound dev c Hg Hc) as (Hs & Hlt & Hltn).
  assert (Z.to_nat a = (Z.to_nat (chunkBitmapStride dev) * i + Z.to_nat (c / 8))%nat) as Ha.
  { unfold a, blk. destruct (chunk_pos c) as (-> & _ & ? & _); [lia|]. nia. }
  assert (0 <= a) by (unfold a, blk; destruct (chunk_pos c) as (-> & _ & ? & _); nia).
  assert (Z.to_nat a < length (chunkBits dev))%nat as Hlen by (rewrite Ha, geo_bits0; nia).
  destruct (lookup_lt_is_Some_2 (chunkBits dev) (Z.to_nat a) Hlen) as [x Hx]. exists x. split_and!.
  - unfold get. by replace (0 <=? a) with true by lia.
  - done.
  - unfold blen. lia.
  - done.
  - unfold bits. by rewrite slice_lookup, <- Ha.
Qed.

(** A bitmap [l'] that differs from that of [dev] only in block [i], which has [n] bits set, those
    of [f]. *)
Record bits_change dev (i : nat) (l' : list Z) (n : Z) (f : Z -> bool) : Prop := {
  bc_length : length l' = length (chunkBits dev);
  bc_bytes : Forall (in_w 8) l';
  bc_other : forall j, j <> i -> slice (Z.to_nat (chunkBitmapStride dev)) j l' = bits dev j;
  bc_count : lcount (slice (Z.to_nat (chunkBitmapStride dev)) i l') = n;
  bc_bit : forall c, 0 <= c -> lbit (slice (Z.to_nat (chunkBitmapStride dev)) i l') c = f c
}.

Lemma BlockBits_blk dev i :
  yaffs_BlockBits dev (blk dev i) = Some (chunkBitmapStride dev * (blk dev i - internalStartBlock dev)).
Proof. unfold yaffs_BlockBits. rewrite (proj2 (Z.ltb_ge _ _)); [done|]. unfold blk. lia. Qed.

Section ChunkBit.
Context dev (i : nat) (c : Z).
Hypothesis (Hg : geometry dev) (Hi : (i < length (blockInfo dev))%nat) (Hc : 0 <= c < nChunksPerBlock dev).

Lemma CheckChunkBit_spec : yaffs_CheckChunkBit dev (blk dev i) c = Some (lbit (bits dev i) c).
Proof using Hg Hi Hc.
  destruct (chunk_byte dev i c Hg Hi Hc) as (x & Hget & _ & _ & Hx). unfold yaffs_CheckChunkBit.
  rewrite BlockBits_blk. cbn [mbind option_bind]. rewrite Hget. cbn [mbind option_bind]. f_equal.
  destruct (chunk_pos c) as (_ & -> & _ & ?); [lia|]. rewrite Z.shiftl_1_l, tst_pow2 by lia.
  unfold lbit. by rewrite Hx.
Qed.

Lemma byte_change (a : Z) y :
  Z.to_nat a = (Z.to_nat (chunkBitmapStride dev) * i + Z.to_nat (c / 8))%nat -> 0 <= a < blen (chunkBits dev) ->
  in_w 8 y -> exists l', set (chunkBits dev) a y = Some l' /\ length l' = length (chunkBits dev) /\ Forall (in_w 8) l' /\
    forall j, slice (Z.to_nat (chunkBitmapStride dev)) j l' =
              if decide (j = i) then <[Z.to_nat (c / 8) := y]> (bits dev i) else bits dev j.
Proof using Hg Hi Hc.
  intros Ha Hr Hy. unfold set. rewrite (proj2 (Z.leb_le 0 a)), (proj2 (Z.ltb_lt a _)) by lia. cbn [andb].
  eexists. split; [done|]. split; [apply length_insert|]. split; [apply Forall_insert; [apply Hg|done]|].
  intros j. rewrite Ha. apply slice_insert; [by apply (stride_bound dev c)|]. rewrite <- Ha. unfold blen in Hr. lia.
Qed.

Lemma SetChunkBit_spec :
  exists l', yaffs_SetChunkBit dev (blk dev i) c = Some (dev <| chunkBits := l' |>) /\
    bits_change dev i l' (lcount (bits dev i) + (if lbit (bits dev i) c then 0 else 1))
      (fun c' => (c' =? c) || lbit (bits dev i) c').
Proof using Hg Hi Hc.
  destruct (chunk_byte dev i c Hg Hi Hc) as (x & Hget & Hr & Ha & Hx). unfold yaffs_SetChunkBit.
  rewrite BlockBits_blk. cbn [mbind option_bind]. rewrite Hget. cbn [mbind option_bind].
  destruct (lset_spec (bits dev i) c x (bits_bytes dev i Hg) ltac:(lia) Hx) as (F & E1 & E2).
  destruct (byte_change _ (Z.lor x (Z.shiftl 1 (Z.land c 7))) Ha Hr) as (l' & -> & Hlen & Fl & Hs).
  { eapply Forall_lookup_1; [exact F|]. apply list_lookup_insert_eq. by eapply lookup_lt_Some. }
  exists l'. split; [done|]. constructor; [done|done|..].
  - intros j Hj. by rewrite Hs, decide_False.
  - by rewrite Hs, decide_True.
  - intros c' Hc'. rewrite Hs, decide_True by done. by apply E2.
Qed.

Lemma ClearChunkBit_spec :
  exists l', yaffs_ClearChunkBit dev (blk dev i) c = Some (dev <| chunkBits := l' |>) /\
    bits_change dev i l' (lcount (bits dev i) - (if lbit (bits dev i) c then 1 else 0))
      (fun c' => negb (c' =? c) && lbit (bits dev i) c').
Proof using Hg Hi Hc.
  destruct (chunk_byte dev i c Hg Hi Hc) as (x & Hget & Hr & Ha & Hx). unfold yaffs_ClearChunkBit.
  rewrite BlockBits_blk. cbn [mbind option_bind]. rewrite Hget. cbn [mbind option_bind].
  destruct (lclear_spec (bits dev i) c x (bits_bytes dev i Hg) ltac:(lia) Hx) as (F & E1 & E2).
  destruct (byte_change _ (Z.land x (not_w 8 (Z.shiftl 1 (Z.land c 7)))) Ha Hr) as (l' & -> & Hlen & Fl & Hs).
  { eapply Forall_lookup_1; [exact F|]. apply list_lookup_insert_eq. by eapply lookup_lt_Some. }
  exists l'. split; [done|]. constructor; [done|done|..].
  - intros j Hj. by rewrite Hs, decide_False.
  - by rewrite Hs, decide_True.
  - intros c' Hc'. rewrite Hs, decide_True by done. by apply E2.
Qed.

End ChunkBit.

Lemma lbit_zeros n c : lbit (replicate n 0) c = false.
Proof.
  unfold lbit. destruct (replicate n 0 !! _) as [x|] eqn:E; cbn; [|apply Z.bits_0].
  apply lookup_replicate in E as [-> _]. apply Z.bits_0.
Qed.

Lemma ClearChunkBits_spec dev i :
  geometry dev -> (i < length (blockInfo dev))%nat ->
  exists l', yaffs_ClearChunkBits dev (blk dev i) = Some (dev <| chunkBits := l' |>) /\
    bits_change dev i l' 0 (fun _ => false).
Proof.
  intros Hg Hi. pose proof Hg as []. destruct (stride_bound dev 0 Hg) as (Hs & _ & _); [lia|].
  unfold yaffs_ClearChunkBits. rewrite BlockBits_blk. cbn [mbind option_bind].
  set (S := Z.to_nat (chunkBitmapStride dev)) in *.
  assert (Z.to_nat (chunkBitmapStride dev * (blk dev i - internalStartBlock dev)) = (S * i)%nat) as Ha.
  { unfold blk, S. nia. }
  rewrite copy_Some; [|unfold blk; nia|lia|lia|unfold blk, blen, S in *; nia|unfold blen; rewrite length_replicate; lia].
  cbn [mbind option_bind]. eexists. split; [done|]. rewrite Ha, drop_0, take_ge by (rewrite length_replicate; unfold S; lia).
  assert (forall j, slice S j (list_inserts (S * i) (replicate S 0) (chunkBits dev)) =
                    if decide (j = i) then replicate S 0 else slice S j (chunkBits dev)) as Hsl.
  { intros j. apply slice_inserts; [apply length_replicate|]. rewrite geo_bits0. nia. }
  constructor.
  - apply length_inserts.
  - apply Forall_inserts; [done|]. by apply Forall_replicate.
  - intros j Hj. fold S. by rewrite Hsl, decide_False.
  - fold S. rewrite Hsl, decide_True by done. apply lcount_zeros.
  - intros c Hc. fold S. rewrite Hsl, decide_True by done. apply lbit_zeros.
Qed.

(** ** The accounts *)

(** The free chunks of a block.  When a block is collected its soft deletions have been taken
    off already, and a dirty block is about to be erased. *)
Definition block_free (N : Z) (bi : yaffs_BlockInfo) : Z :=
  match blockState bi with
  | YAFFS_BLOCK_STATE_EMPTY | YAFFS_BLOCK_STATE_ALLOCATING | YAFFS_BLOCK_STATE_FULL =>
      N - pagesInUse bi + softDeletions bi
  | YAFFS_BLOCK_STATE_COLLECTING => N - pagesInUse bi
  | YAFFS_BLOCK_STATE_DIRTY => N
  | _ => 0
  end.

Definition erased (bi : yaffs_BlockInfo) : Z :=
  if bool_decide (blockState bi = YAFFS_BLOCK_STATE_EMPTY) then 1 else 0.

(** Block [i], with [o] the block that is being erased. *)
Definition block_ok (o : option nat) dev (i : nat) (bi : yaffs_BlockInfo) : Prop :=
  match blockState bi with
  | YAFFS_BLOCK_STATE_EMPTY | YAFFS_BLOCK_STATE_CHECKPOINT =>
      pagesInUse bi = 0 /\ softDeletions bi = 0 /\ lcount (bits dev i) = 0
  | YAFFS_BLOCK_STATE_ALLOCATING =>
      allocationBlock dev = blk dev i /\ pagesInUse bi = lcount (bits dev i) /\
      0 <= softDeletions bi <= pagesInUse bi /\ pagesInUse bi <= allocationPage dev /\
      forall c, allocationPage dev <= c -> lbit (bits dev i) c = false
  | YAFFS_BLOCK_STATE_FULL =>
      pagesInUse bi = lcount (bits dev i) /\ pagesInUse bi <= nChunksPerBlock dev /\
      0 <= softDeletions bi <= pagesInUse bi
  | YAFFS_BLOCK_STATE_COLLECTING =>
      pagesInUse bi = lcount (bits dev i) /\ pagesInUse bi <= nChunksPerBlock dev
  | YAFFS_BLOCK_STATE_DIRTY => o = Some i
  | YAFFS_BLOCK_STATE_DEAD => True
  | _ => False
  end.

Definition allocation_ok dev : Prop :=
  allocationBlock dev = -1 \/
  exists i bi, allocationBlock dev = blk dev i /\ blockInfo dev !! i = Some bi /\
    blockState bi = YAFFS_BLOCK_STATE_ALLOCATING /\ 0 <= allocationPage dev < nChunksPerBlock dev.

(** The accounts of a device of whose free chunks [d] are still to be taken off. *)
Record accounts_of (o : option nat) (d : Z) dev : Prop := {
  ac_geometry : geometry dev;
  ac_blocks : forall i bi, blockInfo dev !! i = Some bi -> block_ok o dev i bi;
  ac_erased : nErasedBlocks dev = zsum (erased <$> blockInfo dev);
  ac_free : nFreeChunks dev = zsum (block_free (nChunksPerBlock dev) <$> blockInfo dev) + d;
  ac_allocation : allocation_ok dev
}.

Definition accounts dev : Prop := accounts_of None 0 dev.

(** What the accounts depend on: constants, and the books. *)
Definition constants dev :=
  (internalStartBlock dev, internalEndBlock dev, nChunksPerBlock dev, chunkBitmapStride dev,
   nDataBytesPerChunk dev, totalBytesPerChunk dev, isYaffs2 dev, inbandTags dev).

Record books := Books {
  b_infos : list yaffs_BlockInfo; b_bits : list Z; b_erased : Z; b_free : Z; b_block : Z; b_page : Z
}.

Definition books_of dev : books :=
  Books (blockInfo dev) (chunkBits dev) (nErasedBlocks dev) (nFreeChunks dev) (allocationBlock dev)
    (allocationPage dev).

(** [dev'] is [dev] with the books [b]. *)
Definition moves dev (b : books) dev' : Prop := constants dev' = constants dev /\ books_of dev' = b.

Lemma moves_trans dev b dev' b' dev'' : moves dev b dev' -> moves dev' b' dev'' -> moves dev b' dev''.
Proof. intros [E _] [E' ?]. split; congruence. Qed.

Lemma moves_same dev b dev' dev'' : moves dev b dev' -> moves dev' (books_of dev') dev'' -> moves dev b dev''.
Proof. intros [E Eb] [E' Eb']. split; congruence. Qed.

Lemma geometry_moves dev b dev' :
  geometry dev -> moves dev b dev' -> length (b_infos b) = length (blockInfo dev) ->
  length (b_bits b) = length (chunkBits dev) -> Forall (in_w 8) (b_bits b) -> geometry dev'.
Proof.
  intros [] [Hc <-] Hi Hb Hf. injection Hc as E1 E2 E3 E4 _ _ _ _. cbn [b_infos b_bits books_of] in *.
  constructor; congruence.
Qed.

(** One block changes. *)
Lemma accounts_update o o' d d' dev i bi bi' dev' l' ne nf ab ap :
  accounts_of o d dev -> blockInfo dev !! i = Some bi ->
  moves dev (Books (<[i := bi']> (blockInfo dev)) l' ne nf ab ap) dev' ->
  length l' = length (chunkBits dev) -> Forall (in_w 8) l' -> (forall j, j <> i -> bits dev' j = bits dev j) ->
  block_ok o' dev' i bi' ->
  (forall j bj, j <> i -> blockInfo dev !! j = Some bj -> bits dev' j = bits dev j -> block_ok o dev j bj ->
     block_ok o' dev' j bj) ->
  ne = nErasedBlocks dev - erased bi + erased bi' ->
  nf - d' = nFreeChunks dev - d - block_free (nChunksPerBlock dev) bi + block_free (nChunksPerBlock dev) bi' ->
  allocation_ok dev' -> accounts_of o' d' dev'.
Proof.
  intros [[] Hb He Hf Ha] Hi [Hc Hk] Hl HF Hbits Hok Hothers Hne Hnf Hal. injection Hc as E1 E2 E3 E4 _ _ _ _.
  injection Hk as K1 K2 K3 K4 K5 K6. constructor.
  - constructor; rewrite ?E1, ?E2, ?E3, ?E4, ?K1, ?K2, ?length_insert; congruence.
  - intros j bj Hj. rewrite K1 in Hj. destruct (decide (j = i)) as [->|Hne'].
    + rewrite list_lookup_insert_eq in Hj by (by eapply lookup_lt_Some). by injection Hj as <-.
    + rewrite list_lookup_insert_ne in Hj by done. eapply Hothers; eauto.
  - rewrite K1, K3, (zsum_fmap_insert _ _ _ bi) by done. lia.
  - rewrite K1, K4, E3, (zsum_fmap_insert _ _ _ bi) by done. lia.
  - done.
Qed.

(** A block that is not the one allocated from depends on its bits only. *)
Lemma block_ok_frame o dev dev' j bj :
  constants dev' = constants dev -> bits dev' j = bits dev j ->
  (blockState bj = YAFFS_BLOCK_STATE_ALLOCATING ->
   allocationBlock dev' = allocationBlock dev /\ allocationPage dev' = allocationPage dev) ->
  block_ok o dev j bj -> block_ok o dev' j bj.
Proof.
  intros Hc Eb Hal. injection Hc as E1 E2 E3 E4 _ _ _ _. unfold block_ok, blk. rewrite Eb, E1, E3.
  destruct (blockState bj); try done. destruct Hal as [-> ->]; done.
Qed.

(** The allocator goes on with its block. *)
Lemma allocation_insert dev dev' i bi bi' :
  constants dev' = constants dev -> blockInfo dev' = <[i := bi']> (blockInfo dev) ->
  allocationBlock dev' = allocationBlock dev -> allocationPage dev' = allocationPage dev ->
  blockInfo dev !! i = Some bi ->
  (blockState bi = YAFFS_BLOCK_STATE_ALLOCATING -> blockState bi' = YAFFS_BLOCK_STATE_ALLOCATING) ->
  allocation_ok dev -> allocation_ok dev'.
Proof.
  intros Hc K1 K5 K6 Hi Hst. injection Hc as E1 _ E3 _ _ _ _ _. unfold allocation_ok, blk. rewrite K1, K5, K6, E1, E3.
  intros [E|(j & bj & Hab & Hj & Hs & Hp)]; [by left|]. right. exists j. destruct (decide (j = i)) as [->|Hne].
  - exists bi'. rewrite list_lookup_insert_eq by (by eapply lookup_lt_Some). rewrite Hi in Hj. injection Hj as <-.
    split; [done|]. split; [done|]. split; [by apply Hst|done].
  - exists bj. by rewrite list_lookup_insert_ne.
Qed.

(** A block and its bits change, and the allocator goes on. *)
Lemma accounts_one o d dev i bi bi' dev' l' ne nf :
  accounts_of o d dev -> blockInfo dev !! i = Some bi ->
  moves dev (Books (<[i := bi']> (blockInfo dev)) l' ne nf (allocationBlock dev) (allocationPage dev)) dev' ->
  length l' = length (chunkBits dev) -> Forall (in_w 8) l' -> (forall j, j <> i -> bits dev' j = bits dev j) ->
  (blockState bi = YAFFS_BLOCK_STATE_ALLOCATING -> blockState bi' = YAFFS_BLOCK_STATE_ALLOCATING) ->
  block_ok o dev' i bi' -> ne = nErasedBlocks dev - erased bi + erased bi' ->
  nf = nFreeChunks dev - block_free (nChunksPerBlock dev) bi + block_free (nChunksPerBlock dev) bi' ->
  accounts_of o d dev'.
Proof.
  intros Ha Hi Hm Hl HF Hbits Hst Hok Hne Hnf. pose proof Hm as [Hc Hk]. injection Hk as K1 K2 K3 K4 K5 K6.
  eapply (accounts_update o o d d dev i bi bi' dev' _ _ _ _ _ Ha Hi Hm); try done.
  - intros j bj Hj Hbj Eb Hb. by apply (block_ok_frame o dev).
  - lia.
  - by eapply (allocation_insert dev); try apply Ha.
Qed.

(** The accounts do not see changes elsewhere. *)
Lemma accounts_books o d dev dev' : accounts_of o d dev -> moves dev (books_of dev) dev' -> accounts_of o d dev'.
Proof.
  intros [[] Hb He Hf Ha] [Hc Hk]. pose proof Hc as Hc'. injection Hc as E1 E2 E3 E4 _ _ _ _.
  injection Hk as K1 K2 K3 K4 K5 K6. constructor.
  - constructor; rewrite ?E1, ?E2, ?E3, ?E4, ?K1, ?K2; congruence.
  - intros j bj Hj. apply (block_ok_frame o dev); [done| |by rewrite K5, K6|apply Hb; congruence].
    unfold bits. by rewrite E4, K2.
  - by rewrite K1, K3.
  - by rewrite K1, K4, E3.
  - unfold allocation_ok, blk in *. by rewrite K1, K5, K6, E1, E3.
Qed.

(** ** Changing a block *)

Lemma blk_constants dev dev' i : constants dev' = constants dev -> blk dev' i = blk dev i.
Proof. intros Hc. injection Hc as E1 _ _ _ _ _ _ _. unfold blk. by rewrite E1. Qed.

Lemma bits_books dev dev' i : constants dev' = constants dev -> chunkBits dev' = chunkBits dev -> bits dev' i = bits dev i.
Proof. intros Hc E. injection Hc as _ _ _ E4 _ _ _ _. unfold bits. by rewrite E4, E. Qed.

Lemma set_block_moves dev i bi :
  moves dev (Books (<[i := bi]> (blockInfo dev)) (chunkBits dev) (nErasedBlocks dev) (nFreeChunks dev)
               (allocationBlock dev) (allocationPage dev)) (set_block_info dev (blk dev i) bi).
Proof.
  split; [done|]. unfold set_block_info. replace (Z.to_nat (blk dev i - internalStartBlock dev)) with i; [done|].
  unfold blk. lia.
Qed.

Lemma update_block_blk dev i bi f :
  blockInfo dev !! i = Some bi -> update_block dev (blk dev i) f = Some (set_block_info dev (blk dev i) (f bi)).
Proof. intros Hi. unfold update_block. by rewrite GetBlockInfo_blk, Hi. Qed.

(** Changes to what the accounts do not see. *)
Definition same_use (bi bi' : yaffs_BlockInfo) : Prop :=
  blockState bi' = blockState bi /\ pagesInUse bi' = pagesInUse bi /\ softDeletions bi' = softDeletions bi.

Lemma accounts_flags o d dev i bi bi' :
  accounts_of o d dev -> blockInfo dev !! i = Some bi -> same_use bi bi' ->
  accounts_of o d (set_block_info dev (blk dev i) bi').
Proof.
  intros Ha Hi (Es & Ep & Ed). pose proof (set_block_moves dev i bi') as Hm. revert Hm.
  generalize (set_block_info dev (blk dev i) bi'). intros dev' Hm. pose proof Hm as [Hc Hk]. injection Hk as K1 K2 K3 K4 K5 K6.
  assert (forall j, bits dev' j = bits dev j) as Hbits by (intros j; by apply bits_books).
  eapply (accounts_one o d dev i bi bi' dev' _ _ _ Ha Hi Hm); try done.
  - apply Ha.
  - congruence.
  - apply (block_ok_frame o dev); [done..|]. pose proof (ac_blocks o d dev Ha i bi Hi) as Hb.
    unfold block_ok in *. by rewrite Es, Ep, Ed.
  - unfold erased. rewrite Es. lia.
  - unfold block_free. rewrite Es, Ep, Ed. lia.
Qed.

End Accounts.

(** ** What the drivers promise *)

Definition quiet {mtd} (dev dev' : yaffs_Device mtd) : Prop := moves dev (books_of dev) dev'.

(** A device of YAFFS1 or YAFFS2 with room for the tags in its chunks. *)
Definition sized {mtd} (y2 : bool) (dev : yaffs_Device mtd) : Prop :=
  isYaffs2 dev = y2 /\ 0 <= nDataBytesPerChunk dev /\
  nDataBytesPerChunk dev + (if inbandTags dev then 16 else 0) <= totalBytesPerChunk dev.

Definition writable {mtd} (dev : yaffs_Device mtd) (data : option (list Z)) : Prop :=
  match data with Some d => totalBytesPerChunk dev <= blen d | None => isYaffs2 dev = false end.

(** The access functions of a device leave the books alone and return on all chunks; only YAFFS1
    writes without data. *)
Class QuietOps {mtd} (y2 : bool) (ops : nand_ops mtd) : Prop := {
  quiet_erase : forall dev b, quiet dev (snd (eraseBlockInNAND ops dev b));
  quiet_mark : exists mark, markNANDBlockBad ops = Some mark /\ forall dev b, quiet dev (snd (mark dev b));
  quiet_write : exists write, writeChunkWithTagsToNAND ops = Some write /\
    forall dev c d t, sized y2 dev -> writable dev d -> exists r dev',
      write dev c d t = Some (r, dev') /\ (r = YAFFS_OK \/ r = YAFFS_FAIL) /\ quiet dev dev';
  quiet_read : exists read, readChunkWithTagsFromNAND ops = Some read /\
    forall dev c d t, sized y2 dev -> totalBytesPerChunk dev <= blen d ->
      exists r d' t' dev', read dev c (Some d) t = Some (r, Some d', t', dev') /\ blen d' = blen d /\ quiet dev dev'
}.

Lemma quiet_refl {mtd} (dev : yaffs_Device mtd) : quiet dev dev.
Proof. done. Qed.

Lemma quiet_trans {mtd} (dev dev' dev'' : yaffs_Device mtd) : quiet dev dev' -> quiet dev' dev'' -> quiet dev dev''.
Proof. apply moves_same. Qed.
