(* ===== verification/YaffsBlocksOps.v ===== *)
(** * The operations of the YAFFS block manager keep the accounts

    Every operation of YaffsBlocks.v returns on a device with good accounts and leaves them
    good.  [burn] bounds the chunks that a write may have to give up because their block
    is prioritised for garbage collection. *)

From S2P Require Import Prelude NandEcc NandEccFacts YaffsTags YaffsNand YaffsBlocks YaffsBlocksFacts.

Local Open Scope Z_scope.

Section Changes.
Context {mtd : Type}.
Implicit Types dev : yaffs_Device mtd.

(** The books with one block replaced. *)
Definition block_set dev (i : nat) (bi : yaffs_BlockInfo) : books :=
  Books (<[i := bi]> (blockInfo dev)) (chunkBits dev) (nErasedBlocks dev) (nFreeChunks dev)
    (allocationBlock dev) (allocationPage dev).

(** A block changes that is not allocated from, before and after. *)
Lemma accounts_change o o' d d' dev i bi bi' dev' ne nf :
  accounts_of o d dev -> blockInfo dev !! i = Some bi ->
  moves dev (Books (<[i := bi']> (blockInfo dev)) (chunkBits dev) ne nf (allocationBlock dev) (allocationPage dev)) dev' ->
  blockState bi <> YAFFS_BLOCK_STATE_ALLOCATING -> block_ok o' dev i bi' ->
  (forall j, j <> i -> o = Some j -> o' = Some j) ->
  ne = nErasedBlocks dev - erased bi + erased bi' ->
  nf - d' = nFreeChunks dev - d - block_free (nChunksPerBlock dev) bi + block_free (nChunksPerBlock dev) bi' ->
  accounts_of o' d' dev'.
Proof.
  intros Ha Hi Hm Hst Hok Ho Hne Hnf. pose proof Hm as [Hc Hk]. injection Hk as K1 K2 K3 K4 K5 K6.
  assert (forall j, bits dev' j = bits dev j) as Hbits by (intros j; by apply bits_books).
  eapply (accounts_update o o' d d' dev i bi bi' dev' _ _ _ _ _ Ha Hi Hm); try done.
  - apply Ha.
  - by apply (block_ok_frame o' dev).
  - intros j bj Hj _ Eb Hb. apply (block_ok_frame o' dev); [done..|].
    unfold block_ok in *. destruct (blockState bj); try done. by apply Ho.
  - by eapply (allocation_insert dev); try apply Ha.
Qed.

(** ** Going round the blocks *)

(** The block after [b], the first one after the last. *)
Definition next_block dev (b : Z) : Z :=
  if (b + 1 <? internalStartBlock dev) || (internalEndBlock dev <? b + 1) then internalStartBlock dev else b + 1.

Lemma next_block_index dev b :
  geometry dev -> (0 < length (blockInfo dev))%nat -> exists j, (j < length (blockInfo dev))%nat /\ next_block dev b = blk dev j.
Proof.
  intros [Hs _ _ He _ _] Hl. unfold next_block, blk.
  destruct ((b + 1 <? internalStartBlock dev) || _) eqn:E.
  - exists 0%nat. lia.
  - apply orb_false_iff in E as [E1 E2]. exists (Z.to_nat (b + 1 - internalStartBlock dev)). lia.
Qed.

Lemma next_block_succ dev j :
  geometry dev -> (j < length (blockInfo dev))%nat ->
  next_block dev (blk dev j) = blk dev ((j + 1) mod length (blockInfo dev))%nat.
Proof.
  intros [Hs _ _ He _ _] Hj. unfold next_block, blk. rewrite (proj2 (Z.ltb_ge _ _)) by lia. cbn [orb].
  destruct (Z.ltb_spec (internalEndBlock dev) (internalStartBlock dev + Z.of_nat j + 1)).
  - replace (j + 1)%nat with (length (blockInfo dev)) by lia. rewrite Nat.Div0.mod_same. lia.
  - rewrite Nat.mod_small by lia. lia.
Qed.

Lemma cycle_next dev j :
  geometry dev -> (j < length (blockInfo dev))%nat ->
  let n := length (blockInfo dev) in
  (S j mod n < n)%nat /\ (forall r, (S j mod n + r) mod n = (j + S r) mod n)%nat /\
  next_block dev (blk dev j) = blk dev (S j mod n).
Proof.
  intros Hg Hj n. split; [apply Nat.mod_upper_bound; unfold n; lia|]. split.
  - intros r. rewrite Nat.Div0.add_mod_idemp_l. f_equal. lia.
  - rewrite next_block_succ by done. by rewrite Nat.add_1_r.
Qed.

(** As many steps as there are blocks lead to every block. *)
Lemma cycle_covers n j i : (j < n)%nat -> (i < n)%nat -> exists r, (r < n)%nat /\ ((j + r) mod n)%nat = i.
Proof.
  intros Hj Hi. exists ((i + n - j) mod n)%nat. split; [apply Nat.mod_upper_bound; lia|].
  rewrite Nat.Div0.add_mod_idemp_r. replace (j + (i + n - j))%nat with (i + 1 * n)%nat by lia.
  rewrite Nat.Div0.mod_add. by apply Nat.mod_small.
Qed.

(** ** The chunks that may be given up *)

Definition burn_block (N page : Z) (bi : yaffs_BlockInfo) : Z :=
  if gcPrioritise bi then
    match blockState bi with
    | YAFFS_BLOCK_STATE_EMPTY | YAFFS_BLOCK_STATE_CHECKPOINT => N
    | YAFFS_BLOCK_STATE_ALLOCATING => N - page
    | _ => 0
    end
  else 0.

Definition burn dev : Z := zsum (burn_block (nChunksPerBlock dev) (allocationPage dev) <$> blockInfo dev).

Lemma burn_quiet dev dev' : quiet dev dev' -> burn dev' = burn dev.
Proof.
  intros [Hc Hk]. injection Hc as _ _ E3 _ _ _ _ _. injection Hk as K1 _ _ _ _ K6. unfold burn. by rewrite E3, K1, K6.
Qed.

(** ** Checkpoint blocks that are given back *)

Definition unchecked_block (bi bi' : yaffs_BlockInfo) : Prop :=
  bi' = bi \/
  blockState bi = YAFFS_BLOCK_STATE_CHECKPOINT /\
  (bi' = bi <| blockState := YAFFS_BLOCK_STATE_EMPTY |> \/ bi' = bi <| blockState := YAFFS_BLOCK_STATE_DEAD |>).

Record unchecked dev dev' : Prop := {
  un_constants : constants dev' = constants dev;
  un_bits : chunkBits dev' = chunkBits dev;
  un_block : allocationBlock dev' = allocationBlock dev;
  un_page : allocationPage dev' = allocationPage dev;
  un_infos : Forall2 unchecked_block (blockInfo dev) (blockInfo dev')
}.

Lemma unchecked_quiet dev dev' : quiet dev dev' -> unchecked dev dev'.
Proof.
  intros [Hc Hk]. injection Hk as K1 K2 _ _ K5 K6. constructor; try done. rewrite K1.
  apply Forall_Forall2_diag, Forall_true. intros bi. by left.
Qed.

Lemma unchecked_trans dev dev' dev'' : unchecked dev dev' -> unchecked dev' dev'' -> unchecked dev dev''.
Proof.
  intros [] []. constructor; try congruence. eapply Forall2_trans; [|eassumption..].
  intros x y z [-> | (Hs & Hy)]; [done|]. intros [-> | (Hs' & _)]; [by right|].
  by destruct Hy as [-> | ->].
Qed.

Lemma unchecked_set dev i bi bi' dev' ne nf :
  blockInfo dev !! i = Some bi -> unchecked_block bi bi' ->
  moves dev (Books (<[i := bi']> (blockInfo dev)) (chunkBits dev) ne nf (allocationBlock dev) (allocationPage dev)) dev' ->
  unchecked dev dev'.
Proof.
  intros Hi Hb [Hc Hk]. injection Hk as K1 K2 _ _ K5 K6. constructor; try done. rewrite K1.
  apply Forall2_same_length_lookup. split; [by rewrite length_insert|]. intros j x y Hx Hy.
  destruct (decide (j = i)) as [->|Hne].
  - rewrite list_lookup_insert_eq in Hy by (by eapply lookup_lt_Some). congruence.
  - rewrite list_lookup_insert_ne in Hy by done. left. congruence.
Qed.

(** A block that is not in the checkpoint stays as it is. *)
Lemma unchecked_lookup dev dev' i bi :
  unchecked dev dev' -> blockInfo dev !! i = Some bi -> blockState bi <> YAFFS_BLOCK_STATE_CHECKPOINT ->
  blockInfo dev' !! i = Some bi.
Proof.
  intros [_ _ _ _ H] Hi Hs. destruct (Forall2_lookup_l _ _ _ _ _ H Hi) as (bi' & Hi' & [-> | [? _]]); done.
Qed.

Lemma zsum_le {A B} (f : A -> Z) (g : B -> Z) l k : Forall2 (fun x y => g y <= f x) l k -> zsum (g <$> k) <= zsum (f <$> l).
Proof.
  induction 1 as [|x y l k Hxy _ IH]; [reflexivity|].
  change (g y + zsum (g <$> k) <= f x + zsum (f <$> l)). lia.
Qed.

Lemma burn_unchecked dev dev' : geometry dev -> unchecked dev dev' -> burn dev' <= burn dev.
Proof.
  intros [] []. injection un_constants0 as _ _ E3 _ _ _ _ _. unfold burn. rewrite E3, un_page0. apply zsum_le.
  eapply Forall2_impl; [|exact un_infos0]. intros bi bi' [-> | (Hs & [-> | ->])]; [reflexivity|..];
    unfold burn_block; cbn [gcPrioritise blockState assign]; destruct (gcPrioritise bi); rewrite ?Hs; lia.
Qed.

End Changes.

Lemma erased_not bi : blockState bi <> YAFFS_BLOCK_STATE_EMPTY -> erased bi = 0.
Proof. intros H. unfold erased. by rewrite bool_decide_false. Qed.

Section Ops.
Context {mtd : Type} (y2 : bool) (ops : nand_ops mtd) `{!QuietOps y2 ops} (tmp : list Z).
Implicit Types dev : yaffs_Device mtd.

(** ** Access through yaffs_nand.c *)

Lemma nand_erase_quiet dev b : quiet dev (snd (yaffs_EraseBlockInNAND ops dev b)).
Proof using QuietOps0.
  unfold yaffs_EraseBlockInNAND. cbv zeta. eapply quiet_trans; [|apply quiet_erase]. done.
Qed.

Lemma nand_mark_quiet dev b : quiet dev (snd (yaffs_MarkBlockBad ops dev b)).
Proof using QuietOps0. unfold yaffs_MarkBlockBad. destruct quiet_mark as (mark & -> & H). apply H. Qed.

Lemma nand_write_quiet dev c d t :
  sized y2 dev -> writable dev d ->
  exists r dev',
    yaffs_WriteChunkWithTagsToNAND ops dev c d (Some t) =
      Some (r, t <| sequenceNumber := dev_sequenceNumber dev |> <| chunkUsed := 1 |>, dev') /\
    (r = YAFFS_OK \/ r = YAFFS_FAIL) /\ quiet dev dev'.
Proof using QuietOps0.
  intros Hs Hw. unfold yaffs_WriteChunkWithTagsToNAND. cbn [mbind option_bind].
  destruct quiet_write as (write & -> & H).
  match goal with |- context [write ?dv ?c' ?d' ?t'] =>
    destruct (H dv c' d' t' Hs Hw) as (r & dev' & E & Hr & Hq) end.
  rewrite E.
  cbn [mbind option_bind]. by eexists _, _.
Qed.

Lemma HandleChunkError_use dev bi dev' bi' :
  yaffs_HandleChunkError dev bi = (dev', bi') ->
  quiet dev dev' /\ same_use bi bi'.
Proof using Type.
  unfold yaffs_HandleChunkError. destruct (gcPrioritise bi); cbn [negb]; intros [= <- <-]; [done|].
  split; [done|]. by destruct (3 <? _).
Qed.

Lemma nand_read_flags dev c d t i bi :
  sized y2 dev -> totalBytesPerChunk dev <= blen d -> Z.quot c (nChunksPerBlock dev) = blk dev i ->
  blockInfo dev !! i = Some bi ->
  exists r d' t' dev' bi',
    yaffs_ReadChunkWithTagsFromNAND ops dev c (Some d) (Some t) = Some (r, Some d', t', dev') /\ blen d' = blen d /\
    same_use bi bi' /\ moves dev (block_set dev i bi') dev'.
Proof using QuietOps0.
  intros Hs Hw Hc Hi. unfold yaffs_ReadChunkWithTagsFromNAND. cbn [default from_option id].
  destruct quiet_read as (read & -> & H).
  match goal with |- context [read ?dv ?c' (Some ?d') ?t'] =>
    destruct (H dv c' d' t' Hs Hw) as (r & d1 & t1 & dev' & E & Hl & Hq) end.
  rewrite E. cbn [mbind option_bind]. change (quiet dev dev') in Hq.
  assert (moves dev (block_set dev i bi) dev') as Hid.
  { unfold block_set. rewrite list_insert_id by done. exact Hq. }
  pose proof Hq as [Hcc Hk]. injection Hk as K1 K2 K3 K4 K5 K6. pose proof Hcc as Hcc'.
  injection Hcc' as _ _ E3 _ _ _ _ _.
  assert (yaffs_GetBlockInfo dev' (Z.quot c (nChunksPerBlock dev')) = Some bi) as Hget.
  { by rewrite E3, Hc, <- (blk_constants dev dev'), GetBlockInfo_blk, K1. }
  destruct (yaffs_HandleChunkError dev' bi) as [dev2 bi'] eqn:Eh.
  destruct (HandleChunkError_use _ _ _ _ Eh) as [Hq2 Hu].
  assert (moves dev (block_set dev i bi') (set_block_info dev2 (Z.quot c (nChunksPerBlock dev')) bi')) as Hset.
  { pose proof Hq2 as [Hc2 Hk2]. injection Hk2 as L1 L2 L3 L4 L5 L6.
    rewrite E3, Hc, <- (blk_constants dev dev'), <- (blk_constants dev' dev2) by done.
    destruct (set_block_moves dev2 i bi') as [H1 H2]. split; [congruence|]. rewrite H2. unfold block_set. congruence. }
  destruct (eccResult t1); rewrite ?Hget; cbn [mbind option_bind]; rewrite ?Eh;
    [exists r, d1, t1, dev', bi|exists r, d1, t1, dev', bi|eexists r, d1, t1, _, bi'|eexists r, d1, t1, _, bi']; done.
Qed.

(** ** Invalidating the checkpoint *)

(** The block is taken out of the checkpoint, erased or retired. *)
Lemma checkpoint_block o d dev i bi (empty : bool) :
  accounts_of o d dev -> blockInfo dev !! i = Some bi -> blockState bi = YAFFS_BLOCK_STATE_CHECKPOINT ->
  let dev' := if empty
    then (set_block_info dev (blk dev i) (bi <| blockState := YAFFS_BLOCK_STATE_EMPTY |>))
           <| nErasedBlocks ::= Z.succ |> <| nFreeChunks ::= Z.add (nChunksPerBlock dev) |>
    else set_block_info dev (blk dev i) (bi <| blockState := YAFFS_BLOCK_STATE_DEAD |>) in
  accounts_of o d dev' /\ unchecked dev dev'.
Proof using Type.
  intros Ha Hi Hs dev'. pose proof (ac_blocks o d dev Ha i bi Hi) as Hb. unfold block_ok in Hb. rewrite Hs in Hb.
  destruct empty; unfold dev'.
  - set (bi' := bi <| blockState := YAFFS_BLOCK_STATE_EMPTY |>).
    destruct (set_block_moves dev i bi') as [Hc Hk]. injection Hk as K1.
    assert (moves dev (Books (<[i := bi']> (blockInfo dev)) (chunkBits dev) (nErasedBlocks dev + 1)
      (nFreeChunks dev + nChunksPerBlock dev) (allocationBlock dev) (allocationPage dev))
      ((set_block_info dev (blk dev i) bi') <| nErasedBlocks ::= Z.succ |>
         <| nFreeChunks ::= Z.add (nChunksPerBlock dev) |>)) as Hm.
    { split; [done|]. unfold books_of. f_equal; [exact K1|]. apply Z.add_comm. }
    split.
    + eapply (accounts_change o o d d dev i bi bi' _ _ _ Ha Hi Hm); try done; [congruence|..].
      * rewrite (erased_not bi) by congruence. change (erased bi') with 1. lia.
      * unfold block_free. rewrite Hs. cbn [bi' blockState pagesInUse softDeletions assign].
        destruct Hb as (-> & -> & _). lia.
    + eapply (unchecked_set dev i bi bi'); [done| |exact Hm]. right. split; [done|]. by left.
  - set (bi' := bi <| blockState := YAFFS_BLOCK_STATE_DEAD |>). pose proof (set_block_moves dev i bi') as Hm. split.
    + eapply (accounts_change o o d d dev i bi bi' _ _ _ Ha Hi Hm); try done; [congruence|..].
      * rewrite !erased_not by (congruence || done). lia.
      * unfold block_free. rewrite Hs. cbn [bi' blockState assign]. lia.
    + eapply (unchecked_set dev i bi bi'); [done| |exact Hm]. right. split; [done|]. by right.
Qed.

Lemma accounts_quiet o d dev dev' : quiet dev dev' -> accounts_of o d dev -> accounts_of o d dev'.
Proof using Type. intros Hq Ha. by apply (accounts_books o d dev). Qed.

Lemma unchecked_length dev dev' : unchecked dev dev' -> length (blockInfo dev') = length (blockInfo dev).
Proof using Type. intros []. symmetry. by eapply Forall2_length. Qed.

Lemma blk_succ dev i : blk dev i + 1 = blk dev (S i).
Proof using Type. unfold blk. lia. Qed.

Lemma constants_chunks dev dev' : constants dev' = constants dev -> nChunksPerBlock dev' = nChunksPerBlock dev.
Proof using Type. intros Hc. by injection Hc. Qed.

Lemma blk_quiet dev dev' i : quiet dev dev' -> blk dev' i = blk dev i /\ blockInfo dev' = blockInfo dev.
Proof using Type. intros [Hc Hk]. injection Hk as K1 _ _ _ _ _. split; [by apply blk_constants|done]. Qed.

Lemma checkpoint_block_spec o d dev i bi :
  accounts_of o d dev -> blockInfo dev !! i = Some bi ->
  exists dev', checkpoint_erase_block ops dev (blk dev i) = Some dev' /\ accounts_of o d dev' /\ unchecked dev dev'.
Proof using QuietOps0.
  intros Ha Hi. unfold checkpoint_erase_block. rewrite GetBlockInfo_blk, Hi. cbn [mbind option_bind].
  case_bool_decide as Hs.
  2:{ exists dev. split_and!; [done|done|]. by apply unchecked_quiet. }
  cbv zeta. destruct (eraseBlockInNAND ops _ _) as [r dev1] eqn:E1.
  assert (quiet dev dev1) as Hq1.
  { change dev1 with (snd (r, dev1)). rewrite <- E1. eapply quiet_trans; [|apply quiet_erase]. done. }
  destruct (blk_quiet dev dev1 i Hq1) as [Eb Ei]. destruct (truthy r).
  - rewrite <- Eb, (update_block_blk dev1 i bi) by congruence. cbn [mbind option_bind]. eexists. split; [done|].
    destruct (checkpoint_block o d dev1 i bi true) as [H1 H2]; [by apply (accounts_quiet o d dev)|congruence|done|].
    split; [exact H1|]. eapply unchecked_trans; [by apply unchecked_quiet|exact H2].
  - destruct quiet_mark as (mark & -> & Hmark). cbn [mbind option_bind].
    destruct (mark dev1 (blk dev i)) as [r2 dev2] eqn:E2.
    assert (quiet dev dev2) as Hq2.
    { apply (quiet_trans _ dev1); [done|]. change dev2 with (snd (r2, dev2)). rewrite <- E2. apply Hmark. }
    destruct (blk_quiet dev dev2 i Hq2) as [Eb2 Ei2].
    rewrite <- Eb2, (update_block_blk dev2 i bi) by congruence. eexists. split; [done|].
    destruct (checkpoint_block o d dev2 i bi false) as [H1 H2]; [by apply (accounts_quiet o d dev)|congruence|done|].
    split; [exact H1|]. eapply unchecked_trans; [by apply unchecked_quiet|exact H2].
Qed.

Lemma checkpoint_erase_spec o d n : forall dev i,
  accounts_of o d dev -> (i + n <= length (blockInfo dev))%nat ->
  exists dev', checkpoint_erase_loop ops n dev (blk dev i) = Some dev' /\ accounts_of o d dev' /\ unchecked dev dev'.
Proof using QuietOps0.
  induction n as [|n IH]; intros dev i Ha Hn.
  { exists dev. split_and!; [done|done|]. by apply unchecked_quiet. }
  destruct (lookup_lt_is_Some_2 (blockInfo dev) i) as [bi Hi]; [lia|]. cbn [checkpoint_erase_loop].
  destruct (checkpoint_block_spec o d dev i bi Ha Hi) as (dev1 & -> & Ha1 & Hu1). cbn [mbind option_bind].
  rewrite blk_succ, <- (blk_constants dev dev1) by apply Hu1.
  destruct (IH dev1 (S i) Ha1) as (dev2 & E2 & Ha2 & Hu2); [rewrite (unchecked_length _ _ Hu1); lia|].
  exists dev2. split_and!; [done|done|]. by eapply unchecked_trans.
Qed.

Lemma InvalidateCheckpoint_spec o d dev :
  accounts_of o d dev ->
  exists dev', yaffs_InvalidateCheckpoint ops dev = Some dev' /\ accounts_of o d dev' /\ unchecked dev dev'.
Proof using QuietOps0.
  intros Ha. unfold yaffs_InvalidateCheckpoint, yaffs_CheckpointInvalidateStream.
  destruct (isCheckpointed dev || _).
  2:{ exists dev. split_and!; [done|done|]. by apply unchecked_quiet. }
  cbv zeta. set (dev1 := dev <| isCheckpointed := false |>).
  assert (quiet dev dev1) as Hq1 by done. clearbody dev1.
  pose proof (accounts_quiet o d _ _ Hq1 Ha) as Ha1. pose proof (unchecked_quiet _ _ Hq1) as Hu1.
  destruct (negb _). { exists dev1. done. }
  unfold yaffs_CheckpointErase.
  destruct (checkpoint_erase_spec o d (block_count dev1) dev1 0 Ha1) as (dev2 & E & Ha2 & Hu2).
  { destruct (ac_geometry _ _ _ Ha1). unfold block_count. lia. }
  unfold blk in E. change (Z.of_nat 0) with 0 in E. rewrite Z.add_0_r in E. rewrite E. cbn [mbind option_bind].
  eexists. split; [done|]. split; [by apply (accounts_quiet o d dev2)|].
  eapply unchecked_trans; [exact Hu1|]. eapply unchecked_trans; [exact Hu2|]. by apply unchecked_quiet.
Qed.

(** ** Erasing and retiring a block *)

(** The buffers are long enough. *)
Definition buffered dev : Prop := sized y2 dev /\ totalBytesPerChunk dev <= blen tmp.

Lemma buffered_constants dev dev' : constants dev' = constants dev -> buffered dev -> buffered dev'.
Proof using Type.
  intros Hc. injection Hc as _ _ _ _ E5 E6 E7 E8. unfold buffered, sized. by rewrite E5, E6, E7, E8.
Qed.

(** No chunk goes in or out of use, and no more chunks may have to be given up. *)
Record settles dev dev' : Prop := {
  se_constants : constants dev' = constants dev;
  se_block : allocationBlock dev' = allocationBlock dev;
  se_page : allocationPage dev' = allocationPage dev;
  se_bits : forall j c, 0 <= c -> lbit (bits dev' j) c = lbit (bits dev j) c;
  se_burn : burn dev' <= burn dev
}.

Lemma settles_unchecked dev dev' : geometry dev -> unchecked dev dev' -> settles dev dev'.
Proof using Type.
  intros Hg Hu. pose proof (burn_unchecked _ _ Hg Hu). destruct Hu. constructor; try done.
  intros j c _. by rewrite (bits_books dev dev').
Qed.

Lemma settles_trans dev dev' dev'' : settles dev dev' -> settles dev' dev'' -> settles dev dev''.
Proof using Type.
  intros [] []. constructor; try congruence; [|lia]. intros j c Hc. by rewrite se_bits1, se_bits0.
Qed.

Lemma settles_quiet dev dev' : geometry dev -> quiet dev dev' -> settles dev dev'.
Proof using Type. intros Hg Hq. by apply settles_unchecked, unchecked_quiet. Qed.

Lemma burn_set dev dev' i bi bi' :
  constants dev' = constants dev -> blockInfo dev !! i = Some bi -> blockInfo dev' = <[i := bi']> (blockInfo dev) ->
  allocationPage dev' = allocationPage dev ->
  burn dev' = burn dev - burn_block (nChunksPerBlock dev) (allocationPage dev) bi +
              burn_block (nChunksPerBlock dev) (allocationPage dev) bi'.
Proof using Type.
  intros Hc Hi E Ep. injection Hc as _ _ E3 _ _ _ _ _. unfold burn. rewrite E3, E, Ep. by apply zsum_fmap_insert.
Qed.

(** A block that is not allocated from changes so that nothing of it need be given up. *)
Lemma settles_set dev i bi bi' dev' ne nf :
  geometry dev -> blockInfo dev !! i = Some bi ->
  moves dev (Books (<[i := bi']> (blockInfo dev)) (chunkBits dev) ne nf (allocationBlock dev) (allocationPage dev)) dev' ->
  burn_block (nChunksPerBlock dev) (allocationPage dev) bi' <=
    burn_block (nChunksPerBlock dev) (allocationPage dev) bi ->
  settles dev dev'.
Proof using Type.
  intros Hg Hi [Hc Hk] Hb. injection Hk as K1 K2 K3 K4 K5 K6. constructor; try done.
  - intros j c _. by rewrite (bits_books dev dev').
  - rewrite (burn_set dev dev' i bi bi') by done. lia.
Qed.

Lemma retire_mark_quiet dev b : buffered dev -> exists dev', retire_mark ops tmp dev b = Some dev' /\ quiet dev dev'.
Proof using QuietOps0.
  intros Hbuf. unfold retire_mark. pose proof (nand_mark_quiet dev b) as Hq1.
  destruct (yaffs_MarkBlockBad ops dev b) as [r dev1]. cbn [snd] in Hq1.
  destruct (negb (r =? YAFFS_OK)). 2:{ by exists dev1. }
  pose proof (nand_erase_quiet dev1 b) as Hq2. destruct (yaffs_EraseBlockInNAND ops dev1 b) as [r2 dev2]. cbn [snd] in Hq2.
  pose proof (quiet_trans _ _ _ Hq1 Hq2) as Hq. destruct (negb (r2 =? YAFFS_OK)). { by exists dev2. }
  cbv zeta. destruct quiet_write as (write & -> & H). cbn [mbind option_bind].
  assert (buffered dev2) as [(Hs0 & Hs1 & Hs2) Ht] by (apply (buffered_constants dev); [apply Hq|done]).
  match goal with |- context [write ?dv ?c' ?d' ?t'] =>
    destruct (H dv c' d' t' (conj Hs0 (conj Hs1 Hs2))) as (r3 & dev3 & E & _ & Hq3) end.
  { unfold writable, blen in *. rewrite length_app, length_replicate, length_drop. destruct (inbandTags dev2); lia. }
  rewrite E. exists dev3. split; [done|]. by apply (quiet_trans _ dev2).
Qed.

Lemma RetireBlock_spec d dev i bi :
  accounts_of (Some i) d dev -> buffered dev -> blockInfo dev !! i = Some bi -> blockState bi = YAFFS_BLOCK_STATE_DIRTY ->
  exists dev', yaffs_RetireBlock ops tmp dev (blk dev i) = Some dev' /\
    accounts_of None (d + nChunksPerBlock dev) dev' /\ settles dev dev'.
Proof using QuietOps0.
  intros Ha Hbuf Hi Hs. unfold yaffs_RetireBlock. rewrite GetBlockInfo_blk, Hi. cbn [mbind option_bind].
  destruct (InvalidateCheckpoint_spec _ d dev Ha) as (dev1 & -> & Ha1 & Hu1). cbn [mbind option_bind].
  pose proof (unchecked_lookup _ _ i bi Hu1 Hi) as Hi1. rewrite Hs in Hi1. specialize (Hi1 ltac:(done)).
  destruct (retire_mark_quiet dev1 (blk dev i)) as (dev2 & -> & Hq2).
  { apply (buffered_constants dev); [apply Hu1|done]. }
  cbn [mbind option_bind]. destruct (blk_quiet dev1 dev2 i Hq2) as [Eb2 Ei2].
  rewrite <- (blk_constants dev dev1), <- Eb2, (update_block_blk dev2 i bi) by (apply Hu1 || congruence).
  cbn [mbind option_bind]. set (bi' := _ <| needsRetiring := false |>).
  eexists. split; [done|]. pose proof (accounts_quiet _ _ _ _ Hq2 Ha1) as Ha2.
  assert (blockInfo dev2 !! i = Some bi) as Hi2 by congruence.
  match goal with |- accounts_of _ _ ?dv /\ _ => assert (moves dev2 (block_set dev2 i bi') dv) as Hm end.
  { apply (set_block_moves dev2 i bi'). }
  split.
  - eapply (accounts_change _ _ _ _ dev2 i bi bi' _ _ _ Ha2 Hi2 Hm); try done; [congruence|congruence|..].
    + rewrite !erased_not by (congruence || done). lia.
    + assert (nChunksPerBlock dev2 = nChunksPerBlock dev) as EN.
      { apply constants_chunks. rewrite (proj1 Hq2). apply Hu1. }
      unfold block_free. rewrite Hs, EN. cbn [bi' blockState assign]. lia.
  - apply (settles_trans _ dev1); [apply settles_unchecked; [apply Ha|done]|].
    apply (settles_trans _ dev2); [apply settles_quiet; [apply Ha1|done]|].
    eapply (settles_set dev2 i bi bi'); [apply Ha2|done|exact Hm|].
    unfold burn_block. rewrite Hs. cbn [bi' gcPrioritise]. by destruct (gcPrioritise bi).
Qed.

(** A block without chunks in use has no bit set. *)
Lemma no_bits dev i c : geometry dev -> lcount (bits dev i) = 0 -> 0 <= c -> lbit (bits dev i) c = false.
Proof using Type.
  intros Hg H0 Hc. destruct (lbit (bits dev i) c) eqn:E; [|done].
  pose proof (lcount_pos _ c (bits_bytes dev i Hg) Hc E). lia.
Qed.

Lemma dirty_erase_spec dev i bi :
  accounts_of (Some i) 0 dev -> blockInfo dev !! i = Some bi -> blockState bi = YAFFS_BLOCK_STATE_DIRTY ->
  exists r dev', dirty_erase ops dev bi (blk dev i) = Some (r, dev') /\ accounts_of (Some i) 0 dev' /\ unchecked dev dev'.
Proof using QuietOps0.
  intros Ha Hi Hs. unfold dirty_erase. destruct (needsRetiring bi); cbn [negb].
  { exists 0, dev. split_and!; [done|done|]. by apply unchecked_quiet. }
  destruct (InvalidateCheckpoint_spec _ 0 dev Ha) as (dev1 & -> & Ha1 & Hu1). cbn [mbind option_bind].
  pose proof (nand_erase_quiet dev1 (blk dev i)) as Hq2.
  destruct (yaffs_EraseBlockInNAND ops dev1 (blk dev i)) as [r dev2]. cbn [snd] in Hq2.
  eexists r, _. split; [done|]. assert (quiet dev1 (if truthy r then dev2 else dev2 <| nErasureFailures ::= Z.succ |>)) as Hq.
  { by destruct (truthy r). }
  split; [by eapply accounts_quiet|]. eapply unchecked_trans; [done|]. by apply unchecked_quiet.
Qed.

Definition clean_block (bi : yaffs_BlockInfo) : yaffs_BlockInfo :=
  bi <| blockState := YAFFS_BLOCK_STATE_EMPTY |> <| pagesInUse := 0 |> <| softDeletions := 0 |>
     <| hasShrinkHeader := false |> <| skipErasedCheck := true |> <| gcPrioritise := false |>.

(** Only the block and its part of the bitmap change. *)
Lemma dirty_clean_moves dev i bi :
  geometry dev -> blockInfo dev !! i = Some bi ->
  exists l' dev', dirty_clean dev (blk dev i) = Some dev' /\ bits_change dev i l' 0 (fun _ => false) /\
    moves dev (Books (<[i := clean_block bi]> (blockInfo dev)) l' (nErasedBlocks dev + 1) (nFreeChunks dev)
                 (allocationBlock dev) (allocationPage dev)) dev'.
Proof using Type.
  intros Hg Hi. unfold dirty_clean. rewrite (update_block_blk dev i bi) by done. cbn [mbind option_bind]. cbv zeta.
  set (bi1 := bi <| blockState := YAFFS_BLOCK_STATE_EMPTY |>).
  set (dev1 := _ <| nErasedBlocks ::= Z.succ |>).
  assert (moves dev (Books (<[i := bi1]> (blockInfo dev)) (chunkBits dev) (nErasedBlocks dev + 1) (nFreeChunks dev)
                 (allocationBlock dev) (allocationPage dev)) dev1) as Hm1.
  { destruct (set_block_moves dev i bi1) as [Hc Hk]. injection Hk as K1. split; [done|]. unfold books_of. by f_equal. }
  clearbody dev1. pose proof Hm1 as [Hc1 Hk1]. injection Hk1 as K1 K2 K3 K4 K5 K6.
  assert (blockInfo dev1 !! i = Some bi1) as Hi1.
  { rewrite K1. apply list_lookup_insert_eq. by eapply lookup_lt_Some. }
  rewrite <- (blk_constants dev dev1), (update_block_blk dev1 i bi1) by done. cbn [mbind option_bind].
  set (dev2 := set_block_info dev1 _ _).
  assert (moves dev (Books (<[i := clean_block bi]> (blockInfo dev)) (chunkBits dev) (nErasedBlocks dev + 1)
                 (nFreeChunks dev) (allocationBlock dev) (allocationPage dev)) dev2) as Hm2.
  { destruct (set_block_moves dev1 i (clean_block bi)) as [Hc Hk]. split; [by rewrite <- Hc1, <- Hc|].
    change (books_of dev2) with (books_of (set_block_info dev1 (blk dev1 i) (clean_block bi))). rewrite Hk.
    by rewrite K1, K2, K3, K4, K5, K6, list_insert_insert_eq. }
  clearbody dev2. pose proof Hm2 as [Hc2 Hk2]. injection Hk2 as L1 L2 L3 L4 L5 L6.
  assert (geometry dev2) as Hg2.
  { eapply (geometry_moves dev); [done|exact Hm2|apply length_insert|done|apply Hg]. }
  rewrite (blk_constants dev dev1), <- (blk_constants dev dev2) by done.
  destruct (ClearChunkBits_spec dev2 i Hg2) as (l' & -> & Hbc).
  { rewrite L1, length_insert. by eapply lookup_lt_Some. }
  exists l'. eexists. split; [done|]. split.
  - destruct Hbc as [B1 B2 B3 B4 B5]. injection Hc2 as _ _ _ E4 _ _ _ _. unfold bits in B3. rewrite L2, ?E4 in *.
    by constructor.
  - split; [done|]. unfold books_of. cbn. by f_equal.
Qed.

(** The bits of a device after a change of the bitmap. *)
Lemma bits_after dev i l' n f dev' :
  bits_change dev i l' n f -> constants dev' = constants dev -> chunkBits dev' = l' ->
  (forall j, j <> i -> bits dev' j = bits dev j) /\ lcount (bits dev' i) = n /\
  (forall c, 0 <= c -> lbit (bits dev' i) c = f c).
Proof using Type.
  intros [_ _ B3 B4 B5] Hc E. injection Hc as _ _ _ E4 _ _ _ _. unfold bits. rewrite E, E4. done.
Qed.

Lemma dirty_clean_spec dev i bi :
  accounts_of (Some i) 0 dev -> blockInfo dev !! i = Some bi -> blockState bi = YAFFS_BLOCK_STATE_DIRTY ->
  lcount (bits dev i) = 0 ->
  exists dev', dirty_clean dev (blk dev i) = Some dev' /\ accounts dev' /\ settles dev dev'.
Proof using Type.
  intros Ha Hi Hs H0. pose proof (ac_geometry _ _ _ Ha) as Hg.
  destruct (dirty_clean_moves dev i bi Hg Hi) as (l' & dev' & -> & Hbc & Hm). exists dev'. split; [done|].
  pose proof Hm as [Hc Hk]. injection Hk as K1 K2 K3 K4 K5 K6.
  destruct (bits_after _ _ _ _ _ dev' Hbc Hc K2) as (B1 & B2 & B3). split.
  - eapply (accounts_update _ None _ 0 dev i bi (clean_block bi) dev' _ _ _ _ _ Ha Hi Hm); try done; try apply Hbc.
    + intros j bj Hj _ Eb Hb. apply (block_ok_frame _ dev); [done..|].
      unfold block_ok in *. destruct (blockState bj); congruence.
    + rewrite (erased_not bi) by congruence. change (erased (clean_block bi)) with 1. lia.
    + unfold block_free. rewrite Hs. cbn. lia.
    + eapply (allocation_insert dev); try done; [congruence|apply Ha].
  - constructor; [done..| |].
    + intros j c Hc0. destruct (decide (j = i)) as [->|Hj]; [|by rewrite B1]. by rewrite B3, no_bits.
    + rewrite (burn_set dev dev' i bi (clean_block bi)) by done. unfold burn_block at 1. rewrite Hs.
      destruct (gcPrioritise bi); cbn; lia.
Qed.

Lemma BlockBecameDirty_spec dev i bi :
  accounts dev -> buffered dev -> blockInfo dev !! i = Some bi -> pagesInUse bi = 0 ->
  blockState bi = YAFFS_BLOCK_STATE_FULL \/ blockState bi = YAFFS_BLOCK_STATE_COLLECTING ->
  exists dev', yaffs_BlockBecameDirty ops tmp dev (blk dev i) = Some dev' /\ accounts dev' /\ settles dev dev'.
Proof using QuietOps0.
  intros Ha Hbuf Hi Hp Hst. pose proof (ac_geometry _ _ _ Ha) as Hg.
  assert (lcount (bits dev i) = 0 /\ block_free (nChunksPerBlock dev) bi = nChunksPerBlock dev /\ erased bi = 0 /\
          burn_block (nChunksPerBlock dev) (allocationPage dev) bi = 0) as (H0 & Hfree & Her & Hburn).
  { pose proof (ac_blocks _ _ _ Ha i bi Hi) as Hb. unfold block_ok, block_free, erased, burn_block in *.
    destruct Hst as [Es|Es]; rewrite Es in *; destruct (gcPrioritise bi); split_and!; try done; lia. }
  unfold yaffs_BlockBecameDirty. rewrite (update_block_blk dev i bi) by done. cbn [mbind option_bind].
  set (bi1 := bi <| blockState := YAFFS_BLOCK_STATE_DIRTY |>). pose proof (set_block_moves dev i bi1) as Hm1.
  revert Hm1. generalize (set_block_info dev (blk dev i) bi1). intros dev1 Hm1.
  pose proof Hm1 as [Hc1 Hk1]. injection Hk1 as K1 K2 K3 K4 K5 K6.
  assert (blockInfo dev1 !! i = Some bi1) as Hi1.
  { rewrite K1. apply list_lookup_insert_eq. by eapply lookup_lt_Some. }
  assert (accounts_of (Some i) 0 dev1) as Ha1.
  { eapply (accounts_change None _ 0 0 dev i bi bi1 _ _ _ Ha Hi Hm1); try done; [by destruct Hst as [-> | ->]|..].
    - rewrite Her. change (erased bi1) with 0. lia.
    - rewrite Hfree. cbn. lia. }
  assert (settles dev dev1) as Hs1.
  { eapply (settles_set dev i bi bi1); [done..|exact Hm1|]. rewrite Hburn. unfold burn_block. by destruct (gcPrioritise bi1). }
  rewrite <- (blk_constants dev dev1), GetBlockInfo_blk, Hi1 by done. cbn [mbind option_bind].
  destruct (dirty_erase_spec dev1 i bi1 Ha1 Hi1) as (r & dev2 & -> & Ha2 & Hu2); [done|]. cbn [mbind option_bind].
  pose proof (unchecked_lookup _ _ i bi1 Hu2 Hi1 ltac:(done)) as Hi2.
  assert (settles dev dev2) as Hs2.
  { apply (settles_trans _ dev1); [done|]. apply settles_unchecked; [apply Ha1|done]. }
  rewrite <- (blk_constants dev1 dev2) by apply Hu2. destruct (truthy r).
  - destruct (dirty_clean_spec dev2 i bi1 Ha2 Hi2) as (dev3 & E & Ha3 & Hs3); [done| |].
    + rewrite (bits_books dev1 dev2), (bits_books dev dev1); [done|done|done|apply Hu2..].
    + exists dev3. split_and!; [done|done|]. by apply (settles_trans _ dev2).
  - set (dev3 := dev2 <| nFreeChunks ::= _ |>).
    assert (settles dev2 dev3) as Hs3 by (by constructor).
    destruct (RetireBlock_spec (- nChunksPerBlock dev2) dev3 i bi1) as (dev4 & E & Ha4 & Hs4).
    + destruct Ha2 as [[] ? ? Hf ?]. constructor; try done. change (nFreeChunks dev3) with (nFreeChunks dev2 - nChunksPerBlock dev2).
      rewrite Hf. change (nChunksPerBlock dev3) with (nChunksPerBlock dev2). change (blockInfo dev3) with (blockInfo dev2). lia.
    + apply (buffered_constants dev); [apply Hs2|done].
    + done.
    + done.
    + exists dev4. split; [exact E|]. split.
      * change (nChunksPerBlock dev3) with (nChunksPerBlock dev2) in Ha4. by rewrite Z.add_opp_diag_l in Ha4.
      * apply (settles_trans _ dev2); [done|]. by apply (settles_trans _ dev3).
Qed.

(** ** Deleting a chunk *)

Definition chunk_at dev (i : nat) (p : Z) : Z := blk dev i * nChunksPerBlock dev + p.

Lemma chunk_at_pos dev i p :
  geometry dev -> 0 <= p < nChunksPerBlock dev ->
  0 < chunk_at dev i p /\ Z.quot (chunk_at dev i p) (nChunksPerBlock dev) = blk dev i /\
  Z.rem (chunk_at dev i p) (nChunksPerBlock dev) = p.
Proof using Type.
  intros [Hs HN _ _ _ _] Hp. unfold chunk_at. assert (0 < blk dev i) by (unfold blk; lia).
  assert (0 < blk dev i * nChunksPerBlock dev) by nia. split; [lia|].
  rewrite Z.quot_div_nonneg, Z.rem_mod_nonneg by lia.
  split; [rewrite Z.div_add_l, (Z.div_small p) by lia; lia|]. rewrite Z.add_comm, Z.mod_add, Z.mod_small by lia. done.
Qed.

Lemma s10_small x : -512 <= x < 512 -> s10 x = x.
Proof using Type. intros Hx. unfold s10. rewrite Z.mod_small; lia. Qed.

(** Chunk [p] of block [i] goes out of use, the others stay. *)
Record deletes (i : nat) (p : Z) dev dev' : Prop := {
  de_constants : constants dev' = constants dev;
  de_block : allocationBlock dev' = allocationBlock dev;
  de_page : allocationPage dev' = allocationPage dev;
  de_bits : forall j c, 0 <= c ->
    lbit (bits dev' j) c = if bool_decide (j = i /\ c = p) then false else lbit (bits dev j) c;
  de_burn : burn dev' <= burn dev
}.

Lemma deletes_settles i p dev dev' dev'' : deletes i p dev dev' -> settles dev' dev'' -> deletes i p dev dev''.
Proof using Type.
  intros [] []. constructor; try congruence; [|lia]. intros j c Hc. rewrite se_bits0 by done. by apply de_bits0.
Qed.

Lemma settles_deletes i p dev dev' dev'' : settles dev dev' -> deletes i p dev' dev'' -> deletes i p dev dev''.
Proof using Type.
  intros [] []. constructor; try congruence; [|lia]. intros j c Hc. by rewrite de_bits0, se_bits0.
Qed.

(** The chunk is in a block in use. *)
Definition in_block dev (i : nat) (bi : yaffs_BlockInfo) (p : Z) : Prop :=
  blockInfo dev !! i = Some bi /\ 0 <= p < nChunksPerBlock dev /\ lbit (bits dev i) p = true /\
  blockState bi <> YAFFS_BLOCK_STATE_DEAD.

Lemma in_block_state dev i bi p :
  accounts dev -> in_block dev i bi p ->
  (blockState bi = YAFFS_BLOCK_STATE_ALLOCATING \/ blockState bi = YAFFS_BLOCK_STATE_FULL \/
   blockState bi = YAFFS_BLOCK_STATE_COLLECTING) /\
  pagesInUse bi = lcount (bits dev i) /\ 0 < pagesInUse bi <= nChunksPerBlock dev.
Proof using Type.
  intros Ha (Hi & Hp & Hb & Hd). pose proof (ac_geometry _ _ _ Ha) as Hg.
  pose proof (lcount_pos _ p (bits_bytes dev i Hg) ltac:(lia) Hb) as Hpos.
  pose proof (ac_blocks _ _ _ Ha i bi Hi) as Hok. pose proof (ac_allocation _ _ _ Ha) as Hal.
  unfold block_ok in Hok. destruct (blockState bi) eqn:Hs; try done; try (destruct Hok as (_ & _ & ?); lia);
    (split; [by auto|]); try lia.
  destruct Hok as (Hab & Hpg & _ & Hle & _). destruct Hal as [E|(j & bj & Ej & _ & _ & Hr)]; [|lia].
  destruct Hg as [Hst _ _ _ _ _]. unfold blk in Hab. lia.
Qed.

(** The part of [yaffs_DeleteChunk] that takes the chunk off the books. *)
Lemma delete_books dev i bi p :
  accounts dev -> in_block dev i bi p ->
  (blockState bi <> YAFFS_BLOCK_STATE_COLLECTING -> softDeletions bi < pagesInUse bi) ->
  let bi' := bi <| pagesInUse ::= fun n => s10 (n - 1) |> in
  exists l' dev',
    yaffs_ClearChunkBit (dev <| nFreeChunks ::= Z.succ |>) (blk dev i) p = Some (dev <| nFreeChunks ::= Z.succ |> <| chunkBits := l' |>) /\
    update_block (dev <| nFreeChunks ::= Z.succ |> <| chunkBits := l' |>) (blk dev i)
      (fun bi => bi <| pagesInUse ::= fun n => s10 (n - 1) |>) = Some dev' /\
    pagesInUse bi' = pagesInUse bi - 1 /\ blockInfo dev' = <[i := bi']> (blockInfo dev) /\
    accounts dev' /\ deletes i p dev dev'.
Proof using Type.
  intros Ha Hin Hsoft bi'. destruct (in_block_state dev i bi p Ha Hin) as (Hst & Hpg & Hr).
  pose proof (ac_geometry _ _ _ Ha) as Hg. destruct Hin as (Hi & Hp & Hb & Hd).
  set (dev1 := dev <| nFreeChunks ::= Z.succ |>). assert (geometry dev1) as Hg1 by (destruct Hg; by constructor).
  destruct (ClearChunkBit_spec dev1 i p Hg1) as (l' & E & Hbc); [by eapply lookup_lt_Some|done|].
  exists l'. change (blk dev1 i) with (blk dev i) in E. rewrite E. set (dev2 := dev1 <| chunkBits := l' |>) in *.
  change (blk dev i) with (blk dev2 i). rewrite (update_block_blk dev2 i bi) by done. fold bi'.
  pose proof (set_block_moves dev2 i bi') as Hm2. revert Hm2. generalize (set_block_info dev2 (blk dev2 i) bi').
  intros dev' Hm2. exists dev'. split; [done|]. split; [done|].
  assert (moves dev (Books (<[i := bi']> (blockInfo dev)) l' (nErasedBlocks dev) (nFreeChunks dev + 1)
    (allocationBlock dev) (allocationPage dev)) dev') as Hm by exact Hm2. clear Hm2.
  pose proof Hm as [Hc Hk]. injection Hk as K1 K2 K3 K4 K5 K6.
  assert (bits_change dev i l' (lcount (bits dev i) - (if lbit (bits dev i) p then 1 else 0))
      (fun c' => negb (c' =? p) && lbit (bits dev i) c')) as Hbc'.
  { destruct Hbc as [B1 B2 B3 B4 B5]. by constructor. }
  destruct (bits_after _ _ _ _ _ dev' Hbc' Hc K2) as (B1 & B2 & B3). rewrite Hb in B2.
  assert (pagesInUse bi' = pagesInUse bi - 1) as Hpg' by (cbn; rewrite s10_small; destruct Hg; lia).
  split; [done|]. split; [done|]. split.
  - eapply (accounts_one None 0 dev i bi bi' dev' _ _ _ Ha Hi Hm); try done; try apply Hbc'.
    + pose proof (ac_blocks _ _ _ Ha i bi Hi) as Hok. unfold block_ok in Hok |- *.
      rewrite B2, K5, K6, (blk_constants dev dev'), (constants_chunks dev dev'), Hpg' by done.
      change (blockState bi') with (blockState bi). change (softDeletions bi') with (softDeletions bi).
      destruct (blockState bi); try done; try lia; [|specialize (Hsoft ltac:(done)); lia].
      specialize (Hsoft ltac:(done)). destruct Hok as (? & ? & ? & ? & Hz). split_and!; try lia.
      intros c Hc0. assert (0 <= c) by (destruct (ac_allocation _ _ _ Ha) as [E1|(?&?&?&?&?&?)]; [destruct Hg; unfold blk in *; lia|lia]).
      rewrite B3, Hz by done. apply andb_false_r.
    + unfold erased. change (blockState bi') with (blockState bi). lia.
    + unfold block_free. rewrite Hpg'. change (blockState bi') with (blockState bi).
      change (softDeletions bi') with (softDeletions bi). destruct Hst as [-> | [-> | ->]]; lia.
  - constructor; [done..| |].
    + intros j c Hc0. case_bool_decide as Hjc.
      * destruct Hjc as [-> ->]. rewrite B3 by done. by rewrite Z.eqb_refl.
      * destruct (decide (j = i)) as [->|Hj]; [|by rewrite B1]. rewrite B3 by done.
        rewrite (proj2 (Z.eqb_neq c p)) by (by intros ->; apply Hjc). done.
    + rewrite (burn_set dev dev' i bi bi') by done. unfold burn_block. cbn. destruct (gcPrioritise bi); lia.
Qed.

Lemma delete_mark_quiet dev bi c mark :
  buffered dev -> exists dev', delete_mark ops dev bi c mark = Some dev' /\ quiet dev dev'.
Proof using QuietOps0.
  intros [Hs _]. unfold delete_mark. destruct (_ && negb (isYaffs2 dev)) eqn:E.
  - destruct (nand_write_quiet dev c None (yaffs_InitialiseTags <| chunkDeleted := 1 |>) Hs) as (r & dev' & -> & _ & Hq).
    + apply andb_true_iff in E as [_ E]. by apply negb_true_iff in E.
    + by exists dev'.
  - eexists. by split.
Qed.

Lemma in_block_quiet dev dev' i bi p : quiet dev dev' -> in_block dev i bi p -> in_block dev' i bi p.
Proof using Type.
  intros Hq (Hi & Hp & Hb & Hd). destruct (blk_quiet dev dev' i Hq) as [_ Ei]. destruct Hq as [Hc Hk].
  injection Hk as _ K2 _ _ _ _. unfold in_block. rewrite Ei, (constants_chunks dev dev'), (bits_books dev dev') by done. done.
Qed.

Lemma DeleteChunk_spec dev i bi p mark :
  accounts dev -> buffered dev -> in_block dev i bi p ->
  (blockState bi <> YAFFS_BLOCK_STATE_COLLECTING -> softDeletions bi < pagesInUse bi) ->
  exists dev', yaffs_DeleteChunk ops tmp dev (chunk_at dev i p) mark = Some dev' /\ accounts dev' /\ deletes i p dev dev'.
Proof using QuietOps0.
  intros Ha Hbuf Hin Hsoft. pose proof (ac_geometry _ _ _ Ha) as Hg. pose proof Hin as (Hi & Hp & Hb & Hd).
  destruct (chunk_at_pos dev i p Hg Hp) as (Hpos & Hq & Hr).
  unfold yaffs_DeleteChunk. rewrite (proj2 (Z.leb_gt _ _)) by done. cbv zeta.
  set (dev0 := dev <| nDeletions ::= Z.succ |>). change (nChunksPerBlock dev0) with (nChunksPerBlock dev). rewrite Hq, Hr.
  assert (quiet dev dev0) as Hq0 by done. change (blk dev i) with (blk dev0 i). clearbody dev0.
  pose proof (in_block_quiet _ _ _ _ _ Hq0 Hin) as (Hi0 & Hp0 & _ & _).
  pose proof (accounts_quiet _ _ _ _ Hq0 Ha) as Ha0.
  rewrite CheckChunkBit_spec by (try apply Ha0; try done; by eapply lookup_lt_Some).
  rewrite GetBlockInfo_blk, Hi0. cbn [mbind option_bind].
  destruct (delete_mark_quiet dev0 bi (chunk_at dev i p) mark) as (dev1 & -> & Hq1).
  { apply (buffered_constants dev); [apply Hq0|done]. }
  cbn [mbind option_bind]. pose proof (quiet_trans _ _ _ Hq0 Hq1) as Hq01.
  pose proof (in_block_quiet _ _ _ _ _ Hq01 Hin) as Hin1. pose proof (accounts_quiet _ _ _ _ Hq01 Ha) as Ha1.
  rewrite <- (blk_constants dev0 dev1), GetBlockInfo_blk, (proj1 Hin1) by apply Hq1. cbn [mbind option_bind].
  destruct (delete_books dev1 i bi p Ha1 Hin1 Hsoft) as (l' & dev2 & E1 & E2 & Hpg & Ei2 & Ha2 & Hd2).
  set (bi' := bi <| pagesInUse ::= fun n => s10 (n - 1) |>) in *.
  assert (deletes i p dev dev2) as Hde.
  { eapply settles_deletes; [|exact Hd2]. by apply settles_quiet. }
  assert (blockInfo dev2 !! i = Some bi') as Hi2.
  { rewrite Ei2. apply list_lookup_insert_eq. eapply lookup_lt_Some. apply (proj1 Hin1). }
  assert (exists dev', (if (pagesInUse bi' =? 0) && negb (hasShrinkHeader bi') &&
           negb (bool_decide (blockState bi' = YAFFS_BLOCK_STATE_ALLOCATING)) &&
           negb (bool_decide (blockState bi' = YAFFS_BLOCK_STATE_NEEDS_SCANNING))
        then yaffs_BlockBecameDirty ops tmp dev2 (blk dev1 i) else Some dev2) = Some dev' /\ accounts dev' /\ settles dev2 dev')
    as (dev' & E3 & Ha3 & Hs3).
  { destruct (_ && negb (bool_decide (_ = YAFFS_BLOCK_STATE_NEEDS_SCANNING))) eqn:Ec.
    - rewrite !andb_true_iff, !negb_true_iff, Z.eqb_eq, !bool_decide_eq_false in Ec. destruct Ec as [[[Ep _] Es] _].
      rewrite <- (blk_constants dev1 dev2) by apply Hd2.
      apply (BlockBecameDirty_spec dev2 i bi'); try done.
      + apply (buffered_constants dev); [apply Hde|done].
      + destruct (in_block_state dev i bi p Ha Hin) as [[?|[?|?]] _]; [by destruct Es|by left|by right].
    - exists dev2. split_and!; [done|done|]. apply settles_quiet; [apply Ha2|done]. }
  exists dev'. split; [|split; [done|by eapply deletes_settles]].
  destruct (in_block_state dev i bi p Ha Hin) as [Hst _].
  destruct Hst as [Es | [Es | Es]]; rewrite Es, E1; cbn [mbind option_bind]; rewrite E2; cbn [mbind option_bind];
    rewrite <- (blk_constants dev1 dev2), GetBlockInfo_blk, Hi2 by apply Hd2; cbn [mbind option_bind];
    rewrite (blk_constants dev1 dev2) by apply Hd2; exact E3.
Qed.

Lemma SoftDeleteChunk_spec dev i bi p :
  accounts dev -> in_block dev i bi p -> blockState bi <> YAFFS_BLOCK_STATE_COLLECTING ->
  softDeletions bi < pagesInUse bi ->
  exists dev', yaffs_SoftDeleteChunk dev (chunk_at dev i p) = Some dev' /\ accounts dev' /\
    constants dev' = constants dev /\ nFreeChunks dev' = nFreeChunks dev + 1.
Proof using Type.
  intros Ha Hin Hcol Hsd. destruct (in_block_state dev i bi p Ha Hin) as (Hst & _ & Hle).
  pose proof (ac_geometry _ _ _ Ha) as Hg. destruct Hin as (Hi & Hp & _). unfold yaffs_SoftDeleteChunk.
  destruct (chunk_at_pos dev i p Hg Hp) as (_ & -> & _). rewrite (update_block_blk dev i bi) by done. cbn [mbind option_bind].
  pose proof (ac_blocks _ _ _ Ha i bi Hi) as Hb.
  assert (0 <= softDeletions bi) as Hs0 by (unfold block_ok in Hb; destruct Hst as [E|[E|E]]; rewrite E in Hb; [lia|lia|done]).
  set (bi' := bi <| softDeletions ::= _ |>).
  assert (softDeletions bi' = softDeletions bi + 1) as Es by (cbn; apply s10_small; destruct Hg; lia).
  set (dev1 := set_block_info dev (blk dev i) bi').
  assert (moves dev (Books (<[i := bi']> (blockInfo dev)) (chunkBits dev) (nErasedBlocks dev) (nFreeChunks dev + 1)
    (allocationBlock dev) (allocationPage dev)) (dev1 <| nFreeChunks ::= Z.succ |>)) as Hm.
  { destruct (set_block_moves dev i bi') as [Hc Hk]. injection Hk as K1. split; [done|]. unfold books_of. by f_equal. }
  revert Hm. generalize (dev1 <| nFreeChunks ::= Z.succ |>). intros dev' Hm. exists dev'. split; [done|].
  pose proof Hm as [Hc Hk]. injection Hk as K1 K2 K3 K4 K5 K6. split; [|done].
  assert (forall j, bits dev' j = bits dev j) as Hbits by (intros j; by apply bits_books).
  eapply (accounts_one None 0 dev i bi bi' dev' _ _ _ Ha Hi Hm); try done.
  - apply Ha.
  - apply (block_ok_frame None dev); [done..|]. unfold block_ok in *. rewrite Es.
    change (blockState bi') with (blockState bi). change (pagesInUse bi') with (pagesInUse bi).
    destruct Hst as [E|[E|E]]; rewrite E in *; [|lia|done]. destruct Hb as (? & ? & ? & ? & ?). split_and!; (done || lia).
  - unfold erased. change (blockState bi') with (blockState bi). lia.
  - unfold block_free. rewrite Es. change (blockState bi') with (blockState bi). change (pagesInUse bi') with (pagesInUse bi).
    destruct Hst as [E|[E|E]]; rewrite E; [lia|lia|done].
Qed.

(** ** Counting the bits of a block *)

Lemma count_bits_spec k : forall (l : list Z) a n,
  0 <= a -> (Z.to_nat a + k <= length l)%nat ->
  count_bits_loop k l a n = Some (n + lcount (take k (drop (Z.to_nat a) l))).
Proof using Type.
  induction k as [|k IH]; intros l a n Ha Hl; cbn [count_bits_loop]; [by rewrite Z.add_0_r|].
  destruct (lookup_lt_is_Some_2 l (Z.to_nat a)) as [x Hx]; [lia|]. unfold get. rewrite (proj2 (Z.leb_le 0 a)), Hx by done.
  cbn [mbind option_bind]. rewrite IH by lia. f_equal. rewrite (drop_S _ _ _ Hx), count_loop_add.
  replace (Z.to_nat (a + 1)) with (S (Z.to_nat a)) by lia. fold (ones8 x).
  change (n + ones8 x + lcount (take k (drop (S (Z.to_nat a)) l)) = n + (ones8 x + lcount (take k (drop (S (Z.to_nat a)) l)))). lia.
Qed.

Lemma CountChunkBits_spec dev i :
  geometry dev -> (i < length (blockInfo dev))%nat -> yaffs_CountChunkBits dev (blk dev i) = Some (lcount (bits dev i)).
Proof using Type.
  intros Hg Hi. pose proof Hg as [Hst HN _ _ Hbits _]. destruct (stride_bound dev 0 Hg) as (Hs & _ & _); [lia|].
  unfold yaffs_CountChunkBits. rewrite BlockBits_blk. cbn [mbind option_bind].
  assert (Z.to_nat (chunkBitmapStride dev * (blk dev i - internalStartBlock dev)) = (Z.to_nat (chunkBitmapStride dev) * i)%nat) as Ea.
  { unfold blk. nia. }
  rewrite count_bits_spec; [|unfold blk; nia|rewrite Ea, Hbits; nia]. by rewrite Ea.
Qed.

Lemma byte_zero x : in_w 8 x -> truthy x = (0 <? ones8 x).
Proof using Type.
  intros Hx. apply eqb_prop. revert x Hx. apply (all_bytes_spec (fun x => eqb (truthy x) (0 <? ones8 x))).
  vm_compute. reflexivity.
Qed.

Lemma some_bits_spec k : forall (l : list Z) a,
  Forall (in_w 8) l -> 0 <= a -> (Z.to_nat a + k <= length l)%nat ->
  some_bits_loop k l a = Some (0 <? lcount (take k (drop (Z.to_nat a) l))).
Proof using Type.
  induction k as [|k IH]; intros l a Hf Ha Hl; cbn [some_bits_loop]; [done|].
  destruct (lookup_lt_is_Some_2 l (Z.to_nat a)) as [x Hx]; [lia|]. unfold get. rewrite (proj2 (Z.leb_le 0 a)), Hx by done.
  cbn [mbind option_bind]. rewrite (byte_zero x) by (by eapply Forall_lookup_1). rewrite (drop_S _ _ _ Hx).
  set (l' := take k (drop (S (Z.to_nat a)) l)).
  change (lcount (take (S k) (x :: drop (S (Z.to_nat a)) l))) with (ones8 x + lcount l').
  pose proof (lcount_nonneg l' ltac:(by apply Forall_take, Forall_drop)) as Hn.
  destruct (byte_bit x 0) as (_ & _ & Hx0); [by eapply Forall_lookup_1|lia|].
  destruct (Z.ltb_spec 0 (ones8 x)); [by rewrite (proj2 (Z.ltb_lt _ _)) by lia|].
  rewrite IH by (done || lia). replace (Z.to_nat (a + 1)) with (S (Z.to_nat a)) by lia. fold l'. by replace (ones8 x) with 0 by lia.
Qed.

Lemma StillSomeChunkBits_spec dev i :
  geometry dev -> (i < length (blockInfo dev))%nat ->
  yaffs_StillSomeChunkBits dev (blk dev i) = Some (0 <? lcount (bits dev i)).
Proof using Type.
  intros Hg Hi. pose proof Hg as [Hst HN _ _ Hbits Hf]. destruct (stride_bound dev 0 Hg) as (Hs & _ & _); [lia|].
  unfold yaffs_StillSomeChunkBits. rewrite BlockBits_blk. cbn [mbind option_bind].
  assert (Z.to_nat (chunkBitmapStride dev * (blk dev i - internalStartBlock dev)) = (Z.to_nat (chunkBitmapStride dev) * i)%nat) as Ea.
  { unfold blk. nia. }
  rewrite some_bits_spec; [|done|unfold blk; nia|rewrite Ea, Hbits; nia]. by rewrite Ea.
Qed.
End Ops.
