(* ===== verification/YaffsBlocksAlloc.v ===== *)
(** * Allocation and writing of chunks in YAFFS

    The allocator of YaffsBlocks.v gives out a chunk that was not in use, and finds an erased
    block whenever there is one; writing a new chunk ends after boundedly many rounds with
    the chunk in use and written, or without a chunk. *)

From S2P Require Import Prelude NandEcc NandEccFacts YaffsTags YaffsNand YaffsBlocks YaffsBlocksFacts YaffsBlocksOps.

Local Open Scope Z_scope.

Section Allocation.
Context {mtd : Type}.
Implicit Types dev : yaffs_Device mtd.

(** ** The search for an erased block *)

Lemma finder_next_spec dev :
  finder_next dev = dev <| allocationBlockFinder := next_block dev (allocationBlockFinder dev) |>.
Proof.
  unfold finder_next, next_block. cbv zeta.
  change (allocationBlockFinder (dev <| allocationBlockFinder ::= Z.succ |>)) with (allocationBlockFinder dev + 1).
  change (internalStartBlock (dev <| allocationBlockFinder ::= Z.succ |>)) with (internalStartBlock dev).
  change (internalEndBlock (dev <| allocationBlockFinder ::= Z.succ |>)) with (internalEndBlock dev).
  by destruct (_ || _).
Qed.

(** The block taken for allocation. *)
Definition taken_block (bi : yaffs_BlockInfo) (seq : Z) : yaffs_BlockInfo :=
  bi <| blockState := YAFFS_BLOCK_STATE_ALLOCATING |> <| bi_sequenceNumber := seq |>.

(** What the search has seen of a device that differs in nothing else. *)
Definition taken dev (i : nat) (bi : yaffs_BlockInfo) (seq : Z) dev' : Prop :=
  blockInfo dev !! i = Some bi /\ blockState bi = YAFFS_BLOCK_STATE_EMPTY /\
  moves dev (Books (<[i := taken_block bi seq]> (blockInfo dev)) (chunkBits dev) (nErasedBlocks dev - 1)
    (nFreeChunks dev) (allocationBlock dev) (allocationPage dev)) dev'.

Lemma taken_quiet dev dev1 i bi seq dev' : quiet dev dev1 -> taken dev1 i bi seq dev' -> taken dev i bi seq dev'.
Proof.
  intros [Hc Hk] (Hi & Hs & Hc' & Hk'). injection Hk as K1 K2 K3 K4 K5 K6. rewrite K1 in Hi. split; [done|]. split; [done|].
  split; [congruence|]. by rewrite Hk', K1, K2, K3, K4, K5, K6.
Qed.

(** A round of the search that finds a block. *)
Lemma find_block_found n dev j bi :
  next_block dev (allocationBlockFinder dev) = blk dev j -> blockInfo dev !! j = Some bi -> blockState bi = YAFFS_BLOCK_STATE_EMPTY ->
  exists seq dev', find_block_loop (S n) dev = Some (blk dev j, dev') /\ taken dev j bi seq dev'.
Proof.
  intros Hn Hj Hs. cbn [find_block_loop]. rewrite finder_next_spec, Hn. cbv zeta.
  set (dev1 := dev <| allocationBlockFinder := blk dev j |>). change (allocationBlockFinder dev1) with (blk dev1 j).
  assert (quiet dev dev1) as Hq by done. change (blk dev j) with (blk dev1 j).
  assert (blockInfo dev1 !! j = Some bi) as Hj1 by done. clearbody dev1.
  rewrite GetBlockInfo_blk, Hj1. cbn [mbind option_bind]. rewrite bool_decide_true by done.
  rewrite (update_block_blk dev1 j bi) by done. cbn [mbind option_bind].
  set (bi1 := bi <| blockState := _ |>). set (dev2 := set_block_info dev1 _ bi1).
  pose proof (set_block_moves dev1 j bi1 : moves dev1 _ dev2) as [Hc2 Hk2]. clearbody dev2.
  set (dev3 := dev2 <| dev_sequenceNumber ::= _ |>). assert (quiet dev2 dev3) as [Hc3 Hk3] by done. clearbody dev3.
  injection Hk2 as K1 K2 K3 K4 K5 K6. injection Hk3 as L1 L2 L3 L4 L5 L6.
  rewrite <- (blk_constants dev1 dev3) by congruence. rewrite (update_block_blk dev3 j bi1).
  2:{ rewrite L1, K1. apply list_lookup_insert_eq. by eapply lookup_lt_Some. }
  cbn [mbind option_bind]. rewrite (blk_constants dev1 dev3) by congruence.
  exists (dev_sequenceNumber dev3). eexists. split; [done|]. apply (taken_quiet _ dev1); [done|]. split; [done|]. split; [done|].
  destruct (set_block_moves dev3 j (taken_block bi (dev_sequenceNumber dev3))) as [Hc4 Hk4].
  rewrite (blk_constants dev1 dev3) in * by congruence. injection Hk4 as M1. split; [rewrite <- Hc2, <- Hc3; done|].
  unfold books_of. f_equal; [|exact (eq_trans L2 K2)| |exact (eq_trans L4 K4)|exact (eq_trans L5 K5)|exact (eq_trans L6 K6)].
  - etransitivity; [exact M1|]. by rewrite L1, K1, list_insert_insert_eq.
  - change (nErasedBlocks dev3 - 1 = nErasedBlocks dev1 - 1). congruence.
Qed.

Lemma find_block_spec n : forall dev j,
  geometry dev -> (j < length (blockInfo dev))%nat -> next_block dev (allocationBlockFinder dev) = blk dev j ->
  (exists dev', find_block_loop n dev = Some (-1, dev') /\ quiet dev dev' /\
     forall r bi, (r < n)%nat -> blockInfo dev !! ((j + r) mod length (blockInfo dev))%nat = Some bi ->
       blockState bi <> YAFFS_BLOCK_STATE_EMPTY) \/
  exists i bi seq dev', find_block_loop n dev = Some (blk dev i, dev') /\ taken dev i bi seq dev'.
Proof.
  induction n as [|n IH]; intros dev j Hg Hj Hn.
  { left. exists dev. split_and!; [done|done|]. intros. lia. }
  destruct (lookup_lt_is_Some_2 (blockInfo dev) j Hj) as [bi Hbi].
  destruct (decide (blockState bi = YAFFS_BLOCK_STATE_EMPTY)) as [Hs|Hs].
  { right. destruct (find_block_found n dev j bi Hn Hbi Hs) as (seq & dev' & E & Ht). by exists j, bi, seq, dev'. }
  set (dev1 := dev <| allocationBlockFinder := blk dev j |>).
  assert (find_block_loop (S n) dev = find_block_loop n dev1) as ->.
  { cbn [find_block_loop]. rewrite finder_next_spec, Hn. fold dev1. cbv zeta.
    change (allocationBlockFinder dev1) with (blk dev1 j). rewrite GetBlockInfo_blk.
    change (blockInfo dev1) with (blockInfo dev). rewrite Hbi. cbn [mbind option_bind]. by rewrite bool_decide_false. }
  assert (quiet dev dev1) as Hq by done.
  destruct (IH dev1 ((j + 1) mod length (blockInfo dev))%nat) as [(dev' & E & Hq' & Hall)|(i & b & seq & dev' & E & Ht)].
  - destruct Hg. by constructor.
  - change (blockInfo dev1) with (blockInfo dev). apply Nat.mod_upper_bound. lia.
  - exact (next_block_succ dev j Hg Hj).
  - left. exists dev'. split; [done|]. split; [by apply (quiet_trans _ dev1)|]. intros [|r] bi' Hr Hl.
    + rewrite Nat.add_0_r, Nat.mod_small in Hl by done. congruence.
    + apply (Hall r bi'); [lia|]. change (blockInfo dev1) with (blockInfo dev). rewrite <- Hl. f_equal.
      rewrite Nat.Div0.add_mod_idemp_l. f_equal. lia.
  - right. exists i, b, seq, dev'. split; [done|]. by apply (taken_quiet _ dev1).
Qed.

Lemma erased_none l : (forall i bi, l !! i = Some bi -> blockState bi <> YAFFS_BLOCK_STATE_EMPTY) -> zsum (erased <$> l) = 0.
Proof.
  induction l as [|b l IH]; intros H; [done|]. change (erased b + zsum (erased <$> l) = 0).
  rewrite IH, (erased_not b); [done|apply (H 0%nat); done|]. intros i bi Hi. by apply (H (S i)).
Qed.

(** The search finds a block when one is erased. *)
Lemma FindBlock_spec dev :
  accounts dev ->
  (exists dev', yaffs_FindBlockForAllocation dev = Some (-1, dev') /\ quiet dev dev' /\ nErasedBlocks dev = 0) \/
  exists i bi seq dev', yaffs_FindBlockForAllocation dev = Some (blk dev i, dev') /\ taken dev i bi seq dev'.
Proof.
  intros Ha. pose proof (ac_geometry _ _ _ Ha) as Hg. pose proof (ac_erased _ _ _ Ha) as He.
  assert (0 <= nErasedBlocks dev) as Hnn.
  { rewrite He. apply zsum_nonneg. intros b _. unfold erased. by destruct (bool_decide _). }
  unfold yaffs_FindBlockForAllocation. destruct (Z.ltb_spec (nErasedBlocks dev) 1).
  { left. exists dev. split_and!; [done|done|lia]. }
  assert (0 < length (blockInfo dev))%nat as Hl.
  { destruct (blockInfo dev); [|cbn; lia]. cbn in He. lia. }
  destruct (next_block_index dev (allocationBlockFinder dev) Hg Hl) as (j & Hj & Hn).
  destruct (find_block_spec (block_count dev) dev j Hg Hj Hn) as [(dev' & E & Hq & Hall)|H1]; [|by right]. exfalso.
  rewrite (erased_none (blockInfo dev)) in He; [lia|]. intros i bi Hi.
  destruct (cycle_covers (length (blockInfo dev)) j i Hj) as (r & Hr & E'); [by eapply lookup_lt_Some|].
  apply (Hall r); [|by rewrite E']. destruct Hg as [_ _ _ Hend _ _]. unfold block_count. lia.
Qed.

(** ** Starting a block *)

Lemma no_allocating o d dev i bi :
  accounts_of o d dev -> allocationBlock dev = -1 -> blockInfo dev !! i = Some bi ->
  blockState bi <> YAFFS_BLOCK_STATE_ALLOCATING.
Proof.
  intros Ha Hab Hi Hs. pose proof (ac_blocks _ _ _ Ha i bi Hi) as Hb. unfold block_ok in Hb. rewrite Hs in Hb.
  destruct Hb as [Hb _]. destruct (ac_geometry _ _ _ Ha) as [Hst _ _ _ _ _]. unfold blk in Hb. lia.
Qed.

Lemma one_allocating o d dev i j bj :
  accounts_of o d dev -> allocationBlock dev = blk dev i -> blockInfo dev !! j = Some bj -> j <> i ->
  blockState bj <> YAFFS_BLOCK_STATE_ALLOCATING.
Proof.
  intros Ha Hab Hj Hne Hs. pose proof (ac_blocks _ _ _ Ha j bj Hj) as Hb. unfold block_ok in Hb. rewrite Hs in Hb.
  destruct Hb as [Hb _]. unfold blk in *. lia.
Qed.

Lemma burn_pages N p p' l i bi bi' :
  l !! i = Some bi -> (forall j bj, l !! j = Some bj -> j <> i -> blockState bj <> YAFFS_BLOCK_STATE_ALLOCATING) ->
  zsum (burn_block N p' <$> <[i := bi']> l) = zsum (burn_block N p <$> l) - burn_block N p bi + burn_block N p' bi'.
Proof.
  intros Hi Hst. rewrite (zsum_fmap_insert _ _ _ bi) by done.
  assert (forall q, zsum (burn_block N q <$> l) - burn_block N q bi = zsum (burn_block N q <$> <[i := yaffs_BlockInfo_zero]> l)) as H.
  { intros q. rewrite (zsum_fmap_insert _ _ _ bi) by done. change (burn_block N q yaffs_BlockInfo_zero) with 0. lia. }
  rewrite H, H. f_equal. f_equal. apply list_eq. intros j. rewrite !list_lookup_fmap.
  destruct (decide (j = i)) as [->|Hne].
  - by rewrite list_lookup_insert_eq by (by eapply lookup_lt_Some).
  - rewrite list_lookup_insert_ne by done. destruct (l !! j) as [bj|] eqn:Hj; [|done]. cbn. f_equal.
    specialize (Hst j bj Hj Hne). unfold burn_block. by destruct (gcPrioritise bj), (blockState bj).
Qed.

Lemma burn_page N p p' l :
  (forall j bj, l !! j = Some bj -> blockState bj <> YAFFS_BLOCK_STATE_ALLOCATING) ->
  zsum (burn_block N p' <$> l) = zsum (burn_block N p <$> l).
Proof.
  intros Hst. destruct l as [|b l]; [done|]. pose proof (burn_pages N p p' (b :: l) 0 b b eq_refl) as H.
  change (<[0%nat := b]> (b :: l)) with (b :: l) in H. rewrite H by (intros j bj Hj _; by eapply Hst).
  specialize (Hst 0%nat b eq_refl). unfold burn_block at 2 3. destruct (gcPrioritise b), (blockState b); try lia. done.
Qed.

Record starts dev dev' : Prop := {
  st_constants : constants dev' = constants dev;
  st_bits : chunkBits dev' = chunkBits dev;
  st_free : nFreeChunks dev' = nFreeChunks dev;
  st_burn : burn dev' <= burn dev
}.

(** The allocator without a block. *)
Lemma accounts_idle dev dev' :
  accounts dev -> allocationBlock dev = -1 ->
  moves dev (Books (blockInfo dev) (chunkBits dev) (nErasedBlocks dev) (nFreeChunks dev) (-1) 0) dev' ->
  accounts dev' /\ starts dev dev'.
Proof.
  intros Ha Hab Hm. pose proof Hm as [Hc Hk]. injection Hk as K1 K2 K3 K4 K5 K6.
  pose proof (constants_chunks _ _ Hc) as EN. split.
  - constructor.
    + eapply (geometry_moves dev); [apply Ha|exact Hm|done|done|apply Ha].
    + intros j bj Hj. rewrite K1 in Hj. apply (block_ok_frame None dev); [done|by apply bits_books| |by apply Ha].
      intros Hs. by destruct (no_allocating _ _ _ _ _ Ha Hab Hj).
    + rewrite K1, K3. apply Ha.
    + rewrite K1, K4, EN. apply Ha.
    + by left.
  - constructor; [done..|]. unfold burn. rewrite EN, K1, K6. apply Z.eq_le_incl, burn_page.
    intros j bj Hj. by eapply no_allocating.
Qed.

(** The allocator takes an erased block. *)
Lemma accounts_taken dev i bi seq dev' :
  accounts dev -> allocationBlock dev = -1 -> blockInfo dev !! i = Some bi -> blockState bi = YAFFS_BLOCK_STATE_EMPTY ->
  moves dev (Books (<[i := taken_block bi seq]> (blockInfo dev)) (chunkBits dev) (nErasedBlocks dev - 1)
    (nFreeChunks dev) (blk dev i) 0) dev' ->
  accounts dev' /\ starts dev dev'.
Proof.
  intros Ha Hab Hi Hs Hm. pose proof Hm as [Hc Hk]. injection Hk as K1 K2 K3 K4 K5 K6.
  pose proof (constants_chunks _ _ Hc) as EN. pose proof (ac_geometry _ _ _ Ha) as Hg.
  pose proof (ac_blocks _ _ _ Ha i bi Hi) as Hb. unfold block_ok in Hb. rewrite Hs in Hb. destruct Hb as (Hp & Hsd & H0).
  assert (forall j, bits dev' j = bits dev j) as Hbits by (intros j; by apply bits_books). split.
  - eapply (accounts_update None None 0 0 dev i bi (taken_block bi seq) dev' _ _ _ _ _ Ha Hi Hm); try done; [apply Ha|..].
    + unfold block_ok. cbn [taken_block blockState assign]. rewrite K5, K6, Hbits, (blk_constants dev dev'), H0 by done.
      change (pagesInUse (taken_block bi seq)) with (pagesInUse bi).
      change (softDeletions (taken_block bi seq)) with (softDeletions bi). split; [done|]. split_and!; try lia.
      intros c Hc0. by apply no_bits.
    + intros j bj Hj Hbj Eb. apply (block_ok_frame None dev); [done..|]. intros Hsj.
      by destruct (no_allocating _ _ _ _ _ Ha Hab Hbj).
    + assert (erased bi = 1) as -> by (unfold erased; by rewrite bool_decide_true). change (erased (taken_block bi seq)) with 0. lia.
    + unfold block_free. rewrite Hs. cbn. lia.
    + right. exists i, (taken_block bi seq). rewrite K1, K5, K6, EN, (blk_constants dev dev') by done.
      rewrite list_lookup_insert_eq by (by eapply lookup_lt_Some). destruct Hg. split_and!; [done..|lia|lia].
  - constructor; [done..|]. unfold burn. rewrite EN, K1, K6, (burn_pages _ (allocationPage dev) 0 _ i bi); [|done|].
    + assert (burn_block (nChunksPerBlock dev) 0 (taken_block bi seq) =
              burn_block (nChunksPerBlock dev) (allocationPage dev) bi) as ->; [|lia].
      unfold burn_block. rewrite Hs. cbn. by rewrite Z.sub_0_r.
    + intros j bj Hj _. by eapply no_allocating.
Qed.

Lemma allocation_start_spec dev :
  accounts dev ->
  exists dev', allocation_start dev = Some dev' /\ accounts dev' /\ starts dev dev' /\
    (allocationBlock dev' = -1 -> allocationBlock dev = -1 /\ nErasedBlocks dev = 0).
Proof.
  intros Ha. unfold allocation_start.
  assert (allocationBlock dev = -1 \/ 0 <= allocationBlock dev) as [Hab|Hab].
  { destruct (ac_allocation _ _ _ Ha) as [E|(i & bi & E & _)]; [by left|]. right.
    destruct (ac_geometry _ _ _ Ha) as [Hst _ _ _ _ _]. unfold blk in E. lia. }
  2:{ exists dev. rewrite (proj2 (Z.ltb_ge _ _)) by done. split_and!; [done|done| |lia]. constructor; done. }
  rewrite (proj2 (Z.ltb_lt _ _)) by lia.
  destruct (FindBlock_spec dev Ha) as [(dev1 & -> & [Hc Hk] & Hne)|(i & bi & seq & dev1 & -> & Hi & Hs & [Hc Hk])];
    cbn [mbind option_bind]; injection Hk as K1 K2 K3 K4 K5 K6; eexists; (split; [done|]).
  - apply and_assoc. split; [|done]. apply accounts_idle; [done|done|]. split; [done|]. unfold books_of. by f_equal.
  - apply and_assoc. split.
    + apply (accounts_taken dev i bi seq); [done..|]. split; [done|]. unfold books_of. by f_equal.
    + cbn. destruct (ac_geometry _ _ _ Ha) as [Hst _ _ _ _ _]. unfold blk. lia.
Qed.

(** ** Taking a page *)

(** Chunk [p] of block [i], which was not in use, goes into use. *)
Record allocates (i : nat) (p : Z) dev dev' : Prop := {
  al_constants : constants dev' = constants dev;
  al_fresh : lbit (bits dev i) p = false;
  al_bits : forall j c, 0 <= c -> lbit (bits dev' j) c = bool_decide (j = i /\ c = p) || lbit (bits dev j) c;
  al_free : nFreeChunks dev' = nFreeChunks dev - 1
}.

(** The block after the allocation of a page. *)
Definition used_block (bi : yaffs_BlockInfo) (full : bool) : yaffs_BlockInfo :=
  let bi := bi <| pagesInUse ::= fun n => s10 (n + 1) |> in
  if full then bi <| blockState := YAFFS_BLOCK_STATE_FULL |> else bi.

Lemma allocation_take_moves dev i bi :
  geometry dev -> blockInfo dev !! i = Some bi -> 0 <= allocationPage dev < nChunksPerBlock dev ->
  let p := allocationPage dev in
  let full := nChunksPerBlock dev <=? p + 1 in
  exists l' dev', allocation_take dev (blk dev i) = Some (chunk_at dev i p, dev') /\
    bits_change dev i l' (lcount (bits dev i) + (if lbit (bits dev i) p then 0 else 1))
      (fun c => (c =? p) || lbit (bits dev i) c) /\
    moves dev (Books (<[i := used_block bi full]> (blockInfo dev)) l' (nErasedBlocks dev) (nFreeChunks dev - 1)
      (if full then -1 else allocationBlock dev) (p + 1)) dev'.
Proof.
  intros Hg Hi Hp p full. unfold allocation_take. cbv zeta.
  rewrite (update_block_blk dev i bi) by done. cbn [mbind option_bind].
  set (bi1 := bi <| pagesInUse ::= _ |>). set (dev1 := set_block_info dev _ bi1).
  pose proof (set_block_moves dev i bi1 : moves dev _ dev1) as Hm1. clearbody dev1.
  pose proof Hm1 as [Hc1 Hk1]. injection Hk1 as K1 K2 K3 K4 K5 K6.
  assert (geometry dev1) as Hg1.
  { eapply (geometry_moves dev); [done|exact Hm1|apply length_insert|done|apply Hg]. }
  assert (blockInfo dev1 !! i = Some bi1) as Hi1.
  { rewrite K1. apply list_lookup_insert_eq. by eapply lookup_lt_Some. }
  pose proof (constants_chunks _ _ Hc1) as EN.
  destruct (SetChunkBit_spec dev1 i p Hg1) as (l' & E & Hbc); [by eapply lookup_lt_Some|by rewrite EN|].
  rewrite K6, <- (blk_constants dev dev1) by done. fold p. rewrite E. cbn [mbind option_bind].
  set (dev2 := _ <| nFreeChunks ::= Z.pred |>).
  assert (allocationPage dev2 = p + 1) as Ep.
  { change (allocationPage dev2) with (u32 (allocationPage dev1 + 1)). rewrite K6. apply Z.mod_small.
    destruct Hg. change (2 ^ 32) with 4294967296. unfold p. lia. }
  assert (moves dev (Books (<[i := bi1]> (blockInfo dev)) l' (nErasedBlocks dev) (nFreeChunks dev - 1)
      (allocationBlock dev) (p + 1)) dev2) as Hm2.
  { split; [done|]. unfold books_of. rewrite Ep. f_equal; [done..| |done].
    change (nFreeChunks dev2) with (Z.pred (nFreeChunks dev1)). lia. }
  assert (bits_change dev i l' (lcount (bits dev i) + (if lbit (bits dev i) p then 0 else 1))
      (fun c => (c =? p) || lbit (bits dev i) c)) as Hbc'.
  { injection Hc1 as _ _ _ E4 _ _ _ _. destruct Hbc as [B1 B2 B3 B4 B5]. unfold bits in *. rewrite ?E4, ?K2 in *. by constructor. }
  change (nChunksPerBlock dev2) with (nChunksPerBlock dev1). rewrite Ep, EN. fold full. exists l'.
  assert (blockInfo dev2 !! i = Some bi1) as Hi2 by exact Hi1.
  assert (chunk_at dev i p = blk dev1 i * nChunksPerBlock dev + p) as Ech by (unfold chunk_at; by rewrite (blk_constants dev dev1)).
  destruct full eqn:Hf.
  - change (blk dev1 i) with (blk dev2 i) at 1. rewrite (update_block_blk dev2 i bi1) by done. cbn [mbind option_bind].
    pose proof (set_block_moves dev2 i (used_block bi true)) as [Hc3 Hk3]. injection Hk3 as L1.
    eexists. split; [by rewrite Ech|]. split; [done|]. split; [by rewrite <- (proj1 Hm2), <- Hc3|].
    destruct Hm2 as [_ Hk2]. injection Hk2 as M1 M3 M4 M5 M6. unfold books_of. f_equal; [|exact M3|exact M4|exact M6].
    etransitivity; [exact L1|]. by rewrite M1, list_insert_insert_eq.
  - exists dev2. by rewrite Ech.
Qed.

(** A chunk that was just allocated, in block [bi] of index [i]: it can be deleted again. *)
Definition allocated dev (i : nat) (bi : yaffs_BlockInfo) (p : Z) : Prop :=
  in_block dev i bi p /\ blockState bi <> YAFFS_BLOCK_STATE_COLLECTING /\ softDeletions bi < pagesInUse bi.

Lemma used_block_fields bi full :
  pagesInUse (used_block bi full) = s10 (pagesInUse bi + 1) /\ softDeletions (used_block bi full) = softDeletions bi /\
  gcPrioritise (used_block bi full) = gcPrioritise bi /\
  blockState (used_block bi full) = if full then YAFFS_BLOCK_STATE_FULL else blockState bi.
Proof. by destruct full. Qed.

(** The facts about the block that is allocated from. *)
Lemma allocating_facts dev i :
  accounts dev -> allocationBlock dev = blk dev i ->
  exists bi, blockInfo dev !! i = Some bi /\ blockState bi = YAFFS_BLOCK_STATE_ALLOCATING /\
    0 <= allocationPage dev < nChunksPerBlock dev /\ pagesInUse bi = lcount (bits dev i) /\
    0 <= softDeletions bi <= pagesInUse bi /\ pagesInUse bi <= allocationPage dev /\
    forall c, allocationPage dev <= c -> lbit (bits dev i) c = false.
Proof.
  intros Ha Hab. destruct (ac_allocation _ _ _ Ha) as [E|(j & bi & E & Hj & Hs & Hp)].
  { destruct (ac_geometry _ _ _ Ha) as [Hst _ _ _ _ _]. unfold blk in Hab. lia. }
  assert (j = i) as -> by (unfold blk in *; lia). exists bi. pose proof (ac_blocks _ _ _ Ha i bi Hj) as Hb.
  unfold block_ok in Hb. rewrite Hs in Hb. by destruct Hb as (_ & ? & ? & ? & ?).
Qed.

Lemma allocation_take_spec dev i :
  accounts dev -> allocationBlock dev = blk dev i ->
  let p := allocationPage dev in
  exists bi' dev', allocation_take dev (blk dev i) = Some (chunk_at dev i p, dev') /\
    accounts dev' /\ allocates i p dev dev' /\ allocated dev' i bi' p /\
    burn dev' = burn dev - (if gcPrioritise bi' then 1 else 0).
Proof.
  intros Ha Hab p. destruct (allocating_facts dev i Ha Hab) as (bi & Hi & Hs & Hp & Hpg & Hsd & Hle & Hz).
  fold p in Hp, Hle, Hz. pose proof (ac_geometry _ _ _ Ha) as Hg.
  assert (lbit (bits dev i) p = false) as Hfresh by (apply Hz; lia).
  destruct (allocation_take_moves dev i bi Hg Hi Hp) as (l' & dev' & E & Hbc & Hm). fold p in E, Hbc, Hm.
  set (full := nChunksPerBlock dev <=? p + 1) in *. rewrite Hfresh in Hbc.
  pose proof Hm as [Hc Hk]. injection Hk as K1 K2 K3 K4 K5 K6. pose proof (constants_chunks _ _ Hc) as EN.
  destruct (bits_after _ _ _ _ _ dev' Hbc Hc K2) as (B1 & B2 & B3).
  destruct (used_block_fields bi full) as (Ep & Es & Eg & Est). rewrite s10_small in Ep by (destruct Hg; lia).
  exists (used_block bi full), dev'. split; [done|]. split.
  { eapply (accounts_update None None 0 0 dev i bi (used_block bi full) dev' _ _ _ _ _ Ha Hi Hm); try apply Hbc; try done.
    - unfold block_ok. rewrite Est, Ep, Es, K5, K6, B2, EN, (blk_constants dev dev'), Hs by done. unfold full.
      destruct (Z.leb_spec (nChunksPerBlock dev) (p + 1)); [lia|]. split_and!; try lia. intros c Hcp.
      rewrite B3, Hz by lia. by rewrite (proj2 (Z.eqb_neq c p)) by lia.
    - intros j bj Hj Hbj Eb. apply (block_ok_frame None dev); [done..|]. intros Hsj.
      by destruct (one_allocating _ _ _ _ _ _ Ha Hab Hbj Hj).
    - rewrite !erased_not; [lia|rewrite Est; by destruct full; rewrite ?Hs|by rewrite Hs].
    - unfold block_free. rewrite Est, Ep, Es, Hs. destruct full; lia.
    - unfold allocation_ok. rewrite K5. unfold full. destruct (Z.leb_spec (nChunksPerBlock dev) (p + 1)); [by left|]. right.
      exists i, (used_block bi full). rewrite K1, K6, EN, (blk_constants dev dev') by done.
      rewrite list_lookup_insert_eq by (by eapply lookup_lt_Some). rewrite Est.
      split_and!; [done..|lia|lia]. }
  split.
  { constructor; [done|done| |lia]. intros j c Hc0. destruct (decide (j = i)) as [->|Hj].
    - rewrite B3 by done. f_equal. apply eq_true_iff_eq. rewrite Z.eqb_eq, bool_decide_eq_true. by split; [|intros []].
    - rewrite B1 by done. rewrite bool_decide_false by (by intros [? _]). done. }
  split.
  - unfold allocated, in_block. rewrite K1, EN, B3, Z.eqb_refl, Ep, Es by lia.
    rewrite list_lookup_insert_eq by (by eapply lookup_lt_Some). rewrite Est, Hs. split_and!; try done; try lia; by destruct full.
  - unfold burn. rewrite EN, K1, K6, (burn_pages _ p _ _ i bi); [|done|intros j bj Hj Hne; by eapply one_allocating].
    unfold burn_block at 2 3. rewrite Eg, Est, Hs. unfold full.
    destruct (gcPrioritise bi), (Z.leb_spec (nChunksPerBlock dev) (p + 1)); unfold p in *; lia.
Qed.

(** The test for space looks only at the books. *)
Lemma CheckSpace_quiet dev : quiet dev (snd (yaffs_CheckSpaceForAllocation dev)).
Proof.
  unfold yaffs_CheckSpaceForAllocation, yaffs_CalcCheckpointBlocksRequired.
  destruct (isYaffs2 dev) eqn:E; [|done]. by destruct (_ && _).
Qed.

Lemma starts_quiet dev dev' dev'' : starts dev dev' -> quiet dev' dev'' -> starts dev dev''.
Proof.
  intros [] Hq. pose proof (burn_quiet _ _ Hq). destruct Hq as [Hc Hk]. injection Hk as K1 K2 K3 K4 K5 K6.
  constructor; congruence.
Qed.

Lemma starts_allocates i p dev dev' dev'' : starts dev dev' -> allocates i p dev' dev'' -> allocates i p dev dev''.
Proof.
  intros [Hc Eb Ef _] [Hc' Hfr Hb Hf]. constructor; try congruence.
  - by rewrite <- (bits_books dev dev').
  - intros j c Hc0. by rewrite Hb, (bits_books dev dev').
Qed.

Lemma AllocateChunk_spec dev r :
  accounts dev ->
  exists c ob dev', yaffs_AllocateChunk dev r = Some (c, ob, dev') /\ accounts dev' /\
    (c = -1 /\ ob = None /\ starts dev dev' /\ (r = true -> allocationBlock dev = -1 /\ nErasedBlocks dev = 0) \/
     exists i p bi', c = chunk_at dev i p /\ ob = Some (blk dev i) /\ allocates i p dev dev' /\ allocated dev' i bi' p /\
       burn dev' <= burn dev - (if gcPrioritise bi' then 1 else 0)).
Proof.
  intros Ha. unfold yaffs_AllocateChunk.
  destruct (allocation_start_spec dev Ha) as (dev1 & -> & Ha1 & Hs1 & Hnone). cbn [mbind option_bind].
  assert (quiet dev1 (snd (if r then (true, dev1) else yaffs_CheckSpaceForAllocation dev1))) as Hq2.
  { destruct r; [done|]. apply CheckSpace_quiet. }
  assert (r = true -> fst (if r then (true, dev1) else yaffs_CheckSpaceForAllocation dev1) = true) as Hr by (by intros ->).
  destruct (if r then (true, dev1) else yaffs_CheckSpaceForAllocation dev1) as [space dev2]. cbn [fst snd] in *.
  pose proof (accounts_quiet _ _ _ _ Hq2 Ha1) as Ha2. pose proof (starts_quiet _ _ _ Hs1 Hq2) as Hs2.
  destruct space; cbn [negb].
  2:{ exists (-1), None, dev2. split; [done|]. split; [done|]. left. split_and!; [done..|]. intros Hrt. by specialize (Hr Hrt). }
  assert (allocationBlock dev2 = allocationBlock dev1) as Eab by (destruct Hq2 as [_ Hk]; by injection Hk).
  destruct (ac_allocation _ _ _ Ha2) as [E|(i & bi & E & _)].
  - rewrite E. cbn. exists (-1), None, dev2. split; [done|]. split; [done|]. left. split_and!; [done..|].
    intros _. apply Hnone. congruence.
  - rewrite E, (proj2 (Z.leb_le _ _)) by (destruct (ac_geometry _ _ _ Ha2); unfold blk; lia).
    destruct (allocation_take_spec dev2 i Ha2 E) as (bi' & dev' & -> & Ha' & Hal & Hin & Hb). cbn [mbind option_bind].
    eexists _, _, dev'. split; [done|]. split; [done|]. right. exists i, (allocationPage dev2), bi'.
    assert (constants dev2 = constants dev) as Hc by apply Hs2. split.
    { unfold chunk_at. by rewrite (blk_constants dev dev2), (constants_chunks dev dev2). }
    split; [by rewrite (blk_constants dev dev2)|]. split; [by eapply starts_allocates|]. split; [done|].
    destruct Hs2. lia.
Qed.
End Allocation.

(** ** Writing a new chunk *)

Section Writing.
Context {mtd : Type} (y2 : bool) (ops : nand_ops mtd) `{!QuietOps y2 ops} (tmp : list Z) (ltags : yaffs_ExtendedTags).
Implicit Types dev : yaffs_Device mtd.

Lemma CheckFF_total n l : (n <= length l)%nat -> is_Some (yaffs_CheckFF l n).
Proof.
  revert l. induction n as [|n IH]; intros [|c l] Hl; cbn in *; [by eexists..|lia|].
  destruct (negb _); [by eexists|]. apply IH. lia.
Qed.

(** Flags of block [i] change. *)
Definition flags dev i bi' dev' : Prop :=
  exists bi, blockInfo dev !! i = Some bi /\ same_use bi bi' /\ moves dev (block_set dev i bi') dev'.

Lemma flags_accounts dev i bi' dev' : flags dev i bi' dev' -> accounts dev -> accounts dev'.
Proof using Type.
  intros (bi & Hi & Hu & Hm) Ha. pose proof (accounts_flags None 0 dev i bi bi' Ha Hi Hu) as Ha'.
  apply (accounts_books None 0 _ dev' Ha'). destruct (set_block_moves dev i bi') as [Hc Hk], Hm as [Hc' Hk'].
  unfold block_set in Hk'. split; congruence.
Qed.

Lemma flags_bits dev i bi' dev' j : flags dev i bi' dev' -> bits dev' j = bits dev j.
Proof using Type. intros (bi & Hi & Hu & Hc & Hk). injection Hk as _ K2 _ _ _ _. by apply bits_books. Qed.

Lemma flags_allocated dev i bi bi' p dev' :
  blockInfo dev !! i = Some bi -> flags dev i bi' dev' -> allocated dev i bi p -> allocated dev' i bi' p.
Proof using Type.
  intros Hi Hf ((_ & Hp & Hb & Hd) & Hcol & Hsd). pose proof (flags_bits _ _ _ _ i Hf) as Eb.
  destruct Hf as (bi0 & Hi0 & (Es & Ep & Ed) & Hc & Hk). injection Hk as K1 _ _ _ _ _. assert (bi0 = bi) as -> by congruence.
  unfold allocated, in_block. rewrite K1, (constants_chunks _ _ Hc), Eb, Es, Ep, Ed.
  rewrite list_lookup_insert_eq by (by eapply lookup_lt_Some). done.
Qed.

Lemma burn_block_bound dev i bi bi' :
  accounts dev -> blockInfo dev !! i = Some bi -> blockState bi' = blockState bi ->
  0 <= burn_block (nChunksPerBlock dev) (allocationPage dev) bi' <= nChunksPerBlock dev.
Proof using Type.
  intros Ha Hi Es. destruct (ac_geometry _ _ _ Ha) as [_ HN _ _ _ _]. unfold burn_block. rewrite Es.
  destruct (gcPrioritise bi'); [|lia]. destruct (blockState bi) eqn:Hs; try lia.
  pose proof (ac_blocks _ _ _ Ha i bi Hi) as Hb. unfold block_ok in Hb. rewrite Hs in Hb. destruct Hb as [Hab _].
  destruct (allocating_facts dev i Ha Hab) as (_ & _ & _ & Hp & _). lia.
Qed.

Lemma allocated_quiet dev dev' i bi p : quiet dev dev' -> allocated dev i bi p -> allocated dev' i bi p.
Proof using Type. intros Hq (Hin & H). split; [by eapply in_block_quiet|done]. Qed.

(** Flags add at most a block to what may have to be given up. *)
Lemma flags_burn dev i bi' dev' :
  accounts dev -> flags dev i bi' dev' -> burn dev' <= burn dev + nChunksPerBlock dev.
Proof using Type.
  intros Ha (bi & Hi & (Es & _) & Hc & Hk). injection Hk as K1 _ _ _ _ K6. rewrite (burn_set dev dev' i bi bi') by done.
  pose proof (burn_block_bound dev i bi bi Ha Hi eq_refl). pose proof (burn_block_bound dev i bi bi' Ha Hi Es). lia.
Qed.

Lemma burn_nonneg dev : accounts dev -> 0 <= burn dev.
Proof using Type.
  intros Ha. apply zsum_nonneg. intros x Hx. apply list_elem_of_lookup in Hx as [i Hi].
  by apply (burn_block_bound dev i x).
Qed.

Lemma CheckChunkErased_spec dev i bi p :
  accounts dev -> buffered y2 tmp dev -> allocated dev i bi p ->
  exists r dev' bi', yaffs_CheckChunkErased ops tmp ltags dev (chunk_at dev i p) = Some (r, dev') /\ flags dev i bi' dev'.
Proof using QuietOps0.
  intros Ha [Hs Ht] ((Hi & Hp & _) & _). unfold yaffs_CheckChunkErased.
  destruct (chunk_at_pos dev i p (ac_geometry _ _ _ Ha) Hp) as (_ & Hq & _).
  destruct (nand_read_flags y2 ops dev (chunk_at dev i p) tmp ltags i bi Hs Ht Hq Hi) as (r & d' & t' & dev' & bi' & -> & Hl & Hu & Hm).
  cbn [mbind option_bind]. destruct (CheckFF_total (Z.to_nat (nDataBytesPerChunk dev')) d') as [ff ->].
  { destruct Hm as [Hc _]. injection Hc as _ _ _ _ E5 _ _ _. rewrite E5. destruct Hs as (? & ? & Hs). unfold blen in *.
    destruct (inbandTags dev); lia. }
  cbn [mbind option_bind]. eexists _, dev', bi'. split; [done|]. by exists bi.
Qed.

(** The bitmap stays as it is, and at most [k] blocks are added to what may have to be given up. *)
Record stirs (k : Z) dev dev' : Prop := {
  sr_constants : constants dev' = constants dev;
  sr_bits : forall j, bits dev' j = bits dev j;
  sr_burn : burn dev' <= burn dev + k * nChunksPerBlock dev
}.

Lemma flags_stirs dev i bi' dev' : accounts dev -> flags dev i bi' dev' -> stirs 1 dev dev'.
Proof using Type.
  intros Ha Hf. pose proof (flags_burn _ _ _ _ Ha Hf). constructor; [|intros j; by apply (flags_bits dev i bi')|lia].
  by destruct Hf as (? & _ & _ & ? & _).
Qed.

Lemma stirs_trans k k' dev dev' dev'' : stirs k dev dev' -> stirs k' dev' dev'' -> stirs (k + k') dev dev''.
Proof using Type.
  intros [Hc Hb Hu] [Hc' Hb' Hu']. rewrite (constants_chunks _ _ Hc) in Hu'. constructor; [congruence| |lia].
  intros j. by rewrite Hb'.
Qed.

Lemma stirs_refl dev : accounts dev -> stirs 2 dev dev.
Proof using Type. intros Ha. destruct (ac_geometry _ _ _ Ha). constructor; [done..|lia]. Qed.

Lemma chunk_at_constants dev dev' i p : constants dev' = constants dev -> chunk_at dev' i p = chunk_at dev i p.
Proof using Type. intros Hc. unfold chunk_at. by rewrite (blk_constants dev dev'), (constants_chunks dev dev'). Qed.

Lemma write_check_spec dev i bi p :
  accounts dev -> buffered y2 tmp dev -> allocated dev i bi p ->
  exists go e dev' bi', write_check ops tmp ltags dev bi (blk dev i) (chunk_at dev i p) = Some (go, e, dev') /\
    accounts dev' /\ allocated dev' i bi' p /\ stirs 2 dev dev'.
Proof using QuietOps0.
  intros Ha Hbuf Hal. unfold write_check. destruct (skipErasedCheck bi); cbn [negb].
  { exists true, 0, dev, bi. split_and!; [done..|]. by apply stirs_refl. }
  destruct (CheckChunkErased_spec dev i bi p Ha Hbuf Hal) as (r & dev1 & bi1 & -> & Hf1). cbn [mbind option_bind].
  pose proof (flags_accounts _ _ _ _ Hf1 Ha) as Ha1. pose proof (flags_stirs _ _ _ _ Ha Hf1) as Hs1.
  pose proof (flags_allocated dev i bi bi1 p dev1 (proj1 (proj1 Hal)) Hf1 Hal) as Hal1.
  destruct (negb (r =? YAFFS_OK)).
  { exists false, r, dev1, bi1. split_and!; [done..|]. destruct Hs1, (ac_geometry _ _ _ Ha). constructor; [done..|lia]. }
  pose proof (proj1 (proj1 Hal1)) as Hi1.
  rewrite <- (blk_constants dev dev1), (update_block_blk dev1 i bi1) by (apply Hs1 || done). cbn [mbind option_bind].
  set (bi2 := bi1 <| skipErasedCheck := true |>).
  assert (flags dev1 i bi2 (set_block_info dev1 (blk dev1 i) bi2)) as Hf2.
  { exists bi1. split_and!; [done..|]. apply set_block_moves. }
  eexists true, r, _, bi2. split; [done|]. split; [by eapply flags_accounts|]. split; [by eapply flags_allocated|].
  apply (stirs_trans 1 1 _ dev1); [done|]. by eapply flags_stirs.
Qed.

Lemma HandleWriteChunkError_spec dev i bi p e :
  accounts dev -> buffered y2 tmp dev -> allocated dev i bi p ->
  exists dev1 dev', yaffs_HandleWriteChunkError ops tmp dev (chunk_at dev i p) e = Some dev' /\
    accounts dev' /\ stirs 1 dev dev1 /\ deletes i p dev1 dev'.
Proof using QuietOps0.
  intros Ha Hbuf Hal. pose proof (proj1 Hal) as (Hi & Hp & _). unfold yaffs_HandleWriteChunkError. cbv zeta.
  destruct (chunk_at_pos dev i p (ac_geometry _ _ _ Ha) Hp) as (_ & -> & _).
  rewrite GetBlockInfo_blk, Hi. cbn [mbind option_bind].
  destruct (yaffs_HandleChunkError dev bi) as [dev1 bi1] eqn:E. destruct (HandleChunkError_use _ _ _ _ E) as [Hq Hu].
  set (bi2 := if truthy e then _ else bi1).
  assert (same_use bi bi2) as Hu2 by (unfold bi2; by destruct (truthy e)).
  destruct (blk_quiet dev dev1 i Hq) as [Eb _]. rewrite <- Eb.
  assert (flags dev i bi2 (set_block_info dev1 (blk dev1 i) bi2)) as Hf.
  { exists bi. split_and!; [done..|]. destruct (set_block_moves dev1 i bi2) as [Hc Hk], Hq as [Hc1 Hk1].
    injection Hk1 as K1 K2 K3 K4 K5 K6. split; [congruence|]. rewrite Hk. unfold block_set. congruence. }
  revert Hf. generalize (set_block_info dev1 (blk dev1 i) bi2). intros dev2 Hf.
  pose proof (flags_stirs _ _ _ _ Ha Hf) as Hs. pose proof (flags_allocated dev i bi bi2 p dev2 Hi Hf Hal) as (Hin & Hcol & Hsd).
  rewrite <- (chunk_at_constants dev dev2) by apply Hs.
  destruct (DeleteChunk_spec y2 ops tmp dev2 i bi2 p true) as (dev' & E' & Ha' & Hd); [by eapply flags_accounts| |done|done|].
  { apply (buffered_constants y2 tmp dev); [apply Hs|done]. }
  by exists dev2, dev'.
Qed.

(** No chunk goes out of use. *)
Record keeps dev dev' : Prop := {
  kp_constants : constants dev' = constants dev;
  kp_bits : forall j c, 0 <= c -> lbit (bits dev j) c = true -> lbit (bits dev' j) c = true
}.

Lemma keeps_trans dev dev' dev'' : keeps dev dev' -> keeps dev' dev'' -> keeps dev dev''.
Proof using Type. intros [E H] [E' H']. constructor; [congruence|]. intros j c Hc Hb. by apply H', H. Qed.

Lemma settles_keeps dev dev' : settles dev dev' -> keeps dev dev'.
Proof using Type. intros []. constructor; [done|]. intros j c Hc Hb. by rewrite se_bits. Qed.

Lemma starts_keeps dev dev' : starts dev dev' -> keeps dev dev'.
Proof using Type. intros [Hc Hb _ _]. constructor; [done|]. intros j c _. by rewrite (bits_books dev dev'). Qed.

Lemma allocates_keeps i p dev dev' : allocates i p dev dev' -> keeps dev dev'.
Proof using Type. intros [Hc _ Hb _]. constructor; [done|]. intros j c Hc0 E. by rewrite Hb, E, orb_true_r. Qed.

Lemma stirs_keeps k dev dev' : stirs k dev dev' -> keeps dev dev'.
Proof using Type. intros [Hc Hb _]. constructor; [done|]. intros j c _. by rewrite Hb. Qed.

(** A chunk that was allocated and deleted again. *)
Lemma deleted_keeps i p dev dev1 dev2 dev3 :
  allocates i p dev dev1 -> keeps dev1 dev2 -> deletes i p dev2 dev3 -> keeps dev dev3.
Proof using Type.
  intros Hal [Hc Hb] [Hc' _ _ Hd _]. destruct (allocates_keeps _ _ _ _ Hal) as [Hc0 Hb0]. constructor; [congruence|].
  intros j c Hc1 E. rewrite Hd by done. case_bool_decide as Hjc; [|by apply Hb, Hb0].
  destruct Hjc as [-> ->]. destruct Hal. congruence.
Qed.

Definition retag (tags : yaffs_ExtendedTags) (seq : Z) : yaffs_ExtendedTags :=
  tags <| sequenceNumber := seq |> <| chunkUsed := 1 |>.

(** The tags that the rounds pass on. *)
Definition tagged (tags tags' : yaffs_ExtendedTags) : Prop := tags' = tags \/ exists seq, tags' = retag tags seq.

Lemma tagged_retag tags tags' seq : tagged tags tags' -> retag tags' seq = retag tags seq.
Proof using Type. by intros [-> | [s ->]]. Qed.

Lemma tagged_trans tags tags' tags'' : tagged tags tags' -> tagged tags' tags'' -> tagged tags tags''.
Proof using Type. intros H [-> | [s ->]]; [done|]. right. exists s. by apply tagged_retag. Qed.

(** The chunk [c], which was not in use, is in use, and [dev'] is what the call of the driver that has
    written the data and the tags to it left, but for the count of retries: nothing on the medium
    has changed since. *)
Definition written dev (data : list Z) (tags : yaffs_ExtendedTags) (c : Z) (tags' : yaffs_ExtendedTags) dev' : Prop :=
  exists i p, c = chunk_at dev i p /\ 0 <= p < nChunksPerBlock dev /\
    lbit (bits dev i) p = false /\ lbit (bits dev' i) p = true /\
    exists dev1 t dev2, tags' = retag tags (dev_sequenceNumber dev1) /\
      yaffs_WriteChunkWithTagsToNAND ops dev1 c (Some data) (Some t) = Some (YAFFS_OK, tags', dev2) /\
      exists n, dev' = dev2 <| nRetriedWrites := n |>.

Section Round.
Context (data : list Z) (tags : yaffs_ExtendedTags).

Lemma write_attempt_spec dev dev1 i p bi :
  accounts dev1 -> buffered y2 tmp dev1 -> writable dev1 (Some data) -> allocates i p dev dev1 -> allocated dev1 i bi p ->
  exists w tags' dev', write_attempt ops tmp ltags dev1 data tags bi (blk dev1 i) (chunk_at dev1 i p) 0 = Some (w, tags', dev') /\
    accounts dev' /\ keeps dev dev' /\ tagged tags tags' /\
    (w = 0 /\ burn dev' <= burn dev1 + 3 * nChunksPerBlock dev1 \/
     w = YAFFS_OK /\ written dev data tags (chunk_at dev1 i p) tags' dev').
Proof using QuietOps0.
  intros Ha1 Hbuf1 Hw1 Hal Hin. pose proof (al_constants _ _ _ _ Hal) as Hc1.
  destruct (ac_geometry _ _ _ Ha1) as [_ HN _ _ _ _]. unfold write_attempt.
  destruct (write_check_spec dev1 i bi p Ha1 Hbuf1 Hin) as (go & e & dev2 & bi2 & -> & Ha2 & Hin2 & Hs2).
  cbn [mbind option_bind]. pose proof (keeps_trans _ _ _ (allocates_keeps _ _ _ _ Hal) (stirs_keeps _ _ _ Hs2)) as Hk2.
  destruct go.
  2:{ eexists _, _, _. split; [done|]. split; [done|]. split; [done|]. split; [by left|]. left. destruct Hs2. split; [done|lia]. }
  assert (constants dev2 = constants dev1) as Hc2 by apply Hs2.
  assert (buffered y2 tmp dev2) as Hbuf2 by (apply (buffered_constants y2 tmp dev1); done).
  destruct (nand_write_quiet y2 ops dev2 (chunk_at dev1 i p) (Some data) tags) as (r & dev3 & Ew & Hr & Hq3); [apply Hbuf2|..].
  { unfold writable in *. injection Hc2 as _ _ _ _ _ E6 _ _. by rewrite E6. }
  fold (retag tags (dev_sequenceNumber dev2)) in Ew. rewrite Ew. cbn [mbind option_bind].
  pose proof (accounts_quiet _ _ _ _ Hq3 Ha2) as Ha3. pose proof (settles_quiet _ _ (ac_geometry _ _ _ Ha2) Hq3) as Hs3.
  pose proof (keeps_trans _ _ _ (stirs_keeps _ _ _ Hs2) (settles_keeps _ _ Hs3)) as Hk13.
  assert (constants dev3 = constants dev1) as Hc3 by apply Hk13.
  assert (tagged tags (retag tags (dev_sequenceNumber dev2))) as Htag by (right; by eexists).
  destruct Hr as [-> | ->]; cbn [negb YAFFS_OK YAFFS_FAIL Z.eqb].
  - eexists _, _, dev3. split; [done|]. split; [done|]. split; [exact (keeps_trans _ _ _ (allocates_keeps _ _ _ _ Hal) Hk13)|].
    split; [done|]. right. split; [done|]. exists i, p. pose proof (proj1 Hin) as (_ & Hp & Hbit & _).
    rewrite <- (constants_chunks _ _ Hc1). split; [by apply chunk_at_constants|]. split; [done|]. split; [apply Hal|].
    split; [apply Hk13; [lia|done]|]. exists dev2, tags, dev3. split; [done|]. split; [done|].
    exists (nRetriedWrites dev3). by destruct dev3.
  - pose proof (allocated_quiet dev2 dev3 i bi2 p Hq3 Hin2) as Hin3. rewrite <- (chunk_at_constants dev1 dev3) by done.
    destruct (HandleWriteChunkError_spec dev3 i bi2 p e Ha3) as (dev4 & dev' & -> & Ha' & Hs4 & Hd); [|done|].
    { by apply (buffered_constants y2 tmp dev1). }
    cbn [mbind option_bind]. eexists _, _, dev'. split; [done|]. split; [done|]. split.
    { eapply deleted_keeps; [exact Hal| |exact Hd]. eapply keeps_trans; [exact Hk13|]. by apply (stirs_keeps 1). }
    split; [done|]. left. split; [done|]. pose proof (constants_chunks _ _ Hc3). destruct Hs2, Hs3, Hs4, Hd. lia.
Qed.

(** What a round leaves: an end without a chunk, a round without a write that goes on, or a write. *)
Definition round_result dev (attempts : Z) (r : option Z * Z * Z * yaffs_ExtendedTags * yaffs_Device mtd) : Prop :=
  let '(c, w, att, tags', dev') := r in
  accounts dev' /\ keeps dev dev' /\ tagged tags tags' /\
  match c with
  | None => True
  | Some c =>
      w = 0 /\ (att = attempts /\ burn dev' <= burn dev - 1 \/
                att = attempts + 1 /\ burn dev' <= burn dev + 3 * nChunksPerBlock dev) \/
      w = YAFFS_OK /\ written dev data tags c tags' dev'
  end.

Lemma write_round_spec dev useReserve attempts :
  accounts dev -> buffered y2 tmp dev -> writable dev (Some data) ->
  exists r, write_round ops tmp ltags dev data tags useReserve 0 attempts = Some r /\ round_result dev attempts r.
Proof using QuietOps0.
  intros Ha Hbuf Hw. unfold write_round.
  destruct (AllocateChunk_spec dev useReserve Ha) as (c & ob & dev1 & -> & Ha1 & [H|H]); cbn [mbind option_bind].
  { destruct H as (_ & -> & Hs & _). eexists. split; [done|]. split_and!; [done|by apply starts_keeps|by left|done]. }
  destruct H as (i & p & bi & -> & -> & Hal & Hin & Hb). pose proof (al_constants _ _ _ _ Hal) as Hc1.
  assert (buffered y2 tmp dev1) as Hbuf1 by (by apply (buffered_constants y2 tmp dev)).
  assert (writable dev1 (Some data)) as Hw1.
  { unfold writable in *. injection Hc1 as _ _ _ _ _ E6 _ _. by rewrite E6. }
  rewrite <- (blk_constants dev dev1), <- (chunk_at_constants dev dev1), GetBlockInfo_blk, (proj1 (proj1 Hin)) by done.
  cbn [mbind option_bind]. destruct (gcPrioritise bi).
  - destruct Hin as (Hin & Hcol & Hsd).
    destruct (DeleteChunk_spec y2 ops tmp dev1 i bi p true Ha1 Hbuf1 Hin) as (dev' & -> & Ha' & Hd); [done|]. cbn [mbind option_bind].
    eexists. split; [done|]. split; [done|]. split; [by eapply (deleted_keeps i p dev dev1 dev1)|]. split; [by left|]. left.
    split; [done|]. left. split; [done|]. destruct Hd. lia.
  - destruct (write_attempt_spec dev dev1 i p bi Ha1 Hbuf1 Hw1 Hal Hin) as (w & tags' & dev' & -> & Ha' & Hk & Ht & H).
    cbn [mbind option_bind]. eexists. split; [done|]. split_and!; [done..|]. destruct H as [[-> H]|H]; [|by right].
    left. split; [done|]. right. split; [done|]. rewrite (constants_chunks _ _ Hc1) in H. lia.
Qed.

End Round.

Lemma written_keeps dev dev1 data tags tags1 c tags' dev' :
  keeps dev dev1 -> tagged tags tags1 -> written dev1 data tags1 c tags' dev' -> written dev data tags c tags' dev'.
Proof using Type.
  intros [Hc Hb] Ht (i & p & -> & Hp & Hf & Hu & d1 & t & d2 & -> & Hw & Hq). exists i, p.
  rewrite (constants_chunks _ _ Hc) in Hp. rewrite <- (chunk_at_constants dev dev1) by done. split; [done|]. split; [done|].
  split. { destruct (lbit (bits dev i) p) eqn:E; [|done]. rewrite Hb in Hf; [done|lia|done]. }
  split; [done|]. exists d1, t, d2. split; [by apply tagged_retag|done].
Qed.

Lemma writable_constants dev dev' data : constants dev' = constants dev -> writable dev (Some data) -> writable dev' (Some data).
Proof using Type. intros Hc. injection Hc as _ _ _ _ _ E6 _ _. unfold writable. by rewrite E6. Qed.

Lemma write_loop_sound wr data useReserve fuel : forall dev tags attempts c att tags' dev',
  accounts dev -> buffered y2 tmp dev -> writable dev (Some data) ->
  write_loop ops tmp ltags wr fuel dev data tags useReserve 0 attempts = Some (c, att, tags', dev') ->
  accounts dev' /\ keeps dev dev' /\ (c = -1 \/ written dev data tags c tags' dev').
Proof using QuietOps0.
  induction fuel as [|fuel IH]; intros dev tags attempts c att tags' dev' Ha Hbuf Hw; [done|]. cbn [write_loop].
  destruct (write_round_spec data tags dev useReserve attempts Ha Hbuf Hw) as ([[[[oc w] att1] tags1] dev1] & -> & Ha1 & Hk1 & Ht1 & H).
  cbn [mbind option_bind]. destruct oc as [c1|]; [|intros [= <- <- <- <-]; by auto].
  destruct H as [[-> H]|[-> H]]; [|cbn; intros [= <- <- <- <-]; by auto].
  destruct (_ && _); [|intros [= <- <- <- <-]; by auto]. intros E. pose proof (kp_constants _ _ Hk1) as Hc1.
  destruct (IH dev1 tags1 att1 c att tags' dev') as (Ha' & Hk' & Hres);
    [done|by apply (buffered_constants y2 tmp dev)|by apply (writable_constants dev)|done|].
  split; [done|]. split; [by eapply keeps_trans|]. destruct Hres as [-> | Hres]; [by left|]. right. by eapply written_keeps.
Qed.

(** What is left of the rounds: each attempt may add three blocks of chunks that have to be given
    up before the next one. *)
Definition rounds_left (wr : Z) dev (attempts : Z) : Z :=
  (wr + 1 - attempts) * (3 * nChunksPerBlock dev + 1) + burn dev.

Lemma write_loop_ends wr data useReserve fuel : forall dev tags attempts,
  accounts dev -> buffered y2 tmp dev -> writable dev (Some data) -> 0 <= attempts <= wr -> 0 < wr ->
  rounds_left wr dev attempts < Z.of_nat fuel ->
  is_Some (write_loop ops tmp ltags wr fuel dev data tags useReserve 0 attempts).
Proof using QuietOps0.
  induction fuel as [|fuel IH]; intros dev tags attempts Ha Hbuf Hw Hatt Hwr Hfuel;
    pose proof (burn_nonneg _ Ha) as Hburn; destruct (ac_geometry _ _ _ Ha) as [_ HN _ _ _ _]; unfold rounds_left in Hfuel.
  { nia. }
  cbn [write_loop].
  destruct (write_round_spec data tags dev useReserve attempts Ha Hbuf Hw) as ([[[[c w] att] tags1] dev1] & -> & Ha1 & Hk1 & Ht1 & H).
  cbn [mbind option_bind]. destruct c as [c|]; [|by eexists]. destruct H as [[-> H]|[-> H]]; [|by eexists].
  change (negb (0 =? YAFFS_OK)) with true. rewrite (proj2 (Z.eqb_neq wr 0)) by lia. cbn [andb orb].
  pose proof (kp_constants _ _ Hk1) as Hc1. destruct (Z.leb_spec att wr); [|by eexists].
  apply IH; [done|by apply (buffered_constants y2 tmp dev)|by apply (writable_constants dev)|lia|done|].
  unfold rounds_left. rewrite (constants_chunks _ _ Hc1). destruct H as [[-> H]|[-> H]]; lia.
Qed.

Lemma WriteNewChunk_sound wr data useReserve fuel dev tags c tags' dev' :
  accounts dev -> buffered y2 tmp dev -> writable dev (Some data) ->
  yaffs_WriteNewChunkWithTagsToNAND ops tmp ltags wr fuel dev data tags useReserve = Some (c, tags', dev') ->
  accounts dev' /\ keeps dev dev' /\ (c = -1 \/ written dev data tags c tags' dev').
Proof using QuietOps0.
  intros Ha Hbuf Hw. unfold yaffs_WriteNewChunkWithTagsToNAND.
  destruct (InvalidateCheckpoint_spec y2 ops None 0 dev Ha) as (dev1 & -> & Ha1 & Hu1). cbn [mbind option_bind].
  pose proof (settles_keeps _ _ (settles_unchecked _ _ (ac_geometry _ _ _ Ha) Hu1)) as Hk1.
  pose proof (kp_constants _ _ Hk1) as Hc1.
  destruct (write_loop _ _ _ _ _ _ _ _ _ _ _) as [[[[c1 att] tags1] dev2]|] eqn:E; [|done]. cbn [mbind option_bind]. intros [= <- <- <-].
  destruct (write_loop_sound wr data useReserve fuel dev1 tags 0 c1 att tags1 dev2) as (Ha2 & Hk2 & Hres);
    [done|by apply (buffered_constants y2 tmp dev)|by apply (writable_constants dev)|done|].
  set (dev3 := if 1 <? att then _ else dev2). assert (quiet dev2 dev3) as Hq by (unfold dev3; by destruct (1 <? att)).
  split; [by eapply accounts_quiet|].
  assert (keeps dev2 dev3) as Hk3 by (apply settles_keeps, settles_quiet; [apply Ha2|done]).
  split; [eapply keeps_trans; [exact Hk1|]; by eapply keeps_trans|].
  destruct Hres as [-> | Hres]; [by left|]. right. apply (written_keeps dev dev1 data tags tags); [done|by left|].
  destruct Hres as (i & p & E1 & E2 & E3 & E4 & d1 & t & d2 & E5 & E6 & n & ->). exists i, p. split_and!; try done; try lia.
  - by apply Hk3; [lia|].
  - exists d1, t, d2. split; [done|]. split; [done|]. unfold dev3. destruct (1 <? att); by eexists.
Qed.

Lemma WriteNewChunk_ends wr data useReserve fuel dev tags :
  accounts dev -> buffered y2 tmp dev -> writable dev (Some data) -> 0 < wr -> rounds_left wr dev 0 < Z.of_nat fuel ->
  is_Some (yaffs_WriteNewChunkWithTagsToNAND ops tmp ltags wr fuel dev data tags useReserve).
Proof using QuietOps0.
  intros Ha Hbuf Hw Hwr Hfuel. unfold yaffs_WriteNewChunkWithTagsToNAND.
  destruct (InvalidateCheckpoint_spec y2 ops None 0 dev Ha) as (dev1 & -> & Ha1 & Hu1). cbn [mbind option_bind].
  assert (constants dev1 = constants dev) as Hc1 by apply Hu1.
  destruct (write_loop_ends wr data useReserve fuel dev1 tags 0) as [[[[c1 att] tags1] dev2] ->];
    [done|by apply (buffered_constants y2 tmp dev)|by apply (writable_constants dev)|lia|done| |by eexists].
  pose proof (burn_unchecked _ _ (ac_geometry _ _ _ Ha) Hu1). unfold rounds_left in *. rewrite (constants_chunks _ _ Hc1). lia.
Qed.
End Writing.
