(* ===== verification/YaffsBlocksGc.v ===== *)
(** * The choice of a block for garbage collection, and the count of free chunks

    [yaffs_FindBlockForGarbageCollection] takes a full block whose collection does not lose a
    shrink header that is still needed and, when it searches hard, one with the fewest chunks
    to copy, unless the sequence number that decides this is left over from an earlier search;
    [yaffs_CountFreeChunks] agrees with the counter of free chunks. *)

From S2P Require Import Prelude NandEcc NandEccFacts YaffsTags YaffsNand YaffsBlocks YaffsBlocksFacts YaffsBlocksOps.

Local Open Scope Z_scope.

Section Gc.
Context {mtd : Type}.
Implicit Types dev : yaffs_Device mtd.

(** The chunks that collecting a block copies. *)
Definition cost (bi : yaffs_BlockInfo) : Z := pagesInUse bi - softDeletions bi.

Definition full (bi : yaffs_BlockInfo) : bool := bool_decide (blockState bi = YAFFS_BLOCK_STATE_FULL).

(** A full block with discarded pages. *)
Definition dirty dev (bi : yaffs_BlockInfo) : bool := full bi && (cost bi <? nChunksPerBlock dev).

(** A block with a shrink header may only be collected when no older block has discarded pages. *)
Definition may_collect dev (bi : yaffs_BlockInfo) : Prop :=
  isYaffs2 dev = false \/ hasShrinkHeader bi = false \/
  bi_sequenceNumber bi <= dev_sequenceNumber dev /\
  forall j bj, blockInfo dev !! j = Some bj -> dirty dev bj = true -> bi_sequenceNumber bi <= bi_sequenceNumber bj.

(** ** The oldest dirty block *)

Lemma oldest_loop_spec dev n : forall k seq,
  (k + n <= length (blockInfo dev))%nat ->
  exists s, oldest_loop n dev (blk dev k) seq = Some s /\
    forall x, x <= s <-> x <= seq /\ forall j bj, (k <= j < k + n)%nat -> blockInfo dev !! j = Some bj ->
      dirty dev bj = true -> x <= bi_sequenceNumber bj.
Proof.
  induction n as [|n IH]; intros k seq Hn; cbn [oldest_loop].
  { exists seq. split; [done|]. intros x. split; [|by intros [? _]]. intros Hx. split; [done|]. lia. }
  destruct (lookup_lt_is_Some_2 (blockInfo dev) k) as [b Hb]; [lia|].
  rewrite GetBlockInfo_blk, Hb. cbn [mbind option_bind]. rewrite blk_succ.
  change (bool_decide (blockState b = YAFFS_BLOCK_STATE_FULL) && (pagesInUse b - softDeletions b <? nChunksPerBlock dev))
    with (dirty dev b).
  destruct (IH (S k) (if dirty dev b && (bi_sequenceNumber b <? seq) then bi_sequenceNumber b else seq)) as (s & E & Hs); [lia|].
  exists s. split; [done|]. intros x. rewrite Hs. clear E Hs IH. split.
  - intros [Hx Hj]. assert (x <= seq /\ (dirty dev b = true -> x <= bi_sequenceNumber b)) as [H1 H2].
    { destruct (dirty dev b); cbn [andb] in Hx; [|done]. destruct (Z.ltb_spec (bi_sequenceNumber b) seq); split; try lia. }
    split; [done|]. intros j bj Hr Hbj Hd. destruct (decide (j = k)) as [->|]; [|by apply (Hj j); [lia|..]].
    assert (bj = b) as -> by congruence. by apply H2.
  - intros [Hx Hj]. split; [|intros j bj Hr; apply (Hj j); lia].
    destruct (dirty dev b) eqn:Hd; cbn [andb]; [|done]. specialize (Hj k b ltac:(lia) Hb Hd). by destruct (_ <? seq).
Qed.

(** The value that the first test of a search stores. *)
Definition oldest dev : Z :=
  default 0 (oldest_loop (block_count dev) dev (internalStartBlock dev) (dev_sequenceNumber dev)).

Lemma block_count_length dev : geometry dev -> block_count dev = length (blockInfo dev).
Proof. intros []. unfold block_count. lia. Qed.

Lemma blk_0 dev : blk dev 0 = internalStartBlock dev.
Proof. unfold blk. lia. Qed.

Lemma oldest_spec dev :
  geometry dev ->
  oldest_loop (block_count dev) dev (internalStartBlock dev) (dev_sequenceNumber dev) = Some (oldest dev) /\
  forall x, x <= oldest dev <-> x <= dev_sequenceNumber dev /\
    forall j bj, blockInfo dev !! j = Some bj -> dirty dev bj = true -> x <= bi_sequenceNumber bj.
Proof.
  intros Hg. destruct (oldest_loop_spec dev (block_count dev) 0 (dev_sequenceNumber dev)) as (s & E & Hs).
  { by rewrite block_count_length. }
  rewrite blk_0 in E. unfold oldest. rewrite E. split; [done|]. cbn. intros x. rewrite Hs.
  split; intros [H1 H2]; (split; [done|]); intros j bj; [intros Hj; apply (H2 j bj); [|done]|intros _; apply H2].
  rewrite block_count_length by done. pose proof (lookup_lt_Some _ _ _ Hj). lia.
Qed.

(** The number that a search compares with: the one that is left over, if there is one. *)
Definition bound dev : Z := if oldestDirtySequence dev =? 0 then oldest dev else oldestDirtySequence dev.

Definition qualified dev (bi : yaffs_BlockInfo) : bool :=
  negb (isYaffs2 dev) || negb (hasShrinkHeader bi) || (bi_sequenceNumber bi <=? bound dev).

Lemma qualified_spec dev bi : geometry dev -> oldestDirtySequence dev = 0 -> qualified dev bi = true <-> may_collect dev bi.
Proof.
  intros Hg Ho. unfold qualified, may_collect, bound. rewrite Ho, !orb_true_iff, !negb_true_iff, Z.leb_le. cbn [Z.eqb].
  rewrite (proj2 (oldest_spec dev Hg)). tauto.
Qed.

(** ** Searches *)

(** The device during a search. *)
Record scans dev d : Prop := {
  sc_quiet : quiet dev d;
  sc_seq : dev_sequenceNumber d = dev_sequenceNumber dev;
  sc_oldest : oldestDirtySequence d = oldestDirtySequence dev \/ oldestDirtySequence d = bound dev
}.

Lemma GetBlockInfo_quiet dev d b : quiet dev d -> yaffs_GetBlockInfo d b = yaffs_GetBlockInfo dev b.
Proof.
  intros [Hc Hk]. injection Hc as E1 _ _ _ _ _ _ _. injection Hk as K1 _ _ _ _ _. unfold yaffs_GetBlockInfo. by rewrite E1, K1.
Qed.

Lemma oldest_loop_quiet dev d n : quiet dev d -> forall i seq, oldest_loop n d i seq = oldest_loop n dev i seq.
Proof.
  intros Hq. pose proof (constants_chunks _ _ (proj1 Hq)) as EN. induction n as [|n IH]; intros i seq; cbn [oldest_loop]; [done|].
  rewrite (GetBlockInfo_quiet dev d i Hq), EN. destruct (yaffs_GetBlockInfo dev i); [|done]. cbn [mbind option_bind]. by rewrite IH.
Qed.

(** The test stores its number. *)
Lemma NotDisqualified_spec dev d bi :
  geometry dev -> scans dev d ->
  exists d', yaffs_BlockNotDisqualifiedFromGC d bi = Some (qualified dev bi, d') /\ scans dev d' /\
    nonAggressiveSkip d' = nonAggressiveSkip d /\
    (oldestDirtySequence d = bound dev \/ qualified dev bi = false -> oldestDirtySequence d' = bound dev).
Proof.
  intros Hg [Hq Hseq Ho]. unfold yaffs_BlockNotDisqualifiedFromGC, qualified.
  assert (isYaffs2 d = isYaffs2 dev /\ internalStartBlock d = internalStartBlock dev /\ block_count d = block_count dev) as (-> & E1 & E2).
  { destruct Hq as [Hc _]. injection Hc as C1 C2 _ _ _ _ C7 _. unfold block_count. by rewrite C1, C2, C7. }
  destruct (isYaffs2 dev); cbn [negb orb]; [|exists d; by split_and!; [..|intros [?|?]]].
  destruct (hasShrinkHeader bi); cbn [negb orb]; [|exists d; by split_and!; [..|intros [?|?]]].
  destruct (Z.eqb_spec (oldestDirtySequence d) 0) as [Ez|Ez].
  - rewrite E1, E2, Hseq, (oldest_loop_quiet dev d _ Hq), (proj1 (oldest_spec dev Hg)). cbn [mbind option_bind].
    assert (oldest dev = bound dev) as Eb.
    { unfold bound in *. destruct (Z.eqb_spec (oldestDirtySequence dev) 0); [done|]. destruct Ho; congruence. }
    rewrite Eb. eexists. split; [done|]. split; [|done]. constructor; [done..|by right].
  - cbn [mbind option_bind]. assert (oldestDirtySequence d = bound dev) as Eb.
    { destruct Ho as [Ho|Ho]; [|done]. unfold bound. rewrite <- Ho. by rewrite (proj2 (Z.eqb_neq _ _) Ez). }
    rewrite Eb. exists d. split; [done|]. split; [|done]. constructor; [done..|by right].
Qed.

Lemma blk_scans dev d i : scans dev d -> blk d i = blk dev i.
Proof. intros [[Hc _] _ _]. by apply blk_constants. Qed.

(** A block that may be collected. *)
Definition candidate dev (i : nat) (bi : yaffs_BlockInfo) : Prop :=
  blockInfo dev !! i = Some bi /\ full bi = true /\ may_collect dev bi.

(** A block that a search takes for one. *)
Definition fit dev (i : nat) (bi : yaffs_BlockInfo) : Prop :=
  blockInfo dev !! i = Some bi /\ full bi = true /\ qualified dev bi = true.

Lemma fit_candidate dev i bi : geometry dev -> oldestDirtySequence dev = 0 -> fit dev i bi <-> candidate dev i bi.
Proof. intros Hg Ho. unfold fit, candidate. by rewrite qualified_spec. Qed.

Lemma prioritised_loop_spec dev n : geometry dev -> forall d k pending,
  scans dev d -> (k + n <= length (blockInfo dev))%nat ->
  exists pending' found d', prioritised_loop n d (blk dev k) pending = Some (pending', found, d') /\ scans dev d' /\
    match found with
    | None => True
    | Some (b, c) => exists i bi, b = blk dev i /\ fit dev i bi /\ gcPrioritise bi = true
    end.
Proof.
  intros Hg. induction n as [|n IH]; intros d k pending Hs Hn; cbn [prioritised_loop].
  { by eexists _, None, d. }
  destruct (lookup_lt_is_Some_2 (blockInfo dev) k) as [b Hb]; [lia|].
  rewrite (GetBlockInfo_quiet dev d _ (sc_quiet _ _ Hs)), GetBlockInfo_blk, Hb. cbn [mbind option_bind]. rewrite blk_succ.
  destruct (gcPrioritise b) eqn:Hp; [|apply IH; [done|lia]].
  fold (full b). destruct (full b) eqn:Hf; cbn [mbind option_bind]; [|apply IH; [done|lia]].
  destruct (NotDisqualified_spec dev d b Hg Hs) as (d1 & -> & Hs1 & _). cbn [mbind option_bind].
  destruct (qualified dev b) eqn:Hq; [|apply IH; [done|lia]].
  eexists _, (Some (_, _)), d1. split; [done|]. split; [done|]. by exists k, b.
Qed.

(** When no prioritised block qualifies, the number is stored as soon as one was tested. *)
Lemma prioritised_loop_none dev n : geometry dev -> forall d k pending,
  scans dev d -> (k + n <= length (blockInfo dev))%nat ->
  (forall j bj, (k <= j < k + n)%nat -> fit dev j bj -> gcPrioritise bj = false) ->
  exists pending' d', prioritised_loop n d (blk dev k) pending = Some (pending', None, d') /\ scans dev d' /\
    nonAggressiveSkip d' = nonAggressiveSkip d /\
    (oldestDirtySequence d = bound dev \/
     (exists j bj, (k <= j < k + n)%nat /\ blockInfo dev !! j = Some bj /\ full bj = true /\ gcPrioritise bj = true) ->
     oldestDirtySequence d' = bound dev) /\
    (pending = true \/ (exists j bj, (k <= j < k + n)%nat /\ blockInfo dev !! j = Some bj /\ gcPrioritise bj = true) -> pending' = true).
Proof.
  intros Hg. induction n as [|n IH]; intros d k pending Hs Hn Hno; cbn [prioritised_loop].
  { exists pending, d. split_and!; [done..| |]; intros [?|(j & bj & ? & _)]; done || lia. }
  destruct (lookup_lt_is_Some_2 (blockInfo dev) k) as [b Hb]; [lia|].
  rewrite (GetBlockInfo_quiet dev d _ (sc_quiet _ _ Hs)), GetBlockInfo_blk, Hb. cbn [mbind option_bind]. rewrite blk_succ.
  assert (exists pend d1, scans dev d1 /\ nonAggressiveSkip d1 = nonAggressiveSkip d /\
    (oldestDirtySequence d = bound dev \/ full b = true /\ gcPrioritise b = true -> oldestDirtySequence d1 = bound dev) /\
    (pending = true \/ gcPrioritise b = true -> pend = true) /\
    (if gcPrioritise b then
       '(ok, e) ← (if bool_decide (blockState b = YAFFS_BLOCK_STATE_FULL) then yaffs_BlockNotDisqualifiedFromGC d b else Some (false, d));
       if (ok : bool) then Some (true, Some (blk dev k, pagesInUse b - softDeletions b), e) else prioritised_loop n e (blk dev (S k)) true
     else prioritised_loop n d (blk dev (S k)) pending) = prioritised_loop n d1 (blk dev (S k)) pend) as (pend & d1 & Hs1 & Hk1 & Ho1 & Hp1 & ->).
  { destruct (gcPrioritise b) eqn:Hp; [|exists pending, d; split_and!; try done; [by intros [?|[_ ?]]|by intros [?|?]]].
    fold (full b). destruct (full b) eqn:Hf; [|exists true, d; split_and!; try done; intros [?|[? _]]; done].
    destruct (NotDisqualified_spec dev d b Hg Hs) as (d1 & -> & Hs1 & Hk1 & Ho1). cbn [mbind option_bind].
    destruct (qualified dev b) eqn:Hq. { rewrite (Hno k b) in Hp; [done|lia|done]. }
    exists true, d1. split_and!; try done. intros _. apply Ho1. by right. }
  destruct (IH d1 (S k) pend Hs1 ltac:(lia)) as (pending' & d' & -> & Hs' & Hk' & Ho' & Hp'). { intros j bj Hj. apply Hno. lia. }
  exists pending', d'. split; [done|]. split; [done|]. split; [congruence|]. split.
  - intros [H|(j & bj & Hj & Hl & Hf & Hp)]; [apply Ho'; left; apply Ho1; by left|].
    destruct (decide (j = k)) as [->|]; [|apply Ho'; right; exists j, bj; split; [lia|done]].
    apply Ho'. left. apply Ho1. right. by replace b with bj by congruence.
  - intros [H|(j & bj & Hj & Hl & Hp)]; [apply Hp'; left; apply Hp1; by left|].
    destruct (decide (j = k)) as [->|]; [|apply Hp'; right; exists j, bj; split; [lia|done]].
    apply Hp'. left. apply Hp1. right. by replace b with bj by congruence.
Qed.

Lemma fit_cost dev i bi : accounts dev -> fit dev i bi -> 0 <= cost bi.
Proof.
  intros Ha (Hi & Hf & _). apply bool_decide_eq_true in Hf. pose proof (ac_blocks _ _ _ Ha i bi Hi) as Hb.
  unfold block_ok in Hb. rewrite Hf in Hb. unfold cost. lia.
Qed.

(** The test of a block in the search. *)
Lemma dirtiest_test dev d bi pages :
  geometry dev -> scans dev d ->
  exists d', (if full bi && (cost bi <? pages) then yaffs_BlockNotDisqualifiedFromGC d bi else Some (false, d)) =
    Some (full bi && (cost bi <? pages) && qualified dev bi, d') /\ scans dev d'.
Proof.
  intros Hg Hs. destruct (full bi && _); cbn [andb]; [|by exists d].
  destruct (NotDisqualified_spec dev d bi Hg Hs) as (d1 & E & Hs1 & _). by exists d1.
Qed.

(** The search goes through [n] blocks from block [j] on: [m] is the least cost it has seen. *)
Lemma dirtiest_loop_spec dev n :
  accounts dev -> forall d j b dirtiest pages,
  scans dev d -> (j < length (blockInfo dev))%nat -> next_block dev b = blk dev j ->
  exists b' dirtiest' m d', dirtiest_loop n d b dirtiest pages = Some (b', dirtiest', d') /\ scans dev d' /\
    (dirtiest' = dirtiest /\ m = pages \/ exists i bi, dirtiest' = blk dev i /\ fit dev i bi /\ cost bi = m /\ m < pages) /\
    forall r bj, (r < n)%nat -> fit dev ((j + r) mod length (blockInfo dev)) bj -> m <= cost bj.
Proof.
  intros Ha. pose proof (ac_geometry _ _ _ Ha) as Hg.
  induction n as [|n IH]; intros d j b dirtiest pages Hs Hj Hn; cbn [dirtiest_loop].
  { eexists _, _, pages, d. split; [done|]. split; [done|]. split; [by left|]. lia. }
  destruct (Z.ltb_spec 0 pages) as [Hp|Hp].
  2:{ eexists _, _, pages, d. split; [done|]. split; [done|]. split; [by left|]. 
      intros r bj _ Hc. pose proof (fit_cost _ _ _ Ha Hc). lia. }
  assert (internalStartBlock d = internalStartBlock dev /\ internalEndBlock d = internalEndBlock dev) as [-> ->].
  { destruct Hs as [[Hc _] _ _]. by injection Hc. }
  cbv zeta. fold (next_block dev b). rewrite Hn.
  destruct (lookup_lt_is_Some_2 (blockInfo dev) j Hj) as [bi Hbi].
  rewrite (GetBlockInfo_quiet dev d _ (sc_quiet _ _ Hs)), GetBlockInfo_blk, Hbi. cbn [mbind option_bind].
  fold (full bi) (cost bi).
  destruct (dirtiest_test dev d bi pages Hg Hs) as (d1 & -> & Hs1).
  cbn [mbind option_bind].
  destruct (cycle_next dev j Hg Hj) as (Hj' & Hmod & Hn').
  destruct (full bi && (cost bi <? pages) && qualified dev bi) eqn:Hfit.
  - rewrite !andb_true_iff, Z.ltb_lt in Hfit. destruct Hfit as [[Hf Hlt] Hq].
    destruct (IH d1 _ (blk dev j) (blk dev j) (cost bi) Hs1 Hj' Hn') as (b' & d2 & m & dev' & E & Hs' & Hm & Hall).
    eexists _, _, m, dev'. split; [exact E|]. split; [done|].
    assert (m <= cost bi) as Hle by (destruct Hm as [[_ ->]|(? & ? & _ & _ & _ & ?)]; lia). split.
    + right. destruct Hm as [[-> ->]|(i & b0 & E1 & E2 & E3 & E4)].
      * exists j, bi. split_and!; [done|by split_and!|done|lia].
      * exists i, b0. split_and!; [done..|lia].
    + intros [|r] bj Hr Hc.
      * rewrite Nat.add_0_r, Nat.mod_small in Hc by done. destruct Hc as [Hc _]. assert (bj = bi) as -> by congruence. lia.
      * apply (Hall r); [lia|]. by rewrite Hmod.
  - destruct (IH d1 _ (blk dev j) dirtiest pages Hs1 Hj' Hn') as (b' & d2 & m & dev' & E & Hs' & Hm & Hall).
    eexists _, _, m, dev'. split; [exact E|]. split; [done|]. split; [done|]. intros [|r] bj Hr Hc.
    + rewrite Nat.add_0_r, Nat.mod_small in Hc by done. destruct Hc as (Hc & Hf & Hmay). assert (bj = bi) as -> by congruence.
      rewrite Hf, Hmay, andb_true_r in Hfit. cbn [andb] in Hfit.
      apply Z.ltb_ge in Hfit. destruct Hm as [[_ ->]|(? & ? & _ & _ & _ & ?)]; lia.
    + apply (Hall r); [lia|]. by rewrite Hmod.
Qed.

(** The result of the choice. *)
Definition chosen_among (P : nat -> yaffs_BlockInfo -> Prop) dev (aggressive : bool) (b : Z) : Prop :=
  b = -1 /\ (aggressive = true -> forall j bj, P j bj -> nChunksPerBlock dev <= cost bj) \/
  exists i bi, b = blk dev i /\ P i bi /\
    (hasPendingPrioritisedGCs dev = true /\ gcPrioritise bi = true \/
     cost bi < (if aggressive then nChunksPerBlock dev else YAFFS_PASSIVE_GC_CHUNKS + 1) /\
     (aggressive = true -> forall j bj, P j bj -> cost bi <= cost bj)).

Definition chosen dev : bool -> Z -> Prop := chosen_among (candidate dev) dev.

Lemma scans_start dev : scans dev dev.
Proof. constructor; [done..|by left]. Qed.

Lemma gc_prioritised_spec dev :
  geometry dev ->
  exists found d, gc_prioritised dev = Some (found, d) /\ scans dev d /\
    match found with
    | None => True
    | Some (b, c) => exists i bi, b = blk dev i /\ fit dev i bi /\ hasPendingPrioritisedGCs dev = true /\ gcPrioritise bi = true
    end.
Proof.
  intros Hg. pose proof (scans_start dev) as Hs. unfold gc_prioritised.
  destruct (hasPendingPrioritisedGCs dev); [|by exists None, dev].
  destruct (prioritised_loop_spec dev (block_count dev - 1) Hg dev 0 false Hs) as (pending & found & d & E & Hs1 & Hf).
  { rewrite block_count_length by done. lia. }
  rewrite blk_0 in E. rewrite E. cbn [mbind option_bind]. eexists found, _. split; [done|]. split.
  - destruct pending; [done|]. by destruct Hs1.
  - destruct found as [[b c]|]; [|done]. destruct Hf as (i & bi & H1 & H2 & H3). by exists i, bi.
Qed.

Lemma gc_dirtiest_spec dev d aggressive :
  accounts dev -> (0 < length (blockInfo dev))%nat -> scans dev d ->
  exists b dirtiest d', gc_dirtiest d aggressive = Some (b, dirtiest, d') /\ scans dev d' /\ chosen_among (fit dev) dev aggressive dirtiest.
Proof.
  intros Ha Hl Hs. pose proof (ac_geometry _ _ _ Ha) as Hg. unfold gc_dirtiest. cbv zeta.
  assert (nChunksPerBlock d = nChunksPerBlock dev /\
          internalEndBlock d - internalStartBlock d + 1 = Z.of_nat (length (blockInfo dev))) as [-> ->].
  { destruct Hs as [[Hc _] _ _]. injection Hc as C1 C2 C3 _ _ _ _ _. destruct Hg. split; [done|lia]. }
  destruct (next_block_index dev (currentDirtyChecker d) Hg Hl) as (j & Hj & Hn).
  match goal with |- context [dirtiest_loop ?n d _ _ ?pg] =>
    destruct (dirtiest_loop_spec dev n Ha d j (currentDirtyChecker d) (-1) pg Hs Hj Hn)
      as (b & dt & m & d' & E & Hs' & Hm & Hall) end.
  exists b, dt, d'. split; [exact E|]. split; [done|].
  assert (aggressive = true -> forall i bi, fit dev i bi -> m <= cost bi) as Hmin.
  { intros -> i bi Hc. destruct (cycle_covers (length (blockInfo dev)) j i Hj) as (r & Hr & Er).
    { eapply lookup_lt_Some, Hc. }
    apply (Hall r); [lia|]. by rewrite Er. }
  destruct Hm as [[-> Em]|(i & bi & -> & Hc & Ec & Hlt)].
  - left. split; [done|]. intros ->. intros i bi Hc. rewrite <- Em. by eapply Hmin.
  - right. exists i, bi. split; [done|]. split; [done|]. right. rewrite Ec. split; [done|]. intros Hagg i' bi' Hc'. by eapply Hmin.
Qed.

(** The search, whatever number is left over. *)
Lemma FindForGc_spec dev aggressive :
  accounts dev -> (0 < length (blockInfo dev))%nat ->
  exists b dev', yaffs_FindBlockForGarbageCollection dev aggressive = Some (b, dev') /\ quiet dev dev' /\
    chosen_among (fit dev) dev aggressive b.
Proof.
  intros Ha Hl. pose proof (ac_geometry _ _ _ Ha) as Hg. unfold yaffs_FindBlockForGarbageCollection.
  destruct (gc_prioritised_spec dev Hg) as (found & d & -> & Hs & Hf). cbn [mbind option_bind]. cbv zeta.
  set (d1 := d <| nonAggressiveSkip ::= Z.pred |>). assert (scans dev d1) as Hs1 by (by destruct Hs). clearbody d1.
  destruct (_ && (0 <? nonAggressiveSkip d1)) eqn:Eskip.
  { exists (-1), d1. split; [done|]. split; [apply Hs1|]. left. split; [done|]. intros ->. by rewrite orb_true_r in Eskip. }
  assert (exists b dirtiest d2, match found with
      | Some (blk, _) => Some (currentDirtyChecker d1, blk, d1)
      | None => gc_dirtiest d1 (match found with Some _ => true | None => false end || aggressive)
      end = Some (b, dirtiest, d2) /\ scans dev d2 /\ chosen_among (fit dev) dev aggressive dirtiest) as (b & dt & d2 & E & Hs2 & Hc).
  { destruct found as [[b c]|]; [|by apply gc_dirtiest_spec]. destruct Hf as (i & bi & -> & Hc & Hp & Hg').
    eexists _, _, d1. split; [done|]. split; [done|]. right. exists i, bi. split; [done|]. split; [done|]. by left. }
  rewrite E. cbn [mbind option_bind]. eexists dt, _. split; [done|]. split; [|done]. destruct Hs2 as [Hq _ _].
  by destruct (0 <? dt).
Qed.

(** A passive search that has tested a prioritised block and returns early keeps the number. *)
Lemma FindBlock_skips dev :
  geometry dev -> oldestDirtySequence dev = 0 -> hasPendingPrioritisedGCs dev = true -> 1 < nonAggressiveSkip dev ->
  (forall k bk, (S k < length (blockInfo dev))%nat -> candidate dev k bk -> gcPrioritise bk = false) ->
  (exists k bk, (S k < length (blockInfo dev))%nat /\ blockInfo dev !! k = Some bk /\ full bk = true /\ gcPrioritise bk = true) ->
  exists dev1, yaffs_FindBlockForGarbageCollection dev false = Some (-1, dev1) /\ quiet dev dev1 /\ oldestDirtySequence dev1 = oldest dev.
Proof.
  intros Hg Ho Hp Hskip Hno (k & bk & Hk & Hl & Hf & Hpr). unfold yaffs_FindBlockForGarbageCollection, gc_prioritised. rewrite Hp.
  assert (bound dev = oldest dev) as Eb by (unfold bound; by rewrite Ho).
  destruct (prioritised_loop_none dev (block_count dev - 1) Hg dev 0 false (scans_start dev)) as (pending & d & E & [Hq _ _] & Hs & Hold & Hpend).
  { rewrite block_count_length by done. lia. }
  { intros j bj Hj Hfit. rewrite block_count_length in Hj by done. apply (Hno j); [lia|]. by apply fit_candidate. }
  rewrite blk_0 in E. rewrite E. cbn [mbind option_bind]. rewrite Hpend by (right; exists k, bk; rewrite block_count_length by done; split_and!; try done; lia).
  cbn [orb negb andb]. change (nonAggressiveSkip (d <| nonAggressiveSkip ::= Z.pred |>)) with (Z.pred (nonAggressiveSkip d)).
  rewrite Hs, (proj2 (Z.ltb_lt _ _)) by lia. eexists. split; [done|]. split; [done|].
  change (oldestDirtySequence d = oldest dev). rewrite <- Eb. apply Hold. right. exists k, bk.
  rewrite block_count_length by done. split_and!; try done; lia.
Qed.

(** A full block that the number left over lets pass, and that is cheaper than all others, is taken. *)
Lemma FindBlock_takes dev i bi :
  accounts dev -> (forall k bk, fit dev k bk -> gcPrioritise bk = false) -> fit dev i bi -> cost bi < nChunksPerBlock dev ->
  (forall k bk, fit dev k bk -> k <> i -> cost bi < cost bk) ->
  exists dev', yaffs_FindBlockForGarbageCollection dev true = Some (blk dev i, dev').
Proof.
  intros Ha Hno Hi Hc Hmin. destruct (FindForGc_spec dev true Ha) as (b & dev' & -> & _ & Hb).
  { destruct Hi as [Hi _]. apply lookup_lt_Some in Hi. lia. }
  exists dev'. destruct Hb as [[_ H]|(k & bk & -> & Hk & H)].
  - specialize (H eq_refl i bi Hi). lia.
  - destruct H as [[_ H]|[_ H]]; [by rewrite (Hno k bk Hk) in H|]. destruct (decide (k = i)) as [->|Hne]; [done|].
    specialize (Hmin k bk Hk Hne). specialize (H eq_refl i bi Hi). lia.
Qed.

Lemma chosen_fit dev aggressive b :
  geometry dev -> oldestDirtySequence dev = 0 -> chosen_among (fit dev) dev aggressive b -> chosen dev aggressive b.
Proof.
  intros Hg Ho. unfold chosen, chosen_among. intros [[-> H]|(i & bi & -> & Hf & H)].
  - left. split; [done|]. intros Hag j bj Hc. apply (H Hag j). by apply fit_candidate.
  - right. exists i, bi. split; [done|]. split; [by apply fit_candidate|]. destruct H as [H|[Hlt H]]; [by left|]. right. split; [done|].
    intros Hag j bj Hc. apply (H Hag j). by apply fit_candidate.
Qed.

(** ** Counting the free chunks *)

Lemma count_free_spec dev n : forall k x,
  (k + n = length (blockInfo dev))%nat ->
  (forall i bi, blockInfo dev !! i = Some bi ->
     blockState bi <> YAFFS_BLOCK_STATE_DIRTY /\ (blockState bi = YAFFS_BLOCK_STATE_COLLECTING -> softDeletions bi = 0)) ->
  count_free_loop n dev (blk dev k) x = Some (x + zsum (block_free (nChunksPerBlock dev) <$> drop k (blockInfo dev))).
Proof.
  induction n as [|n IH]; intros k x Hn Hst; cbn [count_free_loop].
  { rewrite drop_ge by lia. cbn. by rewrite Z.add_0_r. }
  destruct (lookup_lt_is_Some_2 (blockInfo dev) k) as [bi Hi]; [lia|].
  rewrite GetBlockInfo_blk, Hi. cbn [mbind option_bind]. rewrite blk_succ, (IH (S k)) by (done || lia). f_equal.
  rewrite (drop_S _ _ _ Hi). destruct (Hst k bi Hi) as [Hd Hc].
  change (zsum (block_free (nChunksPerBlock dev) <$> bi :: drop (S k) (blockInfo dev)))
    with (block_free (nChunksPerBlock dev) bi + zsum (block_free (nChunksPerBlock dev) <$> drop (S k) (blockInfo dev))).
  unfold block_free at 2. destruct (blockState bi); try lia; [done|rewrite Hc by done; lia].
Qed.
End Gc.
