(* ===== verification/YaffsBlocksSpec.v ===== *)
(** * The YAFFS block manager on its drivers

    The MTD drivers of YAFFS1 and YAFFS2 keep what the block manager expects of a driver
    ([QuietOps]); the theorems about the block manager, with a device on which they are
    applied. *)

From stdpp Require Import relations.
From S2P Require Import Prelude NandEcc NandEccFacts YaffsTags YaffsNand.
From S2P Require Import YaffsBlocks YaffsBlocksFacts YaffsBlocksOps YaffsBlocksAlloc YaffsBlocksGc.

Local Open Scope Z_scope.

(** ** The drivers *)

Definition same_length (x y : option (list Z)) : Prop :=
  match x, y with
  | Some a, Some b => length b = length a
  | None, None => True
  | _, _ => False
  end.

(** Reading from an MTD device fills the buffers of the caller and does not resize them. *)
Class MtdBuffers (mtd : Type) `{!MtdOps mtd} : Prop := {
  read_oob_buffers : forall m a o r o' m', read_oob m a o = (r, o', m') ->
    same_length (datbuf o) (datbuf o') /\ same_length (oobbuf o) (oobbuf o');
  mtd_read_buffer : forall m a n d r d' m', mtd_read m a n d = (r, d', m') -> length d' = length d
}.

Section Drivers.
Context {mtd : Type} `{!MtdOps mtd} `{!MtdBuffers mtd}.
Context (w : yaffs_Device mtd -> Z -> option (list Z) -> yaffs_Spare -> Z * yaffs_Device mtd).
Context (r : yaffs_Device mtd -> Z -> option (list Z) -> Z * option (list Z) * yaffs_NANDSpare * yaffs_Device mtd).
Implicit Types dev : yaffs_Device mtd.

Lemma erase_quiet dev b : quiet dev (snd (nandmtd_EraseBlockInNAND dev b)).
Proof. unfold nandmtd_EraseBlockInNAND. by destruct (mtd_erase _ _ _). Qed.

Lemma nandmtd1_read_quiet dev c d t :
  exists r d' t' dev', nandmtd1_ReadChunkWithTagsFromNAND dev c (Some d) t = Some (r, Some d', t', dev') /\
    blen d' = blen d /\ quiet dev dev'.
Proof using MtdBuffers0.
  unfold nandmtd1_ReadChunkWithTagsFromNAND. cbv zeta. destruct (read_oob _ _ _) as [[res o] m] eqn:E.
  destruct (read_oob_buffers _ _ _ _ _ _ E) as [Hd Ho]. cbn [datbuf oobbuf same_length] in Hd, Ho.
  destruct (datbuf o) as [d'|]; [|done]. destruct (oobbuf o) as [ob|]; [|done].
  change (length (le_bytes 8 0)) with 8%nat in Ho.
  assert (blen d' = blen d) as Hl by (unfold blen; by rewrite Hd). clear E Hd.
  destruct (CheckFF_total 8 ob) as [blank Hb]; [lia|].
  destruct ((res =? 0) || (res =? - EUCLEAN)).
  - destruct (if res =? 0 then _ else _) as [eccres dev1] eqn:E1. cbn [mbind option_bind]. rewrite Hb. cbn [mbind option_bind].
    assert (quiet dev dev1) as Hq1 by (destruct (res =? 0); by injection E1 as <- <-).
    destruct blank; [by eexists _, d', _, dev1|]. destruct (yaffs_CheckECCOnTags _) as [r1 v].
    destruct ((r1 =? 0) || (r1 =? 1)); [|by eexists _, d', _, _].
    destruct (r1 =? 0); by eexists _, d', _, _.
  - destruct (res =? - EBADMSG); by eexists _, d', _, _.
Qed.

#[export] Instance yaffs1_quiet t : QuietOps false (yaffs1_ops w r t).
Proof using MtdBuffers0.
  constructor.
  - apply erase_quiet.
  - eexists. split; [done|]. intros dev b. unfold nandmtd1_MarkNANDBlockBad. by destruct (block_markbad _ _).
  - eexists. split; [done|]. intros dev c d t' _ _. unfold nandmtd1_WriteChunkWithTagsToNAND.
    destruct (write_oob _ _ _) as [res m]. eexists _, _. split; [done|]. split; [|done]. destruct (truthy res); auto.
  - eexists. split; [done|]. intros dev c d t' _ _. apply nandmtd1_read_quiet.
Qed.

Lemma nandmtd2_read_quiet dev c d t :
  exists r d' t' dev', nandmtd2_ReadChunkWithTagsFromNAND dev c (Some d) (Some t) = Some (r, Some d', Some t', dev') /\
    blen d' = blen d /\ quiet dev dev'.
Proof using MtdBuffers0.
  unfold nandmtd2_ReadChunkWithTagsFromNAND. cbv zeta.
  assert (exists res d' dev', nandmtd2_fetch dev (c * totalBytesPerChunk dev) (Some d) (bool_decide (is_Some (Some t))) =
            Some (res, Some d', dev') /\ length d' = length d /\ quiet dev dev') as (res & d' & dev' & -> & Hl & Hq).
  { unfold nandmtd2_fetch. rewrite bool_decide_true by (by eexists). cbn [andb negb]. rewrite orb_false_r.
    destruct (inbandTags dev).
    - destruct (mtd_read _ _ _ _) as [[res d'] m] eqn:E. eexists _, d', _. split; [done|]. split; [by eapply mtd_read_buffer|done].
    - destruct (read_oob _ _ _) as [[res o] m] eqn:E. destruct (read_oob_buffers _ _ _ _ _ _ E) as [Hd Ho].
      cbn [datbuf oobbuf same_length] in Hd, Ho. destruct (datbuf o) as [d'|]; [|done]. destruct (oobbuf o) as [ob|]; [|done].
      by eexists _, d', _. }
  cbn [mbind option_bind]. unfold nandmtd2_unpack. assert (blen d' = blen d) by (unfold blen; by rewrite Hl).
  destruct (inbandTags dev'); cbn [mbind option_bind]; by eexists _, d', _, dev'.
Qed.

#[export] Instance yaffs2_quiet : QuietOps true (yaffs2_ops w r).
Proof using MtdBuffers0.
  constructor.
  - apply erase_quiet.
  - eexists. split; [done|]. intros dev b. unfold nandmtd2_MarkNANDBlockBad. by destruct (block_markbad _ _).
  - eexists. split; [done|]. intros dev c d t' (Hy & Hs & Hs') Hw. unfold nandmtd2_WriteChunkWithTagsToNAND.
    destruct d as [d|]; cbn [writable] in Hw; [|congruence]. cbn [mbind option_bind]. cbv zeta.
    assert (exists d', (if inbandTags dev then copy_bytes d (nDataBytesPerChunk dev)
              (ptt_bytes (yaffs_PackTags2TagsPart t')) 0 16 else Some d) = Some d') as [d' ->].
    { destruct (inbandTags dev); [|by eexists]. eexists. apply copy_Some; try lia. done. }
    cbn [mbind option_bind]. destruct (write_oob _ _ _) as [res m]. eexists _, _. split; [done|]. split; [|done].
    destruct (res =? 0); auto.
  - eexists. split; [done|]. intros dev c d t' _ _.
    destruct (nandmtd2_read_quiet dev c d t') as (res & d' & t1 & dev' & -> & H). cbn [mbind option_bind default].
    by eexists _, d', t1, dev'.
Qed.
End Drivers.

(** ** The operations *)

Section Manager.
Context {mtd : Type} (y2 : bool) (ops : nand_ops mtd) `{!QuietOps y2 ops} (tmp : list Z) (ltags : yaffs_ExtendedTags) (wr : Z).
Implicit Types dev : yaffs_Device mtd.





(** C10: yaffs_WriteNewChunkWithTagsToNAND returns after boundedly many rounds when the number of
    attempts is limited, whatever the driver answers: without a chunk, or with one that was not
    in use, is now, and to which the driver has written the data and the tags without an error
    in a call after which nothing of the device changes but the count of retries. No chunk goes
    out of use and the accounts stay good. *)
Theorem write_new_chunk dev data tags useReserve fuel :
  accounts dev -> buffered y2 tmp dev -> totalBytesPerChunk dev <= blen data -> 0 < wr ->
  rounds_left wr dev 0 < Z.of_nat fuel ->
  exists c tags' dev',
    yaffs_WriteNewChunkWithTagsToNAND ops tmp ltags wr fuel dev data tags useReserve = Some (c, tags', dev') /\
    accounts dev' /\ keeps dev dev' /\ (c = -1 \/ written ops dev data tags c tags' dev').
Proof using QuietOps0.
  intros Ha Hbuf Hd Hwr Hfuel.
  destruct (WriteNewChunk_ends y2 ops tmp ltags wr data useReserve fuel dev tags Ha Hbuf Hd Hwr Hfuel) as [[[c tags'] dev'] E].
  exists c, tags', dev'. split; [done|]. by apply (WriteNewChunk_sound y2 ops tmp ltags wr data useReserve fuel dev tags).
Qed.

(** C17: yaffs_AllocateChunk gives out a chunk that was not in use, marks it and nothing else as in
    use and takes it off the free chunks; an allocation that may use the reserve fails only when
    no block is erased and none is being filled. *)
Theorem allocate_chunk dev useReserve :
  accounts dev ->
  exists c ob dev', yaffs_AllocateChunk dev useReserve = Some (c, ob, dev') /\ accounts dev' /\
    (c = -1 /\ ob = None /\ chunkBits dev' = chunkBits dev /\ nFreeChunks dev' = nFreeChunks dev /\
       (useReserve = true -> allocationBlock dev = -1 /\ nErasedBlocks dev = 0) \/
     exists i p, c = chunk_at dev i p /\ ob = Some (blk dev i) /\ 0 <= p < nChunksPerBlock dev /\ allocates i p dev dev').
Proof using Type.
  intros Ha. destruct (AllocateChunk_spec dev useReserve Ha) as (c & ob & dev' & E & Ha' & H). exists c, ob, dev'.
  split; [done|]. split; [done|]. destruct H as [(-> & -> & [] & H)|(i & p & bi & -> & -> & Hal & ((_ & Hp & _) & _) & _)].
  - by left.
  - right. exists i, p. rewrite (constants_chunks dev dev') in Hp by apply Hal. done.
Qed.

(** C18: yaffs_DeleteChunk of a chunk in use, in a block that is being collected or has more pages
    in use than softly deleted, takes it out of use and leaves every other chunk as it is, also
    when the block has become empty and is erased or retired and the checkpoint is invalidated;
    the accounts stay good. *)
Theorem delete_chunk dev i bi p mark :
  accounts dev -> buffered y2 tmp dev -> in_block dev i bi p ->
  (blockState bi <> YAFFS_BLOCK_STATE_COLLECTING -> softDeletions bi < pagesInUse bi) ->
  exists dev', yaffs_DeleteChunk ops tmp dev (chunk_at dev i p) mark = Some dev' /\ accounts dev' /\
    forall j c, 0 <= c -> lbit (bits dev' j) c = if bool_decide (j = i /\ c = p) then false else lbit (bits dev j) c.
Proof using QuietOps0.
  intros Ha Hbuf Hin Hsd. destruct (DeleteChunk_spec y2 ops tmp dev i bi p mark Ha Hbuf Hin Hsd) as (dev' & E & Ha' & Hd).
  exists dev'. split_and!; [done..|]. apply Hd.
Qed.

(** C21: yaffs_FindBlockForGarbageCollection, when no sequence number is left over from an earlier
    search, chooses a full block whose shrink header, if it has one, is not needed any more
    because no older block has discarded pages: one that is prioritised, or one with few chunks
    to copy, and with the fewest of all such blocks when it is aggressive; it then finds one
    whenever collecting one gains something. *)
Theorem gc_choice dev aggressive :
  accounts dev -> (0 < length (blockInfo dev))%nat -> oldestDirtySequence dev = 0 ->
  exists b dev', yaffs_FindBlockForGarbageCollection dev aggressive = Some (b, dev') /\ quiet dev dev' /\
    chosen dev aggressive b.
Proof using Type.
  intros Ha Hl Ho. destruct (FindForGc_spec dev aggressive Ha Hl) as (b & dev' & E & Hq & Hc).
  exists b, dev'. split; [done|]. split; [done|]. by apply chosen_fit; [apply Ha|..].
Qed.


End Manager.

(** ** A device *)

(** An MTD device whose first [n] writes fail, and which reads as erased. *)
#[export] Instance worn_ops : MtdOps nat := {
  write_oob n a ops := match n with O => (0, O) | S n' => (-5, n') end;
  read_oob n a ops :=
    (0, mk_ops (ops_mode ops) (ops_len ops) (ops_ooblen ops) (ops_ooboffs ops)
          ((fun d => replicate (length d) 255) <$> datbuf ops) ((fun d => replicate (length d) 255) <$> oobbuf ops), n);
  mtd_read n a len d := (0, replicate (length d) 255, n);
  block_isbad n a := 0;
  block_markbad n a := (0, n);
  mtd_erase n a len := (0, n);
  oobavail n := 16
}.

#[export] Instance worn_buffers : MtdBuffers nat.
Proof.
  split.
  - intros m a o r o' m' [= <- <- <-]. cbn [datbuf oobbuf]. destruct (datbuf o), (oobbuf o); cbn; by rewrite ?length_replicate.
  - intros m a n d r d' m' [= <- <- <-]. apply length_replicate.
Qed.

Definition worn_write (d : yaffs_Device nat) (c : Z) (b : option (list Z)) (s : yaffs_Spare) : Z * yaffs_Device nat :=
  (YAFFS_FAIL, d).

Definition worn_read (d : yaffs_Device nat) (c : Z) (b : option (list Z))
  : Z * option (list Z) * yaffs_NANDSpare * yaffs_Device nat := (YAFFS_FAIL, b, mk_nspare yaffs_SpareInitialise 0 0, d).

Definition worn1_ops : nand_ops nat := yaffs1_ops worn_write worn_read yaffs_InitialiseTags.

Definition empty_block : yaffs_BlockInfo := yaffs_BlockInfo_zero <| blockState := YAFFS_BLOCK_STATE_EMPTY |>.

(** A device of YAFFS1 with three erased blocks of four chunks of eight bytes. *)
Definition small_dev (n : nat) : yaffs_Device nat :=
  (zero_device n) <| nDataBytesPerChunk := 8 |> <| totalBytesPerChunk := 8 |> <| nChunksPerBlock := 4 |>
    <| internalStartBlock := 1 |> <| internalEndBlock := 3 |> <| blockInfo := [empty_block; empty_block; empty_block] |>
    <| chunkBits := [0; 0; 0] |> <| chunkBitmapStride := 1 |> <| nErasedBlocks := 3 |> <| nFreeChunks := 12 |>
    <| allocationBlock := -1 |>.

Lemma small_accounts n : accounts (small_dev n).
Proof.
  constructor; [|intros [|[|[|i]]] bi [= <-]; done|done|done|by left].
  constructor; [done..|]. by repeat apply Forall_cons_2.
Qed.

Definition small_data : list Z := [1; 2; 3; 4; 5; 6; 7; 8].

Lemma small_buffered n : buffered false small_data (small_dev n).
Proof. repeat split; done. Qed.

(** The same with a full block of which one chunk is in use. *)
Definition used_block1 : yaffs_BlockInfo := empty_block <| blockState := YAFFS_BLOCK_STATE_FULL |> <| pagesInUse := 1 |>.

Definition used_dev : yaffs_Device nat :=
  (small_dev 0) <| blockInfo := [used_block1; empty_block; empty_block] |> <| chunkBits := [1; 0; 0] |>
    <| nErasedBlocks := 2 |> <| nFreeChunks := 11 |>.

Lemma used_accounts : accounts used_dev.
Proof.
  constructor; [|intros [|[|[|i]]] bi [= <-]; done|done|done|by left].
  constructor; [done..|]. by repeat apply Forall_cons_2.
Qed.

Lemma used_buffered : buffered false small_data used_dev.
Proof. repeat split; done. Qed.

Lemma used_in_block : in_block used_dev 0 used_block1 0.
Proof. repeat split; done. Qed.



Lemma write_new_chunk_witness :
  exists tags' dev',
    yaffs_WriteNewChunkWithTagsToNAND worn1_ops small_data yaffs_InitialiseTags 3 60 (small_dev 1) small_data
      yaffs_InitialiseTags false = Some (8, tags', dev') /\
    accounts dev' /\ keeps (small_dev 1) dev' /\ written worn1_ops (small_dev 1) small_data yaffs_InitialiseTags 8 tags' dev'.
Proof.
  destruct (write_new_chunk false worn1_ops (QuietOps0 := yaffs1_quiet _ _ _) small_data yaffs_InitialiseTags 3
    (small_dev 1) small_data yaffs_InitialiseTags false 60 (small_accounts 1) (small_buffered 1))
    as (c & tags' & dev' & E & Ha & Hk & H); [done..|].
  assert (c = 8) as ->.
  { assert (fst <$> (fst <$> yaffs_WriteNewChunkWithTagsToNAND worn1_ops small_data yaffs_InitialiseTags 3 60 (small_dev 1)
      small_data yaffs_InitialiseTags false) = Some 8) as E8 by (vm_compute; reflexivity).
    rewrite E in E8. by injection E8. }
  exists tags', dev'. destruct H as [H|H]; [done|]. split; [exact E|]. split; [exact Ha|]. split; [exact Hk|exact H].
Defined.

Lemma allocate_chunk_witness :
  exists dev', yaffs_AllocateChunk (small_dev 0) true = Some (4, Some 1, dev') /\ accounts dev' /\ allocates 0 0 (small_dev 0) dev'.
Proof.
  destruct (allocate_chunk (small_dev 0) true (small_accounts 0)) as (c & ob & dev' & E & Ha & H).
  assert (c = 4 /\ ob = Some 1) as [-> ->].
  { assert (fst <$> yaffs_AllocateChunk (small_dev 0) true = Some (4, Some 1)) as E4 by (vm_compute; reflexivity).
    rewrite E in E4. by injection E4. }
  exists dev'. split; [exact E|]. split; [exact Ha|].
  destruct H as [(H & _)|(i & p & E1 & E2 & Hp & Hal)]; [done|].
  assert (i = 0%nat) as -> by (injection E2 as E2; unfold blk in E2; cbn in E2; lia).
  assert (p = 0) as -> by (unfold chunk_at, blk in E1; cbn in E1; lia). exact Hal.
Defined.

Lemma delete_chunk_witness :
  exists dev', yaffs_DeleteChunk worn1_ops small_data used_dev 4 true = Some dev' /\ accounts dev' /\
    forall j c, 0 <= c -> lbit (bits dev' j) c = if bool_decide (j = 0%nat /\ c = 0) then false else lbit (bits used_dev j) c.
Proof.
  exact (delete_chunk false worn1_ops (QuietOps0 := yaffs1_quiet _ _ _) small_data used_dev 0 used_block1 0 true
    used_accounts used_buffered used_in_block ltac:(done)).
Defined.

Lemma gc_choice_witness :
  exists dev', yaffs_FindBlockForGarbageCollection used_dev true = Some (1, dev') /\ quiet used_dev dev' /\ chosen used_dev true 1.
Proof.
  destruct (gc_choice used_dev true used_accounts) as (b & dev' & E & Hq & Hc); [cbn; lia|done|].
  assert (b = 1) as ->.
  { assert (fst <$> yaffs_FindBlockForGarbageCollection used_dev true = Some 1) as E1 by (vm_compute; reflexivity).
    rewrite E in E1. by injection E1. }
  exists dev'. split; [exact E|]. split; [exact Hq|exact Hc].
Defined.

(** ** A sequence number that is left over *)







