(* ===== verification/YaffsTnodes.v ===== *)
(** * The tnodes of YAFFS

    The part of fs/yaffs2/yaffs_guts.c that keeps, for each file, the tree that maps the
    chunks of the file to chunks of the device: the pool of tnodes, the packed
    entries of a level 0 tnode, searching, growing, pruning and deleting a tree, and
    putting a chunk into a file; with the geometry that mounting a device computes.

    A tnode is a union of eight pointers and of the packed entries: it is the list of
    its 32-bit words, found by its address in [tnodes].  [None] is an access through a
    pointer that is not the address of a tnode, or outside the tnode. *)

From S2P Require Import Prelude NandEcc YaffsTags YaffsNand YaffsBlocks.
From stdpp Require Export gmap.

Local Open Scope Z_scope.

Definition YAFFS_TNODES_LEVEL0_BITS : Z := 4.
Definition YAFFS_TNODES_LEVEL0_MASK : Z := 0xf.
Definition YAFFS_NTNODES_INTERNAL : Z := YAFFS_NTNODES_LEVEL0 / 2.
Definition YAFFS_TNODES_INTERNAL_BITS : Z := YAFFS_TNODES_LEVEL0_BITS - 1.
Definition YAFFS_TNODES_INTERNAL_MASK : Z := 0x7.
Definition YAFFS_TNODES_MAX_LEVEL : Z := 6.
Definition YAFFS_MAX_CHUNK_ID : Z := 0x000FFFFF.
Definition YAFFS_ALLOCATION_NTNODES : Z := 100.

(** ** Geometry *)

(** The loop of [ShiftsGE]; [x] has 32 bits, so that 32 rounds are enough. *)
Fixpoint shifts_ge_loop (n : nat) (x extraBits nShifts : Z) : option (Z * Z) :=
  if 1 <? x then
    match n with
    | O => None
    | S n' => shifts_ge_loop n' (Z.shiftr x 1) (if tst x 1 then extraBits + 1 else extraBits) (nShifts + 1)
    end
  else Some (extraBits, nShifts).

Definition ShiftsGE (x : Z) : option Z :=
  '(extraBits, nShifts) ← shifts_ge_loop 32 x 0 0;
  Some (if truthy extraBits then nShifts + 1 else nShifts).

Fixpoint shifts_loop (n : nat) (x nShifts : Z) : option Z :=
  if tst x 1 then Some nShifts
  else
    match n with
    | O => None
    | S n' => shifts_loop n' (Z.shiftr x 1) (nShifts + 1)
    end.

Definition Shifts (x : Z) : option Z :=
  if x =? 0 then Some 0 else shifts_loop 32 x 0.

(** A tnode, and the file structure at its root. *)
Record yaffs_FileStructure := mk_fs {
  fileSize : Z;
  scannedFileSize : Z;
  shrinkSize : Z;
  topLevel : Z;
  top : Z
}.

#[export] Instance fs_fields : Fields yaffs_FileStructure := fun r =>
  mk_fs (fileSize r) (scannedFileSize r) (shrinkSize r) (topLevel r) (top r).

Inductive yaffs_ObjectType :=
| YAFFS_OBJECT_TYPE_UNKNOWN | YAFFS_OBJECT_TYPE_FILE | YAFFS_OBJECT_TYPE_SYMLINK
| YAFFS_OBJECT_TYPE_DIRECTORY | YAFFS_OBJECT_TYPE_HARDLINK | YAFFS_OBJECT_TYPE_SPECIAL.

#[export] Instance ObjectType_eq_dec : EqDecision yaffs_ObjectType.
Proof. solve_decision. Defined.

(** The fields of [yaffs_Object] that are used here.  Of the union [variant] a file uses the tree, a hard link
    the equivalent object, and a directory the list of its children; a list that is linked through the
    objects is the list of their addresses, and NULL is the address 0. *)
Record yaffs_Object := mk_obj {
  deleted : bool;
  softDeleted : bool;
  unlinked : bool;
  fake : bool;
  renameAllowed : bool;
  unlinkAllowed : bool;
  lazyLoaded : bool;
  deferedFree : bool;
  serial : Z;
  hardLinks : list Z;
  parent : Z;
  hdrChunk : Z;
  nDataChunks : Z;
  obj_objectId : Z;
  yst_mode : Z;
  myInode : Z;
  variantType : yaffs_ObjectType;
  fileVariant : yaffs_FileStructure;
  children : list Z;
  equivalentObject : Z;
  equivalentObjectId : Z
}.

#[export] Instance obj_fields : Fields yaffs_Object := fun r =>
  mk_obj (deleted r) (softDeleted r) (unlinked r) (fake r) (renameAllowed r) (unlinkAllowed r) (lazyLoaded r)
    (deferedFree r) (serial r) (hardLinks r) (parent r) (hdrChunk r) (nDataChunks r) (obj_objectId r) (yst_mode r)
    (myInode r) (variantType r) (fileVariant r) (children r) (equivalentObject r) (equivalentObjectId r).

(** An object whose memory is cleared. *)
Definition zero_object : yaffs_Object :=
  mk_obj false false false false false false false false 0 [] 0 0 0 0 0 0 YAFFS_OBJECT_TYPE_UNKNOWN (mk_fs 0 0 0 0 0) [] 0 0.

(** The tnodes in memory by their address; the blocks that [YMALLOC] has given, with
    their sizes, and the number of its calls; and the two fields of the device that point to
    tnodes.  A cell of the list of allocated tnodes is its own address and the address of
    its tnodes. *)
Record tnode_memory := mk_tm {
  tnodes : gmap Z (list Z);
  blocks : gmap Z Z;
  mallocs : Z;
  freeTnodes : Z;
  allocatedTnodeList : list (Z * Z)
}.

#[export] Instance tm_fields : Fields tnode_memory := fun r =>
  mk_tm (tnodes r) (blocks r) (mallocs r) (freeTnodes r) (allocatedTnodeList r).

(** A word of the tnode [tn], and an assignment to it. *)
Definition get_word (m : tnode_memory) (tn i : Z) : option Z :=
  ws ← tnodes m !! tn;
  get ws i.

Definition set_word (m : tnode_memory) (tn i v : Z) : option tnode_memory :=
  ws ← tnodes m !! tn;
  ws ← set ws i v;
  Some (m <| tnodes ::= <[tn := ws]> |>).

Section Device.
Context {mtd : Type}.
Implicit Types dev : yaffs_Device mtd.

(** The [long long] address [addr]; the chunk is an [int], the offset a [__u32]. *)
Definition yaffs_AddrToChunk dev (addr : Z) : Z * Z :=
  let chunk := s32 (u32 (Z.shiftr addr (chunkShift dev))) in
  if chunkDiv dev =? 1 then (chunk, u32 (Z.land addr (chunkMask dev)))
  else
    let chunk := s32 (Z.div (u32 chunk) (chunkDiv dev)) in
    let chunkBase := chunk * nDataBytesPerChunk dev in
    (chunk, u32 (addr - chunkBase)).

(** The numbers that [yaffs_GutsInitialise] computes from the size of a chunk. *)
Definition chunk_geometry dev : option (yaffs_Device mtd) :=
  let x := nDataBytesPerChunk dev in
  s ← Shifts x;
  let dev := dev <| chunkShift := s |> in
  let x := Z.shiftr x s in
  let dev := dev <| chunkDiv := x |> in
  Some (dev <| chunkMask := Z.shiftl 1 (chunkShift dev) - 1 |>).

(** The width of the entries of a level 0 tnode; [false] when a group of chunks is larger than a block.
    Shifting 1 by the width of an int is undefined. *)
Definition tnode_geometry dev (wideTnodesDisabled : bool) : option (bool * yaffs_Device mtd) :=
  let x := u32 (nChunksPerBlock dev * (internalEndBlock dev + 1)) in
  bits ← ShiftsGE x;
  let '(bits, dev) :=
    if negb wideTnodesDisabled then
      let bits := if tst bits 1 then bits + 1 else bits in
      (bits, dev <| tnodeWidth := if bits <? 16 then 16 else bits |>)
    else (bits, dev <| tnodeWidth := 16 |>) in
  if 32 <=? tnodeWidth dev then None
  else
    let dev := dev <| tnodeMask := u32 (Z.shiftl 1 (tnodeWidth dev) - 1) |> in
    let dev := dev <| chunkGroupBits := if bits <=? tnodeWidth dev then 0 else bits - tnodeWidth dev |> in
    let dev := dev <| chunkGroupSize := u16 (Z.shiftl 1 (chunkGroupBits dev)) |> in
    Some (negb (nChunksPerBlock dev <? chunkGroupSize dev), dev).

(** ** The packed entries of a level 0 tnode *)

(** [map[i] = f(map[i])]. *)
Definition change_word (ws : list Z) (i : Z) (f : Z -> Z) : option (list Z) :=
  w ← get ws i;
  set ws i (f w).

Definition put_entry dev (map : list Z) (pos val : Z) : option (list Z) :=
  let pos := Z.land pos YAFFS_TNODES_LEVEL0_MASK in
  let val := Z.shiftr val (chunkGroupBits dev) in
  let bitInMap := u32 (pos * tnodeWidth dev) in
  let wordInMap := bitInMap / 32 in
  let bitInWord := Z.land bitInMap (32 - 1) in
  let mask := u32 (Z.shiftl (tnodeMask dev) bitInWord) in
  map ← change_word map wordInMap (fun w => Z.land w (not_w 32 mask));
  map ← change_word map wordInMap (fun w => Z.lor w (Z.land mask (u32 (Z.shiftl val bitInWord))));
  if 32 - bitInWord <? tnodeWidth dev then
    let bitInWord := 32 - bitInWord in
    let wordInMap := wordInMap + 1 in
    let mask := Z.shiftr (tnodeMask dev) bitInWord in
    map ← change_word map wordInMap (fun w => Z.land w (not_w 32 mask));
    change_word map wordInMap (fun w => Z.lor w (Z.land mask (Z.shiftr val bitInWord)))
  else Some map.

Definition get_entry dev (map : list Z) (pos : Z) : option Z :=
  let pos := Z.land pos YAFFS_TNODES_LEVEL0_MASK in
  let bitInMap := u32 (pos * tnodeWidth dev) in
  let wordInMap := bitInMap / 32 in
  let bitInWord := Z.land bitInMap (32 - 1) in
  w ← get map wordInMap;
  let val := Z.shiftr w bitInWord in
  val ← (if 32 - bitInWord <? tnodeWidth dev then
           let bitInWord := 32 - bitInWord in
           let wordInMap := wordInMap + 1 in
           w ← get map wordInMap;
           Some (Z.lor val (u32 (Z.shiftl w bitInWord)))
         else Some val);
  let val := Z.land val (tnodeMask dev) in
  Some (u32 (Z.shiftl val (chunkGroupBits dev))).

(** [pos] and [val] are converted to unsigned by the call. *)
Definition yaffs_PutLevel0Tnode dev (m : tnode_memory) (tn pos val : Z) : option tnode_memory :=
  map ← tnodes m !! tn;
  map ← put_entry dev map (u32 pos) (u32 val);
  Some (m <| tnodes ::= <[tn := map]> |>).

Definition yaffs_GetChunkGroupBase dev (m : tnode_memory) (tn pos : Z) : option Z :=
  map ← tnodes m !! tn;
  get_entry dev map (u32 pos).

End Device.

(** ** The pool of tnodes *)

Section Tnodes.
Context {mtd : Type} (ops : nand_ops mtd).

(** The contents of local variables that are not initialised, and of a buffer. *)
Context (tempBuffer : list Z) (localTags : yaffs_ExtendedTags).

(** The address that kmalloc returns, or 0, and the contents of the words of the memory. *)
Context (YMALLOC : tnode_memory -> Z -> Z) (uninitialised : Z -> Z).

Implicit Types dev : yaffs_Device mtd.

Definition tnode_size dev : Z :=
  let tnodeSize := tnodeWidth dev * YAFFS_NTNODES_LEVEL0 / 8 in
  if tnodeSize <? sizeof_yaffs_Tnode then sizeof_yaffs_Tnode else tnodeSize.

Definition words_of (n : Z) (f : nat -> Z) : list Z := f <$> seq 0 (Z.to_nat (n / 4)).

(** A call of kmalloc; the memory it gives is used as [n] tnodes of [size] bytes. *)
Fixpoint fresh_tnodes (n : nat) (a size : Z) (t : gmap Z (list Z)) : gmap Z (list Z) :=
  match n with
  | O => t
  | S n' =>
      <[a := words_of size (fun i => u32 (uninitialised (a + 4 * Z.of_nat i)))]> (fresh_tnodes n' (a + size) size t)
  end.

Definition malloc_block (m : tnode_memory) (n : nat) (size : Z) : Z * tnode_memory :=
  let p := YMALLOC m (Z.of_nat n * size) in
  let m := m <| mallocs ::= Z.succ |> in
  (p, if truthy p then m <| blocks ::= <[p := Z.of_nat n * size]> |> else m).

(** kfree: the tnodes in the block are gone. *)
Definition YFREE (m : tnode_memory) (p : Z) : option tnode_memory :=
  n ← blocks m !! p;
  Some (m <| blocks ::= delete p |>
          <| tnodes ::= filter (fun '(a, _) => ~ (p <= a < p + n)) |>).

(** [for (i = 0; i < nTnodes - 1; i++)], with [n] rounds left. *)
Fixpoint hook_loop (n : nat) (m : tnode_memory) (mem tnodeSize i : Z) : option tnode_memory :=
  match n with
  | O => Some m
  | S n' =>
      let curr := mem + i * tnodeSize in
      let next := mem + (i + 1) * tnodeSize in
      m ← set_word m curr 0 next;
      hook_loop n' m mem tnodeSize (i + 1)
  end.

Definition sizeof_yaffs_TnodeList : Z := 8.

Definition yaffs_CreateTnodes dev (m : tnode_memory) (nTnodes : Z) : option (Z * yaffs_Device mtd * tnode_memory) :=
  if nTnodes <? 1 then Some (YAFFS_OK, dev, m)
  else
    let tnodeSize := tnode_size dev in
    let '(newTnodes, m) := malloc_block m (Z.to_nat nTnodes) tnodeSize in
    if newTnodes =? 0 then Some (YAFFS_FAIL, dev, m)
    else
      let m := m <| tnodes ::= fresh_tnodes (Z.to_nat nTnodes) newTnodes tnodeSize |> in
      m ← hook_loop (Z.to_nat (nTnodes - 1)) m newTnodes tnodeSize 0;
      m ← set_word m (newTnodes + (nTnodes - 1) * tnodeSize) 0 (freeTnodes m);
      let m := m <| freeTnodes := newTnodes |> in
      let dev := dev <| nFreeTnodes ::= Z.add nTnodes |> <| nTnodesCreated ::= Z.add nTnodes |> in
      let '(tnl, m) := malloc_block m 1 sizeof_yaffs_TnodeList in
      if tnl =? 0 then Some (YAFFS_FAIL, dev, m)
      else Some (YAFFS_OK, dev, m <| allocatedTnodeList ::= cons (tnl, newTnodes) |>).

(** If there are none left make more. *)
Definition refill_tnodes dev (m : tnode_memory) : option (yaffs_Device mtd * tnode_memory) :=
  if freeTnodes m =? 0 then
    '(_, dev, m) ← yaffs_CreateTnodes dev m YAFFS_ALLOCATION_NTNODES;
    Some (dev, m)
  else Some (dev, m).

Definition yaffs_GetTnodeRaw dev (m : tnode_memory) : option (Z * yaffs_Device mtd * tnode_memory) :=
  '(dev, m) ← refill_tnodes dev m;
  '(tn, dev, m) ← (if truthy (freeTnodes m) then
                     next ← get_word m (freeTnodes m) 0;
                     Some (freeTnodes m, dev <| nFreeTnodes ::= Z.pred |>, m <| freeTnodes := next |>)
                   else Some (0, dev, m));
  Some (tn, dev <| nCheckpointBlocksRequired := 0 |>, m).

Definition yaffs_GetTnode dev (m : tnode_memory) : option (Z * yaffs_Device mtd * tnode_memory) :=
  '(tn, dev, m) ← yaffs_GetTnodeRaw dev m;
  if truthy tn then
    ws ← tnodes m !! tn;
    ws ← copy_bytes ws 0 (words_of (tnode_size dev) (fun _ => 0)) 0 (tnode_size dev / 4);
    Some (tn, dev, m <| tnodes ::= <[tn := ws]> |>)
  else Some (tn, dev, m).

Definition yaffs_FreeTnode dev (m : tnode_memory) (tn : Z) : option (yaffs_Device mtd * tnode_memory) :=
  '(dev, m) ← (if truthy tn then
                 m ← set_word m tn 0 (freeTnodes m);
                 Some (dev <| nFreeTnodes ::= Z.succ |>, m <| freeTnodes := tn |>)
               else Some (dev, m));
  Some (dev <| nCheckpointBlocksRequired := 0 |>, m).

(** The loop over the cells, whose list is [l]. *)
Fixpoint deinit_loop (l : list (Z * Z)) (m : tnode_memory) : option tnode_memory :=
  match l with
  | [] => Some m
  | (cell, p) :: tmp =>
      m ← YFREE m p;
      m ← YFREE m cell;
      deinit_loop tmp (m <| allocatedTnodeList := tmp |>)
  end.

Definition yaffs_DeinitialiseTnodes dev (m : tnode_memory) : option (yaffs_Device mtd * tnode_memory) :=
  m ← deinit_loop (allocatedTnodeList m) m;
  Some (dev <| nFreeTnodes := 0 |>, m <| freeTnodes := 0 |>).

Definition yaffs_InitialiseTnodes dev (m : tnode_memory) : yaffs_Device mtd * tnode_memory :=
  (dev <| nFreeTnodes := 0 |> <| nTnodesCreated := 0 |>,
   m <| allocatedTnodeList := [] |> <| freeTnodes := 0 |>).

(** ** The tree *)

(** The loop that counts the levels a chunk needs; [x] has 28 bits. *)
Fixpoint tallness_loop (n : nat) (x tall : Z) : option Z :=
  if truthy x then
    match n with
    | O => None
    | S n' => tallness_loop n' (Z.shiftr x YAFFS_TNODES_INTERNAL_BITS) (tall + 1)
    end
  else Some tall.

Definition required_tallness (chunkId : Z) : option Z :=
  tallness_loop 10 (Z.shiftr chunkId YAFFS_TNODES_LEVEL0_BITS) 0.

(** The index of the branch at a level above 0. *)
Definition branch (chunkId : Z) (level : nat) : Z :=
  Z.land (Z.shiftr chunkId (YAFFS_TNODES_LEVEL0_BITS + (Z.of_nat level - 1) * YAFFS_TNODES_INTERNAL_BITS))
    YAFFS_TNODES_INTERNAL_MASK.

Fixpoint find_loop (level : nat) (m : tnode_memory) (tn chunkId : Z) : option Z :=
  match level with
  | O => Some tn
  | S level' =>
      if tn =? 0 then Some tn
      else
        tn ← get_word m tn (branch chunkId level);
        find_loop level' m tn chunkId
  end.

Definition sane_level (fStruct : yaffs_FileStructure) (chunkId : Z) : bool :=
  negb ((topLevel fStruct <? 0) || (YAFFS_TNODES_MAX_LEVEL <? topLevel fStruct)) &&
  negb (YAFFS_MAX_CHUNK_ID <? chunkId).

Definition yaffs_FindLevel0Tnode (m : tnode_memory) (fStruct : yaffs_FileStructure) (chunkId : Z) : option Z :=
  if negb (sane_level fStruct chunkId) then Some 0
  else
    requiredTallness ← required_tallness chunkId;
    if topLevel fStruct <? requiredTallness then Some 0
    else find_loop (Z.to_nat (topLevel fStruct)) m (top fStruct) chunkId.

(** [for (i = topLevel; i < requiredTallness; i++)], with [n] rounds left. *)
Fixpoint grow_loop (n : nat) dev (m : tnode_memory) (fStruct : yaffs_FileStructure)
  : option (yaffs_Device mtd * tnode_memory * yaffs_FileStructure) :=
  match n with
  | O => Some (dev, m, fStruct)
  | S n' =>
      '(tn, dev, m) ← yaffs_GetTnode dev m;
      if truthy tn then
        m ← set_word m tn 0 (top fStruct);
        grow_loop n' dev m (fStruct <| top := tn |>)
      else grow_loop n' dev m fStruct
  end.

Definition grow_tree dev (m : tnode_memory) (fStruct : yaffs_FileStructure) (requiredTallness : Z)
  : option (yaffs_Device mtd * tnode_memory * yaffs_FileStructure) :=
  if topLevel fStruct <? requiredTallness then
    '(dev, m, fStruct) ← grow_loop (Z.to_nat (requiredTallness - topLevel fStruct)) dev m fStruct;
    Some (dev, m, fStruct <| topLevel := requiredTallness |>)
  else Some (dev, m, fStruct).

(** [tn->internal[x] = yaffs_GetTnode(dev)]. *)
Definition add_branch dev (m : tnode_memory) (tn x : Z) : option (yaffs_Device mtd * tnode_memory) :=
  '(new, dev, m) ← yaffs_GetTnode dev m;
  m ← set_word m tn x new;
  Some (dev, m).

(** The branch [x] of [tn] at a level above 0 is made to exist. *)
Definition fill_branch (level : nat) dev (m : tnode_memory) (tn x passedTn : Z)
  : option (yaffs_Device mtd * tnode_memory) :=
  child ← get_word m tn x;
  if (1 <? Z.of_nat level) && (child =? 0) then add_branch dev m tn x
  else if Z.of_nat level =? 1 then
    if truthy passedTn then
      '(dev, m) ← (if truthy child then yaffs_FreeTnode dev m child else Some (dev, m));
      m ← set_word m tn x passedTn;
      Some (dev, m)
    else if child =? 0 then add_branch dev m tn x
    else Some (dev, m)
  else Some (dev, m).

Fixpoint add_loop (level : nat) dev (m : tnode_memory) (tn chunkId passedTn : Z)
  : option (Z * yaffs_Device mtd * tnode_memory) :=
  match level with
  | O => Some (tn, dev, m)
  | S level' =>
      if tn =? 0 then Some (tn, dev, m)
      else
        let x := branch chunkId level in
        '(dev, m) ← fill_branch level dev m tn x passedTn;
        tn ← get_word m tn x;
        add_loop level' dev m tn chunkId passedTn
  end.

(** [memcpy] of a whole level 0 tnode. *)
Definition copy_tnode dev (m : tnode_memory) (dst src : Z) : option tnode_memory :=
  d ← tnodes m !! dst;
  s ← tnodes m !! src;
  d ← copy_bytes d 0 s 0 (tnodeWidth dev * YAFFS_NTNODES_LEVEL0 / 8 / 4);
  Some (m <| tnodes ::= <[dst := d]> |>).

Definition yaffs_AddOrFindLevel0Tnode dev (m : tnode_memory) (fStruct : yaffs_FileStructure) (chunkId passedTn : Z)
  : option (Z * yaffs_Device mtd * tnode_memory * yaffs_FileStructure) :=
  if negb (sane_level fStruct chunkId) then Some (0, dev, m, fStruct)
  else
    requiredTallness ← required_tallness chunkId;
    '(dev, m, fStruct) ← grow_tree dev m fStruct requiredTallness;
    if 0 <? topLevel fStruct then
      '(tn, dev, m) ← add_loop (Z.to_nat (topLevel fStruct)) dev m (top fStruct) chunkId passedTn;
      Some (tn, dev, m, fStruct)
    else
      let tn := top fStruct in
      '(dev, m) ← (if truthy passedTn then
                     m ← copy_tnode dev m tn passedTn;
                     yaffs_FreeTnode dev m passedTn
                   else Some (dev, m));
      Some (tn, dev, m, fStruct).

(** ** Finding a chunk *)

Definition yaffs_TagsMatch (tags : yaffs_ExtendedTags) (objectId0 chunkInObject : Z) : bool :=
  (chunkId tags =? u32 chunkInObject) && (objectId tags =? u32 objectId0) && negb (truthy (chunkDeleted tags)).

(** One chunk of the group: whether it is the one. *)
Definition find_group_step dev (theChunk : Z) (tags : yaffs_ExtendedTags) (objectId0 chunkInInode : Z)
  : option (bool * yaffs_ExtendedTags * yaffs_Device mtd) :=
  used ← yaffs_CheckChunkBit dev (Z.quot theChunk (nChunksPerBlock dev)) (Z.rem theChunk (nChunksPerBlock dev));
  if (used : bool) then
    if chunkGroupSize dev =? 1 then Some (true, tags, dev)
    else
      '(_, _, tags, dev) ← yaffs_ReadChunkWithTagsFromNAND ops dev theChunk None (Some tags);
      Some (yaffs_TagsMatch tags objectId0 chunkInInode, tags, dev)
  else Some (false, tags, dev).

(** [for (j = 0; theChunk && j < chunkGroupSize; j++)], with [n] rounds left. *)
Fixpoint find_group_loop (n : nat) dev (theChunk : Z) (tags : yaffs_ExtendedTags) (objectId0 chunkInInode : Z)
  : option (Z * yaffs_ExtendedTags * yaffs_Device mtd) :=
  match n with
  | O => Some (-1, tags, dev)
  | S n' =>
      if theChunk =? 0 then Some (-1, tags, dev)
      else
        '(found, tags, dev) ← find_group_step dev theChunk tags objectId0 chunkInInode;
        if (found : bool) then Some (theChunk, tags, dev)
        else find_group_loop n' dev (theChunk + 1) tags objectId0 chunkInInode
  end.

Definition yaffs_FindChunkInGroup dev (theChunk : Z) (tags : yaffs_ExtendedTags) (objectId0 chunkInInode : Z)
  : option (Z * yaffs_ExtendedTags * yaffs_Device mtd) :=
  find_group_loop (Z.to_nat (chunkGroupSize dev)) dev theChunk tags objectId0 chunkInInode.

(** [theChunk] is an int. *)
Definition level0_chunk dev (m : tnode_memory) (tn pos : Z) : option Z :=
  v ← yaffs_GetChunkGroupBase dev m tn pos;
  Some (s32 v).

(** [tags] is a pointer; when it is NULL the code uses a local variable. *)
Definition yaffs_FindChunkInFile dev (m : tnode_memory) (obj : yaffs_Object) (chunkInInode : Z)
    (tags : option yaffs_ExtendedTags) : option (Z * yaffs_ExtendedTags * yaffs_Device mtd) :=
  let tags := default localTags tags in
  tn ← yaffs_FindLevel0Tnode m (fileVariant obj) (u32 chunkInInode);
  if truthy tn then
    theChunk ← level0_chunk dev m tn chunkInInode;
    yaffs_FindChunkInGroup dev theChunk tags (obj_objectId obj) chunkInInode
  else Some (-1, tags, dev).

Definition yaffs_FindAndDeleteChunkInFile dev (m : tnode_memory) (obj : yaffs_Object) (chunkInInode : Z)
    (tags : option yaffs_ExtendedTags) : option (Z * yaffs_ExtendedTags * yaffs_Device mtd * tnode_memory) :=
  let tags := default localTags tags in
  tn ← yaffs_FindLevel0Tnode m (fileVariant obj) (u32 chunkInInode);
  if truthy tn then
    theChunk ← level0_chunk dev m tn chunkInInode;
    '(retVal, tags, dev) ← yaffs_FindChunkInGroup dev theChunk tags (obj_objectId obj) chunkInInode;
    if negb (retVal =? -1) then
      m ← yaffs_PutLevel0Tnode dev m tn chunkInInode 0;
      Some (retVal, tags, dev, m)
    else Some (retVal, tags, dev, m)
  else Some (-1, tags, dev, m).

(** ** Putting a chunk into a file *)

(** During a scan the file has a chunk already: the new value of [existingChunk], whether the new chunk
    is dropped, and the device. *)
Definition resolve_duplicate dev (m : tnode_memory) (obj : yaffs_Object) (chunkInInode chunkInNAND inScan existingChunk : Z)
  : option (Z * bool * yaffs_Device mtd) :=
  '(existingChunk, newTags, existingTags, dev) ←
    (if 0 <? inScan then
       '(_, _, newTags, dev) ← yaffs_ReadChunkWithTagsFromNAND ops dev chunkInNAND None (Some localTags);
       '(existingChunk, existingTags, dev) ← yaffs_FindChunkInFile dev m obj chunkInInode (Some localTags);
       Some (existingChunk, newTags, existingTags, dev)
     else Some (existingChunk, localTags, localTags, dev));
  let newSerial := serialNumber newTags in
  let existingSerial := serialNumber existingTags in
  if (0 <? inScan) && (isYaffs2 dev || (existingChunk <=? 0) || (Z.land (u32 (existingSerial + 1)) 3 =? newSerial)) then
    dev ← yaffs_DeleteChunk ops tempBuffer dev existingChunk true;
    Some (existingChunk, false, dev)
  else
    dev ← yaffs_DeleteChunk ops tempBuffer dev chunkInNAND true;
    Some (existingChunk, true, dev).

(** [YBUG] only traces. *)
Definition yaffs_PutChunkIntoFile dev (m : tnode_memory) (obj : yaffs_Object) (chunkInInode chunkInNAND inScan : Z)
  : option (Z * yaffs_Device mtd * tnode_memory * yaffs_Object) :=
  if negb (bool_decide (variantType obj = YAFFS_OBJECT_TYPE_FILE)) then
    dev ← yaffs_DeleteChunk ops tempBuffer dev chunkInNAND true;
    Some (YAFFS_OK, dev, m, obj)
  else
    '(tn, dev, m, f) ← yaffs_AddOrFindLevel0Tnode dev m (fileVariant obj) (u32 chunkInInode) 0;
    let obj := obj <| fileVariant := f |> in
    if tn =? 0 then Some (YAFFS_FAIL, dev, m, obj)
    else
      existingChunk ← level0_chunk dev m tn chunkInInode;
      '(existingChunk, drop, dev) ←
        (if truthy inScan && (0 <? existingChunk)
         then resolve_duplicate dev m obj chunkInInode chunkInNAND inScan existingChunk
         else Some (existingChunk, false, dev));
      if (drop : bool) then Some (YAFFS_OK, dev, m, obj)
      else
        let obj := if existingChunk =? 0 then obj <| nDataChunks ::= Z.succ |> else obj in
        m ← yaffs_PutLevel0Tnode dev m tn chunkInInode chunkInNAND;
        Some (YAFFS_OK, dev, m, obj).

Definition yaffs_ReadChunkDataFromObject dev (m : tnode_memory) (obj : yaffs_Object) (chunkInInode : Z) (buffer : list Z)
  : option (Z * list Z * yaffs_Device mtd) :=
  '(chunkInNAND, _, dev) ← yaffs_FindChunkInFile dev m obj chunkInInode None;
  if 0 <=? chunkInNAND then
    '(r, buffer, _, dev) ← yaffs_ReadChunkWithTagsFromNAND ops dev chunkInNAND (Some buffer) None;
    buffer ← buffer;
    Some (r, buffer, dev)
  else
    buffer ← copy_bytes buffer 0 (replicate (Z.to_nat (nDataBytesPerChunk dev)) 0) 0 (nDataBytesPerChunk dev);
    Some (0, buffer, dev).

(** ** Deleting the chunks and the tnodes of a file *)

(** The state of [yaffs_DeleteWorker]: the device, the tnodes, the object, the limit, which is [None] when the
    pointer is NULL, and the local variable [tags] of the call for a level 0 tnode. *)
Record delete_state := mk_ds {
  ds_dev : yaffs_Device mtd;
  ds_mem : tnode_memory;
  ds_obj : yaffs_Object;
  ds_limit : option Z;
  ds_tags : yaffs_ExtendedTags
}.

#[export] Instance ds_fields : Fields delete_state := fun r =>
  mk_ds (ds_dev r) (ds_mem r) (ds_obj r) (ds_limit r) (ds_tags r).

(** The chunk [foundChunk] of the file is deleted: whether the limit is hit. *)
Definition delete_found (s : delete_state) (foundChunk : Z) : option (bool * delete_state) :=
  dev ← yaffs_DeleteChunk ops tempBuffer (ds_dev s) foundChunk true;
  let s := s <| ds_dev := dev |> <| ds_obj ::= fun obj => obj <| nDataChunks ::= Z.pred |> |> in
  match ds_limit s with
  | Some limit => Some (limit - 1 <=? 0, s <| ds_limit := Some (limit - 1) |>)
  | None => Some (false, s)
  end.

(** The entry [i] of a level 0 tnode. *)
Definition delete_entry (s : delete_state) (tn chunkOffset0 i : Z) : option (bool * delete_state) :=
  theChunk ← level0_chunk (ds_dev s) (ds_mem s) tn i;
  if truthy theChunk then
    let chunkInInode := Z.shiftl chunkOffset0 YAFFS_TNODES_LEVEL0_BITS + i in
    '(foundChunk, tags, dev) ← yaffs_FindChunkInGroup (ds_dev s) theChunk (ds_tags s) (obj_objectId (ds_obj s)) chunkInInode;
    let s := s <| ds_dev := dev |> <| ds_tags := tags |> in
    '(hitLimit, s) ← (if 0 <? foundChunk then delete_found s foundChunk else Some (false, s));
    m ← yaffs_PutLevel0Tnode (ds_dev s) (ds_mem s) tn i 0;
    Some (hitLimit, s <| ds_mem := m |>)
  else Some (false, s).

(** [for (i = 15; i >= 0 && !hitLimit; i--)] with [n] the rounds left, [i] = [n] - 1; the result says whether
    [i] is negative at the end. *)
Fixpoint delete_level0_loop (n : nat) (s : delete_state) (tn chunkOffset0 : Z) : option (bool * delete_state) :=
  match n with
  | O => Some (true, s)
  | S i =>
      '(hitLimit, s) ← delete_entry s tn chunkOffset0 (Z.of_nat i);
      if (hitLimit : bool) then Some (bool_decide (i = 0%nat), s)
      else delete_level0_loop i s tn chunkOffset0
  end.

(** The branch [i] of an internal tnode; [worker] is the recursive call. *)
Definition delete_branch (worker : delete_state -> Z -> Z -> option (bool * delete_state))
    (s : delete_state) (tn chunkOffset0 i : Z) : option (bool * delete_state) :=
  child ← get_word (ds_mem s) tn i;
  if truthy child then
    '(allDone, s) ←
      (if match ds_limit s with Some limit => limit <? 0 | None => false end then Some (false, s)
       else worker s child (Z.shiftl chunkOffset0 YAFFS_TNODES_INTERNAL_BITS + i));
    if (allDone : bool) then
      child ← get_word (ds_mem s) tn i;
      '(dev, m) ← yaffs_FreeTnode (ds_dev s) (ds_mem s) child;
      m ← set_word m tn i 0;
      Some (true, s <| ds_dev := dev |> <| ds_mem := m |>)
    else Some (false, s)
  else Some (true, s).

(** [for (i = 7; allDone && i >= 0; i--)]. *)
Fixpoint delete_internal_loop (worker : delete_state -> Z -> Z -> option (bool * delete_state))
    (n : nat) (s : delete_state) (tn chunkOffset0 : Z) : option (bool * delete_state) :=
  match n with
  | O => Some (true, s)
  | S i =>
      '(allDone, s) ← delete_branch worker s tn chunkOffset0 (Z.of_nat i);
      if (allDone : bool) then delete_internal_loop worker i s tn chunkOffset0 else Some (false, s)
  end.

Fixpoint yaffs_DeleteWorker (level : nat) (s : delete_state) (tn chunkOffset0 : Z) : option (bool * delete_state) :=
  if tn =? 0 then Some (true, s)
  else
    match level with
    | O => delete_level0_loop (Z.to_nat YAFFS_NTNODES_LEVEL0) (s <| ds_tags := localTags |>) tn chunkOffset0
    | S level' =>
        delete_internal_loop (yaffs_DeleteWorker level') (Z.to_nat YAFFS_NTNODES_INTERNAL) s tn chunkOffset0
    end.

(** ** Soft deletion *)

Definition soft_entry dev (m : tnode_memory) (tn i : Z) : option (yaffs_Device mtd * tnode_memory) :=
  theChunk ← level0_chunk dev m tn i;
  if truthy theChunk then
    dev ← yaffs_SoftDeleteChunk dev theChunk;
    m ← yaffs_PutLevel0Tnode dev m tn i 0;
    Some (dev, m)
  else Some (dev, m).

Fixpoint soft_level0_loop (n : nat) dev (m : tnode_memory) (tn : Z) : option (yaffs_Device mtd * tnode_memory) :=
  match n with
  | O => Some (dev, m)
  | S i => '(dev, m) ← soft_entry dev m tn (Z.of_nat i); soft_level0_loop i dev m tn
  end.

Definition soft_branch
    (worker : yaffs_Device mtd -> tnode_memory -> Z -> option (bool * yaffs_Device mtd * tnode_memory))
    dev (m : tnode_memory) (tn i : Z) : option (bool * yaffs_Device mtd * tnode_memory) :=
  child ← get_word m tn i;
  if truthy child then
    '(allDone, dev, m) ← worker dev m child;
    if (allDone : bool) then
      child ← get_word m tn i;
      '(dev, m) ← yaffs_FreeTnode dev m child;
      m ← set_word m tn i 0;
      Some (true, dev, m)
    else Some (false, dev, m)
  else Some (true, dev, m).

Fixpoint soft_internal_loop
    (worker : yaffs_Device mtd -> tnode_memory -> Z -> option (bool * yaffs_Device mtd * tnode_memory))
    (n : nat) dev (m : tnode_memory) (tn : Z) : option (bool * yaffs_Device mtd * tnode_memory) :=
  match n with
  | O => Some (true, dev, m)
  | S i =>
      '(allDone, dev, m) ← soft_branch worker dev m tn (Z.of_nat i);
      if (allDone : bool) then soft_internal_loop worker i dev m tn else Some (false, dev, m)
  end.

(** The argument [chunkOffset] is only passed on. *)
Fixpoint yaffs_SoftDeleteWorker (level : nat) dev (m : tnode_memory) (tn : Z)
  : option (bool * yaffs_Device mtd * tnode_memory) :=
  if tn =? 0 then Some (true, dev, m)
  else
    match level with
    | O =>
        '(dev, m) ← soft_level0_loop (Z.to_nat YAFFS_NTNODES_LEVEL0) dev m tn;
        Some (true, dev, m)
    | S level' =>
        soft_internal_loop (yaffs_SoftDeleteWorker level') (Z.to_nat YAFFS_NTNODES_INTERNAL) dev m tn
    end.

(** ** Pruning *)

(** The branch [i]: the number of branches with data so far. *)
Definition prune_branch
    (worker : yaffs_Device mtd -> tnode_memory -> Z -> bool -> option (Z * yaffs_Device mtd * tnode_memory))
    (internal : bool) dev (m : tnode_memory) (tn i : Z) (del0 : bool) (hasData : Z)
  : option (Z * yaffs_Device mtd * tnode_memory) :=
  child ← get_word m tn i;
  '(dev, m) ← (if truthy child && internal then
                 '(child, dev, m) ← worker dev m child (if i =? 0 then del0 else true);
                 m ← set_word m tn i child;
                 Some (dev, m)
               else Some (dev, m));
  child ← get_word m tn i;
  Some (if truthy child then hasData + 1 else hasData, dev, m).

(** [for (i = 0; i < 8; i++)], with [n] rounds left. *)
Fixpoint prune_loop
    (worker : yaffs_Device mtd -> tnode_memory -> Z -> bool -> option (Z * yaffs_Device mtd * tnode_memory))
    (internal : bool) (n : nat) dev (m : tnode_memory) (tn i : Z) (del0 : bool) (hasData : Z)
  : option (Z * yaffs_Device mtd * tnode_memory) :=
  match n with
  | O => Some (hasData, dev, m)
  | S n' =>
      '(hasData, dev, m) ← prune_branch worker internal dev m tn i del0 hasData;
      prune_loop worker internal n' dev m tn (i + 1) del0 hasData
  end.

(** A tnode without data is freed when [del0] says so. *)
Definition prune_free dev (m : tnode_memory) (tn hasData : Z) (del0 : bool)
  : option (Z * yaffs_Device mtd * tnode_memory) :=
  if (hasData =? 0) && del0 then
    '(dev, m) ← yaffs_FreeTnode dev m tn;
    Some (0, dev, m)
  else Some (tn, dev, m).

Fixpoint yaffs_PruneWorker (level : nat) dev (m : tnode_memory) (tn : Z) (del0 : bool)
  : option (Z * yaffs_Device mtd * tnode_memory) :=
  if tn =? 0 then Some (tn, dev, m)
  else
    '(hasData, dev, m) ←
      match level with
      | O => prune_loop (fun dev m tn _ => Some (tn, dev, m)) false (Z.to_nat YAFFS_NTNODES_INTERNAL) dev m tn 0 del0 0
      | S level' => prune_loop (yaffs_PruneWorker level') true (Z.to_nat YAFFS_NTNODES_INTERNAL) dev m tn 0 del0 0
      end;
    prune_free dev m tn hasData del0.

(** [for (i = 1; i < 8; i++)], with [n] rounds left. *)
Fixpoint count_branches (n : nat) (m : tnode_memory) (tn i hasData : Z) : option Z :=
  match n with
  | O => Some hasData
  | S n' =>
      child ← get_word m tn i;
      count_branches n' m tn (i + 1) (if truthy child then hasData + 1 else hasData)
  end.

(** [while (topLevel && !done)], with [level] the value of [topLevel]. *)
Fixpoint trim_loop (level : nat) dev (m : tnode_memory) (fStruct : yaffs_FileStructure)
  : option (yaffs_Device mtd * tnode_memory * yaffs_FileStructure) :=
  match level with
  | O => Some (dev, m, fStruct)
  | S level' =>
      let tn := top fStruct in
      hasData ← count_branches (Z.to_nat (YAFFS_NTNODES_INTERNAL - 1)) m tn 1 0;
      if hasData =? 0 then
        child ← get_word m tn 0;
        let fStruct := fStruct <| top := child |> in
        let fStruct := fStruct <| topLevel ::= Z.pred |> in
        '(dev, m) ← yaffs_FreeTnode dev m tn;
        trim_loop level' dev m fStruct
      else Some (dev, m, fStruct)
  end.

Definition yaffs_PruneFileStructure dev (m : tnode_memory) (fStruct : yaffs_FileStructure)
  : option (Z * yaffs_Device mtd * tnode_memory * yaffs_FileStructure) :=
  if 0 <? topLevel fStruct then
    '(tn, dev, m) ← yaffs_PruneWorker (Z.to_nat (topLevel fStruct)) dev m (top fStruct) false;
    let fStruct := fStruct <| top := tn |> in
    '(dev, m, fStruct) ← trim_loop (Z.to_nat (topLevel fStruct)) dev m fStruct;
    Some (YAFFS_OK, dev, m, fStruct)
  else Some (YAFFS_OK, dev, m, fStruct).

End Tnodes.
