(* ===== verification/YaffsObjects.v ===== *)
(** * The objects of YAFFS

    The files, directories and links of a device in memory, of fs/yaffs2/yaffs_guts.c: the pool of
    free objects, the table that finds an object by its number, the directories, and the
    links between equivalent objects.

    The objects that are in use are kept by their addresses.  A list that is linked
    through the objects (a bucket of the table, the children of a directory, the hard links of an
    object, the free objects) is the list of the addresses, from its head on.  [None] as a result
    is an access through NULL or to an object that is not in use.  Traces and the functions that
    only verify are left out, and so are the callback for the open directories of the
    VFS and the times of an object. *)

From S2P Require Import Prelude NandEcc YaffsTags YaffsNand YaffsBlocks YaffsTnodes.

Local Open Scope Z_scope.

Definition YAFFS_NOBJECT_BUCKETS : Z := 256.
Definition YAFFS_ALLOCATION_NOBJECTS : Z := 100.
Definition YAFFS_OBJECTID_ROOT : Z := 1.
Definition YAFFS_OBJECTID_LOSTNFOUND : Z := 2.
Definition YAFFS_OBJECTID_UNLINKED : Z := 3.
Definition YAFFS_OBJECTID_DELETED : Z := 4.
Definition YAFFS_ROOT_MODE : Z := 0x1ED.
Definition YAFFS_LOSTNFOUND_MODE : Z := 0x1C0.
Definition S_IFDIR : Z := 0x4000.

Record yaffs_ObjectBucket := mk_bucket {
  bucket_list : list Z;
  bucket_count : Z
}.

#[export] Instance bucket_fields : Fields yaffs_ObjectBucket := fun r => mk_bucket (bucket_list r) (bucket_count r).

(** The objects, the fields of the device that point to them, and the static variable of
    [yaffs_FindNiceObjectBucket].  A cell of the list of allocated objects is its own address and the
    address of its objects. *)
Record object_memory := mk_om {
  objects : gmap Z yaffs_Object;
  freeObjects : list Z;
  allocatedObjectList : list (Z * Z);
  objectBucket : list yaffs_ObjectBucket;
  rootDir : Z;
  lostNFoundDir : Z;
  unlinkedDir : Z;
  deletedDir : Z;
  nice_x : Z
}.

#[export] Instance om_fields : Fields object_memory := fun r =>
  mk_om (objects r) (freeObjects r) (allocatedObjectList r) (objectBucket r) (rootDir r) (lostNFoundDir r) (unlinkedDir r)
    (deletedDir r) (nice_x r).

(** An assignment to fields of the object at [a]. *)
Definition update_object (om : object_memory) (a : Z) (f : yaffs_Object -> yaffs_Object) : option object_memory :=
  o ← objects om !! a;
  Some (om <| objects ::= <[a := f o]> |>).

Section Directories.
Context {mtd : Type}.
Implicit Types (dev : yaffs_Device mtd) (om : object_memory).

(** ** Directories *)

(** The object is taken out of the list it is in, which is that of its parent. *)
Definition yaffs_RemoveObjectFromDirectory om (obj : Z) : option object_memory :=
  o ← objects om !! obj;
  om ← (if truthy (parent o) then update_object om (parent o) (fun d => d <| children ::= filter (fun c => c <> obj) |>)
        else Some om);
  update_object om obj (fun o => o <| parent := 0 |>).

(** A directory that is none has no list of children. *)
Definition yaffs_AddObjectToDirectory dev om (directory obj : Z) : option (yaffs_Device mtd * object_memory) :=
  if directory =? 0 then Some (dev, om)
  else
    d ← objects om !! directory;
    if bool_decide (variantType d <> YAFFS_OBJECT_TYPE_DIRECTORY) then None
    else
      om ← yaffs_RemoveObjectFromDirectory om obj;
      om ← update_object om directory (fun d => d <| children ::= cons obj |>);
      om ← update_object om obj (fun o => o <| parent := directory |>);
      if (directory =? unlinkedDir om) || (directory =? deletedDir om) then
        om ← update_object om obj (fun o => o <| unlinked := true |>);
        let dev := dev <| nUnlinkedFiles ::= Z.succ |> in
        om ← update_object om obj (fun o => o <| renameAllowed := false |>);
        Some (dev, om)
      else Some (dev, om).

(** ** The table of objects *)

Definition yaffs_HashFunction (n : Z) : Z :=
  let n := Z.abs (s32 n) in
  Z.rem n YAFFS_NOBJECT_BUCKETS.

Definition update_bucket om (bucket : Z) (f : yaffs_ObjectBucket -> yaffs_ObjectBucket) : option object_memory :=
  b ← objectBucket om !! Z.to_nat bucket;
  Some (om <| objectBucket ::= <[Z.to_nat bucket := f b]> |>).

Definition yaffs_HashObject om (obj : Z) : option object_memory :=
  o ← objects om !! obj;
  let bucket := yaffs_HashFunction (obj_objectId o) in
  om ← update_bucket om bucket (fun b => b <| bucket_list ::= cons obj |>);
  update_bucket om bucket (fun b => b <| bucket_count ::= Z.succ |>).

(** If it is still linked into the bucket list, free from the list. *)
Definition yaffs_UnhashObject om (tn : Z) : option object_memory :=
  o ← objects om !! tn;
  let bucket := yaffs_HashFunction (obj_objectId o) in
  b ← objectBucket om !! Z.to_nat bucket;
  if bool_decide (tn ∈ bucket_list b) then
    om ← update_bucket om bucket (fun b => b <| bucket_list ::= filter (fun c => c <> tn) |>);
    update_bucket om bucket (fun b => b <| bucket_count ::= Z.pred |>)
  else Some om.

(** The walk over a bucket; [l] are the objects that are left. *)
Fixpoint find_in_bucket (l : list Z) om (number : Z) : option Z :=
  match l with
  | [] => Some 0
  | i :: l =>
      o ← objects om !! i;
      if obj_objectId o =? number then Some (if deferedFree o then 0 else i) else find_in_bucket l om number
  end.

Definition yaffs_FindObjectByNumber om (number : Z) : option Z :=
  let bucket := yaffs_HashFunction number in
  b ← objectBucket om !! Z.to_nat bucket;
  find_in_bucket (bucket_list b) om number.

(** [for (i = 0; i < 10 && lowest > limit; i++)], with [n] rounds left. *)
Fixpoint nice_loop (n : nat) om (limit x l lowest : Z) : option (Z * Z * Z) :=
  match n with
  | O => Some (x, l, lowest)
  | S n' =>
      if limit <? lowest then
        let x := Z.rem (x + 1) YAFFS_NOBJECT_BUCKETS in
        b ← objectBucket om !! Z.to_nat x;
        if bucket_count b <? lowest then nice_loop n' om limit x x (bucket_count b)
        else nice_loop n' om limit x l lowest
      else Some (x, l, lowest)
  end.

Definition yaffs_FindNiceObjectBucket om : option (Z * object_memory) :=
  '(x, l, lowest) ← nice_loop 10 om 0 (nice_x om) 999 999999;
  '(x, l, lowest) ← nice_loop 10 om 3 x l lowest;
  Some (l, om <| nice_x := x |>).

(** Whether an object of the bucket has the number; the walk goes to the end. *)
Fixpoint number_taken (l : list Z) om (n : Z) : option bool :=
  match l with
  | [] => Some false
  | i :: l =>
      o ← objects om !! i;
      taken ← number_taken l om n;
      Some ((obj_objectId o =? n) || taken)
  end.

(** [while (!found)], with [fuel] rounds left. *)
Fixpoint new_number_loop (fuel : nat) om (l : list Z) (n : Z) : option Z :=
  match fuel with
  | O => None
  | S fuel' =>
      let n := u32 (n + YAFFS_NOBJECT_BUCKETS) in
      taken ← number_taken l om n;
      if (taken : bool) then new_number_loop fuel' om l n else Some n
  end.

(** One number more than there are objects in the bucket is enough. *)
Definition yaffs_CreateNewObjectNumber om : option (Z * object_memory) :=
  '(bucket, om) ← yaffs_FindNiceObjectBucket om;
  b ← objectBucket om !! Z.to_nat bucket;
  n ← new_number_loop (S (length (bucket_list b))) om (bucket_list b) bucket;
  Some (s32 n, om).

End Directories.

(** ** The pool of objects *)

Section Pool.
Context {mtd : Type}.

(** The address that kmalloc returns, or 0, and the contents of the words of the memory. *)
Context (YMALLOC : tnode_memory -> Z -> Z) (uninitialised : Z -> Z).

Implicit Types (dev : yaffs_Device mtd) (m : tnode_memory) (om : object_memory).

(** The sizes on the processor of the board. *)
Definition sizeof_yaffs_Object : Z := 108.
Definition sizeof_yaffs_ObjectList : Z := 8.

(** The addresses of [n] objects from [a] on. *)
Fixpoint object_addrs (n : nat) (a : Z) : list Z :=
  match n with
  | O => []
  | S n' => a :: object_addrs n' (a + sizeof_yaffs_Object)
  end.

Definition yaffs_CreateFreeObjects dev m om (nObjects : Z) : option (Z * yaffs_Device mtd * tnode_memory * object_memory) :=
  if nObjects <? 1 then Some (YAFFS_OK, dev, m, om)
  else
    let '(newObjects, m) := malloc_block YMALLOC m (Z.to_nat nObjects) sizeof_yaffs_Object in
    let '(list, m) := malloc_block YMALLOC m 1 sizeof_yaffs_ObjectList in
    if (newObjects =? 0) || (list =? 0) then
      m ← (if truthy newObjects then YFREE m newObjects else Some m);
      m ← (if truthy list then YFREE m list else Some m);
      Some (YAFFS_FAIL, dev, m, om)
    else
      let om := om <| freeObjects ::= app (object_addrs (Z.to_nat nObjects) newObjects) |> in
      let dev := dev <| nFreeObjects ::= Z.add nObjects |> <| nObjectsCreated ::= Z.add nObjects |> in
      let om := om <| allocatedObjectList ::= cons (list, newObjects) |> in
      Some (YAFFS_OK, dev, m, om).

(** If there are none left make more. *)
Definition refill_objects dev m om : option (yaffs_Device mtd * tnode_memory * object_memory) :=
  match freeObjects om with
  | [] => '(_, dev, m, om) ← yaffs_CreateFreeObjects dev m om YAFFS_ALLOCATION_NOBJECTS; Some (dev, m, om)
  | _ :: _ => Some (dev, m, om)
  end.

(** The clean object [tn] is put into the directories. *)
Definition sweeten_object dev om (tn : Z) : option (yaffs_Device mtd * object_memory) :=
  let om := om <| objects ::= <[tn := zero_object]> |> in
  om ← (if truthy (rootDir om) then
          om ← update_object om tn (fun o => o <| parent := rootDir om |>);
          update_object om (rootDir om) (fun d => d <| children ::= cons tn |>)
        else Some om);
  if truthy (lostNFoundDir om) then yaffs_AddObjectToDirectory dev om (lostNFoundDir om) tn else Some (dev, om).

Definition yaffs_AllocateEmptyObject dev m om : option (Z * yaffs_Device mtd * tnode_memory * object_memory) :=
  '(dev, m, om) ← refill_objects dev m om;
  '(tn, dev, om) ←
    match freeObjects om with
    | [] => Some (0, dev, om)
    | tn :: next =>
        '(dev, om) ← sweeten_object (dev <| nFreeObjects ::= Z.pred |>) (om <| freeObjects := next |>) tn;
        Some (tn, dev, om)
    end;
  Some (tn, dev <| nCheckpointBlocksRequired := 0 |>, m, om).

(** An object that is still in a directory would be linked into the free list while the directory has it. *)
Definition yaffs_FreeObject dev om (tn : Z) : option (yaffs_Device mtd * object_memory) :=
  o ← objects om !! tn;
  if truthy (parent o) then None
  else if truthy (myInode o) then
    om ← update_object om tn (fun o => o <| deferedFree := true |>);
    Some (dev, om)
  else
    om ← yaffs_UnhashObject om tn;
    let om := om <| objects ::= delete tn |> <| freeObjects ::= cons tn |> in
    Some (dev <| nFreeObjects ::= Z.succ |> <| nCheckpointBlocksRequired := 0 |>, om).

Definition yaffs_InitialiseObjects dev om : yaffs_Device mtd * object_memory :=
  (dev <| nFreeObjects := 0 |>,
   om <| allocatedObjectList := [] |> <| freeObjects := [] |>
      <| objectBucket := replicate (Z.to_nat YAFFS_NOBJECT_BUCKETS) (mk_bucket [] 0) |>).

(** The fields of a new object. *)
Definition init_variant (type : yaffs_ObjectType) (tn : Z) (o : yaffs_Object) : yaffs_Object :=
  match type with
  | YAFFS_OBJECT_TYPE_FILE => o <| fileVariant := mk_fs 0 0 0xFFFFFFFF 0 tn |>
  | YAFFS_OBJECT_TYPE_DIRECTORY => o <| children := [] |>
  | _ => o
  end.

Definition init_object om (theObject number : Z) (type : yaffs_ObjectType) (tn : Z) : option object_memory :=
  om ← update_object om theObject (fun o => o <| fake := false |> <| renameAllowed := true |> <| unlinkAllowed := true |>
                                              <| obj_objectId := u32 number |>);
  om ← yaffs_HashObject om theObject;
  update_object om theObject (fun o => init_variant type tn (o <| variantType := type |>)).

Definition yaffs_CreateNewObject dev m om (number : Z) (type : yaffs_ObjectType)
  : option (Z * yaffs_Device mtd * tnode_memory * object_memory) :=
  '(number, om) ← (if number <? 0 then yaffs_CreateNewObjectNumber om else Some (number, om));
  '(theObject, dev, m, om) ← yaffs_AllocateEmptyObject dev m om;
  if theObject =? 0 then Some (0, dev, m, om)
  else
    '(tn, dev, m) ← (if bool_decide (type = YAFFS_OBJECT_TYPE_FILE) then yaffs_GetTnode YMALLOC uninitialised dev m else Some (0, dev, m));
    if bool_decide (type = YAFFS_OBJECT_TYPE_FILE) && (tn =? 0) then
      '(dev, om) ← yaffs_FreeObject dev om theObject;
      Some (0, dev, m, om)
    else
      om ← init_object om theObject number type tn;
      Some (theObject, dev, m, om).

Definition yaffs_FindOrCreateObjectByNumber dev m om (number : Z) (type : yaffs_ObjectType)
  : option (Z * yaffs_Device mtd * tnode_memory * object_memory) :=
  theObject ← (if 0 <? number then yaffs_FindObjectByNumber om (u32 number) else Some 0);
  if theObject =? 0 then yaffs_CreateNewObject dev m om number type else Some (theObject, dev, m, om).

(** ** The directories that always exist *)

Definition yaffs_CreateFakeDirectory dev m om (number mode : Z) : option (Z * yaffs_Device mtd * tnode_memory * object_memory) :=
  '(obj, dev, m, om) ← yaffs_CreateNewObject dev m om number YAFFS_OBJECT_TYPE_DIRECTORY;
  om ← (if truthy obj then
          update_object om obj (fun o => o <| fake := true |> <| renameAllowed := false |> <| unlinkAllowed := false |>
                                           <| deleted := false |> <| unlinked := false |> <| yst_mode := mode |> <| hdrChunk := 0 |>)
        else Some om);
  Some (obj, dev, m, om).

Definition yaffs_CreateInitialDirectories dev m om : option (Z * yaffs_Device mtd * tnode_memory * object_memory) :=
  let om := om <| lostNFoundDir := 0 |> <| rootDir := 0 |> <| unlinkedDir := 0 |> <| deletedDir := 0 |> in
  '(d, dev, m, om) ← yaffs_CreateFakeDirectory dev m om YAFFS_OBJECTID_UNLINKED S_IFDIR;
  let om := om <| unlinkedDir := d |> in
  '(d, dev, m, om) ← yaffs_CreateFakeDirectory dev m om YAFFS_OBJECTID_DELETED S_IFDIR;
  let om := om <| deletedDir := d |> in
  '(d, dev, m, om) ← yaffs_CreateFakeDirectory dev m om YAFFS_OBJECTID_ROOT (Z.lor YAFFS_ROOT_MODE S_IFDIR);
  let om := om <| rootDir := d |> in
  '(d, dev, m, om) ← yaffs_CreateFakeDirectory dev m om YAFFS_OBJECTID_LOSTNFOUND (Z.lor YAFFS_LOSTNFOUND_MODE S_IFDIR);
  let om := om <| lostNFoundDir := d |> in
  if truthy (lostNFoundDir om) && truthy (rootDir om) && truthy (unlinkedDir om) && truthy (deletedDir om) then
    '(dev, om) ← yaffs_AddObjectToDirectory dev om (rootDir om) (lostNFoundDir om);
    Some (YAFFS_OK, dev, m, om)
  else Some (YAFFS_FAIL, dev, m, om).

(** ** Hard links *)

(** The list of the hard links is linked through [hardLinks.next]. *)
Fixpoint yaffs_HardlinkFixup om (hardList : list Z) : option object_memory :=
  match hardList with
  | [] => Some om
  | hl :: hardList =>
      h ← objects om !! hl;
      inn ← yaffs_FindObjectByNumber om (equivalentObjectId h);
      om ← (if truthy inn then
              om ← update_object om hl (fun h => h <| equivalentObject := inn |>);
              update_object om inn (fun o => o <| hardLinks ::= cons hl |>)
            else update_object om hl (fun h => h <| equivalentObject := 0 |> <| hardLinks := [] |>));
      yaffs_HardlinkFixup om hardList
  end.

End Pool.
