(* ===== verification/YaffsTnodesFacts.v ===== *)
(** * Tnodes: geometry and packed entries

    What mounting computes for the tnodes of a device, and the entries of a level 0 tnode as
    fields of the string of bits that its words form. *)

From S2P Require Import Prelude NandEcc YaffsTags YaffsNand YaffsBlocks YaffsTnodes.

Local Open Scope Z_scope.

(** ** Bits of a list of words *)

Definition wbit (ws : list Z) (k : Z) : bool :=
  Z.testbit (default 0 (ws !! Z.to_nat (k / 32))) (k mod 32).

Definition words32 (ws : list Z) : Prop := Forall (in_w 32) ws.

Lemma get_nonneg ws i : 0 <= i -> get ws i = ws !! Z.to_nat i.
Proof. intros. unfold get. by rewrite (proj2 (Z.leb_le _ _)). Qed.

Lemma get_Some_bound ws i x : get ws i = Some x -> 0 <= i < blen ws.
Proof.
  unfold get, blen. case_match; [|done]. intros H0%lookup_lt_Some. lia.
Qed.

Lemma get_is_Some ws i : 0 <= i < blen ws -> exists x, get ws i = Some x.
Proof.
  unfold blen. intros H. rewrite get_nonneg by lia. apply lookup_lt_is_Some. lia.
Qed.

Lemma set_Some ws i v : 0 <= i < blen ws -> set ws i v = Some (<[Z.to_nat i := v]> ws).
Proof. intros. unfold set. by rewrite (proj2 (Z.leb_le _ _)), (proj2 (Z.ltb_lt _ _)) by lia. Qed.

Lemma change_word_Some ws i f : 0 <= i < blen ws ->
  exists x, get ws i = Some x /\ change_word ws i f = Some (<[Z.to_nat i := f x]> ws).
Proof.
  intros H. destruct (get_is_Some ws i H) as [x Hx]. exists x. split; [done|].
  unfold change_word. rewrite Hx. simpl. by apply set_Some.
Qed.

Lemma words32_get ws i x : words32 ws -> get ws i = Some x -> in_w 32 x.
Proof.
  intros Hw Hg. pose proof (get_Some_bound _ _ _ Hg). rewrite get_nonneg in Hg by lia.
  by eapply Forall_lookup_1.
Qed.

Lemma words32_insert ws i v : words32 ws -> in_w 32 v -> words32 (<[i := v]> ws).
Proof. intros. by apply Forall_insert. Qed.

(** The bit [k] after an assignment to the word [i]. *)
Lemma wbit_insert ws i v k :
  0 <= i < blen ws -> 0 <= k ->
  wbit (<[Z.to_nat i := v]> ws) k = if k / 32 =? i then Z.testbit v (k mod 32) else wbit ws k.
Proof.
  unfold blen. intros Hi Hk. unfold wbit. pose proof (Z.div_pos k 32).
  destruct (Z.eqb_spec (k / 32) i) as [->|].
  - rewrite list_lookup_insert_eq by lia. done.
  - rewrite list_lookup_insert_ne by lia. done.
Qed.

Lemma wbit_get ws i x k : get ws i = Some x -> 0 <= k -> k / 32 = i -> wbit ws k = Z.testbit x (k mod 32).
Proof.
  intros Hg Hk E. unfold wbit. rewrite E. rewrite get_nonneg in Hg by (subst; apply Z.div_pos; lia).
  by rewrite Hg.
Qed.

(** A word with the bits of a mask replaced by those of [v]. *)
Definition mask_in (x mask v : Z) : Z := Z.lor (Z.land x (not_w 32 mask)) (Z.land mask v).

Lemma mask_in_testbit x mask v j :
  0 <= j < 32 -> Z.testbit (mask_in x mask v) j = if Z.testbit mask j then Z.testbit v j else Z.testbit x j.
Proof.
  intros Hj. unfold mask_in, not_w. autorewrite with bits. rewrite (proj2 (Z.ltb_lt _ _)) by lia.
  by destruct (Z.testbit mask j), (Z.testbit x j), (Z.testbit v j).
Qed.

Lemma mask_in_32 x mask v : in_w 32 x -> in_w 32 mask -> 0 <= v -> in_w 32 (mask_in x mask v).
Proof.
  intros. unfold mask_in. apply in_w_lor; [lia| |]; apply in_w_land; try done; try lia.
  unfold not_w. pose proof (wrap_in 32 (Z.lnot mask)). unfold in_w in *. lia.
Qed.

(** The two assignments of [put_entry] to one word. *)
Lemma change_word_mask ws i mask v :
  0 <= i < blen ws ->
  exists x, get ws i = Some x /\
    (change_word ws i (fun w => Z.land w (not_w 32 mask)) ≫=
       (fun ws => change_word ws i (fun w => Z.lor w (Z.land mask v)))) = Some (<[Z.to_nat i := mask_in x mask v]> ws).
Proof.
  intros Hi. destruct (change_word_Some ws i (fun w => Z.land w (not_w 32 mask)) Hi) as (x & Hx & ->).
  exists x. split; [done|]. simpl. unfold change_word.
  assert (get (<[Z.to_nat i := Z.land x (not_w 32 mask)]> ws) i = Some (Z.land x (not_w 32 mask))) as ->.
  { unfold blen in Hi. rewrite get_nonneg by lia. rewrite list_lookup_insert_eq by lia. done. }
  simpl. rewrite set_Some by (unfold blen in *; rewrite length_insert; lia). by rewrite list_insert_insert_eq.
Qed.

(** ** The packed entries *)

Section Entries.
Context {mtd : Type}.
Implicit Types dev : yaffs_Device mtd.

(** What mounting makes sure of. *)
Record tnode_wf dev : Prop := {
  width_even : Z.Even (tnodeWidth dev);
  width_range : 16 <= tnodeWidth dev < 32;
  mask_is : tnodeMask dev = 2 ^ tnodeWidth dev - 1;
  group_range : 0 <= chunkGroupBits dev <= 32 - tnodeWidth dev
}.

Lemma mask_testbit dev j : tnode_wf dev -> 0 <= j -> Z.testbit (tnodeMask dev) j = (j <? tnodeWidth dev).
Proof.
  intros [_ ? Hm _] Hj. rewrite Hm, Z.sub_1_r, <- Z.ones_equiv.
  rewrite Z.testbit_ones_nonneg by lia. done.
Qed.

Lemma pos_range pos : 0 <= pos -> 0 <= Z.land pos YAFFS_TNODES_LEVEL0_MASK < 16.
Proof. intros. unfold YAFFS_TNODES_LEVEL0_MASK. change 15 with (2 ^ 4 - 1). rewrite land_mask by lia. apply Z.mod_pos_bound. lia. Qed.

(** The bit where the entry at [pos] starts, with its word and its place in the word. *)
Lemma entry_start dev pos : tnode_wf dev -> 0 <= pos ->
  let b := Z.land pos 15 * tnodeWidth dev in
  u32 b = b /\ 0 <= b /\ b + tnodeWidth dev <= 16 * tnodeWidth dev /\ Z.land b 31 = b mod 32.
Proof.
  intros Hw Hp b. pose proof (pos_range pos Hp) as Hr. unfold YAFFS_TNODES_LEVEL0_MASK in Hr.
  pose proof (width_range dev Hw). unfold b.
  assert (Z.land (Z.land pos 15 * tnodeWidth dev) 31 = (Z.land pos 15 * tnodeWidth dev) mod 32) as ->
    by (change 31 with (2 ^ 5 - 1); rewrite land_mask by lia; done).
  rewrite u32_small by nia. nia.
Qed.

(** The string of bits of a level 0 tnode is long enough for sixteen entries. *)
Definition entries_fit dev (ws : list Z) : Prop := 16 * tnodeWidth dev <= 32 * blen ws.

(** The masks of the two words of an entry that starts at the bit [b] of the string, and the
    bits they select. *)
Lemma field_mask_testbit dev r j : tnode_wf dev -> 0 <= r < 32 -> 0 <= j < 32 ->
  Z.testbit (u32 (Z.shiftl (tnodeMask dev) r)) j = (r <=? j) && (j <? r + tnodeWidth dev).
Proof.
  intros Hw Hr Hj. unfold u32. autorewrite with bits. rewrite (proj2 (Z.ltb_lt j 32)) by lia. simpl.
  destruct (Z.leb_spec r j); simpl.
  - rewrite mask_testbit by (done || lia). destruct (Z.ltb_spec (j - r) (tnodeWidth dev)), (Z.ltb_spec j (r + tnodeWidth dev)); lia || done.
  - by rewrite Z.testbit_neg_r by lia.
Qed.

Lemma high_mask_testbit dev r j : tnode_wf dev -> 0 <= r <= 32 -> 0 <= j ->
  Z.testbit (Z.shiftr (tnodeMask dev) r) j = (j + r <? tnodeWidth dev).
Proof. intros Hw Hr Hj. autorewrite with bits. by rewrite mask_testbit by (done || lia). Qed.

Lemma mask_32 dev : tnode_wf dev -> in_w 32 (tnodeMask dev).
Proof.
  intros [_ ? -> _]. unfold in_w. pose proof (Z.pow_lt_mono_r 2 (tnodeWidth dev) 32).
  pose proof (Z.pow_pos_nonneg 2 (tnodeWidth dev)). lia.
Qed.

(** Writing the low word of an entry. *)
Lemma put_low dev ws b v :
  tnode_wf dev -> words32 ws -> in_w 32 v -> 0 <= b -> b / 32 < blen ws ->
  let m := u32 (Z.shiftl (tnodeMask dev) (b mod 32)) in
  exists ws', (change_word ws (b / 32) (fun w => Z.land w (not_w 32 m)) ≫=
       (fun ws => change_word ws (b / 32) (fun w => Z.lor w (Z.land m (u32 (Z.shiftl v (b mod 32))))))) = Some ws' /\
    length ws' = length ws /\ words32 ws' /\
    forall k, 0 <= k -> wbit ws' k =
      if (b <=? k) && (k <? b + tnodeWidth dev) && (k / 32 =? b / 32) then Z.testbit v (k - b) else wbit ws k.
Proof.
  intros Hw Hws Hv Hb Hlen m. pose proof (Z.mod_pos_bound b 32). pose proof (Z.div_pos b 32).
  destruct (change_word_mask ws (b / 32) m (u32 (Z.shiftl v (b mod 32)))) as (x & Hx & ->); [lia|].
  eexists. split; [done|]. split; [by rewrite length_insert|]. split.
  - apply words32_insert; [done|]. apply mask_in_32.
    + by eapply words32_get.
    + apply wrap_in. lia.
    + apply (wrap_in 32). lia.
  - intros k Hk. rewrite wbit_insert by lia. pose proof (Z.mod_pos_bound k 32).
    destruct (Z.eqb_spec (k / 32) (b / 32)) as [E|]; [|by rewrite andb_false_r].
    pose proof (Z.div_mod k 32). pose proof (Z.div_mod b 32).
    rewrite mask_in_testbit by lia. unfold m. rewrite field_mask_testbit by (done || lia).
    rewrite (wbit_get ws (b / 32) x k) by done. rewrite andb_true_r.
    replace (b <=? k) with (b mod 32 <=? k mod 32) by (apply eq_true_iff_eq; rewrite !Z.leb_le; lia).
    replace (k <? b + tnodeWidth dev) with (k mod 32 <? b mod 32 + tnodeWidth dev)
      by (apply eq_true_iff_eq; rewrite !Z.ltb_lt; lia).
    case_match; [|done]. unfold u32. autorewrite with bits. rewrite (proj2 (Z.ltb_lt _ 32)) by lia. simpl.
    f_equal. lia.
Qed.

(** Writing the high word of an entry that does not fit in one word. *)
Lemma put_high dev ws b v :
  tnode_wf dev -> words32 ws -> in_w 32 v -> 0 <= b -> b / 32 + 1 < blen ws -> 32 - b mod 32 < tnodeWidth dev ->
  let m := Z.shiftr (tnodeMask dev) (32 - b mod 32) in
  exists ws', (change_word ws (b / 32 + 1) (fun w => Z.land w (not_w 32 m)) ≫=
       (fun ws => change_word ws (b / 32 + 1) (fun w => Z.lor w (Z.land m (Z.shiftr v (32 - b mod 32)))))) = Some ws' /\
    length ws' = length ws /\ words32 ws' /\
    forall k, 0 <= k -> wbit ws' k =
      if (k <? b + tnodeWidth dev) && (k / 32 =? b / 32 + 1) then Z.testbit v (k - b) else wbit ws k.
Proof.
  intros Hw Hws Hv Hb Hlen Hover m. pose proof (Z.mod_pos_bound b 32). pose proof (Z.div_pos b 32).
  destruct (change_word_mask ws (b / 32 + 1) m (Z.shiftr v (32 - b mod 32))) as (x & Hx & ->); [lia|].
  eexists. split; [done|]. split; [by rewrite length_insert|]. split.
  - apply words32_insert; [done|]. apply mask_in_32.
    + by eapply words32_get.
    + apply in_w_shiftr; [lia|lia|by apply mask_32].
    + apply Z.shiftr_nonneg. unfold in_w in Hv. lia.
  - intros k Hk. rewrite wbit_insert by lia. pose proof (Z.mod_pos_bound k 32).
    destruct (Z.eqb_spec (k / 32) (b / 32 + 1)) as [E|]; [|by rewrite andb_false_r].
    pose proof (Z.div_mod k 32). pose proof (Z.div_mod b 32).
    rewrite mask_in_testbit by lia. unfold m. rewrite high_mask_testbit by (done || lia).
    rewrite (wbit_get ws (b / 32 + 1) x k) by done. rewrite andb_true_r.
    replace (k <? b + tnodeWidth dev) with (k mod 32 + (32 - b mod 32) <? tnodeWidth dev)
      by (apply eq_true_iff_eq; rewrite !Z.ltb_lt; lia).
    case_match; [|done]. autorewrite with bits. f_equal. lia.
Qed.

Lemma put_entry_spec dev ws pos val :
  tnode_wf dev -> words32 ws -> entries_fit dev ws -> 0 <= pos -> in_w 32 val ->
  exists ws', put_entry dev ws pos val = Some ws' /\ length ws' = length ws /\ words32 ws' /\
    forall k, 0 <= k ->
      wbit ws' k =
      let b := Z.land pos 15 * tnodeWidth dev in
      if (b <=? k) && (k <? b + tnodeWidth dev)
      then Z.testbit (Z.shiftr val (chunkGroupBits dev)) (k - b) else wbit ws k.
Proof.
  intros Hw Hws Hfit Hp Hv. destruct (entry_start dev pos Hw Hp) as (E1 & Hb & Hb' & E2).
  pose proof (width_range dev Hw) as Hwr. pose proof (group_range dev Hw) as Hg. unfold entries_fit in Hfit.
  unfold put_entry, YAFFS_TNODES_LEVEL0_MASK. change (32 - 1) with 31.
  set (b := Z.land pos 15 * tnodeWidth dev) in *. rewrite E1, E2. clearbody b. clear E1 E2.
  set (v := Z.shiftr val (chunkGroupBits dev)).
  assert (in_w 32 v) as Hv' by (apply in_w_shiftr; (done || lia)). clearbody v.
  pose proof (Z.div_mod b 32). pose proof (Z.mod_pos_bound b 32). pose proof (Z.div_pos b 32).
  destruct (put_low dev ws b v) as (ws1 & E1 & L1 & W1 & B1); try done; [lia|].
  destruct (Z.ltb_spec (32 - b mod 32) (tnodeWidth dev)) as [Hover|Hin].
  - destruct (put_high dev ws1 b v) as (ws2 & E2 & L2 & W2 & B2); try done; [unfold blen in *; lia|].
    exists ws2. split; [|split_and!; [congruence|done|]].
    + revert E1. unfold mbind, option_bind. simpl. case_match; [|done]. intros ->. done.
    + intros k Hk. rewrite B2, B1 by done. cbv zeta.
      pose proof (Z.div_mod k 32). pose proof (Z.mod_pos_bound k 32).
      destruct (Z.leb_spec b k), (Z.ltb_spec k (b + tnodeWidth dev)), (Z.eqb_spec (k / 32) (b / 32 + 1)),
        (Z.eqb_spec (k / 32) (b / 32)); simpl; try done; nia.
  - exists ws1. split; [|split_and!; [done..|]].
    + revert E1. unfold mbind, option_bind. simpl. case_match; [|done]. intros ->. done.
    + intros k Hk. rewrite B1 by done. cbv zeta.
      pose proof (Z.div_mod k 32). pose proof (Z.mod_pos_bound k 32).
      destruct (Z.leb_spec b k), (Z.ltb_spec k (b + tnodeWidth dev)), (Z.eqb_spec (k / 32) (b / 32)); simpl; try done; nia.
Qed.

(** The value of an entry. *)
Definition entry dev (ws : list Z) (pos : Z) : Z := default 0 (get_entry dev ws pos).

Lemma get_entry_spec dev ws pos :
  tnode_wf dev -> words32 ws -> entries_fit dev ws -> 0 <= pos ->
  exists v, get_entry dev ws pos = Some (v * 2 ^ chunkGroupBits dev) /\ in_w (tnodeWidth dev) v /\
    forall j, 0 <= j -> Z.testbit v j = (j <? tnodeWidth dev) && wbit ws (Z.land pos 15 * tnodeWidth dev + j).
Proof.
  intros Hw Hws Hfit Hp. destruct (entry_start dev pos Hw Hp) as (E1 & Hb & Hb' & E2).
  pose proof (width_range dev Hw) as Hwr. pose proof (group_range dev Hw) as Hg. unfold entries_fit in Hfit.
  unfold get_entry, YAFFS_TNODES_LEVEL0_MASK. change (32 - 1) with 31.
  set (b := Z.land pos 15 * tnodeWidth dev) in *. rewrite E1, E2. clearbody b. clear E1 E2.
  pose proof (Z.div_mod b 32). pose proof (Z.mod_pos_bound b 32). pose proof (Z.div_pos b 32).
  destruct (get_is_Some ws (b / 32)) as [x Hx]; [lia|]. rewrite Hx. simpl.
  pose proof (words32_get _ _ _ Hws Hx) as Hx32.
  assert (exists v, (if 32 - b mod 32 <? tnodeWidth dev
     then w ← get ws (b / 32 + 1); Some (Z.lor (Z.shiftr x (b mod 32)) (u32 (Z.shiftl w (32 - b mod 32))))
     else Some (Z.shiftr x (b mod 32))) = Some v /\
     forall j, 0 <= j < tnodeWidth dev -> Z.testbit v j = wbit ws (b + j)) as (v & Hv & Hbits).
  { destruct (Z.ltb_spec (32 - b mod 32) (tnodeWidth dev)) as [Hover|Hin].
    - destruct (get_is_Some ws (b / 32 + 1)) as [y Hy]; [lia|]. rewrite Hy. simpl. eexists. split; [done|].
      intros j Hj. pose proof (Z.div_mod (b + j) 32). pose proof (Z.mod_pos_bound (b + j) 32).
      unfold u32. autorewrite with bits. rewrite (proj2 (Z.ltb_lt j 32)) by lia. simpl.
      destruct (Z.ltb_spec j (32 - b mod 32)).
      + rewrite (Z.testbit_neg_r y) by lia. rewrite orb_false_r.
        rewrite (wbit_get ws (b / 32) x) by (done || nia). f_equal. nia.
      + rewrite (in_w_testbit 32 x) by (done || lia). simpl.
        rewrite (wbit_get ws (b / 32 + 1) y) by (done || nia). f_equal. nia.
    - eexists. split; [done|]. intros j Hj.
      pose proof (Z.div_mod (b + j) 32). pose proof (Z.mod_pos_bound (b + j) 32).
      autorewrite with bits. rewrite (wbit_get ws (b / 32) x) by (done || nia). f_equal. nia. }
  rewrite Hv. simpl. exists (Z.land v (tnodeMask dev)).
  assert (Z.land v (tnodeMask dev) = v mod 2 ^ tnodeWidth dev) as Em
    by (rewrite (mask_is dev Hw), land_mask by lia; done).
  assert (in_w (tnodeWidth dev) (Z.land v (tnodeMask dev))) as Hin by (rewrite Em; apply wrap_in; lia).
  split_and!.
  - rewrite Z.shiftl_mul_pow2 by lia. rewrite u32_small; [done|]. unfold in_w in Hin.
    pose proof (Z.pow_pos_nonneg 2 (chunkGroupBits dev)).
    assert (2 ^ tnodeWidth dev * 2 ^ chunkGroupBits dev <= 2 ^ 32)
      by (rewrite <- Z.pow_add_r by lia; apply Z.pow_le_mono_r; lia). nia.
  - done.
  - intros j Hj. autorewrite with bits. rewrite mask_testbit by done.
    destruct (Z.ltb_spec j (tnodeWidth dev)); [|by rewrite andb_false_r]. rewrite Hbits by lia. by rewrite andb_true_r.
Qed.

Lemma entry_range dev ws pos : tnode_wf dev -> words32 ws -> entries_fit dev ws -> 0 <= pos ->
  get_entry dev ws pos = Some (entry dev ws pos) /\ in_w 32 (entry dev ws pos).
Proof.
  intros Hw Hws Hf Hp. destruct (get_entry_spec dev ws pos Hw Hws Hf Hp) as (v & Hv & Hr & _).
  unfold entry. rewrite Hv. split; [done|]. simpl. pose proof (group_range dev Hw). pose proof (width_range dev Hw).
  unfold in_w in *. pose proof (Z.pow_pos_nonneg 2 (chunkGroupBits dev)).
  assert (2 ^ tnodeWidth dev * 2 ^ chunkGroupBits dev <= 2 ^ 32)
    by (rewrite <- Z.pow_add_r by lia; apply Z.pow_le_mono_r; lia). nia.
Qed.

(** The value that an entry keeps of a chunk: the first chunk of its group. *)
Definition group_base dev (val : Z) : Z :=
  Z.shiftr val (chunkGroupBits dev) mod 2 ^ tnodeWidth dev * 2 ^ chunkGroupBits dev.

Lemma group_base_0 dev : group_base dev 0 = 0.
Proof. unfold group_base. by rewrite Z.shiftr_0_l, Zmod_0_l. Qed.

Lemma entry_ext dev ws ws' pos pos' :
  tnode_wf dev -> words32 ws -> words32 ws' -> entries_fit dev ws -> entries_fit dev ws' -> 0 <= pos -> 0 <= pos' ->
  (forall j, 0 <= j < tnodeWidth dev ->
    wbit ws (Z.land pos 15 * tnodeWidth dev + j) = wbit ws' (Z.land pos' 15 * tnodeWidth dev + j)) ->
  entry dev ws pos = entry dev ws' pos'.
Proof.
  intros Hw H1 H2 F1 F2 Hp Hp' E. unfold entry.
  destruct (get_entry_spec dev ws pos) as (v & -> & _ & Hb); try done.
  destruct (get_entry_spec dev ws' pos') as (v' & -> & _ & Hb'); try done. simpl. f_equal.
  apply Z.bits_inj'. intros j Hj. rewrite Hb, Hb' by done.
  destruct (Z.ltb_spec j (tnodeWidth dev)); [|done]. simpl. apply E. lia.
Qed.

(** Putting an entry changes that entry and no other. *)
Lemma put_entry_entry dev ws pos val :
  tnode_wf dev -> words32 ws -> entries_fit dev ws -> 0 <= pos -> in_w 32 val ->
  exists ws', put_entry dev ws pos val = Some ws' /\ length ws' = length ws /\ words32 ws' /\
    forall pos', 0 <= pos' ->
      entry dev ws' pos' = if pos' mod 16 =? pos mod 16 then group_base dev val else entry dev ws pos'.
Proof.
  intros Hw Hws Hf Hp Hv. destruct (put_entry_spec dev ws pos val) as (ws' & E & L & W & B); try done.
  exists ws'. split_and!; [done..|]. intros pos' Hp'.
  assert (entries_fit dev ws') as Hf' by (unfold entries_fit, blen in *; lia).
  assert (forall x, Z.land x 15 = x mod 16) as M by (intros; by apply (land_mask _ 4)).
  pose proof (width_range dev Hw). pose proof (Z.mod_pos_bound pos 16). pose proof (Z.mod_pos_bound pos' 16).
  destruct (Z.eqb_spec (pos' mod 16) (pos mod 16)) as [Ep|Hne].
  - unfold entry. destruct (get_entry_spec dev ws' pos') as (v & -> & _ & Hb); try done. simpl.
    unfold group_base. f_equal. fold (wrap (tnodeWidth dev) (Z.shiftr val (chunkGroupBits dev))).
    apply Z.bits_inj'. intros j Hj. rewrite Hb, wrap_testbit by (done || lia).
    destruct (Z.ltb_spec j (tnodeWidth dev)); [|done]. simpl. rewrite B by (rewrite M; nia).
    rewrite !M, Ep. cbv zeta. rewrite (proj2 (Z.leb_le _ _)), (proj2 (Z.ltb_lt _ _)) by lia. simpl. f_equal. lia.
  - apply entry_ext; try done. intros j Hj. rewrite B by (rewrite M; nia). cbv zeta. rewrite !M.
    destruct (Z.leb_spec (pos mod 16 * tnodeWidth dev) (pos' mod 16 * tnodeWidth dev + j)),
      (Z.ltb_spec (pos' mod 16 * tnodeWidth dev + j) (pos mod 16 * tnodeWidth dev + tnodeWidth dev)); try done. nia.
Qed.

Lemma entry_mod dev ws pos : 0 <= pos -> entry dev ws (pos mod 16) = entry dev ws pos.
Proof.
  intros Hp. unfold entry, get_entry. unfold YAFFS_TNODES_LEVEL0_MASK.
  change 15 with (2 ^ 4 - 1). rewrite !land_mask by lia. change (2 ^ 4) with 16. by rewrite Z.mod_mod.
Qed.

Lemma wbit_zeros n k : wbit (replicate n 0) k = false.
Proof.
  unfold wbit. destruct (replicate n 0 !! Z.to_nat (k / 32)) eqn:E; [|by rewrite Z.bits_0].
  apply lookup_replicate in E as [-> _]. apply Z.bits_0.
Qed.

(** The entries are all zero when the words are, and only then. *)
Lemma entry_zeros dev n pos :
  tnode_wf dev -> entries_fit dev (replicate n 0) -> 0 <= pos -> entry dev (replicate n 0) pos = 0.
Proof.
  intros Hw Hf Hp. unfold entry. destruct (get_entry_spec dev (replicate n 0) pos) as (v & -> & _ & Hb); try done.
  - apply Forall_replicate. unfold in_w. lia.
  - simpl. replace v with 0; [lia|]. apply Z.bits_inj'. intros j Hj.
    rewrite Hb, wbit_zeros, andb_false_r by done. apply Z.bits_0.
Qed.

Lemma entry_zero_bits dev ws pos j :
  tnode_wf dev -> words32 ws -> entries_fit dev ws -> 0 <= pos -> entry dev ws pos = 0 ->
  0 <= j < tnodeWidth dev -> wbit ws (Z.land pos 15 * tnodeWidth dev + j) = false.
Proof.
  intros Hw Hws Hf Hp E Hj. unfold entry in E.
  destruct (get_entry_spec dev ws pos) as (v & Hv & _ & Hb); try done. rewrite Hv in E. simpl in E.
  pose proof (group_range dev Hw). pose proof (Z.pow_pos_nonneg 2 (chunkGroupBits dev)).
  assert (v = 0) as -> by nia. specialize (Hb j). rewrite Z.bits_0, (proj2 (Z.ltb_lt _ _)) in Hb by lia.
  symmetry. apply Hb. lia.
Qed.

(** Both put and get look only at the geometry of the device. *)
Definition same_widths dev dev' : Prop :=
  tnodeWidth dev' = tnodeWidth dev /\ tnodeMask dev' = tnodeMask dev /\ chunkGroupBits dev' = chunkGroupBits dev.

Lemma same_widths_refl dev : same_widths dev dev.
Proof. done. Qed.

Lemma same_widths_sym dev dev' : same_widths dev dev' -> same_widths dev' dev.
Proof. intros (E1 & E2 & E3). split_and!; congruence. Qed.

Lemma same_widths_trans dev dev' dev'' : same_widths dev dev' -> same_widths dev' dev'' -> same_widths dev dev''.
Proof. intros (E1 & E2 & E3) (F1 & F2 & F3). split_and!; congruence. Qed.

Lemma entry_geometry dev dev' ws pos : same_widths dev dev' -> entry dev' ws pos = entry dev ws pos.
Proof. intros (E1 & E2 & E3). unfold entry, get_entry. by rewrite E1, E2, E3. Qed.

Lemma tnode_wf_geometry dev dev' : same_widths dev dev' -> tnode_wf dev -> tnode_wf dev'.
Proof. intros (E1 & E2 & E3) []. constructor; rewrite ?E1, ?E2, ?E3; done. Qed.

End Entries.

(** ** Geometry *)

Lemma tst_1 x : tst x 1 = Z.odd x.
Proof.
  unfold tst, truthy. change 1 with (2 ^ 1 - 1) at 1. rewrite land_mask by lia. change (2 ^ 1) with 2.
  rewrite Zmod_odd. by destruct (Z.odd x).
Qed.

Lemma shiftr_1_odd x : x = 2 * Z.shiftr x 1 + b2z (Z.odd x).
Proof. rewrite <- Z.div2_spec. pose proof (Z.div2_odd x). by destruct (Z.odd x). Qed.

(** [Shifts] takes out the powers of two. *)
Lemma shifts_loop_spec n x s : 0 < x < 2 ^ (Z.of_nat n + 1) ->
  exists k, shifts_loop n x s = Some (s + k) /\ 0 <= k /\ exists q, Z.Odd q /\ x = 2 ^ k * q.
Proof.
  revert x s. induction n as [|n IH]; intros x s Hx; simpl; rewrite tst_1; pose proof (shiftr_1_odd x) as E;
    destruct (Z.odd x) eqn:Ho; simpl in E.
  - exists 0. rewrite Z.add_0_r. split_and!; [done..|]. exists x. rewrite <- Z.odd_spec, Z.pow_0_r. split; [done|lia].
  - simpl in Hx. lia.
  - exists 0. rewrite Z.add_0_r. split_and!; [done..|]. exists x. rewrite <- Z.odd_spec, Z.pow_0_r. split; [done|lia].
  - destruct (IH (Z.shiftr x 1) (s + 1)) as (k & -> & Hk & q & Hq & Eq).
    { replace (Z.of_nat (S n) + 1) with (Z.succ (Z.of_nat n + 1)) in Hx by lia. rewrite Z.pow_succ_r in Hx by lia. lia. }
    exists (k + 1). split; [f_equal; lia|]. split; [lia|]. exists q. split; [done|].
    rewrite Z.pow_add_r by lia. lia.
Qed.

Lemma Shifts_spec x : 0 < x < 2 ^ 32 ->
  exists k, Shifts x = Some k /\ 0 <= k /\ exists q, Z.Odd q /\ x = 2 ^ k * q.
Proof.
  intros Hx. unfold Shifts. replace (x =? 0) with false by lia. apply (shifts_loop_spec 32 x 0). simpl in *. lia.
Qed.

Lemma shifts_ge_loop_spec n x e s : 0 < x < 2 ^ (Z.of_nat n + 1) ->
  exists e', shifts_ge_loop n x e s = Some (e', s + Z.log2 x) /\ e <= e' /\ (e' = e <-> x = 2 ^ Z.log2 x).
Proof.
  revert x e s. induction n as [|n IH]; intros x e s Hx.
  - assert (x = 1) as -> by (simpl in Hx; lia). exists e. simpl. rewrite Z.add_0_r. split_and!; done.
  - simpl. destruct (Z.ltb_spec 1 x) as [H1|H1].
    + rewrite tst_1. pose proof (shiftr_1_odd x) as E.
      assert (1 <= Z.shiftr x 1) by (destruct (Z.odd x); simpl in E; lia).
      assert (Z.log2 x = Z.log2 (Z.shiftr x 1) + 1) as El.
      { rewrite E at 1. destruct (Z.odd x); simpl; [rewrite Z.log2_succ_double by lia|rewrite Z.add_0_r, Z.log2_double by lia]; lia. }
      destruct (IH (Z.shiftr x 1) (if Z.odd x then e + 1 else e) (s + 1)) as (e' & -> & He & Hiff).
      { replace (Z.of_nat (S n) + 1) with (Z.succ (Z.of_nat n + 1)) in Hx by lia. rewrite Z.pow_succ_r in Hx by lia.
        destruct (Z.odd x); simpl in E; lia. }
      exists e'. rewrite El. split; [f_equal; f_equal; lia|].
      pose proof (Z.log2_nonneg (Z.shiftr x 1)). rewrite Z.pow_add_r by lia. change (2 ^ 1) with 2.
      destruct (Z.odd x); simpl in E; [|split; [lia|]].
      * split; [lia|]. split; intros; lia.
      * rewrite Hiff. lia.
    + assert (x = 1) as -> by lia. exists e. simpl. rewrite Z.add_0_r. split_and!; done.
Qed.

(** [ShiftsGE] is the logarithm, rounded up. *)
Lemma ShiftsGE_spec x : 0 < x < 2 ^ 32 -> ShiftsGE x = Some (Z.log2_up x).
Proof.
  intros Hx. unfold ShiftsGE.
  destruct (shifts_ge_loop_spec 32 x 0 0) as (e & -> & He & Hiff); [simpl in *; lia|]. simpl. f_equal.
  unfold truthy. destruct (Z.eqb_spec e 0) as [->|Hne]; simpl.
  - assert (x = 2 ^ Z.log2 x) as E by (by apply Hiff). rewrite E at 2.
    rewrite Z.log2_up_pow2; [done|apply Z.log2_nonneg].
  - assert (x <> 2 ^ Z.log2 x) by (rewrite <- Hiff; lia).
    pose proof (Z.log2_spec x ltac:(lia)) as [? ?]. symmetry. apply Z.log2_up_unique; [pose proof (Z.log2_nonneg x); lia|].
    rewrite Z.add_0_l, Z.add_1_r, Z.pred_succ. split; [lia|by apply Z.lt_le_incl].
Qed.

Section Mount.
Context {mtd : Type}.
Implicit Types dev : yaffs_Device mtd.

(** The address as chunk and offset. *)
Lemma AddrToChunk_spec dev addr :
  0 < nDataBytesPerChunk dev < 2 ^ 31 -> 0 <= addr < 2 ^ 31 ->
  exists dev', chunk_geometry dev = Some dev' /\
    yaffs_AddrToChunk dev' addr = (addr / nDataBytesPerChunk dev, addr mod nDataBytesPerChunk dev).
Proof.
  intros Hn Ha. unfold chunk_geometry.
  destruct (Shifts_spec (nDataBytesPerChunk dev)) as (k & -> & Hk & q & Hq & E); [lia|]. simpl.
  eexists. split; [done|]. unfold yaffs_AddrToChunk. simpl.
  change (nDataBytesPerChunk (_ <| _ ::= _ |>)) with (nDataBytesPerChunk dev).
  set (n := nDataBytesPerChunk dev) in *. clearbody n.
  pose proof (Z.pow_pos_nonneg 2 k). assert (0 < q) by nia.
  assert (Z.shiftr n k = q) as -> by (rewrite Z.shiftr_div_pow2 by lia; subst; rewrite Z.mul_comm; apply Z.div_mul; lia).
  rewrite Z.shiftl_1_l, land_mask, Z.shiftr_div_pow2 by lia.
  assert (0 <= addr / 2 ^ k <= addr) by (split; [apply Z.div_pos; lia|apply Z.div_le_upper_bound; nia]).
  assert (0 <= addr / n <= addr) by (split; [apply Z.div_pos; lia|apply Z.div_le_upper_bound; nia]).
  rewrite (u32_small (addr / 2 ^ k)), s32_small by lia. pose proof (Z.mod_pos_bound addr n).
  destruct (Z.eqb_spec q 1) as [->|].
  - rewrite Z.mul_1_r in E. subst n. rewrite u32_small by lia. done.
  - rewrite u32_small by lia. rewrite Z.div_div, <- E by lia. rewrite s32_small by lia. f_equal.
    rewrite Z.mod_eq in * by lia. rewrite Z.mul_comm. rewrite u32_small by lia. done.
Qed.

(** The width of the tnodes that mounting chooses is enough for all chunks. *)
Lemma tnode_geometry_spec dev (w : bool) :
  let n := nChunksPerBlock dev * (internalEndBlock dev + 1) in
  0 < n <= 2 ^ 30 ->
  exists ok dev', tnode_geometry dev w = Some (ok, dev') /\ tnode_wf dev' /\
    chunkGroupSize dev' = 2 ^ chunkGroupBits dev' /\ n <= 2 ^ (tnodeWidth dev' + chunkGroupBits dev') /\
    (w = false -> chunkGroupBits dev' = 0) /\ (ok = true <-> chunkGroupSize dev' <= nChunksPerBlock dev) /\
    nChunksPerBlock dev' = nChunksPerBlock dev /\ internalEndBlock dev' = internalEndBlock dev.
Proof.
  intros n Hn. unfold tnode_geometry. fold n. rewrite u32_small by lia. rewrite ShiftsGE_spec by lia.
  pose proof (Z.log2_up_le_pow2 n 30 ltac:(lia)) as Hle. assert (Z.log2_up n <= 30) by lia.
  pose proof (Z.log2_up_nonneg n). clear Hle.
  assert (n <= 2 ^ Z.log2_up n) as Hup by (destruct (Z.eq_dec n 1) as [->|]; [done|apply Z.log2_up_spec; lia]).
  set (b := Z.log2_up n) in *. clearbody b. simpl. rewrite tst_1.
  set (b' := if negb w then if Z.odd b then b + 1 else b else b).
  set (width := if w then 16 else if b' <? 16 then 16 else b').
  assert (0 <= b' <= 30 /\ b <= b' /\ Z.Even width /\ 16 <= width <= 30 /\ (w = false -> b' <= width)) as (? & ? & ? & ? & Hnarrow).
  { assert (Z.odd b = true -> b <> 30) by (intros Ho ->; done).
    assert (Z.Even b' \/ w = true) as He.
    { unfold b'. destruct w; [by right|left; simpl]. rewrite <- Z.even_spec. destruct (Z.odd b) eqn:Ho.
      - by rewrite Z.even_add, <- Z.negb_odd, Ho.
      - by rewrite <- Z.negb_odd, Ho. }
    unfold width, b' in *. destruct w; simpl in *.
    - split_and!; try lia. by exists 8.
    - destruct (Z.odd b); simpl in *; (case_match; split_and!; try lia; [by exists 8|destruct He; done]). }
  set (g := if b' <=? width then 0 else b' - width).
  assert (0 <= g <= 14 /\ b' <= width + g <= 30 /\ (w = false -> g = 0)) as (? & ? & ?).
  { unfold g. destruct (Z.leb_spec b' width); split_and!; try lia. intros Hwf. specialize (Hnarrow Hwf). lia. }
  set (dev1 := dev <| tnodeWidth := width |> <| tnodeMask := 2 ^ width - 1 |> <| chunkGroupBits := g |>
                   <| chunkGroupSize := 2 ^ g |>).
  exists (negb (nChunksPerBlock dev <? 2 ^ g)), dev1.
  pose proof (Z.pow_le_mono_r 2 g 14). pose proof (Z.pow_lt_mono_r 2 width 32).
  pose proof (Z.pow_pos_nonneg 2 width). split.
  - transitivity (Some (negb (nChunksPerBlock dev <? u16 (Z.shiftl 1 g)),
      dev <| tnodeWidth := width |> <| tnodeMask := u32 (Z.shiftl 1 width - 1) |> <| chunkGroupBits := g |>
                   <| chunkGroupSize := u16 (Z.shiftl 1 g) |>)).
    + unfold g, width, b'. destruct w; [done|]. simpl. rewrite (proj2 (Z.leb_gt 32 _)); [done|].
      unfold width, b' in *. simpl in *. lia.
    + rewrite !Z.shiftl_1_l, u32_small by lia. unfold u16. rewrite wrap_small by (unfold in_w; lia). done.
  - split; [constructor; simpl; try done; lia|]. simpl. split_and!; try done.
    + transitivity (2 ^ b); [done|]. apply Z.pow_le_mono_r; lia.
    + rewrite negb_true_iff, Z.ltb_ge. done.
Qed.

(** The group of a chunk of the device. *)
Lemma group_base_spec dev c :
  tnode_wf dev -> 0 <= c < 2 ^ (tnodeWidth dev + chunkGroupBits dev) ->
  group_base dev c <= c < group_base dev c + 2 ^ chunkGroupBits dev.
Proof.
  intros Hw Hc. pose proof (group_range dev Hw). pose proof (width_range dev Hw).
  unfold group_base. rewrite Z.shiftr_div_pow2 by lia. rewrite Z.pow_add_r in Hc by lia.
  pose proof (Z.pow_pos_nonneg 2 (chunkGroupBits dev)).
  rewrite Z.mod_small by (split; [apply Z.div_pos; lia|apply Z.div_lt_upper_bound; lia]).
  pose proof (Z.div_mod c (2 ^ chunkGroupBits dev)). pose proof (Z.mod_pos_bound c (2 ^ chunkGroupBits dev)). lia.
Qed.

End Mount.
