(* ===== verification/YaffsTnodesPool.v ===== *)
(** * The pool of tnodes

    The tnodes of a device that no file uses: the list that is linked through the first word
    of each tnode, and the contract of the allocator that it grows from.  The
    relation [transfers] describes an operation that works on some tnodes and leaves the
    tnodes of everybody else alone. *)

From S2P Require Import Prelude NandEcc YaffsTags YaffsNand YaffsBlocks YaffsTnodes YaffsTnodesFacts.

Local Open Scope Z_scope.

(** What kmalloc promises: a block is not at address 0, and does not overlap the ones in use; there is room for
    some memory, of which a block takes as much as it is long, and nothing else takes any. *)
Class Allocator (YMALLOC : tnode_memory -> Z -> Z) := {
  ymalloc_pos : forall m n, 0 <= YMALLOC m n;
  ymalloc_fresh : forall m n p k, YMALLOC m n <> 0 -> blocks m !! p = Some k ->
    YMALLOC m n + n <= p \/ p + k <= YMALLOC m n;
  ymalloc_32 : forall m n, YMALLOC m n <> 0 -> YMALLOC m n + n <= 2 ^ 32;
  ymalloc_room : tnode_memory -> Z;
  ymalloc_grants : forall m n, 0 < n <= ymalloc_room m -> YMALLOC m n <> 0;
  ymalloc_takes : forall m m' n, 0 < n -> YMALLOC m n <> 0 -> blocks m' = <[YMALLOC m n := n]> (blocks m) ->
    ymalloc_room m - n <= ymalloc_room m';
  ymalloc_same : forall m m', blocks m' = blocks m -> ymalloc_room m' = ymalloc_room m
}.

(** ** Moving tnodes between owners *)

Abbreviation store := (gmap Z (list Z)).

(** From the tnodes [U] to the tnodes [U']: no tnode is lost, the ones outside [U] stay as
    they are, and the ones that come in are new. *)
Record transfers (t : store) (U : gset Z) (t' : store) (U' : gset Z) : Prop := {
  transfers_grow : U ⊆ U';
  transfers_dom : dom t' = dom t ∪ U';
  transfers_frame : forall a, a ∈ dom t -> a ∉ U -> t' !! a = t !! a /\ a ∉ U'
}.

Lemma transfers_refl t U : U ⊆ dom t -> transfers t U t U.
Proof. intros. constructor; [done|set_solver|done]. Qed.

Lemma transfers_trans t U t' U' t'' U'' : transfers t U t' U' -> transfers t' U' t'' U'' -> transfers t U t'' U''.
Proof.
  intros [G1 D1 F1] [G2 D2 F2]. constructor.
  - by transitivity U'.
  - rewrite D2, D1. clear F1 F2 D1 D2. set_solver.
  - intros a Ha Hu. destruct (F1 a Ha Hu) as [E1 N1]. destruct (F2 a) as [E2 N2]; [|done|].
    { rewrite D1. apply elem_of_union. by left. }
    split; [congruence|done].
Qed.

(** The rule of frames: tnodes [R] that somebody else owns. *)
Lemma transfers_more t U t' U' R : transfers t U t' U' -> R ⊆ dom t -> transfers t (R ∪ U) t' (R ∪ U').
Proof.
  intros [G D F] HR. constructor.
  - clear F D. set_solver.
  - rewrite D. clear F D. set_solver.
  - intros a Ha Hu. apply not_elem_of_union in Hu as [Hu1 Hu2]. destruct (F a Ha Hu2) as [E N]. split; [done|].
    by apply not_elem_of_union.
Qed.

(** A tnode of [U] is overwritten. *)
Lemma transfers_insert t U t' U' a ws : transfers t U t' U' -> a ∈ U' -> transfers t U (<[a := ws]> t') U'.
Proof.
  intros [G D F] Ha. constructor; [done|rewrite dom_insert_L, D; clear F D; set_solver|].
  intros b Hb Hu. destruct (F b Hb Hu) as [E N]. split; [|done]. rewrite lookup_insert_ne; [done|]. by intros ->.
Qed.

Lemma transfers_eq t U t' U' V V' : transfers t U t' U' -> U = V -> U' = V' -> transfers t V t' V'.
Proof. by intros ? <- <-. Qed.

Lemma transfers_agree t U t' U' R a : transfers t U t' U' -> R ⊆ dom t -> R ## U -> a ∈ R -> t' !! a = t !! a.
Proof. intros [_ _ F] H1 H2 Ha. apply F; set_solver. Qed.

Lemma transfers_disjoint t U t' U' R : transfers t U t' U' -> R ⊆ dom t -> R ## U -> R ## U'.
Proof. intros [_ _ F] H1 H2 a Ha. apply F; set_solver. Qed.

Section Counters.
Context {mtd : Type}.
Implicit Types dev : yaffs_Device mtd.

(** The functions on tnodes change only three fields of a device. *)
Definition tnode_counters dev dev' : Prop :=
  exists a b c, dev' = dev <| nFreeTnodes := a |> <| nTnodesCreated := b |> <| nCheckpointBlocksRequired := c |>.

End Counters.

(** Solves it for a device given by assignments to these fields. *)
Ltac counters :=
  match goal with
  | |- tnode_counters _ ?d => exists (nFreeTnodes d), (nTnodesCreated d), (nCheckpointBlocksRequired d); reflexivity
  end.

Section CountersFacts.
Context {mtd : Type}.
Implicit Types dev : yaffs_Device mtd.

Lemma counters_refl dev : tnode_counters dev dev.
Proof. destruct dev. counters. Qed.

Lemma counters_trans dev dev' dev'' : tnode_counters dev dev' -> tnode_counters dev' dev'' -> tnode_counters dev dev''.
Proof. intros (a & b & c & ->) (a' & b' & c' & ->). by exists a', b', c'. Qed.

Lemma counters_sym dev dev' : tnode_counters dev dev' -> tnode_counters dev' dev.
Proof. intros (a & b & c & ->). destruct dev. counters. Qed.

Lemma counters_geometry dev dev' : tnode_counters dev dev' -> same_widths dev dev'.
Proof. intros (a & b & c & ->). done. Qed.

Lemma counters_size dev dev' : tnode_counters dev dev' -> tnode_size dev' = tnode_size dev.
Proof. intros (a & b & c & ->). done. Qed.

End CountersFacts.

Section Pool.
Context {mtd : Type}.
Implicit Types dev : yaffs_Device mtd.

(** The words of a tnode. *)
Record tnode_ok dev (ws : list Z) : Prop := {
  ok_words : words32 ws;
  ok_size : blen ws = tnode_size dev / 4
}.

Lemma tnode_size_range dev : tnode_wf dev -> 8 <= tnode_size dev / 4 /\ 16 * tnodeWidth dev <= 32 * (tnode_size dev / 4).
Proof.
  intros Hw. pose proof (width_range dev Hw). destruct (width_even dev Hw) as [h Hh].
  unfold tnode_size, YAFFS_NTNODES_LEVEL0, sizeof_yaffs_Tnode. rewrite Hh.
  replace (2 * h * 16 / 8) with (h * 4) by (replace (2 * h * 16) with (h * 4 * 8) by lia; by rewrite Z.div_mul).
  case_match; [|rewrite Z.div_mul by lia]; [|lia]. change (32 / 4) with 8. lia.
Qed.

Lemma tnode_ok_fit dev ws : tnode_wf dev -> tnode_ok dev ws -> entries_fit dev ws.
Proof. intros Hw [_ E]. unfold entries_fit. rewrite E. by apply tnode_size_range. Qed.

Lemma tnode_ok_word dev ws i : tnode_wf dev -> tnode_ok dev ws -> 0 <= i < 8 ->
  exists x, get ws i = Some x /\ in_w 32 x.
Proof.
  intros Hw [W E] Hi. pose proof (tnode_size_range dev Hw).
  destruct (get_is_Some ws i) as [x Hx]; [lia|]. exists x. split; [done|]. by eapply words32_get.
Qed.

Lemma tnode_ok_insert dev ws i v : tnode_ok dev ws -> in_w 32 v -> tnode_ok dev (<[i := v]> ws).
Proof. intros [W E] Hv. constructor; [by apply words32_insert|]. unfold blen in *. by rewrite length_insert. Qed.

Definition zero_tnode dev : list Z := replicate (Z.to_nat (tnode_size dev / 4)) 0.

Lemma words_of_zero n : words_of n (fun _ => 0) = replicate (Z.to_nat (n / 4)) 0.
Proof.
  unfold words_of. generalize (Z.to_nat (n / 4)). intros k. generalize 0%nat. induction k as [|k IH]; intros j; simpl; [done|].
  f_equal. apply IH.
Qed.

(** [memcpy] of everything. *)
Lemma copy_whole {A} (d src : list A) : length src = length d -> copy_bytes d 0 src 0 (blen d) = Some src.
Proof.
  intros E. unfold blen. rewrite copy_Some by (unfold blen; lia). f_equal. rewrite drop_0, take_ge by lia.
  apply list_eq. intros i. destruct (decide (i < length d)%nat).
  - rewrite list_lookup_inserts by lia. f_equal. lia.
  - rewrite list_lookup_inserts_ge, !lookup_ge_None_2; [done|lia..].
Qed.

(** Clearing a tnode. *)
Lemma clear_tnode dev ws : tnode_ok dev ws ->
  copy_bytes ws 0 (words_of (tnode_size dev) (fun _ => 0)) 0 (tnode_size dev / 4) = Some (zero_tnode dev).
Proof.
  intros [_ E]. rewrite words_of_zero. fold (zero_tnode dev). rewrite <- E. apply copy_whole.
  unfold zero_tnode, blen in *. rewrite length_replicate. lia.
Qed.

Lemma zero_tnode_ok dev : tnode_wf dev -> tnode_ok dev (zero_tnode dev).
Proof.
  intros Hw. pose proof (tnode_size_range dev Hw). constructor.
  - apply Forall_replicate. unfold in_w. lia.
  - unfold blen, zero_tnode. rewrite length_replicate. lia.
Qed.

Lemma zero_tnode_word dev i : tnode_wf dev -> 0 <= i < 8 -> get (zero_tnode dev) i = Some 0.
Proof.
  intros Hw Hi. pose proof (tnode_size_range dev Hw). rewrite get_nonneg by lia. apply lookup_replicate. split; [done|lia].
Qed.

Lemma zero_tnode_entry dev pos : tnode_wf dev -> 0 <= pos -> entry dev (zero_tnode dev) pos = 0.
Proof. intros Hw Hp. apply entry_zeros; try done. apply tnode_ok_fit; [done|]. by apply zero_tnode_ok. Qed.

(** A list of tnodes linked through their first words. *)
Fixpoint chain dev (t : store) (p : Z) (l : list Z) : Prop :=
  match l with
  | [] => p = 0
  | a :: l' => p = a /\ 0 < a < 2 ^ 32 /\ exists ws n, t !! a = Some ws /\ tnode_ok dev ws /\ get ws 0 = Some n /\ chain dev t n l'
  end.

Lemma chain_frame dev t t' p l : chain dev t p l -> (forall a, a ∈ l -> t' !! a = t !! a) -> chain dev t' p l.
Proof.
  revert p. induction l as [|a l IH]; intros p; simpl; [done|].
  intros (-> & Ha & ws & n & Hw & Hok & Hg & Hc) E. split; [done|]. split; [done|]. exists ws, n.
  split; [rewrite E; [done|left]|]. split; [done|]. split; [done|]. apply IH; [done|]. intros b Hb. apply E. by right.
Qed.

Lemma chain_dom dev t p l a : chain dev t p l -> a ∈ l -> a ∈ dom t /\ a <> 0.
Proof.
  revert p. induction l as [|b l IH]; intros p; simpl; [by intros _ ?%elem_of_nil|].
  intros (-> & Hb & ws & n & Hw & _ & _ & Hc) [->|Ha]%elem_of_cons; [|by eapply IH].
  split; [|lia]. by apply elem_of_dom_2 in Hw.
Qed.

Lemma chain_32 dev t p l : chain dev t p l -> in_w 32 p.
Proof. destruct l as [|a l]; simpl; [intros ->; done|]. intros (-> & ? & _). unfold in_w. lia. Qed.

Lemma tnode_ok_widths dev dev' ws : same_widths dev dev' -> tnode_ok dev ws -> tnode_ok dev' ws.
Proof. intros (E & _) [W Es]. constructor; [done|]. rewrite Es. unfold tnode_size. by rewrite E. Qed.

Lemma chain_widths dev dev' t p l : same_widths dev dev' -> chain dev t p l -> chain dev' t p l.
Proof.
  intros Hc. revert p. induction l as [|a l IH]; intros p; simpl; [done|].
  intros (-> & Ha & ws & n & Hw & Hok & Hg & Hch). split; [done|]. split; [done|]. exists ws, n.
  split_and!; [done|by eapply tnode_ok_widths|done|by apply IH].
Qed.

Lemma tnode_ok_counters dev dev' ws : tnode_counters dev dev' -> tnode_ok dev ws -> tnode_ok dev' ws.
Proof. intros Hc. by apply tnode_ok_widths, counters_geometry. Qed.

Lemma chain_counters dev dev' t p l : tnode_counters dev dev' -> chain dev t p l -> chain dev' t p l.
Proof. intros Hc. by apply chain_widths, counters_geometry. Qed.

(** The tnode at [a] lies in a block of the allocator. *)
Definition in_a_block (m : tnode_memory) (size a : Z) : Prop :=
  exists p n, blocks m !! p = Some n /\ p <= a /\ a + size <= p + n.

(** The invariant of the pool, whose free tnodes are [free]. *)
Record pool dev (m : tnode_memory) (free : list Z) : Prop := {
  pool_wf : tnode_wf dev;
  pool_chain : chain dev (tnodes m) (freeTnodes m) free;
  pool_nodup : NoDup free;
  pool_count : nFreeTnodes dev = Z.of_nat (length free);
  pool_created : nTnodesCreated dev = Z.of_nat (size (dom (tnodes m)));
  pool_blocks : forall a, a ∈ dom (tnodes m) -> in_a_block m (tnode_size dev) a
}.

(** ** Making tnodes *)

(** The addresses of [n] tnodes of [size] bytes from [a]. *)
Fixpoint pool_addrs (n : nat) (a size : Z) : list Z :=
  match n with O => [] | S n' => a :: pool_addrs n' (a + size) size end.

Lemma elem_of_pool_addrs n a size x : x ∈ pool_addrs n a size <-> exists i, 0 <= i < Z.of_nat n /\ x = a + i * size.
Proof.
  revert a. induction n as [|n IH]; intros a; simpl.
  - rewrite elem_of_nil. split; [done|]. intros (i & ? & _). lia.
  - rewrite elem_of_cons, IH. split.
    + intros [->|(i & Hi & ->)]; [exists 0; lia|exists (i + 1); lia].
    + intros (i & Hi & ->). destruct (decide (i = 0)) as [->|]; [left; lia|right; exists (i - 1); lia].
Qed.

Lemma pool_addrs_length n a size : length (pool_addrs n a size) = n.
Proof. revert a. induction n; intros; simpl; auto. Qed.

Lemma pool_addrs_nodup n a size : 0 < size -> NoDup (pool_addrs n a size).
Proof.
  intros Hs. revert a. induction n as [|n IH]; intros a; simpl; [constructor|]. constructor; [|apply IH].
  rewrite elem_of_pool_addrs. intros (i & Hi & E). nia.
Qed.

Lemma pool_addrs_last n a size : pool_addrs (S n) a size = pool_addrs n a size ++ [a + Z.of_nat n * size].
Proof.
  revert a. induction n as [|n IH]; intros a; [simpl; f_equal; lia|].
  change (pool_addrs (S (S n)) a size) with (a :: pool_addrs (S n) (a + size) size). rewrite IH. simpl. do 2 f_equal. f_equal. lia.
Qed.

Lemma fresh_tnodes_lookup u n a size (t : store) x : 0 < size ->
  fresh_tnodes u n a size t !! x =
  if decide (x ∈ pool_addrs n a size)
  then Some (words_of size (fun i => u32 (u (x + 4 * Z.of_nat i)))) else t !! x.
Proof.
  intros Hs. revert a. induction n as [|n IH]; intros a; cbn [fresh_tnodes pool_addrs].
  - rewrite decide_False; [done|]. apply not_elem_of_nil.
  - destruct (decide (x = a)) as [->|Hne].
    + rewrite lookup_insert_eq, decide_True; [done|left].
    + rewrite lookup_insert_ne, IH by done. destruct (decide (x ∈ pool_addrs n (a + size) size)).
      * rewrite decide_True; [done|by right].
      * rewrite decide_False; [done|]. by intros [?|?]%elem_of_cons.
Qed.

Lemma words_of_ok dev f : tnode_wf dev -> (forall i, in_w 32 (f i)) -> tnode_ok dev (words_of (tnode_size dev) f).
Proof.
  intros Hw Hf. pose proof (tnode_size_range dev Hw). constructor.
  - apply Forall_fmap, Forall_true. done.
  - unfold blen, words_of. rewrite length_fmap, length_seq. lia.
Qed.

(** Assigning to the first word of a tnode. *)
Lemma set_word_Some dev m tn i v ws :
  tnode_wf dev -> tnodes m !! tn = Some ws -> tnode_ok dev ws -> 0 <= i < 8 ->
  set_word m tn i v = Some (m <| tnodes ::= <[tn := <[Z.to_nat i := v]> ws]> |>).
Proof.
  intros Hw Hl [_ E] Hi. pose proof (tnode_size_range dev Hw). unfold set_word. rewrite Hl. simpl.
  rewrite set_Some by lia. done.
Qed.

(** The tnodes at [n] addresses from [a] are linked to one another. *)
Definition linked dev (t : store) (n : nat) (a size : Z) : Prop :=
  forall x, x ∈ pool_addrs n a size -> exists ws, t !! x = Some ws /\ tnode_ok dev ws /\ get ws 0 = Some (x + size).

Lemma get_insert_eq ws i v : 0 <= i < blen ws -> get (<[Z.to_nat i := v]> ws) i = Some v.
Proof. unfold blen. intros. rewrite get_nonneg by lia. apply list_lookup_insert_eq. lia. Qed.

Lemma get_insert_ne ws i j v : 0 <= i -> i <> j -> get (<[Z.to_nat i := v]> ws) j = get ws j.
Proof.
  intros Hi Hj. unfold get. case_match; [|done]. apply list_lookup_insert_ne. lia.
Qed.

Lemma hook_loop_spec dev n m mem size i :
  tnode_wf dev -> 0 < size -> 0 <= mem + i * size -> mem + i * size + Z.of_nat (S n) * size <= 2 ^ 32 ->
  (forall x, x ∈ pool_addrs n (mem + i * size) size -> exists ws, tnodes m !! x = Some ws /\ tnode_ok dev ws) ->
  exists t, hook_loop n m mem size i = Some (m <| tnodes := t |>) /\ linked dev t n (mem + i * size) size /\
    dom t = dom (tnodes m) /\ forall x, x ∉ pool_addrs n (mem + i * size) size -> t !! x = tnodes m !! x.
Proof.
  intros Hw Hs. revert m i. induction n as [|n IH]; intros m i H0 H32 Hok; simpl.
  - exists (tnodes m). split; [by destruct m|]. split; [|done]. intros x Hx%elem_of_nil. done.
  - destruct (Hok (mem + i * size)) as (ws & Hl & Ho); [left|].
    rewrite (set_word_Some dev m _ 0 _ ws) by (done || lia). simpl.
    assert (mem + (i + 1) * size = mem + i * size + size) as E by lia.
    set (ws' := <[_ := _]> ws). set (m1 := m <| tnodes ::= _ |>).
    assert (tnode_ok dev ws') as Hok'.
    { apply tnode_ok_insert; [done|]. unfold in_w. lia. }
    assert (get ws' 0 = Some (mem + i * size + size)) as Hg.
    { unfold ws'. rewrite E. apply (get_insert_eq ws 0). destruct Ho as [_ ->]. pose proof (tnode_size_range dev Hw). lia. }
    assert (forall x, x ∈ pool_addrs n (mem + i * size + size) size -> x <> mem + i * size) as Hne.
    { intros x. rewrite elem_of_pool_addrs. intros (j & Hj & ->). nia. }
    destruct (IH m1 (i + 1)) as (t & -> & Hlk & Hd & Hf).
    + lia.
    + lia.
    + rewrite E. intros x Hx. destruct (Hok x) as (w & Hw' & Hwo); [by right|]. exists w. split; [|done].
      simpl. rewrite lookup_insert_ne; [done|]. by apply not_eq_sym, Hne.
    + exists t. rewrite E in Hlk, Hf. split; [done|]. split_and!.
      * intros x [->|Hx]%elem_of_cons; [|by apply Hlk]. exists ws'. split; [|done]. rewrite Hf.
        -- simpl. apply lookup_insert_eq.
        -- intros Hx. by apply (Hne _ Hx).
      * rewrite Hd. simpl. rewrite dom_insert_L. apply elem_of_dom_2 in Hl. set_solver.
      * intros x Hx. apply not_elem_of_cons in Hx as [Hx1 Hx2]. rewrite Hf by done. simpl. by rewrite lookup_insert_ne.
Qed.

(** A linked run of tnodes in front of a chain. *)
Lemma linked_chain dev t n a size l :
  linked dev t n a size -> (forall x, x ∈ pool_addrs n a size -> 0 < x < 2 ^ 32) -> chain dev t (a + Z.of_nat n * size) l ->
  chain dev t a (pool_addrs n a size ++ l).
Proof.
  revert a. induction n as [|n IH]; intros a Hl H0 Hc; simpl.
  - by rewrite Z.mul_0_l, Z.add_0_r in Hc.
  - destruct (Hl a) as (ws & Hw & Hok & Hg); [left|]. split; [done|]. split; [apply H0; left|].
    exists ws, (a + size). split_and!; [done..|]. apply IH.
    + intros x Hx. apply Hl. by right.
    + intros x Hx. apply H0. by right.
    + by replace (a + size + Z.of_nat n * size) with (a + Z.of_nat (S n) * size) by lia.
Qed.

Lemma tnodes_insert_id m p ws : tnodes m !! p = Some ws -> m <| tnodes ::= <[p := ws]> |> = m.
Proof.
  destruct m as [t b n fr al]. simpl. intros H. change (mk_tm (<[p := ws]> t) b n fr al = mk_tm t b n fr al).
  by rewrite insert_id.
Qed.

(** A tnode that is not free is overwritten. *)
Lemma pool_insert dev m free p ws :
  pool dev m free -> p ∈ dom (tnodes m) -> p ∉ free -> pool dev (m <| tnodes ::= <[p := ws]> |>) free.
Proof.
  intros [W C N K Cr B] Hp Hf. assert (dom (<[p := ws]> (tnodes m)) = dom (tnodes m)) as Hd by (rewrite dom_insert_L; set_solver).
  constructor; try done; simpl tnodes; rewrite ?Hd; try done.
  apply chain_frame with (tnodes m); [done|]. intros a Ha. rewrite lookup_insert_ne; [done|]. by intros <-.
Qed.

(** The pool looks only at the widths and at the two counters. *)
Lemma pool_same dev dev' m free :
  same_widths dev dev' -> nFreeTnodes dev' = nFreeTnodes dev -> nTnodesCreated dev' = nTnodesCreated dev ->
  pool dev m free -> pool dev' m free.
Proof.
  intros Hc E1 E2 [W C N K Cr B]. constructor; try done.
  - by eapply tnode_wf_geometry.
  - by eapply chain_widths.
  - by rewrite E1.
  - by rewrite E2.
  - intros a Ha. destruct Hc as (E & _). unfold tnode_size. rewrite E. by apply B.
Qed.

Section Allocation.
Context (YMALLOC : tnode_memory -> Z -> Z) {Alloc : Allocator YMALLOC} (uninitialised : Z -> Z).

Lemma malloc_block_frame m n size :
  let m' := (malloc_block YMALLOC m n size).2 in
  tnodes m' = tnodes m /\ freeTnodes m' = freeTnodes m /\ allocatedTnodeList m' = allocatedTnodeList m.
Proof. unfold malloc_block. simpl. by destruct (truthy _). Qed.

Lemma malloc_room m n size : 0 < Z.of_nat n * size ->
  ymalloc_room m - Z.of_nat n * size <= ymalloc_room (malloc_block YMALLOC m n size).2 /\
  (YMALLOC m (Z.of_nat n * size) = 0 -> ymalloc_room (malloc_block YMALLOC m n size).2 = ymalloc_room m).
Proof.
  intros Hn. unfold malloc_block, truthy. simpl. destruct (Z.eqb_spec (YMALLOC m (Z.of_nat n * size)) 0) as [E|E]; simpl.
  - rewrite (ymalloc_same m (m <| mallocs ::= Z.succ |>)) by done. split; [lia|done].
  - split; [by eapply ymalloc_takes|done].
Qed.

(** The memory that a bunch of tnodes takes. *)
Definition batch dev : Z := YAFFS_ALLOCATION_NTNODES * tnode_size dev + sizeof_yaffs_TnodeList.

(** Enough memory for [n] tnodes, and [r] bytes for others. *)
Definition enough dev m (free : list Z) (n : nat) (r : Z) : Prop :=
  0 <= r /\ Z.of_nat (n - length free) * batch dev + r <= ymalloc_room m.

(** The blocks that were allocated are still there. *)
Definition grown m m' : Prop := forall size a, 0 < size -> in_a_block m size a -> in_a_block m' size a.

(** No more memory is taken than for [n] tnodes, and none is given back. *)
Definition spends dev m (free : list Z) dev' m' (free' : list Z) (n : nat) : Prop :=
  (forall k r, enough dev m free (n + k) r -> enough dev' m' free' k r) /\ grown m m'.

Lemma grown_same m m' : blocks m' = blocks m -> grown m m'.
Proof. intros E size a _ (p & n & Hp & H). exists p, n. by rewrite E. Qed.

Lemma grown_trans m m' m'' : grown m m' -> grown m' m'' -> grown m m''.
Proof. intros H1 H2 size a Hs Ha. apply H2; [done|]. by apply H1. Qed.

Lemma batch_pos dev : 0 < batch dev.
Proof. unfold batch, YAFFS_ALLOCATION_NTNODES, sizeof_yaffs_TnodeList, tnode_size, sizeof_yaffs_Tnode. case_match; lia. Qed.

Lemma enough_mono dev m free n n' r : enough dev m free n r -> (n' <= n)%nat -> enough dev m free n' r.
Proof. unfold enough. pose proof (batch_pos dev). intros [? ?] Hn. split; [done|]. nia. Qed.

Lemma spends_trans dev m free dev' m' free' dev'' m'' free'' n n' :
  spends dev m free dev' m' free' n -> spends dev' m' free' dev'' m'' free'' n' -> spends dev m free dev'' m'' free'' (n + n').
Proof.
  intros [H1 G1] [H2 G2]. split; [|by eapply grown_trans]. intros k r He. apply H2, H1. by rewrite Nat.add_assoc.
Qed.

Lemma spends_more dev m free dev' m' free' n n' :
  spends dev m free dev' m' free' n -> (n <= n')%nat -> spends dev m free dev' m' free' n'.
Proof. intros [H G] Hn. split; [|done]. intros k r He. apply H. eapply enough_mono; [exact He|lia]. Qed.

(** Nothing is allocated. *)
Lemma spends_same dev m free dev' m' free' n :
  blocks m' = blocks m -> tnode_size dev' = tnode_size dev -> (length free <= length free' + n)%nat -> spends dev m free dev' m' free' n.
Proof.
  intros Hb Hs Hl. split; [|by apply grown_same]. intros k r [Hr He]. split; [done|]. rewrite (ymalloc_same m m') by done. unfold batch in *. rewrite Hs.
  pose proof (batch_pos dev) as Hp. unfold batch in Hp. nia.
Qed.

(** Where the allocator fails there was not enough. *)
Lemma not_enough dev m n r : YMALLOC m (YAFFS_ALLOCATION_NTNODES * tnode_size dev) = 0 -> ~ enough dev m [] (S n) r.
Proof.
  intros E [Hr He]. pose proof (batch_pos dev) as Hp. unfold batch, YAFFS_ALLOCATION_NTNODES, sizeof_yaffs_TnodeList in *. simpl length in He.
  apply (ymalloc_grants m (100 * tnode_size dev)); [|done]. unfold tnode_size, sizeof_yaffs_Tnode in *. case_match; nia.
Qed.

Lemma in_a_block_malloc m n k size a :
  0 < size -> 0 < Z.of_nat n * k -> in_a_block m size a -> in_a_block (malloc_block YMALLOC m n k).2 size a.
Proof.
  intros Hs Hk (p & j & Hp & H1 & H2). exists p, j. split; [|done]. unfold malloc_block, truthy. simpl.
  destruct (Z.eqb_spec (YMALLOC m (Z.of_nat n * k)) 0); simpl; [done|].
  rewrite lookup_insert_ne; [done|]. intros E.
  destruct (ymalloc_fresh m (Z.of_nat n * k) p j) as [?|?]; try done; nia.
Qed.

Lemma grown_malloc m n k : 0 < Z.of_nat n * k -> grown m (malloc_block YMALLOC m n k).2.
Proof. intros Hk size a Hs. by apply in_a_block_malloc. Qed.

(** New tnodes are not among the ones in use. *)
Lemma malloc_fresh m n size a :
  0 < size -> in_a_block m size a -> YMALLOC m (Z.of_nat n * size) <> 0 ->
  a ∉ pool_addrs n (YMALLOC m (Z.of_nat n * size)) size.
Proof.
  intros Hs (p & j & Hp & H1 & H2) Hne. rewrite elem_of_pool_addrs. intros (i & Hi & ->).
  destruct (ymalloc_fresh m (Z.of_nat n * size) p j Hne Hp); nia.
Qed.

Lemma list_to_set_dom dev m free : pool dev m free -> list_to_set free ⊆ dom (tnodes m).
Proof.
  intros Hp a Ha%elem_of_list_to_set. eapply chain_dom; [by eapply pool_chain|done].
Qed.

(** The memory with [n] new tnodes at [p], linked in front of the free list. *)
Lemma hook_pool dev m n p free :
  let size := tnode_size dev in
  let m1 := m <| tnodes ::= fresh_tnodes uninitialised (S n) p size |> in
  pool dev m free -> 0 < p -> p + Z.of_nat (S n) * size <= 2 ^ 32 ->
  (forall a, a ∈ dom (tnodes m) -> a ∉ pool_addrs (S n) p size) ->
  exists t, (hook_loop n m1 p size 0 ≫= fun m => set_word m (p + Z.of_nat n * size) 0 (freeTnodes m)) =
      Some (m1 <| tnodes := t |>) /\
    chain dev t p (pool_addrs (S n) p size ++ free) /\ dom t = dom (tnodes m) ∪ list_to_set (pool_addrs (S n) p size) /\
    forall a, a ∈ dom (tnodes m) -> t !! a = tnodes m !! a.
Proof.
  intros size m1 Hp H0 H32 Hfresh. pose proof (pool_wf _ _ _ Hp) as Hw.
  assert (32 <= size) as Hs by (unfold size, tnode_size, sizeof_yaffs_Tnode; case_match; lia).
  assert (tnodes m1 = fresh_tnodes uninitialised (S n) p size (tnodes m)) as Em by done.
  assert (forall x, x ∈ pool_addrs (S n) p size -> exists ws, tnodes m1 !! x = Some ws /\ tnode_ok dev ws) as Hok.
  { intros x Hx. rewrite Em, fresh_tnodes_lookup, decide_True by (done || lia). eexists. split; [done|].
    apply words_of_ok; [done|]. intros i. apply wrap_in. lia. }
  assert (dom (tnodes m1) = dom (tnodes m) ∪ list_to_set (pool_addrs (S n) p size)) as Hd1.
  { apply set_eq. intros x. rewrite elem_of_union, elem_of_list_to_set, !elem_of_dom.
    rewrite Em, fresh_tnodes_lookup by lia. destruct (decide _) as [Hi|Hi]; [|naive_solver]. split; [by right|by eexists]. }
  rewrite pool_addrs_last in Hok, Hfresh, Hd1 |- *. set (last := p + Z.of_nat n * size) in *.
  destruct (hook_loop_spec dev n m1 p size 0) as (t & E & Hl & Hd & Hf); try done; [lia..| |].
  { rewrite Z.mul_0_l, Z.add_0_r. intros x Hx. apply Hok, elem_of_app. by left. }
  rewrite Z.mul_0_l, Z.add_0_r in *. rewrite E. simpl mbind.
  assert (last ∉ pool_addrs n p size) as Hlast by (rewrite elem_of_pool_addrs; unfold last; intros (i & ? & ?); nia).
  destruct (Hok last) as (ws & Hws & Hwo); [apply elem_of_app; right; left|]. rewrite <- Hf in Hws by done.
  rewrite (set_word_Some dev _ _ _ _ ws) by (done || lia).
  pose proof (chain_32 _ _ _ _ (pool_chain _ _ _ Hp)) as H32f.
  exists (<[last := <[Z.to_nat 0 := freeTnodes m]> ws]> t). split; [done|]. split_and!.
  - rewrite <- app_assoc. apply linked_chain.
    + intros x Hx. destruct (Hl x Hx) as (w & Hw' & ?). exists w. split; [|done]. rewrite lookup_insert_ne; [done|]. by intros ->.
    + intros x. rewrite elem_of_pool_addrs. intros (i & ? & ->). nia.
    + simpl. split; [done|]. split; [unfold last; nia|]. eexists _, (freeTnodes m). rewrite lookup_insert_eq. split; [done|].
      split; [by apply tnode_ok_insert|]. split.
      * apply (get_insert_eq ws 0). destruct Hwo as [_ ->]. pose proof (tnode_size_range dev Hw). lia.
      * apply chain_frame with (tnodes m); [apply Hp|]. intros a Ha.
        destruct (chain_dom _ _ _ _ a (pool_chain _ _ _ Hp) Ha) as [Hda _]. pose proof (Hfresh a Hda) as Hna.
        rewrite lookup_insert_ne, Hf.
        -- rewrite Em, fresh_tnodes_lookup, decide_False; [done|by rewrite pool_addrs_last|lia].
        -- intros ?. apply Hna, elem_of_app. by left.
        -- intros <-. apply Hna, elem_of_app. right. left.
  - rewrite dom_insert_L, Hd, Hd1, list_to_set_app_L. simpl. clear. set_solver.
  - intros a Hda. pose proof (Hfresh a Hda) as Hna. rewrite lookup_insert_ne, Hf.
    + rewrite Em, fresh_tnodes_lookup, decide_False; [done|by rewrite pool_addrs_last|lia].
    + intros ?. apply Hna, elem_of_app. by left.
    + intros <-. apply Hna, elem_of_app. right. left.
Qed.

Lemma size_union_addrs (t : store) n a k :
  0 < k -> (forall x, x ∈ dom t -> x ∉ pool_addrs n a k) ->
  size (dom t ∪ list_to_set (pool_addrs n a k) : gset Z) = (size (dom t) + n)%nat.
Proof.
  intros Hs H. rewrite size_union.
  - rewrite size_list_to_set by (by apply pool_addrs_nodup). by rewrite pool_addrs_length.
  - intros x Hx Hx'%elem_of_list_to_set. by apply (H x).
Qed.

Lemma pool_malloc dev m free n k :
  pool dev m free -> 0 < Z.of_nat n * k -> pool dev (malloc_block YMALLOC m n k).2 free.
Proof.
  intros [Hw Hc Hn Hl Hs Hb] Hk. destruct (malloc_block_frame m n k) as (T & F & _).
  constructor; rewrite ?T, ?F; try done. intros a Ha. apply in_a_block_malloc; [|done|by apply Hb].
  unfold tnode_size, sizeof_yaffs_Tnode. case_match; lia.
Qed.

Lemma malloc_block_at m n k :
  let '(p, m') := malloc_block YMALLOC m n k in
  p = YMALLOC m (Z.of_nat n * k) /\ (p <> 0 -> blocks m' !! p = Some (Z.of_nat n * k)).
Proof.
  unfold malloc_block. split; [done|]. intros Hne. unfold truthy. destruct (Z.eqb_spec (YMALLOC m (Z.of_nat n * k)) 0); [done|].
  apply lookup_insert_eq.
Qed.

(** The pool with the new tnodes. *)
Lemma pool_more dev m t n p free :
  let size := tnode_size dev in
  let dev' := dev <| nFreeTnodes ::= Z.add (Z.of_nat n) |> <| nTnodesCreated ::= Z.add (Z.of_nat n) |> in
  pool dev m free -> blocks m !! p = Some (Z.of_nat n * size) -> 32 <= size ->
  (forall a, a ∈ dom (tnodes m) -> a ∉ pool_addrs n p size) ->
  chain dev t p (pool_addrs n p size ++ free) -> dom t = dom (tnodes m) ∪ list_to_set (pool_addrs n p size) ->
  pool dev' (m <| tnodes := t |> <| freeTnodes := p |>) (pool_addrs n p size ++ free).
Proof.
  intros size dev' Hp B Hs Hfresh Hc Hd. constructor; simpl.
  - by apply (tnode_wf_geometry dev), Hp.
  - apply (chain_counters dev); [|done]. counters.
  - apply NoDup_app. split_and!; [apply pool_addrs_nodup; lia| |apply Hp]. intros x Hx Hx'.
    apply (Hfresh x); [|done]. by eapply chain_dom; [apply Hp|].
  - rewrite length_app, pool_addrs_length, (pool_count _ _ _ Hp). lia.
  - rewrite Hd, size_union_addrs by (done || lia). rewrite (pool_created _ _ _ Hp). lia.
  - intros a. rewrite Hd. intros [Ha|Ha]%elem_of_union; [|].
    { destruct (pool_blocks _ _ _ Hp a Ha) as (q & k & ?). by exists q, k. }
    apply elem_of_list_to_set, elem_of_pool_addrs in Ha as (i & Hi & ->). exists p, (Z.of_nat n * size).
    split; [done|]. change (tnode_size dev') with size. nia.
Qed.

Lemma transfers_new dev m t n p free :
  let new := pool_addrs n p (tnode_size dev) in
  pool dev m free -> (forall a, a ∈ dom (tnodes m) -> a ∉ new) -> dom t = dom (tnodes m) ∪ list_to_set new ->
  (forall a, a ∈ dom (tnodes m) -> t !! a = tnodes m !! a) ->
  transfers (tnodes m) (list_to_set free) t (list_to_set (new ++ free)).
Proof.
  intros new Hp Hfresh Hd Hf. pose proof (list_to_set_dom dev m free Hp) as Hsub. constructor.
  - rewrite list_to_set_app_L. clear. set_solver.
  - rewrite Hd, list_to_set_app_L. clear - Hsub. set_solver.
  - intros a Ha Hn. split; [by apply Hf|]. rewrite list_to_set_app_L. intros [Hx|Hx]%elem_of_union; [|done].
    by apply elem_of_list_to_set, Hfresh in Hx.
Qed.

(** A bunch of tnodes is added to the free list, or the allocator has no memory. *)
Lemma CreateTnodes_spec dev m free n :
  let size := tnode_size dev in
  let p := YMALLOC m (Z.of_nat (S n) * size) in
  pool dev m free ->
  exists r dev' m', yaffs_CreateTnodes YMALLOC uninitialised dev m (Z.of_nat (S n)) = Some (r, dev', m') /\
    tnode_counters dev dev' /\ ymalloc_room m - (Z.of_nat (S n) * size + sizeof_yaffs_TnodeList) <= ymalloc_room m' /\ grown m m' /\
    if p =? 0 then tnodes m' = tnodes m /\ pool dev' m' free /\ ymalloc_room m' = ymalloc_room m
    else pool dev' m' (pool_addrs (S n) p size ++ free) /\
         transfers (tnodes m) (list_to_set free) (tnodes m') (list_to_set (pool_addrs (S n) p size ++ free)).
Proof.
  intros size p Hp.
  assert (32 <= size) as Hs by (unfold size, tnode_size, sizeof_yaffs_Tnode; case_match; lia).
  unfold yaffs_CreateTnodes. rewrite (proj2 (Z.ltb_ge _ _)) by lia. fold size. rewrite Nat2Z.id.
  replace (Z.to_nat (Z.of_nat (S n) - 1)) with n by lia. replace (Z.of_nat (S n) - 1) with (Z.of_nat n) by lia.
  pose proof (malloc_block_frame m (S n) size) as (T1 & _ & _). pose proof (malloc_block_at m (S n) size) as P1.
  pose proof (pool_malloc dev m free (S n) size Hp ltac:(lia)) as Hp1. destruct (malloc_room m (S n) size ltac:(lia)) as [R1 R1'].
  pose proof (grown_malloc m (S n) size ltac:(lia)) as G1.
  destruct (malloc_block YMALLOC m (S n) size) as [p' m1]. destruct P1 as [-> B1]. fold p in B1, R1' |- *. simpl in T1, Hp1, R1, R1', G1.
  destruct (Z.eqb_spec p 0) as [E0|Hne].
  { eexists _, _, _. split; [done|]. split; [apply counters_refl|]. specialize (R1' E0). unfold sizeof_yaffs_TnodeList. split; [lia|]. by split. }
  pose proof (ymalloc_pos m (Z.of_nat (S n) * size)). pose proof (ymalloc_32 m _ Hne).
  assert (forall a, a ∈ dom (tnodes m1) -> a ∉ pool_addrs (S n) p size) as Hfresh
    by (rewrite T1; intros a Ha; apply malloc_fresh; [lia|by eapply pool_blocks|done]).
  destruct (hook_pool dev m1 n p free) as (t & E & Hc & Hd & Hf); try done; [unfold p in *; lia|].
  fold size in E, Hc, Hd. revert E. destruct (hook_loop n _ p size 0) as [m2|]; [|done]. cbn [mbind option_bind].
  intros E. rewrite E. cbn [mbind option_bind]. clear E m2.
  pose proof (pool_more dev m1 t (S n) p free Hp1 (B1 Hne) Hs Hfresh Hc Hd) as Hpool.
  pose proof (transfers_new dev m1 t (S n) p free Hp1 Hfresh Hd Hf) as Hmoves. rewrite T1 in Hmoves. fold size in Hpool, Hmoves.
  change (m1 <| tnodes ::= _ |> <| tnodes := t |> <| freeTnodes := p |>) with (m1 <| tnodes := t |> <| freeTnodes := p |>).
  set (m3 := m1 <| tnodes := t |> <| freeTnodes := p |>) in *.
  set (dev1 := dev <| nFreeTnodes ::= _ |> <| nTnodesCreated ::= _ |>) in *.
  assert (tnode_counters dev dev1) as Hdev by counters.
  pose proof (malloc_block_frame m3 1 sizeof_yaffs_TnodeList) as (T4 & _ & _).
  pose proof (pool_malloc dev1 m3 _ 1 sizeof_yaffs_TnodeList Hpool ltac:(done)) as Hp4. destruct (malloc_room m3 1 sizeof_yaffs_TnodeList ltac:(done)) as [R4 _].
  pose proof (grown_malloc m3 1 sizeof_yaffs_TnodeList ltac:(done)) as G4.
  destruct (malloc_block YMALLOC m3 1 sizeof_yaffs_TnodeList) as [tnl m4]. simpl in T4, Hp4, R4, G4.
  assert (grown m m4) as G by (eapply grown_trans; [exact G1|]; eapply (grown_trans _ m3); [by apply grown_same|exact G4]).
  assert (ymalloc_room m3 = ymalloc_room m1) as R3 by (by apply ymalloc_same).
  destruct (tnl =? 0); (eexists _, _, _; split; [done|]; split; [done|]; split; [|split; [|split]]).
  - lia.
  - done.
  - done.
  - by rewrite T4.
  - match goal with |- _ <= ymalloc_room ?x => rewrite (ymalloc_same m4 x) by done end. lia.
  - eapply grown_trans; [exact G|by apply grown_same].
  - by destruct Hp4.
  - simpl. by rewrite T4.
Qed.

(** ** Taking a tnode and giving it back *)

Lemma refill_spec dev m free :
  pool dev m free ->
  exists dev' m' free', refill_tnodes YMALLOC uninitialised dev m = Some (dev', m') /\ tnode_counters dev dev' /\
    pool dev' m' free' /\ transfers (tnodes m) (list_to_set free) (tnodes m') (list_to_set free') /\
    (forall k r, enough dev m free (S k) r -> enough dev' m' free' (S k) r) /\ grown m m' /\
    (free' = [] -> free = [] /\ YMALLOC m (YAFFS_ALLOCATION_NTNODES * tnode_size dev) = 0 /\ tnodes m' = tnodes m).
Proof.
  intros Hp. unfold refill_tnodes.
  assert (transfers (tnodes m) (list_to_set free) (tnodes m) (list_to_set free)) as Hr
    by (apply transfers_refl; by eapply list_to_set_dom).
  destruct (Z.eqb_spec (freeTnodes m) 0) as [E0|Hne].
  - destruct (CreateTnodes_spec dev m free 99 Hp) as (r & dev1 & m1 & E & Hc & Hr1 & Hg & Hcase).
    change (Z.of_nat 100) with YAFFS_ALLOCATION_NTNODES in *. rewrite E. cbn [mbind option_bind].
    destruct (Z.eqb_spec (YMALLOC m (YAFFS_ALLOCATION_NTNODES * tnode_size dev)) 0) as [Hz|Hz].
    + destruct Hcase as (T & Hp' & R). exists dev1, m1, free. split_and!; try done; [by rewrite T|].
      intros k r'. unfold enough, batch. by rewrite R, (counters_size dev dev1).
    + destruct Hcase as [Hp' Hm]. eexists _, _, _. split_and!; try done. intros k r' [Hr' He]. split; [done|].
      pose proof (pool_chain _ _ _ Hp) as Hch. destruct free as [|a free]; [|destruct Hch as (E1 & ? & _); lia].
      rewrite length_app, pool_addrs_length. unfold batch in *. rewrite (counters_size dev dev1) by done. simpl length in *.
      pose proof (batch_pos dev) as Hb. unfold batch in Hb. fold (batch dev) in *. unfold YAFFS_ALLOCATION_NTNODES in *. nia.
  - exists dev, m, free. split_and!; try done; [apply counters_refl|by apply grown_same|].
    intros ->. by pose proof (pool_chain _ _ _ Hp).
Qed.

(** Taking a tnode fails only when the free list is empty and the allocator has no memory. *)
Lemma GetTnodeRaw_spec dev m free :
  pool dev m free ->
  exists tn dev' m', yaffs_GetTnodeRaw YMALLOC uninitialised dev m = Some (tn, dev', m') /\ tnode_counters dev dev' /\
    if tn =? 0 then free = [] /\ YMALLOC m (YAFFS_ALLOCATION_NTNODES * tnode_size dev) = 0 /\
                    tnodes m' = tnodes m /\ pool dev' m' [] /\ grown m m'
    else exists free' ws, pool dev' m' free' /\ in_w 32 tn /\ tnodes m' !! tn = Some ws /\ tnode_ok dev' ws /\ tn ∉ free' /\
           transfers (tnodes m) (list_to_set free) (tnodes m') ({[tn]} ∪ list_to_set free') /\
           spends dev m free dev' m' free' 1.
Proof.
  intros Hp. unfold yaffs_GetTnodeRaw.
  destruct (refill_spec dev m free Hp) as (dev1 & m1 & free1 & -> & Hc1 & Hp1 & Hm1 & Hl1 & Hg1 & Hnone).
  cbn [mbind option_bind]. pose proof (pool_wf _ _ _ Hp1) as Hw.
  assert (tnode_counters dev1 (dev1 <| nFreeTnodes ::= Z.pred |> <| nCheckpointBlocksRequired := 0 |>)) as Hc2
    by counters.
  destruct free1 as [|a free1].
  - destruct (Hnone eq_refl) as (-> & Hz & T). pose proof (pool_chain _ _ _ Hp1) as E. simpl in E. rewrite E. simpl.
    eexists _, _, _. split; [done|]. split; [|split_and!; try done].
    + eapply counters_trans; [done|]. counters.
    + destruct Hp1. constructor; try done. by apply (tnode_wf_geometry dev1).
  - destruct (pool_chain _ _ _ Hp1) as (E & Ha & ws & n & Hws & Hok & Hg & Hch). rewrite E.
    assert (truthy a = true) as Ht by (unfold truthy; rewrite (proj2 (Z.eqb_neq a 0)) by lia; done).
    rewrite Ht. unfold get_word. rewrite Hws. cbn [mbind option_bind]. rewrite Hg. cbn [mbind option_bind].
    eexists _, _, _. split; [done|]. split; [by eapply counters_trans|].
    rewrite (proj2 (Z.eqb_neq a 0)) by lia. exists free1, ws.
    pose proof (pool_nodup _ _ _ Hp1) as Hnd. apply NoDup_cons in Hnd as [Hna Hnd].
    split_and!.
    + destruct Hp1 as [_ _ _ Hl Hs Hb]. constructor; simpl; try done.
      * by apply (tnode_wf_geometry dev1), Hw.
      * by apply (chain_counters dev1).
      * simpl in Hl. rewrite Hl. lia.
    + unfold in_w. lia.
    + done.
    + by eapply tnode_ok_counters.
    + done.
    + by eapply transfers_eq; [done| |].
    + split; [|by eapply grown_trans; [|apply grown_same]]. intros k r He. apply (spends_same dev1 m1 (a :: free1) _ _ _ 1); [done|by apply counters_size|simpl; lia|by apply Hl1].
Qed.

Lemma GetTnode_spec dev m free :
  pool dev m free ->
  exists tn dev' m', yaffs_GetTnode YMALLOC uninitialised dev m = Some (tn, dev', m') /\ tnode_counters dev dev' /\
    if tn =? 0 then free = [] /\ YMALLOC m (YAFFS_ALLOCATION_NTNODES * tnode_size dev) = 0 /\
                    tnodes m' = tnodes m /\ pool dev' m' [] /\ grown m m'
    else exists free', pool dev' m' free' /\ in_w 32 tn /\ tnodes m' !! tn = Some (zero_tnode dev) /\ tn ∉ free' /\
           transfers (tnodes m) (list_to_set free) (tnodes m') ({[tn]} ∪ list_to_set free') /\
           spends dev m free dev' m' free' 1.
Proof.
  intros Hp. unfold yaffs_GetTnode. destruct (GetTnodeRaw_spec dev m free Hp) as (tn & dev' & m' & -> & Hc & Hcase).
  cbn [mbind option_bind]. unfold truthy. destruct (Z.eqb_spec tn 0) as [->|Hne]; simpl negb; cbn match.
  - by exists 0, dev', m'.
  - destruct Hcase as (free' & ws & Hp' & H32 & Hws & Hok & Hnf & Hm & Hlen). rewrite Hws. cbn [mbind option_bind].
    rewrite (clear_tnode dev' ws) by done. cbn [mbind option_bind].
    assert (zero_tnode dev' = zero_tnode dev) as -> by (unfold zero_tnode; by rewrite (counters_size dev dev')).
    eexists _, _, _. split; [done|]. split; [done|]. rewrite (proj2 (Z.eqb_neq tn 0)) by done. exists free'. split_and!; try done.
    + apply pool_insert; [done|by apply elem_of_dom_2 in Hws|done].
    + apply lookup_insert_eq.
    + apply transfers_insert; [done|]. apply elem_of_union_l. by apply elem_of_singleton.
    + eapply (spends_trans _ _ _ dev' m' free' _ _ _ 1 0); [done|]. by apply spends_same; [..|lia].
Qed.

End Allocation.

(** Giving a tnode back; NULL is ignored. *)
Lemma FreeTnode_null dev m : exists dev', yaffs_FreeTnode dev m 0 = Some (dev', m) /\ tnode_counters dev dev' /\
  forall free, pool dev m free -> pool dev' m free.
Proof.
  unfold yaffs_FreeTnode. simpl. eexists. split; [done|]. split; [destruct dev; counters|].
  intros free Hp. destruct Hp. constructor; try done.
  - by apply (tnode_wf_geometry dev).
  - apply (chain_counters dev); [destruct dev; counters|done].
Qed.

Lemma FreeTnode_spec dev m free tn ws :
  pool dev m free -> tnodes m !! tn = Some ws -> tnode_ok dev ws -> tn ∉ free -> 0 < tn < 2 ^ 32 ->
  exists dev' t', yaffs_FreeTnode dev m tn = Some (dev', m <| tnodes := t' |> <| freeTnodes := tn |>) /\
    tnode_counters dev dev' /\ pool dev' (m <| tnodes := t' |> <| freeTnodes := tn |>) (tn :: free) /\
    dom t' = dom (tnodes m) /\ forall a, a <> tn -> t' !! a = tnodes m !! a.
Proof.
  intros Hp Hl Hok Hn Ht. unfold yaffs_FreeTnode.
  assert (truthy tn = true) as -> by (unfold truthy; rewrite (proj2 (Z.eqb_neq tn 0)) by lia; done).
  pose proof (pool_wf _ _ _ Hp) as Hw. pose proof (chain_32 _ _ _ _ (pool_chain _ _ _ Hp)) as H32.
  rewrite (set_word_Some dev m tn 0 _ ws) by (done || lia). cbn [mbind option_bind].
  set (dev' := dev <| nFreeTnodes ::= _ |> <| nCheckpointBlocksRequired := _ |>).
  assert (tnode_counters dev dev') as Hc by counters.
  exists dev', (<[tn := <[Z.to_nat 0 := freeTnodes m]> ws]> (tnodes m)). split; [done|]. split; [done|].
  assert (dom (<[tn := <[Z.to_nat 0 := freeTnodes m]> ws]> (tnodes m)) = dom (tnodes m)) as Hd
    by (rewrite dom_insert_L; apply elem_of_dom_2 in Hl; set_solver).
  split_and!; [|done|by intros; rewrite lookup_insert_ne].
  destruct Hp as [_ Hch Hnd Hcnt Hcr Hb]. constructor; simpl tnodes; rewrite ?Hd.
  - by apply (tnode_wf_geometry dev).
  - apply (chain_counters dev); [done|]. split; [done|]. split; [done|]. eexists _, (freeTnodes m). rewrite lookup_insert_eq.
    split; [done|]. split; [by apply tnode_ok_insert|]. split.
    + apply (get_insert_eq ws 0). destruct Hok as [_ ->]. pose proof (tnode_size_range dev Hw). lia.
    + apply chain_frame with (tnodes m); [done|]. intros a Ha. rewrite lookup_insert_ne; [done|]. by intros <-.
  - by constructor.
  - unfold dev'. simpl. rewrite Hcnt. lia.
  - done.
  - done.
Qed.

End Pool.
