(* ===== verification/YaffsTnodesTree.v ===== *)
(** * The tree of tnodes of a file

    The tree refines a function from the chunks of the file to chunks of the device: [tree]
    relates the tnodes in memory to that function, and says which tnodes the tree is made of.  Searching
    reads the function, filling in missing tnodes and growing the tree keep it, and
    putting an entry changes it at one place. *)

From S2P Require Import Prelude NandEcc YaffsTags YaffsNand YaffsBlocks YaffsTnodes YaffsTnodesFacts YaffsTnodesPool.

Local Open Scope Z_scope.

(** The number of chunks that a tree of a level can hold. *)
Definition capacity (l : nat) : Z := 16 * 8 ^ Z.of_nat l.

Lemma capacity_S l : capacity (S l) = 8 * capacity l.
Proof. unfold capacity. rewrite Nat2Z.inj_succ, Z.pow_succ_r by lia. lia. Qed.

Lemma capacity_pos l : 16 <= capacity l.
Proof. unfold capacity. pose proof (Z.pow_pos_nonneg 8 (Z.of_nat l)). lia. Qed.

Lemma capacity_mono l l' : (l <= l')%nat -> capacity l <= capacity l'.
Proof. intros. unfold capacity. pose proof (Z.pow_le_mono_r 8 (Z.of_nat l) (Z.of_nat l')). lia. Qed.

(** The path of a chunk. *)
Lemma branch_spec k l : branch k (S l) = k / capacity l mod 8.
Proof.
  unfold branch, YAFFS_TNODES_LEVEL0_BITS, YAFFS_TNODES_INTERNAL_BITS, YAFFS_TNODES_INTERNAL_MASK, YAFFS_TNODES_LEVEL0_BITS.
  change 7 with (2 ^ 3 - 1) at 1. rewrite land_mask, Z.shiftr_div_pow2 by lia. change (2 ^ 3) with 8.
  unfold capacity. change 8 with (2 ^ 3) at 2. rewrite <- Z.pow_mul_r by lia. change 16 with (2 ^ 4).
  rewrite <- Z.pow_add_r by lia. do 3 f_equal. lia.
Qed.

Lemma branch_range k l : 0 <= branch k (S l) < 8.
Proof. rewrite branch_spec. apply Z.mod_pos_bound. lia. Qed.

(** Below a capacity, the path at the level has no higher part. *)
Lemma branch_split k l : 0 <= k < capacity (S l) ->
  branch k (S l) * capacity l <= k < (branch k (S l) + 1) * capacity l.
Proof.
  intros Hk. rewrite branch_spec. rewrite capacity_S in Hk. pose proof (capacity_pos l).
  rewrite Z.mod_small by (split; [apply Z.div_pos; lia|apply Z.div_lt_upper_bound; lia]).
  pose proof (Z.div_mod k (capacity l)). pose proof (Z.mod_pos_bound k (capacity l)). lia.
Qed.

Lemma branch_unique k l i : 0 <= i < 8 -> i * capacity l <= k < (i + 1) * capacity l -> branch k (S l) = i.
Proof.
  intros Hi Hk. rewrite branch_spec. pose proof (capacity_pos l).
  replace (k / capacity l) with i by (apply Z.div_unique with (k - i * capacity l); lia). apply Z.mod_small. lia.
Qed.

(** The path below depends only on the rest. *)
Lemma branch_rest k l l' i : (l' < l)%nat -> branch (k + i * capacity l) (S l') = branch k (S l').
Proof.
  intros H. rewrite !branch_spec. pose proof (capacity_pos l').
  assert (capacity l = 8 ^ (Z.of_nat (l - l')) * capacity l') as ->.
  { unfold capacity. replace (Z.of_nat l) with (Z.of_nat (l - l') + Z.of_nat l') by lia. rewrite Z.pow_add_r by lia. lia. }
  rewrite Z.mul_assoc, Z.div_add by lia.
  replace (Z.of_nat (l - l')) with (Z.succ (Z.of_nat (l - l' - 1))) by lia. rewrite Z.pow_succ_r by lia.
  replace (i * (8 * 8 ^ Z.of_nat (l - l' - 1))) with (i * 8 ^ Z.of_nat (l - l' - 1) * 8) by lia. apply Z.mod_add. lia.
Qed.

Lemma find_loop_rest l l' m p k i : (l' <= l)%nat -> find_loop l' m p (k + i * capacity l) = find_loop l' m p k.
Proof.
  revert p. induction l' as [|l' IH]; intros p H; simpl; [done|].
  case_match; [done|]. rewrite branch_rest by lia. destruct (get_word _ _ _); simpl; [|done]. apply IH. lia.
Qed.

Section Tree.
Context {mtd : Type}.
Implicit Types (dev : yaffs_Device mtd) (t : store).

(** The part of a function in the branch [i]. *)
Definition part (f : Z -> Z) (l : nat) (i : Z) : Z -> Z := fun k => f (i * capacity l + k).

(** The tnodes [s] below [p] at the level [l] hold the function [f]. *)
Fixpoint tree dev t (l : nat) (p : Z) (s : gset Z) (f : Z -> Z) : Prop :=
  (p = 0 /\ s = ∅ /\ forall k, 0 <= k < capacity l -> f k = 0) \/
  (0 < p < 2 ^ 32 /\ exists ws, t !! p = Some ws /\ tnode_ok dev ws /\
     match l with
     | O => s = {[p]} /\ forall k, 0 <= k < 16 -> f k = entry dev ws k
     | S l' =>
         exists ss : Z -> gset Z,
           (forall a, a ∈ s <-> a = p \/ exists i, 0 <= i < 8 /\ a ∈ ss i) /\
           (forall i, 0 <= i < 8 -> p ∉ ss i) /\
           (forall i j, 0 <= i < 8 -> 0 <= j < 8 -> i <> j -> ss i ## ss j) /\
           forall i, 0 <= i < 8 -> exists q, get ws i = Some q /\ tree dev t l' q (ss i) (part f l' i)
     end).

Lemma tree_null dev t l f : (forall k, 0 <= k < capacity l -> f k = 0) -> tree dev t l 0 ∅ f.
Proof. intros. destruct l; left; done. Qed.

Lemma tree_null_inv dev t l s f : tree dev t l 0 s f -> s = ∅ /\ forall k, 0 <= k < capacity l -> f k = 0.
Proof. destruct l; intros [(_ & ? & ?)|[? _]]; done || lia. Qed.

Lemma tree_ext dev t l p s f g :
  tree dev t l p s f -> (forall k, 0 <= k < capacity l -> f k = g k) -> tree dev t l p s g.
Proof.
  revert p s f g. induction l as [|l IH]; intros p s f g Ht E.
  - destruct Ht as [(-> & -> & Hz)|(Hp & ws & Hl & Hok & -> & Hf)].
    + left. split_and!; [done..|]. intros k Hk. rewrite <- E by done. by apply Hz.
    + right. split; [done|]. exists ws. split_and!; [done..|]. intros k Hk. rewrite <- E by done. by apply Hf.
  - destruct Ht as [(-> & -> & Hz)|(Hp & ws & Hl & Hok & ss & Hs & Hn & Hd & Hb)].
    + left. split_and!; [done..|]. intros k Hk. rewrite <- E by done. by apply Hz.
    + right. split; [done|]. exists ws. split; [done|]. split; [done|]. exists ss. split_and!; [done..|].
      intros i Hi. destruct (Hb i Hi) as (q & Hq & Hqt). exists q. split; [done|]. apply IH with (part f l i); [done|].
      intros k Hk. unfold part. apply E. rewrite capacity_S. nia.
Qed.

Lemma tree_frame dev t t' l p s f :
  tree dev t l p s f -> (forall a, a ∈ s -> t' !! a = t !! a) -> tree dev t' l p s f.
Proof.
  revert p s f. induction l as [|l IH]; intros p s f Ht E.
  - destruct Ht as [?|(Hp & ws & Hl & Hok & -> & Hf)]; [by left|]. right. split; [done|]. exists ws.
    split; [|done]. rewrite E; [done|by apply elem_of_singleton].
  - destruct Ht as [?|(Hp & ws & Hl & Hok & ss & Hs & Hn & Hd & Hb)]; [by left|]. right. split; [done|].
    exists ws. split; [|split; [done|]].
    + rewrite E; [done|]. apply Hs. by left.
    + exists ss. split_and!; [done..|]. intros i Hi. destruct (Hb i Hi) as (q & Hq & Hqt). exists q. split; [done|].
      apply IH; [done|]. intros a Ha. apply E, Hs. right. by exists i.
Qed.

Lemma tree_dom dev t l p s f a : tree dev t l p s f -> a ∈ s -> a ∈ dom t.
Proof.
  revert p s f. induction l as [|l IH]; intros p s f Ht Ha.
  - destruct Ht as [(-> & -> & _)|(Hp & ws & Hl & Hok & -> & Hf)]; [done|].
    apply elem_of_singleton in Ha as ->. by apply elem_of_dom_2 in Hl.
  - destruct Ht as [(-> & -> & _)|(Hp & ws & Hl & Hok & ss & Hs & Hn & Hd & Hb)]; [done|].
    apply Hs in Ha as [->|(i & Hi & Ha)]; [by apply elem_of_dom_2 in Hl|].
    destruct (Hb i Hi) as (q & _ & Hqt). by eapply IH.
Qed.

Lemma tree_root dev t l p s f : tree dev t l p s f -> p <> 0 ->
  0 < p < 2 ^ 32 /\ p ∈ s /\ exists ws, t !! p = Some ws /\ tnode_ok dev ws.
Proof.
  destruct l; intros [(? & _)|(Hp & ws & Hl & Hok & H)] Hne; try done; (split; [done|]; split; [|by exists ws]).
  - destruct H as [-> _]. by apply elem_of_singleton.
  - destruct H as (ss & Hs & _). apply Hs. by left.
Qed.

Lemma tree_32 dev t l p s f : tree dev t l p s f -> in_w 32 p.
Proof. destruct l; intros [(-> & _)|(Hp & _)]; unfold in_w; lia. Qed.

Lemma tree_widths dev dev' t l p s f : same_widths dev dev' -> tree dev t l p s f -> tree dev' t l p s f.
Proof.
  intros Hc. revert p s f. induction l as [|l IH]; intros p s f Ht.
  - destruct Ht as [?|(Hp & ws & Hl & Hok & -> & Hf)]; [by left|]. right. split; [done|]. exists ws.
    split_and!; [done|by eapply tnode_ok_widths|done|]. intros k Hk.
    rewrite (entry_geometry dev dev') by done. by apply Hf.
  - destruct Ht as [?|(Hp & ws & Hl & Hok & ss & Hs & Hn & Hd & Hb)]; [by left|]. right. split; [done|].
    exists ws. split_and!; [done|by eapply tnode_ok_widths|]. exists ss. split_and!; [done..|].
    intros i Hi. destruct (Hb i Hi) as (q & Hq & Hqt). exists q. split; [done|]. by apply IH.
Qed.

Lemma tree_counters dev dev' t l p s f : tnode_counters dev dev' -> tree dev t l p s f -> tree dev' t l p s f.
Proof. intros Hc. by apply tree_widths, counters_geometry. Qed.

(** A new tree of one clean tnode. *)
Lemma tree_zero dev t l p : tnode_wf dev -> t !! p = Some (zero_tnode dev) -> 0 < p < 2 ^ 32 ->
  tree dev t l p {[p]} (fun _ => 0).
Proof.
  intros Hw Hl Hp. destruct l as [|l]; right; (split; [done|]; exists (zero_tnode dev); split; [done|];
    split; [by apply zero_tnode_ok|]).
  - split; [done|]. intros k Hk. rewrite zero_tnode_entry; [done|done|lia].
  - exists (fun _ => ∅). split_and!; [set_solver|set_solver|set_solver|].
    intros i Hi. exists 0. split; [by apply zero_tnode_word|]. by apply tree_null.
Qed.

(** ** Searching *)

(** The level 0 tnode on the path of a chunk holds the value of the chunk. *)
Lemma find_loop_spec dev m l p s f k :
  tnode_wf dev -> tree dev (tnodes m) l p s f -> 0 <= k < capacity l ->
  exists tn, find_loop l m p k = Some tn /\
    if tn =? 0 then f k = 0
    else tn ∈ s /\ exists ws, tnodes m !! tn = Some ws /\ tnode_ok dev ws /\ entry dev ws k = f k.
Proof.
  intros Hw. revert p s f k. induction l as [|l IH]; intros p s f k Ht Hk.
  - exists p. split; [done|]. change (capacity 0) with 16 in Hk.
    destruct Ht as [(-> & -> & Hz)|(Hp & ws & Hl & Hok & -> & Hf)]; [by apply Hz|].
    rewrite (proj2 (Z.eqb_neq p 0)) by lia. split; [by apply elem_of_singleton|]. exists ws. split_and!; [done..|].
    by rewrite Hf.
  - cbn [find_loop]. destruct Ht as [(-> & -> & Hz)|(Hp & ws & Hl & Hok & ss & Hs & Hn & Hd & Hb)].
    { exists 0. split; [done|]. by apply Hz. }
    rewrite (proj2 (Z.eqb_neq p 0)) by lia. unfold get_word. rewrite Hl. cbn [mbind option_bind].
    pose proof (branch_range k l) as Hr. pose proof (branch_split k l Hk) as Hsp. set (i := branch k (S l)) in *.
    destruct (Hb i Hr) as (q & -> & Hq). cbn [mbind option_bind].
    destruct (IH q (ss i) (part f l i) (k - i * capacity l) Hq) as (tn & Hfind & Hcase); [lia|].
    assert (k = k - i * capacity l + i * capacity l) as Ek by lia.
    exists tn. split.
    + rewrite Ek at 1. by rewrite find_loop_rest by lia.
    + assert (part f l i (k - i * capacity l) = f k) as Ef by (unfold part; f_equal; lia). rewrite Ef in Hcase.
      destruct (tn =? 0); [done|]. destruct Hcase as (Hin & w & Hw' & Hwo & He). split; [apply Hs; right; by exists i|].
      exists w. split_and!; [done..|]. rewrite <- He.
      pose proof (Z.mod_pos_bound k 16). pose proof (branch_split k l Hk).
      rewrite <- (entry_mod dev w k), <- (entry_mod dev w (k - i * capacity l)) by lia. f_equal.
      unfold capacity. replace (k - i * (16 * 8 ^ Z.of_nat l)) with (k + (- i * 8 ^ Z.of_nat l) * 16) by lia.
      by rewrite Z.mod_add.
Qed.

Lemma find_loop_frame dev m m' l p s f k :
  tree dev (tnodes m) l p s f -> (forall a, a ∈ s -> tnodes m' !! a = tnodes m !! a) ->
  find_loop l m' p k = find_loop l m p k.
Proof.
  revert p s f. induction l as [|l IH]; intros p s f Ht E; cbn [find_loop]; [done|].
  destruct Ht as [(-> & _)|(Hp & ws & Hl & Hok & ss & Hs & Hn & Hd & Hb)]; [done|].
  rewrite (proj2 (Z.eqb_neq p 0)) by lia. unfold get_word. rewrite (E p), Hl by (apply Hs; by left). cbn [mbind option_bind].
  pose proof (branch_range k l) as Hr. destruct (Hb _ Hr) as (q & -> & Hq). cbn [mbind option_bind].
  eapply IH; [done|]. intros a Ha. apply E, Hs. right. by eexists.
Qed.

(** The level 0 tnodes that exist stay where they are. *)
Definition keeps_leaf (l : nat) (m : tnode_memory) (p : Z) (m' : tnode_memory) (k : Z) : Prop :=
  forall tn, find_loop l m p k = Some tn -> tn <> 0 -> find_loop l m' p k = Some tn.

Definition keeps_leaves (l : nat) (m : tnode_memory) (p : Z) (m' : tnode_memory) : Prop :=
  forall k, 0 <= k < capacity l -> keeps_leaf l m p m' k.

Lemma keeps_leaf_trans l m m' m'' p k : keeps_leaf l m p m' k -> keeps_leaf l m' p m'' k -> keeps_leaf l m p m'' k.
Proof. intros H1 H2 tn Hf Hne. apply H2; [|done]. by apply H1. Qed.

Lemma keeps_leaves_refl l m p : keeps_leaves l m p m.
Proof. by intros k _ tn. Qed.

Lemma keeps_leaves_trans l m m' m'' p : keeps_leaves l m p m' -> keeps_leaves l m' p m'' -> keeps_leaves l m p m''.
Proof. intros H1 H2 k Hk. by eapply keeps_leaf_trans; [apply H1|apply H2]. Qed.

(** ** Internal tnodes *)

(** An internal tnode with its words and the tnodes of its branches. *)
Record node dev t (l : nat) (p : Z) (s : gset Z) (f : Z -> Z) (ws : list Z) (ss : Z -> gset Z) : Prop := {
  node_addr : 0 < p < 2 ^ 32;
  node_at : t !! p = Some ws;
  node_ok : tnode_ok dev ws;
  node_set : forall a, a ∈ s <-> a = p \/ exists i, 0 <= i < 8 /\ a ∈ ss i;
  node_root : forall i, 0 <= i < 8 -> p ∉ ss i;
  node_apart : forall i j, 0 <= i < 8 -> 0 <= j < 8 -> i <> j -> ss i ## ss j;
  node_branch : forall i, 0 <= i < 8 -> exists q, get ws i = Some q /\ tree dev t l q (ss i) (part f l i)
}.

Lemma node_tree dev t l p s f ws ss : node dev t l p s f ws ss -> tree dev t (S l) p s f.
Proof. intros []. right. split; [done|]. exists ws. split; [done|]. split; [done|]. by exists ss. Qed.

Lemma tree_node dev t l p s f : tree dev t (S l) p s f -> p <> 0 -> exists ws ss, node dev t l p s f ws ss.
Proof. intros [(? & _)|(Hp & ws & Hl & Hok & ss & ?)] Hne; [done|]. exists ws, ss. by constructor; try apply H. Qed.

Lemma node_frame dev t t' l p s f ws ss :
  node dev t l p s f ws ss -> (forall a, a ∈ s -> t' !! a = t !! a) -> node dev t' l p s f ws ss.
Proof.
  intros [Ha Hl Hok Hs Hr Hd Hb] E. constructor; try done.
  - rewrite E; [done|]. apply Hs. by left.
  - intros i Hi. destruct (Hb i Hi) as (q & Hq & Hqt). exists q. split; [done|]. eapply tree_frame; [done|].
    intros a Hin. apply E, Hs. right. by exists i.
Qed.

Lemma node_widths dev dev' t l p s f ws ss :
  same_widths dev dev' -> node dev t l p s f ws ss -> node dev' t l p s f ws ss.
Proof.
  intros Hc [Ha Hl Hok Hs Hr Hd Hb]. constructor; try done; [by eapply tnode_ok_widths|].
  intros i Hi. destruct (Hb i Hi) as (q & Hq & Hqt). exists q. split; [done|]. by eapply tree_widths.
Qed.

Lemma node_counters dev dev' t l p s f ws ss :
  tnode_counters dev dev' -> node dev t l p s f ws ss -> node dev' t l p s f ws ss.
Proof. intros Hc. by apply node_widths, counters_geometry. Qed.

(** The function with the part in the branch [i] replaced. *)
Definition splice (f : Z -> Z) (l : nat) (i : Z) (g : Z -> Z) : Z -> Z :=
  fun k => if (i * capacity l <=? k) && (k <? (i + 1) * capacity l) then g (k - i * capacity l) else f k.

Lemma part_splice_eq f l i g k : 0 <= k < capacity l -> part (splice f l i g) l i k = g k.
Proof.
  intros Hk. unfold part, splice. rewrite (proj2 (Z.leb_le _ _)), (proj2 (Z.ltb_lt _ _)) by lia. simpl. f_equal. lia.
Qed.

Lemma part_splice_ne f l i j g k : i <> j -> 0 <= k < capacity l -> part (splice f l i g) l j k = part f l j k.
Proof.
  intros Hne Hk. unfold part, splice. destruct (Z.leb_spec (i * capacity l) (j * capacity l + k)); simpl; [|done].
  destruct (Z.ltb_spec (j * capacity l + k) ((i + 1) * capacity l)); simpl; [|done]. nia.
Qed.

Lemma splice_part f l i k : splice f l i (part f l i) k = f k.
Proof. unfold splice, part. case_match; [|done]. f_equal. lia. Qed.

(** The tnodes of an internal tnode outside the branch [i]. *)
Definition others (s : gset Z) (ss : Z -> gset Z) (i : Z) : gset Z := s ∖ ss i.

Lemma others_root dev t l p s f ws ss i : node dev t l p s f ws ss -> 0 <= i < 8 -> p ∈ others s ss i.
Proof. intros Hn Hi. apply elem_of_difference. split; [apply (node_set _ _ _ _ _ _ _ _ Hn); by left|by eapply node_root]. Qed.

Lemma others_branch dev t l p s f ws ss i j :
  node dev t l p s f ws ss -> 0 <= i < 8 -> 0 <= j < 8 -> i <> j -> ss j ⊆ others s ss i.
Proof.
  intros Hn Hi Hj Hne a Ha. apply elem_of_difference. split.
  - apply (node_set _ _ _ _ _ _ _ _ Hn). right. by exists j.
  - pose proof (node_apart _ _ _ _ _ _ _ _ Hn j i Hj Hi). set_solver.
Qed.

Lemma others_union dev t l p s f ws ss i : node dev t l p s f ws ss -> 0 <= i < 8 -> others s ss i ∪ ss i = s.
Proof.
  intros Hn Hi. apply set_eq. intros a. unfold others. rewrite elem_of_union, elem_of_difference.
  destruct (decide (a ∈ ss i)) as [Ha|Ha]; [|tauto]. split; [intros _|by right].
  apply (node_set _ _ _ _ _ _ _ _ Hn). right. by exists i.
Qed.

(** A branch that is missing has no tnodes. *)
Lemma node_missing dev t l p s f ws ss i :
  node dev t l p s f ws ss -> 0 <= i < 8 -> get ws i = Some 0 ->
  others s ss i = s /\ forall k, 0 <= k < capacity l -> part f l i k = 0.
Proof.
  intros Hn Hi Hg. destruct (node_branch _ _ _ _ _ _ _ _ Hn i Hi) as (q & Hq & Ht). rewrite Hg in Hq. injection Hq as <-.
  destruct (tree_null_inv _ _ _ _ _ Ht) as [E Hz]. split; [|done]. unfold others. rewrite E. apply difference_empty_L.
Qed.

Definition set_at {A} (ss : Z -> A) (i : Z) (x : A) : Z -> A := fun j => if j =? i then x else ss j.

(** The branch [i] is replaced by another tree. *)
Lemma node_replace dev t t' l p s f ws ss i q' s' g :
  tnode_wf dev -> node dev t l p s f ws ss -> 0 <= i < 8 ->
  t' !! p = Some (<[Z.to_nat i := q']> ws) ->
  (forall a, a ∈ others s ss i -> a <> p -> t' !! a = t !! a) ->
  s' ## others s ss i -> tree dev t' l q' s' g ->
  node dev t' l p (others s ss i ∪ s') (splice f l i g) (<[Z.to_nat i := q']> ws) (set_at ss i s').
Proof.
  intros Hw Hn Hi Hp Hf Hdis Ht. pose proof (others_root _ _ _ _ _ _ _ _ i Hn Hi) as Hroot. unfold set_at.
  constructor; try done.
  - apply Hn.
  - apply tnode_ok_insert; [apply Hn|]. by eapply tree_32.
  - intros a. rewrite elem_of_union. split.
    + intros [Ha|Ha].
      * unfold others in Ha. apply elem_of_difference in Ha as [Ha Hna]. apply (node_set _ _ _ _ _ _ _ _ Hn) in Ha as [->|(j & Hj & Ha)]; [by left|].
        right. exists j. split; [done|]. destruct (Z.eqb_spec j i) as [->|]; done.
      * right. exists i. split; [done|]. by rewrite Z.eqb_refl.
    + intros [->|(j & Hj & Ha)]; [by left|]. destruct (Z.eqb_spec j i) as [->|]; [by right|].
      left. by eapply (others_branch _ _ _ _ _ _ _ _ i j); [done..| |].
  - intros j Hj. destruct (Z.eqb_spec j i); [set_solver|by apply Hn].
  - intros j k Hj Hk Hne. pose proof (others_branch _ _ _ _ _ _ _ _ i j Hn Hi Hj) as Oj.
    pose proof (others_branch _ _ _ _ _ _ _ _ i k Hn Hi Hk) as Ok.
    destruct (Z.eqb_spec j i) as [->|], (Z.eqb_spec k i) as [->|]; try done; [| |by apply Hn].
    + specialize (Ok ltac:(lia)). set_solver.
    + specialize (Oj ltac:(lia)). set_solver.
  - intros j Hj. destruct (Z.eqb_spec j i) as [->|Hne].
    + exists q'. split.
      * apply get_insert_eq. destruct (node_ok _ _ _ _ _ _ _ _ Hn) as [_ ->]. pose proof (tnode_size_range dev Hw). lia.
      * eapply tree_ext; [done|]. intros k Hk. by rewrite part_splice_eq.
    + destruct (node_branch _ _ _ _ _ _ _ _ Hn j Hj) as (q & Hq & Hqt). exists q. rewrite get_insert_ne by lia.
      split; [done|]. eapply tree_ext; [eapply tree_frame; [done|]|].
      * intros a Ha. apply Hf.
        -- by eapply (others_branch _ _ _ _ _ _ _ _ i j); [done..|lia|].
        -- intros ->. by eapply (node_root _ _ _ _ _ _ _ _ Hn j Hj).
      * intros k Hk. by rewrite part_splice_ne by lia.
Qed.

(** Searching through an internal tnode. *)
Lemma find_loop_node dev m l p s f ws ss k q :
  node dev (tnodes m) l p s f ws ss -> get ws (branch k (S l)) = Some q -> find_loop (S l) m p k = find_loop l m q k.
Proof.
  intros Hn Hq. cbn [find_loop]. pose proof (node_addr _ _ _ _ _ _ _ _ Hn). rewrite (proj2 (Z.eqb_neq p 0)) by lia.
  unfold get_word. rewrite (node_at _ _ _ _ _ _ _ _ Hn). cbn [mbind option_bind]. by rewrite Hq.
Qed.

(** A branch is replaced, and a leaf stays. *)
Lemma node_keeps_leaf dev dev' m m' l p s s' f f' ws ws' ss ss' i q q' k :
  node dev (tnodes m) l p s f ws ss -> node dev' (tnodes m') l p s' f' ws' ss' -> 0 <= i < 8 ->
  get ws i = Some q -> get ws' i = Some q' ->
  (forall j, 0 <= j < 8 -> j <> i -> get ws' j = get ws j) ->
  (forall a, a ∈ others s ss i -> a <> p -> tnodes m' !! a = tnodes m !! a) -> 0 <= k < capacity (S l) ->
  (branch k (S l) = i -> q <> 0 -> q' = q /\ keeps_leaf l m q m' (k - i * capacity l)) -> keeps_leaf (S l) m p m' k.
Proof.
  intros Hn Hn' Hi Hq Hq' Hw Hf Hr Hk tn Hfind Hne.
  pose proof (branch_range k l) as Hb. pose proof (branch_split k l Hr) as Hsp.
  destruct (decide (branch k (S l) = i)) as [E|Hnei].
  - rewrite (find_loop_node dev m l p s f ws ss k q) in Hfind by (done || by rewrite E).
    rewrite (find_loop_node dev' m' l p s' f' ws' ss' k q') by (done || by rewrite E).
    destruct (decide (q = 0)) as [->|Hq0]; [destruct l; simpl in Hfind; by simplify_eq|].
    destruct (Hk E Hq0) as [-> Hl]. unfold keeps_leaf in Hl.
    replace k with (k - i * capacity l + i * capacity l) in Hfind |- * by lia.
    rewrite find_loop_rest in Hfind |- * by done. by apply Hl.
  - destruct (node_branch _ _ _ _ _ _ _ _ Hn _ Hb) as (r & Hgr & Hrt).
    rewrite (find_loop_node dev m l p s f ws ss k r) in Hfind by done.
    rewrite (find_loop_node dev' m' l p s' f' ws' ss' k r) by (done || by rewrite Hw).
    rewrite <- Hfind. eapply find_loop_frame; [done|]. intros a Ha. apply Hf.
    + by eapply (others_branch _ _ _ _ _ _ _ _ i (branch k (S l))); [done..| |].
    + intros ->. by eapply (node_root _ _ _ _ _ _ _ _ Hn _ Hb).
Qed.

Lemma node_keeps_leaves dev dev' m m' l p s s' f f' ws ws' ss ss' i q q' :
  node dev (tnodes m) l p s f ws ss -> node dev' (tnodes m') l p s' f' ws' ss' -> 0 <= i < 8 ->
  get ws i = Some q -> get ws' i = Some q' ->
  (forall j, 0 <= j < 8 -> j <> i -> get ws' j = get ws j) ->
  (forall a, a ∈ others s ss i -> a <> p -> tnodes m' !! a = tnodes m !! a) ->
  (q <> 0 -> q' = q /\ keeps_leaves l m q m') -> keeps_leaves (S l) m p m'.
Proof.
  intros Hn Hn' Hi Hq Hq' Hw Hf Hk k Hr. eapply node_keeps_leaf; try done. intros E Hne. destruct (Hk Hne) as [-> Hl].
  split; [done|]. apply Hl. pose proof (branch_split k l Hr). subst i. lia.
Qed.

(** ** Changing an entry *)

Definition put_at (f : Z -> Z) (k v : Z) : Z -> Z := fun j => if j =? k then v else f j.

Lemma put_at_splice f l i k v j :
  0 <= k - i * capacity l < capacity l ->
  splice f l i (put_at (part f l i) (k - i * capacity l) v) j = put_at f k v j.
Proof.
  intros Hk. unfold splice, put_at, part. destruct (Z.eqb_spec j k) as [->|].
  - rewrite (proj2 (Z.leb_le _ _)), (proj2 (Z.ltb_lt _ _)) by lia. simpl. by rewrite Z.eqb_refl.
  - case_match; [|done]. rewrite (proj2 (Z.eqb_neq _ _)) by lia. f_equal. lia.
Qed.

Lemma insert_same ws i q : 0 <= i -> get ws i = Some q -> <[Z.to_nat i := q]> ws = ws.
Proof. intros Hi Hq. apply list_insert_id. by rewrite get_nonneg in Hq. Qed.

Lemma level0_rest k i l : Z.land (k - i * capacity l) 15 = Z.land k 15.
Proof.
  change 15 with (2 ^ 4 - 1). rewrite !land_mask by lia. change (2 ^ 4) with 16. unfold capacity.
  replace (k - i * (16 * 8 ^ Z.of_nat l)) with (k + (- i * 8 ^ Z.of_nat l) * 16) by lia. by rewrite Z.mod_add.
Qed.

(** A branch whose tnodes have changed but not its root. *)
Lemma node_same_root dev t t' l p s f ws ss i q s' g :
  tnode_wf dev -> node dev t l p s f ws ss -> 0 <= i < 8 -> get ws i = Some q ->
  (forall a, a ∈ others s ss i -> t' !! a = t !! a) ->
  s' ## others s ss i -> tree dev t' l q s' g ->
  node dev t' l p (others s ss i ∪ s') (splice f l i g) ws (set_at ss i s').
Proof.
  intros Hw Hn Hi Hq Hf Hdis Ht. rewrite <- (insert_same ws i q) at 1 by (lia || done). eapply node_replace; try done.
  - rewrite insert_same by (lia || done). rewrite Hf; [apply Hn|by eapply others_root].
  - intros a Ha _. by apply Hf.
Qed.

Lemma tree_put dev m l p s f k tn ws v :
  tnode_wf dev -> tree dev (tnodes m) l p s f -> 0 <= k < capacity l ->
  find_loop l m p k = Some tn -> tn <> 0 -> tnodes m !! tn = Some ws -> in_w 32 v ->
  exists ws', put_entry dev ws k v = Some ws' /\
    tree dev (<[tn := ws']> (tnodes m)) l p s (put_at f k (group_base dev v)).
Proof.
  intros Hw. revert p s f k. induction l as [|l IH]; intros p s f k Ht Hk Hfind Hne Hws Hv.
  - injection Hfind as ->. change (capacity 0) with 16 in Hk.
    destruct Ht as [(-> & _)|(Hp & ws0 & Hl & Hok & -> & Hf)]; [done|].
    rewrite Hl in Hws. injection Hws as ->.
    destruct (put_entry_entry dev ws k v) as (ws' & Hput & Hlen & H32 & He); [done|apply Hok|by apply tnode_ok_fit|lia|done|].
    exists ws'. split; [done|]. right. split; [done|]. exists ws'. rewrite lookup_insert_eq. split; [done|].
    split; [constructor; [done|]; destruct Hok as [_ <-]; unfold blen; lia|]. split; [done|].
    intros j Hj. rewrite He by lia. unfold put_at. rewrite !Z.mod_small by lia. case_match; [done|]. apply Hf. lia.
  - cbn [find_loop] in Hfind. destruct (Z.eqb_spec p 0) as [->|Hp]; [by simplify_eq|].
    destruct (tree_node _ _ _ _ _ _ Ht Hp) as (w & ss & Hn). unfold get_word in Hfind.
    rewrite (node_at _ _ _ _ _ _ _ _ Hn) in Hfind. cbn [mbind option_bind] in Hfind.
    pose proof (branch_range k l) as Hr. pose proof (branch_split k l Hk) as Hsp. set (i := branch k (S l)) in *.
    destruct (node_branch _ _ _ _ _ _ _ _ Hn i Hr) as (q & Hq & Hqt). rewrite Hq in Hfind. cbn [mbind option_bind] in Hfind.
    replace k with (k - i * capacity l + i * capacity l) in Hfind by lia. rewrite find_loop_rest in Hfind by lia.
    destruct (IH q (ss i) (part f l i) (k - i * capacity l)) as (ws' & Hput & Ht'); try done; [lia|].
    exists ws'. split. { rewrite <- Hput. unfold put_entry, YAFFS_TNODES_LEVEL0_MASK. by rewrite level0_rest. }
    destruct (find_loop_spec dev m l q (ss i) (part f l i) (k - i * capacity l)) as (tn' & E & Hcase); try done; [lia|].
    rewrite Hfind in E. injection E as <-. rewrite (proj2 (Z.eqb_neq _ _) Hne) in Hcase. destruct Hcase as [Hin _].
    rewrite <- (others_union _ _ _ _ _ _ _ _ i Hn Hr).
    eapply tree_ext; [eapply node_tree, (node_same_root dev (tnodes m)); try done| intros j _; apply put_at_splice; lia].
    + intros a Ha. rewrite lookup_insert_ne; [done|]. intros <-. unfold others in Ha. set_solver.
    + unfold others. set_solver.
Qed.

(** Changing a level 0 tnode does not change the paths. *)
Lemma find_loop_leaf dev m m' l p s f k tn :
  tnode_wf dev -> tree dev (tnodes m) l p s f -> 0 <= k < capacity l -> find_loop l m p k = Some tn -> tn <> 0 ->
  (forall a, a <> tn -> tnodes m' !! a = tnodes m !! a) -> forall j, find_loop l m' p j = find_loop l m p j.
Proof.
  intros Hw. revert p s f k. induction l as [|l IH]; intros p s f k Ht Hk Hfind Hne E j; [done|].
  assert (p <> 0) as Hp by (intros ->; simpl in Hfind; by simplify_eq).
  destruct (tree_node _ _ _ _ _ _ Ht Hp) as (w & ss & Hn).
  pose proof (branch_range k l) as Hr. pose proof (branch_split k l Hk) as Hsp. set (i := branch k (S l)) in *.
  destruct (node_branch _ _ _ _ _ _ _ _ Hn i Hr) as (q & Hq & Hqt).
  rewrite (find_loop_node dev m l p s f w ss k q) in Hfind by done.
  replace k with (k - i * capacity l + i * capacity l) in Hfind by lia. rewrite find_loop_rest in Hfind by lia.
  destruct (find_loop_spec dev m l q (ss i) (part f l i) (k - i * capacity l)) as (tn' & E' & Hcase); try done; [lia|].
  rewrite Hfind in E'. injection E' as <-. rewrite (proj2 (Z.eqb_neq _ _) Hne) in Hcase. destruct Hcase as [Hin _].
  assert (p <> tn) as Hptn by (intros ->; by eapply (node_root _ _ _ _ _ _ _ _ Hn i Hr)).
  cbn [find_loop]. rewrite (proj2 (Z.eqb_neq _ _) Hp). unfold get_word. rewrite (E p), (node_at _ _ _ _ _ _ _ _ Hn) by done.
  cbn [mbind option_bind]. pose proof (branch_range j l) as Hrj.
  destruct (node_branch _ _ _ _ _ _ _ _ Hn _ Hrj) as (q' & Hq' & Hqt'). rewrite Hq'. cbn [mbind option_bind].
  destruct (decide (branch j (S l) = i)) as [Ej|Hnej].
  - rewrite Ej in *. rewrite Hq in Hq'. injection Hq' as <-.
    eapply (IH q (ss i) (part f l i) (k - i * capacity l)); try done. lia.
  - eapply find_loop_frame; [done|]. intros a Ha. apply E. intros ->.
    by eapply (node_apart _ _ _ _ _ _ _ _ Hn (branch j (S l)) i); [done..| |].
Qed.

End Tree.
