(* ===== verification/YaffsTnodesAdd.v ===== *)
(** * Growing the tree of a file

    [yaffs_AddOrFindLevel0Tnode] makes the tree tall enough and fills in the missing tnodes on
    the path of a chunk; the function that the tree holds stays the same. *)

From S2P Require Import Prelude NandEcc YaffsTags YaffsNand YaffsBlocks YaffsTnodes YaffsTnodesFacts YaffsTnodesPool.
From S2P Require Import YaffsTnodesTree.

Local Open Scope Z_scope.

Section Owns.
Context {mtd : Type}.
Implicit Types (dev : yaffs_Device mtd) (free : list Z) (s : gset Z).

(** A tree and the free tnodes. *)
Record owns dev (m : tnode_memory) free (l : nat) (p : Z) s (f : Z -> Z) : Prop := {
  owns_pool : pool dev m free;
  owns_tree : tree dev (tnodes m) l p s f;
  owns_apart : s ## list_to_set free
}.

(** From a tree with its free tnodes to another: what an operation does to the rest of the memory. *)
Definition advances dev (m : tnode_memory) s free dev' (m' : tnode_memory) s' free' : Prop :=
  tnode_counters dev dev' /\ transfers (tnodes m) (s ∪ list_to_set free) (tnodes m') (s' ∪ list_to_set free').

Lemma advances_refl dev m free l p s f : owns dev m free l p s f -> advances dev m s free dev m s free.
Proof.
  intros [Hp Ht _]. split; [apply counters_refl|]. apply transfers_refl.
  apply union_subseteq. split; [|by eapply list_to_set_dom]. intros a Ha. by eapply tree_dom.
Qed.

Lemma advances_trans dev m s free dev' m' s' free' dev'' m'' s'' free'' :
  advances dev m s free dev' m' s' free' -> advances dev' m' s' free' dev'' m'' s'' free'' -> advances dev m s free dev'' m'' s'' free''.
Proof. intros [C1 M1] [C2 M2]. split; [by eapply counters_trans|by eapply transfers_trans]. Qed.

Lemma get_word_tree dev m l p s f ws ss i :
  node dev (tnodes m) l p s f ws ss -> get_word m p i = get ws i.
Proof. intros Hn. unfold get_word. by rewrite (node_at _ _ _ _ _ _ _ _ Hn). Qed.

(** A tree is hung into a branch that is missing. *)
Lemma attach_spec dev m free l p s f ws ss i q s' g :
  pool dev m free -> node dev (tnodes m) l p s f ws ss -> s ## list_to_set free -> 0 <= i < 8 -> get ws i = Some 0 ->
  tree dev (tnodes m) l q s' g -> s' ## s -> s' ## list_to_set free ->
  exists m', set_word m p i q = Some m' /\ owns dev m' free (S l) p (s ∪ s') (splice f l i g) /\
    transfers (tnodes m) (s ∪ s' ∪ list_to_set free) (tnodes m') (s ∪ s' ∪ list_to_set free) /\
    keeps_leaves (S l) m p m' /\ get_word m' p i = Some q /\ (forall a, a <> p -> tnodes m' !! a = tnodes m !! a).
Proof.
  intros Hp Hn Hap Hi Hg Ht Hd1 Hd2. pose proof (pool_wf _ _ _ Hp) as Hw.
  destruct (node_missing _ _ _ _ _ _ _ _ i Hn Hi Hg) as [Ho _].
  assert (p ∈ s) as Hps by (apply (node_set _ _ _ _ _ _ _ _ Hn); by left).
  rewrite (set_word_Some dev m p i q ws) by (done || apply Hn). eexists. split; [done|].
  assert (node dev (<[p := <[Z.to_nat i := q]> ws]> (tnodes m)) l p (s ∪ s') (splice f l i g) (<[Z.to_nat i := q]> ws)
            (set_at ss i s')) as Hn'.
  { rewrite <- Ho at 1. eapply node_replace; try done; rewrite ?Ho; try done.
    - apply lookup_insert_eq.
    - intros a _ Ha. by rewrite lookup_insert_ne.
    - eapply tree_frame; [done|]. intros a Ha. rewrite lookup_insert_ne; [done|]. set_solver. }
  assert (get (<[Z.to_nat i := q]> ws) i = Some q) as Hq.
  { apply get_insert_eq. destruct (node_ok _ _ _ _ _ _ _ _ Hn) as [_ ->]. pose proof (tnode_size_range dev Hw). lia. }
  assert (s ⊆ dom (tnodes m)) as Hsd by (intros a Ha; eapply tree_dom; [by eapply node_tree|done]).
  assert (s' ⊆ dom (tnodes m)) as Hsd' by (intros a Ha; by eapply tree_dom).
  split_and!.
  - constructor; [|by eapply node_tree|set_solver]. apply pool_insert; [done|set_solver|set_solver].
  - apply transfers_insert; [|set_solver]. apply transfers_refl. pose proof (list_to_set_dom dev m free Hp). set_solver.
  - eapply (node_keeps_leaves dev dev m); try done.
    + intros j Hj Hne. by rewrite get_insert_ne by lia.
    + intros a _ Ha. simpl. by rewrite lookup_insert_ne.
  - unfold get_word. simpl tnodes. by rewrite lookup_insert_eq.
  - intros a Ha. simpl. by rewrite lookup_insert_ne.
Qed.

(** What happens to a branch of a tree happens to the tree: a branch of the tnode [p] is worked on, and the
    result [q'] is put in its place. *)
Lemma branch_replaced dev m free l p s f ws ss i q q' dev' m' free' s' g :
  node dev (tnodes m) l p s f ws ss -> s ## list_to_set free -> 0 <= i < 8 -> get ws i = Some q ->
  owns dev' m' free' l q' s' g -> same_widths dev dev' ->
  transfers (tnodes m) (ss i ∪ list_to_set free) (tnodes m') (s' ∪ list_to_set free') ->
  let s1 := others s ss i ∪ s' in
  let m1 := m' <| tnodes ::= <[p := <[Z.to_nat i := q']> ws]> |> in
  tnodes m' !! p = Some ws /\ set_word m' p i q' = Some m1 /\ owns dev' m1 free' (S l) p s1 (splice f l i g) /\
  transfers (tnodes m) (s ∪ list_to_set free) (tnodes m1) (s1 ∪ list_to_set free') /\
  (exists ss', node dev' (tnodes m1) l p s1 (splice f l i g) (<[Z.to_nat i := q']> ws) ss' /\ ss' i = s' /\
     (forall j, 0 <= j < 8 -> j <> i -> ss' j = ss j) /\ others s1 ss' i = others s ss i) /\
  (forall j, 0 <= j < 8 -> get_word m1 p j = if j =? i then Some q' else get_word m p j) /\
  (forall a, a ∈ others s ss i -> a <> p -> tnodes m1 !! a = tnodes m !! a) /\
  (forall a, a ∈ s' -> tnodes m1 !! a = tnodes m' !! a).
Proof.
  intros Hn Hap Hi Hq [Hp' Ht' Hap'] Hc Hm s1 m1.
  assert (others s ss i ⊆ dom (tnodes m)) as Hod.
  { intros a Ha. eapply tree_dom; [by eapply node_tree|]. unfold others in Ha. clear - Ha. set_solver. }
  assert (others s ss i ## ss i ∪ list_to_set free) as Hdis by (unfold others; clear - Hap; set_solver).
  assert (forall a, a ∈ others s ss i -> tnodes m' !! a = tnodes m !! a) as Hf
    by (intros a Ha; by eapply transfers_agree).
  pose proof (transfers_disjoint _ _ _ _ _ Hm Hod Hdis) as Hdis'.
  pose proof (others_root _ _ _ _ _ _ _ _ i Hn Hi) as Hroot.
  assert (tnodes m' !! p = Some ws) as Hpw by (rewrite Hf by done; apply Hn).
  pose proof (pool_wf _ _ _ Hp') as Hw'. pose proof (tnode_ok_widths _ _ _ Hc (node_ok _ _ _ _ _ _ _ _ Hn)) as Hok'.
  assert (forall a, a <> p -> tnodes m1 !! a = tnodes m' !! a) as Hm1 by (intros a Ha; simpl; by rewrite lookup_insert_ne).
  assert (forall a, a ∈ s' -> a <> p) as Hsp by (clear - Hdis' Hroot; set_solver).
  assert (node dev' (tnodes m1) l p s1 (splice f l i g) (<[Z.to_nat i := q']> ws) (set_at ss i s')) as Hn'.
  { eapply (node_replace dev' (tnodes m)); try done.
    - by eapply node_widths.
    - apply lookup_insert_eq.
    - intros a Ha Hap2. rewrite Hm1 by done. by apply Hf.
    - clear - Hdis'. set_solver.
    - eapply tree_frame; [done|]. intros a Ha. apply Hm1. by apply Hsp. }
  split; [done|]. split; [by eapply set_word_Some|]. split_and!.
  - constructor; [|by eapply node_tree|clear - Hdis' Hap'; set_solver].
    apply pool_insert; [done|by apply elem_of_dom_2 in Hpw|clear - Hdis' Hroot; set_solver].
  - apply transfers_insert; [|clear - Hroot; set_solver].
    rewrite <- (others_union _ _ _ _ _ _ _ _ i Hn Hi) at 1. unfold s1. rewrite <- !union_assoc_L. by apply transfers_more.
  - eexists. split; [done|]. unfold others at 1, set_at. rewrite Z.eqb_refl. split; [done|]. split.
    + intros j _ Hne. by rewrite (proj2 (Z.eqb_neq _ _) Hne).
    + unfold s1. clear - Hdis'. set_solver.
  - intros j Hj. unfold get_word. simpl tnodes. rewrite lookup_insert_eq, (node_at _ _ _ _ _ _ _ _ Hn). cbn [mbind option_bind].
    destruct (Z.eqb_spec j i) as [->|]; [|by rewrite get_insert_ne by lia].
    apply get_insert_eq. destruct Hok' as [_ ->]. pose proof (tnode_size_range dev' Hw'). lia.
  - intros a Ha Hne. rewrite Hm1 by done. by apply Hf.
  - intros a Ha. apply Hm1. by apply Hsp.
Qed.

(** The root of the branch stays. *)
Lemma branch_transfers dev m free l p s f ws ss i q dev' m' free' s' g :
  node dev (tnodes m) l p s f ws ss -> s ## list_to_set free -> 0 <= i < 8 -> get ws i = Some q ->
  owns dev' m' free' l q s' g -> same_widths dev dev' ->
  transfers (tnodes m) (ss i ∪ list_to_set free) (tnodes m') (s' ∪ list_to_set free') ->
  let s1 := others s ss i ∪ s' in
  s1 ## list_to_set free' /\ transfers (tnodes m) (s ∪ list_to_set free) (tnodes m') (s1 ∪ list_to_set free') /\
  (exists ss', node dev' (tnodes m') l p s1 (splice f l i g) ws ss' /\ ss' i = s' /\ others s1 ss' i = others s ss i) /\
  (keeps_leaves l m q m' -> keeps_leaves (S l) m p m').
Proof.
  intros Hn Hap Hi Hq H' Hc Hm s1.
  destruct (branch_replaced dev m free l p s f ws ss i q q dev' m' free' s' g) as (Hpw & _ & O1 & T1 & (ss' & N1 & E1 & _ & E2) & _ & Hf & _);
    try done.
  rewrite insert_same, tnodes_insert_id in * by (lia || done). split_and!; [apply O1|done|by exists ss'|].
  intros Hk. by eapply (node_keeps_leaves dev dev' m).
Qed.

Lemma branch_advances dev m free l p s f ws ss i q dev' m' free' s' g :
  pool dev m free -> node dev (tnodes m) l p s f ws ss -> s ## list_to_set free -> 0 <= i < 8 -> get ws i = Some q ->
  owns dev' m' free' l q s' g -> advances dev m (ss i) free dev' m' s' free' ->
  owns dev' m' free' (S l) p (others s ss i ∪ s') (splice f l i g) /\
  advances dev m s free dev' m' (others s ss i ∪ s') free' /\
  (exists ss', node dev' (tnodes m') l p (others s ss i ∪ s') (splice f l i g) ws ss' /\ ss' i = s') /\
  (keeps_leaves l m q m' -> keeps_leaves (S l) m p m').
Proof.
  intros Hpool Hn Hap Hi Hq H' [Hc Hm].
  destruct (branch_transfers dev m free l p s f ws ss i q dev' m' free' s' g) as (A & T & (ss' & N & E & _) & K); try done.
  { by apply counters_geometry. }
  split_and!; [constructor; [apply H'|by eapply node_tree|done]|done|by exists ss'|done].
Qed.

(** ** Height *)

Lemma tallness_loop_spec n x tall : 0 <= x < 8 ^ Z.of_nat n ->
  exists r : nat, tallness_loop n x tall = Some (tall + Z.of_nat r) /\ (r <= n)%nat /\ x < 8 ^ Z.of_nat r /\
    (r <> 0%nat -> 8 ^ (Z.of_nat r - 1) <= x).
Proof.
  revert x tall. induction n as [|n IH]; intros x tall Hx.
  - exists 0%nat. assert (x = 0) as -> by (simpl in Hx; lia). simpl. split_and!; try done. f_equal. lia.
  - cbn [tallness_loop]. unfold truthy. destruct (Z.eqb_spec x 0) as [->|Hne]; simpl negb; cbn match.
    + exists 0%nat. split_and!; try done; [f_equal; lia|lia].
    + rewrite Nat2Z.inj_succ, Z.pow_succ_r in Hx by lia. pose proof (Z.div_mod x 8). pose proof (Z.mod_pos_bound x 8).
      change YAFFS_TNODES_INTERNAL_BITS with 3. rewrite Z.shiftr_div_pow2 by lia. change (2 ^ 3) with 8.
      destruct (IH (x / 8) (tall + 1)) as (r & -> & Hr & Hup & Hlow); [lia|].
      exists (S r). rewrite Nat2Z.inj_succ, Z.pow_succ_r by lia. split_and!; [f_equal; lia|lia|lia|]. intros _.
      replace (Z.succ (Z.of_nat r) - 1) with (Z.of_nat r) by lia. destruct r as [|r]; [simpl; lia|].
      specialize (Hlow ltac:(lia)). replace (Z.of_nat (S r)) with (Z.succ (Z.of_nat (S r) - 1)) by lia.
      rewrite Z.pow_succ_r by lia. lia.
Qed.

(** The least level that has room for the chunk. *)
Lemma required_tallness_spec k : 0 <= k <= YAFFS_MAX_CHUNK_ID ->
  exists r : nat, required_tallness k = Some (Z.of_nat r) /\ (r <= 6)%nat /\ k < capacity r /\
    (r <> 0%nat -> capacity (r - 1) <= k).
Proof.
  unfold YAFFS_MAX_CHUNK_ID. intros Hk. unfold required_tallness. change YAFFS_TNODES_LEVEL0_BITS with 4.
  rewrite Z.shiftr_div_pow2 by lia. change (2 ^ 4) with 16.
  pose proof (Z.div_mod k 16). pose proof (Z.mod_pos_bound k 16).
  assert (k / 16 < 8 ^ 6) by (change (8 ^ 6) with 262144; lia).
  assert (8 ^ 6 < 8 ^ Z.of_nat 10) by done.
  destruct (tallness_loop_spec 10 (k / 16) 0) as (r & -> & Hr & Hup & Hlow); [lia|].
  exists r. unfold capacity. split_and!.
  - done.
  - destruct (decide (r <= 6)%nat) as [|Hn]; [done|]. specialize (Hlow ltac:(lia)).
    pose proof (Z.pow_le_mono_r 8 6 (Z.of_nat r - 1)). lia.
  - lia.
  - intros Hne. specialize (Hlow Hne). replace (Z.of_nat (r - 1)) with (Z.of_nat r - 1) by lia. lia.
Qed.

Definition ext (f : Z -> Z) (l : nat) : Z -> Z := fun k => if k <? capacity l then f k else 0.

Lemma ext_ext f l n k : ext (ext f l) (l + n) k = ext f l k.
Proof.
  unfold ext. destruct (Z.ltb_spec k (capacity (l + n))); [done|].
  pose proof (capacity_mono l (l + n) ltac:(lia)). by rewrite (proj2 (Z.ltb_ge _ _)) by lia.
Qed.

Lemma find_loop_grown l m m' p tn k :
  (forall k, find_loop (S l) m' tn k = if branch k (S l) =? 0 then find_loop l m p k else Some 0) ->
  0 <= k < capacity l -> find_loop (S l) m' tn k = find_loop l m p k.
Proof.
  intros H Hk. rewrite H. rewrite (branch_unique k l 0) by lia. done.
Qed.

(** ** The tree of a file *)

(** The tree of the file holds [f], which is 0 where the tree does not reach. *)
Record file_ok dev (m : tnode_memory) free (fs : yaffs_FileStructure) s (f : Z -> Z) : Prop := {
  file_level : 0 <= topLevel fs <= 6;
  file_owns : owns dev m free (Z.to_nat (topLevel fs)) (top fs) s f;
  file_zero : forall k, ~ 0 <= k < capacity (Z.to_nat (topLevel fs)) -> f k = 0;
  file_leaf0 : exists tn, find_loop (Z.to_nat (topLevel fs)) m (top fs) 0 = Some tn /\ tn <> 0
}.

Lemma find_loop_0 l m k : find_loop l m 0 k = Some 0.
Proof. by destruct l. Qed.

Lemma file_top dev m free fs s f : file_ok dev m free fs s f -> top fs <> 0.
Proof. intros [_ _ _ (tn & Hf & Hne)] E. rewrite E, find_loop_0 in Hf. by simplify_eq. Qed.

Lemma sane_level_ok dev m free fs s f k : file_ok dev m free fs s f -> 0 <= k <= YAFFS_MAX_CHUNK_ID -> sane_level fs k = true.
Proof.
  intros [Hl _ _ _] Hk. unfold sane_level, YAFFS_TNODES_MAX_LEVEL.
  rewrite (proj2 (Z.ltb_ge (topLevel fs) 0)), (proj2 (Z.ltb_ge 6 (topLevel fs))), (proj2 (Z.ltb_ge _ k)) by lia. done.
Qed.

(** Whether the tree is tall enough. *)
Lemma tall_enough fs k r : (r <> 0%nat -> capacity (r - 1) <= k) -> 0 <= topLevel fs -> 0 <= k < capacity r ->
  (topLevel fs <? Z.of_nat r) = negb (k <? capacity (Z.to_nat (topLevel fs))).
Proof.
  intros Hlow Hl Hk. destruct (Z.ltb_spec (topLevel fs) (Z.of_nat r)).
  - pose proof (capacity_mono (Z.to_nat (topLevel fs)) (r - 1) ltac:(lia)). specialize (Hlow ltac:(lia)).
    by rewrite (proj2 (Z.ltb_ge _ _)) by lia.
  - pose proof (capacity_mono r (Z.to_nat (topLevel fs)) ltac:(lia)). by rewrite (proj2 (Z.ltb_lt _ _)) by lia.
Qed.

(** Searching finds the level 0 tnode of the chunk, if it exists. *)
Lemma FindLevel0_spec dev m free fs s f k :
  file_ok dev m free fs s f -> 0 <= k <= YAFFS_MAX_CHUNK_ID ->
  exists tn, yaffs_FindLevel0Tnode m fs k = Some tn /\
    if tn =? 0 then f k = 0
    else k < capacity (Z.to_nat (topLevel fs)) /\ find_loop (Z.to_nat (topLevel fs)) m (top fs) k = Some tn /\ tn ∈ s /\
         exists ws, tnodes m !! tn = Some ws /\ tnode_ok dev ws /\ entry dev ws k = f k.
Proof.
  intros Hf Hk. unfold yaffs_FindLevel0Tnode. rewrite (sane_level_ok _ _ _ _ _ _ _ Hf Hk). simpl negb. cbn match.
  destruct (required_tallness_spec k Hk) as (r & -> & Hr & Hup & Hlow). cbn [mbind option_bind].
  rewrite (tall_enough fs k r) by (done || lia || apply Hf).
  destruct (Z.ltb_spec k (capacity (Z.to_nat (topLevel fs)))) as [Hin|Hout]; simpl negb; cbn match.
  - destruct (find_loop_spec dev m (Z.to_nat (topLevel fs)) (top fs) s f k) as (tn & E & Hcase); [apply Hf..|lia|].
    exists tn. split; [done|]. destruct (tn =? 0); [done|]. done.
  - exists 0. split; [done|]. simpl. apply (file_zero _ _ _ _ _ _ Hf). lia.
Qed.

Lemma fs_eta (fs : yaffs_FileStructure) : fs = fs <| top := top fs |> <| topLevel := topLevel fs |>.
Proof. by destruct fs. Qed.

(** ** Changing the entry of a chunk *)

Lemma put_leaf_spec dev m free fs s f k tn v :
  file_ok dev m free fs s f -> 0 <= k < capacity (Z.to_nat (topLevel fs)) ->
  find_loop (Z.to_nat (topLevel fs)) m (top fs) k = Some tn -> tn <> 0 -> in_w 32 v ->
  exists m', yaffs_PutLevel0Tnode dev m tn k v = Some m' /\
    file_ok dev m' free fs s (put_at f k (group_base dev v)) /\ advances dev m s free dev m' s free.
Proof.
  intros Hf Hk Hfind Hne Hv. pose proof (file_owns _ _ _ _ _ _ Hf) as H. pose proof (owns_pool _ _ _ _ _ _ _ H) as Hp.
  pose proof (pool_wf _ _ _ Hp) as Hw. pose proof (owns_tree _ _ _ _ _ _ _ H) as Ht.
  destruct (find_loop_spec dev m _ _ _ _ k Hw Ht Hk) as (tn' & E & Hcase). rewrite Hfind in E. injection E as <-.
  rewrite (proj2 (Z.eqb_neq _ _) Hne) in Hcase. destruct Hcase as (Hin & ws & Hws & Hok & _).
  destruct (tree_put dev m _ _ _ _ k tn ws v Hw Ht Hk Hfind Hne Hws Hv) as (ws' & Hput & Ht').
  unfold yaffs_PutLevel0Tnode. rewrite Hws. cbn [mbind option_bind].
  pose proof (file_level _ _ _ _ _ _ Hf) as Hl.
  assert (k < 2 ^ 32) by (pose proof (capacity_mono (Z.to_nat (topLevel fs)) 6 ltac:(lia)); change (capacity 6) with 4194304 in *; lia).
  rewrite !u32_small by (done || lia). rewrite Hput. cbn [mbind option_bind]. eexists. split; [done|].
  assert (tn ∉ free) by (pose proof (owns_apart _ _ _ _ _ _ _ H); set_solver).
  assert (forall j, find_loop (Z.to_nat (topLevel fs)) (m <| tnodes ::= <[tn := ws']> |>) (top fs) j =
                    find_loop (Z.to_nat (topLevel fs)) m (top fs) j) as Hsame.
  { eapply find_loop_leaf; try done. intros a Ha. simpl. by rewrite lookup_insert_ne. }
  split.
  - destruct Hf as [_ _ Hz (t0 & F0 & N0)]. constructor; [done| | |].
    + constructor; [|done|apply H]. apply pool_insert; [done| |done]. by eapply tree_dom.
    + intros j Hj. unfold put_at. rewrite (proj2 (Z.eqb_neq _ _)); [by apply Hz|]. intros ->. lia.
    + exists t0. by rewrite Hsame.
  - split; [apply counters_refl|]. apply transfers_insert; [|set_solver]. by eapply advances_refl.
Qed.

Lemma tnode_size_words dev ws : tnode_wf dev -> tnode_ok dev ws -> tnode_size dev = 4 * blen ws.
Proof.
  intros Hw [_ ->]. destruct (width_even dev Hw) as [h Hh]. unfold tnode_size, YAFFS_NTNODES_LEVEL0, sizeof_yaffs_Tnode. rewrite Hh.
  replace (2 * h * 16 / 8) with (h * 4) by (replace (2 * h * 16) with (h * 4 * 8) by lia; by rewrite Z.div_mul). case_match; [done|]. rewrite Z.div_mul; lia.
Qed.

Lemma file_ext dev m free fs s f f' : (forall j, f' j = f j) -> file_ok dev m free fs s f -> file_ok dev m free fs s f'.
Proof.
  intros E [Hl [Hp Ht Ha] Hz Hf]. constructor; [done| |by intros k Hk; rewrite E; apply Hz|done]. constructor; [done| |done]. eapply tree_ext; [done|]. intros k _. by rewrite E.
Qed.

End Owns.

Section Add.
Context {mtd : Type} (YMALLOC : tnode_memory -> Z -> Z) {Alloc : Allocator YMALLOC} (uninitialised : Z -> Z).
Implicit Types (dev : yaffs_Device mtd) (free : list Z) (s : gset Z).

Lemma set_word_blocks m a i v m' : set_word m a i v = Some m' -> blocks m' = blocks m.
Proof. unfold set_word. intros (ws & _ & (ws' & _ & [= <-])%bind_Some)%bind_Some. done. Qed.

(** A branch that is missing is filled with a clean tnode. *)
Lemma add_branch_spec dev m free l p s f ws ss i :
  pool dev m free -> node dev (tnodes m) l p s f ws ss -> s ## list_to_set free -> 0 <= i < 8 -> get ws i = Some 0 ->
  exists dev' m' free' s', add_branch YMALLOC uninitialised dev m p i = Some (dev', m') /\
    owns dev' m' free' (S l) p s' f /\ advances dev m s free dev' m' s' free' /\ keeps_leaves (S l) m p m' /\
    spends YMALLOC dev m free dev' m' free' 1 /\
    (forall r, enough YMALLOC dev m free 1 r -> exists q, get_word m' p i = Some q /\ q <> 0).
Proof.
  intros Hp Hn Hap Hi Hg. pose proof (pool_wf _ _ _ Hp) as Hw. unfold add_branch.
  destruct (node_missing _ _ _ _ _ _ _ _ i Hn Hi Hg) as [Ho Hz].
  destruct (GetTnode_spec YMALLOC uninitialised dev m free Hp) as (tn & dev' & m' & -> & Hc & Hcase).
  cbn [mbind option_bind]. pose proof (node_tree _ _ _ _ _ _ _ _ Hn) as Ht.
  assert (forall a, a ∈ s -> a ∈ dom (tnodes m)) as Hsd by (intros a Ha; by eapply tree_dom).
  destruct (Z.eqb_spec tn 0) as [->|Hne].
  - destruct Hcase as (-> & Hfail & T & Hp' & Hgr).
    rewrite (set_word_Some dev m' p i 0 ws) by (rewrite ?T; apply Hn || done). cbn [mbind option_bind].
    rewrite insert_same, tnodes_insert_id by (rewrite ?T; apply Hn || lia || done).
    exists dev', m', [], s. split; [done|]. split_and!.
    + constructor; [done|rewrite T; by eapply tree_counters|done].
    + split; [done|]. rewrite T. apply transfers_refl. intros a [Ha|Ha]%elem_of_union; [by apply Hsd|done].
    + intros k Hk tn Hf Hne. rewrite <- Hf. eapply find_loop_frame; [done|]. intros a _. by rewrite T.
    + split; [|done]. intros k r He. by destruct (not_enough YMALLOC dev m k r Hfail).
    + intros r He. by destruct (not_enough YMALLOC dev m 0 r Hfail).
  - destruct Hcase as (free' & Hp' & H32 & Hl & Hnf & Hm & Hlen).
    pose proof (transfers_disjoint _ _ _ _ s Hm Hsd Hap) as Hdis.
    assert (forall a, a ∈ s -> tnodes m' !! a = tnodes m !! a) as Hf by (intros a Ha; by eapply transfers_agree).
    destruct (attach_spec dev' m' free' l p s f ws ss i tn {[tn]} (fun _ => 0)) as (m2 & Eset & H2 & M2 & K2 & G2 & _);
      try done; try (clear - Hdis Hnf; set_solver).
    { eapply node_frame; [by eapply node_counters|done]. }
    { apply (tree_counters dev); [done|]. apply tree_zero; [done|done|unfold in_w in H32; lia]. }
    rewrite Eset. cbn [mbind option_bind]. exists dev', m2, free', (s ∪ {[tn]}). split; [done|]. split_and!.
    + destruct H2 as [P2 T2 A2]. constructor; [done| |done]. eapply tree_ext; [done|]. intros k Hk.
      transitivity (splice f l i (part f l i) k); [|by apply splice_part]. unfold splice. case_match; [|done].
      rewrite andb_true_iff, Z.leb_le, Z.ltb_lt in *. rewrite Hz by lia. done.
    + split; [done|]. eapply transfers_trans; [|exact M2].
      eapply transfers_eq; [eapply (transfers_more _ _ _ _ s); [exact Hm|done]|done|clear; set_solver].
    + eapply keeps_leaves_trans; [|done]. intros k Hk tn' Hfk _. rewrite <- Hfk. by eapply find_loop_frame.
    + eapply (spends_trans YMALLOC _ _ _ dev' m' free' _ _ _ 1 0); [done|]. apply spends_same; [by eapply set_word_blocks|done|lia].
    + intros r _. by exists tn.
Qed.

Lemma fill_branch_spec dev m free l p s f i :
  owns dev m free (S l) p s f -> p <> 0 -> 0 <= i < 8 ->
  exists dev' m' free' s', fill_branch YMALLOC uninitialised (S l) dev m p i 0 = Some (dev', m') /\
    owns dev' m' free' (S l) p s' f /\ advances dev m s free dev' m' s' free' /\ keeps_leaves (S l) m p m' /\
    spends YMALLOC dev m free dev' m' free' 1 /\
    (forall r, enough YMALLOC dev m free 1 r -> exists q, get_word m' p i = Some q /\ q <> 0).
Proof.
  intros H Hp Hi. destruct (tree_node _ _ _ _ _ _ (owns_tree _ _ _ _ _ _ _ H) Hp) as (ws & ss & Hn).
  destruct (node_branch _ _ _ _ _ _ _ _ Hn i Hi) as (q & Hq & Hqt). unfold fill_branch.
  rewrite (get_word_tree _ _ _ _ _ _ _ _ _ Hn), Hq. cbn [mbind option_bind].
  destruct (Z.eqb_spec q 0) as [->|Hne].
  - destruct (add_branch_spec dev m free l p s f ws ss i) as (dev' & m' & free' & s' & E & R); try done; [apply H..|].
    exists dev', m', free', s'. split; [|done]. rewrite E.
    destruct (Z.ltb_spec 1 (Z.of_nat (S l))); [done|]. by rewrite (proj2 (Z.eqb_eq (Z.of_nat (S l)) 1)) by lia.
  - exists dev, m, free, s. rewrite andb_false_r. change (truthy 0) with false. cbn match.
    split; [by case_match|]. split_and!; [done|by eapply advances_refl|apply keeps_leaves_refl|by apply spends_same; [..|lia]|]. intros r _. exists q.
    by rewrite (get_word_tree _ _ _ _ _ _ _ _ _ Hn).
Qed.

Lemma add_loop_rest l l' dev m p k i passed : (l' <= l)%nat ->
  add_loop YMALLOC uninitialised l' dev m p (k + i * capacity l) passed = add_loop YMALLOC uninitialised l' dev m p k passed.
Proof.
  revert dev m p. induction l' as [|l' IH]; intros dev m p H; cbn [add_loop]; [done|].
  case_match; [done|]. rewrite branch_rest by lia. destruct (fill_branch _ _ _ _ _ _ _ _) as [[dev1 m1]|]; simpl; [|done].
  destruct (get_word _ _ _); simpl; [|done]. apply IH. lia.
Qed.

(** The missing tnodes on the path of a chunk are filled in; the function stays the same. *)
Lemma add_loop_spec dev m free l p s f k :
  owns dev m free l p s f -> 0 <= k < capacity l ->
  exists tn dev' m' free' s', add_loop YMALLOC uninitialised l dev m p k 0 = Some (tn, dev', m') /\
    owns dev' m' free' l p s' f /\ advances dev m s free dev' m' s' free' /\ keeps_leaves l m p m' /\
    find_loop l m' p k = Some tn /\
    (forall r, enough YMALLOC dev m free l r -> p <> 0 -> tn <> 0).
Proof.
  revert dev m free p s f k. induction l as [|l IH]; intros dev m free p s f k H Hk.
  { exists p, dev, m, free, s. split; [done|]. split; [done|]. split; [by eapply advances_refl|]. split; [apply keeps_leaves_refl|]. done. }
  cbn [add_loop find_loop]. destruct (Z.eqb_spec p 0) as [->|Hp].
  { exists 0, dev, m, free, s. split; [done|]. split; [done|]. split; [by eapply advances_refl|]. split; [apply keeps_leaves_refl|]. done. }
  pose proof (branch_range k l) as Hr. pose proof (branch_split k l Hk) as Hsp. set (i := branch k (S l)) in *.
  destruct (fill_branch_spec dev m free l p s f i H Hp Hr) as (dev1 & m1 & free1 & s1 & -> & H1 & S1 & K1 & L1 & En).
  cbn [mbind option_bind].
  destruct (tree_node _ _ _ _ _ _ (owns_tree _ _ _ _ _ _ _ H1) Hp) as (ws & ss & Hn).
  destruct (node_branch _ _ _ _ _ _ _ _ Hn i Hr) as (q & Hq & Hqt).
  rewrite (get_word_tree _ _ _ _ _ _ _ _ i Hn), Hq. cbn [mbind option_bind].
  assert (owns dev1 m1 free1 l q (ss i) (part f l i)) as H2.
  { constructor; [apply H1|done|]. pose proof (owns_apart _ _ _ _ _ _ _ H1).
    pose proof (others_union _ _ _ _ _ _ _ _ i Hn Hr). set_solver. }
  destruct (IH dev1 m1 free1 q (ss i) (part f l i) (k - i * capacity l) H2) as (tn & dev2 & m2 & free2 & s2 & E & H3 & S3 & K3 & F3 & En3); [lia|].
  destruct (branch_advances dev1 m1 free1 l p s1 f ws ss i q dev2 m2 free2 s2 (part f l i)) as (H4 & S4 & (ss' & N4 & _) & K4);
    try done; [apply H1..|].
  assert (k = k - i * capacity l + i * capacity l) as Ek by lia. rewrite Ek, add_loop_rest, E by done.
  eexists _, _, _, _, _. split; [done|]. split_and!.
  - destruct H4 as [P T A]. constructor; [done| |done]. eapply tree_ext; [done|]. intros j _. apply splice_part.
  - by eapply advances_trans.
  - eapply keeps_leaves_trans; [done|]. by apply K4.
  - rewrite (get_word_tree _ _ _ _ _ _ _ _ i N4), Hq. cbn [mbind option_bind]. by rewrite find_loop_rest by done.
  - intros r He _. apply (En3 r); [by apply L1|].
    destruct (En r) as (q' & Hq' & Hne); [eapply enough_mono; [exact He|lia]|].
    rewrite (get_word_tree _ _ _ _ _ _ _ _ i Hn), Hq in Hq'. by simplify_eq.
Qed.

(** The tree gets a new top. *)
Lemma grow_one dev m free l p s f r :
  owns dev m free l p s f -> enough YMALLOC dev m free 1 r ->
  exists tn dev' m1 m' free' s', yaffs_GetTnode YMALLOC uninitialised dev m = Some (tn, dev', m1) /\ truthy tn = true /\
    set_word m1 tn 0 p = Some m' /\ owns dev' m' free' (S l) tn s' (ext f l) /\ advances dev m s free dev' m' s' free' /\
    (forall k, find_loop (S l) m' tn k = if branch k (S l) =? 0 then find_loop l m p k else Some 0) /\
    spends YMALLOC dev m free dev' m' free' 1.
Proof.
  intros [Hp Ht Hap] He. pose proof (pool_wf _ _ _ Hp) as Hw.
  destruct (GetTnode_spec YMALLOC uninitialised dev m free Hp) as (tn & dev' & m1 & E & Hc & Hcase).
  destruct (Z.eqb_spec tn 0) as [->|Hne].
  { destruct Hcase as (-> & Hfail & _). by destruct (not_enough YMALLOC dev m 0 r Hfail). }
  destruct Hcase as (free' & Hp' & H32 & Hl & Hnf & Hm & Hlen).
  assert (s ⊆ dom (tnodes m)) as Hsd by (intros a Ha; by eapply tree_dom).
  pose proof (transfers_disjoint _ _ _ _ s Hm Hsd Hap) as Hdis.
  assert (forall a, a ∈ s -> tnodes m1 !! a = tnodes m !! a) as Hf by (intros a Ha; by eapply transfers_agree).
  assert (0 < tn < 2 ^ 32) as Htn by (unfold in_w in H32; lia).
  destruct (tree_node dev (tnodes m1) l tn {[tn]} (fun _ => 0)) as (ws & ss & Hn); [by apply tree_zero|done|].
  assert (ws = zero_tnode dev) as -> by (pose proof (node_at _ _ _ _ _ _ _ _ Hn); congruence).
  apply (node_counters dev dev') in Hn; [|done].
  destruct (attach_spec dev' m1 free' l tn {[tn]} (fun _ => 0) (zero_tnode dev) ss 0 p s f) as (m2 & Hset & H2 & M2 & _ & G2 & F2);
    try done; try (clear - Hdis Hnf; set_solver).
  { by apply zero_tnode_word. }
  { eapply tree_frame; [by eapply tree_counters|done]. }
  exists tn, dev', m1, m2, free', ({[tn]} ∪ s). split; [done|]. split; [by unfold truthy; rewrite (proj2 (Z.eqb_neq _ _) Hne)|].
  split; [done|]. split_and!.
  - destruct H2 as [P2 T2 A2]. constructor; [done| |done]. eapply tree_ext; [done|]. intros k Hk. unfold splice, ext.
    rewrite Z.mul_0_l, Z.sub_0_r. rewrite (proj2 (Z.leb_le 0 k)) by lia. simpl. by rewrite Z.mul_1_l.
  - split; [done|]. eapply transfers_trans; [|exact M2].
    eapply transfers_eq; [eapply (transfers_more _ _ _ _ s); [exact Hm|done]|done|clear; set_solver].
  - intros k. cbn [find_loop]. rewrite (proj2 (Z.eqb_neq _ _) Hne). pose proof (branch_range k l) as Hr.
    assert (forall j, 0 <= j < 8 -> get_word m2 tn j = if j =? 0 then Some p else Some 0) as Hg.
    { intros j Hj. unfold get_word. rewrite (set_word_Some dev' m1 tn 0 p (zero_tnode dev)) in Hset; try done; [|by apply Hp'|apply Hn].
      injection Hset as <-. simpl tnodes. rewrite lookup_insert_eq. cbn [mbind option_bind].
      destruct (Z.eqb_spec j 0) as [->|].
      - apply get_insert_eq. rewrite (ok_size _ _ (zero_tnode_ok dev Hw)). pose proof (tnode_size_range dev Hw). lia.
      - rewrite get_insert_ne by lia. by apply zero_tnode_word. }
    rewrite Hg by done. destruct (Z.eqb_spec (branch k (S l)) 0) as [Eb|Hb]; cbn [mbind option_bind].
    + eapply find_loop_frame; [done|]. intros a Ha. rewrite F2; [by apply Hf|]. set_solver.
    + by destruct l.
  - eapply (spends_trans YMALLOC _ _ _ dev' m1 free' _ _ _ 1 0); [done|]. apply spends_same; [by eapply set_word_blocks|done|lia].
Qed.

Lemma grow_loop_spec n dev m free l fs s f r :
  owns dev m free l (top fs) s f -> enough YMALLOC dev m free n r ->
  exists p dev' m' free' s', grow_loop YMALLOC uninitialised n dev m fs = Some (dev', m', fs <| top := p |>) /\
    owns dev' m' free' (l + n) p s' (ext f l) /\ advances dev m s free dev' m' s' free' /\
    (forall k, 0 <= k < capacity l -> find_loop (l + n) m' p k = find_loop l m (top fs) k) /\
    spends YMALLOC dev m free dev' m' free' n.
Proof.
  revert dev m free l fs s f. induction n as [|n IH]; intros dev m free l fs s f H He.
  - exists (top fs), dev, m, free, s. rewrite Nat.add_0_r. split; [by destruct fs|]. split_and!; [|by eapply advances_refl|done|by apply spends_same; [..|lia]].
    destruct H as [P T A]. constructor; [done| |done]. eapply tree_ext; [done|]. intros k Hk. unfold ext.
    by rewrite (proj2 (Z.ltb_lt _ _)) by lia.
  - destruct (grow_one dev m free l (top fs) s f r H) as (tn & dev1 & m1 & m2 & free1 & s1 & E1 & T1 & E2 & H1 & S1 & F1 & L1);
      [eapply enough_mono; [exact He|lia]|].
    cbn [grow_loop]. rewrite E1. cbn [mbind option_bind]. rewrite T1, E2. cbn [mbind option_bind].
    change (owns dev1 m2 free1 (S l) (top (fs <| top := tn |>)) s1 (ext f l)) in H1.
    destruct (IH dev1 m2 free1 (S l) (fs <| top := tn |>) s1 (ext f l) H1) as (p & dev2 & m3 & free2 & s2 & E3 & H3 & S3 & F3 & L3);
      [by apply L1|].
    rewrite E3. exists p, dev2, m3, free2, s2. split; [done|]. replace (l + S n)%nat with (S l + n)%nat by lia.
    split_and!; [|by eapply advances_trans| |exact (spends_trans YMALLOC _ _ _ _ _ _ _ _ _ 1 n L1 L3)].
    + destruct H3 as [P T A]. constructor; [done| |done]. eapply tree_ext; [done|]. intros k _.
      replace (S l) with (l + 1)%nat by lia. apply ext_ext.
    + intros k Hk. rewrite F3 by (pose proof (capacity_mono l (S l) ltac:(lia)); lia).
      by apply find_loop_grown.
Qed.

Lemma grow_tree_spec dev m free fs s f (r : nat) x :
  file_ok dev m free fs s f -> (r <= 6)%nat -> (topLevel fs < Z.of_nat r -> enough YMALLOC dev m free 6 x) ->
  exists dev' m' p l free' s', let fs' := fs <| top := p |> <| topLevel := l |> in
    grow_tree YMALLOC uninitialised dev m fs (Z.of_nat r) = Some (dev', m', fs') /\
    file_ok dev' m' free' fs' s' f /\ advances dev m s free dev' m' s' free' /\ Z.of_nat r <= l /\
    spends YMALLOC dev m free dev' m' free' 6.
Proof.
  intros Hf Hr He. pose proof (file_level _ _ _ _ _ _ Hf) as Hl. unfold grow_tree.
  destruct (Z.ltb_spec (topLevel fs) (Z.of_nat r)) as [Hlt|Hge].
  - set (n := Z.to_nat (Z.of_nat r - topLevel fs)).
    destruct (grow_loop_spec n dev m free (Z.to_nat (topLevel fs)) fs s f x) as (p & dev' & m' & free' & s' & -> & H1 & S1 & F1 & L1);
      [apply Hf|eapply enough_mono; [by apply He|lia]|].
    cbn [mbind option_bind]. exists dev', m', p, (Z.of_nat r), free', s'. split; [done|].
    replace (Z.to_nat (topLevel fs) + n)%nat with r in H1, F1 by lia.
    pose proof (capacity_mono (Z.to_nat (topLevel fs)) r ltac:(lia)). pose proof (capacity_pos (Z.to_nat (topLevel fs))).
    split_and!; [|done|lia|eapply spends_more; [exact L1|lia]]. constructor.
    + change (0 <= Z.of_nat r <= 6). lia.
    + change (owns dev' m' free' (Z.to_nat (Z.of_nat r)) p s' f). rewrite Nat2Z.id.
      destruct H1 as [P T A]. constructor; [done| |done]. eapply tree_ext; [done|]. intros k Hk. unfold ext.
      case_match eqn:E; [done|]. symmetry. apply (file_zero _ _ _ _ _ _ Hf). rewrite Z.ltb_ge in E. lia.
    + intros k Hk. change (~ 0 <= k < capacity (Z.to_nat (Z.of_nat r))) in Hk. rewrite Nat2Z.id in Hk.
      apply (file_zero _ _ _ _ _ _ Hf). lia.
    + destruct (file_leaf0 _ _ _ _ _ _ Hf) as (tn & Hfind & Hne). exists tn. split; [|done].
      change (find_loop (Z.to_nat (Z.of_nat r)) m' p 0 = Some tn). rewrite Nat2Z.id, F1; [done|lia].
  - exists dev, m, (top fs), (topLevel fs), free, s. cbv zeta. rewrite <- fs_eta.
    split_and!; try done; [eapply advances_refl; apply Hf|by apply spends_same; [..|lia]].
Qed.

(** The tnode of the chunk is found or made; the tree holds the same function.  Making the tree taller needs
    memory: without it the level is raised all the same. *)
Lemma AddOrFind_spec dev m free fs s f k r :
  file_ok dev m free fs s f -> 0 <= k <= YAFFS_MAX_CHUNK_ID ->
  k < capacity (Z.to_nat (topLevel fs)) \/ enough YMALLOC dev m free 6 r ->
  exists tn dev' m' p l free' s', let fs' := fs <| top := p |> <| topLevel := l |> in
    yaffs_AddOrFindLevel0Tnode YMALLOC uninitialised dev m fs k 0 = Some (tn, dev', m', fs') /\
    file_ok dev' m' free' fs' s' f /\ advances dev m s free dev' m' s' free' /\
    k < capacity (Z.to_nat l) /\ find_loop (Z.to_nat l) m' p k = Some tn /\ (enough YMALLOC dev m free 12 r -> tn <> 0).
Proof.
  intros Hf Hk He. unfold yaffs_AddOrFindLevel0Tnode. rewrite (sane_level_ok _ _ _ _ _ _ _ Hf Hk). simpl negb. cbn match.
  destruct (required_tallness_spec k Hk) as (tall & -> & Hr & Hup & Hlow). cbn [mbind option_bind].
  destruct (grow_tree_spec dev m free fs s f tall r Hf Hr) as (dev1 & m1 & p & l & free1 & s1 & -> & Hf1 & S1 & Hrl & L1).
  { intros Hlt. destruct He as [Hin|]; [|done]. pose proof (file_level _ _ _ _ _ _ Hf).
    pose proof (capacity_mono (Z.to_nat (topLevel fs)) (tall - 1) ltac:(lia)). specialize (Hlow ltac:(lia)). lia. }
  cbn [mbind option_bind]. set (fs1 := fs <| top := p |> <| topLevel := l |>) in *.
  change (top fs1) with p. change (topLevel fs1) with l.
  pose proof (file_level _ _ _ _ _ _ Hf1) as Hl. change (topLevel fs1) with l in Hl.
  pose proof (capacity_mono tall (Z.to_nat l) ltac:(lia)).
  pose proof (file_owns _ _ _ _ _ _ Hf1) as H1. change (owns dev1 m1 free1 (Z.to_nat l) p s1 f) in H1.
  destruct (Z.ltb_spec 0 l) as [Hpos|Hz].
  - destruct (add_loop_spec dev1 m1 free1 (Z.to_nat l) p s1 f k H1) as (tn & dev2 & m2 & free2 & s2 & -> & H2 & S2 & K2 & F2 & E2); [lia|].
    cbn [mbind option_bind]. exists tn, dev2, m2, p, l, free2, s2. split; [done|]. split_and!.
    + destruct Hf1 as [_ _ Z1 (tn0 & F0 & N0)]. constructor; [done..|]. exists tn0. split; [|done].
      apply K2; [|done|done]. pose proof (capacity_pos (Z.to_nat l)). lia.
    + by eapply advances_trans.
    + lia.
    + done.
    + intros He12. apply (E2 r); [apply L1; eapply enough_mono; [exact He12|lia]|].
      intros Ep. by apply (file_top _ _ _ _ _ _ Hf1).
  - assert (l = 0) as -> by lia. change (truthy 0) with false. cbn match. cbn [mbind option_bind].
    exists p, dev1, m1, p, 0, free1, s1. split; [done|]. split_and!; [done|done|simpl in *; lia|done|].
    intros _ Ep. by apply (file_top _ _ _ _ _ _ Hf1).
Qed.

End Add.
