(* ===== verification/YaffsObjectsFacts.v ===== *)
(** * The table of objects, the directories and the pool

    The invariant [objects_ok] of the objects in memory, and what finding, creating and moving an object do. *)

From stdpp Require Import list.
From S2P Require Import Prelude NandEcc YaffsTags YaffsNand YaffsBlocks YaffsTnodes YaffsTnodesFacts YaffsTnodesPool YaffsTnodesTree YaffsTnodesAdd.
From S2P Require Import YaffsObjects.

Local Open Scope Z_scope.

Abbreviation object_store := (gmap Z yaffs_Object).

(** ** Objects that are only linked to others *)

(** Only the lists of an object and its link to the equivalent object have changed. *)
Definition same_core (o o' : yaffs_Object) : Prop :=
  o' = o <| children := children o' |> <| hardLinks := hardLinks o' |> <| equivalentObject := equivalentObject o' |>.

Lemma same_core_refl o : same_core o o.
Proof. by destruct o. Qed.

Lemma same_core_trans o o' o'' : same_core o o' -> same_core o' o'' -> same_core o o''.
Proof. unfold same_core. intros E1 E2. rewrite E2, E1. by destruct o. Qed.

Lemma core_children o c : same_core o (o <| children := c |>).
Proof. by destruct o. Qed.

(** What the core holds. *)
Lemma core_fields o o' : same_core o o' ->
  (obj_objectId o', variantType o', deferedFree o', parent o', fileVariant o', equivalentObjectId o') =
  (obj_objectId o, variantType o, deferedFree o, parent o, fileVariant o, equivalentObjectId o).
Proof. by intros ->. Qed.

(** Every object but [x] has its core. *)
Definition cores_but (x : Z) (t t' : object_store) : Prop :=
  dom t' = dom t /\ forall a o, a <> x -> t !! a = Some o -> exists o', t' !! a = Some o' /\ same_core o o'.

Lemma cores_refl x t : cores_but x t t.
Proof. split; [done|]. intros a o _ H. exists o. split; [done|apply same_core_refl]. Qed.

Lemma cores_trans x t t' t'' : cores_but x t t' -> cores_but x t' t'' -> cores_but x t t''.
Proof.
  intros [D1 H1] [D2 H2]. split; [congruence|]. intros a o Hne Ha. destruct (H1 a o Hne Ha) as (o' & Ha' & E1).
  destruct (H2 a o' Hne Ha') as (o'' & Ha'' & E2). exists o''. split; [done|]. by eapply same_core_trans.
Qed.

Lemma cores_insert x (t : object_store) o' : is_Some (t !! x) -> cores_but x t (<[x := o']> t).
Proof.
  intros [o Hx]. split.
  - rewrite dom_insert_L. apply elem_of_dom_2 in Hx. set_solver.
  - intros a oa Hne Ha. exists oa. rewrite lookup_insert_ne by done. split; [done|apply same_core_refl].
Qed.

(** A change of the children of an object. *)
Lemma cores_linked x (t : object_store) d o c : t !! d = Some o -> cores_but x t (<[d := o <| children := c |>]> t).
Proof.
  intros Hd. split.
  - rewrite dom_insert_L. apply elem_of_dom_2 in Hd. set_solver.
  - intros a oa _ Ha. destruct (decide (a = d)) as [->|Hne].
    + rewrite Hd in Ha. injection Ha as <-. exists (o <| children := c |>). rewrite lookup_insert_eq. split; [done|apply core_children].
    + exists oa. rewrite lookup_insert_ne by done. split; [done|apply same_core_refl].
Qed.

Lemma cores_lookup x t t' a o' : cores_but x t t' -> a <> x -> t' !! a = Some o' -> exists o, t !! a = Some o /\ same_core o o'.
Proof.
  intros [D H] Hne Ha. assert (a ∈ dom t) as [o Ho]%elem_of_dom by (rewrite <- D; by apply elem_of_dom_2 in Ha).
  destruct (H a o Hne Ho) as (o2 & Ho2 & E). exists o. split; [done|]. rewrite Ha in Ho2. by injection Ho2 as <-.
Qed.

Lemma update_object_Some om a f o : objects om !! a = Some o -> update_object om a f = Some (om <| objects := <[a := f o]> (objects om) |>).
Proof. intros E. unfold update_object. by rewrite E. Qed.

Lemma update_object_in om t a f o : t !! a = Some o -> update_object (om <| objects := t |>) a f = Some (om <| objects := <[a := f o]> t |>).
Proof. intros E. unfold update_object. simpl. by rewrite E. Qed.

(** ** Directories *)

Definition is_directory (t : object_store) (d : Z) : Prop := exists o, t !! d = Some o /\ variantType o = YAFFS_OBJECT_TYPE_DIRECTORY.

Lemma directory_cores x t t' d :
  cores_but x t t' -> (forall o o', t !! x = Some o -> t' !! x = Some o' -> variantType o' = variantType o) -> is_directory t d -> is_directory t' d.
Proof.
  intros H Hx (o & Hd & Hv). destruct (decide (d = x)) as [->|Hne].
  - assert (x ∈ dom t') as [o' Ho']%elem_of_dom by (rewrite (proj1 H); by apply elem_of_dom_2 in Hd). exists o'. split; [done|]. by rewrite (Hx o o').
  - destruct (proj2 H d o Hne Hd) as (o' & Ho' & E). exists o'. split; [done|]. pose proof (core_fields _ _ E) as F. congruence.
Qed.

(** The object is out of its directory. *)
Lemma Remove_spec om x o :
  objects om !! x = Some o -> (parent o <> 0 -> is_Some (objects om !! parent o)) ->
  exists t c, yaffs_RemoveObjectFromDirectory om x = Some (om <| objects := t |>) /\ cores_but x (objects om) t /\
    t !! x = Some (o <| children := c |> <| parent := 0 |>).
Proof.
  intros Hx Hp. unfold yaffs_RemoveObjectFromDirectory. rewrite Hx. cbn [mbind option_bind]. unfold truthy. destruct (Z.eqb_spec (parent o) 0) as [E|E]; cbn [negb].
  - cbn [mbind option_bind]. rewrite (update_object_Some om x _ o Hx). eexists _, (children o). split; [done|]. split; [by apply cores_insert|]. rewrite lookup_insert_eq. by destruct o.
  - destruct (Hp E) as [d Hd]. rewrite (update_object_Some om _ _ d Hd). cbn [mbind option_bind]. set (t1 := <[parent o := _]> (objects om)).
    assert (exists c, t1 !! x = Some (o <| children := c |>)) as [c Hx1].
    { unfold t1. destruct (decide (x = parent o)) as [Eq|Hne].
      - rewrite <- Eq, lookup_insert_eq. rewrite <- Eq, Hx in Hd. injection Hd as <-. by eexists.
      - rewrite lookup_insert_ne by done. exists (children o). rewrite Hx. by destruct o. }
    rewrite (update_object_in om t1 x _ _ Hx1). eexists _, c. split; [done|]. split; [|by rewrite lookup_insert_eq].
    eapply cores_trans; [by apply cores_linked|]. by apply cores_insert.
Qed.

(** The object as it is in a directory: below the two special ones it is unlinked. *)
Definition added_to om (d : Z) (o : yaffs_Object) : yaffs_Object :=
  if (d =? unlinkedDir om) || (d =? deletedDir om) then o <| parent := d |> <| unlinked := true |> <| renameAllowed := false |> else o <| parent := d |>.

Definition counted_in {mtd} om (d : Z) (dev : yaffs_Device mtd) : yaffs_Device mtd :=
  if (d =? unlinkedDir om) || (d =? deletedDir om) then dev <| nUnlinkedFiles ::= Z.succ |> else dev.

Lemma Add_spec {mtd} (dev : yaffs_Device mtd) om d x o :
  d <> 0 -> is_directory (objects om) d -> objects om !! x = Some o -> (parent o <> 0 -> is_Some (objects om !! parent o)) ->
  exists t c, yaffs_AddObjectToDirectory dev om d x = Some (counted_in om d dev, om <| objects := t |>) /\ cores_but x (objects om) t /\
    t !! x = Some (added_to om d (o <| children := c |>)).
Proof.
  intros Hd0 (dd & Hd & Hv) Hx Hp. unfold yaffs_AddObjectToDirectory. rewrite (proj2 (Z.eqb_neq d 0)), Hd by done. cbn [mbind option_bind].
  rewrite bool_decide_false by (by intros []). destruct (Remove_spec om x o Hx Hp) as (t1 & c1 & -> & C1 & X1). cbn [mbind option_bind].
  assert (is_Some (t1 !! d)) as [d1 Hd1] by (apply elem_of_dom; rewrite (proj1 C1); by apply elem_of_dom_2 in Hd).
  rewrite (update_object_in om t1 d _ d1 Hd1). cbn [mbind option_bind]. set (t2 := <[d := _]> t1).
  assert (exists c, t2 !! x = Some (o <| children := c |> <| parent := 0 |>)) as [c Hx2].
  { unfold t2. destruct (decide (x = d)) as [->|Hne].
    - rewrite lookup_insert_eq. rewrite X1 in Hd1. injection Hd1 as <-. by eexists.
    - rewrite lookup_insert_ne by done. by exists c1. }
  assert (cores_but x (objects om) t2) as C2 by (eapply cores_trans; [exact C1|by apply cores_linked]).
  assert (forall o', cores_but x (objects om) (<[x := o']> t2)) as C3 by (intros o'; eapply cores_trans; [exact C2|by apply cores_insert]).
  rewrite (update_object_in om t2 x _ _ Hx2). cbn [mbind option_bind]. unfold counted_in, added_to.
  match goal with |- context [om <| objects := ?t |>] => set (t3 := t) end.
  change (unlinkedDir (om <| objects := t3 |>)) with (unlinkedDir om). change (deletedDir (om <| objects := t3 |>)) with (deletedDir om).
  destruct ((d =? unlinkedDir om) || (d =? deletedDir om)).
  - rewrite (update_object_in om t3 x _ _ (lookup_insert_eq _ _ _)). cbn [mbind option_bind]. rewrite (update_object_in om _ x _ _ (lookup_insert_eq _ _ _)). cbn [mbind option_bind].
    eexists _, c. split; [done|]. unfold t3. rewrite !insert_insert_eq. split; [apply C3|]. by rewrite lookup_insert_eq.
  - eexists _, c. split; [done|]. split; [apply C3|]. unfold t3. by rewrite lookup_insert_eq.
Qed.

(** ** The table *)

Definition bucket_of (n : Z) : nat := Z.to_nat (yaffs_HashFunction n).

Definition number_ok (n : Z) : Prop := 0 < n < 2 ^ 31.

Lemma bucket_of_range n : (bucket_of n < 256)%nat.
Proof.
  unfold bucket_of, yaffs_HashFunction, YAFFS_NOBJECT_BUCKETS. pose proof (Z.rem_bound_pos (Z.abs (s32 n)) 256 (Z.abs_nonneg _) ltac:(lia)). lia.
Qed.

(** Every object is in the bucket of its number, and no two have the same number. *)
Record table om : Prop := {
  tb_size : length (objectBucket om) = 256%nat;
  tb_bucket : forall k b a, objectBucket om !! k = Some b -> a ∈ bucket_list b -> exists o, objects om !! a = Some o /\ bucket_of (obj_objectId o) = k;
  tb_hashed : forall a o, objects om !! a = Some o -> exists b, objectBucket om !! bucket_of (obj_objectId o) = Some b /\ a ∈ bucket_list b;
  tb_unique : forall a a' o o', objects om !! a = Some o -> objects om !! a' = Some o' -> obj_objectId o = obj_objectId o' -> a = a';
  tb_number : forall a o, objects om !! a = Some o -> number_ok (obj_objectId o)
}.

(** The walk finds the object with the number. *)
Lemma find_in_bucket_spec om n l :
  (forall a, a ∈ l -> is_Some (objects om !! a)) ->
  exists r, find_in_bucket l om n = Some r /\
    ((exists a o, a ∈ l /\ objects om !! a = Some o /\ obj_objectId o = n /\ r = if deferedFree o then 0 else a) \/
     (r = 0 /\ forall a o, a ∈ l -> objects om !! a = Some o -> obj_objectId o <> n)).
Proof.
  induction l as [|a l IH]; intros Hl; cbn [find_in_bucket].
  - exists 0. split; [done|]. right. split; [done|]. by intros a o ?%elem_of_nil.
  - destruct (Hl a) as [o Ho]; [by apply elem_of_cons; left|]. rewrite Ho. cbn [mbind option_bind]. destruct (Z.eqb_spec (obj_objectId o) n) as [E|E].
    + eexists. split; [done|]. left. exists a, o. split_and!; [by apply elem_of_cons; left|done..].
    + destruct IH as (r & -> & H); [intros b Hb; apply Hl, elem_of_cons; by right|]. exists r. split; [done|]. destruct H as [(b & ob & Hb & H)|[-> H]].
      * left. exists b, ob. split; [by apply elem_of_cons; right|done].
      * right. split; [done|]. intros b ob [->|Hb]%elem_of_cons Hob; [congruence|by eapply H].
Qed.

Lemma Find_spec om n : table om ->
  exists r, yaffs_FindObjectByNumber om n = Some r /\
    ((exists a o, objects om !! a = Some o /\ obj_objectId o = n /\ r = if deferedFree o then 0 else a) \/
     (r = 0 /\ forall a o, objects om !! a = Some o -> obj_objectId o <> n)).
Proof.
  intros [Hs Hb Hh _ _]. unfold yaffs_FindObjectByNumber. fold (bucket_of n). destruct (lookup_lt_is_Some_2 (objectBucket om) (bucket_of n)) as [b Eb].
  { rewrite Hs. apply bucket_of_range. }
  rewrite Eb. cbn [mbind option_bind]. destruct (find_in_bucket_spec om n (bucket_list b)) as (r & -> & H).
  { intros a Ha. destruct (Hb _ _ a Eb Ha) as (o & -> & _). done. }
  exists r. split; [done|]. destruct H as [(a & o & _ & H)|[-> H]]; [left; by exists a, o|]. right. split; [done|]. intros a o Ha E.
  destruct (Hh a o Ha) as (b' & Eb' & Hin). rewrite E, Eb in Eb'. injection Eb' as <-. by eapply H.
Qed.

(** The object with a number. *)
Lemma Find_found om a o : table om -> objects om !! a = Some o -> deferedFree o = false -> yaffs_FindObjectByNumber om (obj_objectId o) = Some a.
Proof.
  intros Ht Ha Hd. destruct (Find_spec om (obj_objectId o) Ht) as (r & -> & [(a' & o' & Ha' & E & ->)|[_ H]]); [|by destruct (H a o Ha)].
  assert (a' = a) as -> by (by eapply tb_unique). rewrite Ha in Ha'. injection Ha' as <-. by rewrite Hd.
Qed.

(** The number, the type and the state of the object [x] are what they were. *)
Definition same_kind (x : Z) (t t' : object_store) : Prop :=
  forall o o', t !! x = Some o -> t' !! x = Some o' ->
    obj_objectId o' = obj_objectId o /\ variantType o' = variantType o /\ deferedFree o' = deferedFree o.

Lemma kind_back x t t' a o' : cores_but x t t' -> same_kind x t t' -> t' !! a = Some o' ->
  exists o, t !! a = Some o /\ obj_objectId o' = obj_objectId o /\ variantType o' = variantType o /\ deferedFree o' = deferedFree o /\ (a <> x -> same_core o o').
Proof.
  intros Hc Hk Ha. destruct (decide (a = x)) as [->|Hne].
  - assert (x ∈ dom t) as [o Ho]%elem_of_dom by (rewrite <- (proj1 Hc); by apply elem_of_dom_2 in Ha). exists o. destruct (Hk o o' Ho Ha) as (? & ? & ?). by split_and!.
  - destruct (cores_lookup _ _ _ _ _ Hc Hne Ha) as (o & Ho & E). exists o. pose proof (core_fields _ _ E) as F. by split_and!; try congruence.
Qed.

Lemma kind_forward x t t' a o : cores_but x t t' -> same_kind x t t' -> t !! a = Some o ->
  exists o', t' !! a = Some o' /\ obj_objectId o' = obj_objectId o /\ variantType o' = variantType o /\ deferedFree o' = deferedFree o /\ (a <> x -> same_core o o').
Proof.
  intros Hc Hk Ha. assert (a ∈ dom t') as [o' Ho']%elem_of_dom by (rewrite (proj1 Hc); by apply elem_of_dom_2 in Ha).
  destruct (kind_back _ _ _ _ _ Hc Hk Ho') as (o2 & Ho2 & H). rewrite Ha in Ho2. injection Ho2 as <-. by exists o'.
Qed.

Lemma table_cores om t x : table om -> cores_but x (objects om) t -> same_kind x (objects om) t -> table (om <| objects := t |>).
Proof.
  intros [Hs Hb Hh Hu Hn] Hc Hk. constructor; [done|..]; change (objects (om <| objects := t |>)) with t; change (objectBucket (om <| objects := t |>)) with (objectBucket om).
  - intros k b a Eb Ha. destruct (Hb k b a Eb Ha) as (o & Ho & E). destruct (kind_forward _ _ _ _ _ Hc Hk Ho) as (o' & Ho' & E' & _). exists o'. by rewrite E'.
  - intros a o' Ha. destruct (kind_back _ _ _ _ _ Hc Hk Ha) as (o & Ho & -> & _). by apply (Hh a).
  - intros a a' o o' Ha Ha' E. destruct (kind_back _ _ _ _ _ Hc Hk Ha) as (oa & Hoa & E1 & _), (kind_back _ _ _ _ _ Hc Hk Ha') as (ob & Hob & E2 & _).
    apply (Hu a a' oa ob); congruence.
  - intros a o' Ha. destruct (kind_back _ _ _ _ _ Hc Hk Ha) as (o & Ho & -> & _). by apply (Hn a).
Qed.

(** ** The memory of the objects *)

(** All the objects can be found, and are in directories that exist; the free ones are apart. *)
Record objects_ok (m : tnode_memory) om : Prop := {
  ob_table : table om;
  ob_live : forall a o, objects om !! a = Some o -> deferedFree o = false;
  ob_parent : forall a o, objects om !! a = Some o -> parent o <> 0 -> is_directory (objects om) (parent o);
  ob_dirs : forall d, d ∈ [rootDir om; lostNFoundDir om; unlinkedDir om; deletedDir om] -> d <> 0 -> is_directory (objects om) d;
  ob_lost : lostNFoundDir om <> 0 -> lostNFoundDir om <> unlinkedDir om /\ lostNFoundDir om <> deletedDir om;
  ob_nodup : NoDup (freeObjects om);
  ob_free : forall a, a ∈ freeObjects om -> objects om !! a = None;
  ob_blocks : forall a, a ∈ freeObjects om \/ is_Some (objects om !! a) -> 0 < a /\ in_a_block m sizeof_yaffs_Object a
}.

Lemma objects_cores m om t x o o' :
  objects_ok m om -> cores_but x (objects om) t -> objects om !! x = Some o -> t !! x = Some o' ->
  obj_objectId o' = obj_objectId o -> variantType o' = variantType o -> deferedFree o' = deferedFree o ->
  (parent o' <> 0 -> is_directory (objects om) (parent o')) -> objects_ok m (om <| objects := t |>).
Proof.
  intros [Ht Hl Hp Hd Hlo Hnd Hf Hb] Hc Hx Hx' E1 E2 E3 Hpo. assert (same_kind x (objects om) t) as Hk.
  { intros oa ob Ha Hbb. rewrite Hx in Ha. rewrite Hx' in Hbb. injection Ha as <-. injection Hbb as <-. done. }
  assert (forall d, is_directory (objects om) d -> is_directory t d) as Hdir by (intros d; apply (directory_cores x); [done|intros oa ob Ha Hbb; by apply Hk]).
  constructor; try done; change (objects (om <| objects := t |>)) with t.
  - by apply (table_cores om t x).
  - intros a oa Ha. destruct (kind_back _ _ _ _ _ Hc Hk Ha) as (ob & Hob & _ & _ & -> & _). by apply (Hl a).
  - intros a oa Ha Hne. destruct (decide (a = x)) as [->|Hax].
    + rewrite Hx' in Ha. injection Ha as <-. by apply Hdir, Hpo.
    + destruct (cores_lookup _ _ _ _ _ Hc Hax Ha) as (ob & Hob & E). pose proof (core_fields _ _ E) as F. assert (parent oa = parent ob) as Ep by congruence.
      rewrite Ep in *. by apply Hdir, (Hp a).
  - intros d Hin Hne. by apply Hdir, Hd.
  - intros a Ha. apply Hf in Ha. apply not_elem_of_dom. rewrite (proj1 Hc). by apply not_elem_of_dom.
  - intros a [Ha|Ha]; apply Hb; [by left|right]. apply elem_of_dom. rewrite <- (proj1 Hc). by apply elem_of_dom.
Qed.

(** More memory is allocated. *)
Lemma objects_memory m m' om : objects_ok m om -> (forall a, in_a_block m sizeof_yaffs_Object a -> in_a_block m' sizeof_yaffs_Object a) -> objects_ok m' om.
Proof. intros [] H. constructor; try done. intros a Ha. destruct (ob_blocks0 a Ha) as [? ?]. split; [done|by apply H]. Qed.

(** ** The pool *)

Lemma object_addrs_pool n : forall a, object_addrs n a = pool_addrs n a sizeof_yaffs_Object.
Proof. induction n as [|n IH]; intros a; [done|]. cbn [object_addrs pool_addrs]. by rewrite IH. Qed.

(** The memory that a bunch of objects takes, and what [n] objects may take at most. *)
Definition object_batch : Z := YAFFS_ALLOCATION_NOBJECTS * sizeof_yaffs_Object + sizeof_yaffs_ObjectList.

Definition object_room om (n : nat) : Z := Z.of_nat (n - length (freeObjects om)) * object_batch.

Lemma object_room_pos om n : 0 <= object_room om n.
Proof. unfold object_room, object_batch, YAFFS_ALLOCATION_NOBJECTS, sizeof_yaffs_Object, sizeof_yaffs_ObjectList. lia. Qed.

Section Create.
Context {mtd : Type} (YMALLOC : tnode_memory -> Z -> Z) {Alloc : Allocator YMALLOC} (uninitialised : Z -> Z).
Implicit Types (dev : yaffs_Device mtd) (m : tnode_memory) (om : object_memory) (free : list Z).

(** What creating objects changes in a device. *)
Definition tended dev dev' : Prop :=
  exists a b c d e, dev' = dev <| nFreeTnodes := a |> <| nTnodesCreated := b |> <| nCheckpointBlocksRequired := c |>
    <| nFreeObjects := d |> <| nObjectsCreated := e |>.

Lemma tended_refl dev : tended dev dev.
Proof. exists (nFreeTnodes dev), (nTnodesCreated dev), (nCheckpointBlocksRequired dev), (nFreeObjects dev), (nObjectsCreated dev). by destruct dev. Qed.

Lemma tended_trans dev dev' dev'' : tended dev dev' -> tended dev' dev'' -> tended dev dev''.
Proof. intros (a & b & c & d & e & ->) (a' & b' & c' & d' & e' & ->). by exists a', b', c', d', e'. Qed.

Lemma tended_counters dev dev' : tnode_counters dev dev' -> tended dev dev'.
Proof. intros (a & b & c & ->). exists a, b, c, (nFreeObjects dev), (nObjectsCreated dev). by destruct dev. Qed.

Lemma tended_widths dev dev' : tended dev dev' -> same_widths dev dev'.
Proof. by intros (a & b & c & d & e & ->). Qed.

Lemma tended_size dev dev' : tended dev dev' -> tnode_size dev' = tnode_size dev.
Proof. by intros (a & b & c & d & e & ->). Qed.

(** Memory for [nt] tnodes and [no] objects. *)
Definition budget dev m free om (nt no : nat) : Prop := enough YMALLOC dev m free nt (object_room om no).

Lemma budget_mono dev m free om nt no nt' no' : budget dev m free om nt no -> (nt' <= nt)%nat -> (no' <= no)%nat -> budget dev m free om nt' no'.
Proof.
  intros [Hr He] Ht Ho. eapply enough_mono; [|exact Ht]. split; [apply object_room_pos|]. assert (object_room om no' <= object_room om no); [|lia].
  unfold object_room, object_batch, YAFFS_ALLOCATION_NOBJECTS, sizeof_yaffs_Object, sizeof_yaffs_ObjectList. lia.
Qed.

(** The memory with the new objects. *)
Lemma CreateFreeObjects_spec dev m free om n :
  objects_ok m om -> pool dev m free -> freeObjects om = [] -> object_batch <= ymalloc_room m -> n = YAFFS_ALLOCATION_NOBJECTS ->
  exists r dev' m' l c, yaffs_CreateFreeObjects YMALLOC dev m om n = Some (r, dev', m', om <| freeObjects := l |> <| allocatedObjectList := c |>) /\
    tended dev dev' /\ pool dev' m' free /\ tnodes m' = tnodes m /\ grown m m' /\ length l = 100%nat /\
    objects_ok m' (om <| freeObjects := l |> <| allocatedObjectList := c |>) /\ ymalloc_room m - object_batch <= ymalloc_room m'.
Proof.
  intros Hok Hp Hf Hroom ->. unfold yaffs_CreateFreeObjects. change (YAFFS_ALLOCATION_NOBJECTS <? 1) with false. cbv iota.
  change (Z.to_nat YAFFS_ALLOCATION_NOBJECTS) with 100%nat. unfold object_batch, YAFFS_ALLOCATION_NOBJECTS, sizeof_yaffs_ObjectList in Hroom.
  assert (0 < Z.of_nat 100 * sizeof_yaffs_Object) as Hk1 by done. assert (0 < Z.of_nat 1 * sizeof_yaffs_ObjectList) as Hk2 by done.
  pose proof (malloc_block_frame YMALLOC m 100 sizeof_yaffs_Object) as (T1 & _). pose proof (malloc_block_at YMALLOC m 100 sizeof_yaffs_Object) as P1.
  pose proof (pool_malloc YMALLOC dev m free 100 sizeof_yaffs_Object Hp Hk1) as Hp1. destruct (malloc_room YMALLOC m 100 sizeof_yaffs_Object Hk1) as [R1 _].
  pose proof (grown_malloc YMALLOC m 100 sizeof_yaffs_Object Hk1) as G1.
  assert (YMALLOC m (Z.of_nat 100 * sizeof_yaffs_Object) <> 0) as Hne1 by (apply (ymalloc_grants m); unfold sizeof_yaffs_Object in *; lia).
  assert (forall a, is_Some (objects om !! a) -> a ∉ pool_addrs 100 (YMALLOC m (Z.of_nat 100 * sizeof_yaffs_Object)) sizeof_yaffs_Object) as Hfresh.
  { intros a Ha. apply (malloc_fresh YMALLOC); [done| |done]. apply (ob_blocks _ _ Hok). by right. }
  pose proof (ymalloc_pos m (Z.of_nat 100 * sizeof_yaffs_Object)) as Hpos.
  destruct (malloc_block YMALLOC m 100 sizeof_yaffs_Object) as [p m1]. destruct P1 as [-> B1]. simpl snd in *. set (p := YMALLOC m (Z.of_nat 100 * sizeof_yaffs_Object)) in *.
  pose proof (malloc_block_frame YMALLOC m1 1 sizeof_yaffs_ObjectList) as (T2 & _). pose proof (malloc_block_at YMALLOC m1 1 sizeof_yaffs_ObjectList) as P2.
  pose proof (pool_malloc YMALLOC dev m1 free 1 sizeof_yaffs_ObjectList Hp1 Hk2) as Hp2. destruct (malloc_room YMALLOC m1 1 sizeof_yaffs_ObjectList Hk2) as [R2 _].
  pose proof (grown_malloc YMALLOC m1 1 sizeof_yaffs_ObjectList Hk2) as G2.
  assert (YMALLOC m1 (Z.of_nat 1 * sizeof_yaffs_ObjectList) <> 0) as Hne2 by (apply (ymalloc_grants m1); unfold sizeof_yaffs_ObjectList, sizeof_yaffs_Object in *; lia).
  destruct (malloc_block YMALLOC m1 1 sizeof_yaffs_ObjectList) as [q m2]. destruct P2 as [-> _]. simpl snd in *. set (q := YMALLOC m1 _) in *.
  rewrite (proj2 (Z.eqb_neq p 0)), (proj2 (Z.eqb_neq q 0)) by done. cbn [orb]. rewrite object_addrs_pool.
  eexists _, _, m2, _, _. split; [done|]. split; [|split; [|split; [congruence|split; [by eapply grown_trans|split; [|split]]]]].
  - exists (nFreeTnodes dev), (nTnodesCreated dev), (nCheckpointBlocksRequired dev), (100 + nFreeObjects dev), (100 + nObjectsCreated dev). by destruct dev.
  - by apply (pool_same dev).
  - rewrite Hf, app_nil_r. apply pool_addrs_length.
  - rewrite Hf, app_nil_r. destruct Hok as [Ht Hl Hpa Hd Hlo _ _ Hb]. constructor; try done.
    + by destruct Ht.
    + by apply pool_addrs_nodup.
    + intros a Ha. destruct (objects om !! a) eqn:E; [|done]. by destruct (Hfresh a).
    + intros a [Ha|Ha].
      * apply elem_of_pool_addrs in Ha as (i & Hi & ->). split; [unfold sizeof_yaffs_Object; lia|]. apply G2; [done|]. exists p. eexists. split; [by apply B1|].
        change (Z.of_nat 100) with 100 in *. unfold sizeof_yaffs_Object. lia.
      * destruct (Hb a) as [? ?]; [by right|]. split; [done|]. apply G2; [done|]. by apply G1.
  - unfold object_batch, YAFFS_ALLOCATION_NOBJECTS. lia.
Qed.

(** There is an object in the pool. *)
Lemma refill_objects_spec dev m free om nt no :
  objects_ok m om -> pool dev m free -> budget dev m free om nt (S no) ->
  exists dev' m' a l c, refill_objects YMALLOC dev m om = Some (dev', m', om <| freeObjects := a :: l |> <| allocatedObjectList := c |>) /\
    tended dev dev' /\ pool dev' m' free /\ tnodes m' = tnodes m /\ grown m m' /\
    objects_ok m' (om <| freeObjects := a :: l |> <| allocatedObjectList := c |>) /\
    budget dev' m' free (om <| freeObjects := l |> <| allocatedObjectList := c |>) nt no.
Proof.
  intros Hok Hp [Hr Hb]. unfold refill_objects. destruct (freeObjects om) as [|a l] eqn:Ef.
  - unfold object_room in *. rewrite Ef in *. simpl length in *. pose proof (batch_pos dev) as Hbp. assert (object_batch = 10808) as Eb by done.
    destruct (CreateFreeObjects_spec dev m free om YAFFS_ALLOCATION_NOBJECTS Hok Hp Ef) as (r & dev1 & m1 & l & c & -> & T & Hp1 & Et & G & Hl & Hok1 & Hroom);
      [nia|done|]. cbn [mbind option_bind].
    destruct l as [|a l]; [done|]. exists dev1, m1, a, l, c. split_and!; try done. split; [apply object_room_pos|]. unfold object_room, batch in *. rewrite (tended_size _ _ T).
    change (freeObjects (om <| freeObjects := l |> <| allocatedObjectList := c |>)) with l. simpl length in Hl. replace (length l) with 99%nat by lia. nia.
  - assert (om = om <| freeObjects := a :: l |> <| allocatedObjectList := allocatedObjectList om |>) as E by (rewrite <- Ef; by destruct om).
    exists dev, m, a, l, (allocatedObjectList om). rewrite <- E. split; [done|]. split; [apply tended_refl|]. split_and!; try done; [by apply grown_same|].
    split; [apply object_room_pos|]. unfold object_room in *. rewrite Ef in Hb. change (freeObjects (om <| freeObjects := l |> <| allocatedObjectList := allocatedObjectList om |>)) with l. exact Hb.
Qed.

(** The new object is put into the directory for lost objects. *)
Lemma sweeten_spec dev om a :
  objects om !! a = None -> (forall d, d ∈ [rootDir om; lostNFoundDir om] -> d <> 0 -> is_directory (objects om) d) ->
  (lostNFoundDir om <> 0 -> lostNFoundDir om <> unlinkedDir om /\ lostNFoundDir om <> deletedDir om) ->
  exists t c, sweeten_object dev om a = Some (dev, om <| objects := t |>) /\ cores_but a (<[a := zero_object]> (objects om)) t /\
    t !! a = Some (zero_object <| children := c |> <| parent := if lostNFoundDir om =? 0 then rootDir om else lostNFoundDir om |>).
Proof.
  intros Ha Hd Hlost. unfold sweeten_object. set (t0 := <[a := zero_object]> (objects om)).
  assert (forall d, d ∈ [rootDir om; lostNFoundDir om] -> d <> 0 -> d <> a /\ exists o, t0 !! d = Some o /\ variantType o = YAFFS_OBJECT_TYPE_DIRECTORY) as Hd0.
  { intros d Hin Hne. destruct (Hd d Hin Hne) as (o & Ho & Hv). assert (d <> a) by (intros ->; congruence). split; [done|]. exists o. unfold t0. by rewrite lookup_insert_ne. }
  change (om <| objects ::= <[a := zero_object]> |>) with (om <| objects := t0 |>).
  change (rootDir (om <| objects := t0 |>)) with (rootDir om). assert (t0 !! a = Some zero_object) as Ha0 by apply lookup_insert_eq.
  assert (exists t1, (if truthy (rootDir om) then
            om' ← update_object (om <| objects := t0 |>) a (fun o => o <| parent := rootDir om |>);
            update_object om' (rootDir om') (fun d => d <| children ::= cons a |>)
          else Some (om <| objects := t0 |>)) = Some (om <| objects := t1 |>) /\ cores_but a t0 t1 /\ t1 !! a = Some (zero_object <| parent := rootDir om |>)) as (t1 & -> & C1 & A1).
  { unfold truthy. destruct (Z.eqb_spec (rootDir om) 0) as [E|E]; cbn [negb].
    - exists t0. split; [done|]. split; [apply cores_refl|]. by rewrite E.
    - rewrite (update_object_in om t0 a _ _ Ha0). cbn [mbind option_bind].
      match goal with |- context [om <| objects := ?t |>] => set (t1 := t) end. change (rootDir (om <| objects := t1 |>)) with (rootDir om).
      destruct (Hd0 (rootDir om)) as (Hne & o & Ho & _); [by apply elem_of_cons; left|done|].
      assert (t1 !! rootDir om = Some o) as Hr by (unfold t1; by rewrite lookup_insert_ne).
      rewrite (update_object_in om t1 _ _ o Hr). eexists. split; [done|]. split.
      + eapply cores_trans; [|by apply cores_linked]. by apply cores_insert.
      + rewrite lookup_insert_ne by done. unfold t1. by rewrite lookup_insert_eq. }
  cbn [mbind option_bind]. change (lostNFoundDir (om <| objects := t1 |>)) with (lostNFoundDir om). unfold truthy.
  destruct (Z.eqb_spec (lostNFoundDir om) 0) as [E|E]; cbn [negb].
  - exists t1, []. split; [done|]. split; [done|]. rewrite A1. done.
  - destruct (Hlost E) as [Hn1 Hn2]. destruct (Hd0 (lostNFoundDir om)) as (Hne & o & Ho & Hv); [apply elem_of_cons; right; by apply elem_of_cons; left|done|].
    destruct (Add_spec dev (om <| objects := t1 |>) (lostNFoundDir om) a (zero_object <| parent := rootDir om |>) E) as (t & c & -> & C & A); [|exact A1|..].
    + destruct (proj2 C1 _ o Hne Ho) as (o' & Ho' & Ec). exists o'. split; [done|]. pose proof (core_fields _ _ Ec). congruence.
    + intros Hp. change (rootDir om <> 0) in Hp. change (is_Some (t1 !! rootDir om)). destruct (Hd0 (rootDir om)) as (Hne' & o' & Ho' & _); [by apply elem_of_cons; left|done|].
      destruct (proj2 C1 _ o' Hne' Ho') as (o2 & Ho2 & _). done.
    + unfold counted_in, added_to in *. change (unlinkedDir (om <| objects := t1 |>)) with (unlinkedDir om) in *. change (deletedDir (om <| objects := t1 |>)) with (deletedDir om) in *.
      rewrite (proj2 (Z.eqb_neq _ _) Hn1), (proj2 (Z.eqb_neq _ _) Hn2) in *. cbn [orb] in *. exists t, c. split; [done|]. split; [by eapply cores_trans|]. by rewrite A.
Qed.

(** An object of the pool is in use, and in the table. *)
Lemma objects_new m om a nx t o b b' :
  objects_ok m om -> freeObjects om = a :: nx -> cores_but a (<[a := zero_object]> (objects om)) t -> t !! a = Some o ->
  number_ok (obj_objectId o) -> (forall x ox, objects om !! x = Some ox -> obj_objectId ox <> obj_objectId o) -> deferedFree o = false ->
  (parent o <> 0 -> is_directory (objects om) (parent o)) ->
  objectBucket om !! bucket_of (obj_objectId o) = Some b -> bucket_list b' = a :: bucket_list b ->
  objects_ok m (om <| freeObjects := nx |> <| objects := t |> <| objectBucket ::= <[bucket_of (obj_objectId o) := b']> |>).
Proof.
  intros [[Hs Hb Hh Hu Hn] Hl Hp Hd Hlo Hnd Hf Hbl] Ef Hc Ha Hno Hnew Hlive Hpar Eb Eb'. set (n := obj_objectId o) in *. rewrite Ef in *.
  assert (objects om !! a = None) as Hna by (apply Hf, elem_of_cons; by left). apply NoDup_cons in Hnd as [Hnx Hnd].
  assert (forall x ox, objects om !! x = Some ox -> x <> a) as Hxa by (intros x ox Hx ->; congruence).
  assert (forall x ox', t !! x = Some ox' -> (x = a /\ ox' = o) \/ (x <> a /\ exists ox, objects om !! x = Some ox /\ same_core ox ox')) as Hback.
  { intros x ox' Hx. destruct (decide (x = a)) as [->|Hne]; [left; split; [done|congruence]|right; split; [done|]].
    destruct (cores_lookup _ _ _ _ _ Hc Hne Hx) as (ox & Hox & E). rewrite lookup_insert_ne in Hox by done. by exists ox. }
  assert (forall x ox, objects om !! x = Some ox -> exists ox', t !! x = Some ox' /\ same_core ox ox') as Hforth.
  { intros x ox Hx. apply (proj2 Hc); [by eapply Hxa|]. rewrite lookup_insert_ne; [done|]. intros <-. congruence. }
  assert (forall d, is_directory (objects om) d -> is_directory t d) as Hdir.
  { intros d (od & Hod & Hv). destruct (Hforth d od Hod) as (od' & Hod' & E). exists od'. split; [done|]. pose proof (core_fields _ _ E). congruence. }
  set (l := <[bucket_of n := b']> (objectBucket om)). assert (bucket_of n < 256)%nat as Hbn by apply bucket_of_range.
  constructor; try done; [constructor|..]; change (objects (om <| freeObjects := nx |> <| objects := t |> <| objectBucket ::= <[bucket_of n := b']> |>)) with t;
    change (objectBucket (om <| freeObjects := nx |> <| objects := t |> <| objectBucket ::= <[bucket_of n := b']> |>)) with l.
  - unfold l. by rewrite length_insert.
  - intros k b1 x Hk Hx. unfold l in Hk. destruct (decide (k = bucket_of n)) as [->|Hne].
    + rewrite list_lookup_insert_eq in Hk by lia. injection Hk as <-. rewrite Eb' in Hx. apply elem_of_cons in Hx as [->|Hx]; [by exists o|].
      destruct (Hb _ _ x Eb Hx) as (ox & Hox & E). destruct (Hforth x ox Hox) as (ox' & Hox' & Ec). exists ox'. split; [done|]. pose proof (core_fields _ _ Ec). congruence.
    + rewrite list_lookup_insert_ne in Hk by done. destruct (Hb _ _ x Hk Hx) as (ox & Hox & E). destruct (Hforth x ox Hox) as (ox' & Hox' & Ec). exists ox'.
      split; [done|]. pose proof (core_fields _ _ Ec). congruence.
  - intros x ox' Hx. destruct (Hback x ox' Hx) as [[-> ->]|(_ & ox & Hox & Ec)].
    + exists b'. unfold l. rewrite list_lookup_insert_eq by lia. split; [done|]. rewrite Eb'. by apply elem_of_cons; left.
    + pose proof (core_fields _ _ Ec) as F. assert (obj_objectId ox' = obj_objectId ox) as -> by congruence. destruct (Hh x ox Hox) as (b1 & Eb1 & Hin). unfold l.
      destruct (decide (bucket_of (obj_objectId ox) = bucket_of n)) as [E|Hne].
      * exists b'. rewrite E, list_lookup_insert_eq by lia. split; [done|]. rewrite Eb'. apply elem_of_cons. right. rewrite E, Eb in Eb1. by injection Eb1 as <-.
      * exists b1. by rewrite list_lookup_insert_ne.
  - intros x y ox oy Hx Hy E. destruct (Hback x ox Hx) as [[-> ->]|(_ & ox0 & Hox & Ex)], (Hback y oy Hy) as [[-> ->]|(_ & oy0 & Hoy & Ey)]; try done.
    + pose proof (core_fields _ _ Ey). destruct (Hnew y oy0 Hoy). unfold n in *. congruence.
    + pose proof (core_fields _ _ Ex). destruct (Hnew x ox0 Hox). unfold n in *. congruence.
    + pose proof (core_fields _ _ Ex). pose proof (core_fields _ _ Ey). apply (Hu x y ox0 oy0); congruence.
  - intros x ox Hx. destruct (Hback x ox Hx) as [[-> ->]|(_ & ox0 & Hox & Ex)]; [done|]. pose proof (core_fields _ _ Ex) as F.
    assert (obj_objectId ox = obj_objectId ox0) as -> by congruence. by apply (Hn x).
  - intros x ox Hx. destruct (Hback x ox Hx) as [[-> ->]|(_ & ox0 & Hox & Ex)]; [done|]. pose proof (core_fields _ _ Ex). pose proof (Hl x ox0 Hox). congruence.
  - intros x ox Hx Hne. destruct (Hback x ox Hx) as [[-> ->]|(_ & ox0 & Hox & Ex)]; [by apply Hdir, Hpar|]. pose proof (core_fields _ _ Ex) as F.
    assert (parent ox = parent ox0) as Ep by congruence. rewrite Ep in *. by apply Hdir, (Hp x).
  - intros d Hin Hne. by apply Hdir, Hd.
  - intros x Hx. change (x ∈ nx) in Hx. destruct (t !! x) as [ox|] eqn:E; [|done]. exfalso. destruct (Hback x ox E) as [[-> _]|(Hne & ox0 & Hox & _)]; [done|].
    rewrite Hf in Hox; [done|]. by apply elem_of_cons; right.
  - intros x [Hx|[ox Hx]]; [apply Hbl; left; by apply elem_of_cons; right|]. destruct (Hback x ox Hx) as [[-> _]|(_ & ox0 & Hox & _)]; apply Hbl; [left; by apply elem_of_cons; left|by right].
Qed.

(** What is in a new object. *)
Record new_object (n : Z) (type : yaffs_ObjectType) (p tn : Z) (o : yaffs_Object) : Prop := {
  new_number : obj_objectId o = n;
  new_type : variantType o = type;
  new_live : deferedFree o = false;
  new_parent : parent o = p;
  new_inode : myInode o = 0;
  new_file : type = YAFFS_OBJECT_TYPE_FILE -> fileVariant o = mk_fs 0 0 0xFFFFFFFF 0 tn
}.

Lemma update_bucket_Some om n f b : objectBucket om !! bucket_of n = Some b ->
  update_bucket om (yaffs_HashFunction n) f = Some (om <| objectBucket := <[bucket_of n := f b]> (objectBucket om) |>).
Proof. intros E. unfold update_bucket. fold (bucket_of n). by rewrite E. Qed.

Lemma init_object_spec om t a n type tn p c b :
  t !! a = Some (zero_object <| children := c |> <| parent := p |>) -> number_ok n -> objectBucket om !! bucket_of n = Some b -> length (objectBucket om) = 256%nat ->
  exists o b', init_object (om <| objects := t |>) a n type tn = Some (om <| objects := <[a := o]> t |> <| objectBucket ::= <[bucket_of n := b']> |>) /\
    new_object n type p tn o /\ bucket_list b' = a :: bucket_list b.
Proof.
  intros Ha Hn Hb Hlen. unfold init_object. rewrite (update_object_in om t a _ _ Ha). cbn [mbind option_bind].
  assert (u32 n = n) as En by (apply Z.mod_small; unfold number_ok in Hn; lia). rewrite En.
  match goal with |- context [om <| objects := <[a := ?x]> t |>] => set (o1 := x) end. unfold yaffs_HashObject.
  change (objects (om <| objects := <[a := o1]> t |>)) with (<[a := o1]> t). rewrite lookup_insert_eq. cbn [mbind option_bind]. cbv zeta. change (obj_objectId o1) with n.
  rewrite (update_bucket_Some _ n _ b) by exact Hb. cbn [mbind option_bind].
  rewrite (update_bucket_Some _ n _ (b <| bucket_list ::= cons a |>)) by (apply list_lookup_insert_eq; change (bucket_of n < length (objectBucket om))%nat; rewrite Hlen; apply bucket_of_range).
  cbn [mbind option_bind].
  match goal with |- context [update_object ?x a ?f] => rewrite (update_object_Some x a f o1) by (apply lookup_insert_eq) end.
  eexists _, (b <| bucket_list ::= cons a |> <| bucket_count ::= Z.succ |>). split; [|split].
  - match goal with |- Some ?x = Some ?y => change x with (om <| objects := <[a := init_variant type tn (o1 <| variantType := type |>)]> (<[a := o1]> t) |>
      <| objectBucket := <[bucket_of n := b <| bucket_list ::= cons a |> <| bucket_count ::= Z.succ |>]> (<[bucket_of n := b <| bucket_list ::= cons a |>]> (objectBucket om)) |>) end.
    rewrite insert_insert_eq, list_insert_insert_eq. reflexivity.
  - constructor; by destruct type.
  - done.
Qed.

(** The fields for the directories that always exist. *)
Definition special_dirs om := (rootDir om, lostNFoundDir om, unlinkedDir om, deletedDir om).

(** The directory of a new object. *)
Definition first_parent om : Z := if lostNFoundDir om =? 0 then rootDir om else lostNFoundDir om.

Definition file_tnodes (type : yaffs_ObjectType) : nat := if bool_decide (type = YAFFS_OBJECT_TYPE_FILE) then 1 else 0.

Lemma objects_bucket m om n : objects_ok m om -> exists b, objectBucket om !! bucket_of n = Some b.
Proof. intros Hok. apply lookup_lt_is_Some_2. rewrite (tb_size _ (ob_table _ _ Hok)). apply bucket_of_range. Qed.

(** A new file has a clean tnode, and any other object none. *)
Lemma file_tnode dev m free type k r :
  pool dev m free -> enough YMALLOC dev m free (file_tnodes type + k) r ->
  exists tn dev' m' free' s,
    (if bool_decide (type = YAFFS_OBJECT_TYPE_FILE) then yaffs_GetTnode YMALLOC uninitialised dev m else Some (0, dev, m)) = Some (tn, dev', m') /\
    bool_decide (type = YAFFS_OBJECT_TYPE_FILE) && (tn =? 0) = false /\ tended dev dev' /\ pool dev' m' free' /\ grown m m' /\
    enough YMALLOC dev' m' free' k r /\ transfers (tnodes m) (list_to_set free) (tnodes m') (s ∪ list_to_set free') /\
    (type = YAFFS_OBJECT_TYPE_FILE -> file_ok dev' m' free' (mk_fs 0 0 0xFFFFFFFF 0 tn) s (fun _ => 0)) /\ (type <> YAFFS_OBJECT_TYPE_FILE -> s = ∅).
Proof.
  intros Hp He. unfold file_tnodes in He. case_bool_decide as Ht.
  - destruct (GetTnode_spec YMALLOC uninitialised dev m free Hp) as (tn & dev' & m' & -> & Hc & Hcase). destruct (Z.eqb_spec tn 0) as [->|Hne].
    { destruct Hcase as (-> & Hz & _). by destruct (not_enough YMALLOC dev m k r Hz). }
    destruct Hcase as (free' & Hp' & H32 & Hl & Hnf & Hm & Hsp & Hg). exists tn, dev', m', free', {[tn]}. split; [done|]. split; [by apply andb_false_intro2, Z.eqb_neq|].
    split; [by apply tended_counters|]. split; [done|]. split; [done|]. split; [by apply Hsp|]. split; [done|]. split; [|done]. intros _.
    constructor; [done| |done|by exists tn]. constructor; [done| |clear - Hnf; set_solver]. change (Z.to_nat 0) with 0%nat. simpl top. apply (tree_counters dev); [done|].
    apply tree_zero; [apply Hp|done|unfold in_w in H32; lia].
  - exists 0, dev, m, free, ∅. split; [done|]. split; [done|]. split; [apply tended_refl|]. split; [done|]. split; [by apply grown_same|]. split; [done|]. split; [|done].
    eapply transfers_eq; [apply transfers_refl; by eapply list_to_set_dom|done|by rewrite union_empty_l_L].
Qed.

Lemma CreateNewObject_spec dev m free om n type nt no :
  objects_ok m om -> pool dev m free -> number_ok n -> (forall x ox, objects om !! x = Some ox -> obj_objectId ox <> n) ->
  budget dev m free om (file_tnodes type + nt) (S no) ->
  exists a o tn dev' m' om' free' s, yaffs_CreateNewObject YMALLOC uninitialised dev m om n type = Some (a, dev', m', om') /\ a <> 0 /\ objects om !! a = None /\
    cores_but a (<[a := zero_object]> (objects om)) (objects om') /\ objects om' !! a = Some o /\ new_object n type (first_parent om) tn o /\
    objects_ok m' om' /\ special_dirs om' = special_dirs om /\ tended dev dev' /\ pool dev' m' free' /\ grown m m' /\ budget dev' m' free' om' nt no /\
    transfers (tnodes m) (list_to_set free) (tnodes m') (s ∪ list_to_set free') /\
    (type = YAFFS_OBJECT_TYPE_FILE -> file_ok dev' m' free' (fileVariant o) s (fun _ => 0)) /\ (type <> YAFFS_OBJECT_TYPE_FILE -> s = ∅).
Proof.
  intros Hok Hp Hn Hnew Hb. unfold yaffs_CreateNewObject. rewrite (proj2 (Z.ltb_ge n 0)) by (unfold number_ok in Hn; lia). cbn [mbind option_bind]. unfold yaffs_AllocateEmptyObject.
  destruct (refill_objects_spec dev m free om _ no Hok Hp Hb) as (dev1 & m1 & a & l & c & -> & T1 & Hp1 & Et1 & G1 & Hok1 & Hb1). cbn [mbind option_bind].
  set (om1 := om <| freeObjects := a :: l |> <| allocatedObjectList := c |>) in *. change (freeObjects om1) with (a :: l). cbv iota.
  set (om2 := om <| freeObjects := l |> <| allocatedObjectList := c |>) in *. change (om1 <| freeObjects := l |>) with om2.
  assert (objects om !! a = None) as Ha by (apply (ob_free _ _ Hok1); by apply elem_of_cons; left).
  assert (0 < a) as Hpos by (apply (ob_blocks _ _ Hok1); left; by apply elem_of_cons; left).
  destruct (sweeten_spec (dev1 <| nFreeObjects ::= Z.pred |>) om2 a Ha) as (t & ch & E & C & At).
  { intros d Hd Hne. apply (ob_dirs _ _ Hok); [|done]. apply elem_of_cons in Hd as [->|Hd]; [by apply elem_of_cons; left|]. apply elem_of_cons in Hd as [->|?%elem_of_nil]; [|done].
    apply elem_of_cons. right. by apply elem_of_cons; left. }
  { apply (ob_lost _ _ Hok). }
  rewrite E. cbn [mbind option_bind]. clear E. rewrite (proj2 (Z.eqb_neq a 0)) by lia.
  match goal with |- context [yaffs_GetTnode _ _ ?d m1] => set (dev2 := d) end.
  assert (tended dev1 dev2) as T2 by (exists (nFreeTnodes dev1), (nTnodesCreated dev1), 0, (Z.pred (nFreeObjects dev1)), (nObjectsCreated dev1); by destruct dev1).
  destruct (file_tnode dev2 m1 free type nt (object_room om2 no)) as (tn & dev3 & m3 & free3 & s & E & Hne & T3 & Hp3 & G3 & He3 & Tr & Hfile & Hnofile).
  { apply (pool_same dev1); [by apply tended_widths|done|done|done]. }
  { split; [apply object_room_pos|]. destruct Hb1 as [_ Hb1]. unfold batch in *. by rewrite (tended_size _ _ T2). }
  rewrite E. cbn [mbind option_bind]. rewrite Hne. clear E Hne. destruct (objects_bucket m1 om1 n Hok1) as [b Eb].
  destruct (init_object_spec om2 t a n type tn (first_parent om) ch b At Hn Eb (tb_size _ (ob_table _ _ Hok1))) as (o & b' & -> & No & Eb'). cbn [mbind option_bind].
  rewrite <- (new_number _ _ _ _ _ No) in Eb. eexists a, o, tn, dev3, m3, _, free3, s. split; [done|]. split; [lia|]. split; [done|].
  assert (cores_but a (<[a := zero_object]> (objects om)) (<[a := o]> t)) as C' by (eapply cores_trans; [exact C|]; by apply cores_insert).
  split; [exact C'|]. split; [apply lookup_insert_eq|]. split; [done|]. rewrite Et1 in Tr. split_and!; try done.
  - rewrite <- (new_number _ _ _ _ _ No). eapply objects_memory; [|intros x Hx; by apply G3].
    apply (objects_new m1 om1 a l _ o b b' Hok1 eq_refl C' (lookup_insert_eq _ _ _)); rewrite ?(new_number _ _ _ _ _ No); try done; [apply No| |by rewrite <- (new_number _ _ _ _ _ No)].
    rewrite (new_parent _ _ _ _ _ No). intros Hp0. apply (ob_dirs _ _ Hok); [|done]. unfold first_parent in *. destruct (Z.eqb_spec (lostNFoundDir om) 0).
    + by apply elem_of_cons; left.
    + apply elem_of_cons. right. by apply elem_of_cons; left.
  - eapply tended_trans; [exact T1|]. exact (tended_trans _ _ _ T2 T3).
  - by eapply grown_trans.
  - intros Ht. rewrite (new_file _ _ _ _ _ No Ht). by apply Hfile.
Qed.

End Create.

(** ** Hard links *)

(** All the objects have their cores. *)
Definition same_cores (t t' : object_store) : Prop := forall a, option_Forall2 same_core (t !! a) (t' !! a).

Lemma same_cores_refl t : same_cores t t.
Proof. intros a. destruct (t !! a); constructor. apply same_core_refl. Qed.

Lemma same_cores_trans t t' t'' : same_cores t t' -> same_cores t' t'' -> same_cores t t''.
Proof.
  intros H H' a. specialize (H a). specialize (H' a). destruct H as [o o' E|]; inversion H'; subst; constructor. by eapply same_core_trans.
Qed.

Lemma same_cores_insert (t : object_store) a o o' : t !! a = Some o -> same_core o o' -> same_cores t (<[a := o']> t).
Proof.
  intros Ha E b. destruct (decide (b = a)) as [->|Hne]; [rewrite Ha, lookup_insert_eq; by constructor|rewrite lookup_insert_ne by done; apply same_cores_refl].
Qed.

Lemma same_cores_lookup t t' a o : same_cores t t' -> t !! a = Some o -> exists o', t' !! a = Some o' /\ same_core o o'.
Proof. intros H Ha. specialize (H a). rewrite Ha in H. inversion H; subst. by eexists. Qed.

Lemma same_cores_back t t' a o' : same_cores t t' -> t' !! a = Some o' -> exists o, t !! a = Some o /\ same_core o o'.
Proof. intros H Ha. specialize (H a). rewrite Ha in H. inversion H; subst. by eexists. Qed.

Lemma Find_cores om t n : same_cores (objects om) t -> yaffs_FindObjectByNumber (om <| objects := t |>) n = yaffs_FindObjectByNumber om n.
Proof.
  intros H. unfold yaffs_FindObjectByNumber. change (objectBucket (om <| objects := t |>)) with (objectBucket om). destruct (objectBucket om !! _) as [b|]; [|done].
  cbn [mbind option_bind]. induction (bucket_list b) as [|a l IH]; [done|]. cbn [find_in_bucket]. change (objects (om <| objects := t |>)) with t.
  destruct (H a) as [o o' E|]; [|done]. cbn [mbind option_bind]. pose proof (core_fields _ _ E) as F. assert (obj_objectId o' = obj_objectId o) as -> by congruence.
  assert (deferedFree o' = deferedFree o) as -> by congruence. by rewrite IH.
Qed.

Lemma table_same om t : table om -> same_cores (objects om) t -> table (om <| objects := t |>).
Proof.
  intros Ht H. apply (table_cores om t 0 Ht).
  - split; [|intros a o _ Ha; by apply (same_cores_lookup (objects om))]. apply set_eq. intros a. rewrite !elem_of_dom. destruct (H a); [|done]. by rewrite !is_Some_alt.
  - intros o o' Ho Ho'. destruct (same_cores_lookup _ _ _ _ H Ho) as (o2 & Ho2 & E). rewrite Ho' in Ho2. injection Ho2 as <-. pose proof (core_fields _ _ E). by split_and!; congruence.
Qed.

(** A hard link gets the object that it is a link to. *)
Definition linked_to om (a inn : Z) (t : object_store) : Prop :=
  same_cores (objects om) t /\ forall b o o', objects om !! b = Some o -> t !! b = Some o' -> equivalentObject o' = if b =? a then inn else equivalentObject o.

Lemma fixup_one om hl h inn : objects om !! hl = Some h -> yaffs_FindObjectByNumber om (equivalentObjectId h) = Some inn -> table om ->
  exists t, (if truthy inn then
               om ← update_object om hl (fun h => h <| equivalentObject := inn |>);
               update_object om inn (fun o => o <| hardLinks ::= cons hl |>)
             else update_object om hl (fun h => h <| equivalentObject := 0 |> <| hardLinks := [] |>)) = Some (om <| objects := t |>) /\ linked_to om hl inn t.
Proof.
  intros Hh Hf Ht. unfold truthy. destruct (Z.eqb_spec inn 0) as [->|Hne]; cbn [negb].
  - rewrite (update_object_Some om hl _ h Hh). eexists. split; [done|]. split; [eapply same_cores_insert; [done|by destruct h]|].
    intros b o o' Hb Hb'. destruct (Z.eqb_spec b hl) as [->|Hn]; [rewrite lookup_insert_eq in Hb'; by injection Hb' as <-|rewrite lookup_insert_ne in Hb' by done; congruence].
  - rewrite (update_object_Some om hl _ h Hh). cbn [mbind option_bind]. set (t1 := <[hl := _]> (objects om)).
    assert (same_cores (objects om) t1) as H1 by (eapply same_cores_insert; [done|by destruct h]).
    assert (exists oi, objects om !! inn = Some oi) as [oi Hi].
    { destruct (Find_spec om (equivalentObjectId h) Ht) as (r & E & [(a & o & Ha & _ & Er)|[-> _]]); rewrite Hf in E; injection E as ->; [|done]. destruct (deferedFree o); [done|]. subst. by eexists. }
    destruct (same_cores_lookup _ _ _ _ H1 Hi) as (oi' & Hi' & _). rewrite (update_object_in om t1 inn _ oi' Hi'). eexists. split; [done|]. split.
    + eapply same_cores_trans; [exact H1|]. eapply same_cores_insert; [done|by destruct oi'].
    + intros b o o' Hb Hb'. assert (exists o2, t1 !! b = Some o2 /\ equivalentObject o' = equivalentObject o2) as (o2 & Ho2 & ->).
      { destruct (decide (b = inn)) as [->|Hn]; [rewrite lookup_insert_eq in Hb'; injection Hb' as <-; by exists oi'|rewrite lookup_insert_ne in Hb' by done; by exists o']. }
      unfold t1 in Ho2. destruct (Z.eqb_spec b hl) as [->|Hn]; [rewrite lookup_insert_eq in Ho2; by injection Ho2 as <-|rewrite lookup_insert_ne in Ho2 by done; congruence].
Qed.

(** Every hard link of the list gets the object with the number that it has; nothing else changes but the lists of the links. *)
Lemma HardlinkFixup_spec hl : forall om, table om -> (forall a, a ∈ hl -> is_Some (objects om !! a)) ->
  exists t, yaffs_HardlinkFixup om hl = Some (om <| objects := t |>) /\ same_cores (objects om) t /\
    forall a o o', objects om !! a = Some o -> t !! a = Some o' ->
      if bool_decide (a ∈ hl) then yaffs_FindObjectByNumber om (equivalentObjectId o) = Some (equivalentObject o') else equivalentObject o' = equivalentObject o.
Proof.
  induction hl as [|a0 hl IH]; intros om Ht Hl; cbn [yaffs_HardlinkFixup].
  - exists (objects om). split; [by destruct om|]. split; [apply same_cores_refl|]. intros a o o' Ha Ha'. rewrite bool_decide_false by apply not_elem_of_nil. congruence.
  - destruct (Hl a0) as [h Hh]; [apply elem_of_cons; by left|]. rewrite Hh. cbn [mbind option_bind].
    destruct (Find_spec om (equivalentObjectId h) Ht) as (inn & Ef & _). rewrite Ef. cbn [mbind option_bind]. destruct (fixup_one om a0 h inn Hh Ef Ht) as (t & -> & H1 & He). cbn [mbind option_bind].
    destruct (IH (om <| objects := t |>) (table_same om t Ht H1)) as (t' & -> & H2 & H3).
    { intros a Ha. destruct (Hl a) as [o Ho]; [apply elem_of_cons; by right|]. destruct (same_cores_lookup _ _ _ _ H1 Ho) as (o' & Ho' & _). by exists o'. }
    exists t'. split; [done|]. split; [by eapply same_cores_trans|]. intros a o o' Ha Ha'. destruct (same_cores_lookup _ _ _ _ H1 Ha) as (o1 & Ho1 & E1).
    specialize (H3 a o1 o' Ho1 Ha'). rewrite Find_cores in H3 by done. assert (equivalentObjectId o1 = equivalentObjectId o) as Eq by (pose proof (core_fields _ _ E1); congruence).
    rewrite Eq in H3. specialize (He a o o1 Ha Ho1). destruct (Z.eqb_spec a a0) as [->|Hne].
    + rewrite (bool_decide_true (a0 ∈ (a0 :: hl))) by (apply elem_of_cons; by left). rewrite Hh in Ha. injection Ha as <-. case_bool_decide; [done|]. rewrite H3, He. done.
    + rewrite (bool_decide_ext (a ∈ (a0 :: hl)) (a ∈ hl)) by (rewrite elem_of_cons; naive_solver). case_bool_decide; [done|congruence].
Qed.
