(* ===== verification/YaffsObjectsMount.v ===== *)
(** * The objects of a file system that is being mounted

    When a file system is mounted there are no objects, and four directories are made: the root directory,
    lost+found below it, and the two for the files that are unlinked or deleted. *)

From stdpp Require Import list.
From S2P Require Import Prelude NandEcc NandEccFacts YaffsTags YaffsTagsFacts YaffsNand.
From S2P Require Import YaffsBlocks YaffsTnodes YaffsTnodesFacts YaffsTnodesPool YaffsTnodesTree YaffsTnodesAdd YaffsObjects YaffsObjectsFacts.

Local Open Scope Z_scope.

(** The objects are directories, each with its address, its number and its parent in the list. *)
Record shape om (l : list (Z * Z * Z)) : Prop := {
  sh_all : forall a o, objects om !! a = Some o -> variantType o = YAFFS_OBJECT_TYPE_DIRECTORY /\ (a, obj_objectId o, parent o) ∈ l;
  sh_has : forall a n p, (a, n, p) ∈ l -> exists o, objects om !! a = Some o /\ obj_objectId o = n /\ parent o = p
}.

(** The four directories. *)
Definition set_dirs om (r l u d : Z) : object_memory := om <| rootDir := r |> <| lostNFoundDir := l |> <| unlinkedDir := u |> <| deletedDir := d |>.

Lemma set_one_dir om r l u d : special_dirs om = (r, l, u, d) ->
  (forall x, om <| rootDir := x |> = set_dirs om x l u d) /\ (forall x, om <| lostNFoundDir := x |> = set_dirs om r x u d) /\
  (forall x, om <| unlinkedDir := x |> = set_dirs om r l x d) /\ (forall x, om <| deletedDir := x |> = set_dirs om r l u x).
Proof. destruct om. intros [= <- <- <- <-]. done. Qed.

Lemma objects_dirs m om r l u d :
  objects_ok m om -> (forall x, x ∈ [r; l; u; d] -> x <> 0 -> is_directory (objects om) x) -> (l <> 0 -> l <> u /\ l <> d) -> objects_ok m (set_dirs om r l u d).
Proof. intros [[] H1 H2 _ _ H3 H4 H5] Hd Hl. constructor; done. Qed.

Lemma shape_directory om l a n p : shape om l -> (a, n, p) ∈ l -> is_directory (objects om) a.
Proof. intros [H1 H2] H. destruct (H2 a n p H) as (o & Ho & _). exists o. split; [done|]. by apply (H1 a o). Qed.

(** A change of one directory that keeps its parent. *)
Lemma shape_kept om t x o o' l :
  shape om l -> cores_but x (objects om) t -> objects om !! x = Some o -> t !! x = Some o' ->
  parent o' = parent o -> obj_objectId o' = obj_objectId o /\ variantType o' = variantType o -> shape (om <| objects := t |>) l.
Proof.
  intros [H1 H2] C Ho Ho' Ep [Ei Et]. constructor; change (objects (om <| objects := t |>)) with t.
  - intros a oa Ha. destruct (decide (a = x)) as [->|Hne].
    + rewrite Ho' in Ha. injection Ha as <-. rewrite Ei, Et, Ep. by apply H1.
    + destruct (cores_lookup _ _ _ _ _ C Hne Ha) as (ob & Hob & E). pose proof (core_fields _ _ E) as F. destruct (H1 a ob Hob). split; congruence.
  - intros a n p Hin. destruct (H2 a n p Hin) as (oa & Ha & E1 & E2). destruct (decide (a = x)) as [->|Hne].
    + exists o'. rewrite Ho in Ha. injection Ha as <-. split; [done|]. split; congruence.
    + destruct (proj2 C a oa Hne Ha) as (ob & Hob & E). pose proof (core_fields _ _ E) as F. exists ob. split; [done|]. split; congruence.
Qed.

Section Mount.
Context {mtd : Type} (YMALLOC : tnode_memory -> Z -> Z) {Alloc : Allocator YMALLOC} (uninitialised : Z -> Z).
Implicit Types (dev : yaffs_Device mtd) (m : tnode_memory) (om : object_memory) (free : list Z).

(** The good states on the way, with the directories [l]. *)
Record mounting dev m free om (l : list (Z * Z * Z)) : Prop := {
  mg_ok : objects_ok m om;
  mg_pool : pool dev m free;
  mg_shape : shape om l
}.

Lemma FakeDirectory_spec dev m free om l n mode nt no :
  mounting dev m free om l -> number_ok n -> n ∉ (snd ∘ fst <$> l) -> budget YMALLOC dev m free om nt (S no) ->
  exists a dev' m' om' free', yaffs_CreateFakeDirectory YMALLOC uninitialised dev m om n mode = Some (a, dev', m', om') /\ a <> 0 /\ a ∉ (fst ∘ fst <$> l) /\
    mounting dev' m' free' om' ((a, n, first_parent om) :: l) /\ special_dirs om' = special_dirs om /\ tended dev dev' /\ budget YMALLOC dev' m' free' om' nt no.
Proof.
  intros [Hok Hp [H1 H2]] Hn Hnew Hb. unfold yaffs_CreateFakeDirectory.
  destruct (CreateNewObject_spec YMALLOC uninitialised dev m free om n YAFFS_OBJECT_TYPE_DIRECTORY nt no Hok Hp Hn)
    as (a & o & tn & dev' & m' & om' & free' & s & -> & Ha0 & Hna & Hc & Ha & No & Hok' & Hsd & T & Hp' & _ & Hb' & _); [|done|].
  { intros x ox Hx E. apply Hnew, list_elem_of_fmap. exists (x, obj_objectId ox, parent ox). split; [by rewrite E|]. by apply (H1 x ox). }
  cbn [mbind option_bind]. assert (truthy a = true) as -> by (by apply truthy_true).
  rewrite (update_object_Some om' a _ o Ha). cbn [mbind option_bind]. match goal with |- context [om' <| objects := <[a := ?x]> _ |>] => set (o' := x) end.
  set (t := <[a := o']> (objects om')). assert (t !! a = Some o') as Hta by apply lookup_insert_eq. assert (cores_but a (objects om') t) as Ct by (by apply cores_insert).
  exists a, dev', m', (om' <| objects := t |>), free'. split; [done|]. split; [done|]. split.
  { intros ([[x n'] p] & -> & Hx)%list_elem_of_fmap. destruct (H2 _ _ _ Hx) as (ox & Hox & _). simpl in Hna. congruence. }
  split; [|done]. destruct No as [N1 N2 N3 N4 N5]. constructor; [|done|constructor]; change (objects (om' <| objects := t |>)) with t.
  - eapply (objects_cores m' om' t a o o'); try done. change (parent o') with (parent o). apply (ob_parent _ _ Hok' a o Ha).
  - intros x ox Hx. destruct (decide (x = a)) as [->|Hne].
    + rewrite Hta in Hx. injection Hx as <-. change (obj_objectId o') with (obj_objectId o). change (parent o') with (parent o). rewrite N1, N4. split; [done|]. apply elem_of_cons. by left.
    + unfold t in Hx. rewrite lookup_insert_ne in Hx by done. destruct (cores_lookup _ _ _ _ _ Hc Hne Hx) as (o0 & Ho0 & E). rewrite lookup_insert_ne in Ho0 by done.
      pose proof (core_fields _ _ E) as F. destruct (H1 x o0 Ho0) as [D I]. split; [congruence|]. apply elem_of_cons. right. congruence.
  - intros x n' p [E|Hin]%elem_of_cons.
    + injection E as -> -> ->. by exists o'.
    + destruct (H2 x n' p Hin) as (o0 & Ho0 & E1 & E2). assert (x <> a) as Hne by (intros ->; congruence). destruct (proj2 Hc x o0 Hne) as (o1 & Ho1 & E); [by rewrite lookup_insert_ne|].
      pose proof (core_fields _ _ E) as F. exists o1. split; [unfold t; by rewrite lookup_insert_ne|]. split; congruence.
Qed.

(** A directory is made, for one of the four places. *)
Lemma FakeDirectory_place dev m free om l n mode nt no r u d :
  mounting dev m free om l -> special_dirs om = (r, 0, u, d) -> number_ok n -> n ∉ (snd ∘ fst <$> l) -> budget YMALLOC dev m free om nt (S no) ->
  exists a dev' m' om' free', yaffs_CreateFakeDirectory YMALLOC uninitialised dev m om n mode = Some (a, dev', m', om') /\ (a <> 0 /\ a ∉ (fst ∘ fst <$> l)) /\
    special_dirs om' = (r, 0, u, d) /\ tended dev dev' /\ (forall r' l' u' d', budget YMALLOC dev' m' free' (set_dirs om' r' l' u' d') nt no) /\
    forall r' l' u' d', (forall x, x ∈ [r'; l'; u'; d'] -> x ∈ [0; r; u; d; a]) -> (l' <> 0 -> l' <> u' /\ l' <> d') ->
      mounting dev' m' free' (set_dirs om' r' l' u' d') ((a, n, r) :: l).
Proof.
  intros M [= D1 D2 D3 D4] Hn Hnew Hb.
  destruct (FakeDirectory_spec dev m free om l n mode nt no M Hn Hnew Hb) as (a & dev' & m' & om' & free' & E & Ha & Hal & [O P S] & [= E1 E2 E3 E4] & T & B).
  exists a, dev', m', om', free'. split; [done|]. split; [by split|]. split; [unfold special_dirs; congruence|]. split; [done|]. split; [done|].
  assert (first_parent om = r) as Ef by (unfold first_parent; by rewrite D2, D1). rewrite Ef in S. intros r' l' u' d' Hin Hl. constructor; [|done|destruct S; by constructor].
  apply objects_dirs; [done| |done]. intros x Hx Hx0. specialize (Hin x Hx). rewrite !elem_of_cons, elem_of_nil in Hin. destruct Hin as [?|[->|[->|[->|[->|[]]]]]]; [done|..].
  - apply (ob_dirs _ _ O); [|done]. rewrite E1, D1. by left.
  - apply (ob_dirs _ _ O); [|done]. rewrite E3, D3. do 2 right. by left.
  - apply (ob_dirs _ _ O); [|done]. rewrite E4, D4. do 3 right. by left.
  - eapply shape_directory; [exact S|by left].
Qed.

(** The objects of a file system that has just been mounted. *)
Definition initial_directories om : list (Z * Z * Z) :=
  [(lostNFoundDir om, YAFFS_OBJECTID_LOSTNFOUND, rootDir om); (rootDir om, YAFFS_OBJECTID_ROOT, 0);
   (deletedDir om, YAFFS_OBJECTID_DELETED, 0); (unlinkedDir om, YAFFS_OBJECTID_UNLINKED, 0)].

Lemma CreateInitialDirectories_spec dev m free om nt no :
  objects_ok m (set_dirs om 0 0 0 0) -> objects om = ∅ -> pool dev m free -> budget YMALLOC dev m free om nt (4 + no) ->
  exists dev' m' om' free', yaffs_CreateInitialDirectories YMALLOC uninitialised dev m om = Some (YAFFS_OK, dev', m', om') /\
    mounting dev' m' free' om' (initial_directories om') /\ tended dev dev' /\ budget YMALLOC dev' m' free' om' nt no.
Proof.
  intros Hok He Hp Hb. unfold yaffs_CreateInitialDirectories.
  match goal with |- context [yaffs_CreateFakeDirectory _ _ dev m ?x] => change x with (set_dirs om 0 0 0 0) end. set (om0 := set_dirs om 0 0 0 0) in *.
  assert (mounting dev m free om0 []) as M0.
  { constructor; try done. constructor; [intros a o Ha; change (objects om !! a = Some o) in Ha; by rewrite He in Ha|by intros a n p ?%elem_of_nil]. }
  destruct (FakeDirectory_place dev m free om0 [] YAFFS_OBJECTID_UNLINKED S_IFDIR nt (3 + no) 0 0 0 M0 eq_refl) as (u & dev1 & m1 & om1 & free1 & -> & [Hu _] & D1 & T1 & B1 & M1); [done|apply not_elem_of_nil|done|].
  cbn [mbind option_bind]. rewrite (proj1 (proj2 (proj2 (set_one_dir _ _ _ _ _ D1)))). specialize (M1 0 0 u 0 ltac:(clear; set_solver) ltac:(done)).
  destruct (FakeDirectory_place _ _ _ _ _ YAFFS_OBJECTID_DELETED S_IFDIR nt (2 + no) 0 u 0 M1 eq_refl) as (d & dev2 & m2 & om2 & free2 & -> & [Hd _] & D2 & T2 & B2 & M2);
    [done|by apply (bool_decide_unpack _)|apply B1|].
  cbn [mbind option_bind]. rewrite (proj2 (proj2 (proj2 (set_one_dir _ _ _ _ _ D2)))). specialize (M2 0 0 u d ltac:(clear; set_solver) ltac:(done)).
  destruct (FakeDirectory_place _ _ _ _ _ YAFFS_OBJECTID_ROOT (Z.lor YAFFS_ROOT_MODE S_IFDIR) nt (1 + no) 0 u d M2 eq_refl) as (r & dev3 & m3 & om3 & free3 & -> & [Hr Hnr] & D3 & T3 & B3 & M3);
    [done|by apply (bool_decide_unpack _)|apply B2|].
  cbn [mbind option_bind]. rewrite (proj1 (set_one_dir _ _ _ _ _ D3)). specialize (M3 r 0 u d ltac:(clear; set_solver) ltac:(done)).
  destruct (FakeDirectory_place _ _ _ _ _ YAFFS_OBJECTID_LOSTNFOUND (Z.lor YAFFS_LOSTNFOUND_MODE S_IFDIR) nt no r u d M3 eq_refl) as (lf & dev4 & m4 & om4 & free4 & -> & [Hlf Hn] & D4 & T4 & B4 & M4);
    [done|by apply (bool_decide_unpack _)|apply B3|].
  cbn [mbind option_bind]. rewrite (proj1 (proj2 (set_one_dir _ _ _ _ _ D4))).
  assert (lf <> u /\ lf <> d) as [Hlu Hld] by (clear - Hn; set_solver). specialize (M4 r lf u d ltac:(clear; set_solver) ltac:(done)).
  cbv beta zeta iota. set (om5 := set_dirs om4 r lf u d) in *. change (lostNFoundDir om5) with lf. change (rootDir om5) with r. change (unlinkedDir om5) with u. change (deletedDir om5) with d.
  rewrite !truthy_true by done. cbn [andb]. destruct (sh_has _ _ (mg_shape _ _ _ _ _ M4) lf YAFFS_OBJECTID_LOSTNFOUND r) as (o & Ho & En & Ep); [by left|].
  destruct (Add_spec dev4 om5 r lf o Hr) as (t & c & -> & C & At); [eapply shape_directory; [apply M4|right; by left]|done|intros _; rewrite Ep|].
  { destruct (sh_has _ _ (mg_shape _ _ _ _ _ M4) r YAFFS_OBJECTID_ROOT 0) as (ro & Hro & _); [right; by left|]. by rewrite Hro. }
  cbn [mbind option_bind]. assert ((r =? u) || (r =? d) = false) as Hrn by (apply orb_false_iff; rewrite !Z.eqb_neq; clear - Hnr; set_solver).
  unfold counted_in, added_to in *. change (unlinkedDir om5) with u in *. change (deletedDir om5) with d in *. rewrite Hrn in *.
  exists dev4, m4, (om5 <| objects := t |>), free4. split; [done|]. split; [|split; [|apply B4]].
  - destruct M4 as [O4 P4 [S1 S2]]. constructor; [|done|].
    + eapply (objects_cores m4 om5 t lf o); try done. intros _. by eapply (shape_directory om5); [constructor|right; by left].
    + apply (shape_kept om5 t lf o _ _ (Build_shape _ _ S1 S2) C Ho At); [|done]. by rewrite <- Ep.
  - eapply tended_trans; [exact T1|]. eapply tended_trans; [exact T2|]. by eapply tended_trans.
Qed.

(** There are no objects and no tnodes. *)
Lemma fresh_objects dev m om : objects om = ∅ -> objects_ok m (set_dirs (yaffs_InitialiseObjects dev om).2 0 0 0 0).
Proof.
  intros He. set (om' := set_dirs _ 0 0 0 0). assert (forall a, objects om' !! a = None) as Hn by (intros a; change (objects om !! a = None); by rewrite He).
  assert (forall k b a, objectBucket om' !! k = Some b -> a ∈ bucket_list b -> False) as Hb by (intros k b a [-> _]%lookup_replicate ?%elem_of_nil; done).
  constructor.
  - constructor; [exact (length_replicate _ _)|intros k b a H1 H2; by destruct (Hb k b a)|..].
    + intros a o Ha. by rewrite Hn in Ha.
    + intros a a' o o' Ha. by rewrite Hn in Ha.
    + intros a o Ha. by rewrite Hn in Ha.
  - intros a o Ha. by rewrite Hn in Ha.
  - intros a o Ha. by rewrite Hn in Ha.
  - intros d Hd Hd0. exfalso. apply Hd0. change (d ∈ [0; 0; 0; 0]) in Hd. clear - Hd. set_solver.
  - done.
  - apply NoDup_nil_2.
  - by intros a ?%elem_of_nil.
  - intros a [?%elem_of_nil|[o Ho]]; [done|]. by rewrite Hn in Ho.
Qed.

Lemma fresh_pool dev m : tnode_wf dev -> tnodes m = ∅ -> let '(dev', m') := yaffs_InitialiseTnodes dev m in pool dev' m' [].
Proof.
  intros Hw He. unfold yaffs_InitialiseTnodes. set (dev' := dev <| nFreeTnodes := 0 |> <| nTnodesCreated := 0 |>). set (m' := m <| allocatedTnodeList := [] |> <| freeTnodes := 0 |>).
  assert (dom (tnodes m') = ∅) as Hd by (change (dom (tnodes m) = ∅); rewrite He; apply dom_empty_L). constructor; try done; [by destruct Hw; constructor|apply NoDup_nil_2|by rewrite Hd, size_empty|].
  intros a. by rewrite Hd.
Qed.

(** The directories are made when there is memory. *)
Lemma Initialise_spec dev m om nt no :
  tnode_wf dev -> tnodes m = ∅ -> objects om = ∅ -> Z.of_nat nt * batch dev + Z.of_nat (4 + no) * object_batch <= ymalloc_room m ->
  let '(dev1, m1) := yaffs_InitialiseTnodes dev m in
  let '(dev2, om1) := yaffs_InitialiseObjects dev1 om in
  exists dev' m' om' free', yaffs_CreateInitialDirectories YMALLOC uninitialised dev2 m1 om1 = Some (YAFFS_OK, dev', m', om') /\
    mounting dev' m' free' om' (initial_directories om') /\ tended dev dev' /\ budget YMALLOC dev' m' free' om' nt no.
Proof.
  intros Hw Ht Ho Hm. pose proof (fresh_pool dev m Hw Ht) as Hp. unfold yaffs_InitialiseTnodes in *. set (dev1 := dev <| nFreeTnodes := 0 |> <| nTnodesCreated := 0 |>) in *.
  set (m1 := m <| allocatedTnodeList := [] |> <| freeTnodes := 0 |>) in *. pose proof (fresh_objects dev1 m1 om Ho) as Hok. unfold yaffs_InitialiseObjects in *. cbn [snd] in Hok.
  set (dev2 := dev1 <| nFreeObjects := 0 |>) in *. match type of Hok with objects_ok _ (set_dirs ?x _ _ _ _) => set (om1 := x) in * end.
  destruct (CreateInitialDirectories_spec dev2 m1 [] om1 nt no Hok Ho) as (dev' & m' & om' & free' & E & M & T & B).
  - by apply (pool_same dev1).
  - split; [apply object_room_pos|]. rewrite (ymalloc_same m m1) by done. unfold object_room. change (freeObjects om1) with (@nil Z). change (batch dev2) with (batch dev).
    rewrite !Nat.sub_0_r. lia.
  - exists dev', m', om', free'. split; [exact E|]. split; [exact M|]. split; [|exact B]. eapply tended_trans; [|exact T].
    exists 0, 0, (nCheckpointBlocksRequired dev), 0, (nObjectsCreated dev). by destruct dev.
Qed.

End Mount.
