(* ===== verification/YaffsObjectsDirs.v ===== *)
(** * The lists that objects are linked into

    The children of the directories and the objects of the buckets: what creating an object, taking it out of
    its directory and freeing it do to them. *)

From stdpp Require Import list.
From S2P Require Import Prelude NandEcc YaffsTags YaffsNand YaffsBlocks YaffsTnodes YaffsTnodesPool.
From S2P Require Import YaffsObjects YaffsObjectsFacts.

Local Open Scope Z_scope.

(** ** Children and parents *)

Definition kids (t : object_store) (d : Z) : option (list Z) := children <$> t !! d.

Definition par (t : object_store) (c : Z) : option Z := parent <$> t !! c.

(** The children of a directory are the objects that have it as their parent. *)
Definition listed (t : object_store) : Prop :=
  forall d l, d <> 0 -> kids t d = Some l -> NoDup l /\ forall c, c ∈ l <-> par t c = Some d.

(** A bucket counts its objects, which are all different. *)
Definition counted (bs : list yaffs_ObjectBucket) : Prop :=
  forall k b, bs !! k = Some b -> NoDup (bucket_list b) /\ bucket_count b = Z.of_nat (length (bucket_list b)).

Lemma kids_insert t a o d : kids (<[a := o]> t) d = if decide (d = a) then Some (children o) else kids t d.
Proof. unfold kids. case_decide as E; [subst; by rewrite lookup_insert_eq|]. by rewrite lookup_insert_ne. Qed.

Lemma par_insert t a o c : par (<[a := o]> t) c = if decide (c = a) then Some (parent o) else par t c.
Proof. unfold par. case_decide as E; [subst; by rewrite lookup_insert_eq|]. by rewrite lookup_insert_ne. Qed.

Lemma update_object_inv om a f om' : update_object om a f = Some om' ->
  exists o, objects om !! a = Some o /\ om' = om <| objects := <[a := f o]> (objects om) |>.
Proof. unfold update_object. destruct (objects om !! a) as [o|]; [|done]. intros [= <-]. by exists o. Qed.

(** The object leaves the list of its parent. *)
Definition without (x : Z) (l : list Z) : list Z := filter (fun c => c <> x) l.

Lemma without_absent x l : x ∉ l -> without x l = l.
Proof.
  unfold without. induction l as [|y l IH]; intros Hx; [done|]. apply not_elem_of_cons in Hx as [H1 H2]. rewrite filter_cons_True by congruence.
  f_equal. by apply IH.
Qed.

Lemma without_head x l : x ∉ l -> without x (x :: l) = l.
Proof. intros Hx. unfold without. rewrite filter_cons_False by congruence. by apply without_absent. Qed.

Definition leave (x p d : Z) (l : list Z) : list Z := if decide (d <> 0 /\ d = p) then without x l else l.

Lemma leave_other x p d (k : option (list Z)) : ~ (d <> 0 /\ d = p) -> leave x p d <$> k = k.
Proof. intros H. destruct k; [|done]. cbn. unfold leave. by rewrite decide_False. Qed.

Lemma leave_parent x p l : p <> 0 -> leave x p p l = without x l.
Proof. intros H. unfold leave. by rewrite decide_True. Qed.

Definition enter (x p d : Z) (l : list Z) : list Z := if decide (d = p) then x :: l else l.

Lemma Remove_lists om x om' : yaffs_RemoveObjectFromDirectory om x = Some om' ->
  exists o t, objects om !! x = Some o /\ om' = om <| objects := t |> /\
    (forall d, kids t d = leave x (parent o) d <$> kids (objects om) d) /\
    (forall c, par t c = if decide (c = x) then Some 0 else par (objects om) c).
Proof.
  unfold yaffs_RemoveObjectFromDirectory. destruct (objects om !! x) as [o|] eqn:Hx; [|done]. cbn [mbind option_bind]. unfold truthy.
  assert (par (objects om) x = Some (parent o)) as Hp by (unfold par; by rewrite Hx).
  destruct (Z.eqb_spec (parent o) 0) as [E0|E0]; cbn [negb mbind option_bind]; intros E.
  - apply update_object_inv in E as (o' & Hx' & ->). rewrite Hx in Hx'. injection Hx' as <-. eexists o, _. split; [done|]. split; [done|].
    split; [intros d; rewrite leave_other by (intros [H1 H2]; congruence)|intros c; by rewrite par_insert].
    rewrite kids_insert. case_decide as Ed; [|done]. subst d. unfold kids. by rewrite Hx.
  - destruct (update_object om (parent o) _) as [om1|] eqn:E1; [|done]. cbn [mbind option_bind] in E.
    apply update_object_inv in E1 as (d0 & Hd0 & ->). apply update_object_inv in E as (o1 & Hx1 & ->). change (objects _) with (<[parent o := d0 <| children ::= without x |>]> (objects om)) in Hx1.
    eexists o, _. split; [done|]. split; [done|]. change (objects (om <| objects := _ |>)) with (<[parent o := d0 <| children ::= without x |>]> (objects om)).
    assert (kids (<[parent o := d0 <| children ::= without x |>]> (objects om)) x = Some (children o1)) as Hk1 by (unfold kids; by rewrite Hx1). split.
    + intros d. rewrite kids_insert. change (children (o1 <| parent := 0 |>)) with (children o1).
      transitivity (kids (<[parent o := d0 <| children ::= without x |>]> (objects om)) d); [case_decide; by subst|].
      rewrite kids_insert. case_decide as Ed; [|by rewrite leave_other by (by intros [_ ?])].
      subst d. unfold kids. rewrite Hd0. cbn. by rewrite leave_parent.
    + intros c. rewrite !par_insert. case_decide; [done|]. case_decide as Ec; [|done]. subst c. unfold par. by rewrite Hd0.
Qed.

Lemma Add_lists {mtd} (dev dev' : yaffs_Device mtd) om d x om' : d <> 0 -> yaffs_AddObjectToDirectory dev om d x = Some (dev', om') ->
  exists o t, objects om !! x = Some o /\ om' = om <| objects := t |> /\
    (forall e, kids t e = enter x d e ∘ leave x (parent o) e <$> kids (objects om) e) /\
    (forall c, par t c = if decide (c = x) then Some d else par (objects om) c).
Proof.
  intros Hd. unfold yaffs_AddObjectToDirectory. rewrite (proj2 (Z.eqb_neq d 0)) by done. destruct (objects om !! d) as [od|]; [|done]. cbn [mbind option_bind].
  case_bool_decide; [done|]. destruct (yaffs_RemoveObjectFromDirectory om x) as [om1|] eqn:E1; [|done]. cbn [mbind option_bind].
  apply Remove_lists in E1 as (o & t1 & Hx & -> & K1 & P1). destruct (update_object _ d _) as [om2|] eqn:E2; [|done]. cbn [mbind option_bind].
  apply update_object_inv in E2 as (d1 & Hd1 & ->). change (objects (om <| objects := t1 |>)) with t1 in *. set (t2 := <[d := d1 <| children ::= cons x |>]> t1).
  destruct (update_object _ x _) as [om3|] eqn:E3; [|done]. cbn [mbind option_bind]. apply update_object_inv in E3 as (o2 & Hx2 & ->).
  change (objects (om <| objects := t1 |> <| objects := t2 |>)) with t2 in *.
  assert (forall e, kids t2 e = enter x d e ∘ leave x (parent o) e <$> kids (objects om) e) as K2.
  { intros e. unfold t2. rewrite kids_insert. unfold enter at 1, compose. case_decide as Ee; [|rewrite K1; by destruct (kids (objects om) e)].
    subst e. specialize (K1 d). unfold kids at 1 in K1. rewrite Hd1 in K1. destruct (kids (objects om) d); [|done]. cbn in K1 |- *. by injection K1 as <-. }
  assert (forall c, c <> x -> par t2 c = par (objects om) c) as P2.
  { intros c Hc. unfold t2. rewrite par_insert. change (parent (d1 <| children ::= cons x |>)) with (parent d1). case_decide as Ec.
    - subst c. specialize (P1 d). rewrite decide_False in P1 by done. rewrite <- P1. unfold par. by rewrite Hd1.
    - by rewrite P1, decide_False by done. }
  assert (forall o3, children o3 = children o2 -> parent o3 = d ->
    (forall e, kids (<[x := o3]> t2) e = enter x d e ∘ leave x (parent o) e <$> kids (objects om) e) /\
    (forall c, par (<[x := o3]> t2) c = if decide (c = x) then Some d else par (objects om) c)) as Hfin.
  { intros o3 Ec Ep. split.
    - intros e. rewrite kids_insert. case_decide as Ee; [|apply K2]. subst e. rewrite <- K2. unfold kids. rewrite Hx2, Ec. done.
    - intros c. rewrite par_insert. case_decide; [by rewrite Ep|by apply P2]. }
  destruct (_ || _).
  - destruct (update_object _ x _) as [om4|] eqn:E4; [|done]. cbn [mbind option_bind]. apply update_object_inv in E4 as (o4 & Ho4 & ->).
    destruct (update_object _ x _) as [om5|] eqn:E5; [|done]. cbn [mbind option_bind]. apply update_object_inv in E5 as (o5 & Ho5 & ->). intros [= <- <-].
    simpl objects in Ho4, Ho5. rewrite lookup_insert_eq in Ho4. injection Ho4 as <-. rewrite lookup_insert_eq in Ho5. injection Ho5 as <-.
    eexists o, _. split; [done|]. split; [done|]. simpl objects. rewrite !insert_insert_eq. by apply Hfin.
  - intros [= <- <-]. eexists o, _. split; [done|]. split; [done|]. by apply Hfin.
Qed.

(** The lists stay in order. *)
Lemma listed_enter t t' x p : listed t -> par t x = Some 0 -> p <> 0 ->
  (forall d, kids t' d = enter x p d <$> kids t d) -> (forall c, par t' c = if decide (c = x) then Some p else par t c) -> listed t'.
Proof.
  intros H Hx Hp K P d l' Hd Hl. rewrite K in Hl. destruct (kids t d) as [l|] eqn:El; [|done]. injection Hl as <-. destruct (H d l Hd El) as [Hn Hc].
  unfold enter. case_decide as E.
  - subst d. split; [apply NoDup_cons; split; [|done]; rewrite Hc, Hx; by intros [= <-]|]. intros c. rewrite elem_of_cons, P, Hc. case_decide; [|naive_solver].
    split; [done|]. by left.
  - split; [done|]. intros c. rewrite P, Hc. case_decide as Ec; [|done]. subst c. rewrite Hx. split; intros [= <-]; done.
Qed.

(** ** A new object *)

Lemma sweeten_lists {mtd} (dev dev' : yaffs_Device mtd) om a om' :
  listed (objects om) -> objects om !! a = None -> objects om !! 0 = None -> a <> 0 -> rootDir om <> a -> lostNFoundDir om <> a ->
  sweeten_object dev om a = Some (dev', om') ->
  exists t, om' = om <| objects := t |> /\
    (forall e, kids t e = enter a (first_parent om) e <$> kids (<[a := zero_object]> (objects om)) e) /\
    (forall c, par t c = if decide (c = a) then Some (first_parent om) else par (objects om) c).
Proof.
  intros Hl Ha H0 Ha0 Hra Hla. unfold sweeten_object. set (t0 := <[a := zero_object]> (objects om)).
  change (om <| objects ::= <[a := zero_object]> |>) with (om <| objects := t0 |>). change (rootDir (om <| objects := t0 |>)) with (rootDir om).
  assert (kids t0 0 = None) as K0 by (unfold t0; rewrite kids_insert, decide_False by done; unfold kids; by rewrite H0).
  destruct (if truthy (rootDir om) then _ else _) as [om1|] eqn:E1; [|done]. cbn [mbind option_bind].
  assert (exists t1, om1 = om <| objects := t1 |> /\ (forall e, kids t1 e = enter a (rootDir om) e <$> kids t0 e) /\
    (forall c, par t1 c = if decide (c = a) then Some (rootDir om) else par (objects om) c)) as (t1 & -> & K1 & P1).
  { unfold truthy in E1. destruct (Z.eqb_spec (rootDir om) 0) as [Er|Er]; cbn [negb] in E1.
    - injection E1 as <-. exists t0. split; [done|]. split; [|intros c; unfold t0; rewrite par_insert, Er; by case_decide].
      intros e. rewrite Er. unfold enter. destruct (decide (e = 0)) as [->|]; [by rewrite K0|]. by destruct (kids t0 e).
    - destruct (update_object _ a _) as [om2|] eqn:E2; [|done]. cbn [mbind option_bind] in E1. apply update_object_inv in E2 as (o & Ho & ->).
      change (objects (om <| objects := t0 |>)) with t0 in *. unfold t0 in Ho. rewrite lookup_insert_eq in Ho. injection Ho as <-.
      apply update_object_inv in E1 as (d & Hd & ->). change (rootDir (om <| objects := t0 |> <| objects := _ |>)) with (rootDir om) in *.
      simpl objects in Hd |- *. rewrite lookup_insert_ne in Hd by done. eexists. split; [done|]. split.
      + intros e. rewrite !kids_insert. unfold enter. case_decide as Ee; [subst e; unfold kids; by rewrite Hd|]. case_decide as Ea.
        * subst e. unfold t0. by rewrite kids_insert, decide_True.
        * by destruct (kids t0 e).
      + intros c. rewrite !par_insert. case_decide as Ec; [subst c; rewrite decide_False by done|by case_decide; [|unfold t0; rewrite par_insert, decide_False]].
        unfold t0 in Hd. rewrite lookup_insert_ne in Hd by done. unfold par. by rewrite Hd. }
  change (lostNFoundDir (om <| objects := t1 |>)) with (lostNFoundDir om). unfold truthy, first_parent.
  destruct (Z.eqb_spec (lostNFoundDir om) 0) as [El|El]; cbn [negb]; [intros [= <- <-]; by exists t1|].
  intros E. apply Add_lists in E as (o & t & Ho & -> & K & P); [|done]. change (objects (om <| objects := t1 |>)) with t1 in *.
  assert (parent o = rootDir om) as Hpo by (pose proof (P1 a) as Pa; rewrite decide_True in Pa by done; unfold par in Pa; rewrite Ho in Pa; by injection Pa).
  exists t. split; [done|]. split; [|intros c; rewrite P, P1; by case_decide].
  intros e. rewrite K, K1, Hpo. destruct (kids t0 e) as [l|] eqn:Ek; [|done]. cbn. f_equal. f_equal. unfold enter, leave.
  destruct (decide (e = rootDir om)) as [Er|]; [|by rewrite decide_False by (by intros [_ ?])].
  destruct (decide (e = 0)) as [->|]; [congruence|]. rewrite decide_True by done. apply without_head. unfold t0 in Ek. rewrite kids_insert, decide_False in Ek by congruence.
  destruct (Hl e l ltac:(done) Ek) as [_ Hc]. rewrite Hc. unfold par. by rewrite Ha.
Qed.

Lemma update_bucket_inv om k f om' : update_bucket om k f = Some om' ->
  exists b, objectBucket om !! Z.to_nat k = Some b /\ om' = om <| objectBucket := <[Z.to_nat k := f b]> (objectBucket om) |>.
Proof. unfold update_bucket. destruct (objectBucket om !! Z.to_nat k) as [b|]; [|done]. intros [= <-]. by exists b. Qed.

(** The bucket with one more object. *)
Definition hashed (a : Z) (b : yaffs_ObjectBucket) : yaffs_ObjectBucket := mk_bucket (a :: bucket_list b) (Z.succ (bucket_count b)).

Lemma init_object_lists om a n type tn om' :
  kids (objects om) a = Some [] -> init_object om a n type tn = Some om' ->
  (exists b, objectBucket om !! bucket_of (u32 n) = Some b /\ objectBucket om' = <[bucket_of (u32 n) := hashed a b]> (objectBucket om)) /\
  (forall e, kids (objects om') e = kids (objects om) e) /\ (forall c, par (objects om') c = par (objects om) c).
Proof.
  intros Hk. unfold init_object. destruct (update_object om a _) as [om1|] eqn:E1; [|done]. cbn [mbind option_bind].
  apply update_object_inv in E1 as (o & Ho & ->). set (o1 := o <| fake := false |> <| renameAllowed := true |> <| unlinkAllowed := true |> <| obj_objectId := u32 n |>).
  unfold yaffs_HashObject. change (objects (om <| objects := <[a := o1]> (objects om) |>)) with (<[a := o1]> (objects om)). rewrite lookup_insert_eq. cbn [mbind option_bind]. change (obj_objectId o1) with (u32 n). cbv zeta.
  destruct (update_bucket _ _ _) as [om2|] eqn:E2; [|done]. cbn [mbind option_bind]. apply update_bucket_inv in E2 as (b & Hb & ->). fold (bucket_of (u32 n)) in *.
  destruct (update_bucket _ _ _) as [om3|] eqn:E3; [|done]. cbn [mbind option_bind]. apply update_bucket_inv in E3 as (b2 & Hb2 & ->). fold (bucket_of (u32 n)) in *.
  intros E4. apply update_object_inv in E4 as (o4 & Ho4 & ->). simpl objects in Ho4. rewrite lookup_insert_eq in Ho4. injection Ho4 as <-.
  simpl objectBucket in *. rewrite list_lookup_insert_eq in Hb2 by (by apply lookup_lt_Some in Hb). injection Hb2 as <-. split.
  - exists b. split; [done|]. rewrite list_insert_insert_eq. done.
  - simpl objects. rewrite insert_insert_eq. assert (children o = []) as Hc by (unfold kids in Hk; rewrite Ho in Hk; by injection Hk). split.
    + intros e. rewrite kids_insert. case_decide as Ee; [|done]. subst e. rewrite Hk. f_equal. by destruct type.
    + intros c. rewrite par_insert. case_decide as Ec; [|done]. subst c. unfold par. rewrite Ho. by destruct type.
Qed.

Section Lists.
Context {mtd : Type} (YMALLOC : tnode_memory -> Z -> Z) (uninitialised : Z -> Z).
Implicit Types (dev : yaffs_Device mtd) (m : tnode_memory) (om : object_memory).

(** Only the pool changes. *)
Lemma refill_objects_frame dev m om dev' m' om' : refill_objects YMALLOC dev m om = Some (dev', m', om') ->
  exists l c, om' = om <| freeObjects := l |> <| allocatedObjectList := c |>.
Proof.
  assert (om = om <| freeObjects := freeObjects om |> <| allocatedObjectList := allocatedObjectList om |>) as Eta by (by destruct om).
  unfold refill_objects. destruct (freeObjects om) eqn:Ef; [|intros [= <- <- <-]; rewrite <- Ef in *; eexists _, _; exact Eta].
  unfold yaffs_CreateFreeObjects. change (YAFFS_ALLOCATION_NOBJECTS <? 1) with false. cbv iota.
  destruct (malloc_block YMALLOC m _ _) as [p m1]. destruct (malloc_block YMALLOC m1 _ _) as [q m2].
  destruct (_ || _).
  - destruct (if truthy p then _ else _) as [m3|]; [|done]. cbn [mbind option_bind]. destruct (if truthy q then _ else _) as [m4|]; [|done]. cbn [mbind option_bind].
    intros [= <- <- <-]. rewrite <- Ef in Eta. eexists _, _. exact Eta.
  - cbn [mbind option_bind]. intros [= <- <- <-]. by eexists _, _.
Qed.

Lemma CreateNewObject_lists dev m om n type a dev' m' om' :
  listed (objects om) -> objects om !! 0 = None -> objects om !! a = None -> a <> 0 -> rootDir om <> a -> lostNFoundDir om <> a -> number_ok n ->
  yaffs_CreateNewObject YMALLOC uninitialised dev m om n type = Some (a, dev', m', om') ->
  (exists b, objectBucket om !! bucket_of n = Some b /\ objectBucket om' = <[bucket_of n := hashed a b]> (objectBucket om)) /\
  (forall e, kids (objects om') e = enter a (first_parent om) e <$> kids (<[a := zero_object]> (objects om)) e) /\
  (forall c, par (objects om') c = if decide (c = a) then Some (first_parent om) else par (objects om) c).
Proof.
  intros Hl H0 Ha Ha0 Hr Hlf Hn. unfold yaffs_CreateNewObject. rewrite (proj2 (Z.ltb_ge n 0)) by (unfold number_ok in Hn; lia). cbn [mbind option_bind].
  unfold yaffs_AllocateEmptyObject. destruct (refill_objects YMALLOC dev m om) as [[[dev1 m1] om1]|] eqn:E1; [|done]. cbn [mbind option_bind].
  apply refill_objects_frame in E1 as (l & c & ->). change (freeObjects (om <| freeObjects := l |> <| allocatedObjectList := c |>)) with l.
  destruct l as [|x l]; [intros [= <- _ _ _]; done|]. destruct (sweeten_object _ _ x) as [[dev2 om2]|] eqn:E2; [|done]. cbn [mbind option_bind].
  destruct (Z.eqb_spec x 0) as [->|Hx]; [by intros [= <- _ _ _]|]. destruct (if bool_decide _ then _ else _) as [[[tn dev3] m3]|]; [|done]. cbn [mbind option_bind].
  destruct (_ && _). { destruct (yaffs_FreeObject _ _ _) as [[dev4 om4]|]; [|done]. cbn [mbind option_bind]. by intros [= <- _ _ _]. }
  destruct (init_object om2 x n type tn) as [om3|] eqn:E3; [|done]. cbn [mbind option_bind]. intros [= -> _ _ <-].
  apply sweeten_lists in E2 as (t & -> & K & P); [|done..]. change (first_parent (om <| freeObjects := a :: l |> <| allocatedObjectList := c |> <| freeObjects := l |>)) with (first_parent om) in *.
  change (objects (om <| freeObjects := a :: l |> <| allocatedObjectList := c |> <| freeObjects := l |>)) with (objects om) in *.
  assert (first_parent om <> a) as Hfp by (unfold first_parent; by case_match).
  apply init_object_lists in E3 as (B & K3 & P3).
  - rewrite u32_small in B by (unfold number_ok in Hn; lia). split; [exact B|]. change (objects (om <| freeObjects := _ |> <| allocatedObjectList := c |> <| freeObjects := l |> <| objects := t |>)) with t in *.
    split; [intros e; by rewrite K3|intros x; by rewrite P3].
  - change (kids t a = Some []). rewrite K, kids_insert, decide_True by done. cbn. unfold enter. by rewrite decide_False by congruence.
Qed.

(** The object that is freed is in no list any more. *)
Lemma FreeObject_lists dev om a dev' om' :
  yaffs_FreeObject dev om a = Some (dev', om') ->
  exists o, objects om !! a = Some o /\ (myInode o = 0 -> objects om' = delete a (objects om) /\
    exists b, objectBucket om !! bucket_of (obj_objectId o) = Some b /\
      objectBucket om' = if decide (a ∈ bucket_list b) then <[bucket_of (obj_objectId o) := mk_bucket (without a (bucket_list b)) (Z.pred (bucket_count b))]> (objectBucket om)
                         else objectBucket om).
Proof.
  unfold yaffs_FreeObject. destruct (objects om !! a) as [o|] eqn:Ha; [|done]. cbn [mbind option_bind]. destruct (truthy (parent o)); [done|]. intros E. exists o. split; [done|].
  intros Hi. rewrite Hi in E. change (truthy 0) with false in E. cbv iota in E. unfold yaffs_UnhashObject in E. rewrite Ha in E. cbn [mbind option_bind] in E. fold (bucket_of (obj_objectId o)) in E.
  destruct (objectBucket om !! bucket_of (obj_objectId o)) as [b|] eqn:Eb; [|done]. cbn [mbind option_bind] in E. case_bool_decide as Hin.
  - destruct (update_bucket om _ _) as [om2|] eqn:E2; [|done]. cbn [mbind option_bind] in E. apply update_bucket_inv in E2 as (b2 & Hb2 & ->). fold (bucket_of (obj_objectId o)) in *.
    destruct (update_bucket _ _ _) as [om3|] eqn:E3; [|done]. cbn [mbind option_bind] in E. apply update_bucket_inv in E3 as (b3 & Hb3 & ->). fold (bucket_of (obj_objectId o)) in *.
    rewrite Eb in Hb2. injection Hb2 as <-. simpl objectBucket in Hb3. rewrite list_lookup_insert_eq in Hb3 by (by apply lookup_lt_Some in Eb). injection Hb3 as <-.
    injection E as <- <-. split; [done|]. exists b. split; [done|]. rewrite decide_True by done. simpl objectBucket. by rewrite list_insert_insert_eq.
  - injection E as <- <-. split; [done|]. exists b. split; [done|]. by rewrite decide_False.
Qed.

End Lists.

(** ** The lists stay in order *)

Definition lists_ok om : Prop := listed (objects om) /\ counted (objectBucket om).

Lemma listed_ext t t' : listed t -> (forall d, kids t' d = kids t d) -> (forall c, par t' c = par t c) -> listed t'.
Proof. intros H K P d l Hd Hl. rewrite K in Hl. destruct (H d l Hd Hl) as [Hn Hc]. split; [done|]. intros c. by rewrite P. Qed.

(** An object without children that is in no directory. *)
Lemma listed_new (t : object_store) a : listed t -> t !! a = None -> (forall c, par t c <> Some a) -> listed (<[a := zero_object]> t).
Proof.
  intros H Ha Hp d l Hd Hl. rewrite kids_insert in Hl. case_decide as E.
  - subst d. injection Hl as <-. split; [apply NoDup_nil_2|]. intros c. rewrite par_insert. split; [by intros ?%elem_of_nil|].
    case_decide; [intros [= E]; by destruct Hd|]. intros Hc. by destruct (Hp c).
  - destruct (H d l Hd Hl) as [Hn Hc]. split; [done|]. intros c. rewrite par_insert, Hc. case_decide as Ec; [|done]. subst c.
    unfold par. rewrite Ha. split; [done|]. intros [= E0]. by destruct Hd.
Qed.

Section Kept.
Context (om om' : object_memory) (a : Z).
Hypothesis Hlisted : listed (objects om).
Hypothesis Hnew : objects om !! a = None.
Hypothesis Hnull : objects om !! 0 = None.
Hypothesis Hdiff : first_parent om <> a.
Hypothesis Hkids : forall e, kids (objects om') e = enter a (first_parent om) e <$> kids (<[a := zero_object]> (objects om)) e.
Hypothesis Hpar : forall c, par (objects om') c = if decide (c = a) then Some (first_parent om) else par (objects om) c.

Lemma created_kids d : d <> a -> kids (objects om') d = enter a (first_parent om) d <$> kids (objects om) d.
Proof using Hkids. intros Hd. by rewrite Hkids, kids_insert, decide_False. Qed.

Lemma created_listed : a <> 0 -> (forall c, par (objects om) c <> Some a) -> listed (objects om').
Proof using Hlisted Hnew Hnull Hkids Hpar.
  intros Ha Hp. pose proof (listed_new _ a Hlisted Hnew Hp) as H0. destruct (decide (first_parent om = 0)) as [E|E].
  - apply (listed_ext _ _ H0); [intros d; rewrite Hkids, E|intros c; by rewrite Hpar, par_insert, E]. unfold enter.
    destruct (decide (d = 0)) as [->|]; [|by destruct (kids (<[a := zero_object]> (objects om)) d)].
    rewrite kids_insert, decide_False by done. unfold kids. by rewrite Hnull.
  - apply (listed_enter (<[a := zero_object]> (objects om)) _ a (first_parent om)); try done.
    + by rewrite par_insert, decide_True.
    + intros c. rewrite Hpar, par_insert. by case_decide.
Qed.

(** The object leaves its directory and is freed: the lists are what they were. *)
Lemma freed_lists {mtd} (dev dev3 : yaffs_Device mtd) om2 om3 o2 b :
  objectBucket om !! bucket_of (obj_objectId o2) = Some b -> a ∉ bucket_list b ->
  objectBucket om' = <[bucket_of (obj_objectId o2) := hashed a b]> (objectBucket om) ->
  yaffs_RemoveObjectFromDirectory om' a = Some om2 -> objects om2 !! a = Some o2 -> myInode o2 = 0 -> yaffs_FreeObject dev om2 a = Some (dev3, om3) ->
  (forall d, kids (objects om3) d = kids (objects om) d) /\ (forall c, par (objects om3) c = par (objects om) c) /\ objectBucket om3 = objectBucket om.
Proof using Hlisted Hnew Hnull Hdiff Hkids Hpar.
  intros Hb Hab Hbs E2 Ho2 Hi E3. apply Remove_lists in E2 as (o & t & Ho & -> & K2 & P2). apply FreeObject_lists in E3 as (o' & Ho' & HF).
  rewrite Ho2 in Ho'. injection Ho' as <-. destruct (HF Hi) as (Eo & b' & Hb' & Ebs). clear HF. change (objects (om' <| objects := t |>)) with t in *.
  change (objectBucket (om' <| objects := t |>)) with (objectBucket om') in *.
  assert (parent o = first_parent om) as Hpo.
  { pose proof (Hpar a) as Hpa. rewrite decide_True in Hpa by done. unfold par in Hpa. rewrite Ho in Hpa. by injection Hpa. }
  rewrite Hpo in K2. split; [|split].
  - intros d. rewrite Eo. unfold kids at 1. destruct (decide (d = a)) as [->|Hd]; [unfold kids; by rewrite lookup_delete_eq, Hnew|].
    rewrite lookup_delete_ne by done. fold (kids t d). rewrite K2, created_kids by done. destruct (kids (objects om) d) as [l|] eqn:El; [|done]. cbn. f_equal.
    unfold enter, leave. destruct (decide (d = first_parent om)) as [E|]; [|by rewrite decide_False by (by intros [_ ?])].
    destruct (decide (d = 0)) as [->|Hd0]; [unfold kids in El; by rewrite Hnull in El|]. rewrite decide_True by done. apply without_head.
    destruct (Hlisted d l Hd0 El) as [_ Hc]. rewrite Hc. unfold par. by rewrite Hnew.
  - intros c. rewrite Eo. unfold par at 1. destruct (decide (c = a)) as [->|Hc]; [unfold par; by rewrite lookup_delete_eq, Hnew|].
    rewrite lookup_delete_ne by done. fold (par t c). by rewrite P2, Hpar, !decide_False by done.
  - rewrite Hbs, list_lookup_insert_eq in Hb' by (by apply lookup_lt_Some in Hb). injection Hb' as <-. rewrite decide_True in Ebs by (by apply elem_of_cons; left).
    rewrite Ebs, Hbs, list_insert_insert_eq. change (bucket_list (hashed a b)) with (a :: bucket_list b). rewrite without_head by done.
    change (bucket_count (hashed a b)) with (Z.succ (bucket_count b)). rewrite Z.pred_succ. replace (mk_bucket (bucket_list b) (bucket_count b)) with b by (by destruct b).
    by apply list_insert_id.
Qed.

End Kept.

Lemma counted_hashed bs k b a : counted bs -> bs !! k = Some b -> a ∉ bucket_list b -> counted (<[k := hashed a b]> bs).
Proof.
  intros H Hk Ha j b' Hj. apply list_lookup_insert_Some in Hj as [(<- & <- & _)|[_ Hj]]; [|by apply (H j)].
  destruct (H k b Hk) as [Hn Hc]. split; [by apply NoDup_cons|]. unfold hashed. cbn [bucket_count bucket_list length]. lia.
Qed.
