(* ===== verification/YaffsTnodesFile.v ===== *)
(** * The chunks of a file

    Putting a chunk into a file and finding it again, as operations on the function that the
    tree of the file holds. *)

From S2P Require Import Prelude NandEcc YaffsTags YaffsNand YaffsBlocks YaffsTnodes YaffsTnodesFacts YaffsTnodesPool.
From S2P Require Import YaffsTnodesTree YaffsTnodesAdd.

Local Open Scope Z_scope.

Lemma s32_zero v : in_w 32 v -> s32 v = 0 <-> v = 0.
Proof.
  unfold in_w, s32. intros Hv. split; [|by intros ->].
  destruct (Z.ltb_spec v (2 ^ 31)); [rewrite Z.mod_small by lia; lia|].
  replace (v + 2 ^ 31) with (v - 2 ^ 31 + 1 * 2 ^ 32) by lia. rewrite Z.mod_add, Z.mod_small by lia. lia.
Qed.

Section File.
Context {mtd : Type} (ops : nand_ops mtd) (tempBuffer : list Z) (localTags : yaffs_ExtendedTags).
Context (YMALLOC : tnode_memory -> Z -> Z) {Alloc : Allocator YMALLOC} (uninitialised : Z -> Z).
Implicit Types (dev : yaffs_Device mtd) (free : list Z) (s : gset Z).

Abbreviation put := (yaffs_PutChunkIntoFile ops tempBuffer localTags YMALLOC uninitialised).
Abbreviation find := (yaffs_FindChunkInFile ops localTags).

(** Reading the entry of a chunk through its level 0 tnode. *)
Lemma level0_chunk_spec dev m k tn ws v :
  tnode_wf dev -> tnodes m !! tn = Some ws -> tnode_ok dev ws -> 0 <= k < 2 ^ 32 -> entry dev ws k = v ->
  level0_chunk dev m tn k = Some (s32 v) /\ in_w 32 v.
Proof.
  intros Hw Hl Hok Hk <-. unfold level0_chunk, yaffs_GetChunkGroupBase. rewrite Hl. cbn [mbind option_bind].
  rewrite u32_small by done.
  destruct (entry_range dev ws k Hw (ok_words _ _ Hok) (tnode_ok_fit _ _ Hw Hok)) as [-> ?]; [lia|]. done.
Qed.

Lemma file_wf dev m free fs s f : file_ok dev m free fs s f -> tnode_wf dev.
Proof. intros Hf. eapply pool_wf, owns_pool, Hf. Qed.

Lemma max_chunk k : 0 <= k <= YAFFS_MAX_CHUNK_ID -> 0 <= k < 2 ^ 32.
Proof. unfold YAFFS_MAX_CHUNK_ID. lia. Qed.

(** The entry at the leaf on the path of a chunk. *)
Lemma leaf_entry dev m free fs s f k tn :
  file_ok dev m free fs s f -> 0 <= k < capacity (Z.to_nat (topLevel fs)) ->
  find_loop (Z.to_nat (topLevel fs)) m (top fs) k = Some tn -> tn <> 0 -> 0 <= k < 2 ^ 32 ->
  level0_chunk dev m tn k = Some (s32 (f k)) /\ in_w 32 (f k).
Proof.
  intros Hf Hk Hfind Hne H32. pose proof (file_wf _ _ _ _ _ _ Hf) as Hw.
  destruct (find_loop_spec dev m _ _ _ _ k Hw (owns_tree _ _ _ _ _ _ _ (file_owns _ _ _ _ _ _ Hf)) Hk) as (tn' & E & Hcase).
  rewrite Hfind in E. injection E as <-. rewrite (proj2 (Z.eqb_neq _ _) Hne) in Hcase.
  destruct Hcase as (_ & ws & Hws & Hok & He). by eapply level0_chunk_spec.
Qed.

(** Outside a scan the chunk replaces the one that the file had. *)
Lemma PutChunkIntoFile_spec dev m free obj s f k c :
  file_ok dev m free (fileVariant obj) s f -> variantType obj = YAFFS_OBJECT_TYPE_FILE ->
  0 <= k <= YAFFS_MAX_CHUNK_ID -> in_w 32 c ->
  k < capacity (Z.to_nat (topLevel (fileVariant obj))) \/ enough YMALLOC dev m free 6 0 ->
  exists r dev' m' obj' free' s', put dev m obj k c 0 = Some (r, dev', m', obj') /\ advances dev m s free dev' m' s' free' /\
    ((r = YAFFS_OK /\ file_ok dev' m' free' (fileVariant obj') s' (put_at f k (group_base dev c)) /\
      nDataChunks obj' = nDataChunks obj + b2z (f k =? 0)) \/
     (r = YAFFS_FAIL /\ file_ok dev' m' free' (fileVariant obj') s' f /\ nDataChunks obj' = nDataChunks obj /\
      ~ enough YMALLOC dev m free 12 0)) /\
    obj_objectId obj' = obj_objectId obj /\ variantType obj' = variantType obj.
Proof.
  intros Hf Hty Hk Hc He. pose proof (max_chunk k Hk) as H32. unfold yaffs_PutChunkIntoFile.
  rewrite bool_decide_true by done. simpl negb. cbn match. rewrite u32_small by done.
  destruct (AddOrFind_spec YMALLOC uninitialised dev m free _ s f k 0 Hf Hk He)
    as (tn & dev1 & m1 & p & l & free1 & s1 & -> & Hf1 & S1 & Hkl & Hfind & Hen).
  cbn [mbind option_bind]. set (fs1 := (fileVariant obj) <| top := p |> <| topLevel := l |>) in *.
  set (obj1 := obj <| fileVariant := fs1 |>).
  destruct (Z.eqb_spec tn 0) as [->|Hne].
  { exists YAFFS_FAIL, dev1, m1, obj1, free1, s1. split; [done|]. split; [done|]. split; [|done].
    right. split_and!; try done. intros H12. by apply Hen. }
  destruct (leaf_entry dev1 m1 free1 fs1 s1 f k tn) as [-> Hfk]; [done|change (topLevel fs1) with l; lia|done..|].
  cbn [mbind option_bind]. change (truthy 0) with false. cbn [andb]. cbn match. cbn [mbind option_bind].
  destruct (put_leaf_spec dev1 m1 free1 fs1 s1 f k tn c) as (m2 & -> & Hf2 & S2);
    [done|change (topLevel fs1) with l; lia|done..|].
  cbn [mbind option_bind]. eexists _, _, _, _, free1, s1. split; [done|]. split; [by eapply advances_trans|].
  assert (group_base dev1 c = group_base dev c) as Eg.
  { destruct S1 as [Hcn _]. destruct (counters_geometry _ _ Hcn) as (E1 & _ & E3). unfold group_base. by rewrite E1, E3. }
  rewrite Eg in Hf2. split; [|by destruct (s32 (f k) =? 0)]. left. split; [done|].
  pose proof (s32_zero (f k) Hfk) as Hz. destruct (Z.eqb_spec (s32 (f k)) 0), (Z.eqb_spec (f k) 0); try tauto; (split; [done|]); simpl; lia.
Qed.

(** Where the groups have one chunk, finding a chunk gives the value of the function if
    that chunk is in use. *)
Lemma FindChunkInFile_spec dev m free obj s f k tags used :
  file_ok dev m free (fileVariant obj) s f -> 0 <= k <= YAFFS_MAX_CHUNK_ID -> chunkGroupSize dev = 1 ->
  0 <= f k < 2 ^ 31 ->
  (f k <> 0 -> yaffs_CheckChunkBit dev (Z.quot (f k) (nChunksPerBlock dev)) (Z.rem (f k) (nChunksPerBlock dev)) = Some used) ->
  find dev m obj k tags = Some (if negb (f k =? 0) && used then f k else -1, default localTags tags, dev).
Proof.
  intros Hf Hk Hg Hfk Hbit. pose proof (max_chunk k Hk) as H32. unfold yaffs_FindChunkInFile. rewrite u32_small by done.
  destruct (FindLevel0_spec dev m free _ s f k Hf Hk) as (tn & -> & Hcase). cbn [mbind option_bind]. unfold truthy.
  destruct (Z.eqb_spec tn 0) as [E0|Hne]; cbn [negb].
  { by rewrite Hcase. }
  destruct Hcase as (_ & _ & _ & ws & Hws & Hok & He).
  destruct (level0_chunk_spec dev m k tn ws (f k) (file_wf _ _ _ _ _ _ Hf) Hws Hok H32 He) as [-> _].
  cbn [mbind option_bind]. rewrite s32_small by lia. unfold yaffs_FindChunkInGroup. rewrite Hg.
  change (Z.to_nat 1) with 1%nat. cbn [find_group_loop]. destruct (Z.eqb_spec (f k) 0) as [->|Hnz]; [done|].
  unfold find_group_step. rewrite (Hbit Hnz). cbn [mbind option_bind]. rewrite Hg. by destruct used.
Qed.

End File.
