(* ===== verification/YaffsTnodesDelete.v ===== *)
(** * Soft deletion of a file

    [yaffs_SoftDeleteWorker] goes through the tree of a file from the last chunk to the first: it counts
    every chunk as softly deleted in its block, clears its entry, and gives the tnodes back to the pool. *)

From S2P Require Import Prelude NandEcc YaffsTags YaffsNand YaffsBlocks YaffsTnodes YaffsTnodesFacts YaffsTnodesPool.
From S2P Require Import YaffsTnodesTree YaffsTnodesAdd YaffsTnodesFile.

Local Open Scope Z_scope.

(** The chunks of the device that a function maps the first [n] chunks to, from the last to the first. *)
Fixpoint mapped (f : Z -> Z) (n : nat) : list Z :=
  match n with
  | O => []
  | S k => (if f (Z.of_nat k) =? 0 then [] else [f (Z.of_nat k)]) ++ mapped f k
  end.

Lemma mapped_app f n k : mapped f (n + k) = mapped (fun i => f (Z.of_nat k + i)) n ++ mapped f k.
Proof.
  induction n as [|n IH]; simpl; [done|]. rewrite IH. replace (Z.of_nat (n + k)) with (Z.of_nat k + Z.of_nat n) by lia.
  by rewrite app_assoc.
Qed.

Lemma mapped_ext f g n : (forall k, 0 <= k < Z.of_nat n -> f k = g k) -> mapped f n = mapped g n.
Proof.
  induction n as [|n IH]; intros H; simpl; [done|]. rewrite H by lia. f_equal. apply IH. intros k Hk. apply H. lia.
Qed.

Lemma mapped_zero f n : (forall k, 0 <= k < Z.of_nat n -> f k = 0) -> mapped f n = [].
Proof.
  induction n as [|n IH]; intros H; simpl; [done|]. rewrite H by lia. simpl. apply IH. intros k Hk. apply H. lia.
Qed.

Lemma elem_of_mapped f n c : c ∈ mapped f n <-> c <> 0 /\ exists k, 0 <= k < Z.of_nat n /\ f k = c.
Proof.
  induction n as [|n IH]; cbn [mapped].
  - rewrite elem_of_nil. split; [done|]. intros (_ & k & Hk & _). lia.
  - rewrite elem_of_app, IH. split.
    + intros [H|(H & k & Hk & E)]; [|split; [done|]; exists k; split; [lia|done]].
      destruct (Z.eqb_spec (f (Z.of_nat n)) 0) as [|Hne]; [by apply elem_of_nil in H|].
      apply list_elem_of_singleton in H as ->. split; [done|]. exists (Z.of_nat n). split; [lia|done].
    + intros (Hc & k & Hk & E). destruct (decide (k = Z.of_nat n)) as [->|].
      * left. rewrite E, (proj2 (Z.eqb_neq _ _) Hc). by apply list_elem_of_singleton.
      * right. split; [done|]. exists k. split; [lia|done].
Qed.

(** The branches of an internal tnode. *)
Lemma mapped_branch f l (i : nat) :
  mapped f (S i * Z.to_nat (capacity l)) =
  mapped (part f l (Z.of_nat i)) (Z.to_nat (capacity l)) ++ mapped f (i * Z.to_nat (capacity l)).
Proof.
  rewrite Nat.mul_succ_l, Nat.add_comm, mapped_app. f_equal. apply mapped_ext. intros k _. unfold part. f_equal.
  pose proof (capacity_pos l). lia.
Qed.

Section Release.
Context {mtd : Type}.
Implicit Types (dev : yaffs_Device mtd) (free : list Z) (s : gset Z).

Definition nothing : Z -> Z := fun _ => 0.

(** All branches of an internal tnode are gone. *)
Lemma node_bare dev t l p s f ws ss :
  node dev t l p s f ws ss -> (forall i, 0 <= i < 8 -> get ws i = Some 0) -> s = {[p]}.
Proof.
  intros Hn H0. apply set_eq. intros a. rewrite (node_set _ _ _ _ _ _ _ _ Hn), elem_of_singleton. split; [|by left].
  intros [->|(i & Hi & Ha)]; [done|]. destruct (node_branch _ _ _ _ _ _ _ _ Hn i Hi) as (q & Hq & Ht).
  rewrite H0 in Hq by done. injection Hq as <-. apply tree_null_inv in Ht as [E _]. rewrite E in Ha. by apply elem_of_empty in Ha.
Qed.

(** A tree of one tnode goes back to the pool. *)
Lemma free_last dev m free l q f :
  owns dev m free l q {[q]} f -> q <> 0 ->
  exists dev' m', yaffs_FreeTnode dev m q = Some (dev', m') /\ owns dev' m' (q :: free) l 0 ∅ nothing /\
    advances dev m {[q]} free dev' m' ∅ (q :: free).
Proof.
  intros H Hne. pose proof (advances_refl _ _ _ _ _ _ _ H) as [_ Hr]. destruct H as [Hp Ht Hap].
  destruct (tree_root _ _ _ _ _ _ Ht Hne) as (H32 & _ & wq & Hwq & Hoq).
  assert (q ∉ free) as Hqf by (clear - Hap; set_solver).
  destruct (FreeTnode_spec dev m free q wq Hp Hwq Hoq Hqf H32) as (dev' & t' & -> & Hc & Hp' & Hd & Hf).
  eexists _, _. split; [done|]. split.
  - constructor; [done|by apply tree_null|]. clear. set_solver.
  - split; [done|]. change (tnodes (_ <| tnodes := t' |> <| freeTnodes := q |>)) with t'. destruct Hr as [_ Hrd _].
    constructor; [clear; set_solver|rewrite Hd, Hrd at 1; clear; set_solver|].
    intros a Ha Hna. split; [apply Hf; intros ->|]; clear - Hna; set_solver.
Qed.

(** The last tnode of a branch goes back to the pool. *)
Lemma release_branch dev m free l p s f ws ss i q :
  pool dev m free -> node dev (tnodes m) l p s f ws ss -> s ## list_to_set free -> 0 <= i < 8 -> get ws i = Some q ->
  q <> 0 -> ss i = {[q]} ->
  exists dev' m1 m', yaffs_FreeTnode dev m q = Some (dev', m1) /\ set_word m1 p i 0 = Some m' /\ tnode_counters dev dev' /\
    owns dev' m' (q :: free) (S l) p (others s ss i) (splice f l i nothing) /\
    (forall j, 0 <= j < 8 -> get_word m' p j = if j =? i then Some 0 else get_word m p j) /\
    transfers (tnodes m) (s ∪ list_to_set free) (tnodes m') (others s ss i ∪ list_to_set (q :: free)).
Proof.
  intros Hp Hn Hap Hi Hq Hne Hss.
  destruct (node_branch _ _ _ _ _ _ _ _ Hn i Hi) as (q' & Hq' & Ht). rewrite Hq in Hq'. injection Hq' as <-.
  pose proof (others_union _ _ _ _ _ _ _ _ i Hn Hi) as Hun. rewrite Hss in Hun, Ht.
  destruct (free_last dev m free l q (part f l i)) as (dev' & m1 & E & H1 & Hc & T1); [|done|].
  { constructor; [done..|]. clear - Hun Hap. set_solver. }
  rewrite <- Hss in T1.
  destruct (branch_replaced dev m free l p s f ws ss i q 0 dev' m1 (q :: free) ∅ nothing) as (_ & E2 & O2 & T2 & _ & W2 & _);
    try done; [by apply counters_geometry|].
  rewrite union_empty_r_L in O2, T2. by eexists dev', m1, _.
Qed.

End Release.

Section SoftDelete.
Context {mtd : Type}.
Implicit Types (dev : yaffs_Device mtd) (free : list Z) (s : gset Z).

(** The chunks [cs] have been softly deleted, in this order. *)
Inductive soft_deleted dev : list Z -> yaffs_Device mtd -> Prop :=
| soft_none : soft_deleted dev [] dev
| soft_counters cs dev' dev'' : soft_deleted dev cs dev' -> tnode_counters dev' dev'' -> soft_deleted dev cs dev''
| soft_chunk cs c dev' dev'' :
    soft_deleted dev cs dev' -> yaffs_SoftDeleteChunk dev' c = Some dev'' -> soft_deleted dev (cs ++ [c]) dev''.

Lemma soft_deleted_app dev cs dev' cs' dev'' :
  soft_deleted dev cs dev' -> soft_deleted dev' cs' dev'' -> soft_deleted dev (cs ++ cs') dev''.
Proof.
  intros H H'. induction H' as [|cs' d d' _ IH Hc|cs' c d d' _ IH E].
  - by rewrite app_nil_r.
  - by eapply soft_counters.
  - rewrite app_assoc. by eapply soft_chunk.
Qed.

(** What soft deletion leaves alone. *)
Definition soft_frame dev dev' : Prop :=
  same_widths dev dev' /\ internalStartBlock dev' = internalStartBlock dev /\ nChunksPerBlock dev' = nChunksPerBlock dev /\
  length (blockInfo dev') = length (blockInfo dev).

Lemma SoftDeleteChunk_fields dev c dev' :
  yaffs_SoftDeleteChunk dev c = Some dev' ->
  soft_frame dev dev' /\ nFreeTnodes dev' = nFreeTnodes dev /\ nTnodesCreated dev' = nTnodesCreated dev.
Proof.
  unfold yaffs_SoftDeleteChunk, update_block. destruct (yaffs_GetBlockInfo dev _) as [bi|]; [|done]. intros [= <-].
  split; [|done]. split; [done|]. split; [done|]. split; [done|]. simpl. apply length_insert.
Qed.

Lemma soft_frame_trans dev dev' dev'' : soft_frame dev dev' -> soft_frame dev' dev'' -> soft_frame dev dev''.
Proof.
  intros (W1 & E1 & N1 & L1) (W2 & E2 & N2 & L2). split; [by eapply same_widths_trans|]. split_and!; congruence.
Qed.

Lemma soft_frame_counters dev dev' : tnode_counters dev dev' -> soft_frame dev dev'.
Proof. intros Hc. split; [by apply counters_geometry|]. destruct Hc as (a & b & c & ->). done. Qed.

Lemma soft_deleted_frame dev cs dev' : soft_deleted dev cs dev' -> soft_frame dev dev'.
Proof.
  induction 1 as [|cs d d' _ IH Hc|cs c d d' _ IH E].
  - done.
  - eapply soft_frame_trans; [done|]. by apply soft_frame_counters.
  - eapply soft_frame_trans; [done|]. by apply SoftDeleteChunk_fields in E as [? _].
Qed.

(** The block of a chunk exists. *)
Definition chunk_known dev (c : Z) : Prop := is_Some (yaffs_GetBlockInfo dev (Z.quot c (nChunksPerBlock dev))).

Lemma chunk_known_frame dev dev' c : soft_frame dev dev' -> chunk_known dev c -> chunk_known dev' c.
Proof.
  intros (_ & E1 & E2 & E3). unfold chunk_known, yaffs_GetBlockInfo. rewrite E1, E2. case_match; [done|].
  rewrite !lookup_lt_is_Some. lia.
Qed.

(** The values of a function are known chunks, or 0. *)
Definition all_known dev (f : Z -> Z) : Prop := forall k, 0 <= f k < 2 ^ 31 /\ (f k <> 0 -> chunk_known dev (f k)).

Lemma all_known_frame dev dev' f : soft_frame dev dev' -> all_known dev f -> all_known dev' f.
Proof. intros Hs H k. destruct (H k) as [H1 H2]. split; [done|]. intros Hne. eapply chunk_known_frame; [done|auto]. Qed.

(** The entry [i] of a level 0 tnode. *)
Lemma soft_entry_spec dev m free p f (i : Z) :
  owns dev m free 0 p {[p]} f -> p <> 0 -> 0 <= i < 16 -> all_known dev f ->
  exists dev' m', soft_entry dev m p i = Some (dev', m') /\ owns dev' m' free 0 p {[p]} (put_at f i 0) /\
    soft_deleted dev (if f i =? 0 then [] else [f i]) dev' /\
    transfers (tnodes m) ({[p]} ∪ list_to_set free) (tnodes m') ({[p]} ∪ list_to_set free).
Proof.
  intros H Hp Hi Hk. pose proof (advances_refl _ _ _ _ _ _ _ H) as [_ Hr]. destruct H as [Hpool Ht Hap].
  pose proof (pool_wf _ _ _ Hpool) as Hw. destruct (Hk i) as [Hr31 Hkn].
  destruct (find_loop_spec dev m 0 p {[p]} f i Hw Ht Hi) as (tn & E & Hcase). injection E as <-.
  rewrite (proj2 (Z.eqb_neq _ _) Hp) in Hcase. destruct Hcase as (_ & ws & Hws & Hok & He).
  unfold soft_entry. destruct (level0_chunk_spec dev m i p ws (f i) Hw Hws Hok ltac:(lia) He) as [-> _]. cbn [mbind option_bind].
  rewrite s32_small by lia. unfold truthy. destruct (Z.eqb_spec (f i) 0) as [E0|Hne]; cbn [negb].
  - exists dev, m. split; [done|]. split_and!; [|apply soft_none|done]. constructor; [done| |done]. eapply tree_ext; [done|].
    intros k _. unfold put_at. by destruct (Z.eqb_spec k i) as [->|].
  - destruct (Hkn Hne) as [bi Hbi].
    assert (exists dev', yaffs_SoftDeleteChunk dev (f i) = Some dev') as [dev' Es].
    { unfold yaffs_SoftDeleteChunk, update_block. rewrite Hbi. by eexists. }
    rewrite Es. cbn [mbind option_bind]. destruct (SoftDeleteChunk_fields dev (f i) dev' Es) as ((Hsw & _) & E1 & E2).
    pose proof (pool_same dev dev' m free Hsw E1 E2 Hpool) as Hpool'. pose proof (pool_wf _ _ _ Hpool') as Hw'.
    destruct (tree_put dev' m 0 p {[p]} f i p ws 0) as (ws' & Hput & Ht'); try done; [by eapply tree_widths|].
    rewrite group_base_0 in Ht'. unfold yaffs_PutLevel0Tnode. rewrite Hws. cbn [mbind option_bind]. rewrite !u32_small by lia. rewrite Hput.
    cbn [mbind option_bind]. eexists _, _. split; [done|]. split_and!.
    + constructor; [|exact Ht'|done]. apply pool_insert; [done|by apply elem_of_dom_2 in Hws|]. clear - Hap. set_solver.
    + apply (soft_chunk dev [] (f i) dev); [apply soft_none|done].
    + apply transfers_insert; [done|]. clear. set_solver.
Qed.

Lemma soft_level0_spec n dev m free p f :
  owns dev m free 0 p {[p]} f -> p <> 0 -> (n <= 16)%nat -> all_known dev f -> (forall k, Z.of_nat n <= k < 16 -> f k = 0) ->
  exists dev' m', soft_level0_loop n dev m p = Some (dev', m') /\ owns dev' m' free 0 p {[p]} nothing /\
    soft_deleted dev (mapped f n) dev' /\
    transfers (tnodes m) ({[p]} ∪ list_to_set free) (tnodes m') ({[p]} ∪ list_to_set free).
Proof.
  revert dev m f. induction n as [|i IH]; intros dev m f H Hp Hn Hk Hz.
  - exists dev, m. split; [done|]. split_and!; [|apply soft_none|by eapply (advances_refl dev)].
    destruct H as [P T A]. constructor; [done| |done]. eapply tree_ext; [done|]. intros k Hr. apply Hz. done.
  - cbn [soft_level0_loop mapped].
    destruct (soft_entry_spec dev m free p f (Z.of_nat i) H Hp ltac:(lia) Hk) as (dev1 & m1 & -> & H1 & S1 & T1).
    cbn [mbind option_bind]. pose proof (soft_deleted_frame _ _ _ S1) as F1.
    destruct (IH dev1 m1 (put_at f (Z.of_nat i) 0)) as (dev2 & m2 & -> & H2 & S2 & T2); try done; [lia|..].
    + intros k. unfold put_at. destruct (k =? Z.of_nat i); [lia|]. by apply (all_known_frame dev).
    + intros k Hr. unfold put_at. destruct (Z.eqb_spec k (Z.of_nat i)); [done|]. apply Hz. lia.
    + exists dev2, m2. split; [done|]. split_and!; [done| |by eapply transfers_trans].
      eapply soft_deleted_app; [done|]. erewrite mapped_ext; [done|]. intros k Hr. unfold put_at.
      by rewrite (proj2 (Z.eqb_neq _ _)) by lia.
Qed.

(** What the worker does to a tree: only its top is left. *)
Definition soft_done (l : nat) (worker : yaffs_Device mtd -> tnode_memory -> Z -> option (bool * yaffs_Device mtd * tnode_memory)) : Prop :=
  forall dev m free p s f, owns dev m free l p s f -> p <> 0 -> all_known dev f ->
  exists dev' m' free', worker dev m p = Some (true, dev', m') /\ owns dev' m' free' l p {[p]} nothing /\
    soft_deleted dev (mapped f (Z.to_nat (capacity l))) dev' /\
    transfers (tnodes m) (s ∪ list_to_set free) (tnodes m') ({[p]} ∪ list_to_set free') /\
    {[p]} ∪ list_to_set free' = s ∪ list_to_set free.

Lemma soft_branch_spec l worker dev m free p s f i :
  soft_done l worker -> owns dev m free (S l) p s f -> p <> 0 -> 0 <= i < 8 -> all_known dev f ->
  exists dev' m' free' s', soft_branch worker dev m p i = Some (true, dev', m') /\
    owns dev' m' free' (S l) p s' (splice f l i nothing) /\
    (forall j, 0 <= j < 8 -> get_word m' p j = if j =? i then Some 0 else get_word m p j) /\
    soft_deleted dev (mapped (part f l i) (Z.to_nat (capacity l))) dev' /\
    transfers (tnodes m) (s ∪ list_to_set free) (tnodes m') (s' ∪ list_to_set free') /\
    s' ∪ list_to_set free' = s ∪ list_to_set free.
Proof.
  intros Hwk H Hp Hi Hk. pose proof (advances_refl _ _ _ _ _ _ _ H) as [_ Hr].
  destruct (tree_node _ _ _ _ _ _ (owns_tree _ _ _ _ _ _ _ H) Hp) as (ws & ss & Hn).
  destruct (node_branch _ _ _ _ _ _ _ _ Hn i Hi) as (q & Hq & Hqt). unfold soft_branch.
  rewrite (get_word_tree _ _ _ _ _ _ _ _ i Hn), Hq. cbn [mbind option_bind]. unfold truthy.
  destruct (Z.eqb_spec q 0) as [->|Hne]; cbn [negb].
  - destruct (node_missing _ _ _ _ _ _ _ _ i Hn Hi Hq) as [_ Hz]. pose proof (capacity_pos l).
    exists dev, m, free, s. split; [done|]. split_and!; [| | |done|done].
    + destruct H as [P T A]. constructor; [done| |done]. eapply tree_ext; [done|]. intros k _.
      rewrite <- (splice_part f l i k). unfold splice. case_match; [|done]. rewrite andb_true_iff, Z.leb_le, Z.ltb_lt in *.
      by rewrite Hz by lia.
    + intros j Hj. destruct (Z.eqb_spec j i) as [->|]; [|done]. by rewrite (get_word_tree _ _ _ _ _ _ _ _ i Hn).
    + rewrite mapped_zero by (intros k Hr'; apply Hz; lia). apply soft_none.
  - assert (owns dev m free l q (ss i) (part f l i)) as Hq'.
    { constructor; [apply H|done|]. pose proof (owns_apart _ _ _ _ _ _ _ H). pose proof (others_union _ _ _ _ _ _ _ _ i Hn Hi).
      clear - H0 H1. set_solver. }
    destruct (Hwk dev m free q (ss i) (part f l i) Hq' Hne) as (dev1 & m1 & free1 & -> & H1 & S1 & T1 & U1); [intros k; apply Hk|].
    cbn [mbind option_bind]. pose proof (soft_deleted_frame _ _ _ S1) as F1.
    destruct (branch_transfers dev m free l p s f ws ss i q dev1 m1 free1 {[q]} nothing) as (A2 & T2 & (ss2 & N2 & E2 & O2) & _);
      try done; [apply H..|apply F1|].
    destruct (release_branch dev1 m1 free1 l p _ _ ws ss2 i q (owns_pool _ _ _ _ _ _ _ H1) N2 A2 Hi Hq Hne E2)
      as (dev2 & m2 & m3 & Efr & Est & C3 & H3 & W3 & T3).
    rewrite (get_word_tree _ _ _ _ _ _ _ _ i N2), Hq. cbn [mbind option_bind]. rewrite Efr. cbn [mbind option_bind].
    rewrite Est. cbn [mbind option_bind]. rewrite O2 in H3, T3.
    exists dev2, m3, (q :: free1), (others s ss i). split; [done|]. split_and!.
    + destruct H3 as [P T A]. constructor; [done| |done]. eapply tree_ext; [done|]. intros k _. unfold splice. by case_match.
    + intros j Hj. rewrite W3 by done. case_match; [done|].
      by rewrite (get_word_tree _ _ _ _ _ _ _ _ j N2), (get_word_tree _ _ _ _ _ _ _ _ j Hn).
    + by eapply soft_counters.
    + by eapply transfers_trans.
    + rewrite <- (others_union _ _ _ _ _ _ _ _ i Hn Hi) at 2. rewrite <- union_assoc_L, <- U1. clear. set_solver.
Qed.

Lemma soft_internal_spec l worker n dev m free p s f :
  soft_done l worker -> owns dev m free (S l) p s f -> p <> 0 -> (n <= 8)%nat -> all_known dev f ->
  (forall j, Z.of_nat n <= j < 8 -> get_word m p j = Some 0) ->
  exists dev' m' free', soft_internal_loop worker n dev m p = Some (true, dev', m') /\ owns dev' m' free' (S l) p {[p]} nothing /\
    soft_deleted dev (mapped f (n * Z.to_nat (capacity l))) dev' /\
    transfers (tnodes m) (s ∪ list_to_set free) (tnodes m') ({[p]} ∪ list_to_set free') /\
    {[p]} ∪ list_to_set free' = s ∪ list_to_set free.
Proof.
  intros Hwk. revert dev m free s f. induction n as [|i IH]; intros dev m free s f H Hp Hn Hk Hz.
  - destruct (tree_node _ _ _ _ _ _ (owns_tree _ _ _ _ _ _ _ H) Hp) as (ws & ss & Hnode).
    assert (forall j, 0 <= j < 8 -> get ws j = Some 0) as H0
      by (intros j Hj; rewrite <- (get_word_tree _ _ _ _ _ _ _ _ j Hnode); apply Hz; lia).
    assert (s = {[p]}) as -> by (by eapply node_bare).
    exists dev, m, free. split; [done|]. split_and!; [|apply soft_none|by eapply (advances_refl dev)|done].
    destruct H as [P T A]. constructor; [done| |done]. eapply tree_ext; [done|]. intros k Hr.
    pose proof (branch_range k l) as Hb. pose proof (branch_split k l Hr) as Hsp.
    destruct (node_missing _ _ _ _ _ _ _ _ _ Hnode Hb (H0 _ Hb)) as [_ Hpz].
    specialize (Hpz (k - branch k (S l) * capacity l) ltac:(lia)). unfold part in Hpz. by rewrite Zplus_minus in Hpz.
  - cbn [soft_internal_loop]. rewrite mapped_branch.
    destruct (soft_branch_spec l worker dev m free p s f (Z.of_nat i) Hwk H Hp ltac:(lia) Hk)
      as (dev1 & m1 & free1 & s1 & -> & H1 & W1 & S1 & T1 & U1). cbn [mbind option_bind].
    pose proof (soft_deleted_frame _ _ _ S1) as F1. pose proof (capacity_pos l).
    destruct (IH dev1 m1 free1 s1 (splice f l (Z.of_nat i) nothing)) as (dev2 & m2 & free2 & -> & H2 & S2 & T2 & U2); try done; [lia|..].
    + intros k. unfold splice. case_match; [unfold nothing; lia|]. by apply (all_known_frame dev).
    + intros j Hj. rewrite W1 by lia. case_match eqn:E; [done|]. apply Hz. rewrite Z.eqb_neq in E. lia.
    + exists dev2, m2, free2. split; [done|]. split_and!; [done| |by eapply transfers_trans|congruence].
      eapply soft_deleted_app; [done|]. erewrite mapped_ext; [done|]. intros k Hr. unfold splice.
      rewrite (proj2 (Z.leb_gt _ _)) by lia. done.
Qed.

Lemma SoftDeleteWorker_done l : soft_done l (yaffs_SoftDeleteWorker l).
Proof.
  induction l as [|l IH]; intros dev m free p s f H Hp Hk; cbn [yaffs_SoftDeleteWorker]; rewrite (proj2 (Z.eqb_neq _ _) Hp).
  - assert (s = {[p]}) as -> by (destruct (owns_tree _ _ _ _ _ _ _ H) as [(? & _)|(_ & ws & _ & _ & -> & _)]; done).
    destruct (soft_level0_spec 16 dev m free p f H Hp ltac:(lia) Hk ltac:(lia)) as (dev' & m' & E & H' & S' & T').
    change (Z.to_nat YAFFS_NTNODES_LEVEL0) with 16%nat. rewrite E. cbn [mbind option_bind]. by exists dev', m', free.
  - destruct (soft_internal_spec l _ 8 dev m free p s f IH H Hp ltac:(lia) Hk ltac:(lia)) as (dev' & m' & free' & E & H' & S' & T' & U').
    change (Z.to_nat YAFFS_NTNODES_INTERNAL) with 8%nat. rewrite E. exists dev', m', free'. split_and!; try done.
    rewrite capacity_S. replace (Z.to_nat (8 * capacity l)) with (8 * Z.to_nat (capacity l))%nat; [done|].
    pose proof (capacity_pos l). lia.
Qed.

End SoftDelete.
