(* ===== verification/YaffsTnodesPlug.v ===== *)
(** * Putting a whole tnode into the tree of a file

    [yaffs_AddOrFindLevel0Tnode] with a tnode that the caller passes: the tnode takes the place
    of the level 0 tnode of its sixteen chunks, and the rest of the tree keeps its chunks. *)

From S2P Require Import Prelude NandEcc YaffsTags YaffsNand YaffsBlocks YaffsTnodes YaffsTnodesFacts YaffsTnodesPool.
From S2P Require Import YaffsTnodesTree YaffsTnodesAdd YaffsTnodesDelete.

Local Open Scope Z_scope.

Section Plug.
Context {mtd : Type} (YMALLOC : tnode_memory -> Z -> Z) {Alloc : Allocator YMALLOC} (uninitialised : Z -> Z).
Implicit Types (dev : yaffs_Device mtd) (free : list Z) (s : gset Z).

(** The function with the entries of the tnode [ws] for the sixteen chunks around [k]. *)
Definition with_leaf dev (f : Z -> Z) (k : Z) (ws : list Z) : Z -> Z :=
  fun j => if j / 16 =? k / 16 then entry dev ws j else f j.

(** A tnode that belongs neither to the tree nor to the free list. *)
Record spare_tnode dev (m : tnode_memory) free s (q : Z) (ws : list Z) : Prop := {
  spare_at : tnodes m !! q = Some ws;
  spare_ok : tnode_ok dev ws;
  spare_addr : 0 < q < 2 ^ 32;
  spare_tree : q ∉ s;
  spare_free : q ∉ free
}.

Lemma sixteenth_rest j i l : (j - i * capacity l) / 16 = j / 16 - i * 8 ^ Z.of_nat l.
Proof.
  unfold capacity. replace (j - i * (16 * 8 ^ Z.of_nat l)) with (j + (- (i * 8 ^ Z.of_nat l)) * 16) by lia.
  rewrite Z.div_add by lia. lia.
Qed.

(** The path of a chunk is that of its sixteen. *)
Lemma find_loop_sixteenth l m p k k' : k / 16 = k' / 16 -> find_loop l m p k = find_loop l m p k'.
Proof.
  intros E. revert p. induction l as [|l IH]; intros p; cbn [find_loop]; [done|]. case_match; [done|].
  assert (branch k (S l) = branch k' (S l)) as ->.
  { rewrite !branch_spec. unfold capacity. rewrite <- !Z.div_div by lia. by rewrite E. }
  destruct (get_word _ _ _); simpl; [apply IH|done].
Qed.

Lemma entry_rest dev ws j i l : entry dev ws (j - i * capacity l) = entry dev ws j.
Proof. unfold entry, get_entry, YAFFS_TNODES_LEVEL0_MASK. by rewrite level0_rest. Qed.

Lemma with_leaf_splice dev f l i k ws j :
  i * capacity l <= k < (i + 1) * capacity l ->
  splice f l i (with_leaf dev (part f l i) (k - i * capacity l) ws) j = with_leaf dev f k ws j.
Proof.
  intros Hk. unfold splice, with_leaf, part. rewrite !sixteenth_rest, entry_rest.
  assert ((j / 16 - i * 8 ^ Z.of_nat l =? k / 16 - i * 8 ^ Z.of_nat l) = (j / 16 =? k / 16)) as ->.
  { destruct (Z.eqb_spec (j / 16) (k / 16)) as [->|]; [apply Z.eqb_refl|]. apply Z.eqb_neq. lia. }
  replace (i * capacity l + (j - i * capacity l)) with j by lia.
  destruct ((i * capacity l <=? j) && (j <? (i + 1) * capacity l)) eqn:E; [done|].
  rewrite (proj2 (Z.eqb_neq _ _)); [done|]. intros Hj.
  pose proof (Z.div_mod j 16). pose proof (Z.div_mod k 16). pose proof (Z.mod_pos_bound j 16). pose proof (Z.mod_pos_bound k 16).
  unfold capacity in *. apply andb_false_iff in E as [E|E]; [apply Z.leb_gt in E|apply Z.ltb_ge in E]; nia.
Qed.

Lemma with_leaf_geometry dev dev' f k ws j : same_widths dev dev' -> with_leaf dev' f k ws j = with_leaf dev f k ws j.
Proof. intros Hw. unfold with_leaf. by rewrite (entry_geometry dev dev'). Qed.

Lemma fill_branch_upper dev m p i q l :
  fill_branch YMALLOC uninitialised (S (S l)) dev m p i q = fill_branch YMALLOC uninitialised (S (S l)) dev m p i 0.
Proof.
  unfold fill_branch. rewrite (proj2 (Z.ltb_lt 1 (Z.of_nat (S (S l))))), (proj2 (Z.eqb_neq (Z.of_nat (S (S l))) 1)) by lia. done.
Qed.

(** What the operation does to the tree. *)
Definition plugged dev m free s dev' m' free' s' (l : nat) p f k q ws : Prop :=
  owns dev' m' free' l p s' (with_leaf dev f k ws) /\ advances dev m s (q :: free) dev' m' s' free' /\
  find_loop l m' p k = Some q /\
  (forall j, 0 <= j < capacity l -> j / 16 <> k / 16 -> keeps_leaf l m p m' j) /\ spends YMALLOC dev m free dev' m' free' l.

Lemma FreeTnode_blocks dev m tn dev' m' : yaffs_FreeTnode dev m tn = Some (dev', m') -> blocks m' = blocks m.
Proof.
  unfold yaffs_FreeTnode. destruct (truthy tn); [|by intros [= _ <-]].
  destruct (set_word m tn 0 (freeTnodes m)) as [m1|] eqn:E; [|done]. intros [= _ <-]. by apply set_word_blocks in E.
Qed.

(** A level 0 tnode, if there is one, goes back to the pool. *)
Lemma free_leaf dev m free c s f :
  owns dev m free 0 c s f ->
  exists dev' m' free', (if truthy c then yaffs_FreeTnode dev m c else Some (dev, m)) = Some (dev', m') /\
    pool dev' m' free' /\ advances dev m s free dev' m' ∅ free' /\ spends YMALLOC dev m free dev' m' free' 0.
Proof.
  intros H. unfold truthy. destruct (Z.eqb_spec c 0) as [->|Hne]; simpl negb; cbn match.
  - exists dev, m, free. destruct (tree_null_inv _ _ _ _ _ (owns_tree _ _ _ _ _ _ _ H)) as [E _]. subst s.
    split_and!; [done|apply H|by eapply advances_refl|by apply spends_same; [..|lia]].
  - assert (s = {[c]}) as ->.
    { destruct (owns_tree _ _ _ _ _ _ _ H) as [(? & _)|(_ & ? & _ & _ & ? & _)]; done. }
    destruct (free_last dev m free 0 c f H Hne) as (dev' & m' & E & [Hp _ _] & Hadv).
    exists dev', m', (c :: free). split_and!; [done..|]. apply spends_same; [by eapply FreeTnode_blocks|by apply counters_size, Hadv|simpl; lia].
Qed.

(** The tnode is hung into an internal tnode of the lowest level; the one that was there is freed. *)
Lemma plug_lowest dev m free p s f k q ws :
  owns dev m free 1 p s f -> p <> 0 -> 0 <= k < capacity 1 -> spare_tnode dev m free s q ws ->
  exists dev' m' free' s', add_loop YMALLOC uninitialised 1 dev m p k q = Some (q, dev', m') /\
    plugged dev m free s dev' m' free' s' 1 p f k q ws.
Proof.
  intros H Hp Hk [Hq Hok Hqr Hqs Hqf]. destruct (tree_node _ _ _ _ _ _ (owns_tree _ _ _ _ _ _ _ H) Hp) as (w & ss & Hn).
  pose proof (branch_range k 0) as Hr. pose proof (branch_split k 0 Hk) as Hsp. cbn [add_loop]. set (i := branch k 1) in *.
  destruct (node_branch _ _ _ _ _ _ _ _ Hn i Hr) as (c & Hc & Hct).
  pose proof (others_union _ _ _ _ _ _ _ _ i Hn Hr) as Hun. pose proof (owns_apart _ _ _ _ _ _ _ H) as Hap.
  assert (owns dev m free 0 c (ss i) (part f 0 i)) as Hcw by (constructor; [apply H|done|clear - Hun Hap; set_solver]).
  rewrite (proj2 (Z.eqb_neq p 0)) by done. unfold fill_branch. rewrite (get_word_tree _ _ _ _ _ _ _ _ i Hn), Hc. cbn [mbind option_bind].
  change ((1 <? Z.of_nat 1) && (c =? 0)) with false. change (Z.of_nat 1 =? 1) with true. cbn match.
  assert (truthy q = true) as -> by (apply truthy_true; lia).
  destruct (free_leaf dev m free c (ss i) (part f 0 i) Hcw) as (dev' & m' & free' & -> & Hp' & [Hcn Htr] & Hlen). cbn [mbind option_bind].
  assert ({[q]} ⊆ dom (tnodes m)) as Hqd by (apply elem_of_dom_2 in Hq; clear - Hq; set_solver).
  assert ({[q]} ## ss i ∪ list_to_set free) as Hqo by (clear - Hqs Hqf Hun; set_solver).
  assert (tnodes m' !! q = Some ws) as Hq' by (rewrite <- Hq; eapply (transfers_agree _ _ _ _ {[q]}); [done..|by apply elem_of_singleton]).
  pose proof (transfers_disjoint _ _ _ _ _ Htr Hqd Hqo) as Hqf'.
  destruct (branch_replaced dev m (q :: free) 0 p s f w ss i c q dev' m' free' {[q]} (entry dev ws))
    as (_ & -> & Ho & T & (ss' & N' & _) & G & F & _); try done.
  { clear - Hap Hqs. set_solver. }
  { constructor; [done| |clear - Hqf'; set_solver]. right. split; [done|]. exists ws. split; [done|]. split; [by eapply tnode_ok_counters|].
    split; [done|]. intros j _. by rewrite (entry_geometry dev dev') by (by apply counters_geometry). }
  { by apply counters_geometry. }
  { eapply transfers_eq; [eapply (transfers_more _ _ _ _ {[q]}); [exact Htr|done]|clear; set_solver|clear; set_solver]. }
  cbn [mbind option_bind]. rewrite G, Z.eqb_refl by done. cbn [mbind option_bind]. eexists dev', _, free', _. split; [done|]. split_and!.
  - destruct Ho as [P' T' A']. constructor; [done| |done]. eapply tree_ext; [done|]. intros j Hj. rewrite <- (with_leaf_splice dev f 0 i k ws j Hsp).
    unfold splice. destruct ((i * capacity 0 <=? j) && _) eqn:E; [|done]. unfold with_leaf. rewrite entry_rest.
    apply andb_true_iff in E as [E1%Z.leb_le E2%Z.ltb_lt]. change (capacity 0) with 16 in *.
    rewrite (proj2 (Z.eqb_eq _ _)); [done|]. rewrite !Z.div_small by lia. done.
  - split; [done|]. exact T.
  - cbn [find_loop]. rewrite (proj2 (Z.eqb_neq p 0)), G by done. fold i. by rewrite Z.eqb_refl.
  - intros j Hj Hne. eapply (node_keeps_leaf dev dev' m _ 0 p); try done.
    + apply get_insert_eq. destruct (node_ok _ _ _ _ _ _ _ _ Hn) as [_ ->]. pose proof (tnode_size_range dev (pool_wf _ _ _ (owns_pool _ _ _ _ _ _ _ H))). lia.
    + intros j' Hj' Hne'. by rewrite get_insert_ne by lia.
    + intros E. exfalso. apply Hne. pose proof (branch_split j 0 Hj) as Hsj. rewrite E in Hsj. change (capacity 0) with 16 in *.
      pose proof (Z.div_unique j 16 i (j - 16 * i)). pose proof (Z.div_unique k 16 i (k - 16 * i)). lia.
  - apply (spends_more YMALLOC _ _ _ _ _ _ 0); [|lia]. eapply (spends_trans YMALLOC _ _ _ dev' m' free' _ _ _ 0 0); [done|]. by apply spends_same; [..|lia].
Qed.

(** The owner of a spare tnode keeps it while a tree is worked on. *)
Lemma spare_kept dev m free s q ws dev' m' free' s' :
  spare_tnode dev m free s q ws -> advances dev m s free dev' m' s' free' -> spare_tnode dev' m' free' s' q ws.
Proof.
  intros [Hq Hok Hqr Hqs Hqf] [Hc Ht].
  assert ({[q]} ⊆ dom (tnodes m)) as Hqd by (apply elem_of_dom_2 in Hq; clear - Hq; set_solver).
  assert ({[q]} ## s ∪ list_to_set free) as Hqo by (clear - Hqs Hqf; set_solver).
  pose proof (transfers_disjoint _ _ _ _ _ Ht Hqd Hqo) as Hd. constructor.
  - rewrite <- Hq. eapply (transfers_agree _ _ _ _ {[q]}); [done..|by apply elem_of_singleton].
  - by eapply tnode_ok_counters.
  - done.
  - clear - Hd. set_solver.
  - clear - Hd. set_solver.
Qed.

Lemma spare_less dev m free s s' q ws : spare_tnode dev m free s q ws -> s' ⊆ s -> spare_tnode dev m free s' q ws.
Proof. intros [] Hs. constructor; try done. clear - Hs spare_tree0. set_solver. Qed.

(** Work before the tnode changes hands. *)
Lemma advances_before dev m s free dev1 m1 s1 free1 dev2 m2 s2 free2 q ws :
  advances dev m s free dev1 m1 s1 free1 -> advances dev1 m1 s1 (q :: free1) dev2 m2 s2 free2 -> tnodes m !! q = Some ws ->
  advances dev m s (q :: free) dev2 m2 s2 free2.
Proof.
  intros [C1 T1] [C2 T2] Hq. split; [by eapply counters_trans|]. eapply transfers_trans; [|exact T2].
  assert ({[q]} ⊆ dom (tnodes m)) as Hqd by (apply elem_of_dom_2 in Hq; clear - Hq; set_solver).
  eapply transfers_eq; [eapply (transfers_more _ _ _ _ {[q]}); [exact T1|done]|clear; set_solver|clear; set_solver].
Qed.

Lemma add_loop_step l dev m p k q : p <> 0 ->
  add_loop YMALLOC uninitialised (S l) dev m p k q =
  ('(dev, m) ← fill_branch YMALLOC uninitialised (S l) dev m p (branch k (S l)) q;
   tn ← get_word m p (branch k (S l));
   add_loop YMALLOC uninitialised l dev m tn k q).
Proof. intros Hp. cbn [add_loop]. by rewrite (proj2 (Z.eqb_neq p 0)). Qed.

Lemma plug_loop l : forall dev m free p s f k q ws r,
  owns dev m free (S l) p s f -> p <> 0 -> 0 <= k < capacity (S l) -> spare_tnode dev m free s q ws -> enough YMALLOC dev m free l r ->
  exists dev' m' free' s', add_loop YMALLOC uninitialised (S l) dev m p k q = Some (q, dev', m') /\
    plugged dev m free s dev' m' free' s' (S l) p f k q ws.
Proof.
  induction l as [|l IH]; intros dev m free p s f k q ws r H Hp Hk Hsp He; [by apply plug_lowest|].
  pose proof (branch_range k (S l)) as Hr. pose proof (branch_split k (S l) Hk) as Hspl. rewrite add_loop_step by done. set (i := branch k (S (S l))) in *.
  rewrite fill_branch_upper.
  destruct (fill_branch_spec YMALLOC uninitialised dev m free (S l) p s f i H Hp Hr) as (dev1 & m1 & free1 & s1 & -> & H1 & A1 & K1 & L1 & En).
  cbn [mbind option_bind]. destruct (En r) as (c & Hc & Hcn); [eapply enough_mono; [exact He|lia]|].
  pose proof (spare_kept _ _ _ _ _ _ _ _ _ _ Hsp A1) as Hsp1.
  destruct (tree_node _ _ _ _ _ _ (owns_tree _ _ _ _ _ _ _ H1) Hp) as (w & ss & Hn).
  rewrite Hc. cbn [mbind option_bind]. rewrite (get_word_tree _ _ _ _ _ _ _ _ i Hn) in Hc.
  destruct (node_branch _ _ _ _ _ _ _ _ Hn i Hr) as (c' & Hc' & Hct). rewrite Hc in Hc'. injection Hc' as <-.
  pose proof (others_union _ _ _ _ _ _ _ _ i Hn Hr) as Hun. pose proof (owns_apart _ _ _ _ _ _ _ H1) as Hap.
  assert (owns dev1 m1 free1 (S l) c (ss i) (part f (S l) i)) as H2 by (constructor; [apply H1|done|clear - Hun Hap; set_solver]).
  destruct (IH dev1 m1 free1 c (ss i) (part f (S l) i) (k - i * capacity (S l)) q ws r H2 Hcn) as (dev2 & m2 & free2 & s2 & E & H3 & [C3 T3] & F3 & K3 & L3).
  { lia. }
  { eapply spare_less; [done|]. clear - Hun. set_solver. }
  { by apply L1. }
  assert (add_loop YMALLOC uninitialised (S l) dev1 m1 c k q = Some (q, dev2, m2)) as ->.
  { rewrite <- E, <- (add_loop_rest YMALLOC uninitialised (S l) (S l) dev1 m1 c (k - i * capacity (S l)) i q) by done. f_equal. lia. }
  destruct (branch_transfers dev1 m1 (q :: free1) (S l) p s1 f w ss i c dev2 m2 free2 s2
    (with_leaf dev1 (part f (S l) i) (k - i * capacity (S l)) ws)) as (A & T & (ss' & N4 & _) & _);
    [done|pose proof (spare_tree _ _ _ _ _ _ Hsp1) as Hqs; clear - Hap Hqs; set_solver|done|done|exact H3|by apply counters_geometry|exact T3|].
  eexists dev2, m2, free2, _. split; [done|]. split_and!.
  - constructor; [apply H3| |exact A]. eapply tree_ext; [by eapply node_tree|]. intros j _.
    rewrite (with_leaf_splice dev1 f (S l) i k ws j Hspl). by apply with_leaf_geometry, counters_geometry, A1.
  - eapply advances_before; [exact A1|split; [exact C3|exact T]|apply Hsp].
  - rewrite (find_loop_node dev2 m2 (S l) p _ _ w ss' k c N4) by done. rewrite <- F3.
    rewrite <- (find_loop_rest (S l) (S l) m2 c (k - i * capacity (S l)) i) by done. f_equal. lia.
  - intros j Hj Hne. eapply keeps_leaf_trans; [by apply K1|].
    eapply (node_keeps_leaf dev1 dev2 m1 m2 (S l) p); try done.
    + intros a Ha _. eapply (transfers_agree _ _ _ _ (others s1 ss i)); [exact T3| | |done].
      * intros b Hb. eapply tree_dom; [by eapply node_tree|]. unfold others in Hb. clear - Hb. set_solver.
      * pose proof (spare_tree _ _ _ _ _ _ Hsp1) as Hqs. unfold others. clear - Hap Hqs. set_solver.
    + intros E' _. split; [done|]. pose proof (branch_split j (S l) Hj) as Hsj. rewrite E' in Hsj. apply K3; [lia|].
      rewrite !sixteenth_rest. lia.
  - exact (spends_trans YMALLOC _ _ _ _ _ _ _ _ _ 1 (S l) L1 L3).
Qed.

Lemma tnode_size_wf dev : tnode_wf dev -> tnodeWidth dev * YAFFS_NTNODES_LEVEL0 / 8 / 4 = tnode_size dev / 4.
Proof.
  intros Hw. pose proof (width_range dev Hw). unfold tnode_size, YAFFS_NTNODES_LEVEL0, sizeof_yaffs_Tnode.
  destruct (Z.ltb_spec (tnodeWidth dev * 16 / 8) 32); [|done].
  replace (tnodeWidth dev * 16) with (tnodeWidth dev * 2 * 8) in * by lia. rewrite Z.div_mul in * by lia. lia.
Qed.

(** The top of the tree is a level 0 tnode: the tnode is copied into it and freed. *)
Lemma plug_top dev m free p s f k q ws :
  owns dev m free 0 p s f -> p <> 0 -> 0 <= k < capacity 0 -> spare_tnode dev m free s q ws ->
  exists dev' m', (m ← copy_tnode dev m p q; yaffs_FreeTnode dev m q) = Some (dev', m') /\
    owns dev' m' (q :: free) 0 p s (with_leaf dev f k ws) /\ advances dev m s (q :: free) dev' m' s (q :: free) /\
    spends YMALLOC dev m free dev' m' (q :: free) 0.
Proof.
  intros [Hpl Ht Hap] Hp Hk [Hq Hok Hqr Hqs Hqf]. pose proof (pool_wf _ _ _ Hpl) as Hw.
  destruct Ht as [(? & _)|(Hpr & d & Hd & Hdok & -> & Hf)]; [done|].
  assert (p <> q) as Hpq by (clear - Hqs; set_solver). unfold copy_tnode. rewrite Hd, Hq. cbn [mbind option_bind].
  rewrite (tnode_size_wf dev Hw), <- (ok_size dev d Hdok), copy_whole
    by (pose proof (ok_size _ _ Hdok) as E1; pose proof (ok_size _ _ Hok) as E2; unfold blen in *; lia).
  cbn [mbind option_bind]. assert (p ∈ dom (tnodes m)) as Hpd by (by apply elem_of_dom_2 in Hd).
  pose proof (pool_insert dev m free p ws Hpl Hpd ltac:(clear - Hap; set_solver)) as Hpl1. set (m1 := m <| tnodes ::= <[p := ws]> |>) in *.
  destruct (FreeTnode_spec dev m1 free q ws Hpl1) as (dev' & t' & -> & Hc & Hp' & Hdom & Hfr); try done.
  { unfold m1. simpl. by rewrite lookup_insert_ne. }
  change (tnodes m1) with (<[p := ws]> (tnodes m)) in *.
  eexists dev', _. split; [done|]. split; [|split; [|apply spends_same; [done|by apply counters_size|simpl; lia]]].
  - constructor; [done| |clear - Hap Hpq; set_solver]. right. split; [done|]. exists ws. simpl tnodes. rewrite Hfr, lookup_insert_eq by done.
    split; [done|]. split; [by eapply tnode_ok_counters|]. split; [done|]. intros j Hj. unfold with_leaf. change (capacity 0) with 16 in Hk.
    rewrite !Z.div_small by lia. simpl. by rewrite (entry_geometry dev dev') by (by apply counters_geometry).
  - split; [done|]. pose proof (list_to_set_dom dev m free Hpl) as Hfd. apply elem_of_dom_2 in Hq. constructor.
    + done.
    + simpl tnodes. rewrite Hdom, dom_insert_L. clear - Hfd Hpd Hq. set_solver.
    + intros a Ha Hn. split; [|done]. simpl tnodes. rewrite Hfr, lookup_insert_ne; [done|clear - Hn; set_solver..].
Qed.

Lemma with_leaf_beyond dev f l k ws j :
  0 <= k < capacity l -> ~ 0 <= j < capacity l -> with_leaf dev f k ws j = f j.
Proof.
  intros Hk Hj. unfold with_leaf. destruct (Z.eqb_spec (j / 16) (k / 16)) as [E|]; [|done]. exfalso. apply Hj.
  pose proof (Z.div_mod j 16). pose proof (Z.div_mod k 16). pose proof (Z.mod_pos_bound j 16). pose proof (Z.mod_pos_bound k 16).
  unfold capacity in *. nia.
Qed.

(** The tnode is put into the tree of the file, which grows for it. *)
Lemma AddOrFind_passed dev m free fs s f k q ws x :
  file_ok dev m free fs s f -> 0 <= k <= YAFFS_MAX_CHUNK_ID -> spare_tnode dev m free s q ws -> enough YMALLOC dev m free 12 x ->
  exists tn dev' m' p l free' s', let fs' := fs <| top := p |> <| topLevel := l |> in
    yaffs_AddOrFindLevel0Tnode YMALLOC uninitialised dev m fs k q = Some (tn, dev', m', fs') /\ truthy tn = true /\
    file_ok dev' m' free' fs' s' (with_leaf dev f k ws) /\ advances dev m s (q :: free) dev' m' s' free' /\
    spends YMALLOC dev m free dev' m' free' 12.
Proof.
  intros Hf Hk Hsp He. unfold yaffs_AddOrFindLevel0Tnode. rewrite (sane_level_ok _ _ _ _ _ _ _ Hf Hk). simpl negb. cbn match.
  destruct (required_tallness_spec k Hk) as (r & -> & Hr & Hup & Hlow). cbn [mbind option_bind].
  destruct (grow_tree_spec YMALLOC uninitialised dev m free fs s f r x Hf Hr) as (dev1 & m1 & p & l & free1 & s1 & -> & Hf1 & A1 & Hrl & L1).
  { intros _. eapply enough_mono; [exact He|lia]. }
  cbn [mbind option_bind]. set (fs1 := fs <| top := p |> <| topLevel := l |>) in *.
  change (top fs1) with p. change (topLevel fs1) with l.
  pose proof (spare_kept _ _ _ _ _ _ _ _ _ _ Hsp A1) as Hsp1.
  pose proof (file_top _ _ _ _ _ _ Hf1) as Htop. change (p <> 0) in Htop.
  destruct Hf1 as [Hl H1 Z1 (tn0 & F0 & N0)]. change (0 <= l <= 6) in Hl. change (owns dev1 m1 free1 (Z.to_nat l) p s1 f) in H1.
  change (forall j, ~ 0 <= j < capacity (Z.to_nat l) -> f j = 0) in Z1. change (find_loop (Z.to_nat l) m1 p 0 = Some tn0) in F0.
  pose proof (capacity_mono r (Z.to_nat l) ltac:(lia)) as Hcap.
  assert (forall f' j, with_leaf dev1 f' k ws j = with_leaf dev f' k ws j) as Hwl by (intros f' j; by apply with_leaf_geometry, counters_geometry, A1).
  assert (forall j, ~ 0 <= j < capacity (Z.to_nat l) -> with_leaf dev f k ws j = 0) as Hz
    by (intros j Hj; rewrite (with_leaf_beyond dev f (Z.to_nat l)) by (done || lia); by apply Z1).
  assert (truthy q = true) as Hqt by (unfold truthy; rewrite (proj2 (Z.eqb_neq q 0)) by (pose proof (spare_addr _ _ _ _ _ _ Hsp); lia); done).
  destruct (Z.ltb_spec 0 l) as [Hpos|Hz0].
  - replace (Z.to_nat l) with (S (Z.to_nat l - 1)) in * by lia. set (l' := (Z.to_nat l - 1)%nat) in *.
    destruct (plug_loop l' dev1 m1 free1 p s1 f k q ws x H1 Htop) as (dev2 & m2 & free2 & s2 & -> & H2 & A2 & F2 & K2 & L2);
      [lia|done|apply L1; eapply enough_mono; [exact He|lia]|].
    cbn [mbind option_bind]. exists q, dev2, m2, p, l, free2, s2. split; [done|]. split; [done|]. split_and!.
    + constructor; change (topLevel (fs <| top := p |> <| topLevel := l |>)) with l; replace (Z.to_nat l) with (S l') by lia; [done| |exact Hz|].
      * destruct H2 as [P T A]. constructor; [done| |done]. eapply tree_ext; [done|]. intros j _. apply Hwl.
      * change (top (fs <| top := p |> <| topLevel := l |>)) with p. destruct (decide (0 / 16 = k / 16)) as [E|E].
        -- exists q. split; [|pose proof (spare_addr _ _ _ _ _ _ Hsp); lia]. rewrite <- F2. by apply find_loop_sixteenth.
        -- exists tn0. split; [|done]. apply K2; [pose proof (capacity_pos (S l')); lia|done..].
    + eapply advances_before; [exact A1|exact A2|apply Hsp].
    + eapply spends_more; [exact (spends_trans YMALLOC _ _ _ _ _ _ _ _ _ 6 (S l') L1 L2)|lia].
  - assert (l = 0) as -> by lia. rewrite Hqt.
    destruct (plug_top dev1 m1 free1 p s1 f k q ws H1 Htop ltac:(change (Z.to_nat 0) with 0%nat in Hcap; lia) Hsp1) as (dev2 & m2 & -> & H2 & A2 & L2).
    cbn [mbind option_bind]. exists p, dev2, m2, p, 0, (q :: free1), s1. split; [done|].
    split; [unfold truthy; by rewrite (proj2 (Z.eqb_neq p 0))|]. split_and!.
    + constructor; [done| |exact Hz|by exists p].
      destruct H2 as [P T A]. constructor; [done| |done]. eapply tree_ext; [done|]. intros j _. apply Hwl.
    + eapply advances_before; [exact A1|exact A2|apply Hsp].
    + eapply spends_more; [exact (spends_trans YMALLOC _ _ _ _ _ _ _ _ _ 6 0 L1 L2)|lia].
Qed.

End Plug.
