(* ===== verification/YaffsTnodesPrune.v ===== *)
(** * Pruning the tree of a file

    [yaffs_PruneFileStructure] gives back the tnodes without chunks and shortens the tree as far as
    possible.  The test for a level 0 tnode without chunks looks at eight words.  These are the
    whole tnode when the entries have 16 bits, and then the chunks of the file are kept; with wider
    entries a tnode is also given back when it has chunks in the other words only. *)

From S2P Require Import Prelude NandEcc YaffsTags YaffsNand YaffsBlocks YaffsTnodes YaffsTnodesFacts YaffsTnodesPool.
From S2P Require Import YaffsTnodesTree YaffsTnodesAdd YaffsTnodesFile YaffsTnodesDelete.

Local Open Scope Z_scope.

(** The function is 0 on a tree of the level. *)
Definition zero_on (f : Z -> Z) (l : nat) : Prop := forall k, 0 <= k < capacity l -> f k = 0.

Lemma zero_on_S f l : zero_on f (S l) <-> forall i, 0 <= i < 8 -> zero_on (part f l i) l.
Proof.
  split.
  - intros H i Hi k Hk. apply H. rewrite capacity_S. nia.
  - intros H k Hk. pose proof (branch_range k l) as Hb. pose proof (branch_split k l Hk).
    specialize (H _ Hb (k - branch k (S l) * capacity l) ltac:(lia)). unfold part in H. by rewrite Zplus_minus in H.
Qed.

Lemma part_0 f l k : part f l 0 k = f k.
Proof. unfold part. f_equal. Qed.

Section Prune.
Context {mtd : Type}.
Implicit Types (dev : yaffs_Device mtd) (free : list Z) (s : gset Z).

(** The bits of the entry [pos] of a level 0 tnode that are in its first eight words. *)
Definition seen_bits dev (pos : Z) : Z := Z.max 0 (Z.min (tnodeWidth dev) (256 - pos * tnodeWidth dev)).

(** A level 0 tnode with the entries [g] has nothing in its first eight words. *)
Definition blind dev (g : Z -> Z) : bool :=
  forallb (fun pos => Z.shiftr (g pos) (chunkGroupBits dev) mod 2 ^ seen_bits dev pos =? 0) (seqZ 0 16).

(** The function of a tree after the tnodes that look empty are gone, the first one only if [d]. *)
Definition pruned dev (d : bool) (f : Z -> Z) (k : Z) : Z :=
  if (d || (16 <=? k)) && blind dev (fun pos => f (k / 16 * 16 + pos)) then 0 else f k.

Lemma blind_true dev g :
  blind dev g = true <-> forall pos, 0 <= pos < 16 -> Z.shiftr (g pos) (chunkGroupBits dev) mod 2 ^ seen_bits dev pos = 0.
Proof.
  unfold blind. rewrite forallb_forall. split.
  - intros H pos Hp. apply Z.eqb_eq, H, list_elem_of_In, elem_of_seqZ. lia.
  - intros H pos Hp. apply Z.eqb_eq, H. apply list_elem_of_In, elem_of_seqZ in Hp. lia.
Qed.

Lemma blind_ext dev g g' : (forall pos, 0 <= pos < 16 -> g pos = g' pos) -> blind dev g = blind dev g'.
Proof. intros E. apply eq_iff_eq_true. rewrite !blind_true. split; intros H pos Hp; [rewrite <- E|rewrite E]; auto. Qed.

Lemma pruned_widths dev dev' d f k : same_widths dev dev' -> pruned dev' d f k = pruned dev d f k.
Proof. intros (E1 & _ & E2). unfold pruned, blind, seen_bits. by rewrite E1, E2. Qed.

(** The value at a chunk depends on the function on its level 0 tnode. *)
Lemma pruned_ext dev d f g k l i :
  (forall k, i * capacity l <= k < (i + 1) * capacity l -> f k = g k) -> i * capacity l <= k < (i + 1) * capacity l ->
  pruned dev d f k = pruned dev d g k.
Proof.
  intros E Hk. unfold pruned. rewrite (E k) by done. replace (blind dev _) with (blind dev (fun pos => g (k / 16 * 16 + pos))); [done|].
  apply blind_ext. intros pos Hp. symmetry. apply E. unfold capacity in *.
  pose proof (Z.pow_pos_nonneg 8 (Z.of_nat l) ltac:(lia) ltac:(lia)). set (c := 8 ^ Z.of_nat l) in *.
  pose proof (Z.div_mod k 16). pose proof (Z.mod_pos_bound k 16). nia.
Qed.

Lemma pruned_part dev d f l i k : 0 <= i -> 0 <= k < capacity l ->
  pruned dev d f (i * capacity l + k) = pruned dev (if i =? 0 then d else true) (part f l i) k.
Proof.
  intros Hi Hk. unfold pruned, part. pose proof (capacity_pos l) as Hc.
  assert ((i * capacity l + k) / 16 * 16 = i * capacity l + k / 16 * 16) as ->.
  { unfold capacity. replace (i * (16 * 8 ^ Z.of_nat l) + k) with (k + (i * 8 ^ Z.of_nat l) * 16) by lia. rewrite Z.div_add by lia. lia. }
  replace (blind dev (fun pos => f (i * capacity l + k / 16 * 16 + pos))) with
    (blind dev (fun pos => f (i * capacity l + (k / 16 * 16 + pos)))) by (apply blind_ext; intros; f_equal; lia).
  destruct (Z.eqb_spec i 0) as [->|]; [done|]. rewrite (proj2 (Z.leb_le 16 (_ + _))) by nia. by rewrite orb_true_r.
Qed.

(** The way to the first chunk exists. *)
Fixpoint spine (m : tnode_memory) (l : nat) (p : Z) : Prop :=
  p <> 0 /\ match l with O => True | S l' => exists q, get_word m p 0 = Some q /\ spine m l' q end.

(** On this way, a branch to the right exists only where there are chunks. *)
Fixpoint tight (m : tnode_memory) (l : nat) (p : Z) (f : Z -> Z) : Prop :=
  p <> 0 /\
  match l with
  | O => True
  | S l' =>
      (forall i, 1 <= i < 8 -> exists q, get_word m p i = Some q /\ (q = 0 <-> zero_on (part f l' i) l')) /\
      exists q, get_word m p 0 = Some q /\ tight m l' q f
  end.

Lemma branch_0 l : branch 0 (S l) = 0.
Proof. rewrite branch_spec. done. Qed.

Lemma spine_find m l p : spine m l p -> exists tn, find_loop l m p 0 = Some tn /\ tn <> 0.
Proof.
  revert p. induction l as [|l IH]; intros p; cbn [spine find_loop]; [intros [? _]; by exists p|].
  intros (Hp & q & Hq & Hs). rewrite (proj2 (Z.eqb_neq _ _) Hp), branch_0, Hq. by apply IH.
Qed.

Lemma find_spine m l p tn : find_loop l m p 0 = Some tn -> tn <> 0 -> spine m l p.
Proof.
  revert p. induction l as [|l IH]; intros p; cbn [spine find_loop]; [by intros [= ->]|].
  destruct (Z.eqb_spec p 0) as [->|Hp]; [by intros [= <-]|]. rewrite branch_0.
  destruct (get_word m p 0) as [q|]; [|done]. cbn [mbind option_bind]. intros Hf Hne. split; [done|]. exists q. split; [done|]. by apply IH.
Qed.

Lemma tight_spine m l p f : tight m l p f -> spine m l p.
Proof.
  revert p. induction l as [|l IH]; intros p; cbn [tight spine]; [done|]. intros (Hp & _ & q & Hq & Ht).
  split; [done|]. exists q. split; [done|]. by apply IH.
Qed.

Lemma tight_frame dev m m' l p s f g :
  tree dev (tnodes m) l p s g -> (forall a, a ∈ s -> tnodes m' !! a = tnodes m !! a) -> tight m l p f -> tight m' l p f.
Proof.
  revert p s g. induction l as [|l IH]; intros p s g Ht E; cbn [tight]; [done|]. intros (Hp & Hr & q & Hq & Htq).
  destruct (tree_node _ _ _ _ _ _ Ht Hp) as (ws & ss & Hn).
  assert (forall j, get_word m' p j = get_word m p j) as Hw.
  { intros j. unfold get_word. rewrite E; [done|]. apply (node_set _ _ _ _ _ _ _ _ Hn). by left. }
  split; [done|]. split.
  - intros i Hi. rewrite Hw. by apply Hr.
  - exists q. rewrite Hw. split; [done|]. rewrite (get_word_tree _ _ _ _ _ _ _ _ 0 Hn) in Hq.
    destruct (node_branch _ _ _ _ _ _ _ _ Hn 0 ltac:(lia)) as (q' & Hq' & Hqt). rewrite Hq in Hq'. injection Hq' as <-.
    eapply IH; [done| |done]. intros a Ha. apply E, (node_set _ _ _ _ _ _ _ _ Hn). right. by exists 0.
Qed.

Lemma tight_ext m l p f g : (forall k, 0 <= k < capacity l -> f k = g k) -> tight m l p f -> tight m l p g.
Proof.
  revert p. induction l as [|l IH]; intros p E; cbn [tight]; [done|]. intros (Hp & Hr & q & Hq & Ht).
  rewrite capacity_S in E. pose proof (capacity_pos l). split; [done|]. split.
  - intros i Hi. destruct (Hr i Hi) as (r & Hgr & Hiff). exists r. split; [done|]. rewrite Hiff. unfold zero_on, part.
    split; intros Hz k Hk; [rewrite <- E|rewrite E]; (by apply Hz) || nia.
  - exists q. split; [done|]. apply IH; [|done]. intros k Hk. apply E. lia.
Qed.

(** What the worker does to a tree. *)
Definition prune_done (l : nat)
    (worker : yaffs_Device mtd -> tnode_memory -> Z -> bool -> option (Z * yaffs_Device mtd * tnode_memory)) : Prop :=
  forall dev m free p s f del0, owns dev m free l p s f -> p <> 0 ->
  exists p' dev' m' free' s', worker dev m p del0 = Some (p', dev', m') /\ owns dev' m' free' l p' s' (pruned dev del0 f) /\
    advances dev m s free dev' m' s' free' /\ (p' = 0 \/ p' = p) /\ (p' = 0 <-> del0 = true /\ zero_on (pruned dev del0 f) l) /\
    (del0 = false -> spine m l p -> tight m' l p' (pruned dev del0 f)).

(** The function after the branch [i] is pruned. *)
Definition prune_part dev (del0 : bool) (l : nat) (i : Z) (f : Z -> Z) : Z -> Z :=
  splice f l i (pruned dev (if i =? 0 then del0 else true) (part f l i)).

(** The function after the branches from [i] on are pruned. *)
Definition prune_from dev (del0 : bool) (l : nat) (i : Z) (f : Z -> Z) : Z -> Z :=
  fun k => if i * capacity l <=? k then pruned dev del0 f k else f k.

Lemma prune_part_out dev del0 l i f k : ~ i * capacity l <= k < (i + 1) * capacity l -> prune_part dev del0 l i f k = f k.
Proof.
  intros Hk. unfold prune_part, splice. destruct (Z.leb_spec (i * capacity l) k), (Z.ltb_spec k ((i + 1) * capacity l)); cbn [andb]; done || lia.
Qed.

Lemma prune_part_in dev del0 l i f k : 0 <= i -> i * capacity l <= k < (i + 1) * capacity l -> prune_part dev del0 l i f k = pruned dev del0 f k.
Proof.
  intros Hi Hk. unfold prune_part, splice. rewrite (proj2 (Z.leb_le _ _)), (proj2 (Z.ltb_lt _ _)) by lia. cbn [andb].
  rewrite <- pruned_part by lia. f_equal. lia.
Qed.

Lemma prune_from_step dev del0 l i f k : 0 <= i -> 0 <= k ->
  prune_from dev del0 l (i + 1) (prune_part dev del0 l i f) k = prune_from dev del0 l i f k.
Proof.
  intros Hi Hk. unfold prune_from. pose proof (capacity_pos l). destruct (Z.leb_spec ((i + 1) * capacity l) k).
  - rewrite (proj2 (Z.leb_le _ _)) by nia. set (j := k / capacity l).
    assert (j * capacity l <= k < (j + 1) * capacity l) as Hj.
    { unfold j. pose proof (Z.div_mod k (capacity l)). pose proof (Z.mod_pos_bound k (capacity l)). nia. }
    apply (pruned_ext dev del0 _ _ k l j); [|done]. intros k' Hk'. apply prune_part_out. assert (i + 1 <= j) by nia. nia.
  - destruct (Z.leb_spec (i * capacity l) k); [apply prune_part_in; lia|apply prune_part_out; lia].
Qed.

(** One branch. *)
Lemma prune_branch_spec l worker dev m free p s f i (del0 : bool) h :
  prune_done l worker -> owns dev m free (S l) p s f -> p <> 0 -> 0 <= i < 8 ->
  let d := if i =? 0 then del0 else true in
  exists q' dev' m' free' s',
    prune_branch worker true dev m p i del0 h = Some (if truthy q' then h + 1 else h, dev', m') /\
    owns dev' m' free' (S l) p s' (prune_part dev del0 l i f) /\ advances dev m s free dev' m' s' free' /\
    (forall j, 0 <= j < 8 -> get_word m' p j = if j =? i then Some q' else get_word m p j) /\
    (d = true -> q' = 0 <-> zero_on (pruned dev d (part f l i)) l) /\
    (forall q, get_word m p 0 = Some q ->
       if i =? 0 then del0 = false -> spine m l q -> tight m' l q' (pruned dev del0 f) else forall g, tight m l q g -> tight m' l q g).
Proof.
  intros Hwk H Hp Hi d. pose proof (advances_refl _ _ _ _ _ _ _ H) as Hr.
  destruct (tree_node _ _ _ _ _ _ (owns_tree _ _ _ _ _ _ _ H) Hp) as (ws & ss & Hn).
  destruct (node_branch _ _ _ _ _ _ _ _ Hn i Hi) as (q & Hq & Hqt). unfold prune_branch.
  rewrite (get_word_tree _ _ _ _ _ _ _ _ i Hn), Hq. cbn [mbind option_bind]. rewrite andb_true_r.
  destruct (Z.eqb_spec q 0) as [->|Hne].
  - change (truthy 0) with false. cbn [mbind option_bind]. rewrite (get_word_tree _ _ _ _ _ _ _ _ i Hn), Hq. cbn [mbind option_bind].
    destruct (tree_null_inv _ _ _ _ _ Hqt) as [_ Hz].
    assert (zero_on (pruned dev d (part f l i)) l) as Hz'.
    { intros k Hk. unfold pruned. case_match; [done|by apply Hz]. }
    exists 0, dev, m, free, s. split; [done|]. split_and!; try done.
    + destruct H as [P T A]. constructor; [done| |done]. eapply tree_ext; [done|]. intros k Hk. unfold prune_part, splice.
      destruct (Z.leb_spec (i * capacity l) k), (Z.ltb_spec k ((i + 1) * capacity l)); cbn [andb]; try done.
      fold d. rewrite Hz' by lia. specialize (Hz (k - i * capacity l) ltac:(lia)). unfold part in Hz. by rewrite Zplus_minus in Hz.
    + intros j Hj. destruct (Z.eqb_spec j i) as [->|]; [|done]. by rewrite (get_word_tree _ _ _ _ _ _ _ _ i Hn).
    + intros q Hq0. destruct (Z.eqb_spec i 0) as [->|]; [|done]. rewrite (get_word_tree _ _ _ _ _ _ _ _ 0 Hn), Hq in Hq0.
      injection Hq0 as <-. intros _ Hsp. by destruct l, Hsp.
  - assert (truthy q = true) as -> by (unfold truthy; by rewrite (proj2 (Z.eqb_neq _ _) Hne)).
    assert (owns dev m free l q (ss i) (part f l i)) as Hq'.
    { constructor; [apply H|done|]. pose proof (owns_apart _ _ _ _ _ _ _ H). pose proof (others_union _ _ _ _ _ _ _ _ i Hn Hi).
      clear - H0 H1. set_solver. }
    fold d.
    destruct (Hwk dev m free q (ss i) (part f l i) d Hq' Hne) as (q' & dev1 & m1 & free1 & s1 & -> & H1 & [C1 T1] & Hcase & Hz & Hsp).
    cbn [mbind option_bind].
    destruct (branch_replaced dev m free l p s f ws ss i q q' dev1 m1 free1 s1 (pruned dev d (part f l i)))
      as (_ & E2 & O2 & T2 & (ss2 & N2 & Es2 & Ej2 & _) & W2 & F2 & F1); try done; [apply H..|by apply counters_geometry|].
    rewrite E2. cbn [mbind option_bind]. rewrite W2, Z.eqb_refl by done. cbn [mbind option_bind].
    eexists q', dev1, _, free1, _. split; [done|]. split_and!; [exact O2|by split|done| |].
    + intros Hd. rewrite Hz. tauto.
    + intros r Hr0. destruct (Z.eqb_spec i 0) as [->|Hi0].
      * rewrite (get_word_tree _ _ _ _ _ _ _ _ 0 Hn), Hq in Hr0. injection Hr0 as <-. intros Hd Hs.
        specialize (Hsp Hd Hs). eapply tight_ext; [|eapply tight_frame; [apply H1|exact F1|exact Hsp]].
        intros k Hk. unfold d. by rewrite <- (pruned_part dev del0 f l 0) by lia.
      * rewrite (get_word_tree _ _ _ _ _ _ _ _ 0 Hn) in Hr0. intros g Hg.
        destruct (node_branch _ _ _ _ _ _ _ _ Hn 0 ltac:(lia)) as (r' & Hr' & Hrt). rewrite Hr0 in Hr'. injection Hr' as <-.
        eapply tight_frame; [done| |done]. intros a Ha. apply F2.
        -- by eapply (others_branch _ _ _ _ _ _ _ _ i 0); [done..|lia|].
        -- intros ->. by eapply (node_root _ _ _ _ _ _ _ _ Hn 0).
Qed.

(** The branches from [i] on. *)
Lemma prune_loop_spec n l worker dev m free p s f i (del0 : bool) h :
  prune_done l worker -> owns dev m free (S l) p s f -> p <> 0 -> 0 <= i -> i + Z.of_nat n = 8 -> 0 <= h ->
  let g := prune_from dev del0 l i f in
  exists h' dev' m' free' s', prune_loop worker true n dev m p i del0 h = Some (h', dev', m') /\
    owns dev' m' free' (S l) p s' g /\ advances dev m s free dev' m' s' free' /\
    (forall j, 0 <= j < i -> get_word m' p j = get_word m p j) /\
    (forall j, i <= j < 8 -> (if j =? 0 then del0 else true) = true ->
       exists q, get_word m' p j = Some q /\ (q = 0 <-> zero_on (part g l j) l)) /\
    (h' = 0 <-> h = 0 /\ forall j, i <= j < 8 -> get_word m' p j = Some 0) /\ 0 <= h' /\
    (forall q, get_word m p 0 = Some q ->
       if i =? 0 then del0 = false -> spine m l q -> exists q', get_word m' p 0 = Some q' /\ tight m' l q' g
       else forall g, tight m l q g -> tight m' l q g).
Proof.
  intros Hwk. revert dev m free s f i h. induction n as [|n IH]; intros dev m free s f i h H Hp Hi Hn Hh g.
  - exists h, dev, m, free, s. split; [done|]. split_and!; try done; [|by eapply advances_refl|intros; lia| |].
    + destruct H as [P T A]. constructor; [done| |done]. eapply tree_ext; [done|]. intros k Hk. unfold g, prune_from.
      rewrite capacity_S in Hk. by rewrite (proj2 (Z.leb_gt _ _)) by nia.
    + split; [|tauto]. intros E. split; [done|]. intros; lia.
    + intros q Hq. by rewrite (proj2 (Z.eqb_neq i 0)) by lia.
  - cbn [prune_loop].
    destruct (prune_branch_spec l worker dev m free p s f i del0 h Hwk H Hp ltac:(lia))
      as (q & dev1 & m1 & free1 & s1 & -> & H1 & A1 & W1 & Z1 & T1). cbn [mbind option_bind].
    pose proof (counters_geometry _ _ (proj1 A1)) as Hsw.
    destruct (IH dev1 m1 free1 s1 (prune_part dev del0 l i f) (i + 1) (if truthy q then h + 1 else h)) as
      (h' & dev2 & m2 & free2 & s2 & -> & H2 & A2 & W2 & Z2 & C2 & P2 & T2); try done; [lia|lia|destruct (truthy q); lia|].
    assert (forall k, 0 <= k -> prune_from dev1 del0 l (i + 1) (prune_part dev del0 l i f) k = g k) as Eg.
    { intros k Hk. unfold prune_from. rewrite (pruned_widths dev dev1) by done. by apply prune_from_step. }
    assert (get_word m2 p i = Some q) as Ei by (rewrite W2, W1, Z.eqb_refl by lia; done).
    pose proof (capacity_pos l) as Hcp.
    assert (forall k, 0 <= k < capacity l -> g (i * capacity l + k) = pruned dev (if i =? 0 then del0 else true) (part f l i) k) as Egi.
    { intros k Hk. unfold g, prune_from. rewrite (proj2 (Z.leb_le _ _)) by lia. by apply pruned_part. }
    exists h', dev2, m2, free2, s2. split; [done|]. split_and!; [|by eapply advances_trans| | | |done|].
    + destruct H2 as [P T A]. constructor; [done| |done]. eapply tree_ext; [done|]. intros k Hk. apply Eg. lia.
    + intros j Hj. rewrite W2, W1 by lia. by rewrite (proj2 (Z.eqb_neq _ _)) by lia.
    + intros j Hj Hd. destruct (decide (j = i)) as [->|].
      * exists q. split; [done|]. rewrite Z1 by done. unfold zero_on, part at 2. split; intros Hz k Hk; [rewrite Egi|rewrite <- Egi]; auto.
      * destruct (Z2 j ltac:(lia) Hd) as (r & Hgr & Hiff). exists r. split; [done|]. rewrite Hiff. unfold zero_on, part.
        split; intros Hz k Hk; [rewrite <- Eg|rewrite Eg]; (by apply Hz) || nia.
    + rewrite C2. unfold truthy. split.
      * intros [Hz Hall]. destruct (Z.eqb_spec q 0) as [->|]; [|simpl in Hz; lia]. split; [done|].
        intros j Hj. destruct (decide (j = i)) as [->|]; [done|]. apply Hall. lia.
      * intros [-> Hall]. rewrite Hall in Ei by lia. injection Ei as <-. split; [done|]. intros j Hj. apply Hall. lia.
    + intros r Hr. specialize (T1 r Hr). destruct (Z.eqb_spec i 0) as [->|Hi0].
      * intros Hd Hs. exists q. split; [done|]. specialize (T2 q). rewrite (proj2 (Z.eqb_neq (0 + 1) 0)) in T2 by lia.
        eapply tight_ext; [|apply T2; [by rewrite W1|by apply T1]]. intros k Hk. unfold g, prune_from.
        by rewrite (proj2 (Z.leb_le _ _)) by lia.
      * intros g' Ht. specialize (T2 r). rewrite (proj2 (Z.eqb_neq (i + 1) 0)) in T2 by lia. apply T2; [|by apply T1].
        rewrite W1 by lia. by rewrite (proj2 (Z.eqb_neq _ _)) by lia.
Qed.

(** The words of a level 0 tnode. *)
Lemma prune_words n worker dev m p ws i (del0 : bool) h :
  tnodes m !! p = Some ws -> 0 <= i -> i + Z.of_nat n <= blen ws -> 0 <= h ->
  exists h', prune_loop worker false n dev m p i del0 h = Some (h', dev, m) /\ 0 <= h' /\
    (h' = 0 <-> h = 0 /\ forall j, i <= j < i + Z.of_nat n -> get ws j = Some 0).
Proof.
  intros Hl. revert i h. induction n as [|n IH]; intros i h Hi Hn Hh; cbn [prune_loop].
  - exists h. split; [done|]. split; [done|]. split; [|tauto]. intros ->. split; [done|]. intros; lia.
  - destruct (get_is_Some ws i) as [x Hx]; [lia|].
    assert (prune_branch worker false dev m p i del0 h = Some (if truthy x then h + 1 else h, dev, m)) as ->.
    { unfold prune_branch, get_word. rewrite Hl. cbn [mbind option_bind]. rewrite Hx. cbn [mbind option_bind].
      rewrite andb_false_r. cbn [mbind option_bind]. rewrite Hl. cbn [mbind option_bind]. by rewrite Hx. }
    cbn [mbind option_bind]. destruct (IH (i + 1) (if truthy x then h + 1 else h)) as (h' & -> & Hp' & Hiff);
      [lia|lia|destruct (truthy x); lia|].
    exists h'. split; [done|]. split; [done|]. rewrite Hiff. unfold truthy. split.
    + intros [Hz Hall]. destruct (Z.eqb_spec x 0) as [->|]; [|simpl in Hz; lia]. split; [done|]. intros j Hj.
      destruct (decide (j = i)) as [->|]; [done|]. apply Hall. lia.
    + intros [-> Hall]. rewrite Hall in Hx by lia. injection Hx as <-. split; [done|]. intros j Hj. apply Hall. lia.
Qed.

(** The first eight words of a level 0 tnode are 0 when its entries are blind. *)
Lemma blind_words dev ws : tnode_wf dev -> tnode_ok dev ws ->
  blind dev (entry dev ws) = true <-> forall j, 0 <= j < 8 -> get ws j = Some 0.
Proof.
  intros Hw Hok. pose proof (width_range dev Hw) as Hr. pose proof (group_range dev Hw) as Hg.
  assert (8 <= blen ws) as Hlen. { destruct Hok as [_ ->]. pose proof (tnode_size_range dev Hw). lia. }
  assert (forall pos, 0 <= pos < 16 -> exists v, Z.shiftr (entry dev ws pos) (chunkGroupBits dev) = v /\
    forall j, 0 <= j < seen_bits dev pos -> Z.testbit v j = wbit ws (pos * tnodeWidth dev + j)) as He.
  { intros pos Hp. destruct (get_entry_spec dev ws pos Hw (ok_words _ _ Hok) (tnode_ok_fit _ _ Hw Hok) ltac:(lia)) as (v & Ev & _ & Hb).
    exists v. unfold entry. rewrite Ev. cbn [default from_option id]. rewrite Z.shiftr_div_pow2, Z.div_mul by lia. split; [done|].
    intros j Hj. unfold seen_bits in Hj. rewrite Hb, (proj2 (Z.ltb_lt _ _)) by lia. cbn [andb].
    change 15 with (2 ^ 4 - 1). rewrite land_mask, Z.mod_small by lia. done. }
  rewrite blind_true. split.
  - intros Hz j Hj. destruct (get_is_Some ws j) as [x Hx]; [lia|]. rewrite Hx. f_equal.
    pose proof (words32_get _ _ _ (ok_words _ _ Hok) Hx) as Hx32. apply Z.bits_inj'. intros b Hb. rewrite Z.bits_0.
    destruct (decide (b < 32)) as [Hb32|]; [|apply (in_w_testbit 32); [done|lia]].
    set (k := 32 * j + b). assert (k / 32 = j /\ k mod 32 = b) as [Ek1 Ek2].
    { unfold k. split; [symmetry; apply (Z.div_unique _ _ _ b); lia|symmetry; apply (Z.mod_unique _ _ j); lia]. }
    rewrite <- Ek2, <- (wbit_get ws j x k) by (done || lia). set (w := tnodeWidth dev) in *.
    pose proof (Z.div_mod k w ltac:(lia)). pose proof (Z.mod_pos_bound k w ltac:(lia)).
    assert (0 <= k / w < 16) as Hpos by (split; [apply Z.div_pos; lia|apply Z.div_lt_upper_bound; lia]).
    assert (k mod w < seen_bits dev (k / w)) by (unfold seen_bits; fold w; nia).
    destruct (He (k / w) Hpos) as (v & Ev & Hv). specialize (Hz (k / w) Hpos). rewrite Ev in Hz.
    replace k with (k / w * w + k mod w) by lia. rewrite <- Hv by lia.
    rewrite <- (Z.mod_pow2_bits_low v (seen_bits dev (k / w))) by lia. by rewrite Hz, Z.bits_0.
  - intros Hz pos Hp. destruct (He pos Hp) as (v & -> & Hv). apply Z.bits_inj'. intros j Hj. rewrite Z.bits_0.
    destruct (decide (j < seen_bits dev pos)) as [Hlt|]; [|apply Z.mod_pow2_bits_high; unfold seen_bits in *; lia].
    rewrite Z.mod_pow2_bits_low, Hv by lia. unfold seen_bits in Hlt. set (k := pos * tnodeWidth dev + j).
    assert (0 <= k / 32 < 8) by (split; [apply Z.div_pos; unfold k; nia|apply Z.div_lt_upper_bound; unfold k; nia]).
    rewrite (wbit_get ws (k / 32) 0 k); [apply Z.bits_0|by apply Hz|unfold k; nia|done].
Qed.

Lemma owns_ext dev m free l p s f g :
  owns dev m free l p s f -> (forall k, 0 <= k < capacity l -> f k = g k) -> owns dev m free l p s g.
Proof. intros [P T A] E. constructor; [done| |done]. by eapply tree_ext. Qed.

(** A tnode without branches, or a level 0 tnode that looks empty, is freed if that is asked for. *)
Lemma prune_free_spec dev m free l p s f g h (del0 : bool) :
  owns dev m free l p s f -> p <> 0 ->
  (if (h =? 0) && del0 then s = {[p]} /\ zero_on g l else forall k, 0 <= k < capacity l -> f k = g k) ->
  exists p' dev' m' free' s', prune_free dev m p h del0 = Some (p', dev', m') /\ owns dev' m' free' l p' s' g /\
    advances dev m s free dev' m' s' free' /\ (p' = 0 \/ p' = p) /\ (p' = 0 <-> del0 = true /\ h = 0) /\
    (del0 = false -> m' = m).
Proof.
  intros H Hp Hg. unfold prune_free. pose proof (advances_refl _ _ _ _ _ _ _ H) as Hr.
  destruct ((h =? 0) && del0) eqn:E.
  - apply andb_true_iff in E as [->%Z.eqb_eq ->]. destruct Hg as [-> Hz].
    destruct (free_last dev m free l p f H Hp) as (dev' & m' & -> & H' & A1). cbn [mbind option_bind].
    exists 0, dev', m', (p :: free), ∅. split; [done|]. split_and!; try done; [|by left].
    destruct H' as [P T A]. constructor; [done| |done]. by apply tree_null.
  - exists p, dev, m, free, s. split; [done|]. split; [by eapply owns_ext|]. split; [done|]. split; [by right|]. split; [|done].
    split; [done|]. intros [-> ->]. done.
Qed.

(** The level 0 tnode of the function [f]. *)
Lemma pruned_leaf dev d f k : 0 <= k < 16 -> pruned dev d f k = if d && blind dev f then 0 else f k.
Proof.
  intros Hk. unfold pruned. rewrite (proj2 (Z.leb_gt 16 k)), orb_false_r, Z.div_small by lia. done.
Qed.

Lemma zero_blind dev f : zero_on f 0 -> blind dev f = true.
Proof. intros Hz. apply blind_true. intros pos Hp. by rewrite Hz, Z.shiftr_0_l, Zmod_0_l. Qed.

Lemma PruneLeaf_done : prune_done 0 (yaffs_PruneWorker 0).
Proof.
  intros dev m free p s f del0 H Hp. cbn [yaffs_PruneWorker].
  rewrite (proj2 (Z.eqb_neq _ _) Hp); change (Z.to_nat YAFFS_NTNODES_INTERNAL) with 8%nat.
  pose proof (pool_wf _ _ _ (owns_pool _ _ _ _ _ _ _ H)) as Hw.
  destruct (owns_tree _ _ _ _ _ _ _ H) as [(? & _)|(_ & ws & Hl & Hok & Es & Hf)]; [done|].
  destruct (prune_words 8 (fun dev m tn _ => Some (tn, dev, m)) dev m p ws 0 del0 0 Hl) as (h & -> & Hh & Hiff); [lia| |lia|].
  { destruct Hok as [_ ->]. pose proof (tnode_size_range dev Hw). lia. }
  cbn [mbind option_bind]. assert (h = 0 <-> blind dev f = true) as Hhz.
  { rewrite Hiff, (blind_ext dev f (entry dev ws)), blind_words by done. split; [intros [_ Hall]|intros Hall; split; [done|]]; intros j Hj; apply Hall; lia. }
  destruct (prune_free_spec dev m free 0 p s f (pruned dev del0 f) h del0 H Hp) as (p' & dev' & m' & free' & s' & -> & H' & A' & Hc & Hz & Hm).
  { destruct (Z.eqb_spec h 0) as [Eh|Eh]; [destruct del0|]; cbn [andb].
    - split; [done|]. intros k Hk. rewrite pruned_leaf by exact Hk. by rewrite (proj1 Hhz Eh).
    - intros k Hk. by rewrite pruned_leaf by exact Hk.
    - intros k Hk. rewrite pruned_leaf by exact Hk. destruct (blind dev f); [tauto|]. by rewrite andb_false_r. }
  exists p', dev', m', free', s'. split_and!; try done.
  - rewrite Hz. split; (intros [-> Hx]; split; [done|]).
    + intros k Hk. rewrite pruned_leaf by exact Hk. by rewrite (proj1 Hhz Hx).
    + apply Hhz. destruct (blind dev f) eqn:Eb; [done|]. rewrite <- Eb. apply zero_blind. intros k Hk. rewrite <- (Hx k Hk).
      rewrite pruned_leaf by exact Hk. by rewrite Eb.
  - intros Hd _. destruct Hc as [Hc|Hc]; [|by rewrite Hc]. apply Hz in Hc as [? _]. congruence.
Qed.

Lemma PruneWorker_done l : prune_done l (yaffs_PruneWorker l).
Proof.
  induction l as [|l IH]; [apply PruneLeaf_done|]. intros dev m free p s f del0 H Hp; cbn [yaffs_PruneWorker];
    rewrite (proj2 (Z.eqb_neq _ _) Hp); change (Z.to_nat YAFFS_NTNODES_INTERNAL) with 8%nat.
  destruct (prune_loop_spec 8 l (yaffs_PruneWorker l) dev m free p s f 0 del0 0 IH H Hp ltac:(lia) ltac:(lia) ltac:(lia))
    as (h & dev1 & m1 & free1 & s1 & -> & H1 & A1 & _ & Z1 & C1 & P1 & T1). cbn [mbind option_bind].
  assert (forall k, 0 <= k -> prune_from dev del0 l 0 f k = pruned dev del0 f k) as Eg.
  { intros k Hk. unfold prune_from. by rewrite (proj2 (Z.leb_le _ _)) by lia. }
  set (g := prune_from dev del0 l 0 f) in *.
  destruct (tree_node _ _ _ _ _ _ (owns_tree _ _ _ _ _ _ _ H1) Hp) as (ws & ss & Hn).
  assert (del0 = true -> h = 0 <-> zero_on g (S l)) as Hhz.
  { intros ->. rewrite C1, zero_on_S. split.
    - intros [_ Hall] i Hi. destruct (Z1 i ltac:(lia)) as (q & Hq & Hiff); [by destruct (i =? 0)|]. apply Hiff.
      rewrite Hall in Hq by lia. by injection Hq.
    - intros Hz. split; [done|]. intros j Hj. destruct (Z1 j ltac:(lia)) as (q & Hq & Hiff); [by destruct (j =? 0)|].
      rewrite Hq. f_equal. by apply Hiff, Hz. }
  assert (zero_on g (S l) <-> zero_on (pruned dev del0 f) (S l)) as Hzz.
  { unfold zero_on. split; intros Hz k Hk; [rewrite <- Eg|rewrite Eg]; (by apply Hz) || lia. }
  destruct (prune_free_spec dev1 m1 free1 (S l) p s1 g (pruned dev del0 f) h del0 H1 Hp)
    as (p' & dev' & m' & free' & s' & -> & H' & A' & Hc & Hz & Hm).
  { destruct (Z.eqb_spec h 0) as [Eh|]; [destruct del0|]; cbn [andb]; try (intros k Hk; apply Eg; lia).
    split; [|by apply Hzz, Hhz]. eapply node_bare; [done|]. intros i Hi.
    rewrite <- (get_word_tree _ _ _ _ _ _ _ _ i Hn). apply C1; [done|lia]. }
  exists p', dev', m', free', s'. split_and!; try done; [by eapply advances_trans| |].
  - rewrite Hz, <- Hzz. split; intros [Hd ?]; (split; [done|]); by apply Hhz.
  - intros Hd Hsp. destruct Hc as [Hc|Hc]; [apply Hz in Hc as [? _]; congruence|]. rewrite Hc, (Hm Hd).
    destruct Hsp as (_ & q & Hq & Hsp). specialize (T1 q Hq Hd Hsp). apply (tight_ext _ _ _ g); [intros k Hk; apply Eg; lia|].
    split; [done|]. split; [|done]. intros i Hi. apply (Z1 i ltac:(lia)). by rewrite (proj2 (Z.eqb_neq _ _)) by lia.
Qed.

(** ** Shortening the tree *)

Lemma count_branches_spec n m p ws i h :
  tnodes m !! p = Some ws -> 0 <= i -> i + Z.of_nat n <= blen ws -> 0 <= h ->
  exists h', count_branches n m p i h = Some h' /\ 0 <= h' /\
    (h' = 0 <-> h = 0 /\ forall j, i <= j < i + Z.of_nat n -> get ws j = Some 0).
Proof.
  intros Hl. revert i h. induction n as [|n IH]; intros i h Hi Hn Hh; cbn [count_branches].
  - exists h. split; [done|]. split; [done|]. split; [|tauto]. intros ->. split; [done|]. intros; lia.
  - destruct (get_is_Some ws i) as [x Hx]; [lia|]. unfold get_word. rewrite Hl. cbn [mbind option_bind]. rewrite Hx.
    cbn [mbind option_bind]. destruct (IH (i + 1) (if truthy x then h + 1 else h)) as (h' & -> & Hp' & Hiff);
      [lia|lia|destruct (truthy x); lia|].
    exists h'. split; [done|]. split; [done|]. rewrite Hiff. unfold truthy. split.
    + intros [Hz Hall]. destruct (Z.eqb_spec x 0) as [->|]; [|simpl in Hz; lia]. split; [done|]. intros j Hj.
      destruct (decide (j = i)) as [->|]; [done|]. apply Hall. lia.
    + intros [-> Hall]. rewrite Hall in Hx by lia. injection Hx as <-. split; [done|]. intros j Hj. apply Hall. lia.
Qed.

(** The top of a tree whose branches to the right are missing is taken off. *)
Lemma trim_top dev m free l p s f ws ss q :
  owns dev m free (S l) p s f -> node dev (tnodes m) l p s f ws ss -> (forall j, 1 <= j < 8 -> get ws j = Some 0) ->
  get ws 0 = Some q ->
  exists dev' m', yaffs_FreeTnode dev m p = Some (dev', m') /\ owns dev' m' (p :: free) l q (ss 0) f /\
    advances dev m s free dev' m' (ss 0) (p :: free) /\ (forall a, a <> p -> tnodes m' !! a = tnodes m !! a) /\ p ∉ ss 0.
Proof.
  intros H Hn Hz Hq. pose proof (advances_refl _ _ _ _ _ _ _ H) as [_ Hr]. destruct H as [Hp Ht Hap].
  assert (others s ss 0 = {[p]}) as Ho.
  { apply set_eq. intros a. unfold others. rewrite elem_of_difference, (node_set _ _ _ _ _ _ _ _ Hn), elem_of_singleton. split.
    - intros [[->|(i & Hi & Ha)] Hna]; [done|]. destruct (decide (i = 0)) as [->|]; [done|].
      destruct (node_branch _ _ _ _ _ _ _ _ Hn i Hi) as (r & Hr0 & Hrt). rewrite Hz in Hr0 by lia. injection Hr0 as <-.
      apply tree_null_inv in Hrt as [E _]. rewrite E in Ha. by apply elem_of_empty in Ha.
    - intros ->. split; [by left|]. by apply (node_root _ _ _ _ _ _ _ _ Hn). }
  pose proof (others_union _ _ _ _ _ _ _ _ 0 Hn ltac:(lia)) as Hun. rewrite Ho in Hun.
  assert (p ∉ free) as Hpf by (clear - Hap Hun; set_solver).
  assert (p ∉ ss 0) as Hp0 by (by apply (node_root _ _ _ _ _ _ _ _ Hn)).
  destruct (FreeTnode_spec dev m free p ws Hp) as (dev' & t' & -> & Hc & Hp' & Hd & Hf); try apply Hn; [done|].
  destruct (node_branch _ _ _ _ _ _ _ _ Hn 0 ltac:(lia)) as (r & Hr0 & Hrt). rewrite Hq in Hr0. injection Hr0 as <-.
  eexists _, _. split; [done|]. split_and!; [| |done|done].
  - constructor; [done| |clear - Hap Hun Hp0; set_solver]. apply (tree_counters dev); [done|].
    eapply tree_ext; [eapply tree_frame; [done|]|intros k _; apply part_0].
    intros a Ha. apply Hf. by intros ->.
  - split; [done|]. change (tnodes (_ <| tnodes := t' |> <| freeTnodes := p |>)) with t'. destruct Hr as [_ Hrd _].
    constructor; [clear - Hun; set_solver|rewrite Hd, Hrd at 1; clear - Hun; set_solver|].
    intros a Ha Hna. split; [apply Hf; intros ->|]; clear - Hna Hun; set_solver.
Qed.

(** The tree is made as short as it can be. *)
Lemma trim_loop_spec l dev m free fs s f :
  owns dev m free l (top fs) s f -> tight m l (top fs) f -> topLevel fs = Z.of_nat l ->
  exists (l' : nat) p' dev' m' free' s',
    trim_loop l dev m fs = Some (dev', m', fs <| top := p' |> <| topLevel := Z.of_nat l' |>) /\ (l' <= l)%nat /\
    owns dev' m' free' l' p' s' f /\ advances dev m s free dev' m' s' free' /\
    (forall k, capacity l' <= k < capacity l -> f k = 0) /\ tight m' l' p' f /\
    (l' <> 0%nat -> ~ forall k, capacity (l' - 1) <= k < capacity l' -> f k = 0).
Proof.
  revert dev m free fs s. induction l as [|l IH]; intros dev m free fs s H Ht Hl; cbn [trim_loop].
  - exists 0%nat, (top fs), dev, m, free, s. split; [simpl in Hl; rewrite <- Hl; by destruct fs|].
    split_and!; try done; [by eapply advances_refl|intros; lia].
  - destruct Ht as (Hp & Hright & q & Hq & Htq).
    destruct (tree_node _ _ _ _ _ _ (owns_tree _ _ _ _ _ _ _ H) Hp) as (ws & ss & Hn).
    change (Z.to_nat (YAFFS_NTNODES_INTERNAL - 1)) with 7%nat.
    destruct (count_branches_spec 7 m (top fs) ws 1 0) as (h & -> & _ & Hiff); [apply Hn|lia| |lia|].
    { destruct (node_ok _ _ _ _ _ _ _ _ Hn) as [_ ->]. pose proof (tnode_size_range dev (pool_wf _ _ _ (owns_pool _ _ _ _ _ _ _ H))). lia. }
    cbn [mbind option_bind]. destruct (Z.eqb_spec h 0) as [E0|Hne].
    + rewrite Hq. cbn [mbind option_bind]. rewrite (get_word_tree _ _ _ _ _ _ _ _ 0 Hn) in Hq.
      destruct (proj1 Hiff E0) as [_ Hz].
      destruct (trim_top dev m free l (top fs) s f ws ss q H Hn) as (dev1 & m1 & -> & H1 & A1 & F1 & N1);
        [intros j Hj; apply Hz; lia|done|]. cbn [mbind option_bind].
      set (fs1 := fs <| top := q |> <| topLevel ::= Z.pred |>).
      destruct (IH dev1 m1 (top fs :: free) fs1 (ss 0)) as (l' & p' & dev2 & m2 & free2 & s2 & -> & Hle & H2 & A2 & Z2 & T2 & M2).
      * done.
      * change (top fs1) with q. destruct (node_branch _ _ _ _ _ _ _ _ Hn 0 ltac:(lia)) as (r & Hr0 & Hrt).
        rewrite Hq in Hr0. injection Hr0 as <-. eapply tight_frame; [exact Hrt| |done]. intros a Ha. apply F1. by intros ->.
      * change (topLevel fs1) with (Z.pred (topLevel fs)). lia.
      * exists l', p', dev2, m2, free2, s2. split; [done|]. split_and!; try done; [lia|by eapply advances_trans|].
        intros k Hk. destruct (decide (k < capacity l)) as [|Hge]; [apply Z2; lia|].
        pose proof (capacity_pos l). pose proof (capacity_pos l').
        assert (0 <= k < capacity (S l)) as Hr by lia. pose proof (branch_range k l). pose proof (branch_split k l Hr).
        destruct (Hright (branch k (S l))) as (r & Hgr & Hzr). { nia. }
        rewrite (get_word_tree _ _ _ _ _ _ _ _ _ Hn), Hz in Hgr by nia. injection Hgr as <-.
        pose proof (proj1 Hzr eq_refl (k - branch k (S l) * capacity l) ltac:(lia)) as E. unfold part in E. by rewrite Zplus_minus in E.
    + exists (S l), (top fs), dev, m, free, s. split; [rewrite <- Hl; by destruct fs|].
      split_and!; try done; [by eapply advances_refl|intros; lia|by split; [|split; [|exists q]]|].
      intros _ Hall. apply Hne, Hiff. split; [done|]. intros j Hj.
      destruct (Hright j ltac:(lia)) as (r & Hgr & Hzr). rewrite (get_word_tree _ _ _ _ _ _ _ _ _ Hn) in Hgr.
      rewrite Hgr. f_equal. apply Hzr. intros k Hk. unfold part. apply Hall.
      replace (S l - 1)%nat with l by lia. rewrite capacity_S. pose proof (capacity_pos l). nia.
Qed.

Lemma pruned_zero dev d f k : f k = 0 -> pruned dev d f k = 0.
Proof. intros E. unfold pruned. by case_match. Qed.

(** What pruning does to the function of a file, and that the tree that is left could not be shorter. *)
Lemma PruneFileStructure_spec dev m free fs s f :
  file_ok dev m free fs s f ->
  exists dev' m' p l free' s', let fs' := fs <| top := p |> <| topLevel := l |> in let f' := pruned dev false f in
    yaffs_PruneFileStructure dev m fs = Some (YAFFS_OK, dev', m', fs') /\ file_ok dev' m' free' fs' s' f' /\
    advances dev m s free dev' m' s' free' /\ l <= topLevel fs /\
    (0 < l -> ~ forall k, capacity (Z.to_nat l - 1) <= k -> f' k = 0).
Proof.
  intros Hf. pose proof (file_level _ _ _ _ _ _ Hf) as Hl. unfold yaffs_PruneFileStructure. set (f' := pruned dev false f).
  assert (forall k, ~ 0 <= k < capacity (Z.to_nat (topLevel fs)) -> f' k = 0) as Hout.
  { intros k Hk. by apply pruned_zero, (file_zero _ _ _ _ _ _ Hf). }
  destruct (Z.ltb_spec 0 (topLevel fs)) as [Hpos|Hz].
  - set (l := Z.to_nat (topLevel fs)) in *. destruct (file_leaf0 _ _ _ _ _ _ Hf) as (tn & Hfind & Hne).
    pose proof (find_spine _ _ _ _ Hfind Hne) as Hsp.
    destruct (PruneWorker_done l dev m free (top fs) s f false (file_owns _ _ _ _ _ _ Hf) (file_top _ _ _ _ _ _ Hf))
      as (p1 & dev1 & m1 & free1 & s1 & -> & H1 & A1 & _ & _ & T1). specialize (T1 eq_refl Hsp).
    cbn [mbind option_bind]. set (fs1 := fs <| top := p1 |>). fold f' in H1, T1.
    destruct (trim_loop_spec l dev1 m1 free1 fs1 s1 f' H1 T1) as (l' & p' & dev2 & m2 & free2 & s2 & E2 & Hle & H2 & A2 & Z2 & T2 & M2).
    { change (topLevel fs1) with (topLevel fs). lia. }
    change (topLevel fs1) with (topLevel fs). fold l. rewrite E2. cbn [mbind option_bind].
    exists dev2, m2, p', (Z.of_nat l'), free2, s2. split; [done|]. split_and!; [|by eapply advances_trans|lia|].
    + constructor.
      * change (0 <= Z.of_nat l' <= 6). lia.
      * change (owns dev2 m2 free2 (Z.to_nat (Z.of_nat l')) p' s2 f'). by rewrite Nat2Z.id.
      * intros k Hk. change (~ 0 <= k < capacity (Z.to_nat (Z.of_nat l'))) in Hk. rewrite Nat2Z.id in Hk.
        destruct (decide (0 <= k < capacity l)); [apply Z2; lia|]. by apply Hout.
      * change (exists tn, find_loop (Z.to_nat (Z.of_nat l')) m2 p' 0 = Some tn /\ tn <> 0). rewrite Nat2Z.id.
        by eapply spine_find, tight_spine.
    + intros Hl' Hall. rewrite Nat2Z.id in Hall. apply M2; [lia|]. intros k Hk. apply Hall. lia.
  - exists dev, m, (top fs), (topLevel fs), free, s. cbv zeta. rewrite <- fs_eta.
    split; [done|]. split; [|split; [eapply advances_refl; apply Hf|lia]].
    destruct Hf as [Hlv Ho _ Hleaf]. constructor; [done| |done..]. eapply owns_ext; [done|]. replace (topLevel fs) with 0 by lia.
    intros k Hk. unfold f'. by rewrite pruned_leaf.
Qed.

(** The values of a file are entries of its tnodes. *)
Lemma tree_entry dev t l : forall p s f k, tnode_wf dev -> tree dev t l p s f -> 0 <= k < capacity l ->
  exists v, f k = v * 2 ^ chunkGroupBits dev /\ in_w (tnodeWidth dev) v.
Proof.
  induction l as [|l IH]; intros p s f k Hw Ht Hk; pose proof (width_range dev Hw);
    (destruct Ht as [(_ & _ & Hz)|(_ & ws & _ & Hok & Ht)];
     [exists 0; split; [by apply Hz|]; unfold in_w; pose proof (Z.pow_pos_nonneg 2 (tnodeWidth dev)); lia|]).
  - destruct Ht as [_ Hf]. rewrite Hf by exact Hk. unfold entry.
    destruct (get_entry_spec dev ws k Hw (ok_words _ _ Hok) (tnode_ok_fit _ _ Hw Hok) ltac:(lia)) as (v & -> & Hv & _). by exists v.
  - destruct Ht as (ss & _ & _ & _ & Hb). pose proof (branch_range k l) as Hr. pose proof (branch_split k l Hk).
    destruct (Hb _ Hr) as (q & _ & Hq). destruct (IH _ _ _ (k - branch k (S l) * capacity l) Hw Hq ltac:(lia)) as (v & E & Hv).
    exists v. unfold part in E. by rewrite Zplus_minus in E.
Qed.

(** With 16-bit entries nothing is lost. *)
Lemma narrow_pruned dev m free fs s f k :
  file_ok dev m free fs s f -> tnodeWidth dev = 16 -> pruned dev false f k = f k.
Proof.
  intros Hf Hw. destruct (decide (0 <= k < capacity (Z.to_nat (topLevel fs)))) as [Hk|Hk].
  2: { rewrite pruned_zero; [symmetry|]; by apply (file_zero _ _ _ _ _ _ Hf). }
  destruct (tree_entry dev (tnodes m) _ _ _ _ k (file_wf _ _ _ _ _ _ Hf) (owns_tree _ _ _ _ _ _ _ (file_owns _ _ _ _ _ _ Hf)) Hk)
    as (v & Ev & Hv). unfold pruned. destruct (_ && _) eqn:E; [|done]. apply andb_true_iff in E as [_ E]. rewrite blind_true in E.
  specialize (E (k mod 16) ltac:(by apply Z.mod_pos_bound)). pose proof (Z.mod_pos_bound k 16 ltac:(done)).
  replace (k / 16 * 16 + k mod 16) with k in E by (rewrite Z.mul_comm; by apply Z.div_mod).
  pose proof (group_range dev (file_wf _ _ _ _ _ _ Hf)). rewrite Ev, Z.shiftr_div_pow2, Z.div_mul in E by lia. unfold seen_bits in E.
  rewrite Hw in E, Hv. replace (Z.max 0 (Z.min 16 (256 - k mod 16 * 16))) with 16 in E by lia.
  rewrite Z.mod_small in E by exact Hv. rewrite Ev, E. done.
Qed.

End Prune.
