(* ===== verification/YaffsTnodesSpec.v ===== *)
(** * What the tnodes of YAFFS guarantee

    The theorems about tnodes: geometry, packed entries, the tree of a file as a map from its chunks
    to chunks of the device, soft deletion with the accounts of the block manager, and pruning; with what the
    code does where it goes wrong: pruning wide tnodes and growing a tree without memory. *)

From S2P Require Import Prelude NandEcc YaffsTags YaffsNand YaffsBlocks YaffsBlocksFacts YaffsBlocksOps YaffsBlocksSpec.
From S2P Require Import YaffsTnodes YaffsTnodesFacts YaffsTnodesPool YaffsTnodesTree YaffsTnodesAdd YaffsTnodesFile.
From S2P Require Import YaffsTnodesDelete YaffsTnodesPrune.

Local Open Scope Z_scope.

(** ** Soft deletion and the accounts *)

Section Accounts.
Context {mtd : Type}.
Implicit Types dev : yaffs_Device mtd.









End Accounts.

(** ** Theorems *)

(** C23: For every chunk size below 2^31 and every device of at most 2^30 chunks the geometry that
    yaffs_GutsInitialise computes is well formed: yaffs_AddrToChunk divides every address below
    2^31 by the chunk size, whether it is a power of two or not; entries of the tnodes are wide
    enough for every chunk of the device, up to the size of a group, which is 1 unless wide
    tnodes are disabled; and the check of the group size passes exactly when a group is not
    larger than a block. *)
Theorem mount_geometry {mtd} (dev : yaffs_Device mtd) (wideTnodesDisabled : bool) :
  let n := nChunksPerBlock dev * (internalEndBlock dev + 1) in
  0 < nDataBytesPerChunk dev < 2 ^ 31 -> 0 < n <= 2 ^ 30 ->
  (exists dev1, chunk_geometry dev = Some dev1 /\ forall addr, 0 <= addr < 2 ^ 31 ->
     yaffs_AddrToChunk dev1 addr = (addr / nDataBytesPerChunk dev, addr mod nDataBytesPerChunk dev)) /\
  exists ok dev2, tnode_geometry dev wideTnodesDisabled = Some (ok, dev2) /\ tnode_wf dev2 /\
    (wideTnodesDisabled = false -> chunkGroupBits dev2 = 0) /\
    (ok = true <-> chunkGroupSize dev2 <= nChunksPerBlock dev) /\
    forall c, 0 <= c < n -> group_base dev2 c <= c < group_base dev2 c + chunkGroupSize dev2.
Proof.
  intros n Hb Hn. split.
  - destruct (AddrToChunk_spec dev 0 Hb ltac:(lia)) as (dev1 & E1 & _). exists dev1. split; [done|]. intros addr Ha.
    destruct (AddrToChunk_spec dev addr Hb Ha) as (dev2 & E2 & H). rewrite E1 in E2. by injection E2 as <-.
  - destruct (tnode_geometry_spec dev wideTnodesDisabled Hn) as (ok & dev2 & E & Hw & Hs & Hc & Hg & Hok & _).
    exists ok, dev2. split_and!; try done. intros c Hcn. rewrite Hs. apply group_base_spec; [done|]. fold n in Hc. lia.
Qed.

(** C20: yaffs_PutLevel0Tnode stores an entry of any even width from 16 to 30 bits, also one that
    crosses a word: yaffs_GetChunkGroupBase reads back the base of the group of the chunk, and
    every other entry of the tnode and every other tnode is as before. *)
Theorem level0_entries {mtd} (dev : yaffs_Device mtd) m tn ws pos val :
  tnode_wf dev -> tnodes m !! tn = Some ws -> tnode_ok dev ws -> 0 <= pos < 2 ^ 32 -> in_w 32 val ->
  exists m', yaffs_PutLevel0Tnode dev m tn pos val = Some m' /\
    (forall pos', 0 <= pos' < 2 ^ 32 ->
       yaffs_GetChunkGroupBase dev m' tn pos' =
       if pos' mod 16 =? pos mod 16 then Some (group_base dev val) else yaffs_GetChunkGroupBase dev m tn pos') /\
    (forall a, a <> tn -> tnodes m' !! a = tnodes m !! a).
Proof.
  intros Hw Hl Hok Hp Hv. unfold yaffs_PutLevel0Tnode, yaffs_GetChunkGroupBase. rewrite Hl. cbn [mbind option_bind].
  pose proof (tnode_ok_fit dev ws Hw Hok) as Hfit. rewrite !u32_small by done.
  destruct (put_entry_entry dev ws pos val Hw (ok_words _ _ Hok) Hfit ltac:(lia) Hv) as (ws' & -> & Hlen & H32 & He).
  cbn [mbind option_bind]. eexists. split; [done|]. split.
  - intros pos' Hp'. rewrite !u32_small by done. simpl tnodes. rewrite lookup_insert_eq. cbn [mbind option_bind].
    assert (entries_fit dev ws') as Hfit' by (unfold entries_fit, blen in *; lia).
    destruct (entry_range dev ws' pos' Hw H32 Hfit') as [-> _]; [lia|]. rewrite He by lia. case_match; [done|].
    by destruct (entry_range dev ws pos' Hw (ok_words _ _ Hok) Hfit) as [-> _]; [lia|].
  - intros a Ha. simpl. by rewrite lookup_insert_ne.
Qed.

Section Files.
Context {mtd : Type} (ops : nand_ops mtd) (tempBuffer : list Z) (localTags : yaffs_ExtendedTags).
Context (YMALLOC : tnode_memory -> Z -> Z) {Alloc : Allocator YMALLOC} (uninitialised : Z -> Z).
Implicit Types (dev : yaffs_Device mtd) (free : list Z) (s : gset Z).

(** Another file keeps its tree, and its tnodes are still its own. *)
Lemma advances_other dev m s free dev' m' s' free' l p s2 f2 :
  advances dev m s free dev' m' s' free' -> tree dev (tnodes m) l p s2 f2 -> s2 ## s ∪ list_to_set free ->
  tree dev' (tnodes m') l p s2 f2 /\ s2 ## s' ∪ list_to_set free'.
Proof.
  intros [Hc Ht] H Hd. assert (s2 ⊆ dom (tnodes m)) as Hs by (intros a Ha; by eapply tree_dom). split.
  - apply (tree_counters dev); [done|]. eapply tree_frame; [done|]. intros a Ha. by eapply transfers_agree.
  - by eapply transfers_disjoint.
Qed.

(** Whether the chunk is marked in use. *)
Definition chunk_used dev (c : Z) : option bool :=
  yaffs_CheckChunkBit dev (Z.quot c (nChunksPerBlock dev)) (Z.rem c (nChunksPerBlock dev)).

(** C11: The tree of tnodes of a file refines a map from its chunks to chunks of the device.
    Provided that the tree is tall enough for the chunk or there is memory for the six tnodes
    that it may grow by, yaffs_PutChunkIntoFile, which grows the tree and fills in missing
    tnodes from the pool or from freshly allocated memory, either updates that map at one chunk,
    or returns YAFFS_FAIL and leaves the map as it is, which it does only when there is no
    memory for twelve tnodes. yaffs_FindChunkInFile then reads the map for every chunk number.
    The trees of all other files keep their tnodes and their maps. *)
Theorem put_chunk_then_find dev m free obj s f k c :
  file_ok dev m free (fileVariant obj) s f -> variantType obj = YAFFS_OBJECT_TYPE_FILE ->
  0 <= k <= YAFFS_MAX_CHUNK_ID -> in_w 32 c ->
  k < capacity (Z.to_nat (topLevel (fileVariant obj))) \/ enough YMALLOC dev m free 6 0 ->
  exists r dev' m' obj' free' s' f',
    yaffs_PutChunkIntoFile ops tempBuffer localTags YMALLOC uninitialised dev m obj k c 0 = Some (r, dev', m', obj') /\
    ((r = YAFFS_OK /\ f' = put_at f k (group_base dev c) /\ nDataChunks obj' = nDataChunks obj + b2z (f k =? 0)) \/
     (r = YAFFS_FAIL /\ f' = f /\ nDataChunks obj' = nDataChunks obj /\ ~ enough YMALLOC dev m free 12 0)) /\
    file_ok dev' m' free' (fileVariant obj') s' f' /\
    (forall l p s2 f2, tree dev (tnodes m) l p s2 f2 -> s2 ## s ∪ list_to_set free ->
       tree dev' (tnodes m') l p s2 f2 /\ s2 ## s' ∪ list_to_set free') /\
    (forall j used, 0 <= j <= YAFFS_MAX_CHUNK_ID -> chunkGroupSize dev = 1 -> 0 <= f' j < 2 ^ 31 ->
       (f' j <> 0 -> chunk_used dev (f' j) = Some used) ->
       yaffs_FindChunkInFile ops localTags dev' m' obj' j None =
       Some (if negb (f' j =? 0) && used then f' j else -1, localTags, dev')).
Proof.
  intros Hf Hty Hk Hc He.
  destruct (PutChunkIntoFile_spec ops tempBuffer localTags YMALLOC uninitialised dev m free obj s f k c Hf Hty Hk Hc He)
    as (r & dev' & m' & obj' & free' & s' & E & A & Hcase & _ & _).
  set (f' := if r =? YAFFS_OK then put_at f k (group_base dev c) else f).
  assert (file_ok dev' m' free' (fileVariant obj') s' f') as Hf'.
  { unfold f'. by destruct Hcase as [(-> & H & _)|(-> & H & _)]. }
  exists r, dev', m', obj', free', s', f'. split; [done|]. split_and!.
  - unfold f'. destruct Hcase as [(-> & _ & Hn)|(-> & _ & Hn & Hm)]; [left|right]; done.
  - done.
  - intros l p s2 f2. by apply advances_other.
  - intros j used Hj Hg H31 Hu. apply (FindChunkInFile_spec ops localTags dev' m' free' obj' s' f' j None used); try done;
      destruct (proj1 A) as (x & y & z & ->); done.
Qed.


(** C19: On a device with 16-bit tnode entries yaffs_PruneFileStructure keeps the map of a file from
    its chunks to chunks of the device, gives the tnodes it removes back to the pool, and lowers
    the tree as far as it can: a chunk that needs the height of the tree is left in it. *)
Theorem prune_keeps_chunks dev m free fs s f :
  file_ok dev m free fs s f -> tnodeWidth dev = 16 ->
  exists dev' m' p l free' s', let fs' := fs <| top := p |> <| topLevel := l |> in
    yaffs_PruneFileStructure dev m fs = Some (YAFFS_OK, dev', m', fs') /\ file_ok dev' m' free' fs' s' f /\
    advances dev m s free dev' m' s' free' /\ l <= topLevel fs /\
    (0 < l -> ~ forall k, capacity (Z.to_nat l - 1) <= k -> f k = 0).
Proof.
  intros Hf Hw. pose proof (fun k => narrow_pruned dev m free fs s f k Hf Hw) as Ef.
  destruct (PruneFileStructure_spec dev m free fs s f Hf) as (dev' & m' & p & l & free' & s' & E & Hf' & A & Hl & Hs).
  exists dev', m', p, l, free', s'. split; [done|]. split; [by apply (file_ext _ _ _ _ _ (pruned dev false f))|]. split; [done|]. split; [done|].
  intros Hl' Hall. apply (Hs Hl'). intros k Hk. rewrite Ef. by apply Hall.
Qed.

(** C24: For every file and every width of its tnode entries, yaffs_PruneFileStructure ends, and a
    chunk in use that yaffs_FindChunkInFile found before is lost exactly when its level 0 tnode
    is not the first one and all of its entries are outside the eight words that the code tests
    for data, which needs entries of more than 16 bits. The tree stays well formed and maps
    every other chunk as before. *)
Theorem prune_wide_loses_chunk dev m free obj s f k :
  file_ok dev m free (fileVariant obj) s f -> 0 <= k <= YAFFS_MAX_CHUNK_ID ->
  chunkGroupSize dev = 1 -> 0 < f k < 2 ^ 31 -> chunk_used dev (f k) = Some true ->
  yaffs_FindChunkInFile ops localTags dev m obj k None = Some (f k, localTags, dev) /\
  exists dev' m' fs' free' s',
    yaffs_PruneFileStructure dev m (fileVariant obj) = Some (YAFFS_OK, dev', m', fs') /\
    file_ok dev' m' free' fs' s' (pruned dev false f) /\
    yaffs_FindChunkInFile ops localTags dev' m' (obj <| fileVariant := fs' |>) k None =
    Some (if (16 <=? k) && blind dev (fun pos => f (k / 16 * 16 + pos)) then -1 else f k, localTags, dev').
Proof.
  intros Hf Hk Hg H31 Hu.
  destruct (PruneFileStructure_spec dev m free (fileVariant obj) s f Hf) as (dev' & m' & p & l & free' & s' & E & Hf' & A & _).
  split.
  - rewrite (FindChunkInFile_spec ops localTags dev m free obj s f k None true) by (done || lia).
    by rewrite (proj2 (Z.eqb_neq _ _)) by lia.
  - eexists dev', m', _, free', s'. split; [exact E|]. split; [exact Hf'|].
    assert (pruned dev false f k = if (16 <=? k) && blind dev (fun pos => f (k / 16 * 16 + pos)) then 0 else f k) as Ef by done.
    rewrite (FindChunkInFile_spec ops localTags dev' m' free' _ s' (pruned dev false f) k None true).
    + rewrite Ef. case_match; [done|]. by rewrite (proj2 (Z.eqb_neq _ _)) by lia.
    + exact Hf'.
    + done.
    + by destruct (proj1 A) as (x & y & z & ->).
    + rewrite Ef. case_match; lia.
    + rewrite Ef. case_match; [done|]. intros _. by destruct (proj1 A) as (x & y & z & ->).
Qed.




End Files.

(** ** Examples *)

(** An allocator that gives the memory above the blocks in use. *)
Definition blocks_end (b : gmap Z Z) : Z := map_fold (fun p k a => Z.max a (p + k)) 4096 b.

Definition bump (m : tnode_memory) (n : Z) : Z :=
  let a := blocks_end (blocks m) in
  if (0 <=? n) && (a + n <=? 2 ^ 32) then a else 0.

Lemma blocks_end_above (b : gmap Z Z) : 4096 <= blocks_end b /\ forall p k, b !! p = Some k -> p + k <= blocks_end b.
Proof.
  apply (map_fold_weak_ind (fun a b => 4096 <= a /\ forall p k, b !! p = Some k -> p + k <= a)).
  - split; [done|]. intros p k. by rewrite lookup_empty.
  - intros p k b' a Hp [H0 H]. split; [lia|]. intros q j. destruct (decide (q = p)) as [->|].
    + rewrite lookup_insert_eq. intros [= <-]. lia.
    + rewrite lookup_insert_ne by done. intros Hq. specialize (H q j Hq). lia.
Qed.

Lemma blocks_end_least (b : gmap Z Z) u : 4096 <= u -> (forall p k, b !! p = Some k -> p + k <= u) -> blocks_end b <= u.
Proof.
  intros Hu. apply (map_fold_weak_ind (fun a b => (forall p k, b !! p = Some k -> p + k <= u) -> a <= u)); [done|].
  intros p k b' a Hp IH H. apply Z.max_lub; [|apply H, lookup_insert_eq]. apply IH. intros q j Hq. apply H.
  rewrite lookup_insert_ne; [done|]. intros ->. congruence.
Qed.

#[export] Instance bump_alloc : Allocator bump.
Proof.
  refine {| ymalloc_room m := 2 ^ 32 - blocks_end (blocks m) |}; unfold bump; cbv zeta.
  - intros m n. destruct (blocks_end_above (blocks m)) as [H _]. case_match; lia.
  - intros m n p k. destruct (blocks_end_above (blocks m)) as [_ H]. case_match; [|done]. intros _ Hp. right. by apply H.
  - intros m n. case_match eqn:E; [|done]. rewrite andb_true_iff, !Z.leb_le in E. lia.
  - intros m n Hn. destruct (blocks_end_above (blocks m)) as [H _]. rewrite !(proj2 (Z.leb_le _ _)) by lia. simpl. lia.
  - intros m m' n Hn. destruct (blocks_end_above (blocks m)) as [H0 H]. case_match; [|done]. intros _ ->.
    assert (blocks_end (<[blocks_end (blocks m) := n]> (blocks m)) <= blocks_end (blocks m) + n); [|lia].
    apply blocks_end_least; [lia|]. intros p k [[<- <-]|[_ Hp]]%lookup_insert_Some; [lia|]. specialize (H p k Hp). lia.
  - by intros m m' ->.
Defined.

(** No memory at all. *)
Definition starved (m : tnode_memory) (n : Z) : Z := 0.

#[export] Instance starved_alloc : Allocator starved.
Proof. refine {| ymalloc_room m := 0 |}; unfold starved; try done. lia. Defined.

(** The function of a file of one level 0 tnode. *)
Definition leaf_fun {mtd} (dev : yaffs_Device mtd) (ws : list Z) : Z -> Z :=
  fun k => if (0 <=? k) && (k <? 16) then entry dev ws k else 0.

(** The device of the block manager with a chunk in use, and memory for one tnode. *)
Definition tn_dev : yaffs_Device nat :=
  used_dev <| tnodeWidth := 16 |> <| tnodeMask := 65535 |> <| chunkGroupSize := 1 |> <| nTnodesCreated := 1 |>.

(** A level 0 tnode with the entries [w0] in its first word and [w1] in the second. *)
Definition leaf_words (w0 w1 : Z) : list Z := [w0; w1; 0; 0; 0; 0; 0; 0].

Definition leaf_store (ws : list Z) : tnode_memory := mk_tm {[4096 := ws]} {[4096 := 4 * blen ws]} 1 0 [].

Definition leaf_mem (w0 w1 : Z) : tnode_memory := leaf_store (leaf_words w0 w1).

Definition leaf_obj : yaffs_Object :=
  zero_object <| nDataChunks := 1 |> <| obj_objectId := 300 |> <| variantType := YAFFS_OBJECT_TYPE_FILE |> <| fileVariant := mk_fs 0 0 0 0 4096 |>.

Lemma tn_dev_wf : tnode_wf tn_dev.
Proof. split; try done. by exists 8. Qed.

Lemma leaf_tnode {mtd} (dev : yaffs_Device mtd) w0 w1 : tnodeWidth dev = 16 -> in_w 32 w0 -> in_w 32 w1 -> tnode_ok dev (leaf_words w0 w1).
Proof.
  intros Hw H0 H1. split; [|unfold tnode_size; by rewrite Hw]. unfold words32, leaf_words. repeat (apply Forall_cons_2; [done|]). apply Forall_nil_2.
Qed.

Lemma leaf_store_file {mtd} (dev : yaffs_Device mtd) ws :
  tnode_wf dev -> tnode_ok dev ws -> nFreeTnodes dev = 0 -> nTnodesCreated dev = 1 -> 4096 + 4 * blen ws <= 2 ^ 32 ->
  file_ok dev (leaf_store ws) [] (fileVariant leaf_obj) {[4096]} (leaf_fun dev ws).
Proof.
  intros Hwf Hok Hf Hc Hl. constructor; [done| | |by exists 4096].
  - constructor; [|right; split; [done|]; exists ws|clear; set_solver].
    + constructor; try done; [apply NoDup_nil_2|]. intros a Ha. exists 4096, (4 * blen ws).
      simpl in Ha. rewrite dom_singleton_L, elem_of_singleton in Ha. subst a. split; [done|].
      pose proof (tnode_size_words dev ws Hwf Hok). lia.
    + split; [done|]. split; [done|]. split; [done|]. intros k Hk. unfold leaf_fun.
      by rewrite (proj2 (Z.leb_le 0 k)), (proj2 (Z.ltb_lt k 16)) by lia.
  - intros k Hk. unfold leaf_fun. change (capacity (Z.to_nat (topLevel (fileVariant leaf_obj)))) with 16 in Hk.
    destruct (Z.leb_spec 0 k), (Z.ltb_spec k 16); simpl; done || lia.
Qed.

Lemma leaf_file_on {mtd} (dev : yaffs_Device mtd) w0 w1 :
  tnode_wf dev -> tnodeWidth dev = 16 -> nFreeTnodes dev = 0 -> nTnodesCreated dev = 1 -> in_w 32 w0 -> in_w 32 w1 ->
  file_ok dev (leaf_mem w0 w1) [] (fileVariant leaf_obj) {[4096]} (leaf_fun dev (leaf_words w0 w1)).
Proof. intros Hwf Hw Hf Hc H0 H1. apply leaf_store_file; try done. by apply leaf_tnode. Qed.

Lemma leaf_file w0 w1 : in_w 32 w0 -> in_w 32 w1 ->
  file_ok tn_dev (leaf_mem w0 w1) [] (fileVariant leaf_obj) {[4096]} (leaf_fun tn_dev (leaf_words w0 w1)).
Proof. apply leaf_file_on; try done. apply tn_dev_wf. Qed.

(** A device with wide tnodes, an empty file on it, and what is left after its chunk 31 is put. *)
Definition wide_dev : yaffs_Device nat :=
  used_dev <| tnodeWidth := 18 |> <| tnodeMask := 262143 |> <| chunkGroupSize := 1 |> <| nTnodesCreated := 1 |>.

Definition wide_words : list Z := replicate 9 0.

Lemma wide_file : file_ok wide_dev (leaf_store wide_words) [] (fileVariant leaf_obj) {[4096]} (leaf_fun wide_dev wide_words).
Proof.
  apply leaf_store_file; try done; [split; try done; by exists 9|]. split; [|done]. unfold words32, wide_words.
  repeat (apply Forall_cons_2; [done|]). apply Forall_nil_2.
Qed.

(** ** Witnesses *)

Lemma mount_geometry_witness :
  exists ok dev2, tnode_geometry (small_dev 0) false = Some (ok, dev2) /\ tnode_wf dev2 /\ chunkGroupBits dev2 = 0.
Proof.
  destruct (mount_geometry (small_dev 0) false) as (_ & ok & dev2 & E & Hw & Hg & _); [done|done|].
  exists ok, dev2. split; [exact E|]. split; [exact Hw|]. by apply Hg.
Defined.

Lemma level0_entries_witness :
  exists m', yaffs_PutLevel0Tnode tn_dev (leaf_mem 262144 327684) 4096 2 9 = Some m' /\
    yaffs_GetChunkGroupBase tn_dev m' 4096 2 = Some 9 /\ yaffs_GetChunkGroupBase tn_dev m' 4096 3 = Some 5.
Proof.
  destruct (level0_entries tn_dev (leaf_mem 262144 327684) 4096 (leaf_words 262144 327684) 2 9 tn_dev_wf) as (m' & E & H & _).
  - done.
  - split; [|done]. unfold words32, leaf_words. repeat (apply Forall_cons_2; [done|]). apply Forall_nil_2.
  - done.
  - done.
  - exists m'. split; [exact E|]. rewrite !H by done. split; vm_compute; reflexivity.
Defined.

Lemma put_chunk_then_find_witness :
  exists dev' m' obj', yaffs_PutChunkIntoFile worn1_ops small_data yaffs_InitialiseTags bump (fun _ => 0) tn_dev
      (leaf_mem 262144 0) leaf_obj 2 4 0 = Some (YAFFS_OK, dev', m', obj') /\
    yaffs_FindChunkInFile worn1_ops yaffs_InitialiseTags dev' m' obj' 2 None = Some (4, yaffs_InitialiseTags, dev').
Proof.
  destruct (put_chunk_then_find worn1_ops small_data yaffs_InitialiseTags bump (fun _ => 0) tn_dev (leaf_mem 262144 0) [] leaf_obj
    {[4096]} (leaf_fun tn_dev (leaf_words 262144 0)) 2 4) as (r & dev' & m' & obj' & free' & s' & f' & E & Hcase & _ & _ & Hfind).
  - by apply leaf_file.
  - done.
  - done.
  - done.
  - by left.
  - assert (r = YAFFS_OK) as ->.
    { assert (fst <$> (fst <$> (fst <$> yaffs_PutChunkIntoFile worn1_ops small_data yaffs_InitialiseTags bump (fun _ => 0) tn_dev
        (leaf_mem 262144 0) leaf_obj 2 4 0)) = Some YAFFS_OK) as Er by (vm_compute; reflexivity).
      rewrite E in Er. by injection Er. }
    destruct Hcase as [(_ & -> & _)|(? & _)]; [|done]. exists dev', m', obj'. split; [exact E|].
    apply (Hfind 2 true); [done|done| |intros _]; vm_compute; done.
Defined.



(** A file whose tree is taller than it need be. *)
Definition tall_mem : tnode_memory :=
  mk_tm (<[8192 := [4096; 0; 0; 0; 0; 0; 0; 0]]> {[4096 := leaf_words 262144 0]}) (<[8192 := 32]> {[4096 := 32]}) 2 0 [].

Definition tall_dev : yaffs_Device nat := tn_dev <| nTnodesCreated := 2 |>.

Definition tall_fs : yaffs_FileStructure := mk_fs 0 0 0 1 8192.

Lemma tall_file : file_ok tall_dev tall_mem [] tall_fs {[8192; 4096]} (leaf_fun tn_dev (leaf_words 262144 0)).
Proof.
  assert (tnode_wf tall_dev) as Hw by (split; try done; by exists 8).
  assert (tree tall_dev (tnodes tall_mem) 0 4096 {[4096]} (leaf_fun tn_dev (leaf_words 262144 0))) as Hleaf.
  { eapply (tree_frame tall_dev (tnodes (leaf_mem 262144 0))); [|intros a ->%elem_of_singleton; vm_compute; reflexivity].
    eapply (tree_widths tn_dev); [split_and!; vm_compute; reflexivity|].
    destruct (leaf_file 262144 0) as [_ [_ Ht _] _ _]; [done..|]. exact Ht. }
  constructor; [done| | |by exists 4096].
  - constructor; [| |clear; set_solver].
    + constructor; try done; [apply NoDup_nil_2|]. intros a Ha.
      assert (a = 8192 \/ a = 4096) as [-> | ->] by (unfold tall_mem in Ha; simpl in Ha; set_solver).
      * by exists 8192, 32.
      * by exists 4096, 32.
    + right. split; [done|]. eexists. split; [vm_compute; reflexivity|]. split.
      { split; [|done]. repeat (apply Forall_cons_2; [done|]). apply Forall_nil_2. }
      exists (fun i => if i =? 0 then {[4096]} else ∅). split_and!.
      * intros a. split.
        -- intros [->%elem_of_singleton|Ha]%elem_of_union; [by left|]. right. exists 0. by split.
        -- intros [->|(i & Hi & Ha)]; [set_solver|]. destruct (i =? 0); set_solver.
      * intros i Hi. destruct (i =? 0); set_solver.
      * intros i j Hi Hj Hne. destruct (Z.eqb_spec i 0), (Z.eqb_spec j 0); try lia; set_solver.
      * intros i Hi. destruct (Z.eqb_spec i 0) as [->|].
        -- exists 4096. split; [done|]. eapply tree_ext; [exact Hleaf|]. intros k _. by rewrite part_0.
        -- exists 0. split.
           ++ rewrite get_nonneg by lia. destruct (Z.to_nat i) as [|[|[|[|[|[|[|[|j]]]]]]]] eqn:En; try lia; done.
           ++ apply tree_null. intros k Hk. unfold part, leaf_fun. change (capacity 0) with 16 in *.
              rewrite (proj2 (Z.ltb_ge _ 16)) by lia. by rewrite andb_false_r.
  - intros k Hk. unfold leaf_fun. change (capacity (Z.to_nat (topLevel tall_fs))) with 128 in Hk.
    destruct (Z.leb_spec 0 k), (Z.ltb_spec k 16); simpl; done || lia.
Qed.

Lemma prune_keeps_chunks_witness :
  exists dev' m' fs', yaffs_PruneFileStructure tall_dev tall_mem tall_fs = Some (YAFFS_OK, dev', m', fs') /\ topLevel fs' = 0.
Proof.
  destruct (prune_keeps_chunks tall_dev tall_mem [] tall_fs _ _ tall_file) as (dev' & m' & p & l & free' & s' & E & _ & _ & Hl & Hm);
    [done|].
  eexists dev', m', _. split; [exact E|]. change (l = 0).
  assert ((fun r => topLevel r.2) <$> yaffs_PruneFileStructure tall_dev tall_mem tall_fs = Some 0) as E0 by (vm_compute; reflexivity).
  rewrite E in E0. by injection E0.
Defined.

Lemma prune_wide_loses_chunk_witness :
  exists dev m obj, yaffs_FindChunkInFile worn1_ops yaffs_InitialiseTags dev m obj 31 None = Some (4, yaffs_InitialiseTags, dev) /\
    exists dev' m' fs', yaffs_PruneFileStructure dev m (fileVariant obj) = Some (YAFFS_OK, dev', m', fs') /\
      yaffs_FindChunkInFile worn1_ops yaffs_InitialiseTags dev' m' (obj <| fileVariant := fs' |>) 31 None =
      Some (-1, yaffs_InitialiseTags, dev').
Proof.
  destruct (PutChunkIntoFile_spec worn1_ops small_data yaffs_InitialiseTags bump (fun _ => 0) wide_dev (leaf_store wide_words) []
    leaf_obj {[4096]} (leaf_fun wide_dev wide_words) 31 4) as (r & dev & m & obj & free & s & E & A & Hcase & _); [apply wide_file|done..| |].
  { right. vm_compute. done. }
  assert (fst <$> (fst <$> (fst <$> yaffs_PutChunkIntoFile worn1_ops small_data yaffs_InitialiseTags bump (fun _ => 0) wide_dev
    (leaf_store wide_words) leaf_obj 31 4 0)) = Some YAFFS_OK) as Er by (vm_compute; reflexivity).
  rewrite E in Er. injection Er as ->. destruct Hcase as [(_ & Hf & _)|(? & _)]; [|done].
  destruct (proj1 A) as (x & y & z & ->).
  destruct (prune_wide_loses_chunk worn1_ops yaffs_InitialiseTags _ m free obj s _ 31 Hf) as (F1 & dev' & m' & fs' & free' & s' & P & _ & F2).
  - vm_compute. split; discriminate.
  - vm_compute. reflexivity.
  - vm_compute. split; reflexivity.
  - vm_compute. reflexivity.
  - eexists _, m, obj. split; [exact F1|]. exists dev', m', fs'. split; [exact P|exact F2].
Defined.

