(* ===== verification/YaffsObjectsSpec.v ===== *)
(** * Objects are created and freed

    A new object gets a number that no other object has, is found by it, is a child of its directory, and leaves the other
    objects as they are; once it is out of its directory, freeing it brings the table and the directories back. *)

From stdpp Require Import list.
From S2P Require Import Prelude NandEcc NandEccFacts YaffsTags YaffsTagsFacts YaffsNand.
From S2P Require Import YaffsBlocks YaffsTnodes YaffsTnodesFacts YaffsTnodesPool YaffsTnodesTree YaffsTnodesAdd YaffsTnodesSpec YaffsObjects YaffsObjectsFacts YaffsObjectsMount YaffsObjectsDirs.

Local Open Scope Z_scope.

(** ** A new number *)

(** The counts of the buckets are below the one that the search starts with, and the numbers of a bucket are not used up. *)
Record small_buckets om : Prop := {
  sb_static : 0 <= nice_x om < 256;
  sb_counts : forall k b, objectBucket om !! k = Some b -> bucket_count b < 999999 /\ Z.of_nat (length (bucket_list b)) < 2 ^ 22
}.

Lemma nice_loop_spec n : forall om limit x l lowest,
  length (objectBucket om) = 256%nat -> 0 <= x < 256 ->
  exists x' l' lowest', nice_loop n om limit x l lowest = Some (x', l', lowest') /\ 0 <= x' < 256 /\ (0 <= l < 256 -> 0 <= l' < 256).
Proof.
  induction n as [|n IH]; intros om limit x l lowest Hlen Hx; cbn [nice_loop]; [by exists x, l, lowest|].
  destruct (limit <? lowest); [|by exists x, l, lowest]. unfold YAFFS_NOBJECT_BUCKETS. set (x1 := Z.rem (x + 1) 256).
  assert (0 <= x1 < 256) as Hx1 by (apply Z.rem_bound_pos; lia). destruct (lookup_lt_is_Some_2 (objectBucket om) (Z.to_nat x1)) as [b ->]; [lia|].
  cbn [mbind option_bind]. destruct (bucket_count b <? lowest).
  - destruct (IH om limit x1 x1 (bucket_count b) Hlen Hx1) as (x' & l' & lo & -> & H1 & H2). exists x', l', lo. split; [done|]. split; [done|]. intros _. by apply H2.
  - by apply IH.
Qed.

(** The first round finds a bucket. *)
Lemma nice_start n om x l :
  length (objectBucket om) = 256%nat -> small_buckets om -> 0 <= x < 256 ->
  exists x' l' lowest', nice_loop (S n) om 0 x l 999999 = Some (x', l', lowest') /\ 0 <= x' < 256 /\ 0 <= l' < 256.
Proof.
  intros Hlen Hs Hx. cbn [nice_loop]. change (0 <? 999999) with true. cbv iota. unfold YAFFS_NOBJECT_BUCKETS. set (x1 := Z.rem (x + 1) 256).
  assert (0 <= x1 < 256) as Hx1 by (apply Z.rem_bound_pos; lia). destruct (lookup_lt_is_Some_2 (objectBucket om) (Z.to_nat x1)) as [b Hb]; [lia|]. rewrite Hb. cbn [mbind option_bind].
  rewrite (proj2 (Z.ltb_lt _ _)) by apply (sb_counts _ Hs _ _ Hb). destruct (nice_loop_spec n om 0 x1 x1 (bucket_count b) Hlen Hx1) as (x2 & l2 & lo2 & E & H2 & L2).
  exists x2, l2, lo2. split; [exact E|]. split; [done|]. by apply L2.
Qed.

Lemma FindNiceObjectBucket_spec om :
  length (objectBucket om) = 256%nat -> small_buckets om ->
  exists k x, yaffs_FindNiceObjectBucket om = Some (k, om <| nice_x := x |>) /\ 0 <= k < 256.
Proof.
  intros Hlen Hs. unfold yaffs_FindNiceObjectBucket. destruct (nice_start 9 om (nice_x om) 999 Hlen Hs (sb_static _ Hs)) as (x2 & l2 & lo2 & -> & H2 & L2). cbn [mbind option_bind].
  destruct (nice_loop_spec 10 om 3 x2 l2 lo2 Hlen H2) as (x3 & l3 & lo3 & -> & _ & L3). exists l3, x3. split; [done|]. by apply L3.
Qed.

(** The numbers of the objects of a bucket. *)
Definition numbers_of om (l : list Z) : list Z := (fun a => from_option obj_objectId 0 (objects om !! a)) <$> l.

Lemma number_taken_spec om n l : (forall a, a ∈ l -> is_Some (objects om !! a)) -> number_taken l om n = Some (bool_decide (n ∈ numbers_of om l)).
Proof.
  induction l as [|a l IH]; intros Hl; cbn [number_taken]; [done|]. destruct (Hl a) as [o Ho]; [by apply elem_of_cons; left|]. unfold numbers_of. cbn [fmap list_fmap].
  rewrite Ho. cbn [mbind option_bind from_option]. rewrite IH by (intros b Hb; apply Hl, elem_of_cons; by right). cbn [mbind option_bind]. f_equal.
  fold (numbers_of om l). destruct (Z.eqb_spec (obj_objectId o) n) as [->|Hne]; cbn [orb].
  - symmetry. apply bool_decide_true, elem_of_cons. by left.
  - apply bool_decide_ext. rewrite elem_of_cons. split; [by right|]. by intros [->|].
Qed.

(** There are more rounds than objects, and every round that goes on has met another one. *)
Lemma new_number_spec om l fuel : forall n seen,
  (forall a, a ∈ l -> is_Some (objects om !! a)) -> NoDup seen -> seen ⊆ numbers_of om l -> (forall x, x ∈ seen -> x <= n) ->
  (fuel + length seen = S (length l))%nat -> 0 <= n -> n + 256 * Z.of_nat fuel < 2 ^ 31 ->
  exists n', new_number_loop fuel om l n = Some n' /\ n < n' < 2 ^ 31 /\ n' mod 256 = n mod 256 /\ n' ∉ numbers_of om l.
Proof.
  induction fuel as [|fuel IH]; intros n seen Hl Hnd Hsub Hle Hf Hn Hmax; cbn [new_number_loop].
  - pose proof (NoDup_incl_length (l := seen) (l' := numbers_of om l)) as Hlen. unfold numbers_of in *. rewrite length_fmap in Hlen.
    assert (length seen <= length l)%nat; [|lia]. apply Hlen; [by apply NoDup_ListNoDup|]. intros x Hx. apply list_elem_of_In, Hsub. by apply list_elem_of_In.
  - unfold YAFFS_NOBJECT_BUCKETS. rewrite u32_small by lia. rewrite number_taken_spec by done. cbn [mbind option_bind]. case_bool_decide as Ht.
    + destruct (IH (n + 256) (n + 256 :: seen)) as (n' & -> & H1 & H2 & H3); try done.
      * apply NoDup_cons. split; [|done]. intros Hin. apply Hle in Hin. lia.
      * intros x [->|Hx]%elem_of_cons; [done|by apply Hsub].
      * intros x [->|Hx]%elem_of_cons; [lia|]. apply Hle in Hx. lia.
      * simpl length. lia.
      * lia.
      * lia.
      * exists n'. split; [done|]. split; [lia|]. split; [|done]. rewrite H2. by rewrite <- (Z_mod_plus_full n 1 256).
    + exists (n + 256). split; [done|]. split; [lia|]. split; [|done]. by rewrite <- (Z_mod_plus_full n 1 256).
Qed.

Lemma bucket_of_mod n : number_ok n -> bucket_of n = Z.to_nat (n mod 256).
Proof.
  intros Hn. unfold number_ok in Hn. unfold bucket_of, yaffs_HashFunction, YAFFS_NOBJECT_BUCKETS. rewrite s32_small, Z.abs_eq by lia. by rewrite Z.rem_mod_nonneg by lia.
Qed.

Lemma CreateNewObjectNumber_spec om : table om -> small_buckets om ->
  exists n x, yaffs_CreateNewObjectNumber om = Some (n, om <| nice_x := x |>) /\ number_ok n /\ forall a o, objects om !! a = Some o -> obj_objectId o <> n.
Proof.
  intros Ht Hs. unfold yaffs_CreateNewObjectNumber. destruct (FindNiceObjectBucket_spec om (tb_size _ Ht) Hs) as (k & x & -> & Hk). cbn [mbind option_bind].
  change (objectBucket (om <| nice_x := x |>)) with (objectBucket om). destruct (lookup_lt_is_Some_2 (objectBucket om) (Z.to_nat k)) as [b Eb]; [rewrite (tb_size _ Ht); lia|].
  rewrite Eb. cbn [mbind option_bind]. destruct (sb_counts _ Hs _ _ Eb) as [_ Hlen].
  destruct (new_number_spec (om <| nice_x := x |>) (bucket_list b) (S (length (bucket_list b))) k []) as (n & -> & Hn & Hmod & Hnew); try lia.
  { intros a Ha. destruct (tb_bucket _ Ht _ _ a Eb Ha) as (o & Ho & _). by exists o. }
  { apply NoDup_nil_2. }
  { intros a ?%elem_of_nil. done. }
  { intros a ?%elem_of_nil. done. }
  { simpl length. lia. }
  cbn [mbind option_bind]. assert (number_ok n) as Hok by (unfold number_ok; lia). exists n, x. rewrite s32_small by lia. split; [done|]. split; [done|]. intros a o Ha <-.
  destruct (tb_hashed _ Ht a o Ha) as (b' & Eb' & Hin). rewrite bucket_of_mod, Hmod, (Z.mod_small k 256), Eb in Eb' by done. injection Eb' as <-.
  apply Hnew. unfold numbers_of. apply list_elem_of_fmap. exists a. split; [|done]. change (objects (om <| nice_x := x |>)) with (objects om). by rewrite Ha.
Qed.

(** ** Freeing an object *)

(** The object is out of its bucket. *)
Lemma Unhash_spec om a o : table om -> objects om !! a = Some o ->
  exists b b', objectBucket om !! bucket_of (obj_objectId o) = Some b /\ bucket_list b' = filter (fun c => c <> a) (bucket_list b) /\
    yaffs_UnhashObject om a = Some (om <| objectBucket ::= <[bucket_of (obj_objectId o) := b']> |>).
Proof.
  intros Ht Ha. destruct (tb_hashed _ Ht a o Ha) as (b & Eb & Hin). exists b, (b <| bucket_list ::= filter (fun c => c <> a) |> <| bucket_count ::= Z.pred |>).
  split; [done|]. split; [done|]. unfold yaffs_UnhashObject. rewrite Ha. cbn [mbind option_bind]. cbv zeta. fold (bucket_of (obj_objectId o)). rewrite Eb. cbn [mbind option_bind].
  rewrite bool_decide_true by done. rewrite (update_bucket_Some _ _ _ b Eb). cbn [mbind option_bind].
  rewrite (update_bucket_Some _ _ _ (b <| bucket_list ::= filter (fun c => c <> a) |>)).
  - match goal with |- Some ?x = Some ?y => change x with (om <| objectBucket := <[bucket_of (obj_objectId o) := b <| bucket_list ::= filter (fun c => c <> a) |> <| bucket_count ::= Z.pred |>]>
      (<[bucket_of (obj_objectId o) := b <| bucket_list ::= filter (fun c => c <> a) |>]> (objectBucket om)) |>) end.
    by rewrite list_insert_insert_eq.
  - apply list_lookup_insert_eq. change (bucket_of (obj_objectId o) < length (objectBucket om))%nat. rewrite (tb_size _ Ht). apply bucket_of_range.
Qed.

(** The table without an object. *)
Lemma table_delete om a o b b' : table om -> objects om !! a = Some o -> objectBucket om !! bucket_of (obj_objectId o) = Some b ->
  bucket_list b' = filter (fun c => c <> a) (bucket_list b) ->
  table (om <| objectBucket ::= <[bucket_of (obj_objectId o) := b']> |> <| objects ::= delete a |> <| freeObjects ::= cons a |>).
Proof.
  intros [Hs Hb Hh Hu Hn] Ha Eb Eb'. set (l := <[bucket_of (obj_objectId o) := b']> (objectBucket om)). assert (bucket_of (obj_objectId o) < 256)%nat by apply bucket_of_range.
  constructor; match goal with |- context [om <| objectBucket ::= ?f |> <| objects ::= delete a |> <| freeObjects ::= cons a |>] =>
      change (objects (om <| objectBucket ::= f |> <| objects ::= delete a |> <| freeObjects ::= cons a |>)) with (delete a (objects om));
      change (objectBucket (om <| objectBucket ::= f |> <| objects ::= delete a |> <| freeObjects ::= cons a |>)) with l end.
  - unfold l. by rewrite length_insert.
  - intros k b1 x Hk Hx. unfold l in Hk. destruct (decide (k = bucket_of (obj_objectId o))) as [->|Hne].
    + rewrite list_lookup_insert_eq in Hk by lia. injection Hk as <-. rewrite Eb' in Hx. apply list_elem_of_filter in Hx as [Hxa Hx]. rewrite lookup_delete_ne by done. by apply (Hb _ b).
    + rewrite list_lookup_insert_ne in Hk by done. destruct (Hb k b1 x Hk Hx) as (ox & Hox & E). exists ox. split; [|done]. rewrite lookup_delete_ne; [done|]. intros <-. congruence.
  - intros x ox [Hxa Hx]%lookup_delete_Some. destruct (Hh x ox Hx) as (b1 & Eb1 & Hin). unfold l. destruct (decide (bucket_of (obj_objectId ox) = bucket_of (obj_objectId o))) as [E|Hne].
    + exists b'. rewrite E, list_lookup_insert_eq by lia. split; [done|]. rewrite Eb'. apply list_elem_of_filter. split; [done|]. rewrite E, Eb in Eb1. by injection Eb1 as <-.
    + exists b1. by rewrite list_lookup_insert_ne.
  - intros x y ox oy [_ Hx]%lookup_delete_Some [_ Hy]%lookup_delete_Some. by apply Hu.
  - intros x ox [_ Hx]%lookup_delete_Some. by apply (Hn x).
Qed.

(** An object that is in no directory, is none of the special directories and has no inode and no children. *)
Lemma FreeObject_spec {mtd} (dev : yaffs_Device mtd) m om a o :
  objects_ok m om -> objects om !! a = Some o -> parent o = 0 -> myInode o = 0 -> a ∉ [rootDir om; lostNFoundDir om; unlinkedDir om; deletedDir om] ->
  (forall x ox, objects om !! x = Some ox -> parent ox <> a) ->
  exists om', yaffs_FreeObject dev om a = Some (dev <| nFreeObjects ::= Z.succ |> <| nCheckpointBlocksRequired := 0 |>, om') /\
    objects_ok m om' /\ objects om' = delete a (objects om) /\ freeObjects om' = a :: freeObjects om /\ special_dirs om' = special_dirs om.
Proof.
  intros [Ht Hl Hp Hd Hlo Hnd Hf Hbl] Ha Hpar Hin Hsp Hch. unfold yaffs_FreeObject. rewrite Ha. cbn [mbind option_bind]. rewrite Hpar, Hin. change (truthy 0) with false. cbv iota.
  destruct (Unhash_spec om a o Ht Ha) as (b & b' & Eb & Eb' & ->). cbn [mbind option_bind]. eexists. split; [done|]. split; [|done].
  assert (forall d, is_directory (objects om) d -> d <> a -> is_directory (delete a (objects om)) d) as Hdir.
  { intros d (od & Hod & Hv) Hne. exists od. by rewrite lookup_delete_ne. }
  pose proof (table_delete om a o b b' Ht Ha Eb Eb') as Ht'.
  match goal with |- objects_ok m ?x => set (om' := x) in * end. constructor; try done; change (objects om') with (delete a (objects om)).
  - intros x ox [_ Hx]%lookup_delete_Some. by apply (Hl x).
  - intros x ox [_ Hx]%lookup_delete_Some Hne. apply Hdir; [by apply (Hp x)|]. by apply (Hch x).
  - intros d Hin' Hne. apply Hdir; [by apply Hd|]. intros ->. by apply Hsp.
  - apply NoDup_cons. split; [|done]. intros Hfa. apply Hf in Hfa. congruence.
  - intros x [->|Hx]%elem_of_cons; [apply lookup_delete_eq|]. apply lookup_delete_None. right. by apply Hf.
  - intros x [[->|Hx]%elem_of_cons|[ox [_ Hx]%lookup_delete_Some]]; apply Hbl; [by right|by left|by right].
Qed.

(** ** The life of an object *)

(** Objects with a number are found alike. *)
Lemma Find_same om om' k : table om -> table om' ->
  (forall x ox, objects om !! x = Some ox -> obj_objectId ox = k -> exists ox', objects om' !! x = Some ox' /\ same_core ox ox') ->
  (forall x ox', objects om' !! x = Some ox' -> obj_objectId ox' = k -> exists ox, objects om !! x = Some ox /\ same_core ox ox') ->
  yaffs_FindObjectByNumber om' k = yaffs_FindObjectByNumber om k.
Proof.
  intros Ht Ht' H1 H2. destruct (Find_spec om k Ht) as (r & -> & [(a & o & Ha & E & ->)|[-> Hno]]).
  - destruct (H1 a o Ha E) as (o' & Ha' & Ec). pose proof (core_fields _ _ Ec) as F. assert (obj_objectId o' = obj_objectId o) as E' by congruence.
    destruct (Find_spec om' k Ht') as (r' & -> & [(a2 & o2 & Ha2 & E2 & ->)|[_ Hno]]); [|by destruct (Hno a o' Ha'); congruence].
    assert (a2 = a) as -> by (apply (tb_unique _ Ht' a2 a o2 o'); congruence). rewrite Ha' in Ha2. injection Ha2 as <-. by assert (deferedFree o' = deferedFree o) as -> by congruence.
  - destruct (Find_spec om' k Ht') as (r' & -> & [(a2 & o2 & Ha2 & E2 & ->)|[-> _]]); [|done]. destruct (H2 a2 o2 Ha2 E2) as (o & Ho & Ec).
    pose proof (core_fields _ _ Ec) as F. destruct (Hno a2 o Ho). congruence.
Qed.

Section Life.
Context {mtd : Type} (YMALLOC : tnode_memory -> Z -> Z) {Alloc : Allocator YMALLOC} (uninitialised : Z -> Z).
Implicit Types (dev : yaffs_Device mtd) (m : tnode_memory) (om : object_memory) (free : list Z).

(** An object that was just made can be taken out of its directory and freed. *)
Lemma new_object_freed dev m om om' a o :
  objects_ok m om' -> objects om !! a = None -> a <> 0 -> special_dirs om' = special_dirs om ->
  (forall d, d ∈ [rootDir om; lostNFoundDir om; unlinkedDir om; deletedDir om] -> d <> 0 -> is_directory (objects om) d) ->
  (forall x ox, objects om !! x = Some ox -> parent ox <> 0 -> is_directory (objects om) (parent ox)) ->
  cores_but a (<[a := zero_object]> (objects om)) (objects om') -> objects om' !! a = Some o -> myInode o = 0 ->
  exists om2 dev3 om3, yaffs_RemoveObjectFromDirectory om' a = Some om2 /\ yaffs_FreeObject dev om2 a = Some (dev3, om3) /\ objects_ok m om3 /\
    freeObjects om3 = a :: freeObjects om' /\ same_cores (objects om) (objects om3) /\
    exists o2, objects om2 !! a = Some o2 /\ obj_objectId o2 = obj_objectId o /\ myInode o2 = 0.
Proof.
  intros Hok Hna Ha0 Hsp Hdirs Hpars Hc Ha Hin.
  assert (forall d, is_directory (objects om) d -> d <> a) as Hdir by (intros d (od & Hod & _) ->; congruence).
  destruct (Remove_spec om' a o Ha) as (t & c & E & C2 & Hta).
  { intros Hp. destruct (ob_parent _ _ Hok a o Ha Hp) as (d & Hd & _). by exists d. }
  set (om2 := om' <| objects := t |>) in *. assert (objects_ok m om2) as Hok2 by (by apply (objects_cores m om' t a o _ Hok C2 Ha Hta)).
  assert (cores_but a (<[a := zero_object]> (objects om)) t) as C3 by (by eapply cores_trans).
  assert (forall x ox, x <> a -> t !! x = Some ox -> exists o0, objects om !! x = Some o0 /\ same_core o0 ox) as Hback.
  { intros x ox Hne Hx. destruct (cores_lookup _ _ _ _ _ C3 Hne Hx) as (o0 & Ho0 & Ec). rewrite lookup_insert_ne in Ho0 by done. by exists o0. }
  destruct (FreeObject_spec dev m om2 a (o <| children := c |> <| parent := 0 |>)) as (om3 & E3 & Hok3 & Eo & Ef & _); [done|done|done|done|..].
  - change (a ∉ [rootDir om'; lostNFoundDir om'; unlinkedDir om'; deletedDir om']). injection Hsp as -> -> -> ->. intros Hd. by apply (Hdir a); [apply Hdirs|].
  - intros x ox Hx Hp. change (t !! x = Some ox) in Hx. destruct (decide (x = a)) as [->|Hne]; [rewrite Hta in Hx; injection Hx as <-; by apply Ha0|].
    destruct (Hback x ox Hne Hx) as (o0 & Ho0 & Ec). pose proof (core_fields _ _ Ec) as F. apply (Hdir (parent o0)); [apply (Hpars x o0 Ho0)|]; congruence.
  - exists om2, (dev <| nFreeObjects ::= Z.succ |> <| nCheckpointBlocksRequired := 0 |>), om3. split; [done|]. split; [done|]. split; [done|]. split; [exact Ef|].
    split; [|by exists (o <| children := c |> <| parent := 0 |>)]. intros x.
    rewrite Eo. change (objects om2) with t. destruct (decide (x = a)) as [->|Hne]; [rewrite lookup_delete_eq, Hna; constructor|]. rewrite lookup_delete_ne by done.
    destruct (objects om !! x) as [o0|] eqn:E0.
    + destruct (proj2 C3 x o0 Hne) as (ox & -> & Ec); [by rewrite lookup_insert_ne|]. by constructor.
    + destruct (t !! x) as [ox|] eqn:Et; [|constructor]. destruct (Hback x ox Hne Et) as (o0 & Ho0 & _). congruence.
Qed.

(** The lists with a new object. *)
Lemma new_lists dev m om n type a dev' m' om' :
  objects_ok m om -> listed (objects om) -> objects om !! a = None -> a <> 0 -> number_ok n ->
  yaffs_CreateNewObject YMALLOC uninitialised dev m om n type = Some (a, dev', m', om') ->
  exists b, objectBucket om !! bucket_of n = Some b /\ a ∉ bucket_list b /\ objectBucket om' = <[bucket_of n := hashed a b]> (objectBucket om) /\
    (forall e, kids (objects om') e = enter a (first_parent om) e <$> kids (<[a := zero_object]> (objects om)) e) /\
    (forall c, par (objects om') c = if decide (c = a) then Some (first_parent om) else par (objects om) c) /\
    first_parent om <> a /\ objects om !! 0 = None /\ listed (objects om').
Proof.
  intros Hok Hli Hna Ha0 Hn E. assert (objects om !! 0 = None) as H0.
  { destruct (objects om !! 0) eqn:E0; [|done]. destruct (ob_blocks _ _ Hok 0) as [? _]; [right; by eexists|lia]. }
  assert (forall d, d ∈ [rootDir om; lostNFoundDir om; unlinkedDir om; deletedDir om] -> d <> a) as Hd.
  { intros d Hin ->. destruct (ob_dirs _ _ Hok a Hin Ha0) as (od & Hod & _). congruence. }
  assert (rootDir om <> a) as Hr by (apply Hd; by apply elem_of_cons; left).
  assert (lostNFoundDir om <> a) as Hlf by (apply Hd; apply elem_of_cons; right; by apply elem_of_cons; left).
  assert (first_parent om <> a) as Hfp by (unfold first_parent; by case_match).
  destruct (CreateNewObject_lists YMALLOC uninitialised dev m om n type a dev' m' om' Hli H0 Hna Ha0 Hr Hlf Hn E) as ((b & Eb & Ebs) & K & P).
  exists b. split_and!; try done.
  - intros Hin. destruct (tb_bucket _ (ob_table _ _ Hok) _ b a Eb Hin) as (oa & Hoa & _). congruence.
  - apply (created_listed om om' a); try done. intros c Hc. unfold par in Hc. destruct (objects om !! c) as [oc|] eqn:Ec; [|done]. injection Hc as Hc.
    destruct (ob_parent _ _ Hok c oc Ec) as (od & Hod & _); congruence.
Qed.

(** C15: yaffs_CreateNewObject with a negative number, when there is memory, ends with a new object
    in lost+found (or in the root directory when there is no lost+found) whose number no other
    object has, which yaffs_FindObjectByNumber finds by it, and which has an empty tree when it
    is a file. It is added to the children of that directory and no other list of children
    changes; every other number is looked up as before; and the table of objects, the counts of
    its buckets, the agreement of parents and children and the pools stay in order. When the
    object is taken out of its directory and freed again, all of them stay in order, it is the
    next object to be reused, and the children of every directory, the buckets with their counts
    and the result of every look-up are what they were before. *)
Theorem object_created_and_freed dev m free om type :
  objects_ok m om -> lists_ok om -> pool dev m free -> small_buckets om -> budget YMALLOC dev m free om (file_tnodes type) 1 ->
  exists a n o dev' m' om' free', yaffs_CreateNewObject YMALLOC uninitialised dev m om (-1) type = Some (a, dev', m', om') /\
    objects_ok m' om' /\ lists_ok om' /\ pool dev' m' free' /\ (forall x ox, objects om !! x = Some ox -> obj_objectId ox <> n) /\
    yaffs_FindObjectByNumber om' n = Some a /\ objects om' !! a = Some o /\ variantType o = type /\ parent o = first_parent om /\
    (type = YAFFS_OBJECT_TYPE_FILE -> exists s, file_ok dev' m' free' (fileVariant o) s (fun _ => 0)) /\
    (forall k, k <> n -> yaffs_FindObjectByNumber om' k = yaffs_FindObjectByNumber om k) /\
    (forall d, d <> a -> kids (objects om') d = enter a (first_parent om) d <$> kids (objects om) d) /\
    exists om2 dev3 om3, yaffs_RemoveObjectFromDirectory om' a = Some om2 /\ yaffs_FreeObject dev' om2 a = Some (dev3, om3) /\
      objects_ok m' om3 /\ lists_ok om3 /\ freeObjects om3 = a :: freeObjects om' /\
      (forall k, yaffs_FindObjectByNumber om3 k = yaffs_FindObjectByNumber om k) /\
      (forall d, kids (objects om3) d = kids (objects om) d) /\ objectBucket om3 = objectBucket om.
Proof.
  intros Hok [Hli Hco] Hp Hs Hb. destruct (CreateNewObjectNumber_spec om (ob_table _ _ Hok) Hs) as (n & x & En & Hn & Hnew). set (om1 := om <| nice_x := x |>) in *.
  assert (objects_ok m om1) as Hok1 by (by destruct Hok as [[] ? ? ? ? ? ? ?]).
  destruct (CreateNewObject_spec YMALLOC uninitialised dev m free om1 n type 0 0 Hok1 Hp Hn Hnew) as (a & o & tn & dev' & m' & om' & free' & s & E & Ha0 & Hna & Hc & Ha & No & Hok' & Hsp & _ & Hp' & _ & _ & _ & Hfile & _).
  { by rewrite Nat.add_0_r. }
  change (objects om !! a = None) in Hna. change (cores_but a (<[a := zero_object]> (objects om)) (objects om')) in Hc.
  destruct (new_lists dev m om1 n type a dev' m' om' Hok1 Hli Hna Ha0 Hn E) as (b & Eb & Hab & Ebs & Hk & Hpa & Hdiff & H0 & Hl').
  change (objects om1) with (objects om) in *. change (objectBucket om1) with (objectBucket om) in *. change (first_parent om1) with (first_parent om) in *.
  exists a, n, o, dev', m', om', free'. split.
  { unfold yaffs_CreateNewObject in *. change (-1 <? 0) with true. cbv iota. rewrite En. cbn [mbind option_bind]. rewrite (proj2 (Z.ltb_ge n 0)) in E by (unfold number_ok in Hn; lia). exact E. }
  split; [done|]. split; [split; [done|]; rewrite Ebs; by apply counted_hashed|]. split; [done|]. split; [done|].
  split; [rewrite <- (new_number _ _ _ _ _ No); apply (Find_found om' a o (ob_table _ _ Hok') Ha), No|].
  split; [done|]. split; [apply No|]. split; [apply No|]. split; [intros Ht; exists s; by apply Hfile|]. split; [|split].
  - intros k Hkn. apply (Find_same om om'); [apply Hok|apply Hok'|..].
    + intros y oy Hy _. apply (proj2 Hc); [intros ->; congruence|]. rewrite lookup_insert_ne; [done|]. intros <-. congruence.
    + intros y oy Hy Ey. destruct (decide (y = a)) as [->|Hne]; [rewrite Ha in Hy; injection Hy as <-; destruct Hkn; rewrite <- Ey; apply No|].
      destruct (cores_lookup _ _ _ _ _ Hc Hne Hy) as (o0 & Ho0 & Ec). rewrite lookup_insert_ne in Ho0 by done. by exists o0.
  - by apply created_kids.
  - destruct (new_object_freed dev' m' om om' a o) as (om2 & dev3 & om3 & E2 & E3 & Hok3 & Ef & Hsame & o2 & Ho2 & En2 & Hi2); try done; [apply Hok|apply Hok|apply No|].
    rewrite (new_number _ _ _ _ _ No) in En2. rewrite <- En2 in Eb, Ebs.
    destruct (freed_lists om om' a Hli Hna H0 Hdiff Hk Hpa dev' dev3 om2 om3 o2 b) as (K3 & P3 & B3); [done..|].
    exists om2, dev3, om3. do 3 (split; [done|]). split; [split; [by apply (listed_ext (objects om))|by rewrite B3]|]. split; [done|]. split; [|done].
    intros k. apply (Find_same om om3); [apply Hok|apply Hok3|..].
    + intros y oy Hy _. by apply (same_cores_lookup (objects om)).
    + intros y oy Hy _. by apply (same_cores_back (objects om) (objects om3)).
Qed.

End Life.

(** ** A file system with a root directory only *)

Definition root_object : yaffs_Object := zero_object <| obj_objectId := YAFFS_OBJECTID_ROOT |> <| variantType := YAFFS_OBJECT_TYPE_DIRECTORY |>.

Definition root_memory : object_memory :=
  mk_om {[8192 := root_object]} [] [] (<[1%nat := mk_bucket [8192] 1]> (replicate 256 (mk_bucket [] 0))) 8192 0 0 0 0.

Definition root_tnodes : tnode_memory := mk_tm ∅ {[8192 := 108]} 0 0 [].

Definition root_dev : yaffs_Device nat := tn_dev <| nFreeTnodes := 0 |> <| nTnodesCreated := 0 |>.

Lemma root_lookup a o : objects root_memory !! a = Some o -> a = 8192 /\ o = root_object.
Proof. intros H. change (({[8192 := root_object]} : object_store) !! a = Some o) in H. by apply lookup_singleton_Some in H as [<- <-]. Qed.

Lemma root_bucket k b : objectBucket root_memory !! k = Some b -> (k = 1%nat /\ b = mk_bucket [8192] 1) \/ b = mk_bucket [] 0.
Proof.
  intros H. change (<[1%nat := mk_bucket [8192] 1]> (replicate 256 (mk_bucket [] 0)) !! k = Some b) in H.
  apply list_lookup_insert_Some in H as [(<- & <- & _)|[_ H]]; [by left|]. apply lookup_replicate in H as [-> _]. by right.
Qed.

Lemma root_table : table root_memory.
Proof.
  constructor.
  - done.
  - intros k b a [[-> ->]| ->]%root_bucket Ha; [|by apply elem_of_nil in Ha]. apply elem_of_cons in Ha as [->|?%elem_of_nil]; [|done].
    exists root_object. split; [apply lookup_singleton_eq|done].
  - intros a o [-> ->]%root_lookup. exists (mk_bucket [8192] 1). split; [done|]. by apply elem_of_cons; left.
  - by intros a a' o o' [-> ->]%root_lookup [-> ->]%root_lookup.
  - by intros a o [-> ->]%root_lookup.
Qed.

Lemma root_objects : objects_ok root_tnodes root_memory.
Proof.
  constructor; try done.
  - apply root_table.
  - by intros a o [-> ->]%root_lookup.
  - by intros a o [-> ->]%root_lookup.
  - intros d Hd Hne. exists root_object. split; [|done]. change [rootDir root_memory; _; _; _] with [8192; 0; 0; 0] in Hd.
    apply elem_of_cons in Hd as [->|Hd]; [apply lookup_singleton_eq|]. exfalso. set_solver.
  - apply NoDup_nil_2.
  - intros a ?%elem_of_nil. done.
  - intros a [?%elem_of_nil|[o [-> _]%root_lookup]]; [done|]. split; [done|]. exists 8192, 108. split; [apply lookup_singleton_eq|done].
Qed.

Lemma root_lists : lists_ok root_memory.
Proof.
  split.
  - intros d l _ Hl. unfold kids in Hl. destruct (objects root_memory !! d) as [od|] eqn:Ed; [|done]. apply root_lookup in Ed as [-> ->]. injection Hl as <-.
    split; [apply NoDup_nil_2|]. intros c. split; [by intros ?%elem_of_nil|]. unfold par. destruct (objects root_memory !! c) as [oc|] eqn:Ec; [|done].
    by apply root_lookup in Ec as [-> ->].
  - intros k b [[-> ->]| ->]%root_bucket; (split; [|done]); [apply NoDup_singleton|apply NoDup_nil_2].
Qed.

Lemma object_created_and_freed_witness :
  exists a dev' m' om', yaffs_CreateNewObject bump (fun _ => 0) root_dev root_tnodes root_memory (-1) YAFFS_OBJECT_TYPE_FILE = Some (a, dev', m', om') /\
    yaffs_FindObjectByNumber om' YAFFS_OBJECTID_ROOT = Some 8192 /\ objects_ok m' om' /\ kids (objects om') 8192 = Some [a].
Proof.
  destruct (object_created_and_freed bump (fun _ => 0) root_dev root_tnodes [] root_memory YAFFS_OBJECT_TYPE_FILE)
    as (a & n & o & dev' & m' & om' & free' & E & Hok & _ & _ & Hnew & _ & _ & _ & _ & _ & Hfind & Hk & _).
  - apply root_objects.
  - apply root_lists.
  - exact (fresh_pool tn_dev root_tnodes tn_dev_wf eq_refl).
  - constructor; [done|]. by intros k b [[-> ->]| ->]%root_bucket.
  - split; [done|]. vm_compute. discriminate.
  - exists a, dev', m', om'. split; [exact E|]. split; [rewrite Hfind; [reflexivity|]; apply (Hnew 8192 root_object), lookup_singleton_eq|]. split; [done|].
    rewrite Hk; [reflexivity|]. intros <-. assert (fst <$> (fst <$> (fst <$> yaffs_CreateNewObject bump (fun _ => 0) root_dev root_tnodes root_memory (-1)
      YAFFS_OBJECT_TYPE_FILE)) <> Some 8192) as Hne by (vm_compute; discriminate).
    rewrite E in Hne. apply Hne. reflexivity.
Defined.
