(* ===== verification/YaffsCheckpoint.v ===== *)
(** * The checkpoint of YAFFS

    The stream of bytes of fs/yaffs2/yaffs_checkptrw.c, in which YAFFS saves its state when
    it unmounts: opening, writing through a buffer of one chunk to erased blocks, finding the
    blocks again and reading them back, and closing; with what yaffs_guts.c puts at the ends of
    the stream: the validity markers and the checksum.

    A pointer that may be NULL is an option; [None] as a result is an access outside an
    array or through NULL. *)

From S2P Require Import Prelude NandEcc YaffsTags YaffsNand YaffsBlocks.

Local Open Scope Z_scope.

Definition YAFFS_SEQUENCE_CHECKPOINT_DATA : Z := 0x21.
Definition YAFFS_MAGIC : Z := 0x5941FF53.
Definition YAFFS_CHECKPOINT_VERSION : Z := 3.

(** The fields of the device for the stream. *)
Record checkpoint := mk_cp {
  checkpointPageSequence : Z;
  checkpointByteCount : Z;
  checkpointByteOffset : Z;
  checkpointBuffer : option (list Z);
  checkpointOpenForWrite : bool;
  checkpointCurrentChunk : Z;
  checkpointCurrentBlock : Z;
  checkpointNextBlock : Z;
  checkpointBlockList : option (list Z);
  checkpointMaxBlocks : Z;
  checkpointSum : Z;
  checkpointXor : Z
}.

#[export] Instance cp_fields : Fields checkpoint := fun r =>
  mk_cp (checkpointPageSequence r) (checkpointByteCount r) (checkpointByteOffset r) (checkpointBuffer r)
    (checkpointOpenForWrite r) (checkpointCurrentChunk r) (checkpointCurrentBlock r) (checkpointNextBlock r)
    (checkpointBlockList r) (checkpointMaxBlocks r) (checkpointSum r) (checkpointXor r).

Section Stream.
Context {mtd : Type} (ops : nand_ops mtd).

(** The contents of the local variable [tags], which the code does not initialise. *)
Context (localTags : yaffs_ExtendedTags).

(** The memory for the buffer and for the list of blocks, with its contents. *)
Context (YMALLOC_DMA : Z -> option (list Z)) (YMALLOC_ints : Z -> option (list Z)).

Implicit Types (dev : yaffs_Device mtd) (cp : checkpoint).

(** [for (i = checkpointNextBlock; i <= internalEndBlock; i++)], with [n] rounds left: the first empty block. *)
Fixpoint next_erased_loop (n : nat) dev (i : Z) : option (option Z) :=
  match n with
  | O => Some None
  | S n' =>
      bi ← yaffs_GetBlockInfo dev i;
      if bool_decide (blockState bi = YAFFS_BLOCK_STATE_EMPTY) then Some (Some i)
      else next_erased_loop n' dev (i + 1)
  end.

Definition yaffs_CheckpointFindNextErasedBlock dev cp : option checkpoint :=
  let blocksAvailable := nErasedBlocks dev - nReservedBlocks dev in
  found ← (if (0 <=? checkpointNextBlock cp) && (checkpointNextBlock cp <=? internalEndBlock dev) && (0 <? blocksAvailable)
           then next_erased_loop (Z.to_nat (internalEndBlock dev - checkpointNextBlock cp + 1)) dev (checkpointNextBlock cp)
           else Some None);
  match found with
  | Some i => Some (cp <| checkpointNextBlock := i + 1 |> <| checkpointCurrentBlock := i |>)
  | None => Some (cp <| checkpointNextBlock := -1 |> <| checkpointCurrentBlock := -1 |>)
  end.

(** [for (i = checkpointNextBlock; i <= internalEndBlock; i++)], with [n] rounds left: the first block whose
    first chunk has the sequence number of a checkpoint, and the tags of that chunk. *)
Fixpoint next_checkpoint_loop (n : nat) dev (tags : yaffs_ExtendedTags) (i : Z)
  : option (option (Z * yaffs_ExtendedTags) * yaffs_Device mtd) :=
  match n with
  | O => Some (None, dev)
  | S n' =>
      let chunk := i * nChunksPerBlock dev in
      let realignedChunk := chunk - chunkOffset dev in
      read ← readChunkWithTagsFromNAND ops;
      '(_, _, tags, dev) ← read dev realignedChunk None tags;
      if sequenceNumber tags =? YAFFS_SEQUENCE_CHECKPOINT_DATA then Some (Some (i, tags), dev)
      else next_checkpoint_loop n' dev tags (i + 1)
  end.

Definition yaffs_CheckpointFindNextCheckpointBlock dev cp : option (yaffs_Device mtd * checkpoint) :=
  '(found, dev) ←
    (if blocksInCheckpoint dev <? checkpointMaxBlocks cp
     then next_checkpoint_loop (Z.to_nat (internalEndBlock dev - checkpointNextBlock cp + 1)) dev localTags (checkpointNextBlock cp)
     else Some (None, dev));
  match found with
  | Some (i, tags) =>
      let cp := cp <| checkpointNextBlock := s32 (objectId tags) |> <| checkpointCurrentBlock := i |> in
      l ← checkpointBlockList cp;
      l ← set l (blocksInCheckpoint dev) i;
      Some (dev <| blocksInCheckpoint ::= Z.succ |>, cp <| checkpointBlockList := Some l |>)
  | None => Some (dev, cp <| checkpointNextBlock := -1 |> <| checkpointCurrentBlock := -1 |>)
  end.

(** The buffer set to zeros. *)
Definition clear_buffer dev (buffer : list Z) : option (list Z) :=
  copy_bytes buffer 0 (replicate (Z.to_nat (nDataBytesPerChunk dev)) 0) 0 (nDataBytesPerChunk dev).

(** Opening for writing erases the blocks of the last checkpoint. *)
Definition open_write dev cp (buffer : list Z) : option (Z * yaffs_Device mtd * checkpoint) :=
  buffer ← clear_buffer dev buffer;
  let cp := cp <| checkpointBuffer := Some buffer |> <| checkpointByteOffset := 0 |> in
  '(r, dev) ← yaffs_CheckpointErase ops dev;
  Some (r, dev, cp).

Definition open_read dev cp : option (Z * yaffs_Device mtd * checkpoint) :=
  let cp := cp <| checkpointByteOffset := nDataBytesPerChunk dev |> in
  let dev := dev <| blocksInCheckpoint := 0 |> in
  let cp := cp <| checkpointMaxBlocks := Z.quot (internalEndBlock dev - internalStartBlock dev) 16 + 2 |> in
  let n := checkpointMaxBlocks cp in
  let cp := cp <| checkpointBlockList := YMALLOC_ints n |> in
  match checkpointBlockList cp with
  | None => Some (0, dev, cp)
  | Some l =>
      l ← copy_bytes l 0 (replicate (Z.to_nat n) (-1)) 0 n;
      Some (1, dev, cp <| checkpointBlockList := Some l |>)
  end.

Definition yaffs_CheckpointOpen dev cp (forWriting : bool) : option (Z * yaffs_Device mtd * checkpoint) :=
  if negb (bool_decide (is_Some (writeChunkWithTagsToNAND ops)) && bool_decide (is_Some (readChunkWithTagsFromNAND ops)) &&
           bool_decide (is_Some (markNANDBlockBad ops))) then Some (0, dev, cp)
  else if forWriting && negb (yaffs_CheckpointSpaceOk dev) then Some (0, dev, cp)
  else
    let cp := match checkpointBuffer cp with
              | Some _ => cp
              | None => cp <| checkpointBuffer := YMALLOC_DMA (totalBytesPerChunk dev) |>
              end in
    match checkpointBuffer cp with
    | None => Some (0, dev, cp)
    | Some buffer =>
        let cp := cp <| checkpointPageSequence := 0 |> <| checkpointOpenForWrite := forWriting |>
                     <| checkpointByteCount := 0 |> <| checkpointSum := 0 |> <| checkpointXor := 0 |>
                     <| checkpointCurrentBlock := -1 |> <| checkpointCurrentChunk := -1 |>
                     <| checkpointNextBlock := internalStartBlock dev |> in
        if forWriting then open_write dev cp buffer else open_read dev cp
    end.

Definition yaffs_GetCheckpointSum cp : Z :=
  Z.lor (u32 (Z.shiftl (checkpointSum cp) 8)) (Z.land (checkpointXor cp) 0xFF).

(** The buffer is written to the current chunk. *)
Definition flush_page dev cp : option (Z * yaffs_Device mtd * checkpoint) :=
  let tags := localTags <| chunkDeleted := 0 |> <| objectId := u32 (checkpointNextBlock cp) |>
                <| chunkId := u32 (checkpointPageSequence cp + 1) |>
                <| sequenceNumber := YAFFS_SEQUENCE_CHECKPOINT_DATA |>
                <| byteCount := u32 (nDataBytesPerChunk dev) |> in
  let chunk := checkpointCurrentBlock cp * nChunksPerBlock dev + checkpointCurrentChunk cp in
  let realignedChunk := chunk - chunkOffset dev in
  let dev := dev <| nPageWrites ::= Z.succ |> in
  write ← writeChunkWithTagsToNAND ops;
  '(_, dev) ← write dev realignedChunk (checkpointBuffer cp) tags;
  let cp := cp <| checkpointByteOffset := 0 |> <| checkpointPageSequence ::= Z.succ |> <| checkpointCurrentChunk ::= Z.succ |> in
  let cp := if nChunksPerBlock dev <=? checkpointCurrentChunk cp
            then cp <| checkpointCurrentChunk := 0 |> <| checkpointCurrentBlock := -1 |> else cp in
  buffer ← checkpointBuffer cp;
  buffer ← clear_buffer dev buffer;
  Some (1, dev, cp <| checkpointBuffer := Some buffer |>).

Definition yaffs_CheckpointFlushBuffer dev cp : option (Z * yaffs_Device mtd * checkpoint) :=
  cp ← (if checkpointCurrentBlock cp <? 0 then
          cp ← yaffs_CheckpointFindNextErasedBlock dev cp;
          Some (cp <| checkpointCurrentChunk := 0 |>)
        else Some cp);
  if checkpointCurrentBlock cp <? 0 then Some (0, dev, cp)
  else
    dev ← (if checkpointCurrentChunk cp =? 0 then
             dev ← update_block dev (checkpointCurrentBlock cp) (fun bi => bi <| blockState := YAFFS_BLOCK_STATE_CHECKPOINT |>);
             Some (dev <| blocksInCheckpoint ::= Z.succ |>)
           else Some dev);
    flush_page dev cp.

(** A byte that goes through the stream is added to the sums. *)
Definition count_byte cp (b : Z) : checkpoint :=
  cp <| checkpointSum ::= fun s => u32 (s + b) |> <| checkpointXor ::= Z.lxor b |>
     <| checkpointByteOffset ::= Z.succ |> <| checkpointByteCount ::= Z.succ |>.

(** [while (i < nBytes && ok)], with [n] bytes left.  The bytes may be part of the device: [data dev i] is the
    byte with the number [i] when it is read. *)
Fixpoint write_stream (n : nat) (data : yaffs_Device mtd -> Z -> option Z) (i : Z) dev cp
  : option (Z * yaffs_Device mtd * checkpoint) :=
  match n with
  | O => Some (i, dev, cp)
  | S n' =>
      b ← data dev i;
      buffer ← checkpointBuffer cp;
      buffer ← set buffer (checkpointByteOffset cp) b;
      let cp := count_byte (cp <| checkpointBuffer := Some buffer |>) b in
      if (checkpointByteOffset cp <? 0) || (nDataBytesPerChunk dev <=? checkpointByteOffset cp) then
        '(ok, dev, cp) ← yaffs_CheckpointFlushBuffer dev cp;
        if truthy ok then write_stream n' data (i + 1) dev cp else Some (i + 1, dev, cp)
      else write_stream n' data (i + 1) dev cp
  end.

Definition yaffs_CheckpointWrite dev cp (data : yaffs_Device mtd -> Z -> option Z) (nBytes : Z)
  : option (Z * yaffs_Device mtd * checkpoint) :=
  if bool_decide (checkpointBuffer cp = None) then Some (0, dev, cp)
  else if negb (checkpointOpenForWrite cp) then Some (-1, dev, cp)
  else write_stream (Z.to_nat nBytes) data 0 dev cp.

(** The bytes of a variable of the caller. *)
Definition var_bytes (l : list Z) : yaffs_Device mtd -> Z -> option Z := fun _ i => get l i.

(** The current chunk is read into the buffer: whether it is the one that is expected. *)
Definition fetch_page dev cp : option (bool * yaffs_Device mtd * checkpoint) :=
  let chunk := checkpointCurrentBlock cp * nChunksPerBlock dev + checkpointCurrentChunk cp in
  let realignedChunk := chunk - chunkOffset dev in
  let dev := dev <| nPageReads ::= Z.succ |> in
  read ← readChunkWithTagsFromNAND ops;
  '(_, buffer, tags, dev) ← read dev realignedChunk (checkpointBuffer cp) localTags;
  let cp := cp <| checkpointBuffer := buffer |> in
  let ok := negb (negb (chunkId tags =? u32 (checkpointPageSequence cp + 1)) ||
                  bool_decide (eccResult tags = YAFFS_ECC_RESULT_UNFIXED) ||
                  negb (sequenceNumber tags =? YAFFS_SEQUENCE_CHECKPOINT_DATA)) in
  let cp := cp <| checkpointByteOffset := 0 |> <| checkpointPageSequence ::= Z.succ |> <| checkpointCurrentChunk ::= Z.succ |> in
  let cp := if nChunksPerBlock dev <=? checkpointCurrentChunk cp then cp <| checkpointCurrentBlock := -1 |> else cp in
  Some (ok, dev, cp).

(** At the end of a block the next one is looked for. *)
Definition locate_block dev cp : option (yaffs_Device mtd * checkpoint) :=
  if checkpointCurrentBlock cp <? 0 then
    '(dev, cp) ← yaffs_CheckpointFindNextCheckpointBlock dev cp;
    Some (dev, cp <| checkpointCurrentChunk := 0 |>)
  else Some (dev, cp).

Definition fetch_chunk dev cp : option (bool * yaffs_Device mtd * checkpoint) :=
  '(dev, cp) ← locate_block dev cp;
  if checkpointCurrentBlock cp <? 0 then Some (false, dev, cp) else fetch_page dev cp.

(** [while (i < nBytes && ok)], with [n] bytes left: the bytes that are read. *)
Fixpoint read_stream (n : nat) dev cp : option (list Z * yaffs_Device mtd * checkpoint) :=
  match n with
  | O => Some ([], dev, cp)
  | S n' =>
      '(ok, dev, cp) ← (if (checkpointByteOffset cp <? 0) || (nDataBytesPerChunk dev <=? checkpointByteOffset cp)
                        then fetch_chunk dev cp else Some (true, dev, cp));
      if (ok : bool) then
        buffer ← checkpointBuffer cp;
        b ← get buffer (checkpointByteOffset cp);
        '(l, dev, cp) ← read_stream n' dev (count_byte cp b);
        Some (b :: l, dev, cp)
      else Some ([], dev, cp)
  end.

(** The result and the bytes that are stored at [data]. *)
Definition yaffs_CheckpointRead dev cp (nBytes : Z) : option (Z * list Z * yaffs_Device mtd * checkpoint) :=
  if bool_decide (checkpointBuffer cp = None) then Some (0, [], dev, cp)
  else if checkpointOpenForWrite cp then Some (-1, [], dev, cp)
  else
    '(l, dev, cp) ← read_stream (Z.to_nat nBytes) dev cp;
    Some (blen l, l, dev, cp).

(** [for (i = 0; i < blocksInCheckpoint && checkpointBlockList[i] >= 0; i++)], with [n] rounds left. *)
Fixpoint close_loop (n : nat) dev (l : list Z) (i : Z) : option (yaffs_Device mtd) :=
  match n with
  | O => Some dev
  | S n' =>
      b ← get l i;
      if 0 <=? b then
        bi ← yaffs_GetBlockInfo dev b;
        dev ← (if bool_decide (blockState bi = YAFFS_BLOCK_STATE_EMPTY)
               then update_block dev b (fun bi => bi <| blockState := YAFFS_BLOCK_STATE_CHECKPOINT |>)
               else Some dev);
        close_loop n' dev l (i + 1)
      else Some dev
  end.

Definition yaffs_CheckpointClose dev cp : option (Z * yaffs_Device mtd * checkpoint) :=
  '(dev, cp) ←
    (if checkpointOpenForWrite cp then
       if truthy (checkpointByteOffset cp)
       then '(_, dev, cp) ← yaffs_CheckpointFlushBuffer dev cp; Some (dev, cp)
       else Some (dev, cp)
     else
       dev ← (if 0 <? blocksInCheckpoint dev then
                l ← checkpointBlockList cp;
                close_loop (Z.to_nat (blocksInCheckpoint dev)) dev l 0
              else Some dev);
       Some (dev, cp <| checkpointBlockList := None |>));
  let dev := dev <| nFreeChunks ::= fun n => n - blocksInCheckpoint dev * nChunksPerBlock dev |> in
  let dev := dev <| nErasedBlocks ::= fun n => n - blocksInCheckpoint dev |> in
  match checkpointBuffer cp with
  | Some _ => Some (1, dev, cp <| checkpointBuffer := None |>)
  | None => Some (0, dev, cp)
  end.

(** ** Markers and checksum *)

(** The bytes of the struct [yaffs_CheckpointValidity]. *)
Definition validity_bytes (head : bool) : list Z :=
  le_bytes 4 sizeof_yaffs_CheckpointValidity ++ le_bytes 4 YAFFS_MAGIC ++ le_bytes 4 YAFFS_CHECKPOINT_VERSION ++
  le_bytes 4 (b2z head).

Definition yaffs_WriteCheckpointValidityMarker dev cp (head : bool) : option (bool * yaffs_Device mtd * checkpoint) :=
  '(n, dev, cp) ← yaffs_CheckpointWrite dev cp (var_bytes (validity_bytes head)) sizeof_yaffs_CheckpointValidity;
  Some (n =? sizeof_yaffs_CheckpointValidity, dev, cp).

Definition yaffs_ReadCheckpointValidityMarker dev cp (head : bool) : option (bool * yaffs_Device mtd * checkpoint) :=
  '(n, l, dev, cp) ← yaffs_CheckpointRead dev cp sizeof_yaffs_CheckpointValidity;
  Some ((n =? sizeof_yaffs_CheckpointValidity) &&
        (le_value (take 4 l) =? sizeof_yaffs_CheckpointValidity) && (le_value (take 4 (drop 4 l)) =? YAFFS_MAGIC) &&
        (le_value (take 4 (drop 8 l)) =? YAFFS_CHECKPOINT_VERSION) && (le_value (take 4 (drop 12 l)) =? b2z head), dev, cp).

Definition yaffs_WriteCheckpointSum dev cp : option (bool * yaffs_Device mtd * checkpoint) :=
  '(n, dev, cp) ← yaffs_CheckpointWrite dev cp (var_bytes (le_bytes 4 (yaffs_GetCheckpointSum cp))) 4;
  Some (n =? 4, dev, cp).

Definition yaffs_ReadCheckpointSum dev cp : option (bool * yaffs_Device mtd * checkpoint) :=
  let checkpointSum0 := yaffs_GetCheckpointSum cp in
  '(n, l, dev, cp) ← yaffs_CheckpointRead dev cp 4;
  Some ((n =? 4) && (checkpointSum0 =? le_value l), dev, cp).

End Stream.
