(* ===== verification/YaffsCheckpointData.v ===== *)
(** * What a checkpoint holds

    The state that YAFFS saves in a checkpoint, of fs/yaffs2/yaffs_guts.c: the counters of the device,
    the information on its blocks and the bitmap of its chunks; the objects; and the tnodes of
    the files.  The structs are strings of bytes with the layout of the board's processor.

    [None] as a result is an access outside the memory in use, or a value of a
    bit field that is none of the constants of its type. *)

From S2P Require Import Prelude NandEcc YaffsTags YaffsNand YaffsBlocks YaffsTnodes YaffsObjects YaffsCheckpoint.

Local Open Scope Z_scope.

(** The bytes of words in memory. *)
Definition words_bytes (ws : list Z) : list Z := concat (le_bytes 4 <$> ws).

(** The word with the number [i], as an unsigned and as a signed number. *)
Definition stored_word (l : list Z) (i : nat) : Z := le_value (take 4 (drop (4 * i) l)).
Definition stored_int (l : list Z) (i : nat) : Z := s32 (stored_word l i).

(** ** The struct [yaffs_BlockInfo] *)

Definition block_states : list yaffs_BlockState :=
  [YAFFS_BLOCK_STATE_UNKNOWN; YAFFS_BLOCK_STATE_SCANNING; YAFFS_BLOCK_STATE_NEEDS_SCANNING; YAFFS_BLOCK_STATE_EMPTY;
   YAFFS_BLOCK_STATE_ALLOCATING; YAFFS_BLOCK_STATE_FULL; YAFFS_BLOCK_STATE_DIRTY; YAFFS_BLOCK_STATE_CHECKPOINT;
   YAFFS_BLOCK_STATE_COLLECTING; YAFFS_BLOCK_STATE_DEAD].

Definition state_number (st : yaffs_BlockState) : Z :=
  match st with
  | YAFFS_BLOCK_STATE_UNKNOWN => 0 | YAFFS_BLOCK_STATE_SCANNING => 1 | YAFFS_BLOCK_STATE_NEEDS_SCANNING => 2
  | YAFFS_BLOCK_STATE_EMPTY => 3 | YAFFS_BLOCK_STATE_ALLOCATING => 4 | YAFFS_BLOCK_STATE_FULL => 5
  | YAFFS_BLOCK_STATE_DIRTY => 6 | YAFFS_BLOCK_STATE_CHECKPOINT => 7 | YAFFS_BLOCK_STATE_COLLECTING => 8
  | YAFFS_BLOCK_STATE_DEAD => 9
  end.

Definition bi_softDeletions : bitfield := BF 0 10.
Definition bi_pagesInUse : bitfield := BF 10 10.
Definition bi_blockState : bitfield := BF 20 4.
Definition bi_needsRetiring : bitfield := BF 24 1.
Definition bi_skipErasedCheck : bitfield := BF 25 1.
Definition bi_gcPrioritise : bitfield := BF 26 1.
Definition bi_chunkErrorStrikes : bitfield := BF 27 3.
Definition bi_hasShrinkHeader : bitfield := BF 30 1.

(** The word with the bit fields; its last bit is clear since the array was allocated. *)
Definition info_word (bi : yaffs_BlockInfo) : Z :=
  bf_put bi_hasShrinkHeader (b2z (hasShrinkHeader bi))
    (bf_put bi_chunkErrorStrikes (chunkErrorStrikes bi)
       (bf_put bi_gcPrioritise (b2z (gcPrioritise bi))
          (bf_put bi_skipErasedCheck (b2z (skipErasedCheck bi))
             (bf_put bi_needsRetiring (b2z (needsRetiring bi))
                (bf_put bi_blockState (state_number (blockState bi))
                   (bf_put bi_pagesInUse (pagesInUse bi)
                      (bf_put bi_softDeletions (softDeletions bi) 0))))))).

Definition info_bytes (bi : yaffs_BlockInfo) : list Z := words_bytes [info_word bi; bi_sequenceNumber bi].

(** The value of a signed bit field. *)
Definition bf_get_signed (f : bitfield) (v : Z) : Z :=
  let x := bf_get f v in
  if x <? 2 ^ (bf_width f - 1) then x else x - 2 ^ bf_width f.

Definition info_of_bytes (l : list Z) : option yaffs_BlockInfo :=
  let w := stored_word l 0 in
  st ← block_states !! Z.to_nat (bf_get bi_blockState w);
  Some (mk_bi (bf_get_signed bi_softDeletions w) (bf_get_signed bi_pagesInUse w) st (truthy (bf_get bi_needsRetiring w))
          (truthy (bf_get bi_skipErasedCheck w)) (truthy (bf_get bi_gcPrioritise w)) (bf_get bi_chunkErrorStrikes w)
          (truthy (bf_get bi_hasShrinkHeader w)) (stored_word l 1)).

(** The blocks that the bytes of an array describe. *)
Fixpoint infos_of_bytes (n : nat) (l : list Z) : option (list yaffs_BlockInfo) :=
  match n with
  | O => Some []
  | S n' =>
      bi ← info_of_bytes (take 8 l);
      bis ← infos_of_bytes n' (drop 8 l);
      Some (bi :: bis)
  end.

(** Bytes that are read are stored from the start of [memory] on. *)
Definition overwrite (memory l : list Z) : option (list Z) :=
  if blen l <=? blen memory then Some (l ++ drop (length l) memory) else None.

(** ** The struct [yaffs_CheckpointDevice] *)

Record yaffs_CheckpointDevice := mk_cpd {
  cpd_structType : Z;
  cpd_nErasedBlocks : Z;
  cpd_allocationBlock : Z;
  cpd_allocationPage : Z;
  cpd_nFreeChunks : Z;
  cpd_nDeletedFiles : Z;
  cpd_nUnlinkedFiles : Z;
  cpd_nBackgroundDeletions : Z;
  cpd_sequenceNumber : Z;
  cpd_oldestDirtySequence : Z
}.

#[export] Instance cpd_fields : Fields yaffs_CheckpointDevice := fun r =>
  mk_cpd (cpd_structType r) (cpd_nErasedBlocks r) (cpd_allocationBlock r) (cpd_allocationPage r) (cpd_nFreeChunks r) (cpd_nDeletedFiles r)
    (cpd_nUnlinkedFiles r) (cpd_nBackgroundDeletions r) (cpd_sequenceNumber r) (cpd_oldestDirtySequence r).

Definition cpd_bytes (cp : yaffs_CheckpointDevice) : list Z :=
  words_bytes [cpd_structType cp; cpd_nErasedBlocks cp; cpd_allocationBlock cp; cpd_allocationPage cp; cpd_nFreeChunks cp; cpd_nDeletedFiles cp;
               cpd_nUnlinkedFiles cp; cpd_nBackgroundDeletions cp; cpd_sequenceNumber cp; cpd_oldestDirtySequence cp].

Definition cpd_of_bytes (l : list Z) : yaffs_CheckpointDevice :=
  mk_cpd (stored_int l 0) (stored_int l 1) (stored_int l 2) (stored_word l 3) (stored_int l 4) (stored_int l 5) (stored_int l 6) (stored_int l 7) (stored_word l 8) (stored_word l 9).

(** ** The struct [yaffs_CheckpointObject] *)

Record yaffs_CheckpointObject := mk_cpo {
  cpo_structType : Z;
  cpo_objectId : Z;
  cpo_parentId : Z;
  cpo_hdrChunk : Z;
  cpo_variantType : yaffs_ObjectType;
  cpo_deleted : bool;
  cpo_softDeleted : bool;
  cpo_unlinked : bool;
  cpo_fake : bool;
  cpo_renameAllowed : bool;
  cpo_unlinkAllowed : bool;
  cpo_serial : Z;
  cpo_nDataChunks : Z;
  cpo_fileSizeOrEquivalentObjectId : Z
}.

#[export] Instance cpo_fields : Fields yaffs_CheckpointObject := fun r =>
  mk_cpo (cpo_structType r) (cpo_objectId r) (cpo_parentId r) (cpo_hdrChunk r) (cpo_variantType r) (cpo_deleted r) (cpo_softDeleted r)
    (cpo_unlinked r) (cpo_fake r) (cpo_renameAllowed r) (cpo_unlinkAllowed r) (cpo_serial r) (cpo_nDataChunks r)
    (cpo_fileSizeOrEquivalentObjectId r).

Definition object_types : list yaffs_ObjectType :=
  [YAFFS_OBJECT_TYPE_UNKNOWN; YAFFS_OBJECT_TYPE_FILE; YAFFS_OBJECT_TYPE_SYMLINK; YAFFS_OBJECT_TYPE_DIRECTORY;
   YAFFS_OBJECT_TYPE_HARDLINK; YAFFS_OBJECT_TYPE_SPECIAL].

Definition type_number (t : yaffs_ObjectType) : Z :=
  match t with
  | YAFFS_OBJECT_TYPE_UNKNOWN => 0 | YAFFS_OBJECT_TYPE_FILE => 1 | YAFFS_OBJECT_TYPE_SYMLINK => 2
  | YAFFS_OBJECT_TYPE_DIRECTORY => 3 | YAFFS_OBJECT_TYPE_HARDLINK => 4 | YAFFS_OBJECT_TYPE_SPECIAL => 5
  end.

Definition cpo_variantType_bits : bitfield := BF 0 3.
Definition cpo_deleted_bit : bitfield := BF 3 1.
Definition cpo_softDeleted_bit : bitfield := BF 4 1.
Definition cpo_unlinked_bit : bitfield := BF 5 1.
Definition cpo_fake_bit : bitfield := BF 6 1.
Definition cpo_renameAllowed_bit : bitfield := BF 7 1.
Definition cpo_unlinkAllowed_bit : bitfield := BF 8 1.
Definition cpo_serial_bits : bitfield := BF 16 8.

(** The word with the bit fields and [serial]; [pad] is what its other bits hold. *)
Definition cpo_word (pad : Z) (cp : yaffs_CheckpointObject) : Z :=
  bf_put cpo_serial_bits (cpo_serial cp)
    (bf_put cpo_unlinkAllowed_bit (b2z (cpo_unlinkAllowed cp))
       (bf_put cpo_renameAllowed_bit (b2z (cpo_renameAllowed cp))
          (bf_put cpo_fake_bit (b2z (cpo_fake cp))
             (bf_put cpo_unlinked_bit (b2z (cpo_unlinked cp))
                (bf_put cpo_softDeleted_bit (b2z (cpo_softDeleted cp))
                   (bf_put cpo_deleted_bit (b2z (cpo_deleted cp))
                      (bf_put cpo_variantType_bits (type_number (cpo_variantType cp)) (u32 pad)))))))).

Definition cpo_bytes (pad : Z) (cp : yaffs_CheckpointObject) : list Z :=
  words_bytes [cpo_structType cp; cpo_objectId cp; cpo_parentId cp; cpo_hdrChunk cp; cpo_word pad cp; cpo_nDataChunks cp;
               cpo_fileSizeOrEquivalentObjectId cp].

Definition cpo_of_bytes (l : list Z) : option yaffs_CheckpointObject :=
  let w := stored_word l 4 in
  t ← object_types !! Z.to_nat (bf_get cpo_variantType_bits w);
  Some (mk_cpo (stored_int l 0) (stored_word l 1) (stored_word l 2) (stored_int l 3) t (truthy (bf_get cpo_deleted_bit w))
          (truthy (bf_get cpo_softDeleted_bit w)) (truthy (bf_get cpo_unlinked_bit w)) (truthy (bf_get cpo_fake_bit w))
          (truthy (bf_get cpo_renameAllowed_bit w)) (truthy (bf_get cpo_unlinkAllowed_bit w)) (bf_get cpo_serial_bits w)
          (stored_int l 5) (stored_word l 6)).

(** The struct filled with ones, but for its type. *)
Definition end_of_objects : list Z := le_bytes 4 sizeof_yaffs_CheckpointObject ++ replicate 24 0xFF.

Section Contents.
Context {mtd : Type} (ops : nand_ops mtd).

(** The contents of the local variable [tags] of the stream. *)
Context (localTags : yaffs_ExtendedTags).

(** The memory for the buffer and for the list of blocks of the stream. *)
Context (YMALLOC_DMA : Z -> option (list Z)) (YMALLOC_ints : Z -> option (list Z)).

(** The address that kmalloc returns, or 0, and the contents of the words of the memory. *)
Context (YMALLOC : tnode_memory -> Z -> Z) (uninitialised : Z -> Z).

(** What the local struct of [yaffs_WriteCheckpointObjects] holds where nothing is assigned to it: the bits that no
    field uses, and the last field, for the object at an address. *)
Context (padding : Z -> Z) (unset : Z -> Z).

Implicit Types (dev : yaffs_Device mtd) (cp : checkpoint) (m : tnode_memory) (om : object_memory).

Abbreviation write := (yaffs_CheckpointWrite ops localTags).
Abbreviation read := (yaffs_CheckpointRead ops localTags).

(** ** The device *)

Definition yaffs_DeviceToCheckpointDevice dev : yaffs_CheckpointDevice :=
  mk_cpd sizeof_yaffs_CheckpointDevice (nErasedBlocks dev) (allocationBlock dev) (allocationPage dev) (nFreeChunks dev) (nDeletedFiles dev)
    (nUnlinkedFiles dev) (nBackgroundDeletions dev) (dev_sequenceNumber dev) (oldestDirtySequence dev).

Definition yaffs_CheckpointDeviceToDevice dev (cp : yaffs_CheckpointDevice) : yaffs_Device mtd :=
  dev <| nErasedBlocks := cpd_nErasedBlocks cp |> <| allocationBlock := cpd_allocationBlock cp |>
      <| allocationPage := cpd_allocationPage cp |> <| nFreeChunks := cpd_nFreeChunks cp |>
      <| nDeletedFiles := cpd_nDeletedFiles cp |> <| nUnlinkedFiles := cpd_nUnlinkedFiles cp |>
      <| nBackgroundDeletions := cpd_nBackgroundDeletions cp |> <| dev_sequenceNumber := cpd_sequenceNumber cp |>
      <| oldestDirtySequence := cpd_oldestDirtySequence cp |>.

(** A byte of the array [blockInfo]. *)
Definition info_at dev (i : Z) : option Z :=
  bi ← blockInfo dev !! Z.to_nat (i / sizeof_yaffs_BlockInfo);
  get (info_bytes bi) (i mod sizeof_yaffs_BlockInfo).

Definition bits_at dev (i : Z) : option Z := get (chunkBits dev) i.

(** The blocks that the stream takes change their state in the array while it is written. *)
Definition yaffs_WriteCheckpointDevice dev cp : option (bool * yaffs_Device mtd * checkpoint) :=
  let nBlocks := internalEndBlock dev - internalStartBlock dev + 1 in
  let cpd := yaffs_DeviceToCheckpointDevice dev in
  '(n, dev, cp) ← write dev cp (var_bytes (cpd_bytes cpd)) sizeof_yaffs_CheckpointDevice;
  if n =? sizeof_yaffs_CheckpointDevice then
    let nBytes := nBlocks * sizeof_yaffs_BlockInfo in
    '(n, dev, cp) ← write dev cp info_at nBytes;
    if n =? nBytes then
      let nBytes := nBlocks * chunkBitmapStride dev in
      '(n, dev, cp) ← write dev cp bits_at nBytes;
      Some (n =? nBytes, dev, cp)
    else Some (false, dev, cp)
  else Some (false, dev, cp).

Definition store_infos dev (l : list Z) : option (yaffs_Device mtd) :=
  l ← overwrite (concat (info_bytes <$> blockInfo dev)) l;
  info ← infos_of_bytes (length (blockInfo dev)) l;
  Some (dev <| blockInfo := info |>).

Definition store_bits dev (l : list Z) : option (yaffs_Device mtd) :=
  l ← overwrite (chunkBits dev) l;
  Some (dev <| chunkBits := l |>).

Definition yaffs_ReadCheckpointDevice dev cp : option (bool * yaffs_Device mtd * checkpoint) :=
  let nBlocks := internalEndBlock dev - internalStartBlock dev + 1 in
  '(n, l, dev, cp) ← read dev cp sizeof_yaffs_CheckpointDevice;
  if negb (n =? sizeof_yaffs_CheckpointDevice) then Some (false, dev, cp)
  else
    let cpd := cpd_of_bytes l in
    if negb (cpd_structType cpd =? sizeof_yaffs_CheckpointDevice) then Some (false, dev, cp)
    else
      let dev := yaffs_CheckpointDeviceToDevice dev cpd in
      let nBytes := nBlocks * sizeof_yaffs_BlockInfo in
      '(n, l, dev, cp) ← read dev cp nBytes;
      dev ← store_infos dev l;
      if negb (n =? nBytes) then Some (false, dev, cp)
      else
        let nBytes := nBlocks * chunkBitmapStride dev in
        '(n, l, dev, cp) ← read dev cp nBytes;
        dev ← store_bits dev l;
        Some (n =? nBytes, dev, cp).

(** ** The tnodes of a file *)

(** The bytes of a tnode. *)
Definition tnode_bytes dev m (tn : Z) : option (list Z) :=
  ws ← tnodes m !! tn;
  let l := words_bytes ws in
  if tnode_size dev <=? blen l then Some (take (Z.to_nat (tnode_size dev)) l) else None.

(** [for (i = 0; i < YAFFS_NTNODES_INTERNAL && ok; i++)], with [n] rounds left. *)
Fixpoint checkpoint_branches (worker : yaffs_Device mtd -> checkpoint -> Z -> Z -> option (bool * yaffs_Device mtd * checkpoint))
    (n : nat) dev cp m (tn chunkOffset i : Z) : option (bool * yaffs_Device mtd * checkpoint) :=
  match n with
  | O => Some (true, dev, cp)
  | S n' =>
      child ← get_word m tn i;
      '(ok, dev, cp) ← (if truthy child then worker dev cp child (Z.shiftl chunkOffset YAFFS_TNODES_INTERNAL_BITS + i)
                        else Some (true, dev, cp));
      if (ok : bool) then checkpoint_branches worker n' dev cp m tn chunkOffset (i + 1) else Some (false, dev, cp)
  end.

Definition checkpoint_leaf dev cp m (tn chunkOffset : Z) : option (bool * yaffs_Device mtd * checkpoint) :=
  let tnodeSize := tnode_size dev in
  let baseOffset := u32 (Z.shiftl chunkOffset YAFFS_TNODES_LEVEL0_BITS) in
  '(n, dev, cp) ← write dev cp (var_bytes (le_bytes 4 baseOffset)) 4;
  if n =? 4 then
    l ← tnode_bytes dev m tn;
    '(n, dev, cp) ← write dev cp (var_bytes l) tnodeSize;
    Some (n =? tnodeSize, dev, cp)
  else Some (false, dev, cp).

Fixpoint yaffs_CheckpointTnodeWorker (level : nat) dev cp m (tn chunkOffset : Z) : option (bool * yaffs_Device mtd * checkpoint) :=
  if truthy tn then
    match level with
    | S level' => checkpoint_branches (fun dev cp tn off => yaffs_CheckpointTnodeWorker level' dev cp m tn off)
                    (Z.to_nat YAFFS_NTNODES_INTERNAL) dev cp m tn chunkOffset 0
    | O => checkpoint_leaf dev cp m tn chunkOffset
    end
  else Some (true, dev, cp).

Definition yaffs_WriteCheckpointTnodes dev cp m (obj : yaffs_Object) : option (bool * yaffs_Device mtd * checkpoint) :=
  let endMarker := u32 (-1) in
  if bool_decide (variantType obj = YAFFS_OBJECT_TYPE_FILE) then
    '(ok, dev, cp) ← yaffs_CheckpointTnodeWorker (Z.to_nat (topLevel (fileVariant obj))) dev cp m (top (fileVariant obj)) 0;
    if (ok : bool) then
      '(n, dev, cp) ← write dev cp (var_bytes (le_bytes 4 endMarker)) 4;
      Some (n =? 4, dev, cp)
    else Some (false, dev, cp)
  else Some (true, dev, cp).

(** The words that a string of bytes holds. *)
Fixpoint words_of_bytes (n : nat) (l : list Z) : list Z :=
  match n with
  | O => []
  | S n' => le_value (take 4 l) :: words_of_bytes n' (drop 4 l)
  end.

Definition store_tnode m (tn : Z) (l : list Z) : option tnode_memory :=
  ws ← tnodes m !! tn;
  l ← overwrite (words_bytes ws) l;
  Some (m <| tnodes ::= <[tn := words_of_bytes (length ws) l]> |>).

(** One record: a tnode is read and put into the tree, and the start of the next record is read. *)
Definition read_tnode dev cp m (fs : yaffs_FileStructure) (tnodeSize baseChunk : Z)
  : option (bool * Z * yaffs_Device mtd * checkpoint * tnode_memory * yaffs_FileStructure) :=
  '(tn, dev, m) ← yaffs_GetTnodeRaw YMALLOC uninitialised dev m;
  if truthy tn then
    '(n, l, dev, cp) ← read dev cp tnodeSize;
    m ← store_tnode m tn l;
    if n =? tnodeSize then
      '(r, dev, m, fs) ← yaffs_AddOrFindLevel0Tnode YMALLOC uninitialised dev m fs baseChunk tn;
      if truthy r then
        '(n, l, dev, cp) ← read dev cp 4;
        Some (n =? 4, le_value l, dev, cp, m, fs)
      else Some (false, baseChunk, dev, cp, m, fs)
    else Some (false, baseChunk, dev, cp, m, fs)
  else Some (false, baseChunk, dev, cp, m, fs).

(** [while (ok && (~baseChunk))], with [fuel] rounds left. *)
Fixpoint read_tnodes_loop (fuel : nat) (ok : bool) (tnodeSize baseChunk : Z) dev cp m (fs : yaffs_FileStructure)
  : option (bool * yaffs_Device mtd * checkpoint * tnode_memory * yaffs_FileStructure) :=
  match fuel with
  | O => None
  | S fuel' =>
      if ok && truthy (u32 (Z.lnot baseChunk)) then
        '(ok, baseChunk, dev, cp, m, fs) ← read_tnode dev cp m fs tnodeSize baseChunk;
        read_tnodes_loop fuel' ok tnodeSize baseChunk dev cp m fs
      else Some (ok, dev, cp, m, fs)
  end.

Definition yaffs_ReadCheckpointTnodes (fuel : nat) dev cp m (fs : yaffs_FileStructure)
  : option (bool * yaffs_Device mtd * checkpoint * tnode_memory * yaffs_FileStructure) :=
  let tnodeSize := tnode_size dev in
  '(n, l, dev, cp) ← read dev cp 4;
  read_tnodes_loop fuel (n =? 4) tnodeSize (le_value l) dev cp m fs.

(** ** Objects *)

Definition yaffs_ObjectToCheckpointObject om (a : Z) (obj : yaffs_Object) : option yaffs_CheckpointObject :=
  parentId ← (if truthy (parent obj) then p ← objects om !! parent obj; Some (obj_objectId p) else Some 0);
  Some (mk_cpo sizeof_yaffs_CheckpointObject (obj_objectId obj) parentId (hdrChunk obj) (variantType obj) (deleted obj) (softDeleted obj)
          (unlinked obj) (fake obj) (renameAllowed obj) (unlinkAllowed obj) (serial obj) (nDataChunks obj)
          (match variantType obj with
           | YAFFS_OBJECT_TYPE_FILE => fileSize (fileVariant obj)
           | YAFFS_OBJECT_TYPE_HARDLINK => equivalentObjectId obj
           | _ => unset a
           end)).

Definition write_object dev cp m om (a : Z) (obj : yaffs_Object) : option (bool * yaffs_Device mtd * checkpoint) :=
  cpo ← yaffs_ObjectToCheckpointObject om a obj;
  '(n, dev, cp) ← write dev cp (var_bytes (cpo_bytes (padding a) cpo)) sizeof_yaffs_CheckpointObject;
  if n =? sizeof_yaffs_CheckpointObject then
    if bool_decide (variantType obj = YAFFS_OBJECT_TYPE_FILE) then yaffs_WriteCheckpointTnodes dev cp m obj else Some (true, dev, cp)
  else Some (false, dev, cp).

(** The walk over a bucket, which goes on after an object that could not be written; [l] are the objects that are left. *)
Fixpoint write_bucket (l : list Z) (ok : bool) dev cp m om : option (bool * yaffs_Device mtd * checkpoint) :=
  match l with
  | [] => Some (ok, dev, cp)
  | a :: l =>
      obj ← objects om !! a;
      '(ok, dev, cp) ← (if deferedFree obj then Some (ok, dev, cp) else write_object dev cp m om a obj);
      write_bucket l ok dev cp m om
  end.

(** [for (i = 0; ok && i < YAFFS_NOBJECT_BUCKETS; i++)]; [bs] are the buckets that are left. *)
Fixpoint write_buckets (bs : list yaffs_ObjectBucket) (ok : bool) dev cp m om : option (bool * yaffs_Device mtd * checkpoint) :=
  match bs with
  | [] => Some (ok, dev, cp)
  | b :: bs =>
      if ok then
        '(ok, dev, cp) ← write_bucket (bucket_list b) ok dev cp m om;
        write_buckets bs ok dev cp m om
      else Some (ok, dev, cp)
  end.

Definition yaffs_WriteCheckpointObjects dev cp m om : option (bool * yaffs_Device mtd * checkpoint) :=
  '(ok, dev, cp) ← write_buckets (objectBucket om) true dev cp m om;
  if (ok : bool) then
    '(n, dev, cp) ← write dev cp (var_bytes end_of_objects) sizeof_yaffs_CheckpointObject;
    Some (n =? sizeof_yaffs_CheckpointObject, dev, cp)
  else Some (false, dev, cp).

(** The fields that are copied. *)
Definition copy_fields (cp : yaffs_CheckpointObject) (obj : yaffs_Object) : yaffs_Object :=
  let obj := obj <| hdrChunk := cpo_hdrChunk cp |> <| variantType := cpo_variantType cp |> <| deleted := cpo_deleted cp |>
                 <| softDeleted := cpo_softDeleted cp |> <| unlinked := cpo_unlinked cp |> <| fake := cpo_fake cp |>
                 <| renameAllowed := cpo_renameAllowed cp |> <| unlinkAllowed := cpo_unlinkAllowed cp |>
                 <| serial := cpo_serial cp |> <| nDataChunks := cpo_nDataChunks cp |> in
  let obj := match variantType obj with
             | YAFFS_OBJECT_TYPE_FILE => obj <| fileVariant ::= fun fs => fs <| fileSize := cpo_fileSizeOrEquivalentObjectId cp |> |>
             | YAFFS_OBJECT_TYPE_HARDLINK => obj <| equivalentObjectId := cpo_fileSizeOrEquivalentObjectId cp |>
             | _ => obj
             end in
  if 0 <? hdrChunk obj then obj <| lazyLoaded := true |> else obj.

Definition yaffs_CheckpointObjectToObject dev m om (a : Z) (cp : yaffs_CheckpointObject)
  : option (bool * yaffs_Device mtd * tnode_memory * object_memory) :=
  obj ← objects om !! a;
  if bool_decide (variantType obj <> cpo_variantType cp) then Some (false, dev, m, om)
  else
    om ← update_object om a (fun obj => obj <| obj_objectId := cpo_objectId cp |>);
    '(p, dev, m, om) ← (if truthy (cpo_parentId cp)
                        then yaffs_FindOrCreateObjectByNumber YMALLOC uninitialised dev m om (s32 (cpo_parentId cp)) YAFFS_OBJECT_TYPE_DIRECTORY
                        else Some (0, dev, m, om));
    if truthy p then
      par ← objects om !! p;
      if bool_decide (variantType par <> YAFFS_OBJECT_TYPE_DIRECTORY) then Some (false, dev, m, om)
      else
        '(dev, om) ← yaffs_AddObjectToDirectory dev om p a;
        om ← update_object om a (copy_fields cp);
        Some (true, dev, m, om)
    else
      om ← update_object om a (copy_fields cp);
      Some (true, dev, m, om).

(** The tnodes of the file at [a], or its place among the hard links. *)
Definition read_variant (fuel : nat) dev cp m om (a : Z) (hardList : list Z)
  : option (bool * yaffs_Device mtd * checkpoint * tnode_memory * object_memory * list Z) :=
  obj ← objects om !! a;
  match variantType obj with
  | YAFFS_OBJECT_TYPE_FILE =>
      '(ok, dev, cp, m, fs) ← yaffs_ReadCheckpointTnodes fuel dev cp m (fileVariant obj);
      om ← update_object om a (fun obj => obj <| fileVariant := fs |>);
      Some (ok, dev, cp, m, om, hardList)
  | YAFFS_OBJECT_TYPE_HARDLINK => Some (true, dev, cp, m, om, a :: hardList)
  | _ => Some (true, dev, cp, m, om, hardList)
  end.

(** [while (ok && !done)], with [fuel] rounds left: whether all went well, and the hard links. *)
Fixpoint read_objects_loop (fuel : nat) dev cp m om (hardList : list Z)
  : option (bool * yaffs_Device mtd * checkpoint * tnode_memory * object_memory * list Z) :=
  match fuel with
  | O => None
  | S fuel' =>
      '(n, l, dev, cp) ← read dev cp sizeof_yaffs_CheckpointObject;
      if negb (n =? sizeof_yaffs_CheckpointObject) || negb (stored_int l 0 =? sizeof_yaffs_CheckpointObject)
      then Some (false, dev, cp, m, om, hardList)
      else if stored_word l 1 =? u32 (-1) then Some (true, dev, cp, m, om, hardList)
      else
        cpo ← cpo_of_bytes l;
        '(a, dev, m, om) ← yaffs_FindOrCreateObjectByNumber YMALLOC uninitialised dev m om (s32 (cpo_objectId cpo)) (cpo_variantType cpo);
        if truthy a then
          '(ok, dev, m, om) ← yaffs_CheckpointObjectToObject dev m om a cpo;
          if (ok : bool) then
            '(ok, dev, cp, m, om, hardList) ← read_variant fuel' dev cp m om a hardList;
            if (ok : bool) then read_objects_loop fuel' dev cp m om hardList else Some (false, dev, cp, m, om, hardList)
          else Some (false, dev, cp, m, om, hardList)
        else Some (false, dev, cp, m, om, hardList)
  end.

Definition yaffs_ReadCheckpointObjects (fuel : nat) dev cp m om
  : option (bool * yaffs_Device mtd * checkpoint * tnode_memory * object_memory) :=
  '(ok, dev, cp, m, om, hardList) ← read_objects_loop fuel dev cp m om [];
  om ← (if (ok : bool) then yaffs_HardlinkFixup om hardList else Some om);
  Some (ok, dev, cp, m, om).

(** ** The whole checkpoint *)

Definition yaffs_WriteCheckpointData dev cp m om : option (bool * yaffs_Device mtd * checkpoint) :=
  let ok := negb (skipCheckpointWrite dev || negb (isYaffs2 dev)) in
  '(ok, dev, cp) ← (if ok then '(r, dev, cp) ← yaffs_CheckpointOpen ops YMALLOC_DMA YMALLOC_ints dev cp true; Some (truthy r, dev, cp)
                    else Some (false, dev, cp));
  '(ok, dev, cp) ← (if (ok : bool) then yaffs_WriteCheckpointValidityMarker ops localTags dev cp true else Some (false, dev, cp));
  '(ok, dev, cp) ← (if (ok : bool) then yaffs_WriteCheckpointDevice dev cp else Some (false, dev, cp));
  '(ok, dev, cp) ← (if (ok : bool) then yaffs_WriteCheckpointObjects dev cp m om else Some (false, dev, cp));
  '(ok, dev, cp) ← (if (ok : bool) then yaffs_WriteCheckpointValidityMarker ops localTags dev cp false else Some (false, dev, cp));
  '(ok, dev, cp) ← (if (ok : bool) then yaffs_WriteCheckpointSum ops localTags dev cp else Some (false, dev, cp));
  '(r, dev, cp) ← yaffs_CheckpointClose ops localTags dev cp;
  let ok := ok && truthy r in
  Some (ok, dev <| isCheckpointed := ok |>, cp).

Definition yaffs_ReadCheckpointData (fuel : nat) dev cp m om
  : option (bool * yaffs_Device mtd * checkpoint * tnode_memory * object_memory) :=
  let ok := negb (skipCheckpointRead dev || negb (isYaffs2 dev)) in
  '(ok, dev, cp) ← (if ok then '(r, dev, cp) ← yaffs_CheckpointOpen ops YMALLOC_DMA YMALLOC_ints dev cp false; Some (truthy r, dev, cp)
                    else Some (false, dev, cp));
  '(ok, dev, cp) ← (if (ok : bool) then yaffs_ReadCheckpointValidityMarker ops localTags dev cp true else Some (false, dev, cp));
  '(ok, dev, cp) ← (if (ok : bool) then yaffs_ReadCheckpointDevice dev cp else Some (false, dev, cp));
  '(ok, dev, cp, m, om) ← (if (ok : bool) then yaffs_ReadCheckpointObjects fuel dev cp m om else Some (false, dev, cp, m, om));
  '(ok, dev, cp) ← (if (ok : bool) then yaffs_ReadCheckpointValidityMarker ops localTags dev cp false else Some (false, dev, cp));
  '(ok, dev, cp) ← (if (ok : bool) then yaffs_ReadCheckpointSum ops localTags dev cp else Some (false, dev, cp));
  '(r, dev, cp) ← yaffs_CheckpointClose ops localTags dev cp;
  let ok := ok && truthy r in
  Some (ok, dev <| isCheckpointed := ok |>, cp, m, om).

Definition yaffs_CheckpointSave dev cp m om : option (bool * yaffs_Device mtd * checkpoint) :=
  if negb (isCheckpointed dev) then
    dev ← yaffs_InvalidateCheckpoint ops dev;
    '(_, dev, cp) ← yaffs_WriteCheckpointData dev cp m om;
    Some (isCheckpointed dev, dev, cp)
  else Some (isCheckpointed dev, dev, cp).

Definition yaffs_CheckpointRestore (fuel : nat) dev cp m om
  : option (bool * yaffs_Device mtd * checkpoint * tnode_memory * object_memory) :=
  yaffs_ReadCheckpointData fuel dev cp m om.

(** The part of [yaffs_GutsInitialise] that makes the first objects and reads the checkpoint. *)
Definition mount_from_checkpoint (fuel : nat) dev cp m om : option (bool * yaffs_Device mtd * checkpoint * tnode_memory * object_memory) :=
  let '(dev, m) := yaffs_InitialiseTnodes dev m in
  let '(dev, om) := yaffs_InitialiseObjects dev om in
  '(r, dev, m, om) ← yaffs_CreateInitialDirectories YMALLOC uninitialised dev m om;
  if truthy r && isYaffs2 dev then yaffs_CheckpointRestore fuel dev cp m om else Some (false, dev, cp, m, om).

End Contents.
