(* ===== verification/YaffsCheckpointFacts.v ===== *)
(** * Writing and reading the checkpoint stream

    What a driver promises about pages ([PageStore]), the invariants of a stream that is
    written ([writing]) and that is read ([reading]), and what every operation does to them. *)

From S2P Require Import Prelude NandEcc NandEccFacts YaffsTags YaffsNand YaffsBlocks YaffsBlocksFacts YaffsBlocksOps.
From S2P Require Import YaffsCheckpoint.
From stdpp Require Import list.

Local Open Scope Z_scope.

(** The tags of page number [k] - 1 of a checkpoint, with the hint [o] at the next block. *)
Record stamped (o k : Z) (t : yaffs_ExtendedTags) : Prop := {
  st_object : objectId t = o;
  st_chunk : chunkId t = k;
  st_sequence : sequenceNumber t = YAFFS_SEQUENCE_CHECKPOINT_DATA
}.

(** A device with chunks of [N] bytes, [B] in a block. *)
Definition fits {mtd} (N B : Z) (nte : bool) (dev : yaffs_Device mtd) : Prop :=
  (nDataBytesPerChunk dev, totalBytesPerChunk dev, nChunksPerBlock dev, inbandTags dev, noTagsECC dev) = (N, N, B, false, nte).

(** Pages of the medium: erased, written with a checkpoint page, or with the tags of something else. *)
Class Pages (mtd : Type) := {
  blank_page : mtd -> Z -> Prop;
  checkpoint_page : mtd -> Z -> list Z -> Z -> Z -> Prop;
  foreign_page : mtd -> Z -> Prop;
  blank_foreign : forall m c, blank_page m c -> foreign_page m c
}.

(** The pages outside [P] are what they were. *)
Definition pages_kept {mtd} `{!Pages mtd} (P : Z -> Prop) (m m' : mtd) : Prop :=
  forall c, ~ P c -> (blank_page m c -> blank_page m' c) /\ (foreign_page m c -> foreign_page m' c) /\
    (forall d o k, checkpoint_page m c d o k -> checkpoint_page m' c d o k).

(** The promise of a driver: writing to an erased page, reading and erasing do what they say, and nothing else. *)
Class PageStore {mtd} `{!Pages mtd} (N B : Z) (nte : bool) (ops : nand_ops mtd) : Prop := {
  store_mark : is_Some (markNANDBlockBad ops);
  store_erase : forall dev b, fits N B nte dev -> 0 <= b -> (b + 1) * B * N <= 2 ^ 32 ->
    exists r m, eraseBlockInNAND ops dev b = (r, dev <| genericDevice := m |>) /\ truthy r = true /\
      (forall c, b * B <= c < (b + 1) * B -> blank_page m c) /\
      pages_kept (fun c => b * B <= c < (b + 1) * B) (genericDevice dev) m;
  store_write : exists write, writeChunkWithTagsToNAND ops = Some write /\
    forall dev c d t o k, fits N B nte dev -> 0 <= c -> blank_page (genericDevice dev) c -> bytes (Z.to_nat N) d ->
      stamped o k t -> in_w 28 o -> 0 < k < 2 ^ 31 -> in_w 32 (byteCount t) ->
      exists r m, write dev c (Some d) t = Some (r, dev <| genericDevice := m |>) /\
        checkpoint_page m c d o k /\ pages_kept (eq c) (genericDevice dev) m;
  store_read : exists read, readChunkWithTagsFromNAND ops = Some read /\
    (forall dev c d o k b t, fits N B nte dev -> checkpoint_page (genericDevice dev) c d o k ->
       (forall b', b = Some b' -> blen b' = N) ->
       exists r b' t' m s, read dev c b t = Some (r, b', t', dev <| genericDevice := m |> <| spareBuffer := s |>) /\
         (is_Some b -> b' = Some d) /\ stamped o k t' /\ eccResult t' <> YAFFS_ECC_RESULT_UNFIXED /\
         pages_kept (fun _ => False) (genericDevice dev) m) /\
    (forall dev c t, fits N B nte dev -> foreign_page (genericDevice dev) c ->
       exists r b' t' m s, read dev c None t = Some (r, b', t', dev <| genericDevice := m |> <| spareBuffer := s |>) /\
         sequenceNumber t' <> YAFFS_SEQUENCE_CHECKPOINT_DATA /\ pages_kept (fun _ => False) (genericDevice dev) m)
}.

Section Kept.
Context {mtd : Type} `{!Pages mtd}.

Lemma kept_refl P (m : mtd) : pages_kept P m m.
Proof. by intros c _. Qed.

Lemma kept_trans P (m m' m'' : mtd) : pages_kept P m m' -> pages_kept P m' m'' -> pages_kept P m m''.
Proof.
  intros H H' c Hc. destruct (H c Hc) as (H1 & H2 & H3), (H' c Hc) as (H1' & H2' & H3'). split_and!; auto.
Qed.

Lemma kept_blank P (m m' : mtd) c : pages_kept P m m' -> ~ P c -> blank_page m c -> blank_page m' c.
Proof. intros H Hc. by apply H. Qed.

Lemma kept_foreign P (m m' : mtd) c : pages_kept P m m' -> ~ P c -> foreign_page m c -> foreign_page m' c.
Proof. intros H Hc. by apply H. Qed.

Lemma kept_page P (m m' : mtd) c d o k : pages_kept P m m' -> ~ P c -> checkpoint_page m c d o k -> checkpoint_page m' c d o k.
Proof. intros H Hc. by apply H. Qed.
End Kept.

Section Stream.
Context {mtd : Type} `{!Pages mtd} (N B : Z) (nte : bool) (ops : nand_ops mtd) `{!PageStore N B nte ops}.
Context (localTags : yaffs_ExtendedTags) (YMALLOC_DMA YMALLOC_ints : Z -> option (list Z)).

Implicit Types (dev : yaffs_Device mtd) (cp : checkpoint).

(** What the stream does not change in a device. *)
Definition static dev :=
  (nDataBytesPerChunk dev, totalBytesPerChunk dev, nChunksPerBlock dev, inbandTags dev, noTagsECC dev,
   internalStartBlock dev, internalEndBlock dev, blockOffset dev, chunkOffset dev, nReservedBlocks dev).

Record aligned dev : Prop := {
  al_fits : fits N B nte dev;
  al_bytes : 4 <= N;
  al_chunks : 0 < B;
  al_offset : chunkOffset dev = blockOffset dev * B;
  al_low : 0 <= blockOffset dev <= internalStartBlock dev;
  al_end : internalEndBlock dev + 1 < 2 ^ 28;
  al_high : (internalEndBlock dev + 1) * B * N <= 2 ^ 32
}.

Lemma aligned_static dev dev' : static dev' = static dev -> aligned dev -> aligned dev'.
Proof.
  intros E []. unfold static in E. injection E as E1 E2 E3 E4 E5 E6 E7 E8 E9 E10.
  constructor; unfold fits in *; congruence || (by rewrite ?E6, ?E7, ?E8, ?E9).
Qed.

(** The number of a page on the medium. *)
Definition page_no dev (b p : Z) : Z := (b - blockOffset dev) * B + p.

(** Empty blocks are erased, and only the blocks of the checkpoint look like ones of a checkpoint. *)
Record clean dev : Prop := {
  cl_empty : forall i bi p, blockInfo dev !! i = Some bi -> blockState bi = YAFFS_BLOCK_STATE_EMPTY -> 0 <= p < B ->
    blank_page (genericDevice dev) (page_no dev (blk dev i) p);
  cl_foreign : forall i bi, blockInfo dev !! i = Some bi -> blockState bi <> YAFFS_BLOCK_STATE_CHECKPOINT ->
    foreign_page (genericDevice dev) (page_no dev (blk dev i) 0)
}.

(** Pages in different places are different. *)
Lemma page_block b b' p p' off :
  0 < B -> 0 <= p < B -> 0 <= p' < B -> (b - off) * B + p = (b' - off) * B + p' -> b = b' /\ p = p'.
Proof. intros. assert (b = b') by nia. subst. split; [done|lia]. Qed.

Lemma static_blk dev dev' i : static dev' = static dev -> blk dev' i = blk dev i.
Proof. intros E. injection E as _ _ _ _ _ E6 _ _ _ _. unfold blk. by rewrite E6. Qed.

Lemma static_page dev dev' b p : static dev' = static dev -> page_no dev' b p = page_no dev b p.
Proof. intros E. injection E as _ _ _ _ _ _ _ E8 _ _. unfold page_no. by rewrite E8. Qed.

(** Erased blocks have become blocks of the checkpoint. *)
Definition taking : list yaffs_BlockInfo -> list yaffs_BlockInfo -> Prop :=
  Forall2 (fun bi bi' => bi' = bi \/ (blockState bi = YAFFS_BLOCK_STATE_EMPTY /\ bi' = bi <| blockState := YAFFS_BLOCK_STATE_CHECKPOINT |>)).

(** What writing changes in a device. *)
Definition rewritten dev dev' : Prop :=
  exists m n b l, dev' = dev <| genericDevice := m |> <| nPageWrites := n |> <| blocksInCheckpoint := b |> <| blockInfo := l |> /\
    taking (blockInfo dev) l.

(** What reading changes in a device. *)
Definition reread dev dev' : Prop :=
  exists m s n b, dev' = dev <| genericDevice := m |> <| spareBuffer := s |> <| nPageReads := n |> <| blocksInCheckpoint := b |>.

(** What erasing the last checkpoint changes: its blocks are empty. *)
Definition emptied : list yaffs_BlockInfo -> list yaffs_BlockInfo -> Prop :=
  Forall2 (fun bi bi' => bi' = bi \/ bi' = bi <| blockState := YAFFS_BLOCK_STATE_EMPTY |>).

Definition erased_since dev dev' : Prop :=
  exists m e f n b l, dev' = dev <| genericDevice := m |> <| nErasedBlocks := e |> <| nFreeChunks := f |> <| nBlockErasures := n |>
                                 <| blocksInCheckpoint := b |> <| blockInfo := l |> /\
    emptied (blockInfo dev) l /\ nErasedBlocks dev <= e.

Lemma emptied_refl l : emptied l l.
Proof. apply Forall_Forall2_diag, Forall_true. by left. Qed.

Lemma emptied_trans l l' l'' : emptied l l' -> emptied l' l'' -> emptied l l''.
Proof.
  intros H. revert l''. induction H as [|x y l l' Hxy _ IH]; intros l'' Hl''; inversion Hl'' as [|? z ? m Hyz Hm]; subst; constructor; [|by apply IH].
  destruct Hxy as [->| ->], Hyz as [->| ->]; auto.
Qed.

Lemma erased_refl dev : erased_since dev dev.
Proof.
  exists (genericDevice dev), (nErasedBlocks dev), (nFreeChunks dev), (nBlockErasures dev), (blocksInCheckpoint dev), (blockInfo dev).
  split; [by destruct dev|]. split; [apply emptied_refl|lia].
Qed.

Lemma erased_trans dev dev' dev'' : erased_since dev dev' -> erased_since dev' dev'' -> erased_since dev dev''.
Proof.
  intros (m & e & f & n & b & l & -> & H & L) (m' & e' & f' & n' & b' & l' & -> & H' & L'). exists m', e', f', n', b', l'.
  split; [done|]. split; [by eapply emptied_trans|]. change (e <= e') in L'. lia.
Qed.

Lemma erased_forget dev dev' : erased_since dev dev' -> erased_since dev (dev' <| blocksInCheckpoint := 0 |>).
Proof.
  intros H. apply (erased_trans _ dev'); [done|].
  exists (genericDevice dev'), (nErasedBlocks dev'), (nFreeChunks dev'), (nBlockErasures dev'), 0, (blockInfo dev').
  split; [by destruct dev'|]. split; [apply emptied_refl|lia].
Qed.

Lemma erased_static dev dev' : erased_since dev dev' -> static dev' = static dev.
Proof. by intros (m & e & f & n & b & l & -> & _). Qed.

Lemma erased_info dev dev' : erased_since dev dev' -> emptied (blockInfo dev) (blockInfo dev').
Proof. by intros (m & e & f & n & b & l & -> & H & _). Qed.

Lemma erased_count dev dev' : erased_since dev dev' -> nErasedBlocks dev <= nErasedBlocks dev'.
Proof. by intros (m & e & f & n & b & l & -> & _ & H). Qed.

Lemma taking_refl l : taking l l.
Proof. apply Forall_Forall2_diag, Forall_true. by left. Qed.

Lemma taking_trans l l' l'' : taking l l' -> taking l' l'' -> taking l l''.
Proof.
  intros H. revert l''. induction H as [|x y l l' Hxy _ IH]; intros l'' Hl''; inversion Hl'' as [|? z ? m Hyz Hm]; subst; constructor; [|by apply IH].
  destruct Hxy as [->|[E1 ->]], Hyz as [->|[E2 ->]]; auto.
Qed.

Lemma rewritten_refl dev : rewritten dev dev.
Proof. exists (genericDevice dev), (nPageWrites dev), (blocksInCheckpoint dev), (blockInfo dev). split; [by destruct dev|apply taking_refl]. Qed.

Lemma rewritten_trans dev dev' dev'' : rewritten dev dev' -> rewritten dev' dev'' -> rewritten dev dev''.
Proof.
  intros (m & n & b & l & -> & T1) (m' & n' & b' & l' & -> & T2). exists m', n', b', l'. split; [done|]. by eapply taking_trans.
Qed.

Lemma page_rewritten dev m : rewritten dev (dev <| nPageWrites ::= Z.succ |> <| genericDevice := m |>).
Proof. exists m, (Z.succ (nPageWrites dev)), (blocksInCheckpoint dev), (blockInfo dev). split; [done|apply taking_refl]. Qed.

Lemma rewritten_static dev dev' : rewritten dev dev' -> static dev' = static dev.
Proof. by intros (m & n & b & l & -> & _). Qed.

Lemma rewritten_erased dev dev' : rewritten dev dev' -> nErasedBlocks dev' = nErasedBlocks dev.
Proof. by intros (m & n & b & l & -> & _). Qed.

Lemma rewritten_info dev dev' : rewritten dev dev' -> taking (blockInfo dev) (blockInfo dev').
Proof. by intros (m & n & b & l & -> & H). Qed.

Lemma reread_refl dev : reread dev dev.
Proof. exists (genericDevice dev), (spareBuffer dev), (nPageReads dev), (blocksInCheckpoint dev). by destruct dev. Qed.

Lemma reread_trans dev dev' dev'' : reread dev dev' -> reread dev' dev'' -> reread dev dev''.
Proof. intros (m & s & n & b & ->) (m' & s' & n' & b' & ->). by exists m', s', n', b'. Qed.

Lemma reread_static dev dev' : reread dev dev' -> static dev' = static dev.
Proof. by intros (m & s & n & b & ->). Qed.

Lemma reread_info dev dev' : reread dev dev' -> blockInfo dev' = blockInfo dev.
Proof. by intros (m & s & n & b & ->). Qed.

(** ** Erasing the last checkpoint *)

Lemma erase_block_clean dev i bi :
  aligned dev -> clean dev -> accounts dev -> blockInfo dev !! i = Some bi ->
  exists dev', checkpoint_erase_block ops dev (blk dev i) = Some dev' /\ erased_since dev dev' /\ clean dev' /\ accounts dev' /\
    (forall j, j <> i -> blockInfo dev' !! j = blockInfo dev !! j) /\
    exists bi', blockInfo dev' !! i = Some bi' /\ blockState bi' <> YAFFS_BLOCK_STATE_CHECKPOINT.
Proof.
  intros Hal Hcl Hac Hi. unfold checkpoint_erase_block. rewrite GetBlockInfo_blk, Hi. cbn [mbind option_bind].
  case_bool_decide as Hs. 2:{ exists dev. split_and!; [done|apply erased_refl|done..|by exists bi]. }
  cbv zeta. pose proof (ac_geometry _ _ _ Hac) as Hg.
  assert (0 <= blk dev i - blockOffset dev /\ blk dev i <= internalEndBlock dev) as [Hlo Hhi].
  { apply lookup_lt_Some in Hi. destruct Hal, Hg. unfold blk. lia. }
  set (dev0 := dev <| nBlockErasures ::= Z.succ |>).
  destruct (store_erase dev0 (blk dev i - blockOffset dev)) as (r & m & E & Hr & Hbl & Hk).
  { apply Hal. } { done. } { destruct Hal. nia. }
  change (blockOffset dev0) with (blockOffset dev). rewrite E, Hr. set (dev1 := dev0 <| genericDevice := m |>).
  change (blk dev i) with (blk dev1 i). rewrite (update_block_blk dev1 i bi) by done. cbn [mbind option_bind].
  set (bi' := bi <| blockState := YAFFS_BLOCK_STATE_EMPTY |>).
  destruct (checkpoint_block None 0 dev1 i bi true) as [Ha' _]; [by apply (accounts_quiet None 0 dev)|done|done|].
  match goal with |- exists d, Some ?d' = Some d /\ _ => set (dev2 := d') end.
  assert (blockInfo dev2 = <[i := bi']> (blockInfo dev)) as Einfo.
  { destruct (set_block_moves dev1 i bi') as [_ Hb]. by injection Hb. }
  pose proof (lookup_lt_Some _ _ _ Hi) as Hlt. destruct Hcl as [Hem Hfo]. pose proof (al_chunks _ Hal) as HB.
  assert (erased_since dev dev2) as He.
  { exists m, (Z.succ (nErasedBlocks dev)), (nChunksPerBlock dev + nFreeChunks dev), (Z.succ (nBlockErasures dev)), (blocksInCheckpoint dev), (<[i := bi']> (blockInfo dev)).
    split; [|split; [|lia]].
    - unfold dev2, set_block_info. by replace (Z.to_nat (blk dev1 i - internalStartBlock dev1)) with i by (unfold blk; lia).
    - apply Forall2_same_length_lookup. split; [by rewrite length_insert|]. intros k x y Hx Hy. destruct (decide (k = i)) as [->|Hne].
      + rewrite list_lookup_insert_eq in Hy by done. rewrite Hi in Hx. injection Hx as <-. injection Hy as <-. by right.
      + rewrite list_lookup_insert_ne in Hy by done. left. congruence. }
  exists dev2. split; [done|]. split; [exact He|]. split.
  - split; intros j bj.
    + intros p. rewrite Einfo. intros Hj Hst Hp. change (blank_page m (page_no dev (blk dev j) p)). destruct (decide (j = i)) as [->|Hne].
      * apply Hbl. unfold page_no. nia.
      * rewrite list_lookup_insert_ne in Hj by done. eapply kept_blank; [exact Hk| |by eapply Hem].
        unfold page_no, blk. intros Hc. assert (j = i) by nia. done.
    + rewrite Einfo. intros Hj Hst. change (foreign_page m (page_no dev (blk dev j) 0)). destruct (decide (j = i)) as [->|Hne].
      * apply blank_foreign, Hbl. unfold page_no. nia.
      * rewrite list_lookup_insert_ne in Hj by done. eapply kept_foreign; [exact Hk| |by eapply Hfo].
        unfold page_no, blk. intros Hc. assert (j = i) by nia. done.
  - split; [exact Ha'|]. rewrite Einfo. split; [intros j Hne; by apply list_lookup_insert_ne|].
    exists bi'. split; [by apply list_lookup_insert_eq|done].
Qed.

Lemma erase_loop_clean n : forall dev i,
  aligned dev -> clean dev -> accounts dev -> (i + n <= length (blockInfo dev))%nat ->
  (forall j bj, (j < i)%nat -> blockInfo dev !! j = Some bj -> blockState bj <> YAFFS_BLOCK_STATE_CHECKPOINT) ->
  exists dev', checkpoint_erase_loop ops n dev (blk dev i) = Some dev' /\ erased_since dev dev' /\ clean dev' /\ accounts dev' /\
    (forall j bj, (j < i + n)%nat -> blockInfo dev' !! j = Some bj -> blockState bj <> YAFFS_BLOCK_STATE_CHECKPOINT).
Proof.
  induction n as [|n IH]; intros dev i Hal Hcl Hac Hn Hst; cbn [checkpoint_erase_loop].
  - exists dev. split_and!; [done|apply erased_refl|done..|]. intros j bj Hj. apply Hst. lia.
  - destruct (lookup_lt_is_Some_2 (blockInfo dev) i) as [bi Hi]; [lia|].
    destruct (erase_block_clean dev i bi Hal Hcl Hac Hi) as (dev1 & -> & S1 & C1 & A1 & O1 & bi1 & Hi1 & Hs1).
    pose proof (Forall2_length _ _ _ (erased_info _ _ S1)) as L1.
    cbn [mbind option_bind]. rewrite blk_succ, <- (static_blk dev dev1) by (by apply erased_static).
    destruct (IH dev1 (S i)) as (dev2 & -> & S2 & C2 & A2 & O2); [by apply (aligned_static dev), Hal; apply erased_static|done|done|lia|..].
    { intros j bj Hj Hjl. destruct (decide (j = i)) as [->|Hne]; [by rewrite Hi1 in Hjl; injection Hjl as <-|].
      rewrite O1 in Hjl by done. apply (Hst j); [lia|done]. }
    exists dev2. split_and!; [done|by eapply erased_trans|done|done|]. intros j bj Hj. apply O2. lia.
Qed.

(** After the blocks of the last checkpoint are erased, there is none. *)
Lemma Erase_spec dev : aligned dev -> clean dev -> accounts dev ->
  exists dev', yaffs_CheckpointErase ops dev = Some (1, dev') /\ erased_since dev dev' /\ clean dev' /\ accounts dev' /\
    blocksInCheckpoint dev' = 0 /\
    forall i bi, blockInfo dev' !! i = Some bi -> blockState bi <> YAFFS_BLOCK_STATE_CHECKPOINT.
Proof.
  intros Hal Hcl Hac. unfold yaffs_CheckpointErase, block_count.
  destruct (erase_loop_clean (length (blockInfo dev)) dev 0 Hal Hcl Hac) as (dev1 & E & S1 & [Hem Hfo] & A1 & F1); [lia|lia|].
  pose proof (Forall2_length _ _ _ (erased_info _ _ S1)) as L1.
  pose proof (ac_geometry _ _ _ Hac) as [_ _ _ Hend _ _].
  replace (Z.to_nat (internalEndBlock dev - internalStartBlock dev + 1)) with (length (blockInfo dev)) by lia.
  unfold blk in E. rewrite Z.add_0_r in E. rewrite E. cbn [mbind option_bind]. exists (dev1 <| blocksInCheckpoint := 0 |>).
  split; [done|]. split; [by apply erased_forget|]. split; [by split|].
  split; [by apply (accounts_quiet None 0 dev1)|]. split; [done|].
  intros i bi Hi. apply (F1 i bi); [|exact Hi]. apply lookup_lt_Some in Hi. change (blockInfo (dev1 <| blocksInCheckpoint := 0 |>)) with (blockInfo dev1) in Hi. lia.
Qed.

(** Without blocks of a checkpoint no block looks like one. *)
Lemma clean_foreign dev b :
  clean dev -> internalEndBlock dev = internalStartBlock dev + Z.of_nat (length (blockInfo dev)) - 1 ->
  (forall i bi, blockInfo dev !! i = Some bi -> blockState bi <> YAFFS_BLOCK_STATE_CHECKPOINT) ->
  internalStartBlock dev <= b <= internalEndBlock dev -> foreign_page (genericDevice dev) (page_no dev b 0).
Proof.
  intros [_ Hfo] Hend Hno Hb. destruct (lookup_lt_is_Some_2 (blockInfo dev) (Z.to_nat (b - internalStartBlock dev))) as [bi Hi]; [lia|].
  assert (blk dev (Z.to_nat (b - internalStartBlock dev)) = b) as Eb by (unfold blk; lia). rewrite <- Eb. apply (Hfo _ bi Hi). by apply (Hno _ _ Hi).
Qed.

(** ** The pages of a stream *)

Definition per_block : nat := Z.to_nat B.

Definition increasing (l : list Z) : Prop := forall i j x y, l !! i = Some x -> l !! j = Some y -> (i < j)%nat -> x < y.

(** The pages [ps] are in the blocks [bs], in this order, and no other block looks like one of the checkpoint. *)
Record saved dev (bs : list Z) (ps : list (list Z)) : Prop := {
  sv_sorted : increasing bs;
  sv_range : forall b, b ∈ bs -> internalStartBlock dev <= b <= internalEndBlock dev;
  sv_foreign : forall b, internalStartBlock dev <= b <= internalEndBlock dev -> b ∉ bs ->
    foreign_page (genericDevice dev) (page_no dev b 0);
  sv_bytes : Forall (bytes (Z.to_nat N)) ps;
  sv_pages : forall k d, ps !! k = Some d -> exists b, bs !! (k / per_block)%nat = Some b /\
    checkpoint_page (genericDevice dev) (page_no dev b (Z.of_nat (k mod per_block))) d (b + 1) (Z.of_nat k + 1)
}.

(** Closing takes the blocks of the checkpoint off the counters. *)
Definition booked dev : yaffs_Device mtd :=
  let dev := dev <| nFreeChunks ::= fun n => n - blocksInCheckpoint dev * nChunksPerBlock dev |> in
  dev <| nErasedBlocks ::= fun n => n - blocksInCheckpoint dev |>.

(** The device while the stream is written. *)
Record stream_dev dev (bs : list Z) (ps : list (list Z)) : Prop := {
  sd_aligned : aligned dev;
  sd_accounts : accounts (booked dev);
  sd_avail : 0 < nErasedBlocks dev - nReservedBlocks dev;
  sd_count : blocksInCheckpoint dev = Z.of_nat (length bs);
  sd_state : forall i bi, blockInfo dev !! i = Some bi -> blk dev i ∈ bs <-> blockState bi = YAFFS_BLOCK_STATE_CHECKPOINT;
  sd_empty : forall i bi p, blockInfo dev !! i = Some bi -> blockState bi = YAFFS_BLOCK_STATE_EMPTY -> 0 <= p < B ->
    blank_page (genericDevice dev) (page_no dev (blk dev i) p);
  sd_below : forall i bi b, blockInfo dev !! i = Some bi -> blockState bi = YAFFS_BLOCK_STATE_EMPTY -> b ∈ bs -> b < blk dev i;
  sd_saved : saved dev bs ps
}.

Lemma stream_clean dev bs ps : stream_dev dev bs ps -> clean dev.
Proof.
  intros []. split; [done|]. intros i bi Hi Hs. apply (sv_foreign _ _ _ sd_saved0).
  - pose proof (ac_geometry _ _ _ sd_accounts0) as Hg. apply lookup_lt_Some in Hi.
    destruct Hg as [_ _ _ Hb _ _]. change (blockInfo (booked dev)) with (blockInfo dev) in Hb.
    change (internalEndBlock (booked dev)) with (internalEndBlock dev) in Hb.
    change (internalStartBlock (booked dev)) with (internalStartBlock dev) in Hb. unfold blk. lia.
  - by rewrite (sd_state0 i bi).
Qed.

Lemma increasing_nodup l : increasing l -> NoDup l.
Proof.
  intros H. apply NoDup_alt. intros i j x Hi Hj. destruct (Nat.lt_total i j) as [Hl|[->|Hl]]; [|done|].
  - pose proof (H i j x x Hi Hj Hl). lia.
  - pose proof (H j i x x Hj Hi Hl). lia.
Qed.

Lemma increasing_snoc l x : increasing l -> (forall y, y ∈ l -> y < x) -> increasing (l ++ [x]).
Proof.
  intros H Hx i j y z Hi Hj Hij. apply lookup_app_Some in Hj as [Hj|[Hge Hj]].
  - rewrite lookup_app_l in Hi by (apply lookup_lt_Some in Hj; lia). by apply (H i j).
  - apply list_lookup_singleton_Some in Hj as [Hz <-]. rewrite lookup_app_l in Hi by lia. apply Hx. by eapply list_elem_of_lookup_2.
Qed.

(** There are fewer pages than numbers for them. *)
Lemma page_bound dev bs ps k b : aligned dev -> saved dev bs ps -> bs !! (k / per_block)%nat = Some b -> Z.of_nat k < 2 ^ 31 - 1.
Proof.
  intros [_ HN HB _ Hlow _ Hhigh] Hsv Hb. pose proof (increasing_nodup _ (sv_sorted _ _ _ Hsv)) as Hnd.
  assert (length bs <= Z.to_nat (internalEndBlock dev + 1))%nat as Hle.
  { rewrite <- (length_seqZ 0 (internalEndBlock dev + 1)). apply submseteq_length, NoDup_submseteq; [done|]. intros x Hx.
    apply elem_of_seqZ. pose proof (sv_range _ _ _ Hsv x Hx). lia. }
  pose proof (Nat.div_mod_eq k per_block) as D. pose proof (Nat.mod_upper_bound k per_block ltac:(unfold per_block; lia)).
  apply lookup_lt_Some in Hb. assert (k < per_block * length bs)%nat by nia.
  assert (Z.of_nat k < B * (internalEndBlock dev + 1)) by (unfold per_block in *; nia). nia.
Qed.

(** The next page of the stream is written to its place. *)
Lemma put_page dev bs ps b d write t :
  stream_dev dev bs ps -> bs !! (length ps / per_block)%nat = Some b -> (length ps / per_block)%nat = pred (length bs) ->
  (forall p, Z.of_nat (length ps mod per_block) <= p < B -> blank_page (genericDevice dev) (page_no dev b p)) ->
  writeChunkWithTagsToNAND ops = Some write -> bytes (Z.to_nat N) d -> stamped (b + 1) (Z.of_nat (length ps) + 1) t ->
  in_w 32 (byteCount t) ->
  exists r m, write dev (b * B + Z.of_nat (length ps mod per_block) - chunkOffset dev) (Some d) t =
      Some (r, dev <| genericDevice := m |>) /\
    stream_dev (dev <| genericDevice := m |>) bs (ps ++ [d]) /\
    (forall p, Z.of_nat (length ps mod per_block) < p < B -> blank_page m (page_no dev b p)).
Proof.
  intros [Hal Hac Hav Hct Hst Hem Hbe Hsv] Hb Hlen Hbl Ew Hd Ht Hbc.
  pose proof (al_chunks _ Hal) as HB. set (k := length ps) in *. set (q := (k mod per_block)%nat) in *.
  assert (q < per_block)%nat as Hq by (apply Nat.mod_upper_bound; unfold per_block; lia).
  assert (0 <= Z.of_nat q < B) as HqB by (unfold per_block in Hq; lia).
  assert (b ∈ bs) as Hbin by (by eapply list_elem_of_lookup_2). pose proof (sv_range _ _ _ Hsv b Hbin) as Hbr.
  assert (b * B + Z.of_nat q - chunkOffset dev = page_no dev b (Z.of_nat q)) as ->.
  { rewrite (al_offset _ Hal). unfold page_no. nia. }
  destruct (store_write (B := B) (N := N) (nte := nte) (ops := ops)) as (w & E & Hw). rewrite E in Ew. injection Ew as ->.
  pose proof (page_bound dev bs ps k b Hal Hsv Hb) as Hk31.
  destruct (Hw dev (page_no dev b (Z.of_nat q)) d t (b + 1) (Z.of_nat k + 1)) as (r & m & Ewr & Hpage & Hkept); try done.
  { apply Hal. } { unfold page_no. pose proof (al_low _ Hal). nia. } { apply Hbl. lia. }
  { unfold in_w. pose proof (al_low _ Hal). pose proof (al_end _ Hal). lia. } { lia. }
  exists r, m. split; [done|].
  assert (forall b' p', 0 <= p' < B -> b' <> b \/ p' <> Z.of_nat q -> ~ page_no dev b (Z.of_nat q) = page_no dev b' p') as Hdiff.
  { intros b' p' Hp' Hne Heq. apply page_block in Heq as [E1 E2]; [|done..]. destruct Hne; congruence. }
  split; [constructor; try done|].
  - by apply (aligned_static dev).
  - unfold accounts. by apply (accounts_quiet None 0 (booked dev)).
  - intros i bi p Hi Hs Hp. eapply kept_blank; [exact Hkept| |by eapply Hem]. apply Hdiff; [done|]. left. intros E'.
    change (blk _ i) with (blk dev i) in E'.
    assert (blockState bi = YAFFS_BLOCK_STATE_CHECKPOINT) by (apply (Hst i bi Hi); by rewrite E'). congruence.
  - destruct Hsv as [S1 S2 S3 S4 S5]. constructor; try done.
    + intros b' Hb' Hnin. eapply kept_foreign; [exact Hkept| |by apply S3]. apply Hdiff; [lia|]. left. by intros ->.
    + apply Forall_app. split; [done|]. by apply Forall_singleton.
    + intros k' d' Hk'. apply lookup_app_Some in Hk' as [Hk'|[Hge Hk']].
      * destruct (S5 k' d' Hk') as (b' & Hb' & Hp'). exists b'. split; [done|]. eapply kept_page; [exact Hkept| |exact Hp'].
        assert (k' mod per_block < per_block)%nat by (apply Nat.mod_upper_bound; lia). apply Hdiff; [unfold per_block in *; lia|].
        destruct (decide (b' = b)) as [->|]; [|by left]. right. intros Heq.
        assert (k' / per_block = k / per_block)%nat as Hdiv by (eapply NoDup_lookup; [by apply increasing_nodup|done|done]).
        apply lookup_lt_Some in Hk'. pose proof (Nat.div_mod_eq k' per_block) as D1. pose proof (Nat.div_mod_eq k per_block) as D2.
        rewrite Hdiv in D1. apply Nat2Z.inj in Heq. fold q in D2. fold k in Hk'. lia.
      * apply list_lookup_singleton_Some in Hk' as [Hz <-]. assert (k' = k) as -> by lia. by exists b.
  - intros p Hp. eapply kept_blank; [exact Hkept| |apply Hbl; lia]. apply Hdiff; [lia|]. right. lia.
Qed.

(** ** Finding an erased block *)

(** Where the search for the next block starts. *)
Definition next_block_of dev (bs : list Z) : Z := match last bs with Some b => b + 1 | None => internalStartBlock dev end.

Lemma next_erased_found n : forall dev j i bi,
  (j + n = length (blockInfo dev))%nat -> (j <= i)%nat -> blockInfo dev !! i = Some bi ->
  blockState bi = YAFFS_BLOCK_STATE_EMPTY ->
  exists i' bi', next_erased_loop n dev (blk dev j) = Some (Some (blk dev i')) /\ blockInfo dev !! i' = Some bi' /\
    blockState bi' = YAFFS_BLOCK_STATE_EMPTY /\
    forall j' bj, (j <= j' < i')%nat -> blockInfo dev !! j' = Some bj -> blockState bj <> YAFFS_BLOCK_STATE_EMPTY.
Proof.
  induction n as [|n IH]; intros dev j i bi Hn Hij Hi Hs; [apply lookup_lt_Some in Hi; lia|]. cbn [next_erased_loop].
  destruct (lookup_lt_is_Some_2 (blockInfo dev) j) as [bj Hj]; [lia|]. rewrite GetBlockInfo_blk, Hj. cbn [mbind option_bind].
  case_bool_decide as Hsj.
  - exists j, bj. split_and!; [done..|]. intros j' bj' Hj'. lia.
  - assert (j <> i) as Hne by (intros ->; congruence). rewrite blk_succ.
    destruct (IH dev (S j) i bi) as (i' & bi' & -> & Hi' & Hs' & Hf); [lia|lia|done|done|]. exists i', bi'. split_and!; [done..|].
    intros j' bj' Hj' Hl. destruct (decide (j' = j)) as [->|]; [congruence|]. apply (Hf j' bj'); [lia|done].
Qed.

Lemma erased_exists (l : list yaffs_BlockInfo) :
  0 < zsum (erased <$> l) -> exists i bi, l !! i = Some bi /\ blockState bi = YAFFS_BLOCK_STATE_EMPTY.
Proof.
  induction l as [|bi l IH]; [done|]. change (zsum (erased <$> bi :: l)) with (erased bi + zsum (erased <$> l)).
  unfold erased at 1. case_bool_decide as Hs; intros H; [by exists 0%nat, bi|].
  destruct IH as (i & bi' & Hi & Hs'); [lia|]. by exists (S i), bi'.
Qed.

Lemma booked_geometry dev : accounts (booked dev) ->
  internalEndBlock dev = internalStartBlock dev + Z.of_nat (length (blockInfo dev)) - 1 /\ 0 < internalStartBlock dev.
Proof. intros [[] _ _ _ _]. done. Qed.

(** The blocks that are in use are below the next one. *)
Lemma next_block_spec dev bs ps : stream_dev dev bs ps ->
  exists j, next_block_of dev bs = blk dev j /\ (j <= length (blockInfo dev))%nat /\ (forall b, b ∈ bs -> b < blk dev j) /\
    forall i bi, blockInfo dev !! i = Some bi -> blockState bi = YAFFS_BLOCK_STATE_EMPTY -> (j <= i)%nat.
Proof.
  intros [Hal Hac _ _ _ _ Hbe Hsv]. destruct (booked_geometry dev Hac) as [Hend Hst]. unfold next_block_of. destruct (last bs) as [b|] eqn:El.
  - assert (b ∈ bs) as Hb by (by apply last_Some_elem_of). pose proof (sv_range _ _ _ Hsv b Hb) as Hr.
    exists (Z.to_nat (b + 1 - internalStartBlock dev)). unfold blk. split; [lia|]. split; [lia|]. split.
    + intros b' Hb'. apply list_elem_of_lookup in Hb' as [k Hk]. rewrite last_lookup in El.
      destruct (decide (k = pred (length bs))) as [->|Hne]; [rewrite Hk in El; injection El as ->; lia|].
      pose proof (lookup_lt_Some _ _ _ Hk). pose proof (sv_sorted _ _ _ Hsv k (pred (length bs)) b' b Hk El ltac:(lia)). lia.
    + intros i bi Hi Hs. specialize (Hbe i bi b Hi Hs Hb). unfold blk in Hbe. lia.
  - apply last_None in El as ->. exists 0%nat. unfold blk. split; [lia|]. split; [lia|]. split; [by intros b ?%elem_of_nil|lia].
Qed.

(** An erased block [i] becomes one of the checkpoint. *)
Definition taken dev (i : nat) (bi : yaffs_BlockInfo) : yaffs_Device mtd :=
  (set_block_info dev (blk dev i) (bi <| blockState := YAFFS_BLOCK_STATE_CHECKPOINT |>)) <| blocksInCheckpoint ::= Z.succ |>.

Lemma taken_info dev i bi : blockInfo (taken dev i bi) = <[i := bi <| blockState := YAFFS_BLOCK_STATE_CHECKPOINT |>]> (blockInfo dev).
Proof. destruct (set_block_moves dev i (bi <| blockState := YAFFS_BLOCK_STATE_CHECKPOINT |>)) as [_ Hb]. by injection Hb. Qed.

Lemma taken_rewritten dev i bi : blockInfo dev !! i = Some bi -> blockState bi = YAFFS_BLOCK_STATE_EMPTY -> rewritten dev (taken dev i bi).
Proof.
  intros Hi Hs. exists (genericDevice dev), (nPageWrites dev), (Z.succ (blocksInCheckpoint dev)), (blockInfo (taken dev i bi)). split.
  - by destruct dev.
  - rewrite taken_info. apply Forall2_lookup. intros j. destruct (decide (j = i)) as [->|Hne].
    + rewrite list_lookup_insert_eq by (by eapply lookup_lt_Some). rewrite Hi. constructor. by right.
    + rewrite list_lookup_insert_ne by done. destruct (blockInfo dev !! j); constructor. by left.
Qed.

Lemma taken_accounts dev i bi :
  accounts (booked dev) -> blockInfo dev !! i = Some bi -> blockState bi = YAFFS_BLOCK_STATE_EMPTY -> accounts (booked (taken dev i bi)).
Proof.
  intros Hac Hi Hs. pose proof (taken_info dev i bi) as Einfo. set (bi' := bi <| blockState := YAFFS_BLOCK_STATE_CHECKPOINT |>) in *.
  unfold taken in *. fold bi' in Einfo |- *. set (dev1 := set_block_info dev (blk dev i) bi') in *. set (dev2 := dev1 <| blocksInCheckpoint ::= Z.succ |>) in *.
  pose proof (ac_blocks _ _ _ Hac i bi Hi) as Hok. unfold block_ok in Hok. rewrite Hs in Hok. destruct Hok as (Hp0 & Hs0' & Hl0).
  assert (moves (booked dev) (Books (<[i := bi']> (blockInfo dev)) (chunkBits dev) (nErasedBlocks dev - blocksInCheckpoint dev - 1)
    (nFreeChunks dev - blocksInCheckpoint dev * nChunksPerBlock dev - nChunksPerBlock dev) (allocationBlock dev) (allocationPage dev))
    (booked dev2)) as Hm.
  { split; [done|]. unfold books_of.
    change (nErasedBlocks (booked dev2)) with (nErasedBlocks dev - Z.succ (blocksInCheckpoint dev)).
    change (nFreeChunks (booked dev2)) with (nFreeChunks dev - Z.succ (blocksInCheckpoint dev) * nChunksPerBlock dev).
    f_equal; [exact Einfo|lia|lia]. }
  eapply (accounts_change None None 0 0 (booked dev) i bi bi' _ _ _ Hac Hi Hm); try done; [congruence|..].
  - unfold erased. rewrite Hs. change (blockState bi') with YAFFS_BLOCK_STATE_CHECKPOINT. simpl. lia.
  - assert (block_free (nChunksPerBlock (booked dev)) bi' = 0) as -> by done. unfold block_free. rewrite Hs, Hp0, Hs0'.
    change (nFreeChunks (booked dev)) with (nFreeChunks dev - blocksInCheckpoint dev * nChunksPerBlock dev).
    change (nChunksPerBlock (booked dev)) with (nChunksPerBlock dev). lia.
Qed.

Lemma taken_saved dev i bi bs ps :
  saved dev bs ps -> (forall b, b ∈ bs -> b < blk dev i) -> blk dev i <= internalEndBlock dev -> saved (taken dev i bi) (bs ++ [blk dev i]) ps.
Proof.
  intros [S1 S2 S3 S4 S5] Hbelow Hend. constructor; try done.
  - by apply increasing_snoc.
  - intros b [Hb|Hb]%elem_of_app; [by apply S2|]. apply list_elem_of_singleton in Hb as ->.
    change (internalStartBlock (taken dev i bi)) with (internalStartBlock dev). change (internalEndBlock (taken dev i bi)) with (internalEndBlock dev).
    unfold blk in *. lia.
  - intros b Hb Hnb. apply S3; [done|]. intros Hb'. apply Hnb, elem_of_app. by left.
  - intros k d Hk. destruct (S5 k d Hk) as (b & Hb & Hp). exists b. split; [by apply lookup_app_l_Some|done].
Qed.

Lemma taken_stream dev bs ps i bi :
  stream_dev dev bs ps -> blockInfo dev !! i = Some bi -> blockState bi = YAFFS_BLOCK_STATE_EMPTY ->
  (forall j bj, blockInfo dev !! j = Some bj -> blockState bj = YAFFS_BLOCK_STATE_EMPTY -> (i <= j)%nat) ->
  stream_dev (taken dev i bi) (bs ++ [blk dev i]) ps.
Proof.
  intros [Hal Hac Hav Hct Hst Hem Hbe Hsv] Hi Hs Hfirst. pose proof (lookup_lt_Some _ _ _ Hi) as Hlt.
  assert (forall j bj, blockInfo (taken dev i bi) !! j = Some bj -> blockState bj = YAFFS_BLOCK_STATE_EMPTY ->
    j <> i /\ blockInfo dev !! j = Some bj) as Hother.
  { intros j bj. rewrite taken_info. intros Hj Hsj. destruct (decide (j = i)) as [->|Hne]; [|by rewrite list_lookup_insert_ne in Hj].
    rewrite list_lookup_insert_eq in Hj by done. by injection Hj as <-. }
  constructor; try done.
  - by apply (aligned_static dev).
  - by apply taken_accounts.
  - change (Z.succ (blocksInCheckpoint dev) = Z.of_nat (length (bs ++ [blk dev i]))). rewrite length_app. simpl. lia.
  - intros j bj. rewrite taken_info. change (blk (taken dev i bi) j) with (blk dev j).
    rewrite elem_of_app, list_elem_of_singleton. intros Hj. destruct (decide (j = i)) as [->|Hne].
    + rewrite list_lookup_insert_eq in Hj by done. injection Hj as <-. split; [done|by right].
    + rewrite list_lookup_insert_ne in Hj by done. rewrite <- (Hst j bj Hj). split; [|by left].
      intros [?|Hb]; [done|]. unfold blk in Hb. lia.
  - intros j bj p Hj Hsj Hp. destruct (Hother j bj Hj Hsj) as [_ Hj']. by apply (Hem j bj).
  - intros j bj b Hj Hsj Hb. change (blk (taken dev i bi) j) with (blk dev j). destruct (Hother j bj Hj Hsj) as [Hne Hj'].
    apply elem_of_app in Hb as [Hb|Hb]; [by eapply Hbe|]. apply list_elem_of_singleton in Hb as ->.
    pose proof (Hfirst j bj Hj' Hsj). unfold blk. lia.
  - apply taken_saved; [done|intros b Hb; by apply (Hbe i bi)|]. destruct (booked_geometry dev Hac) as [Hend _]. unfold blk. lia.
Qed.

(** A block is taken for the stream. *)
Lemma take_block dev cp bs ps :
  stream_dev dev bs ps -> Z.of_nat (length bs) < nErasedBlocks dev -> checkpointNextBlock cp = next_block_of dev bs ->
  exists i bi,
    yaffs_CheckpointFindNextErasedBlock dev cp =
      Some (cp <| checkpointNextBlock := blk dev i + 1 |> <| checkpointCurrentBlock := blk dev i |>) /\
    blockInfo dev !! i = Some bi /\ blockState bi = YAFFS_BLOCK_STATE_EMPTY /\ stream_dev (taken dev i bi) (bs ++ [blk dev i]) ps /\ 0 < blk dev i /\
    (forall p, 0 <= p < B -> blank_page (genericDevice dev) (page_no dev (blk dev i) p)).
Proof.
  intros Hsd Hlen Hnext. destruct (next_block_spec _ _ _ Hsd) as (j & Ej & Hj & Hbj & Hej).
  pose proof Hsd as [Hal Hac Hav Hct Hst Hem Hbe Hsv]. destruct (booked_geometry dev Hac) as [Hend Hstart].
  destruct (erased_exists (blockInfo dev)) as (i0 & bi0 & Hi0 & Hs0).
  { pose proof (ac_erased _ _ _ Hac) as He. change (nErasedBlocks (booked dev)) with (nErasedBlocks dev - blocksInCheckpoint dev) in He.
    change (blockInfo (booked dev)) with (blockInfo dev) in He. lia. }
  pose proof (Hej i0 bi0 Hi0 Hs0) as Hji0. pose proof (lookup_lt_Some _ _ _ Hi0) as Hlt0.
  destruct (next_erased_found (length (blockInfo dev) - j) dev j i0 bi0) as (i & bi & E & Hi & Hs & Hf); [lia|done|done|done|].
  pose proof (lookup_lt_Some _ _ _ Hi) as Hlt. pose proof (Hej i bi Hi Hs) as Hji. exists i, bi. split.
  { unfold yaffs_CheckpointFindNextErasedBlock. rewrite Hnext, Ej.
    rewrite (proj2 (Z.leb_le 0 _)), (proj2 (Z.leb_le _ (internalEndBlock dev))), (proj2 (Z.ltb_lt 0 _)) by (done || unfold blk; lia).
    replace (Z.to_nat (internalEndBlock dev - blk dev j + 1)) with (length (blockInfo dev) - j)%nat by (unfold blk; lia).
    cbn [andb]. by rewrite E. }
  split; [done|]. split; [done|]. split; [|split; [unfold blk; lia|intros p Hp; by eapply Hem]].
  apply taken_stream; [done..|]. intros j' bj' Hj' Hs'. pose proof (Hej j' bj' Hj' Hs'). destruct (decide (j' < i)%nat); [|lia].
  by destruct (Hf j' bj' ltac:(lia) Hj').
Qed.

(** ** Writing *)

(** The place of the next page: none yet in a block, or the next chunk of the last block. *)
Definition at_page dev cp (bs : list Z) (k : nat) : Prop :=
  bs !! (k / per_block)%nat = Some (checkpointCurrentBlock cp) /\ length bs = S (k / per_block) /\ 0 <= checkpointCurrentBlock cp /\
  checkpointCurrentChunk cp = Z.of_nat (k mod per_block) /\
  forall p, Z.of_nat (k mod per_block) <= p < B -> blank_page (genericDevice dev) (page_no dev (checkpointCurrentBlock cp) p).

Definition place dev cp (bs : list Z) (k : nat) : Prop :=
  ((k mod per_block = 0)%nat /\ checkpointCurrentBlock cp < 0 /\ length bs = (k / per_block)%nat) \/
  ((k mod per_block <> 0)%nat /\ at_page dev cp bs k).

(** The bytes [pend] are in the buffer. *)
Record buffering cp (k : nat) (pend : list Z) : Prop := {
  bu_open : checkpointOpenForWrite cp = true;
  bu_sequence : checkpointPageSequence cp = Z.of_nat k;
  bu_offset : checkpointByteOffset cp = blen pend;
  bu_room : blen pend <= N;
  bu_bytes : Forall (in_w 8) pend;
  bu_buffer : checkpointBuffer cp = Some (pend ++ replicate (Z.to_nat N - length pend) 0)
}.

(** The stream in which the pages [ps] are written and [pend] is to be. *)
Record writing dev cp (bs : list Z) (ps : list (list Z)) (pend : list Z) : Prop := {
  wr_dev : stream_dev dev bs ps;
  wr_next : checkpointNextBlock cp = next_block_of dev bs;
  wr_place : place dev cp bs (length ps);
  wr_buffer : buffering cp (length ps) pend
}.

Lemma fits_fields dev : aligned dev -> nDataBytesPerChunk dev = N /\ nChunksPerBlock dev = B.
Proof. intros [H _ _ _ _ _ _]. unfold fits in H. by injection H. Qed.

Lemma clear_buffer_spec dev l : aligned dev -> length l = Z.to_nat N -> clear_buffer dev l = Some (replicate (Z.to_nat N) 0).
Proof.
  intros Hal Hl. destruct (fits_fields dev Hal) as [EN _]. pose proof (al_bytes _ Hal). unfold clear_buffer. rewrite EN.
  rewrite copy_Some by (unfold blen; rewrite ?length_replicate; lia). rewrite drop_0, take_ge by (rewrite length_replicate; lia).
  f_equal. change (Z.to_nat 0) with 0%nat. rewrite <- (app_nil_r l), list_inserts_0_r by (rewrite length_replicate; lia). apply app_nil_r.
Qed.

Lemma next_div (k : nat) : (0 < per_block)%nat ->
  (S k mod per_block = 0 /\ S k / per_block = S (k / per_block) /\ S (k mod per_block) = per_block)%nat \/
  (S k mod per_block = S (k mod per_block) /\ S k / per_block = k / per_block /\ S (k mod per_block) < per_block)%nat.
Proof.
  intros Hp. pose proof (Nat.div_mod_eq k per_block) as D. pose proof (Nat.mod_upper_bound k per_block ltac:(lia)) as Hm.
  destruct (decide (S (k mod per_block) = per_block)) as [E|E].
  - left. assert (S k = per_block * S (k / per_block) + 0)%nat as D' by lia.
    rewrite <- (Nat.div_unique (S k) per_block (S (k / per_block)) 0), <- (Nat.mod_unique (S k) per_block (S (k / per_block)) 0) by lia. done.
  - right. assert (S k = per_block * (k / per_block) + S (k mod per_block))%nat as D' by lia.
    rewrite <- (Nat.div_unique (S k) per_block (k / per_block) (S (k mod per_block))) by lia.
    rewrite <- (Nat.mod_unique (S k) per_block (k / per_block) (S (k mod per_block))) by lia. split; [done|]. split; [done|lia].
Qed.

Lemma at_page_last dev cp bs k : at_page dev cp bs k -> last bs = Some (checkpointCurrentBlock cp).
Proof. intros (Hb & Hl & _). rewrite last_lookup, Hl. exact Hb. Qed.

(** After a page the place is the next chunk, or no block. *)
Lemma next_place dev dev' cp cp' bs k :
  0 < B -> at_page dev cp bs k -> static dev' = static dev ->
  (forall p, Z.of_nat (k mod per_block) < p < B -> blank_page (genericDevice dev') (page_no dev (checkpointCurrentBlock cp) p)) ->
  (checkpointCurrentChunk cp', checkpointCurrentBlock cp') =
    (if B <=? Z.succ (checkpointCurrentChunk cp) then (0, -1) else (Z.succ (checkpointCurrentChunk cp), checkpointCurrentBlock cp)) ->
  place dev' cp' bs (S k).
Proof.
  intros HB (Hb & Hlen & Hpos & Hch & _) Hst Hbl E. unfold place, at_page. assert (Z.of_nat per_block = B) as EP by (unfold per_block; lia).
  destruct (next_div k) as [(D1 & D2 & D3)|(D1 & D2 & D3)]; [lia|left|right].
  - rewrite (proj2 (Z.leb_le B _)) in E by lia. injection E as E1 E2. rewrite D1, D2, E2. split; [done|]. by split.
  - rewrite (proj2 (Z.leb_gt B _)) in E by lia. injection E as E1 E2. rewrite D1, D2, E1, E2. split; [lia|]. split; [done|]. split; [done|].
    split; [done|]. split; [lia|]. intros p Hp. rewrite (static_page dev dev') by done. apply Hbl. lia.
Qed.

Lemma flush_page_spec dev cp bs ps pend :
  stream_dev dev bs ps -> checkpointNextBlock cp = next_block_of dev bs -> at_page dev cp bs (length ps) -> buffering cp (length ps) pend ->
  exists dev' cp', flush_page ops localTags dev cp = Some (1, dev', cp') /\
    writing dev' cp' bs (ps ++ [pend ++ replicate (Z.to_nat N - length pend) 0]) [] /\
    rewritten dev dev' /\
    checkpointSum cp' = checkpointSum cp /\ checkpointXor cp' = checkpointXor cp.
Proof.
  intros Hsd Hnext Hat [Hop Hseq Hoff Hroom Hbytes Hbuf]. set (d := pend ++ _) in *. set (k := length ps) in *.
  pose proof (at_page_last _ _ _ _ Hat) as Hlast. pose proof Hat as (Hb & Hlen & Hpos & Hch & Hbl).
  pose proof (sd_aligned _ _ _ Hsd) as Hal. destruct (fits_fields dev Hal) as [EN EB]. pose proof (al_chunks _ Hal) as HB. pose proof (al_bytes _ Hal) as HN.
  pose proof (sd_saved _ _ _ Hsd) as Hsv. pose proof (sv_range _ _ _ Hsv _ (list_elem_of_lookup_2 _ _ _ Hb)) as Hr.
  assert (checkpointNextBlock cp = checkpointCurrentBlock cp + 1) as Hn by (rewrite Hnext; unfold next_block_of; by rewrite Hlast).
  assert (length d = Z.to_nat N) as Hd by (unfold d; rewrite length_app, length_replicate; unfold blen in Hroom; lia).
  unfold flush_page. set (tags := _ <| byteCount := _ |>). set (dev0 := dev <| nPageWrites ::= Z.succ |>).
  destruct (store_write (B := B) (N := N) (nte := nte) (ops := ops)) as (write & E & _). rewrite E. cbn [mbind option_bind].
  assert (stream_dev dev0 bs ps) as Hsd0.
  { destruct Hsd. constructor; try done; [by apply (aligned_static dev)|by apply (accounts_quiet None 0 (booked dev))|].
    destruct sd_saved0. by constructor. }
  destruct (put_page dev0 bs ps (checkpointCurrentBlock cp) d write tags) as (r & m & Ew & Hsd' & Hbl'); try done.
  { fold k. lia. }
  { split; [done|]. apply Forall_app. split; [done|]. by apply Forall_replicate. }
  { pose proof (page_bound dev bs ps k _ Hal Hsv Hb). pose proof (al_end _ Hal). pose proof (al_low _ Hal). constructor; [| |done].
    - change (u32 (checkpointNextBlock cp) = checkpointCurrentBlock cp + 1). rewrite Hn. apply u32_small. lia.
    - change (u32 (checkpointPageSequence cp + 1) = Z.of_nat k + 1). rewrite Hseq. apply u32_small. lia. }
  { by apply wrap_in. }
  change (chunkOffset dev0) with (chunkOffset dev) in Ew. fold k in Ew.
  rewrite EB, Hch, Hbuf, Ew. cbn [mbind option_bind]. change (nChunksPerBlock (dev0 <| genericDevice := m |>)) with (nChunksPerBlock dev).
  rewrite EB. match goal with |- context [if B <=? ?x then ?a else ?b] => set (cp1 := if B <=? x then a else b) end.
  assert (checkpointBuffer cp1 = Some d /\ checkpointSum cp1 = checkpointSum cp /\ checkpointXor cp1 = checkpointXor cp /\
    checkpointNextBlock cp1 = checkpointNextBlock cp /\ checkpointOpenForWrite cp1 = true /\
    checkpointPageSequence cp1 = Z.of_nat (S k) /\ checkpointByteOffset cp1 = 0) as (F1 & F2 & F3 & F4 & F5 & F6 & F7).
  { unfold cp1. case_match; (split_and!; [done|done|done|done|done| |done]); rewrite Nat2Z.inj_succ, <- Hseq; done. }
  rewrite F1. cbn [mbind option_bind]. rewrite (clear_buffer_spec (dev0 <| genericDevice := m |>)) by (done || apply Hsd'). cbn [mbind option_bind].
  eexists _, _. split; [done|]. split_and!; [|apply page_rewritten|done..]. constructor.
  - exact Hsd'.
  - exact (eq_trans F4 Hnext).
  - rewrite length_app. simpl length. fold k. rewrite Nat.add_1_r. apply (next_place dev _ cp); [done|done|done|exact Hbl'|].
    unfold cp1. change (checkpointCurrentChunk (_ <| checkpointCurrentChunk ::= Z.succ |>)) with (Z.succ (checkpointCurrentChunk cp)).
    by destruct (B <=? Z.succ (checkpointCurrentChunk cp)).
  - rewrite length_app. simpl length. fold k. rewrite Nat.add_1_r. constructor; [exact F5|exact F6|exact F7|change (0 <= N); lia|apply Forall_nil_2|].
    change (Some (replicate (Z.to_nat N) 0) = Some ([] ++ replicate (Z.to_nat N - 0) 0)). by rewrite Nat.sub_0_r.
Qed.

Lemma FlushBuffer_spec dev cp bs ps pend :
  writing dev cp bs ps pend -> Z.of_nat (length ps) < B * nErasedBlocks dev ->
  exists dev' cp' bs', yaffs_CheckpointFlushBuffer ops localTags dev cp = Some (1, dev', cp') /\
    writing dev' cp' bs' (ps ++ [pend ++ replicate (Z.to_nat N - length pend) 0]) [] /\
    rewritten dev dev' /\
    checkpointSum cp' = checkpointSum cp /\ checkpointXor cp' = checkpointXor cp.
Proof.
  intros [Hsd Hnext Hpl Hbu] Hroom. unfold yaffs_CheckpointFlushBuffer. pose proof (al_chunks _ (sd_aligned _ _ _ Hsd)) as HB.
  destruct Hpl as [(Hmod & Hcur & Hlen)|[Hmod Hat]].
  - pose proof (Nat.div_mod_eq (length ps) per_block) as D. rewrite Hmod in D. assert (Z.of_nat per_block = B) as EP by (unfold per_block; lia).
    destruct (take_block dev cp bs ps Hsd) as (i & bi & -> & Hi & Hemp & Hsd1 & Hpos & Hbl); [nia|done|].
    rewrite (proj2 (Z.ltb_lt _ 0)) by done. cbn [mbind option_bind]. set (cp1 := _ <| checkpointCurrentChunk := 0 |>).
    change (checkpointCurrentBlock cp1) with (blk dev i). rewrite (proj2 (Z.ltb_ge _ 0)) by lia.
    change (checkpointCurrentChunk cp1 =? 0) with true. rewrite (update_block_blk dev i bi) by done. cbn [mbind option_bind]. fold (taken dev i bi).
    destruct (flush_page_spec (taken dev i bi) cp1 (bs ++ [blk dev i]) ps pend) as (dev' & cp' & E & Hw & E1 & E3 & E4); try done.
    + unfold next_block_of. by rewrite last_snoc.
    + unfold at_page. rewrite Hmod, <- Hlen. split; [by rewrite lookup_app_r, Nat.sub_diag by lia|]. rewrite length_app. simpl length.
      split; [lia|]. split; [change (0 <= blk dev i); lia|]. split; [done|]. intros p Hp.
      by apply Hbl.
    + destruct Hbu. by constructor.
    + exists dev', cp', (bs ++ [blk dev i]). split_and!; try done. eapply rewritten_trans; [|exact E1]. by apply taken_rewritten.
  - pose proof Hat as (_ & _ & Hpos & Hch & _). rewrite (proj2 (Z.ltb_ge _ 0)) by done. cbn [mbind option_bind].
    rewrite (proj2 (Z.ltb_ge _ 0)), (proj2 (Z.eqb_neq _ 0)) by lia. cbn [mbind option_bind].
    destruct (flush_page_spec dev cp bs ps pend Hsd Hnext Hat Hbu) as (dev' & cp' & E & H). by exists dev', cp', bs.
Qed.

(** The sums over the bytes of a stream. *)
Definition sum_bytes : Z -> list Z -> Z := foldl (fun s b => u32 (s + b)).
Definition xor_bytes : Z -> list Z -> Z := foldl (fun x b => Z.lxor b x).

Lemma saved_length dev bs ps : 0 <= N -> saved dev bs ps -> blen (concat ps) = Z.of_nat (length ps) * N.
Proof.
  intros HN [_ _ _ Hb _]. induction Hb as [|d ps [Hd _] _ IH]; [done|]. simpl. unfold blen in *. rewrite length_app. lia.
Qed.

(** A byte goes into the buffer. *)
Lemma buffer_byte cp k pend b :
  buffering cp k pend -> blen pend < N -> in_w 8 b ->
  exists buffer, (l ← checkpointBuffer cp; set l (checkpointByteOffset cp) b) = Some buffer /\
    buffering (count_byte (cp <| checkpointBuffer := Some buffer |>) b) k (pend ++ [b]).
Proof.
  intros [Hop Hseq Hoff Hroom Hbytes Hbuf] Hlt Hb. rewrite Hbuf, Hoff. cbn [mbind option_bind]. unfold set, blen in *.
  rewrite length_app, length_replicate, (proj2 (Z.leb_le _ _)), (proj2 (Z.ltb_lt _ _)) by lia. eexists. split; [done|]. constructor; try done.
  - unfold blen. rewrite length_app. simpl length. change (Z.succ (checkpointByteOffset cp) = Z.of_nat (length pend + 1)). lia.
  - unfold blen. rewrite length_app. simpl length. lia.
  - apply Forall_app. split; [done|]. by apply Forall_singleton.
  - change (Some (<[Z.to_nat (Z.of_nat (length pend)) := b]> (pend ++ replicate (Z.to_nat N - length pend) 0)) =
      Some ((pend ++ [b]) ++ replicate (Z.to_nat N - length (pend ++ [b])) 0)). f_equal. rewrite Nat2Z.id, length_app. simpl length.
    replace (Z.to_nat N - length pend)%nat with (S (Z.to_nat N - (length pend + 1))) by lia.
    rewrite insert_app_r_alt, Nat.sub_diag by lia. simpl. by rewrite <- app_assoc.
Qed.

(** The bytes of the stream are what the source holds when they are read. *)
Definition drawn (src : yaffs_Device mtd -> Z -> option Z) (i : Z) dev dev' (data : list Z) : Prop :=
  forall j, (j < length data)%nat -> exists dev1, rewritten dev dev1 /\ rewritten dev1 dev' /\ src dev1 (i + Z.of_nat j) = data !! j.

Lemma drawn_cons src i dev dev1 dev' b data :
  src dev i = Some b -> rewritten dev dev1 -> rewritten dev1 dev' -> drawn src (i + 1) dev1 dev' data -> drawn src i dev dev' (b :: data).
Proof.
  intros Hb H1 H2 Hd [|j] Hj.
  - exists dev. rewrite Z.add_0_r. split; [apply rewritten_refl|]. split; [by eapply rewritten_trans|done].
  - destruct (Hd j) as (dev2 & R1 & R2 & E); [simpl in Hj; lia|]. exists dev2. split; [by eapply rewritten_trans|]. split; [done|].
    change ((b :: data) !! S j) with (data !! j). rewrite <- E. f_equal. lia.
Qed.

(** The source has [n] bytes from [i] on, whatever is written. *)
Definition has_bytes (src : yaffs_Device mtd -> Z -> option Z) (i : Z) (n : nat) dev : Prop :=
  forall j dev1, (j < n)%nat -> rewritten dev dev1 -> exists b, src dev1 (i + Z.of_nat j) = Some b /\ in_w 8 b.

Lemma has_bytes_next src i n dev dev1 b : has_bytes src i (S n) dev -> rewritten dev dev1 -> src dev i = Some b ->
  in_w 8 b /\ has_bytes src (i + 1) n dev1.
Proof.
  intros H R Hb. split.
  - destruct (H 0%nat dev) as (b' & E & Hw); [lia|apply rewritten_refl|]. rewrite Z.add_0_r in E. congruence.
  - intros j dev2 Hj R2. destruct (H (S j) dev2) as (b' & E & Hw); [lia|by eapply rewritten_trans|]. exists b'. split; [|done].
    rewrite <- E. f_equal. lia.
Qed.

Lemma write_stream_spec src n : forall i dev cp bs ps pend,
  writing dev cp bs ps pend -> blen pend < N -> has_bytes src i n dev ->
  blen (concat ps ++ pend) + Z.of_nat n <= B * nErasedBlocks dev * N ->
  exists dev' cp' bs' ps' pend' data, write_stream ops localTags n src i dev cp = Some (i + Z.of_nat n, dev', cp') /\
    length data = n /\ drawn src i dev dev' data /\
    writing dev' cp' bs' ps' pend' /\ blen pend' < N /\ concat ps' ++ pend' = concat ps ++ pend ++ data /\ rewritten dev dev' /\
    checkpointSum cp' = sum_bytes (checkpointSum cp) data /\ checkpointXor cp' = xor_bytes (checkpointXor cp) data.
Proof.
  induction n as [|n IH]; intros i dev cp bs ps pend Hw Hlt Hsrc Hroom; cbn [write_stream].
  { exists dev, cp, bs, ps, pend, []. rewrite app_nil_r. split_and!; try done; [by rewrite Z.add_0_r|by intros j ?%Nat.nlt_0_r|apply rewritten_refl]. }
  destruct (Hsrc 0%nat dev) as (b & Eb & Hb); [lia|apply rewritten_refl|]. rewrite Z.add_0_r in Eb. rewrite Eb. cbn [mbind option_bind].
  pose proof Hw as [Hsd Hnext Hpl Hbu]. pose proof (sd_aligned _ _ _ Hsd) as Hal.
  destruct (fits_fields dev Hal) as [EN _]. pose proof (al_bytes _ Hal) as HN.
  destruct (buffer_byte cp (length ps) pend b Hbu Hlt Hb) as (buffer & E & Hbu1).
  destruct (checkpointBuffer cp) as [l|]; [|done]. cbn [mbind option_bind] in E |- *. rewrite E. cbn [mbind option_bind].
  set (cp1 := count_byte _ b) in *. assert (writing dev cp1 bs ps (pend ++ [b])) as Hw1 by (by constructor).
  assert (i + Z.of_nat (S n) = i + 1 + Z.of_nat n) as Ei by lia.
  pose proof (saved_length _ _ _ ltac:(lia) (sd_saved _ _ _ Hsd)) as Hlen.
  rewrite (bu_offset _ _ _ Hbu1), EN. assert (blen (pend ++ [b]) = blen pend + 1) as Elen by (unfold blen; rewrite length_app; simpl length; lia).
  rewrite Elen, Ei, (proj2 (Z.ltb_ge _ 0)) by (unfold blen; lia). cbn [orb]. destruct (Z.leb_spec N (blen pend + 1)) as [Hfull|Hmore].
  - assert (Z.of_nat (length ps) < B * nErasedBlocks dev) as Hp.
    { unfold blen in *. rewrite !length_app in Hroom. nia. }
    destruct (FlushBuffer_spec dev cp1 bs ps (pend ++ [b]) Hw1 Hp) as (dev2 & cp2 & bs2 & -> & Hw2 & R2 & Es & Ex). cbn [mbind option_bind].
    replace (Z.to_nat N - length (pend ++ [b]))%nat with 0%nat in Hw2 by (unfold blen in *; lia). rewrite app_nil_r in Hw2.
    destruct (has_bytes_next _ _ _ _ _ _ Hsrc R2 Eb) as [_ Hsrc2].
    destruct (IH (i + 1) dev2 cp2 bs2 (ps ++ [pend ++ [b]]) [] Hw2) as (dev3 & cp3 & bs3 & ps3 & pend3 & data & E3 & Hl & Hdr & Hw3 & Hl3 & C3 & R3 & Sm3 & X3);
      [change (0 < N); lia|done|rewrite (rewritten_erased dev dev2) by done; rewrite concat_app; unfold blen in *; rewrite !length_app in *; simpl; rewrite !length_app in *; simpl; lia|].
    exists dev3, cp3, bs3, ps3, pend3, (b :: data). rewrite Es in Sm3. rewrite Ex in X3. split_and!; try done; [simpl; lia|by eapply drawn_cons| |by eapply rewritten_trans].
    rewrite C3, concat_app. simpl. by rewrite app_nil_r, <- !app_assoc.
  - destruct (has_bytes_next _ _ _ _ _ _ Hsrc (rewritten_refl dev) Eb) as [_ Hsrc2].
    destruct (IH (i + 1) dev cp1 bs ps (pend ++ [b]) Hw1) as (dev3 & cp3 & bs3 & ps3 & pend3 & data & E3 & Hl & Hdr & Hw3 & Hl3 & C3 & R3 & Sm3 & X3);
      [lia|done|unfold blen in *; rewrite !length_app in *; simpl; lia|].
    exists dev3, cp3, bs3, ps3, pend3, (b :: data). split_and!; try done; [simpl; lia| |by rewrite C3, <- !app_assoc].
    eapply drawn_cons; [done|apply rewritten_refl|done|done].
Qed.

(** There is memory for the buffer. *)
Definition buffer_ready cp : Prop :=
  match checkpointBuffer cp with
  | Some b => length b = Z.to_nat N
  | None => exists b, YMALLOC_DMA N = Some b /\ length b = Z.to_nat N
  end.

Lemma ready_buffer dev cp : aligned dev -> buffer_ready cp ->
  exists b, checkpointBuffer (match checkpointBuffer cp with
                              | Some _ => cp
                              | None => cp <| checkpointBuffer := YMALLOC_DMA (totalBytesPerChunk dev) |>
                              end) = Some b /\ length b = Z.to_nat N.
Proof.
  intros Hal Hbuf. unfold buffer_ready in Hbuf. destruct (checkpointBuffer cp) as [b|] eqn:E; [by exists b|]. destruct Hbuf as (b & Eb & Hb).
  exists b. split; [|done]. assert (totalBytesPerChunk dev = N) as -> by (destruct Hal as [H _ _ _ _ _ _]; unfold fits in H; congruence). exact Eb.
Qed.

(** The access functions are there. *)
Lemma ops_ready : bool_decide (is_Some (writeChunkWithTagsToNAND ops)) && bool_decide (is_Some (readChunkWithTagsFromNAND ops)) &&
  bool_decide (is_Some (markNANDBlockBad ops)) = true.
Proof.
  destruct (store_write (B := B) (N := N) (nte := nte) (ops := ops)) as (w & -> & _).
  destruct (store_read (B := B) (N := N) (nte := nte) (ops := ops)) as (r & -> & _).
  rewrite !bool_decide_true; [done|eapply store_mark|done|done].
Qed.

Lemma booked_fresh dev : blocksInCheckpoint dev = 0 -> accounts dev -> accounts (booked dev).
Proof.
  intros E. apply accounts_quiet. split; [done|]. unfold books_of, booked. simpl. rewrite E. f_equal; lia.
Qed.

Lemma Open_write dev cp :
  aligned dev -> clean dev -> accounts dev -> yaffs_CheckpointSpaceOk dev = true -> buffer_ready cp ->
  exists dev' cp', yaffs_CheckpointOpen ops YMALLOC_DMA YMALLOC_ints dev cp true = Some (1, dev', cp') /\ writing dev' cp' [] [] [] /\
    erased_since dev dev' /\ checkpointSum cp' = 0 /\ checkpointXor cp' = 0.
Proof.
  intros Hal Hcl Hac Hsp Hbuf. unfold yaffs_CheckpointOpen. rewrite ops_ready, Hsp. cbn [negb andb]. pose proof (al_bytes _ Hal) as HN.
  destruct (ready_buffer dev cp Hal Hbuf) as (b & Eb & Hb). set (cp0 := match checkpointBuffer cp with Some _ => _ | None => _ end) in *.
  rewrite Eb. unfold open_write. rewrite clear_buffer_spec by done. cbn [mbind option_bind].
  destruct (Erase_spec dev Hal Hcl Hac) as (dev2 & -> & R1 & Hcl2 & A1 & Hbic & Hno). cbn [mbind option_bind].
  pose proof (erased_static _ _ R1) as S1. pose proof (erased_count _ _ R1) as N1.
  pose proof (aligned_static _ _ S1 Hal) as Hal2. pose proof (booked_fresh dev2 Hbic A1) as A2. destruct (booked_geometry dev2 A2) as [Hend2 _].
  eexists dev2, _. split; [done|]. split_and!; try done. constructor.
  - constructor; try done.
    + unfold yaffs_CheckpointSpaceOk in Hsp. rewrite negb_true_iff, Z.leb_gt in Hsp.
      assert (nReservedBlocks dev2 = nReservedBlocks dev) as E10 by (by injection S1). lia.
    + intros i bi Hi. split; [by intros ?%elem_of_nil|]. intros Hs. by destruct (Hno i bi Hi).
    + apply Hcl2.
    + intros i bi b' _ _ ?%elem_of_nil. done.
    + constructor; [by intros i j x y ?|by intros b' ?%elem_of_nil| |apply Forall_nil_2|by intros k d ?].
      intros b' Hb' _. by apply clean_foreign.
  - unfold next_block_of. simpl. injection S1 as _ _ _ _ _ E6 _ _ _ _. by rewrite E6.
  - left. rewrite Nat.Div0.mod_0_l, Nat.Div0.div_0_l. done.
  - constructor; [done|done|done|change (0 <= N); lia|apply Forall_nil_2|]. simpl. by rewrite Nat.sub_0_r.
Qed.

(** The blocks of a stream are those in the state of a checkpoint. *)
Definition in_blocks dev (bs : list Z) : Prop :=
  forall i bi, blockInfo dev !! i = Some bi -> blk dev i ∈ bs <-> blockState bi = YAFFS_BLOCK_STATE_CHECKPOINT.

(** No more blocks are taken than the pages need. *)
Lemma place_blocks dev cp bs k : 0 < B -> place dev cp bs k -> Z.of_nat (length bs) * B < Z.of_nat k + B.
Proof.
  intros HB Hpl. assert (Z.of_nat per_block = B) as EP by (unfold per_block; lia). pose proof (Nat.div_mod_eq k per_block) as D.
  destruct Hpl as [(Hm & _ & Hl)|(Hm & _ & Hl & _)]; rewrite Hl; nia.
Qed.

Lemma Close_write dev cp bs ps pend :
  writing dev cp bs ps pend -> blen pend < N -> blen (concat ps ++ pend) <= B * nErasedBlocks dev * N ->
  exists dev' cp' bs' ps' z, yaffs_CheckpointClose ops localTags dev cp = Some (1, dev', cp') /\
    accounts dev' /\ clean dev' /\ (exists dev1, rewritten dev dev1 /\ dev' = booked dev1) /\ saved dev' bs' ps' /\ in_blocks dev' bs' /\
    blocksInCheckpoint dev' = Z.of_nat (length bs') /\ Z.of_nat (length bs') * B < Z.of_nat (length ps') + B /\ concat ps' = concat ps ++ pend ++ z /\ blen z < N.
Proof.
  intros Hw Hlt Hroom. unfold yaffs_CheckpointClose. pose proof Hw as [Hsd _ Hpl [Hop _ Hoff _ _ Hbuf]]. rewrite Hop.
  assert (exists dev1 cp1 bs1 ps1 z,
    (if truthy (checkpointByteOffset cp)
     then '(_, dev, cp) ← yaffs_CheckpointFlushBuffer ops localTags dev cp; Some (dev, cp) else Some (dev, cp)) = Some (dev1, cp1) /\
    stream_dev dev1 bs1 ps1 /\ place dev1 cp1 bs1 (length ps1) /\ rewritten dev dev1 /\ is_Some (checkpointBuffer cp1) /\
    concat ps1 = concat ps ++ pend ++ z /\ blen z < N)
    as (dev1 & cp1 & bs1 & ps1 & z & -> & Hsd1 & Hpl1 & S1 & [b Hb] & C1 & Hz).
  { rewrite Hoff. unfold truthy. destruct (Z.eqb_spec (blen pend) 0) as [E|E]; cbn [negb].
    - assert (pend = []) as -> by (apply nil_length_inv; unfold blen in E; lia). exists dev, cp, bs, ps, [].
      split; [done|]. split; [done|]. split; [exact Hpl|]. split; [apply rewritten_refl|]. rewrite Hbuf. split; [done|]. rewrite !app_nil_r. split; [done|exact Hlt].
    - pose proof (al_bytes _ (sd_aligned _ _ _ Hsd)) as HN. pose proof (saved_length _ _ _ ltac:(lia) (sd_saved _ _ _ Hsd)) as Hlen.
      destruct (FlushBuffer_spec dev cp bs ps pend Hw) as (dev1 & cp1 & bs1 & -> & [Hsd1 _ Hpl1 Hbu1] & S1 & _).
      { unfold blen in *. rewrite length_app in Hroom. nia. }
      cbn [mbind option_bind]. eexists dev1, cp1, bs1, _, _. split; [done|]. split; [exact Hsd1|]. split; [exact Hpl1|]. split; [done|].
      rewrite (bu_buffer _ _ _ Hbu1). split; [done|]. rewrite concat_app. simpl. rewrite app_nil_r. split; [done|].
      unfold blen in *. rewrite length_replicate. lia. }
  cbn [mbind option_bind]. fold (booked dev1). rewrite Hb. pose proof (stream_clean _ _ _ Hsd1) as [Hem Hfo].
  exists (booked dev1), (cp1 <| checkpointBuffer := None |>), bs1, ps1, z. split; [done|]. destruct Hsd1 as [Al1 A1 _ Hcnt K1 _ _ V1].
  split; [exact A1|]. split; [by split|]. split; [by exists dev1|]. split; [by destruct V1|]. split; [exact K1|]. split; [exact Hcnt|]. split; [|done].
  by apply (place_blocks dev1 cp1); [apply Al1|].
Qed.

(** ** Reading *)

(** A device after pages have been read. *)
Definition read_dev dev dev' : Prop :=
  exists m s, dev' = dev <| genericDevice := m |> <| spareBuffer := s |> /\ pages_kept (fun _ => False) (genericDevice dev) m.

Lemma saved_kept dev dev' bs ps :
  static dev' = static dev -> pages_kept (fun _ => False) (genericDevice dev) (genericDevice dev') -> saved dev bs ps -> saved dev' bs ps.
Proof.
  intros E Hk [S1 S2 S3 S4 S5]. assert (forall b p, page_no dev' b p = page_no dev b p) as Ep by (intros b p; by apply static_page).
  assert (internalStartBlock dev' = internalStartBlock dev /\ internalEndBlock dev' = internalEndBlock dev) as [E1 E2] by (by injection E).
  constructor; [done|by rewrite E1, E2| |done|].
  - rewrite E1, E2. intros b Hb Hn. rewrite Ep. eapply kept_foreign; [exact Hk|by intros ?|by apply S3].
  - intros k d Hd. destruct (S5 k d Hd) as (b & Hb & Hp). exists b. split; [done|]. rewrite Ep. eapply kept_page; [exact Hk|by intros ?|done].
Qed.

(** The search goes over the blocks of others to the next block of the checkpoint. *)
Lemma next_checkpoint_found n : forall dev t i b d o k,
  aligned dev -> i <= b -> (Z.to_nat (b - i) < n)%nat -> (forall b', i <= b' < b -> foreign_page (genericDevice dev) (page_no dev b' 0)) ->
  checkpoint_page (genericDevice dev) (page_no dev b 0) d o k ->
  exists t' dev', next_checkpoint_loop ops n dev t i = Some (Some (b, t'), dev') /\ stamped o k t' /\ read_dev dev dev'.
Proof.
  destruct (store_read (B := B) (N := N) (nte := nte) (ops := ops)) as (read & Er & Hpage & Hforeign).
  induction n as [|n IH]; intros dev t i b d o k Hal Hib Hn Hf Hp; [lia|]. cbn [next_checkpoint_loop].
  destruct (fits_fields dev Hal) as [_ EB]. assert (i * nChunksPerBlock dev - chunkOffset dev = page_no dev i 0) as ->.
  { rewrite EB, (al_offset _ Hal). unfold page_no. lia. }
  rewrite Er. cbn [mbind option_bind]. destruct (decide (i = b)) as [->|Hne].
  - destruct (Hpage dev (page_no dev b 0) d o k None t (al_fits _ Hal) Hp) as (r & b' & t' & m & s & -> & _ & Ht & _ & Hk); [done|].
    cbn [mbind option_bind]. rewrite (st_sequence _ _ _ Ht), Z.eqb_refl. exists t'. eexists. split; [done|]. split; [done|]. by exists m, s.
  - destruct (Hforeign dev (page_no dev i 0) t (al_fits _ Hal)) as (r & b' & t' & m & s & -> & Hs & Hk); [apply Hf; lia|].
    cbn [mbind option_bind]. rewrite (proj2 (Z.eqb_neq _ _) Hs).
    destruct (IH (dev <| genericDevice := m |> <| spareBuffer := s |>) t' (i + 1) b d o k) as (t2 & dev2 & -> & Ht2 & (m2 & s2 & -> & Hk2)).
    + by apply (aligned_static dev).
    + lia.
    + lia.
    + intros b2 Hb2. eapply (kept_foreign _ _ _ _ Hk); [by intros ?|apply Hf; lia].
    + eapply (kept_page _ _ _ _ _ _ _ Hk); [by intros ?|exact Hp].
    + exists t2. eexists. split; [done|]. split; [done|]. exists m2, s2. split; [done|]. by eapply kept_trans.
Qed.

(** The list of the blocks that have been found. *)
Definition listed cp (bs : list Z) (n : nat) : Prop :=
  exists l, checkpointBlockList cp = Some l /\ blen l = checkpointMaxBlocks cp /\ take n l = take n bs.

Lemma listed_cp cp cp' bs n :
  (checkpointBlockList cp', checkpointMaxBlocks cp') = (checkpointBlockList cp, checkpointMaxBlocks cp) -> listed cp bs n -> listed cp' bs n.
Proof. intros [= E1 E2]. unfold listed. by rewrite E1, E2. Qed.

(** The stream that is read: [k] pages have been fetched. *)
Record reading dev cp (bs : list Z) (ps : list (list Z)) (k : nat) : Prop := {
  rd_aligned : aligned dev;
  rd_saved : saved dev bs ps;
  rd_open : checkpointOpenForWrite cp = false;
  rd_sequence : checkpointPageSequence cp = Z.of_nat k;
  rd_pages : (k <= length ps)%nat;
  rd_list : listed cp bs (Z.to_nat (blocksInCheckpoint dev));
  rd_max : Z.of_nat (length bs) <= checkpointMaxBlocks cp;
  rd_next : checkpointNextBlock cp = next_block_of dev (take (Z.to_nat (blocksInCheckpoint dev)) bs);
  rd_place :
    ((k mod per_block = 0)%nat /\ checkpointCurrentBlock cp < 0 /\ blocksInCheckpoint dev = Z.of_nat (k / per_block)) \/
    ((k mod per_block <> 0)%nat /\ bs !! (k / per_block)%nat = Some (checkpointCurrentBlock cp) /\
     checkpointCurrentChunk cp = Z.of_nat (k mod per_block) /\ blocksInCheckpoint dev = Z.of_nat (S (k / per_block)))
}.

Lemma reading_dev dev dev' cp bs ps k : read_dev dev dev' -> reading dev cp bs ps k -> reading dev' cp bs ps k.
Proof.
  intros (m & s & -> & Hk) []. constructor; try done; [by apply (aligned_static dev)|by apply (saved_kept dev)].
Qed.

(** The next block of the checkpoint is found. *)
Lemma find_checkpoint_block dev cp bs ps k d :
  reading dev cp bs ps k -> ps !! k = Some d -> (k mod per_block = 0)%nat -> checkpointCurrentBlock cp < 0 ->
  exists dev' cp', yaffs_CheckpointFindNextCheckpointBlock ops localTags dev cp = Some (dev', cp') /\
    aligned dev' /\ saved dev' bs ps /\ reread dev dev' /\ blocksInCheckpoint dev' = Z.of_nat (S (k / per_block)) /\
    bs !! (k / per_block)%nat = Some (checkpointCurrentBlock cp') /\ checkpointNextBlock cp' = checkpointCurrentBlock cp' + 1 /\
    listed cp' bs (S (k / per_block)) /\
    cp' = cp <| checkpointNextBlock := checkpointNextBlock cp' |> <| checkpointCurrentBlock := checkpointCurrentBlock cp' |>
             <| checkpointBlockList := checkpointBlockList cp' |>.
Proof.
  intros [Hal Hsv Hop Hseq _ (l & Hl & Hlen & Htk) Hmax Hnext Hpl] Hd Hmod Hcur.
  destruct Hpl as [(_ & _ & Hbic)|(Hne & _)]; [|done]. destruct (sv_pages _ _ _ Hsv k d Hd) as (b & Hb & Hp). rewrite Hmod in Hp.
  pose proof (lookup_lt_Some _ _ _ Hb) as Hlt. set (j := (k / per_block)%nat) in *. rewrite Hbic, Nat2Z.id in Hnext, Htk.
  pose proof (sv_range _ _ _ Hsv b (list_elem_of_lookup_2 _ _ _ Hb)) as Hr. pose proof (al_low _ Hal) as Hlow. pose proof (al_end _ Hal) as Hend.
  assert (internalStartBlock dev <= checkpointNextBlock cp <= b /\ forall b', checkpointNextBlock cp <= b' < b -> b' ∉ bs) as [Hnb Hout].
  { pose proof (sv_sorted _ _ _ Hsv) as Hinc. rewrite Hnext. unfold next_block_of. rewrite last_lookup, length_take, Nat.min_l by lia.
    destruct j as [|j']; simpl pred.
    - rewrite take_0. simpl. split; [lia|]. intros b' Hb' [i Hi]%list_elem_of_lookup.
      destruct i as [|i]; [rewrite Hb in Hi; injection Hi as ->; lia|]. pose proof (Hinc 0%nat (S i) b b' Hb Hi ltac:(lia)). lia.
    - rewrite lookup_take_lt by lia. destruct (lookup_lt_is_Some_2 bs j') as [b0 Hb0]; [lia|]. rewrite Hb0.
      pose proof (Hinc j' (S j') b0 b Hb0 Hb ltac:(lia)). pose proof (sv_range _ _ _ Hsv b0 (list_elem_of_lookup_2 _ _ _ Hb0)).
      split; [lia|]. intros b' Hb' [i Hi]%list_elem_of_lookup. destruct (decide (i <= j')%nat) as [Hle|Hgt].
      + destruct (decide (i = j')) as [->|]; [rewrite Hb0 in Hi; injection Hi as ->; lia|]. pose proof (Hinc i j' b' b0 Hi Hb0 ltac:(lia)). lia.
      + destruct (decide (i = S j')) as [->|]; [rewrite Hb in Hi; injection Hi as ->; lia|]. pose proof (Hinc (S j') i b b' Hb Hi ltac:(lia)). lia. }
  unfold yaffs_CheckpointFindNextCheckpointBlock. rewrite Hbic, (proj2 (Z.ltb_lt _ _)) by lia.
  destruct (next_checkpoint_found (Z.to_nat (internalEndBlock dev - checkpointNextBlock cp + 1)) dev localTags (checkpointNextBlock cp) b d (b + 1)
    (Z.of_nat k + 1) Hal) as (t' & dev' & -> & Ht & Hrd); [lia|lia| |exact Hp|].
  { intros b' Hb'. apply (sv_foreign _ _ _ Hsv); [lia|by apply Hout]. }
  cbn [mbind option_bind]. destruct Hrd as (m & s & -> & Hk). rewrite (st_object _ _ _ Ht), s32_small by lia.
  assert (checkpointBlockList (cp <| checkpointNextBlock := b + 1 |> <| checkpointCurrentBlock := b |>) = Some l) as -> by exact Hl.
  assert (blocksInCheckpoint (dev <| genericDevice := m |> <| spareBuffer := s |>) = Z.of_nat j) as -> by exact Hbic.
  cbn [mbind option_bind]. unfold set.
  rewrite (proj2 (Z.leb_le _ _)), (proj2 (Z.ltb_lt _ _)) by lia. cbn [andb mbind option_bind]. eexists _, _. split; [done|].
  split; [by apply (aligned_static dev)|]. split; [by apply (saved_kept dev)|]. split; [by exists m, s, (nPageReads dev), (Z.succ (blocksInCheckpoint dev))|]. split.
  { change (Z.succ (blocksInCheckpoint dev) = Z.of_nat (S j)). lia. }
  split; [exact Hb|]. split; [done|]. split; [|done]. eexists. split; [done|].
  unfold blen. rewrite length_insert. split; [exact Hlen|]. rewrite Nat2Z.id. rewrite (take_S_r _ _ b) by (apply list_lookup_insert_eq; unfold blen in Hlen; lia).
  by rewrite take_insert_ge, Htk, <- (take_S_r _ _ _ Hb) by lia.
Qed.

(** The page at the current chunk is fetched. *)
Lemma fetch_page_spec dev cp bs ps k d b :
  aligned dev -> saved dev bs ps -> ps !! k = Some d -> bs !! (k / per_block)%nat = Some (checkpointCurrentBlock cp) ->
  checkpointCurrentChunk cp = Z.of_nat (k mod per_block) -> checkpointPageSequence cp = Z.of_nat k ->
  checkpointBuffer cp = Some b -> blen b = N ->
  exists dev', fetch_page ops localTags dev cp = Some (true, dev',
      let cp1 := cp <| checkpointBuffer := Some d |> <| checkpointByteOffset := 0 |> <| checkpointPageSequence ::= Z.succ |>
                    <| checkpointCurrentChunk ::= Z.succ |> in
      if B <=? checkpointCurrentChunk cp1 then cp1 <| checkpointCurrentBlock := -1 |> else cp1) /\
    aligned dev' /\ saved dev' bs ps /\ reread dev dev' /\ blocksInCheckpoint dev' = blocksInCheckpoint dev.
Proof.
  intros Hal Hsv Hd Hb Hch Hseq Hbuf Hlen. destruct (sv_pages _ _ _ Hsv k d Hd) as (b' & Hb' & Hp). rewrite Hb in Hb'. injection Hb' as <-.
  destruct (fits_fields dev Hal) as [_ EB]. unfold fetch_page. rewrite EB, Hch, Hbuf.
  set (c := checkpointCurrentBlock cp) in *. assert (c * B + Z.of_nat (k mod per_block) - chunkOffset dev = page_no dev c (Z.of_nat (k mod per_block))) as ->.
  { rewrite (al_offset _ Hal). unfold page_no. lia. }
  destruct (store_read (B := B) (N := N) (nte := nte) (ops := ops)) as (read & -> & Hpage & _). cbn [mbind option_bind].
  match goal with |- context [read ?dv] => set (dev0 := dv) end.
  destruct (Hpage dev0 _ d (c + 1) (Z.of_nat k + 1) (Some b) localTags (al_fits _ Hal) Hp)
    as (r & b2 & t' & m & s & -> & Eb2 & Ht & He & Hk); [by intros ? [= <-]|]. cbn [mbind option_bind].
  rewrite (Eb2 ltac:(done)), (st_chunk _ _ _ Ht), (st_sequence _ _ _ Ht), Z.eqb_refl, (bool_decide_false _ He).
  change (checkpointPageSequence (cp <| checkpointBuffer := Some d |>)) with (checkpointPageSequence cp). rewrite Hseq.
  pose proof (page_bound dev bs ps k _ Hal Hsv Hb). rewrite u32_small, Z.eqb_refl by lia. cbn [negb orb].
  change (nChunksPerBlock (dev0 <| genericDevice := m |> <| spareBuffer := s |>)) with (nChunksPerBlock dev). rewrite EB.
  eexists. split; [reflexivity|]. split; [by apply (aligned_static dev)|]. split; [by apply (saved_kept dev)|]. split; [|done].
  by exists m, s, (Z.succ (nPageReads dev)), (blocksInCheckpoint dev).
Qed.

(** What the search for a block leaves alone. *)
Definition same_stream cp cp' : Prop :=
  (checkpointOpenForWrite cp', checkpointPageSequence cp', checkpointMaxBlocks cp', checkpointBuffer cp', checkpointSum cp', checkpointXor cp') =
  (checkpointOpenForWrite cp, checkpointPageSequence cp, checkpointMaxBlocks cp, checkpointBuffer cp, checkpointSum cp, checkpointXor cp).

(** The state with the block of page [k] at hand. *)
Record located dev cp (bs : list Z) (ps : list (list Z)) (k : nat) : Prop := {
  lo_aligned : aligned dev;
  lo_saved : saved dev bs ps;
  lo_block : bs !! (k / per_block)%nat = Some (checkpointCurrentBlock cp);
  lo_chunk : checkpointCurrentChunk cp = Z.of_nat (k mod per_block);
  lo_next : checkpointNextBlock cp = next_block_of dev (take (S (k / per_block)) bs);
  lo_count : blocksInCheckpoint dev = Z.of_nat (S (k / per_block));
  lo_list : listed cp bs (S (k / per_block))
}.

Lemma locate_block_spec dev cp bs ps k d :
  reading dev cp bs ps k -> ps !! k = Some d ->
  exists dev' cp', locate_block ops localTags dev cp = Some (dev', cp') /\ located dev' cp' bs ps k /\ reread dev dev' /\ same_stream cp cp'.
Proof.
  intros Hrd Hd. pose proof Hrd as [Hal Hsv Hop Hseq _ Hlist Hmax Hnext Hpl]. unfold locate_block.
  destruct Hpl as [(Hmod & Hcur & Hbic)|(Hmod & Hb & Hch & Hbic)].
  - rewrite (proj2 (Z.ltb_lt _ 0)) by done.
    destruct (find_checkpoint_block dev cp bs ps k d Hrd Hd Hmod Hcur) as (dev1 & cp1 & -> & Al1 & Sv1 & St1 & Hc1 & Hb1 & Hn1 & Hl1 & Ecp).
    cbn [mbind option_bind]. exists dev1, (cp1 <| checkpointCurrentChunk := 0 |>). split; [done|]. split; [|split; [done|by rewrite Ecp]].
    constructor; try done; [by rewrite Hmod|].
    change (checkpointNextBlock cp1 = next_block_of dev1 (take (S (k / per_block)) bs)). rewrite Hn1. unfold next_block_of.
    by rewrite (take_S_r _ _ _ Hb1), last_snoc.
  - pose proof (sv_range _ _ _ Hsv _ (list_elem_of_lookup_2 _ _ _ Hb)). pose proof (al_low _ Hal). rewrite (proj2 (Z.ltb_ge _ 0)) by lia.
    exists dev, cp. split; [done|]. split; [|split; [apply reread_refl|done]]. rewrite Hbic, Nat2Z.id in Hnext, Hlist. by constructor.
Qed.

Lemma fetch_chunk_spec dev cp bs ps k d b :
  reading dev cp bs ps k -> ps !! k = Some d -> checkpointBuffer cp = Some b -> blen b = N ->
  exists dev' cp', fetch_chunk ops localTags dev cp = Some (true, dev', cp') /\ reading dev' cp' bs ps (S k) /\
    checkpointBuffer cp' = Some d /\ checkpointByteOffset cp' = 0 /\ reread dev dev' /\
    checkpointSum cp' = checkpointSum cp /\ checkpointXor cp' = checkpointXor cp.
Proof.
  intros Hrd Hd Hbuf Hlen. unfold fetch_chunk.
  destruct (locate_block_spec dev cp bs ps k d Hrd Hd) as (dev1 & cp1 & -> & [Al1 Sv1 Hb1 Hch1 Hn1 Hc1 Hl1] & St1 & F). injection F as F1 F2 F3 F4 F5 F6.
  destruct Hrd as [_ _ Hop Hseq _ _ Hmax _ _]. cbn [mbind option_bind]. pose proof (al_chunks _ Al1) as HB.
  pose proof (sv_range _ _ _ Sv1 _ (list_elem_of_lookup_2 _ _ _ Hb1)) as Hr. pose proof (al_low _ Al1). rewrite (proj2 (Z.ltb_ge _ 0)) by lia.
  destruct (fetch_page_spec dev1 cp1 bs ps k d b Al1 Sv1 Hd Hb1 Hch1) as (dev2 & -> & Al2 & Sv2 & St2 & Hc2); [congruence|congruence|done|].
  cbv zeta. set (cp2 := _ <| checkpointCurrentChunk ::= Z.succ |>). assert (checkpointCurrentChunk cp2 = Z.of_nat (S (k mod per_block))) as Ec2.
  { change (Z.succ (checkpointCurrentChunk cp1) = Z.of_nat (S (k mod per_block))). lia. }
  assert (checkpointNextBlock cp1 = next_block_of dev2 (take (Z.to_nat (blocksInCheckpoint dev2)) bs)) as Hn2.
  { rewrite Hn1, Hc2, Hc1, Nat2Z.id. unfold next_block_of. by replace (internalStartBlock dev2) with (internalStartBlock dev1) by (apply reread_static in St2; injection St2 as _ _ _ _ _ E6; congruence). }
  assert (forall cp3, (checkpointOpenForWrite cp3, checkpointPageSequence cp3, checkpointMaxBlocks cp3, checkpointBlockList cp3, checkpointNextBlock cp3) =
      (checkpointOpenForWrite cp2, checkpointPageSequence cp2, checkpointMaxBlocks cp2, checkpointBlockList cp2, checkpointNextBlock cp2) ->
    (S k mod per_block = 0)%nat /\ checkpointCurrentBlock cp3 < 0 /\ blocksInCheckpoint dev2 = Z.of_nat (S k / per_block) \/
    (S k mod per_block <> 0)%nat /\ bs !! (S k / per_block)%nat = Some (checkpointCurrentBlock cp3) /\
      checkpointCurrentChunk cp3 = Z.of_nat (S k mod per_block) /\ blocksInCheckpoint dev2 = Z.of_nat (S (S k / per_block)) ->
    reading dev2 cp3 bs ps (S k)) as Hnew.
  { intros cp3 E Hp. injection E as E1 E2 E3 E4 E5. change (checkpointPageSequence cp2) with (Z.succ (checkpointPageSequence cp1)) in E2.
    change (checkpointOpenForWrite cp2) with (checkpointOpenForWrite cp1) in E1. change (checkpointMaxBlocks cp2) with (checkpointMaxBlocks cp1) in E3.
    change (checkpointBlockList cp2) with (checkpointBlockList cp1) in E4. change (checkpointNextBlock cp2) with (checkpointNextBlock cp1) in E5.
    constructor; try done; [congruence|lia|by apply lookup_lt_Some in Hd|apply (listed_cp cp1); [congruence|by rewrite Hc2, Hc1, Nat2Z.id]|rewrite E3; lia|congruence]. }
  eexists dev2, _. split; [done|]. rewrite Ec2. assert (Z.of_nat per_block = B) as EP by (unfold per_block; lia).
  destruct (next_div k) as [(D1 & D2 & D3)|(D1 & D2 & D3)]; [lia| |].
  - rewrite (proj2 (Z.leb_le B _)) by lia. split; [|split_and!; done || congruence || by eapply reread_trans]. apply Hnew; [done|]. left.
    split; [done|]. split; [done|]. congruence.
  - rewrite (proj2 (Z.leb_gt B _)) by lia. split; [|split_and!; done || congruence || by eapply reread_trans]. apply Hnew; [done|]. right.
    rewrite D1, D2. split; [done|]. split; [done|]. split; [done|congruence].
Qed.

(** The bytes [rest] are to come: the end of the buffer and the pages that have not been fetched. *)
Definition pulling dev cp (bs : list Z) (ps : list (list Z)) (rest : list Z) : Prop :=
  exists k b, reading dev cp bs ps k /\ checkpointBuffer cp = Some b /\ blen b = N /\ 0 <= checkpointByteOffset cp <= N /\
    rest = drop (Z.to_nat (checkpointByteOffset cp)) b ++ concat (drop k ps).

(** Where a byte is asked for, the buffer has it or the next page is fetched. *)
Lemma refill dev cp bs ps x rest :
  pulling dev cp bs ps (x :: rest) ->
  exists dev' cp',
    (if (checkpointByteOffset cp <? 0) || (nDataBytesPerChunk dev <=? checkpointByteOffset cp)
     then fetch_chunk ops localTags dev cp else Some (true, dev, cp)) = Some (true, dev', cp') /\
    pulling dev' cp' bs ps (x :: rest) /\ checkpointByteOffset cp' < N /\ reread dev dev' /\
    checkpointSum cp' = checkpointSum cp /\ checkpointXor cp' = checkpointXor cp.
Proof.
  intros Hpu. pose proof Hpu as (k & b & Hrd & Hb & Hlen & Hoff & Er). pose proof (rd_aligned _ _ _ _ _ Hrd) as Hal.
  destruct (fits_fields dev Hal) as [-> _]. pose proof (al_bytes _ Hal) as HN. rewrite (proj2 (Z.ltb_ge _ 0)) by lia. cbn [orb].
  destruct (Z.leb_spec N (checkpointByteOffset cp)) as [Hge|Hlt]; [|exists dev, cp; split_and!; try done; apply reread_refl].
  rewrite drop_ge in Er by (unfold blen in Hlen; lia). destruct (ps !! k) as [d|] eqn:Hd.
  2:{ apply lookup_ge_None in Hd. by rewrite drop_ge in Er. }
  destruct (fetch_chunk_spec dev cp bs ps k d b Hrd Hd Hb Hlen) as (dev' & cp' & E & Hrd' & Hb' & Ho' & H). exists dev', cp'.
  split; [done|]. rewrite Ho'. split; [|split; [lia|done]]. exists (S k), d. rewrite Ho'. split; [done|]. split; [done|].
  pose proof (Forall_lookup_1 _ _ _ _ (sv_bytes _ _ _ (rd_saved _ _ _ _ _ Hrd)) Hd) as [Hdl _]. split; [unfold blen; lia|]. split; [lia|].
  rewrite Er, (drop_S _ _ _ Hd). done.
Qed.

Lemma read_stream_spec bs ps n : forall dev cp rest,
  pulling dev cp bs ps rest -> (n <= length rest)%nat ->
  exists dev' cp', read_stream ops localTags n dev cp = Some (take n rest, dev', cp') /\ pulling dev' cp' bs ps (drop n rest) /\
    reread dev dev' /\
    checkpointSum cp' = sum_bytes (checkpointSum cp) (take n rest) /\ checkpointXor cp' = xor_bytes (checkpointXor cp) (take n rest).
Proof.
  induction n as [|n IH]; intros dev cp rest Hpu Hn; cbn [read_stream]; [exists dev, cp; split_and!; try done; apply reread_refl|]. destruct rest as [|x rest]; [simpl in Hn; lia|].
  destruct (refill dev cp bs ps x rest Hpu) as (dev1 & cp1 & -> & (k & b & Hrd & Hb & Hlen & Hoff & Er) & Hlt & S1 & E1 & E2).
  cbn [mbind option_bind]. rewrite Hb. cbn [mbind option_bind]. unfold get. rewrite (proj2 (Z.leb_le 0 _)) by lia.
  destruct (lookup_lt_is_Some_2 b (Z.to_nat (checkpointByteOffset cp1))) as [y Hy]; [unfold blen in Hlen; lia|].
  rewrite (drop_S _ _ _ Hy) in Er. injection Er as -> Er. rewrite Hy. cbn [mbind option_bind].
  destruct (IH dev1 (count_byte cp1 y) rest) as (dev2 & cp2 & -> & Hpu2 & S2 & E3 & E4); [|simpl in Hn; lia|].
  - exists k, b. split; [by destruct Hrd; constructor|]. split; [done|]. split; [done|].
    change (checkpointByteOffset (count_byte cp1 y)) with (Z.succ (checkpointByteOffset cp1)). split; [lia|]. by rewrite Z2Nat.inj_succ by lia.
  - cbn [mbind option_bind]. exists dev2, cp2. split; [done|]. split; [done|]. split; [by eapply reread_trans|].
    rewrite E3, E4, <- E1, <- E2. done.
Qed.

Lemma max_blocks_pos (a b : Z) : a <= b + 1 -> 0 <= Z.quot (b - a) 16 + 2.
Proof.
  intros H. assert (b - a < -1 \/ b - a = -1 \/ 0 <= b - a) as [?|[->|Hp]] by lia; [lia|done|].
  pose proof (Z.quot_pos (b - a) 16 Hp ltac:(lia)). lia.
Qed.

(** There is memory for the list of blocks. *)
Definition list_ready dev : Prop := forall n, n = Z.quot (internalEndBlock dev - internalStartBlock dev) 16 + 2 ->
  exists l, YMALLOC_ints n = Some l /\ blen l = n.

Lemma Open_read dev cp bs ps :
  aligned dev -> saved dev bs ps -> internalStartBlock dev <= internalEndBlock dev + 1 ->
  Z.of_nat (length bs) <= Z.quot (internalEndBlock dev - internalStartBlock dev) 16 + 2 -> buffer_ready cp -> list_ready dev ->
  exists dev' cp', yaffs_CheckpointOpen ops YMALLOC_DMA YMALLOC_ints dev cp false = Some (1, dev', cp') /\
    pulling dev' cp' bs ps (concat ps) /\ reread dev dev' /\ checkpointSum cp' = 0 /\ checkpointXor cp' = 0.
Proof.
  intros Hal Hsv Hse Hmax Hbuf Hlist. unfold yaffs_CheckpointOpen. rewrite ops_ready. cbn [negb andb]. pose proof (al_bytes _ Hal) as HN.
  destruct (ready_buffer dev cp Hal Hbuf) as (b & Eb & Hb). set (cp0 := match checkpointBuffer cp with Some _ => _ | None => _ end) in *.
  rewrite Eb. unfold open_read. cbv zeta. set (dev1 := dev <| blocksInCheckpoint := 0 |>). destruct (fits_fields dev Hal) as [EN _]. rewrite EN.
  change (internalEndBlock dev1) with (internalEndBlock dev). change (internalStartBlock dev1) with (internalStartBlock dev).
  set (n := Z.quot _ 16 + 2) in *. destruct (Hlist n eq_refl) as (l & El & Hl).
  assert (0 <= n) by (by apply max_blocks_pos).
  cbn [checkpointMaxBlocks]. match goal with |- context [YMALLOC_ints ?x] => change x with n end. rewrite El.
  match goal with |- context [checkpointBlockList ?c] => change (checkpointBlockList c) with (Some l) end. cbv iota. rewrite copy_Some by (unfold blen in *; rewrite ?length_replicate; lia).
  match goal with |- context [list_inserts ?a ?x ?y] => set (l1 := list_inserts a x y) end.
  eexists dev1, _. split; [reflexivity|].
  split; [|split; [by exists (genericDevice dev), (spareBuffer dev), (nPageReads dev), 0|done]].
  exists 0%nat, b. split; [constructor|]; try done.
  - by apply (aligned_static dev).
  - by apply (saved_kept dev).
  - apply Nat.le_0_l.
  - exists l1. split; [done|]. split; [|done]. unfold l1, blen. by rewrite length_inserts.
  - left. rewrite Nat.Div0.mod_0_l, Nat.Div0.div_0_l. done.
  - split; [exact Eb|]. split; [unfold blen; lia|]. 
    change (checkpointByteOffset _) with N. split; [lia|]. by rewrite drop_ge by (unfold blen in *; lia).
Qed.

(** Closing marks the blocks of the list that are taken to be empty. *)
Definition marked dev (bs : list Z) (k : nat) (bi : yaffs_BlockInfo) : yaffs_BlockInfo :=
  if bool_decide (blk dev k ∈ bs /\ blockState bi = YAFFS_BLOCK_STATE_EMPTY)
  then bi <| blockState := YAFFS_BLOCK_STATE_CHECKPOINT |> else bi.

Lemma marked_not_empty dev bs k bi : blk dev k ∈ bs -> blockState (marked dev bs k bi) <> YAFFS_BLOCK_STATE_EMPTY.
Proof. clear - dev. intros Hin. unfold marked. case_bool_decide as H; [done|]. intros E. by apply H. Qed.

Lemma marked_cons dev b bs k bi : marked dev (b :: bs) k bi = marked dev bs k (marked dev [b] k bi).
Proof.
  clear - dev. unfold marked. rewrite (bool_decide_ext (blk dev k ∈ [b] /\ blockState bi = YAFFS_BLOCK_STATE_EMPTY)
    (blk dev k = b /\ blockState bi = YAFFS_BLOCK_STATE_EMPTY)) by (by rewrite list_elem_of_singleton).
  rewrite (bool_decide_ext (blk dev k ∈ b :: bs /\ blockState bi = YAFFS_BLOCK_STATE_EMPTY)
    ((blk dev k = b \/ blk dev k ∈ bs) /\ blockState bi = YAFFS_BLOCK_STATE_EMPTY)) by (by rewrite elem_of_cons).
  destruct (decide (blk dev k = b)), (decide (blk dev k ∈ bs)), (decide (blockState bi = YAFFS_BLOCK_STATE_EMPTY)); by repeat case_bool_decide; intuition.
Qed.

Lemma mark_one dev i bi :
  blockInfo dev !! i = Some bi ->
  (if bool_decide (blockState bi = YAFFS_BLOCK_STATE_EMPTY)
   then update_block dev (blk dev i) (fun bi => bi <| blockState := YAFFS_BLOCK_STATE_CHECKPOINT |>) else Some dev) =
  Some (dev <| blockInfo := imap (marked dev [blk dev i]) (blockInfo dev) |>).
Proof.
  intros Hi. assert (forall info, info = blockInfo dev -> Some dev = Some (dev <| blockInfo := info |>)) as Hid by (by intros ? ->; destruct dev).
  assert (forall k bk, blockInfo dev !! k = Some bk -> k <> i -> marked dev [blk dev i] k bk = bk) as Hother.
  { intros k bk _ Hne. unfold marked. rewrite bool_decide_false; [done|]. rewrite list_elem_of_singleton. unfold blk. lia. }
  assert (blk dev i ∈ [blk dev i]) as Hin by (by apply list_elem_of_singleton).
  case_bool_decide as Hs.
  - rewrite (update_block_blk dev i bi) by done. unfold set_block_info. replace (Z.to_nat (blk dev i - internalStartBlock dev)) with i by (unfold blk; lia).
    assert (<[i := bi <| blockState := YAFFS_BLOCK_STATE_CHECKPOINT |>]> (blockInfo dev) = imap (marked dev [blk dev i]) (blockInfo dev)) as <-; [|done].
    apply list_eq. intros k. rewrite list_lookup_imap. destruct (decide (k = i)) as [->|Hne].
    + rewrite list_lookup_insert_eq by (by eapply lookup_lt_Some). rewrite Hi. simpl. unfold marked. by rewrite bool_decide_true.
    + rewrite list_lookup_insert_ne by done. destruct (blockInfo dev !! k) as [bk|] eqn:E; [|done]. simpl. by rewrite Hother.
  - apply Hid. apply list_eq. intros k. rewrite list_lookup_imap. destruct (blockInfo dev !! k) as [bk|] eqn:E; [|done]. simpl. f_equal.
    destruct (decide (k = i)) as [->|Hne]; [|by apply Hother]. unfold marked. rewrite bool_decide_false; [done|]. intros [_ H]. congruence.
Qed.

Lemma close_loop_spec bs : forall dev l i,
  take (length bs) (drop i l) = bs ->
  (forall b, b ∈ bs -> exists k bi, b = blk dev k /\ 0 <= b /\ blockInfo dev !! k = Some bi) ->
  close_loop (length bs) dev l (Z.of_nat i) = Some (dev <| blockInfo := imap (marked dev bs) (blockInfo dev) |>).
Proof.
  induction bs as [|b bs IH]; intros dev l i Hl Hbs; cbn [length close_loop].
  - f_equal. assert (imap (marked dev []) (blockInfo dev) = blockInfo dev) as ->; [|by destruct dev].
    apply list_eq. intros k. rewrite list_lookup_imap. destruct (blockInfo dev !! k); [|done]. simpl. unfold marked.
    rewrite bool_decide_false; [done|]. by intros [?%elem_of_nil _].
  - destruct (drop i l) as [|b' l'] eqn:Ed; [done|]. simpl in Hl. injection Hl as -> Hl.
    assert (l !! i = Some b) as Hi by (rewrite <- (Nat.add_0_r i), <- lookup_drop, Ed; done).
    unfold get. rewrite (proj2 (Z.leb_le 0 _)), Nat2Z.id, Hi by lia. cbn [mbind option_bind].
    destruct (Hbs b) as (k & bi & Eb & Hpos & Hk); [by apply elem_of_cons; left|]. rewrite (proj2 (Z.leb_le 0 b)) by done.
    rewrite Eb at 1. rewrite GetBlockInfo_blk, Hk. cbn [mbind option_bind]. rewrite Eb at 1. rewrite (mark_one dev k bi) by done. cbn [mbind option_bind].
    replace (Z.of_nat i + 1) with (Z.of_nat (S i)) by lia. rewrite <- Eb.
    set (dev1 := dev <| blockInfo := imap (marked dev [b]) (blockInfo dev) |>). rewrite IH.
    + assert (imap (marked dev1 bs) (blockInfo dev1) = imap (marked dev (b :: bs)) (blockInfo dev)) as ->; [|done].
      apply list_eq. intros j. change (blockInfo dev1) with (imap (marked dev [b]) (blockInfo dev)). rewrite !list_lookup_imap.
      destruct (blockInfo dev !! j); [|done]. simpl. by rewrite (marked_cons dev b bs).
    + rewrite <- Nat.add_1_r, <- drop_drop, Ed. simpl. rewrite drop_0. exact Hl.
    + intros b2 Hb2. destruct (Hbs b2) as (k2 & bi2 & E2 & Hp2 & Hk2); [by apply elem_of_cons; right|]. exists k2. eexists. split; [exact E2|]. split; [done|].
      change (blockInfo dev1) with (imap (marked dev [b]) (blockInfo dev)). by rewrite list_lookup_imap, Hk2.
Qed.

(** When less than a page is left, all the blocks have been found. *)
Lemma all_found dev cp bs ps rest :
  pulling dev cp bs ps rest -> blen rest < N -> Z.of_nat (length bs) * B < Z.of_nat (length ps) + B ->
  blocksInCheckpoint dev = Z.of_nat (length bs).
Proof.
  intros (k & b & Hrd & _ & _ & _ & ->) Hrest Hlen. pose proof (rd_saved _ _ _ _ _ Hrd) as Hsv. pose proof (rd_pages _ _ _ _ _ Hrd) as Hk.
  assert (k = length ps) as ->.
  { destruct (decide (k = length ps)) as [|Hne]; [done|]. destruct (lookup_lt_is_Some_2 ps k) as [d Hd]; [lia|].
    pose proof (Forall_lookup_1 _ _ _ _ (sv_bytes _ _ _ Hsv) Hd) as [Hdl _]. pose proof (al_bytes _ (rd_aligned _ _ _ _ _ Hrd)).
    rewrite (drop_S _ _ _ Hd) in Hrest. simpl in Hrest. unfold blen in Hrest. rewrite !length_app in Hrest. lia. }
  set (k := length ps) in *. pose proof (al_chunks _ (rd_aligned _ _ _ _ _ Hrd)) as HB. assert (Z.of_nat per_block = B) as EP by (unfold per_block; lia).
  assert (k <> 0%nat -> ((k - 1) / per_block < length bs)%nat) as Hlow.
  { intros Hk0. destruct (lookup_lt_is_Some_2 ps (k - 1)) as [d Hd]; [fold k; lia|]. destruct (sv_pages _ _ _ Hsv _ _ Hd) as (b' & Hb' & _).
    by apply lookup_lt_Some in Hb'. }
  pose proof (Nat.div_mod_eq k per_block) as D. destruct (rd_place _ _ _ _ _ Hrd) as [(Hm & _ & ->)|(Hm & _ & _ & ->)].
  - destruct (decide (k = 0%nat)) as [E|E]; [assert (k / per_block = 0)%nat by (rewrite E; apply Nat.Div0.div_0_l); nia|]. specialize (Hlow E).
    rewrite Hm in D. destruct (k / per_block)%nat as [|q]; [lia|]. rewrite <- (Nat.div_unique (k - 1) per_block q (per_block - 1)) in Hlow by lia. nia.
  - pose proof (Nat.mod_upper_bound k per_block ltac:(lia)). specialize (Hlow ltac:(lia)).
    rewrite <- (Nat.div_unique (k - 1) per_block (k / per_block) (k mod per_block - 1)) in Hlow by nia. nia.
Qed.

Lemma Close_read dev cp bs ps rest :
  pulling dev cp bs ps rest -> blen rest < N -> Z.of_nat (length bs) * B < Z.of_nat (length ps) + B ->
  internalEndBlock dev = internalStartBlock dev + Z.of_nat (length (blockInfo dev)) - 1 ->
  exists cp', yaffs_CheckpointClose ops localTags dev cp =
    Some (1, booked (dev <| blockInfo := imap (marked dev bs) (blockInfo dev) |>), cp').
Proof.
  intros Hpu Hrest Hlen Hend. pose proof (all_found _ _ _ _ _ Hpu Hrest Hlen) as Hbic. destruct Hpu as (k & b & Hrd & Hb & _).
  destruct Hrd as [Hal Hsv Hop _ _ (l & Hl & _ & Htk) _ _ _]. rewrite Hbic, Nat2Z.id, (take_ge bs) in Htk by lia.
  unfold yaffs_CheckpointClose. rewrite Hop, Hbic, Hl.
  assert ((if 0 <? Z.of_nat (length bs) then close_loop (Z.to_nat (Z.of_nat (length bs))) dev l 0 else Some dev) =
    Some (dev <| blockInfo := imap (marked dev bs) (blockInfo dev) |>)) as E.
  { pose proof (close_loop_spec bs dev l 0) as Hc. rewrite Nat2Z.id. change (Z.of_nat 0) with 0 in Hc. rewrite <- Hc; clear Hc.
    - destruct bs; [done|]. by rewrite (proj2 (Z.ltb_lt 0 _)) by (simpl; lia).
    - by rewrite drop_0.
    - intros b' Hb'. pose proof (sv_range _ _ _ Hsv b' Hb') as Hr. pose proof (al_low _ Hal).
      destruct (lookup_lt_is_Some_2 (blockInfo dev) (Z.to_nat (b' - internalStartBlock dev))) as [bi Hbi]; [lia|].
      exists (Z.to_nat (b' - internalStartBlock dev)), bi. unfold blk. split; [lia|]. split; [lia|done]. }
  cbn [mbind option_bind]. rewrite E. cbn [mbind option_bind].
  assert (checkpointBuffer (cp <| checkpointBlockList := None |>) = Some b) as -> by exact Hb. by eexists.
Qed.

(** ** Where there is no checkpoint *)

Lemma next_checkpoint_none n : forall dev t i,
  aligned dev -> (forall b, i <= b < i + Z.of_nat n -> foreign_page (genericDevice dev) (page_no dev b 0)) ->
  exists dev', next_checkpoint_loop ops n dev t i = Some (None, dev') /\ read_dev dev dev'.
Proof.
  destruct (store_read (B := B) (N := N) (nte := nte) (ops := ops)) as (read & Er & _ & Hforeign).
  induction n as [|n IH]; intros dev t i Hal Hf; cbn [next_checkpoint_loop].
  - exists dev. split; [done|]. exists (genericDevice dev), (spareBuffer dev). split; [by destruct dev|apply kept_refl].
  - destruct (fits_fields dev Hal) as [_ EB]. assert (i * nChunksPerBlock dev - chunkOffset dev = page_no dev i 0) as ->.
    { rewrite EB, (al_offset _ Hal). unfold page_no. lia. }
    rewrite Er. cbn [mbind option_bind].
    destruct (Hforeign dev (page_no dev i 0) t (al_fits _ Hal)) as (r & b' & t' & m & s & -> & Hs & Hk); [apply Hf; lia|].
    cbn [mbind option_bind]. rewrite (proj2 (Z.eqb_neq _ _) Hs).
    destruct (IH (dev <| genericDevice := m |> <| spareBuffer := s |>) t' (i + 1)) as (dev2 & -> & (m2 & s2 & -> & Hk2)).
    + by apply (aligned_static dev).
    + intros b2 Hb2. eapply (kept_foreign _ _ _ _ Hk); [by intros ?|apply Hf; lia].
    + eexists. split; [done|]. exists m2, s2. split; [done|]. by eapply kept_trans.
Qed.

Lemma saved_nothing dev :
  (forall b, internalStartBlock dev <= b <= internalEndBlock dev -> foreign_page (genericDevice dev) (page_no dev b 0)) -> saved dev [] [].
Proof.
  intros H. constructor; [by intros i j x y ?|by intros b ?%elem_of_nil| |apply Forall_nil_2|by intros k d ?]. intros b Hb _. by apply H.
Qed.

(** Reading from nothing stops at once. *)
Lemma read_nothing n dev cp :
  pulling dev cp [] [] [] ->
  exists dev', read_stream ops localTags (S n) dev cp =
      Some ([], dev', cp <| checkpointNextBlock := -1 |> <| checkpointCurrentBlock := -1 |> <| checkpointCurrentChunk := 0 |>) /\
    blocksInCheckpoint dev' = 0.
Proof.
  intros (k & b & Hrd & Hb & Hlen & Hoff & Er). pose proof (rd_pages _ _ _ _ _ Hrd) as Hk. assert (k = 0%nat) as -> by (simpl in Hk; lia).
  destruct Hrd as [Hal Hsv Hop _ _ (l & Hl & Hll & _) Hmax Hnext Hpl].
  destruct Hpl as [(_ & Hcur & Hbic)|(Hm & _)]; [|by rewrite Nat.Div0.mod_0_l in Hm]. rewrite Nat.Div0.div_0_l in Hbic.
  assert (blen (drop (Z.to_nat (checkpointByteOffset cp)) b) = 0) as Hz.
  { assert (drop (Z.to_nat (checkpointByteOffset cp)) b = []) as -> by (by destruct (drop _ b)). done. }
  unfold blen in Hz, Hlen. rewrite length_drop in Hz. cbn [read_stream]. destruct (fits_fields dev Hal) as [-> _].
  rewrite (proj2 (Z.ltb_ge _ 0)), (proj2 (Z.leb_le N _)) by lia. cbn [orb]. unfold fetch_chunk, locate_block. rewrite (proj2 (Z.ltb_lt _ 0)) by done.
  unfold yaffs_CheckpointFindNextCheckpointBlock. rewrite Hbic in Hnext. simpl in Hnext. unfold next_block_of in Hnext. simpl in Hnext. rewrite Hnext.
  assert (exists dev', (if blocksInCheckpoint dev <? checkpointMaxBlocks cp
    then next_checkpoint_loop ops (Z.to_nat (internalEndBlock dev - internalStartBlock dev + 1)) dev localTags (internalStartBlock dev)
    else Some (None, dev)) = Some (None, dev') /\ blocksInCheckpoint dev' = 0) as (dev' & -> & Hbic').
  { case_match; [|exists dev; split; [done|lia]].
    destruct (next_checkpoint_none (Z.to_nat (internalEndBlock dev - internalStartBlock dev + 1)) dev localTags (internalStartBlock dev) Hal)
      as (dev' & E & (m & s & -> & _)); [|eexists; split; [exact E|exact Hbic]].
    intros b' Hb'. apply (sv_foreign _ _ _ Hsv); [lia|by intros ?%elem_of_nil]. }
  exists dev'. split; [done|exact Hbic'].
Qed.

End Stream.
