(* ===== verification/YaffsCheckpointDriver.v ===== *)
(** * The checkpoint on an MTD device

    The driver of YAFFS2 (yaffs_mtdif.c, yaffs_mtdif2.c) on a NAND device that does not fail
    keeps the promise of [YaffsCheckpointFacts.PageStore], also for pages in which a bit of
    the stored tags flips after they were written. *)

From S2P Require Import Prelude NandEcc NandEccFacts NandEccSpec YaffsTags YaffsTagsFacts YaffsNand YaffsNandFacts YaffsNand2Facts.
From S2P Require Import YaffsCheckpoint YaffsCheckpointFacts.
From stdpp Require Import list.

Local Open Scope Z_scope.

(** An erased page of [n] bytes. *)
Definition erased_page {mtd} `{!MtdOps mtd} `{!MtdMedium mtd} (n : Z) (nte : bool) (s : mtd) (a : Z) : Prop :=
  page_data s a = replicate (Z.to_nat n) 255 /\ exists rest, page_oob s a = replicate (stored2_size nte) 255 ++ rest.

(** The page at an address is the same. *)
Definition same_page {mtd} `{!MtdOps mtd} `{!MtdMedium mtd} (s s' : mtd) (a : Z) : Prop :=
  page_data s' a = page_data s a /\ page_oob s' a = page_oob s a.

(** A device with pages of [N] bytes that does not fail: writing changes one page, reading none, and erasing those of its range. *)
Class ReliableMtd (N : Z) (nte : bool) (mtd : Type) `{!MtdOps mtd} `{!MtdMedium mtd} : Prop := {
  rel_write : forall s a ops, (N | a) -> ops_mode ops = MTD_OOB_AUTO ->
    exists s', write_oob s a ops = (0, s') /\ forall a', (N | a') -> a' <> a -> same_page s s' a';
  rel_read : forall s a ops, (N | a) -> ops_mode ops = MTD_OOB_AUTO ->
    exists r ops' s', read_oob s a ops = (r, ops', s') /\ (r = 0 \/ r = - EUCLEAN) /\ forall a', (N | a') -> same_page s s' a';
  rel_erase : forall s a n, (N | a) -> (N | n) ->
    exists s', mtd_erase s a n = (0, s') /\ forall a', (N | a') ->
      if bool_decide (a <= a' < a + n) then erased_page N nte s' a' else same_page s s' a'
}.

Section Driver.
Context {mtd : Type} `{!MtdOps mtd} `{!MtdMedium mtd} (N B : Z) (nte : bool) `{!ReliableMtd N nte mtd}.

Implicit Types (dev : yaffs_Device mtd) (m : mtd).

(** The tags that are read at an address. *)
Definition tags_at m (a : Z) : yaffs_ExtendedTags :=
  fst (yaffs_UnpackTags2 nte (pt2_of_bytes (take (stored2_size nte) (page_oob m a)))).

Lemma tags_at_stored m a t err rest :
  tags2_ok t -> covered2 nte err -> page_oob m a = decay err (stored2 nte t ++ rest) ->
  (stored2_size nte <= length (page_oob m a))%nat /\ tags_at m a = tags2_view (tags2_result err) t.
Proof.
  intros Hok He Hp. pose proof (stored2_bytes nte t) as Hs.
  assert (forall k b, err = Some (k, b) -> (k < stored2_size nte)%nat /\ (b < 8)%nat) as He'.
  { intros k b E. destruct (He k b E) as (-> & ? & ?). done. }
  pose proof (decay_bytes _ _ err Hs He') as [Hdn _]. unfold tags_at.
  rewrite Hp, (decay_app (stored2_size nte)); [|apply Hs|intros k b E; apply (He' k b E)].
  rewrite length_app, take_app_length' by lia. split; [lia|]. by apply unpack_stored2.
Qed.

Lemma tags_at_erased m a : erased_page N nte m a ->
  (stored2_size nte <= length (page_oob m a))%nat /\ sequenceNumber (tags_at m a) <> YAFFS_SEQUENCE_CHECKPOINT_DATA.
Proof.
  intros [_ [rest E]]. unfold tags_at. rewrite E, length_app, take_app_length' by (by rewrite length_replicate). rewrite length_replicate.
  split; [lia|]. by destruct nte.
Qed.

(** Pages of a checkpoint; with [worn], a bit of the tags may have flipped. *)
Definition saved_page (worn : bool) m (c : Z) (d : list Z) (o k : Z) : Prop :=
  bytes (Z.to_nat N) d /\ page_data m (c * N) = d /\ 0 < k /\
  exists t err rest, tags2_ok t /\ stamped o k t /\ covered2 nte err /\ (worn = false -> err = None) /\
    page_oob m (c * N) = decay err (stored2 nte t ++ rest).

#[refine] Instance yaffs2_pages (worn : bool) : Pages mtd := {
  blank_page m c := erased_page N nte m (c * N);
  checkpoint_page := saved_page worn;
  foreign_page m c := (stored2_size nte <= length (page_oob m (c * N)))%nat /\
    sequenceNumber (tags_at m (c * N)) <> YAFFS_SEQUENCE_CHECKPOINT_DATA
}.
Proof. intros m c. apply tags_at_erased. Defined.

Lemma pages_same worn (P : Z -> Prop) m m' :
  (forall c, ~ P c -> same_page m m' (c * N)) -> pages_kept (Pages0 := yaffs2_pages worn) P m m'.
Proof.
  intros H c Hc. destruct (H c Hc) as [E1 E2]. unfold blank_page, foreign_page, checkpoint_page, yaffs2_pages, erased_page, saved_page, tags_at.
  rewrite E1, E2. done.
Qed.

(** ** The functions of the driver *)

Context (wf : yaffs_Device mtd -> Z -> option (list Z) -> yaffs_Spare -> Z * yaffs_Device mtd).
Context (rf : yaffs_Device mtd -> Z -> option (list Z) -> Z * option (list Z) * yaffs_NANDSpare * yaffs_Device mtd).

Lemma page_divides c : (N | c * N).
Proof. by exists c. Qed.

(** Tags of a data chunk without what is only stored in headers. *)
Definition plain_tags (t : yaffs_ExtendedTags) : yaffs_ExtendedTags :=
  etags_zero <| sequenceNumber := sequenceNumber t |> <| objectId := objectId t |> <| chunkId := chunkId t |> <| byteCount := byteCount t |>.

Lemma stored2_plain t : 0 < chunkId t -> stored2 nte t = stored2 nte (plain_tags t).
Proof.
  intros Hk. assert (yaffs_PackTags2TagsPart t = yaffs_PackTags2TagsPart (plain_tags t)) as E.
  { unfold yaffs_PackTags2TagsPart. change (chunkId (plain_tags t)) with (chunkId t). by rewrite (proj2 (Z.eqb_neq _ 0)) by lia. }
  unfold stored2, yaffs_PackTags2. by rewrite E.
Qed.

Lemma stamped_ok o k t :
  stamped o k t -> in_w 28 o -> 0 < k < 2 ^ 31 -> in_w 32 (byteCount t) -> tags2_ok (plain_tags t) /\ stamped o k (plain_tags t).
Proof.
  intros [E1 E2 E3] Ho Hk Hb. split; [|by constructor]. constructor; try done.
  - change (0 <= sequenceNumber t < 2 ^ 31 - 1). by rewrite E3.
  - change (in_w 28 (objectId t)). by rewrite E1.
  - change (in_w 31 (chunkId t)). rewrite E2. unfold in_w. lia.
Qed.

Lemma stamped_view o k t res : stamped o k t -> 0 < k -> stamped o k (tags2_view res t).
Proof.
  intros [E1 E2 E3] Hk. unfold tags2_view. rewrite (proj2 (Z.eqb_neq (chunkId t) 0)) by lia. by constructor.
Qed.

(** Reading gives the tags of the page and, with a buffer, its data. *)
Lemma read2_page dev c b t :
  fits N B nte dev -> (stored2_size nte <= length (page_oob (genericDevice dev) (c * N)))%nat ->
  (forall b', b = Some b' -> blen b' = N /\ length (page_data (genericDevice dev) (c * N)) = Z.to_nat N) ->
  exists r m s, nandmtd2_ReadChunkWithTagsFromNAND dev c b (Some t) =
      Some (r, (fun _ => page_data (genericDevice dev) (c * N)) <$> b, Some (tags_at (genericDevice dev) (c * N)),
            dev <| genericDevice := m |> <| spareBuffer := s |>) /\
    forall a, (N | a) -> same_page (genericDevice dev) m a.
Proof.
  intros Hf Hoob Hb. injection Hf as EN ET EB EI EE. unfold nandmtd2_ReadChunkWithTagsFromNAND, nandmtd2_fetch.
  rewrite EI, ET, bool_decide_true, EN by done. cbn [orb negb]. rewrite andb_false_r.
  set (b0 := match b with Some d => Some d | None => None end). assert (b0 = b) as -> by (by destruct b).
  set (ops := mk_ops _ _ _ _ _ _). destruct (rel_read (nte := nte) (genericDevice dev) (c * N) ops (page_divides c) eq_refl) as (r & ops' & m & E & Hr & Hsame).
  rewrite E. destruct (read_oob_reads _ _ _ _ _ _ E eq_refl Hr) as [E1 E2].
  unfold ops in E1, E2. cbn [datbuf oobbuf ops_len ops_ooblen fmap option_fmap option_map] in E1, E2.
  assert (Z.to_nat (packed_tags_size dev) = stored2_size nte) as Hsz by (unfold packed_tags_size, stored2_size; rewrite EE; by destruct nte).
  rewrite E1, E2, Hsz. cbn [mbind option_bind]. set (oob := take _ _ ++ drop _ (spareBuffer dev)).
  unfold nandmtd2_unpack. set (dev' := dev <| genericDevice := m |> <| spareBuffer := oob |>).
  change (inbandTags dev') with (inbandTags dev). change (packed_tags_size dev') with (packed_tags_size dev).
  change (noTagsECC dev') with (noTagsECC dev). change (spareBuffer dev') with oob. rewrite EI, EE, Hsz. cbn [mbind option_bind].
  replace (r =? - EBADMSG) with false by (by destruct Hr as [-> | ->]). cbn [andb].
  eexists _, m, oob. split; [|exact Hsame]. unfold tags_at, oob. rewrite take_app_length' by (rewrite length_take; lia).
  destruct b as [b|]; [|done]. destruct (Hb b eq_refl) as [Hbl Hpd]. simpl. unfold blen in Hbl.
  rewrite (take_ge (page_data _ _)), (drop_ge b), app_nil_r by lia. done.
Qed.

(** Writing to an erased page stores the data and the tags, and changes nothing else. *)
Lemma write2_page dev c d t rest :
  fits N B nte dev -> page_data (genericDevice dev) (c * N) = replicate (Z.to_nat N) 255 ->
  page_oob (genericDevice dev) (c * N) = replicate (stored2_size nte) 255 ++ rest -> bytes (Z.to_nat N) d ->
  exists m, nandmtd2_WriteChunkWithTagsToNAND dev c (Some d) (Some t) = Some (YAFFS_OK, dev <| genericDevice := m |>) /\
    page_data m (c * N) = d /\ page_oob m (c * N) = stored2 nte t ++ rest /\
    forall a, (N | a) -> a <> c * N -> same_page (genericDevice dev) m a.
Proof.
  intros [= EN ET EB EI EE] Hpd Hpo Hd. destruct (nandmtd2_WriteChunkWithTagsToNAND dev c (Some d) (Some t)) as [[r dev']|] eqn:E.
  2:{ unfold nandmtd2_WriteChunkWithTagsToNAND in E. rewrite EI in E. cbn [mbind option_bind] in E. by destruct (write_oob _ _ _). }
  assert (r = YAFFS_OK /\ forall a, (N | a) -> a <> c * N -> same_page (genericDevice dev) (genericDevice dev') a) as [-> Hother].
  { unfold nandmtd2_WriteChunkWithTagsToNAND in E. rewrite EI in E. cbn [mbind option_bind] in E. rewrite ET in E.
    match type of E with context [write_oob _ _ ?x] =>
      destruct (rel_write (nte := nte) (genericDevice dev) (c * N) x (page_divides c) eq_refl) as (s' & Es & Hs) end.
    rewrite Es in E. injection E as <- <-. split; [done|]. exact Hs. }
  destruct (write2_chunk dev c d t dev' rest E EI) as (m & -> & E1 & E2); rewrite ?ET, ?EE; [done| |done|].
  { rewrite Hpd. f_equal. by destruct Hd. }
  rewrite ET in E1, E2. rewrite EE in E2. by exists m.
Qed.

Lemma yaffs2_store worn : 0 < N -> 0 < B -> PageStore (Pages0 := yaffs2_pages worn) N B nte (yaffs2_ops wf rf).
Proof.
  intros HN HB. constructor.
  - by eexists.
  - intros dev b Hf Hb Hhigh. injection Hf as EN ET EB EI EE. cbn [eraseBlockInNAND yaffs2_ops]. unfold nandmtd_EraseBlockInNAND.
    rewrite EN, EB, u32_small by nia. destruct (rel_erase (nte := nte) (genericDevice dev) (b * N * B) (N * B)) as (m & -> & Hm).
    { exists (b * B). lia. } { exists B. lia. }
    assert (forall c, bool_decide (b * N * B <= c * N < b * N * B + N * B) = bool_decide (b * B <= c < (b + 1) * B)) as Hin.
    { intros c. apply bool_decide_ext. split; intros [? ?]; split; nia. }
    eexists _, m. split; [done|]. split; [done|]. split.
    + intros c Hc. specialize (Hm _ (page_divides c)). by rewrite Hin, bool_decide_true in Hm.
    + apply pages_same. intros c Hc. specialize (Hm _ (page_divides c)). by rewrite Hin, bool_decide_false in Hm.
  - eexists. split; [done|]. intros dev c d t o k Hf Hc [Hpd [rest Hpo]] Hd Ht Ho Hk Hb.
    destruct (write2_page dev c d t rest Hf Hpd Hpo Hd) as (m & E & E1 & E2 & Hother). destruct (stamped_ok o k t Ht Ho Hk Hb) as [Hok Hst].
    exists YAFFS_OK, m. split; [exact E|]. split.
    + split; [done|]. split; [done|]. split; [lia|]. exists (plain_tags t), None, rest. split; [exact Hok|]. split; [exact Hst|].
      split; [by intros ? ?|]. split; [by intros _|]. cbn [decay]. rewrite <- stored2_plain by (rewrite (st_chunk _ _ _ Ht); lia). exact E2.
    + apply pages_same. intros c' Hc'. apply Hother; [apply page_divides|]. nia.
  - eexists. split; [done|]. split.
    + intros dev c d o k b t Hf (Hd & Hpd & Hk & t1 & err & rest & Hok & Hst & He & _ & Hpo) Hb.
      destruct (tags_at_stored _ _ _ _ _ Hok He Hpo) as [Hlen Etags].
      destruct (read2_page dev c b t Hf Hlen) as (r & m & s & -> & Hsame).
      { intros b' Hb'. split; [by apply Hb|]. rewrite Hpd. apply Hd. }
      cbn [mbind option_bind]. rewrite Etags. eexists _, _, (tags2_view (tags2_result err) t1), m, s. split; [done|]. split; [|split; [|split]].
      * intros [b' ->]. simpl. by rewrite Hpd.
      * by apply stamped_view.
      * rewrite tags2_view_result. unfold tags2_result. by repeat case_match.
      * apply pages_same. intros c' _. apply Hsame, page_divides.
    + intros dev c t Hf [Hlen Hseq]. destruct (read2_page dev c None t Hf Hlen) as (r & m & s & -> & Hsame); [done|].
      cbn [mbind option_bind]. eexists _, _, _, m, s. split; [done|]. split; [done|]. apply pages_same. intros c' _. apply Hsame, page_divides.
Qed.

End Driver.
