(* ===== verification/YaffsCheckpointStream.v ===== *)
(** * A session of the checkpoint stream

    What the functions that save and restore the state of the device rely on: a string of bytes
    that is written is appended to the stream, and what was written is read back in the same order, with the sums
    over it; the markers and the checksum on top of that. *)

From S2P Require Import Prelude NandEcc NandEccFacts YaffsTags YaffsTagsFacts YaffsNand YaffsNandFacts.
From S2P Require Import YaffsBlocks YaffsBlocksFacts YaffsBlocksOps YaffsCheckpoint YaffsCheckpointFacts.
From stdpp Require Import list.

Local Open Scope Z_scope.

Definition sum_of (s : list Z) : Z := Z.lor (u32 (Z.shiftl (sum_bytes 0 s) 8)) (Z.land (xor_bytes 0 s) 0xFF).

Lemma sum_bytes_app s a b : sum_bytes s (a ++ b) = sum_bytes (sum_bytes s a) b.
Proof. apply foldl_app. Qed.

Lemma xor_bytes_app s a b : xor_bytes s (a ++ b) = xor_bytes (xor_bytes s a) b.
Proof. apply foldl_app. Qed.

Lemma sum_of_word s : in_w 32 (sum_of s).
Proof.
  apply in_w_lor; [done|by apply wrap_in|]. change 0xFF with (Z.ones 8). rewrite Z.land_ones by done.
  apply (in_w_mono 8); [done|]. unfold in_w. apply Z.mod_pos_bound. done.
Qed.

Lemma blen_app (a b : list Z) : blen (a ++ b) = blen a + blen b.
Proof. unfold blen. rewrite length_app. lia. Qed.

Lemma blen_le_bytes n v : blen (le_bytes n v) = Z.of_nat n.
Proof. unfold blen. by destruct (le_bytes_bytes n v) as [-> _]. Qed.

Lemma validity_ok head : bytes 16 (validity_bytes head).
Proof. destruct head; (split; [done|]); by apply (bool_decide_unpack _). Qed.

Section Session.
Context {mtd : Type} `{!Pages mtd} (N B : Z) (nte : bool) (ops : nand_ops mtd) `{!PageStore N B nte ops}.
Context (localTags : yaffs_ExtendedTags) (YMALLOC_DMA YMALLOC_ints : Z -> option (list Z)).

Implicit Types (dev : yaffs_Device mtd) (cp : checkpoint).

(** ** Writing *)

(** The stream [s] has been written since the device was [dev0]. *)
Definition written_stream dev0 dev cp (s : list Z) : Prop :=
  exists bs ps pend, writing N B nte dev cp bs ps pend /\ blen pend < N /\ concat ps ++ pend = s /\ rewritten dev0 dev /\
    checkpointSum cp = sum_bytes 0 s /\ checkpointXor cp = xor_bytes 0 s.

(** The bytes for which there are erased blocks. *)
Definition stream_room dev : Z := B * nErasedBlocks dev * N.

Lemma written_rewritten dev0 dev cp s : written_stream dev0 dev cp s -> rewritten dev0 dev.
Proof. by intros (bs & ps & pend & _ & _ & _ & H & _). Qed.

(** What follows can start from the device as it is. *)
Lemma written_rebase dev0 dev cp s : written_stream dev0 dev cp s -> written_stream dev dev cp s /\ stream_room dev = stream_room dev0.
Proof.
  intros (bs & ps & pend & Hw & Hlt & Es & R & H). split; [|unfold stream_room; by rewrite (rewritten_erased _ _ R)].
  exists bs, ps, pend. split_and!; try done; [apply rewritten_refl|apply H..].
Qed.

Lemma Write_spec dev0 dev cp s src n :
  written_stream dev0 dev cp s -> has_bytes src 0 n dev -> blen s + Z.of_nat n <= stream_room dev0 ->
  exists data dev' cp', yaffs_CheckpointWrite ops localTags dev cp src (Z.of_nat n) = Some (Z.of_nat n, dev', cp') /\
    length data = n /\ drawn src 0 dev dev' data /\ rewritten dev dev' /\ written_stream dev0 dev' cp' (s ++ data).
Proof.
  intros (bs & ps & pend & Hw & Hlt & <- & R1 & Es & Ex) Hsrc Hroom. unfold yaffs_CheckpointWrite.
  pose proof (wr_buffer _ _ _ _ _ _ _ _ Hw) as Hbu. rewrite (bu_buffer _ _ _ _ Hbu), (bu_open _ _ _ _ Hbu). cbn [negb].
  rewrite bool_decide_false, Nat2Z.id by done.
  destruct (write_stream_spec N B nte ops localTags src n 0 dev cp bs ps pend Hw Hlt Hsrc)
    as (dev' & cp' & bs' & ps' & pend' & data & E & Hl & Hd & Hw' & Hlt' & C' & R' & Es' & Ex').
  { by rewrite (rewritten_erased dev0 dev). }
  exists data, dev', cp'. split; [exact E|]. split; [done|]. split; [done|]. split; [done|]. exists bs', ps', pend'.
  rewrite sum_bytes_app, xor_bytes_app, <- Es, <- Ex. split_and!; try done; [by rewrite <- app_assoc|by eapply rewritten_trans].
Qed.

(** An operation that appends the bytes [data] to the stream. *)
Definition emits dev0 (op : yaffs_Device mtd -> checkpoint -> option (bool * yaffs_Device mtd * checkpoint)) (data : list Z) : Prop :=
  forall dev cp s, written_stream dev0 dev cp s -> blen s + blen data <= stream_room dev0 ->
    exists dev' cp', op dev cp = Some (true, dev', cp') /\ written_stream dev0 dev' cp' (s ++ data).

Lemma emits_nothing dev0 : emits dev0 (fun dev cp => Some (true, dev, cp)) [].
Proof. intros dev cp s Hw _. exists dev, cp. by rewrite app_nil_r. Qed.

(** One operation after the other. *)
Lemma emits_then dev0 op op' d d' :
  emits dev0 op d -> emits dev0 op' d' ->
  emits dev0 (fun dev cp => '(ok, dev, cp) ← op dev cp; if (ok : bool) then op' dev cp else Some (false, dev, cp)) (d ++ d').
Proof.
  intros H H' dev cp s Hw Hr. rewrite blen_app in Hr. pose proof (Zle_0_nat (length d')).
  destruct (H dev cp s Hw) as (dev1 & cp1 & -> & Hw1); [unfold blen in *; lia|]. cbn [mbind option_bind].
  destruct (H' dev1 cp1 _ Hw1) as (dev2 & cp2 & -> & Hw2); [rewrite blen_app; lia|]. exists dev2, cp2. by rewrite app_assoc.
Qed.

(** The bytes of a variable. *)
Lemma Write_bytes dev0 dev cp s l :
  written_stream dev0 dev cp s -> Forall (in_w 8) l -> blen s + blen l <= stream_room dev0 ->
  exists dev' cp', yaffs_CheckpointWrite ops localTags dev cp (var_bytes l) (blen l) = Some (blen l, dev', cp') /\ rewritten dev dev' /\
    written_stream dev0 dev' cp' (s ++ l).
Proof.
  intros Hw Hl Hr. destruct (Write_spec dev0 dev cp s (var_bytes l) (length l) Hw) as (data & dev' & cp' & E & Hlen & Hd & R & Hw').
  - intros j dev1 Hj _. destruct (lookup_lt_is_Some_2 l j Hj) as [b Hb]. exists b. split; [|by eapply Forall_lookup_1].
    unfold var_bytes, get. by rewrite (proj2 (Z.leb_le 0 _)), Z.add_0_l, Nat2Z.id by lia.
  - exact Hr.
  - exists dev', cp'. split; [exact E|]. split; [exact R|]. assert (data = l) as <-; [|done]. apply list_eq_same_length with (length l); [done|done|].
    intros j x y Hj Hx Hy. destruct (Hd j) as (dev1 & _ & _ & E1); [lia|]. unfold var_bytes, get in E1.
    rewrite (proj2 (Z.leb_le 0 _)), Z.add_0_l, Nat2Z.id in E1 by lia. congruence.
Qed.

Lemma emits_bytes dev0 l n : blen l = n -> Forall (in_w 8) l ->
  emits dev0 (fun dev cp => '(r, dev, cp) ← yaffs_CheckpointWrite ops localTags dev cp (var_bytes l) n; Some (r =? n, dev, cp)) l.
Proof.
  intros <- Hl dev cp s Hw Hr. destruct (Write_bytes dev0 dev cp s l Hw Hl Hr) as (dev' & cp' & -> & _ & Hw'). cbn [mbind option_bind].
  exists dev', cp'. by rewrite Z.eqb_refl.
Qed.

Lemma emits_marker dev0 head : emits dev0 (fun dev cp => yaffs_WriteCheckpointValidityMarker ops localTags dev cp head) (validity_bytes head).
Proof. destruct (validity_ok head) as [Hlen Hb]. apply emits_bytes; [|done]. unfold blen. by rewrite Hlen. Qed.

Lemma WriteSum_spec dev0 dev cp s :
  written_stream dev0 dev cp s -> blen s + 4 <= stream_room dev0 ->
  exists dev' cp', yaffs_WriteCheckpointSum ops localTags dev cp = Some (true, dev', cp') /\ written_stream dev0 dev' cp' (s ++ le_bytes 4 (sum_of s)).
Proof.
  intros Hw Hroom. unfold yaffs_WriteCheckpointSum. pose proof Hw as (_ & _ & _ & _ & _ & _ & _ & Es & Ex).
  assert (yaffs_GetCheckpointSum cp = sum_of s) as -> by (unfold yaffs_GetCheckpointSum; by rewrite Es, Ex).
  apply (emits_bytes dev0 (le_bytes 4 (sum_of s)) 4 (blen_le_bytes _ _) (proj2 (le_bytes_bytes 4 _)) dev cp s Hw). by rewrite blen_le_bytes.
Qed.

Lemma booked_nothing dev : blocksInCheckpoint dev = 0 -> booked dev = dev.
Proof.
  intros E. change (booked dev) with (dev <| nFreeChunks := nFreeChunks dev - blocksInCheckpoint dev * nChunksPerBlock dev |> <| nErasedBlocks := nErasedBlocks dev - blocksInCheckpoint dev |>).
  rewrite E, Z.mul_0_l, !Z.sub_0_r. by destruct dev.
Qed.

Lemma Open_written dev cp :
  aligned N B nte dev -> clean B dev -> accounts dev -> yaffs_CheckpointSpaceOk dev = true -> buffer_ready N YMALLOC_DMA cp ->
  exists dev' cp', yaffs_CheckpointOpen ops YMALLOC_DMA YMALLOC_ints dev cp true = Some (1, dev', cp') /\ written_stream dev' dev' cp' [] /\
    erased_since dev dev' /\ accounts dev' /\ forall i bi, blockInfo dev' !! i = Some bi -> blockState bi <> YAFFS_BLOCK_STATE_CHECKPOINT.
Proof.
  intros Hal Hcl Hac Hsp Hbuf.
  destruct (Open_write N B nte ops YMALLOC_DMA YMALLOC_ints dev cp Hal Hcl Hac Hsp Hbuf) as (dev1 & cp1 & -> & Hw & S1 & Es & Ex).
  pose proof (wr_dev _ _ _ _ _ _ _ _ Hw) as Hsd. exists dev1, cp1. split; [done|]. split; [|split; [done|split]].
  - exists [], [], []. pose proof (al_bytes _ _ _ _ Hal). change (blen []) with 0. split_and!; try done; [lia|apply rewritten_refl].
  - rewrite <- (booked_nothing dev1); [apply Hsd|exact (sd_count _ _ _ _ _ _ Hsd)].
  - intros i bi Hi E. apply (sd_state _ _ _ _ _ _ Hsd i bi Hi) in E. by apply elem_of_nil in E.
Qed.

Lemma Close_written dev0 dev cp s :
  written_stream dev0 dev cp s -> blen s <= stream_room dev0 ->
  exists dev' cp' bs ps z dev1, yaffs_CheckpointClose ops localTags dev cp = Some (1, dev', cp') /\
    accounts dev' /\ clean B dev' /\ rewritten dev0 dev1 /\ dev' = booked dev1 /\ saved N B dev' bs ps /\ in_blocks dev' bs /\
    blocksInCheckpoint dev' = Z.of_nat (length bs) /\ Z.of_nat (length bs) * B < Z.of_nat (length ps) + B /\ concat ps = s ++ z /\ blen z < N.
Proof.
  intros (bs & ps & pend & Hw & Hlt & <- & R & _ & _) Hr.
  destruct (Close_write N B nte ops localTags dev cp bs ps pend Hw Hlt) as (dev' & cp' & bs' & ps' & z & E & A & C & (dev1 & R1 & E1) & V & I & Hb & L & Ec & Hz).
  { by rewrite (rewritten_erased dev0 dev). }
  exists dev', cp', bs', ps', z, dev1. split_and!; try done; [by eapply rewritten_trans|by rewrite <- app_assoc].
Qed.

(** ** Reading *)

(** The stream is to be read from [rest] on, after [s]. *)
Definition loaded dev cp (bs : list Z) (ps : list (list Z)) (s rest : list Z) : Prop :=
  pulling N B nte dev cp bs ps rest /\ checkpointSum cp = sum_bytes 0 s /\ checkpointXor cp = xor_bytes 0 s.

(** What reading depends on. *)
Definition stream_fields dev := (static dev, genericDevice dev, blocksInCheckpoint dev).

Lemma loaded_fields dev dev' cp bs ps s rest : stream_fields dev' = stream_fields dev -> loaded dev cp bs ps s rest -> loaded dev' cp bs ps s rest.
Proof.
  intros E ((k & b & [Hal Hsv Ho Hq Hk Hl Hm Hn Hp] & Hb) & Hsums). pose proof (f_equal (fst ∘ fst) E : static dev' = static dev) as S1.
  pose proof (f_equal (snd ∘ fst) E : genericDevice dev' = genericDevice dev) as Eg.
  pose proof (f_equal snd E : blocksInCheckpoint dev' = blocksInCheckpoint dev) as Eb.
  split; [|done]. exists k, b. split; [|done]. constructor; rewrite ?Eb; try done.
  - by apply (aligned_static N B nte dev).
  - apply (saved_kept N B dev); [done| |done]. rewrite Eg. apply kept_refl.
  - unfold next_block_of in *. by replace (internalStartBlock dev') with (internalStartBlock dev) by (by injection S1).
Qed.

Lemma Read_spec dev cp bs ps s p rest :
  loaded dev cp bs ps s (p ++ rest) ->
  exists dev' cp', yaffs_CheckpointRead ops localTags dev cp (blen p) = Some (blen p, p, dev', cp') /\ reread dev dev' /\
    loaded dev' cp' bs ps (s ++ p) rest.
Proof.
  intros (Hpu & Es & Ex). unfold yaffs_CheckpointRead. pose proof Hpu as (k & b & Hrd & Hb & _).
  rewrite Hb, (rd_open _ _ _ _ _ _ _ _ Hrd), bool_decide_false by done.
  destruct (read_stream_spec N B nte ops localTags bs ps (length p) dev cp (p ++ rest) Hpu) as (dev' & cp' & E & Hpu' & S' & Es' & Ex').
  { rewrite length_app. lia. }
  unfold blen. rewrite Nat2Z.id, E. cbn [mbind option_bind]. rewrite take_app_length, drop_app_length in *. exists dev', cp'. split; [done|].
  split; [done|]. split; [done|]. rewrite sum_bytes_app, xor_bytes_app. split; congruence.
Qed.

Lemma ReadMarker_spec dev cp bs ps s head rest :
  loaded dev cp bs ps s (validity_bytes head ++ rest) ->
  exists dev' cp', yaffs_ReadCheckpointValidityMarker ops localTags dev cp head = Some (true, dev', cp') /\ reread dev dev' /\
    loaded dev' cp' bs ps (s ++ validity_bytes head) rest.
Proof.
  intros Hl. unfold yaffs_ReadCheckpointValidityMarker.
  destruct (Read_spec dev cp bs ps s _ rest Hl) as (dev' & cp' & E & R & Hl'). assert (blen (validity_bytes head) = 16) as Hlen by (by destruct head).
  rewrite Hlen in E. change sizeof_yaffs_CheckpointValidity with 16. rewrite E. cbn [mbind option_bind]. exists dev', cp'. split; [by destruct head|done].
Qed.

Lemma ReadSum_spec dev cp bs ps s rest :
  loaded dev cp bs ps s (le_bytes 4 (sum_of s) ++ rest) ->
  exists dev' cp', yaffs_ReadCheckpointSum ops localTags dev cp = Some (true, dev', cp') /\ reread dev dev' /\
    loaded dev' cp' bs ps (s ++ le_bytes 4 (sum_of s)) rest.
Proof.
  intros Hl. unfold yaffs_ReadCheckpointSum. pose proof Hl as (_ & Es & Ex).
  assert (yaffs_GetCheckpointSum cp = sum_of s) as -> by (unfold yaffs_GetCheckpointSum; by rewrite Es, Ex).
  destruct (Read_spec dev cp bs ps s _ rest Hl) as (dev' & cp' & E & R & Hl'). rewrite blen_le_bytes in E. change (Z.of_nat 4) with 4 in E.
  rewrite E. cbn [mbind option_bind]. rewrite (le_value_bytes 4) by apply sum_of_word. rewrite !Z.eqb_refl. by exists dev', cp'.
Qed.

Lemma Close_nothing dev cp b :
  checkpointOpenForWrite cp = false -> blocksInCheckpoint dev = 0 -> checkpointBuffer cp = Some b ->
  exists dev' cp', yaffs_CheckpointClose ops localTags dev cp = Some (1, dev', cp').
Proof.
  intros Hop Hbic Hb. unfold yaffs_CheckpointClose. rewrite Hop, Hbic. cbn [mbind option_bind Z.ltb Z.compare].
  assert (checkpointBuffer (cp <| checkpointBlockList := None |>) = Some b) as -> by exact Hb. by eexists _, _.
Qed.

End Session.
