(* ===== verification/YaffsCheckpointDevice.v ===== *)
(** * The device in a checkpoint

    The structs that describe the device and its blocks are read back as they were, and the array of the blocks
    is read back although the stream changes it while it is written: an entry is found as it was
    before or after its block was taken for the checkpoint. *)

From S2P Require Import Prelude NandEcc NandEccFacts YaffsTags YaffsTagsFacts YaffsNand.
From S2P Require Import YaffsBlocks YaffsBlocksFacts YaffsCheckpoint YaffsCheckpointFacts YaffsCheckpointStream YaffsCheckpointData.
From stdpp Require Import list.

Local Open Scope Z_scope.

(** ** Words *)

Lemma le_bytes_u32 v : le_bytes 4 (u32 v) = le_bytes 4 v.
Proof.
  apply list_eq. intros k. rewrite !le_bytes_lookup. destruct (Nat.ltb_spec k 4) as [Hk|]; [|done]. f_equal.
  apply Z.bits_inj'. intros i Hi. unfold u8, u32. rewrite !wrap_testbit, !Z.shiftr_spec, wrap_testbit by lia.
  destruct (Z.ltb_spec i 8); [|done]. by rewrite (proj2 (Z.ltb_lt _ 32)) by lia.
Qed.

Lemma le_value_u32 v : le_value (le_bytes 4 v) = u32 v.
Proof. rewrite <- le_bytes_u32. apply (le_value_bytes 4), wrap_in. done. Qed.

Lemma words_bytes_ok ws : bytes (4 * length ws) (words_bytes ws).
Proof.
  unfold words_bytes. induction ws as [|w ws [IH1 IH2]]; [done|]. cbn [fmap list_fmap concat]. destruct (le_bytes_bytes 4 w) as [E1 E2].
  split; [rewrite length_app; simpl length in *; lia|]. by apply Forall_app.
Qed.

Lemma blen_words ws : blen (words_bytes ws) = 4 * blen ws.
Proof. unfold blen. destruct (words_bytes_ok ws) as [-> _]. lia. Qed.

Lemma stored_word_cons w ws i : stored_word (words_bytes (w :: ws)) (S i) = stored_word (words_bytes ws) i.
Proof.
  unfold stored_word. cbn [words_bytes fmap list_fmap concat]. change (4 * S i)%nat with (S (i + (S (i + (S (i + (S (i + 0))))))))%nat.
  replace (S (i + (S (i + (S (i + (S (i + 0))))))))%nat with (4 + 4 * i)%nat by lia. rewrite <- drop_drop.
  pose proof (proj1 (le_bytes_bytes 4 w)) as E. unfold words_bytes. cbn [fmap list_fmap concat]. by rewrite <- E, drop_app_length, E.
Qed.

Lemma stored_word_words ws : forall i w, ws !! i = Some w -> stored_word (words_bytes ws) i = u32 w.
Proof.
  induction ws as [|w0 ws IH]; intros [|i] w Hi; try done.
  - injection Hi as ->. unfold stored_word, words_bytes. cbn [fmap list_fmap concat]. change (4 * 0)%nat with 0%nat. rewrite drop_0.
    pose proof (proj1 (le_bytes_bytes 4 w)) as E. rewrite <- E at 1. rewrite take_app_length. apply le_value_u32.
  - rewrite stored_word_cons. by apply IH.
Qed.

Definition in_int (v : Z) : Prop := - 2 ^ 31 <= v < 2 ^ 31.

Lemma stored_int_words ws i w : ws !! i = Some w -> in_int w -> stored_int (words_bytes ws) i = w.
Proof. intros Hi Hw. unfold stored_int. rewrite (stored_word_words _ _ _ Hi), s32_u32. by apply s32_small. Qed.

(** Reads the words of a struct. *)
Ltac read_words :=
  repeat (erewrite stored_int_words; [|reflexivity|done]); repeat (erewrite stored_word_words; [|reflexivity]).

(** ** The counters *)

Record cpd_fits (cp : yaffs_CheckpointDevice) : Prop := {
  fits_type : cpd_structType cp = sizeof_yaffs_CheckpointDevice;
  fits_erased : in_int (cpd_nErasedBlocks cp);
  fits_block : in_int (cpd_allocationBlock cp);
  fits_page : in_w 32 (cpd_allocationPage cp);
  fits_free : in_int (cpd_nFreeChunks cp);
  fits_deleted : in_int (cpd_nDeletedFiles cp);
  fits_unlinked : in_int (cpd_nUnlinkedFiles cp);
  fits_background : in_int (cpd_nBackgroundDeletions cp);
  fits_sequence : in_w 32 (cpd_sequenceNumber cp);
  fits_oldest : in_w 32 (cpd_oldestDirtySequence cp)
}.

Lemma cpd_roundtrip cp : cpd_fits cp -> cpd_of_bytes (cpd_bytes cp) = cp.
Proof.
  intros []. assert (in_int (cpd_structType cp)) by (by rewrite fits_type0). unfold cpd_of_bytes, cpd_bytes. read_words.
  rewrite !u32_small by done. by destruct cp.
Qed.

Lemma blen_cpd cp : blen (cpd_bytes cp) = sizeof_yaffs_CheckpointDevice.
Proof. unfold cpd_bytes. by rewrite blen_words. Qed.

(** ** A block *)

Record info_fits (bi : yaffs_BlockInfo) : Prop := {
  fits_soft : -512 <= softDeletions bi < 512;
  fits_pages : -512 <= pagesInUse bi < 512;
  fits_strikes : in_w 3 (chunkErrorStrikes bi);
  fits_number : in_w 32 (bi_sequenceNumber bi)
}.

Lemma signed_field f x v : 0 <= bf_pos f -> 0 < bf_width f -> - 2 ^ (bf_width f - 1) <= x < 2 ^ (bf_width f - 1) ->
  bf_get f v = Z.land x (Z.ones (bf_width f)) -> bf_get_signed f v = x.
Proof.
  intros Hp Hw Hx E. unfold bf_get_signed. rewrite E, Z.land_ones by lia. set (w := bf_width f) in *.
  assert (2 ^ w = 2 * 2 ^ (w - 1)) as Ew by (rewrite <- Z.pow_succ_r by lia; f_equal; lia). pose proof (Z.pow_pos_nonneg 2 (w - 1)).
  destruct (decide (0 <= x)).
  - rewrite Z.mod_small by lia. by rewrite (proj2 (Z.ltb_lt _ _)) by lia.
  - replace (x mod 2 ^ w) with (x + 2 ^ w) by (apply (Z.mod_unique_pos _ _ (-1)); lia). rewrite (proj2 (Z.ltb_ge _ _)); lia.
Qed.

Lemma truthy_bit (b : bool) : truthy (Z.land (b2z b) (Z.ones 1)) = b.
Proof. by destruct b. Qed.

Lemma info_word_in bi : in_w 32 (info_word bi).
Proof. unfold info_word. repeat (apply bf_put_in; [done..|]). done. Qed.

Ltac field_of_word :=
  unfold info_word; repeat (rewrite bf_get_other by (simpl; lia)); rewrite bf_get_put by done; reflexivity.

Lemma info_roundtrip bi : info_fits bi -> info_of_bytes (info_bytes bi) = Some bi.
Proof.
  intros []. unfold info_of_bytes, info_bytes. read_words. rewrite !u32_small by (apply info_word_in || done).
  assert (bf_get bi_blockState (info_word bi) = Z.land (state_number (blockState bi)) (Z.ones 4)) as -> by field_of_word.
  assert (block_states !! Z.to_nat (Z.land (state_number (blockState bi)) (Z.ones 4)) = Some (blockState bi)) as -> by (by destruct (blockState bi)).
  cbn [mbind option_bind]. rewrite (signed_field bi_softDeletions (softDeletions bi)), (signed_field bi_pagesInUse (pagesInUse bi)); try done; try field_of_word.
  assert (bf_get bi_needsRetiring (info_word bi) = Z.land (b2z (needsRetiring bi)) (Z.ones 1)) as -> by field_of_word.
  assert (bf_get bi_skipErasedCheck (info_word bi) = Z.land (b2z (skipErasedCheck bi)) (Z.ones 1)) as -> by field_of_word.
  assert (bf_get bi_gcPrioritise (info_word bi) = Z.land (b2z (gcPrioritise bi)) (Z.ones 1)) as -> by field_of_word.
  assert (bf_get bi_hasShrinkHeader (info_word bi) = Z.land (b2z (hasShrinkHeader bi)) (Z.ones 1)) as -> by field_of_word.
  assert (bf_get bi_chunkErrorStrikes (info_word bi) = Z.land (chunkErrorStrikes bi) (Z.ones 3)) as -> by field_of_word.
  rewrite !truthy_bit, land_ones_small by done. by destruct bi.
Qed.

Lemma info_bytes_ok bi : bytes 8 (info_bytes bi).
Proof. apply (words_bytes_ok [info_word bi; bi_sequenceNumber bi]). Qed.

(** The state of a block is in one byte of the struct. *)
Lemma info_state_byte bi st j : j <> 2%nat -> info_bytes (bi <| blockState := st |>) !! j = info_bytes bi !! j.
Proof.
  intros Hj. unfold info_bytes, words_bytes. cbn [fmap list_fmap concat]. rewrite !app_nil_r. pose proof (le_bytes_bytes 4 (info_word bi)) as [L1 _].
  pose proof (le_bytes_bytes 4 (info_word (bi <| blockState := st |>))) as [L2 _]. destruct (decide (j < 4)%nat) as [Hlt|Hge].
  - rewrite !lookup_app_l by lia. rewrite !le_bytes_lookup, (proj2 (Nat.ltb_lt j 4)) by done. f_equal. apply Z.bits_inj'. intros i Hi.
    unfold u8. rewrite !wrap_testbit, !Z.shiftr_spec by lia. destruct (Z.ltb_spec i 8) as [Hi8|]; [|done]. unfold info_word.
    rewrite !(bf_put_testbit bi_hasShrinkHeader), !(bf_put_testbit bi_chunkErrorStrikes), !(bf_put_testbit bi_gcPrioritise), !(bf_put_testbit bi_skipErasedCheck),
      !(bf_put_testbit bi_needsRetiring), !(bf_put_testbit bi_blockState) by (done || lia). simpl bf_pos. simpl bf_width.
    replace ((20 <=? i + 8 * Z.of_nat j) && (i + 8 * Z.of_nat j <? 20 + 4)) with false; [done|]. symmetry. apply andb_false_iff. rewrite Z.leb_gt, Z.ltb_ge. lia.
  - rewrite !lookup_app_r by lia. by rewrite L1, L2.
Qed.

(** ** The array of the blocks *)

(** The bytes [data] describe every block of [l], before or after it was taken. *)
Definition between (l l' : list yaffs_BlockInfo) (data : list Z) : Prop :=
  length data = (8 * length l)%nat /\
  forall k bi bi', l !! k = Some bi -> l' !! k = Some bi' -> slice 8 k data = info_bytes bi \/ slice 8 k data = info_bytes bi'.

Lemma taking_lookup l l' k bi bi' : taking l l' -> l !! k = Some bi -> l' !! k = Some bi' ->
  bi' = bi \/ (blockState bi = YAFFS_BLOCK_STATE_EMPTY /\ bi' = bi <| blockState := YAFFS_BLOCK_STATE_CHECKPOINT |>).
Proof. intros H H1 H2. exact (Forall2_lookup_lr _ _ _ _ _ _ H H1 H2). Qed.

Lemma taking_length l l' : taking l l' -> length l' = length l.
Proof. intros H. by rewrite (Forall2_length _ _ _ H). Qed.

(** In the middle it is the one or the other. *)
Lemma taking_middle l l1 l' k bi bi1 bi' :
  taking l l1 -> taking l1 l' -> l !! k = Some bi -> l1 !! k = Some bi1 -> l' !! k = Some bi' -> bi1 = bi \/ bi1 = bi'.
Proof.
  intros T1 T2 H H1 H'. destruct (taking_lookup _ _ _ _ _ T1 H H1) as [->|[E ->]]; [by left|].
  destruct (taking_lookup _ _ _ _ _ T2 H1 H') as [->|[? _]]; [by right|done].
Qed.

Lemma between_more l l' l'' data : taking l l' -> taking l' l'' -> between l l' data -> between l l'' data.
Proof.
  intros T1 T2 [Hl Hb]. split; [done|]. intros k bi bi'' H H''. destruct (lookup_lt_is_Some_2 l' k) as [bi' H'].
  { rewrite (taking_length _ _ T1). by eapply lookup_lt_Some. }
  destruct (Hb k bi bi' H H') as [E|E]; [by left|]. destruct (taking_middle _ _ _ _ _ _ _ T1 T2 H H' H'') as [->| ->]; auto.
Qed.

Lemma between_before l l' l'' data : taking l l' -> taking l' l'' -> between l' l'' data -> between l l'' data.
Proof.
  intros T1 T2 [Hl Hb]. rewrite (taking_length _ _ T1) in Hl. split; [done|]. intros k bi bi'' H H''. destruct (lookup_lt_is_Some_2 l' k) as [bi' H'].
  { rewrite (taking_length _ _ T1). by eapply lookup_lt_Some. }
  destruct (Hb k bi' bi'' H' H'') as [E|E]; [|by right]. destruct (taking_middle _ _ _ _ _ _ _ T1 T2 H H' H'') as [->| ->]; auto.
Qed.

Section Device.
Context {mtd : Type}.
Implicit Types dev : yaffs_Device mtd.

Lemma info_at_lookup dev k j bi : blockInfo dev !! k = Some bi -> (j < 8)%nat ->
  info_at dev (0 + Z.of_nat (8 * k + j)) = info_bytes bi !! j.
Proof.
  intros Hk Hj. unfold info_at, sizeof_yaffs_BlockInfo. rewrite Z.add_0_l.
  replace (Z.of_nat (8 * k + j) / 8) with (Z.of_nat k) by (apply (Z.div_unique _ _ _ (Z.of_nat j)); lia).
  replace (Z.of_nat (8 * k + j) mod 8) with (Z.of_nat j) by (apply (Z.mod_unique _ _ (Z.of_nat k)); lia).
  rewrite Nat2Z.id, Hk. cbn [mbind option_bind]. unfold get. by rewrite (proj2 (Z.leb_le 0 _)), Nat2Z.id by lia.
Qed.

Lemma position_split i n : (i < 8 * n)%nat -> exists k j, i = (8 * k + j)%nat /\ (j < 8)%nat /\ (k < n)%nat.
Proof.
  intros Hi. exists (i / 8)%nat, (i mod 8)%nat. pose proof (Nat.div_mod_eq i 8). pose proof (Nat.mod_upper_bound i 8). lia.
Qed.

Lemma has_infos dev : has_bytes info_at 0 (8 * length (blockInfo dev)) dev.
Proof.
  intros i dev1 Hi R. destruct (position_split i _ Hi) as (k & j & -> & Hj & Hk). pose proof (taking_length _ _ (rewritten_info _ _ R)) as El.
  destruct (lookup_lt_is_Some_2 (blockInfo dev1) k) as [bi Hbi]; [lia|]. rewrite (info_at_lookup dev1 k j bi) by done.
  destruct (info_bytes_ok bi) as [Hl Hb]. destruct (lookup_lt_is_Some_2 (info_bytes bi) j) as [b Eb]; [lia|]. exists b. split; [done|]. by eapply Forall_lookup_1.
Qed.

Lemma drawn_infos dev dev' data :
  length data = (8 * length (blockInfo dev))%nat -> drawn info_at 0 dev dev' data -> rewritten dev dev' -> between (blockInfo dev) (blockInfo dev') data.
Proof.
  intros Hl Hd R. split; [done|]. intros k bi bi' H H'. pose proof (lookup_lt_Some _ _ _ H) as Hk.
  assert (forall j, (j < 8)%nat -> slice 8 k data !! j = info_bytes bi !! j \/ slice 8 k data !! j = info_bytes bi' !! j) as Hj.
  { intros j Hj. rewrite slice_lookup by done. destruct (Hd (8 * k + j)%nat) as (dev1 & R1 & R2 & <-); [lia|].
    destruct (lookup_lt_is_Some_2 (blockInfo dev1) k) as [bi1 H1]; [rewrite (taking_length _ _ (rewritten_info _ _ R1)); done|].
    rewrite (info_at_lookup dev1 k j bi1) by done.
    destruct (taking_middle _ _ _ _ _ _ _ (rewritten_info _ _ R1) (rewritten_info _ _ R2) H H1 H') as [->| ->]; auto. }
  assert (forall b, (forall j, (j < 8)%nat -> slice 8 k data !! j = info_bytes b !! j) -> slice 8 k data = info_bytes b) as Heq.
  { intros b Hb. apply list_eq. intros j. destruct (decide (j < 8)%nat) as [|Hge]; [by apply Hb|]. destruct (info_bytes_ok b) as [L _].
    rewrite !(proj2 (lookup_ge_None _ _)); [done|lia|]. rewrite (slice_length 8 k (length (blockInfo dev))) by done. lia. }
  destruct (taking_lookup _ _ _ _ _ (rewritten_info _ _ R) H H') as [->|[_ ->]].
  - left. apply Heq. intros j Hlt. by destruct (Hj j Hlt).
  - destruct (Hj 2%nat ltac:(lia)) as [E|E]; [left|right]; apply Heq; intros j Hlt; (destruct (decide (j = 2%nat)) as [->|Hne]; [done|]);
      destruct (Hj j Hlt) as [->| ->]; by rewrite ?(info_state_byte bi) by done.
Qed.

Lemma infos_of_bytes_spec (P : nat -> yaffs_BlockInfo -> Prop) n : forall data,
  length data = (8 * n)%nat -> (forall k, (k < n)%nat -> exists bi, P k bi /\ info_fits bi /\ slice 8 k data = info_bytes bi) ->
  exists l, infos_of_bytes n data = Some l /\ length l = n /\ forall k bi, l !! k = Some bi -> P k bi.
Proof.
  revert P. induction n as [|n IH]; intros P data Hl HP; cbn [infos_of_bytes]; [by exists []|].
  destruct (HP 0%nat) as (bi & Hbi & Hfit & E); [lia|]. assert (take 8 data = info_bytes bi) as -> by exact E. rewrite info_roundtrip by done. cbn [mbind option_bind].
  destruct (IH (fun k => P (S k)) (drop 8 data)) as (l & -> & Hn & Hl').
  - rewrite length_drop. lia.
  - intros k Hk. destruct (HP (S k)) as (b & Hb & Hf & E'); [lia|]. exists b. split; [done|]. split; [done|]. rewrite <- E'. unfold slice. rewrite drop_drop.
    by replace (8 + 8 * k)%nat with (8 * S k)%nat by lia.
  - cbn [mbind option_bind]. exists (bi :: l). split; [done|]. split; [simpl; lia|]. intros [|k] b Hk; [by injection Hk as <-|by apply Hl'].
Qed.

Lemma taken_fits l l' : taking l l' -> Forall info_fits l -> Forall info_fits l'.
Proof.
  intros T H. apply Forall_lookup. intros k bi' H'. destruct (lookup_lt_is_Some_2 l k) as [bi Hk]; [rewrite <- (taking_length _ _ T); by eapply lookup_lt_Some|].
  pose proof (Forall_lookup_1 _ _ _ _ H Hk) as Hf. destruct (taking_lookup _ _ _ _ _ T Hk H') as [->|[_ ->]]; [done|]. by destruct Hf.
Qed.

(** The array that is read. *)
Lemma between_read l l' data : taking l l' -> Forall info_fits l -> between l l' data ->
  exists l1, infos_of_bytes (length l) data = Some l1 /\ length l1 = length l /\
    forall k bi bi' bi1, l !! k = Some bi -> l' !! k = Some bi' -> l1 !! k = Some bi1 -> bi1 = bi \/ bi1 = bi'.
Proof.
  intros T Hf [Hl Hb].
  destruct (infos_of_bytes_spec (fun k bi1 => forall bi bi', l !! k = Some bi -> l' !! k = Some bi' -> bi1 = bi \/ bi1 = bi') (length l) data Hl)
    as (l1 & E & Hl1 & H1); [|by exists l1; eauto].
  intros k Hk. destruct (lookup_lt_is_Some_2 l k Hk) as [bi H]. destruct (lookup_lt_is_Some_2 l' k) as [bi' H']; [by rewrite (taking_length _ _ T)|].
  pose proof (Forall_lookup_1 _ _ _ _ Hf H). pose proof (Forall_lookup_1 _ _ _ _ (taken_fits _ _ T Hf) H').
  destruct (Hb k bi bi' H H') as [E|E]; [exists bi|exists bi']; (split; [|done]); intros b b' Hb1 Hb2; [left|right]; congruence.
Qed.

(** Closing marks the blocks of the checkpoint, so that the array is what it was at the end of the writing. *)
Lemma marked_final dev bs l l' l1 :
  taking l l' -> (forall k bi, l !! k = Some bi -> blockState bi <> YAFFS_BLOCK_STATE_CHECKPOINT) -> length l1 = length l ->
  (forall k bi', l' !! k = Some bi' -> blk dev k ∈ bs <-> blockState bi' = YAFFS_BLOCK_STATE_CHECKPOINT) ->
  (forall k bi bi' bi1, l !! k = Some bi -> l' !! k = Some bi' -> l1 !! k = Some bi1 -> bi1 = bi \/ bi1 = bi') ->
  imap (marked dev bs) l1 = l'.
Proof.
  intros T Hno El Hin Hmid. apply list_eq. intros k. rewrite list_lookup_imap. destruct (l1 !! k) as [bi1|] eqn:H1.
  - pose proof (lookup_lt_Some _ _ _ H1) as Hk. destruct (lookup_lt_is_Some_2 l k) as [bi H]; [lia|].
    destruct (lookup_lt_is_Some_2 l' k) as [bi' H']; [rewrite (taking_length _ _ T); lia|]. rewrite H'. simpl. f_equal. unfold marked.
    pose proof (Hin k bi' H') as Hst. pose proof (Hno k bi H) as Hn.
    destruct (taking_lookup _ _ _ _ _ T H H') as [->|[E ->]].
    + assert (bi1 = bi) as -> by (by destruct (Hmid k bi bi bi1 H H' H1)). rewrite bool_decide_false; [done|]. by intros [?%Hst _].
    + destruct (Hmid k _ _ _ H H' H1) as [->| ->].
      * rewrite bool_decide_true; [done|]. split; [by apply Hst|done].
      * rewrite bool_decide_false; [done|]. by intros [_ ?].
  - symmetry. apply lookup_ge_None. apply lookup_ge_None in H1. rewrite (taking_length _ _ T). lia.
Qed.

Lemma overwrite_all memory l : blen l = blen memory -> overwrite memory l = Some l.
Proof. intros E. unfold overwrite. rewrite E, Z.leb_refl, drop_ge, app_nil_r by (unfold blen in E; lia). done. Qed.

Lemma length_infos l : length (concat (info_bytes <$> l)) = (8 * length l)%nat.
Proof. induction l as [|bi l IH]; [done|]. cbn [fmap list_fmap concat]. rewrite length_app, (proj1 (info_bytes_ok bi)). simpl length. lia. Qed.

(** ** Writing and reading *)

Section Stream.
Context `{!Pages mtd} (N B : Z) (nte : bool) (ops : nand_ops mtd) `{!PageStore N B nte ops} (localTags : yaffs_ExtendedTags).
Implicit Types cp : checkpoint.

(** The sizes of the arrays. *)
Record arrays dev (n : nat) : Prop := {
  arr_count : internalEndBlock dev - internalStartBlock dev + 1 = Z.of_nat n;
  arr_info : length (blockInfo dev) = n;
  arr_stride : 0 <= chunkBitmapStride dev;
  arr_bits : blen (chunkBits dev) = Z.of_nat n * chunkBitmapStride dev
}.

Definition device_bytes dev (infos : list Z) : list Z := cpd_bytes (yaffs_DeviceToCheckpointDevice dev) ++ infos ++ chunkBits dev.

Lemma geometry_arrays dev : geometry dev -> arrays dev (length (blockInfo dev)).
Proof.
  intros [_ G1 G2 G3 G4 _]. assert (0 <= chunkBitmapStride dev) by (rewrite G2; apply Z.div_pos; lia). constructor; [lia|done|done|]. unfold blen. rewrite G4. lia.
Qed.

Lemma rewritten_bits dev dev' : rewritten dev dev' ->
  chunkBits dev' = chunkBits dev /\ chunkBitmapStride dev' = chunkBitmapStride dev.
Proof. by intros (m & n & b & l & -> & _). Qed.

Lemma has_bits dev : Forall (in_w 8) (chunkBits dev) -> has_bytes bits_at 0 (length (chunkBits dev)) dev.
Proof.
  intros Hb j dev1 Hj R. unfold bits_at, get. destruct (rewritten_bits dev dev1 R) as [-> _]. rewrite (proj2 (Z.leb_le 0 _)), Z.add_0_l, Nat2Z.id by lia.
  destruct (lookup_lt_is_Some_2 _ _ Hj) as [b Eb]. exists b. split; [done|]. by eapply Forall_lookup_1.
Qed.

Lemma drawn_bits dev dev' data : length data = length (chunkBits dev) -> drawn bits_at 0 dev dev' data -> data = chunkBits dev.
Proof.
  intros Hl Hd. apply (list_eq_same_length _ _ (length data)); [done|done|]. intros j x y Hj Hx Hy.
  destruct (Hd j Hj) as (dev1 & R & _ & E). unfold bits_at, get in E. destruct (rewritten_bits dev dev1 R) as [Eb _]. rewrite Eb in E.
  rewrite (proj2 (Z.leb_le 0 _)), Z.add_0_l, Nat2Z.id in E by lia. congruence.
Qed.

Lemma WriteDevice_spec dev0 dev cp s n :
  written_stream N B nte dev0 dev cp s -> arrays dev n -> Forall (in_w 8) (chunkBits dev) ->
  blen s + 40 + 8 * Z.of_nat n + blen (chunkBits dev) <= stream_room N B dev0 ->
  exists infos dev' cp', yaffs_WriteCheckpointDevice ops localTags dev cp = Some (true, dev', cp') /\ rewritten dev dev' /\
    between (blockInfo dev) (blockInfo dev') infos /\ written_stream N B nte dev0 dev' cp' (s ++ device_bytes dev infos).
Proof.
  intros Hw [A1 A2 A3 A4] Hb Hr. unfold yaffs_WriteCheckpointDevice, device_bytes. set (cpd := yaffs_DeviceToCheckpointDevice dev). rewrite A1.
  change sizeof_yaffs_BlockInfo with 8. pose proof (Zle_0_nat (length (chunkBits dev))) as Hpos. fold (blen (chunkBits dev)) in Hpos.
  destruct (Write_bytes N B nte ops localTags dev0 dev cp s (cpd_bytes cpd) Hw) as (dev1 & cp1 & E & R1 & Hw1).
  { apply words_bytes_ok. } { rewrite blen_cpd. unfold sizeof_yaffs_CheckpointDevice. lia. }
  rewrite blen_cpd in E. rewrite E. cbn [mbind option_bind]. rewrite Z.eqb_refl. clear E. destruct (rewritten_bits _ _ R1) as [EB1 _].
  destruct (Write_spec N B nte ops localTags dev0 dev1 cp1 _ info_at _ Hw1 (has_infos dev1)) as (infos & dev2 & cp2 & E & Hl & Hd & R2 & Hw2).
  { rewrite blen_app, blen_cpd, (taking_length _ _ (rewritten_info _ _ R1)), A2. unfold sizeof_yaffs_CheckpointDevice. lia. }
  pose proof (drawn_infos _ _ _ Hl Hd R2) as Hbt. rewrite (taking_length _ _ (rewritten_info _ _ R1)), A2 in *.
  replace (Z.of_nat (8 * n)) with (Z.of_nat n * 8) in E by lia. rewrite E. cbn [mbind option_bind]. rewrite Z.eqb_refl. clear E.
  destruct (rewritten_bits _ _ R2) as [EB2 ES2]. destruct (rewritten_bits _ _ R1) as [_ ES1]. assert (chunkBits dev2 = chunkBits dev) as EB by congruence.
  destruct (Write_spec N B nte ops localTags dev0 dev2 cp2 _ bits_at (length (chunkBits dev2)) Hw2) as (bits & dev3 & cp3 & E & Hlb & Hdb & R3 & Hw3).
  { apply has_bits. by rewrite EB. }
  { rewrite !blen_app, blen_cpd, EB. unfold sizeof_yaffs_CheckpointDevice, blen in *. lia. }
  pose proof (drawn_bits _ _ _ Hlb Hdb) as ->. rewrite EB in *. fold (blen (chunkBits dev)) in E. rewrite A4, <- ES1, <- ES2 in E. rewrite E. cbn [mbind option_bind]. rewrite Z.eqb_refl.
  exists infos, dev3, cp3. split; [done|]. split; [eapply rewritten_trans; [done|]; by eapply rewritten_trans|]. split.
  - eapply between_before; [by apply rewritten_info|by eapply taking_trans; apply rewritten_info|].
    eapply between_more; [by apply rewritten_info|by apply rewritten_info|done].
  - by rewrite <- !app_assoc in Hw3.
Qed.

Lemma ReadDevice_spec dev cp bs ps s rest cpd infos l bits n :
  loaded N B nte dev cp bs ps s (cpd_bytes cpd ++ infos ++ bits ++ rest) -> cpd_fits cpd -> arrays dev n ->
  length infos = (8 * n)%nat -> infos_of_bytes n infos = Some l -> blen bits = blen (chunkBits dev) ->
  exists dev1 dev' cp', yaffs_ReadCheckpointDevice ops localTags dev cp = Some (true, dev', cp') /\ reread dev dev1 /\
    dev' = (yaffs_CheckpointDeviceToDevice dev1 cpd) <| blockInfo := l |> <| chunkBits := bits |> /\
    loaded N B nte dev' cp' bs ps (s ++ cpd_bytes cpd ++ infos ++ bits) rest.
Proof.
  intros Hl Hfit [A1 A2 A3 A4] Hi El Hbits. unfold yaffs_ReadCheckpointDevice. rewrite A1. change sizeof_yaffs_BlockInfo with 8.
  destruct (Read_spec N B nte ops localTags dev cp bs ps s _ _ Hl) as (dev1 & cp1 & E & (m1 & s1 & n1 & b1 & R1) & Hl1).
  rewrite blen_cpd in E. rewrite E. cbn [mbind option_bind]. rewrite Z.eqb_refl, cpd_roundtrip by done. cbn [negb]. rewrite (fits_type _ Hfit), Z.eqb_refl. cbn [negb]. clear E.
  set (dev1' := yaffs_CheckpointDeviceToDevice dev1 cpd).
  destruct (Read_spec N B nte ops localTags dev1' cp1 bs ps _ _ _ (loaded_fields N B nte dev1 dev1' _ _ _ _ _ eq_refl Hl1))
    as (dev2 & cp2 & E & (m2 & s2 & n2 & b2 & R2) & Hl2).
  assert (blen infos = Z.of_nat n * 8) as Ei by (unfold blen; lia). rewrite Ei in E. rewrite E. cbn [mbind option_bind]. clear E.
  assert (blockInfo dev2 = blockInfo dev /\ chunkBits dev2 = chunkBits dev /\ chunkBitmapStride dev2 = chunkBitmapStride dev) as (EI & EB & ES) by (by subst).
  unfold store_infos. rewrite overwrite_all by (unfold blen; rewrite length_infos, EI, A2; lia). cbn [mbind option_bind]. rewrite EI, A2, El. cbn [mbind option_bind].
  rewrite Z.eqb_refl. cbn [negb]. set (dev2' := dev2 <| blockInfo := l |>). change (chunkBitmapStride dev2') with (chunkBitmapStride dev2). rewrite ES.
  destruct (Read_spec N B nte ops localTags dev2' cp2 bs ps _ _ _ (loaded_fields N B nte dev2 dev2' _ _ _ _ _ eq_refl Hl2))
    as (dev3 & cp3 & E & (m3 & s3 & n3 & b3 & R3) & Hl3).
  rewrite Hbits, A4 in E. rewrite E. cbn [mbind option_bind]. unfold store_bits. rewrite overwrite_all by (rewrite Hbits; subst; done). cbn [mbind option_bind].
  rewrite Z.eqb_refl. exists (dev <| genericDevice := m3 |> <| spareBuffer := s3 |> <| nPageReads := n3 |> <| blocksInCheckpoint := b3 |>), (dev3 <| chunkBits := bits |>), cp3.
  split; [done|]. split; [by exists m3, s3, n3, b3|]. split; [by subst|]. apply (loaded_fields N B nte dev3); [done|]. by rewrite <- !app_assoc in Hl3.
Qed.

End Stream.
End Device.
