(* ===== verification/YaffsCheckpointTnodes.v ===== *)
(** * The tnodes of a file in a checkpoint

    The level 0 tnodes of a file are written one after the other, with the number of their first chunk,
    and put into a new tree when they are read: the file has the same chunks again. *)

From stdpp Require Import list.
From S2P Require Import Prelude NandEcc NandEccFacts YaffsTags YaffsTagsFacts YaffsNand.
From S2P Require Import YaffsBlocks YaffsTnodes YaffsTnodesFacts YaffsTnodesPool YaffsTnodesTree YaffsTnodesAdd YaffsTnodesDelete YaffsTnodesPlug.
From S2P Require Import YaffsObjects YaffsCheckpoint YaffsCheckpointFacts YaffsCheckpointStream YaffsCheckpointData YaffsCheckpointDevice.

Local Open Scope Z_scope.

(** ** The level 0 tnodes of a tree *)

(** Below the tnode at [tn], each with its place in units of sixteen chunks. *)
Fixpoint leaves (l : nat) (m : tnode_memory) (tn off : Z) : list (Z * list Z) :=
  if truthy tn then
    match l with
    | O => [(off, default [] (tnodes m !! tn))]
    | S l' => concat ((fun i => leaves l' m (default 0 (get_word m tn i)) (off * 8 + i)) <$> seqZ 0 8)
    end
  else [].

Definition leaf_bytes (leaf : Z * list Z) : list Z := le_bytes 4 (leaf.1 * 16) ++ words_bytes leaf.2.

Definition end_of_tnodes : list Z := le_bytes 4 0xFFFFFFFF.

Definition tnodes_bytes (ls : list (Z * list Z)) : list Z := concat (leaf_bytes <$> ls) ++ end_of_tnodes.

Lemma leaf_bytes_ok leaf : Forall (in_w 8) (leaf_bytes leaf).
Proof. apply Forall_app. split; [apply le_bytes_bytes|apply words_bytes_ok]. Qed.

Lemma concat_fmap_concat {A B} (f : B -> list Z) (g : A -> list B) l :
  concat (f <$> concat (g <$> l)) = concat ((fun i => concat (f <$> g i)) <$> l).
Proof. induction l as [|x l IH]; [done|]. cbn [fmap list_fmap concat]. by rewrite fmap_app, concat_app, IH. Qed.

Section Tnodes.
Context {mtd : Type}.
Implicit Types (dev : yaffs_Device mtd) (m : tnode_memory) (cp : checkpoint).

(** The chunks of a file to which level 0 tnodes are added. *)
Definition with_leaves dev (f : Z -> Z) (ls : list (Z * list Z)) : Z -> Z :=
  foldl (fun f leaf => with_leaf dev f (leaf.1 * 16) leaf.2) f ls.

Lemma with_leaves_app dev f ls ls' : with_leaves dev f (ls ++ ls') = with_leaves dev (with_leaves dev f ls) ls'.
Proof. apply foldl_app. Qed.

Lemma with_leaves_geometry dev dev' ls : same_widths dev dev' -> forall f j, with_leaves dev' f ls j = with_leaves dev f ls j.
Proof.
  intros Hw f. revert f. assert (forall f f' : Z -> Z, (forall j, f' j = f j) -> forall j, with_leaves dev' f' ls j = with_leaves dev f ls j) as H; [|by intros f j; apply H].
  induction ls as [|[off ws] ls IH]; intros f f' Hf j; [apply Hf|]. simpl. apply IH. intros k. unfold with_leaf. by rewrite (entry_geometry dev dev'), Hf.
Qed.

(** The function that is [f] in the place [off] of a tree of the level [l], and [g] elsewhere. *)
Definition placed (l : nat) (off : Z) (f g : Z -> Z) : Z -> Z :=
  fun j => if (off * capacity l <=? j) && (j <? (off + 1) * capacity l) then f (j - off * capacity l) else g j.

Lemma placed_in l off f g j : off * capacity l <= j < (off + 1) * capacity l -> placed l off f g j = f (j - off * capacity l).
Proof. intros H. unfold placed. by rewrite (proj2 (Z.leb_le _ _)), (proj2 (Z.ltb_lt _ _)) by lia. Qed.

Lemma placed_out l off f g j : ~ off * capacity l <= j < (off + 1) * capacity l -> placed l off f g j = g j.
Proof.
  intros H. unfold placed. destruct (Z.leb_spec (off * capacity l) j), (Z.ltb_spec j ((off + 1) * capacity l)); try done. lia.
Qed.

(** The level 0 tnodes hold the chunks of the tree. *)
Lemma leaves_place dev m l : forall p s f off g,
  tree dev (tnodes m) l p s f -> (forall j, off * capacity l <= j < (off + 1) * capacity l -> g j = 0) ->
  forall j, with_leaves dev g (leaves l m p off) j = placed l off f g j.
Proof.
  induction l as [|l IH]; intros p s f off g Ht Hg j; cbn [leaves].
  - destruct Ht as [(-> & _ & Hz)|(Hp & ws & Hws & _ & _ & Hf)].
    { simpl. destruct (decide (off * capacity 0 <= j < (off + 1) * capacity 0)); [rewrite placed_in, Hg, Hz by (done || change (capacity 0) with 16 in *; lia)|rewrite placed_out by done]; done. }
    assert (truthy p = true) as -> by (apply truthy_true; lia). rewrite Hws. simpl. unfold with_leaf. rewrite Z.div_mul by lia.
    change (capacity 0) with 16 in *. destruct (Z.eqb_spec (j / 16) off) as [<-|Hne].
    + pose proof (Z.div_mod j 16). pose proof (Z.mod_pos_bound j 16). rewrite placed_in by (change (capacity 0) with 16; lia). change (capacity 0) with 16.
      rewrite Hf by lia. symmetry. pose proof (entry_rest dev ws j (j / 16) 0) as E. change (capacity 0) with 16 in E. done.
    + rewrite placed_out; [done|]. change (capacity 0) with 16. intros Hj. apply Hne. symmetry. apply (Z.div_unique _ _ _ (j - off * 16)); lia.
  - destruct (Z.eqb_spec p 0) as [->|Hp].
    { destruct (tree_null_inv _ _ _ _ _ Ht) as [_ Hz]. simpl. destruct (decide (off * capacity (S l) <= j < (off + 1) * capacity (S l))); [rewrite placed_in, Hg, Hz by (done || lia)|rewrite placed_out by done]; done. }
    assert (truthy p = true) as -> by (by apply truthy_true).
    destruct (tree_node _ _ _ _ _ _ Ht Hp) as (ws & ss & Hn). rewrite capacity_S in Hg.
    assert (forall n i h, Z.of_nat n = 8 - i -> 0 <= i -> (forall j, (off * 8 + i) * capacity l <= j < (off * 8 + 8) * capacity l -> h j = 0) ->
      forall j, with_leaves dev h (concat ((fun i => leaves l m (default 0 (get_word m p i)) (off * 8 + i)) <$> seqZ i (Z.of_nat n))) j =
        if (((off * 8 + i) * capacity l <=? j) && (j <? (off * 8 + 8) * capacity l)) then f (j - off * 8 * capacity l) else h j) as Hall.
    { pose proof (capacity_pos l) as Hcap. induction n as [|n IHn]; intros i h Hn8 Hi Hh k.
      - simpl. destruct (Z.leb_spec ((off * 8 + i) * capacity l) k), (Z.ltb_spec k ((off * 8 + 8) * capacity l)); try done. nia.
      - rewrite seqZ_cons by lia. cbn [fmap list_fmap concat]. rewrite with_leaves_app. replace (Z.pred (Z.of_nat (S n))) with (Z.of_nat n) by lia.
        destruct (node_branch _ _ _ _ _ _ _ _ Hn i) as (q & Hq & Hqt); [lia|].
        assert (get_word m p i = Some q) as -> by (unfold get_word; by rewrite (node_at _ _ _ _ _ _ _ _ Hn)). simpl default.
        assert (forall j, with_leaves dev h (leaves l m q (off * 8 + i)) j = placed l (off * 8 + i) (part f l i) h j) as Hpl
          by (apply (IH q (ss i)); [done|intros j' Hj'; apply Hh; nia]).
        rewrite IHn by (lia || (intros j' Hj'; rewrite Hpl, placed_out by nia; apply Hh; nia)).
        destruct (decide ((off * 8 + i) * capacity l <= k < (off * 8 + i + 1) * capacity l)) as [Hin|Hout].
        + rewrite Hpl, placed_in by done. rewrite (proj2 (Z.leb_gt _ k)), (proj2 (Z.leb_le _ k)), (proj2 (Z.ltb_lt k _)) by nia. simpl. unfold part. f_equal. lia.
        + rewrite Hpl, placed_out by done.
          destruct (Z.leb_spec ((off * 8 + Z.succ i) * capacity l) k), (Z.leb_spec ((off * 8 + i) * capacity l) k), (Z.ltb_spec k ((off * 8 + 8) * capacity l)); simpl; try done; nia. }
    pose proof (Hall 8%nat 0 g) as H8. change (Z.of_nat 8) with 8 in H8. rewrite H8 by (lia || (intros j' Hj'; apply Hg; nia)).
    unfold placed. rewrite capacity_S. replace ((off * 8 + 0) * capacity l) with (off * (8 * capacity l)) by lia.
    replace ((off * 8 + 8) * capacity l) with ((off + 1) * (8 * capacity l)) by lia. by replace (off * 8 * capacity l) with (off * (8 * capacity l)) by lia.
Qed.

Lemma leaves_ok dev m l : forall p s f off,
  tree dev (tnodes m) l p s f -> 0 <= off -> Forall (fun leaf => tnode_ok dev leaf.2 /\ 0 <= leaf.1) (leaves l m p off).
Proof.
  induction l as [|l IH]; intros p s f off Ht Hoff; cbn [leaves]; unfold truthy; (destruct (Z.eqb_spec p 0) as [->|Hp]; cbn [negb]; [apply Forall_nil_2|]).
  - destruct Ht as [(? & _)|(_ & ws & Hws & Hok & _)]; [done|]. rewrite Hws. by apply Forall_singleton.
  - destruct (tree_node _ _ _ _ _ _ Ht Hp) as (ws & ss & Hn). apply Forall_concat, Forall_fmap, Forall_forall. intros i Hi%elem_of_seqZ. simpl.
    destruct (node_branch _ _ _ _ _ _ _ _ Hn i) as (q & Hq & Hqt); [lia|].
    assert (get_word m p i = Some q) as -> by (unfold get_word; by rewrite (node_at _ _ _ _ _ _ _ _ Hn)). apply (IH q (ss i) (part f l i)); [done|lia].
Qed.

Lemma words_of_words ws : Forall (in_w 32) ws -> words_of_bytes (length ws) (words_bytes ws) = ws.
Proof.
  induction 1 as [|w ws Hw _ IH]; [done|]. cbn [length words_of_bytes words_bytes fmap list_fmap concat]. unfold words_bytes. cbn [fmap list_fmap concat].
  pose proof (proj1 (le_bytes_bytes 4 w)) as E. rewrite take_app_length', drop_app_length' by done. fold (words_bytes ws). rewrite IH.
  by rewrite le_value_u32, u32_small.
Qed.

(** ** Writing *)

Section Stream.
Context `{!Pages mtd} (N B : Z) (nte : bool) (ops : nand_ops mtd) `{!PageStore N B nte ops} (localTags : yaffs_ExtendedTags).
Context (YMALLOC : tnode_memory -> Z -> Z) {Alloc : Allocator YMALLOC} (uninitialised : Z -> Z).

Abbreviation emits := (emits N B nte).
Abbreviation loaded := (loaded N B nte).

Lemma rewritten_size dev dev' : rewritten dev dev' -> tnode_size dev' = tnode_size dev.
Proof. by intros (m & n & b & l & -> & _). Qed.

Lemma emits_leaf dev0 m tn off ws :
  tnode_wf dev0 -> tnodes m !! tn = Some ws -> tnode_ok dev0 ws ->
  emits dev0 (fun dev cp => checkpoint_leaf ops localTags dev cp m tn off) (leaf_bytes (off, ws)).
Proof.
  intros Hwf Hws Hok dev cp s Hw Hr. unfold checkpoint_leaf, leaf_bytes in *. simpl fst in *. simpl snd in *. rewrite le_bytes_u32, Z.shiftl_mul_pow2 by done.
  change (2 ^ YAFFS_TNODES_LEVEL0_BITS) with 16. rewrite blen_app, blen_le_bytes, blen_words in Hr. pose proof (tnode_size_words dev0 ws Hwf Hok) as Hsize.
  pose proof (Zle_0_nat (length ws)) as Hpos. fold (blen ws) in Hpos.
  destruct (Write_bytes N B nte ops localTags dev0 dev cp s (le_bytes 4 (off * 16)) Hw) as (dev1 & cp1 & E & R1 & Hw1).
  { apply le_bytes_bytes. } { rewrite blen_le_bytes. lia. }
  rewrite blen_le_bytes in E. change (Z.of_nat 4) with 4 in E. rewrite E. cbn [mbind option_bind Z.eqb]. clear E.
  pose proof (rewritten_size _ _ (written_rewritten _ _ _ _ _ _ _ Hw)) as E0. pose proof (rewritten_size _ _ R1) as E1.
  change (4 =? 4) with true. cbv iota. unfold tnode_bytes. rewrite Hws. cbn [mbind option_bind]. rewrite E1, E0, blen_words, Hsize, Z.leb_refl. cbn [mbind option_bind].
  rewrite take_ge by (pose proof (blen_words ws); unfold blen in *; lia).
  destruct (Write_bytes N B nte ops localTags dev0 dev1 cp1 _ (words_bytes ws) Hw1) as (dev2 & cp2 & E & _ & Hw2).
  { apply words_bytes_ok. } { rewrite blen_app, blen_le_bytes, blen_words. lia. }
  rewrite blen_words in E. rewrite E. cbn [mbind option_bind]. rewrite Z.eqb_refl. exists dev2, cp2. by rewrite app_assoc.
Qed.

(** One round of the loop over the branches. *)
Lemma emits_branches dev0 worker m tn off n : forall i,
  0 <= i -> (forall k, i <= k < i + Z.of_nat n -> is_Some (get_word m tn k)) ->
  forall data : Z -> list Z, (forall k q, i <= k < i + Z.of_nat n -> get_word m tn k = Some q ->
    if truthy q then emits dev0 (fun dev cp => worker dev cp q (off * 8 + k)) (data k) else data k = []) ->
  emits dev0 (fun dev cp => checkpoint_branches worker n dev cp m tn off i) (concat (data <$> seqZ i (Z.of_nat n))).
Proof.
  induction n as [|n IH]; intros i Hi Hget data Hd; cbn [checkpoint_branches].
  - apply emits_nothing.
  - rewrite seqZ_cons by lia. cbn [fmap list_fmap concat]. replace (Z.pred (Z.of_nat (S n))) with (Z.of_nat n) by lia.
    destruct (Hget i) as [q Hq]; [lia|]. rewrite Hq. cbn [mbind option_bind]. rewrite Z.shiftl_mul_pow2 by done. change (2 ^ YAFFS_TNODES_INTERNAL_BITS) with 8.
    apply emits_then.
    + specialize (Hd i q ltac:(lia) Hq). destruct (truthy q); [exact Hd|]. rewrite Hd. apply emits_nothing.
    + apply IH; [lia|..].
      * intros k Hk. apply Hget. lia.
      * intros k q' Hk. apply Hd. lia.
Qed.

Lemma emits_tree dev0 m l : forall p s f off,
  tnode_wf dev0 -> tree dev0 (tnodes m) l p s f ->
  emits dev0 (fun dev cp => yaffs_CheckpointTnodeWorker ops localTags l dev cp m p off) (concat (leaf_bytes <$> leaves l m p off)).
Proof.
  induction l as [|l IH]; intros p s f off Hwf Ht; cbn [yaffs_CheckpointTnodeWorker leaves];
    (destruct (truthy p) eqn:Hp; [|apply emits_nothing]); assert (p <> 0) as Hp0 by (intros ->; done).
  - destruct Ht as [(? & _)|(_ & ws & Hws & Hok & _)]; [done|]. rewrite Hws. simpl. rewrite app_nil_r. by apply emits_leaf.
  - destruct (tree_node _ _ _ _ _ _ Ht Hp0) as (ws & ss & Hn).
    assert (forall i, 0 <= i < 8 -> exists q, get_word m p i = Some q /\ tree dev0 (tnodes m) l q (ss i) (part f l i)) as Hbr.
    { intros i Hi. destruct (node_branch _ _ _ _ _ _ _ _ Hn i Hi) as (q & Hq & Hqt). exists q. split; [|done]. unfold get_word. by rewrite (node_at _ _ _ _ _ _ _ _ Hn). }
    rewrite concat_fmap_concat. change (Z.to_nat YAFFS_NTNODES_INTERNAL) with 8%nat.
    apply (emits_branches dev0 _ m p off 8 0 ltac:(lia)); change (Z.of_nat 8) with 8.
    + intros k Hk. destruct (Hbr k) as (q & -> & _); [lia|done].
    + intros k q Hk Hq. destruct (Hbr k) as (q' & Hq' & Hqt); [lia|]. rewrite Hq' in Hq. injection Hq as ->. rewrite Hq'. simpl default.
      destruct (truthy q) eqn:Eq; [by apply (IH q (ss k) (part f l k))|]. unfold truthy in Eq. destruct (Z.eqb_spec q 0) as [->|]; [by destruct l|done].
Qed.

(** What is written for a file. *)
Definition file_leaves m (fs : yaffs_FileStructure) : list (Z * list Z) := leaves (Z.to_nat (topLevel fs)) m (top fs) 0.

Lemma emits_tnodes dev0 m free obj s f :
  file_ok dev0 m free (fileVariant obj) s f -> variantType obj = YAFFS_OBJECT_TYPE_FILE ->
  emits dev0 (fun dev cp => yaffs_WriteCheckpointTnodes ops localTags dev cp m obj) (tnodes_bytes (file_leaves m (fileVariant obj))).
Proof.
  intros Hf Ht. unfold yaffs_WriteCheckpointTnodes, tnodes_bytes, end_of_tnodes. rewrite bool_decide_true by done.
  apply emits_then; [eapply emits_tree; [eapply pool_wf, owns_pool, Hf|apply Hf]|]. change (u32 (-1)) with 0xFFFFFFFF.
  apply (emits_bytes N B nte ops); [by rewrite blen_le_bytes|apply le_bytes_bytes].
Qed.

(** ** Reading *)

(** What loading changes in a device, besides the values that the checkpoint has for it. *)
Definition loading dev dev' : Prop :=
  exists (md : mtd) s n b a c d o p u, dev' = dev <| genericDevice := md |> <| spareBuffer := s |> <| nPageReads := n |> <| blocksInCheckpoint := b |>
    <| nFreeTnodes := a |> <| nTnodesCreated := c |> <| nCheckpointBlocksRequired := d |> <| nFreeObjects := o |> <| nObjectsCreated := p |>
    <| nUnlinkedFiles := u |>.

Lemma loading_refl dev : loading dev dev.
Proof.
  exists (genericDevice dev), (spareBuffer dev), (nPageReads dev), (blocksInCheckpoint dev), (nFreeTnodes dev), (nTnodesCreated dev),
    (nCheckpointBlocksRequired dev), (nFreeObjects dev), (nObjectsCreated dev), (nUnlinkedFiles dev). by destruct dev.
Qed.

Lemma loading_trans dev dev' dev'' : loading dev dev' -> loading dev' dev'' -> loading dev dev''.
Proof.
  intros (m & s & n & b & a & c & d & o & p & u & ->) (m' & s' & n' & b' & a' & c' & d' & o' & p' & u' & ->). by exists m', s', n', b', a', c', d', o', p', u'.
Qed.

Lemma loading_widths dev dev' : loading dev dev' -> same_widths dev dev'.
Proof. by intros (m & s & n & b & a & c & d & o & p & u & ->). Qed.

Lemma loading_size dev dev' : loading dev dev' -> tnode_size dev' = tnode_size dev.
Proof. by intros (m & s & n & b & a & c & d & o & p & u & ->). Qed.

(** What reading, and what working with tnodes, changes. *)
Lemma reread_loading dev dev' : reread dev dev' ->
  loading dev dev' /\ nUnlinkedFiles dev' = nUnlinkedFiles dev /\ nFreeTnodes dev' = nFreeTnodes dev /\ nTnodesCreated dev' = nTnodesCreated dev.
Proof.
  intros (m & s & n & b & ->). split; [|done]. exists m, s, n, b, (nFreeTnodes dev), (nTnodesCreated dev), (nCheckpointBlocksRequired dev), (nFreeObjects dev), (nObjectsCreated dev), (nUnlinkedFiles dev).
  by destruct dev.
Qed.

Lemma counters_loading dev dev' : tnode_counters dev dev' ->
  loading dev dev' /\ nUnlinkedFiles dev' = nUnlinkedFiles dev /\ stream_fields dev' = stream_fields dev.
Proof.
  intros (a & c & d & ->). split; [|done]. exists (genericDevice dev), (spareBuffer dev), (nPageReads dev), (blocksInCheckpoint dev), a, c, d, (nFreeObjects dev), (nObjectsCreated dev), (nUnlinkedFiles dev).
  by destruct dev.
Qed.

(** A file that others do not touch. *)
Lemma file_frame dev dev' m m' free free' fs s f :
  file_ok dev m free fs s f -> same_widths dev dev' -> pool dev' m' free' -> (forall a, a ∈ s -> tnodes m' !! a = tnodes m !! a) ->
  s ## list_to_set free' -> file_ok dev' m' free' fs s f.
Proof.
  intros [Hl [Hp Ht Ha] Hz (tn & Hf & Hne)] Hw Hp' He Hd. constructor; [done| |done|].
  - constructor; [done| |done]. eapply tree_widths; [done|]. by eapply tree_frame.
  - exists tn. split; [|done]. rewrite <- Hf. by eapply find_loop_frame.
Qed.

(** A file does not depend on what else is in the device. *)
Lemma file_same dev dev' m free fs s f :
  same_widths dev dev' -> nFreeTnodes dev' = nFreeTnodes dev -> nTnodesCreated dev' = nTnodesCreated dev -> file_ok dev m free fs s f -> file_ok dev' m free fs s f.
Proof. intros Hw E1 E2 Hf. eapply file_frame; [done|done| |done|apply Hf]. eapply pool_same; [done..|apply Hf]. Qed.

Lemma file_reread dev dev' m free fs s f : reread dev dev' -> file_ok dev m free fs s f -> file_ok dev' m free fs s f.
Proof. intros R. destruct (reread_loading _ _ R) as (L & _ & E1 & E2). by apply file_same; [apply loading_widths|..]. Qed.

(** Enough memory stays enough. *)
Lemma spends_reread dev dev' m free : reread dev dev' -> spends YMALLOC dev m free dev' m free 0.
Proof. intros R. apply spends_same; [done|by apply loading_size, reread_loading|lia]. Qed.

Lemma with_leaf_ext dev f f' k ws j : f' j = f j -> with_leaf dev f' k ws j = with_leaf dev f k ws j.
Proof. intros E. unfold with_leaf. by rewrite E. Qed.

(** The tnodes of a file go over to it from the free ones, and others keep theirs. *)
Definition progress dev m free s dev' m' free' s' (n : nat) : Prop :=
  loading dev dev' /\ nUnlinkedFiles dev' = nUnlinkedFiles dev /\
  transfers (tnodes m) (s ∪ list_to_set free) (tnodes m') (s' ∪ list_to_set free') /\ spends YMALLOC dev m free dev' m' free' n.

Lemma progress_trans dev m free s dev1 m1 free1 s1 dev2 m2 free2 s2 n n' :
  progress dev m free s dev1 m1 free1 s1 n -> progress dev1 m1 free1 s1 dev2 m2 free2 s2 n' -> progress dev m free s dev2 m2 free2 s2 (n + n').
Proof.
  intros (L1 & U1 & T1 & S1) (L2 & U2 & T2 & S2). split; [by eapply loading_trans|]. split; [congruence|].
  split; [by eapply transfers_trans|by eapply spends_trans].
Qed.

(** A level 0 tnode that can be put into a file. *)
Definition leaf_fits dev (leaf : Z * list Z) : Prop := tnode_ok dev leaf.2 /\ 0 <= leaf.1 * 16 <= YAFFS_MAX_CHUNK_ID.

Lemma file_union_dom dev m free fs s f : file_ok dev m free fs s f -> s ∪ list_to_set free ⊆ dom (tnodes m).
Proof.
  intros [_ [Hp Ht _] _ _]. apply union_least; [intros a Ha; by eapply tree_dom|by eapply list_to_set_dom].
Qed.

Lemma progress_reread dev m free fs s f dev' : file_ok dev m free fs s f -> reread dev dev' -> progress dev m free s dev' m free s 0.
Proof.
  intros Hf R. destruct (reread_loading _ _ R) as (L & U & _). split; [done|]. split; [done|]. split; [|by apply spends_reread].
  apply transfers_refl. by eapply file_union_dom.
Qed.

(** A tnode is taken from the pool and filled from the stream. *)
Lemma fetch_tnode dev cp m free fs s f bs ps st ws rest x :
  loaded dev cp bs ps st (words_bytes ws ++ rest) -> file_ok dev m free fs s f -> tnode_ok dev ws -> enough YMALLOC dev m free 1 x ->
  exists tn dev1 m1 dev2 cp2 m2 free2, yaffs_GetTnodeRaw YMALLOC uninitialised dev m = Some (tn, dev1, m1) /\ truthy tn = true /\
    yaffs_CheckpointRead ops localTags dev1 cp (tnode_size dev) = Some (tnode_size dev, words_bytes ws, dev2, cp2) /\
    store_tnode m1 tn (words_bytes ws) = Some m2 /\ loaded dev2 cp2 bs ps (st ++ words_bytes ws) rest /\
    file_ok dev2 m2 free2 fs s f /\ spare_tnode dev2 m2 free2 s tn ws /\ loading dev dev2 /\ nUnlinkedFiles dev2 = nUnlinkedFiles dev /\
    transfers (tnodes m) (s ∪ list_to_set free) (tnodes m2) (s ∪ list_to_set (tn :: free2)) /\ spends YMALLOC dev m free dev2 m2 free2 1.
Proof.
  intros Hl Hf Hok He. pose proof (owns_pool _ _ _ _ _ _ _ (file_owns _ _ _ _ _ _ Hf)) as Hp. pose proof (owns_apart _ _ _ _ _ _ _ (file_owns _ _ _ _ _ _ Hf)) as Hap.
  pose proof (owns_tree _ _ _ _ _ _ _ (file_owns _ _ _ _ _ _ Hf)) as Ht.
  destruct (GetTnodeRaw_spec YMALLOC uninitialised dev m free Hp) as (tn & dev1 & m1 & E & Hc & Hcase). destruct (Z.eqb_spec tn 0) as [->|Hne].
  { destruct Hcase as (-> & Hz & _). exfalso. by eapply (not_enough YMALLOC dev m 0). }
  destruct Hcase as (free2 & ws0 & Hp1 & H32 & Hws0 & Hok0 & Hnf & Htr & Hsp). destruct (counters_loading _ _ Hc) as (L1 & U1 & S1).
  destruct (Read_spec N B nte ops localTags dev1 cp bs ps st _ _ (loaded_fields N B nte dev dev1 _ _ _ _ _ S1 Hl)) as (dev2 & cp2 & Er & R & Hl2).
  rewrite blen_words, <- (tnode_size_words dev ws (pool_wf _ _ _ Hp) Hok) in Er. destruct (reread_loading _ _ R) as (L2 & U2 & F2 & C2).
  pose proof (loading_trans _ _ _ L1 L2) as L. pose proof (loading_widths _ _ L) as Hw. pose proof (pool_same _ _ _ _ (loading_widths _ _ L2) F2 C2 Hp1) as Hp2.
  assert (tn ∈ dom (tnodes m1)) as Hd by (by apply elem_of_dom_2 in Hws0).
  assert (s ⊆ dom (tnodes m)) as Hsd by (intros a Ha; by eapply tree_dom).
  assert (s ## {[tn]} ∪ list_to_set free2) as Hsdis by (eapply transfers_disjoint; [done..|]; done).
  eexists tn, dev1, m1, dev2, cp2, _, free2. split; [done|]. split; [by apply truthy_true|]. split; [done|].
  unfold store_tnode. rewrite Hws0. cbn [mbind option_bind].
  assert (length ws0 = length ws) as El. { destruct Hok as [_ E1], Hok0 as [_ E2]. rewrite (counters_size _ _ Hc) in E2. unfold blen in *. lia. }
  rewrite overwrite_all by (rewrite !blen_words; unfold blen; lia). cbn [mbind option_bind]. rewrite El, words_of_words by apply Hok.
  split; [done|]. split; [done|]. split_and!.
  - eapply file_frame; [done|done|apply pool_insert; [done|done|done]| |clear - Hsdis; set_solver].
    intros a Ha. simpl tnodes. rewrite lookup_insert_ne by (clear - Hsdis Ha; set_solver). eapply transfers_agree; [exact Htr|exact Hsd|done|done].
  - constructor; [apply lookup_insert_eq|by eapply tnode_ok_widths|unfold in_w in H32; lia|clear - Hsdis; set_solver|done].
  - done.
  - congruence.
  - eapply transfers_insert; [|apply elem_of_union_r, elem_of_list_to_set, elem_of_cons; by left]. eapply transfers_eq; [eapply transfers_more; [exact Htr|exact Hsd]|done|done].
  - eapply (spends_trans YMALLOC _ _ _ dev1 m1 free2 _ _ _ 1 0); [done|]. apply spends_same; [done|by apply loading_size|lia].
Qed.

(** One record. *)
Lemma read_tnode_spec dev cp m free fs s f bs ps st off ws next rest x :
  loaded dev cp bs ps st (words_bytes ws ++ le_bytes 4 next ++ rest) -> file_ok dev m free fs s f -> leaf_fits dev (off, ws) -> in_w 32 next ->
  enough YMALLOC dev m free 13 x ->
  exists dev' cp' m' p l free' s', let fs' := fs <| top := p |> <| topLevel := l |> in
    read_tnode ops localTags YMALLOC uninitialised dev cp m fs (tnode_size dev) (off * 16) = Some (true, next, dev', cp', m', fs') /\
    loaded dev' cp' bs ps (st ++ words_bytes ws ++ le_bytes 4 next) rest /\ file_ok dev' m' free' fs' s' (with_leaf dev f (off * 16) ws) /\
    progress dev m free s dev' m' free' s' 13.
Proof.
  intros Hl Hf [Hok Hoff] Hnext He. simpl fst in Hoff. simpl snd in Hok. unfold read_tnode.
  destruct (fetch_tnode dev cp m free fs s f bs ps st ws _ x Hl Hf Hok) as (tn & dev1 & m1 & dev2 & cp2 & m2 & free2 & -> & Ht & E & Es & Hl2 & Hf2 & Hsp & L2 & U2 & T2 & S2).
  { eapply enough_mono; [exact He|lia]. }
  cbn [mbind option_bind]. rewrite Ht, E. cbn [mbind option_bind]. rewrite Es, Z.eqb_refl. cbn [mbind option_bind]. clear E Es.
  destruct (AddOrFind_passed YMALLOC uninitialised dev2 m2 free2 fs s f (off * 16) tn ws x Hf2 Hoff Hsp) as (r & dev3 & m3 & p & l & free3 & s3 & -> & Hr & Hf3 & [C3 T3] & S3).
  { by apply (proj1 S2 12%nat). }
  cbn [mbind option_bind]. rewrite Hr. destruct (counters_loading _ _ C3) as (L3 & U3 & F3).
  destruct (Read_spec N B nte ops localTags dev3 cp2 bs ps _ _ _ (loaded_fields N B nte dev2 dev3 _ _ _ _ _ F3 Hl2)) as (dev4 & cp4 & E & R & Hl4).
  rewrite blen_le_bytes in E. change (Z.of_nat 4) with 4 in E. rewrite E. cbn [mbind option_bind]. clear E. rewrite (le_value_bytes 4) by done.
  destruct (reread_loading _ _ R) as (L4 & U4 & _). exists dev4, cp4, m3, p, l, free3, s3. split; [done|]. split; [by rewrite app_assoc|]. split.
  - apply (file_reread dev3); [done|]. eapply file_ext; [|exact Hf3]. intros j. symmetry. by apply with_leaf_geometry, loading_widths.
  - split; [eapply loading_trans; [exact L2|]; by eapply loading_trans|]. split; [congruence|]. split; [by eapply transfers_trans|].
    eapply (spends_trans YMALLOC _ _ _ _ _ _ _ _ _ 13 0); [|by eapply spends_reread]. exact (spends_trans YMALLOC _ _ _ _ _ _ _ _ _ 1 12 S2 S3).
Qed.

(** The number that comes before the tnode of the first record, and what comes after it. *)
Definition next_base (ls : list (Z * list Z)) : Z := match ls with [] => 0xFFFFFFFF | (off, _) :: _ => off * 16 end.
Definition after_base (ls : list (Z * list Z)) : list Z := match ls with [] => [] | (_, ws) :: ls => words_bytes ws ++ tnodes_bytes ls end.

Lemma tnodes_bytes_base ls : tnodes_bytes ls = le_bytes 4 (next_base ls) ++ after_base ls.
Proof.
  destruct ls as [|[off ws] ls]; unfold tnodes_bytes, after_base, next_base; [by rewrite app_nil_r|].
  cbn [fmap list_fmap concat]. unfold leaf_bytes at 1. simpl. by rewrite <- !app_assoc.
Qed.

Lemma next_base_word dev ls : Forall (leaf_fits dev) ls -> in_w 32 (next_base ls).
Proof. intros H. destruct H as [|[off ws] ls [_ Hoff] _]; [done|]. simpl in *. unfold in_w, YAFFS_MAX_CHUNK_ID in *. lia. Qed.

Lemma leaf_fits_widths dev dev' ls : same_widths dev dev' -> Forall (leaf_fits dev) ls -> Forall (leaf_fits dev') ls.
Proof. intros Hw H. eapply Forall_impl; [exact H|]. intros leaf [? ?]. split; [by eapply tnode_ok_widths|done]. Qed.

Lemma read_tnodes_loop_spec bs ps ls : forall fuel dev cp m free fs s f st rest x,
  loaded dev cp bs ps st (after_base ls ++ rest) -> file_ok dev m free fs s f -> Forall (leaf_fits dev) ls ->
  enough YMALLOC dev m free (13 * length ls) x -> (length ls < fuel)%nat ->
  exists dev' cp' m' p l free' s', let fs' := fs <| top := p |> <| topLevel := l |> in
    read_tnodes_loop ops localTags YMALLOC uninitialised fuel true (tnode_size dev) (next_base ls) dev cp m fs = Some (true, dev', cp', m', fs') /\
    loaded dev' cp' bs ps (st ++ after_base ls) rest /\ file_ok dev' m' free' fs' s' (with_leaves dev f ls) /\
    progress dev m free s dev' m' free' s' (13 * length ls).
Proof.
  induction ls as [|[off ws] ls IH]; intros fuel dev cp m free fs s f st rest x Hl Hf Hls He Hfuel; (destruct fuel as [|fuel]; [simpl in Hfuel; lia|]); cbn [read_tnodes_loop next_base].
  - change (truthy (u32 (Z.lnot 0xFFFFFFFF))) with false. cbn [andb]. exists dev, cp, m, (top fs), (topLevel fs), free, s. rewrite <- fs_eta.
    split; [done|]. split; [by rewrite app_nil_r|]. split; [done|]. apply (progress_reread dev m free fs s f); [done|apply reread_refl].
  - apply Forall_cons in Hls as [Hleaf Hls]. assert (truthy (u32 (Z.lnot (off * 16))) = true) as ->.
    { destruct Hleaf as [_ Hoff]. simpl in Hoff. unfold truthy, u32, wrap, Z.lnot. rewrite (proj2 (Z.eqb_neq _ 0)); [done|].
      replace (Z.pred (- (off * 16))) with (2 ^ 32 - 1 - off * 16 + (-1) * 2 ^ 32) by lia. unfold YAFFS_MAX_CHUNK_ID in Hoff. rewrite Z.mod_add, Z.mod_small; lia. }
    cbn [andb after_base] in *. rewrite tnodes_bytes_base, <- !app_assoc in Hl. change (13 * length ((off, ws) :: ls))%nat with (13 * S (length ls))%nat in *.
    destruct (read_tnode_spec dev cp m free fs s f bs ps st off ws (next_base ls) _ x Hl Hf Hleaf) as (dev1 & cp1 & m1 & p1 & l1 & free1 & s1 & -> & Hl1 & Hf1 & P1).
    { by eapply next_base_word. } { eapply enough_mono; [exact He|lia]. }
    cbn [mbind option_bind]. set (fs1 := fs <| top := p1 |> <| topLevel := l1 |>) in *. pose proof P1 as (L1 & U1 & T1 & S1). pose proof (loading_widths _ _ L1) as Hw.
    destruct (IH fuel dev1 cp1 m1 free1 fs1 s1 _ _ rest x Hl1 Hf1) as (dev2 & cp2 & m2 & p2 & l2 & free2 & s2 & E & Hl2 & Hf2 & P2).
    { by eapply leaf_fits_widths. } { apply S1. replace (13 + 13 * length ls)%nat with (13 * S (length ls))%nat by lia. done. } { simpl in Hfuel. lia. }
    rewrite (loading_size _ _ L1) in E. rewrite E. exists dev2, cp2, m2, p2, l2, free2, s2. split; [done|]. split.
    + rewrite tnodes_bytes_base. by rewrite <- !app_assoc in Hl2.
    + split.
      * eapply file_ext; [|exact Hf2]. intros j. symmetry. simpl. by apply with_leaves_geometry.
      * replace (13 * S (length ls))%nat with (13 + 13 * length ls)%nat by lia. by eapply progress_trans.
Qed.

(** The tnodes of a file are read. *)
Lemma ReadTnodes_spec bs ps ls fuel dev cp m free fs s f st rest x :
  loaded dev cp bs ps st (tnodes_bytes ls ++ rest) -> file_ok dev m free fs s f -> Forall (leaf_fits dev) ls ->
  enough YMALLOC dev m free (13 * length ls) x -> (length ls < fuel)%nat ->
  exists dev' cp' m' p l free' s', let fs' := fs <| top := p |> <| topLevel := l |> in
    yaffs_ReadCheckpointTnodes ops localTags YMALLOC uninitialised fuel dev cp m fs = Some (true, dev', cp', m', fs') /\
    loaded dev' cp' bs ps (st ++ tnodes_bytes ls) rest /\ file_ok dev' m' free' fs' s' (with_leaves dev f ls) /\
    progress dev m free s dev' m' free' s' (13 * length ls).
Proof.
  intros Hl Hf Hls He Hfuel. unfold yaffs_ReadCheckpointTnodes. rewrite tnodes_bytes_base, <- app_assoc in Hl.
  destruct (Read_spec N B nte ops localTags dev cp bs ps st _ _ Hl) as (dev1 & cp1 & E & R & Hl1). rewrite blen_le_bytes in E. change (Z.of_nat 4) with 4 in E.
  rewrite E. cbn [mbind option_bind]. rewrite (le_value_bytes 4) by (by eapply next_base_word). clear E. destruct (reread_loading _ _ R) as (L & _). pose proof (loading_widths _ _ L) as Hw.
  pose proof (progress_reread dev m free fs s f dev1 Hf R) as P1.
  destruct (read_tnodes_loop_spec bs ps ls fuel dev1 cp1 m free fs s f _ rest x Hl1) as (dev2 & cp2 & m2 & p & l & free2 & s2 & E & Hl2 & Hf2 & P2);
    [by eapply file_reread|by eapply leaf_fits_widths|by apply P1|done|].
  rewrite (loading_size _ _ L) in E. change (4 =? 4) with true. rewrite E. exists dev2, cp2, m2, p, l, free2, s2. split; [done|]. split.
  - rewrite tnodes_bytes_base. by rewrite <- app_assoc in Hl2.
  - split; [|exact (progress_trans _ _ _ _ _ _ _ _ _ _ _ _ 0 _ P1 P2)]. eapply file_ext; [|exact Hf2]. intros j. symmetry. by apply with_leaves_geometry.
Qed.

(** A file that is restored has its chunks. *)
Lemma restored_file dev dev0 m free fs s f :
  file_ok dev0 m free fs s f -> same_widths dev0 dev -> forall j, with_leaves dev (fun _ => 0) (file_leaves m fs) j = f j.
Proof.
  intros [_ [_ Ht _] Hz _] Hw j. rewrite (with_leaves_geometry dev0 dev) by done. unfold file_leaves.
  rewrite (leaves_place dev0 m _ _ s f 0 (fun _ => 0) Ht) by done. unfold placed. rewrite Z.mul_0_l, Z.sub_0_r, Z.add_0_l, Z.mul_1_l.
  destruct (Z.leb_spec 0 j), (Z.ltb_spec j (capacity (Z.to_nat (topLevel fs)))); simpl; try done; symmetry; apply Hz; lia.
Qed.

End Stream.
End Tnodes.
