(* ===== verification/YaffsCheckpointObjects.v ===== *)
(** * The objects in a checkpoint

    Every object that is in use is written with its tnodes, and reading the records creates the objects again,
    with the parents that they need: each has the fields it had, the chunks it had, and a parent with the same number. *)

From stdpp Require Import list.
From S2P Require Import Prelude NandEcc NandEccFacts YaffsTags YaffsTagsFacts YaffsNand.
From S2P Require Import YaffsBlocks YaffsTnodes YaffsTnodesFacts YaffsTnodesPool YaffsTnodesTree YaffsTnodesAdd YaffsTnodesPlug YaffsObjects YaffsObjectsFacts YaffsObjectsMount.
From S2P Require Import YaffsCheckpoint YaffsCheckpointFacts YaffsCheckpointStream YaffsCheckpointData YaffsCheckpointDevice YaffsCheckpointTnodes.

Local Open Scope Z_scope.

(** ** The record of an object *)

Record cpo_fits (cp : yaffs_CheckpointObject) : Prop := {
  cfits_type : cpo_structType cp = sizeof_yaffs_CheckpointObject;
  cfits_object : in_w 32 (cpo_objectId cp);
  cfits_parent : in_w 32 (cpo_parentId cp);
  cfits_header : in_int (cpo_hdrChunk cp);
  cfits_serial : in_w 8 (cpo_serial cp);
  cfits_chunks : in_int (cpo_nDataChunks cp)
}.

Lemma cpo_word_in pad cp : in_w 32 (cpo_word pad cp).
Proof. unfold cpo_word. repeat (apply bf_put_in; [done..|]). by apply wrap_in. Qed.

Ltac field_of_record :=
  unfold cpo_word; repeat (rewrite bf_get_other by (simpl; lia)); rewrite bf_get_put by done; reflexivity.

(** The last field is what fits into 32 bits. *)
Lemma cpo_roundtrip pad cp : cpo_fits cp -> cpo_of_bytes (cpo_bytes pad cp) = Some (cp <| cpo_fileSizeOrEquivalentObjectId ::= u32 |>).
Proof.
  intros []. assert (in_int (cpo_structType cp)) by (by rewrite cfits_type0). unfold cpo_of_bytes, cpo_bytes. read_words. rewrite (u32_small (cpo_word pad cp)) by apply cpo_word_in.
  assert (bf_get cpo_variantType_bits (cpo_word pad cp) = Z.land (type_number (cpo_variantType cp)) (Z.ones 3)) as -> by field_of_record.
  assert (object_types !! Z.to_nat (Z.land (type_number (cpo_variantType cp)) (Z.ones 3)) = Some (cpo_variantType cp)) as -> by (by destruct (cpo_variantType cp)).
  cbn [mbind option_bind].
  assert (bf_get cpo_deleted_bit (cpo_word pad cp) = Z.land (b2z (cpo_deleted cp)) (Z.ones 1)) as -> by field_of_record.
  assert (bf_get cpo_softDeleted_bit (cpo_word pad cp) = Z.land (b2z (cpo_softDeleted cp)) (Z.ones 1)) as -> by field_of_record.
  assert (bf_get cpo_unlinked_bit (cpo_word pad cp) = Z.land (b2z (cpo_unlinked cp)) (Z.ones 1)) as -> by field_of_record.
  assert (bf_get cpo_fake_bit (cpo_word pad cp) = Z.land (b2z (cpo_fake cp)) (Z.ones 1)) as -> by field_of_record.
  assert (bf_get cpo_renameAllowed_bit (cpo_word pad cp) = Z.land (b2z (cpo_renameAllowed cp)) (Z.ones 1)) as -> by field_of_record.
  assert (bf_get cpo_unlinkAllowed_bit (cpo_word pad cp) = Z.land (b2z (cpo_unlinkAllowed cp)) (Z.ones 1)) as -> by field_of_record.
  assert (bf_get cpo_serial_bits (cpo_word pad cp) = Z.land (cpo_serial cp) (Z.ones 8)) as -> by field_of_record.
  rewrite !truthy_bit, land_ones_small, (u32_small (cpo_objectId cp)), (u32_small (cpo_parentId cp)) by done. by destruct cp.
Qed.

Lemma cpo_bytes_ok pad cp : bytes 28 (cpo_bytes pad cp).
Proof. apply words_bytes_ok. Qed.

Lemma blen_cpo pad cp : blen (cpo_bytes pad cp) = sizeof_yaffs_CheckpointObject.
Proof. unfold blen. by rewrite (proj1 (cpo_bytes_ok pad cp)). Qed.

Lemma end_of_objects_ok : bytes 28 end_of_objects.
Proof. split; [done|]. by apply (bool_decide_unpack _). Qed.

(** ** Writing *)

(** The objects in the order of the table, and the ones that are in use. *)
Definition all_objects om : list Z := concat (bucket_list <$> objectBucket om).

Definition in_use om (a : Z) : bool := match objects om !! a with Some o => negb (deferedFree o) | None => false end.

Definition live_objects om : list Z := filter (fun a => in_use om a = true) (all_objects om).

Section Writing.
Context {mtd : Type} `{!Pages mtd} (N B : Z) (nte : bool) (ops : nand_ops mtd) `{!PageStore N B nte ops} (localTags : yaffs_ExtendedTags).
Context (padding unset : Z -> Z).
Implicit Types (dev : yaffs_Device mtd) (cp : checkpoint) (m : tnode_memory) (om : object_memory) (free : list Z).

Abbreviation emits := (emits N B nte).

(** What is written for the object at [a]. *)
Definition object_data m om (a : Z) : list Z :=
  match objects om !! a with
  | Some o =>
      match yaffs_ObjectToCheckpointObject unset om a o with
      | Some cpo => cpo_bytes (padding a) cpo ++
                    (if bool_decide (variantType o = YAFFS_OBJECT_TYPE_FILE) then tnodes_bytes (file_leaves m (fileVariant o)) else [])
      | None => []
      end
  | None => []
  end.

Definition objects_data m om : list Z := concat (object_data m om <$> live_objects om) ++ end_of_objects.

(** An object that can be written: its parent exists, and its tree is in order. *)
Definition object_writable dev m free om (o : yaffs_Object) : Prop :=
  (parent o <> 0 -> is_Some (objects om !! parent o)) /\
  (variantType o = YAFFS_OBJECT_TYPE_FILE -> exists s f, file_ok dev m free (fileVariant o) s f).

Lemma record_exists om a o : (parent o <> 0 -> is_Some (objects om !! parent o)) -> exists cpo, yaffs_ObjectToCheckpointObject unset om a o = Some cpo.
Proof.
  intros Hp. unfold yaffs_ObjectToCheckpointObject, truthy. destruct (Z.eqb_spec (parent o) 0) as [E|E]; cbn [negb]; [by eexists|].
  destruct (Hp E) as [p ->]. by eexists.
Qed.

Lemma emits_object dev0 m free om a o :
  objects om !! a = Some o -> object_writable dev0 m free om o ->
  emits dev0 (fun dev cp => write_object ops localTags padding unset dev cp m om a o) (object_data m om a).
Proof.
  intros Ha [Hp Hf] dev cp s Hw Hr. unfold write_object, object_data in *. rewrite Ha in *. destruct (record_exists om a o Hp) as [cpo E]. rewrite E in *. cbn [mbind option_bind].
  rewrite blen_app, blen_cpo in Hr.
  match type of Hr with _ + (_ + blen ?x) <= _ => pose proof (Zle_0_nat (length x)) as Hpos; fold (blen x) in Hpos end.
  destruct (Write_bytes N B nte ops localTags dev0 dev cp s (cpo_bytes (padding a) cpo) Hw) as (dev1 & cp1 & Ew & _ & Hw1).
  { apply cpo_bytes_ok. } { rewrite blen_cpo. lia. }
  rewrite blen_cpo in Ew. rewrite Ew. cbn [mbind option_bind]. rewrite Z.eqb_refl. clear Ew. case_bool_decide as Ht.
  - destruct (Hf Ht) as (st & f & Hfo). destruct (emits_tnodes N B nte ops localTags dev0 m free o st f Hfo Ht dev1 cp1 _ Hw1) as (dev2 & cp2 & -> & Hw2).
    { rewrite blen_app, blen_cpo. lia. }
    exists dev2, cp2. by rewrite app_assoc.
  - exists dev1, cp1. by rewrite app_nil_r.
Qed.

Lemma emits_bucket dev0 m free om l :
  (forall a, a ∈ l -> exists o, objects om !! a = Some o /\ (deferedFree o = false -> object_writable dev0 m free om o)) ->
  emits dev0 (fun dev cp => write_bucket ops localTags padding unset l true dev cp m om) (concat (object_data m om <$> filter (fun a => in_use om a = true) l)).
Proof.
  induction l as [|a l IH]; intros Hl; cbn [write_bucket]; [apply emits_nothing|]. destruct (Hl a) as (o & Ha & Hwr); [by apply elem_of_cons; left|].
  assert (emits dev0 (fun dev cp => write_bucket ops localTags padding unset l true dev cp m om) (concat (object_data m om <$> filter (fun a => in_use om a = true) l))) as IH'
    by (apply IH; intros b Hb; apply Hl; by apply elem_of_cons; right).
  rewrite Ha. cbn [mbind option_bind]. assert (in_use om a = negb (deferedFree o)) as Eu by (unfold in_use; by rewrite Ha). destruct (deferedFree o); cbn [negb] in Eu.
  - rewrite filter_cons_False by (by rewrite Eu). exact IH'.
  - rewrite filter_cons_True by done. cbn [fmap list_fmap concat]. intros dev cp s Hw Hr. rewrite blen_app in Hr.
    destruct (emits_object dev0 m free om a o Ha (Hwr eq_refl) dev cp s Hw) as (dev1 & cp1 & -> & Hw1).
    { match type of Hr with _ + (_ + blen ?x) <= _ => pose proof (Zle_0_nat (length x)) as Hpos; fold (blen x) in Hpos end. lia. }
    cbn [mbind option_bind]. destruct (IH' dev1 cp1 _ Hw1) as (dev2 & cp2 & -> & Hw2); [rewrite blen_app; lia|]. exists dev2, cp2. by rewrite app_assoc.
Qed.

Lemma emits_buckets dev0 m free om bs :
  (forall a, a ∈ concat (bucket_list <$> bs) -> exists o, objects om !! a = Some o /\ (deferedFree o = false -> object_writable dev0 m free om o)) ->
  emits dev0 (fun dev cp => write_buckets ops localTags padding unset bs true dev cp m om)
    (concat (object_data m om <$> filter (fun a => in_use om a = true) (concat (bucket_list <$> bs)))).
Proof.
  induction bs as [|b bs IH]; intros Hl; cbn [write_buckets fmap list_fmap concat]; [apply emits_nothing|]. rewrite filter_app, fmap_app, concat_app.
  intros dev cp s Hw Hr. rewrite blen_app in Hr. cbn [fmap list_fmap concat] in Hl.
  destruct (emits_bucket dev0 m free om (bucket_list b)) with (dev := dev) (cp := cp) (s := s) as (dev1 & cp1 & -> & Hw1); [|done|..].
  { intros a Ha. apply Hl, elem_of_app. by left. }
  { match type of Hr with _ + (_ + blen ?x) <= _ => pose proof (Zle_0_nat (length x)) as Hpos; fold (blen x) in Hpos end. lia. }
  cbn [mbind option_bind]. destruct (IH ltac:(intros a Ha; apply Hl, elem_of_app; by right) dev1 cp1 _ Hw1) as (dev2 & cp2 & -> & Hw2); [rewrite blen_app; lia|].
  exists dev2, cp2. by rewrite app_assoc.
Qed.

Lemma emits_objects dev0 m free om :
  (forall a, a ∈ all_objects om -> exists o, objects om !! a = Some o /\ (deferedFree o = false -> object_writable dev0 m free om o)) ->
  emits dev0 (fun dev cp => yaffs_WriteCheckpointObjects ops localTags padding unset dev cp m om) (objects_data m om).
Proof.
  intros Hl. unfold yaffs_WriteCheckpointObjects, objects_data. apply emits_then; [by apply emits_buckets with free|].
  apply (emits_bytes N B nte ops); [done|]. apply end_of_objects_ok.
Qed.

End Writing.

(** ** Reading *)

(** The record of an object, where a field that is not set is 0. *)
Definition record_of om (o : yaffs_Object) : option yaffs_CheckpointObject := yaffs_ObjectToCheckpointObject (fun _ => 0) om 0 o.

(** The record depends on the core of the object and on the number of its parent. *)
Lemma record_frame om om' o o' :
  same_core o o' -> (parent o <> 0 -> exists p p', objects om !! parent o = Some p /\ objects om' !! parent o = Some p' /\ obj_objectId p' = obj_objectId p) ->
  record_of om' o' = record_of om o.
Proof.
  intros E Hp. unfold record_of, yaffs_ObjectToCheckpointObject. assert (parent o' = parent o) as Ep by (pose proof (core_fields _ _ E); congruence). rewrite Ep.
  assert ((if truthy (parent o) then p ← objects om' !! parent o; Some (obj_objectId p) else Some 0) =
          (if truthy (parent o) then p ← objects om !! parent o; Some (obj_objectId p) else Some 0)) as ->.
  { unfold truthy. destruct (Z.eqb_spec (parent o) 0) as [|Hne]; [done|]. destruct (Hp Hne) as (p & p' & -> & -> & Ei). simpl. by rewrite Ei. }
  destruct (if truthy (parent o) then _ else _); [|done]. simpl. rewrite E. by destruct o.
Qed.

Section Reading.
Context {mtd : Type} (YMALLOC : tnode_memory -> Z -> Z) {Alloc : Allocator YMALLOC} (uninitialised : Z -> Z).
Implicit Types (dev : yaffs_Device mtd) (m : tnode_memory) (om : object_memory) (free : list Z).

(** The state that was saved. *)
Context (devW : yaffs_Device mtd) (m1 : tnode_memory) (om1 : object_memory).

(** An object of the checkpoint. *)
Definition recorded (a1 : Z) (o1 : yaffs_Object) : Prop := objects om1 !! a1 = Some o1 /\ deferedFree o1 = false.

(** What a state has to be like to be saved: the numbers are unique, the parents are directories that are in use,
    and only three directories are in no other; the four directories that always exist are there. *)
Record savable : Prop := {
  sv_table : table om1;
  sv_once : NoDup (all_objects om1);
  sv_parent : forall a1 o1, recorded a1 o1 -> parent o1 <> 0 -> exists p1, recorded (parent o1) p1 /\ variantType p1 = YAFFS_OBJECT_TYPE_DIRECTORY;
  sv_top : forall a1 o1, recorded a1 o1 -> parent o1 = 0 <-> obj_objectId o1 ∈ [YAFFS_OBJECTID_ROOT; YAFFS_OBJECTID_UNLINKED; YAFFS_OBJECTID_DELETED];
  sv_dirs : forall n, n ∈ [YAFFS_OBJECTID_ROOT; YAFFS_OBJECTID_LOSTNFOUND; YAFFS_OBJECTID_UNLINKED; YAFFS_OBJECTID_DELETED] ->
    exists a1 o1, recorded a1 o1 /\ obj_objectId o1 = n /\ variantType o1 = YAFFS_OBJECT_TYPE_DIRECTORY
}.

Context (Hsave : savable).

Lemma recorded_unique a1 a2 o1 o2 : recorded a1 o1 -> recorded a2 o2 -> obj_objectId o1 = obj_objectId o2 -> a1 = a2 /\ o1 = o2.
Proof using Hsave.
  intros [H1 _] [H2 _] E. assert (a1 = a2) as <- by (by eapply tb_unique; [apply Hsave|..]). split; [done|congruence].
Qed.

(** The chunks of a file that was saved. *)
Definition chunks_of (o1 : yaffs_Object) : Z -> Z := with_leaves devW (fun _ => 0) (file_leaves m1 (fileVariant o1)).

Definition chunks_so_far (done : list Z) (a1 : Z) (o1 : yaffs_Object) : Z -> Z :=
  if bool_decide (a1 ∈ done) then chunks_of o1 else fun _ => 0.

Definition has_number om (a n : Z) : Prop := exists o, objects om !! a = Some o /\ obj_objectId o = n.

(** The directories that always exist. *)
Record mounted om : Prop := {
  mt_root : has_number om (rootDir om) YAFFS_OBJECTID_ROOT;
  mt_lost : has_number om (lostNFoundDir om) YAFFS_OBJECTID_LOSTNFOUND;
  mt_unlinked : has_number om (unlinkedDir om) YAFFS_OBJECTID_UNLINKED;
  mt_deleted : has_number om (deletedDir om) YAFFS_OBJECTID_DELETED
}.

(** Where the object [o] at [a] comes from, with the tnodes [s]. *)
Definition origin dev m free (done : list Z) (o : yaffs_Object) (s : gset Z) : Prop :=
  exists a1 o1, recorded a1 o1 /\ obj_objectId o = obj_objectId o1 /\ variantType o = variantType o1 /\
    (a1 ∉ done -> parent o1 = 0 -> parent o = 0) /\
    (variantType o = YAFFS_OBJECT_TYPE_FILE -> file_ok dev m free (fileVariant o) s (chunks_so_far done a1 o1)).

(** The records [done] have been read. *)
Record restoring dev m free om (S : Z -> gset Z) (done : list Z) : Prop := {
  rs_widths : same_widths devW dev;
  rs_ok : objects_ok m om;
  rs_pool : pool dev m free;
  rs_mounted : mounted om;
  rs_origin : forall a o, objects om !! a = Some o -> origin dev m free done o (S a);
  rs_apart : forall a b oa ob, a <> b -> objects om !! a = Some oa -> objects om !! b = Some ob ->
    variantType oa = YAFFS_OBJECT_TYPE_FILE -> variantType ob = YAFFS_OBJECT_TYPE_FILE -> S a ## S b;
  rs_done : forall a1 o1, recorded a1 o1 -> a1 ∈ done -> exists a o, objects om !! a = Some o /\ obj_objectId o = obj_objectId o1 /\ record_of om o = record_of om1 o1
}.

Lemma number_cores x om om' a n :
  cores_but x (objects om) (objects om') -> same_kind x (objects om) (objects om') -> has_number om a n -> has_number om' a n.
Proof. intros Hc Hk (o & Ho & E). destruct (kind_forward _ _ _ _ _ Hc Hk Ho) as (o' & Ho' & E' & _). exists o'. split; [done|]. congruence. Qed.

(** No object goes away, and all keep their numbers. *)
Definition keeps_numbers om om' : Prop := forall a n, has_number om a n -> has_number om' a n.

Lemma numbers_trans om om' om'' : keeps_numbers om om' -> keeps_numbers om' om'' -> keeps_numbers om om''.
Proof. intros H H' a n Hn. by apply H', H. Qed.

Lemma keeps_cores om om' : (forall b ob, objects om !! b = Some ob -> exists ob', objects om' !! b = Some ob' /\ same_core ob ob') -> keeps_numbers om om'.
Proof. intros H a n (o & Ho & E). destruct (H a o Ho) as (o' & Ho' & Ec). exists o'. split; [done|]. pose proof (core_fields _ _ Ec). congruence. Qed.

Lemma keeps_change x om t o o' :
  cores_but x (objects om) t -> objects om !! x = Some o -> t !! x = Some o' ->
  (obj_objectId o', variantType o', deferedFree o') = (obj_objectId o, variantType o, deferedFree o) -> keeps_numbers om (om <| objects := t |>).
Proof.
  intros Hc Ho Ho' [= E1 E2 E3] a n. apply (number_cores x); [done|]. intros oa ob H1 H2. change (objects (om <| objects := t |>)) with t in H2.
  rewrite Ho in H1. rewrite Ho' in H2. injection H1 as <-. by injection H2 as <-.
Qed.

(** The parent of an object in a good memory, before and after a change that keeps the numbers. *)
Lemma parent_number m om om' a o :
  objects_ok m om -> (forall x ox, objects om !! x = Some ox -> exists ox', objects om' !! x = Some ox' /\ obj_objectId ox' = obj_objectId ox) ->
  objects om !! a = Some o -> parent o <> 0 -> exists p p', objects om !! parent o = Some p /\ objects om' !! parent o = Some p' /\ obj_objectId p' = obj_objectId p.
Proof.
  intros Hok Hn Ha Hp. destruct (ob_parent _ _ Hok a o Ha Hp) as (p & Hpo & _). destruct (Hn _ p Hpo) as (p' & Hp' & E). by exists p, p'.
Qed.

(** The object [x], of which no record has been read, is changed. *)
Lemma restoring_change dev m free om S done x t o o' :
  restoring dev m free om S done -> cores_but x (objects om) t -> objects om !! x = Some o -> t !! x = Some o' ->
  (obj_objectId o', variantType o', deferedFree o') = (obj_objectId o, variantType o, deferedFree o) ->
  (variantType o = YAFFS_OBJECT_TYPE_FILE -> top (fileVariant o') = top (fileVariant o) /\ topLevel (fileVariant o') = topLevel (fileVariant o)) ->
  (parent o' <> 0 -> is_directory (objects om) (parent o')) ->
  (forall a1 o1, recorded a1 o1 -> obj_objectId o = obj_objectId o1 -> a1 ∉ done /\ (parent o1 = 0 -> parent o' = 0)) ->
  restoring dev m free (om <| objects := t |>) S done.
Proof using Hsave.
  intros [Hw Hok Hp Hm Ho Ha Hd] Hc Hx Hx' [= E1 E2 E3] Hfile Hpar Hnd.
  assert (same_kind x (objects om) t) as Hk by (intros oa ob H1 H2; rewrite Hx in H1; rewrite Hx' in H2; injection H1 as <-; by injection H2 as <-).
  assert (objects_ok m (om <| objects := t |>)) as Hok' by (by eapply objects_cores).
  assert (forall b ob', t !! b = Some ob' -> exists ob, objects om !! b = Some ob /\ obj_objectId ob' = obj_objectId ob /\ variantType ob' = variantType ob /\ (b <> x -> same_core ob ob')) as Hback.
  { intros b ob' Hb. destruct (kind_back _ _ _ _ _ Hc Hk Hb) as (ob & Hob & ? & ? & _ & ?). by exists ob. }
  constructor; try done; change (objects (om <| objects := t |>)) with t.
  - destruct Hm. constructor; by apply (number_cores x om).
  - intros b ob' Hb. destruct (Hback b ob' Hb) as (ob & Hob & Ei & Et & Hcore). destruct (Ho b ob Hob) as (a1 & o1 & Hr & Ei1 & Et1 & Hp1 & Hf1).
    exists a1, o1. split; [done|]. split; [congruence|]. split; [congruence|]. destruct (decide (b = x)) as [->|Hne].
    + rewrite Hx in Hob. injection Hob as <-. rewrite Hx' in Hb. injection Hb as <-. split; [intros _ Hp0; by apply (Hnd a1 o1 Hr Ei1)|].
      rewrite Et. intros Hft. destruct (Hfile Hft) as [F1 F2]. destruct (Hf1 Hft) as [Hl Hown Hz Hleaf]. constructor; rewrite ?F1, ?F2; done.
    + pose proof (core_fields _ _ (Hcore Hne)) as F. assert (parent ob' = parent ob) as -> by congruence. assert (fileVariant ob' = fileVariant ob) as -> by congruence.
      split; [done|]. by rewrite Et.
  - intros b c ob oc Hne Hb Hcc Hfb Hfc. destruct (Hback b ob Hb) as (ob0 & Hob0 & _ & Etb & _), (Hback c oc Hcc) as (oc0 & Hoc0 & _ & Etc & _).
    apply (Ha b c ob0 oc0); try done; congruence.
  - intros a1 o1 Hr Hin. destruct (Hd a1 o1 Hr Hin) as (b & ob & Hb & Eb & Er).
    assert (b <> x) as Hne. { intros ->. rewrite Hx in Hb. injection Hb as <-. by destruct (Hnd a1 o1 Hr Eb) as [? _]. }
    destruct (proj2 Hc b ob Hne Hb) as (ob' & Hb' & Ec). exists b, ob'. split; [done|]. split; [pose proof (core_fields _ _ Ec); congruence|]. rewrite <- Er.
    apply record_frame; [done|]. intros Hpo. eapply (parent_number m om (om <| objects := t |>) b ob Hok); try done.
    intros y oy Hy. destruct (kind_forward _ _ _ _ _ Hc Hk Hy) as (oy' & Hy' & Ey & _). by exists oy'.
Qed.

(** A file keeps its tnodes while others take free ones. *)
Lemma origin_frame dev m free dev' m' free' done o o' s U U' :
  origin dev m free done o s -> same_core o o' -> same_widths dev dev' -> pool dev' m' free' -> transfers (tnodes m) U (tnodes m') U' ->
  (variantType o = YAFFS_OBJECT_TYPE_FILE -> s ## U) -> list_to_set free' ⊆ U' -> origin dev' m' free' done o' s.
Proof.
  intros (a1 & o1 & Hr & Ei & Et & Hp1 & Hf) Hc Hw Hp Ht Hs Hfree. pose proof (core_fields _ _ Hc) as F. exists a1, o1. split; [done|]. split; [congruence|]. split; [congruence|].
  split; [intros H1 H2; rewrite <- (Hp1 H1 H2); congruence|]. assert (variantType o' = variantType o) as -> by congruence. assert (fileVariant o' = fileVariant o) as -> by congruence.
  intros Hft. specialize (Hf Hft). specialize (Hs Hft). assert (s ⊆ dom (tnodes m)) as Hd by (intros a Ha; eapply tree_dom; [apply Hf|done]).
  eapply file_frame; [done|done|done| |].
  - intros a Ha. by eapply transfers_agree.
  - pose proof (transfers_disjoint _ _ _ _ _ Ht Hd Hs) as Hdis. clear - Hdis Hfree. set_solver.
Qed.

Lemma file_apart dev m free done o s : origin dev m free done o s -> variantType o = YAFFS_OBJECT_TYPE_FILE -> s ⊆ dom (tnodes m) /\ s ## list_to_set free.
Proof.
  intros (a1 & o1 & _ & _ & _ & _ & Hf) Ht. specialize (Hf Ht). split; [intros a Ha; eapply tree_dom; [apply Hf|done]|apply Hf].
Qed.

(** A new object takes its place among the restored ones. *)
Lemma restoring_new dev m free om S done dev' m' free' om' a o s a1 o1 tn :
  restoring dev m free om S done -> recorded a1 o1 -> (forall x ox, objects om !! x = Some ox -> obj_objectId ox <> obj_objectId o1) ->
  objects om !! a = None -> cores_but a (<[a := zero_object]> (objects om)) (objects om') -> objects om' !! a = Some o ->
  new_object (obj_objectId o1) (variantType o1) (first_parent om) tn o -> objects_ok m' om' -> special_dirs om' = special_dirs om -> same_widths dev dev' -> pool dev' m' free' ->
  transfers (tnodes m) (list_to_set free) (tnodes m') (s ∪ list_to_set free') ->
  (variantType o1 = YAFFS_OBJECT_TYPE_FILE -> file_ok dev' m' free' (fileVariant o) s (fun _ => 0)) ->
  restoring dev' m' free' om' (fun b => if b =? a then s else S b) done.
Proof using Hsave.
  intros [Hw Hok Hp Hm Ho Hap Hd] Hr Hnew Hna Hc Ha [N1 N2 N3 N4 N5] Hok' [= D1 D2 D3 D4] Hw' Hp' Ht Hf.
  assert (forall x ox, objects om !! x = Some ox -> x <> a /\ exists ox', objects om' !! x = Some ox' /\ same_core ox ox') as Hforth.
  { intros x ox Hx. assert (x <> a) as Hxa by (intros ->; congruence). split; [done|]. apply (proj2 Hc); [done|]. by rewrite lookup_insert_ne. }
  assert (forall x ox', x <> a -> objects om' !! x = Some ox' -> exists ox, objects om !! x = Some ox /\ same_core ox ox') as Hback.
  { intros x ox' Hxa Hx. destruct (cores_lookup _ _ _ _ _ Hc Hxa Hx) as (ox & Hox & E). rewrite lookup_insert_ne in Hox by done. by exists ox. }
  assert (forall x n, has_number om x n -> has_number om' x n) as Hnum.
  { intros x n (ox & Hx & E). destruct (Hforth x ox Hx) as (_ & ox' & Hx' & Ec). exists ox'. split; [done|]. pose proof (core_fields _ _ Ec). congruence. }
  assert (forall b ob, b <> a -> objects om' !! b = Some ob -> variantType ob = YAFFS_OBJECT_TYPE_FILE -> S b ## s ∪ list_to_set free') as Hother.
  { intros b ob Hb Hob Hfb. destruct (Hback b ob Hb Hob) as (ob0 & Hob0 & Ec). pose proof (core_fields _ _ Ec) as F.
    destruct (file_apart _ _ _ _ _ _ (Ho b ob0 Hob0)) as [Hsd Hsf]; [congruence|]. by eapply transfers_disjoint. }
  constructor.
  - by eapply same_widths_trans.
  - done.
  - done.
  - destruct Hm as [M1 M2 M3 M4]. constructor; rewrite ?D1, ?D2, ?D3, ?D4; by apply Hnum.
  - intros b ob Hb. destruct (Z.eqb_spec b a) as [->|Hne].
    + rewrite Ha in Hb. injection Hb as <-. exists a1, o1. split; [done|]. split; [done|]. split; [done|]. split.
      * intros _ Hp0. exfalso. apply (sv_top Hsave a1 o1 Hr) in Hp0. destruct Hm as [(o2 & Ho2 & E2) _ (o3 & Ho3 & E3) (o4 & Ho4 & E4)].
        rewrite !elem_of_cons, elem_of_nil in Hp0. destruct Hp0 as [E|[E|[E|[]]]]; [destruct (Hnew _ o2 Ho2)|destruct (Hnew _ o3 Ho3)|destruct (Hnew _ o4 Ho4)]; congruence.
      * rewrite N2. intros Hft. assert (a1 ∉ done) as Hnd. { intros Hin. destruct (Hd a1 o1 Hr Hin) as (x & ox & Hx & Ex & _). by destruct (Hnew x ox Hx). }
        unfold chunks_so_far. rewrite bool_decide_false by done. by apply Hf.
    + destruct (Hback b ob Hne Hb) as (ob0 & Hob0 & Ec). eapply origin_frame; [by apply (Ho b ob0)|done|done|done|exact Ht| |clear; set_solver].
      intros Hfb. by eapply file_apart; [by apply (Ho b ob0)|].
  - intros b c ob oc Hbc Hb Hcc Hfb Hfc. destruct (Z.eqb_spec b a) as [->|Hba], (Z.eqb_spec c a) as [->|Hca]; try done.
    + pose proof (Hother c oc Hca Hcc Hfc) as H. clear - H. set_solver.
    + pose proof (Hother b ob Hba Hb Hfb) as H. clear - H. set_solver.
    + destruct (Hback b ob Hba Hb) as (ob0 & Hob0 & Eb), (Hback c oc Hca Hcc) as (oc0 & Hoc0 & Ec). pose proof (core_fields _ _ Eb). pose proof (core_fields _ _ Ec).
      apply (Hap b c ob0 oc0); try done; congruence.
  - intros a2 o2 Hr2 Hin. destruct (Hd a2 o2 Hr2 Hin) as (b & ob & Hb & Eb & Er). destruct (Hforth b ob Hb) as (_ & ob' & Hb' & Ec). exists b, ob'. split; [done|].
    split; [pose proof (core_fields _ _ Ec); congruence|]. rewrite <- Er. apply record_frame; [done|]. intros Hpo. eapply (parent_number m om om' b ob Hok); try done.
    intros y oy Hy. destruct (Hforth y oy Hy) as (_ & oy' & Hy' & Ecy). exists oy'. split; [done|]. pose proof (core_fields _ _ Ecy). congruence.
Qed.

(** The object of a record is found, or created. *)
Lemma FindOrCreate_restoring dev m free om S done a1 o1 nt no :
  restoring dev m free om S done -> recorded a1 o1 -> budget YMALLOC dev m free om (file_tnodes (variantType o1) + nt) (Datatypes.S no) ->
  exists a o dev' m' om' free' S',
    yaffs_FindOrCreateObjectByNumber YMALLOC uninitialised dev m om (s32 (obj_objectId o1)) (variantType o1) = Some (a, dev', m', om') /\ a <> 0 /\
    objects om' !! a = Some o /\ obj_objectId o = obj_objectId o1 /\ variantType o = variantType o1 /\
    restoring dev' m' free' om' S' done /\ tended dev dev' /\ grown m m' /\ budget YMALLOC dev' m' free' om' nt no /\
    (forall b ob, objects om !! b = Some ob -> exists ob', objects om' !! b = Some ob' /\ same_core ob ob').
Proof using Hsave Alloc.
  intros Hrs Hr Hb. pose proof (tb_number _ (sv_table Hsave) a1 o1 (proj1 Hr)) as Hn. unfold number_ok in Hn. pose proof (rs_ok _ _ _ _ _ _ Hrs) as Hok.
  unfold yaffs_FindOrCreateObjectByNumber. rewrite s32_small by lia. rewrite (proj2 (Z.ltb_lt 0 _)) by lia. unfold u32 at 1, wrap. rewrite Z.mod_small by lia.
  destruct (Find_spec om (obj_objectId o1) (ob_table _ _ Hok)) as (r & -> & [(a & o & Ha & Ei & ->)|[-> Hnone]]); cbn [mbind option_bind].
  - rewrite (ob_live _ _ Hok a o Ha). assert (0 < a) by (apply (ob_blocks _ _ Hok a); right; by rewrite Ha). rewrite (proj2 (Z.eqb_neq a 0)) by lia.
    exists a, o, dev, m, om, free, S. split; [done|]. split; [lia|]. split; [done|]. split; [done|]. split.
    { destruct (rs_origin _ _ _ _ _ _ Hrs a o Ha) as (a2 & o2 & Hr2 & Ei2 & Et2 & _). destruct (recorded_unique a1 a2 o1 o2 Hr Hr2) as [_ <-]; [congruence|done]. }
    split; [done|]. split; [apply tended_refl|]. split; [by apply grown_same|]. split; [eapply budget_mono; [exact Hb|lia|lia]|].
    intros b ob Hob. exists ob. split; [done|apply same_core_refl].
  - cbn [Z.eqb]. destruct (CreateNewObject_spec YMALLOC uninitialised dev m free om (obj_objectId o1) (variantType o1) nt no Hok (rs_pool _ _ _ _ _ _ Hrs) Hn Hnone Hb)
      as (a & o & tn & dev' & m' & om' & free' & s & -> & Ha0 & Hna & Hc & Ha & No & Hok' & Hsd & T & Hp' & G & Hb' & Tr & Hf & _).
    exists a, o, dev', m', om', free', (fun b => if b =? a then s else S b). split; [done|]. split; [done|]. split; [done|]. split; [apply No|]. split; [apply No|]. split.
    { eapply (restoring_new dev m free om S done); try done. by apply tended_widths. }
    split; [done|]. split; [done|]. split; [done|]. intros b ob Hob. assert (b <> a) as Hba by (intros ->; congruence). apply (proj2 Hc); [done|]. by rewrite lookup_insert_ne.
Qed.

(** The objects below the two special directories, which are counted when they are added there. *)
Definition unlinked_number (n : Z) : bool := (n =? YAFFS_OBJECTID_UNLINKED) || (n =? YAFFS_OBJECTID_DELETED).

Definition below_unlinked om (o : yaffs_Object) : Z :=
  if parent o =? 0 then 0 else match objects om !! parent o with Some p => b2z (unlinked_number (obj_objectId p)) | None => 0 end.

Lemma special_parent om p op : table om -> mounted om -> objects om !! p = Some op ->
  (p =? unlinkedDir om) || (p =? deletedDir om) = unlinked_number (obj_objectId op).
Proof using Type.
  intros Ht [_ _ (u & Hu & Eu) (d & Hd & Ed)] Hp. unfold unlinked_number. f_equal.
  - destruct (Z.eqb_spec p (unlinkedDir om)) as [->|Hne]; [assert (op = u) as -> by congruence; by rewrite Eu|]. symmetry. apply Z.eqb_neq. intros E. apply Hne. eapply tb_unique; [done..|congruence].
  - destruct (Z.eqb_spec p (deletedDir om)) as [->|Hne]; [assert (op = d) as -> by congruence; by rewrite Ed|]. symmetry. apply Z.eqb_neq. intros E. apply Hne. eapply tb_unique; [done..|congruence].
Qed.

(** The device after [k] objects have been counted. *)
Definition tended_by (k : Z) dev dev' : Prop := exists dev1, tended dev dev1 /\ dev' = dev1 <| nUnlinkedFiles := nUnlinkedFiles dev + k |>.

(** The record of an object, with whatever is in a field that is not set. *)
Definition copy_of (o1 : yaffs_Object) (cpo : yaffs_CheckpointObject) : Prop := exists u, yaffs_ObjectToCheckpointObject (fun _ => u) om1 0 o1 = Some cpo.

Lemma copy_fields_kind cpo o : cpo_variantType cpo = variantType o ->
  let o' := copy_fields cpo o in
  (obj_objectId o', variantType o', deferedFree o', parent o') = (obj_objectId o, variantType o, deferedFree o, parent o) /\
  top (fileVariant o') = top (fileVariant o) /\ topLevel (fileVariant o') = topLevel (fileVariant o).
Proof using Type. intros E. unfold copy_fields. cbv zeta. simpl. rewrite E. destruct (variantType o); case_match; simpl; by rewrite ?E. Qed.

(** The fields that are copied are those of the record. *)
Lemma copy_fields_record om p o1 cpo o :
  copy_of o1 cpo -> obj_objectId o = obj_objectId o1 -> parent o = p ->
  (if truthy p then q ← objects om !! p; Some (obj_objectId q) else Some 0) = Some (cpo_parentId cpo) ->
  record_of om (copy_fields cpo o) = record_of om1 o1.
Proof using Type.
  intros (u & E) Ei Ep Hp. unfold record_of, yaffs_ObjectToCheckpointObject in *. destruct (if truthy (parent o1) then _ else _) as [pid|]; [|done]. cbn [mbind option_bind] in E |- *.
  injection E as <-. simpl in Hp. set (cpo := mk_cpo _ _ _ _ _ _ _ _ _ _ _ _ _ _).
  assert (parent (copy_fields cpo o) = p) as -> by (unfold copy_fields; simpl; repeat case_match; done). rewrite Hp. cbn [mbind option_bind]. f_equal.
  unfold copy_fields, cpo. simpl. destruct (variantType o1); simpl; destruct (0 <? hdrChunk o1); simpl; by rewrite Ei.
Qed.

Lemma update_same om a o f : objects om !! a = Some o -> f o = o -> update_object om a f = Some om.
Proof using Type. intros Ha Ef. rewrite (update_object_Some om a f o Ha), Ef, insert_id by done. by destruct om. Qed.

(** The object below another. *)
Lemma ToObject_parent dev m free om S done a o a1 o1 cpo p op :
  restoring dev m free om S done -> recorded a1 o1 -> a1 ∉ done -> copy_of o1 cpo -> parent o1 <> 0 ->
  objects om !! a = Some o -> obj_objectId o = obj_objectId o1 -> variantType o = variantType o1 ->
  p <> 0 -> objects om !! p = Some op -> variantType op = YAFFS_OBJECT_TYPE_DIRECTORY -> obj_objectId op = cpo_parentId cpo ->
  exists dev' om' o',
    ('(dev, om) ← yaffs_AddObjectToDirectory dev om p a; om ← update_object om a (copy_fields cpo); Some (true, dev, m, om)) = Some (true, dev', m, om') /\
    dev' = dev <| nUnlinkedFiles := nUnlinkedFiles dev + b2z (unlinked_number (cpo_parentId cpo)) |> /\
    restoring dev' m free om' S done /\ objects om' !! a = Some o' /\ obj_objectId o' = obj_objectId o1 /\ variantType o' = variantType o1 /\
    record_of om' o' = record_of om1 o1 /\ keeps_numbers om om' /\ freeObjects om' = freeObjects om.
Proof using Hsave.
  intros Hrs Hr Hnd Hcp Hp1 Ha Ei Et Hp0 Hp Hpd Epi. pose proof (rs_ok _ _ _ _ _ _ Hrs) as Hok.
  destruct (Add_spec dev om p a o Hp0 ltac:(by exists op) Ha) as (t & c & -> & C & At).
  { intros Hne. destruct (ob_parent _ _ Hok a o Ha Hne) as (q & Hq & _). by rewrite Hq. }
  cbn [mbind option_bind]. set (o2 := added_to om p (o <| children := c |>)) in *. rewrite (update_object_in om t a _ o2 At). cbn [mbind option_bind].
  assert (obj_objectId o2 = obj_objectId o /\ variantType o2 = variantType o /\ deferedFree o2 = deferedFree o /\ parent o2 = p /\ fileVariant o2 = fileVariant o) as (A1 & A2 & A3 & A4 & A5)
    by (unfold o2, added_to; by case_match).
  assert (cpo_variantType cpo = variantType o2) as Ect. { destruct Hcp as (u & E). unfold yaffs_ObjectToCheckpointObject in E. destruct (if truthy (parent o1) then _ else _); [|done]. injection E as <-. simpl. congruence. }
  destruct (copy_fields_kind cpo o2 Ect) as ([= K1 K2 K3 K4] & K5 & K6). set (o3 := copy_fields cpo o2) in *. set (t3 := <[a := o3]> t).
  assert (cores_but a (objects om) t3) as C3 by (eapply cores_trans; [exact C|]; by apply cores_insert).
  assert (t3 !! a = Some o3) as At3 by apply lookup_insert_eq.
  assert (restoring dev m free (om <| objects := t3 |>) S done) as Hrs3.
  { eapply (restoring_change dev m free om S done a t3 o o3); try done; [congruence|intros _; split; congruence|intros _; rewrite K4, A4; by exists op|].
    intros a2 o2' Hr2 E2. destruct (recorded_unique a1 a2 o1 o2' Hr Hr2) as [<- <-]; [congruence|]. by split. }
  exists (counted_in om p dev), (om <| objects := t3 |>), o3. split; [done|].
  assert (counted_in om p dev = dev <| nUnlinkedFiles := nUnlinkedFiles dev + b2z (unlinked_number (cpo_parentId cpo)) |>) as Ed.
  { unfold counted_in. rewrite (special_parent om p op (ob_table _ _ Hok) (rs_mounted _ _ _ _ _ _ Hrs) Hp), Epi. destruct (unlinked_number _); simpl; [done|]. rewrite Z.add_0_r. by destruct dev. }
  split; [exact Ed|]. split.
  { rewrite Ed. destruct Hrs3 as [R1 R2 R3 R4 R5 R6 R7]. constructor; try done.
    - by apply (pool_same dev).
    - intros b ob Hb. eapply origin_frame; [by apply (R5 b ob)|apply same_core_refl|done|by apply (pool_same dev)|apply transfers_refl; by eapply (list_to_set_dom dev)| |done].
      intros Hfb. by eapply file_apart; [by apply (R5 b ob)|]. }
  split; [done|]. split; [congruence|]. split; [congruence|]. split; [|split; [eapply (keeps_change a om t3 o o3); try done; congruence|done]].
  apply (copy_fields_record _ p); [done|congruence|done|]. unfold truthy. rewrite (proj2 (Z.eqb_neq p 0)) by done. cbn [negb].
  assert (is_Some (t3 !! p)) as [op' Hp'] by (apply elem_of_dom; rewrite (proj1 C3); by apply elem_of_dom_2 in Hp). change (objects (om <| objects := t3 |>)) with t3. rewrite Hp'. simpl. f_equal.
  rewrite <- Epi. destruct (decide (p = a)) as [->|Hne].
  - rewrite At3 in Hp'. injection Hp' as <-. rewrite Hp in Ha. injection Ha as <-. congruence.
  - destruct (proj2 C3 p op Hne Hp) as (op2 & Hop2 & Ec). rewrite Hp' in Hop2. injection Hop2 as <-. pose proof (core_fields _ _ Ec). congruence.
Qed.

(** What the record of an object says of its parent. *)
Lemma copy_parent a1 o1 cpo : recorded a1 o1 -> copy_of o1 cpo ->
  cpo_objectId cpo = obj_objectId o1 /\ cpo_variantType cpo = variantType o1 /\
  if parent o1 =? 0 then cpo_parentId cpo = 0
  else exists p1, recorded (parent o1) p1 /\ variantType p1 = YAFFS_OBJECT_TYPE_DIRECTORY /\ cpo_parentId cpo = obj_objectId p1 /\ 0 < obj_objectId p1 < 2 ^ 31.
Proof using Hsave.
  intros Hr (u & E). unfold yaffs_ObjectToCheckpointObject, truthy in E. destruct (Z.eqb_spec (parent o1) 0) as [E0|E0]; cbn [negb mbind option_bind] in E.
  - by injection E as <-.
  - destruct (sv_parent Hsave a1 o1 Hr E0) as (p1 & Hp1 & Hd). rewrite (proj1 Hp1) in E. cbn [mbind option_bind] in E. injection E as <-. split; [done|]. split; [done|].
    exists p1. split_and!; try done. all: by apply (tb_number _ (sv_table Hsave) (parent o1) p1 (proj1 Hp1)).
Qed.

Lemma same_core_eq o o' : same_core o o' -> obj_objectId o' = obj_objectId o /\ variantType o' = variantType o /\ fileVariant o' = fileVariant o /\ parent o' = parent o.
Proof using Type. intros E. pose proof (core_fields _ _ E). by split_and!; congruence. Qed.

(** The record is copied into the object, which goes below its parent. *)
Lemma ToObject_restoring dev m free om S done a o a1 o1 cpo nt no :
  restoring dev m free om S done -> recorded a1 o1 -> a1 ∉ done -> copy_of o1 cpo ->
  objects om !! a = Some o -> obj_objectId o = obj_objectId o1 -> variantType o = variantType o1 -> budget YMALLOC dev m free om nt (Datatypes.S no) ->
  exists dev' m' om' free' S' o', yaffs_CheckpointObjectToObject YMALLOC uninitialised dev m om a cpo = Some (true, dev', m', om') /\
    tended_by (below_unlinked om1 o1) dev dev' /\ restoring dev' m' free' om' S' done /\
    objects om' !! a = Some o' /\ obj_objectId o' = obj_objectId o1 /\ variantType o' = variantType o1 /\ record_of om' o' = record_of om1 o1 /\
    grown m m' /\ budget YMALLOC dev' m' free' om' nt no /\ keeps_numbers om om'.
Proof using Hsave Alloc.
  intros Hrs Hr Hnd Hcp Ha Ei Et Hb. destruct (copy_parent a1 o1 cpo Hr Hcp) as (E1 & E2 & Hpar). unfold yaffs_CheckpointObjectToObject. rewrite Ha. cbn [mbind option_bind].
  rewrite bool_decide_false by (rewrite E2, Et; by intros []). rewrite (update_same om a o) by (done || (rewrite E1, <- Ei; by destruct o)). cbn [mbind option_bind].
  unfold below_unlinked. destruct (Z.eqb_spec (parent o1) 0) as [Hp0|Hp0].
  - rewrite Hpar. cbn [truthy Z.eqb negb mbind option_bind].
    change (truthy 0) with false. cbn [mbind option_bind]. change (truthy 0) with false. cbv iota. rewrite (update_object_Some om a _ o Ha). cbn [mbind option_bind]. set (o' := copy_fields cpo o).
    destruct (copy_fields_kind cpo o ltac:(congruence)) as ([= K1 K2 K3 K4] & K5 & K6). fold o' in K1, K2, K3, K4, K5, K6. set (t := <[a := o']> (objects om)).
    assert (parent o = 0) as Hpo.
    { destruct (rs_origin _ _ _ _ _ _ Hrs a o Ha) as (a2 & o2 & Hr2 & Ei2 & _ & Hp2 & _). destruct (recorded_unique a1 a2 o1 o2 Hr Hr2) as [<- <-]; [congruence|]. by apply Hp2. }
    exists dev, m, (om <| objects := t |>), free, S, o'. split; [done|]. split; [exists dev; split; [apply tended_refl|by rewrite Z.add_0_r; destruct dev]|]. split.
    { eapply (restoring_change dev m free om S done a t o o'); try done; [by apply cores_insert|apply lookup_insert_eq|congruence|congruence|].
      intros a2 o2 Hr2 E. destruct (recorded_unique a1 a2 o1 o2 Hr Hr2) as [<- <-]; [congruence|]. split; [done|]. congruence. }
    split; [apply lookup_insert_eq|]. split; [congruence|]. split; [congruence|]. split; [|split; [by apply grown_same|split; [eapply budget_mono; [exact Hb|lia|lia]|]]].
    + apply (copy_fields_record _ 0); [done|done|done|]. by rewrite Hpar.
    + eapply (keeps_change a om t o o'); try done; [by apply cores_insert|apply lookup_insert_eq|congruence].
  - destruct Hpar as (p1 & Hrp & Hdir & Epid & Hpn). rewrite Epid. assert (truthy (obj_objectId p1) = true) as -> by (apply truthy_true; lia).
    destruct (FindOrCreate_restoring dev m free om S done (parent o1) p1 nt no Hrs Hrp) as (p & op & dev2 & m2 & om2 & free2 & S2 & E & Hpne & Hp & Epi & Ept & Hrs2 & T2 & G2 & Hb2 & Hkeep).
    { rewrite Hdir. exact Hb. }
    rewrite Hdir in E. rewrite E. cbn [mbind option_bind]. clear E. assert (truthy p = true) as -> by (by apply truthy_true). rewrite Hp. cbn [mbind option_bind].
    rewrite bool_decide_false by (rewrite Ept, Hdir; by intros []). destruct (Hkeep a o Ha) as (oa & Hoa & Ec). destruct (same_core_eq _ _ Ec) as (C1 & C2 & _).
    destruct (ToObject_parent dev2 m2 free2 om2 S2 done a oa a1 o1 cpo p op Hrs2 Hr Hnd Hcp Hp0 Hoa) as (dev3 & om3 & o3 & -> & Ed & Hrs3 & H3 & I3 & V3 & R3 & D3 & F3); try congruence.
    exists dev3, m2, om3, free2, S2, o3. split; [done|]. split.
    { exists dev2. split; [done|]. rewrite Ed, Epid, (proj1 Hrp). destruct T2 as (? & ? & ? & ? & ? & ->). done. }
    split_and!; try done.
    + unfold budget in *. assert (object_room om3 no = object_room om2 no) as -> by (unfold object_room; by rewrite F3). rewrite Ed. exact Hb2.
    + eapply numbers_trans; [by apply keeps_cores|done].
Qed.

(** The first directories are in the checkpoint, too. *)
Lemma restoring_fresh dev m free om :
  mounting dev m free om (initial_directories om) -> same_widths devW dev -> restoring dev m free om (fun _ => ∅) [].
Proof using Hsave.
  intros [Hok Hp [H1 H2]] Hw. assert (forall a n p, (a, n, p) ∈ initial_directories om -> has_number om a n) as Hnum by (intros a n p H; destruct (H2 a n p H) as (o & Ho & E & _); by exists o).
  assert (forall a o, objects om !! a = Some o -> variantType o = YAFFS_OBJECT_TYPE_FILE -> False) as Hnf by (intros a o Ho Ht; destruct (H1 a o Ho); congruence).
  constructor; try done.
  - constructor; eapply Hnum; [right; by left|by left|do 3 right; by left|do 2 right; by left].
  - intros a o Ho. destruct (H1 a o Ho) as [Ht Hin]. assert (obj_objectId o ∈ [YAFFS_OBJECTID_ROOT; YAFFS_OBJECTID_LOSTNFOUND; YAFFS_OBJECTID_UNLINKED; YAFFS_OBJECTID_DELETED] /\
      (obj_objectId o ∈ [YAFFS_OBJECTID_ROOT; YAFFS_OBJECTID_UNLINKED; YAFFS_OBJECTID_DELETED] -> parent o = 0)) as [Hid Hpo].
    { unfold initial_directories in Hin. rewrite !elem_of_cons, elem_of_nil in Hin. destruct Hin as [E|[E|[E|[E|[]]]]]; injection E as _ -> Ep; (split; [clear; set_solver|]); try done.
      intros Hx. apply (bool_decide_eq_true_2 _) in Hx. by vm_compute in Hx. }
    destruct (sv_dirs Hsave _ Hid) as (a1 & o1 & Hr & Ei & Et). exists a1, o1. split; [done|]. split; [done|]. split; [congruence|]. split; [|intros Hf; by destruct (Hnf a o Ho)].
    intros _ Hp1. apply Hpo. rewrite <- Ei. by apply (sv_top Hsave a1 o1 Hr).
  - by intros a1 o1 _ ?%elem_of_nil.
Qed.

(** Only what the tnodes need of the device matters. *)
Lemma restoring_same dev dev' m free om S done :
  same_widths dev dev' -> nFreeTnodes dev' = nFreeTnodes dev -> nTnodesCreated dev' = nTnodesCreated dev ->
  restoring dev m free om S done -> restoring dev' m free om S done.
Proof using Type.
  intros Hw' E1 E2 [Hw Hok Hp Hm Ho Ha Hd]. constructor; try done.
  - by eapply same_widths_trans.
  - by eapply pool_same.
  - intros a o Hao. destruct (Ho a o Hao) as (a1 & o1 & Hr & Ei & Et & Hp1 & Hf). exists a1, o1. split_and!; try done. intros Ht. by eapply file_same; [..|apply Hf].
Qed.

Lemma restoring_reread dev dev' m free om S done : reread dev dev' -> restoring dev m free om S done -> restoring dev' m free om S done.
Proof using Type. intros R. destruct (reread_loading _ _ R) as (L & _ & E1 & E2). by apply restoring_same; [apply loading_widths|..]. Qed.

(** The other objects do not depend on the record that is read. *)
Lemma origin_more dev m free done o s a1 o1 :
  origin dev m free done o s -> recorded a1 o1 -> obj_objectId o <> obj_objectId o1 -> origin dev m free (a1 :: done) o s.
Proof using Type.
  intros (a2 & o2 & Hr2 & Ei & Et & Hp2 & Hf) Hr Hne. assert (a2 <> a1) as Ha by (intros ->; destruct Hr, Hr2; congruence).
  exists a2, o2. split_and!; try done.
  - intros Hn. apply Hp2. by apply not_elem_of_cons in Hn as [_ Hn].
  - intros Ht. specialize (Hf Ht). unfold chunks_so_far in *. rewrite (bool_decide_ext (a2 ∈ (a1 :: done)) (a2 ∈ done)); [done|]. rewrite elem_of_cons. clear - Ha. naive_solver.
Qed.

Lemma record_file om o fs : fileSize fs = fileSize (fileVariant o) -> record_of om (o <| fileVariant := fs |>) = record_of om o.
Proof using Type. intros E. unfold record_of, yaffs_ObjectToCheckpointObject. simpl. by rewrite E. Qed.

(** The tnodes of the object at [a] have been read: its record is done. *)
Lemma restoring_read dev m free om S done dev' m' free' a o fs s' a1 o1 U U' :
  restoring dev m free om S done -> recorded a1 o1 -> objects om !! a = Some o -> obj_objectId o = obj_objectId o1 -> variantType o = variantType o1 ->
  record_of om o = record_of om1 o1 -> fileSize fs = fileSize (fileVariant o) -> same_widths dev dev' -> pool dev' m' free' -> grown m m' ->
  transfers (tnodes m) U (tnodes m') U' -> (forall b ob, b <> a -> objects om !! b = Some ob -> variantType ob = YAFFS_OBJECT_TYPE_FILE -> S b ## U) ->
  list_to_set free' ⊆ U' -> (variantType o = YAFFS_OBJECT_TYPE_FILE -> file_ok dev' m' free' fs s' (chunks_of o1) /\ s' ⊆ U') ->
  restoring dev' m' free' (om <| objects := <[a := o <| fileVariant := fs |>]> (objects om) |>) (fun b => if b =? a then s' else S b) (a1 :: done).
Proof using Hsave.
  intros [Hw Hok Hp Hm Ho Hap Hd] Hr Ha Ei Et Er Es Hw' Hp' G Ht HU Hfree Hfile. set (o' := o <| fileVariant := fs |>). set (t := <[a := o']> (objects om)).
  assert (cores_but a (objects om) t) as Hc by (by apply cores_insert).
  assert (t !! a = Some o') as Hta by apply lookup_insert_eq.
  assert (same_kind a (objects om) t) as Hk by (intros oa ob H1 H2; rewrite Ha in H1; rewrite Hta in H2; injection H1 as <-; by injection H2 as <-).
  assert (objects_ok m (om <| objects := t |>)) as Hok' by (eapply (objects_cores m om t a o o'); try done; intros Hpo; by apply (ob_parent _ _ Hok a o)).
  assert (forall x ox, objects om !! x = Some ox -> exists ox', t !! x = Some ox' /\ obj_objectId ox' = obj_objectId ox) as Hnum.
  { intros x ox Hx. destruct (kind_forward _ _ _ _ _ Hc Hk Hx) as (ox' & Hx' & E & _). by exists ox'. }
  assert (forall b ob, b <> a -> t !! b = Some ob -> objects om !! b = Some ob /\ (variantType ob = YAFFS_OBJECT_TYPE_FILE -> S b ## U')) as Hback.
  { intros b ob Hba Hb. unfold t in Hb. rewrite lookup_insert_ne in Hb by done. split; [done|]. intros Hft. destruct (file_apart _ _ _ _ _ _ (Ho b ob Hb) Hft) as [Hsd _].
    eapply transfers_disjoint; [exact Ht|done|]. by eapply HU. }
  constructor; try done; change (objects (om <| objects := t |>)) with t.
  - by eapply same_widths_trans.
  - eapply objects_memory; [done|]. intros x. by apply G.
  - destruct Hm. constructor; by apply (number_cores a om).
  - intros b ob Hb. destruct (Z.eqb_spec b a) as [->|Hne].
    + rewrite Hta in Hb. injection Hb as <-. exists a1, o1. split; [done|]. split; [done|]. split; [done|]. split; [intros Hn; by apply not_elem_of_cons in Hn as [? _]|].
      intros Hft. unfold chunks_so_far. rewrite bool_decide_true by (apply elem_of_cons; by left). by apply Hfile.
    + destruct (Hback b ob Hne Hb) as [Hob _]. eapply origin_more; [|exact Hr|].
      * eapply (origin_frame dev m free); [by apply (Ho b ob)|apply same_core_refl|done|done|exact Ht| |done]. intros Hft. by eapply HU.
      * intros E. apply Hne. eapply (tb_unique _ (ob_table _ _ Hok)); [done|done|]. congruence.
  - intros b c ob oc Hbc Hb Hcc Hfb Hfc. destruct (Z.eqb_spec b a) as [->|Hba], (Z.eqb_spec c a) as [->|Hca]; try done.
    + rewrite Hta in Hb. injection Hb as <-. pose proof (proj2 (Hback c oc Hca Hcc) Hfc) as H. pose proof (proj2 (Hfile Hfb)) as H'. clear - H H'. set_solver.
    + rewrite Hta in Hcc. injection Hcc as <-. pose proof (proj2 (Hback b ob Hba Hb) Hfb) as H. pose proof (proj2 (Hfile Hfc)) as H'. clear - H H'. set_solver.
    + apply (Hap b c ob oc); try done; by apply Hback.
  - intros a2 o2 Hr2 Hin. destruct (decide (a2 = a1)) as [->|Hne].
    + assert (o2 = o1) as -> by (destruct Hr, Hr2; congruence). exists a, o'. split; [done|]. split; [done|]. rewrite <- Er, <- (record_file om o fs Es).
      apply record_frame; [apply same_core_refl|]. intros Hpo. by eapply (parent_number m om (om <| objects := t |>) a o Hok).
    + apply elem_of_cons in Hin as [|Hin]; [done|]. destruct (Hd a2 o2 Hr2 Hin) as (b & ob & Hb & Eb & Erb).
      assert (b <> a) as Hba. { intros ->. rewrite Ha in Hb. injection Hb as <-. apply Hne. eapply (recorded_unique a2 a1 o2 o1 Hr2 Hr). congruence. }
      exists b, ob. split; [unfold t; by rewrite lookup_insert_ne|]. split; [done|]. rewrite <- Erb. apply record_frame; [apply same_core_refl|]. intros Hpo.
      by eapply (parent_number m om (om <| objects := t |>) b ob Hok).
Qed.

(** *** The stream of records *)

Section Stream.
Context `{!Pages mtd} (N B : Z) (nte : bool) (ops : nand_ops mtd) `{!PageStore N B nte ops} (localTags : yaffs_ExtendedTags) (padding unset : Z -> Z).

Abbreviation loaded := (loaded N B nte).

(** The tnodes that are written with an object. *)
Definition object_leaves (o1 : yaffs_Object) : list (Z * list Z) :=
  if bool_decide (variantType o1 = YAFFS_OBJECT_TYPE_FILE) then file_leaves m1 (fileVariant o1) else [].

Definition variant_data (o1 : yaffs_Object) : list Z :=
  if bool_decide (variantType o1 = YAFFS_OBJECT_TYPE_FILE) then tnodes_bytes (file_leaves m1 (fileVariant o1)) else [].

Definition is_link (o1 : yaffs_Object) : bool := bool_decide (variantType o1 = YAFFS_OBJECT_TYPE_HARDLINK).

(** The step of the device while one record is read. *)
Definition moved_on (k : Z) dev dev' : Prop := loading dev dev' /\ nUnlinkedFiles dev' = nUnlinkedFiles dev + k.

Lemma moved_on_trans k k' dev dev' dev'' : moved_on k dev dev' -> moved_on k' dev' dev'' -> moved_on (k + k') dev dev''.
Proof. intros [L E] [L' E']. split; [by eapply loading_trans|lia]. Qed.

Lemma moved_on_reread dev dev' : reread dev dev' -> moved_on 0 dev dev'.
Proof. intros R. destruct (reread_loading _ _ R) as (L & U & _). split; [done|lia]. Qed.

Lemma moved_on_tended k dev dev' : tended_by k dev dev' -> moved_on k dev dev' /\ stream_fields dev' = stream_fields dev.
Proof.
  intros (dev1 & (a & b & c & d & e & ->) & ->). split; [|done]. split; [|done].
  exists (genericDevice dev), (spareBuffer dev), (nPageReads dev), (blocksInCheckpoint dev), a, b, c, d, e, (nUnlinkedFiles dev + k). by destruct dev.
Qed.

Lemma read_variant_spec fuel dev cp m free om S done a o a1 o1 hl bs ps st rest nt no :
  restoring dev m free om S done -> recorded a1 o1 -> a1 ∉ done -> objects om !! a = Some o ->
  obj_objectId o = obj_objectId o1 -> variantType o = variantType o1 -> record_of om o = record_of om1 o1 ->
  loaded dev cp bs ps st (variant_data o1 ++ rest) -> Forall (leaf_fits devW) (object_leaves o1) -> (length (object_leaves o1) < fuel)%nat ->
  budget YMALLOC dev m free om (13 * length (object_leaves o1) + nt) no ->
  exists dev' cp' m' om' free' S',
    read_variant ops localTags YMALLOC uninitialised fuel dev cp m om a hl = Some (true, dev', cp', m', om', if is_link o1 then a :: hl else hl) /\
    loaded dev' cp' bs ps (st ++ variant_data o1) rest /\ restoring dev' m' free' om' S' (a1 :: done) /\ moved_on 0 dev dev' /\
    budget YMALLOC dev' m' free' om' nt no /\ keeps_numbers om om'.
Proof using Hsave Alloc PageStore0.
  intros Hrs Hr Hnd Ha Ei Et Er Hl Hls Hfuel Hb. unfold read_variant, variant_data, object_leaves, is_link in *. rewrite Ha. cbn [mbind option_bind]. rewrite <- Et in *.
  case_bool_decide as Hft.
  - rewrite Hft. rewrite bool_decide_false by done. destruct (rs_origin _ _ _ _ _ _ Hrs a o Ha) as (a2 & o2 & Hr2 & Ei2 & _ & _ & Hf). specialize (Hf Hft).
    destruct (recorded_unique a1 a2 o1 o2 Hr Hr2) as [<- <-]; [congruence|]. unfold chunks_so_far in Hf. rewrite bool_decide_false in Hf by done.
    pose proof (rs_widths _ _ _ _ _ _ Hrs) as Hw.
    destruct (ReadTnodes_spec N B nte ops localTags YMALLOC uninitialised bs ps (file_leaves m1 (fileVariant o1)) fuel dev cp m free (fileVariant o) (S a) _ st rest (object_room om no) Hl Hf)
      as (dev' & cp' & m' & p & l & free' & s' & E & Hl' & Hf' & L & U & T & Sp); [by eapply leaf_fits_widths|eapply enough_mono; [exact Hb|lia]|done|].
    rewrite E. cbn [mbind option_bind]. clear E. rewrite (update_object_Some om a _ o Ha). cbn [mbind option_bind]. set (fs := (fileVariant o) <| top := p |> <| topLevel := l |>) in *.
    eexists dev', cp', m', _, free', _. split; [done|]. split; [done|]. split; [|split; [split; [done|lia]|split]].
    + eapply (restoring_read dev m free om S done dev' m' free' a o fs s' a1 o1 (S a ∪ list_to_set free) (s' ∪ list_to_set free')); try done.
      * by apply loading_widths.
      * apply Hf'.
      * apply Sp.
      * intros b ob Hba Hob Hfb. pose proof (rs_apart _ _ _ _ _ _ Hrs b a ob o Hba Hob Ha Hfb Hft) as H1. destruct (file_apart _ _ _ _ _ _ (rs_origin _ _ _ _ _ _ Hrs b ob Hob) Hfb) as [_ H2].
        clear - H1 H2. set_solver.
      * clear. set_solver.
      * intros _. split; [|clear; set_solver]. eapply file_ext; [|exact Hf']. intros j. symmetry. by apply with_leaves_geometry.
    + by apply (proj1 Sp).
    + apply (keeps_change a om _ o (o <| fileVariant := fs |>)); [by apply cores_insert|done|apply lookup_insert_eq|done].
  - assert (restoring dev m free om (fun b => if b =? a then S a else S b) (a1 :: done)) as Hrs'.
    { pose proof (rs_pool _ _ _ _ _ _ Hrs) as Hp.
      pose proof (restoring_read dev m free om S done dev m free a o (fileVariant o) (S a) a1 o1 (list_to_set free) (list_to_set free) Hrs Hr Ha Ei Et Er eq_refl
        (same_widths_refl dev) Hp ltac:(by apply grown_same) ltac:(apply transfers_refl; by eapply list_to_set_dom)) as H.
      assert (om <| objects := <[a := o <| fileVariant := fileVariant o |>]> (objects om) |> = om) as E.
      { replace (o <| fileVariant := fileVariant o |>) with o by (by destruct o). rewrite insert_id by done. by destruct om. }
      rewrite E in H. apply H; try done. intros b ob _ Hob Hfb. by destruct (file_apart _ _ _ _ _ _ (rs_origin _ _ _ _ _ _ Hrs b ob Hob) Hfb). }
    exists dev, cp, m, om, free, (fun b => if b =? a then S a else S b). rewrite app_nil_r. split; [|split; [done|split; [done|]]].
    + destruct (variantType o) eqn:Eo; rewrite ?bool_decide_false by done; rewrite ?bool_decide_true by done; done.
    + split; [by apply moved_on_reread, reread_refl|]. split; [done|by intros ? ?].
Qed.

(** The fields of an object, within what their widths hold. *)
Record object_fits (o1 : yaffs_Object) : Prop := {
  of_header : in_int (hdrChunk o1);
  of_serial : in_w 8 (serial o1);
  of_chunks : in_int (nDataChunks o1);
  of_size : variantType o1 = YAFFS_OBJECT_TYPE_FILE -> in_w 32 (fileSize (fileVariant o1));
  of_link : variantType o1 = YAFFS_OBJECT_TYPE_HARDLINK -> in_w 32 (equivalentObjectId o1);
  of_leaves : Forall (leaf_fits devW) (object_leaves o1)
}.

Lemma object_record a1 o1 : recorded a1 o1 -> object_fits o1 ->
  exists cpo, object_data padding unset m1 om1 a1 = cpo_bytes (padding a1) cpo ++ variant_data o1 /\ cpo_fits cpo /\
    copy_of o1 (cpo <| cpo_fileSizeOrEquivalentObjectId ::= u32 |>) /\ cpo_objectId cpo = obj_objectId o1 /\ cpo_variantType cpo = variantType o1.
Proof using Hsave.
  intros Hr Hfit. unfold object_data. rewrite (proj1 Hr). unfold copy_of, yaffs_ObjectToCheckpointObject.
  assert (exists n, (if truthy (parent o1) then p ← objects om1 !! parent o1; Some (obj_objectId p) else Some 0) = Some n /\ 0 <= n < 2 ^ 31) as (n & -> & Hn).
  { unfold truthy. destruct (Z.eqb_spec (parent o1) 0) as [E|E]; cbn [negb]; [by exists 0|]. destruct (sv_parent Hsave a1 o1 Hr E) as (p & [Hp _] & _). rewrite Hp. simpl. eexists. split; [done|].
    pose proof (tb_number _ (sv_table Hsave) _ p Hp). unfold number_ok in *. lia. }
  cbn [mbind option_bind]. eexists. split; [done|]. pose proof (tb_number _ (sv_table Hsave) a1 o1 (proj1 Hr)) as Hid. unfold number_ok in Hid. split; [|split; [|done]].
  - destruct Hfit. constructor; try done; unfold in_w; simpl; lia.
  - exists (u32 (unset a1)). f_equal. destruct Hfit as [_ _ _ Hs Hk _]. destruct (variantType o1); try done; [rewrite <- (u32_small _ (Hs eq_refl)) at 1|rewrite <- (u32_small _ (Hk eq_refl)) at 1]; done.
Qed.

(** The hard links among the records that have been read are in the list. *)
Definition links om (hl done : list Z) : Prop :=
  (forall a, a ∈ hl -> exists n, has_number om a n) /\
  forall a1 o1, recorded a1 o1 -> a1 ∈ done -> is_link o1 = true -> exists a, a ∈ hl /\ has_number om a (obj_objectId o1).

Lemma links_more om om' hl done a a1 o1 :
  links om hl done -> keeps_numbers om om' -> recorded a1 o1 -> has_number om' a (obj_objectId o1) -> links om' (if is_link o1 then a :: hl else hl) (a1 :: done).
Proof using Type.
  intros [H1 H2] Hk Hr Ha. assert (links om' hl done) as [K1 K2].
  { split; [intros b Hb; destruct (H1 b Hb) as [n Hn]; exists n; by apply Hk|]. intros a2 o2 Hr2 Hin Hl. destruct (H2 a2 o2 Hr2 Hin Hl) as (b & Hb & Hn). exists b. split; [done|by apply Hk]. }
  split.
  - intros b Hb. destruct (is_link o1); [|by apply K1]. apply elem_of_cons in Hb as [->|Hb]; [by eexists|by apply K1].
  - intros a2 o2 Hr2 Hin Hl. apply elem_of_cons in Hin as [->|Hin].
    + assert (o2 = o1) as -> by (destruct Hr, Hr2; congruence). rewrite Hl. exists a. split; [apply elem_of_cons; by left|done].
    + destruct (K2 a2 o2 Hr2 Hin Hl) as (b & Hb & Hn). exists b. split; [|done]. destruct (is_link o1); [apply elem_of_cons; by right|done].
Qed.

(** The tnodes that the object of a record needs. *)
Definition tnode_cost (o1 : yaffs_Object) : nat := file_tnodes (variantType o1) + 13 * length (object_leaves o1).

(** One round of the loop. *)
Lemma read_object_spec fuel dev cp m free om S done a1 o1 hl bs ps st rest nt no :
  restoring dev m free om S done -> recorded a1 o1 -> object_fits o1 -> a1 ∉ done -> links om hl done ->
  loaded dev cp bs ps st (object_data padding unset m1 om1 a1 ++ rest) -> (length (object_leaves o1) < fuel)%nat ->
  budget YMALLOC dev m free om (tnode_cost o1 + nt) (2 + no) ->
  exists dev' cp' m' om' free' S' hl',
    read_objects_loop ops localTags YMALLOC uninitialised (Datatypes.S fuel) dev cp m om hl = read_objects_loop ops localTags YMALLOC uninitialised fuel dev' cp' m' om' hl' /\
    loaded dev' cp' bs ps (st ++ object_data padding unset m1 om1 a1) rest /\ restoring dev' m' free' om' S' (a1 :: done) /\ links om' hl' (a1 :: done) /\
    moved_on (below_unlinked om1 o1) dev dev' /\ budget YMALLOC dev' m' free' om' nt no.
Proof using Hsave Alloc PageStore0.
  intros Hrs Hr Hfit Hnd Hlk Hl Hfuel Hb. destruct (object_record a1 o1 Hr Hfit) as (cpo & E0 & Hcf & Hcp & Eid & Ety). rewrite E0 in *. clear E0. pose proof (tb_number _ (sv_table Hsave) a1 o1 (proj1 Hr)) as Hid.
  rewrite <- app_assoc in Hl. destruct (Read_spec N B nte ops localTags dev cp bs ps st _ _ Hl) as (dev1 & cp1 & E & R1 & Hl1). rewrite blen_cpo in E.
  cbn [read_objects_loop]. rewrite E. cbn [mbind option_bind]. rewrite Z.eqb_refl, cpo_roundtrip by done. clear E.
  assert (stored_int (cpo_bytes (padding a1) cpo) 0 = sizeof_yaffs_CheckpointObject) as ->.
  { assert (in_int (cpo_structType cpo)) by (by rewrite (cfits_type _ Hcf)). unfold cpo_bytes. read_words. apply Hcf. }
  rewrite Z.eqb_refl. cbn [negb orb]. assert (stored_word (cpo_bytes (padding a1) cpo) 1 = obj_objectId o1) as ->.
  { unfold cpo_bytes. read_words. rewrite Eid. apply u32_small. unfold number_ok, in_w in *. lia. }
  unfold number_ok in Hid. rewrite (proj2 (Z.eqb_neq _ (u32 (-1)))) by (change (u32 (-1)) with 0xFFFFFFFF; lia). cbn [mbind option_bind].
  set (cpo' := cpo <| cpo_fileSizeOrEquivalentObjectId ::= u32 |>) in *. change (cpo_objectId cpo') with (cpo_objectId cpo). change (cpo_variantType cpo') with (cpo_variantType cpo). rewrite Eid, Ety.
  destruct (reread_loading _ _ R1) as (L1 & U1 & _). pose proof (restoring_reread _ _ _ _ _ _ _ R1 Hrs) as Hrs1.
  destruct (FindOrCreate_restoring dev1 m free om S done a1 o1 (13 * length (object_leaves o1) + nt) (1 + no) Hrs1 Hr) as (a & o & dev2 & m2 & om2 & free2 & S2 & E & Ha0 & Ha & Ei & Et & Hrs2 & T2 & G2 & Hb2 & Hk2).
  { pose proof (spends_reread YMALLOC dev dev1 m free R1) as [Hs _]. apply Hs. unfold tnode_cost in Hb. by rewrite <- Nat.add_assoc in Hb. }
  rewrite E. cbn [mbind option_bind]. clear E. assert (truthy a = true) as -> by (by apply truthy_true).
  destruct (ToObject_restoring dev2 m2 free2 om2 S2 done a o a1 o1 cpo' (13 * length (object_leaves o1) + nt) no Hrs2 Hr Hnd Hcp Ha Ei Et Hb2)
    as (dev3 & m3 & om3 & free3 & S3 & o3 & E & T3 & Hrs3 & Ha3 & Ei3 & Et3 & Er3 & G3 & Hb3 & Hk3).
  rewrite E. cbn [mbind option_bind]. clear E. destruct (moved_on_tended 0 dev1 dev2) as [A2 F2]. { exists dev2. split; [done|]. destruct T2 as (? & ? & ? & ? & ? & ->). simpl. by rewrite Z.add_0_r; destruct dev1. }
  destruct (moved_on_tended _ _ _ T3) as [A3 F3].
  destruct (read_variant_spec fuel dev3 cp1 m3 free3 om3 S3 done a o3 a1 o1 hl bs ps (st ++ cpo_bytes (padding a1) cpo) rest nt no Hrs3 Hr Hnd Ha3 Ei3 Et3 Er3)
    as (dev4 & cp4 & m4 & om4 & free4 & S4 & E & Hl4 & Hrs4 & A4 & Hb4 & Hk4); try done.
  { apply (loaded_fields N B nte dev1); [congruence|done]. } { apply Hfit. }
  rewrite E. cbn [mbind option_bind]. clear E. eexists dev4, cp4, m4, om4, free4, S4, _. split; [done|]. split; [by rewrite app_assoc|]. split; [done|]. split; [|split; [|done]].
  - apply (links_more om); [done| |done|apply Hk4; by exists o3]. eapply numbers_trans; [by apply keeps_cores|]. by eapply numbers_trans.
  - replace (below_unlinked om1 o1) with (0 + (0 + (below_unlinked om1 o1 + 0))) by lia. eapply moved_on_trans; [by apply moved_on_reread|]. eapply moved_on_trans; [done|]. by eapply moved_on_trans.
Qed.

(** What the records [L] need, and how many of their objects are below the special directories. *)
Definition of_record {A} (f : yaffs_Object -> A) (d : A) (a1 : Z) : A := match objects om1 !! a1 with Some o1 => f o1 | None => d end.

Definition tnodes_needed (L : list Z) : nat := sum_list (of_record tnode_cost 0%nat <$> L).
Definition rounds_needed (L : list Z) : nat := length L + sum_list (of_record (fun o1 => length (object_leaves o1)) 0%nat <$> L).
Definition unlinked_objects (L : list Z) : Z := foldr Z.add 0 (of_record (below_unlinked om1) 0 <$> L).

Lemma of_record_at {A} (f : yaffs_Object -> A) d a1 o1 : recorded a1 o1 -> of_record f d a1 = f o1.
Proof using Type. intros [E _]. unfold of_record. by rewrite E. Qed.

Lemma read_end dev cp bs ps st rest : loaded dev cp bs ps st (end_of_objects ++ rest) ->
  exists dev' cp', (forall fuel m om hl, read_objects_loop ops localTags YMALLOC uninitialised (Datatypes.S fuel) dev cp m om hl = Some (true, dev', cp', m, om, hl)) /\
    reread dev dev' /\ loaded dev' cp' bs ps (st ++ end_of_objects) rest.
Proof using PageStore0.
  intros Hl. destruct (Read_spec N B nte ops localTags dev cp bs ps st _ _ Hl) as (dev1 & cp1 & E & R & Hl1). change (blen end_of_objects) with sizeof_yaffs_CheckpointObject in E.
  exists dev1, cp1. split; [|done]. intros fuel m om hl. cbn [read_objects_loop]. rewrite E. cbn [mbind option_bind]. done.
Qed.

Lemma read_objects_loop_spec bs ps rest L : forall fuel dev cp m free om S done hl st no,
  restoring dev m free om S done -> (forall a1, a1 ∈ L -> exists o1, recorded a1 o1 /\ object_fits o1) -> NoDup L -> (forall a1, a1 ∈ L -> a1 ∉ done) -> links om hl done ->
  loaded dev cp bs ps st (concat (object_data padding unset m1 om1 <$> L) ++ end_of_objects ++ rest) -> (rounds_needed L < fuel)%nat ->
  budget YMALLOC dev m free om (tnodes_needed L) (2 * length L + no) ->
  exists dev' cp' m' om' free' S' hl',
    read_objects_loop ops localTags YMALLOC uninitialised fuel dev cp m om hl = Some (true, dev', cp', m', om', hl') /\
    loaded dev' cp' bs ps (st ++ concat (object_data padding unset m1 om1 <$> L) ++ end_of_objects) rest /\
    restoring dev' m' free' om' S' (rev_append L done) /\ links om' hl' (rev_append L done) /\ moved_on (unlinked_objects L) dev dev'.
Proof using Hsave Alloc PageStore0.
  induction L as [|a1 L IH]; intros fuel dev cp m free om S done hl st no Hrs HL Hnd Hdis Hlk Hl Hfuel Hb; (destruct fuel as [|fuel]; [unfold rounds_needed in Hfuel; lia|]).
  - destruct (read_end dev cp bs ps st rest Hl) as (dev1 & cp1 & E & R & Hl1). rewrite E. exists dev1, cp1, m, om, free, S, hl. split; [done|]. split; [done|].
    split; [by eapply restoring_reread|]. split; [done|by apply moved_on_reread].
  - destruct (HL a1) as (o1 & Hr & Hfit); [apply elem_of_cons; by left|]. apply NoDup_cons in Hnd as [Hn Hnd]. cbn [fmap list_fmap concat] in Hl. rewrite <- app_assoc in Hl.
    unfold rounds_needed, tnodes_needed in *. cbn [fmap list_fmap sum_list_with id length] in Hfuel, Hb. rewrite (of_record_at _ _ a1 o1 Hr) in Hfuel. rewrite (of_record_at _ _ a1 o1 Hr) in Hb.
    destruct (read_object_spec fuel dev cp m free om S done a1 o1 hl bs ps st _ (tnodes_needed L) (2 * length L + no) Hrs Hr Hfit ltac:(apply Hdis, elem_of_cons; by left) Hlk Hl)
      as (dev1 & cp1 & m2 & om2 & free2 & S2 & hl2 & -> & Hl2 & Hrs2 & Hlk2 & A2 & Hb2); [lia|by replace (2 + (2 * length L + no))%nat with (2 * Datatypes.S (length L) + no)%nat by lia|].
    destruct (IH fuel dev1 cp1 m2 free2 om2 S2 (a1 :: done) hl2 (st ++ object_data padding unset m1 om1 a1) no Hrs2) as (dev' & cp' & m' & om' & free' & S' & hl' & -> & Hl' & Hrs' & Hlk' & A'); try done.
    + intros b Hb'. apply HL, elem_of_cons. by right.
    + intros b Hb'. apply not_elem_of_cons. split; [by intros ->|]. apply Hdis, elem_of_cons. by right.
    + lia.
    + exists dev', cp', m', om', free', S', hl'. split; [done|]. split; [|split; [done|split; [done|]]].
      * cbn [fmap list_fmap concat]. by rewrite <- !app_assoc in *.
      * unfold unlinked_objects. cbn [fmap list_fmap foldr]. rewrite (of_record_at _ _ a1 o1 Hr). by eapply moved_on_trans.
Qed.

(** *** All the objects *)

(** Every object that was saved is there, with the same record and the same chunks, and every hard link is linked; there are no others. *)
Record restored dev m free om : Prop := {
  rd_table : table om;
  rd_objects : forall a1 o1, recorded a1 o1 -> exists a o s, yaffs_FindObjectByNumber om (obj_objectId o1) = Some a /\ objects om !! a = Some o /\
    record_of om o = record_of om1 o1 /\
    (variantType o1 = YAFFS_OBJECT_TYPE_FILE -> file_ok dev m free (fileVariant o) s (chunks_of o1)) /\
    (is_link o1 = true -> yaffs_FindObjectByNumber om (equivalentObjectId o1) = Some (equivalentObject o));
  rd_only : forall a o, objects om !! a = Some o -> exists a1 o1, recorded a1 o1 /\ obj_objectId o = obj_objectId o1
}.

Lemma restored_same dev dev' m free om :
  same_widths dev dev' -> nFreeTnodes dev' = nFreeTnodes dev -> nTnodesCreated dev' = nTnodesCreated dev -> restored dev m free om -> restored dev' m free om.
Proof using Type.
  intros Hw E1 E2 [H1 H2 H3]. constructor; try done. intros a1 o1 Hr. destruct (H2 a1 o1 Hr) as (a & o & s & Hf & Ha & Er & Hfile & Hl).
  exists a, o, s. split_and!; try done. intros Ht. by eapply file_same; [..|apply Hfile].
Qed.

Lemma record_fields om o o1 : is_Some (record_of om1 o1) -> record_of om o = record_of om1 o1 ->
  obj_objectId o = obj_objectId o1 /\ variantType o = variantType o1 /\ (is_link o1 = true -> equivalentObjectId o = equivalentObjectId o1).
Proof using Type.
  unfold record_of, yaffs_ObjectToCheckpointObject. intros [r E] E'. rewrite E in E'. destruct (if truthy (parent o1) then _ else _) as [n|]; [|done].
  destruct (if truthy (parent o) then _ else _) as [n'|]; [|done]. cbn [mbind option_bind] in E, E'. rewrite <- E in E'. clear E r.
  pose proof (f_equal (fmap cpo_objectId) E') as E1. pose proof (f_equal (fmap cpo_variantType) E') as E2. pose proof (f_equal (fmap cpo_fileSizeOrEquivalentObjectId) E') as E3.
  injection E1 as E1. injection E2 as E2. split; [done|]. split; [done|]. unfold is_link. intros Hl%bool_decide_eq_true. rewrite E2, Hl in E3. by injection E3.
Qed.

(** The list of the hard links is worked off after all the records have been read. *)
Lemma restored_links dev m free om S done hl :
  restoring dev m free om S done -> (forall a1 o1, recorded a1 o1 -> a1 ∈ done) -> links om hl done ->
  exists om', yaffs_HardlinkFixup om hl = Some om' /\ restored dev m free om'.
Proof using Hsave.
  intros [Hw Hok Hp Hm Ho Hap Hd] Hall [Hl1 Hl2]. pose proof (ob_table _ _ Hok) as Ht.
  destruct (HardlinkFixup_spec hl om Ht) as (t & -> & Hc & Hq). { intros a Ha. destruct (Hl1 a Ha) as (n & o & Hao & _). by rewrite Hao. }
  exists (om <| objects := t |>). split; [done|]. constructor; [by apply table_same| |].
  - intros a1 o1 Hr. destruct (Hd a1 o1 Hr (Hall a1 o1 Hr)) as (a & o & Ha & Ei & Er). destruct (same_cores_lookup _ _ _ _ Hc Ha) as (o' & Ha' & Ec).
    assert (is_Some (record_of om1 o1)) as Hs.
    { destruct (record_exists (fun _ => 0) om1 0 o1) as [r Hx]; [|by exists r]. intros Hpo. destruct (sv_parent Hsave a1 o1 Hr Hpo) as (p1 & [Hp1 _] & _). by exists p1. }
    destruct (record_fields om o o1 Hs Er) as (_ & Et & El). exists a, o', (S a). rewrite !Find_cores by done. split; [rewrite <- Ei; by apply Find_found, (ob_live _ _ Hok a)|]. split; [done|]. split; [|split].
    + rewrite <- Er. apply record_frame; [done|]. intros Hpo. eapply (parent_number m om (om <| objects := t |>) a o Hok); try done.
      intros x ox Hx. destruct (same_cores_lookup _ _ _ _ Hc Hx) as (ox' & Hx' & E). exists ox'. split; [done|]. pose proof (core_fields _ _ E). congruence.
    + intros Hft. destruct (Ho a o Ha) as (a2 & o2 & Hr2 & Ei2 & _ & _ & Hf). destruct (recorded_unique a1 a2 o1 o2 Hr Hr2) as [<- <-]; [congruence|].
      assert (fileVariant o' = fileVariant o) as -> by (pose proof (core_fields _ _ Ec); congruence). unfold chunks_so_far in Hf. rewrite bool_decide_true in Hf by (by apply (Hall a1 o1)). apply Hf. congruence.
    + intros Hlk. destruct (Hl2 a1 o1 Hr (Hall a1 o1 Hr) Hlk) as (b & Hb & ob & Hob & Eb). assert (b = a) as -> by (eapply (tb_unique _ Ht); [done|done|congruence]).
      specialize (Hq a o o' Ha Ha'). rewrite bool_decide_true in Hq by done. by rewrite <- El.
  - intros a o' Ha'. destruct (same_cores_back _ _ _ _ Hc Ha') as (o & Ha & Ec). destruct (Ho a o Ha) as (a1 & o1 & Hr & Ei & _). exists a1, o1. split; [done|].
    pose proof (core_fields _ _ Ec). congruence.
Qed.

Lemma live_recorded a1 : a1 ∈ live_objects om1 <-> exists o1, recorded a1 o1.
Proof using Hsave.
  unfold live_objects, in_use, recorded. rewrite list_elem_of_filter. split.
  - intros [Hu _]. destruct (objects om1 !! a1) as [o1|]; [|done]. exists o1. by destruct (deferedFree o1).
  - intros (o1 & Ho & Hd). rewrite Ho, Hd. split; [done|]. destruct (tb_hashed _ (sv_table Hsave) a1 o1 Ho) as (b & Hb & Hin). apply list_elem_of_In, in_concat.
    exists (bucket_list b). split; [|by apply list_elem_of_In]. apply list_elem_of_In, list_elem_of_fmap. exists b. split; [done|]. by apply list_elem_of_lookup_2 in Hb.
Qed.

Lemma ReadObjects_spec fuel dev cp m free om S bs ps st rest no :
  restoring dev m free om S [] -> (forall a1 o1, recorded a1 o1 -> object_fits o1) ->
  loaded dev cp bs ps st (objects_data padding unset m1 om1 ++ rest) -> (rounds_needed (live_objects om1) < fuel)%nat ->
  budget YMALLOC dev m free om (tnodes_needed (live_objects om1)) (2 * length (live_objects om1) + no) ->
  exists dev' cp' m' om' free', yaffs_ReadCheckpointObjects ops localTags YMALLOC uninitialised fuel dev cp m om = Some (true, dev', cp', m', om') /\
    loaded dev' cp' bs ps (st ++ objects_data padding unset m1 om1) rest /\ restored dev' m' free' om' /\ moved_on (unlinked_objects (live_objects om1)) dev dev'.
Proof using Hsave Alloc PageStore0.
  intros Hrs Hfit Hl Hfuel Hb. unfold yaffs_ReadCheckpointObjects, objects_data in *. rewrite <- app_assoc in Hl.
  destruct (read_objects_loop_spec bs ps rest (live_objects om1) fuel dev cp m free om S [] [] st no Hrs) as (dev' & cp' & m' & om' & free' & S' & hl & -> & Hl' & Hrs' & Hlk & A); try done.
  - intros a1 [o1 Hr]%live_recorded. exists o1. split; [done|by eapply Hfit].
  - apply NoDup_filter, Hsave.
  - intros a1 _. apply not_elem_of_nil.
  - split; [by intros a ?%elem_of_nil|by intros a1 o1 _ ?%elem_of_nil].
  - cbn [mbind option_bind]. destruct (restored_links dev' m' free' om' S' _ hl Hrs') as (om2 & -> & Hrd); [|done|].
    + intros a1 o1 Hr. rewrite rev_append_rev, app_nil_r. apply list_elem_of_In, in_rev. rewrite rev_involutive. apply list_elem_of_In, live_recorded. by exists o1.
    + cbn [mbind option_bind]. by exists dev', cp', m', om2, free'.
Qed.

End Stream.

End Reading.
