(* ===== verification/YaffsCheckpointWhole.v ===== *)
(** * The whole checkpoint

    yaffs_WriteCheckpointData writes the markers, the device, the objects and the checksum, and
    yaffs_ReadCheckpointData takes them into a file system that has just been mounted. *)

From stdpp Require Import list.
From S2P Require Import Prelude NandEcc NandEccFacts YaffsTags YaffsTagsFacts YaffsNand.
From S2P Require Import YaffsBlocks YaffsBlocksFacts YaffsBlocksOps YaffsTnodes YaffsTnodesFacts YaffsTnodesPool YaffsTnodesTree YaffsTnodesAdd YaffsTnodesPlug.
From S2P Require Import YaffsObjects YaffsObjectsFacts YaffsObjectsMount YaffsCheckpoint YaffsCheckpointFacts YaffsCheckpointStream.
From S2P Require Import YaffsCheckpointData YaffsCheckpointDevice YaffsCheckpointTnodes YaffsCheckpointObjects.

Local Open Scope Z_scope.

Section Whole.
Context {mtd : Type} `{!Pages mtd} (N B : Z) (nte : bool) (ops : nand_ops mtd) `{!PageStore N B nte ops}.
Context (localTags : yaffs_ExtendedTags) (YMALLOC_DMA YMALLOC_ints : Z -> option (list Z)).
Context (YMALLOC : tnode_memory -> Z -> Z) {Alloc : Allocator YMALLOC} (uninitialised : Z -> Z) (padding unset : Z -> Z).
Implicit Types (dev : yaffs_Device mtd) (cp : checkpoint) (m : tnode_memory) (om : object_memory) (free : list Z).

(** ** Saving *)

(** What is written, when the bytes [infos] are written for the blocks. *)
Definition contents dev (infos : list Z) m om : list Z :=
  validity_bytes true ++ device_bytes dev infos ++ objects_data padding unset m om ++ validity_bytes false.

Definition image dev (infos : list Z) m om : list Z := contents dev infos m om ++ le_bytes 4 (sum_of (contents dev infos m om)).

Definition checkpoint_size dev m om : Z :=
  76 + 8 * Z.of_nat (length (blockInfo dev)) + blen (chunkBits dev) + blen (objects_data padding unset m om).

Lemma validity_length head : blen (validity_bytes head) = 16.
Proof. by destruct head. Qed.

Lemma image_length dev infos m om : length infos = (8 * length (blockInfo dev))%nat -> blen (image dev infos m om) = checkpoint_size dev m om.
Proof.
  intros E. unfold image, contents, device_bytes, checkpoint_size. rewrite !blen_app, blen_le_bytes, !validity_length, blen_cpd. unfold blen at 1. rewrite E.
  unfold sizeof_yaffs_CheckpointDevice. lia.
Qed.

Lemma erased_file dev dev' m free fs s f : erased_since dev dev' -> file_ok dev m free fs s f -> file_ok dev' m free fs s f.
Proof. intros (md & e & g & n & b & l & -> & _) Hf. by eapply file_same; [..|exact Hf]. Qed.

Lemma rewritten_file dev dev' m free fs s f : rewritten dev dev' -> file_ok dev m free fs s f -> file_ok dev' m free fs s f.
Proof. intros (md & n & b & l & -> & _) Hf. by eapply file_same; [..|exact Hf]. Qed.

Lemma rewritten_device dev dev' infos : rewritten dev dev' -> device_bytes dev' infos = device_bytes dev infos.
Proof. by intros (md & n & b & l & -> & _). Qed.

Lemma arrays_written dev dev0 dev1 : accounts dev -> erased_since dev dev0 -> rewritten dev0 dev1 ->
  arrays dev1 (length (blockInfo dev0)) /\ chunkBits dev1 = chunkBits dev0 /\ chunkBits dev0 = chunkBits dev /\ length (blockInfo dev0) = length (blockInfo dev).
Proof.
  intros Hac He R. assert (length (blockInfo dev0) = length (blockInfo dev)) as El by (by rewrite (Forall2_length _ _ _ (erased_info _ _ He))).
  assert (length (blockInfo dev1) = length (blockInfo dev0)) as El1 by (by apply taking_length, rewritten_info).
  destruct (geometry_arrays dev (ac_geometry _ _ _ Hac)) as [A1 A2 A3 A4].
  assert (arrays dev0 (length (blockInfo dev0)) /\ chunkBits dev0 = chunkBits dev) as [[C1 C2 C3 C4] Eb].
  { rewrite El. destruct He as (md & e & g & n & b & l & -> & _). split; [|reflexivity]. constructor; [exact A1|exact El|exact A3|exact A4]. }
  split; [|split; [|done]].
  - destruct R as (md & n & b & l & -> & _). constructor; [exact C1|exact El1|exact C3|exact C4].
  - by apply rewritten_bits.
Qed.

(** What is true after the state has been saved: between [dev0] and [dev1] the stream was written. *)
Record saved_state dev m om dev' dev0 dev1 (infos : list Z) (bs : list Z) (ps : list (list Z)) (z : list Z) : Prop := {
  ss_accounts : accounts dev';
  ss_clean : clean B dev';
  ss_erased : erased_since dev dev0;
  ss_before : accounts dev0;
  ss_none : forall i bi, blockInfo dev0 !! i = Some bi -> blockState bi <> YAFFS_BLOCK_STATE_CHECKPOINT;
  ss_written : rewritten dev0 dev1;
  ss_closed : dev' = (booked dev1) <| isCheckpointed := true |>;
  ss_infos : between (blockInfo dev0) (blockInfo dev1) infos;
  ss_saved : saved N B dev' bs ps;
  ss_blocks : in_blocks dev' bs;
  ss_count : blocksInCheckpoint dev' = Z.of_nat (length bs);
  ss_few : Z.of_nat (length bs) * B < Z.of_nat (length ps) + B;
  ss_image : concat ps = image dev0 infos m om ++ z;
  ss_rest : blen z < N
}.

(** The objects can be written. *)
Definition all_writable dev m free om : Prop :=
  forall a, a ∈ all_objects om -> exists o, objects om !! a = Some o /\ (deferedFree o = false -> object_writable dev m free om o).

Lemma writable_erased dev dev' m free om : erased_since dev dev' -> all_writable dev m free om -> all_writable dev' m free om.
Proof.
  intros He H a Ha. destruct (H a Ha) as (o & Ho & Hw). exists o. split; [done|]. intros Hd. destruct (Hw Hd) as [Hp Hf]. split; [done|]. intros Ht.
  destruct (Hf Ht) as (s & f & Hok). exists s, f. by eapply erased_file.
Qed.

Lemma WriteData_spec dev cp m free om :
  aligned N B nte dev -> clean B dev -> accounts dev -> yaffs_CheckpointSpaceOk dev = true -> buffer_ready N YMALLOC_DMA cp ->
  skipCheckpointWrite dev = false -> isYaffs2 dev = true -> all_writable dev m free om -> checkpoint_size dev m om <= stream_room N B dev ->
  exists dev' cp' dev0 dev1 infos bs ps z,
    yaffs_WriteCheckpointData ops localTags YMALLOC_DMA YMALLOC_ints padding unset dev cp m om = Some (true, dev', cp') /\
    saved_state dev m om dev' dev0 dev1 infos bs ps z.
Proof.
  intros Hal Hcl Hac Hsp Hbuf Hskip Hy2 Hobj Hroom. pose proof (geo_bytes _ (ac_geometry _ _ _ Hac)) as Hbits. unfold yaffs_WriteCheckpointData. rewrite Hskip, Hy2. cbn [negb orb].
  destruct (Open_written N B nte ops YMALLOC_DMA YMALLOC_ints dev cp Hal Hcl Hac Hsp Hbuf) as (dev0 & cp0 & -> & W0 & He & Hac0 & Hno). cbn [mbind option_bind].
  change (truthy 1) with true. cbv iota. pose proof (erased_count _ _ He) as Hcount. pose proof (Forall2_length _ _ _ (erased_info _ _ He)) as Hlen.
  assert (chunkBits dev0 = chunkBits dev) as Ebits by (by destruct He as (? & ? & ? & ? & ? & ? & -> & _)).
  assert (checkpoint_size dev0 m om <= stream_room N B dev0) as Hroom0.
  { unfold checkpoint_size, stream_room in *. rewrite <- Hlen, Ebits. pose proof (al_bytes _ _ _ _ Hal). pose proof (al_chunks _ _ _ _ Hal). etrans; [exact Hroom|].
    apply Z.mul_le_mono_nonneg_r; [lia|]. apply Z.mul_le_mono_nonneg_l; lia. }
  unfold checkpoint_size in Hroom0. pose proof (Zle_0_nat (length (chunkBits dev0))) as P1. pose proof (Zle_0_nat (length (objects_data padding unset m om))) as P2.
  fold (blen (chunkBits dev0)) in P1. fold (blen (objects_data padding unset m om)) in P2.
  destruct (emits_marker N B nte ops localTags dev0 true dev0 cp0 [] W0) as (dev1 & cp1 & -> & W1); [rewrite validity_length; change (blen []) with 0; lia|].
  cbn [mbind option_bind app] in *. pose proof (written_rewritten _ _ _ _ _ _ _ W1) as R1. destruct (arrays_written dev dev0 dev1 Hac He R1) as (A1 & EB1 & EB0 & _).
  destruct (WriteDevice_spec N B nte ops localTags dev0 dev1 cp1 _ _ W1 A1) as (infos & dev2 & cp2 & -> & R2 & Hbt & W2);
    [by rewrite EB1, EB0|rewrite validity_length, EB1; lia|]. cbn [mbind option_bind]. rewrite (rewritten_device dev0 dev1 infos R1) in W2.
  assert (length infos = (8 * length (blockInfo dev0))%nat) as Hinf by (rewrite (proj1 Hbt), (taking_length _ _ (rewritten_info _ _ R1)); done).
  assert (blen (device_bytes dev0 infos) = 40 + 8 * Z.of_nat (length (blockInfo dev0)) + blen (chunkBits dev0)) as Ldev.
  { unfold device_bytes. rewrite !blen_app, blen_cpd. unfold blen at 1. rewrite Hinf. unfold sizeof_yaffs_CheckpointDevice. lia. }
  destruct (written_rebase N B nte dev0 dev2 cp2 _ W2) as [W2' Hroom2]. pose proof (written_rewritten _ _ _ _ _ _ _ W2) as R02.
  destruct (emits_objects N B nte ops localTags padding unset dev2 m free om) with (dev := dev2) (cp := cp2) (s := validity_bytes true ++ device_bytes dev0 infos) as (dev3 & cp3 & -> & W3);
    [|done|rewrite Hroom2, blen_app, validity_length, Ldev; lia|].
  { intros a Ha. destruct (writable_erased _ _ _ _ _ He Hobj a Ha) as (o & Ho & Hw). exists o. split; [done|]. intros Hd. destruct (Hw Hd) as [Hp Hf]. split; [done|]. intros Ht.
    destruct (Hf Ht) as (st & f & Hok). exists st, f. by eapply rewritten_file. }
  cbn [mbind option_bind].
  destruct (emits_marker N B nte ops localTags dev2 false dev3 cp3 _ W3) as (dev4 & cp4 & -> & W4); [rewrite Hroom2, !blen_app, !validity_length, Ldev; lia|]. cbn [mbind option_bind].
  rewrite <- !app_assoc in W4. fold (contents dev0 infos m om) in W4.
  assert (blen (contents dev0 infos m om) + 4 <= stream_room N B dev2) as Hc by (unfold contents; rewrite Hroom2, !blen_app, !validity_length, Ldev; lia).
  destruct (WriteSum_spec N B nte ops localTags dev2 dev4 cp4 _ W4 Hc) as (dev5 & cp5 & -> & W5). cbn [mbind option_bind]. fold (image dev0 infos m om) in W5.
  destruct (Close_written N B nte ops localTags dev2 dev5 cp5 _ W5) as (dev' & cp' & bs & ps & z & dev6 & -> & A' & C' & R6 & E' & V' & I' & Hb & L' & Ec & Hz).
  { unfold image. rewrite blen_app, blen_le_bytes. change (Z.of_nat 4) with 4. lia. }
  cbn [mbind option_bind andb]. change (truthy 1) with true. exists (dev' <| isCheckpointed := true |>), cp', dev0, dev6, infos, bs, ps, z. split; [done|].
  constructor; try done; [by apply (accounts_quiet None 0 dev')|by destruct C'|by eapply rewritten_trans|by rewrite E'| |by destruct V'].
  eapply between_before; [apply (rewritten_info _ _ R1)|eapply taking_trans; apply rewritten_info; eassumption|].
  eapply between_more; [apply (rewritten_info _ _ R2)|apply (rewritten_info _ _ R6)|done].
Qed.

(** The old checkpoint is erased first. *)
Lemma Save_spec dev cp m free om :
  aligned N B nte dev -> clean B dev -> accounts dev -> yaffs_CheckpointSpaceOk dev = true -> buffer_ready N YMALLOC_DMA cp -> isCheckpointed dev = false ->
  skipCheckpointWrite dev = false -> isYaffs2 dev = true -> all_writable dev m free om -> checkpoint_size dev m om <= stream_room N B dev ->
  exists dev' cp' dev0 dev1 infos bs ps z,
    yaffs_CheckpointSave ops localTags YMALLOC_DMA YMALLOC_ints padding unset dev cp m om = Some (true, dev', cp') /\ saved_state dev m om dev' dev0 dev1 infos bs ps z.
Proof.
  intros Hal Hcl Hac Hsp Hbuf Hnc Hskip Hy2 Hobj Hroom. unfold yaffs_CheckpointSave. rewrite Hnc. cbn [negb].
  assert (exists dev1, yaffs_InvalidateCheckpoint ops dev = Some dev1 /\ erased_since dev dev1 /\ clean B dev1 /\ accounts dev1) as (dev1 & -> & He & Hcl1 & Hac1).
  { unfold yaffs_InvalidateCheckpoint. rewrite Hnc. cbn [orb]. destruct (0 <? blocksInCheckpoint dev); [|exists dev; split; [done|]; split; [apply erased_refl|done]].
    assert (dev <| isCheckpointed := false |> = dev) as -> by (rewrite <- Hnc; by destruct dev). unfold yaffs_CheckpointInvalidateStream. rewrite Hsp. cbn [negb].
    destruct (Erase_spec N B nte ops dev Hal Hcl Hac) as (dev1 & -> & He & Hcl1 & Hac1 & _). by exists dev1. }
  cbn [mbind option_bind]. pose proof (erased_count _ _ He) as Hcount.
  assert (skipCheckpointWrite dev1 = false /\ isYaffs2 dev1 = true /\ nReservedBlocks dev1 = nReservedBlocks dev) as (K1 & K2 & K3) by (by destruct He as (? & ? & ? & ? & ? & ? & -> & _)).
  destruct (arrays_written dev dev1 dev1 Hac He (rewritten_refl _)) as (_ & _ & EB & EL).
  destruct (WriteData_spec dev1 cp m free om) as (dev' & cp' & dev0 & dev2 & infos & bs & ps & z & -> & H); try done.
  - apply (aligned_static N B nte dev); [by apply erased_static|done].
  - unfold yaffs_CheckpointSpaceOk in *. rewrite K3. apply negb_true_iff, Z.leb_gt. apply negb_true_iff, Z.leb_gt in Hsp. lia.
  - by eapply writable_erased.
  - unfold checkpoint_size, stream_room in *. rewrite EL, EB. pose proof (al_bytes _ _ _ _ Hal). pose proof (al_chunks _ _ _ _ Hal). etrans; [exact Hroom|].
    apply Z.mul_le_mono_nonneg_r; [lia|]. apply Z.mul_le_mono_nonneg_l; lia.
  - cbn [mbind option_bind]. exists dev', cp', dev0, dev2, infos, bs, ps, z. split; [by rewrite (ss_closed _ _ _ _ _ _ _ _ _ _ H)|].
    destruct H. constructor; try done. by eapply erased_trans.
Qed.

(** ** Restoring *)

(** A checkpoint of the device [dev0] and the objects [om1] is on the flash memory of [dev]; the blocks were as in [l]. *)
Record on_flash dev dev0 m1 om1 (bs : list Z) (ps : list (list Z)) (infos z : list Z) (l : list yaffs_BlockInfo) : Prop := {
  fl_saved : saved N B dev bs ps;
  fl_image : concat ps = image dev0 infos m1 om1 ++ z;
  fl_rest : blen z < N;
  fl_blocks : Z.of_nat (length bs) * B < Z.of_nat (length ps) + B;
  fl_found : Z.of_nat (length bs) <= Z.quot (internalEndBlock dev - internalStartBlock dev) 16 + 2;
  fl_arrays : arrays dev (length l);
  fl_bits : blen (chunkBits dev0) = blen (chunkBits dev);
  fl_length : length infos = (8 * length l)%nat;
  fl_infos : infos_of_bytes (length l) infos = Some l;
  fl_fits : cpd_fits (yaffs_DeviceToCheckpointDevice dev0)
}.

(** The counters after [n] blocks have been taken off, and [k] unlinked files have been counted. *)
Definition counters_after dev0 (blocks chunks k : Z) : yaffs_CheckpointDevice :=
  (yaffs_DeviceToCheckpointDevice dev0) <| cpd_nErasedBlocks ::= fun n => n - blocks |> <| cpd_nFreeChunks ::= fun n => n - chunks |>
    <| cpd_nUnlinkedFiles ::= fun n => n + k |>.

(** Saving took the blocks off, too. *)
Lemma counters_booked dev0 dev1 k : rewritten dev0 dev1 ->
  counters_after dev0 (blocksInCheckpoint dev1) (blocksInCheckpoint dev1 * nChunksPerBlock dev1) k =
  (yaffs_DeviceToCheckpointDevice ((booked dev1) <| isCheckpointed := true |>)) <| cpd_nUnlinkedFiles ::= fun n => n + k |>.
Proof.
  intros R. assert (yaffs_DeviceToCheckpointDevice dev0 = yaffs_DeviceToCheckpointDevice dev1) as E by (by destruct R as (? & ? & ? & ? & -> & _)).
  unfold counters_after. rewrite E. reflexivity.
Qed.

Lemma moved_on_counters dev dev' k : moved_on k dev dev' ->
  yaffs_DeviceToCheckpointDevice dev' = (yaffs_DeviceToCheckpointDevice dev) <| cpd_nUnlinkedFiles ::= fun n => n + k |> /\
  blockInfo dev' = blockInfo dev /\ chunkBits dev' = chunkBits dev /\ static dev' = static dev.
Proof. intros [(? & ? & ? & ? & ? & ? & ? & ? & ? & ? & ->) E]. split; [|done]. unfold yaffs_DeviceToCheckpointDevice. rewrite E. done. Qed.

Lemma ReadData_spec fuel dev cp m free om S devW dev0 m1 om1 bs ps infos z l no :
  aligned N B nte dev -> on_flash dev dev0 m1 om1 bs ps infos z l -> buffer_ready N YMALLOC_DMA cp -> list_ready YMALLOC_ints dev ->
  skipCheckpointRead dev = false -> isYaffs2 dev = true ->
  savable om1 -> restoring devW m1 om1 dev m free om S [] -> (forall a1 o1, recorded om1 a1 o1 -> object_fits devW m1 o1) ->
  (rounds_needed m1 om1 (live_objects om1) < fuel)%nat ->
  budget YMALLOC dev m free om (tnodes_needed m1 om1 (live_objects om1)) (2 * length (live_objects om1) + no) ->
  exists dev' cp' m' om' free',
    yaffs_ReadCheckpointData ops localTags YMALLOC_DMA YMALLOC_ints YMALLOC uninitialised fuel dev cp m om = Some (true, dev', cp', m', om') /\
    restored devW m1 om1 dev' m' free' om' /\ blockInfo dev' = imap (marked dev bs) l /\ chunkBits dev' = chunkBits dev0 /\
    yaffs_DeviceToCheckpointDevice dev' = counters_after dev0 (Z.of_nat (length bs)) (Z.of_nat (length bs) * nChunksPerBlock dev) (unlinked_objects om1 (live_objects om1)).
Proof.
  intros Hal [Hsv Ec Hz Hlen Hmax Har Hbits Hil Hin Hfit] Hbuf Hlist Hskip Hy2 Hsave Hrs Hof Hfuel Hb. unfold yaffs_ReadCheckpointData. rewrite Hskip, Hy2. cbn [negb orb].
  assert (internalStartBlock dev <= internalEndBlock dev + 1) as Hse by (pose proof (arr_count _ _ Har); lia).
  destruct (Open_read N B nte ops YMALLOC_DMA YMALLOC_ints dev cp bs ps Hal Hsv Hse Hmax Hbuf Hlist) as (dev1 & cp1 & -> & Hpu & R1 & Es & Ex).
  cbn [mbind option_bind]. change (truthy 1) with true. cbv iota. unfold image, contents in Ec. rewrite Ec, <- !app_assoc in Hpu.
  assert (loaded N B nte dev1 cp1 bs ps [] _) as L1 by (split; [exact Hpu|done]).
  destruct (ReadMarker_spec N B nte ops localTags dev1 cp1 bs ps _ true _ L1) as (dev2 & cp2 & -> & R2 & L2). cbn [mbind option_bind app] in *.
  pose proof (reread_trans _ _ _ R1 R2) as R12. unfold device_bytes in L2. rewrite <- !app_assoc in L2.
  destruct (ReadDevice_spec N B nte ops localTags dev2 cp2 bs ps _ _ _ infos l (chunkBits dev0) (length l) L2 Hfit) as (dev3 & dev4 & cp4 & -> & R3 & E4 & L4); try done.
  { destruct Har as [A1 A2 A3 A4]. destruct R12 as (? & ? & ? & ? & ->). constructor; [exact A1|exact A2|exact A3|exact A4]. }
  { rewrite Hbits. by destruct R12 as (? & ? & ? & ? & ->). }
  cbn [mbind option_bind].
  assert (restoring devW m1 om1 dev4 m free om S []) as Hrs4.
  { pose proof (restoring_reread _ _ _ _ _ _ _ _ _ _ (reread_trans _ _ _ R12 R3) Hrs) as Hrs3. rewrite E4. by eapply restoring_same; [..|exact Hrs3]. }
  assert (budget YMALLOC dev4 m free om (tnodes_needed m1 om1 (live_objects om1)) (2 * length (live_objects om1) + no)) as Hb4.
  { unfold budget, enough, batch in *. assert (tnode_size dev4 = tnode_size dev) as -> by (rewrite E4; by destruct R12 as (? & ? & ? & ? & ->), R3 as (? & ? & ? & ? & ->)). exact Hb. }
  destruct (ReadObjects_spec YMALLOC uninitialised devW m1 om1 Hsave N B nte ops localTags padding unset fuel dev4 cp4 m free om S bs ps _ _ no Hrs4 Hof L4 Hfuel Hb4)
    as (dev5 & cp5 & m5 & om5 & free5 & -> & L5 & Hrd & A5).
  cbn [mbind option_bind]. destruct (ReadMarker_spec N B nte ops localTags dev5 cp5 bs ps _ false _ L5) as (dev6 & cp6 & -> & R6 & L6). cbn [mbind option_bind].
  rewrite <- !app_assoc in L6. destruct (ReadSum_spec N B nte ops localTags dev6 cp6 bs ps _ _ L6) as (dev7 & cp7 & -> & R7 & (Hpu7 & _)). cbn [mbind option_bind].
  assert (moved_on (unlinked_objects om1 (live_objects om1)) dev4 dev7) as A7.
  { rewrite <- (Z.add_0_r (unlinked_objects _ _)). eapply moved_on_trans; [exact A5|]. apply moved_on_reread. by eapply reread_trans. }
  destruct (moved_on_counters _ _ _ A7) as (Ecp & Eif & Ebt & Est). assert (static dev4 = static dev) as Es4 by (rewrite E4; exact (reread_static _ _ (reread_trans _ _ _ R12 R3))).
  pose proof (all_found N B nte dev7 cp7 bs ps z Hpu7 Hz Hlen) as Hfound.
  destruct (Close_read N B nte ops localTags dev7 cp7 bs ps z Hpu7 Hz Hlen) as (cp8 & ->).
  { rewrite Eif, E4. change (blockInfo (?x <| blockInfo := l |> <| chunkBits := _ |>)) with l. pose proof (arr_count _ _ Har).
    assert (internalStartBlock dev7 = internalStartBlock dev /\ internalEndBlock dev7 = internalEndBlock dev) as [-> ->] by (rewrite Es4 in Est; by injection Est). lia. }
  cbn [mbind option_bind andb]. change (truthy 1) with true. set (dev8 := booked _). exists (dev8 <| isCheckpointed := true |>), cp8, m5, om5, free5. split; [done|].
  split; [|split; [|split]].
  - destruct (reread_loading _ _ (reread_trans _ _ _ R6 R7)) as (L67 & _ & F1 & F2). by apply (restored_same _ _ _ dev5); [apply (loading_widths _ _ L67)|exact F1|exact F2|].
  - change (imap (marked dev7 bs) (blockInfo dev7) = imap (marked dev bs) l). rewrite Eif, E4. change (blockInfo (?x <| blockInfo := l |> <| chunkBits := _ |>)) with l.
    apply list_eq. intros i. rewrite !list_lookup_imap. destruct (l !! i); [|done]. simpl. unfold marked. rewrite (static_blk dev dev7); [done|congruence].
  - change (chunkBits dev7 = chunkBits dev0). rewrite Ebt. by rewrite E4.
  - transitivity ((yaffs_DeviceToCheckpointDevice dev7) <| cpd_nErasedBlocks ::= fun n => n - blocksInCheckpoint dev7 |>
      <| cpd_nFreeChunks ::= fun n => n - blocksInCheckpoint dev7 * nChunksPerBlock dev7 |>); [done|].
    assert (nChunksPerBlock dev7 = nChunksPerBlock dev) as -> by (rewrite Es4 in Est; by injection Est). by rewrite Hfound, Ecp, E4.
Qed.

(** Without a checkpoint nothing is restored. *)
Lemma restore_nothing fuel dev cp m om :
  aligned N B nte dev -> skipCheckpointRead dev = false -> isYaffs2 dev = true ->
  (forall b, internalStartBlock dev <= b <= internalEndBlock dev -> foreign_page (genericDevice dev) (page_no B dev b 0)) ->
  internalStartBlock dev <= internalEndBlock dev + 1 -> buffer_ready N YMALLOC_DMA cp -> list_ready YMALLOC_ints dev ->
  exists dev' cp', yaffs_CheckpointRestore ops localTags YMALLOC_DMA YMALLOC_ints YMALLOC uninitialised fuel dev cp m om = Some (false, dev', cp', m, om).
Proof.
  intros Hal Hskip Hy2 Hf Hse Hbuf Hlist. pose proof (saved_nothing N B dev Hf) as Hsv. unfold yaffs_CheckpointRestore, yaffs_ReadCheckpointData. rewrite Hskip, Hy2. cbn [negb orb].
  destruct (Open_read N B nte ops YMALLOC_DMA YMALLOC_ints dev cp [] [] Hal Hsv Hse) as (dev1 & cp1 & -> & Hpu & _); [by apply max_blocks_pos|done|done|].
  pose proof Hpu as (k & b & Hrd & Hb & _). pose proof (rd_open _ _ _ _ _ _ _ _ Hrd) as Hop.
  cbn [mbind option_bind]. change (truthy 1) with true. cbv iota. destruct (read_nothing N B nte ops localTags 15 dev1 cp1 Hpu) as (dev2 & Er & Hbic).
  match type of Er with _ = Some (_, _, ?c) => assert (yaffs_ReadCheckpointValidityMarker ops localTags dev1 cp1 true = Some (false, dev2, c)) as -> end.
  { unfold yaffs_ReadCheckpointValidityMarker, yaffs_CheckpointRead. rewrite Hb, Hop, bool_decide_false by done. change (Z.to_nat sizeof_yaffs_CheckpointValidity) with 16%nat. by rewrite Er. }
  cbn [mbind option_bind].
  match goal with |- context [yaffs_CheckpointClose _ _ dev2 ?c] => destruct (Close_nothing ops localTags dev2 c b) as (dev3 & cp3 & ->) end; [exact Hop|done|exact Hb|].
  cbn [mbind option_bind]. by eexists _, _.
Qed.

(** ** After the next mount *)

Lemma on_flash_tended dev dev' dev0 m1 om1 bs ps infos z l : tended dev dev' -> on_flash dev dev0 m1 om1 bs ps infos z l -> on_flash dev' dev0 m1 om1 bs ps infos z l.
Proof.
  intros (a & b & c & d & e & ->) [Hsv Ec Hz Hlen Hmax [A1 A2 A3 A4] Hbits Hil Hin Hfit]. constructor; try done.
  apply (saved_kept N B dev); [done|apply kept_refl|done].
Qed.

Definition memory_needed dev m1 om1 : Z :=
  Z.of_nat (tnodes_needed m1 om1 (live_objects om1)) * batch dev + Z.of_nat (4 + 2 * length (live_objects om1)) * object_batch.

Lemma Mount_spec fuel dev cp m om devW dev0 m1 om1 bs ps infos z l :
  aligned N B nte dev -> on_flash dev dev0 m1 om1 bs ps infos z l -> buffer_ready N YMALLOC_DMA cp -> list_ready YMALLOC_ints dev ->
  skipCheckpointRead dev = false -> isYaffs2 dev = true ->
  savable om1 -> (forall a1 o1, recorded om1 a1 o1 -> object_fits devW m1 o1) -> same_widths devW dev -> tnode_wf dev -> tnodes m = ∅ -> objects om = ∅ ->
  (rounds_needed m1 om1 (live_objects om1) < fuel)%nat -> memory_needed dev m1 om1 <= ymalloc_room m ->
  exists dev' cp' m' om' free',
    mount_from_checkpoint ops localTags YMALLOC_DMA YMALLOC_ints YMALLOC uninitialised fuel dev cp m om = Some (true, dev', cp', m', om') /\
    restored devW m1 om1 dev' m' free' om' /\ blockInfo dev' = imap (marked dev bs) l /\ chunkBits dev' = chunkBits dev0 /\
    yaffs_DeviceToCheckpointDevice dev' = counters_after dev0 (Z.of_nat (length bs)) (Z.of_nat (length bs) * nChunksPerBlock dev) (unlinked_objects om1 (live_objects om1)).
Proof.
  intros Hal Hfl Hbuf Hlist Hskip Hy2 Hsave Hof Hw Hwf Ht Ho Hfuel Hmem. unfold mount_from_checkpoint.
  pose proof (Initialise_spec YMALLOC uninitialised dev m om (tnodes_needed m1 om1 (live_objects om1)) (2 * length (live_objects om1)) Hwf Ht Ho Hmem) as Hinit.
  destruct (yaffs_InitialiseTnodes dev m) as [dev1 m2]. destruct (yaffs_InitialiseObjects dev1 om) as [dev2 om2]. destruct Hinit as (dev3 & m3 & om3 & free3 & -> & M & T & Hb).
  cbn [mbind option_bind]. change (truthy YAFFS_OK) with true. assert (isYaffs2 dev3 = true) as Hy3 by (by destruct T as (? & ? & ? & ? & ? & ->)). rewrite Hy3. cbn [andb].
  assert (static dev3 = static dev) as Es by (by destruct T as (? & ? & ? & ? & ? & ->)).
  destruct (ReadData_spec fuel dev3 cp m3 free3 om3 (fun _ => ∅) devW dev0 m1 om1 bs ps infos z l 0) as (dev' & cp' & m' & om' & free' & E & Hrd & Hi & Hc & Hd); try done.
  - by apply (aligned_static N B nte dev).
  - by eapply on_flash_tended.
  - unfold list_ready in *. assert (internalStartBlock dev3 = internalStartBlock dev /\ internalEndBlock dev3 = internalEndBlock dev) as [-> ->] by (by injection Es). done.
  - by destruct T as (? & ? & ? & ? & ? & ->).
  - apply restoring_fresh; [done|done|]. eapply same_widths_trans; [exact Hw|by apply tended_widths].
  - by rewrite Nat.add_0_r.
  - exists dev', cp', m', om', free'. split; [exact E|]. split; [done|]. split; [|split; [done|]].
    + rewrite Hi. apply list_eq. intros i. rewrite !list_lookup_imap. destruct (l !! i); [|done]. simpl. unfold marked. by rewrite (static_blk dev dev3).
    + rewrite Hd. by assert (nChunksPerBlock dev3 = nChunksPerBlock dev) as -> by (by injection Es).
Qed.

(** ** The counters fit *)

Lemma zsum_upper {A} (f : A -> Z) c l : (forall x, x ∈ l -> f x <= c) -> zsum (f <$> l) <= Z.of_nat (length l) * c.
Proof.
  induction l as [|x l IH]; intros H; [done|]. change (zsum (f <$> x :: l)) with (f x + zsum (f <$> l)). pose proof (H x ltac:(by left)).
  specialize (IH ltac:(intros y Hy; apply H; by right)). simpl length. lia.
Qed.

Lemma account_bounds dev : accounts dev ->
  0 <= nErasedBlocks dev <= Z.of_nat (length (blockInfo dev)) /\ 0 <= nFreeChunks dev <= Z.of_nat (length (blockInfo dev)) * nChunksPerBlock dev.
Proof.
  intros [[Hst Hch _ _ _ Hby] Hbl He Hf Hal]. rewrite He, Hf, Z.add_0_r. split.
  - split; [apply zsum_nonneg; intros bi _; unfold erased; by case_bool_decide|]. rewrite <- (Z.mul_1_r (Z.of_nat _)). apply zsum_upper. intros bi _. unfold erased. by case_bool_decide.
  - assert (forall bi, bi ∈ blockInfo dev -> 0 <= block_free (nChunksPerBlock dev) bi <= nChunksPerBlock dev) as Hb; [|split; [apply zsum_nonneg|apply zsum_upper]; intros bi Hin; apply (Hb bi Hin)].
    intros bi [i Hi]%list_elem_of_lookup. specialize (Hbl i bi Hi). unfold block_ok, block_free in *.
    assert (0 <= lcount (bits dev i)) as Hn by (apply lcount_nonneg; unfold bits, slice; by apply Forall_take, Forall_drop). destruct (blockState bi); try lia.
    assert (0 <= allocationPage dev < nChunksPerBlock dev); [|lia]. destruct Hal as [E|(j & bj & _ & _ & _ & ?)]; [|done]. destruct Hbl as [E' _]. unfold blk in E'. lia.
Qed.

Lemma erased_fits dev dev0 : aligned N B nte dev -> accounts dev0 -> erased_since dev dev0 -> cpd_fits (yaffs_DeviceToCheckpointDevice dev) -> cpd_fits (yaffs_DeviceToCheckpointDevice dev0).
Proof.
  intros Hal Hac He [F1 _ F3 F4 _ F6 F7 F8 F9 F10]. destruct (account_bounds dev0 Hac) as [H1 H2]. pose proof (ac_geometry _ _ _ Hac) as [G1 G2 _ G4 _ _].
  pose proof (aligned_static N B nte dev dev0 (erased_static _ _ He) Hal) as Hal0. destruct Hal0 as [Hfit HN HB _ _ Hend Hhigh].
  assert (nChunksPerBlock dev0 = B) as EB by (unfold fits in Hfit; congruence). rewrite EB in H2.
  assert (in_int (nErasedBlocks dev0) /\ in_int (nFreeChunks dev0)) as [I1 I2] by (unfold in_int; nia).
  destruct He as (md & e & g & n & b & l & -> & _). constructor; done.
Qed.

End Whole.
