(* ===== verification/YaffsCheckpointSpec.v ===== *)
(** * A checkpoint is read back

    yaffs_CheckpointSave writes the state of a file system, and the next mount takes it from there: the accounts of the blocks,
    the objects, the chunks of the files and the hard links are what they were, also when in every page of the
    checkpoint a bit of the stored tags has flipped. A checkpoint that was invalidated is not restored;
    and what happens when the blocks run out. *)

From stdpp Require Import list.
From S2P Require Import Prelude NandEcc NandEccFacts YaffsTags YaffsTagsFacts YaffsNand YaffsNandFacts YaffsNand2Facts.
From S2P Require Import YaffsBlocks YaffsBlocksFacts YaffsBlocksOps YaffsTnodes YaffsTnodesFacts YaffsTnodesPool YaffsTnodesTree YaffsTnodesAdd YaffsTnodesSpec.
From S2P Require Import YaffsObjects YaffsObjectsFacts YaffsCheckpoint YaffsCheckpointFacts YaffsCheckpointDriver YaffsCheckpointStream.
From S2P Require Import YaffsCheckpointData YaffsCheckpointDevice YaffsCheckpointTnodes YaffsCheckpointObjects YaffsCheckpointWhole.

Local Open Scope Z_scope.

(** ** On an MTD device *)

Section Device.
Context {mtd : Type} `{!MtdOps mtd} `{!MtdMedium mtd} (N B : Z) (nte : bool) `{!ReliableMtd N nte mtd}.
Context (wf : yaffs_Device mtd -> Z -> option (list Z) -> yaffs_Spare -> Z * yaffs_Device mtd).
Context (rf : yaffs_Device mtd -> Z -> option (list Z) -> Z * option (list Z) * yaffs_NANDSpare * yaffs_Device mtd).
Context (localTags : yaffs_ExtendedTags) (YMALLOC_DMA YMALLOC_ints : Z -> option (list Z)).
Context (YMALLOC : tnode_memory -> Z -> Z) {Alloc : Allocator YMALLOC} (uninitialised padding unset : Z -> Z).

Implicit Types (dev : yaffs_Device mtd) (cp : checkpoint) (tm : tnode_memory) (om : object_memory) (free : list Z).

(** Time passes: in every page of the checkpoint a bit of the stored tags may flip. *)
Definition ages dev (m : mtd) : Prop :=
  forall c, page_data m (c * N) = page_data (genericDevice dev) (c * N) /\
    (page_oob m (c * N) = page_oob (genericDevice dev) (c * N) \/
     exists i bi p err, blockInfo dev !! i = Some bi /\ blockState bi = YAFFS_BLOCK_STATE_CHECKPOINT /\ 0 <= p < B /\
       c = page_no B dev (blk dev i) p /\ covered2 nte err /\ page_oob m (c * N) = decay err (page_oob (genericDevice dev) (c * N))).

Lemma saved_ages dev dev2 bs ps :
  0 < B -> saved (Pages0 := yaffs2_pages N nte false) N B dev bs ps -> in_blocks dev bs -> static dev2 = static dev ->
  ages dev (genericDevice dev2) -> saved (Pages0 := yaffs2_pages N nte true) N B dev2 bs ps.
Proof.
  intros HB [S1 S2 S3 S4 S5] Hin E Hage. assert (forall b p, page_no B dev2 b p = page_no B dev b p) as Ep by (intros b p; by apply static_page).
  assert (internalStartBlock dev2 = internalStartBlock dev /\ internalEndBlock dev2 = internalEndBlock dev) as [E1 E2] by (by injection E).
  constructor; [done|by rewrite E1, E2| |done|].
  - rewrite E1, E2. intros b Hb Hn. rewrite Ep. destruct (S3 b Hb Hn) as [H1 H2]. destruct (Hage (page_no B dev b 0)) as [_ [Ho|Ho]].
    + unfold foreign_page, yaffs2_pages, tags_at in *. by rewrite Ho.
    + destruct Ho as (i & bi & p & err & Hi & Hs & Hp & Hc & _). apply page_block in Hc as [-> _]; [|lia..]. by destruct Hn; apply (Hin i bi).
  - intros k d Hd. destruct (S5 k d Hd) as (b & Hb & Hby & Hpd & Hk & t & err & rest & Hok & Hst & Hcov & Hnone & Hpo). rewrite (Hnone eq_refl) in Hpo.
    exists b. split; [done|]. rewrite Ep. set (c := page_no B dev b _) in *. destruct (Hage c) as [Hd2 Ho].
    split; [done|]. split; [by rewrite Hd2|]. split; [done|]. destruct Ho as [Ho|(i & bi & p & err2 & _ & _ & _ & _ & Hcov2 & Ho)].
    + exists t, None, rest. split; [done|]. split; [done|]. split; [by intros ? ?|]. split; [done|]. by rewrite Ho.
    + exists t, err2, rest. split; [done|]. split; [done|]. split; [done|]. split; [done|]. by rewrite Ho, Hpo.
Qed.

(** The state of a file system that can be saved: the table of the objects and their directories are in order, the files have
    their trees, and every number fits into the field that it is written to. *)
Record state_ok dev tm free om : Prop := {
  st_objects : savable om;
  st_widths : tnode_wf dev;
  st_files : forall a o, recorded om a o -> variantType o = YAFFS_OBJECT_TYPE_FILE -> exists s f, file_ok dev tm free (fileVariant o) s f;
  st_fits : forall a o, recorded om a o -> object_fits dev tm o;
  st_blocks : Forall info_fits (blockInfo dev);
  st_counters : cpd_fits (yaffs_DeviceToCheckpointDevice dev)
}.

Lemma state_writable dev tm free om : state_ok dev tm free om -> all_writable dev tm free om.
Proof.
  intros [Hs _ Hf _ _ _] a Ha. unfold all_objects in Ha. apply list_elem_of_In, in_concat in Ha as (l & Hl & Ha). apply list_elem_of_In, list_elem_of_fmap in Hl as (b & -> & Hb).
  apply list_elem_of_lookup in Hb as [k Hb]. destruct (tb_bucket _ (sv_table _ Hs) k b a Hb) as (o & Ho & _); [by apply list_elem_of_In|]. exists o. split; [done|]. intros Hd.
  split; [|by apply (Hf a)]. intros Hp. destruct (sv_parent _ Hs a o) as (p & [Hp1 _] & _); [done|done|]. by exists p.
Qed.

(** The next mount of the same device: its arrays have the same sizes, and time may have passed. *)
Record next_mount dev dev' dev2 : Prop := {
  nm_static : static dev2 = static dev';
  nm_widths : same_widths dev dev2;
  nm_yaffs2 : isYaffs2 dev2 = true;
  nm_reads : skipCheckpointRead dev2 = false;
  nm_blocks : length (blockInfo dev2) = length (blockInfo dev');
  nm_stride : chunkBitmapStride dev2 = chunkBitmapStride dev';
  nm_bits : length (chunkBits dev2) = length (chunkBits dev');
  nm_ages : ages dev' (genericDevice dev2)
}.

(** Every object that was in use is found again, with its record, its chunks and the object that it is a link to; there are no others. *)
Definition same_objects dev tm free om dev3 tm3 free3 om3 : Prop :=
  (forall a1 o1, objects om !! a1 = Some o1 -> deferedFree o1 = false -> exists a o s,
     yaffs_FindObjectByNumber om3 (obj_objectId o1) = Some a /\ objects om3 !! a = Some o /\ record_of om3 o = record_of om o1 /\
     (variantType o1 = YAFFS_OBJECT_TYPE_FILE -> forall s1 f, file_ok dev tm free (fileVariant o1) s1 f -> file_ok dev3 tm3 free3 (fileVariant o) s f) /\
     (variantType o1 = YAFFS_OBJECT_TYPE_HARDLINK -> yaffs_FindObjectByNumber om3 (equivalentObjectId o1) = Some (equivalentObject o))) /\
  forall a o, objects om3 !! a = Some o -> exists a1 o1, objects om !! a1 = Some o1 /\ deferedFree o1 = false /\ obj_objectId o = obj_objectId o1.

Lemma restored_objects dev tm free om dev3 tm3 free3 om3 : restored dev tm om dev3 tm3 free3 om3 -> same_objects dev tm free om dev3 tm3 free3 om3.
Proof.
  intros [_ H1 H2]. split.
  - intros a1 o1 Ho Hd. destruct (H1 a1 o1 (conj Ho Hd)) as (a & o & s & Hf & Ha & Er & Hfile & Hl). exists a, o, s. split_and!; try done.
    + intros Ht s1 f Hok. eapply file_ext; [|by apply Hfile]. intros j. unfold chunks_of. symmetry. by eapply restored_file.
    + intros Ht. apply Hl. unfold is_link. by rewrite bool_decide_true.
  - intros a o Ha. destruct (H2 a o Ha) as (a1 & o1 & [Ho Hd] & E). by exists a1, o1.
Qed.

Lemma emptied_fits l l' : emptied l l' -> Forall info_fits l -> Forall info_fits l'.
Proof.
  intros H Hf. apply Forall_lookup. intros k bi' Hk. destruct (Forall2_lookup_r _ _ _ _ _ H Hk) as (bi & Hbi & E). pose proof (Forall_lookup_1 _ _ _ _ Hf Hbi) as [].
  destruct E as [->| ->]; by constructor.
Qed.

(** What is read describes the blocks as they are at the end, after the blocks of the checkpoint have been marked. *)
Lemma saved_infos dev tm om dev' dev0 dev1 infos bs ps z dev2 :
  saved_state (Pages0 := yaffs2_pages N nte false) N B padding unset dev tm om dev' dev0 dev1 infos bs ps z -> Forall info_fits (blockInfo dev) -> static dev2 = static dev' ->
  exists l, infos_of_bytes (length l) infos = Some l /\ length l = length (blockInfo dev') /\ length infos = (8 * length l)%nat /\ imap (marked dev2 bs) l = blockInfo dev'.
Proof.
  intros H Hfit E2. pose proof (ss_closed _ _ _ _ _ _ _ _ _ _ _ _ _ _ H) as Ec. assert (blockInfo dev' = blockInfo dev1) as Ei by (by rewrite Ec).
  pose proof (rewritten_info _ _ (ss_written _ _ _ _ _ _ _ _ _ _ _ _ _ _ H)) as T. pose proof (ss_infos _ _ _ _ _ _ _ _ _ _ _ _ _ _ H) as Hb.
  pose proof (emptied_fits _ _ (erased_info _ _ (ss_erased _ _ _ _ _ _ _ _ _ _ _ _ _ _ H)) Hfit) as Hfit0.
  destruct (between_read _ _ _ T Hfit0 Hb) as (l & El & Hl & Hmid). exists l. rewrite Hl, Ei, (taking_length _ _ T). split; [done|]. split; [done|]. split; [apply Hb|].
  eapply (marked_final dev2 bs (blockInfo dev0)); try done; [apply H|]. intros k bi' Hk. rewrite (static_blk dev' dev2) by done.
  apply (ss_blocks _ _ _ _ _ _ _ _ _ _ _ _ _ _ H). by rewrite Ei.
Qed.

Lemma on_flash_next dev tm free om dev' dev0 dev1 infos bs ps z dev2 l :
  aligned N B nte dev -> accounts dev -> saved_state (Pages0 := yaffs2_pages N nte false) N B padding unset dev tm om dev' dev0 dev1 infos bs ps z -> state_ok dev tm free om ->
  next_mount dev dev' dev2 -> infos_of_bytes (length l) infos = Some l -> length l = length (blockInfo dev') -> length infos = (8 * length l)%nat ->
  checkpoint_size padding unset dev tm om <= B * (Z.quot (internalEndBlock dev - internalStartBlock dev) 16 + 2) * N ->
  on_flash (Pages0 := yaffs2_pages N nte true) N B padding unset dev2 dev0 tm om bs ps infos z l.
Proof.
  intros Hal Hac H Hst Hnm El Hl Hi Hmax. pose proof (al_bytes _ _ _ _ Hal) as HN. pose proof (al_chunks _ _ _ _ Hal) as HB. destruct Hnm as [N1 N2 N3 N4 N5 N6 N7 N8].
  pose proof (ss_closed _ _ _ _ _ _ _ _ _ _ _ _ _ _ H) as Ec. pose proof (ss_erased _ _ _ _ _ _ _ _ _ _ _ _ _ _ H) as He. pose proof (ss_written _ _ _ _ _ _ _ _ _ _ _ _ _ _ H) as Hw.
  pose proof (ss_saved _ _ _ _ _ _ _ _ _ _ _ _ _ _ H) as Hsv. pose proof (ss_image _ _ _ _ _ _ _ _ _ _ _ _ _ _ H) as Eps. pose proof (ss_few _ _ _ _ _ _ _ _ _ _ _ _ _ _ H) as Hfew.
  assert (static dev' = static dev) as Es by (rewrite Ec; transitivity (static dev1); [done|]; rewrite (rewritten_static _ _ Hw); by apply erased_static).
  assert (internalStartBlock dev2 = internalStartBlock dev /\ internalEndBlock dev2 = internalEndBlock dev) as [E1 E2] by (rewrite Es in N1; by injection N1).
  destruct (arrays_written dev dev0 dev1 Hac He Hw) as (_ & EB1 & EB0 & EL0). assert (chunkBits dev' = chunkBits dev0) as EB' by (rewrite Ec; exact EB1).
  destruct (geometry_arrays dev' (ac_geometry _ _ _ (ss_accounts _ _ _ _ _ _ _ _ _ _ _ _ _ _ H))) as [A1 A2 A3 A4].
  assert (internalStartBlock dev2 = internalStartBlock dev' /\ internalEndBlock dev2 = internalEndBlock dev') as [E3 E4] by (by injection N1).
  constructor; try done.
  - by apply (saved_ages dev'); [|exact Hsv|apply H|..].
  - apply H.
  - rewrite E1, E2. assert (length (blockInfo dev') = length (blockInfo dev0)) as Li by (rewrite Ec; exact (taking_length _ _ (rewritten_info _ _ Hw))).
    pose proof (saved_length N B dev' bs ps ltac:(lia) Hsv) as Hps. rewrite Eps, blen_app, image_length in Hps by (by rewrite Hi, Hl, Li).
    pose proof (Zle_0_nat (length z)). pose proof (ss_rest _ _ _ _ _ _ _ _ _ _ _ _ _ _ H) as Hz. unfold checkpoint_size in *. rewrite EL0, EB0 in Hps. unfold blen in *. nia.
  - constructor; [by rewrite E3, E4, A1, Hl|congruence|by rewrite N6|]. unfold blen in *. rewrite N7, N6, Hl. exact A4.
  - unfold blen. by rewrite N7, EB'.
  - apply (erased_fits N B nte dev); [done|apply H|done|apply Hst].
Qed.

(** C13: yaffs_CheckpointSave, on a YAFFS2 device with good accounts, a driver that works, a
    checkpoint that fits into the erased blocks and into the sixteenth of the blocks, plus two,
    that the next mount looks through, and any file system in good order (objects in their
    table, directories and files with their trees), writes the checkpoint and succeeds; the
    accounts stay good and empty blocks are erased ones. The next mount, which makes the first
    directories and calls yaffs_CheckpointRestore, succeeds whenever there is enough memory,
    also when a bit of the stored tags of every page of the checkpoint has flipped: the states
    of the blocks and the bitmap of the chunks are what they were; every object in use is found
    by its number, with the same fields, a parent with the same number and the same chunks, and
    a hard link is linked to its object; there are no other objects; and the counters are the
    same, except that objects in the directories for unlinked and deleted files are counted a
    second time in nUnlinkedFiles. *)
Theorem checkpoint_roundtrip dev cp tm free om :
  aligned N B nte dev -> clean (Pages0 := yaffs2_pages N nte false) B dev -> accounts dev -> yaffs_CheckpointSpaceOk dev = true ->
  isCheckpointed dev = false -> skipCheckpointWrite dev = false -> isYaffs2 dev = true -> buffer_ready N YMALLOC_DMA cp -> state_ok dev tm free om ->
  checkpoint_size padding unset dev tm om <= B * nErasedBlocks dev * N ->
  checkpoint_size padding unset dev tm om <= B * (Z.quot (internalEndBlock dev - internalStartBlock dev) 16 + 2) * N ->
  exists dev' cp', yaffs_CheckpointSave (yaffs2_ops wf rf) localTags YMALLOC_DMA YMALLOC_ints padding unset dev cp tm om = Some (true, dev', cp') /\
    accounts dev' /\ clean (Pages0 := yaffs2_pages N nte false) B dev' /\
    forall dev2 cp2 tm2 om2 fuel, next_mount dev dev' dev2 -> buffer_ready N YMALLOC_DMA cp2 -> list_ready YMALLOC_ints dev2 ->
      tnodes tm2 = ∅ -> objects om2 = ∅ -> memory_needed dev2 tm om <= ymalloc_room tm2 -> (rounds_needed tm om (live_objects om) < fuel)%nat ->
      exists dev3 cp3 tm3 om3 free3,
        mount_from_checkpoint (yaffs2_ops wf rf) localTags YMALLOC_DMA YMALLOC_ints YMALLOC uninitialised fuel dev2 cp2 tm2 om2 = Some (true, dev3, cp3, tm3, om3) /\
        blockInfo dev3 = blockInfo dev' /\ chunkBits dev3 = chunkBits dev' /\
        yaffs_DeviceToCheckpointDevice dev3 =
          (yaffs_DeviceToCheckpointDevice dev') <| cpd_nUnlinkedFiles ::= fun n => n + unlinked_objects om (live_objects om) |> /\
        same_objects dev tm free om dev3 tm3 free3 om3.
Proof.
  intros Hal Hcl Hac Hsp Hnc Hskip Hy2 Hbuf Hst Hroom Hmax. pose proof (al_bytes _ _ _ _ Hal) as HN. pose proof (al_chunks _ _ _ _ Hal) as HB.
  pose proof (yaffs2_store N B nte wf rf false ltac:(lia) HB) as Hps.
  destruct (Save_spec (Pages0 := yaffs2_pages N nte false) N B nte (yaffs2_ops wf rf) localTags YMALLOC_DMA YMALLOC_ints padding unset dev cp tm free om Hal Hcl Hac Hsp Hbuf Hnc Hskip Hy2)
    as (dev' & cp' & dev0 & dev1 & infos & bs & ps & z & E & H); [by apply state_writable|done|].
  exists dev', cp'. split; [exact E|]. split; [apply H|]. split; [apply H|]. intros dev2 cp2 tm2 om2 fuel Hnm Hbuf2 Hlist Ht Ho Hmem Hfuel.
  pose proof (ss_closed _ _ _ _ _ _ _ _ _ _ _ _ _ _ H) as Ec. pose proof (ss_erased _ _ _ _ _ _ _ _ _ _ _ _ _ _ H) as He. pose proof (ss_written _ _ _ _ _ _ _ _ _ _ _ _ _ _ H) as Hw.
  assert (static dev' = static dev) as Es by (rewrite Ec; transitivity (static dev1); [done|]; rewrite (rewritten_static _ _ Hw); by apply erased_static).
  destruct (saved_infos _ _ _ _ _ _ _ _ _ _ dev2 H (st_blocks _ _ _ _ Hst) (nm_static _ _ _ Hnm)) as (l & El & Hl & Hi & Em).
  pose proof (on_flash_next _ _ _ _ _ _ _ _ _ _ _ dev2 l Hal Hac H Hst Hnm El Hl Hi Hmax) as Hfl. pose proof (yaffs2_store N B nte wf rf true ltac:(lia) HB) as Hps2.
  destruct (Mount_spec (Pages0 := yaffs2_pages N nte true) N B nte (yaffs2_ops wf rf) localTags YMALLOC_DMA YMALLOC_ints YMALLOC uninitialised padding unset fuel dev2 cp2 tm2 om2 dev dev0 tm om bs ps infos z l)
    as (dev3 & cp3 & tm3 & om3 & free3 & E3 & Hrd & Hinf & Hbits & Hcnt); try done; [|apply Hnm|apply Hnm|apply Hst|apply Hst|apply Hnm| |].
  - apply (aligned_static N B nte dev); [rewrite (nm_static _ _ _ Hnm)|]; done.
  - eapply tnode_wf_geometry; [apply Hnm|apply Hst].
  - exists dev3, cp3, tm3, om3, free3. split; [exact E3|]. split; [by rewrite Hinf|]. split; [|split; [|by apply restored_objects]].
    + rewrite Hbits, Ec. symmetry. exact (proj1 (rewritten_bits _ _ Hw)).
    + assert (nChunksPerBlock dev2 = nChunksPerBlock dev1 /\ blocksInCheckpoint dev1 = Z.of_nat (length bs)) as [En Eb].
      { pose proof (nm_static _ _ _ Hnm) as N1. pose proof (ss_count _ _ _ _ _ _ _ _ _ _ _ _ _ _ H) as Eb. rewrite Ec in N1, Eb. split; [by injection N1|exact Eb]. }
      rewrite Hcnt, En, <- Eb, Ec. by apply counters_booked.
Qed.

(** C14: On a device whose driver works, so that erasing a block succeeds and leaves its pages
    blank: when there are more erased blocks than reserved ones, yaffs_InvalidateCheckpoint
    erases the checkpoint, the accounts stay good, and yaffs_CheckpointRestore, when the device
    is mounted later, finds no checkpoint, fails and changes no object and no tnode. When there
    are not, it only clears isCheckpointed: the old checkpoint stays on the flash memory. *)
Theorem invalidated_checkpoint dev :
  aligned N B nte dev -> clean (Pages0 := yaffs2_pages N nte false) B dev -> accounts dev ->
  isCheckpointed dev || (0 <? blocksInCheckpoint dev) = true ->
  if yaffs_CheckpointSpaceOk dev then
    exists dev', yaffs_InvalidateCheckpoint (yaffs2_ops wf rf) dev = Some dev' /\
      accounts dev' /\ clean (Pages0 := yaffs2_pages N nte false) B dev' /\
      forall fuel dev2 cp2 tm2 om2, static dev2 = static dev' -> (forall c, same_page (genericDevice dev') (genericDevice dev2) (c * N)) ->
        skipCheckpointRead dev2 = false -> isYaffs2 dev2 = true -> buffer_ready N YMALLOC_DMA cp2 -> list_ready YMALLOC_ints dev2 ->
        exists dev3 cp3, yaffs_CheckpointRestore (yaffs2_ops wf rf) localTags YMALLOC_DMA YMALLOC_ints YMALLOC uninitialised fuel dev2 cp2 tm2 om2 =
          Some (false, dev3, cp3, tm2, om2)
  else yaffs_InvalidateCheckpoint (yaffs2_ops wf rf) dev = Some (dev <| isCheckpointed := false |>).
Proof.
  intros Hal Hcl Hac Hcp. unfold yaffs_InvalidateCheckpoint, yaffs_CheckpointInvalidateStream. rewrite Hcp. set (dev0 := dev <| isCheckpointed := false |>).
  change (yaffs_CheckpointSpaceOk dev0) with (yaffs_CheckpointSpaceOk dev). destruct (yaffs_CheckpointSpaceOk dev); [|done]. cbn [negb].
  pose proof (al_bytes _ _ _ _ Hal) as HN. pose proof (al_chunks _ _ _ _ Hal) as HB. pose proof (yaffs2_store N B nte wf rf false ltac:(lia) HB) as Hst.
  assert (clean (Pages0 := yaffs2_pages N nte false) B dev0) as Hcl0 by (by destruct Hcl).
  destruct (Erase_spec (Pages0 := yaffs2_pages N nte false) N B nte (yaffs2_ops wf rf) dev0) as (dev' & -> & He & C1 & A1 & _ & Hno);
    [by apply (aligned_static N B nte dev)|done|by apply (accounts_quiet None 0 dev)|].
  cbn [mbind option_bind]. exists dev'. split; [done|]. split; [done|]. split; [done|]. intros fuel dev2 cp2 tm2 om2 S2 Hsame Hskip Hy2 Hbuf Hlist.
  pose proof (ac_geometry _ _ _ A1) as [_ _ _ Hend _ _]. pose proof (erased_static _ _ He) as S1.
  assert (internalStartBlock dev2 = internalStartBlock dev' /\ internalEndBlock dev2 = internalEndBlock dev') as [E1 E2] by (by injection S2).
  apply (restore_nothing (Pages0 := yaffs2_pages N nte false) N B nte); try done.
  - apply (aligned_static N B nte dev); [exact (eq_trans S2 S1)|done].
  - rewrite E1, E2. intros b Hb. rewrite (static_page B dev' dev2) by done.
    apply (kept_foreign (Pages0 := yaffs2_pages N nte false) (fun _ => False) (genericDevice dev')); [|by intros ?|by apply clean_foreign].
    apply pages_same. intros c _. apply Hsame.
  - lia.
Qed.

End Device.

(** ** Running out of blocks *)

Section Full.
Context {mtd : Type} (ops : nand_ops mtd) (localTags : yaffs_ExtendedTags).

Implicit Types (dev : yaffs_Device mtd) (cp : checkpoint).

Lemma next_erased_none n : forall dev j,
  (j + n = length (blockInfo dev))%nat ->
  (forall i bi, (j <= i)%nat -> blockInfo dev !! i = Some bi -> blockState bi <> YAFFS_BLOCK_STATE_EMPTY) ->
  next_erased_loop n dev (blk dev j) = Some None.
Proof.
  induction n as [|n IH]; intros dev j Hn Hf; cbn [next_erased_loop]; [done|].
  destruct (lookup_lt_is_Some_2 (blockInfo dev) j) as [bi Hi]; [lia|]. rewrite GetBlockInfo_blk, Hi. cbn [mbind option_bind].
  rewrite bool_decide_false by (by apply (Hf j)). rewrite blk_succ. apply IH; [lia|]. intros i bi' Hj. apply Hf. lia.
Qed.

(** A stream that needs a block when there is none: the blocks from the next one on are in use. *)
Record stranded dev cp (buffer : list Z) : Prop := {
  sn_buffer : checkpointBuffer cp = Some buffer;
  sn_length : blen buffer = nDataBytesPerChunk dev;
  sn_open : checkpointOpenForWrite cp = true;
  sn_offset : 0 <= checkpointByteOffset cp;
  sn_block : checkpointCurrentBlock cp < 0;
  sn_end : internalEndBlock dev = internalStartBlock dev + Z.of_nat (length (blockInfo dev)) - 1;
  sn_next : internalStartBlock dev <= checkpointNextBlock cp;
  sn_used : forall i bi, blockInfo dev !! i = Some bi -> checkpointNextBlock cp <= blk dev i -> blockState bi <> YAFFS_BLOCK_STATE_EMPTY
}.

Lemma stranded_flush dev cp buffer : stranded dev cp buffer ->
  yaffs_CheckpointFlushBuffer ops localTags dev cp =
  Some (0, dev, cp <| checkpointNextBlock := -1 |> <| checkpointCurrentBlock := -1 |> <| checkpointCurrentChunk := 0 |>).
Proof.
  intros []. unfold yaffs_CheckpointFlushBuffer, yaffs_CheckpointFindNextErasedBlock. rewrite (proj2 (Z.ltb_lt _ 0)) by done.
  assert ((if (0 <=? checkpointNextBlock cp) && (checkpointNextBlock cp <=? internalEndBlock dev) && (0 <? nErasedBlocks dev - nReservedBlocks dev)
     then next_erased_loop (Z.to_nat (internalEndBlock dev - checkpointNextBlock cp + 1)) dev (checkpointNextBlock cp) else Some None) = Some None) as ->; [|done].
  destruct (_ && _) eqn:E; [|done]. apply andb_true_iff in E as [[_ E]%andb_true_iff _]. apply Z.leb_le in E.
  set (j := Z.to_nat (checkpointNextBlock cp - internalStartBlock dev)). assert (checkpointNextBlock cp = blk dev j) as Ej by (unfold blk, j; lia).
  rewrite Ej. replace (Z.to_nat (internalEndBlock dev - blk dev j + 1)) with (length (blockInfo dev) - j)%nat by (unfold blk, j in *; lia).
  apply next_erased_none; [unfold blk, j in *; lia|]. intros i bi Hj Hi. apply (sn_used0 i bi Hi). rewrite Ej. unfold blk. lia.
Qed.

Lemma stranded_write data n : forall dev cp buffer i,
  stranded dev cp buffer -> checkpointByteOffset cp < nDataBytesPerChunk dev -> nDataBytesPerChunk dev - checkpointByteOffset cp <= Z.of_nat n ->
  0 <= i -> i + Z.of_nat n <= blen data ->
  exists cp' buffer', write_stream ops localTags n (var_bytes data) i dev cp = Some (i + (nDataBytesPerChunk dev - checkpointByteOffset cp), dev, cp') /\
    checkpointBuffer cp' = Some buffer' /\ blen buffer' = nDataBytesPerChunk dev /\ checkpointByteOffset cp' = nDataBytesPerChunk dev /\
    checkpointOpenForWrite cp' = true.
Proof.
  induction n as [|n IH]; intros dev cp buffer i Hs Hlt Hlen Hi Hn; cbn [write_stream]; [lia|]. unfold blen in Hn.
  destruct (lookup_lt_is_Some_2 data (Z.to_nat i)) as [b Hb]; [lia|]. assert (var_bytes data dev i = Some b) as -> by (unfold var_bytes, get; by rewrite (proj2 (Z.leb_le 0 i))). cbn [mbind option_bind].
  pose proof Hs as []. rewrite sn_buffer0. cbn [mbind option_bind]. unfold set. rewrite (proj2 (Z.leb_le _ _)), (proj2 (Z.ltb_lt _ _)) by lia.
  cbn [andb mbind option_bind]. set (buffer1 := <[Z.to_nat (checkpointByteOffset cp) := b]> buffer). set (cp1 := count_byte _ b).
  assert (stranded dev cp1 buffer1) as Hs1.
  { constructor; try done; [unfold blen, buffer1; by rewrite length_insert|change (0 <= Z.succ (checkpointByteOffset cp)); lia]. }
  change (checkpointByteOffset cp1) with (Z.succ (checkpointByteOffset cp)). rewrite (proj2 (Z.ltb_ge _ 0)) by lia. cbn [orb].
  destruct (Z.leb_spec (nDataBytesPerChunk dev) (Z.succ (checkpointByteOffset cp))) as [Hfull|Hmore].
  - rewrite (stranded_flush dev cp1 buffer1 Hs1). cbn [mbind option_bind]. change (truthy 0) with false. cbv iota.
    eexists _, buffer1. split; [by replace (i + (nDataBytesPerChunk dev - checkpointByteOffset cp)) with (i + 1) by lia|]. split; [done|]. split; [apply Hs1|]. split; [|exact sn_open0].
    change (Z.succ (checkpointByteOffset cp) = nDataBytesPerChunk dev). lia.
  - destruct (IH dev cp1 buffer1 (i + 1) Hs1) as (cp' & buffer' & -> & H); try (change (checkpointByteOffset cp1) with (Z.succ (checkpointByteOffset cp)); unfold blen; lia).
    exists cp', buffer'. split; [|done]. change (checkpointByteOffset cp1) with (Z.succ (checkpointByteOffset cp)).
    by replace (i + 1 + (nDataBytesPerChunk dev - Z.succ (checkpointByteOffset cp))) with (i + (nDataBytesPerChunk dev - checkpointByteOffset cp)) by lia.
Qed.

(** C26: When a checkpoint needs another block and none is erased, yaffs_CheckpointWrite stops after
    the byte that fills the buffer and returns the number of bytes up to it, which is the full
    count when that byte is the last one, although the page is not written. The buffer is left
    full, so that the next call of yaffs_CheckpointWrite stores a byte behind its end. *)
Theorem checkpoint_out_of_blocks dev cp buffer data :
  stranded dev cp buffer -> checkpointByteOffset cp < nDataBytesPerChunk dev -> nDataBytesPerChunk dev - checkpointByteOffset cp <= blen data ->
  exists cp', yaffs_CheckpointWrite ops localTags dev cp (var_bytes data) (blen data) = Some (nDataBytesPerChunk dev - checkpointByteOffset cp, dev, cp') /\
    forall b more, yaffs_CheckpointWrite ops localTags dev cp' (var_bytes (b :: more)) (blen (b :: more)) = None.
Proof.
  intros Hs Hlt Hlen. unfold yaffs_CheckpointWrite at 1. rewrite (sn_buffer _ _ _ Hs), (sn_open _ _ _ Hs), bool_decide_false by done. cbn [negb]. unfold blen at 1. rewrite Nat2Z.id.
  destruct (stranded_write data (length data) dev cp buffer 0 Hs Hlt Hlen) as (cp' & buffer' & -> & Hb & Hl & Ho & Hop); [done|unfold blen; lia|]. exists cp'. split; [done|].
  intros b more. unfold yaffs_CheckpointWrite. rewrite Hb, Hop, bool_decide_false by done. unfold blen. rewrite Nat2Z.id. cbn [negb length write_stream].
  change (var_bytes (b :: more) dev 0) with (Some b). cbn [mbind option_bind]. rewrite Hb, Ho. cbn [mbind option_bind].
  unfold set. by rewrite Hl, Z.ltb_irrefl, andb_false_r.
Qed.

End Full.

(** ** A device *)

#[export] Instance flash_reliable nte : ReliableMtd 8 nte flash.
Proof.
  split.
  - intros s a ops _ _. eexists. split; [done|]. intros a' _ Hne. unfold same_page. cbn [page_data page_oob flash_medium fl_data fl_oob].
    split; [destruct (datbuf ops)|destruct (oobbuf ops)]; try done; unfold upd; by rewrite (proj2 (Z.eqb_neq a' a)).
  - intros s a ops _ _. eexists _, _, _. split; [done|]. split; [by left|]. done.
  - intros s a n _ _. eexists. split; [done|]. intros a' _. unfold erased_page, same_page. cbn [page_data page_oob flash_medium fl_data fl_oob].
    case_bool_decide; [|done]. split; [done|]. destruct nte; [by exists (replicate 16 255)|by exists (replicate 4 255)].
Qed.

(** A flash memory whose first page was written. *)
Definition cp_flash : flash := mk_flash (upd (fun _ => replicate 8 255) 0 (replicate 8 9)) (upd (fun _ => replicate 32 255) 0 (replicate 32 0)).

Definition free_block : yaffs_BlockInfo := yaffs_BlockInfo_zero <| blockState := YAFFS_BLOCK_STATE_EMPTY |>.
Definition old_block : yaffs_BlockInfo := yaffs_BlockInfo_zero <| blockState := YAFFS_BLOCK_STATE_CHECKPOINT |>.

(** A device with blocks of [b] chunks of eight bytes: one with an old checkpoint, and [n] erased, of which
    [r] are reserved. *)
Definition cp_dev (b : Z) (n : nat) (r : Z) : yaffs_Device flash :=
  (zero_device cp_flash) <| nDataBytesPerChunk := 8 |> <| totalBytesPerChunk := 8 |> <| nChunksPerBlock := b |> <| isYaffs2 := true |>
    <| spareBuffer := replicate 32 0 |> <| internalStartBlock := 1 |> <| internalEndBlock := Z.of_nat (S n) |> <| blockOffset := 1 |>
    <| chunkOffset := b |> <| blockInfo := old_block :: replicate n free_block |> <| chunkBits := replicate (Z.to_nat ((b + 7) / 8) * S n) 0 |>
    <| chunkBitmapStride := (b + 7) / 8 |> <| blocksInCheckpoint := 1 |> <| nReservedBlocks := r |> <| nErasedBlocks := Z.of_nat n |> <| nFreeChunks := b * Z.of_nat n |>
    <| allocationBlock := -1 |> <| tnodeWidth := 16 |> <| tnodeMask := 65535 |> <| chunkGroupSize := 1 |> <| nTnodesCreated := 1 |>.

Definition cp_closed : checkpoint := mk_cp 0 0 0 None false 0 0 0 None 0 0 0.

Definition some_memory (n : Z) : option (list Z) := Some (replicate (Z.to_nat n) 7).

Lemma cp_accounts r : accounts (cp_dev 64 3 r).
Proof.
  constructor; [|intros [|[|[|[|i]]]] bi [= <-]; done|done|done|by left].
  constructor; [done..|]. by repeat apply Forall_cons_2.
Qed.

Lemma cp_aligned r : aligned 8 64 false (cp_dev 64 3 r).
Proof. by constructor. Qed.

Lemma cp_clean r : clean (Pages0 := yaffs2_pages 8 false false) 64 (cp_dev 64 3 r).
Proof.
  assert (forall b p, b <> 1 -> 0 <= p < 64 -> erased_page 8 false cp_flash (page_no 64 (cp_dev 64 3 r) b p * 8)) as He.
  { intros b p Hb Hp. unfold erased_page. cbn [page_data page_oob flash_medium fl_data fl_oob cp_flash]. unfold upd.
    rewrite (proj2 (Z.eqb_neq _ 0)); [split; [done|by exists (replicate 4 255)]|]. unfold page_no. change (blockOffset (cp_dev 64 3 r)) with 1. lia. }
  assert (forall i bi, blockInfo (cp_dev 64 3 r) !! i = Some bi -> blockState bi <> YAFFS_BLOCK_STATE_CHECKPOINT -> blk (cp_dev 64 3 r) i <> 1) as Hne.
  { intros [|i] bi Hi Hs; [injection Hi as <-; by destruct Hs|]. unfold blk. change (internalStartBlock (cp_dev 64 3 r)) with 1. lia. }
  split; [intros i bi p Hi Hs Hp|intros i bi Hi Hs].
  - apply He; [|done]. apply (Hne i bi Hi). congruence.
  - apply blank_foreign, He; [|lia]. by apply (Hne i bi Hi).
Qed.

(** *** Its objects *)

(** The object memory with the given objects. *)
Definition bucket_for (l : list (Z * yaffs_Object)) (k : nat) : yaffs_ObjectBucket :=
  mk_bucket (filter (fun x => bucket_of (obj_objectId x.2) = k) l).*1 0.

Definition om_of (l : list (Z * yaffs_Object)) : object_memory :=
  mk_om (list_to_map l) [] [] (bucket_for l <$> seq 0 256) 300 400 100 200 0.

Lemma om_of_lookup l a o : NoDup l.*1 -> objects (om_of l) !! a = Some o <-> (a, o) ∈ l.
Proof. intros Hn. symmetry. by apply elem_of_list_to_map. Qed.

Lemma om_of_table l : NoDup l.*1 -> NoDup (obj_objectId ∘ snd <$> l) -> Forall (fun x => number_ok (obj_objectId x.2)) l -> table (om_of l).
Proof.
  intros Hn Hi Hok. pose proof (fun a o => om_of_lookup l a o Hn) as Hl. constructor.
  - change (length (bucket_for l <$> seq 0 256) = 256%nat). by rewrite length_fmap, length_seq.
  - intros k b a Hb Ha. change ((bucket_for l <$> seq 0 256) !! k = Some b) in Hb.
    apply list_lookup_fmap_Some in Hb as (k' & -> & Hk). apply lookup_seq in Hk as [-> _]. cbn [bucket_list bucket_for] in Ha. apply list_elem_of_fmap in Ha as ([a' o] & -> & Ha).
    apply list_elem_of_filter in Ha as [E Ha]. exists o. split; [by apply Hl|done].
  - intros a o Ha%Hl. exists (bucket_for l (bucket_of (obj_objectId o))). split.
    + change ((bucket_for l <$> seq 0 256) !! bucket_of (obj_objectId o) = Some (bucket_for l (bucket_of (obj_objectId o)))).
      rewrite list_lookup_fmap, lookup_seq_lt by apply bucket_of_range. done.
    + cbn [bucket_list bucket_for]. apply list_elem_of_fmap. exists (a, o). split; [done|]. by apply list_elem_of_filter.
  - intros a a' o o' Ha%Hl Ha'%Hl E. apply list_elem_of_lookup in Ha as [i Ha], Ha' as [i' Ha'].
    assert (i = i') as <-; [|congruence]. eapply (NoDup_lookup (obj_objectId ∘ snd <$> l)); [done|by rewrite list_lookup_fmap, Ha|rewrite list_lookup_fmap, Ha'; simpl; by rewrite E].
  - intros a o Ha%Hl. by apply (proj1 (Forall_forall _ _) Hok _ Ha).
Qed.

(** The four directories, a file with one chunk in the root directory and a hard link to it. *)
Definition cp_directory (n p : Z) : yaffs_Object := zero_object <| obj_objectId := n |> <| variantType := YAFFS_OBJECT_TYPE_DIRECTORY |> <| parent := p |> <| fake := true |>.

Definition cp_objects : list (Z * yaffs_Object) :=
  [(100, cp_directory YAFFS_OBJECTID_UNLINKED 0); (200, cp_directory YAFFS_OBJECTID_DELETED 0); (300, cp_directory YAFFS_OBJECTID_ROOT 0);
   (400, cp_directory YAFFS_OBJECTID_LOSTNFOUND 300);
   (500, leaf_obj <| parent := 300 |> <| hdrChunk := 7 |>);
   (600, zero_object <| obj_objectId := 301 |> <| variantType := YAFFS_OBJECT_TYPE_HARDLINK |> <| parent := 300 |> <| equivalentObjectId := 300 |> <| equivalentObject := 500 |>)].

Lemma cp_table : table (om_of cp_objects).
Proof. apply om_of_table; [by apply (bool_decide_unpack _)..|]. by repeat apply Forall_cons_2. Qed.

Lemma cp_all (P : Z -> yaffs_Object -> Prop) : Forall (fun x => P x.1 x.2) cp_objects -> forall a o, objects (om_of cp_objects) !! a = Some o -> P a o.
Proof.
  intros H a o Ha. apply om_of_lookup in Ha; [|by apply (bool_decide_unpack _)]. by apply (proj1 (Forall_forall _ _) H (a, o)).
Qed.

Lemma cp_savable : savable (om_of cp_objects).
Proof.
  constructor.
  - exact cp_table.
  - apply (bool_decide_unpack _). vm_compute. done.
  - intros a o [Ha _]. revert a o Ha. apply (cp_all (fun a o => parent o <> 0 -> exists p1, recorded (om_of cp_objects) (parent o) p1 /\ variantType p1 = YAFFS_OBJECT_TYPE_DIRECTORY)).
    repeat apply Forall_cons_2; try apply Forall_nil_2; intros Hp; try (by destruct Hp); exists (cp_directory YAFFS_OBJECTID_ROOT 0); (split; [split|]; done).
  - intros a o [Ha _]. revert a o Ha. apply cp_all. repeat apply Forall_cons_2; try apply Forall_nil_2; simpl; apply (bool_decide_unpack _); vm_compute; done.
  - intros n Hn. rewrite !elem_of_cons, elem_of_nil in Hn.
    destruct Hn as [->|[->|[->|[->|[]]]]]; [exists 300|exists 400|exists 100|exists 200]; eexists; (split; [split; [vm_compute; reflexivity|]|]; done).
Qed.

Lemma cp_wf : tnode_wf (cp_dev 64 3 0).
Proof. split; try done. by exists 8. Qed.

(** The file has its chunk in entry 1. *)
Definition cp_memory : tnode_memory := leaf_mem 262144 0.

Lemma cp_file : file_ok (cp_dev 64 3 0) cp_memory [] (fileVariant leaf_obj) {[4096]} (leaf_fun (cp_dev 64 3 0) (leaf_words 262144 0)).
Proof. apply leaf_file_on; try done. apply cp_wf. Qed.

Lemma cp_state : state_ok (cp_dev 64 3 0) cp_memory [] (om_of cp_objects).
Proof.
  constructor; [apply cp_savable|apply cp_wf| | |by repeat apply Forall_cons_2|by constructor].
  - intros a o [Ha _]. revert a o Ha. apply (cp_all (fun a o => variantType o = YAFFS_OBJECT_TYPE_FILE -> exists s f, file_ok (cp_dev 64 3 0) cp_memory [] (fileVariant o) s f)).
    repeat apply Forall_cons_2; try apply Forall_nil_2; intros Ht; try discriminate Ht. eexists _, _. apply cp_file.
  - intros a o [Ha _]. revert a o Ha. apply (cp_all (fun _ o => object_fits (cp_dev 64 3 0) cp_memory o)).
    assert (leaf_fits (cp_dev 64 3 0) (0, leaf_words 262144 0)) as Hleaf by (split; [by apply leaf_tnode|done]).
    repeat apply Forall_cons_2; try apply Forall_nil_2; constructor; try done; try apply Forall_nil_2. by apply Forall_singleton.
Qed.

(** Mounting the device again, with the flash memory as it was left. *)
Definition cp_mount (dev' : yaffs_Device flash) : yaffs_Device flash :=
  dev' <| isYaffs2 := true |> <| skipCheckpointRead := false |> <| tnodeWidth := 16 |> <| tnodeMask := 65535 |> <| chunkGroupBits := 0 |>.

Definition no_tnodes : tnode_memory := mk_tm ∅ ∅ 0 0 [].

Lemma cp_next dev' : next_mount 8 64 false (cp_dev 64 3 0) dev' (cp_mount dev').
Proof. constructor; try reflexivity; [repeat split|]. intros c. split; [reflexivity|by left]. Qed.

Lemma checkpoint_roundtrip_witness :
  exists dev' cp' dev3 cp3 tm3 om3 a o,
    yaffs_CheckpointSave demo2_ops etags_zero some_memory some_memory (fun _ => 0) (fun _ => 0) (cp_dev 64 3 0) cp_closed cp_memory (om_of cp_objects) = Some (true, dev', cp') /\
    mount_from_checkpoint demo2_ops etags_zero some_memory some_memory bump (fun _ => 0) 20 (cp_mount dev') cp_closed no_tnodes (om_of []) = Some (true, dev3, cp3, tm3, om3) /\
    yaffs_FindObjectByNumber om3 300 = Some a /\ objects om3 !! a = Some o /\ hdrChunk o = 7.
Proof.
  destruct (checkpoint_roundtrip 8 64 false no_write no_read etags_zero some_memory some_memory bump (fun _ => 0) (fun _ => 0) (fun _ => 0)
    (cp_dev 64 3 0) cp_closed cp_memory [] (om_of cp_objects) (cp_aligned 0) (cp_clean 0) (cp_accounts 0) eq_refl eq_refl eq_refl eq_refl) as (dev' & cp' & E & [[_ _ _ Hend _ _] _ _ _ _] & _ & H).
  - by eexists.
  - apply cp_state.
  - vm_compute. discriminate.
  - vm_compute. discriminate.
  - destruct (H (cp_mount dev') cp_closed no_tnodes (om_of []) 20%nat (cp_next dev')) as (dev3 & cp3 & tm3 & om3 & free3 & E3 & _ & _ & _ & Hsame & _).
    + exists (replicate 8 7). split; reflexivity.
    + intros n ->. eexists. split; [reflexivity|]. unfold blen. rewrite length_replicate. apply Z2Nat.id, max_blocks_pos.
      change (internalStartBlock dev' <= internalEndBlock dev' + 1). lia.
    + reflexivity.
    + reflexivity.
    + vm_compute. discriminate.
    + vm_compute. lia.
    + destruct (Hsame 500 (leaf_obj <| parent := 300 |> <| hdrChunk := 7 |>)) as (a & o & s & Hf & Ho & Er & _); [reflexivity|reflexivity|].
      exists dev', cp', dev3, cp3, tm3, om3, a, o. split; [exact E|]. split; [exact E3|]. split; [exact Hf|]. split; [exact Ho|].
      apply (f_equal (fmap cpo_hdrChunk)) in Er. change (cpo_hdrChunk <$> record_of om3 o = Some 7) in Er.
      unfold record_of, yaffs_ObjectToCheckpointObject in Er. destruct (if truthy (parent o) then _ else _); [|done]. by injection Er.
Defined.

(** A device with two blocks for the checkpoint, when they are filled and three more bytes are in the buffer. *)
Definition full_stream : yaffs_Device flash * checkpoint :=
  match yaffs_CheckpointOpen demo2_ops some_memory some_memory (cp_dev 4 1 0) cp_closed true with
  | Some (_, dev, cp) => match yaffs_CheckpointWrite demo2_ops etags_zero dev cp (var_bytes (replicate 67 1)) 67 with
                         | Some (_, dev, cp) => (dev, cp)
                         | None => (dev, cp)
                         end
  | None => (cp_dev 4 1 0, cp_closed)
  end.

Lemma checkpoint_out_of_blocks_witness :
  exists cp', yaffs_CheckpointWrite demo2_ops etags_zero (fst full_stream) (snd full_stream) (var_bytes [1; 2; 3; 4; 5]) 5 = Some (5, fst full_stream, cp') /\
    yaffs_CheckpointWrite demo2_ops etags_zero (fst full_stream) cp' (var_bytes [6]) 1 = None.
Proof.
  destruct (checkpoint_out_of_blocks demo2_ops etags_zero (fst full_stream) (snd full_stream) [1; 1; 1; 0; 0; 0; 0; 0] [1; 2; 3; 4; 5]) as (cp' & E & H).
  - constructor; try (vm_compute; reflexivity); try (vm_compute; discriminate).
    intros [|[|i]] bi Hi _; vm_compute in Hi; [injection Hi as <-; discriminate..|discriminate].
  - vm_compute. reflexivity.
  - vm_compute. discriminate.
  - exists cp'. split; [exact E|exact (H 6 [])].
Defined.

(** There is space to erase it, or there is not. *)
Lemma invalidated_checkpoint_witness :
  (exists dev' dev3 cp3,
     yaffs_InvalidateCheckpoint demo2_ops (cp_dev 64 3 2) = Some dev' /\
     yaffs_CheckpointRestore demo2_ops etags_zero some_memory some_memory bump (fun _ => 0) 20 (cp_mount dev') cp_closed no_tnodes (om_of []) =
       Some (false, dev3, cp3, no_tnodes, om_of [])) /\
  yaffs_InvalidateCheckpoint demo2_ops (cp_dev 64 3 3) = Some ((cp_dev 64 3 3) <| isCheckpointed := false |>).
Proof.
  split.
  - pose proof (invalidated_checkpoint 8 64 false no_write no_read etags_zero some_memory some_memory bump (fun _ => 0) (cp_dev 64 3 2) (cp_aligned 2) (cp_clean 2) (cp_accounts 2) eq_refl) as H.
    change (yaffs_CheckpointSpaceOk (cp_dev 64 3 2)) with true in H. destruct H as (dev' & E & [[_ _ _ Hend _ _] _ _ _ _] & _ & H).
    destruct (H 20%nat (cp_mount dev') cp_closed no_tnodes (om_of [])) as (dev3 & cp3 & E3).
    + reflexivity.
    + intros c. split; reflexivity.
    + reflexivity.
    + reflexivity.
    + exists (replicate 8 7). split; reflexivity.
    + intros n ->. eexists. split; [reflexivity|]. unfold blen. rewrite length_replicate. apply Z2Nat.id, max_blocks_pos.
      change (internalStartBlock dev' <= internalEndBlock dev' + 1). lia.
    + exists dev', dev3, cp3. split; [exact E|exact E3].
  - exact (invalidated_checkpoint 8 64 false no_write no_read etags_zero some_memory some_memory bump (fun _ => 0) (cp_dev 64 3 3) (cp_aligned 3) (cp_clean 3) (cp_accounts 3) eq_refl).
Defined.
