(* ===== verification/Crc.v ===== *)
(** * CRCs of the kernel library and of the boot loader

    lib/crc32.c with its table generator lib/gen_crc32table.c, the 16-bit and
    7-bit CRCs of lib/, lib/bitrev.c, and the zlib CRC-32 the boot loader uses for
    images and the environment (u-boot-1.1.6/lib_generic/crc32.c).  The reference
    definitions are the bit-at-a-time variants the sources carry. *)

From S2P Require Import Prelude.

Local Open Scope Z_scope.

Definition crc_tab (t : list Z) (x : Z) : Z := default 0 (t !! Z.to_nat x).

#[global] Arguments crc_tab : simpl never.

(** ** lib/crc32defs.h *)

Definition CRCPOLY_LE : Z := 0xedb88320.

Definition CRCPOLY_BE : Z := 0x04c11db7.

(** ** lib/gen_crc32table.c *)

Definition le_bit (crc : Z) : Z :=
  Z.lxor (Z.shiftr crc 1) (if truthy (Z.land crc 1) then CRCPOLY_LE else 0).

Definition be_bit (crc : Z) : Z :=
  u32 (Z.lxor (Z.shiftl crc 1) (if truthy (Z.land crc 0x80000000) then CRCPOLY_BE else 0)).

(** The inner loop [for (j = 0; j < 256; j += 2 * i)], at most [n] iterations. *)
Fixpoint le_fill (n : nat) (i j crc : Z) (t : list Z) : list Z :=
  match n with
  | O => t
  | S n' => if j <? 256
            then le_fill n' i (j + 2 * i) crc (<[Z.to_nat (i + j) := Z.lxor crc (crc_tab t j)]> t)
            else t
  end.

(** The outer loop [for (i = 128; i; i >>= 1)]. *)
Fixpoint le_outer (n : nat) (i crc : Z) (t : list Z) : list Z :=
  match n with
  | O => t
  | S n' => if i =? 0 then t
            else let crc := le_bit crc in
                 le_outer n' (Z.shiftr i 1) crc (le_fill 256 i 0 crc t)
  end.

(** The static table starts zeroed. *)
Definition crc32init_le : list Z := le_outer 9 (Z.shiftl 1 7) 1 (<[0%nat := 0]> (replicate 256 0)).

Fixpoint be_fill (n : nat) (i j crc : Z) (t : list Z) : list Z :=
  match n with
  | O => t
  | S n' => if j <? i
            then be_fill n' i (j + 1) crc (<[Z.to_nat (i + j) := Z.lxor crc (crc_tab t j)]> t)
            else t
  end.

Fixpoint be_outer (n : nat) (i crc : Z) (t : list Z) : list Z :=
  match n with
  | O => t
  | S n' => if i <? 256
            then let crc := be_bit crc in
                 be_outer n' (Z.shiftl i 1) crc (be_fill 256 i 0 crc t)
            else t
  end.

Definition crc32init_be : list Z := be_outer 9 1 0x80000000 (<[0%nat := 0]> (replicate 256 0)).

Definition crc32table_le : list Z := Eval vm_compute in crc32init_le.

(** [tobe] of the table entries on a little-endian machine. *)
Definition swab32 (x : Z) : Z :=
  Z.lor (Z.lor (Z.lor (Z.shiftl (Z.land x 0xff) 24) (Z.shiftl (Z.land x 0xff00) 8))
    (Z.shiftr (Z.land x 0xff0000) 8)) (Z.shiftr (Z.land x 0xff000000) 24).

Definition crc32table_be : list Z := Eval vm_compute in (swab32 <$> crc32init_be).

(** ** lib/crc32.c *)

(** [CRC_LE_BITS == 1]: the bit-at-a-time variant. *)
Definition le_byte_bitwise (crc x : Z) : Z := Nat.iter 8 le_bit (Z.lxor crc x).

Definition crc32_le_bitwise (crc : Z) (p : list Z) : Z := fold_left le_byte_bitwise p crc.

(** [CRC_BE_BITS == 1]. *)
Definition be_byte_bitwise (crc x : Z) : Z := Nat.iter 8 be_bit (Z.lxor crc (Z.shiftl x 24)).

Definition crc32_be_bitwise (crc : Z) (p : list Z) : Z := fold_left be_byte_bitwise p crc.

(** The macro [DO_CRC] on a little-endian machine. *)
Definition DO_CRC (t : list Z) (crc x : Z) : Z :=
  Z.lxor (crc_tab t (Z.land (Z.lxor crc x) 255)) (Z.shiftr crc 8).

#[global] Arguments DO_CRC : simpl never.

(** The do-while loop that consumes bytes until the pointer is aligned; [b] is
    the address of the head of [p]. *)
Fixpoint align_loop (t : list Z) (b : Z) (p : list Z) (crc : Z) : Z * list Z :=
  match p with
  | [] => (crc, [])
  | x :: p' =>
      let crc := DO_CRC t crc x in
      if truthy (blen p') && tst (b + 1) 3 then align_loop t (b + 1) p' crc else (crc, p')
  end.

Definition le32 (b0 b1 b2 b3 : Z) : Z :=
  Z.lor (Z.lor (Z.lor b0 (Z.shiftl b1 8)) (Z.shiftl b2 16)) (Z.shiftl b3 24).

(** The word loop, [n] iterations. *)
Fixpoint word_loop (t : list Z) (n : nat) (p : list Z) (crc : Z) : Z * list Z :=
  match n, p with
  | S n', b0 :: b1 :: b2 :: b3 :: p' =>
      let crc := Z.lxor crc (le32 b0 b1 b2 b3) in
      let crc := DO_CRC t crc 0 in
      let crc := DO_CRC t crc 0 in
      let crc := DO_CRC t crc 0 in
      let crc := DO_CRC t crc 0 in
      word_loop t n' p' crc
  | _, _ => (crc, p)
  end.

(** The common body of [crc32_le] and [crc32_be] ([CRC_xx_BITS == 8]) on the
    bytes [p] at address [b]. *)
Definition crc32_body (t : list Z) (b : Z) (p : list Z) (crc : Z) : Z :=
  let '(crc, p) :=
    if tst b 3 && truthy (blen p) then align_loop t b p crc else (crc, p) in
  let '(crc, p) :=
    if 4 <=? blen p
    then word_loop t (Z.to_nat (Z.shiftr (blen p) 2)) p crc else (crc, p) in
  fold_left (DO_CRC t) p crc.

Definition crc32_le (crc b : Z) (p : list Z) : Z := crc32_body crc32table_le b p crc.

Definition crc32_be (crc b : Z) (p : list Z) : Z :=
  swab32 (crc32_body crc32table_be b p (swab32 crc)).

(** ** lib/crc16.c *)

Definition crc16_table : list Z := [
  0x0000; 0xC0C1; 0xC181; 0x0140; 0xC301; 0x03C0; 0x0280; 0xC241;
  0xC601; 0x06C0; 0x0780; 0xC741; 0x0500; 0xC5C1; 0xC481; 0x0440;
  0xCC01; 0x0CC0; 0x0D80; 0xCD41; 0x0F00; 0xCFC1; 0xCE81; 0x0E40;
  0x0A00; 0xCAC1; 0xCB81; 0x0B40; 0xC901; 0x09C0; 0x0880; 0xC841;
  0xD801; 0x18C0; 0x1980; 0xD941; 0x1B00; 0xDBC1; 0xDA81; 0x1A40;
  0x1E00; 0xDEC1; 0xDF81; 0x1F40; 0xDD01; 0x1DC0; 0x1C80; 0xDC41;
  0x1400; 0xD4C1; 0xD581; 0x1540; 0xD701; 0x17C0; 0x1680; 0xD641;
  0xD201; 0x12C0; 0x1380; 0xD341; 0x1100; 0xD1C1; 0xD081; 0x1040;
  0xF001; 0x30C0; 0x3180; 0xF141; 0x3300; 0xF3C1; 0xF281; 0x3240;
  0x3600; 0xF6C1; 0xF781; 0x3740; 0xF501; 0x35C0; 0x3480; 0xF441;
  0x3C00; 0xFCC1; 0xFD81; 0x3D40; 0xFF01; 0x3FC0; 0x3E80; 0xFE41;
  0xFA01; 0x3AC0; 0x3B80; 0xFB41; 0x3900; 0xF9C1; 0xF881; 0x3840;
  0x2800; 0xE8C1; 0xE981; 0x2940; 0xEB01; 0x2BC0; 0x2A80; 0xEA41;
  0xEE01; 0x2EC0; 0x2F80; 0xEF41; 0x2D00; 0xEDC1; 0xEC81; 0x2C40;
  0xE401; 0x24C0; 0x2580; 0xE541; 0x2700; 0xE7C1; 0xE681; 0x2640;
  0x2200; 0xE2C1; 0xE381; 0x2340; 0xE101; 0x21C0; 0x2080; 0xE041;
  0xA001; 0x60C0; 0x6180; 0xA141; 0x6300; 0xA3C1; 0xA281; 0x6240;
  0x6600; 0xA6C1; 0xA781; 0x6740; 0xA501; 0x65C0; 0x6480; 0xA441;
  0x6C00; 0xACC1; 0xAD81; 0x6D40; 0xAF01; 0x6FC0; 0x6E80; 0xAE41;
  0xAA01; 0x6AC0; 0x6B80; 0xAB41; 0x6900; 0xA9C1; 0xA881; 0x6840;
  0x7800; 0xB8C1; 0xB981; 0x7940; 0xBB01; 0x7BC0; 0x7A80; 0xBA41;
  0xBE01; 0x7EC0; 0x7F80; 0xBF41; 0x7D00; 0xBDC1; 0xBC81; 0x7C40;
  0xB401; 0x74C0; 0x7580; 0xB541; 0x7700; 0xB7C1; 0xB681; 0x7640;
  0x7200; 0xB2C1; 0xB381; 0x7340; 0xB101; 0x71C0; 0x7080; 0xB041;
  0x5000; 0x90C1; 0x9181; 0x5140; 0x9301; 0x53C0; 0x5280; 0x9241;
  0x9601; 0x56C0; 0x5780; 0x9741; 0x5500; 0x95C1; 0x9481; 0x5440;
  0x9C01; 0x5CC0; 0x5D80; 0x9D41; 0x5F00; 0x9FC1; 0x9E81; 0x5E40;
  0x5A00; 0x9AC1; 0x9B81; 0x5B40; 0x9901; 0x59C0; 0x5880; 0x9841;
  0x8801; 0x48C0; 0x4980; 0x8941; 0x4B00; 0x8BC1; 0x8A81; 0x4A40;
  0x4E00; 0x8EC1; 0x8F81; 0x4F40; 0x8D01; 0x4DC0; 0x4C80; 0x8C41;
  0x4400; 0x84C1; 0x8581; 0x4540; 0x8701; 0x47C0; 0x4680; 0x8641;
  0x8201; 0x42C0; 0x4380; 0x8341; 0x4100; 0x81C1; 0x8081; 0x4040
].

Definition crc16_byte (crc data : Z) : Z :=
  Z.lxor (Z.shiftr crc 8) (crc_tab crc16_table (Z.land (Z.lxor crc data) 0xff)).

Definition crc16 (crc : Z) (buffer : list Z) : Z := fold_left crc16_byte buffer crc.

(** ** lib/crc-ccitt.c *)

Definition crc_ccitt_table : list Z := [
  0x0000; 0x1189; 0x2312; 0x329b; 0x4624; 0x57ad; 0x6536; 0x74bf;
  0x8c48; 0x9dc1; 0xaf5a; 0xbed3; 0xca6c; 0xdbe5; 0xe97e; 0xf8f7;
  0x1081; 0x0108; 0x3393; 0x221a; 0x56a5; 0x472c; 0x75b7; 0x643e;
  0x9cc9; 0x8d40; 0xbfdb; 0xae52; 0xdaed; 0xcb64; 0xf9ff; 0xe876;
  0x2102; 0x308b; 0x0210; 0x1399; 0x6726; 0x76af; 0x4434; 0x55bd;
  0xad4a; 0xbcc3; 0x8e58; 0x9fd1; 0xeb6e; 0xfae7; 0xc87c; 0xd9f5;
  0x3183; 0x200a; 0x1291; 0x0318; 0x77a7; 0x662e; 0x54b5; 0x453c;
  0xbdcb; 0xac42; 0x9ed9; 0x8f50; 0xfbef; 0xea66; 0xd8fd; 0xc974;
  0x4204; 0x538d; 0x6116; 0x709f; 0x0420; 0x15a9; 0x2732; 0x36bb;
  0xce4c; 0xdfc5; 0xed5e; 0xfcd7; 0x8868; 0x99e1; 0xab7a; 0xbaf3;
  0x5285; 0x430c; 0x7197; 0x601e; 0x14a1; 0x0528; 0x37b3; 0x263a;
  0xdecd; 0xcf44; 0xfddf; 0xec56; 0x98e9; 0x8960; 0xbbfb; 0xaa72;
  0x6306; 0x728f; 0x4014; 0x519d; 0x2522; 0x34ab; 0x0630; 0x17b9;
  0xef4e; 0xfec7; 0xcc5c; 0xddd5; 0xa96a; 0xb8e3; 0x8a78; 0x9bf1;
  0x7387; 0x620e; 0x5095; 0x411c; 0x35a3; 0x242a; 0x16b1; 0x0738;
  0xffcf; 0xee46; 0xdcdd; 0xcd54; 0xb9eb; 0xa862; 0x9af9; 0x8b70;
  0x8408; 0x9581; 0xa71a; 0xb693; 0xc22c; 0xd3a5; 0xe13e; 0xf0b7;
  0x0840; 0x19c9; 0x2b52; 0x3adb; 0x4e64; 0x5fed; 0x6d76; 0x7cff;
  0x9489; 0x8500; 0xb79b; 0xa612; 0xd2ad; 0xc324; 0xf1bf; 0xe036;
  0x18c1; 0x0948; 0x3bd3; 0x2a5a; 0x5ee5; 0x4f6c; 0x7df7; 0x6c7e;
  0xa50a; 0xb483; 0x8618; 0x9791; 0xe32e; 0xf2a7; 0xc03c; 0xd1b5;
  0x2942; 0x38cb; 0x0a50; 0x1bd9; 0x6f66; 0x7eef; 0x4c74; 0x5dfd;
  0xb58b; 0xa402; 0x9699; 0x8710; 0xf3af; 0xe226; 0xd0bd; 0xc134;
  0x39c3; 0x284a; 0x1ad1; 0x0b58; 0x7fe7; 0x6e6e; 0x5cf5; 0x4d7c;
  0xc60c; 0xd785; 0xe51e; 0xf497; 0x8028; 0x91a1; 0xa33a; 0xb2b3;
  0x4a44; 0x5bcd; 0x6956; 0x78df; 0x0c60; 0x1de9; 0x2f72; 0x3efb;
  0xd68d; 0xc704; 0xf59f; 0xe416; 0x90a9; 0x8120; 0xb3bb; 0xa232;
  0x5ac5; 0x4b4c; 0x79d7; 0x685e; 0x1ce1; 0x0d68; 0x3ff3; 0x2e7a;
  0xe70e; 0xf687; 0xc41c; 0xd595; 0xa12a; 0xb0a3; 0x8238; 0x93b1;
  0x6b46; 0x7acf; 0x4854; 0x59dd; 0x2d62; 0x3ceb; 0x0e70; 0x1ff9;
  0xf78f; 0xe606; 0xd49d; 0xc514; 0xb1ab; 0xa022; 0x92b9; 0x8330;
  0x7bc7; 0x6a4e; 0x58d5; 0x495c; 0x3de3; 0x2c6a; 0x1ef1; 0x0f78
].

Definition crc_ccitt_byte (crc c : Z) : Z :=
  Z.lxor (Z.shiftr crc 8) (crc_tab crc_ccitt_table (Z.land (Z.lxor crc c) 0xff)).

Definition crc_ccitt (crc : Z) (buffer : list Z) : Z := fold_left crc_ccitt_byte buffer crc.

(** ** lib/crc-itu-t.c *)

Definition crc_itu_t_table : list Z := [
  0x0000; 0x1021; 0x2042; 0x3063; 0x4084; 0x50a5; 0x60c6; 0x70e7;
  0x8108; 0x9129; 0xa14a; 0xb16b; 0xc18c; 0xd1ad; 0xe1ce; 0xf1ef;
  0x1231; 0x0210; 0x3273; 0x2252; 0x52b5; 0x4294; 0x72f7; 0x62d6;
  0x9339; 0x8318; 0xb37b; 0xa35a; 0xd3bd; 0xc39c; 0xf3ff; 0xe3de;
  0x2462; 0x3443; 0x0420; 0x1401; 0x64e6; 0x74c7; 0x44a4; 0x5485;
  0xa56a; 0xb54b; 0x8528; 0x9509; 0xe5ee; 0xf5cf; 0xc5ac; 0xd58d;
  0x3653; 0x2672; 0x1611; 0x0630; 0x76d7; 0x66f6; 0x5695; 0x46b4;
  0xb75b; 0xa77a; 0x9719; 0x8738; 0xf7df; 0xe7fe; 0xd79d; 0xc7bc;
  0x48c4; 0x58e5; 0x6886; 0x78a7; 0x0840; 0x1861; 0x2802; 0x3823;
  0xc9cc; 0xd9ed; 0xe98e; 0xf9af; 0x8948; 0x9969; 0xa90a; 0xb92b;
  0x5af5; 0x4ad4; 0x7ab7; 0x6a96; 0x1a71; 0x0a50; 0x3a33; 0x2a12;
  0xdbfd; 0xcbdc; 0xfbbf; 0xeb9e; 0x9b79; 0x8b58; 0xbb3b; 0xab1a;
  0x6ca6; 0x7c87; 0x4ce4; 0x5cc5; 0x2c22; 0x3c03; 0x0c60; 0x1c41;
  0xedae; 0xfd8f; 0xcdec; 0xddcd; 0xad2a; 0xbd0b; 0x8d68; 0x9d49;
  0x7e97; 0x6eb6; 0x5ed5; 0x4ef4; 0x3e13; 0x2e32; 0x1e51; 0x0e70;
  0xff9f; 0xefbe; 0xdfdd; 0xcffc; 0xbf1b; 0xaf3a; 0x9f59; 0x8f78;
  0x9188; 0x81a9; 0xb1ca; 0xa1eb; 0xd10c; 0xc12d; 0xf14e; 0xe16f;
  0x1080; 0x00a1; 0x30c2; 0x20e3; 0x5004; 0x4025; 0x7046; 0x6067;
  0x83b9; 0x9398; 0xa3fb; 0xb3da; 0xc33d; 0xd31c; 0xe37f; 0xf35e;
  0x02b1; 0x1290; 0x22f3; 0x32d2; 0x4235; 0x5214; 0x6277; 0x7256;
  0xb5ea; 0xa5cb; 0x95a8; 0x8589; 0xf56e; 0xe54f; 0xd52c; 0xc50d;
  0x34e2; 0x24c3; 0x14a0; 0x0481; 0x7466; 0x6447; 0x5424; 0x4405;
  0xa7db; 0xb7fa; 0x8799; 0x97b8; 0xe75f; 0xf77e; 0xc71d; 0xd73c;
  0x26d3; 0x36f2; 0x0691; 0x16b0; 0x6657; 0x7676; 0x4615; 0x5634;
  0xd94c; 0xc96d; 0xf90e; 0xe92f; 0x99c8; 0x89e9; 0xb98a; 0xa9ab;
  0x5844; 0x4865; 0x7806; 0x6827; 0x18c0; 0x08e1; 0x3882; 0x28a3;
  0xcb7d; 0xdb5c; 0xeb3f; 0xfb1e; 0x8bf9; 0x9bd8; 0xabbb; 0xbb9a;
  0x4a75; 0x5a54; 0x6a37; 0x7a16; 0x0af1; 0x1ad0; 0x2ab3; 0x3a92;
  0xfd2e; 0xed0f; 0xdd6c; 0xcd4d; 0xbdaa; 0xad8b; 0x9de8; 0x8dc9;
  0x7c26; 0x6c07; 0x5c64; 0x4c45; 0x3ca2; 0x2c83; 0x1ce0; 0x0cc1;
  0xef1f; 0xff3e; 0xcf5d; 0xdf7c; 0xaf9b; 0xbfba; 0x8fd9; 0x9ff8;
  0x6e17; 0x7e36; 0x4e55; 0x5e74; 0x2e93; 0x3eb2; 0x0ed1; 0x1ef0
].

Definition crc_itu_t_byte (crc data : Z) : Z :=
  u16 (Z.lxor (Z.shiftl crc 8) (crc_tab crc_itu_t_table (Z.land (Z.lxor (Z.shiftr crc 8) data) 0xff))).

Definition crc_itu_t (crc : Z) (buffer : list Z) : Z := fold_left crc_itu_t_byte buffer crc.

(** ** lib/crc-t10dif.c *)

Definition t10_dif_crc_table : list Z := [
  0x0000; 0x8BB7; 0x9CD9; 0x176E; 0xB205; 0x39B2; 0x2EDC; 0xA56B;
  0xEFBD; 0x640A; 0x7364; 0xF8D3; 0x5DB8; 0xD60F; 0xC161; 0x4AD6;
  0x54CD; 0xDF7A; 0xC814; 0x43A3; 0xE6C8; 0x6D7F; 0x7A11; 0xF1A6;
  0xBB70; 0x30C7; 0x27A9; 0xAC1E; 0x0975; 0x82C2; 0x95AC; 0x1E1B;
  0xA99A; 0x222D; 0x3543; 0xBEF4; 0x1B9F; 0x9028; 0x8746; 0x0CF1;
  0x4627; 0xCD90; 0xDAFE; 0x5149; 0xF422; 0x7F95; 0x68FB; 0xE34C;
  0xFD57; 0x76E0; 0x618E; 0xEA39; 0x4F52; 0xC4E5; 0xD38B; 0x583C;
  0x12EA; 0x995D; 0x8E33; 0x0584; 0xA0EF; 0x2B58; 0x3C36; 0xB781;
  0xD883; 0x5334; 0x445A; 0xCFED; 0x6A86; 0xE131; 0xF65F; 0x7DE8;
  0x373E; 0xBC89; 0xABE7; 0x2050; 0x853B; 0x0E8C; 0x19E2; 0x9255;
  0x8C4E; 0x07F9; 0x1097; 0x9B20; 0x3E4B; 0xB5FC; 0xA292; 0x2925;
  0x63F3; 0xE844; 0xFF2A; 0x749D; 0xD1F6; 0x5A41; 0x4D2F; 0xC698;
  0x7119; 0xFAAE; 0xEDC0; 0x6677; 0xC31C; 0x48AB; 0x5FC5; 0xD472;
  0x9EA4; 0x1513; 0x027D; 0x89CA; 0x2CA1; 0xA716; 0xB078; 0x3BCF;
  0x25D4; 0xAE63; 0xB90D; 0x32BA; 0x97D1; 0x1C66; 0x0B08; 0x80BF;
  0xCA69; 0x41DE; 0x56B0; 0xDD07; 0x786C; 0xF3DB; 0xE4B5; 0x6F02;
  0x3AB1; 0xB106; 0xA668; 0x2DDF; 0x88B4; 0x0303; 0x146D; 0x9FDA;
  0xD50C; 0x5EBB; 0x49D5; 0xC262; 0x6709; 0xECBE; 0xFBD0; 0x7067;
  0x6E7C; 0xE5CB; 0xF2A5; 0x7912; 0xDC79; 0x57CE; 0x40A0; 0xCB17;
  0x81C1; 0x0A76; 0x1D18; 0x96AF; 0x33C4; 0xB873; 0xAF1D; 0x24AA;
  0x932B; 0x189C; 0x0FF2; 0x8445; 0x212E; 0xAA99; 0xBDF7; 0x3640;
  0x7C96; 0xF721; 0xE04F; 0x6BF8; 0xCE93; 0x4524; 0x524A; 0xD9FD;
  0xC7E6; 0x4C51; 0x5B3F; 0xD088; 0x75E3; 0xFE54; 0xE93A; 0x628D;
  0x285B; 0xA3EC; 0xB482; 0x3F35; 0x9A5E; 0x11E9; 0x0687; 0x8D30;
  0xE232; 0x6985; 0x7EEB; 0xF55C; 0x5037; 0xDB80; 0xCCEE; 0x4759;
  0x0D8F; 0x8638; 0x9156; 0x1AE1; 0xBF8A; 0x343D; 0x2353; 0xA8E4;
  0xB6FF; 0x3D48; 0x2A26; 0xA191; 0x04FA; 0x8F4D; 0x9823; 0x1394;
  0x5942; 0xD2F5; 0xC59B; 0x4E2C; 0xEB47; 0x60F0; 0x779E; 0xFC29;
  0x4BA8; 0xC01F; 0xD771; 0x5CC6; 0xF9AD; 0x721A; 0x6574; 0xEEC3;
  0xA415; 0x2FA2; 0x38CC; 0xB37B; 0x1610; 0x9DA7; 0x8AC9; 0x017E;
  0x1F65; 0x94D2; 0x83BC; 0x080B; 0xAD60; 0x26D7; 0x31B9; 0xBA0E;
  0xF0D8; 0x7B6F; 0x6C01; 0xE7B6; 0x42DD; 0xC96A; 0xDE04; 0x55B3
].

(** The body of the loop of [crc_t10dif]. *)
Definition crc_t10dif_byte (crc x : Z) : Z :=
  u16 (Z.lxor (Z.shiftl crc 8) (crc_tab t10_dif_crc_table (Z.land (Z.lxor (Z.shiftr crc 8) x) 0xff))).

Definition crc_t10dif (buffer : list Z) : Z := fold_left crc_t10dif_byte buffer 0.

(** ** lib/crc7.c *)

Definition crc7_syndrome_table : list Z := [
  0x00; 0x09; 0x12; 0x1b; 0x24; 0x2d; 0x36; 0x3f;
  0x48; 0x41; 0x5a; 0x53; 0x6c; 0x65; 0x7e; 0x77;
  0x19; 0x10; 0x0b; 0x02; 0x3d; 0x34; 0x2f; 0x26;
  0x51; 0x58; 0x43; 0x4a; 0x75; 0x7c; 0x67; 0x6e;
  0x32; 0x3b; 0x20; 0x29; 0x16; 0x1f; 0x04; 0x0d;
  0x7a; 0x73; 0x68; 0x61; 0x5e; 0x57; 0x4c; 0x45;
  0x2b; 0x22; 0x39; 0x30; 0x0f; 0x06; 0x1d; 0x14;
  0x63; 0x6a; 0x71; 0x78; 0x47; 0x4e; 0x55; 0x5c;
  0x64; 0x6d; 0x76; 0x7f; 0x40; 0x49; 0x52; 0x5b;
  0x2c; 0x25; 0x3e; 0x37; 0x08; 0x01; 0x1a; 0x13;
  0x7d; 0x74; 0x6f; 0x66; 0x59; 0x50; 0x4b; 0x42;
  0x35; 0x3c; 0x27; 0x2e; 0x11; 0x18; 0x03; 0x0a;
  0x56; 0x5f; 0x44; 0x4d; 0x72; 0x7b; 0x60; 0x69;
  0x1e; 0x17; 0x0c; 0x05; 0x3a; 0x33; 0x28; 0x21;
  0x4f; 0x46; 0x5d; 0x54; 0x6b; 0x62; 0x79; 0x70;
  0x07; 0x0e; 0x15; 0x1c; 0x23; 0x2a; 0x31; 0x38;
  0x41; 0x48; 0x53; 0x5a; 0x65; 0x6c; 0x77; 0x7e;
  0x09; 0x00; 0x1b; 0x12; 0x2d; 0x24; 0x3f; 0x36;
  0x58; 0x51; 0x4a; 0x43; 0x7c; 0x75; 0x6e; 0x67;
  0x10; 0x19; 0x02; 0x0b; 0x34; 0x3d; 0x26; 0x2f;
  0x73; 0x7a; 0x61; 0x68; 0x57; 0x5e; 0x45; 0x4c;
  0x3b; 0x32; 0x29; 0x20; 0x1f; 0x16; 0x0d; 0x04;
  0x6a; 0x63; 0x78; 0x71; 0x4e; 0x47; 0x5c; 0x55;
  0x22; 0x2b; 0x30; 0x39; 0x06; 0x0f; 0x14; 0x1d;
  0x25; 0x2c; 0x37; 0x3e; 0x01; 0x08; 0x13; 0x1a;
  0x6d; 0x64; 0x7f; 0x76; 0x49; 0x40; 0x5b; 0x52;
  0x3c; 0x35; 0x2e; 0x27; 0x18; 0x11; 0x0a; 0x03;
  0x74; 0x7d; 0x66; 0x6f; 0x50; 0x59; 0x42; 0x4b;
  0x17; 0x1e; 0x05; 0x0c; 0x33; 0x3a; 0x21; 0x28;
  0x5f; 0x56; 0x4d; 0x44; 0x7b; 0x72; 0x69; 0x60;
  0x0e; 0x07; 0x1c; 0x15; 0x2a; 0x23; 0x38; 0x31;
  0x46; 0x4f; 0x54; 0x5d; 0x62; 0x6b; 0x70; 0x79
].

Definition crc7_byte (crc data : Z) : Z :=
  crc_tab crc7_syndrome_table (Z.lxor (Z.shiftl crc 1) data).

Definition crc7 (crc : Z) (buffer : list Z) : Z := fold_left crc7_byte buffer crc.

(** ** lib/bitrev.c *)

Definition byte_rev_table : list Z := [
  0x00; 0x80; 0x40; 0xc0; 0x20; 0xa0; 0x60; 0xe0;
  0x10; 0x90; 0x50; 0xd0; 0x30; 0xb0; 0x70; 0xf0;
  0x08; 0x88; 0x48; 0xc8; 0x28; 0xa8; 0x68; 0xe8;
  0x18; 0x98; 0x58; 0xd8; 0x38; 0xb8; 0x78; 0xf8;
  0x04; 0x84; 0x44; 0xc4; 0x24; 0xa4; 0x64; 0xe4;
  0x14; 0x94; 0x54; 0xd4; 0x34; 0xb4; 0x74; 0xf4;
  0x0c; 0x8c; 0x4c; 0xcc; 0x2c; 0xac; 0x6c; 0xec;
  0x1c; 0x9c; 0x5c; 0xdc; 0x3c; 0xbc; 0x7c; 0xfc;
  0x02; 0x82; 0x42; 0xc2; 0x22; 0xa2; 0x62; 0xe2;
  0x12; 0x92; 0x52; 0xd2; 0x32; 0xb2; 0x72; 0xf2;
  0x0a; 0x8a; 0x4a; 0xca; 0x2a; 0xaa; 0x6a; 0xea;
  0x1a; 0x9a; 0x5a; 0xda; 0x3a; 0xba; 0x7a; 0xfa;
  0x06; 0x86; 0x46; 0xc6; 0x26; 0xa6; 0x66; 0xe6;
  0x16; 0x96; 0x56; 0xd6; 0x36; 0xb6; 0x76; 0xf6;
  0x0e; 0x8e; 0x4e; 0xce; 0x2e; 0xae; 0x6e; 0xee;
  0x1e; 0x9e; 0x5e; 0xde; 0x3e; 0xbe; 0x7e; 0xfe;
  0x01; 0x81; 0x41; 0xc1; 0x21; 0xa1; 0x61; 0xe1;
  0x11; 0x91; 0x51; 0xd1; 0x31; 0xb1; 0x71; 0xf1;
  0x09; 0x89; 0x49; 0xc9; 0x29; 0xa9; 0x69; 0xe9;
  0x19; 0x99; 0x59; 0xd9; 0x39; 0xb9; 0x79; 0xf9;
  0x05; 0x85; 0x45; 0xc5; 0x25; 0xa5; 0x65; 0xe5;
  0x15; 0x95; 0x55; 0xd5; 0x35; 0xb5; 0x75; 0xf5;
  0x0d; 0x8d; 0x4d; 0xcd; 0x2d; 0xad; 0x6d; 0xed;
  0x1d; 0x9d; 0x5d; 0xdd; 0x3d; 0xbd; 0x7d; 0xfd;
  0x03; 0x83; 0x43; 0xc3; 0x23; 0xa3; 0x63; 0xe3;
  0x13; 0x93; 0x53; 0xd3; 0x33; 0xb3; 0x73; 0xf3;
  0x0b; 0x8b; 0x4b; 0xcb; 0x2b; 0xab; 0x6b; 0xeb;
  0x1b; 0x9b; 0x5b; 0xdb; 0x3b; 0xbb; 0x7b; 0xfb;
  0x07; 0x87; 0x47; 0xc7; 0x27; 0xa7; 0x67; 0xe7;
  0x17; 0x97; 0x57; 0xd7; 0x37; 0xb7; 0x77; 0xf7;
  0x0f; 0x8f; 0x4f; 0xcf; 0x2f; 0xaf; 0x6f; 0xef;
  0x1f; 0x9f; 0x5f; 0xdf; 0x3f; 0xbf; 0x7f; 0xff
].

Definition bitrev8 (byte : Z) : Z := crc_tab byte_rev_table byte.

Definition bitrev16 (x : Z) : Z :=
  Z.lor (Z.shiftl (bitrev8 (Z.land x 0xff)) 8) (bitrev8 (Z.shiftr x 8)).

Definition bitrev32 (x : Z) : Z :=
  Z.lor (Z.shiftl (bitrev16 (Z.land x 0xffff)) 16) (bitrev16 (Z.shiftr x 16)).

(** ** u-boot-1.1.6/lib_generic/crc32.c *)

Module UBoot.

(** [make_crc_table], the [DYNAMIC_CRC_TABLE] variant: the exponents of the
    polynomial, the pattern built from them, and the table. *)
Definition p : list Z := [0; 1; 2; 4; 5; 7; 8; 10; 11; 12; 16; 22; 23; 26].

Definition poly : Z := fold_left (fun poly n => Z.lor poly (Z.shiftl 1 (31 - n))) p 0.

Definition make_crc_bit (c : Z) : Z :=
  if truthy (Z.land c 1) then Z.lxor poly (Z.shiftr c 1) else Z.shiftr c 1.

Definition make_crc_table : list Z := Nat.iter 8 make_crc_bit <$> seqZ 0 256.

(** The static table, which the configuration of this board uses. *)
Definition crc_table : list Z := [
  0x00000000; 0x77073096; 0xee0e612c; 0x990951ba;
  0x076dc419; 0x706af48f; 0xe963a535; 0x9e6495a3;
  0x0edb8832; 0x79dcb8a4; 0xe0d5e91e; 0x97d2d988;
  0x09b64c2b; 0x7eb17cbd; 0xe7b82d07; 0x90bf1d91;
  0x1db71064; 0x6ab020f2; 0xf3b97148; 0x84be41de;
  0x1adad47d; 0x6ddde4eb; 0xf4d4b551; 0x83d385c7;
  0x136c9856; 0x646ba8c0; 0xfd62f97a; 0x8a65c9ec;
  0x14015c4f; 0x63066cd9; 0xfa0f3d63; 0x8d080df5;
  0x3b6e20c8; 0x4c69105e; 0xd56041e4; 0xa2677172;
  0x3c03e4d1; 0x4b04d447; 0xd20d85fd; 0xa50ab56b;
  0x35b5a8fa; 0x42b2986c; 0xdbbbc9d6; 0xacbcf940;
  0x32d86ce3; 0x45df5c75; 0xdcd60dcf; 0xabd13d59;
  0x26d930ac; 0x51de003a; 0xc8d75180; 0xbfd06116;
  0x21b4f4b5; 0x56b3c423; 0xcfba9599; 0xb8bda50f;
  0x2802b89e; 0x5f058808; 0xc60cd9b2; 0xb10be924;
  0x2f6f7c87; 0x58684c11; 0xc1611dab; 0xb6662d3d;
  0x76dc4190; 0x01db7106; 0x98d220bc; 0xefd5102a;
  0x71b18589; 0x06b6b51f; 0x9fbfe4a5; 0xe8b8d433;
  0x7807c9a2; 0x0f00f934; 0x9609a88e; 0xe10e9818;
  0x7f6a0dbb; 0x086d3d2d; 0x91646c97; 0xe6635c01;
  0x6b6b51f4; 0x1c6c6162; 0x856530d8; 0xf262004e;
  0x6c0695ed; 0x1b01a57b; 0x8208f4c1; 0xf50fc457;
  0x65b0d9c6; 0x12b7e950; 0x8bbeb8ea; 0xfcb9887c;
  0x62dd1ddf; 0x15da2d49; 0x8cd37cf3; 0xfbd44c65;
  0x4db26158; 0x3ab551ce; 0xa3bc0074; 0xd4bb30e2;
  0x4adfa541; 0x3dd895d7; 0xa4d1c46d; 0xd3d6f4fb;
  0x4369e96a; 0x346ed9fc; 0xad678846; 0xda60b8d0;
  0x44042d73; 0x33031de5; 0xaa0a4c5f; 0xdd0d7cc9;
  0x5005713c; 0x270241aa; 0xbe0b1010; 0xc90c2086;
  0x5768b525; 0x206f85b3; 0xb966d409; 0xce61e49f;
  0x5edef90e; 0x29d9c998; 0xb0d09822; 0xc7d7a8b4;
  0x59b33d17; 0x2eb40d81; 0xb7bd5c3b; 0xc0ba6cad;
  0xedb88320; 0x9abfb3b6; 0x03b6e20c; 0x74b1d29a;
  0xead54739; 0x9dd277af; 0x04db2615; 0x73dc1683;
  0xe3630b12; 0x94643b84; 0x0d6d6a3e; 0x7a6a5aa8;
  0xe40ecf0b; 0x9309ff9d; 0x0a00ae27; 0x7d079eb1;
  0xf00f9344; 0x8708a3d2; 0x1e01f268; 0x6906c2fe;
  0xf762575d; 0x806567cb; 0x196c3671; 0x6e6b06e7;
  0xfed41b76; 0x89d32be0; 0x10da7a5a; 0x67dd4acc;
  0xf9b9df6f; 0x8ebeeff9; 0x17b7be43; 0x60b08ed5;
  0xd6d6a3e8; 0xa1d1937e; 0x38d8c2c4; 0x4fdff252;
  0xd1bb67f1; 0xa6bc5767; 0x3fb506dd; 0x48b2364b;
  0xd80d2bda; 0xaf0a1b4c; 0x36034af6; 0x41047a60;
  0xdf60efc3; 0xa867df55; 0x316e8eef; 0x4669be79;
  0xcb61b38c; 0xbc66831a; 0x256fd2a0; 0x5268e236;
  0xcc0c7795; 0xbb0b4703; 0x220216b9; 0x5505262f;
  0xc5ba3bbe; 0xb2bd0b28; 0x2bb45a92; 0x5cb36a04;
  0xc2d7ffa7; 0xb5d0cf31; 0x2cd99e8b; 0x5bdeae1d;
  0x9b64c2b0; 0xec63f226; 0x756aa39c; 0x026d930a;
  0x9c0906a9; 0xeb0e363f; 0x72076785; 0x05005713;
  0x95bf4a82; 0xe2b87a14; 0x7bb12bae; 0x0cb61b38;
  0x92d28e9b; 0xe5d5be0d; 0x7cdcefb7; 0x0bdbdf21;
  0x86d3d2d4; 0xf1d4e242; 0x68ddb3f8; 0x1fda836e;
  0x81be16cd; 0xf6b9265b; 0x6fb077e1; 0x18b74777;
  0x88085ae6; 0xff0f6a70; 0x66063bca; 0x11010b5c;
  0x8f659eff; 0xf862ae69; 0x616bffd3; 0x166ccf45;
  0xa00ae278; 0xd70dd2ee; 0x4e048354; 0x3903b3c2;
  0xa7672661; 0xd06016f7; 0x4969474d; 0x3e6e77db;
  0xaed16a4a; 0xd9d65adc; 0x40df0b66; 0x37d83bf0;
  0xa9bcae53; 0xdebb9ec5; 0x47b2cf7f; 0x30b5ffe9;
  0xbdbdf21c; 0xcabac28a; 0x53b39330; 0x24b4a3a6;
  0xbad03605; 0xcdd70693; 0x54de5729; 0x23d967bf;
  0xb3667a2e; 0xc4614ab8; 0x5d681b02; 0x2a6f2b94;
  0xb40bbe37; 0xc30c8ea1; 0x5a05df1b; 0x2d02ef8d
].

Definition DO1 (crc x : Z) : Z :=
  Z.lxor (crc_tab crc_table (Z.land (Z.lxor crc x) 0xff)) (Z.shiftr crc 8).

#[global] Arguments DO1 : simpl never.

(** [while (len >= 8) { DO8(buf); len -= 8; }]: at most [n] iterations; [do1] is
    the macro [DO1]. *)
Fixpoint do8_loop (do1 : Z -> Z -> Z) (n : nat) (buf : list Z) (crc : Z) : Z * list Z :=
  match n, buf with
  | S n', x0 :: x1 :: x2 :: x3 :: x4 :: x5 :: x6 :: x7 :: buf' =>
      do8_loop do1 n' buf'
        (do1 (do1 (do1 (do1 (do1 (do1 (do1 (do1 crc x0) x1) x2) x3) x4) x5) x6) x7)
  | _, _ => (crc, buf)
  end.

Definition crc32_no_comp (crc : Z) (buf : list Z) : Z :=
  let '(crc, buf) := do8_loop DO1 (length buf) buf crc in
  fold_left DO1 buf crc.

Definition crc32 (crc : Z) (buf : list Z) : Z :=
  let crc := Z.lxor crc 0xffffffff in
  let '(crc, buf) := do8_loop DO1 (length buf) buf crc in
  Z.lxor (fold_left DO1 buf crc) 0xffffffff.

End UBoot.
