(* ===== verification/CrcFacts.v ===== *)
(** * The CRC routines compute their polynomials

    Part one treats registers shifted towards the least significant bit (CRC-32,
    CRC-16, CRC-CCITT), part two registers shifted towards the most significant one
    (CRC-32 big endian, ITU-T, T10 DIF, CRC-7).  The table-driven routines equal
    the bit-at-a-time references for all inputs, the boot loader's CRC-32 equals
    the kernel's, and a burst of up to 32 bits never goes undetected. *)

From S2P Require Import Prelude Crc.

Local Open Scope Z_scope.

(** ** Checks over bytes *)

Lemma byte_check (p : Z -> bool) :
  forallb p (seqZ 0 256) = true -> forall x, in_w 8 x -> p x = true.
Proof.
  intros Hp x Hx. rewrite forallb_forall in Hp. apply Hp.
  apply list_elem_of_In, elem_of_seqZ. unfold in_w in Hx. simpl in *. lia.
Qed.

Lemma iter_swap {A} n (f : A -> A) x : Nat.iter n f (f x) = f (Nat.iter n f x).
Proof. induction n as [|n IH]; simpl; [done|]. by rewrite IH. Qed.

Lemma iter_add {A} n m (f : A -> A) x : Nat.iter (n + m) f x = Nat.iter n f (Nat.iter m f x).
Proof. induction n as [|n IH]; simpl; [done|]. by rewrite IH. Qed.

Lemma iter_ext {A} n (f g : A -> A) x : (forall y, f y = g y) -> Nat.iter n f x = Nat.iter n g x.
Proof. intros H. induction n as [|n IH]; simpl; [done|]. by rewrite IH, H. Qed.

Lemma land_ff_split x : x = Z.lxor (Z.land x 255) (Z.shiftl (Z.shiftr x 8) 8).
Proof.
  by_bits i Hi. change 255 with (Z.ones 8).
  destruct (Z.ltb_spec i 8).
  - rewrite Z.ones_spec_low, (Z.testbit_neg_r _ (i - 8)) by lia. by destruct (Z.testbit x i).
  - rewrite Z.ones_spec_high, Z.shiftr_spec by lia. rewrite Z.sub_add. by destruct (Z.testbit x i).
Qed.

Lemma shiftr8_byte x y : in_w 8 y -> Z.shiftr (Z.lxor x y) 8 = Z.shiftr x 8.
Proof.
  intros Hy. by_bits i Hi. rewrite (in_w_testbit 8 y) by (done || lia). by destruct (Z.testbit x (i + 8)).
Qed.

Lemma land_ff_in x : in_w 8 (Z.land x 255).
Proof. change 255 with (2 ^ 8 - 1). rewrite land_mask by lia. by apply wrap_in. Qed.

(** ** Registers shifted right *)

Section Reflected.
Context (poly : Z).

Definition rbit (crc : Z) : Z :=
  Z.lxor (Z.shiftr crc 1) (if truthy (Z.land crc 1) then poly else 0).

Definition rbyte (crc x : Z) : Z := Nat.iter 8 rbit (Z.lxor crc x).

#[local] Arguments rbyte : simpl never.

Lemma truthy_bit0 x : truthy (Z.land x 1) = Z.testbit x 0.
Proof.
  unfold truthy. change 1 with (2 ^ 1 - 1). rewrite land_mask by lia.
  rewrite Z.bit0_odd. rewrite Zmod_odd. by destruct (Z.odd x).
Qed.

Lemma rbit_linear x y : rbit (Z.lxor x y) = Z.lxor (rbit x) (rbit y).
Proof using Type.
  unfold rbit. rewrite !truthy_bit0, Z.shiftr_lxor, Z.lxor_spec.
  apply Z.bits_inj'. intros i Hi. rewrite !Z.lxor_spec.
  destruct (Z.testbit x 0), (Z.testbit y 0); simpl; rewrite ?Z.bits_0;
    destruct (Z.testbit (Z.shiftr x 1) i), (Z.testbit (Z.shiftr y 1) i), (Z.testbit poly i); done.
Qed.

Lemma riter_linear n x y :
  Nat.iter n rbit (Z.lxor x y) = Z.lxor (Nat.iter n rbit x) (Nat.iter n rbit y).
Proof using Type. induction n as [|n IH]; simpl; [done|]. by rewrite IH, rbit_linear. Qed.

Lemma rbit_shiftl y k : 0 <= k -> rbit (Z.shiftl y (k + 1)) = Z.shiftl y k.
Proof using Type.
  intros Hk. unfold rbit. rewrite truthy_bit0, Z.shiftl_spec_low by lia.
  rewrite Z.lxor_0_r, Z.shiftr_shiftl_l by lia. f_equal. lia.
Qed.

Lemma riter_shiftl n y : Nat.iter n rbit (Z.shiftl y (Z.of_nat n)) = y.
Proof using Type.
  induction n as [|n IH]; [apply Z.shiftl_0_r|].
  simpl Nat.iter. rewrite <- iter_swap. replace (Z.of_nat (S n)) with (Z.of_nat n + 1) by lia.
  rewrite rbit_shiftl by lia. done.
Qed.

(** Eight bit steps are a table lookup and a shift. *)
Lemma riter8_split x : Nat.iter 8 rbit x = Z.lxor (Nat.iter 8 rbit (Z.land x 255)) (Z.shiftr x 8).
Proof using Type.
  pose proof (riter_shiftl 8 (Z.shiftr x 8)) as H. change (Z.of_nat 8) with 8 in H.
  rewrite (land_ff_split x) at 1. by rewrite riter_linear, H.
Qed.

Context (t : list Z).
Hypothesis Ht : forall i, in_w 8 i -> crc_tab t i = Nat.iter 8 rbit i.

Lemma rbyte_table crc x :
  in_w 8 x -> rbyte crc x = Z.lxor (crc_tab t (Z.land (Z.lxor crc x) 255)) (Z.shiftr crc 8).
Proof using Ht.
  intros Hx. unfold rbyte. rewrite riter8_split, shiftr8_byte by done.
  by rewrite Ht by apply land_ff_in.
Qed.

Lemma rfold_table p crc :
  Forall (in_w 8) p ->
  fold_left (fun c x => Z.lxor (crc_tab t (Z.land (Z.lxor c x) 255)) (Z.shiftr c 8)) p crc =
  fold_left rbyte p crc.
Proof using Ht.
  intros Hp. apply (fold_left_ext_in (in_w 8)); [done|].
  intros c x Hx. symmetry. by apply rbyte_table.
Qed.

End Reflected.

(** ** The word loop of [crc32_body] *)

Section Body.
Context (t : list Z).

Lemma DO_CRC_word crc w :
  DO_CRC t (Z.lxor crc w) 0 = Z.lxor (DO_CRC t crc (Z.land w 255)) (Z.shiftr w 8).
Proof using Type.
  unfold DO_CRC. rewrite Z.lxor_0_r, Z.shiftr_lxor, <- Z.lxor_assoc. do 3 f_equal.
  by_bits i Hi. by destruct (Z.testbit crc i), (Z.testbit w i), (Z.testbit 255 i).
Qed.

Lemma le32_bytes b0 b1 b2 b3 :
  Forall (in_w 8) [b0; b1; b2; b3] ->
  Z.land (le32 b0 b1 b2 b3) 255 = b0 /\ Z.shiftr (le32 b0 b1 b2 b3) 8 = le32 b1 b2 b3 0.
Proof using Type.
  intros Hb. decompose_Forall_hyps. unfold le32. split.
  - by_bits i Hi. change 255 with (Z.ones 8). destruct (Z.ltb_spec i 8).
    + rewrite Z.ones_spec_low, !(Z.testbit_neg_r _ (i - _)) by lia.
      by destruct (Z.testbit b0 i).
    + rewrite Z.ones_spec_high, (in_w_testbit 8 b0) by (done || lia). apply andb_false_r.
  - by_bits i Hi. rewrite (in_w_testbit 8 b0) by (done || lia).
    replace (i + 8 - 8) with i by lia. replace (i + 8 - 16) with (i - 8) by lia.
    replace (i + 8 - 24) with (i - 16) by lia.
    by destruct (Z.testbit b1 i), (Z.testbit b2 (i - 8)), (Z.testbit b3 (i - 16)).
Qed.

Lemma DO_CRC_four crc b0 b1 b2 b3 :
  Forall (in_w 8) [b0; b1; b2; b3] ->
  DO_CRC t (DO_CRC t (DO_CRC t (DO_CRC t (Z.lxor crc (le32 b0 b1 b2 b3)) 0) 0) 0) 0 =
  DO_CRC t (DO_CRC t (DO_CRC t (DO_CRC t crc b0) b1) b2) b3.
Proof using Type.
  intros Hb. decompose_Forall_hyps.
  assert (in_w 8 0) by (unfold in_w; lia).
  destruct (le32_bytes b0 b1 b2 b3) as [E0 F0]; [forall_list|].
  destruct (le32_bytes b1 b2 b3 0) as [E1 F1]; [forall_list|].
  destruct (le32_bytes b2 b3 0 0) as [E2 F2]; [forall_list|].
  destruct (le32_bytes b3 0 0 0) as [E3 F3]; [forall_list|].
  rewrite DO_CRC_word, E0, F0, DO_CRC_word, E1, F1, DO_CRC_word, E2, F2, DO_CRC_word, E3, F3.
  change (le32 0 0 0 0) with 0. by rewrite Z.lxor_0_r.
Qed.

Lemma word_loop_fold n : forall p crc,
  Forall (in_w 8) p ->
  let '(crc', p') := word_loop t n p crc in
  fold_left (DO_CRC t) p' crc' = fold_left (DO_CRC t) p crc.
Proof using Type.
  induction n as [|n IH]; intros p crc Hp; [done|].
  destruct p as [|b0 [|b1 [|b2 [|b3 p]]]]; try done. simpl.
  decompose_Forall_hyps.
  specialize (IH p (DO_CRC t (DO_CRC t (DO_CRC t (DO_CRC t (Z.lxor crc (le32 b0 b1 b2 b3)) 0) 0) 0) 0)).
  destruct (word_loop t n p _) as [crc' p']. rewrite IH by done.
  by rewrite DO_CRC_four by forall_list.
Qed.

Lemma align_loop_fold p : forall b crc,
  let '(crc', p') := align_loop t b p crc in
  fold_left (DO_CRC t) p' crc' = fold_left (DO_CRC t) p crc /\ (Forall (in_w 8) p -> Forall (in_w 8) p').
Proof using Type.
  induction p as [|x p IH]; intros b crc; simpl; [done|].
  destruct (truthy (blen p) && tst (b + 1) 3).
  - specialize (IH (b + 1) (DO_CRC t crc x)). destruct (align_loop t (b + 1) p _) as [crc' p'].
    destruct IH as [-> IH]. split; [done|]. intros. decompose_Forall_hyps. by apply IH.
  - split; [done|]. intros. by decompose_Forall_hyps.
Qed.

Lemma crc32_body_fold b p crc :
  Forall (in_w 8) p -> crc32_body t b p crc = fold_left (DO_CRC t) p crc.
Proof using Type.
  intros Hp. unfold crc32_body.
  pose proof (align_loop_fold p b crc) as Ha.
  destruct (tst b 3 && truthy (blen p)).
  - destruct (align_loop t b p crc) as [c1 p1]. destruct Ha as [<- Hp1]. specialize (Hp1 Hp).
    destruct (4 <=? blen p1); [|done].
    pose proof (word_loop_fold (Z.to_nat (Z.shiftr (blen p1) 2)) p1 c1 Hp1) as Hw.
    by destruct (word_loop t _ p1 c1).
  - destruct (4 <=? blen p); [|done].
    pose proof (word_loop_fold (Z.to_nat (Z.shiftr (blen p) 2)) p crc Hp) as Hw.
    by destruct (word_loop t _ p crc).
Qed.

End Body.

(** ** Injectivity and bursts *)

#[local] Arguments rbyte : simpl never.
#[local] Strategy expand [rbyte].

Section Burst.
Context (w poly : Z).
Hypothesis Hw : 0 < w.
Hypothesis Hpoly : in_w w poly.
Hypothesis Htop : Z.testbit poly (w - 1) = true.

Lemma rbit_in x : in_w w x -> in_w w (rbit poly x).
Proof using Hw Hpoly.
  intros Hx. unfold rbit. apply in_w_lxor; [lia|apply in_w_shiftr; done || lia|].
  case_match; [done|]. unfold in_w in *. lia.
Qed.

Lemma riter_in n x : in_w w x -> in_w w (Nat.iter n (rbit poly) x).
Proof using Hw Hpoly. intros Hx. induction n as [|n IH]; simpl; [done|]. by apply rbit_in. Qed.

Lemma rbit_zero x : in_w w x -> rbit poly x = 0 -> x = 0.
Proof using Hw Htop.
  intros Hx H0. unfold rbit in H0. rewrite truthy_bit0 in H0.
  apply Z.lxor_eq in H0. apply Z.bits_inj'. intros i Hi. rewrite Z.bits_0.
  destruct (Z.testbit x 0) eqn:E.
  - assert (Z.testbit (Z.shiftr x 1) (w - 1) = true) as Ht by (by rewrite H0).
    rewrite Z.shiftr_spec, (in_w_testbit w x) in Ht by (done || lia). done.
  - destruct (decide (i = 0)) as [->|]; [done|].
    replace i with ((i - 1) + 1) by lia. rewrite <- Z.shiftr_spec by lia. by rewrite H0, Z.bits_0.
Qed.

Lemma riter_inj n x y :
  in_w w x -> in_w w y -> Nat.iter n (rbit poly) x = Nat.iter n (rbit poly) y -> x = y.
Proof using Hw Hpoly Htop.
  intros Hx Hy H. apply Z.lxor_eq.
  assert (in_w w (Z.lxor x y)) as Hz by (apply in_w_lxor; done || lia).
  assert (Nat.iter n (rbit poly) (Z.lxor x y) = 0) as H0.
  { by rewrite riter_linear, H, Z.lxor_nilpotent. }
  clear H. induction n as [|n IH]; simpl in H0; [done|]. apply IH.
  apply rbit_zero; [|done]. by apply riter_in.
Qed.

(** Bytes as one little-endian number. *)
Fixpoint le_number (a : list Z) : Z :=
  match a with
  | [] => 0
  | x :: a' => Z.lxor x (Z.shiftl (le_number a') 8)
  end.

Lemma rbyte_number c x m :
  Z.lxor (rbyte poly c x) m = Nat.iter 8 (rbit poly) (Z.lxor c (Z.lxor x (Z.shiftl m 8))).
Proof using Type.
  pose proof (riter_shiftl poly 8 m) as H. change (Z.of_nat 8) with 8 in H.
  unfold rbyte. by rewrite <- Z.lxor_assoc, (riter_linear poly 8 (Z.lxor c x)), H.
Qed.

Lemma rfold_number a : forall c,
  fold_left (rbyte poly) a c = Nat.iter (8 * length a) (rbit poly) (Z.lxor c (le_number a)).
Proof using Type.
  induction a as [|x a IH]; intros c; [by rewrite Z.lxor_0_r|].
  rewrite fold_left_cons, IH, rbyte_number, <- iter_add. f_equal. simpl; lia.
Qed.

Lemma le_number_in a : Forall (in_w 8) a -> in_w (8 * blen a) (le_number a).
Proof using Type.
  clear Hw Hpoly Htop.
  induction 1 as [|x a Hx Ha IH]; [unfold in_w, blen; simpl; lia|]. unfold blen in *. simpl le_number.
  replace (8 * Z.of_nat (length (x :: a))) with (8 * Z.of_nat (length a) + 8) by (simpl; lia).
  apply in_w_lxor; [lia|apply (in_w_mono 8); [lia|done]|].
  unfold in_w in *. rewrite Z.shiftl_mul_pow2, Z.pow_add_r by lia. nia.
Qed.

Lemma le_number_inj a b :
  length a = length b -> Forall (in_w 8) a -> Forall (in_w 8) b -> le_number a = le_number b -> a = b.
Proof using Type.
  clear Hw Hpoly Htop.
  intros Hl Ha. revert b Hl. induction Ha as [|x a Hx Ha IH]; intros [|y b] Hl Hb E; try done.
  simpl in *. decompose_Forall_hyps.
  assert (forall u v, in_w 8 u -> Z.land (Z.lxor u (Z.shiftl v 8)) 255 = u) as Hlow.
  { intros u v Hu. change 255 with (2 ^ 8 - 1). rewrite land_mask by lia.
    fold (wrap 8 (Z.lxor u (Z.shiftl v 8))). rewrite wrap_lxor, (wrap_small 8 u) by (done || lia).
    unfold wrap. rewrite Z.shiftl_mul_pow2, Z_mod_mult, Z.lxor_0_r by lia. done. }
  assert (forall u v, in_w 8 u -> Z.shiftr (Z.lxor u (Z.shiftl v 8)) 8 = v) as Hhigh.
  { intros u v Hu. rewrite Z.lxor_comm, shiftr8_byte by done.
    rewrite Z.shiftr_shiftl_l by lia. apply Z.shiftl_0_r. }
  f_equal.
  - rewrite <- (Hlow x (le_number a)), <- (Hlow y (le_number b)) by done. by rewrite E.
  - apply IH; [lia|done|].
    rewrite <- (Hhigh x (le_number a)), <- (Hhigh y (le_number b)) by done. by rewrite E.
Qed.

Lemma rbyte_in c x : 8 <= w -> in_w w c -> in_w 8 x -> in_w w (rbyte poly c x).
Proof using Hw Hpoly.
  intros Hw8 Hc Hx. unfold rbyte. apply riter_in, in_w_lxor; [lia|done|].
  apply (in_w_mono 8); [lia|done].
Qed.

Lemma rbyte_inj c c' x :
  8 <= w -> in_w w c -> in_w w c' -> in_w 8 x -> rbyte poly c x = rbyte poly c' x -> c = c'.
Proof using Hw Hpoly Htop.
  intros Hw8 Hc Hc' Hx E. unfold rbyte in E.
  assert (in_w w x) by (apply (in_w_mono 8); [lia|done]).
  apply riter_inj in E; [|apply in_w_lxor; done || lia..].
  rewrite <- (Z.lxor_0_r c), <- (Z.lxor_nilpotent x), <- Z.lxor_assoc, E.
  by rewrite Z.lxor_assoc, Z.lxor_nilpotent, Z.lxor_0_r.
Qed.

Lemma rfold_in p c : Forall (in_w 8) p -> 8 <= w -> in_w w c -> in_w w (fold_left (rbyte poly) p c).
Proof using Hw Hpoly.
  intros Hp Hw8. revert c. induction Hp as [|x p Hx Hp IH]; intros c Hc; [done|].
  rewrite fold_left_cons. by apply IH, rbyte_in.
Qed.

Lemma rfold_inj p c c' :
  Forall (in_w 8) p -> 8 <= w -> in_w w c -> in_w w c' ->
  fold_left (rbyte poly) p c = fold_left (rbyte poly) p c' -> c = c'.
Proof using Hw Hpoly Htop.
  intros Hp Hw8. revert c c'. induction Hp as [|x p Hx Hp IH]; intros c c' Hc Hc' E; [done|].
  rewrite !fold_left_cons in E.
  apply IH in E; [|by apply rbyte_in..]. by apply (rbyte_inj c c' x).
Qed.

(** Two messages that differ only within [w] consecutive bits, byte-aligned. *)
Lemma rfold_burst p a b s c :
  8 <= w -> 8 * blen a <= w -> length a = length b -> a <> b -> in_w w c ->
  Forall (in_w 8) p -> Forall (in_w 8) a -> Forall (in_w 8) b -> Forall (in_w 8) s ->
  fold_left (rbyte poly) (p ++ a ++ s) c <> fold_left (rbyte poly) (p ++ b ++ s) c.
Proof using Hw Hpoly Htop.
  intros Hw8 Hlen Hl Hne Hc Hp Ha Hb Hs E. apply Hne.
  rewrite !fold_left_app in E.
  pose proof (rfold_in p c Hp Hw8 Hc) as Hc1. set (c1 := fold_left _ p c) in *.
  apply rfold_inj in E; [|done|done|by apply rfold_in..].
  rewrite !rfold_number, <- Hl in E.
  assert (in_w w (le_number a)) by (apply (in_w_mono (8 * blen a)); [unfold blen in *; lia|by apply le_number_in]).
  assert (in_w w (le_number b)).
  { apply (in_w_mono (8 * blen b)); [unfold blen in *; lia|by apply le_number_in]. }
  apply riter_inj in E; [|apply in_w_lxor; done || lia..].
  apply le_number_inj; try done.
  rewrite <- (Z.lxor_0_l (le_number a)), <- (Z.lxor_nilpotent c1), Z.lxor_assoc, E.
  by rewrite <- Z.lxor_assoc, Z.lxor_nilpotent, Z.lxor_0_l.
Qed.

End Burst.

(** ** Registers shifted left *)

Section Forward.
Context (w poly : Z).
Hypothesis Hw : 8 <= w.
Hypothesis Hpoly : in_w w poly.

Definition fbit (crc : Z) : Z :=
  wrap w (Z.lxor (Z.shiftl crc 1) (if Z.testbit crc (w - 1) then poly else 0)).

(** The byte enters at the top of the register. *)
Definition fbyte (crc x : Z) : Z := Nat.iter 8 fbit (Z.lxor crc (Z.shiftl x (w - 8))).

Lemma fbit_linear x y : fbit (Z.lxor x y) = Z.lxor (fbit x) (fbit y).
Proof using Hw.
  unfold fbit. rewrite <- wrap_lxor by lia. f_equal. rewrite Z.shiftl_lxor, Z.lxor_spec.
  apply Z.bits_inj'. intros i Hi. rewrite !Z.lxor_spec.
  destruct (Z.testbit x (w - 1)), (Z.testbit y (w - 1)); simpl; rewrite ?Z.bits_0;
    destruct (Z.testbit (Z.shiftl x 1) i), (Z.testbit (Z.shiftl y 1) i), (Z.testbit poly i); done.
Qed.

Lemma fiter_linear n x y :
  Nat.iter n fbit (Z.lxor x y) = Z.lxor (Nat.iter n fbit x) (Nat.iter n fbit y).
Proof using Hw. induction n as [|n IH]; simpl; [done|]. by rewrite IH, fbit_linear. Qed.

Lemma fbit_low x k : 0 <= k < w -> in_w k x -> fbit x = Z.shiftl x 1 /\ in_w (k + 1) (Z.shiftl x 1).
Proof using Hw.
  intros Hk Hx. unfold fbit. rewrite (in_w_testbit k x), Z.lxor_0_r by (done || lia).
  assert (in_w (k + 1) (Z.shiftl x 1)) as Hs.
  { unfold in_w in *. rewrite Z.shiftl_mul_pow2, Z.pow_add_r by lia. lia. }
  split; [|done]. apply wrap_small. apply (in_w_mono (k + 1)); [lia|done].
Qed.

Lemma fiter_low n x : in_w (w - Z.of_nat n) x -> Z.of_nat n <= w ->
  Nat.iter n fbit x = Z.shiftl x (Z.of_nat n).
Proof using Hw.
  revert x. induction n as [|n IH]; intros x Hx Hn; [by rewrite Z.shiftl_0_r|].
  simpl Nat.iter. rewrite <- iter_swap.
  destruct (fbit_low x (w - Z.of_nat (S n))) as [-> Hs]; [lia|done|].
  rewrite IH by (replace (w - Z.of_nat n) with (w - Z.of_nat (S n) + 1) by lia; done || lia).
  rewrite Z.shiftl_shiftl by lia. f_equal. lia.
Qed.

Context (t : list Z).
Hypothesis Ht : forall i, in_w 8 i -> crc_tab t i = Nat.iter 8 fbit (Z.shiftl i (w - 8)).

Lemma fiter_in n x : in_w w (Nat.iter (S n) fbit x).
Proof using Hw. change (Nat.iter (S n) fbit x) with (fbit (Nat.iter n fbit x)). apply wrap_in. lia. Qed.

Lemma fiter8_low y : in_w (w - 8) y -> Nat.iter 8 fbit y = Z.shiftl y 8.
Proof using Hw. intros Hy. exact (fiter_low 8 y Hy Hw). Qed.

Lemma high_low_split y :
  y = Z.lxor (Z.shiftl (Z.shiftr y (w - 8)) (w - 8)) (wrap (w - 8) y).
Proof using Hw.
  by_bits i Hi. destruct (Z.ltb_spec i (w - 8)); simpl.
  - rewrite (Z.testbit_neg_r _ (i - (w - 8))) by lia. by destruct (Z.testbit y i).
  - rewrite Z.shiftr_spec, Z.sub_add by lia. by destruct (Z.testbit y i).
Qed.

Lemma fbyte_table crc x :
  in_w w crc -> in_w 8 x ->
  fbyte crc x = wrap w (Z.lxor (Z.shiftl crc 8) (crc_tab t (Z.land (Z.lxor (Z.shiftr crc (w - 8)) x) 255))).
Proof using Hw Ht.
  intros Hc Hx. unfold fbyte. rewrite (high_low_split (Z.lxor crc _)), fiter_linear.
  assert (Z.shiftr (Z.lxor crc (Z.shiftl x (w - 8))) (w - 8) =
    Z.land (Z.lxor (Z.shiftr crc (w - 8)) x) 255) as ->.
  { rewrite Z.shiftr_lxor, Z.shiftr_shiftl_l, Z.sub_diag, Z.shiftl_0_r by lia.
    symmetry. change 255 with (2 ^ 8 - 1). rewrite land_mask by lia. apply wrap_small.
    apply in_w_lxor; [lia| |done]. unfold in_w in *. rewrite Z.shiftr_div_pow2 by lia.
    assert (2 ^ w = 2 ^ 8 * 2 ^ (w - 8)) as E by (rewrite <- Z.pow_add_r by lia; f_equal; lia).
    rewrite E in Hc. pose proof (Z.pow_pos_nonneg 2 (w - 8)).
    split; [apply Z.div_pos|apply Z.div_lt_upper_bound]; lia. }
  rewrite <- Ht by apply land_ff_in.
  rewrite fiter8_low by (apply wrap_in; lia).
  rewrite (wrap_lxor w), (Z.lxor_comm (crc_tab t _)) by lia. f_equal.
  - by_bits i Hi. destruct (Z.ltb_spec i 8).
    + rewrite !(Z.testbit_neg_r _ (i - 8)), Z.shiftl_spec_low by lia. by destruct (i <? w), (i - 8 <? w - 8).
    + rewrite !Z.shiftl_spec by lia. destruct (Z.ltb_spec i w), (Z.ltb_spec (i - 8) (w - 8)); try lia; simpl.
      * rewrite (Z.testbit_neg_r x) by lia. by destruct (Z.testbit crc (i - 8)).
  - rewrite Ht by apply land_ff_in. symmetry. apply wrap_small, (fiter_in 7).
Qed.

Lemma fbyte_in crc x : in_w w (fbyte crc x).
Proof using Hw. exact (fiter_in 7 _). Qed.

Lemma ffold_table p crc :
  Forall (in_w 8) p -> in_w w crc ->
  fold_left (fun c x =>
    wrap w (Z.lxor (Z.shiftl c 8) (crc_tab t (Z.land (Z.lxor (Z.shiftr c (w - 8)) x) 255)))) p crc =
  fold_left fbyte p crc.
Proof using Hw Ht.
  intros Hp. revert crc. induction Hp as [|x p Hx Hp IH]; intros crc Hc; [done|].
  rewrite !fold_left_cons, fbyte_table by done. apply IH. apply wrap_in. lia.
Qed.

End Forward.

#[local] Arguments fbyte : simpl never.
#[local] Strategy expand [fbyte le_byte_bitwise be_byte_bitwise].

(** ** CRC-32 *)

Lemma table_le_spec i : in_w 8 i -> crc_tab crc32table_le i = Nat.iter 8 (rbit CRCPOLY_LE) i.
Proof.
  intros Hi. apply Z.eqb_eq. revert i Hi.
  apply (byte_check (fun i => crc_tab crc32table_le i =? Nat.iter 8 (rbit CRCPOLY_LE) i)).
  vm_cast_no_check (eq_refl true).
Qed.

Lemma DO_CRC_le_fold p crc :
  Forall (in_w 8) p -> fold_left (DO_CRC crc32table_le) p crc = fold_left (rbyte CRCPOLY_LE) p crc.
Proof. intros Hp. rewrite <- (rfold_table CRCPOLY_LE crc32table_le table_le_spec p crc Hp). done. Qed.

Lemma crc32_le_rfold crc b p :
  Forall (in_w 8) p -> crc32_le crc b p = fold_left (rbyte CRCPOLY_LE) p crc.
Proof. intros Hp. unfold crc32_le. by rewrite crc32_body_fold, DO_CRC_le_fold. Qed.

(** The check string of the CRC catalogues, and that it is made of bytes. *)
Definition check_string : list Z := [49; 50; 51; 52; 53; 54; 55; 56; 57].

Lemma check_string_bytes : Forall (in_w 8) check_string.
Proof. unfold check_string. repeat constructor; unfold in_w; lia. Qed.

(** The table-driven loop computes the CRC bit by bit. *)
Lemma crc32_le_bits crc b p :
  Forall (in_w 8) p -> crc32_le crc b p = crc32_le_bitwise crc p.
Proof.
  intros Hp. rewrite crc32_le_rfold by done. unfold crc32_le_bitwise.
  apply (fold_left_ext_in (in_w 8)); [done|]. intros c x _. by apply iter_ext.
Qed.

(** Two messages that differ only within four consecutive bytes. *)
Lemma crc32_le_bursts crc b b' p a a' s :
  in_w 32 crc -> Forall (in_w 8) (p ++ a ++ s) -> Forall (in_w 8) a' ->
  length a = length a' -> (length a <= 4)%nat -> a <> a' ->
  crc32_le crc b (p ++ a ++ s) <> crc32_le crc b' (p ++ a' ++ s).
Proof.
  intros Hc Hall Ha' Hl H4 Hne.
  apply Forall_app in Hall as [Hp [Ha Hs]%Forall_app].
  rewrite !crc32_le_rfold by (rewrite !Forall_app; done).
  apply (rfold_burst 32); try done; unfold in_w, blen, CRCPOLY_LE; lia.
Qed.

(** *** The boot loader's CRC-32 *)

Lemma uboot_table_eq : UBoot.crc_table = crc32table_le.
Proof. vm_compute. reflexivity. Qed.

Lemma do8_loop_fold do1 n : forall buf crc,
  let '(crc', buf') := UBoot.do8_loop do1 n buf crc in
  fold_left do1 buf' crc' = fold_left do1 buf crc.
Proof.
  induction n as [|n IH]; intros buf crc; [done|].
  destruct buf as [|x0 [|x1 [|x2 [|x3 [|x4 [|x5 [|x6 [|x7 buf]]]]]]]]; try done.
  apply (IH buf).
Qed.

Lemma DO1_eq crc x : UBoot.DO1 crc x = DO_CRC crc32table_le crc x.
Proof. unfold UBoot.DO1, DO_CRC. by rewrite uboot_table_eq. Qed.

(** The boot loader computes the same CRC. *)
Lemma uboot_crc32_kernel crc b buf :
  Forall (in_w 8) buf ->
  UBoot.crc32 crc buf = Z.lxor (crc32_le (Z.lxor crc 0xffffffff) b buf) 0xffffffff /\
  UBoot.crc32_no_comp crc buf = crc32_le crc b buf.
Proof.
  intros Hb. unfold UBoot.crc32, UBoot.crc32_no_comp, crc32_le.
  pose proof (do8_loop_fold UBoot.DO1 (length buf) buf (Z.lxor crc 0xffffffff)) as H1.
  pose proof (do8_loop_fold UBoot.DO1 (length buf) buf crc) as H2.
  destruct (UBoot.do8_loop _ _ _ _), (UBoot.do8_loop _ _ _ _). rewrite H1, H2.
  rewrite !crc32_body_fold by done.
  split; [f_equal|]; apply (fold_left_ext_in (in_w 8)); done || (intros; apply DO1_eq).
Qed.

(** C28: The table-driven crc32_le, which first aligns the pointer, then takes whole words and then
    the remaining bytes, computes for every alignment the bit-at-a-time CRC of the CRC_LE_BITS
    == 1 variant; the boot loader's crc32 is crc32_le with both ends complemented, and its
    crc32_no_comp is crc32_le itself. Two messages that differ only within four consecutive
    bytes have different checksums. *)
Theorem crc32_le_is_bitwise crc b p :
  Forall (in_w 8) p ->
  crc32_le crc b p = crc32_le_bitwise crc p /\
  UBoot.crc32 crc p = Z.lxor (crc32_le (Z.lxor crc 0xffffffff) b p) 0xffffffff /\
  UBoot.crc32_no_comp crc p = crc32_le crc b p /\
  forall b' q a a' s, in_w 32 crc -> p = q ++ a ++ s -> Forall (in_w 8) a' -> length a = length a' -> (length a <= 4)%nat -> a <> a' ->
    crc32_le crc b p <> crc32_le crc b' (q ++ a' ++ s).
Proof.
  intros Hp. split; [by apply crc32_le_bits|]. destruct (uboot_crc32_kernel crc b p Hp) as [H1 H2]. split; [exact H1|]. split; [exact H2|].
  intros b' q a a' s Hc -> Ha' Hl H4 Hne. by apply crc32_le_bursts.
Qed.

Lemma crc32_le_is_bitwise_witness :
  crc32_le 0xffffffff 3 check_string = crc32_le_bitwise 0xffffffff check_string /\
  UBoot.crc32 0xffffffff check_string = Z.lxor (crc32_le (Z.lxor 0xffffffff 0xffffffff) 3 check_string) 0xffffffff /\
  UBoot.crc32_no_comp 0xffffffff check_string = crc32_le 0xffffffff 3 check_string /\
  crc32_le 0xffffffff 3 check_string <> crc32_le 0xffffffff 2 ([49; 50] ++ [51; 52; 54; 53] ++ [55; 56; 57]).
Proof.
  destruct (crc32_le_is_bitwise 0xffffffff 3 check_string check_string_bytes) as (H1 & H2 & H3 & H4).
  split; [exact H1|]. split; [exact H2|]. split; [exact H3|].
  apply (H4 2 [49; 50] [51; 52; 53; 54] [51; 52; 54; 53] [55; 56; 57]); [unfold in_w; lia|done|repeat constructor; unfold in_w; lia|done|simpl; lia|done].
Defined.

(** *** Big-endian CRC-32 *)

(** One byte field of a word, moved. *)
Lemma field_testbit x k i :
  0 <= i -> 0 <= k ->
  Z.testbit (Z.land x (Z.shiftl (Z.ones 8) k)) i = (k <=? i) && (i <? k + 8) && Z.testbit x i.
Proof.
  intros Hi Hk. rewrite Z.land_spec, Z.shiftl_spec, Z.testbit_ones by lia.
  destruct (Z.testbit x i); simpl; [|by rewrite andb_false_r]. lia.
Qed.

Lemma swab32_testbit x i :
  0 <= i -> Z.testbit (swab32 x) i =
  if i <? 8 then Z.testbit x (i + 24) else if i <? 16 then Z.testbit x (i + 8)
  else if i <? 24 then Z.testbit x (i - 8) else if i <? 32 then Z.testbit x (i - 24) else false.
Proof.
  intros Hi. unfold swab32.
  change 0xff with (Z.shiftl (Z.ones 8) 0). change 0xff00 with (Z.shiftl (Z.ones 8) 8).
  change 0xff0000 with (Z.shiftl (Z.ones 8) 16). change 0xff000000 with (Z.shiftl (Z.ones 8) 24).
  rewrite !Z.lor_spec, !Z.shiftl_spec, !Z.shiftr_spec by lia.
  rewrite (field_testbit x 16 (i + 8)), (field_testbit x 24 (i + 24)) by lia.
  assert (forall k m, 0 <= k -> Z.testbit (Z.land x (Z.shiftl (Z.ones 8) k)) m =
    (k <=? m) && (m <? k + 8) && Z.testbit x m) as Hf.
  { intros k m Hk. destruct (Z.leb_spec 0 m); [by apply field_testbit|].
    rewrite !Z.testbit_neg_r by lia. by rewrite andb_false_r. }
  rewrite !Hf by lia.
  destruct (Z.ltb_spec i 8), (Z.ltb_spec i 16), (Z.ltb_spec i 24), (Z.ltb_spec i 32); try lia;
    repeat match goal with |- context [?a <=? ?b] => destruct (Z.leb_spec a b); try lia end;
    repeat match goal with |- context [?a <? ?b] => destruct (Z.ltb_spec a b); try lia end;
    simpl; rewrite ?orb_false_r; reflexivity.
Qed.

Lemma swab32_lxor x y : swab32 (Z.lxor x y) = Z.lxor (swab32 x) (swab32 y).
Proof.
  apply Z.bits_inj'. intros i Hi. rewrite Z.lxor_spec, !swab32_testbit by done.
  repeat case_match; try apply Z.lxor_spec. done.
Qed.

Lemma swab32_nonneg x : 0 <= swab32 x.
Proof.
  unfold swab32. repeat (apply Z.lor_nonneg; split);
    (apply Z.shiftl_nonneg || apply Z.shiftr_nonneg); apply Z.land_nonneg; lia.
Qed.

Lemma swab32_in x : in_w 32 (swab32 x).
Proof.
  apply in_w_of_testbit; [lia|apply swab32_nonneg|]. intros i Hi.
  rewrite swab32_testbit by lia. repeat case_match; lia || done.
Qed.

Lemma swab32_involutive x : in_w 32 x -> swab32 (swab32 x) = x.
Proof.
  intros Hx. apply Z.bits_inj'. intros i Hi. rewrite swab32_testbit by done.
  destruct (Z.ltb_spec i 8), (Z.ltb_spec i 16), (Z.ltb_spec i 24), (Z.ltb_spec i 32); try lia;
    try (rewrite swab32_testbit by lia; repeat (case_match; try lia); f_equal; lia).
  symmetry. by apply (in_w_testbit 32).
Qed.

Lemma swab32_low x : in_w 32 x -> Z.land (swab32 x) 255 = Z.shiftr x 24.
Proof.
  intros Hx. change 255 with (2 ^ 8 - 1). rewrite land_mask by lia. fold (wrap 8 (swab32 x)).
  by_bits i Hi. rewrite swab32_testbit by done. destruct (Z.ltb_spec i 8); simpl; [done|].
  symmetry. apply (in_w_testbit 32); [done|lia].
Qed.

Lemma swab32_high x : in_w 32 x -> Z.shiftr (swab32 x) 8 = swab32 (wrap 32 (Z.shiftl x 8)).
Proof.
  intros Hx. apply Z.bits_inj'. intros i Hi. rewrite Z.shiftr_spec by done.
  rewrite !swab32_testbit, !wrap_testbit by lia.
  repeat match goal with |- context [?a <? ?b] => destruct (Z.ltb_spec a b); try lia end; simpl;
    rewrite ?Z.shiftl_spec by lia; try (f_equal; lia); try done.
  symmetry. apply Z.testbit_neg_r. lia.
Qed.

Lemma tab_be_swab i : crc_tab crc32table_be i = swab32 (crc_tab crc32init_be i).
Proof.
  assert (crc32table_be = swab32 <$> crc32init_be) as -> by (vm_compute; reflexivity).
  unfold crc_tab. rewrite list_lookup_fmap. by destruct (crc32init_be !! Z.to_nat i).
Qed.

Lemma fbit_be crc : be_bit crc = fbit 32 CRCPOLY_BE crc.
Proof.
  unfold be_bit, fbit, u32. do 2 f_equal. change 0x80000000 with (2 ^ 31).
  replace (truthy (Z.land crc (2 ^ 31))) with (Z.testbit crc 31); [done|].
  unfold truthy. destruct (Z.testbit crc 31) eqn:E.
  - destruct (Z.eqb_spec (Z.land crc (2 ^ 31)) 0) as [H0|]; [|done].
    assert (Z.testbit (Z.land crc (2 ^ 31)) 31 = true) as Ht.
    { rewrite Z.land_spec, E, Z.pow2_bits_true by lia. done. }
    by rewrite H0, Z.bits_0 in Ht.
  - replace (Z.land crc (2 ^ 31)) with 0; [done|]. symmetry. by_bits i Hi.
    rewrite Z.pow2_bits_eqb by lia. destruct (Z.eqb_spec 31 i) as [<-|]; [by rewrite E|].
    apply andb_false_r.
Qed.

Lemma table_be_spec i :
  in_w 8 i -> crc_tab crc32init_be i = Nat.iter 8 (fbit 32 CRCPOLY_BE) (Z.shiftl i (32 - 8)).
Proof.
  intros Hi. apply Z.eqb_eq. revert i Hi.
  apply (byte_check (fun i => crc_tab crc32init_be i =?
    Nat.iter 8 (fbit 32 CRCPOLY_BE) (Z.shiftl i (32 - 8)))).
  vm_cast_no_check (eq_refl true).
Qed.

Lemma table_be_in i : in_w 8 i -> in_w 32 (crc_tab crc32init_be i).
Proof.
  intros Hi. assert ((0 <=? crc_tab crc32init_be i) && (crc_tab crc32init_be i <? 2 ^ 32) = true) as H.
  { revert i Hi. apply (byte_check (fun i => (0 <=? crc_tab crc32init_be i) && (crc_tab crc32init_be i <? 2 ^ 32))).
    vm_cast_no_check (eq_refl true). }
  unfold in_w. apply andb_true_iff in H as [H1%Z.leb_le H2%Z.ltb_lt]. split; assumption.
Qed.

Lemma DO_CRC_be c x :
  in_w 32 c -> in_w 8 x -> DO_CRC crc32table_be (swab32 c) x = swab32 (fbyte 32 CRCPOLY_BE c x).
Proof.
  intros Hc Hx. rewrite (fbyte_table 32 CRCPOLY_BE ltac:(lia) crc32init_be table_be_spec) by done.
  unfold DO_CRC. rewrite tab_be_swab, swab32_high, <- swab32_lxor, Z.lxor_comm by done. f_equal.
  rewrite wrap_lxor by lia. f_equal.
  assert (Z.land (Z.lxor (swab32 c) x) 255 = Z.land (Z.lxor (Z.shiftr c (32 - 8)) x) 255) as ->.
  { change (32 - 8) with 24. rewrite <- swab32_low by done.
    by_bits i Hi. by destruct (Z.testbit (swab32 c) i), (Z.testbit 255 i), (Z.testbit x i). }
  symmetry. apply wrap_small, table_be_in, land_ff_in.
Qed.

Lemma crc32_be_bits crc b p :
  in_w 32 crc -> Forall (in_w 8) p -> crc32_be crc b p = crc32_be_bitwise crc p.
Proof.
  intros Hc Hp. unfold crc32_be, crc32_be_bitwise. rewrite crc32_body_fold by done.
  assert (forall c, in_w 32 c -> fold_left (DO_CRC crc32table_be) p (swab32 c) =
    swab32 (fold_left (fbyte 32 CRCPOLY_BE) p c) /\ in_w 32 (fold_left (fbyte 32 CRCPOLY_BE) p c))
    as Hfold.
  { clear Hc crc. induction Hp as [|x p Hx Hp IH]; intros c Hc; [done|].
    rewrite !fold_left_cons, DO_CRC_be by done. apply IH. apply fbyte_in. lia. }
  destruct (Hfold crc Hc) as [-> Hin]. rewrite swab32_involutive by done.
  apply (fold_left_ext_in (in_w 8)); [done|]. intros c x _. unfold be_byte_bitwise, fbyte.
  apply iter_ext. intros y. symmetry. apply fbit_be.
Qed.

(** *** The 16-bit and the 7-bit codes *)

(** All entries of a table against eight steps of a bit-serial register. *)
Lemma table_rbit poly t :
  forallb (fun i => crc_tab t i =? Nat.iter 8 (rbit poly) i) (seqZ 0 256) = true ->
  forall i, in_w 8 i -> crc_tab t i = Nat.iter 8 (rbit poly) i.
Proof.
  intros H i Hi. apply Z.eqb_eq. exact (byte_check (fun i => crc_tab t i =? Nat.iter 8 (rbit poly) i) H i Hi).
Qed.

Lemma table_fbit w poly t :
  forallb (fun i => crc_tab t i =? Nat.iter 8 (fbit w poly) (Z.shiftl i (w - 8))) (seqZ 0 256) = true ->
  forall i, in_w 8 i -> crc_tab t i = Nat.iter 8 (fbit w poly) (Z.shiftl i (w - 8)).
Proof.
  intros H i Hi. apply Z.eqb_eq.
  exact (byte_check (fun i => crc_tab t i =? Nat.iter 8 (fbit w poly) (Z.shiftl i (w - 8))) H i Hi).
Qed.

Lemma crc16_table_rbit i : in_w 8 i -> crc_tab crc16_table i = Nat.iter 8 (rbit 0xa001) i.
Proof. apply table_rbit. vm_cast_no_check (eq_refl true). Qed.

Lemma crc_ccitt_table_rbit i : in_w 8 i -> crc_tab crc_ccitt_table i = Nat.iter 8 (rbit 0x8408) i.
Proof. apply table_rbit. vm_cast_no_check (eq_refl true). Qed.

Lemma crc_itu_t_table_fbit i :
  in_w 8 i -> crc_tab crc_itu_t_table i = Nat.iter 8 (fbit 16 0x1021) (Z.shiftl i (16 - 8)).
Proof. apply table_fbit. vm_cast_no_check (eq_refl true). Qed.

Lemma t10_dif_table_fbit i :
  in_w 8 i -> crc_tab t10_dif_crc_table i = Nat.iter 8 (fbit 16 0x8bb7) (Z.shiftl i (16 - 8)).
Proof. apply table_fbit. vm_cast_no_check (eq_refl true). Qed.

Lemma crc16_byte_comm t p crc :
  fold_left (fun c x => Z.lxor (Z.shiftr c 8) (crc_tab t (Z.land (Z.lxor c x) 255))) p crc =
  fold_left (fun c x => Z.lxor (crc_tab t (Z.land (Z.lxor c x) 255)) (Z.shiftr c 8)) p crc.
Proof.
  revert crc. induction p as [|x p IH]; intros crc; [done|].
  rewrite !fold_left_cons, IH. f_equal. apply Z.lxor_comm.
Qed.

Lemma crc16_family_bitwise p crc :
  Forall (in_w 8) p -> in_w 16 crc ->
  crc16 crc p = fold_left (rbyte 0xa001) p crc /\
  crc_ccitt crc p = fold_left (rbyte 0x8408) p crc /\
  crc_itu_t crc p = fold_left (fbyte 16 0x1021) p crc /\
  crc_t10dif p = fold_left (fbyte 16 0x8bb7) p 0.
Proof.
  intros Hp Hc. split; [|split; [|split]].
  - rewrite <- (rfold_table _ _ crc16_table_rbit) by done. apply crc16_byte_comm.
  - rewrite <- (rfold_table _ _ crc_ccitt_table_rbit) by done. apply crc16_byte_comm.
  - apply (ffold_table 16 0x1021 ltac:(lia) _ crc_itu_t_table_fbit); done.
  - apply (ffold_table 16 0x8bb7 ltac:(lia) _ t10_dif_table_fbit); [done|].
    unfold in_w. lia.
Qed.

(** The seven-bit register kept in the upper bits of a byte. *)
Lemma crc7_table_fbit i :
  in_w 8 i ->
  Z.shiftl (crc_tab crc7_syndrome_table i) 1 = Nat.iter 8 (fbit 8 0x12) i /\
  in_w 7 (crc_tab crc7_syndrome_table i).
Proof.
  intros Hi.
  assert ((Z.shiftl (crc_tab crc7_syndrome_table i) 1 =? Nat.iter 8 (fbit 8 0x12) i) &&
    (0 <=? crc_tab crc7_syndrome_table i) && (crc_tab crc7_syndrome_table i <? 2 ^ 7) = true) as H.
  { revert i Hi. apply (byte_check (fun i =>
      (Z.shiftl (crc_tab crc7_syndrome_table i) 1 =? Nat.iter 8 (fbit 8 0x12) i) &&
      (0 <=? crc_tab crc7_syndrome_table i) && (crc_tab crc7_syndrome_table i <? 2 ^ 7))).
    vm_cast_no_check (eq_refl true). }
  apply andb_true_iff in H as [[H1%Z.eqb_eq H2%Z.leb_le]%andb_true_iff H3%Z.ltb_lt].
  split; [assumption|]. unfold in_w. split; assumption.
Qed.

Lemma crc7_bitwise p crc :
  Forall (in_w 8) p -> in_w 7 crc ->
  Z.shiftl (crc7 crc p) 1 = fold_left (fbyte 8 0x12) p (Z.shiftl crc 1) /\ in_w 7 (crc7 crc p).
Proof.
  intros Hp. unfold crc7. revert crc. induction Hp as [|x p Hx Hp IH]; intros crc Hc; [done|].
  rewrite !fold_left_cons.
  assert (in_w 8 (Z.lxor (Z.shiftl crc 1) x)) as Hi.
  { apply in_w_lxor; [lia| |done]. unfold in_w in *. rewrite Z.shiftl_mul_pow2 by lia. lia. }
  destruct (crc7_table_fbit _ Hi) as [E Hin]. unfold fbyte at 2. rewrite Z.shiftl_0_r, <- E.
  apply IH. exact Hin.
Qed.

(** ** Bit reversal *)

Lemma bitrev8_spec x i :
  in_w 8 x -> 0 <= i < 8 -> Z.testbit (bitrev8 x) i = Z.testbit x (7 - i).
Proof.
  intros Hx Hi. apply eqb_prop.
  pose proof (byte_check (fun x => forallb (fun i =>
    Bool.eqb (Z.testbit (bitrev8 x) i) (Z.testbit x (7 - i))) (seqZ 0 8))
    ltac:(vm_cast_no_check (eq_refl true)) x Hx) as H.
  rewrite forallb_forall in H. apply H. apply list_elem_of_In, elem_of_seqZ. lia.
Qed.

Lemma bitrev8_in x : in_w 8 x -> in_w 8 (bitrev8 x).
Proof.
  intros Hx.
  pose proof (byte_check (fun x => (0 <=? bitrev8 x) && (bitrev8 x <? 2 ^ 8))
    ltac:(vm_cast_no_check (eq_refl true)) x Hx) as H.
  apply andb_true_iff in H as [H2%Z.leb_le H3%Z.ltb_lt]. by split.
Qed.

(** Reversing the halves and exchanging them. *)
Lemma rev_halves (f : Z -> Z) w x :
  0 < w ->
  (forall y, in_w w y -> in_w w (f y) /\ forall i, 0 <= i < w -> Z.testbit (f y) i = Z.testbit y (w - 1 - i)) ->
  in_w (2 * w) x ->
  let r := Z.lor (Z.shiftl (f (wrap w x)) w) (f (Z.shiftr x w)) in
  in_w (2 * w) r /\ forall i, 0 <= i < 2 * w -> Z.testbit r i = Z.testbit x (2 * w - 1 - i).
Proof.
  intros Hw Hf Hx r.
  assert (in_w w (Z.shiftr x w)) as Hh.
  { unfold in_w in *. rewrite Z.shiftr_div_pow2 by lia.
    replace (2 * w) with (w + w) in Hx by lia. rewrite Z.pow_add_r in Hx by lia.
    pose proof (Z.pow_pos_nonneg 2 w).
    split; [apply Z.div_pos|apply Z.div_lt_upper_bound]; lia. }
  destruct (Hf (wrap w x) ltac:(apply wrap_in; lia)) as [Hl1 Hl2]. destruct (Hf _ Hh) as [Hh1 Hh2].
  assert (forall i, 0 <= i -> Z.testbit r i =
    if i <? w then Z.testbit x (2 * w - 1 - i) else (i <? 2 * w) && Z.testbit x (2 * w - 1 - i)) as Hr.
  { intros i Hi. unfold r. rewrite Z.lor_spec, Z.shiftl_spec by lia.
    destruct (Z.ltb_spec i w).
    - rewrite (Z.testbit_neg_r _ (i - w)), Hh2, Z.shiftr_spec by lia. simpl. f_equal. lia.
    - rewrite (in_w_testbit w (f (Z.shiftr x w))), orb_false_r by (done || lia).
      destruct (Z.ltb_spec i (2 * w)); simpl; [|apply (in_w_testbit w); [done|lia]].
      rewrite Hl2, wrap_testbit by lia. replace (w - 1 - (i - w) <? w) with true by lia.
      simpl. f_equal. lia. }
  split.
  - apply in_w_of_testbit; [lia| |].
    + unfold r. apply Z.lor_nonneg. split; [apply Z.shiftl_nonneg|]; unfold in_w in *; lia.
    + intros i Hi. rewrite Hr by lia. by replace (i <? w) with false by lia; replace (i <? 2 * w) with false by lia.
  - intros i Hi. rewrite Hr by lia. by replace (i <? 2 * w) with true by lia; case_match.
Qed.

Lemma bitrev16_spec x :
  in_w 16 x ->
  in_w 16 (bitrev16 x) /\ forall i, 0 <= i < 16 -> Z.testbit (bitrev16 x) i = Z.testbit x (15 - i).
Proof.
  intros Hx. unfold bitrev16. change 0xff with (2 ^ 8 - 1). rewrite land_mask by lia.
  apply (rev_halves bitrev8 8 x); [lia| |done].
  intros y Hy. split; [by apply bitrev8_in|]. intros. by apply bitrev8_spec.
Qed.

Lemma bitrev32_spec x :
  in_w 32 x ->
  in_w 32 (bitrev32 x) /\ forall i, 0 <= i < 32 -> Z.testbit (bitrev32 x) i = Z.testbit x (31 - i).
Proof.
  intros Hx. unfold bitrev32. change 0xffff with (2 ^ 16 - 1). rewrite land_mask by lia.
  apply (rev_halves bitrev16 16 x); [lia|apply bitrev16_spec|done].
Qed.

(** C35: The table-driven crc32_be (for every alignment of the buffer), crc16, crc_ccitt, crc_itu_t,
    crc_t10dif and crc7 compute the bit-at-a-time CRCs of their polynomials; bitrev32 gives a
    32-bit word whose bit i is bit 31 - i of its argument. *)
Theorem crc_family_is_bitwise p c32 b crc c7 :
  Forall (in_w 8) p -> in_w 32 c32 -> in_w 16 crc -> in_w 7 c7 ->
  crc32_be c32 b p = crc32_be_bitwise c32 p /\
  crc16 crc p = fold_left (rbyte 0xa001) p crc /\
  crc_ccitt crc p = fold_left (rbyte 0x8408) p crc /\
  crc_itu_t crc p = fold_left (fbyte 16 0x1021) p crc /\
  crc_t10dif p = fold_left (fbyte 16 0x8bb7) p 0 /\
  Z.shiftl (crc7 c7 p) 1 = fold_left (fbyte 8 0x12) p (Z.shiftl c7 1) /\
  in_w 32 (bitrev32 c32) /\ (forall i, 0 <= i < 32 -> Z.testbit (bitrev32 c32) i = Z.testbit c32 (31 - i)).
Proof.
  intros Hp H32 Hc H7. destruct (crc16_family_bitwise p crc Hp Hc) as (? & ? & ? & ?).
  pose proof (crc32_be_bits c32 b p H32 Hp). destruct (crc7_bitwise p c7 Hp H7).
  destruct (bitrev32_spec c32 H32). by split_and!.
Qed.

Lemma crc_family_is_bitwise_witness :
  crc32_be 0xffffffff 1 check_string = crc32_be_bitwise 0xffffffff check_string /\
  crc16 0xffff check_string = fold_left (rbyte 0xa001) check_string 0xffff /\
  crc_ccitt 0xffff check_string = fold_left (rbyte 0x8408) check_string 0xffff /\
  crc_itu_t 0xffff check_string = fold_left (fbyte 16 0x1021) check_string 0xffff /\
  crc_t10dif check_string = fold_left (fbyte 16 0x8bb7) check_string 0 /\
  Z.shiftl (crc7 5 check_string) 1 = fold_left (fbyte 8 0x12) check_string (Z.shiftl 5 1) /\
  in_w 32 (bitrev32 0xffffffff) /\
  (forall i, 0 <= i < 32 -> Z.testbit (bitrev32 0xffffffff) i = Z.testbit 0xffffffff (31 - i)).
Proof.
  apply (crc_family_is_bitwise check_string 0xffffffff 1 0xffff 5); [apply check_string_bytes|unfold in_w; lia..].
Defined.
