(* ===== verification/Sort.v ===== *)
(** * lib/sort.c: the kernel's heapsort

    The array is the list of its bytes, the counters are byte offsets exactly as in
    the code ("pre-scale counters for performance"), and the comparison routine is
    a function of the bytes of the two elements.  The byte-level routine is related
    to a heapsort on a list of elements, which is proved to sort. *)

From S2P Require Import Prelude.
From stdpp Require Import sorting.

Local Open Scope Z_scope.

(** ** The code *)

(** Every access is checked: [None] is an access outside of the array. *)
Definition byte_at (m : list Z) (a : Z) : option Z := get m a.

Definition put_byte (m : list Z) (a v : Z) : option (list Z) := set m a v.

Definition load32 (m : list Z) (a : Z) : option Z :=
  b0 ← byte_at m a;
  b1 ← byte_at m (a + 1);
  b2 ← byte_at m (a + 2);
  b3 ← byte_at m (a + 3);
  Some (Z.lor b0 (Z.lor (Z.shiftl b1 8) (Z.lor (Z.shiftl b2 16) (Z.shiftl b3 24)))).

Definition store32 (m : list Z) (a v : Z) : option (list Z) :=
  m ← put_byte m a (u8 v);
  m ← put_byte m (a + 1) (u8 (Z.shiftr v 8));
  m ← put_byte m (a + 2) (u8 (Z.shiftr v 16));
  put_byte m (a + 3) (u8 (Z.shiftr v 24)).

Definition u32_swap (m : list Z) (a b size : Z) : option (list Z) :=
  t ← load32 m a;
  v ← load32 m b;
  m ← store32 m a v;
  store32 m b t.

(** The [do ... while (--size > 0)] loop, [n] rounds. *)
Fixpoint swap_bytes (n : nat) (m : list Z) (a b : Z) : option (list Z) :=
  match n with
  | O => Some m
  | S n' =>
      t ← byte_at m a;
      v ← byte_at m b;
      m ← put_byte m a v;
      m ← put_byte m b t;
      swap_bytes n' m (a + 1) (b + 1)
  end.

Definition generic_swap (m : list Z) (a b size : Z) : option (list Z) :=
  swap_bytes (Z.to_nat (Z.max 1 size)) m a b.

(** The element a comparison routine is given a pointer to. *)
Definition elem_at (m : list Z) (size a : Z) : option (list Z) :=
  if (0 <=? a) && (a + size <=? blen m) then Some (take (Z.to_nat size) (drop (Z.to_nat a) m)) else None.

Section Code.
Context (cmp_func : list Z -> list Z -> Z).
Context (swap_func : list Z -> Z -> Z -> Z -> option (list Z)).
Context (size : Z).

(** [cmp_func(base + a, base + b)] *)
Definition compare_at (base : list Z) (a b : Z) : option Z :=
  x ← elem_at base size a;
  y ← elem_at base size b;
  Some (cmp_func x y).

(** The inner loop of both phases, from [r] with end offset [n]; [c] is its only
    other variable.  [size] is unsigned, so the tests are unsigned.  [None] when
    the fuel runs out or an access is out of bounds. *)
Fixpoint sift (fuel : nat) (base : list Z) (r n : Z) : option (list Z) :=
  match fuel with
  | O => None
  | S fuel' =>
      if u32 (r * 2 + size) <? u32 n then
        let c := s32 (u32 (r * 2 + size)) in
        c ← (if u32 c <? u32 (n - size) then
               d ← compare_at base c (c + size);
               Some (if d <? 0 then s32 (u32 (c + size)) else c)
             else Some c);
        d ← compare_at base r c;
        if 0 <=? d then Some base
        else
          base ← swap_func base r c size;
          sift fuel' base c n
      else Some base
  end.

Fixpoint heapify (fuel : nat) (base : list Z) (i n : Z) : option (list Z) :=
  match fuel with
  | O => None
  | S fuel' =>
      if 0 <=? i then
        base ← sift (S (Z.to_nat n)) base i n;
        heapify fuel' base (s32 (u32 (i - size))) n
      else Some base
  end.

Fixpoint sort_phase (fuel : nat) (base : list Z) (i : Z) : option (list Z) :=
  match fuel with
  | O => None
  | S fuel' =>
      if 0 <? i then
        base ← swap_func base 0 i size;
        base ← sift (S (Z.to_nat i)) base 0 i;
        sort_phase fuel' base (s32 (u32 (i - size)))
      else Some base
  end.

End Code.

Definition sort (base : list Z) (num size : Z) (cmp_func : list Z -> list Z -> Z)
    (swap_func : option (list Z -> Z -> Z -> Z -> option (list Z))) : option (list Z) :=
  let i := s32 (u32 ((num / 2 - 1) * size)) in
  let n := s32 (u32 (num * size)) in
  let swap := match swap_func with
              | Some f => f
              | None => if size =? 4 then u32_swap else generic_swap
              end in
  base ← heapify cmp_func swap size (S (Z.to_nat num)) base i n;
  sort_phase cmp_func swap size (S (Z.to_nat num)) base (s32 (u32 (n - size))).

(** ** Heapsort on elements

    The same two phases on a list of elements with indices instead of offsets. *)

Section Heap.
Context {A : Type} (cmp : A -> A -> Z).

Definition swap (l : list A) (i j : nat) : list A :=
  match l !! i, l !! j with
  | Some x, Some y => <[i := y]> (<[j := x]> l)
  | _, _ => l
  end.

Definition cmp_at (l : list A) (i j : nat) : Z :=
  match l !! i, l !! j with
  | Some x, Some y => cmp x y
  | _, _ => 0
  end.

Fixpoint hsift (fuel : nat) (l : list A) (r n : nat) : option (list A) :=
  match fuel with
  | O => None
  | S fuel' =>
      if (2 * r + 1 <? n)%nat then
        let c := (2 * r + 1)%nat in
        let c := if (c + 1 <? n)%nat && (cmp_at l c (c + 1) <? 0) then (c + 1)%nat else c in
        if 0 <=? cmp_at l r c then Some l else hsift fuel' (swap l r c) c n
      else Some l
  end.

(** [k] roots are left to be sifted. *)
Fixpoint hheapify (k : nat) (l : list A) (n : nat) : option (list A) :=
  match k with
  | O => Some l
  | S k' => match hsift (S n) l k' n with Some l' => hheapify k' l' n | None => None end
  end.

(** The elements up to index [i] are left to be sorted. *)
Fixpoint hsort (i : nat) (l : list A) : option (list A) :=
  match i with
  | O => Some l
  | S i' => match hsift (S i) (swap l 0 i) 0 i with Some l' => hsort i' l' | None => None end
  end.

Definition heapsort (l : list A) : option (list A) :=
  match hheapify (length l / 2) l (length l) with
  | Some l' => hsort (length l - 1) l'
  | None => None
  end.

End Heap.

(** ** Exchanging two elements *)

Definition transpose (i j k : nat) : nat :=
  if decide (k = i) then j else if decide (k = j) then i else k.

Lemma transpose_inj i j : Inj (=) (=) (transpose i j).
Proof. intros a b. unfold transpose. repeat case_decide; lia. Qed.

Section SwapFacts.
Context {A : Type}.
Implicit Types l : list A.

Lemma swap_lookup l i j k :
  (i < length l)%nat -> (j < length l)%nat -> swap l i j !! k = l !! transpose i j k.
Proof.
  intros Hi Hj. unfold swap, transpose.
  destruct (lookup_lt_is_Some_2 l i Hi) as [x Hx], (lookup_lt_is_Some_2 l j Hj) as [y Hy].
  rewrite Hx, Hy. destruct (decide (k = i)) as [->|].
  - by rewrite list_lookup_insert_eq, Hy by (rewrite length_insert; lia).
  - rewrite list_lookup_insert_ne by done. destruct (decide (k = j)) as [->|].
    + by rewrite list_lookup_insert_eq by lia.
    + by rewrite list_lookup_insert_ne by done.
Qed.

Lemma swap_length l i j : length (swap l i j) = length l.
Proof. unfold swap. by repeat case_match; rewrite ?length_insert. Qed.

Lemma swap_perm l i j : swap l i j ≡ₚ l.
Proof.
  destruct (decide (i < length l)%nat) as [Hi|Hi].
  2: { unfold swap. by rewrite lookup_ge_None_2 by lia. }
  destruct (decide (j < length l)%nat) as [Hj|Hj].
  2: { unfold swap. rewrite (lookup_ge_None_2 l j) by lia. by case_match. }
  apply Permutation_inj. split; [apply swap_length|].
  exists (transpose i j). split; [apply transpose_inj|]. intros k. by apply swap_lookup.
Qed.

End SwapFacts.

(** ** Heapsort sorts *)

Section HeapFacts.
Context {A : Type} (cmp : A -> A -> Z).
Implicit Types l : list A.

(** The comparison routine is a total preorder: its sign is antisymmetric and
    "not greater" is transitive. *)
Hypothesis cmp_sign : forall x y, 0 <= cmp x y <-> cmp y x <= 0.
Hypothesis cmp_trans : forall x y z, cmp x y <= 0 -> cmp y z <= 0 -> cmp x z <= 0.

(** Element [i] is not greater than element [j]. *)
Definition le_at l (i j : nat) : Prop :=
  match l !! i, l !! j with Some x, Some y => cmp x y <= 0 | _, _ => True end.

Lemma le_at_trans l i j k : (j < length l)%nat -> le_at l i j -> le_at l j k -> le_at l i k.
Proof using cmp_trans.
  intros Hj. unfold le_at. destruct (lookup_lt_is_Some_2 l j Hj) as [y ->].
  destruct (l !! i), (l !! k); try done. apply cmp_trans.
Qed.

Lemma le_at_refl l i : le_at l i i.
Proof using cmp_sign.
  unfold le_at. destruct (l !! i) as [x|]; [|done].
  destruct (Z.leb_spec (cmp x x) 0); [done|]. apply cmp_sign. lia.
Qed.

Lemma cmp_at_le l i j : cmp_at cmp l i j < 0 -> le_at l i j.
Proof using Type. unfold cmp_at, le_at. destruct (l !! i), (l !! j); lia. Qed.

Lemma cmp_at_ge l i j : 0 <= cmp_at cmp l i j -> le_at l j i.
Proof using cmp_sign.
  unfold cmp_at, le_at. destruct (l !! i), (l !! j); try done. apply cmp_sign.
Qed.

Lemma le_at_swap l i j a b :
  (i < length l)%nat -> (j < length l)%nat ->
  le_at (swap l i j) a b <-> le_at l (transpose i j a) (transpose i j b).
Proof using Type. intros. unfold le_at. by rewrite !swap_lookup. Qed.

Definition child (c p : nat) : Prop := (c = 2 * p + 1 \/ c = 2 * p + 2)%nat.

(** The first [n] elements form a heap below the nodes from [k] on, except at [r]
    if [hole = Some r]; the children of the hole respect its parent. *)
Definition heap l (n k : nat) (hole : option nat) : Prop :=
  (forall p c, child c p -> (k <= p)%nat -> (c < n)%nat -> Some p <> hole -> le_at l c p) /\
  (forall r q c, hole = Some r -> child r q -> (k <= q)%nat -> child c r -> (c < n)%nat -> le_at l c q).

Lemma heap_close l n k r :
  heap l n k (Some r) -> (forall c, child c r -> (c < n)%nat -> le_at l c r) -> heap l n k None.
Proof using Type.
  intros [H1 _] Hr. split; [|done]. intros p c Hc Hp Hn _.
  destruct (decide (p = r)) as [->|]; [by apply Hr|]. apply H1; try done. congruence.
Qed.

(** The child the loop picks is the greatest one. *)
Definition pick l (r n : nat) : nat :=
  let c := (2 * r + 1)%nat in
  if (c + 1 <? n)%nat && (cmp_at cmp l c (c + 1) <? 0) then (c + 1)%nat else c.

Lemma pick_spec l r n :
  (2 * r + 1 < n)%nat ->
  child (pick l r n) r /\ (pick l r n < n)%nat /\
  forall c, child c r -> (c < n)%nat -> le_at l c (pick l r n).
Proof using cmp_sign.
  intros Hr. unfold pick, child. set (c := (2 * r + 1)%nat).
  destruct (Nat.ltb_spec (c + 1) n), (Z.ltb_spec (cmp_at cmp l c (c + 1)) 0); simpl;
    (split; [lia|]; split; [lia|]); intros d [Hd|Hd] Hdn; try lia.
  - replace d with c by lia. by apply cmp_at_le.
  - replace d with (c + 1)%nat by lia. apply le_at_refl.
  - replace d with c by lia. apply le_at_refl.
  - replace d with (c + 1)%nat by lia. by apply cmp_at_ge.
  - replace d with c by lia. apply le_at_refl.
  - replace d with c by lia. apply le_at_refl.
Qed.

Lemma hsift_unfold f l r n :
  hsift cmp (S f) l r n =
  if (2 * r + 1 <? n)%nat then
    if 0 <=? cmp_at cmp l r (pick l r n) then Some l
    else hsift cmp f (swap l r (pick l r n)) (pick l r n) n
  else Some l.
Proof using Type. reflexivity. Qed.

(** Moving the hole one level down. *)
Lemma heap_down l n k r c :
  (n <= length l)%nat -> heap l n k (Some r) -> child c r -> (c < n)%nat ->
  le_at l r c -> (forall d, child d r -> (d < n)%nat -> le_at l d c) ->
  heap (swap l r c) n k (Some c).
Proof using Type.
  intros Hn [H1 H2] Hc Hcn Hrc Hmax. unfold child in *.
  split.
  - intros p d Hd Hp Hdn Hne. unfold child in Hd. rewrite le_at_swap by lia.
    assert (p <> c) by congruence. unfold transpose.
    destruct (decide (p = r)) as [->|].
    + destruct (decide (d = c)) as [->|]; repeat (case_decide; try lia); [done|by apply Hmax].
    + destruct (decide (d = r)) as [->|]; repeat (case_decide; try lia); [by apply (H2 r p c)|].
      apply H1; try done. congruence.
  - intros ? q d [= <-] Hq Hkq Hd Hdn. unfold child in *. replace q with r by lia.
    rewrite le_at_swap by lia. unfold transpose. repeat (case_decide; try lia).
    apply H1; try lia. intros [= ->]. lia.
Qed.

Lemma hsift_heap f : forall l r n k l',
  (n <= length l)%nat -> (r < n)%nat -> heap l n k (Some r) ->
  hsift cmp f l r n = Some l' -> heap l' n k None.
Proof using cmp_sign cmp_trans.
  induction f as [|f IH]; intros l r n k l' Hn Hr Hh; [done|]. rewrite hsift_unfold.
  destruct (Nat.ltb_spec (2 * r + 1) n) as [Hlt|Hge].
  - destruct (pick_spec l r n Hlt) as (Hc & Hcn & Hmax).
    destruct (Z.leb_spec 0 (cmp_at cmp l r (pick l r n))) as [Hcmp|Hcmp]; intros E.
    + injection E as <-. apply (heap_close _ _ _ r); [done|]. intros c Hcr Hcn'.
      eapply le_at_trans; [|by apply Hmax|by apply cmp_at_ge]. lia.
    + eapply IH; [..|exact E]; [by rewrite swap_length|done|].
      apply heap_down; try done. by apply cmp_at_le.
  - intros [= <-]. apply (heap_close _ _ _ r); [done|]. unfold child. lia.
Qed.

(** The loop ends, permutes the first [n] elements and keeps the others. *)
Lemma hsift_total f : forall l r n, (n <= length l)%nat -> (n <= r + f)%nat -> (0 < f)%nat ->
  exists l', hsift cmp f l r n = Some l' /\ length l' = length l /\ l' ≡ₚ l /\
    exists g, (forall a, (a < n -> g a < n)%nat /\ (n <= a -> g a = a)%nat) /\
              forall a, l' !! a = l !! g a.
Proof using cmp_sign.
  induction f as [|f IH]; intros l r n Hn Hf Hpos; [lia|]. rewrite hsift_unfold.
  assert (exists l', Some l = Some l' /\ length l' = length l /\ l' ≡ₚ l /\
    exists g, (forall a, (a < n -> g a < n)%nat /\ (n <= a -> g a = a)%nat) /\
              forall a, l' !! a = l !! g a) as Hid.
  { exists l. repeat split; try done. exists id. by split. }
  destruct (Nat.ltb_spec (2 * r + 1) n) as [Hlt|Hge]; [|done].
  destruct (0 <=? _); [done|]. destruct (pick_spec l r n Hlt) as (Hc & Hcn & _).
  set (c := pick l r n) in *. unfold child in Hc.
  destruct (IH (swap l r c) c n) as (l' & -> & Hlen & Hperm & g & Hg & Hl);
    [by rewrite swap_length|lia..|].
  exists l'. split; [done|]. rewrite swap_length in Hlen. split; [done|].
  split; [by rewrite Hperm, swap_perm|].
  exists (fun a => transpose r c (g a)). split.
  - intros a. destruct (Hg a) as [Hg1 Hg2]. unfold transpose.
    split; intros Ha; [specialize (Hg1 Ha)|rewrite (Hg2 Ha)]; repeat case_decide; lia.
  - intros a. rewrite Hl, swap_lookup by lia. done.
Qed.

Lemma hheapify_heap k : forall l,
  heap l (length l) k None ->
  exists l', hheapify cmp k l (length l) = Some l' /\ l' ≡ₚ l /\ heap l' (length l') 0 None.
Proof using cmp_sign cmp_trans.
  induction k as [|k IH]; intros l Hh; [by exists l|]. cbn [hheapify].
  destruct (hsift_total (S (length l)) l k (length l)) as (l' & E & Hlen & Hperm & _); [lia..|].
  rewrite E. destruct (decide (k < length l)%nat) as [Hk|Hk].
  - assert (heap l (length l) k (Some k)) as Hk'.
    { split; unfold child in *.
      - intros p c Hc Hp Hcn Hne. apply (proj1 Hh); try done.
        assert (p <> k) by congruence. lia.
      - intros r q c [= <-] Hq Hkq. lia. }
    pose proof (hsift_heap _ _ _ _ _ _ (Nat.le_refl _) Hk Hk' E) as Hh'. rewrite <- Hlen in Hh'.
    destruct (IH l' Hh') as (l'' & E' & Hp' & Hh''). rewrite Hlen in E'.
    exists l''. split; [done|]. split; [by rewrite Hp'|done].
  - rewrite hsift_unfold in E. destruct (Nat.ltb_spec (2 * k + 1) (length l)); [lia|].
    injection E as <-. apply IH. split; [|done]. unfold child. lia.
Qed.

Lemma hheapify_perm k : forall l l', hheapify cmp k l (length l) = Some l' -> l' ≡ₚ l.
Proof using cmp_sign.
  induction k as [|k IH]; intros l l' E; [by injection E as ->|]. cbn [hheapify] in E.
  destruct (hsift_total (S (length l)) l k (length l)) as (l2 & E2 & Hl2 & Hp2 & _); [lia..|].
  rewrite E2, <- Hl2 in E. rewrite <- Hp2. by apply IH.
Qed.

(** The root of a heap is its greatest element. *)
Lemma heap_root l n : (n <= length l)%nat -> heap l n 0 None -> forall a, (a < n)%nat -> le_at l a 0.
Proof using cmp_sign cmp_trans.
  intros Hn [H1 _] a. induction (lt_wf a) as [a _ IH]. intros Ha.
  destruct (decide (a = 0%nat)) as [->|]; [apply le_at_refl|].
  set (p := ((a - 1) / 2)%nat). assert (child a p).
  { unfold child, p. pose proof (Nat.div_mod_eq (a - 1) 2). pose proof (Nat.mod_upper_bound (a - 1) 2). lia. }
  assert (p < a)%nat by (unfold child in *; lia).
  apply (le_at_trans l a p 0); [lia| |apply IH; lia]. apply H1; try done || lia.
Qed.

(** Everything behind index [i] is in its final place. *)
Definition settled l (i : nat) : Prop :=
  forall a b, (a < b)%nat -> (i < b)%nat -> le_at l a b.

Lemma hsort_step l i l' :
  (S i < length l)%nat -> heap l (S (S i)) 0 None -> settled l (S i) ->
  hsift cmp (S (S i)) (swap l 0 (S i)) 0 (S i) = Some l' ->
  l' ≡ₚ l /\ heap l' (S i) 0 None /\ settled l' i.
Proof using cmp_sign cmp_trans.
  intros Hlen Hh Hs E. pose proof (heap_root l (S (S i)) ltac:(lia) Hh) as Hroot.
  destruct (hsift_total (S (S i)) (swap l 0 (S i)) 0 (S i)) as (l1 & E1 & _ & Hperm & g & Hg & Hl);
    [rewrite ?swap_length; lia..|].
  rewrite E in E1. injection E1 as <-. split; [by rewrite Hperm, swap_perm|]. split.
  - eapply hsift_heap; [..|exact E]; [rewrite swap_length; lia|lia|]. split.
    + intros p c Hc _ Hcn Hne. rewrite le_at_swap by lia. unfold child, transpose in *.
      assert (p <> 0%nat) by congruence. repeat (case_decide; try lia). apply (proj1 Hh); try done || lia.
    + intros r q c [= <-]. unfold child. lia.
  - intros a b Hab Hb. unfold le_at. rewrite !Hl.
    destruct (Hg b) as [_ Hgb]. rewrite Hgb, !swap_lookup by lia.
    fold (le_at l (transpose 0 (S i) (g a)) (transpose 0 (S i) b)).
    destruct (Hg a) as [Hg1 Hg2]. destruct (decide (b = S i)) as [->|].
    + specialize (Hg1 Hab). replace (transpose 0 (S i) (S i)) with 0%nat
        by (unfold transpose; repeat (case_decide; try lia)).
      apply Hroot. unfold transpose. repeat case_decide; lia.
    + replace (transpose 0 (S i) b) with b by (unfold transpose; repeat (case_decide; try lia)).
      apply Hs; [|lia]. destruct (decide (a < S i)%nat) as [Ha|Ha];
        [specialize (Hg1 Ha)|rewrite Hg2 by lia]; unfold transpose; repeat case_decide; lia.
Qed.

Lemma hsort_sorts i : forall l,
  (i < length l)%nat -> heap l (S i) 0 None -> settled l i ->
  exists l', hsort cmp i l = Some l' /\ l' ≡ₚ l /\ settled l' 0.
Proof using cmp_sign cmp_trans.
  induction i as [|i IH]; intros l Hi Hh Hs; [by exists l|]. cbn [hsort].
  destruct (hsift_total (S (S i)) (swap l 0 (S i)) 0 (S i)) as (l' & E & Hlen & _);
    [rewrite ?swap_length; lia..|].
  destruct (hsort_step l i l' Hi Hh Hs E) as (Hp & Hh' & Hs').
  rewrite E. destruct (IH l') as (l'' & -> & Hp' & Hs''); [rewrite Hlen, swap_length; lia|done..|].
  exists l''. split; [done|]. split; [by rewrite Hp'|done].
Qed.

Lemma settled_sorted l : settled l 0 -> StronglySorted (fun x y => cmp x y <= 0) l.
Proof using Type.
  induction l as [|x l IH]; intros Hs; constructor.
  - apply IH. intros a b Hab Hb. exact (Hs (S a) (S b) ltac:(lia) ltac:(lia)).
  - apply Forall_lookup. intros i y Hy. specialize (Hs 0%nat (S i) ltac:(lia) ltac:(lia)).
    unfold le_at in Hs. simpl in Hs. by rewrite Hy in Hs.
Qed.

Lemma heapsort_sorts l :
  exists l', heapsort cmp l = Some l' /\ l' ≡ₚ l /\ StronglySorted (fun x y => cmp x y <= 0) l'.
Proof using cmp_sign cmp_trans.
  unfold heapsort. destruct (hheapify_heap (length l / 2) l) as (l1 & E1 & Hp1 & Hh1).
  { split; [|done]. unfold child. intros p c Hc Hp Hn _.
    pose proof (Nat.div_mod_eq (length l) 2). pose proof (Nat.mod_upper_bound (length l) 2). lia. }
  rewrite E1. pose proof (Permutation_length Hp1) as Hlen.
  destruct (decide (length l = 0%nat)) as [H0|].
  - exists l1. rewrite H0 in *. simpl. split; [done|]. split; [done|].
    rewrite (nil_length_inv l1) by lia. constructor.
  - destruct (hsort_sorts (length l - 1) l1) as (l2 & -> & Hp2 & Hs2); [lia| |..].
    + replace (S (length l - 1)) with (length l1) by lia. done.
    + intros a b Hab Hb. unfold le_at. rewrite (lookup_ge_None_2 l1 b) by lia. by case_match.
    + exists l2. split; [done|]. split; [by rewrite Hp2|]. by apply settled_sorted.
Qed.

End HeapFacts.

(** ** Bytes and elements *)

Lemma concat_lookup sz (els : list (list Z)) : forall r j,
  Forall (fun e => length e = sz) els -> (j < sz)%nat ->
  concat els !! (r * sz + j)%nat = els !! r ≫= (.!! j).
Proof.
  induction els as [|e els IH]; intros r j HF Hj; [done|]. decompose_Forall_hyps.
  destruct r as [|r]; simpl.
  - by rewrite lookup_app_l by lia.
  - rewrite lookup_app_r by lia. rewrite <- IH by done. f_equal. lia.
Qed.

Lemma concat_length sz (els : list (list Z)) :
  Forall (fun e => length e = sz) els -> length (concat els) = (length els * sz)%nat.
Proof. induction 1 as [|e els He HF IH]; simpl; [done|]. rewrite length_app. lia. Qed.

Lemma elem_at_concat sz (els : list (list Z)) r e :
  Forall (fun e => length e = sz) els -> els !! r = Some e ->
  elem_at (concat els) (Z.of_nat sz) (Z.of_nat r * Z.of_nat sz) = Some e.
Proof.
  intros HF He. unfold elem_at. pose proof (lookup_lt_Some _ _ _ He) as Hr.
  pose proof (concat_length sz els HF) as Hlen. rewrite (proj2 (Z.leb_le 0 _)), (proj2 (Z.leb_le _ (blen _))) by (unfold blen; nia).
  cbn [andb]. f_equal. rewrite Nat2Z.id, <- Nat2Z.inj_mul, Nat2Z.id.
  pose proof (Forall_lookup_1 _ els r e HF He) as Hl. cbv beta in Hl.
  apply list_eq. intros j. destruct (decide (j < sz)%nat) as [Hj|Hj].
  - rewrite lookup_take_lt, lookup_drop, (concat_lookup sz), He by done. done.
  - rewrite lookup_take_ge, (lookup_ge_None_2 e) by lia. done.
Qed.

Lemma byte_at_nat m a : byte_at m (Z.of_nat a) = m !! a.
Proof. unfold byte_at, get. by rewrite (proj2 (Z.leb_le 0 _)), Nat2Z.id by lia. Qed.

Lemma put_byte_nat m a v : (a < length m)%nat -> put_byte m (Z.of_nat a) v = Some (<[a := v]> m).
Proof.
  intros Ha. unfold put_byte, set, blen. by rewrite (proj2 (Z.leb_le 0 _)), (proj2 (Z.ltb_lt _ _)), Nat2Z.id by lia.
Qed.

(** One round of [generic_swap] exchanges two bytes. *)
Lemma swap_bytes_S n m a b x y :
  m !! a = Some x -> m !! b = Some y ->
  swap_bytes (S n) m (Z.of_nat a) (Z.of_nat b) = swap_bytes n (<[b := x]> (<[a := y]> m)) (Z.of_nat (S a)) (Z.of_nat (S b)).
Proof.
  intros Hx Hy. cbn [swap_bytes]. rewrite !byte_at_nat, Hx, Hy. cbn [mbind option_bind].
  pose proof (lookup_lt_Some _ _ _ Hx). pose proof (lookup_lt_Some _ _ _ Hy).
  rewrite put_byte_nat by done. cbn [mbind option_bind]. rewrite put_byte_nat by (by rewrite length_insert).
  cbn [mbind option_bind]. f_equal; lia.
Qed.

Definition block_transpose (n a b k : nat) : nat :=
  if decide (a <= k < a + n)%nat then (k - a + b)%nat
  else if decide (b <= k < b + n)%nat then (k - b + a)%nat else k.

Lemma swap_bytes_spec n : forall m a b,
  (a + n <= length m)%nat -> (b + n <= length m)%nat -> (a + n <= b \/ b + n <= a)%nat ->
  exists m', swap_bytes n m (Z.of_nat a) (Z.of_nat b) = Some m' /\ length m' = length m /\
    forall k, m' !! k = m !! block_transpose n a b k.
Proof.
  induction n as [|n IH]; intros m a b Ha Hb Hd.
  - exists m. split_and!; [done..|]. intros k. unfold block_transpose. repeat (case_decide; try lia). done.
  - destruct (lookup_lt_is_Some_2 m a) as [x Hx], (lookup_lt_is_Some_2 m b) as [y Hy]; [lia..|].
    rewrite (swap_bytes_S _ _ _ _ x y) by done. rewrite list_insert_insert_ne by lia.
    assert (<[a := y]> (<[b := x]> m) = swap m a b) as -> by (unfold swap; by rewrite Hx, Hy).
    destruct (IH (swap m a b) (S a) (S b)) as (m' & -> & Hl & Hk); [rewrite ?swap_length; lia..|].
    exists m'. split; [done|]. split; [by rewrite Hl, swap_length|]. intros k. rewrite Hk, swap_lookup by lia. f_equal.
    unfold block_transpose, transpose. repeat (case_decide; try lia).
Qed.

(** [f] exchanges two different elements of [size] bytes. *)
Definition exchanges (size : nat) (f : list Z -> Z -> Z -> Z -> option (list Z)) : Prop :=
  forall els i j,
    Forall (fun e => length e = size /\ Forall (in_w 8) e) els ->
    (i < length els)%nat -> (j < length els)%nat -> i <> j ->
    f (concat els) (Z.of_nat i * Z.of_nat size) (Z.of_nat j * Z.of_nat size) (Z.of_nat size) =
    Some (concat (swap els i j)).

Lemma swap_bytes_exchanges size els i j :
  Forall (fun e => length e = size) els ->
  (i < length els)%nat -> (j < length els)%nat -> i <> j ->
  swap_bytes size (concat els) (Z.of_nat (i * size)) (Z.of_nat (j * size)) = Some (concat (swap els i j)).
Proof.
  intros HF Hi Hj Hne.
  assert (Forall (fun e => length e = size) (swap els i j)) as HF' by (by rewrite swap_perm).
  pose proof (concat_length size els HF) as Hl. pose proof (concat_length size _ HF') as Hl'.
  rewrite swap_length in Hl'.
  assert (i * size + size <= j * size \/ j * size + size <= i * size)%nat by nia.
  destruct (swap_bytes_spec size (concat els) (i * size) (j * size)) as (m' & -> & Hlm & Hk); [nia..|]. f_equal.
  destruct (decide (size = 0%nat)) as [->|].
  { rewrite Nat.mul_0_r in *. rewrite (nil_length_inv _ Hl'). apply nil_length_inv. lia. }
  apply list_eq. intros k. destruct (decide (k < length els * size)%nat) as [Hk'|Hk'].
  2: { rewrite !lookup_ge_None_2 by lia. done. }
  assert (exists q s, k = q * size + s /\ s < size)%nat as (q & s & -> & Hs).
  { exists (k / size)%nat, (k mod size)%nat. split; [|by apply Nat.mod_upper_bound].
    rewrite Nat.mul_comm. by apply Nat.div_mod_eq. }
  rewrite Hk, (concat_lookup size _ q s), swap_lookup by done.
  rewrite <- (concat_lookup size) by done. f_equal.
  unfold block_transpose, transpose.
  destruct (decide (q = i)) as [->|]; [case_decide; lia|].
  rewrite decide_False by nia.
  destruct (decide (q = j)) as [->|]; [case_decide; lia|].
  rewrite decide_False by nia. lia.
Qed.

Lemma generic_swap_exchanges size : (0 < size)%nat -> exchanges size generic_swap.
Proof.
  intros Hs els i j HF Hi Hj Hne. unfold generic_swap. rewrite Z.max_r, Nat2Z.id by lia.
  rewrite <- !Nat2Z.inj_mul. apply swap_bytes_exchanges; try done.
  eapply Forall_impl; [exact HF|]. by intros e [? _].
Qed.

(** The word swap of four-byte elements. *)

Lemma load32_bytes b0 b1 b2 b3 :
  Forall (in_w 8) [b0; b1; b2; b3] ->
  let v := Z.lor b0 (Z.lor (Z.shiftl b1 8) (Z.lor (Z.shiftl b2 16) (Z.shiftl b3 24))) in
  u8 v = b0 /\ u8 (Z.shiftr v 8) = b1 /\ u8 (Z.shiftr v 16) = b2 /\ u8 (Z.shiftr v 24) = b3.
Proof.
  intros HF v. decompose_Forall_hyps.
  assert (forall b i, in_w 8 b -> 8 <= i -> Z.testbit b i = false) as Hhi
    by (intros; by apply (in_w_testbit 8)).
  unfold v, u8. split; [|split; [|split]]; by_bits i Hi;
    (destruct (Z.ltb_spec i 8); cbn [andb]; [|symmetry; by apply Hhi]);
    repeat match goal with
      | |- context [Z.testbit ?b ?e] =>
          first [ rewrite (Z.testbit_neg_r b e) by lia | rewrite (Hhi b e) by (done || lia) ]
      end; rewrite ?orb_false_l, ?orb_false_r; f_equal; lia.
Qed.

(** Four bytes from [a] on. *)
Lemma load32_nat m a x0 x1 x2 x3 :
  m !! a = Some x0 -> m !! S a = Some x1 -> m !! S (S a) = Some x2 -> m !! S (S (S a)) = Some x3 ->
  load32 m (Z.of_nat a) = Some (Z.lor x0 (Z.lor (Z.shiftl x1 8) (Z.lor (Z.shiftl x2 16) (Z.shiftl x3 24)))).
Proof.
  intros E0 E1 E2 E3. unfold load32. replace (Z.of_nat a + 1) with (Z.of_nat (S a)) by lia.
  replace (Z.of_nat a + 2) with (Z.of_nat (S (S a))) by lia. replace (Z.of_nat a + 3) with (Z.of_nat (S (S (S a)))) by lia.
  by rewrite !byte_at_nat, E0, E1, E2, E3.
Qed.

Lemma store32_nat m a x0 x1 x2 x3 :
  Forall (in_w 8) [x0; x1; x2; x3] -> (a + 4 <= length m)%nat ->
  store32 m (Z.of_nat a) (Z.lor x0 (Z.lor (Z.shiftl x1 8) (Z.lor (Z.shiftl x2 16) (Z.shiftl x3 24)))) =
  Some (<[S (S (S a)) := x3]> (<[S (S a) := x2]> (<[S a := x1]> (<[a := x0]> m)))).
Proof.
  intros HF Ha. destruct (load32_bytes _ _ _ _ HF) as (E0 & E1 & E2 & E3). unfold store32. rewrite E0, E1, E2, E3.
  replace (Z.of_nat a + 1) with (Z.of_nat (S a)) by lia.
  replace (Z.of_nat a + 2) with (Z.of_nat (S (S a))) by lia. replace (Z.of_nat a + 3) with (Z.of_nat (S (S (S a)))) by lia.
  do 3 (rewrite put_byte_nat by (rewrite ?length_insert; lia); cbn [mbind option_bind]).
  by rewrite put_byte_nat by (rewrite ?length_insert; lia).
Qed.

Lemma u32_swap_bytes m (a b : nat) size :
  Forall (in_w 8) m -> (a + 4 <= length m)%nat -> (b + 4 <= length m)%nat -> (a + 4 <= b \/ b + 4 <= a)%nat ->
  u32_swap m (Z.of_nat a) (Z.of_nat b) size = swap_bytes 4 m (Z.of_nat a) (Z.of_nat b).
Proof.
  intros HF Ha Hb Hd.
  assert (forall k, (k < length m)%nat -> exists x, m !! k = Some x /\ in_w 8 x) as Hget.
  { intros k Hk. destruct (lookup_lt_is_Some_2 m k Hk) as [x Hx]. exists x. split; [done|]. by eapply (Forall_lookup_1 _ m). }
  destruct (Hget a) as (x0 & Ex0 & Wx0), (Hget (S a)) as (x1 & Ex1 & Wx1), (Hget (S (S a))) as (x2 & Ex2 & Wx2),
    (Hget (S (S (S a)))) as (x3 & Ex3 & Wx3), (Hget b) as (y0 & Ey0 & Wy0), (Hget (S b)) as (y1 & Ey1 & Wy1),
    (Hget (S (S b))) as (y2 & Ey2 & Wy2), (Hget (S (S (S b)))) as (y3 & Ey3 & Wy3); try lia.
  unfold u32_swap. rewrite (load32_nat m a x0 x1 x2 x3), (load32_nat m b y0 y1 y2 y3) by done. cbn [mbind option_bind].
  rewrite store32_nat by (done || by rewrite !Forall_cons). cbn [mbind option_bind].
  rewrite store32_nat by ((by rewrite !Forall_cons) || by rewrite !length_insert).
  rewrite (swap_bytes_S _ _ _ _ x0 y0) by done.
  rewrite (swap_bytes_S _ _ _ _ x1 y1) by (rewrite !list_lookup_insert_ne by lia; done).
  rewrite (swap_bytes_S _ _ _ _ x2 y2) by (rewrite !list_lookup_insert_ne by lia; done).
  rewrite (swap_bytes_S _ _ _ _ x3 y3) by (rewrite !list_lookup_insert_ne by lia; done).
  cbn [swap_bytes]. f_equal.
  rewrite (list_insert_insert_ne _ (S (S (S a))) (S (S b))), (list_insert_insert_ne _ (S (S a)) (S b)), (list_insert_insert_ne _ (S (S (S a))) (S b)) by lia.
  by rewrite (list_insert_insert_ne _ (S a) b), (list_insert_insert_ne _ (S (S a)) b), (list_insert_insert_ne _ (S (S (S a))) b) by lia.
Qed.

Lemma concat_bytes (els : list (list Z)) n :
  Forall (fun e => length e = n /\ Forall (in_w 8) e) els -> Forall (in_w 8) (concat els).
Proof. induction 1 as [|e els [_ He] _ IH]; simpl; [constructor|]. by apply Forall_app. Qed.

Lemma u32_swap_exchanges : exchanges 4 u32_swap.
Proof.
  intros els i j HF Hi Hj Hne.
  assert (Forall (fun e => length e = 4%nat) els) as HF' by (eapply Forall_impl; [exact HF|]; by intros e [? _]).
  pose proof (concat_length 4 els HF') as Hl. rewrite <- !Nat2Z.inj_mul.
  rewrite u32_swap_bytes by ((by eapply concat_bytes) || nia). by apply swap_bytes_exchanges.
Qed.

(** ** The code implements the heapsort on elements *)

Section Refine.
Context (cmp_func : list Z -> list Z -> Z) (swap_func : list Z -> Z -> Z -> Z -> option (list Z)).
Context (size : nat) (Hsize : (0 < size)%nat) (Hswap : exchanges size swap_func).

#[local] Abbreviation sz := (Z.of_nat size).
#[local] Abbreviation at_ i := (Z.of_nat i * sz).

Definition elems (l : list (list Z)) : Prop :=
  Forall (fun e => length e = size /\ Forall (in_w 8) e) l /\ Z.of_nat (length l) * sz <= 2 ^ 30.

Lemma elems_perm l l' : l' ≡ₚ l -> elems l -> elems l'.
Proof using Type. intros Hp [HF Hn]. split; [by rewrite Hp|]. by rewrite Hp. Qed.

Lemma compare_at_elem l i j :
  elems l -> (i < length l)%nat -> (j < length l)%nat ->
  compare_at cmp_func sz (concat l) (at_ i) (at_ j) = Some (cmp_at cmp_func l i j).
Proof using Type.
  intros [HF _] Hi Hj. unfold cmp_at, compare_at.
  assert (Forall (fun e => length e = size) l) by (eapply Forall_impl; [exact HF|]; by intros e [? _]).
  destruct (lookup_lt_is_Some_2 l i Hi) as [x Hx], (lookup_lt_is_Some_2 l j Hj) as [y Hy].
  by rewrite Hx, Hy, (elem_at_concat _ _ i x), (elem_at_concat _ _ j y).
Qed.

Lemma sift_refines f : forall l r n l' f',
  elems l -> (r < n <= length l)%nat -> (f <= f')%nat -> hsift cmp_func f l r n = Some l' ->
  sift cmp_func swap_func sz f' (concat l) (at_ r) (at_ n) = Some (concat l').
Proof using Hsize Hswap.
  induction f as [|f IH]; intros l r n l' f' He Hr Hf E; [done|].
  destruct f' as [|f']; [lia|]. cbn [sift]. rewrite hsift_unfold in E.
  pose proof He as [HF Hb].
  assert (at_ n <= 2 ^ 30) by nia. assert (at_ r < at_ n) by nia.
  replace (at_ r * 2 + sz) with (at_ (2 * r + 1)%nat) by lia.
  rewrite !(u32_small (at_ _)) by nia.
  destruct (Nat.ltb_spec (2 * r + 1) n) as [Hlt|Hge].
  2: { replace (at_ (2 * r + 1)%nat <? at_ n) with false by (symmetry; apply Z.ltb_ge; nia).
       congruence. }
  replace (at_ (2 * r + 1)%nat <? at_ n) with true by (symmetry; apply Z.ltb_lt; nia).
  rewrite s32_small, !u32_small by nia.
  set (c := (2 * r + 1)%nat) in *.
  assert ((if at_ c <? at_ n - sz then d ← compare_at cmp_func sz (concat l) (at_ c) (at_ c + sz);
             Some (if d <? 0 then s32 (at_ c + sz) else at_ c) else Some (at_ c)) = Some (at_ (pick cmp_func l r n))) as ->.
  { unfold pick. fold c. replace (at_ c + sz) with (at_ (c + 1)%nat) by lia.
    destruct (Nat.ltb_spec (c + 1) n).
    - replace (at_ c <? at_ n - sz) with true by (symmetry; apply Z.ltb_lt; nia).
      rewrite compare_at_elem by (done || lia). cbn [mbind option_bind andb]. destruct (_ <? 0); [|done].
      by rewrite s32_small by nia.
    - by replace (at_ c <? at_ n - sz) with false by (symmetry; apply Z.ltb_ge; nia). }
  cbn [mbind option_bind].
  assert (child (pick cmp_func l r n) r /\ (pick cmp_func l r n < n)%nat) as [Hc Hcn].
  { unfold pick, child. fold c. destruct (Nat.ltb_spec (c + 1) n); cbn [andb]; [|lia].
    destruct (_ <? 0); lia. }
  rewrite compare_at_elem by (done || lia). cbn [mbind option_bind]. destruct (0 <=? _); [congruence|].
  unfold child in Hc. rewrite Hswap by (done || lia). cbn [mbind option_bind].
  apply IH; try done || lia; [|rewrite swap_length; lia].
  eapply elems_perm; [apply swap_perm|done].
Qed.

Lemma hsift_keeps l r n l' f :
  (n <= length l)%nat -> (n <= r + f)%nat -> (0 < f)%nat -> elems l ->
  (forall x y, 0 <= cmp_func x y <-> cmp_func y x <= 0) ->
  hsift cmp_func f l r n = Some l' -> elems l' /\ length l' = length l.
Proof using Type.
  intros Hn Hf Hp He Hs E.
  destruct (hsift_total cmp_func Hs f l r n) as (l1 & E1 & Hl & Hperm & _); [done..|].
  rewrite E in E1. injection E1 as <-. split; [|done]. by eapply elems_perm.
Qed.

Hypothesis cmp_sign : forall x y, 0 <= cmp_func x y <-> cmp_func y x <= 0.

Lemma heapify_refines k : forall l l' f,
  elems l -> (2 * k <= length l)%nat -> (k < f)%nat ->
  hheapify cmp_func k l (length l) = Some l' ->
  heapify cmp_func swap_func sz f (concat l) (Z.of_nat k * sz - sz) (at_ (length l)) =
  Some (concat l').
Proof using Hsize Hswap cmp_sign.
  induction k as [|k IH]; intros l l' f He Hk Hf E; (destruct f as [|f]; [lia|]); cbn [heapify].
  - rewrite (proj2 (Z.leb_gt 0 _)) by lia. simpl in E. congruence.
  - cbn [hheapify] in E. rewrite (proj2 (Z.leb_le 0 _)) by nia.
    replace (Z.of_nat (S k) * sz - sz) with (at_ k) by lia.
    destruct (hsift cmp_func (S (length l)) l k (length l)) as [l1|] eqn:E1; [|done].
    rewrite (sift_refines (S (length l)) l k (length l) l1) by (done || nia).
    destruct (hsift_keeps l k (length l) l1 (S (length l))) as [He1 Hl1]; try done || lia.
    pose proof He as [_ Hb]. rewrite s32_u32, s32_small by nia. rewrite <- Hl1 in *.
    apply IH; done || lia.
Qed.

Lemma sort_phase_refines i : forall l l' f,
  elems l -> (i < length l)%nat -> (i < f)%nat -> hsort cmp_func i l = Some l' ->
  sort_phase cmp_func swap_func sz f (concat l) (at_ i) = Some (concat l').
Proof using Hsize Hswap cmp_sign.
  induction i as [|i IH]; intros l l' f He Hi Hf E; (destruct f as [|f]; [lia|]); cbn [sort_phase].
  - rewrite Z.ltb_irrefl. simpl in E. congruence.
  - cbn [hsort] in E. rewrite (proj2 (Z.ltb_lt 0 _)) by nia.
    destruct (hsift cmp_func (S (S i)) (swap l 0 (S i)) 0 (S i)) as [l1|] eqn:E1; [|done].
    pose proof (Hswap l 0%nat (S i) (proj1 He)) as Hs. rewrite Z.mul_0_l in Hs.
    rewrite Hs by lia. cbn [mbind option_bind]. assert (elems (swap l 0 (S i))) as He'
      by (eapply elems_perm; [apply swap_perm|done]).
    pose proof (sift_refines (S (S i)) (swap l 0 (S i)) 0%nat (S i) l1 (S (Z.to_nat (at_ (S i))))) as Hsift.
    rewrite Z.mul_0_l in Hsift. rewrite Hsift by (done || rewrite ?swap_length; nia).
    destruct (hsift_keeps (swap l 0 (S i)) 0%nat (S i) l1 (S (S i))) as [He1 Hl1];
      try done || (rewrite ?swap_length; lia). rewrite swap_length in Hl1.
    pose proof He as [_ Hb]. rewrite s32_u32, s32_small by nia.
    replace (at_ (S i) - sz) with (at_ i) by lia. apply IH; done || lia.
Qed.

End Refine.

(** The swap routine [sort] uses. *)
Definition chosen_swap (size : Z) (swap_func : option (list Z -> Z -> Z -> Z -> option (list Z))) :=
  match swap_func with Some f => f | None => if size =? 4 then u32_swap else generic_swap end.

Lemma chosen_swap_exchanges size swap_func :
  (0 < size)%nat -> (forall f, swap_func = Some f -> exchanges size f) ->
  exchanges size (chosen_swap (Z.of_nat size) swap_func).
Proof.
  intros Hs Hf. destruct swap_func as [f|]; simpl; [by apply Hf|].
  destruct (Z.eqb_spec (Z.of_nat size) 4).
  - replace size with 4%nat by lia. apply u32_swap_exchanges.
  - by apply generic_swap_exchanges.
Qed.

(** The code equals the heapsort on the list of elements. *)
Lemma sort_refines els size cmp_func swap_func l' :
  (0 < size)%nat -> (forall f, swap_func = Some f -> exchanges size f) ->
  (forall x y, 0 <= cmp_func x y <-> cmp_func y x <= 0) -> Z.of_nat size <= 2 ^ 30 ->
  elems size els -> heapsort cmp_func els = Some l' ->
  sort (concat els) (Z.of_nat (length els)) (Z.of_nat size) cmp_func swap_func = Some (concat l').
Proof.
  intros Hs Hf Hsign Hs30 He E. pose proof (chosen_swap_exchanges size swap_func Hs Hf) as Hx.
  unfold sort. fold (chosen_swap (Z.of_nat size) swap_func).
  set (sw := chosen_swap (Z.of_nat size) swap_func) in *.
  unfold heapsort in E. set (n := length els) in *. pose proof He as [_ Hb]. fold n in Hb.
  destruct (hheapify cmp_func (n / 2) els n) as [l1|] eqn:E1; [|done].
  assert (Z.of_nat n / 2 = Z.of_nat (n / 2)) as Hdiv by (by rewrite Nat2Z.inj_div).
  pose proof (Nat.div_mod_eq n 2). pose proof (Nat.mod_upper_bound n 2).
  assert (0 <= Z.of_nat n * Z.of_nat size <= 2 ^ 30) by nia.
  rewrite !s32_u32, Hdiv, !(s32_small (Z.of_nat n * Z.of_nat size)) by lia.
  rewrite (s32_small ((Z.of_nat (n / 2) - 1) * _)) by nia.
  replace ((Z.of_nat (n / 2) - 1) * Z.of_nat size) with (Z.of_nat (n / 2) * Z.of_nat size - Z.of_nat size) by lia.
  rewrite (heapify_refines cmp_func sw size Hs Hx Hsign (n / 2) els l1) by (done || lia). cbn [mbind option_bind].
  assert (l1 ≡ₚ els) as Hp1 by (by apply (hheapify_perm cmp_func Hsign (n / 2))).
  destruct n as [|n'] eqn:En.
  - rewrite s32_small by nia. cbn [sort_phase]. rewrite (proj2 (Z.ltb_ge 0 _)) by lia.
    simpl in E. congruence.
  - rewrite s32_small by nia.
    replace (Z.of_nat (S n') * Z.of_nat size - Z.of_nat size) with (Z.of_nat n' * Z.of_nat size) by lia.
    rewrite (sort_phase_refines cmp_func sw size Hs Hx Hsign n' l1 l'); try done || lia.
    + by eapply elems_perm.
    + rewrite (Permutation_length Hp1). lia.
    + by replace (S n' - 1)%nat with n' in E by lia.
Qed.

(** C3: sort() ends on every array of at most 2^30 bytes and leaves a permutation of its elements
    that is sorted by cmp_func, for every element size, with the built-in swaps or any caller's
    swap that exchanges two elements, and for every comparison function that is a total
    preorder. Every load and store of the sort, of the comparisons and of the built-in swaps is
    checked against the array, so none of them is outside it. *)
Theorem sort_sorts els size cmp_func swap_func :
  (0 < size)%nat ->
  Forall (fun e => length e = size /\ Forall (in_w 8) e) els ->
  Z.of_nat size <= 2 ^ 30 -> Z.of_nat (length els) * Z.of_nat size <= 2 ^ 30 ->
  (forall f, swap_func = Some f -> exchanges size f) ->
  (forall x y, 0 <= cmp_func x y <-> cmp_func y x <= 0) ->
  (forall x y z, cmp_func x y <= 0 -> cmp_func y z <= 0 -> cmp_func x z <= 0) ->
  exists els',
    sort (concat els) (Z.of_nat (length els)) (Z.of_nat size) cmp_func swap_func = Some (concat els') /\
    els' ≡ₚ els /\ StronglySorted (fun x y => cmp_func x y <= 0) els'.
Proof.
  intros Hs HF Hs30 Hb Hf Hsign Htrans.
  destruct (heapsort_sorts cmp_func Hsign Htrans els) as (l' & E & Hp & Hsorted).
  exists l'. split; [|done]. by apply sort_refines.
Qed.

(** Elements ordered by their first byte. *)
Definition cmp_first (x y : list Z) : Z := default 0 (head x) - default 0 (head y).

Lemma sort_sorts_witness :
  exists els', sort (concat [[3; 0]; [1; 7]; [2; 9]]) 3 2 cmp_first None = Some (concat els') /\
    els' ≡ₚ [[3; 0]; [1; 7]; [2; 9]] /\ StronglySorted (fun x y => cmp_first x y <= 0) els'.
Proof.
  apply (sort_sorts [[3; 0]; [1; 7]; [2; 9]] 2 cmp_first None).
  - lia.
  - repeat constructor; unfold in_w; lia.
  - lia.
  - simpl. lia.
  - discriminate.
  - unfold cmp_first. lia.
  - unfold cmp_first. lia.
Defined.
