(* ===== verification/Memory.v ===== *)
(** * Flat byte memory

    The memory the boot loader's string routines work on: a partial map from
    addresses to bytes.  Address 0 is the null pointer.  Loads and stores of
    unmapped addresses fault ([None]). *)

From S2P Require Import Prelude.
From stdpp Require Export gmap.

Local Open Scope Z_scope.

Abbreviation mem := (gmap Z Z).

Definition load (m : mem) (a : Z) : option Z := m !! a.

Definition store (m : mem) (a v : Z) : option mem :=
  match m !! a with Some _ => Some (<[a := v]> m) | None => None end.

(** ** Regions *)

(** [n] mapped bytes at [a]. *)
Definition mapped (m : mem) (a : Z) (n : nat) : Prop :=
  forall i : nat, (i < n)%nat -> is_Some (m !! (a + Z.of_nat i)).

(** The bytes [l] at [a]. *)
Definition bytes_at (m : mem) (a : Z) (l : list Z) : Prop :=
  forall (i : nat) v, l !! i = Some v -> m !! (a + Z.of_nat i) = Some v.

(** The NUL-terminated string [s] at [a]. *)
Definition str_at (m : mem) (a : Z) (s : list Z) : Prop :=
  bytes_at m a (s ++ [0]) /\ Forall (fun c => c <> 0) s.

(** [m'] differs from [m] at most in the [n] bytes at [a]. *)
Definition same_except (m m' : mem) (a : Z) (n : nat) : Prop :=
  forall b, ~ (a <= b < a + Z.of_nat n) -> m' !! b = m !! b.

Lemma store_Some m a v : is_Some (m !! a) -> store m a v = Some (<[a := v]> m).
Proof. intros [x Hx]. unfold store. by rewrite Hx. Qed.

Lemma bytes_at_nil m a : bytes_at m a [].
Proof. intros i v. by rewrite lookup_nil. Qed.

Lemma bytes_at_cons m a c l :
  bytes_at m a (c :: l) <-> m !! a = Some c /\ bytes_at m (a + 1) l.
Proof.
  split.
  - intros H. split.
    + rewrite <- (Z.add_0_r a). by apply (H 0%nat).
    + intros i v Hv. replace (a + 1 + Z.of_nat i) with (a + Z.of_nat (S i)) by lia. by apply H.
  - intros [H1 H2] [|i] v Hv; simpl in Hv.
    + injection Hv as <-. by rewrite Z.add_0_r.
    + replace (a + Z.of_nat (S i)) with (a + 1 + Z.of_nat i) by lia. by apply H2.
Qed.

Lemma bytes_at_app m a l l' :
  bytes_at m a (l ++ l') <-> bytes_at m a l /\ bytes_at m (a + Z.of_nat (length l)) l'.
Proof.
  revert a. induction l as [|c l IH]; intros a; simpl.
  - rewrite Z.add_0_r. split; [intros; split; [apply bytes_at_nil|done]|by intros [_ ?]].
  - rewrite !bytes_at_cons, IH.
    replace (a + Z.of_nat (S (length l))) with (a + 1 + Z.of_nat (length l)) by lia. tauto.
Qed.

Lemma bytes_at_agree m m' a l :
  bytes_at m a l -> (forall i : nat, (i < length l)%nat -> m' !! (a + Z.of_nat i) = m !! (a + Z.of_nat i)) ->
  bytes_at m' a l.
Proof. intros H E i v Hv. rewrite E; [by apply H|]. by eapply lookup_lt_Some. Qed.

Lemma bytes_at_inj m a l l' :
  bytes_at m a l -> bytes_at m a l' -> length l = length l' -> l = l'.
Proof.
  intros H H' Hl. apply list_eq_same_length with (length l'); [done..|].
  intros i x y Hi Hx Hy. specialize (H i x Hx). specialize (H' i y Hy). congruence.
Qed.

Lemma str_at_cons m a c s :
  str_at m a (c :: s) <-> m !! a = Some c /\ c <> 0 /\ str_at m (a + 1) s.
Proof.
  unfold str_at. simpl. rewrite bytes_at_cons, List.Forall_cons_iff. tauto.
Qed.

Lemma str_at_nil m a : str_at m a [] <-> m !! a = Some 0.
Proof.
  unfold str_at. simpl. rewrite bytes_at_cons. split; [tauto|].
  intros H. split; [|constructor]. split; [done|apply bytes_at_nil].
Qed.

Lemma str_at_app m a s t :
  str_at m a (s ++ t) <->
  bytes_at m a s /\ Forall (fun c => c <> 0) s /\ str_at m (a + Z.of_nat (length s)) t.
Proof. unfold str_at. rewrite <- app_assoc, bytes_at_app, Forall_app. tauto. Qed.

(** A string is determined by its address. *)
Lemma str_at_inj m a s : forall t, str_at m a s -> str_at m a t -> s = t.
Proof.
  revert a. induction s as [|c s IH]; intros a [|d t]; rewrite ?str_at_nil, ?str_at_cons.
  - done.
  - intros H (H1 & ? & _). congruence.
  - intros (H1 & H2 & _) H3. congruence.
  - intros (Hc & _ & Hs) (Hd & _ & Ht). f_equal; [congruence|]. by apply (IH (a + 1)).
Qed.

Lemma str_at_agree m m' a s :
  str_at m a s ->
  (forall i : nat, (i <= length s)%nat -> m' !! (a + Z.of_nat i) = m !! (a + Z.of_nat i)) ->
  str_at m' a s.
Proof.
  intros [H HF] E. split; [|done]. apply (bytes_at_agree m); [done|].
  intros i. rewrite length_app. simpl. intros. apply E. lia.
Qed.

Lemma same_except_trans m m1 m2 a n a1 n1 :
  same_except m m1 a n -> same_except m1 m2 a1 n1 -> a <= a1 -> a1 + Z.of_nat n1 <= a + Z.of_nat n ->
  same_except m m2 a n.
Proof. intros H1 H2 Ha Hn b Hb. rewrite H2 by lia. by apply H1. Qed.

(** ** Deciding the predicates on a concrete memory *)

Fixpoint bytes_atb (m : mem) (a : Z) (l : list Z) : bool :=
  match l with
  | [] => true
  | v :: l' => bool_decide (m !! a = Some v) && bytes_atb m (a + 1) l'
  end.

Lemma bytes_atb_spec m l : forall a, bytes_atb m a l = true -> bytes_at m a l.
Proof.
  induction l as [|x l IH]; intros a H i v Hv; [done|]. simpl in H. apply andb_true_iff in H as [Hx Hl].
  apply bool_decide_eq_true in Hx. destruct i as [|i]; simpl in Hv.
  - injection Hv as ->. by rewrite Z.add_0_r.
  - apply IH in Hl. replace (a + Z.of_nat (S i)) with (a + 1 + Z.of_nat i) by lia. by apply Hl.
Qed.

Lemma str_atb_spec m a s :
  bytes_atb m a (s ++ [0]) && forallb (fun c => negb (c =? 0)) s = true -> str_at m a s.
Proof.
  intros [Hb Hs]%andb_true_iff. split; [by apply bytes_atb_spec|].
  apply list.Forall_forall. intros c Hc. rewrite forallb_forall in Hs.
  apply list_elem_of_In in Hc. specialize (Hs c Hc). lia.
Qed.

Lemma bytes_at_mapped m a l : bytes_at m a l -> mapped m a (length l).
Proof.
  intros H i Hi. destruct (lookup_lt_is_Some_2 l i Hi) as [v Hv]. exists v. by apply H.
Qed.

(** Consecutive bytes from [a]. *)
Fixpoint mem_of (a : Z) (l : list Z) : mem :=
  match l with [] => ∅ | v :: l' => <[a := v]> (mem_of (a + 1) l') end.
