(* ===== verification/UbootString.v ===== *)
(** * u-boot-1.1.6/lib_generic/string.c

    The string and memory routines of the boot loader on the flat memory of
    [Memory].  Characters are unsigned (the ARM default).  Loops that run to a
    terminating NUL take fuel; loops that count down are structural in the count. *)

From S2P Require Import Prelude Memory.

Local Open Scope Z_scope.

(** Conversion of an [int] to [signed char]. *)
Definition s8 (x : Z) : Z := (x + 2 ^ 7) mod 2 ^ 8 - 2 ^ 7.

(** ** Copying strings *)

(** The copying loop: stores up to and including the NUL. *)
Fixpoint strcpy_loop (fuel : nat) (m : mem) (dest src : Z) : option mem :=
  match fuel with
  | O => None
  | S fuel' =>
      c ← load m src;
      m' ← store m dest c;
      if c =? 0 then Some m' else strcpy_loop fuel' m' (dest + 1) (src + 1)
  end.

Definition strcpy (fuel : nat) (m : mem) (dest src : Z) : option (Z * mem) :=
  m' ← strcpy_loop fuel m dest src;
  Some (dest, m').

Fixpoint strncpy_loop (count : nat) (m : mem) (dest src : Z) : option mem :=
  match count with
  | O => Some m
  | S count' =>
      c ← load m src;
      m' ← store m dest c;
      if c =? 0 then Some m' else strncpy_loop count' m' (dest + 1) (src + 1)
  end.

Definition strncpy (m : mem) (dest src count : Z) : option (Z * mem) :=
  m' ← strncpy_loop (Z.to_nat count) m dest src;
  Some (dest, m').

(** Advances [p] to the terminating NUL. *)
Fixpoint strend (fuel : nat) (m : mem) (p : Z) : option Z :=
  match fuel with
  | O => None
  | S fuel' =>
      c ← load m p;
      if c =? 0 then Some p else strend fuel' m (p + 1)
  end.

Definition strcat (fuel : nat) (m : mem) (dest src : Z) : option (Z * mem) :=
  d ← strend fuel m dest;
  m' ← strcpy_loop fuel m d src;
  Some (dest, m').

(** The copying loop of [strncat], entered with a non-zero [count]. *)
Fixpoint strncat_loop (count : nat) (m : mem) (dest src : Z) : option mem :=
  match count with
  | O => None
  | S count' =>
      c ← load m src;
      m' ← store m dest c;
      if c =? 0 then Some m'
      else match count' with
           | O => store m' (dest + 1) 0
           | S _ => strncat_loop count' m' (dest + 1) (src + 1)
           end
  end.

Definition strncat (fuel : nat) (m : mem) (dest src count : Z) : option (Z * mem) :=
  if count =? 0 then Some (dest, m)
  else
    d ← strend fuel m dest;
    m' ← strncat_loop (Z.to_nat count) m d src;
    Some (dest, m').

(** ** Comparing *)

Fixpoint strcmp (fuel : nat) (m : mem) (cs ct : Z) : option Z :=
  match fuel with
  | O => None
  | S fuel' =>
      a ← load m cs;
      b ← load m ct;
      let res := s8 (a - b) in
      if negb (res =? 0) || (a =? 0) then Some res else strcmp fuel' m (cs + 1) (ct + 1)
  end.

Fixpoint strncmp_loop (count : nat) (m : mem) (cs ct res : Z) : option Z :=
  match count with
  | O => Some res
  | S count' =>
      a ← load m cs;
      b ← load m ct;
      let res := s8 (a - b) in
      if negb (res =? 0) || (a =? 0) then Some res else strncmp_loop count' m (cs + 1) (ct + 1) res
  end.

Definition strncmp (m : mem) (cs ct count : Z) : option Z :=
  strncmp_loop (Z.to_nat count) m cs ct 0.

(** ** Searching *)

Fixpoint strchr (fuel : nat) (m : mem) (s c : Z) : option Z :=
  match fuel with
  | O => None
  | S fuel' =>
      x ← load m s;
      if x =? u8 c then Some s else if x =? 0 then Some 0 else strchr fuel' m (s + 1) c
  end.

Definition strlen (fuel : nat) (m : mem) (s : Z) : option Z :=
  sc ← strend fuel m s;
  Some (sc - s).

(** The loop of [strrchr] at [p = s + k]. *)
Fixpoint strrchr_loop (k : nat) (m : mem) (s c : Z) : option Z :=
  x ← load m (s + Z.of_nat k);
  if x =? u8 c then Some (s + Z.of_nat k)
  else match k with O => Some 0 | S k' => strrchr_loop k' m s c end.

Definition strrchr (fuel : nat) (m : mem) (s c : Z) : option Z :=
  n ← strlen fuel m s;
  strrchr_loop (Z.to_nat n) m s c.

Fixpoint strnlen_loop (count : nat) (m : mem) (sc : Z) : option Z :=
  match count with
  | O => Some sc
  | S count' =>
      c ← load m sc;
      if c =? 0 then Some sc else strnlen_loop count' m (sc + 1)
  end.

Definition strnlen (m : mem) (s count : Z) : option Z :=
  sc ← strnlen_loop (Z.to_nat count) m s;
  Some (sc - s).

(** The inner loop of [strspn] and [strpbrk]: does the character [c] occur in the
    string at [a]? *)
Fixpoint char_in (fuel : nat) (m : mem) (c a : Z) : option bool :=
  match fuel with
  | O => None
  | S fuel' =>
      x ← load m a;
      if x =? 0 then Some false else if c =? x then Some true else char_in fuel' m c (a + 1)
  end.

Fixpoint strspn_loop (fuel inner : nat) (m : mem) (p accept count : Z) : option Z :=
  match fuel with
  | O => None
  | S fuel' =>
      c ← load m p;
      if c =? 0 then Some count
      else
        found ← char_in inner m c accept;
        if (found : bool) then strspn_loop fuel' inner m (p + 1) accept (count + 1) else Some count
  end.

Definition strspn (fuel : nat) (m : mem) (s accept : Z) : option Z :=
  strspn_loop fuel fuel m s accept 0.

Fixpoint strpbrk_loop (fuel inner : nat) (m : mem) (sc1 ct : Z) : option Z :=
  match fuel with
  | O => None
  | S fuel' =>
      c ← load m sc1;
      if c =? 0 then Some 0
      else
        found ← char_in inner m c ct;
        if (found : bool) then Some sc1 else strpbrk_loop fuel' inner m (sc1 + 1) ct
  end.

Definition strpbrk (fuel : nat) (m : mem) (cs ct : Z) : option Z :=
  strpbrk_loop fuel fuel m cs ct.

(** [tok] is the static pointer [___strtok]; the result is the token, the new
    value of the static pointer and the memory. *)
Definition strtok (fuel : nat) (m : mem) (tok s ct : Z) : option (Z * Z * mem) :=
  let sbegin := if s =? 0 then tok else s in
  if sbegin =? 0 then Some (0, tok, m)
  else
    n ← strspn fuel m sbegin ct;
    let sbegin := sbegin + n in
    c ← load m sbegin;
    if c =? 0 then Some (0, 0, m)
    else
      send ← strpbrk fuel m sbegin ct;
      if send =? 0 then Some (sbegin, send, m)
      else
        x ← load m send;
        if x =? 0 then Some (sbegin, send, m)
        else
          m' ← store m send 0;
          Some (sbegin, send + 1, m').

(** [s] is the value of [*s]; the result is the token, the new [*s] and the
    memory. *)
Definition strsep (fuel : nat) (m : mem) (s ct : Z) : option (Z * Z * mem) :=
  if s =? 0 then Some (0, s, m)
  else
    end_ ← strpbrk fuel m s ct;
    if end_ =? 0 then Some (s, end_, m)
    else
      m' ← store m end_ 0;
      Some (s, end_ + 1, m').

Fixpoint strswab_loop (fuel : nat) (m : mem) (p q : Z) : option mem :=
  match fuel with
  | O => None
  | S fuel' =>
      a ← load m p;
      if a =? 0 then Some m
      else
        b ← load m q;
        if b =? 0 then Some m
        else
          m1 ← store m p b;
          m2 ← store m1 q a;
          strswab_loop fuel' m2 (p + 2) (q + 2)
  end.

Definition strswab (fuel : nat) (m : mem) (s : Z) : option (Z * mem) :=
  if s =? 0 then Some (0, m)
  else
    c ← load m s;
    if c =? 0 then Some (0, m)
    else
      m' ← strswab_loop fuel m s (s + 1);
      Some (s, m').

(** ** Memory areas *)

Fixpoint memset_loop (count : nat) (m : mem) (xs c : Z) : option mem :=
  match count with
  | O => Some m
  | S count' =>
      m' ← store m xs (u8 c);
      memset_loop count' m' (xs + 1) c
  end.

Definition memset (m : mem) (s c count : Z) : option (Z * mem) :=
  m' ← memset_loop (Z.to_nat count) m s c;
  Some (s, m').

(** [while (count--)], copying upwards. *)
Fixpoint copy_up (count : nat) (m : mem) (tmp s : Z) : option mem :=
  match count with
  | O => Some m
  | S count' =>
      c ← load m s;
      m' ← store m tmp c;
      copy_up count' m' (tmp + 1) (s + 1)
  end.

(** [while (count--)], copying downwards from behind both areas. *)
Fixpoint copy_down (count : nat) (m : mem) (tmp s : Z) : option mem :=
  match count with
  | O => Some m
  | S count' =>
      c ← load m (s - 1);
      m' ← store m (tmp - 1) c;
      copy_down count' m' (tmp - 1) (s - 1)
  end.

(** For a non-negative [count]. *)
Definition bcopy (m : mem) (src dest count : Z) : option (Z * mem) :=
  m' ← copy_up (Z.to_nat count) m dest src;
  Some (dest, m').

Definition memcpy (m : mem) (dest src count : Z) : option (Z * mem) :=
  m' ← copy_up (Z.to_nat count) m dest src;
  Some (dest, m').

Definition memmove (m : mem) (dest src count : Z) : option (Z * mem) :=
  m' ← (if dest <=? src then copy_up (Z.to_nat count) m dest src
        else copy_down (Z.to_nat count) m (dest + count) (src + count));
  Some (dest, m').

Fixpoint memcmp_loop (count : nat) (m : mem) (su1 su2 res : Z) : option Z :=
  match count with
  | O => Some res
  | S count' =>
      a ← load m su1;
      b ← load m su2;
      let res := a - b in
      if negb (res =? 0) then Some res else memcmp_loop count' m (su1 + 1) (su2 + 1) res
  end.

Definition memcmp (m : mem) (cs ct count : Z) : option Z :=
  memcmp_loop (Z.to_nat count) m cs ct 0.

Fixpoint memscan_loop (size : nat) (m : mem) (p c : Z) : option Z :=
  match size with
  | O => Some p
  | S size' =>
      x ← load m p;
      if x =? c then Some p else memscan_loop size' m (p + 1) c
  end.

Definition memscan (m : mem) (addr c size : Z) : option Z :=
  memscan_loop (Z.to_nat size) m addr c.

(** The loop of [strstr]; at most [l1 + 1] rounds. *)
Fixpoint strstr_loop (fuel : nat) (m : mem) (s1 s2 l1 l2 : Z) : option Z :=
  match fuel with
  | O => None
  | S fuel' =>
      if l2 <=? l1 then
        r ← memcmp m s1 s2 l2;
        if r =? 0 then Some s1 else strstr_loop fuel' m (s1 + 1) s2 (l1 - 1) l2
      else Some 0
  end.

Definition strstr (fuel : nat) (m : mem) (s1 s2 : Z) : option Z :=
  n2 ← strlen fuel m s2;
  let l2 := s32 n2 in
  if l2 =? 0 then Some s1
  else
    n1 ← strlen fuel m s1;
    let l1 := s32 n1 in
    strstr_loop (S (Z.to_nat (l1 + 1))) m s1 s2 l1 l2.

Fixpoint memchr_loop (n : nat) (m : mem) (p c : Z) : option Z :=
  match n with
  | O => Some 0
  | S n' =>
      x ← load m p;
      if u8 c =? x then Some p else memchr_loop n' m (p + 1) c
  end.

Definition memchr (m : mem) (s c n : Z) : option Z := memchr_loop (Z.to_nat n) m s c.
