(* ===== verification/UbootStringFacts.v ===== *)
(** * The boot loader's string routines meet their descriptions *)

From S2P Require Import Prelude Memory UbootString.

Local Open Scope Z_scope.

(** ** Moving memory *)

Lemma mapped_S m a n : mapped m a (S n) -> is_Some (m !! a) /\ mapped m (a + 1) n.
Proof.
  intros H. split.
  - rewrite <- (Z.add_0_r a). apply (H 0%nat). lia.
  - intros i Hi. replace (a + 1 + Z.of_nat i) with (a + Z.of_nat (S i)) by lia. apply H. lia.
Qed.

Lemma mapped_insert m a n b v : mapped m a n -> mapped (<[b := v]> m) a n.
Proof.
  intros H i Hi. destruct (decide (b = a + Z.of_nat i)) as [->|].
  - by rewrite lookup_insert_eq.
  - rewrite lookup_insert_ne by done. by apply H.
Qed.

(** What a copy of [n] bytes from [src] to [dest] must achieve. *)
Definition copied (m m' : mem) (dest src : Z) (n : nat) : Prop :=
  (forall i : nat, (i < n)%nat -> m' !! (dest + Z.of_nat i) = m !! (src + Z.of_nat i)) /\
  same_except m m' dest n.

Lemma copy_up_copied n : forall m dest src,
  mapped m dest n -> mapped m src n -> dest <= src \/ src + Z.of_nat n <= dest ->
  exists m', copy_up n m dest src = Some m' /\ copied m m' dest src n.
Proof.
  induction n as [|n IH]; intros m dest src Hd Hs Hle.
  - exists m. split; [done|]. split; [lia|]. by intros b _.
  - apply mapped_S in Hd as [Hd Hd'], Hs as [[c Hc] Hs']. cbn [copy_up]. unfold load.
    rewrite Hc. simpl. rewrite store_Some by done. simpl.
    destruct (IH (<[dest := c]> m) (dest + 1) (src + 1)) as (m' & -> & H1 & H2);
      [by apply mapped_insert..|lia|].
    exists m'. split; [done|]. split.
    + intros [|i] Hi.
      * rewrite Z.add_0_r, H2, lookup_insert_eq by lia. by rewrite Z.add_0_r.
      * replace (dest + Z.of_nat (S i)) with (dest + 1 + Z.of_nat i) by lia.
        rewrite H1, lookup_insert_ne by lia. f_equal. lia.
    + intros b Hb. rewrite H2, lookup_insert_ne by lia. done.
Qed.

Lemma copy_down_copied n : forall m dest src,
  mapped m dest n -> mapped m src n -> src <= dest ->
  exists m', copy_down n m (dest + Z.of_nat n) (src + Z.of_nat n) = Some m' /\ copied m m' dest src n.
Proof.
  induction n as [|n IH]; intros m dest src Hd Hs Hle.
  - exists m. split; [done|]. split; [lia|]. by intros b _.
  - cbn [copy_down]. unfold load.
    replace (src + Z.of_nat (S n) - 1) with (src + Z.of_nat n) by lia.
    replace (dest + Z.of_nat (S n) - 1) with (dest + Z.of_nat n) by lia.
    destruct (Hs n ltac:(lia)) as [c Hc]. rewrite Hc. simpl.
    rewrite store_Some by (apply Hd; lia). simpl.
    destruct (IH (<[dest + Z.of_nat n := c]> m) dest src) as (m' & -> & H1 & H2);
      [apply mapped_insert; intros i Hi; (apply Hd || apply Hs); lia..|lia|].
    exists m'. split; [done|]. split.
    + intros i Hi. destruct (decide (i = n)) as [->|].
      * by rewrite H2, lookup_insert_eq by lia.
      * rewrite H1, lookup_insert_ne by lia. done.
    + intros b Hb. rewrite H2, lookup_insert_ne by lia. done.
Qed.

Lemma memmove_moves m dest src count :
  0 <= count -> mapped m dest (Z.to_nat count) -> mapped m src (Z.to_nat count) ->
  exists m', memmove m dest src count = Some (dest, m') /\ copied m m' dest src (Z.to_nat count).
Proof.
  intros Hc Hd Hs. unfold memmove. destruct (Z.leb_spec dest src).
  - destruct (copy_up_copied (Z.to_nat count) m dest src) as (m' & -> & ?); [done|done|by left|].
    by exists m'.
  - pose proof (copy_down_copied (Z.to_nat count) m dest src Hd Hs ltac:(lia)) as (m' & E & ?).
    rewrite Z2Nat.id in E by done. rewrite E. by exists m'.
Qed.

(** The strings "abcab", "ca" and "," at 16, 32 and 40. *)
Definition demo_mem : mem :=
  mem_of 16 [97; 98; 99; 97; 98; 0; 0; 0; 0; 0] ∪ mem_of 32 [99; 97; 0] ∪ mem_of 40 [98; 0].

(** ** Lengths *)

Lemma strend_spec s : forall fuel m a,
  str_at m a s -> (length s < fuel)%nat -> strend fuel m a = Some (a + Z.of_nat (length s)).
Proof.
  induction s as [|c s IH]; intros [|fuel] m a Hs Hf; simpl in Hf; try lia; cbn [strend]; unfold load.
  - apply str_at_nil in Hs. rewrite Hs. simpl. f_equal. lia.
  - apply str_at_cons in Hs as (Hc & Hnz & Hs). rewrite Hc. simpl.
    rewrite (proj2 (Z.eqb_neq c 0)), (IH fuel m (a + 1)) by (done || lia). f_equal. simpl. lia.
Qed.

Lemma strlen_spec s fuel m a :
  str_at m a s -> (length s < fuel)%nat -> strlen fuel m a = Some (Z.of_nat (length s)).
Proof. intros Hs Hf. unfold strlen. rewrite (strend_spec s) by done. simpl. f_equal. lia. Qed.

(** ** Comparing *)

Lemma memcmp_zero n : forall m a b l l',
  length l = n -> length l' = n -> bytes_at m a l -> bytes_at m b l' ->
  exists r, memcmp_loop n m a b 0 = Some r /\ (r = 0 <-> l = l').
Proof.
  induction n as [|n IH]; intros m a b [|x l] [|y l'] Hl Hl' Ha Hb; try done.
  - exists 0. split; [done|]. tauto.
  - apply bytes_at_cons in Ha as [Hx Ha], Hb as [Hy Hb]. simpl in Hl, Hl'. cbn [memcmp_loop].
    unfold load. rewrite Hx, Hy. simpl. destruct (Z.eqb_spec (x - y) 0) as [E|E]; simpl.
    + replace (x - y) with 0. destruct (IH m (a + 1) (b + 1) l l') as (r & -> & Hr); [lia|lia|done..|].
      exists r. split; [done|]. rewrite Hr. replace y with x by lia. split; [by intros ->|by intros [= ->]].
    + exists (x - y). split; [done|]. split; [lia|]. intros [= -> _]. lia.
Qed.

(** Lexicographic order of byte strings. *)
Fixpoint lex_lt (s t : list Z) : Prop :=
  match s, t with
  | _, [] => False
  | [], _ :: _ => True
  | x :: s', y :: t' => x < y \/ x = y /\ lex_lt s' t'
  end.

Lemma s8_small x : - 2 ^ 7 <= x < 2 ^ 7 -> s8 x = x.
Proof. intros. unfold s8. rewrite Z.mod_small; lia. Qed.

Lemma s8_zero x : - 256 < x < 256 -> s8 x = 0 <-> x = 0.
Proof.
  intros. unfold s8. change (2 ^ 8) with 256. change (2 ^ 7) with 128.
  pose proof (Z.div_mod (x + 128) 256 ltac:(lia)). pose proof (Z.mod_pos_bound (x + 128) 256 ltac:(lia)).
  split; [nia|]. intros ->. reflexivity.
Qed.

(** strcmp decides equality, and the order of strings of 7-bit characters. *)
Lemma strcmp_spec s : forall fuel m cs ct t,
  str_at m cs s -> str_at m ct t -> Forall (in_w 8) s -> Forall (in_w 8) t ->
  (length s < fuel)%nat ->
  exists r, strcmp fuel m cs ct = Some r /\ (r = 0 <-> s = t) /\
    (Forall (in_w 7) s -> Forall (in_w 7) t -> (r < 0 <-> lex_lt s t)).
Proof.
  induction s as [|x s IH]; intros [|fuel] m cs ct t Hs Ht Bs Bt Hf; simpl in Hf; try lia;
    cbn [strcmp]; unfold load.
  - apply str_at_nil in Hs. rewrite Hs. destruct t as [|y t].
    + apply str_at_nil in Ht. rewrite Ht. exists 0. split; [done|]. split; [done|]. simpl. lia.
    + apply str_at_cons in Ht as (Hy & Hnz & _). rewrite Hy. simpl. decompose_Forall_hyps.
      unfold in_w in *. rewrite orb_true_r. exists (s8 (0 - y)). split; [done|].
      rewrite s8_zero by lia. split; [split; [lia|done]|].
      intros _ H7. decompose_Forall_hyps. unfold in_w in *. rewrite s8_small by lia. split; [done|lia].
  - apply str_at_cons in Hs as (Hx & Hnz & Hs). rewrite Hx. simpl. decompose_Forall_hyps.
    rewrite (proj2 (Z.eqb_neq x 0)) by done. unfold in_w in *. destruct t as [|y t].
    + apply str_at_nil in Ht. rewrite Ht. simpl. rewrite orb_false_r. exists (s8 (x - 0)).
      assert (s8 (x - 0) <> 0) as Hne by (rewrite s8_zero; lia).
      rewrite (proj2 (Z.eqb_neq _ 0) Hne). split; [done|]. split; [split; [done|done]|].
      intros H7 _. decompose_Forall_hyps. unfold in_w in *. rewrite s8_small by lia. lia.
    + apply str_at_cons in Ht as (Hy & Hnzy & Ht). rewrite Hy. simpl. decompose_Forall_hyps.
      rewrite orb_false_r. unfold in_w in *. destruct (decide (x = y)) as [->|Hxy].
      * rewrite Z.sub_diag. destruct (IH fuel m (cs + 1) (ct + 1) t) as (r & E & Hr & Hlt);
          [done..|lia|]. exists r. split; [exact E|]. rewrite Hr.
        split; [split; [by intros ->|by intros [= ->]]|].
        intros H7 H7'. decompose_Forall_hyps. rewrite Hlt by done. split; [by right|]. intros [?|[_ ?]]; [lia|done].
      * assert (s8 (x - y) <> 0) as Hne by (rewrite s8_zero; lia).
        rewrite (proj2 (Z.eqb_neq _ 0) Hne). exists (s8 (x - y)). split; [done|].
        split; [split; [done|by intros [= ->]]|].
        intros H7 H7'. decompose_Forall_hyps. unfold in_w in *. rewrite s8_small by lia.
        split; [lia|]. intros [?|[? _]]; lia.
Qed.

(** ** Substrings *)

Lemma memcmp_prefix m a b t p :
  bytes_at m a t -> bytes_at m b p -> (length p <= length t)%nat ->
  exists r, memcmp m a b (Z.of_nat (length p)) = Some r /\ (r = 0 <-> p `prefix_of` t).
Proof.
  intros Ha Hb Hl. unfold memcmp. rewrite Nat2Z.id.
  rewrite <- (take_drop (length p) t), bytes_at_app in Ha. destruct Ha as [Ha _].
  destruct (memcmp_zero (length p) m a b (take (length p) t) p) as (r & -> & Hr);
    [rewrite length_take; lia|done..|].
  exists r. split; [done|]. rewrite Hr. split.
  - intros <-. apply prefix_take.
  - intros [u ->]. by rewrite take_app_length.
Qed.

Lemma strstr_loop_spec fuel : forall m s1 s2 t p,
  bytes_at m s1 t -> bytes_at m s2 p -> (length t < fuel)%nat -> (0 < length p)%nat ->
  exists r, strstr_loop fuel m s1 s2 (Z.of_nat (length t)) (Z.of_nat (length p)) = Some r /\
    ((exists k : nat, r = s1 + Z.of_nat k /\ p `prefix_of` drop k t /\
        forall j, (j < k)%nat -> ~ p `prefix_of` drop j t) \/
     (r = 0 /\ forall j, ~ p `prefix_of` drop j t)).
Proof.
  induction fuel as [|fuel IH]; intros m s1 s2 t p Ht Hp Hf Hpos; [lia|]. cbn [strstr_loop].
  destruct (Z.leb_spec (Z.of_nat (length p)) (Z.of_nat (length t))) as [Hle|Hgt].
  - destruct (memcmp_prefix m s1 s2 t p Ht Hp) as (r & E & Hr); [lia|]. rewrite E. simpl.
    destruct (Z.eqb_spec r 0) as [->|Hne].
    + exists s1. split; [done|]. left. exists 0%nat. rewrite Z.add_0_r.
      split; [done|]. split; [by apply Hr|lia].
    + assert (~ p `prefix_of` t) as Hno by tauto.
      destruct t as [|c t]; [simpl in Hle; lia|]. apply bytes_at_cons in Ht as [_ Ht].
      destruct (IH m (s1 + 1) s2 t p) as (r' & E' & H'); [done|done|simpl in Hf; lia|done|].
      replace (Z.of_nat (length (c :: t)) - 1) with (Z.of_nat (length t)) by (simpl; lia).
      exists r'. split; [done|]. destruct H' as [(k & -> & Hk & Hmin)|[-> Hnone]].
      * left. exists (S k). split; [lia|]. split; [done|]. intros [|j] Hj; [done|]. apply Hmin. lia.
      * right. split; [done|]. intros [|j]; [done|]. apply Hnone.
  - exists 0. split; [done|]. right. split; [done|]. intros j Hj%prefix_length.
    rewrite length_drop in Hj. lia.
Qed.

(** strstr finds the first occurrence. *)
Lemma strstr_spec fuel m s1 s2 t p :
  str_at m s1 t -> str_at m s2 p -> (length t < fuel)%nat -> (length p < fuel)%nat ->
  Z.of_nat (length t) < 2 ^ 31 -> Z.of_nat (length p) < 2 ^ 31 ->
  exists r, strstr fuel m s1 s2 = Some r /\
    ((exists k : nat, r = s1 + Z.of_nat k /\ p `prefix_of` drop k t /\
        forall j, (j < k)%nat -> ~ p `prefix_of` drop j t) \/
     (r = 0 /\ forall j, ~ p `prefix_of` drop j t)).
Proof.
  intros Ht Hp Hft Hfp Bt Bp. unfold strstr. rewrite (strlen_spec p fuel m s2) by done. cbn [mbind option_bind].
  rewrite (s32_small (Z.of_nat (length p))) by lia.
  destruct (Z.eqb_spec (Z.of_nat (length p)) 0) as [E|E].
  - exists s1. split; [done|]. left. exists 0%nat. rewrite (nil_length_inv p) by lia.
    split; [lia|]. split; [apply prefix_nil|lia].
  - rewrite (strlen_spec t fuel m s1) by done. cbn [mbind option_bind]. rewrite s32_small by lia.
    destruct Ht as [Ht _], Hp as [Hp _]. rewrite bytes_at_app in Ht, Hp.
    apply strstr_loop_spec; [tauto|tauto|lia|lia].
Qed.

(** ** Concatenation *)

Lemma bytes_at_insert m b v a l :
  bytes_at m a l -> ~ (a <= b < a + Z.of_nat (length l)) -> bytes_at (<[b := v]> m) a l.
Proof.
  intros H Hb. apply (bytes_at_agree m); [done|]. intros i Hi. apply lookup_insert_ne. lia.
Qed.

Lemma str_at_insert m b v a s :
  str_at m a s -> ~ (a <= b <= a + Z.of_nat (length s)) -> str_at (<[b := v]> m) a s.
Proof.
  intros H Hb. apply (str_at_agree m); [done|]. intros i Hi. apply lookup_insert_ne. lia.
Qed.

(** The copying loop of [strncat]: the first [count] characters of [s] and a NUL. *)
Lemma strncat_loop_spec count : forall m d src s,
  str_at m src s -> (0 < count)%nat ->
  mapped m d (length (take count s) + 1) ->
  d + Z.of_nat (length (take count s)) < src \/ src + Z.of_nat (length s) < d ->
  exists m', strncat_loop count m d src = Some m' /\ str_at m' d (take count s) /\
    same_except m m' d (length (take count s) + 1).
Proof.
  induction count as [|count IH]; intros m d src s Hs Hpos Hm Hd; [lia|]. cbn [strncat_loop].
  unfold load. destruct s as [|c s].
  - rewrite str_at_nil in Hs. rewrite Hs. simpl. apply mapped_S in Hm as [Hm _].
    rewrite store_Some by done. simpl. eexists. split; [done|]. split.
    + apply str_at_nil. apply lookup_insert_eq.
    + intros b Hb. simpl in Hb. apply lookup_insert_ne. lia.
  - apply str_at_cons in Hs as (Hc & Hnz & Hs). rewrite Hc. cbn [take length] in Hm, Hd |- *.
    apply mapped_S in Hm as [Hm Hm']. simpl. rewrite store_Some by done. simpl.
    rewrite (proj2 (Z.eqb_neq c 0)) by done. destruct count as [|count].
    + apply mapped_S in Hm' as [Hm' _]. rewrite store_Some.
      2: { destruct (decide (d = d + 1)); [lia|]. by rewrite lookup_insert_ne by lia. }
      eexists. split; [done|]. rewrite str_at_cons, str_at_nil. simpl. split.
      * rewrite lookup_insert_ne, !lookup_insert_eq by lia. done.
      * intros b Hb. simpl in Hb. rewrite !lookup_insert_ne by lia. done.
    + destruct (IH (<[d := c]> m) (d + 1) (src + 1) s) as (m' & E & H1 & H2).
      * apply str_at_insert; [done|]. simpl in Hd. lia.
      * lia.
      * by apply mapped_insert.
      * simpl in Hd. lia.
      * exists m'. split; [exact E|]. rewrite str_at_cons. split.
        -- rewrite H2, lookup_insert_eq by lia. done.
        -- intros b Hb. rewrite H2, lookup_insert_ne by lia. done.
Qed.

Lemma strncat_spec fuel m dest src count d s :
  str_at m dest d -> str_at m src s -> (length d < fuel)%nat -> 0 <= count ->
  let n := length (d ++ take (Z.to_nat count) s) in
  mapped m dest (n + 1) ->
  dest + Z.of_nat n < src \/ src + Z.of_nat (length s) < dest ->
  exists m', strncat fuel m dest src count = Some (dest, m') /\
    str_at m' dest (d ++ take (Z.to_nat count) s) /\ same_except m m' dest (n + 1).
Proof.
  intros Hd Hs Hf Hc n Hm Hdis. unfold strncat. destruct (Z.eqb_spec count 0) as [->|].
  - exists m. split; [done|]. rewrite app_nil_r. split; [done|]. by intros b _.
  - rewrite (strend_spec d) by done. simpl. unfold n in *. rewrite length_app in *.
    destruct (strncat_loop_spec (Z.to_nat count) m (dest + Z.of_nat (length d)) src s)
      as (m' & -> & H1 & H2); [done|lia| |lia|].
    { intros i Hi. specialize (Hm (length d + i)%nat).
      replace (dest + Z.of_nat (length d + i)) with (dest + Z.of_nat (length d) + Z.of_nat i) in Hm by lia.
      apply Hm. lia. }
    exists m'. split; [done|]. split.
    + destruct Hd as [Hd HF]. apply str_at_app. split; [|done]. apply bytes_at_app in Hd as [Hd _].
      apply (bytes_at_agree m); [done|]. intros i Hi. apply H2. lia.
    + intros b Hb. apply H2. lia.
Qed.

(** ** Tokens *)

Lemma char_in_spec l : forall fuel m c a,
  str_at m a l -> (length l < fuel)%nat -> char_in fuel m c a = Some (bool_decide (c ∈ l)).
Proof.
  induction l as [|x l IH]; intros [|fuel] m c a Hs Hf; simpl in Hf; try lia; cbn [char_in]; unfold load.
  - apply str_at_nil in Hs. rewrite Hs. simpl. f_equal.
  - apply str_at_cons in Hs as (Hx & Hnz & Hs). rewrite Hx. simpl.
    rewrite (proj2 (Z.eqb_neq x 0)) by done. destruct (Z.eqb_spec c x) as [->|].
    + f_equal. symmetry. apply bool_decide_eq_true. apply list_elem_of_here.
    + rewrite (IH fuel m c (a + 1)) by (done || lia). f_equal. apply bool_decide_ext.
      rewrite elem_of_cons. tauto.
Qed.

(** Position of the first character of [s] that is in [l]. *)
Definition first_of (l s : list Z) (k : nat) : Prop :=
  (exists c, s !! k = Some c /\ c ∈ l) /\ Forall (fun c => c ∉ l) (take k s).

Lemma strpbrk_loop_spec s : forall fuel inner m a ct l,
  str_at m a s -> str_at m ct l -> (length s < fuel)%nat -> (length l < inner)%nat ->
  (exists k, strpbrk_loop fuel inner m a ct = Some (a + Z.of_nat k) /\ first_of l s k) \/
  (strpbrk_loop fuel inner m a ct = Some 0 /\ Forall (fun c => c ∉ l) s).
Proof.
  induction s as [|x s IH]; intros [|fuel] inner m a ct l Hs Hl Hf Hi; simpl in Hf; try lia;
    cbn [strpbrk_loop]; unfold load.
  - apply str_at_nil in Hs. rewrite Hs. right. split; [done|constructor].
  - apply str_at_cons in Hs as (Hx & Hnz & Hs). rewrite Hx. simpl.
    rewrite (proj2 (Z.eqb_neq x 0)), (char_in_spec l) by done. simpl.
    destruct (decide (x ∈ l)) as [Hin|Hin].
    + rewrite bool_decide_eq_true_2 by done. left. exists 0%nat. rewrite Z.add_0_r.
      split; [done|]. split; [by exists x|constructor].
    + rewrite bool_decide_eq_false_2 by done.
      destruct (IH fuel inner m (a + 1) ct l) as [(k & E & (c & Hk & Hc) & Hk')|[E HF]]; [done|done|lia|done|..].
      * left. exists (S k). rewrite E. split; [f_equal; lia|]. split; [by exists c|]. by constructor.
      * right. split; [done|]. by constructor.
Qed.

Lemma strsep_spec fuel m a ct s l :
  0 < a -> str_at m a s -> str_at m ct l -> (length s < fuel)%nat -> (length l < fuel)%nat ->
  (exists k m', strsep fuel m a ct = Some (a, a + Z.of_nat k + 1, m') /\ first_of l s k /\
     str_at m' a (take k s) /\ str_at m' (a + Z.of_nat k + 1) (drop (S k) s) /\
     same_except m m' (a + Z.of_nat k) 1) \/
  (strsep fuel m a ct = Some (a, 0, m) /\ Forall (fun c => c ∉ l) s).
Proof.
  intros Ha Hs Hl Hf Hf'. unfold strsep, strpbrk. rewrite (proj2 (Z.eqb_neq a 0)) by lia.
  destruct (strpbrk_loop_spec s fuel fuel m a ct l) as [(k & E & Hk)|[E HF]]; [done..| |].
  - left. rewrite E. simpl. rewrite (proj2 (Z.eqb_neq _ 0)) by lia.
    pose proof Hk as [(c & Hc & _) _]. pose proof (lookup_lt_Some _ _ _ Hc) as Hlt.
    rewrite <- (take_drop_middle s k c Hc), str_at_app, str_at_cons in Hs.
    rewrite length_take, Nat.min_l in Hs by lia. destruct Hs as (H1 & HF & H2 & Hnz & H3).
    rewrite store_Some by (by eexists). simpl. exists k. eexists. split; [done|]. split; [done|].
    split; [|split].
    + split; [|done]. apply bytes_at_app. rewrite length_take, Nat.min_l by lia. split.
      * apply bytes_at_insert; [done|]. rewrite length_take. lia.
      * apply bytes_at_cons. split; [apply lookup_insert_eq|apply bytes_at_nil].
    + apply str_at_insert; [done|]. lia.
    + intros b Hb. apply lookup_insert_ne. lia.
  - right. rewrite E. simpl. done.
Qed.

(** C38: For mapped regions and for terminated strings shorter than 2^31 bytes: memmove copies count
    bytes also when the regions overlap in either direction, and leaves every other byte alone;
    strcmp returns 0 exactly for equal strings, and a negative number exactly for the
    lexicographically smaller one when the characters have 7 bits; strstr returns the first
    occurrence of the second string in the first, or NULL when there is none; strncat, with room
    for the result and a second string that does not overlap it, appends at most count
    characters and a terminator and writes no byte beyond that terminator; strsep cuts the
    string at the first delimiter, writes only the terminator there and advances the pointer
    past it, or returns the whole string and sets the pointer to NULL when there is no
    delimiter. *)
Theorem string_functions fuel m dest src count d s :
  0 < dest -> str_at m dest d -> str_at m src s -> (length d < fuel)%nat -> (length s < fuel)%nat -> 0 <= count ->
  Forall (in_w 8) d -> Forall (in_w 8) s -> Z.of_nat (length d) < 2 ^ 31 -> Z.of_nat (length s) < 2 ^ 31 ->
  let n := length (d ++ take (Z.to_nat count) s) in
  (mapped m dest (Z.to_nat count) -> mapped m src (Z.to_nat count) ->
   exists m', memmove m dest src count = Some (dest, m') /\ copied m m' dest src (Z.to_nat count)) /\
  (exists r, strcmp fuel m dest src = Some r /\ (r = 0 <-> d = s) /\
     (Forall (in_w 7) d -> Forall (in_w 7) s -> (r < 0 <-> lex_lt d s))) /\
  (exists r, strstr fuel m dest src = Some r /\
     ((exists k : nat, r = dest + Z.of_nat k /\ s `prefix_of` drop k d /\
         forall j, (j < k)%nat -> ~ s `prefix_of` drop j d) \/
      (r = 0 /\ forall j, ~ s `prefix_of` drop j d))) /\
  (mapped m dest (n + 1) -> dest + Z.of_nat n < src \/ src + Z.of_nat (length s) < dest ->
   exists m', strncat fuel m dest src count = Some (dest, m') /\
     str_at m' dest (d ++ take (Z.to_nat count) s) /\ same_except m m' dest (n + 1)) /\
  ((exists k m', strsep fuel m dest src = Some (dest, dest + Z.of_nat k + 1, m') /\ first_of s d k /\
      str_at m' dest (take k d) /\ str_at m' (dest + Z.of_nat k + 1) (drop (S k) d) /\
      same_except m m' (dest + Z.of_nat k) 1) \/
   (strsep fuel m dest src = Some (dest, 0, m) /\ Forall (fun c => c ∉ s) d)).
Proof.
  intros. split_and!; [by apply memmove_moves|by apply strcmp_spec|by apply strstr_spec|intros; by apply strncat_spec|by apply strsep_spec].
Qed.

Lemma string_functions_witness :
  (exists m', memmove demo_mem 16 32 1 = Some (16, m') /\ copied demo_mem m' 16 32 1) /\
  exists r, strcmp 9 demo_mem 16 32 = Some r /\ r < 0 /\ strstr 9 demo_mem 16 32 = Some 18 /\
  (exists m', strncat 9 demo_mem 16 32 1 = Some (16, m') /\ same_except demo_mem m' 16 7) /\
  exists m', strsep 9 demo_mem 16 32 = Some (16, 17, m') /\ same_except demo_mem m' 16 1.
Proof.
  destruct (string_functions 9 demo_mem 16 32 1 [97; 98; 99; 97; 98] [99; 97])
    as (Hm & (r & Hc & _ & Hlt) & (r2 & Hs & _) & Hcat & Hsep);
    try solve [apply str_atb_spec; vm_compute; reflexivity | simpl; lia | repeat constructor; unfold in_w; lia].
  split.
  { apply Hm; [apply (bytes_at_mapped demo_mem 16 [97])|apply (bytes_at_mapped demo_mem 32 [99])]; apply bytes_atb_spec; vm_compute; reflexivity. }
  exists r. split; [exact Hc|]. split; [|split; [|split]].
  - apply Hlt; [repeat constructor; unfold in_w; lia..|]. left. lia.
  - vm_compute. reflexivity.
  - destruct Hcat as (m' & E & _ & H); [|simpl; lia|by exists m'].
    apply (bytes_at_mapped demo_mem 16 [97; 98; 99; 97; 98; 0; 0]), bytes_atb_spec. vm_compute. reflexivity.
  - destruct Hsep as [(k & m' & E & _ & _ & _ & H)|[E _]].
    + assert (fst <$> strsep 9 demo_mem 16 32 = Some (16, 17)) as E1 by (vm_compute; reflexivity).
      rewrite E in E1. assert (k = 0%nat) as -> by (injection E1; lia). by exists m'.
    + vm_compute in E. done.
Defined.
