(* ===== verification/UbootVsprintf.v ===== *)
(** * u-boot-1.1.6/lib_generic/vsprintf.c and ctype.c

    Number parsing and formatting.  [CFG_64BIT_STRTOUL] and [CFG_64BIT_VSPRINTF]
    are not set for this board, so [long] is 32 bits wide.  Strings that are read
    are lists of characters without the terminating NUL; reading past the end of
    the list reads the NUL.  Output is the list of the characters stored from
    [buf] on. *)

From S2P Require Import Prelude.
From Stdlib Require Import Ascii.
From stdpp Require Import strings.

Local Open Scope Z_scope.

(** The characters of a literal. *)
Definition chars (s : string) : list Z :=
  map (fun a => Z.of_N (N_of_ascii a)) (Stdlib.Strings.String.list_ascii_of_string s).

Definition chr (a : ascii) : Z := Z.of_N (N_of_ascii a).

(** [*p] and [p[1]] for a pointer into a string. *)
Definition peek (p : list Z) : Z := default 0 (p !! 0%nat).

Definition peek1 (p : list Z) : Z := default 0 (p !! 1%nat).

(** ** ctype.c *)

Definition _U : Z := 0x01.
Definition _L : Z := 0x02.
Definition _D : Z := 0x04.
Definition _C : Z := 0x08.
Definition _P : Z := 0x10.
Definition _S : Z := 0x20.
Definition _X : Z := 0x40.
Definition _SP : Z := 0x80.

Definition _ctype : list Z := Eval vm_compute in
  ([_C;_C;_C;_C;_C;_C;_C;_C;
  _C;Z.lor _C _S;Z.lor _C _S;Z.lor _C _S;Z.lor _C _S;Z.lor _C _S;_C;_C;
  _C;_C;_C;_C;_C;_C;_C;_C;
  _C;_C;_C;_C;_C;_C;_C;_C;
  Z.lor _S _SP;_P;_P;_P;_P;_P;_P;_P;
  _P;_P;_P;_P;_P;_P;_P;_P;
  _D;_D;_D;_D;_D;_D;_D;_D;
  _D;_D;_P;_P;_P;_P;_P;_P;
  _P;Z.lor _U _X;Z.lor _U _X;Z.lor _U _X;Z.lor _U _X;Z.lor _U _X;Z.lor _U _X;_U;
  _U;_U;_U;_U;_U;_U;_U;_U;
  _U;_U;_U;_U;_U;_U;_U;_U;
  _U;_U;_U;_P;_P;_P;_P;_P;
  _P;Z.lor _L _X;Z.lor _L _X;Z.lor _L _X;Z.lor _L _X;Z.lor _L _X;Z.lor _L _X;_L;
  _L;_L;_L;_L;_L;_L;_L;_L;
  _L;_L;_L;_L;_L;_L;_L;_L;
  _L;_L;_L;_P;_P;_P;_P;_C;
  0;0;0;0;0;0;0;0;0;0;0;0;0;0;0;0;
  0;0;0;0;0;0;0;0;0;0;0;0;0;0;0;0;
  Z.lor _S _SP;_P;_P;_P;_P;_P;_P;_P;_P;_P;_P;_P;_P;_P;_P;_P;
  _P;_P;_P;_P;_P;_P;_P;_P;_P;_P;_P;_P;_P;_P;_P;_P;
  _U;_U;_U;_U;_U;_U;_U;_U;_U;_U;_U;_U;_U;_U;_U;_U;
  _U;_U;_U;_U;_U;_U;_U;_P;_U;_U;_U;_U;_U;_U;_U;_L;
  _L;_L;_L;_L;_L;_L;_L;_L;_L;_L;_L;_L;_L;_L;_L;_L;
  _L;_L;_L;_L;_L;_L;_L;_P;_L;_L;_L;_L;_L;_L;_L;_L]).

Definition __ismask (x : Z) : Z := default 0 (_ctype !! Z.to_nat (u8 x)).

Definition isdigit (c : Z) : bool := truthy (Z.land (__ismask c) _D).

Definition islower (c : Z) : bool := truthy (Z.land (__ismask c) _L).

Definition isxdigit (c : Z) : bool := truthy (Z.land (__ismask c) (Z.lor _D _X)).

Definition toupper (c : Z) : Z := if islower c then u8 (c - (chr "a" - chr "A")) else c.

(** ** Parsing numbers *)

(** The value of a digit character as the loop computes it. *)
Definition digit_value (c : Z) : Z :=
  if isdigit c then c - chr "0"
  else u32 ((if islower c then toupper c else c) - chr "A" + 10).

Fixpoint strtoul_loop (cp : list Z) (base result : Z) : Z * list Z :=
  match cp with
  | [] => (result, [])
  | c :: cp' =>
      if isxdigit c && (digit_value c <? base)
      then strtoul_loop cp' base (u32 (result * base + digit_value c))
      else (result, cp)
  end.

(** Returns the value and the rest of the string ([*endp]). *)
Definition simple_strtoul (cp : list Z) (base : Z) : Z * list Z :=
  let '(cp, base) :=
    if peek cp =? chr "0" then
      let cp := drop 1 cp in
      let '(cp, base) :=
        if (peek cp =? chr "x") && isxdigit (peek1 cp) then (drop 1 cp, 16) else (cp, base) in
      (cp, if base =? 0 then 8 else base)
    else (cp, base) in
  let base := if base =? 0 then 10 else base in
  strtoul_loop cp base 0.

Definition simple_strtol (cp : list Z) (base : Z) : Z * list Z :=
  if peek cp =? chr "-"
  then let '(v, rest) := simple_strtoul (drop 1 cp) base in (s32 (u32 (- v)), rest)
  else let '(v, rest) := simple_strtoul cp base in (s32 v, rest).

(** ** Formatting numbers *)

Definition is_digit (c : Z) : bool := (chr "0" <=? c) && (c <=? chr "9").

Fixpoint skip_atoi (s : list Z) (i : Z) : Z * list Z :=
  match s with
  | [] => (i, [])
  | c :: s' => if is_digit c then skip_atoi s' (s32 (i * 10 + c - chr "0")) else (i, s)
  end.

Definition ZEROPAD : Z := 1.
Definition SIGN : Z := 2.
Definition PLUS : Z := 4.
Definition SPACE : Z := 8.
Definition LEFT : Z := 16.
Definition SPECIAL : Z := 32.
Definition LARGE : Z := 64.

(** [do_div]: the remainder and the new value of [n]. *)
Definition do_div (n base : Z) : Z * Z := (u32 n mod u32 base, s32 (u32 n / u32 base)).

(** The loop that fills [tmp], least significant digit first. *)
Fixpoint digit_loop (fuel : nat) (digits : list Z) (num base : Z) (tmp : list Z) : option (list Z) :=
  match fuel with
  | O => None
  | S fuel' =>
      if num =? 0 then Some tmp
      else
        let '(r, num') := do_div num base in
        digit_loop fuel' digits num' base (tmp ++ [default 0 (digits !! Z.to_nat r)])
  end.

(** [while (size-- > 0) *str++ = c;]: what is stored and the final [size]. *)
Definition pad (size c : Z) : list Z * Z := (replicate (Z.to_nat size) c, s32 (Z.min size 0 - 1)).

(** What [number] stores at [str]; [None] where it returns 0. *)
Definition number (num base size precision type : Z) : option (list Z) :=
  let digits := if tst type LARGE then chars "0123456789ABCDEFGHIJKLMNOPQRSTUVWXYZ"
                else chars "0123456789abcdefghijklmnopqrstuvwxyz" in
  let type := if tst type LEFT then Z.land type (Z.lnot ZEROPAD) else type in
  if (base <? 2) || (36 <? base) then None
  else
    let c := if tst type ZEROPAD then chr "0" else chr " " in
    let '(sign, num, size) :=
      if tst type SIGN then
        if num <? 0 then (chr "-", s32 (- num), s32 (size - 1))
        else if tst type PLUS then (chr "+", num, s32 (size - 1))
        else if tst type SPACE then (chr " ", num, s32 (size - 1))
        else (0, num, size)
      else (0, num, size) in
    let size := if tst type SPECIAL
                then if base =? 16 then s32 (size - 2) else if base =? 8 then s32 (size - 1) else size
                else size in
    tmp ← (if num =? 0 then Some [chr "0"] else digit_loop 33 digits num base []);
    let i := Z.of_nat (length tmp) in
    let precision := if precision <? i then i else precision in
    let size := s32 (size - precision) in
    let '(out1, size) := if negb (tst type (ZEROPAD + LEFT)) then pad size (chr " ") else ([], size) in
    let out2 := if sign =? 0 then [] else [sign] in
    let out3 := if tst type SPECIAL
                then if base =? 8 then [chr "0"]
                     else if base =? 16 then [chr "0"; default 0 (digits !! 33%nat)] else []
                else [] in
    let '(out4, size) := if negb (tst type LEFT) then pad size c else ([], size) in
    let out5 := replicate (Z.to_nat (precision - i)) (chr "0") in
    let out6 := reverse tmp in
    let '(out7, _) := pad size (chr " ") in
    Some (out1 ++ out2 ++ out3 ++ out4 ++ out5 ++ out6 ++ out7).

(** ** vsprintf *)

(** The variable arguments: machine words and string pointers ([None] for NULL). *)
Inductive va :=
| VWord (v : Z)
| VStr (s : option (list Z)).

Definition va_int (args : list va) : option (Z * list va) :=
  match args with VWord v :: args' => Some (s32 v, args') | _ => None end.

Definition va_ulong (args : list va) : option (Z * list va) :=
  match args with VWord v :: args' => Some (u32 v, args') | _ => None end.

Definition va_str (args : list va) : option (option (list Z) * list va) :=
  match args with VStr s :: args' => Some (s, args') | _ => None end.

(** The [repeat:] loop, after the first [++fmt]. *)
Fixpoint parse_flags (fmt : list Z) (flags : Z) : Z * list Z :=
  match fmt with
  | [] => (flags, [])
  | c :: fmt' =>
      if c =? chr "-" then parse_flags fmt' (Z.lor flags LEFT)
      else if c =? chr "+" then parse_flags fmt' (Z.lor flags PLUS)
      else if c =? chr " " then parse_flags fmt' (Z.lor flags SPACE)
      else if c =? chr "#" then parse_flags fmt' (Z.lor flags SPECIAL)
      else if c =? chr "0" then parse_flags fmt' (Z.lor flags ZEROPAD)
      else (flags, fmt)
  end.

(** Field width: width, flags, rest of the format and of the arguments. *)
Definition parse_width (fmt : list Z) (flags : Z) (args : list va) :
    option (Z * Z * list Z * list va) :=
  if is_digit (peek fmt) then
    let '(w, fmt') := skip_atoi fmt 0 in Some (w, flags, fmt', args)
  else if peek fmt =? chr "*" then
    '(w, args') ← va_int args;
    if w <? 0 then Some (s32 (- w), Z.lor flags LEFT, drop 1 fmt, args')
    else Some (w, flags, drop 1 fmt, args')
  else Some (-1, flags, fmt, args).

Definition parse_precision (fmt : list Z) (args : list va) : option (Z * list Z * list va) :=
  if peek fmt =? chr "." then
    let fmt := drop 1 fmt in
    '(p, fmt, args) ←
      (if is_digit (peek fmt) then let '(p, fmt') := skip_atoi fmt 0 in Some (p, fmt', args)
       else if peek fmt =? chr "*" then '(p, args') ← va_int args; Some (p, drop 1 fmt, args')
       else Some (-1, fmt, args));
    Some (if p <? 0 then 0 else p, fmt, args)
  else Some (-1, fmt, args).

(** [qualifier], -1 when there is none. *)
Definition parse_qualifier (fmt : list Z) : Z * list Z :=
  let c := peek fmt in
  if (c =? chr "h") || (c =? chr "l") || (c =? chr "q") then (c, drop 1 fmt) else (-1, fmt).

(** [while (--size > 0) *str++ = c;] *)
Definition pad_pre (size c : Z) : list Z * Z :=
  (replicate (Z.to_nat (s32 (size - 1))) c, Z.min (s32 (size - 1)) 0).

(** [while (len < field_width--) *str++ = c;] *)
Definition pad_to (len field_width c : Z) : list Z * Z :=
  (replicate (Z.to_nat (field_width - len)) c, s32 (Z.min field_width len - 1)).

Definition fmt_c (flags field_width v : Z) : list Z :=
  let '(out1, field_width) :=
    if negb (tst flags LEFT) then pad_pre field_width (chr " ") else ([], field_width) in
  let '(out2, _) := pad_pre field_width (chr " ") in
  out1 ++ [u8 v] ++ out2.

Definition fmt_s (flags field_width precision : Z) (s : option (list Z)) : list Z :=
  let s := default (chars "<NULL>") s in
  let len := s32 (Z.min (Z.of_nat (length s)) (u32 precision)) in
  let '(out1, field_width) := if negb (tst flags LEFT) then pad_to len field_width (chr " ") else ([], field_width) in
  let '(out2, _) := pad_to len field_width (chr " ") in
  out1 ++ take (Z.to_nat len) s ++ out2.

(** The argument of an integer conversion, as the [long] passed to [number]. *)
Definition int_arg (qualifier flags : Z) (args : list va) : option (Z * list va) :=
  if qualifier =? chr "l" then '(v, args') ← va_ulong args; Some (s32 v, args')
  else if qualifier =? chr "h" then
    '(v, args') ← va_int args;
    let num := u16 v in
    Some (if tst flags SIGN then (num + 2 ^ 15) mod 2 ^ 16 - 2 ^ 15 else num, args')
  else if tst flags SIGN then va_int args
  else '(v, args') ← va_ulong args; Some (s32 v, args').

(** The state of the loop over the format: output so far, rest of the format, of
    the arguments, and the counts stored through [%n] pointers. *)
Record vst := mk_vst { v_out : list Z; v_fmt : list Z; v_args : list va; v_n : list (Z * Z) }.

(** One conversion: [fmt] points behind the percent sign. *)
Definition conversion (out fmt : list Z) (args : list va) (ns : list (Z * Z)) : option vst :=
  let '(flags, fmt) := parse_flags fmt 0 in
  '(field_width, flags, fmt, args) ← parse_width fmt flags args;
  '(precision, fmt, args) ← parse_precision fmt args;
  let '(qualifier, fmt) := parse_qualifier fmt in
  let c := peek fmt in
  let fmt' := drop 1 fmt in
  let integer base flags :=
    '(num, args') ← int_arg qualifier flags args;
    s ← number num base field_width precision flags;
    Some (mk_vst (out ++ s) fmt' args' ns) in
  if c =? chr "c" then
    '(v, args') ← va_int args;
    Some (mk_vst (out ++ fmt_c flags field_width v) fmt' args' ns)
  else if c =? chr "s" then
    '(s, args') ← va_str args;
    Some (mk_vst (out ++ fmt_s flags field_width precision s) fmt' args' ns)
  else if c =? chr "p" then
    '(v, args') ← va_ulong args;
    let '(field_width, flags) :=
      if field_width =? -1 then (8, Z.lor flags ZEROPAD) else (field_width, flags) in
    s ← number (s32 v) 16 field_width precision flags;
    Some (mk_vst (out ++ s) fmt' args' ns)
  else if c =? chr "n" then
    '(ip, args') ← va_ulong args;
    Some (mk_vst out fmt' args' (ns ++ [(ip, Z.of_nat (length out))]))
  else if c =? chr "%" then Some (mk_vst (out ++ [chr "%"]) fmt' args ns)
  else if c =? chr "o" then integer 8 flags
  else if c =? chr "X" then integer 16 (Z.lor flags LARGE)
  else if c =? chr "x" then integer 16 flags
  else if (c =? chr "d") || (c =? chr "i") then integer 10 (Z.lor flags SIGN)
  else if c =? chr "u" then integer 10 flags
  else if c =? 0 then Some (mk_vst (out ++ [chr "%"]) fmt args ns)
  else Some (mk_vst (out ++ [chr "%"; c]) fmt' args ns).

Fixpoint vsprintf_loop (fuel : nat) (st : vst) : option vst :=
  match fuel with
  | O => None
  | S fuel' =>
      match v_fmt st with
      | [] => Some st
      | c :: fmt =>
          if c =? chr "%" then
            st' ← conversion (v_out st) fmt (v_args st) (v_n st);
            vsprintf_loop fuel' st'
          else vsprintf_loop fuel' (mk_vst (v_out st ++ [c]) fmt (v_args st) (v_n st))
      end
  end.

(** The returned length, the bytes stored at [buf] (with the NUL), the [%n]
    stores. *)
Definition vsprintf (fmt : list Z) (args : list va) : option (Z * list Z * list (Z * Z)) :=
  st ← vsprintf_loop (S (length fmt)) (mk_vst [] fmt args []);
  Some (Z.of_nat (length (v_out st)), v_out st ++ [0], v_n st).
