(* ===== verification/UbootVsprintfFacts.v ===== *)
(** * Printing and parsing numbers in the boot loader

    [simple_strtoul] reads back what [vsprintf] prints, in every base up to 16; the
    digits always fit [number]'s scratch buffer and the field has the requested
    width. *)

From S2P Require Import Prelude UbootVsprintf.
From Stdlib Require Import Ascii.
From stdpp Require Import strings.

Local Open Scope Z_scope.

Definition digit_table (large : bool) : list Z :=
  if large then chars "0123456789ABCDEFGHIJKLMNOPQRSTUVWXYZ"
  else chars "0123456789abcdefghijklmnopqrstuvwxyz".

Definition dig (large : bool) (d : Z) : Z := default 0 (digit_table large !! Z.to_nat d).

(** Digits below 16 are hexadecimal digits with the right value. *)
Lemma dig_value large d :
  0 <= d < 16 -> isxdigit (dig large d) = true /\ digit_value (dig large d) = d /\ dig large d <> chr "x".
Proof.
  intros Hd.
  assert (forallb (fun d => isxdigit (dig large d) && (digit_value (dig large d) =? d) &&
    negb (dig large d =? chr "x")) (seqZ 0 16) = true) as H by (destruct large; vm_compute; reflexivity).
  rewrite forallb_forall in H. specialize (H d).
  rewrite !andb_true_iff, negb_true_iff, Z.eqb_eq, Z.eqb_neq in H.
  destruct H as [[? ?] ?]; [|done]. apply list_elem_of_In, elem_of_seqZ. lia.
Qed.

(** Digits of [n], least significant first. *)
Fixpoint radix (fuel : nat) (n base : Z) : list Z :=
  match fuel with
  | O => []
  | S fuel' => if n =? 0 then [] else n mod base :: radix fuel' (n / base) base
  end.

Lemma u32_s32 x : u32 (s32 x) = u32 x.
Proof.
  unfold u32, s32, wrap. rewrite Zminus_mod_idemp_l. f_equal. lia.
Qed.

Lemma u32_zero x : - 2 ^ 31 <= x < 2 ^ 31 -> u32 x = 0 <-> x = 0.
Proof.
  intros Hx. split; [|by intros ->]. unfold u32, wrap. intros H.
  apply Z.mod_divide in H; [|done]. destruct H as [k ->]. nia.
Qed.

Lemma digit_loop_S fuel digits num base tmp :
  digit_loop (S fuel) digits num base tmp =
  if num =? 0 then Some tmp
  else digit_loop fuel digits (s32 (u32 num / u32 base)) base
         (tmp ++ [default 0 (digits !! Z.to_nat (u32 num mod u32 base))]).
Proof. reflexivity. Qed.

Section Digits.
Context (base : Z) (Hbase : 2 <= base <= 36) (large : bool).

Lemma digit_loop_radix fuel : forall n num tmp,
  u32 num = n -> - 2 ^ 31 <= num < 2 ^ 31 -> n < 2 ^ Z.of_nat fuel ->
  digit_loop (S fuel) (digit_table large) num base tmp = Some (tmp ++ map (dig large) (radix fuel n base)).
Proof using Hbase.
  induction fuel as [|fuel IH]; intros n num tmp Hn Hnum Hlt;
    pose proof (Z.mod_pos_bound num (2 ^ 32) ltac:(done)) as Hpos; fold (wrap 32 num) (u32 num) in Hpos;
    rewrite Hn in Hpos.
  - assert (n = 0) by (simpl in Hlt; lia). rewrite (proj1 (u32_zero num Hnum)) by lia. simpl map.
    by rewrite app_nil_r.
  - rewrite digit_loop_S. cbn [radix]. destruct (Z.eqb_spec num 0) as [->|Hne].
    + replace n with 0. by rewrite app_nil_r.
    + assert (n <> 0) by (rewrite <- Hn, u32_zero by done; done).
      rewrite (proj2 (Z.eqb_neq n 0)) by done. rewrite Hn, (u32_small base) by lia.
      assert (0 <= n / base <= n / 2) as Hdiv.
      { split; [apply Z.div_pos; lia|]. apply Z.div_le_compat_l; lia. }
      rewrite Nat2Z.inj_succ, Z.pow_succ_r in Hlt by lia.
      assert (n / 2 < 2 ^ Z.of_nat fuel) by (apply Z.div_lt_upper_bound; lia).
      assert (n / 2 < 2 ^ 31) by (apply Z.div_lt_upper_bound; lia).
      rewrite s32_small by lia.
      rewrite (IH (n / base) (n / base)) by (rewrite ?u32_small; lia).
      by rewrite <- app_assoc.
Qed.

Lemma radix_bound fuel : forall n, 0 <= n -> Forall (fun d => 0 <= d < base) (radix fuel n base).
Proof using Hbase.
  induction fuel as [|fuel IH]; intros n Hn; simpl; [constructor|]. case_match; [constructor|].
  constructor; [apply Z.mod_pos_bound; lia|]. apply IH. apply Z.div_pos; lia.
Qed.

Lemma radix_length fuel n : (length (radix fuel n base) <= fuel)%nat.
Proof using Type.
  revert n. induction fuel as [|fuel IH]; intros n; simpl; [lia|]. case_match; simpl; [lia|].
  specialize (IH (n / base)). lia.
Qed.

Lemma radix_nonempty fuel n : n <> 0 -> (0 < fuel)%nat -> (0 < length (radix fuel n base))%nat.
Proof using Type.
  intros Hn Hf. destruct fuel; [lia|]. simpl. rewrite (proj2 (Z.eqb_neq n 0)) by done. simpl. lia.
Qed.

End Digits.

(** ** Reading digits back *)

Definition valid_digit (base c : Z) : Prop :=
  isxdigit c = true /\ digit_value c < base /\ 0 <= digit_value c.

Lemma strtoul_loop_valid base xs : forall r,
  Forall (valid_digit base) xs ->
  strtoul_loop xs base r = (fold_left (fun r c => u32 (r * base + digit_value c)) xs r, []).
Proof.
  induction xs as [|c xs IH]; intros r HF; [done|]. decompose_Forall_hyps.
  match goal with H : valid_digit _ _ |- _ => destruct H as (Hx & Hv & _) end.
  cbn [strtoul_loop fold_left]. rewrite Hx, (proj2 (Z.ltb_lt _ _)) by done. by apply IH.
Qed.

(** A leading zero does not change the value. *)
Lemma simple_strtoul_valid base xs :
  0 < base -> Forall (valid_digit base) xs -> Forall (fun c => c <> chr "x") xs ->
  simple_strtoul xs base = strtoul_loop xs base 0.
Proof.
  intros Hb HF Hx. unfold simple_strtoul. destruct (Z.eqb_spec (peek xs) (chr "0")) as [E|E].
  - destruct xs as [|c xs]; [done|]. cbn in E. subst c. change (drop 1 (chr "0" :: xs)) with xs. cbv zeta.
    assert ((peek xs =? chr "x") = false) as ->.
    { apply Z.eqb_neq. destruct xs as [|c xs]; [done|]. decompose_Forall_hyps. done. }
    cbn [andb]. rewrite !(proj2 (Z.eqb_neq base 0)) by lia. cbn [strtoul_loop].
    assert (digit_value (chr "0") = 0) as -> by reflexivity.
    rewrite (proj2 (Z.ltb_lt 0 base)), Z.mul_0_l by lia. reflexivity.
  - by rewrite (proj2 (Z.eqb_neq base 0)) by lia.
Qed.

Lemma strtoul_radix base large fuel : forall n,
  2 <= base <= 16 -> 0 <= n < 2 ^ 32 -> n < 2 ^ Z.of_nat fuel ->
  fold_left (fun r c => u32 (r * base + digit_value c)) (reverse (map (dig large) (radix fuel n base))) 0 = n.
Proof.
  induction fuel as [|fuel IH]; intros n Hb Hn Hlt; [simpl in *; lia|]. cbn [radix].
  destruct (Z.eqb_spec n 0) as [->|Hne]; [done|]. cbn [map]. rewrite reverse_cons, fold_left_app.
  rewrite Nat2Z.inj_succ, Z.pow_succ_r in Hlt by lia.
  assert (0 <= n / base <= n / 2).
  { split; [apply Z.div_pos; lia|]. apply Z.div_le_compat_l; lia. }
  assert (n / 2 < 2 ^ Z.of_nat fuel) by (apply Z.div_lt_upper_bound; lia).
  assert (n / 2 <= n) by (apply Z.div_le_upper_bound; lia).
  rewrite IH by lia. cbn [fold_left].
  pose proof (Z.mod_pos_bound n base ltac:(lia)).
  rewrite (proj1 (proj2 (dig_value large (n mod base) ltac:(lia)))).
  replace (n / base * base + n mod base) with n by (rewrite Z.mul_comm; apply Z.div_mod; lia).
  by apply u32_small.
Qed.

Lemma digits_valid base large fuel n :
  2 <= base <= 16 -> 0 <= n ->
  Forall (valid_digit base) (reverse (map (dig large) (radix fuel n base))) /\
  Forall (fun c => c <> chr "x") (reverse (map (dig large) (radix fuel n base))).
Proof.
  intros Hb Hn. pose proof (radix_bound base ltac:(lia) fuel n Hn) as HF.
  rewrite !Forall_reverse, !Forall_map.
  split; (eapply Forall_impl; [exact HF|]); intros d Hd; cbv beta in *;
    destruct (dig_value large d ltac:(lia)) as (H1 & H2 & H3); [|done].
  split; [done|]. lia.
Qed.

(** The digits [number] prints for the word [n]. *)
Definition numeral (large : bool) (n base : Z) : list Z :=
  if n =? 0 then [chr "0"] else reverse (map (dig large) (radix 32 n base)).

Lemma simple_strtoul_numeral large n base :
  2 <= base <= 16 -> in_w 32 n -> simple_strtoul (numeral large n base) base = (n, []).
Proof.
  intros Hb Hn. unfold numeral. destruct (Z.eqb_spec n 0) as [->|Hne].
  - destruct (dig_value large 0 ltac:(lia)) as (H1 & H2 & H3).
    replace (dig large 0) with (chr "0") in * by (by destruct large).
    assert (valid_digit base (chr "0")) by (unfold valid_digit; rewrite H2; split; [done|lia]).
    rewrite simple_strtoul_valid, strtoul_loop_valid by (lia || by apply Forall_singleton).
    cbn [fold_left]. by rewrite H2, Z.mul_0_l.
  - unfold in_w in Hn. destruct (digits_valid base large 32 n Hb ltac:(lia)) as [H1 H2].
    rewrite simple_strtoul_valid, strtoul_loop_valid, strtoul_radix by (done || lia). done.
Qed.

(** ** The layout of a printed number *)

(** [number] succeeds, and prints the sign, the prefix, the digits padded to the
    precision, and the field padding. *)
Lemma number_tmp num base large :
  2 <= base <= 36 -> - 2 ^ 31 <= num < 2 ^ 31 ->
  exists tmp,
    (if num =? 0 then Some [chr "0"] else digit_loop 33 (digit_table large) num base []) = Some tmp /\
    reverse tmp = numeral large (u32 num) base /\ (1 <= length tmp <= 32)%nat.
Proof.
  intros Hb Hn. unfold numeral. destruct (Z.eqb_spec num 0) as [->|Hne].
  - exists [chr "0"]. split; [done|]. split; [done|]. simpl. lia.
  - pose proof (Z.mod_pos_bound num (2 ^ 32) ltac:(done)) as Hu. fold (wrap 32 num) (u32 num) in Hu.
    rewrite (digit_loop_radix base Hb large 32 (u32 num)) by (done || lia).
    assert (u32 num <> 0) by (by rewrite u32_zero).
    eexists. split; [done|]. rewrite (proj2 (Z.eqb_neq _ 0)) by done. split; [done|].
    rewrite app_nil_l, length_map.
    pose proof (radix_length base 32 (u32 num)). pose proof (radix_nonempty base 32 (u32 num)). lia.
Qed.

(** The sign character of [number], and the value whose digits it prints. *)
Definition sign_of (num type : Z) : list Z :=
  if tst type SIGN then
    if num <? 0 then [chr "-"] else if tst type PLUS then [chr "+"]
    else if tst type SPACE then [chr " "] else []
  else [].

Definition magnitude (num type : Z) : Z := if tst type SIGN && (num <? 0) then s32 (- num) else num.

Definition prefix_of_base (base type : Z) : list Z :=
  if tst type SPECIAL then
    if base =? 8 then [chr "0"] else if base =? 16 then [chr "0"; dig (tst type LARGE) 33] else []
  else [].

(** Clearing [ZEROPAD] leaves the other flags. *)
Lemma tst_clear type f :
  Z.land (Z.lnot ZEROPAD) f = f -> tst (Z.land type (Z.lnot ZEROPAD)) f = tst type f.
Proof. intros H. unfold tst. by rewrite <- Z.land_assoc, H. Qed.

Lemma to_nat_nonpos x : x <= 0 -> Z.to_nat x = 0%nat.
Proof. lia. Qed.

Lemma tst_pad type : tst type LEFT = false -> tst type (ZEROPAD + LEFT) = tst type ZEROPAD.
Proof.
  unfold tst, truthy. change (ZEROPAD + LEFT) with (Z.lor ZEROPAD LEFT). rewrite Z.land_lor_distr_r. intros H.
  apply negb_false_iff, Z.eqb_eq in H. by rewrite H, Z.lor_0_r.
Qed.

Lemma tst_left type : tst type LEFT = true -> tst (Z.land type (Z.lnot ZEROPAD)) (ZEROPAD + LEFT) = true.
Proof.
  unfold tst. rewrite <- Z.land_assoc. change (Z.land (Z.lnot ZEROPAD) (ZEROPAD + LEFT)) with LEFT. done.
Qed.

(** A number in its field: the digits are filled with zeros to the precision, and the field with
    spaces before or after or with zeros between the prefix and the digits. *)
Definition layout (size precision type : Z) (sign prefix digits : list Z) : list Z :=
  let len l := Z.of_nat (length l) in
  let number := replicate (Z.to_nat (precision - len digits)) (chr "0") ++ digits in
  let fill := replicate (Z.to_nat (size - len sign - len prefix - len number)) in
  if tst type LEFT then sign ++ prefix ++ number ++ fill (chr " ")
  else if tst type ZEROPAD then sign ++ prefix ++ fill (chr "0") ++ number
  else fill (chr " ") ++ sign ++ prefix ++ number.

Lemma layout_length size precision type sign prefix digits :
  Z.of_nat (length (layout size precision type sign prefix digits)) =
  Z.max size (Z.of_nat (length sign) + Z.of_nat (length prefix) + Z.max precision (Z.of_nat (length digits))).
Proof. unfold layout. repeat case_match; rewrite !length_app, !length_replicate; lia. Qed.

(** The size and the precision of a field leave the [int] arithmetic on them within its range. *)
Definition field_ok (size precision : Z) : Prop :=
  - 2 ^ 31 <= size < 2 ^ 31 /\ precision < 2 ^ 31 /\ - 2 ^ 31 + 6 <= size - Z.max precision 32.

(** Everything [number] prints. *)
Lemma number_layout num base size precision type :
  2 <= base <= 36 -> - 2 ^ 31 <= num < 2 ^ 31 -> field_ok size precision ->
  number num base size precision type =
    Some (layout size precision type (sign_of num type) (prefix_of_base base type)
            (numeral (tst type LARGE) (u32 (magnitude num type)) base)).
Proof.
  intros Hb Hn (Hs & Hp & Hf). unfold number, layout.
  set (body := numeral _ _ _). set (sign := sign_of num type). set (prefix := prefix_of_base base type).
  set (ty := if tst type LEFT then Z.land type (Z.lnot ZEROPAD) else type).
  assert (forall f, Z.land (Z.lnot ZEROPAD) f = f -> tst ty f = tst type f) as Hty.
  { intros f Hf'. unfold ty. destruct (tst type LEFT); [by apply tst_clear|done]. }
  rewrite (proj2 (Z.ltb_ge base 2)), (proj2 (Z.ltb_ge 36 base)) by lia. cbn [orb].
  rewrite !(Hty SIGN), !(Hty PLUS), !(Hty SPACE), !(Hty SPECIAL), !(Hty LEFT) by reflexivity.
  fold (digit_table (tst type LARGE)).
  assert (- 2 ^ 31 <= magnitude num type < 2 ^ 31) as Hm.
  { unfold magnitude. case_match; [apply s32_range|done]. }
  destruct (number_tmp (magnitude num type) base (tst type LARGE) Hb Hm) as (tmp & E & Hrev & Hlen).
  fold body in Hrev. assert (length tmp = length body) as Hl by (by rewrite <- Hrev, length_reverse).
  replace (if tst type SIGN then _ else _) with
    (peek sign, magnitude num type, size - Z.of_nat (length sign)).
  2: { unfold sign, sign_of, magnitude. repeat case_match; try done; cbn [length]; f_equal; rewrite ?s32_small; lia. }
  rewrite E. cbn [mbind option_bind]. rewrite Hl, Hrev.
  assert (length sign <= 1)%nat by (unfold sign, sign_of; repeat case_match; simpl; lia).
  assert (length prefix <= 2)%nat by (unfold prefix, prefix_of_base; repeat case_match; simpl; lia).
  replace (if peek sign =? 0 then [] else [peek sign]) with sign.
  2: { unfold sign, sign_of. by repeat case_match. }
  fold (dig (tst type LARGE) 33) (prefix_of_base base type). fold prefix.
  set (sz := size - Z.of_nat (length sign)) in *.
  replace (if tst type SPECIAL then _ else sz) with (sz - Z.of_nat (length prefix)).
  2: { unfold prefix, prefix_of_base. destruct (tst type SPECIAL); [|simpl; lia].
       destruct (Z.eqb_spec base 8), (Z.eqb_spec base 16); simpl length; rewrite ?s32_small; lia. }
  set (n := Z.of_nat (length body)).
  replace (if precision <? n then n else precision) with (Z.max precision n)
    by (destruct (Z.ltb_spec precision n); lia).
  rewrite length_app, length_replicate. fold n.
  replace (Z.to_nat (Z.max precision n - n)) with (Z.to_nat (precision - n)) by lia.
  rewrite s32_small by lia. set (s := sz - Z.of_nat (length prefix) - Z.max precision n).
  replace (sz - Z.of_nat (length prefix) - Z.of_nat (Z.to_nat (precision - n) + length body)) with s by lia.
  unfold pad. destruct (tst type LEFT) eqn:El; cbn [negb].
  - unfold ty. rewrite tst_left by done. cbn [negb]. by rewrite !app_nil_l, <- app_assoc.
  - unfold ty. rewrite tst_pad by done. destruct (tst type ZEROPAD); cbn [negb].
    + rewrite (s32_small (Z.min s 0 - 1)) by lia. rewrite (to_nat_nonpos (Z.min s 0 - 1)) by lia.
      by rewrite app_nil_l, app_nil_r.
    + rewrite (s32_small (Z.min s 0 - 1)) by lia. rewrite (to_nat_nonpos (Z.min s 0 - 1)) by lia.
      rewrite s32_small by lia. rewrite (to_nat_nonpos (Z.min _ 0 - 1)) by lia. by rewrite app_nil_l, app_nil_r.
Qed.

Lemma numeral_length large n base :
  2 <= base <= 36 -> in_w 32 n -> (1 <= length (numeral large n base) <= 32)%nat.
Proof.
  intros Hb Hn. unfold numeral. destruct (Z.eqb_spec n 0); [simpl; lia|].
  rewrite length_reverse, length_map.
  pose proof (radix_length base 32 n). pose proof (radix_nonempty base 32 n). lia.
Qed.

Lemma u32_in x : in_w 32 (u32 x).
Proof. by apply wrap_in. Qed.

(** Without a width and a precision: sign, prefix and digits. *)
Lemma number_plain num base type :
  2 <= base <= 36 -> - 2 ^ 31 <= num < 2 ^ 31 ->
  number num base (-1) (-1) type =
  Some (sign_of num type ++ prefix_of_base base type ++
        numeral (tst type LARGE) (u32 (magnitude num type)) base).
Proof.
  intros Hb Hn. rewrite number_layout by (done || unfold field_ok; lia). unfold layout.
  rewrite !(to_nat_nonpos (-1 - _)) by lia. rewrite to_nat_nonpos by lia.
  repeat case_match; rewrite ?app_nil_l, ?app_nil_r; done.
Qed.

(** ** Round trips *)

Lemma vsprintf_int c base flags v :
  In (c, base, flags) [(chr "u", 10, 0); (chr "x", 16, 0); (chr "X", 16, LARGE); (chr "o", 8, 0)] ->
  vsprintf [chr "%"; c] [VWord v] =
  Some (Z.of_nat (length (numeral (tst flags LARGE) (u32 v) base)),
        numeral (tst flags LARGE) (u32 v) base ++ [0], []).
Proof.
  intros Hin. unfold vsprintf. simpl length. cbn [vsprintf_loop v_fmt].
  replace (chr "%" =? chr "%") with true by reflexivity. cbn [v_out v_args v_n].
  assert (conversion [] [c] [VWord v] [] =
    Some (mk_vst (numeral (tst flags LARGE) (u32 v) base) [] [] [])) as ->; [|done].
  pose proof (number_plain (s32 (u32 v)) base flags) as Hp.
  simpl in Hin. repeat destruct Hin as [[= <- <- <-]|Hin]; try done;
    unfold LARGE in Hp; lazy -[number s32 u32 numeral]; rewrite Hp by (lia || apply s32_range);
    lazy -[numeral u32 s32];
    rewrite u32_s32; by rewrite (u32_small (u32 v)) by apply u32_in.
Qed.

Lemma strtoul_reads_back c base flags v :
  In (c, base, flags) [(chr "u", 10, 0); (chr "x", 16, 0); (chr "X", 16, LARGE); (chr "o", 8, 0)] ->
  in_w 32 v ->
  exists s n, vsprintf [chr "%"; c] [VWord v] = Some (n, s ++ [0], []) /\ n = Z.of_nat (length s) /\
    simple_strtoul s base = (v, []).
Proof.
  intros Hin Hv. pose proof (vsprintf_int c base flags v Hin) as E.
  rewrite (u32_small v) in E by done.
  eexists _, _. split; [exact E|]. split; [done|]. apply simple_strtoul_numeral; [|done].
  simpl in Hin. by repeat destruct Hin as [[= <- <- <-]|Hin].
Qed.

Lemma numeral_not_minus large n base :
  2 <= base <= 16 -> in_w 32 n -> (peek (numeral large n base) =? chr "-") = false.
Proof.
  intros Hb Hn. apply Z.eqb_neq. unfold numeral. destruct (n =? 0); [done|].
  unfold in_w in Hn. destruct (digits_valid base large 32 n Hb ltac:(lia)) as [H1 _].
  destruct (reverse _) as [|c l]; [done|]. decompose_Forall_hyps.
  intros E. unfold peek in E. simpl in E. subst c.
  match goal with H : valid_digit _ _ |- _ => destruct H as (H & _) end. done.
Qed.

Lemma vsprintf_d v :
  vsprintf (chars "%d") [VWord v] =
  let s := (if s32 v <? 0 then [chr "-"] else []) ++
           numeral false (u32 (if s32 v <? 0 then s32 (- s32 v) else s32 v)) 10 in
  Some (Z.of_nat (length s), s ++ [0], []).
Proof.
  unfold vsprintf. simpl length. cbn [vsprintf_loop v_fmt chars].
  assert (conversion [] [chr "d"] [VWord v] [] =
    Some (mk_vst ((if s32 v <? 0 then [chr "-"] else []) ++
           numeral false (u32 (if s32 v <? 0 then s32 (- s32 v) else s32 v)) 10) [] [] [])) as E.
  { pose proof (number_plain (s32 v) 10 2 ltac:(lia) (s32_range v)) as Hp.
    lazy -[number s32 u32 numeral Z.ltb Z.opp app]. rewrite Hp. unfold sign_of, magnitude.
    destruct (s32 v <? 0); reflexivity. }
  change (chars "%d") with [chr "%"; chr "d"]. cbn [v_fmt v_out v_args v_n].
  replace (chr "%" =? chr "%") with true by reflexivity. rewrite E. reflexivity.
Qed.

Lemma strtol_reads_back v :
  - 2 ^ 31 <= v < 2 ^ 31 ->
  exists s n, vsprintf (chars "%d") [VWord v] = Some (n, s ++ [0], []) /\ n = Z.of_nat (length s) /\
    simple_strtol s 10 = (v, []).
Proof.
  intros Hv. rewrite vsprintf_d, (s32_small v) by done.
  eexists _, _. split; [done|]. split; [done|].
  unfold simple_strtol. destruct (Z.ltb_spec v 0) as [Hneg|Hpos].
  - pose proof (simple_strtoul_numeral false (u32 (s32 (- v))) 10 ltac:(lia) (u32_in _)) as E.
    replace (peek _ =? chr "-") with true by reflexivity.
    change (drop 1 ([chr "-"] ++ ?l)) with l. rewrite E. f_equal.
    rewrite u32_s32, s32_u32. unfold u32, wrap, s32.
    replace (- ((- v) mod 2 ^ 32) + 2 ^ 31) with (2 ^ 31 - (- v) mod 2 ^ 32) by lia.
    rewrite Zminus_mod_idemp_r. replace (2 ^ 31 - - v) with (v + 2 ^ 31) by lia.
    rewrite Z.mod_small by lia. lia.
  - cbn [app]. rewrite numeral_not_minus by (lia || apply u32_in).
    rewrite simple_strtoul_numeral by (lia || apply u32_in). f_equal.
    rewrite s32_u32. by apply s32_small.
Qed.

(** C39: For every value, base from 2 to 36, flags, and field width and precision with which the int
    arithmetic does not overflow, number() writes exactly the sign, the base prefix, the zeros
    of the precision and the digits of the value, padded to the field width with blanks behind
    them (LEFT), with zeros after the prefix (ZEROPAD) or with blanks in front. There are from 1
    to 32 digits, so its 66-byte buffer does not overflow, and the output is as long as the
    larger of the field width and these parts. simple_strtoul reads back the value that vsprintf
    prints with %u, %x, %X or %o for every unsigned 32-bit value, and simple_strtol the value
    printed with %d for every signed one. *)
Theorem numbers_printed_and_read num radix size precision type c base flags v w :
  2 <= radix <= 36 -> - 2 ^ 31 <= num < 2 ^ 31 -> field_ok size precision ->
  In (c, base, flags) [(chr "u", 10, 0); (chr "x", 16, 0); (chr "X", 16, LARGE); (chr "o", 8, 0)] ->
  in_w 32 v -> - 2 ^ 31 <= w < 2 ^ 31 ->
  (let sign := sign_of num type in
   let prefix := prefix_of_base radix type in
   let digits := numeral (tst type LARGE) (u32 (magnitude num type)) radix in
   number num radix size precision type = Some (layout size precision type sign prefix digits) /\
   (1 <= length digits <= 32)%nat /\
   Z.of_nat (length (layout size precision type sign prefix digits)) =
     Z.max size (Z.of_nat (length sign) + Z.of_nat (length prefix) + Z.max precision (Z.of_nat (length digits)))) /\
  (exists s n, vsprintf [chr "%"; c] [VWord v] = Some (n, s ++ [0], []) /\ n = Z.of_nat (length s) /\
     simple_strtoul s base = (v, [])) /\
  (exists s n, vsprintf (chars "%d") [VWord w] = Some (n, s ++ [0], []) /\ n = Z.of_nat (length s) /\
     simple_strtol s 10 = (w, [])).
Proof.
  intros Hr Hn Hf Hin Hv Hw. split; [|by split; [eapply strtoul_reads_back|apply strtol_reads_back]]. cbv zeta.
  split; [by apply number_layout|]. split; [by apply numeral_length; [|apply u32_in]|apply layout_length].
Qed.

Lemma numbers_printed_and_read_witness :
  number (-255) 16 10 5 (SIGN + SPECIAL) = Some (chars "  -0x000ff") /\
  number (-255) 16 10 5 (SIGN + SPECIAL + ZEROPAD) = Some (chars "-0x00000ff") /\
  (exists s n, vsprintf [chr "%"; chr "x"] [VWord 0xdeadbeef] = Some (n, s ++ [0], []) /\
     n = Z.of_nat (length s) /\ simple_strtoul s 16 = (0xdeadbeef, [])) /\
  (exists s n, vsprintf (chars "%d") [VWord (-2147483648)] = Some (n, s ++ [0], []) /\
     n = Z.of_nat (length s) /\ simple_strtol s 10 = (-2147483648, [])).
Proof.
  destruct (numbers_printed_and_read (-255) 16 10 5 (SIGN + SPECIAL) (chr "x") 16 0 0xdeadbeef (-2147483648)) as ((E & _ & _) & H);
    [lia|lia|unfold field_ok; lia|right; left; reflexivity|unfold in_w; lia|lia|].
  split; [exact E|]. split; [|exact H].
  apply (numbers_printed_and_read (-255) 16 10 5 (SIGN + SPECIAL + ZEROPAD) (chr "x") 16 0 0xdeadbeef (-2147483648));
    [lia|lia|unfold field_ok; lia|right; left; reflexivity|unfold in_w; lia|lia].
Defined.
