(* ===== verification/Rwsem.v ===== *)
(** * lib/rwsem-spinlock.c: read/write semaphores

    The board is configured with [CONFIG_RWSEM_GENERIC_SPINLOCK].  Every operation
    does its work inside [wait_lock], so an operation is one atomic step; a blocked
    task leaves its [rwsem_waiter] in the queue and sleeps until another task
    clears [waiter.task].  Part one is the code, part two the step relation of a
    set of tasks using one semaphore, part three its invariant. *)

From S2P Require Import Prelude.

Local Open Scope Z_scope.

(** ** The code *)

(** A queued waiter: the task and whether it waits for writing
    ([RWSEM_WAITING_FOR_WRITE]) or reading. *)
Definition waiter : Type := nat * bool.

Record rw_semaphore := mk_sem { activity : Z; wait_list : list waiter }.

Definition list_empty (q : list waiter) : bool := match q with [] => true | _ => false end.

Definition __init_rwsem : rw_semaphore := mk_sem 0 [].

(** The loop that grants read locks to the front of the queue: the waiters woken
    and the rest of the queue. *)
Fixpoint wake_readers (q : list waiter) : list waiter * list waiter :=
  match q with
  | (t, false) :: q' => let '(woken, rest) := wake_readers q' in ((t, false) :: woken, rest)
  | _ => ([], q)
  end.

Definition dont_wake_writers (sem : rw_semaphore) : rw_semaphore * list waiter :=
  let '(woken, rest) := wake_readers (wait_list sem) in
  (mk_sem (activity sem + Z.of_nat (length woken)) rest, woken).

(** The semaphore and the waiters whose [task] was cleared; [None] when the queue
    is empty. *)
Definition __rwsem_do_wake (sem : rw_semaphore) (wakewrite : bool) :
    option (rw_semaphore * list waiter) :=
  match wait_list sem with
  | [] => None
  | (tsk, write) :: rest =>
      if negb wakewrite then
        if write then Some (sem, []) else Some (dont_wake_writers sem)
      else if write then Some (mk_sem (-1) rest, [(tsk, write)])
      else Some (dont_wake_writers sem)
  end.

(** The flags of the waiter are not looked at. *)
Definition __rwsem_wake_one_writer (sem : rw_semaphore) : option (rw_semaphore * list waiter) :=
  match wait_list sem with
  | [] => None
  | w :: rest => Some (mk_sem (-1) rest, [w])
  end.

(** [true]: granted; [false]: the caller is queued and sleeps. *)
Definition __down_read (sem : rw_semaphore) (tsk : nat) : rw_semaphore * bool :=
  if (0 <=? activity sem) && list_empty (wait_list sem)
  then (mk_sem (activity sem + 1) (wait_list sem), true)
  else (mk_sem (activity sem) (wait_list sem ++ [(tsk, false)]), false).

Definition __down_read_trylock (sem : rw_semaphore) : rw_semaphore * bool :=
  if (0 <=? activity sem) && list_empty (wait_list sem)
  then (mk_sem (activity sem + 1) (wait_list sem), true)
  else (sem, false).

Definition __down_write_nested (sem : rw_semaphore) (tsk : nat) : rw_semaphore * bool :=
  if (activity sem =? 0) && list_empty (wait_list sem)
  then (mk_sem (-1) (wait_list sem), true)
  else (mk_sem (activity sem) (wait_list sem ++ [(tsk, true)]), false).

Definition __down_write (sem : rw_semaphore) (tsk : nat) : rw_semaphore * bool :=
  __down_write_nested sem tsk.

Definition __down_write_trylock (sem : rw_semaphore) : rw_semaphore * bool :=
  if (activity sem =? 0) && list_empty (wait_list sem)
  then (mk_sem (-1) (wait_list sem), true)
  else (sem, false).

Definition __up_read (sem : rw_semaphore) : option (rw_semaphore * list waiter) :=
  let sem := mk_sem (activity sem - 1) (wait_list sem) in
  if (activity sem =? 0) && negb (list_empty (wait_list sem))
  then __rwsem_wake_one_writer sem else Some (sem, []).

Definition __up_write (sem : rw_semaphore) : option (rw_semaphore * list waiter) :=
  let sem := mk_sem 0 (wait_list sem) in
  if negb (list_empty (wait_list sem)) then __rwsem_do_wake sem true else Some (sem, []).

Definition __downgrade_write (sem : rw_semaphore) : option (rw_semaphore * list waiter) :=
  let sem := mk_sem 1 (wait_list sem) in
  if negb (list_empty (wait_list sem)) then __rwsem_do_wake sem false else Some (sem, []).

(** ** Tasks using the semaphore *)

(** Where a task is: outside, asleep in the loop of [__down_read] or
    [__down_write], granted the lock but not yet awake, or holding it.  The flag is
    [true] for writing. *)
Inductive tstate :=
| Idle
| Waiting (write : bool)
| Granted (write : bool)
| Holding (write : bool).

Record conf := mk_conf { sem : rw_semaphore; tasks : list tstate }.

(** Clearing [waiter.task] of the woken waiters. *)
Fixpoint wake (woken : list waiter) (ts : list tstate) : list tstate :=
  match woken with
  | [] => ts
  | (t, write) :: woken' => wake woken' (<[t := Granted write]> ts)
  end.

Definition entered (write granted : bool) : tstate := if granted then Holding write else Waiting write.

Inductive step : conf -> conf -> Prop :=
| step_down_read s s' ts t g :
    ts !! t = Some Idle -> __down_read s t = (s', g) ->
    step (mk_conf s ts) (mk_conf s' (<[t := entered false g]> ts))
| step_down_write s s' ts t g :
    ts !! t = Some Idle -> __down_write s t = (s', g) ->
    step (mk_conf s ts) (mk_conf s' (<[t := entered true g]> ts))
| step_read_trylock s s' ts t g :
    ts !! t = Some Idle -> __down_read_trylock s = (s', g) ->
    step (mk_conf s ts) (mk_conf s' (<[t := if g then Holding false else Idle]> ts))
| step_write_trylock s s' ts t g :
    ts !! t = Some Idle -> __down_write_trylock s = (s', g) ->
    step (mk_conf s ts) (mk_conf s' (<[t := if g then Holding true else Idle]> ts))
| step_awake s ts t write :
    ts !! t = Some (Granted write) ->
    step (mk_conf s ts) (mk_conf s (<[t := Holding write]> ts))
| step_up_read s s' ts t woken :
    ts !! t = Some (Holding false) -> __up_read s = Some (s', woken) ->
    step (mk_conf s ts) (mk_conf s' (wake woken (<[t := Idle]> ts)))
| step_up_write s s' ts t woken :
    ts !! t = Some (Holding true) -> __up_write s = Some (s', woken) ->
    step (mk_conf s ts) (mk_conf s' (wake woken (<[t := Idle]> ts)))
| step_downgrade s s' ts t woken :
    ts !! t = Some (Holding true) -> __downgrade_write s = Some (s', woken) ->
    step (mk_conf s ts) (mk_conf s' (wake woken (<[t := Holding false]> ts))).

Definition init (n : nat) : conf := mk_conf __init_rwsem (replicate n Idle).

Inductive reachable (n : nat) : conf -> Prop :=
| reach_init : reachable n (init n)
| reach_step c c' : reachable n c -> step c c' -> reachable n c'.

(** ** Counting holders *)

Definition holds (write : bool) (s : tstate) : bool :=
  match s with Granted w | Holding w => Bool.eqb w write | _ => false end.

Definition holders (write : bool) (ts : list tstate) : Z :=
  Z.of_nat (length (filter (fun s => holds write s = true) ts)).

Lemma holders_nonneg w ts : 0 <= holders w ts.
Proof. unfold holders. lia. Qed.

Lemma holders_cons w s ts : holders w (s :: ts) = b2z (holds w s) + holders w ts.
Proof.
  unfold holders. rewrite filter_cons. destruct (holds w s); case_decide; cbn [length b2z]; done || lia.
Qed.

Lemma holders_insert w ts t s s' :
  ts !! t = Some s -> holders w (<[t := s']> ts) = holders w ts - b2z (holds w s) + b2z (holds w s').
Proof.
  revert t. induction ts as [|x ts IH]; intros [|t] Ht; simpl in Ht; try done.
  - injection Ht as ->. simpl. rewrite !holders_cons. lia.
  - simpl. rewrite !holders_cons, (IH t) by done. lia.
Qed.

(** A task that holds the lock is counted. *)
Lemma holders_pos w ts t s : ts !! t = Some s -> holds w s = true -> 0 < holders w ts.
Proof.
  revert t. induction ts as [|x ts IH]; intros [|t] Ht Hs; simpl in Ht; try done; rewrite holders_cons.
  - injection Ht as ->. rewrite Hs. pose proof (holders_nonneg w ts). simpl. lia.
  - specialize (IH t Ht Hs). destruct (holds w x); simpl; lia.
Qed.

(** Two different holders are counted twice. *)
Lemma holders_two w ts t t' s s' :
  ts !! t = Some s -> ts !! t' = Some s' -> t <> t' ->
  holds w s = true -> holds w s' = true -> 1 < holders w ts.
Proof.
  intros Ht Ht' Hne Hs Hs'.
  assert (<[t := Idle]> ts !! t' = Some s') as H by (by rewrite list_lookup_insert_ne).
  pose proof (holders_pos w _ _ _ H Hs') as Hp. rewrite (holders_insert w ts t s Idle Ht), Hs in Hp.
  simpl in Hp. lia.
Qed.

(** ** The invariant *)

(** The queue holds exactly the sleeping tasks, each once. *)
Definition queued (q : list waiter) (ts : list tstate) : Prop :=
  NoDup q.*1 /\ forall t w, (t, w) ∈ q <-> ts !! t = Some (Waiting w).

(** [activity] counts the readers, or is -1 for one writer. *)
Definition counted (a : Z) (ts : list tstate) : Prop :=
  (a = -1 /\ holders true ts = 1 /\ holders false ts = 0) \/
  (0 <= a /\ holders true ts = 0 /\ holders false ts = a).

(** Nobody sleeps on a free semaphore, and under readers the queue is headed by a
    writer. *)
Definition headed (a : Z) (q : list waiter) : Prop :=
  (a = 0 -> q = []) /\
  (0 < a -> match q with [] => True | (_, w) :: _ => w = true end).

Definition inv (c : conf) : Prop :=
  queued (wait_list (sem c)) (tasks c) /\ counted (activity (sem c)) (tasks c) /\
  headed (activity (sem c)) (wait_list (sem c)).

Lemma queued_insert q ts t s s' :
  queued q ts -> ts !! t = Some s -> (forall w, s <> Waiting w) -> (forall w, s' <> Waiting w) ->
  queued q (<[t := s']> ts).
Proof.
  intros [Hnd Hq] Ht Hs Hs'. split; [done|]. intros u w. rewrite Hq.
  destruct (decide (u = t)) as [->|].
  - rewrite Ht, list_lookup_insert_eq by (by eapply lookup_lt_Some). split; intros [= E]; subst.
    + by destruct (Hs w).
    + by destruct (Hs' w).
  - by rewrite list_lookup_insert_ne.
Qed.

Lemma queued_enqueue q ts t s w :
  queued q ts -> ts !! t = Some s -> (forall w, s <> Waiting w) ->
  queued (q ++ [(t, w)]) (<[t := Waiting w]> ts).
Proof.
  intros [Hnd Hq] Ht Hs.
  assert (forall w', (t, w') ∉ q) as Hnot by (intros w' H%Hq; rewrite Ht in H; injection H as ->; by destruct (Hs w')).
  split.
  - rewrite fmap_app. apply list.NoDup_app. split; [done|]. split; [|apply NoDup_singleton].
    intros u Hu Hin. simpl in Hin. apply list_elem_of_singleton in Hin as ->.
    apply list_elem_of_fmap in Hu as ([u w'] & E & Hu). simpl in E. subst u. by destruct (Hnot w').
  - intros u w'. rewrite elem_of_app, list_elem_of_singleton, Hq. destruct (decide (u = t)) as [->|].
    + rewrite Ht, list_lookup_insert_eq by (by eapply lookup_lt_Some).
      split; [intros [[= E]|[= ->]]; [subst; by destruct (Hs w')|done]|intros [= ->]; by right].
    + rewrite list_lookup_insert_ne by done. split; [intros [?|[= ? ?]]; done|by left].
Qed.

(** How many waiters of a list want to write, or to read. *)
Fixpoint flagged (w : bool) (l : list waiter) : Z :=
  match l with [] => 0 | (_, w') :: l' => b2z (Bool.eqb w' w) + flagged w l' end.

(** Waking the front of the queue. *)
Lemma wake_front woken : forall q ts,
  queued (woken ++ q) ts ->
  queued q (wake woken ts) /\
  forall w, holders w (wake woken ts) =
    holders w ts + flagged w woken.
Proof.
  induction woken as [|[t w] woken IH]; intros q ts Hq; simpl.
  - split; [done|]. intros. lia.
  - assert (ts !! t = Some (Waiting w)) as Ht by (apply Hq; left).
    destruct Hq as [Hnd Hq]. simpl in Hnd, Hq. apply list.NoDup_cons in Hnd as [Hnin Hnd].
    destruct (IH q (<[t := Granted w]> ts)) as [H1 H2].
    { split; [done|]. intros u w'. destruct (decide (u = t)) as [->|Hne].
      - rewrite list_lookup_insert_eq by (by eapply lookup_lt_Some). split; [|done].
        intros Hin. destruct Hnin. apply list_elem_of_fmap. by exists (t, w').
      - rewrite list_lookup_insert_ne, <- Hq, elem_of_cons by done.
        split; [by right|]. intros [[= ? ?]|?]; done. }
    split; [done|]. intros w'. rewrite H2, (holders_insert w' _ _ _ _ Ht). simpl. lia.
Qed.

Lemma wake_readers_spec q woken rest :
  wake_readers q = (woken, rest) ->
  q = woken ++ rest /\ flagged false woken = Z.of_nat (length woken) /\ flagged true woken = 0 /\
  match rest with [] => True | (_, w) :: _ => w = true end.
Proof.
  revert woken. induction q as [|[t [|]] q IH]; intros woken; simpl.
  - by intros [= <- <-].
  - by intros [= <- <-].
  - destruct (wake_readers q) as [wk r]. intros [= <- <-].
    destruct (IH wk eq_refl) as (-> & H1 & H2 & H3).
    simpl. split; [done|]. split; [lia|]. split; [lia|done].
Qed.

(** Granting read locks to the front of the queue. *)
Lemma dont_wake_writers_inv q ts s' woken a :
  queued q ts -> 0 <= a -> holders true ts = 0 -> holders false ts = a ->
  (a = 0 -> match q with (_, false) :: _ => True | _ => False end) ->
  dont_wake_writers (mk_sem a q) = (s', woken) -> inv (mk_conf s' (wake woken ts)).
Proof.
  intros Hq Ha Ht Hf Hhead. unfold dont_wake_writers. simpl.
  destruct (wake_readers q) as [wk rest] eqn:E. intros [= <- <-].
  assert (a = 0 -> wk <> []) as Hne.
  { intros ->. specialize (Hhead eq_refl). destruct q as [|[t [|]] q]; try done. simpl in E.
    destruct (wake_readers q). by injection E as <- <-. }
  apply wake_readers_spec in E as (-> & H1 & H2 & H3). apply wake_front in Hq as [Hq Hh].
  assert (holders true (wake wk ts) = 0) by (rewrite Hh, H2, Ht; done).
  assert (holders false (wake wk ts) = a + Z.of_nat (length wk)) by (rewrite Hh, H1, Hf; done).
  assert (0 < a + Z.of_nat (length wk)).
  { destruct (decide (a = 0)) as [E|]; [|lia]. specialize (Hne E). destruct wk; [done|simpl; lia]. }
  split; [done|]. split; [right; simpl; lia|]. split; simpl; [lia|done].
Qed.

Lemma inv_init n : inv (init n).
Proof.
  assert (forall w, holders w (replicate n Idle) = 0) as Hh.
  { intros w. induction n as [|n IH]; [done|]. simpl. by rewrite holders_cons, IH. }
  split; [|split].
  - split; [constructor|]. intros t w. simpl. split; [by intros ?%elem_of_nil|].
    intros H%lookup_replicate_1. by destruct H.
  - right. simpl. rewrite !Hh. lia.
  - split; [done|]. simpl. lia.
Qed.

(** Queueing behind the lock. *)
Lemma inv_enqueue a q ts t s w :
  inv (mk_conf (mk_sem a q) ts) -> ts !! t = Some s -> (forall w, s <> Waiting w) ->
  (forall w, holds w s = false) -> ((a <> 0 \/ q <> []) /\ (0 < a -> q = [] -> w = true)) ->
  inv (mk_conf (mk_sem a (q ++ [(t, w)])) (<[t := Waiting w]> ts)).
Proof.
  intros (Hq & Hc & Hh0 & Hh1) Ht Hs Hns [Hcond Hw]. simpl in *. split; [by eapply queued_enqueue|]. split.
  - unfold counted in *. simpl. rewrite !(holders_insert _ ts t s) by done. rewrite !Hns. simpl. lia.
  - split; simpl.
    + intros ->. specialize (Hh0 eq_refl). destruct Hcond; done.
    + intros Ha. specialize (Hh1 Ha). destruct q as [|[u v] q]; simpl; [by apply Hw|done].
Qed.

(** A granted request. *)
Lemma inv_enter_read a q ts t :
  inv (mk_conf (mk_sem a q) ts) -> ts !! t = Some Idle -> 0 <= a -> q = [] ->
  inv (mk_conf (mk_sem (a + 1) q) (<[t := Holding false]> ts)).
Proof.
  intros (Hq & Hc & Hh) Ht Ha ->. simpl in *. split; [by eapply queued_insert|]. split.
  - unfold counted in *. simpl. rewrite !(holders_insert _ ts t Idle) by done. simpl. lia.
  - split; simpl; [lia|done].
Qed.

Lemma inv_enter_write q ts t :
  inv (mk_conf (mk_sem 0 q) ts) -> ts !! t = Some Idle -> q = [] ->
  inv (mk_conf (mk_sem (-1) q) (<[t := Holding true]> ts)).
Proof.
  intros (Hq & Hc & Hh) Ht ->. simpl in *. split; [by eapply queued_insert|]. split.
  - unfold counted in *. simpl. rewrite !(holders_insert _ ts t Idle) by done. simpl. lia.
  - split; simpl; lia.
Qed.

(** Handing the lock to the writer at the head of the queue. *)
Lemma inv_wake_writer q t rest ts :
  queued q ts -> q = (t, true) :: rest -> holders true ts = 0 -> holders false ts = 0 ->
  inv (mk_conf (mk_sem (-1) rest) (wake [(t, true)] ts)).
Proof.
  intros Hq -> Ht Hf. apply (wake_front [(t, true)] rest ts) in Hq as [Hq Hh].
  split; [done|]. split; [|split; simpl; lia].
  left. simpl activity. rewrite !Hh. simpl. lia.
Qed.

Lemma inv_up_read s s' ts t woken :
  inv (mk_conf s ts) -> ts !! t = Some (Holding false) -> __up_read s = Some (s', woken) ->
  inv (mk_conf s' (wake woken (<[t := Idle]> ts))).
Proof.
  destruct s as [a q]. intros (Hq & Hc & Hh0 & Hh1) Ht. simpl in *.
  pose proof (holders_pos false ts t _ Ht eq_refl) as Hpos.
  assert (0 < a) as Ha by (unfold counted in Hc; lia). specialize (Hh1 Ha).
  assert (queued q (<[t := Idle]> ts)) as Hq' by (by eapply queued_insert).
  assert (holders true (<[t := Idle]> ts) = 0 /\ holders false (<[t := Idle]> ts) = a - 1) as [Ht' Hf'].
  { unfold counted in Hc. rewrite !(holders_insert _ ts t _ Idle Ht). simpl. lia. }
  unfold __up_read. simpl. destruct (Z.eqb_spec (a - 1) 0) as [E|E], q as [|[u w] q]; simpl; intros [= <- <-].
  - split; [done|]. split; [right; simpl; lia|]. by split; simpl; [|lia].
  - subst w. apply (inv_wake_writer ((u, true) :: q)); try done. lia.
  - split; [done|]. split; [right; simpl; lia|]. split; simpl; [lia|done].
  - split; [done|]. split; [right; simpl; lia|]. split; simpl; [lia|done].
Qed.

Lemma inv_up_write s s' ts t woken :
  inv (mk_conf s ts) -> ts !! t = Some (Holding true) -> __up_write s = Some (s', woken) ->
  inv (mk_conf s' (wake woken (<[t := Idle]> ts))).
Proof.
  destruct s as [a q]. intros (Hq & Hc & _) Ht. simpl in *.
  pose proof (holders_pos true ts t _ Ht eq_refl) as Hpos.
  assert (queued q (<[t := Idle]> ts)) as Hq' by (by eapply queued_insert).
  assert (holders true (<[t := Idle]> ts) = 0 /\ holders false (<[t := Idle]> ts) = 0) as [Ht' Hf'].
  { unfold counted in Hc. rewrite !(holders_insert _ ts t _ Idle Ht). simpl. lia. }
  unfold __up_write, __rwsem_do_wake. simpl. destruct q as [|[u [|]] q]; cbn -[dont_wake_writers].
  - intros [= <- <-]. split; [done|]. split; [right; simpl; lia|]. by split; simpl; [|lia].
  - intros [= <- <-]. by apply (inv_wake_writer ((u, true) :: q)).
  - intros [= E]. by eapply (dont_wake_writers_inv ((u, false) :: q)).
Qed.

Lemma inv_downgrade s s' ts t woken :
  inv (mk_conf s ts) -> ts !! t = Some (Holding true) -> __downgrade_write s = Some (s', woken) ->
  inv (mk_conf s' (wake woken (<[t := Holding false]> ts))).
Proof.
  destruct s as [a q]. intros (Hq & Hc & _) Ht. simpl in *.
  pose proof (holders_pos true ts t _ Ht eq_refl) as Hpos.
  assert (queued q (<[t := Holding false]> ts)) as Hq' by (by eapply queued_insert).
  assert (holders true (<[t := Holding false]> ts) = 0 /\
          holders false (<[t := Holding false]> ts) = 1) as [Ht' Hf'].
  { unfold counted in Hc. rewrite !(holders_insert _ ts t _ _ Ht). simpl. lia. }
  unfold __downgrade_write, __rwsem_do_wake. simpl.
  destruct q as [|[u [|]] q]; cbn -[dont_wake_writers].
  - intros [= <- <-]. split; [done|]. split; [right; simpl; lia|]. by split; simpl; [lia|].
  - intros [= <- <-]. split; [done|]. split; [right; simpl; lia|]. by split; simpl; [lia|].
  - intros [= E]. by apply (dont_wake_writers_inv ((u, false) :: q) _ s' woken 1).
Qed.

Lemma list_empty_spec q : list_empty q = true <-> q = [].
Proof. by destruct q. Qed.

Lemma inv_step c c' : inv c -> step c c' -> inv c'.
Proof.
  intros Hi Hs. destruct Hs as [[a q] s' ts t g Ht E|[a q] s' ts t g Ht E|[a q] s' ts t g Ht E|
    [a q] s' ts t g Ht E|s ts t w Ht|s s' ts t woken Ht E|s s' ts t woken Ht E|s s' ts t woken Ht E].
  - unfold __down_read in E. simpl in E.
    destruct (Z.leb_spec 0 a), (list_empty q) eqn:Eq; simpl in E; injection E as <- <-;
      rewrite ?list_empty_spec in Eq; simpl.
    + by apply inv_enter_read.
    + eapply inv_enqueue; try done. destruct q; [done|]. split; [by right|done].
    + eapply inv_enqueue; try done. split; [left; lia|lia].
    + eapply inv_enqueue; try done. split; [left; lia|lia].
  - unfold __down_write, __down_write_nested in E. simpl in E.
    destruct (Z.eqb_spec a 0) as [->|], (list_empty q) eqn:Eq; simpl in E; injection E as <- <-;
      rewrite ?list_empty_spec in Eq; simpl.
    + by apply inv_enter_write.
    + eapply inv_enqueue; try done. destruct q; [done|]. split; [by right|done].
    + eapply inv_enqueue; try done. split; [by left|done].
    + eapply inv_enqueue; try done. split; [by left|done].
  - unfold __down_read_trylock in E. simpl in E.
    destruct ((0 <=? a) && list_empty q) eqn:Eq; injection E as <- <-.
    + apply andb_true_iff in Eq as [Ha%Z.leb_le Hq%list_empty_spec]. by apply inv_enter_read.
    + by rewrite list_insert_id.
  - unfold __down_write_trylock in E. simpl in E.
    destruct ((a =? 0) && list_empty q) eqn:Eq; injection E as <- <-.
    + apply andb_true_iff in Eq as [->%Z.eqb_eq Hq%list_empty_spec]. by apply inv_enter_write.
    + by rewrite list_insert_id.
  - destruct Hi as (Hq & Hc & Hh). split; [by eapply queued_insert|]. split; [|done].
    unfold counted in *. simpl in *. rewrite !(holders_insert _ ts t _ _ Ht). simpl. lia.
  - by eapply inv_up_read.
  - by eapply inv_up_write.
  - by eapply inv_downgrade.
Qed.

Lemma inv_reachable n c : reachable n c -> inv c.
Proof. induction 1 as [|c c' _ IH Hs]; [apply inv_init|by eapply inv_step]. Qed.

(** ** Properties *)

(** C27: In every reachable state of any number of tasks calling the down, trylock, up and downgrade
    operations of the read-write semaphore, a task that holds the semaphore for writing excludes
    every other holder, reader or writer. *)
Theorem rwsem_exclusion n c t t' w s s' :
  reachable n c -> tasks c !! t = Some s -> tasks c !! t' = Some s' -> t <> t' ->
  holds true s = true -> holds w s' = false.
Proof.
  intros (_ & Hc & _)%inv_reachable Ht Ht' Hne Hs. destruct (holds w s') eqn:E; [|done].
  exfalso. pose proof (holders_pos true _ _ _ Ht Hs). destruct w.
  - pose proof (holders_two true _ _ _ _ _ Ht Ht' Hne Hs E). unfold counted in Hc. lia.
  - pose proof (holders_pos false _ _ _ Ht' E). unfold counted in Hc. lia.
Qed.

(** Task 0 writes, task 1 waits to read. *)
Definition conf_busy : conf := mk_conf (mk_sem (-1) [(1%nat, false)]) [Holding true; Waiting false].

Lemma conf_busy_reachable : reachable 2 conf_busy.
Proof.
  eapply reach_step; [|apply (step_down_read (mk_sem (-1) []) _ [Holding true; Idle] 1 false); done].
  eapply reach_step; [|apply (step_down_write __init_rwsem _ [Idle; Idle] 0 true); done].
  apply reach_init.
Qed.

Lemma rwsem_exclusion_witness : holds false (Waiting false) = false.
Proof.
  apply (rwsem_exclusion 2 conf_busy 0 1 false (Holding true) (Waiting false)); [apply conf_busy_reachable|done..].
Defined.

(** C34: In every reachable state of the read-write semaphore no task waits while the semaphore is
    free, every waiting task is in the queue, and the release by a reader finds only a writer to
    wake, so __rwsem_wake_one_writer does not fail. *)
Theorem rwsem_no_lost_waiter n c :
  reachable n c ->
  (activity (sem c) = 0 -> forall t w, tasks c !! t <> Some (Waiting w)) /\
  (forall t, tasks c !! t = Some (Holding false) ->
     exists s' woken, __up_read (sem c) = Some (s', woken) /\ Forall (fun x => snd x = true) woken) /\
  (forall t w, tasks c !! t = Some (Waiting w) -> (t, w) ∈ wait_list (sem c)).
Proof.
  intros (Hq & Hc & Hh0 & Hh1)%inv_reachable. destruct c as [[a q] ts]. simpl in *. split; [|split].
  - intros E t w Ht. apply Hq in Ht. rewrite (Hh0 E) in Ht. by apply elem_of_nil in Ht.
  - intros t Ht. pose proof (holders_pos false ts t _ Ht eq_refl) as Hpos.
    assert (0 < a) as Ha by (unfold counted in Hc; lia). specialize (Hh1 Ha).
    unfold __up_read. simpl. destruct (a - 1 =? 0), q as [|[u w] q]; simpl; eexists _, _;
      (split; [done|]); repeat constructor; done.
  - intros t w. apply Hq.
Qed.

Lemma rwsem_no_lost_waiter_witness :
  (activity (sem conf_busy) = 0 -> forall t w, tasks conf_busy !! t <> Some (Waiting w)) /\
  (forall t, tasks conf_busy !! t = Some (Holding false) ->
     exists s' woken, __up_read (sem conf_busy) = Some (s', woken) /\ Forall (fun x => snd x = true) woken) /\
  (forall t w, tasks conf_busy !! t = Some (Waiting w) -> (t, w) ∈ wait_list (sem conf_busy)).
Proof. apply (rwsem_no_lost_waiter 2 conf_busy), conf_busy_reachable. Defined.
