(* ===== verification/Dates.v ===== *)
(** * Calendar time

    drivers/rtc/rtc-lib.c and [mktime] of kernel/time.c, the kernel's conversions
    between seconds and Gregorian dates; u-boot-1.1.6/rtc/date.c, the boot loader's;
    and the timespec helpers of kernel/time.c.  [unsigned long] and [int] are 32
    bits wide. *)

From S2P Require Import Prelude.

Local Open Scope Z_scope.

(** [struct rtc_time]; the fields [tm_yday] and [tm_isdst] are not used by the
    boot loader. *)
Record rtc_time := mk_tm {
  tm_sec : Z; tm_min : Z; tm_hour : Z; tm_mday : Z; tm_mon : Z; tm_year : Z; tm_wday : Z; tm_yday : Z
}.

(** ** drivers/rtc/rtc-lib.c *)

Definition rtc_days_in_month : list Z := [31; 28; 31; 30; 31; 30; 31; 31; 30; 31; 30; 31].

Definition rtc_ydays : list (list Z) := [
  [0; 31; 59; 90; 120; 151; 181; 212; 243; 273; 304; 334; 365];
  [0; 31; 60; 91; 121; 152; 182; 213; 244; 274; 305; 335; 366]
].

Definition LEAPS_THRU_END_OF (y : Z) : Z := y / 4 - y / 100 + y / 400.

Definition is_leap_year (year : Z) : bool :=
  ((year mod 4 =? 0) && negb (year mod 100 =? 0)) || (year mod 400 =? 0).

Definition elt (l : list Z) (i : Z) : Z := default 0 (l !! Z.to_nat i).

Definition rtc_month_days (month year : Z) : Z :=
  elt rtc_days_in_month month + b2z (is_leap_year year && (month =? 1)).

Definition rtc_year_days (day month year : Z) : Z :=
  elt (default [] (rtc_ydays !! Z.to_nat (b2z (is_leap_year year)))) month + day - 1.

(** The loop over the months, from [month] with [n] rounds left before 11. *)
Fixpoint month_loop (n : nat) (month days year : Z) : Z * Z :=
  match n with
  | O => (month, days)
  | S n' =>
      let newdays := days - rtc_month_days month year in
      if newdays <? 0 then (month, days) else month_loop n' (month + 1) newdays year
  end.

Definition rtc_time_to_tm (time : Z) : rtc_time :=
  let days := s32 (time / 86400) in
  let time := u32 (time - u32 (u32 days * 86400)) in
  let wday := Z.rem (days + 4) 7 in
  let year := u32 (1970 + Z.quot days 365) in
  let days := s32 (u32 (days - u32 (u32 ((year - 1970) * 365) +
                                    LEAPS_THRU_END_OF (u32 (year - 1)) -
                                    LEAPS_THRU_END_OF (1970 - 1)))) in
  let '(year, days) :=
    if days <? 0 then (u32 (year - 1), days + (365 + b2z (is_leap_year (u32 (year - 1)))))
    else (year, days) in
  let '(month, mdays) := month_loop 11 0 days year in
  let hour := s32 (time / 3600) in
  let time := u32 (time - u32 (hour * 3600)) in
  let min := s32 (time / 60) in
  mk_tm (s32 (u32 (time - u32 (min * 60)))) min hour (mdays + 1) (s32 month) (s32 (u32 (year - 1900)))
        wday (days + 1).

Definition rtc_valid_tm (tm : rtc_time) : Z :=
  if (tm_year tm <? 70) || (12 <=? u32 (tm_mon tm)) || (tm_mday tm <? 1) ||
     (rtc_month_days (u32 (tm_mon tm)) (u32 (tm_year tm + 1900)) <? tm_mday tm) ||
     (24 <=? u32 (tm_hour tm)) || (60 <=? u32 (tm_min tm)) || (60 <=? u32 (tm_sec tm))
  then -22 else 0.

(** ** kernel/time.c: mktime *)

Definition mktime (year mon day hour min sec : Z) : Z :=
  let mon := u32 (mon - 2) in
  let '(mon, year) := if s32 mon <=? 0 then (u32 (mon + 12), u32 (year - 1)) else (mon, year) in
  let days := u32 (u32 (year / 4 - year / 100 + year / 400 + u32 (367 * mon) / 12 + day) +
                   u32 (year * 365) - 719499) in
  u32 (u32 (u32 (days * 24 + hour) * 60 + min) * 60 + sec).

Definition rtc_tm_to_time (tm : rtc_time) : Z :=
  mktime (u32 (tm_year tm + 1900)) (u32 (tm_mon tm + 1)) (u32 (tm_mday tm)) (u32 (tm_hour tm))
         (u32 (tm_min tm)) (u32 (tm_sec tm)).

(** ** u-boot-1.1.6/rtc/date.c *)

Definition MonthOffset : list Z := [0; 31; 59; 90; 120; 151; 181; 212; 243; 273; 304; 334].

(** The day of the week of a date. *)
Definition GregorianDay (year mon mday : Z) : Z :=
  let lastYear := year - 1 in
  let leapsToDate := Z.quot lastYear 4 - Z.quot lastYear 100 + Z.quot lastYear 400 in
  let day := if (Z.rem year 4 =? 0) && (negb (Z.rem year 100 =? 0) || (Z.rem year 400 =? 0)) && (2 <? mon)
             then 1 else 0 in
  Z.rem (day + (lastYear * 365 + leapsToDate + elt MonthOffset (mon - 1) + mday)) 7.

Definition leapyear (year : Z) : bool := Z.rem year 4 =? 0.

Definition days_in_year (a : Z) : Z := if leapyear a then 366 else 365.

(** [month_days] with the entry of February as [to_tm] sets it. *)
Definition days_in_month (feb a : Z) : Z :=
  elt (<[1%nat := feb]> [31; 28; 31; 30; 31; 30; 31; 31; 30; 31; 30; 31]) (a - 1).

Fixpoint year_loop (fuel : nat) (i day : Z) : option (Z * Z) :=
  match fuel with
  | O => None
  | S fuel' =>
      if days_in_year i <=? day then year_loop fuel' (i + 1) (day - days_in_year i)
      else Some (i, day)
  end.

Fixpoint mon_loop (fuel : nat) (feb i day : Z) : option (Z * Z) :=
  match fuel with
  | O => None
  | S fuel' =>
      if days_in_month feb i <=? day then mon_loop fuel' feb (i + 1) (day - days_in_month feb i)
      else Some (i, day)
  end.

(** [None] when a loop runs out of fuel: 70 years and 12 months are enough for the
    dates an [int] can hold.  [tm_yday] is not written; 0 stands for it. *)
Definition to_tm (tim : Z) : option rtc_time :=
  let day := Z.quot tim 86400 in
  let hms := Z.rem tim 86400 in
  '(year, day) ← year_loop 70 1970 day;
  '(mon, day) ← mon_loop 12 (if leapyear year then 29 else 28) 1 day;
  Some (mk_tm (Z.rem (Z.rem hms 3600) 60) (Z.quot (Z.rem hms 3600) 60) (Z.quot hms 3600) (day + 1) mon year
              (GregorianDay year mon (day + 1)) 0).

(** [mktime] of the boot loader, on the [unsigned int]s it is called with. *)
Definition uboot_mktime (year mon day hour min sec : Z) : Z :=
  let mon := u32 (mon - 2) in
  let '(mon, year) := if s32 mon <=? 0 then (u32 (mon + 12), u32 (year - 1)) else (mon, year) in
  u32 (u32 (u32 (u32 (u32 (year / 4 - year / 100 + year / 400 + u32 (367 * mon) / 12 + day) +
                      u32 (year * 365) - 719499) * 24 + hour) * 60 + min) * 60 + sec).

(** ** Timespecs of kernel/time.c *)

Definition NSEC_PER_SEC : Z := 1000000000.

Record timespec := mk_ts { tv_sec : Z; tv_nsec : Z }.

Fixpoint normalize_down (fuel : nat) (sec nsec : Z) : option (Z * Z) :=
  match fuel with
  | O => None
  | S fuel' => if NSEC_PER_SEC <=? nsec then normalize_down fuel' (s32 (sec + 1)) (nsec - NSEC_PER_SEC)
               else Some (sec, nsec)
  end.

Fixpoint normalize_up (fuel : nat) (sec nsec : Z) : option (Z * Z) :=
  match fuel with
  | O => None
  | S fuel' => if nsec <? 0 then normalize_up fuel' (s32 (sec - 1)) (nsec + NSEC_PER_SEC)
               else Some (sec, nsec)
  end.

(** [nsec] is a 32-bit [long], so four rounds are enough. *)
Definition set_normalized_timespec (sec nsec : Z) : option timespec :=
  '(sec, nsec) ← normalize_down 4 sec nsec;
  '(sec, nsec) ← normalize_up 4 sec nsec;
  Some (mk_ts sec nsec).

Definition TIME_T_MAX : Z := 2 ^ 31 - 1.

(** A sum that overflows is replaced by the last second that can be represented. *)
Definition timespec_add_safe (lhs rhs : timespec) : option timespec :=
  res ← set_normalized_timespec (s32 (tv_sec lhs + tv_sec rhs)) (s32 (tv_nsec lhs + tv_nsec rhs));
  Some (if (tv_sec res <? tv_sec lhs) || (tv_sec res <? tv_sec rhs) then mk_ts TIME_T_MAX (tv_nsec res) else res).

(** lib/div64.c *)
Definition div_s64_rem (dividend divisor : Z) : Z * Z :=
  if dividend <? 0 then
    let quotient := u64 (- dividend) / Z.abs divisor in
    let rem := - (u64 (- dividend) mod Z.abs divisor) in
    (if 0 <? divisor then - quotient else quotient, rem)
  else
    let quotient := u64 dividend / Z.abs divisor in
    (if divisor <? 0 then - quotient else quotient, u64 dividend mod Z.abs divisor).

Definition ns_to_timespec (nsec : Z) : timespec :=
  if nsec =? 0 then mk_ts 0 0
  else
    let '(sec, rem) := div_s64_rem nsec NSEC_PER_SEC in
    if rem <? 0 then mk_ts (s32 (s32 sec - 1)) (rem + NSEC_PER_SEC) else mk_ts (s32 sec) rem.

(** [struct timeval] as a pair of seconds and microseconds. *)
Definition ns_to_timeval (nsec : Z) : Z * Z :=
  let ts := ns_to_timespec nsec in
  (tv_sec ts, Z.quot (tv_nsec ts) 1000).

(** [CONFIG_HZ] is 200 on this board. *)
Definition HZ : Z := 200.

Definition MAX_JIFFY_OFFSET : Z := Z.shiftr (2 ^ 31 - 1) 1 - 1.

Definition jiffies_to_msecs (j : Z) : Z := u32 (1000 / HZ * j).

Definition msecs_to_jiffies (m : Z) : Z :=
  if s32 m <? 0 then MAX_JIFFY_OFFSET else u32 (m + 1000 / HZ - 1) / (1000 / HZ).
