(* ===== verification/DatesFacts.v ===== *)
(** * Calendar conversions are inverse to each other *)

From S2P Require Import Prelude Dates.

Local Open Scope Z_scope.

(** ** Leap years *)

Lemma leap_step y :
  0 < y -> LEAPS_THRU_END_OF y = LEAPS_THRU_END_OF (y - 1) + b2z (is_leap_year y).
Proof.
  intros Hy. unfold LEAPS_THRU_END_OF, is_leap_year.
  destruct (Z.eqb_spec (y mod 4) 0), (Z.eqb_spec (y mod 100) 0), (Z.eqb_spec (y mod 400) 0);
    simpl; Z.div_mod_to_equations; lia.
Qed.

(** Days from 1970-01-01 to January 1 of year [y]. *)
Definition days_before (y : Z) : Z := (y - 1970) * 365 + LEAPS_THRU_END_OF (y - 1) - LEAPS_THRU_END_OF 1969.

Lemma days_before_step y : 1970 <= y -> days_before (y + 1) = days_before y + 365 + b2z (is_leap_year y).
Proof.
  intros Hy. unfold days_before. replace (y + 1 - 1) with y by lia. rewrite (leap_step y) by lia. lia.
Qed.

(** The year [rtc_time_to_tm] finds. *)
Definition year_split (d : Z) : Z * Z :=
  let y := 1970 + d / 365 in
  let r := d - days_before y in
  if r <? 0 then (y - 1, r + (365 + b2z (is_leap_year (y - 1)))) else (y, r).

Lemma year_split_spec d :
  0 <= d < 49711 ->
  let '(y, r) := year_split d in
  1970 <= y <= 2106 /\ d = days_before y + r /\ 0 <= r < 365 + b2z (is_leap_year y).
Proof.
  intros Hd. unfold year_split. set (q := d / 365).
  assert (0 <= q <= 136) by (unfold q; Z.div_mod_to_equations; lia).
  assert (0 <= d - 365 * q < 365) by (unfold q; Z.div_mod_to_equations; lia).
  destruct (Z.ltb_spec (d - days_before (1970 + q)) 0) as [Hneg|Hpos].
  - assert (q <> 0).
    { intros Hq. rewrite Hq in Hneg. change (days_before (1970 + 0)) with 0 in Hneg. lia. }
    replace (1970 + q) with (1970 + q - 1 + 1) in * by lia. set (y := 1970 + q - 1) in *.
    replace (y + 1 - 1) with y by lia.
    rewrite days_before_step in * by lia.
    split; [lia|]. split; [lia|]. split; [|lia].
    unfold days_before, LEAPS_THRU_END_OF in *. Z.div_mod_to_equations. lia.
  - split; [lia|]. split; [lia|]. split; [lia|].
    unfold days_before, LEAPS_THRU_END_OF in *.
    destruct (is_leap_year (1970 + q)); simpl; Z.div_mod_to_equations; lia.
Qed.

(** ** Months *)

(** Day of the year on which month [m] (0 to 11) starts. *)
Definition month_start (m : Z) (leap : bool) : Z :=
  elt [0; 31; 59; 90; 120; 151; 181; 212; 243; 273; 304; 334] m + b2z (leap && (2 <=? m)).

Definition month_len (m : Z) (leap : bool) : Z := elt rtc_days_in_month m + b2z (leap && (m =? 1)).

Lemma rtc_month_days_len m y : rtc_month_days m y = month_len m (is_leap_year y).
Proof. reflexivity. Qed.

(** The month loop as a function of the leap flag. *)
Fixpoint split_month (n : nat) (m d : Z) (leap : bool) : Z * Z :=
  match n with
  | O => (m, d)
  | S n' => if d - month_len m leap <? 0 then (m, d) else split_month n' (m + 1) (d - month_len m leap) leap
  end.

Lemma month_loop_split n m d y : month_loop n m d y = split_month n m d (is_leap_year y).
Proof. revert m d. induction n as [|n IH]; intros m d; simpl; [done|]. rewrite rtc_month_days_len. by rewrite IH. Qed.

(** The twelve months, one by one. *)
Ltac each_month m :=
  let H := fresh in
  assert (m = 0 \/ m = 1 \/ m = 2 \/ m = 3 \/ m = 4 \/ m = 5 \/ m = 6 \/ m = 7 \/ m = 8 \/ m = 9 \/
          m = 10 \/ m = 11) as H by lia;
  repeat destruct H as [H|H]; subst m.

Lemma month_start_step m leap :
  0 <= m <= 10 -> month_start (m + 1) leap = month_start m leap + month_len m leap.
Proof. intros Hm. each_month m; destruct leap; reflexivity || lia. Qed.

Lemma split_month_spec leap n : forall m d,
  Z.of_nat n = 11 - m -> 0 <= m -> 0 <= d -> month_start m leap + d < 365 + b2z leap ->
  let '(m', d') := split_month n m d leap in
  0 <= m' <= 11 /\ 0 <= d' < month_len m' leap /\ month_start m leap + d = month_start m' leap + d'.
Proof.
  induction n as [|n IH]; intros m d Hn Hm Hd Hlt; cbn [split_month].
  - assert (m = 11) by lia. subst m. split; [lia|]. split; [|done].
    assert (month_start 11 leap = 334 + b2z leap) by (by destruct leap).
    assert (month_len 11 leap = 31) by (by destruct leap). lia.
  - destruct (Z.ltb_spec (d - month_len m leap) 0); [lia|].
    pose proof (month_start_step m leap ltac:(lia)) as E.
    specialize (IH (m + 1) (d - month_len m leap) ltac:(lia) ltac:(lia) ltac:(lia) ltac:(lia)).
    destruct (split_month n (m + 1) _ leap) as [m' d']. lia.
Qed.

(** ** The kernel's conversions *)

(** The date of day [d], and the time of day of second [s]. *)
Definition civil (d s : Z) : rtc_time :=
  let '(y, r) := year_split d in
  let '(m, md) := split_month 11 0 r (is_leap_year y) in
  mk_tm (s mod 60) (s mod 3600 / 60) (s / 3600) (md + 1) m (y - 1900) ((d + 4) mod 7) (r + 1).

Lemma year_split_code d :
  0 <= d < 49711 ->
  let year := u32 (1970 + Z.quot d 365) in
  let days := s32 (u32 (d - u32 (u32 ((year - 1970) * 365) + LEAPS_THRU_END_OF (u32 (year - 1)) -
                                 LEAPS_THRU_END_OF (1970 - 1)))) in
  (if days <? 0 then (u32 (year - 1), days + (365 + b2z (is_leap_year (u32 (year - 1))))) else (year, days))
  = year_split d.
Proof.
  intros Hd year days. unfold year_split. rewrite <- Z.quot_div_nonneg by lia.
  assert (0 <= Z.quot d 365 <= 136) as Hq.
  { rewrite Z.quot_div_nonneg by lia. Z.div_mod_to_equations. lia. }
  assert (year = 1970 + Z.quot d 365) as Hy by (apply u32_small; lia).
  assert (days = d - days_before (1970 + Z.quot d 365)) as ->.
  { unfold days. rewrite s32_u32, Hy, (u32_small (1970 + Z.quot d 365 - 1)), (u32_small ((_ - 1970) * 365)) by lia.
    fold (days_before (1970 + Z.quot d 365)).
    rewrite Z.quot_div_nonneg in * by lia. unfold days_before, LEAPS_THRU_END_OF in *.
    rewrite u32_small by (Z.div_mod_to_equations; lia). apply s32_small. Z.div_mod_to_equations. lia. }
  rewrite Hy. by rewrite u32_small by lia.
Qed.

Lemma rtc_time_to_tm_civil t :
  in_w 32 t -> rtc_time_to_tm t = civil (t / 86400) (t mod 86400).
Proof.
  unfold in_w. intros Ht. unfold rtc_time_to_tm, civil.
  assert (0 <= t / 86400 < 49711) as Hd by (Z.div_mod_to_equations; lia).
  assert (0 <= t mod 86400 < 86400) as Hs by (apply Z.mod_pos_bound; lia).
  rewrite (s32_small (t / 86400)), !(u32_small (t / 86400)), (u32_small (t / 86400 * 86400))
    by (Z.div_mod_to_equations; lia).
  replace (t - t / 86400 * 86400) with (t mod 86400) by (Z.div_mod_to_equations; lia).
  rewrite (u32_small (t mod 86400)) by lia.
  set (d := t / 86400) in *. set (s := t mod 86400) in *.
  rewrite (year_split_code d Hd). pose proof (year_split_spec d Hd) as Hy.
  destruct (year_split d) as [y r]. destruct Hy as (Hy & _ & Hr).
  rewrite month_loop_split.
  pose proof (split_month_spec (is_leap_year y) 11 0 r ltac:(lia) ltac:(lia) ltac:(lia)) as Hm.
  change (month_start 0 (is_leap_year y)) with (0 + b2z (is_leap_year y && false)) in Hm.
  rewrite andb_false_r in Hm. specialize (Hm ltac:(simpl; lia)).
  destruct (split_month 11 0 r (is_leap_year y)) as [m md]. destruct Hm as (Hm & Hmd & _).
  assert (0 <= s / 3600 < 24) by (Z.div_mod_to_equations; lia).
  rewrite (s32_small (s / 3600)), (u32_small (s / 3600 * 3600)) by lia.
  replace (s - s / 3600 * 3600) with (s mod 3600) by (Z.div_mod_to_equations; lia).
  assert (0 <= s mod 3600 < 3600) by (apply Z.mod_pos_bound; lia).
  rewrite (u32_small (s mod 3600)) by lia.
  assert (0 <= s mod 3600 / 60 < 60) by (Z.div_mod_to_equations; lia).
  rewrite (s32_small (s mod 3600 / 60)), (u32_small (s mod 3600 / 60 * 60)) by lia.
  assert (s mod 3600 - s mod 3600 / 60 * 60 = s mod 60) as -> by (Z.div_mod_to_equations; lia).
  assert (0 <= s mod 60 < 60) by (apply Z.mod_pos_bound; lia).
  rewrite !s32_u32, (s32_small (s mod 60)), (s32_small m), (s32_small (y - 1900)), Z.rem_mod_nonneg by lia.
  done.
Qed.

(** The month table as [mktime] computes it, with the year starting in March. *)
Lemma month_start_formula m leap :
  0 <= m <= 11 ->
  month_start m leap =
  if m <? 2 then 367 * (m + 11) / 12 - 336 else 367 * (m - 1) / 12 + 29 + b2z leap.
Proof. intros Hm. each_month m; destruct leap; reflexivity. Qed.

(** [mktime] on a date with the days counted from the start of the year. *)
Lemma mktime_days y m md leap h mi s :
  1970 <= y <= 2106 -> 0 <= m <= 11 -> 0 <= md < 31 -> leap = is_leap_year y ->
  let t := ((days_before y + month_start m leap + md) * 24 + h) * 3600 + mi * 60 + s in
  0 <= h < 24 -> 0 <= mi < 60 -> 0 <= s < 60 -> 0 <= t < 2 ^ 32 ->
  mktime y (m + 1) (md + 1) h mi s = t.
Proof.
  intros Hy Hm Hmd Hleap t Hh Hmi Hs Ht. unfold mktime.
  pose proof (leap_step y ltac:(lia)) as Hstep. rewrite <- Hleap in Hstep.
  assert (exists mon' y', (mon' = m - 1 /\ y' = y /\ 2 <= m \/ mon' = m + 11 /\ y' = y - 1 /\ m < 2) /\
    (if s32 (u32 (m + 1 - 2)) <=? 0 then (u32 (u32 (m + 1 - 2) + 12), u32 (y - 1)) else (u32 (m + 1 - 2), y))
    = (mon', y') /\ LEAPS_THRU_END_OF y' + 367 * mon' / 12 + md + 1 + y' * 365 - 719499 =
    days_before y + month_start m leap + md) as (mon' & y' & Hcase & -> & Hdays).
  { rewrite s32_u32, (s32_small (m + 1 - 2)) by lia. destruct (Z.leb_spec (m + 1 - 2) 0).
    - exists (m + 11), (y - 1). split; [lia|]. split.
      + f_equal; [|apply u32_small; lia]. unfold u32, wrap. rewrite Zplus_mod_idemp_l, Z.mod_small; lia.
      + rewrite month_start_formula, (proj2 (Z.ltb_lt m 2)) by lia. unfold days_before.
        change (LEAPS_THRU_END_OF 1969) with 477. lia.
    - exists (m - 1), y. split; [lia|]. split; [f_equal; rewrite u32_small; lia|].
      rewrite month_start_formula, (proj2 (Z.ltb_ge m 2)) by lia. unfold days_before.
      change (LEAPS_THRU_END_OF 1969) with 477. lia. }
  fold (LEAPS_THRU_END_OF y').
  assert (0 <= LEAPS_THRU_END_OF y' <= 600) by (unfold LEAPS_THRU_END_OF; Z.div_mod_to_equations; lia).
  assert (0 <= 367 * mon' / 12 <= 400) by (Z.div_mod_to_equations; lia).
  rewrite (u32_small (367 * mon')), (u32_small (y' * 365)), (u32_small (_ + (md + 1))) by lia.
  replace (LEAPS_THRU_END_OF y' + 367 * mon' / 12 + (md + 1) + y' * 365 - 719499)
    with (days_before y + month_start m leap + md) by lia.
  set (days := days_before y + month_start m leap + md) in *.
  rewrite (u32_small days) by lia. rewrite (u32_small (days * 24 + h)) by lia.
  rewrite (u32_small ((days * 24 + h) * 60 + mi)), u32_small by lia. lia.
Qed.

(** What is known of the date of a second of the 32-bit clock. *)
Lemma civil_spec t :
  in_w 32 t ->
  exists y m md,
    let d := t / 86400 in
    let s := t mod 86400 in
    civil d s = mk_tm (s mod 60) (s mod 3600 / 60) (s / 3600) (md + 1) m (y - 1900) ((d + 4) mod 7)
                      (month_start m (is_leap_year y) + md + 1) /\
    1970 <= y <= 2106 /\ 0 <= m <= 11 /\ 0 <= md < month_len m (is_leap_year y) /\
    d = days_before y + month_start m (is_leap_year y) + md.
Proof.
  unfold in_w. intros Ht. assert (0 <= t / 86400 < 49711) as Hd by (Z.div_mod_to_equations; lia).
  unfold civil. pose proof (year_split_spec _ Hd) as Hy.
  destruct (year_split (t / 86400)) as [y r]. destruct Hy as (Hy & Hdy & Hr).
  pose proof (split_month_spec (is_leap_year y) 11 0 r ltac:(lia) ltac:(lia) ltac:(lia)) as Hm.
  change (month_start 0 (is_leap_year y)) with (0 + b2z (is_leap_year y && false)) in Hm.
  rewrite andb_false_r in Hm. specialize (Hm ltac:(simpl; lia)).
  destruct (split_month 11 0 r (is_leap_year y)) as [m md]. destruct Hm as (Hm & Hmd & Er).
  exists y, m, md. simpl in Er. cbv zeta. split; [f_equal; lia|]. lia.
Qed.

Lemma month_len_le m leap : 0 <= m <= 11 -> month_len m leap <= 31.
Proof. intros. each_month m; destruct leap; vm_compute; discriminate. Qed.

(** The parts of a day. *)
Lemma hms_split t :
  let s := t mod 86400 in
  0 <= s / 3600 < 24 /\ 0 <= s mod 3600 / 60 < 60 /\ 0 <= s mod 60 < 60 /\
  t = (t / 86400 * 24 + s / 3600) * 3600 + s mod 3600 / 60 * 60 + s mod 60.
Proof. cbv zeta. Z.div_mod_to_equations. lia. Qed.

Lemma rtc_roundtrip t :
  in_w 32 t ->
  rtc_tm_to_time (rtc_time_to_tm t) = t /\ rtc_valid_tm (rtc_time_to_tm t) = 0.
Proof.
  intros Ht. rewrite rtc_time_to_tm_civil by done.
  destruct (civil_spec t Ht) as (y & m & md & -> & Hy & Hm & Hmd & Hd).
  pose proof (month_len_le m (is_leap_year y) Hm) as Hlen.
  destruct (hms_split t) as (Hh & Hmi & Hs & Et). unfold in_w in Ht.
  unfold rtc_tm_to_time, rtc_valid_tm. cbn [tm_sec tm_min tm_hour tm_mday tm_mon tm_year].
  replace (y - 1900 + 1900) with y by lia. rewrite !u32_small by lia. split.
  - rewrite (mktime_days y m md (is_leap_year y)) by (done || rewrite <- ?Hd; lia).
    rewrite <- Hd. lia.
  - rewrite rtc_month_days_len.
    replace (y - 1900 <? 70) with false by lia. replace (12 <=? m) with false by lia.
    replace (md + 1 <? 1) with false by lia.
    replace (month_len m (is_leap_year y) <? md + 1) with false by lia.
    set (s := t mod 86400) in *.
    replace (24 <=? s / 3600) with false by lia. replace (60 <=? s mod 3600 / 60) with false by lia.
    replace (60 <=? s mod 60) with false by lia. done.
Qed.

(** ** The boot loader's conversions *)

Lemma LEAPS_mono y (n : nat) : 0 <= y -> LEAPS_THRU_END_OF y <= LEAPS_THRU_END_OF (y + Z.of_nat n).
Proof.
  intros Hy. induction n as [|n IH]; [by rewrite Z.add_0_r|].
  rewrite (leap_step (y + Z.of_nat (S n))) by lia.
  replace (y + Z.of_nat (S n) - 1) with (y + Z.of_nat n) by lia. destruct (is_leap_year _); simpl; lia.
Qed.

(** The year of a day is unique. *)
Lemma year_unique y r y' r' :
  1970 <= y -> 1970 <= y' -> days_before y + r = days_before y' + r' ->
  0 <= r < 365 + b2z (is_leap_year y) -> 0 <= r' < 365 + b2z (is_leap_year y') -> y = y' /\ r = r'.
Proof.
  assert (forall a b, 1970 <= a < b -> days_before a + 365 + b2z (is_leap_year a) <= days_before b) as Hmono.
  { intros a b Hab. rewrite <- days_before_step by lia. unfold days_before.
    pose proof (LEAPS_mono (a + 1 - 1) (Z.to_nat (b - 1 - a)) ltac:(lia)) as H.
    replace (a + 1 - 1 + Z.of_nat (Z.to_nat (b - 1 - a))) with (b - 1) in H by lia. lia. }
  intros Hy Hy' E Hr Hr'. destruct (Z.lt_trichotomy y y') as [Hlt|[->|Hlt]].
  - specialize (Hmono y y' ltac:(lia)). lia.
  - lia.
  - specialize (Hmono y' y ltac:(lia)). lia.
Qed.

(** Until 2099 every fourth year is a leap year. *)
Lemma leapyear_is_leap y : 1970 <= y < 2100 -> leapyear y = is_leap_year y.
Proof.
  intros Hy. unfold leapyear, is_leap_year. rewrite Z.rem_mod_nonneg by lia.
  destruct (Z.eqb_spec (y mod 4) 0), (Z.eqb_spec (y mod 100) 0), (Z.eqb_spec (y mod 400) 0);
    simpl; try done; Z.div_mod_to_equations; lia.
Qed.

Lemma days_in_year_leap y : 1970 <= y < 2100 -> days_in_year y = 365 + b2z (is_leap_year y).
Proof. intros. unfold days_in_year. rewrite leapyear_is_leap by done. by case_match. Qed.

Lemma year_loop_spec fuel : forall i d,
  1970 <= i -> i + Z.of_nat fuel <= 2100 -> 0 <= d < 365 * (Z.of_nat fuel) ->
  exists y r, year_loop fuel i d = Some (y, r) /\ i <= y < 2100 /\
    days_before i + d = days_before y + r /\ 0 <= r < 365 + b2z (is_leap_year y).
Proof.
  induction fuel as [|fuel IH]; intros i d Hi Hf Hd; [lia|]. cbn [year_loop].
  rewrite days_in_year_leap by lia.
  destruct (Z.leb_spec (365 + b2z (is_leap_year i)) d) as [Hle|Hgt].
  - destruct (IH (i + 1) (d - (365 + b2z (is_leap_year i)))) as (y & r & -> & Hy & E & Hr); [lia..| |].
    + destruct (is_leap_year i); simpl in *; lia.
    + exists y, r. split; [done|]. rewrite days_before_step in E by lia. lia.
  - exists i, d. split; [done|]. lia.
Qed.

Lemma days_in_month_len leap m :
  0 <= m <= 11 -> days_in_month (if leap : bool then 29 else 28) (m + 1) = month_len m leap.
Proof. intros Hm. each_month m; destruct leap; reflexivity. Qed.

Lemma mon_loop_split leap n : forall m d,
  Z.of_nat n = 11 - m -> 0 <= m -> 0 <= d -> month_start m leap + d < 365 + b2z leap ->
  mon_loop (S n) (if leap : bool then 29 else 28) (m + 1) d =
  let '(m', d') := split_month n m d leap in Some (m' + 1, d').
Proof.
  induction n as [|n IH]; intros m d Hn Hm Hd Hlt.
  - assert (m = 11) by lia. subst m. cbn [mon_loop split_month].
    rewrite days_in_month_len by lia.
    assert (month_start 11 leap = 334 + b2z leap) by (by destruct leap).
    assert (month_len 11 leap = 31) by (by destruct leap).
    by rewrite (proj2 (Z.leb_gt _ _)) by lia.
  - cbn [split_month]. change (mon_loop (S (S n)) ?f ?i ?d) with
      (if days_in_month f i <=? d then mon_loop (S n) f (i + 1) (d - days_in_month f i) else Some (i, d)).
    rewrite days_in_month_len by lia.
    pose proof (month_start_step m leap ltac:(lia)) as E.
    destruct (Z.leb_spec (month_len m leap) d), (Z.ltb_spec (d - month_len m leap) 0); try lia; [|done].
    apply IH; lia.
Qed.

(** The day of the week counted from year 1 and from 1970 is the same. *)
Lemma GregorianDay_spec y m md :
  1970 <= y <= 2106 -> 0 <= m <= 11 -> 0 <= md ->
  GregorianDay y (m + 1) (md + 1) =
  (days_before y + month_start m (is_leap_year y) + md + 4) mod 7.
Proof.
  intros Hy Hm Hmd. unfold GregorianDay. rewrite !Z.quot_div_nonneg, !Z.rem_mod_nonneg; try lia.
  - fold (LEAPS_THRU_END_OF (y - 1)).
    assert ((y mod 4 =? 0) && (negb (y mod 100 =? 0) || (y mod 400 =? 0)) = is_leap_year y) as ->.
    { unfold is_leap_year.
      destruct (Z.eqb_spec (y mod 4) 0), (Z.eqb_spec (y mod 100) 0), (Z.eqb_spec (y mod 400) 0);
        simpl; try done; Z.div_mod_to_equations; lia. }
    unfold days_before, month_start, MonthOffset. replace (m + 1 - 1) with m by lia.
    change (LEAPS_THRU_END_OF 1969) with 477.
    replace (2 <? m + 1) with (2 <=? m) by lia. set (mo := elt _ m).
    replace (if is_leap_year y && (2 <=? m) then 1 else 0) with (b2z (is_leap_year y && (2 <=? m))) by done.
    set (b := b2z _).
    replace (b + ((y - 1) * 365 + LEAPS_THRU_END_OF (y - 1) + mo + (md + 1)))
      with ((y - 1970) * 365 + LEAPS_THRU_END_OF (y - 1) - 477 + (mo + b) + md + 4 + 102737 * 7) by lia.
    apply Z_mod_plus_full.
  - assert (0 <= LEAPS_THRU_END_OF (y - 1)) by (unfold LEAPS_THRU_END_OF; Z.div_mod_to_equations; lia).
    fold (LEAPS_THRU_END_OF (y - 1)).
    assert (0 <= elt MonthOffset (m + 1 - 1)) by (each_month m; vm_compute; discriminate).
    destruct (_ && _); lia.
Qed.

(** The two copies of mktime are the same function. *)
Lemma uboot_mktime_eq year mon day hour min sec :
  uboot_mktime year mon day hour min sec = mktime year mon day hour min sec.
Proof. reflexivity. Qed.

(** A date of the kernel in the boot loader's conventions: months from 1, years from 0. *)
Definition boot_tm (k : rtc_time) : rtc_time :=
  mk_tm (tm_sec k) (tm_min k) (tm_hour k) (tm_mday k) (tm_mon k + 1) (tm_year k + 1900) (tm_wday k) 0.

Lemma boot_tm_mktime k :
  uboot_mktime (u32 (tm_year (boot_tm k))) (u32 (tm_mon (boot_tm k))) (u32 (tm_mday (boot_tm k)))
               (u32 (tm_hour (boot_tm k))) (u32 (tm_min (boot_tm k))) (u32 (tm_sec (boot_tm k))) =
  rtc_tm_to_time k.
Proof. rewrite uboot_mktime_eq. destruct k. reflexivity. Qed.

Lemma to_tm_rtc t :
  0 <= t < 2 ^ 31 ->
  to_tm t = Some (boot_tm (rtc_time_to_tm t)).
Proof.
  intros Ht. unfold boot_tm. rewrite rtc_time_to_tm_civil by (unfold in_w; lia).
  unfold to_tm, civil. rewrite (Z.quot_div_nonneg t 86400), !(Z.rem_mod_nonneg t 86400) by lia.
  assert (0 <= t / 86400 < 365 * 70) by (Z.div_mod_to_equations; lia).
  destruct (year_loop_spec 70 1970 (t / 86400)) as (y & r & E & Hy & Ed & Hr); [lia..|].
  rewrite E. cbn [mbind option_bind]. change (days_before 1970) with 0 in Ed.
  pose proof (year_split_spec (t / 86400) ltac:(lia)) as Hs.
  destruct (year_split (t / 86400)) as [y' r']. destruct Hs as (Hy' & Ed' & Hr').
  destruct (year_unique y r y' r') as [-> ->]; [lia..|]. rewrite leapyear_is_leap by lia.
  pose proof (mon_loop_split (is_leap_year y') 11 0 r' ltac:(lia) ltac:(lia) ltac:(lia)) as Em.
  pose proof (split_month_spec (is_leap_year y') 11 0 r' ltac:(lia) ltac:(lia) ltac:(lia)) as Hm.
  change (month_start 0 (is_leap_year y')) with (0 + b2z (is_leap_year y' && false)) in Em, Hm.
  rewrite andb_false_r in Em, Hm. cbn [b2z] in Em, Hm.
  specialize (Em ltac:(lia)). specialize (Hm ltac:(lia)). change (0 + 1) with 1 in Em. rewrite Em.
  destruct (split_month 11 0 r' (is_leap_year y')) as [m md]. destruct Hm as (Hm & Hmd & Er).
  cbn [mbind option_bind tm_sec tm_min tm_hour tm_mday tm_mon tm_year tm_wday].
  assert (0 <= t mod 86400 < 86400) by (apply Z.mod_pos_bound; lia).
  set (s := t mod 86400) in *. assert (0 <= s mod 3600 < 3600) by (apply Z.mod_pos_bound; lia).
  rewrite !(Z.rem_mod_nonneg s 3600), (Z.rem_mod_nonneg (s mod 3600) 60), !Z.quot_div_nonneg by lia.
  rewrite GregorianDay_spec by lia. f_equal. f_equal; [|lia|].
  - Z.div_mod_to_equations. lia.
  - f_equal. lia.
Qed.

(** C30: For every unsigned 32-bit number of seconds, rtc_time_to_tm gives a date that rtc_valid_tm
    accepts and that rtc_tm_to_time converts back to the same number; when it is a non-negative
    int, the loops of the boot loader's to_tm end and give the same date up to the conventions
    for months and years, and the boot loader's mktime converts it back. *)
Theorem rtc_time_roundtrip t :
  in_w 32 t ->
  rtc_tm_to_time (rtc_time_to_tm t) = t /\ rtc_valid_tm (rtc_time_to_tm t) = 0 /\
  (t < 2 ^ 31 -> exists tm,
    to_tm t = Some tm /\ tm = boot_tm (rtc_time_to_tm t) /\
    uboot_mktime (u32 (tm_year tm)) (u32 (tm_mon tm)) (u32 (tm_mday tm)) (u32 (tm_hour tm)) (u32 (tm_min tm))
                 (u32 (tm_sec tm)) = t).
Proof.
  intros Ht. destruct (rtc_roundtrip t Ht) as [Hr Hv]. split_and!; [done..|]. intros H31. unfold in_w in Ht.
  exists (boot_tm (rtc_time_to_tm t)). split; [apply to_tm_rtc; lia|]. split; [reflexivity|]. by rewrite boot_tm_mktime.
Qed.

Lemma rtc_time_roundtrip_witness :
  rtc_tm_to_time (rtc_time_to_tm 951782400) = 951782400 /\ rtc_valid_tm (rtc_time_to_tm 951782400) = 0 /\
  to_tm 951782400 = Some (boot_tm (rtc_time_to_tm 951782400)).
Proof.
  destruct (rtc_time_roundtrip 951782400) as (H1 & H2 & H3); [unfold in_w; lia|].
  split; [exact H1|]. split; [exact H2|]. destruct H3 as (tm & E & -> & _); [lia|]. exact E.
Defined.

(** ** Timespecs *)

Definition ts_normal (ts : timespec) : Prop := 0 <= tv_nsec ts < NSEC_PER_SEC.

Definition ts_total (ts : timespec) : Z := tv_sec ts * NSEC_PER_SEC + tv_nsec ts.

(** The second [sec] and as many seconds as [nsec] has, at the width of [time_t]. *)
Definition carried (sec nsec : Z) : Z := s32 (sec + nsec / NSEC_PER_SEC).

Lemma carried_step sec nsec d : carried (s32 (sec + d)) (nsec - d * NSEC_PER_SEC) = carried sec nsec.
Proof.
  unfold carried, NSEC_PER_SEC. replace (nsec - d * 1000000000) with (nsec + - d * 1000000000) by lia.
  rewrite Z.div_add, s32_add_l by lia. f_equal. lia.
Qed.

Lemma normalize_down_spec fuel : forall sec nsec,
  - 2 ^ 31 <= sec < 2 ^ 31 -> nsec < Z.of_nat fuel * NSEC_PER_SEC -> (0 < fuel)%nat ->
  exists sec' nsec', normalize_down fuel sec nsec = Some (sec', nsec') /\ - 2 ^ 31 <= sec' < 2 ^ 31 /\
    carried sec' nsec' = carried sec nsec /\ nsec' mod NSEC_PER_SEC = nsec mod NSEC_PER_SEC /\
    Z.min 0 nsec <= nsec' < NSEC_PER_SEC.
Proof.
  induction fuel as [|fuel IH]; intros sec nsec Hs H Hf; cbn [normalize_down]; [unfold NSEC_PER_SEC in *; lia|].
  destruct (Z.leb_spec NSEC_PER_SEC nsec) as [Hge|].
  - destruct (decide (fuel = 0)%nat) as [->|]; [unfold NSEC_PER_SEC in *; lia|].
    destruct (IH (s32 (sec + 1)) (nsec - NSEC_PER_SEC)) as (sec' & nsec' & -> & ? & E & Em & ?);
      [apply s32_range|unfold NSEC_PER_SEC in *; lia..|].
    exists sec', nsec'. split; [done|]. split; [done|]. rewrite E, Em, <- (carried_step sec nsec 1), Z.mul_1_l. split; [done|].
    unfold NSEC_PER_SEC in *. split; [Z.div_mod_to_equations; lia|lia].
  - exists sec, nsec. split_and!; done || lia.
Qed.

Lemma normalize_up_spec fuel : forall sec nsec,
  - 2 ^ 31 <= sec < 2 ^ 31 -> - (Z.of_nat fuel - 1) * NSEC_PER_SEC <= nsec < NSEC_PER_SEC -> (0 < fuel)%nat ->
  normalize_up fuel sec nsec = Some (carried sec nsec, nsec mod NSEC_PER_SEC).
Proof.
  induction fuel as [|fuel IH]; intros sec nsec Hs H Hf; cbn [normalize_up]; [lia|].
  destruct (Z.ltb_spec nsec 0).
  - destruct (decide (fuel = 0)%nat) as [->|]; [unfold NSEC_PER_SEC in *; lia|].
    rewrite IH; [|apply s32_range|unfold NSEC_PER_SEC in *; lia..]. rewrite <- (carried_step sec nsec (-1)).
    replace (nsec - -1 * NSEC_PER_SEC) with (nsec + 1 * NSEC_PER_SEC) by lia. rewrite <- (Z.mod_add nsec 1) by (unfold NSEC_PER_SEC; lia).
    by rewrite Z.mul_1_l.
  - unfold carried, NSEC_PER_SEC in *. rewrite Z.div_small, Z.mod_small, Z.add_0_r, s32_small by lia. done.
Qed.

Lemma set_normalized_spec sec nsec : - 2 ^ 31 <= sec < 2 ^ 31 -> - 2 ^ 31 <= nsec < 2 ^ 31 ->
  set_normalized_timespec sec nsec = Some (mk_ts (carried sec nsec) (nsec mod NSEC_PER_SEC)).
Proof.
  intros Hs Hn. unfold set_normalized_timespec.
  destruct (normalize_down_spec 4 sec nsec) as (s1 & n1 & -> & R & E & Em & Hb); [done|unfold NSEC_PER_SEC; lia|lia|].
  cbn [mbind option_bind]. rewrite normalize_up_spec by (unfold NSEC_PER_SEC in *; lia). by rewrite E, Em.
Qed.

(** The time of a number of nanoseconds. *)
Lemma ns_to_timespec_spec ns : - 2 ^ 63 < ns < 2 ^ 63 ->
  ns_to_timespec ns = mk_ts (s32 (ns / NSEC_PER_SEC)) (ns mod NSEC_PER_SEC).
Proof.
  intros Hns. unfold ns_to_timespec, NSEC_PER_SEC in *. destruct (Z.eqb_spec ns 0) as [->|Hnz]; [done|].
  unfold div_s64_rem. change (Z.abs 1000000000) with 1000000000. cbn [Z.ltb Z.compare].
  destruct (Z.ltb_spec ns 0).
  - replace (u64 (- ns)) with (- ns) by (symmetry; apply wrap_small; unfold in_w; lia).
    destruct (Z.ltb_spec (- (- ns mod 1000000000)) 0); [unfold Z.sub; rewrite s32_add_l|]; (f_equal; [f_equal|]); Z.div_mod_to_equations; lia.
  - replace (u64 ns) with ns by (symmetry; apply wrap_small; unfold in_w; lia).
    destruct (Z.ltb_spec (ns mod 1000000000) 0); [Z.div_mod_to_equations; lia|done].
Qed.

(** A sum of valid times, saturated. *)
Lemma timespec_add_spec lhs rhs :
  0 <= tv_sec lhs < 2 ^ 31 -> 0 <= tv_sec rhs < 2 ^ 31 -> ts_normal lhs -> ts_normal rhs ->
  let total := ts_total lhs + ts_total rhs in
  timespec_add_safe lhs rhs = Some (mk_ts (Z.min (total / NSEC_PER_SEC) TIME_T_MAX) (total mod NSEC_PER_SEC)).
Proof.
  intros Hl Hr Nl Nr total. unfold timespec_add_safe, ts_normal, ts_total, TIME_T_MAX in *.
  rewrite set_normalized_spec by apply s32_range. cbn [mbind option_bind tv_sec tv_nsec].
  rewrite (s32_small (tv_nsec lhs + tv_nsec rhs)) by (unfold NSEC_PER_SEC in *; lia). unfold carried. rewrite s32_add_l.
  set (n := tv_nsec lhs + tv_nsec rhs).
  replace total with (n + (tv_sec lhs + tv_sec rhs) * NSEC_PER_SEC) by (unfold total, n, ts_total; lia).
  rewrite Z.mod_add, Z.div_add, (Z.add_comm (n / _)) by (unfold NSEC_PER_SEC; lia).
  assert (0 <= n / NSEC_PER_SEC <= 1) as Hc by (unfold n, NSEC_PER_SEC in *; Z.div_mod_to_equations; lia).
  set (t := tv_sec lhs + tv_sec rhs + n / NSEC_PER_SEC). destruct (decide (t < 2 ^ 31)).
  - rewrite s32_small by lia. rewrite !(proj2 (Z.ltb_ge _ _)) by lia. cbn [orb]. f_equal. f_equal. lia.
  - assert (s32 t < 0) as Hneg.
    { unfold s32. replace (t + 2 ^ 31) with (t - 2 ^ 31 + 1 * 2 ^ 32) by lia. rewrite Z.mod_add, Z.mod_small by lia. lia. }
    rewrite (proj2 (Z.ltb_lt _ _)) by lia. cbn [orb]. f_equal. f_equal. lia.
Qed.

(** C40: With 32-bit seconds that wrap around: the two loops of set_normalized_timespec end, and
    they and ns_to_timespec give a timespec whose nanoseconds are in [0, 10^9), which denotes
    the same instant whenever its seconds fit in an int. timespec_add_safe of two times that are
    not negative gives their sum when it fits, and otherwise the largest number of seconds. *)
Theorem timespec_normalized sec nsec ns lhs rhs :
  - 2 ^ 31 <= sec < 2 ^ 31 -> - 2 ^ 31 <= nsec < 2 ^ 31 -> - 2 ^ 63 < ns < 2 ^ 63 ->
  0 <= tv_sec lhs < 2 ^ 31 -> 0 <= tv_sec rhs < 2 ^ 31 -> ts_normal lhs -> ts_normal rhs ->
  (exists ts, set_normalized_timespec sec nsec = Some ts /\ ts_normal ts /\
     (- 2 ^ 31 <= sec + nsec / NSEC_PER_SEC < 2 ^ 31 -> ts_total ts = sec * NSEC_PER_SEC + nsec)) /\
  (ts_normal (ns_to_timespec ns) /\
   (- 2 ^ 31 * NSEC_PER_SEC <= ns < 2 ^ 31 * NSEC_PER_SEC -> ts_total (ns_to_timespec ns) = ns)) /\
  exists ts, timespec_add_safe lhs rhs = Some ts /\ ts_normal ts /\
    if ts_total lhs + ts_total rhs <? 2 ^ 31 * NSEC_PER_SEC then ts_total ts = ts_total lhs + ts_total rhs
    else tv_sec ts = TIME_T_MAX.
Proof.
  intros Hs Hn Hns Hl Hr Nl Nr. rewrite set_normalized_spec, ns_to_timespec_spec, timespec_add_spec by done.
  unfold ts_normal, ts_total in *. cbn [tv_sec tv_nsec]. unfold carried, TIME_T_MAX, NSEC_PER_SEC in *. split; [|split].
  - eexists. split; [done|]. cbn [tv_sec tv_nsec]. split; [apply Z.mod_pos_bound; lia|]. intros H. rewrite s32_small by done.
    Z.div_mod_to_equations; lia.
  - split; [apply Z.mod_pos_bound; lia|]. intros H. rewrite s32_small by (Z.div_mod_to_equations; lia). Z.div_mod_to_equations; lia.
  - eexists. split; [done|]. cbn [tv_sec tv_nsec]. split; [apply Z.mod_pos_bound; lia|].
    destruct (Z.ltb_spec (tv_sec lhs * 1000000000 + tv_nsec lhs + (tv_sec rhs * 1000000000 + tv_nsec rhs)) (2 ^ 31 * 1000000000)).
    + rewrite Z.min_l; Z.div_mod_to_equations; lia.
    + rewrite Z.min_r; Z.div_mod_to_equations; lia.
Qed.

Lemma timespec_normalized_witness :
  (exists ts, set_normalized_timespec 5 (-1500000000) = Some ts /\ ts_normal ts /\
     ts_total ts = 5 * NSEC_PER_SEC + (-1500000000)) /\
  ts_total (ns_to_timespec (-1)) = -1 /\
  exists ts, timespec_add_safe (mk_ts 2147483647 600000000) (mk_ts 1 700000000) = Some ts /\ tv_sec ts = TIME_T_MAX.
Proof.
  destruct (timespec_normalized 5 (-1500000000) (-1) (mk_ts 2147483647 600000000) (mk_ts 1 700000000))
    as ((ts & E & N & T) & (_ & T2) & ts3 & E3 & _ & T3); unfold ts_normal, NSEC_PER_SEC; simpl tv_sec; simpl tv_nsec; try lia.
  split; [exists ts; split; [exact E|]; split; [exact N|]; apply T; vm_compute; split; congruence|].
  split; [apply T2; unfold NSEC_PER_SEC; lia|]. exists ts3. split; [exact E3|exact T3].
Defined.
