(* ===== verification/Rbtree.v ===== *)
(** * lib/rbtree.c and include/linux/rbtree.h: red-black trees

    The code, statement by statement, in a state monad over the memory that holds
    the tree nodes and the [rb_root].  Pointers are addresses, NULL is 0, and the
    colour of a node is the lowest bit of [rb_parent_color].  Reading or writing an
    address that holds no node is a fault ([None]), and so is exhausted fuel of a
    loop. *)

From S2P Require Import Prelude.
From stdpp Require Export gmap.

Local Open Scope Z_scope.

Record rb_node := mk_node { rb_parent_color : Z; rb_right : Z; rb_left : Z }.

(** The memory with the nodes and the single root. *)
Record st := mk_st { nodes_mem : gmap Z rb_node; root_node : Z }.

(** ** The monad *)

Definition M (A : Type) : Type := st -> option (A * st).

Definition ret {A} (a : A) : M A := fun s => Some (a, s).

Definition bind {A B} (m : M A) (k : A -> M B) : M B :=
  fun s => match m s with Some (a, s') => k a s' | None => None end.

Declare Scope rb_scope.
Delimit Scope rb_scope with rb.
Notation "x <- m ;; k" := (bind m (fun x => k)) (at level 60, m at next level, right associativity) : rb_scope.
Notation "m ;;; k" := (bind m (fun _ => k)) (at level 60, right associativity) : rb_scope.
Local Open Scope rb_scope.

Definition fail {A} : M A := fun _ => None.

Definition load_node (p : Z) : M rb_node :=
  fun s => match nodes_mem s !! p with Some n => Some (n, s) | None => None end.

Definition update (p : Z) (f : rb_node -> rb_node) : M unit :=
  fun s => match nodes_mem s !! p with
           | Some n => Some (tt, mk_st (<[p := f n]> (nodes_mem s)) (root_node s))
           | None => None
           end.

Definition get_root : M Z := fun s => Some (root_node s, s).

Definition set_root (p : Z) : M unit := fun s => Some (tt, mk_st (nodes_mem s) p).

(** ** Field access *)

Definition get_left (p : Z) : M Z := n <- load_node p ;; ret (rb_left n).

Definition get_right (p : Z) : M Z := n <- load_node p ;; ret (rb_right n).

Definition set_left (p v : Z) : M unit :=
  update p (fun n => mk_node (rb_parent_color n) (rb_right n) v).

Definition set_right (p v : Z) : M unit :=
  update p (fun n => mk_node (rb_parent_color n) v (rb_left n)).

Definition set_parent_color (p v : Z) : M unit := update p (fun n => mk_node v (rb_right n) (rb_left n)).

(** The macros of rbtree.h. *)
Definition RB_RED : Z := 0.
Definition RB_BLACK : Z := 1.

Definition rb_parent (r : Z) : M Z := n <- load_node r ;; ret (Z.land (rb_parent_color n) (Z.lnot 3)).

Definition rb_color (r : Z) : M Z := n <- load_node r ;; ret (Z.land (rb_parent_color n) 1).

Definition rb_is_red (r : Z) : M bool := c <- rb_color r ;; ret (negb (truthy c)).

Definition rb_is_black (r : Z) : M bool := c <- rb_color r ;; ret (truthy c).

Definition rb_set_red (r : Z) : M unit :=
  update r (fun n => mk_node (Z.land (rb_parent_color n) (Z.lnot 1)) (rb_right n) (rb_left n)).

Definition rb_set_black (r : Z) : M unit :=
  update r (fun n => mk_node (Z.lor (rb_parent_color n) 1) (rb_right n) (rb_left n)).

Definition rb_set_parent (rb p : Z) : M unit :=
  update rb (fun n => mk_node (Z.lor (Z.land (rb_parent_color n) 3) p) (rb_right n) (rb_left n)).

Definition rb_set_color (rb color : Z) : M unit :=
  update rb (fun n => mk_node (Z.lor (Z.land (rb_parent_color n) (Z.lnot 1)) color) (rb_right n) (rb_left n)).

(** [p && red(p)] and [!p || black(p)]. *)
Definition red_node (p : Z) : M bool := if p =? 0 then ret false else rb_is_red p.

Definition black_or_null (p : Z) : M bool := if p =? 0 then ret true else rb_is_black p.

(** [rb_link] is the root, the left or the right field of a node. *)
Inductive link := LinkRoot | LinkLeft (p : Z) | LinkRight (p : Z).

Definition set_link (l : link) (v : Z) : M unit :=
  match l with LinkRoot => set_root v | LinkLeft p => set_left p v | LinkRight p => set_right p v end.

Definition rb_link_node (node parent : Z) (rb_link : link) : M unit :=
  set_parent_color node parent ;;;
  set_right node 0 ;;;
  set_left node 0 ;;;
  set_link rb_link node.

(** ** Rotations *)

Definition __rb_rotate_left (node : Z) : M unit :=
  right <- get_right node ;;
  parent <- rb_parent node ;;
  rl <- get_left right ;;
  set_right node rl ;;;
  (if truthy rl then (rl <- get_left right ;; rb_set_parent rl node) else ret tt) ;;;
  set_left right node ;;;
  rb_set_parent right parent ;;;
  (if truthy parent then
     (pl <- get_left parent ;;
      if node =? pl then set_left parent right else set_right parent right)
   else set_root right) ;;;
  rb_set_parent node right.

Definition __rb_rotate_right (node : Z) : M unit :=
  left <- get_left node ;;
  parent <- rb_parent node ;;
  lr <- get_right left ;;
  set_left node lr ;;;
  (if truthy lr then (lr <- get_right left ;; rb_set_parent lr node) else ret tt) ;;;
  set_right left node ;;;
  rb_set_parent left parent ;;;
  (if truthy parent then
     (pr <- get_right parent ;;
      if node =? pr then set_right parent left else set_left parent left)
   else set_root left) ;;;
  rb_set_parent node left.

(** ** Insertion *)

(** The loop of [rb_insert_color]. *)
Fixpoint insert_loop (fuel : nat) (node : Z) : M unit :=
  match fuel with
  | O => fail
  | S fuel' =>
      parent <- rb_parent node ;;
      red <- red_node parent ;;
      if negb red then ret tt
      else
        gparent <- rb_parent parent ;;
        gl <- get_left gparent ;;
        if parent =? gl then
          uncle <- get_right gparent ;;
          ured <- red_node uncle ;;
          if (ured : bool) then
            rb_set_black uncle ;;;
            rb_set_black parent ;;;
            rb_set_red gparent ;;;
            insert_loop fuel' gparent
          else
            pr <- get_right parent ;;
            np <- (if pr =? node then __rb_rotate_left parent ;;; ret (parent, node)
                   else ret (node, parent)) ;;
            let '(node, parent) := np in
            rb_set_black parent ;;;
            rb_set_red gparent ;;;
            __rb_rotate_right gparent ;;;
            insert_loop fuel' node
        else
          uncle <- get_left gparent ;;
          ured <- red_node uncle ;;
          if (ured : bool) then
            rb_set_black uncle ;;;
            rb_set_black parent ;;;
            rb_set_red gparent ;;;
            insert_loop fuel' gparent
          else
            pl <- get_left parent ;;
            np <- (if pl =? node then __rb_rotate_right parent ;;; ret (parent, node)
                   else ret (node, parent)) ;;
            let '(node, parent) := np in
            rb_set_black parent ;;;
            rb_set_red gparent ;;;
            __rb_rotate_left gparent ;;;
            insert_loop fuel' node
  end.

Definition rb_insert_color (fuel : nat) (node : Z) : M unit :=
  insert_loop fuel node ;;;
  r <- get_root ;;
  rb_set_black r.

(** ** Removal *)

(** The loop of [__rb_erase_color]; returns the final [node]. *)
Fixpoint erase_loop (fuel : nat) (node parent : Z) : M Z :=
  match fuel with
  | O => fail
  | S fuel' =>
      black <- black_or_null node ;;
      root <- get_root ;;
      if negb (black && negb (node =? root)) then ret node
      else
        pl <- get_left parent ;;
        if pl =? node then
          other <- get_right parent ;;
          ored <- rb_is_red other ;;
          other <- (if (ored : bool) then
                      rb_set_black other ;;;
                      rb_set_red parent ;;;
                      __rb_rotate_left parent ;;;
                      get_right parent
                    else ret other) ;;
          ol <- get_left other ;;
          olb <- black_or_null ol ;;
          or <- get_right other ;;
          orb <- black_or_null or ;;
          if olb && orb then
            rb_set_red other ;;;
            parent' <- rb_parent parent ;;
            erase_loop fuel' parent parent'
          else
            other <- (if (orb : bool) then
                        ol <- get_left other ;;
                        rb_set_black ol ;;;
                        rb_set_red other ;;;
                        __rb_rotate_right other ;;;
                        get_right parent
                      else ret other) ;;
            pc <- rb_color parent ;;
            rb_set_color other pc ;;;
            rb_set_black parent ;;;
            or <- get_right other ;;
            rb_set_black or ;;;
            __rb_rotate_left parent ;;;
            get_root
        else
          other <- get_left parent ;;
          ored <- rb_is_red other ;;
          other <- (if (ored : bool) then
                      rb_set_black other ;;;
                      rb_set_red parent ;;;
                      __rb_rotate_right parent ;;;
                      get_left parent
                    else ret other) ;;
          ol <- get_left other ;;
          olb <- black_or_null ol ;;
          or <- get_right other ;;
          orb <- black_or_null or ;;
          if olb && orb then
            rb_set_red other ;;;
            parent' <- rb_parent parent ;;
            erase_loop fuel' parent parent'
          else
            other <- (if (olb : bool) then
                        or <- get_right other ;;
                        rb_set_black or ;;;
                        rb_set_red other ;;;
                        __rb_rotate_left other ;;;
                        get_left parent
                      else ret other) ;;
            pc <- rb_color parent ;;
            rb_set_color other pc ;;;
            rb_set_black parent ;;;
            ol <- get_left other ;;
            rb_set_black ol ;;;
            __rb_rotate_right parent ;;;
            get_root
  end.

Definition __rb_erase_color (fuel : nat) (node parent : Z) : M unit :=
  node <- erase_loop fuel node parent ;;
  if truthy node then rb_set_black node else ret tt.

(** Follow the left, or the right, pointers to the end. *)
Fixpoint leftmost (fuel : nat) (node : Z) : M Z :=
  match fuel with
  | O => fail
  | S fuel' => l <- get_left node ;; if truthy l then leftmost fuel' l else ret node
  end.

Fixpoint rightmost (fuel : nat) (node : Z) : M Z :=
  match fuel with
  | O => fail
  | S fuel' => r <- get_right node ;; if truthy r then rightmost fuel' r else ret node
  end.

(** The part of [rb_erase] for a node with two children: splice the successor
    out and put it in the place of [old].  Returns [child], [parent], [color]. *)
Definition erase_splice (fuel : nat) (old : Z) : M (Z * Z * Z) :=
  node <- get_right old ;;
  node <- leftmost fuel node ;;
  child <- get_right node ;;
  parent <- rb_parent node ;;
  color <- rb_color node ;;
  (if truthy child then rb_set_parent child parent else ret tt) ;;;
  parent <- (if parent =? old then set_right parent child ;;; ret node
             else set_left parent child ;;; ret parent) ;;
  o <- load_node old ;;
  set_parent_color node (rb_parent_color o) ;;;
  set_right node (rb_right o) ;;;
  set_left node (rb_left o) ;;;
  op <- rb_parent old ;;
  (if truthy op then
     (opl <- get_left op ;;
      if old =? opl then set_left op node else set_right op node)
   else set_root node) ;;;
  ol <- get_left old ;;
  rb_set_parent ol node ;;;
  or <- get_right old ;;
  (if truthy or then rb_set_parent or node else ret tt) ;;;
  ret (child, parent, color).

(** The part for a node with at most one child. *)
Definition erase_unlink (node child : Z) : M (Z * Z * Z) :=
  parent <- rb_parent node ;;
  color <- rb_color node ;;
  (if truthy child then rb_set_parent child parent else ret tt) ;;;
  (if truthy parent then
     (pl <- get_left parent ;;
      if node =? pl then set_left parent child else set_right parent child)
   else set_root child) ;;;
  ret (child, parent, color).

Definition rb_erase (fuel : nat) (node : Z) : M unit :=
  l <- get_left node ;;
  r <- get_right node ;;
  cpc <- (if negb (truthy l) then erase_unlink node r
          else if negb (truthy r) then erase_unlink node l
          else erase_splice fuel node) ;;
  let '(child, parent, color) := cpc in
  if color =? RB_BLACK then __rb_erase_color fuel child parent else ret tt.

(** ** Traversal *)

Definition rb_first (fuel : nat) : M Z :=
  n <- get_root ;;
  if negb (truthy n) then ret 0 else leftmost fuel n.

Definition rb_last (fuel : nat) : M Z :=
  n <- get_root ;;
  if negb (truthy n) then ret 0 else rightmost fuel n.

Fixpoint next_up (fuel : nat) (node : Z) : M Z :=
  match fuel with
  | O => fail
  | S fuel' =>
      parent <- rb_parent node ;;
      if truthy parent then
        pr <- get_right parent ;;
        if node =? pr then next_up fuel' parent else ret parent
      else ret parent
  end.

Definition rb_next (fuel : nat) (node : Z) : M Z :=
  p <- rb_parent node ;;
  if p =? node then ret 0
  else
    r <- get_right node ;;
    if truthy r then leftmost fuel r else next_up fuel node.

Fixpoint prev_up (fuel : nat) (node : Z) : M Z :=
  match fuel with
  | O => fail
  | S fuel' =>
      parent <- rb_parent node ;;
      if truthy parent then
        pl <- get_left parent ;;
        if node =? pl then prev_up fuel' parent else ret parent
      else ret parent
  end.

Definition rb_prev (fuel : nat) (node : Z) : M Z :=
  p <- rb_parent node ;;
  if p =? node then ret 0
  else
    l <- get_left node ;;
    if truthy l then rightmost fuel l else prev_up fuel node.

Definition rb_replace_node (victim new : Z) : M unit :=
  parent <- rb_parent victim ;;
  (if truthy parent then
     (pl <- get_left parent ;;
      if victim =? pl then set_left parent new else set_right parent new)
   else set_root new) ;;;
  vl <- get_left victim ;;
  (if truthy vl then rb_set_parent vl new else ret tt) ;;;
  vr <- get_right victim ;;
  (if truthy vr then rb_set_parent vr new else ret tt) ;;;
  v <- load_node victim ;;
  update new (fun _ => v).
