(* ===== verification/RbtreeLogic.v ===== *)
(** * Reasoning about the red-black tree code

    Trees and contexts, the heap they describe, weakest preconditions of the monad,
    and the specification of every memory operation and of the rotations in terms
    of the tree. *)

From S2P Require Import Prelude Rbtree.

Local Open Scope Z_scope.
Local Open Scope rb_scope.

(** ** Trees with a hole *)

Inductive color := Red | Black.

(** A node is named by its address. *)
Inductive tree :=
| E
| T (c : color) (l : tree) (x : Z) (r : tree).

(** The way from a subtree to the root, innermost first. *)
Inductive frame :=
| FL (c : color) (x : Z) (r : tree)
| FR (c : color) (l : tree) (x : Z).

Definition ctx := list frame.

Definition fill (f : frame) (t : tree) : tree :=
  match f with FL c x r => T c t x r | FR c l x => T c l x t end.

Fixpoint plug (k : ctx) (t : tree) : tree :=
  match k with [] => t | f :: k' => plug k' (fill f t) end.

Definition ptr (t : tree) : Z := match t with E => 0 | T _ _ x _ => x end.

Definition faddr (f : frame) : Z := match f with FL _ x _ => x | FR _ _ x => x end.

Definition cptr (k : ctx) : Z := match k with [] => 0 | f :: _ => faddr f end.

(** The address at the root of [plug k t] where [p = ptr t]. *)
Fixpoint top (k : ctx) (p : Z) : Z := match k with [] => p | f :: k' => top k' (faddr f) end.

Fixpoint inorder (t : tree) : list Z :=
  match t with E => [] | T _ l x r => inorder l ++ x :: inorder r end.

(** What comes before, and after, the hole. *)
Fixpoint before (k : ctx) : list Z :=
  match k with
  | [] => []
  | FL _ _ _ :: k' => before k'
  | FR _ l x :: k' => before k' ++ inorder l ++ [x]
  end.

Fixpoint after (k : ctx) : list Z :=
  match k with
  | [] => []
  | FL _ x r :: k' => x :: inorder r ++ after k'
  | FR _ _ _ :: k' => after k'
  end.

Lemma inorder_plug k t : inorder (plug k t) = before k ++ inorder t ++ after k.
Proof.
  revert t. induction k as [|[c x r|c l x] k IH]; intros t; simpl.
  - by rewrite app_nil_r.
  - rewrite IH. simpl. by rewrite <- !app_assoc.
  - rewrite IH. simpl. by rewrite <- !app_assoc.
Qed.

Lemma ptr_plug k t : ptr (plug k t) = top k (ptr t).
Proof. revert t. induction k as [|[c x r|c l x] k IH]; intros t; simpl; [done|by rewrite IH..]. Qed.

Lemma plug_app k k' t : plug (k ++ k') t = plug k' (plug k t).
Proof. revert t. induction k as [|f k IH]; intros t; simpl; [done|apply IH]. Qed.

(** ** The heap of a tree *)

Definition bit (c : color) : Z := match c with Red => 0 | Black => 1 end.

(** [rb_parent_color] of a node with parent [p]. *)
Definition pc (p : Z) (c : color) : Z := p + bit c.

Fixpoint nodes (par : Z) (t : tree) : list (Z * rb_node) :=
  match t with
  | E => []
  | T c l x r => (x, mk_node (pc par c) (ptr r) (ptr l)) :: nodes x l ++ nodes x r
  end.

(** The nodes around a hole that holds the address [p]. *)
Fixpoint cnodes (k : ctx) (p : Z) : list (Z * rb_node) :=
  match k with
  | [] => []
  | FL c x r :: k' => (x, mk_node (pc (cptr k') c) (ptr r) p) :: nodes x r ++ cnodes k' x
  | FR c l x :: k' => (x, mk_node (pc (cptr k') c) p (ptr l)) :: nodes x l ++ cnodes k' x
  end.

Lemma nodes_plug k t : nodes 0 (plug k t) ≡ₚ nodes (cptr k) t ++ cnodes k (ptr t).
Proof.
  revert t. induction k as [|[c x r|c l x] k IH]; intros t; simpl.
  - by rewrite app_nil_r.
  - rewrite IH. simpl. solve_Permutation.
  - rewrite IH. simpl. solve_Permutation.
Qed.

(** A usable address: not NULL, and aligned so that the two low bits are free. *)
Definition okaddr (a : Z) : Prop := 0 < a /\ a mod 4 = 0.

(** The memory contains the nodes [l], at different addresses. *)
Definition sat (s : st) (l : list (Z * rb_node)) : Prop :=
  NoDup l.*1 /\ Forall okaddr l.*1 /\ forall a n, (a, n) ∈ l -> nodes_mem s !! a = Some n.

(** The memory holds the tree [t]. *)
Definition repr (s : st) (t : tree) : Prop := sat s (nodes 0 t) /\ root_node s = ptr t.

Lemma sat_perm s l l' : l ≡ₚ l' -> sat s l -> sat s l'.
Proof.
  intros Hp (H1 & H2 & H3). split; [by rewrite <- Hp|]. split; [by rewrite <- Hp|].
  intros a n. rewrite <- Hp. apply H3.
Qed.

Lemma repr_plug s k t :
  repr s (plug k t) <-> sat s (nodes (cptr k) t ++ cnodes k (ptr t)) /\ root_node s = top k (ptr t).
Proof.
  unfold repr. rewrite ptr_plug. split; intros [H1 H2]; (split; [|done]);
    (eapply sat_perm; [|exact H1]); [|symmetry]; apply nodes_plug.
Qed.

Lemma nodes_keys p t : (nodes p t).*1 ≡ₚ inorder t.
Proof.
  revert p. induction t as [|c l IHl x r IHr]; intros p; simpl; [done|].
  rewrite fmap_app, IHl, IHr. apply Permutation_middle.
Qed.

(** A node outside the tree is described beside it. *)
Lemma sat_fresh s t y :
  repr s t -> okaddr y -> y ∉ inorder t -> is_Some (nodes_mem s !! y) -> exists n, sat s ((y, n) :: nodes 0 t).
Proof.
  intros [(H1 & H2 & H3) _] Hy Hfresh [n Hn]. exists n. split; [|split].
  - simpl. apply list.NoDup_cons. split; [|done]. by rewrite nodes_keys.
  - simpl. by constructor.
  - intros a m [[= -> ->]|Hin]%elem_of_cons; [done|]. by apply H3.
Qed.

(** ** Weakest preconditions *)

Definition wp {A} (m : M A) (s : st) (Q : A -> st -> Prop) : Prop :=
  match m s with Some (a, s') => Q a s' | None => False end.

Lemma wp_ret {A} (a : A) s (Q : A -> st -> Prop) : Q a s -> wp (ret a) s Q.
Proof. done. Qed.

Lemma wp_bind {A B} (m : M A) (k : A -> M B) s Q :
  wp m s (fun a s' => wp (k a) s' Q) -> wp (bind m k) s Q.
Proof. unfold wp, bind. by destruct (m s) as [[a s']|]. Qed.

Lemma wp_mono {A} (m : M A) s (Q Q' : A -> st -> Prop) :
  wp m s Q -> (forall a s', Q a s' -> Q' a s') -> wp m s Q'.
Proof. unfold wp. destruct (m s) as [[a s']|]; auto. Qed.

Lemma wp_get_root s (Q : Z -> st -> Prop) : Q (root_node s) s -> wp get_root s Q.
Proof. done. Qed.

Lemma wp_load s p n l (Q : rb_node -> st -> Prop) :
  sat s ((p, n) :: l) -> Q n s -> wp (load_node p) s Q.
Proof.
  intros (_ & _ & H) HQ. unfold wp, load_node. by rewrite (H p n) by left.
Qed.

Lemma wp_update s p n l f (Q : unit -> st -> Prop) :
  sat s ((p, n) :: l) ->
  (forall s', sat s' ((p, f n) :: l) -> root_node s' = root_node s -> Q tt s') ->
  wp (update p f) s Q.
Proof.
  intros (H1 & H2 & H3) HQ. unfold wp, update. rewrite (H3 p n) by left. apply HQ; [|done].
  split; [done|]. split; [done|]. simpl in *. intros a m [[= -> ->]|Hin]%elem_of_cons.
  - apply lookup_insert_eq.
  - rewrite lookup_insert_ne; [apply H3; by right|]. intros ->.
    apply list.NoDup_cons in H1 as [H1 _]. apply H1. apply list_elem_of_fmap. by exists (a, m).
Qed.

Lemma wp_set_root s p l (Q : unit -> st -> Prop) :
  sat s l -> (forall s', sat s' l -> root_node s' = p -> Q tt s') -> wp (set_root p) s Q.
Proof. intros H HQ. by apply HQ. Qed.

(** ** The colour bit *)

Lemma pc_parent p c : p mod 4 = 0 -> Z.land (pc p c) (Z.lnot 3) = p.
Proof.
  intros Hp. rewrite <- Z.ldiff_land. change 3 with (Z.ones 2). rewrite Z.ldiff_ones_r by lia.
  rewrite Z.shiftl_mul_pow2, Z.shiftr_div_pow2 by lia. unfold pc. change (2 ^ 2) with 4.
  destruct c; cbn [bit]; Z.div_mod_to_equations; lia.
Qed.

Lemma pc_color p c : p mod 4 = 0 -> Z.land (pc p c) 1 = bit c.
Proof.
  intros Hp. change 1 with (Z.ones 1). rewrite Z.land_ones by lia. unfold pc. change (2 ^ 1) with 2.
  destruct c; cbn [bit]; Z.div_mod_to_equations; lia.
Qed.

Lemma pc_clear p c : p mod 4 = 0 -> Z.land (pc p c) (Z.lnot 1) = p.
Proof.
  intros Hp. rewrite <- Z.ldiff_land. change 1 with (Z.ones 1). rewrite Z.ldiff_ones_r by lia.
  rewrite Z.shiftl_mul_pow2, Z.shiftr_div_pow2 by lia. unfold pc. change (2 ^ 1) with 2.
  destruct c; cbn [bit]; Z.div_mod_to_equations; lia.
Qed.

(** Or-ing a small number into an aligned one. *)
Lemma lor_aligned p b : p mod 4 = 0 -> 0 <= b < 4 -> Z.lor p b = p + b.
Proof.
  intros Hp Hb. assert (Z.land p b = 0) as H0.
  { replace b with (Z.land (Z.ones 2) b) by (rewrite Z.land_comm, Z.land_ones by lia; apply Z.mod_small; lia).
    rewrite Z.land_assoc, Z.land_ones by lia. change (2 ^ 2) with 4. by rewrite Hp. }
  rewrite (Z.add_nocarry_lxor p b H0). symmetry. by apply Z.lxor_lor.
Qed.

Lemma pc_set_parent p q c : p mod 4 = 0 -> q mod 4 = 0 -> Z.lor (Z.land (pc p c) 3) q = pc q c.
Proof.
  intros Hp Hq. rewrite Z.lor_comm. change 3 with (Z.ones 2). rewrite Z.land_ones by lia. change (2 ^ 2) with 4.
  replace (pc p c mod 4) with (bit c) by (unfold pc; destruct c; cbn [bit]; Z.div_mod_to_equations; lia).
  apply lor_aligned; [done|]. destruct c; simpl; lia.
Qed.

Lemma pc_set_black p c : p mod 4 = 0 -> Z.lor (pc p c) 1 = pc p Black.
Proof.
  intros Hp. unfold pc. destruct c; cbn [bit].
  - rewrite Z.add_0_r. apply lor_aligned; [done|lia].
  - rewrite <- (lor_aligned p 1) by (done || lia). by rewrite <- Z.lor_assoc.
Qed.

Lemma pc_set_color p c c' : p mod 4 = 0 -> Z.lor (Z.land (pc p c) (Z.lnot 1)) (bit c') = pc p c'.
Proof. intros Hp. rewrite pc_clear by done. apply lor_aligned; [done|]. destruct c'; simpl; lia. Qed.

(** ** Field operations on a described node *)

Section Ops.
Context (s : st) (x p r l : Z) (c : color) (L : list (Z * rb_node)).
Hypothesis Hs : sat s ((x, mk_node (pc p c) r l) :: L).

Lemma wp_get_left (Q : Z -> st -> Prop) : Q l s -> wp (get_left x) s Q.
Proof using Hs. intros. apply wp_bind. eapply wp_load; [exact Hs|]. done. Qed.

Lemma wp_get_right (Q : Z -> st -> Prop) : Q r s -> wp (get_right x) s Q.
Proof using Hs. intros. apply wp_bind. eapply wp_load; [exact Hs|]. done. Qed.

Lemma wp_set_left v (Q : unit -> st -> Prop) :
  (forall s', sat s' ((x, mk_node (pc p c) r v) :: L) -> root_node s' = root_node s -> Q tt s') ->
  wp (set_left x v) s Q.
Proof using Hs. intros H. eapply wp_update; [exact Hs|]. exact H. Qed.

Lemma wp_set_right v (Q : unit -> st -> Prop) :
  (forall s', sat s' ((x, mk_node (pc p c) v l) :: L) -> root_node s' = root_node s -> Q tt s') ->
  wp (set_right x v) s Q.
Proof using Hs. intros H. eapply wp_update; [exact Hs|]. exact H. Qed.

Hypothesis Hp : p mod 4 = 0.

Lemma wp_rb_parent (Q : Z -> st -> Prop) : Q p s -> wp (rb_parent x) s Q.
Proof using Hs Hp.
  intros. apply wp_bind. eapply wp_load; [exact Hs|]. apply wp_ret. simpl. by rewrite pc_parent.
Qed.

Lemma wp_rb_color (Q : Z -> st -> Prop) : Q (bit c) s -> wp (rb_color x) s Q.
Proof using Hs Hp.
  intros. apply wp_bind. eapply wp_load; [exact Hs|]. apply wp_ret. simpl. by rewrite pc_color.
Qed.

Lemma wp_rb_is_red (Q : bool -> st -> Prop) :
  Q (match c with Red => true | Black => false end) s -> wp (rb_is_red x) s Q.
Proof using Hs Hp. intros. apply wp_bind, wp_rb_color, wp_ret. by destruct c. Qed.

Lemma wp_rb_is_black (Q : bool -> st -> Prop) :
  Q (match c with Red => false | Black => true end) s -> wp (rb_is_black x) s Q.
Proof using Hs Hp. intros. apply wp_bind, wp_rb_color, wp_ret. by destruct c. Qed.

Lemma wp_rb_set_red (Q : unit -> st -> Prop) :
  (forall s', sat s' ((x, mk_node (pc p Red) r l) :: L) -> root_node s' = root_node s -> Q tt s') ->
  wp (rb_set_red x) s Q.
Proof using Hs Hp.
  intros H. eapply wp_update; [exact Hs|]. simpl. rewrite pc_clear by done.
  assert (p = pc p Red) as E by (unfold pc; simpl; lia). rewrite <- E in H. exact H.
Qed.

Lemma wp_rb_set_black (Q : unit -> st -> Prop) :
  (forall s', sat s' ((x, mk_node (pc p Black) r l) :: L) -> root_node s' = root_node s -> Q tt s') ->
  wp (rb_set_black x) s Q.
Proof using Hs Hp. intros H. eapply wp_update; [exact Hs|]. simpl. by rewrite pc_set_black. Qed.

Lemma wp_rb_set_color c' (Q : unit -> st -> Prop) :
  (forall s', sat s' ((x, mk_node (pc p c') r l) :: L) -> root_node s' = root_node s -> Q tt s') ->
  wp (rb_set_color x (bit c')) s Q.
Proof using Hs Hp. intros H. eapply wp_update; [exact Hs|]. simpl. by rewrite pc_set_color. Qed.

Lemma wp_rb_set_parent q (Q : unit -> st -> Prop) :
  q mod 4 = 0 ->
  (forall s', sat s' ((x, mk_node (pc q c) r l) :: L) -> root_node s' = root_node s -> Q tt s') ->
  wp (rb_set_parent x q) s Q.
Proof using Hs Hp. intros Hq H. eapply wp_update; [exact Hs|]. simpl. by rewrite pc_set_parent. Qed.

End Ops.

(** ** Finding a node in the description *)

Lemma sat_front s l1 e l2 : sat s (l1 ++ e :: l2) -> sat s (e :: l1 ++ l2).
Proof. apply sat_perm. symmetry. apply Permutation_middle. Qed.

Lemma sat_ok s x n l : sat s ((x, n) :: l) -> okaddr x.
Proof. intros (_ & H & _). simpl in H. by decompose_Forall_hyps. Qed.

Lemma sat_tail s e l : sat s (e :: l) -> sat s l.
Proof.
  intros (H1 & H2 & H3). simpl in *. apply list.NoDup_cons in H1 as [_ H1]. decompose_Forall_hyps.
  split; [done|]. split; [done|]. intros a n Hin. apply H3. by right.
Qed.

Lemma sat_ne s x n y m l : sat s ((x, n) :: l) -> (y, m) ∈ l -> x <> y.
Proof.
  intros (H1 & _ & _) Hin ->. simpl in H1. apply list.NoDup_cons in H1 as [H1 _]. apply H1.
  apply list_elem_of_fmap. by exists (y, m).
Qed.

Lemma okaddr_mod x : okaddr x -> x mod 4 = 0.
Proof. by intros [_ ?]. Qed.

Lemma okaddr_truthy x : okaddr x -> truthy x = true.
Proof. intros [? _]. unfold truthy. by rewrite (proj2 (Z.eqb_neq x 0)) by lia. Qed.

(** [p] splits the explicit part of the description [L]. *)
Ltac split_at p L k :=
  lazymatch L with
  | (p, _) :: _ => k (@nil (Z * rb_node))
  | ?e :: ?L' => split_at p L' ltac:(fun l1 => k (e :: l1))
  end.

(** Brings the node [p] to the front of the description of [s]. *)
Ltac front s p :=
  match goal with
  | H : sat s ?L |- _ =>
      split_at p L ltac:(fun l1 => apply (sat_front s l1) in H; cbn [app] in H)
  end.

(** One primitive step of the code on a described memory. *)
Ltac aligned := first [ assumption | apply okaddr_mod; assumption | reflexivity ].

Ltac step1 :=
  lazymatch goal with
  | |- wp (bind _ _) _ _ => apply wp_bind
  | |- wp (ret _) _ _ => apply wp_ret
  | |- wp get_root _ _ => apply wp_get_root
  | |- wp (get_left ?p) ?s _ => front s p; eapply wp_get_left; [eassumption|]
  | |- wp (get_right ?p) ?s _ => front s p; eapply wp_get_right; [eassumption|]
  | |- wp (rb_parent ?p) ?s _ => front s p; eapply wp_rb_parent; [eassumption|aligned|]
  | |- wp (rb_color ?p) ?s _ => front s p; eapply wp_rb_color; [eassumption|aligned|]
  | |- wp (rb_is_red ?p) ?s _ => front s p; eapply wp_rb_is_red; [eassumption|aligned|]
  | |- wp (rb_is_black ?p) ?s _ => front s p; eapply wp_rb_is_black; [eassumption|aligned|]
  | |- wp (load_node ?p) ?s _ => front s p; eapply wp_load; [eassumption|]
  end; cbv beta; cbn [rb_parent_color rb_right rb_left].

Ltac upd1 s' :=
  let Hr := fresh "Hr" in
  lazymatch goal with
  | H : sat ?s _ |- wp (set_left ?p _) ?s _ =>
      front s p; eapply wp_set_left; [eassumption|]; clear H; intros s' H Hr
  | H : sat ?s _ |- wp (set_right ?p _) ?s _ =>
      front s p; eapply wp_set_right; [eassumption|]; clear H; intros s' H Hr
  | H : sat ?s _ |- wp (rb_set_red ?p) ?s _ =>
      front s p; eapply wp_rb_set_red; [eassumption|aligned|]; clear H; intros s' H Hr
  | H : sat ?s _ |- wp (rb_set_black ?p) ?s _ =>
      front s p; eapply wp_rb_set_black; [eassumption|aligned|]; clear H; intros s' H Hr
  | H : sat ?s _ |- wp (rb_set_color ?p _) ?s _ =>
      front s p; eapply wp_rb_set_color; [eassumption|aligned|]; clear H; intros s' H Hr
  | H : sat ?s _ |- wp (rb_set_parent ?p _) ?s _ =>
      front s p; eapply wp_rb_set_parent; [eassumption|aligned|aligned|]; clear H; intros s' H Hr
  end; cbv beta.

(** ** Composite steps *)

(** [if (child) rb_set_parent(child, q)]. *)
Lemma wp_reparent s p q t L (Q : unit -> st -> Prop) :
  sat s (nodes p t ++ L) -> p mod 4 = 0 -> q mod 4 = 0 ->
  (forall s', sat s' (nodes q t ++ L) -> root_node s' = root_node s -> Q tt s') ->
  wp (if truthy (ptr t) then rb_set_parent (ptr t) q else ret tt) s Q.
Proof.
  intros Hs Hp Hq HQ. destruct t as [|c l x r]; cbn [ptr].
  - by apply wp_ret, HQ.
  - cbn [nodes app] in *. rewrite (okaddr_truthy x) by (by eapply sat_ok).
    eapply wp_rb_set_parent; eassumption.
Qed.

(** The child of the hole's parent is not another child of it. *)
Lemma sat_child_ne s x n e p t L : sat s ((x, n) :: e :: nodes p t ++ L) -> x <> ptr t.
Proof.
  intros Hs. destruct t as [|c l y r]; cbn [ptr].
  - apply sat_ok in Hs as [? _]. lia.
  - eapply sat_ne; [exact Hs|]. cbn [nodes app]. right. by left.
Qed.

(** Replace the link to [x] in the parent, testing the left link. *)
Definition relink_l (x y parent : Z) : M unit :=
  if truthy parent then
    (pl <- get_left parent ;; if x =? pl then set_left parent y else set_right parent y)
  else set_root y.

Definition relink_r (x y parent : Z) : M unit :=
  if truthy parent then
    (pr <- get_right parent ;; if x =? pr then set_right parent y else set_left parent y)
  else set_root y.

Lemma wp_relink_l s k x y n L (Q : unit -> st -> Prop) :
  sat s ((x, n) :: cnodes k x ++ L) -> root_node s = top k x ->
  (forall s', sat s' ((x, n) :: cnodes k y ++ L) -> root_node s' = top k y -> Q tt s') ->
  wp (relink_l x y (cptr k)) s Q.
Proof.
  intros Hs Hroot HQ. unfold relink_l. destruct k as [|[c z r|c l z] k]; cbn [cptr faddr cnodes app top] in *.
  - cbn. eapply wp_set_root; [exact Hs|]. exact HQ.
  - apply (sat_front s [(x, n)]) in Hs. cbn [app] in Hs.
    rewrite (okaddr_truthy z) by (by eapply sat_ok). step1. step1. rewrite Z.eqb_refl.
    upd1 s'. apply HQ; [|congruence]. by apply (sat_front s' [_]) in Hs.
  - assert (x <> ptr l) as Hne by (rewrite <- app_assoc in Hs; by eapply sat_child_ne).
    apply (sat_front s [(x, n)]) in Hs. cbn [app] in Hs.
    rewrite (okaddr_truthy z) by (by eapply sat_ok). step1. step1.
    rewrite (proj2 (Z.eqb_neq x (ptr l))) by done.
    upd1 s'. apply HQ; [|congruence]. by apply (sat_front s' [_]) in Hs.
Qed.

Lemma wp_relink_r s k x y n L (Q : unit -> st -> Prop) :
  sat s ((x, n) :: cnodes k x ++ L) -> root_node s = top k x ->
  (forall s', sat s' ((x, n) :: cnodes k y ++ L) -> root_node s' = top k y -> Q tt s') ->
  wp (relink_r x y (cptr k)) s Q.
Proof.
  intros Hs Hroot HQ. unfold relink_r. destruct k as [|[c z r|c l z] k]; cbn [cptr faddr cnodes app top] in *.
  - cbn. eapply wp_set_root; [exact Hs|]. exact HQ.
  - assert (x <> ptr r) as Hne by (rewrite <- app_assoc in Hs; by eapply sat_child_ne).
    apply (sat_front s [(x, n)]) in Hs. cbn [app] in Hs.
    rewrite (okaddr_truthy z) by (by eapply sat_ok). step1. step1.
    rewrite (proj2 (Z.eqb_neq x (ptr r))) by done.
    upd1 s'. apply HQ; [|congruence]. by apply (sat_front s' [_]) in Hs.
  - apply (sat_front s [(x, n)]) in Hs. cbn [app] in Hs.
    rewrite (okaddr_truthy z) by (by eapply sat_ok). step1. step1. rewrite Z.eqb_refl.
    upd1 s'. apply HQ; [|congruence]. by apply (sat_front s' [_]) in Hs.
Qed.

(** The parent of a hole is aligned. *)
Lemma sat_cptr s k p L : sat s (cnodes k p ++ L) -> cptr k mod 4 = 0.
Proof.
  destruct k as [|[c z r|c l z] k]; cbn [cptr faddr cnodes app]; [done|intros H%sat_ok; by destruct H..].
Qed.

(** ** Rotations *)

Section Rotate.
Context (s : st) (x y q : Z) (n m : rb_node) (b : tree) (L : list (Z * rb_node)).
Hypothesis Hs : sat s ((y, m) :: (x, n) :: nodes y b ++ L).
Hypothesis Hx : x mod 4 = 0.

(** [if (child) rb_set_parent(y->child, x)] *)
Lemma wp_move_child (get : Z -> M Z) (Q : unit -> st -> Prop) :
  (forall s' Q', sat s' ((y, m) :: (x, n) :: nodes y b ++ L) -> Q' (ptr b) s' -> wp (get y) s' Q') ->
  (forall s', sat s' ((y, m) :: (x, n) :: nodes x b ++ L) -> root_node s' = root_node s -> Q tt s') ->
  wp (if truthy (ptr b) then (z <- get y ;; rb_set_parent z x) else ret tt) s Q.
Proof using Hs Hx.
  intros Hget HQ. assert (okaddr y) as Hy by (by eapply sat_ok).
  destruct b as [|c l z r] eqn:Eb; cbn [ptr].
  - apply wp_ret. by apply HQ.
  - pose proof Hs as Hs'. cbn [nodes app] in Hs'. apply (sat_front s [(y, m); (x, n)]) in Hs'.
    cbn [app] in Hs'. rewrite (okaddr_truthy z) by (by eapply sat_ok). apply wp_bind.
    apply (Hget s); [exact Hs|]. eapply wp_rb_set_parent; [exact Hs'|by apply okaddr_mod|done|].
    intros s' Hs1 Hr. apply HQ; [|done]. cbn [nodes app]. eapply sat_perm; [|exact Hs1]. solve_Permutation.
Qed.

End Rotate.

Lemma wp_rotate_left s k c a x c' b y d (Q : unit -> st -> Prop) :
  repr s (plug k (T c a x (T c' b y d))) ->
  (forall s', repr s' (plug k (T c' (T c a x b) y d)) -> Q tt s') ->
  wp (__rb_rotate_left x) s Q.
Proof.
  intros [Hs Hroot]%repr_plug HQ. cbn [ptr nodes] in *.
  apply (sat_perm _ _ ((x, mk_node (pc (cptr k) c) y (ptr a)) :: (y, mk_node (pc x c') (ptr d) (ptr b)) ::
    nodes y b ++ cnodes k x ++ nodes x a ++ nodes y d)) in Hs; [|solve_Permutation].
  assert (okaddr x) as Hx by (by eapply sat_ok).
  assert (okaddr y) as Hy by (apply sat_tail in Hs; by eapply sat_ok).
  assert (cptr k mod 4 = 0) as Hk.
  { apply (sat_cptr s k x (nodes y b ++ nodes x a ++ nodes y d)). do 2 apply sat_tail in Hs.
    eapply sat_perm; [|exact Hs]. solve_Permutation. }
  unfold __rb_rotate_left. fold (relink_l x y (cptr k)). do 6 step1. step1. upd1 s1. step1. front s1 y.
  eapply (wp_move_child _ x y); [exact Hs|aligned| |].
  { intros s' Q' H' HQ'. eapply wp_get_left; [exact H'|done]. }
  clear Hs. intros s2 Hs Hr2. step1. upd1 s3. step1. upd1 s4. step1.
  apply (sat_perm _ _ ((x, mk_node (pc (cptr k) c) (ptr b) (ptr a)) :: cnodes k x ++
    (y, mk_node (pc (cptr k) c') (ptr d) x) :: nodes x b ++ nodes x a ++ nodes y d)) in Hs;
    [|solve_Permutation].
  eapply wp_relink_l; [exact Hs|congruence|]. clear Hs. intros s5 Hs Hroot5.
  upd1 s6. apply HQ, repr_plug. split; [|cbn [ptr]; congruence].
  cbn [nodes ptr]. eapply sat_perm; [|exact Hs]. solve_Permutation.
Qed.

Lemma wp_rotate_right s k c a x c' b y d (Q : unit -> st -> Prop) :
  repr s (plug k (T c (T c' a x b) y d)) ->
  (forall s', repr s' (plug k (T c' a x (T c b y d))) -> Q tt s') ->
  wp (__rb_rotate_right y) s Q.
Proof.
  intros [Hs Hroot]%repr_plug HQ. cbn [ptr nodes] in *.
  apply (sat_perm _ _ ((y, mk_node (pc (cptr k) c) (ptr d) x) :: (x, mk_node (pc y c') (ptr b) (ptr a)) ::
    nodes x b ++ cnodes k y ++ nodes x a ++ nodes y d)) in Hs; [|solve_Permutation].
  assert (okaddr y) as Hy by (by eapply sat_ok).
  assert (okaddr x) as Hx by (apply sat_tail in Hs; by eapply sat_ok).
  assert (cptr k mod 4 = 0) as Hk.
  { apply (sat_cptr s k y (nodes x b ++ nodes x a ++ nodes y d)). do 2 apply sat_tail in Hs.
    eapply sat_perm; [|exact Hs]. solve_Permutation. }
  unfold __rb_rotate_right. fold (relink_r y x (cptr k)). do 6 step1. step1. upd1 s1. step1. front s1 x.
  eapply (wp_move_child _ y x); [exact Hs|aligned| |].
  { intros s' Q' H' HQ'. eapply wp_get_right; [exact H'|done]. }
  clear Hs. intros s2 Hs Hr2. step1. upd1 s3. step1. upd1 s4. step1.
  apply (sat_perm _ _ ((y, mk_node (pc (cptr k) c) (ptr d) (ptr b)) :: cnodes k y ++
    (x, mk_node (pc (cptr k) c') y (ptr a)) :: nodes y b ++ nodes x a ++ nodes y d)) in Hs;
    [|solve_Permutation].
  eapply wp_relink_r; [exact Hs|congruence|]. clear Hs. intros s5 Hs Hroot5.
  upd1 s6. apply HQ, repr_plug. split; [|cbn [ptr]; congruence].
  cbn [nodes ptr]. eapply sat_perm; [|exact Hs]. solve_Permutation.
Qed.

(** ** Operations in terms of the tree *)

Lemma repr_node s k c l x r :
  repr s (plug k (T c l x r)) ->
  exists L, sat s ((x, mk_node (pc (cptr k) c) (ptr r) (ptr l)) :: L) /\ cptr k mod 4 = 0 /\ okaddr x /\
    forall s' c', sat s' ((x, mk_node (pc (cptr k) c') (ptr r) (ptr l)) :: L) ->
      root_node s' = root_node s -> repr s' (plug k (T c' l x r)).
Proof.
  intros [Hs Hroot]%repr_plug. cbn [nodes ptr app] in *. rewrite <- app_assoc in Hs.
  exists (nodes x l ++ nodes x r ++ cnodes k x). split; [done|].
  split; [|split; [by eapply sat_ok|]].
  - apply sat_tail in Hs. apply (sat_cptr s k x (nodes x l ++ nodes x r)).
    eapply sat_perm; [|exact Hs]. solve_Permutation.
  - intros s' c' Hs' Hr. apply repr_plug. cbn [nodes ptr app]. rewrite <- app_assoc. split; [done|congruence].
Qed.

Section TreeOps.
Context (s : st) (k : ctx) (c : color) (l : tree) (x : Z) (r : tree).
Hypothesis Hs : repr s (plug k (T c l x r)).

Lemma repr_ok : okaddr x.
Proof using Hs. by destruct (repr_node _ _ _ _ _ _ Hs) as (L & _ & _ & ? & _). Qed.

Lemma wpt_left (Q : Z -> st -> Prop) : Q (ptr l) s -> wp (get_left x) s Q.
Proof using Hs. destruct (repr_node _ _ _ _ _ _ Hs) as (L & H & _). by eapply wp_get_left. Qed.

Lemma wpt_right (Q : Z -> st -> Prop) : Q (ptr r) s -> wp (get_right x) s Q.
Proof using Hs. destruct (repr_node _ _ _ _ _ _ Hs) as (L & H & _). by eapply wp_get_right. Qed.

Lemma wpt_parent (Q : Z -> st -> Prop) : Q (cptr k) s -> wp (rb_parent x) s Q.
Proof using Hs. destruct (repr_node _ _ _ _ _ _ Hs) as (L & H & Hk & _). by eapply wp_rb_parent. Qed.

Lemma wpt_color (Q : Z -> st -> Prop) : Q (bit c) s -> wp (rb_color x) s Q.
Proof using Hs. destruct (repr_node _ _ _ _ _ _ Hs) as (L & H & Hk & _). by eapply wp_rb_color. Qed.

Lemma wpt_set_red (Q : unit -> st -> Prop) :
  (forall s', repr s' (plug k (T Red l x r)) -> Q tt s') -> wp (rb_set_red x) s Q.
Proof using Hs.
  destruct (repr_node _ _ _ _ _ _ Hs) as (L & H & Hk & _ & Hre). intros HQ.
  eapply wp_rb_set_red; [exact H|done|]. intros s' H' Hr. by apply HQ, Hre.
Qed.

Lemma wpt_set_black (Q : unit -> st -> Prop) :
  (forall s', repr s' (plug k (T Black l x r)) -> Q tt s') -> wp (rb_set_black x) s Q.
Proof using Hs.
  destruct (repr_node _ _ _ _ _ _ Hs) as (L & H & Hk & _ & Hre). intros HQ.
  eapply wp_rb_set_black; [exact H|done|]. intros s' H' Hr. by apply HQ, Hre.
Qed.

Lemma wpt_set_color c' (Q : unit -> st -> Prop) :
  (forall s', repr s' (plug k (T c' l x r)) -> Q tt s') -> wp (rb_set_color x (bit c')) s Q.
Proof using Hs.
  destruct (repr_node _ _ _ _ _ _ Hs) as (L & H & Hk & _ & Hre). intros HQ.
  eapply wp_rb_set_color; [exact H|done|]. intros s' H' Hr. by apply HQ, Hre.
Qed.

End TreeOps.

Definition is_red (t : tree) : bool := match t with T Red _ _ _ => true | _ => false end.

Lemma wpt_red_node s k t (Q : bool -> st -> Prop) :
  repr s (plug k t) -> Q (is_red t) s -> wp (red_node (ptr t)) s Q.
Proof.
  intros Hs HQ. unfold red_node. destruct t as [|c l x r]; cbn [ptr]; [by apply wp_ret|].
  destruct (repr_ok _ _ _ _ _ _ Hs) as [? _]. rewrite (proj2 (Z.eqb_neq x 0)) by lia.
  apply wp_bind. eapply wpt_color; [exact Hs|]. apply wp_ret. by destruct c.
Qed.

Lemma wpt_is_red s k c l x r (Q : bool -> st -> Prop) :
  repr s (plug k (T c l x r)) -> Q (is_red (T c l x r)) s -> wp (rb_is_red x) s Q.
Proof. intros Hs HQ. apply wp_bind. eapply wpt_color; [exact Hs|]. apply wp_ret. by destruct c. Qed.

Lemma wpt_black_or_null s k t (Q : bool -> st -> Prop) :
  repr s (plug k t) -> Q (negb (is_red t)) s -> wp (black_or_null (ptr t)) s Q.
Proof.
  intros Hs HQ. unfold black_or_null. destruct t as [|c l x r]; cbn [ptr]; [by apply wp_ret|].
  destruct (repr_ok _ _ _ _ _ _ Hs) as [? _]. rewrite (proj2 (Z.eqb_neq x 0)) by lia.
  apply wp_bind. eapply wpt_color; [exact Hs|]. apply wp_ret. by destruct c.
Qed.

(** Two children have different addresses. *)
Lemma repr_children_ne s k c l x r :
  repr s (plug k (T c l x r)) -> ptr l = ptr r -> l = E /\ r = E.
Proof.
  intros [Hs _]%repr_plug. cbn [nodes app] in Hs. apply sat_tail in Hs.
  destruct l as [|c1 l1 x1 r1], r as [|c2 l2 x2 r2]; cbn [ptr nodes app] in *; intros Heq; subst.
  - done.
  - apply sat_ok in Hs as [? _]. lia.
  - apply sat_ok in Hs as [? _]. lia.
  - exfalso. eapply (sat_ne s); [exact Hs| |reflexivity].
    rewrite <- !app_assoc. do 2 (apply elem_of_app; right). cbn [app]. by left.
Qed.

(** ** Red-black trees *)

(** [rbt c n t]: the root of [t] has colour [c] (black for the empty tree), every
    path has [n] black nodes, and no red node has a red child. *)
Inductive rbt : color -> nat -> tree -> Prop :=
| rbt_E : rbt Black 0 E
| rbt_red n l x r : rbt Black n l -> rbt Black n r -> rbt Red n (T Red l x r)
| rbt_black n cl cr l x r : rbt cl n l -> rbt cr n r -> rbt Black (S n) (T Black l x r).

Definition is_rb (t : tree) : Prop := exists n, rbt Black n t.

(** A context whose hole may be filled with a tree of colour [c] and height [n]. *)
Inductive rbctx : ctx -> color -> nat -> Prop :=
| rbctx_nil n : rbctx [] Black n
| rbctx_red_l k n x r : rbctx k Red n -> rbt Black n r -> rbctx (FL Red x r :: k) Black n
| rbctx_red_r k n l x : rbctx k Red n -> rbt Black n l -> rbctx (FR Red l x :: k) Black n
| rbctx_black_l k n c cr x r : rbctx k Black (S n) -> rbt cr n r -> rbctx (FL Black x r :: k) c n
| rbctx_black_r k n c cl l x : rbctx k Black (S n) -> rbt cl n l -> rbctx (FR Black l x :: k) c n.

Create HintDb rbtree.
#[export] Hint Constructors rbt rbctx : rbtree.

Lemma rbctx_black k c n : rbctx k c n -> rbctx k Black n.
Proof. inversion 1; subst; eauto with rbtree. Qed.

Lemma rbt_plug k : forall c n t, rbctx k c n -> rbt c n t -> is_rb (plug k t).
Proof.
  induction k as [|f k IH]; intros c n t Hk Ht; inversion Hk; subst; simpl; eauto with rbtree.
  by exists n.
Qed.

Lemma rbt_unplug k : forall m t, rbt Black m (plug k t) -> exists c n, rbctx k c n /\ rbt c n t.
Proof.
  induction k as [|f k IH]; intros m t H; simpl in H; [eauto with rbtree|].
  apply IH in H as (c & n & Hk & Ht). destruct f; simpl in Ht; inversion Ht; subst; eauto with rbtree.
Qed.

(** The root made black. *)
Definition blacken (t : tree) : tree := match t with E => E | T _ l x r => T Black l x r end.

Lemma blacken_rb t : is_rb t -> blacken t = t.
Proof. intros [n H]. by inversion H. Qed.

Lemma blacken_inorder t : inorder (blacken t) = inorder t.
Proof. by destruct t. Qed.

(** ** An example heap

    The tree 4 < 8 < 12 with a black root, and an unused node at 16. *)

Definition demo_tree : tree := T Black (T Red E 4 E) 8 (T Red E 12 E).

Definition demo_heap : st :=
  mk_st (list_to_map [(8, mk_node 1 12 4); (4, mk_node 8 0 0); (12, mk_node 8 0 0); (16, mk_node 16 0 0)]) 8.

Lemma demo_repr : repr demo_heap demo_tree.
Proof.
  split; [|done]. split; [|split].
  - apply (bool_decide_unpack _). vm_compute. exact I.
  - repeat constructor.
  - intros a n Hin. repeat (apply elem_of_cons in Hin as [[= -> ->]|Hin]; [vm_compute; reflexivity|]).
    by apply not_elem_of_nil in Hin.
Qed.

Lemma demo_rb : is_rb demo_tree.
Proof. exists 1%nat. unfold demo_tree. eauto with rbtree. Qed.
