(* ===== verification/RbtreeInsert.v ===== *)
(** * rb_insert_color restores the red-black invariants *)

From S2P Require Import Prelude Rbtree RbtreeLogic.

Local Open Scope Z_scope.
Local Open Scope rb_scope.

(** The loop ends as soon as the parent is black. *)
Lemma insert_loop_exit fuel s f k c l x r (Q : unit -> st -> Prop) :
  (0 < fuel)%nat -> repr s (plug (f :: k) (T c l x r)) -> is_red (fill f E) = false -> Q tt s ->
  wp (insert_loop fuel x) s Q.
Proof.
  intros Hf Hs Hblack HQ. destruct fuel as [|fuel]; [lia|]. cbn [insert_loop].
  apply wp_bind. eapply wpt_parent; [exact Hs|]. apply wp_bind.
  change (cptr (f :: k)) with (faddr f).
  replace (faddr f) with (ptr (fill f (T c l x r))) by (by destruct f).
  eapply (wpt_red_node s k); [exact Hs|].
  replace (is_red (fill f (T c l x r))) with false by (by destruct f as [[] ? ?|[] ? ?]).
  by apply wp_ret.
Qed.

(** The final rotation: [p], red, is the child of the black [g] on one side and
    [x], red, the child of [p] on the same side. *)
Lemma insert_rotate_right fuel s k a x b p d g u (Q : unit -> st -> Prop) :
  (0 < fuel)%nat -> repr s (plug k (T Black (T Red (T Red a x b) p d) g u)) ->
  (forall s', repr s' (plug k (T Black (T Red a x b) p (T Red d g u))) -> Q tt s') ->
  wp (rb_set_black p ;;; rb_set_red g ;;; __rb_rotate_right g ;;; insert_loop fuel x) s Q.
Proof.
  intros Hf Hs HQ. apply wp_bind.
  eapply (wpt_set_black s (FL Black g u :: k)); [exact Hs|]. clear s Hs. intros s Hs.
  apply wp_bind. eapply (wpt_set_red s k); [exact Hs|]. clear s Hs. intros s Hs.
  apply wp_bind. eapply (wp_rotate_right s k); [exact Hs|]. clear s Hs. intros s Hs.
  eapply (insert_loop_exit fuel s (FL Black p (T Red d g u)) k); [done|exact Hs|done|]. by apply HQ.
Qed.

Lemma insert_rotate_left fuel s k a x b p d g u (Q : unit -> st -> Prop) :
  (0 < fuel)%nat -> repr s (plug k (T Black u g (T Red d p (T Red a x b)))) ->
  (forall s', repr s' (plug k (T Black (T Red u g d) p (T Red a x b))) -> Q tt s') ->
  wp (rb_set_black p ;;; rb_set_red g ;;; __rb_rotate_left g ;;; insert_loop fuel x) s Q.
Proof.
  intros Hf Hs HQ. apply wp_bind.
  eapply (wpt_set_black s (FR Black u g :: k)); [exact Hs|]. clear s Hs. intros s Hs.
  apply wp_bind. eapply (wpt_set_red s k); [exact Hs|]. clear s Hs. intros s Hs.
  apply wp_bind. eapply (wp_rotate_left s k); [exact Hs|]. clear s Hs. intros s Hs.
  eapply (insert_loop_exit fuel s (FR Black (T Red u g d) p) k); [done|exact Hs|done|]. by apply HQ.
Qed.

(** What the loop achieves from the tree [t]. *)
Definition insert_post (t : tree) (Q : unit -> st -> Prop) : Prop :=
  forall s' t', repr s' t' -> inorder t' = inorder t -> is_rb (blacken t') -> t' <> E -> Q tt s'.

Lemma plug_not_E k c l x r : plug k (T c l x r) <> E.
Proof. revert c l x r. induction k as [|f k IH]; intros c l x r; [done|]. destruct f; apply IH. Qed.

Lemma insert_post_plug k t t' Q s n :
  repr s (plug k t') -> insert_post (plug k t) Q -> inorder t' = inorder t -> rbt Black n t' ->
  rbctx k Black n -> t' <> E -> Q tt s.
Proof.
  intros Hs HQ Hio Ht Hk Hne. apply (HQ s _ Hs).
  - by rewrite !inorder_plug, Hio.
  - pose proof (rbt_plug k Black n t' Hk Ht) as Hrb. by rewrite blacken_rb.
  - destruct t' as [|c l x r]; [done|]. apply plug_not_E.
Qed.

Ltac io := cbn [inorder fill]; rewrite <- ?app_assoc; cbn [app]; rewrite <- ?app_assoc; reflexivity.

Lemma insert_post_eq t t' Q : inorder t' = inorder t -> insert_post t Q -> insert_post t' Q.
Proof. intros E H s u Hs Hu. apply (H s u Hs). congruence. Qed.

(** A black uncle, parent to the left of the grandparent: one or two rotations. *)
Lemma insert_black_uncle_l fuel s k f l x r n cu u gp (Q : unit -> st -> Prop) :
  (0 < fuel)%nat ->
  repr s (plug k (T Black (fill f (T Red l x r)) gp u)) ->
  rbt Black n l -> rbt Black n r -> rbctx (f :: FL Black gp u :: k) Black n -> is_red (fill f E) = true ->
  rbctx k Black (S n) -> rbt cu n u -> is_red u = false ->
  insert_post (plug k (T Black (fill f (T Red l x r)) gp u)) Q ->
  wp (pr <- get_right (faddr f) ;;
      np <- (if pr =? x then __rb_rotate_left (faddr f) ;;; ret (faddr f, x) else ret (x, faddr f)) ;;
      let '(node, parent) := np in
      rb_set_black parent ;;; rb_set_red gp ;;; __rb_rotate_right gp ;;; insert_loop fuel node) s Q.
Proof.
  intros Hf Hs Hl Hr Hk Ef Hk' Hu Eu HQ.
  assert (rbt Black n u) as Hu' by (by inversion Hu; subst).
  destruct f as [[] p d|[] d p]; try done; cbn [fill faddr] in *;
    (inversion Hk as [|? ? ? ? _ Hd|? ? ? ? _ Hd| |]; subst); apply wp_bind.
  - eapply (wpt_right s (FL Black gp u :: k)); [exact Hs|].
    rewrite (proj2 (Z.eqb_neq (ptr d) x)).
    2: { intros E. destruct (repr_children_ne s (FL Black gp u :: k) _ _ _ _ Hs) as [? _]; done. }
    apply wp_bind, wp_ret. eapply insert_rotate_right; [done|exact Hs|]. clear s Hs. intros s Hs.
    eapply (insert_post_plug k); [exact Hs|exact HQ|io|eauto with rbtree|done|done].
  - eapply (wpt_right s (FL Black gp u :: k)); [exact Hs|]. cbn [ptr]. rewrite Z.eqb_refl.
    apply wp_bind, wp_bind. eapply (wp_rotate_left s (FL Black gp u :: k)); [exact Hs|].
    clear s Hs. intros s Hs. apply wp_ret. eapply insert_rotate_right; [done|exact Hs|]. clear s Hs. intros s Hs.
    eapply (insert_post_plug k); [exact Hs|exact HQ|io|eauto with rbtree|done|done].
Qed.

Lemma insert_black_uncle_r fuel s k f l x r n cu u gp (Q : unit -> st -> Prop) :
  (0 < fuel)%nat ->
  repr s (plug k (T Black u gp (fill f (T Red l x r)))) ->
  rbt Black n l -> rbt Black n r -> rbctx (f :: FR Black u gp :: k) Black n -> is_red (fill f E) = true ->
  rbctx k Black (S n) -> rbt cu n u -> is_red u = false ->
  insert_post (plug k (T Black u gp (fill f (T Red l x r)))) Q ->
  wp (pl <- get_left (faddr f) ;;
      np <- (if pl =? x then __rb_rotate_right (faddr f) ;;; ret (faddr f, x) else ret (x, faddr f)) ;;
      let '(node, parent) := np in
      rb_set_black parent ;;; rb_set_red gp ;;; __rb_rotate_left gp ;;; insert_loop fuel node) s Q.
Proof.
  intros Hf Hs Hl Hr Hk Ef Hk' Hu Eu HQ.
  assert (rbt Black n u) as Hu' by (by inversion Hu; subst).
  destruct f as [[] p d|[] d p]; try done; cbn [fill faddr] in *;
    (inversion Hk as [|? ? ? ? _ Hd|? ? ? ? _ Hd| |]; subst); apply wp_bind.
  - eapply (wpt_left s (FR Black u gp :: k)); [exact Hs|]. cbn [ptr]. rewrite Z.eqb_refl.
    apply wp_bind, wp_bind. eapply (wp_rotate_right s (FR Black u gp :: k)); [exact Hs|].
    clear s Hs. intros s Hs. apply wp_ret. eapply insert_rotate_left; [done|exact Hs|]. clear s Hs. intros s Hs.
    eapply (insert_post_plug k); [exact Hs|exact HQ|io|eauto with rbtree|done|done].
  - eapply (wpt_left s (FR Black u gp :: k)); [exact Hs|].
    rewrite (proj2 (Z.eqb_neq (ptr d) x)).
    2: { intros E. destruct (repr_children_ne s (FR Black u gp :: k) _ _ _ _ Hs) as [_ ?]; done. }
    apply wp_bind, wp_ret. eapply insert_rotate_left; [done|exact Hs|]. clear s Hs. intros s Hs.
    eapply (insert_post_plug k); [exact Hs|exact HQ|io|eauto with rbtree|done|done].
Qed.

(** The parent of the node a frame belongs to. *)
Lemma insert_parent s k f t (Q : Z -> st -> Prop) :
  repr s (plug k (fill f t)) -> Q (cptr k) s -> wp (rb_parent (faddr f)) s Q.
Proof. intros Hs HQ. destruct f; by eapply (wpt_parent s k). Qed.

(** A red uncle: recolouring. *)
Lemma insert_red_uncle_l s k f t u gp (m : M unit) (Q : unit -> st -> Prop) :
  repr s (plug k (T Black (fill f t) gp u)) -> is_red (fill f E) = true -> is_red u = true ->
  (forall s', repr s' (plug k (T Red (blacken (fill f t)) gp (blacken u))) -> wp m s' Q) ->
  wp (rb_set_black (ptr u) ;;; rb_set_black (faddr f) ;;; rb_set_red gp ;;; m) s Q.
Proof.
  intros Hs Ef Eu HQ. destruct u as [|[] ul ux ur]; try done. apply wp_bind.
  eapply (wpt_set_black s (FR Black (fill f t) gp :: k)); [exact Hs|]. clear s Hs. intros s Hs.
  apply wp_bind. destruct f as [[] p d|[] d p]; try done; cbn [faddr];
    (eapply (wpt_set_black s (FL Black gp (T Black ul ux ur) :: k)); [exact Hs|]); clear s Hs; intros s Hs;
    apply wp_bind; (eapply (wpt_set_red s k); [exact Hs|]); clear s Hs; intros s Hs; by apply HQ.
Qed.

Lemma insert_red_uncle_r s k f t u gp (m : M unit) (Q : unit -> st -> Prop) :
  repr s (plug k (T Black u gp (fill f t))) -> is_red (fill f E) = true -> is_red u = true ->
  (forall s', repr s' (plug k (T Red (blacken u) gp (blacken (fill f t)))) -> wp m s' Q) ->
  wp (rb_set_black (ptr u) ;;; rb_set_black (faddr f) ;;; rb_set_red gp ;;; m) s Q.
Proof.
  intros Hs Ef Eu HQ. destruct u as [|[] ul ux ur]; try done. apply wp_bind.
  eapply (wpt_set_black s (FL Black gp (fill f t) :: k)); [exact Hs|]. clear s Hs. intros s Hs.
  apply wp_bind. destruct f as [[] p d|[] d p]; try done; cbn [faddr];
    (eapply (wpt_set_black s (FR Black (T Black ul ux ur) gp :: k)); [exact Hs|]); clear s Hs; intros s Hs;
    apply wp_bind; (eapply (wpt_set_red s k); [exact Hs|]); clear s Hs; intros s Hs; by apply HQ.
Qed.

Lemma insert_loop_spec fuel : forall s k l x r n (Q : unit -> st -> Prop),
  (length k < fuel)%nat -> repr s (plug k (T Red l x r)) ->
  rbt Red n (T Red l x r) -> rbctx k Black n ->
  insert_post (plug k (T Red l x r)) Q -> wp (insert_loop fuel x) s Q.
Proof.
  induction fuel as [|fuel IH]; intros s k l x r n Q Hf Hs Ht Hk HQ; [lia|].
  inversion Ht as [|? ? ? ? Hl Hr|]; subst. destruct k as [|f k].
  - cbn [insert_loop]. apply wp_bind. eapply wpt_parent; [exact Hs|].
    apply wp_bind, wp_ret, wp_ret.
    apply (HQ s _ Hs eq_refl); [|done]. exists (S n). simpl. eauto with rbtree.
  - destruct (is_red (fill f E)) eqn:Ered.
    2: { eapply insert_loop_exit; [lia|exact Hs|done|]. apply (HQ s _ Hs eq_refl); [|apply plug_not_E].
         assert (is_rb (plug (f :: k) (T Red l x r))) as Hrb.
         { inversion Hk; subst; simpl in Ered; try done;
             eapply (rbt_plug (_ :: k) Red n); eauto with rbtree. }
         by rewrite blacken_rb. }
    simpl in Hf.
    (* the parent is red, so there is a black grandparent *)
    assert (exists g k', k = g :: k' /\ rbctx k' Black (S n) /\ is_red (fill g E) = false /\
      exists cu, rbt cu n (match g with FL _ _ u => u | FR _ u _ => u end)) as (g & k' & -> & Hk' & Eg & cu & Hu).
    { inversion Hk as [|? ? ? ? H1 H2|? ? ? ? H1 H2|? ? ? ? ? ? H1 H2|? ? ? ? ? ? H1 H2]; subst;
        simpl in Ered; try done; inversion H1; subst; eexists _, _; eauto. }
    cbn [length] in Hf. cbn [insert_loop]. apply wp_bind. eapply wpt_parent; [exact Hs|]. cbn [cptr].
    apply wp_bind. replace (faddr f) with (ptr (fill f (T Red l x r))) at 1 by (by destruct f).
    eapply (wpt_red_node s (g :: k')); [exact Hs|].
    replace (is_red (fill f (T Red l x r))) with true by (by destruct f as [[] ? ?|[] ? ?]). cbn [negb].
    apply wp_bind. eapply (insert_parent s (g :: k') f); [exact Hs|]. cbn [cptr].
    apply wp_bind. destruct g as [cg gp u|cg u gp]; cbn [faddr fill] in *; (destruct cg; [done|]);
      cbn [plug fill] in Hs.
    + eapply (wpt_left s k'); [exact Hs|]. replace (ptr (fill f _)) with (faddr f) by (by destruct f).
      rewrite Z.eqb_refl. apply wp_bind. eapply (wpt_right s k'); [exact Hs|]. apply wp_bind.
      eapply (wpt_red_node s (FR Black (fill f (T Red l x r)) gp :: k')); [exact Hs|].
      destruct (is_red u) eqn:Eu.
      * eapply insert_red_uncle_l; [exact Hs|exact Ered|exact Eu|]. clear s Hs. intros s Hs.
        eapply (IH s k' _ gp _ (S n)); [lia|exact Hs| |done|eapply insert_post_eq; [|exact HQ]].
        -- destruct u as [|[] ul ux ur]; try done. inversion Hu; subst. constructor; [|eauto with rbtree].
           inversion Hk; subst; simpl; eauto with rbtree.
        -- cbn [plug]. rewrite !(inorder_plug k'). cbn [inorder fill]. by rewrite !blacken_inorder.
      * eapply insert_black_uncle_l;
          [lia|exact Hs|exact Hl|exact Hr|exact Hk|exact Ered|exact Hk'|exact Hu|exact Eu|exact HQ].
    + eapply (wpt_left s k'); [exact Hs|].
      rewrite (proj2 (Z.eqb_neq (faddr f) (ptr u))).
      2: { intros E. destruct (repr_children_ne s k' _ _ _ _ Hs) as [_ H]; [by destruct f|by destruct f]. }
      apply wp_bind. eapply (wpt_left s k'); [exact Hs|]. apply wp_bind.
      eapply (wpt_red_node s (FL Black gp (fill f (T Red l x r)) :: k')); [exact Hs|].
      destruct (is_red u) eqn:Eu.
      * eapply insert_red_uncle_r; [exact Hs|exact Ered|exact Eu|]. clear s Hs. intros s Hs.
        eapply (IH s k' _ gp _ (S n)); [lia|exact Hs| |done|eapply insert_post_eq; [|exact HQ]].
        -- destruct u as [|[] ul ux ur]; try done. inversion Hu; subst. constructor; [eauto with rbtree|].
           inversion Hk; subst; simpl; eauto with rbtree.
        -- cbn [plug]. rewrite !(inorder_plug k'). cbn [inorder fill]. by rewrite !blacken_inorder.
      * eapply insert_black_uncle_r;
          [lia|exact Hs|exact Hl|exact Hr|exact Hk|exact Ered|exact Hk'|exact Hu|exact Eu|exact HQ].
Qed.

Lemma rb_insert_color_wp fuel s k x n (Q : unit -> st -> Prop) :
  (length k < fuel)%nat -> repr s (plug k (T Red E x E)) -> rbctx k Black n -> n = 0%nat ->
  (forall s' t', repr s' t' -> is_rb t' -> inorder t' = inorder (plug k (T Red E x E)) -> Q tt s') ->
  wp (rb_insert_color fuel x) s Q.
Proof.
  intros Hf Hs Hk -> HQ. apply wp_bind.
  eapply insert_loop_spec; [exact Hf|exact Hs|eauto with rbtree|exact Hk|]. clear s Hs.
  intros s t Hs Hio Hrb Hne. apply wp_bind, wp_get_root. pose proof Hs as [_ ->].
  destruct t as [|c l y r]; [done|]. eapply (wpt_set_black s []); [exact Hs|].
  intros s' Hs'. by apply (HQ s' _ Hs').
Qed.

(** [rb_link_node] puts a fresh node into an empty place. *)
Definition link_of (k : ctx) : link :=
  match k with [] => LinkRoot | FL _ p _ :: _ => LinkLeft p | FR _ _ p :: _ => LinkRight p end.

Lemma rb_link_node_wp s k x (Q : unit -> st -> Prop) :
  repr s (plug k E) -> okaddr x -> x ∉ inorder (plug k E) -> is_Some (nodes_mem s !! x) ->
  (forall s', repr s' (plug k (T Red E x E)) -> Q tt s') ->
  wp (rb_link_node x (cptr k) (link_of k)) s Q.
Proof.
  intros Hrep Hx Hfresh Hn HQ. destruct (sat_fresh s _ x Hrep Hx Hfresh Hn) as [n Hs].
  destruct Hrep as [_ Hroot]. apply (sat_perm _ _ ((x, n) :: cnodes k 0)) in Hs; [|by rewrite nodes_plug].
  rewrite ptr_plug in Hroot. cbn [ptr] in Hroot.
  unfold rb_link_node. apply wp_bind. eapply wp_update; [exact Hs|]. clear Hs. intros s1 Hs1 Hr1. cbv beta in Hs1.
  replace (cptr k) with (pc (cptr k) Red) in Hs1 by (unfold pc; cbn [bit]; lia).
  apply wp_bind. eapply wp_set_right; [exact Hs1|]. clear Hs1. intros s2 Hs2 Hr2.
  apply wp_bind. eapply wp_set_left; [exact Hs2|]. clear Hs2. intros s3 Hs3 Hr3.
  destruct k as [|[c p r|c l p] k]; cbn [link_of set_link cnodes top faddr] in *.
  - eapply wp_set_root; [exact Hs3|]. intros s4 Hs4 Hr4. by apply HQ.
  - front s3 p. eapply wp_set_left; [exact Hs3|]. intros s4 Hs4 Hr4. apply HQ, repr_plug.
    split; [|cbn [top faddr]; congruence]. cbn [nodes cnodes ptr app]. eapply sat_perm; [|exact Hs4]. solve_Permutation.
  - front s3 p. eapply wp_set_right; [exact Hs3|]. intros s4 Hs4 Hr4. apply HQ, repr_plug.
    split; [|cbn [top faddr]; congruence]. cbn [nodes cnodes ptr app]. eapply sat_perm; [|exact Hs4]. solve_Permutation.
Qed.

(** ** Correctness of insertion *)

(** C1: Linking a new node at any empty place of a well-formed red-black tree in memory and running
    rb_insert_color succeeds, and leaves memory representing a red-black tree again (no red node
    has a red child, every path has the same number of black nodes, the root is black), whose
    in-order sequence is the old one with the new node at the place where it was linked. *)
Theorem rb_insert_correct fuel s k x :
  repr s (plug k E) -> is_rb (plug k E) -> okaddr x -> x ∉ inorder (plug k E) ->
  is_Some (nodes_mem s !! x) -> (length k < fuel)%nat ->
  exists s' t',
    bind (rb_link_node x (cptr k) (link_of k)) (fun _ => rb_insert_color fuel x) s = Some (tt, s') /\
    repr s' t' /\ is_rb t' /\ inorder t' = before k ++ x :: after k.
Proof.
  intros Hs [m Hrb] Hx Hfresh Hin Hf. apply rbt_unplug in Hrb as (c & n & Hk & Ht).
  inversion Ht; subst. enough (wp (rb_link_node x (cptr k) (link_of k) ;;; rb_insert_color fuel x) s
    (fun _ s' => exists t', repr s' t' /\ is_rb t' /\ inorder t' = before k ++ x :: after k)) as Hwp.
  { unfold wp in Hwp. destruct (bind _ _ s) as [[[] s']|]; [|done].
    destruct Hwp as (t' & ? & ? & ?). by exists s', t'. }
  apply wp_bind, rb_link_node_wp; [done..|]. clear s Hs Hin. intros s Hs.
  eapply rb_insert_color_wp; [exact Hf|exact Hs|exact Hk|done|].
  intros s' t' Hs' Ht' Hio. exists t'. rewrite inorder_plug in Hio. by split.
Qed.

(** A node put to the right of the largest. *)
Lemma rb_insert_correct_witness :
  exists s' t',
    bind (rb_link_node 16 12 (LinkRight 12)) (fun _ => rb_insert_color 9 16) demo_heap = Some (tt, s') /\
    repr s' t' /\ is_rb t' /\ inorder t' = [4; 8; 12; 16].
Proof.
  apply (rb_insert_correct 9 demo_heap [FR Red E 12; FR Black (T Red E 4 E) 8] 16).
  - exact demo_repr.
  - exact demo_rb.
  - by split.
  - apply (bool_decide_unpack _). vm_compute. exact I.
  - by eexists.
  - simpl. lia.
Defined.
