(* ===== verification/RbtreeErase.v ===== *)
(** * rb_erase keeps the red-black invariants *)

From S2P Require Import Prelude Rbtree RbtreeLogic.

Local Open Scope Z_scope.
Local Open Scope rb_scope.

Ltac io := cbn [inorder fill]; do 4 (rewrite <- ?app_assoc; cbn [app]); reflexivity.

(** What [erase_loop] achieves from the tree [t]: blackening the returned node
    gives a red-black tree with the same elements. *)
Definition erase_post (t : tree) (Q : Z -> st -> Prop) : Prop :=
  forall s' k' t', repr s' (plug k' t') -> inorder (plug k' t') = inorder t ->
    is_rb (plug k' (blacken t')) -> Q (ptr t') s'.

(** Returning the root of a correct tree. *)
Lemma erase_post_done k t t' Q s c m :
  repr s (plug k t') -> erase_post (plug k t) Q -> inorder t' = inorder t -> rbctx k c m -> rbt c m t' ->
  Q (root_node s) s.
Proof.
  intros Hs HQ Hio Hk Ht. pose proof Hs as [_ ->]. apply (HQ s [] _ Hs).
  - simpl. by rewrite !inorder_plug, Hio.
  - simpl. pose proof (rbt_plug k c m t' Hk Ht) as Hrb. by rewrite blacken_rb.
Qed.

#[export] Instance color_eq_dec : EqDecision color.
Proof. solve_decision. Defined.

#[export] Instance tree_eq_dec : EqDecision tree.
Proof. solve_decision. Defined.

(** The last step when the outer nephew is red: the deficit is repaired. *)
Definition erase_final_l (other parent : Z) : M Z :=
  pc <- rb_color parent ;;
  rb_set_color other pc ;;;
  rb_set_black parent ;;;
  or <- get_right other ;;
  rb_set_black or ;;;
  __rb_rotate_left parent ;;;
  get_root.

Lemma erase_final_l_spec s k cp t p c wl y a z b (Q : Z -> st -> Prop) :
  repr s (plug k (T cp t p (T c wl y (T Red a z b)))) ->
  (forall s', repr s' (plug k (T cp (T Black t p wl) y (T Black a z b))) -> Q (root_node s') s') ->
  wp (erase_final_l y p) s Q.
Proof.
  intros Hs HQ. unfold erase_final_l. apply wp_bind.
  eapply (wpt_color s k); [exact Hs|]. apply wp_bind.
  eapply (wpt_set_color s (FR cp t p :: k)); [exact Hs|]. clear s Hs. intros s Hs. apply wp_bind.
  eapply (wpt_set_black s k); [exact Hs|]. clear s Hs. intros s Hs. apply wp_bind.
  eapply (wpt_right s (FR Black t p :: k)); [exact Hs|]. apply wp_bind.
  eapply (wpt_set_black s (FR cp wl y :: FR Black t p :: k)); [exact Hs|]. clear s Hs. intros s Hs. apply wp_bind.
  eapply (wp_rotate_left s k); [exact Hs|]. clear s Hs. intros s Hs. apply wp_get_root. by apply HQ.
Qed.

(** A black sibling [y]. *)
Definition erase_black_l (other parent : Z) (again : Z -> Z -> M Z) : M Z :=
  ol <- get_left other ;;
  olb <- black_or_null ol ;;
  or <- get_right other ;;
  orb <- black_or_null or ;;
  if olb && orb then
    rb_set_red other ;;;
    parent' <- rb_parent parent ;;
    again parent parent'
  else
    other <- (if (orb : bool) then
                ol <- get_left other ;;
                rb_set_black ol ;;;
                rb_set_red other ;;;
                __rb_rotate_right other ;;;
                get_right parent
              else ret other) ;;
    erase_final_l other parent.

Lemma erase_black_l_spec s k cp t p wl y wr n m again (Q : Z -> st -> Prop) :
  repr s (plug k (T cp t p (T Black wl y wr))) ->
  rbt Black n t -> rbt Black (S n) (T Black wl y wr) -> rbctx k cp m ->
  (cp = Red /\ m = S n \/ cp = Black /\ m = S (S n)) ->
  erase_post (plug k (T cp t p (T Black wl y wr))) Q ->
  (forall s', is_red wl = false -> is_red wr = false ->
     repr s' (plug k (T cp t p (T Red wl y wr))) -> wp (again p (cptr k)) s' Q) ->
  wp (erase_black_l y p again) s Q.
Proof.
  intros Hs Ht Hw Hk Hm HQ Hagain. unfold erase_black_l.
  inversion Hw as [| |? cl cr ? ? ? Hl Hr]; subst. apply wp_bind.
  eapply (wpt_left s (FR cp t p :: k)); [exact Hs|]. apply wp_bind.
  eapply (wpt_black_or_null s (FL Black y wr :: FR cp t p :: k)); [exact Hs|]. apply wp_bind.
  eapply (wpt_right s (FR cp t p :: k)); [exact Hs|]. apply wp_bind.
  eapply (wpt_black_or_null s (FR Black wl y :: FR cp t p :: k)); [exact Hs|].
  destruct (is_red wr) eqn:Er; cbn [negb].
  - rewrite andb_false_r. apply wp_bind, wp_ret. destruct wr as [|[] a z b]; try done.
    inversion Hr as [|? ? ? ? Ha Hb|]; subst.
    eapply erase_final_l_spec; [exact Hs|]. clear s Hs. intros s Hs.
    eapply (erase_post_done k); [exact Hs|exact HQ|io|exact Hk|].
    destruct Hm as [[-> ->]|[-> ->]]; eauto 6 with rbtree.
  - destruct (is_red wl) eqn:El; cbn [negb andb].
    + destruct wl as [|[] a z b]; try done. inversion Hl as [|? ? ? ? Ha Hb|]; subst.
      apply wp_bind, wp_bind. eapply (wpt_left s (FR cp t p :: k)); [exact Hs|].
      apply wp_bind. eapply (wpt_set_black s (FL Black y wr :: FR cp t p :: k)); [exact Hs|]. clear s Hs. intros s Hs.
      apply wp_bind. eapply (wpt_set_red s (FR cp t p :: k)); [exact Hs|]. clear s Hs. intros s Hs.
      apply wp_bind. eapply (wp_rotate_right s (FR cp t p :: k)); [exact Hs|]. clear s Hs. intros s Hs.
      eapply (wpt_right s k); [exact Hs|].
      eapply erase_final_l_spec; [exact Hs|]. clear s Hs. intros s Hs.
      eapply (erase_post_done k); [exact Hs|exact HQ|io|exact Hk|].
      destruct Hm as [[-> ->]|[-> ->]]; eauto 6 with rbtree.
    + apply wp_bind. eapply (wpt_set_red s (FR cp t p :: k)); [exact Hs|]. clear s Hs. intros s Hs.
      apply wp_bind. eapply (wpt_parent s k); [exact Hs|]. by apply Hagain.
Qed.

(** The mirror images. *)
Definition erase_final_r (other parent : Z) : M Z :=
  pc <- rb_color parent ;;
  rb_set_color other pc ;;;
  rb_set_black parent ;;;
  ol <- get_left other ;;
  rb_set_black ol ;;;
  __rb_rotate_right parent ;;;
  get_root.

Lemma erase_final_r_spec s k cp t p c wr y a z b (Q : Z -> st -> Prop) :
  repr s (plug k (T cp (T c (T Red a z b) y wr) p t)) ->
  (forall s', repr s' (plug k (T cp (T Black a z b) y (T Black wr p t))) -> Q (root_node s') s') ->
  wp (erase_final_r y p) s Q.
Proof.
  intros Hs HQ. unfold erase_final_r. apply wp_bind.
  eapply (wpt_color s k); [exact Hs|]. apply wp_bind.
  eapply (wpt_set_color s (FL cp p t :: k)); [exact Hs|]. clear s Hs. intros s Hs. apply wp_bind.
  eapply (wpt_set_black s k); [exact Hs|]. clear s Hs. intros s Hs. apply wp_bind.
  eapply (wpt_left s (FL Black p t :: k)); [exact Hs|]. apply wp_bind.
  eapply (wpt_set_black s (FL cp y wr :: FL Black p t :: k)); [exact Hs|]. clear s Hs. intros s Hs. apply wp_bind.
  eapply (wp_rotate_right s k); [exact Hs|]. clear s Hs. intros s Hs. apply wp_get_root. by apply HQ.
Qed.

Definition erase_black_r (other parent : Z) (again : Z -> Z -> M Z) : M Z :=
  ol <- get_left other ;;
  olb <- black_or_null ol ;;
  or <- get_right other ;;
  orb <- black_or_null or ;;
  if olb && orb then
    rb_set_red other ;;;
    parent' <- rb_parent parent ;;
    again parent parent'
  else
    other <- (if (olb : bool) then
                or <- get_right other ;;
                rb_set_black or ;;;
                rb_set_red other ;;;
                __rb_rotate_left other ;;;
                get_left parent
              else ret other) ;;
    erase_final_r other parent.

Lemma erase_black_r_spec s k cp t p wl y wr n m again (Q : Z -> st -> Prop) :
  repr s (plug k (T cp (T Black wl y wr) p t)) ->
  rbt Black n t -> rbt Black (S n) (T Black wl y wr) -> rbctx k cp m ->
  (cp = Red /\ m = S n \/ cp = Black /\ m = S (S n)) ->
  erase_post (plug k (T cp (T Black wl y wr) p t)) Q ->
  (forall s', is_red wl = false -> is_red wr = false ->
     repr s' (plug k (T cp (T Red wl y wr) p t)) -> wp (again p (cptr k)) s' Q) ->
  wp (erase_black_r y p again) s Q.
Proof.
  intros Hs Ht Hw Hk Hm HQ Hagain. unfold erase_black_r.
  inversion Hw as [| |? cl cr ? ? ? Hl Hr]; subst. apply wp_bind.
  eapply (wpt_left s (FL cp p t :: k)); [exact Hs|]. apply wp_bind.
  eapply (wpt_black_or_null s (FL Black y wr :: FL cp p t :: k)); [exact Hs|]. apply wp_bind.
  eapply (wpt_right s (FL cp p t :: k)); [exact Hs|]. apply wp_bind.
  eapply (wpt_black_or_null s (FR Black wl y :: FL cp p t :: k)); [exact Hs|].
  destruct (is_red wl) eqn:El; cbn [negb andb].
  - apply wp_bind, wp_ret. destruct wl as [|[] a z b]; try done.
    inversion Hl as [|? ? ? ? Ha Hb|]; subst.
    eapply erase_final_r_spec; [exact Hs|]. clear s Hs. intros s Hs.
    eapply (erase_post_done k); [exact Hs|exact HQ|io|exact Hk|].
    destruct Hm as [[-> ->]|[-> ->]]; eauto 6 with rbtree.
  - destruct (is_red wr) eqn:Er; cbn [negb].
    + destruct wr as [|[] a z b]; try done. inversion Hr as [|? ? ? ? Ha Hb|]; subst.
      apply wp_bind, wp_bind. eapply (wpt_right s (FL cp p t :: k)); [exact Hs|].
      apply wp_bind. eapply (wpt_set_black s (FR Black wl y :: FL cp p t :: k)); [exact Hs|]. clear s Hs. intros s Hs.
      apply wp_bind. eapply (wpt_set_red s (FL cp p t :: k)); [exact Hs|]. clear s Hs. intros s Hs.
      apply wp_bind. eapply (wp_rotate_left s (FL cp p t :: k)); [exact Hs|]. clear s Hs. intros s Hs.
      eapply (wpt_left s k); [exact Hs|].
      eapply erase_final_r_spec; [exact Hs|]. clear s Hs. intros s Hs.
      eapply (erase_post_done k); [exact Hs|exact HQ|io|exact Hk|].
      destruct Hm as [[-> ->]|[-> ->]]; eauto 6 with rbtree.
    + apply wp_bind. eapply (wpt_set_red s (FL cp p t :: k)); [exact Hs|]. clear s Hs. intros s Hs.
      apply wp_bind. eapply (wpt_parent s k); [exact Hs|]. by apply Hagain.
Qed.

(** ** The loop *)

(** The address at the root is one of the context's. *)
Lemma top_in_cnodes f k p : exists n, (top (f :: k) p, n) ∈ cnodes (f :: k) p.
Proof.
  revert f p. induction k as [|g k IH]; intros f p.
  - destruct f; eexists; left.
  - destruct (IH g (faddr f)) as [n Hn]. exists n.
    destruct f; cbn [cnodes top faddr] in *; right; apply elem_of_app; by right.
Qed.

Lemma repr_not_root s f k t : repr s (plug (f :: k) t) -> ptr t <> root_node s.
Proof.
  intros [Hs ->]%repr_plug Heq. destruct (top_in_cnodes f k (ptr t)) as [n Hn].
  destruct t as [|c l x r].
  - destruct Hs as (_ & Hok & _). rewrite list.Forall_forall in Hok. cbn [nodes app] in Hok.
    destruct (Hok (top (f :: k) (ptr E))) as [Hpos _]; [apply list_elem_of_fmap; by exists (top (f :: k) (ptr E), n)|].
    rewrite <- Heq in Hpos. simpl in Hpos. lia.
  - cbn [nodes ptr app] in *. eapply (sat_ne s x _ x n); [exact Hs| |done].
    rewrite Heq at 1. apply elem_of_app. by right.
Qed.

(** One turn of the loop on a red node, or at the root, stops. *)
Lemma erase_loop_stop fuel s k t (Q : Z -> st -> Prop) :
  repr s (plug k t) -> is_red t = true \/ k = [] -> Q (ptr t) s -> wp (erase_loop (S fuel) (ptr t) (cptr k)) s Q.
Proof.
  intros Hs Hc HQ. cbn [erase_loop]. apply wp_bind. eapply wpt_black_or_null; [exact Hs|].
  apply wp_bind, wp_get_root. destruct Hc as [->| ->]; [done|].
  assert (ptr t = root_node s) as <- by (destruct Hs; done). by rewrite Z.eqb_refl, andb_false_r.
Qed.

Lemma erase_exit_red k l x r n s fuel Q :
  repr s (plug k (T Red l x r)) -> erase_post (plug k (T Red l x r)) Q ->
  rbctx k Black (S n) -> rbt Black (S n) (T Black l x r) -> wp (erase_loop (S fuel) x (cptr k)) s Q.
Proof.
  intros Hs HQ Hk Ht. apply (erase_loop_stop fuel s k (T Red l x r)); [done|by left|].
  apply (HQ s k _ Hs); [done|]. by eapply rbt_plug.
Qed.

Lemma erase_post_eq t t' Q : inorder t' = inorder t -> erase_post t Q -> erase_post t' Q.
Proof. intros He HQ s k u Hs Hio. apply HQ; [done|congruence]. Qed.

Lemma rbt_not_red c n t : rbt c n t -> is_red t = false -> rbt Black n t.
Proof. intros []; intros Hr; try done; eauto with rbtree. Qed.

(** The sibling of a hole of black height [S n], and the hole of the parent. *)
Lemma rbctx_sibling_l k cp p w n :
  rbctx (FL cp p w :: k) Black (S n) ->
  exists cw m, rbt cw (S n) w /\ rbctx k cp m /\ (cp = Red /\ m = S n \/ cp = Black /\ m = S (S n)) /\
    (cw = Red -> cp = Black /\ m = S (S n)).
Proof. inversion 1; subst; eexists _, _; (split; [eassumption|]); (split; [eassumption|]);
  (split; [auto|]); intros; first [discriminate|auto]. Qed.

Lemma rbctx_sibling_r k cp p w n :
  rbctx (FR cp w p :: k) Black (S n) ->
  exists cw m, rbt cw (S n) w /\ rbctx k cp m /\ (cp = Red /\ m = S n \/ cp = Black /\ m = S (S n)) /\
    (cw = Red -> cp = Black /\ m = S (S n)).
Proof. inversion 1; subst; eexists _, _; (split; [eassumption|]); (split; [eassumption|]);
  (split; [auto|]); intros; first [discriminate|auto]. Qed.

(** The specification of the loop: the hole of [k] wants black height [S n], and
    [t] is one short, or is red and right once it is black. *)
Definition erase_inv (fuel : nat) : Prop :=
  forall s k t n (Q : Z -> st -> Prop),
    (length k < fuel)%nat -> repr s (plug k t) -> rbctx k Black (S n) ->
    (rbt Black n t \/ exists l x r, t = T Red l x r /\ rbt Black (S n) (T Black l x r)) ->
    erase_post (plug k t) Q -> wp (erase_loop fuel (ptr t) (cptr k)) s Q.

(** The turn of the loop for a left child [t] that is one black node short. *)
Definition erase_turn_l (parent : Z) (again : Z -> Z -> M Z) : M Z :=
  other <- get_right parent ;;
  ored <- rb_is_red other ;;
  other <- (if (ored : bool) then
              rb_set_black other ;;;
              rb_set_red parent ;;;
              __rb_rotate_left parent ;;;
              get_right parent
            else ret other) ;;
  erase_black_l other parent again.

Lemma erase_turn_l_spec fuel s k cp t p w n (Q : Z -> st -> Prop) :
  erase_inv fuel -> (length k < fuel)%nat ->
  repr s (plug (FL cp p w :: k) t) -> rbt Black n t -> rbctx (FL cp p w :: k) Black (S n) ->
  erase_post (plug (FL cp p w :: k) t) Q ->
  wp (erase_turn_l p (erase_loop fuel)) s Q.
Proof.
  intros IH Hf Hs Ht Hk HQ. destruct fuel as [|fuel]; [lia|]. cbn [plug fill] in *. unfold erase_turn_l.
  apply rbctx_sibling_l in Hk as (cw & m & Hw & Hk & Hm & Hred).
  destruct w as [|cw' wl y wr]; [by inversion Hw|]. apply wp_bind.
  eapply (wpt_right s k); [exact Hs|]. apply wp_bind.
  eapply (wpt_is_red s (FR cp t p :: k)); [exact Hs|]. destruct cw'; cbn [is_red].
  - inversion Hw as [|? ? ? ? Hl Hr|]; subst. destruct Hred as [-> ->]; [done|]. apply wp_bind, wp_bind.
    eapply (wpt_set_black s (FR Black t p :: k)); [exact Hs|]. clear s Hs. intros s Hs. apply wp_bind.
    eapply (wpt_set_red s k); [exact Hs|]. clear s Hs. intros s Hs. apply wp_bind.
    eapply (wp_rotate_left s k); [exact Hs|]. clear s Hs. intros s Hs.
    eapply (wpt_right s (FL Black y wr :: k)); [exact Hs|].
    destruct wl as [|[] a z b]; [by inversion Hl|by inversion Hl|]. cbn [ptr].
    eapply (erase_black_l_spec s (FL Black y wr :: k));
      [exact Hs|exact Ht|exact Hl|eauto with rbtree|by left|eapply erase_post_eq; [|exact HQ]|].
    + cbn [plug fill]. rewrite !inorder_plug. io.
    + clear s Hs. intros s Ha Hb Hs. eapply (erase_exit_red _ _ _ _ n); [exact Hs|eapply erase_post_eq; [|exact HQ]|eauto with rbtree|].
      * cbn [plug fill]. rewrite !inorder_plug. io.
      * inversion Hl; subst. apply (rbt_black _ Black Red); [exact Ht|]. apply rbt_red; by eapply rbt_not_red.
  - apply wp_bind, wp_ret. inversion Hw; subst.
    eapply (erase_black_l_spec s k); [exact Hs|exact Ht|exact Hw|exact Hk|exact Hm|exact HQ|].
    clear s Hs. intros s Ha Hb Hs.
    assert (rbt Red n (T Red wl y wr)) as Hw' by (constructor; by eapply rbt_not_red).
    destruct Hm as [[-> ->]|[-> ->]].
    + eapply (erase_exit_red _ _ _ _ n); [exact Hs|eapply erase_post_eq; [|exact HQ]|by eapply rbctx_black|eauto with rbtree].
      rewrite !inorder_plug. io.
    + eapply (IH s k (T Black t p (T Red wl y wr)) (S n)); [lia|exact Hs|exact Hk|left; eauto with rbtree|].
      eapply erase_post_eq; [|exact HQ]. rewrite !inorder_plug. io.
Qed.

(** The turn of the loop for a right child [t] that is one black node short. *)
Definition erase_turn_r (parent : Z) (again : Z -> Z -> M Z) : M Z :=
  other <- get_left parent ;;
  ored <- rb_is_red other ;;
  other <- (if (ored : bool) then
              rb_set_black other ;;;
              rb_set_red parent ;;;
              __rb_rotate_right parent ;;;
              get_left parent
            else ret other) ;;
  erase_black_r other parent again.

Lemma erase_turn_r_spec fuel s k cp t p w n (Q : Z -> st -> Prop) :
  erase_inv fuel -> (length k < fuel)%nat ->
  repr s (plug (FR cp w p :: k) t) -> rbt Black n t -> rbctx (FR cp w p :: k) Black (S n) ->
  erase_post (plug (FR cp w p :: k) t) Q ->
  wp (erase_turn_r p (erase_loop fuel)) s Q.
Proof.
  intros IH Hf Hs Ht Hk HQ. destruct fuel as [|fuel]; [lia|]. cbn [plug fill] in *. unfold erase_turn_r.
  apply rbctx_sibling_r in Hk as (cw & m & Hw & Hk & Hm & Hred).
  destruct w as [|cw' wl y wr]; [by inversion Hw|]. apply wp_bind.
  eapply (wpt_left s k); [exact Hs|]. apply wp_bind.
  eapply (wpt_is_red s (FL cp p t :: k)); [exact Hs|]. destruct cw'; cbn [is_red].
  - inversion Hw as [|? ? ? ? Hl Hr|]; subst. destruct Hred as [-> ->]; [done|]. apply wp_bind, wp_bind.
    eapply (wpt_set_black s (FL Black p t :: k)); [exact Hs|]. clear s Hs. intros s Hs. apply wp_bind.
    eapply (wpt_set_red s k); [exact Hs|]. clear s Hs. intros s Hs. apply wp_bind.
    eapply (wp_rotate_right s k); [exact Hs|]. clear s Hs. intros s Hs.
    eapply (wpt_left s (FR Black wl y :: k)); [exact Hs|].
    destruct wr as [|[] a z b]; [by inversion Hr|by inversion Hr|]. cbn [ptr].
    eapply (erase_black_r_spec s (FR Black wl y :: k));
      [exact Hs|exact Ht|exact Hr|eauto with rbtree|by left|eapply erase_post_eq; [|exact HQ]|].
    + cbn [plug fill]. rewrite !inorder_plug. io.
    + clear s Hs. intros s Ha Hb Hs. eapply (erase_exit_red _ _ _ _ n); [exact Hs|eapply erase_post_eq; [|exact HQ]|eauto with rbtree|].
      * cbn [plug fill]. rewrite !inorder_plug. io.
      * inversion Hr; subst. apply (rbt_black _ Red Black); [|exact Ht]. apply rbt_red; by eapply rbt_not_red.
  - apply wp_bind, wp_ret. inversion Hw; subst.
    eapply (erase_black_r_spec s k); [exact Hs|exact Ht|exact Hw|exact Hk|exact Hm|exact HQ|].
    clear s Hs. intros s Ha Hb Hs.
    assert (rbt Red n (T Red wl y wr)) as Hw' by (constructor; by eapply rbt_not_red).
    destruct Hm as [[-> ->]|[-> ->]].
    + eapply (erase_exit_red _ _ _ _ n); [exact Hs|eapply erase_post_eq; [|exact HQ]|by eapply rbctx_black|eauto with rbtree].
      rewrite !inorder_plug. io.
    + eapply (IH s k (T Black (T Red wl y wr) p t) (S n)); [lia|exact Hs|exact Hk|left; eauto with rbtree|].
      eapply erase_post_eq; [|exact HQ]. rewrite !inorder_plug. io.
Qed.

Lemma erase_loop_spec fuel : erase_inv fuel.
Proof.
  induction fuel as [|fuel IH]; intros s k t n Q Hf Hs Hk Ht HQ; [lia|].
  destruct Ht as [Ht|(l & x & r & -> & Ht)]; [|by eapply erase_exit_red].
  destruct k as [|f k].
  { apply (erase_loop_stop fuel s [] t); [done|by right|]. apply (HQ s [] t Hs); [done|].
    simpl. rewrite blacken_rb by (by exists n). by exists n. }
  assert (is_red t = false) as Hred by (by inversion Ht).
  cbn [erase_loop]. apply wp_bind. eapply wpt_black_or_null; [exact Hs|]. apply wp_bind, wp_get_root.
  rewrite Hred, (proj2 (Z.eqb_neq _ _) (repr_not_root _ _ _ _ Hs)). cbn [negb andb length] in *.
  apply wp_bind. destruct f as [cp p w|cp w p]; cbn [cptr faddr].
  - eapply (wpt_left s k); [exact Hs|]. rewrite Z.eqb_refl.
    eapply (erase_turn_l_spec fuel s k cp t p w n); [exact IH|lia|exact Hs|exact Ht|exact Hk|exact HQ].
  - eapply (wpt_left s k); [exact Hs|]. rewrite (proj2 (Z.eqb_neq (ptr w) (ptr t))).
    + eapply (erase_turn_r_spec fuel s k cp t p w n); [exact IH|lia|exact Hs|exact Ht|exact Hk|exact HQ].
    + intros Heq. destruct (repr_children_ne s k _ _ _ _ Hs Heq) as [-> _].
      apply rbctx_sibling_r in Hk as (cw & m & Hw & _). by inversion Hw.
Qed.

Lemma rb_erase_color_wp fuel s k t n (Q : unit -> st -> Prop) :
  (length k < fuel)%nat -> repr s (plug k t) -> rbctx k Black (S n) ->
  (rbt Black n t \/ exists l x r, t = T Red l x r /\ rbt Black (S n) (T Black l x r)) ->
  (forall s' t', repr s' t' -> is_rb t' -> inorder t' = inorder (plug k t) -> Q tt s') ->
  wp (__rb_erase_color fuel (ptr t) (cptr k)) s Q.
Proof.
  intros Hf Hs Hk Ht HQ. apply wp_bind. eapply erase_loop_spec; [exact Hf|exact Hs|exact Hk|exact Ht|].
  clear s Hs. intros s k' t' Hs Hio Hrb. destruct t' as [|c l x r]; cbn [ptr].
  - by apply wp_ret, (HQ s _ Hs).
  - rewrite (okaddr_truthy x) by (by eapply repr_ok). eapply wpt_set_black; [exact Hs|].
    intros s' Hs'. apply (HQ s' _ Hs'); [done|]. rewrite <- Hio, !inorder_plug. done.
Qed.

(** ** Taking a node out *)

Lemma sat_cptr_in s k p l1 l2 : sat s (l1 ++ cnodes k p ++ l2) -> cptr k mod 4 = 0.
Proof. intros Hs. apply (sat_cptr s k p (l1 ++ l2)). eapply sat_perm; [|exact Hs]. solve_Permutation. Qed.

(** A node with one child [ch] is replaced by it. *)
Lemma wp_erase_unlink s k c x r l ch (Q : Z * Z * Z -> st -> Prop) :
  sat s ((x, mk_node (pc (cptr k) c) r l) :: nodes x ch ++ cnodes k x) -> root_node s = top k x ->
  (forall s', repr s' (plug k ch) -> Q (ptr ch, cptr k, bit c) s') ->
  wp (erase_unlink x (ptr ch)) s Q.
Proof.
  intros Hs Hroot HQ. assert (okaddr x) as Hx by (by eapply sat_ok).
  assert (cptr k mod 4 = 0) as Hk.
  { apply (sat_cptr_in s k x ((x, mk_node (pc (cptr k) c) r l) :: nodes x ch) []). by rewrite app_nil_r. }
  unfold erase_unlink. do 4 step1. apply wp_bind.
  apply (sat_perm _ _ (nodes x ch ++ (x, mk_node (pc (cptr k) c) r l) :: cnodes k x)) in Hs; [|solve_Permutation].
  eapply (wp_reparent s x (cptr k) ch); [exact Hs|aligned|aligned|]. clear Hs. intros s1 Hs Hr1.
  apply (sat_perm _ _ ((x, mk_node (pc (cptr k) c) r l) :: cnodes k x ++ nodes (cptr k) ch)) in Hs; [|solve_Permutation].
  apply wp_bind. fold (relink_l x (ptr ch) (cptr k)).
  eapply wp_relink_l; [exact Hs|congruence|]. clear Hs. intros s2 Hs Hr2.
  apply wp_ret, HQ, repr_plug. split; [|done]. apply sat_tail in Hs. eapply sat_perm; [|exact Hs]. solve_Permutation.
Qed.

(** [y] takes the place of [x]: the fields are copied and the links redirected. *)
Lemma wp_take_place {A} s k c l x r y n (rest : M A) (Q : A -> st -> Prop) :
  l <> E ->
  sat s ((y, n) :: nodes 0 (plug k (T c l x r))) -> root_node s = top k x ->
  (forall s', repr s' (plug k (T c l y r)) -> wp rest s' Q) ->
  wp (o <- load_node x ;;
      set_parent_color y (rb_parent_color o) ;;;
      set_right y (rb_right o) ;;;
      set_left y (rb_left o) ;;;
      op <- rb_parent x ;;
      relink_l x y op ;;;
      ol <- get_left x ;;
      rb_set_parent ol y ;;;
      or <- get_right x ;;
      (if truthy or then rb_set_parent or y else ret tt) ;;;
      rest) s Q.
Proof.
  intros Hl Hs Hroot HQ. set (nx := mk_node (pc (cptr k) c) (ptr r) (ptr l)).
  assert (okaddr y) as Hy by (by eapply sat_ok).
  apply (sat_perm _ _ ((x, nx) :: (y, n) :: nodes x l ++ nodes x r ++ cnodes k x)) in Hs.
  2: { rewrite nodes_plug. cbn [nodes ptr]. solve_Permutation. }
  assert (okaddr x) as Hx by (by eapply sat_ok).
  assert (cptr k mod 4 = 0) as Hk.
  { apply (sat_cptr_in s k x ((x, nx) :: (y, n) :: nodes x l ++ nodes x r) []).
    rewrite app_nil_r. cbn [app]. by rewrite <- app_assoc. }
  do 2 step1. apply wp_bind. front s y.
  eapply wp_update; [exact Hs|]. clear Hs. intros s1 Hs Hr1. cbn [rb_parent_color rb_right rb_left nx] in Hs.
  step1. upd1 s2. step1. upd1 s3. do 2 step1. step1.
  apply (sat_perm _ _ ((x, nx) :: cnodes k x ++ (y, nx) :: nodes x l ++ nodes x r)) in Hs; [|solve_Permutation].
  eapply wp_relink_l; [exact Hs|congruence|]. clear Hs. intros s4 Hs Hr4. subst nx. do 2 step1.
  apply (sat_perm _ _ (nodes x l ++ (x, mk_node (pc (cptr k) c) (ptr r) (ptr l)) ::
    (y, mk_node (pc (cptr k) c) (ptr r) (ptr l)) :: nodes x r ++ cnodes k y)) in Hs; [|solve_Permutation].
  apply wp_bind. replace (rb_set_parent (ptr l) y) with (if truthy (ptr l) then rb_set_parent (ptr l) y else ret tt).
  2: { destruct l as [|cl ll z lr]; [done|]. cbn [nodes app ptr] in *. by rewrite (okaddr_truthy z) by (by eapply sat_ok). }
  eapply (wp_reparent s4 x y l); [exact Hs|aligned|aligned|]. clear Hs. intros s5 Hs Hr5.
  apply (sat_perm _ _ ((x, mk_node (pc (cptr k) c) (ptr r) (ptr l)) ::
    (y, mk_node (pc (cptr k) c) (ptr r) (ptr l)) :: nodes x r ++ cnodes k y ++ nodes y l)) in Hs; [|solve_Permutation].
  do 2 step1.
  apply (sat_perm _ _ (nodes x r ++ (x, mk_node (pc (cptr k) c) (ptr r) (ptr l)) ::
    (y, mk_node (pc (cptr k) c) (ptr r) (ptr l)) :: cnodes k y ++ nodes y l)) in Hs; [|solve_Permutation].
  apply wp_bind. eapply (wp_reparent s5 x y r); [exact Hs|aligned|aligned|]. clear Hs. intros s6 Hs Hr6.
  apply HQ, repr_plug. split; [|cbn [ptr]; congruence]. cbn [nodes ptr].
  apply (sat_tail _ (x, mk_node (pc (cptr k) c) (ptr r) (ptr l))). eapply sat_perm; [|exact Hs]. solve_Permutation.
Qed.

(** ** The successor *)

Definition is_left (f : frame) : Prop := match f with FL _ _ _ => True | FR _ _ _ => False end.

(** [leftmost] finds the node without a left child down the left spine. *)
Lemma wpt_leftmost s t : forall fuel k (Q : Z -> st -> Prop),
  repr s (plug k t) -> t <> E -> (length (inorder t) <= fuel)%nat ->
  (forall kl c y r, t = plug kl (T c E y r) -> Forall is_left kl -> Q y s) -> wp (leftmost fuel (ptr t)) s Q.
Proof.
  induction t as [|c l IH x r _]; intros fuel k Q Hs Hne Hf HQ; [done|].
  cbn [inorder] in Hf. rewrite length_app in Hf. cbn [length] in Hf. destruct fuel as [|fuel]; [lia|].
  cbn [leftmost ptr]. apply wp_bind. eapply wpt_left; [exact Hs|].
  destruct l as [|cl ll z lr] eqn:El; cbn [ptr].
  - apply wp_ret. by apply (HQ [] c x r).
  - rewrite (okaddr_truthy z) by (by eapply (repr_ok s (FL c x r :: k))).
    apply (IH fuel (FL c x r :: k)); [exact Hs|done|lia|]. intros kl c' y r' Heq Hkl.
    apply (HQ (kl ++ [FL c x r]) c' y r'); [by rewrite plug_app, <- Heq|]. apply Forall_app. by repeat constructor.
Qed.

Lemma before_left kl : Forall is_left kl -> before kl = [].
Proof. induction 1 as [|[] kl]; done. Qed.

Lemma old_in_cnodes kl c l x k p : exists n, (x, n) ∈ cnodes (kl ++ FR c l x :: k) p.
Proof.
  revert p. induction kl as [|f kl IH]; intros p; cbn [app cnodes]; [eexists; by left|].
  destruct f as [cz z zr|cz zl z]; destruct (IH z) as [n Hn]; exists n; right; apply elem_of_app; by right.
Qed.

(** The successor [y] is unlinked from its parent, which is [x] itself or a node of
    the left spine. *)
Lemma wp_splice_out {A} s kl k c l x cy y yr (rest : Z -> M A) (Q : A -> st -> Prop) :
  Forall is_left kl -> repr s (plug (kl ++ FR c l x :: k) (T cy E y yr)) ->
  (forall s' n, sat s' ((y, n) :: nodes 0 (plug k (T c l x (plug kl yr)))) -> root_node s' = top k x ->
     wp (rest (cptr (kl ++ FR c l y :: k))) s' Q) ->
  wp ((if truthy (ptr yr) then rb_set_parent (ptr yr) (cptr (kl ++ FR c l x :: k)) else ret tt) ;;;
      parent <- (if cptr (kl ++ FR c l x :: k) =? x
                 then set_right (cptr (kl ++ FR c l x :: k)) (ptr yr) ;;; ret y
                 else set_left (cptr (kl ++ FR c l x :: k)) (ptr yr) ;;; ret (cptr (kl ++ FR c l x :: k))) ;;
      rest parent) s Q.
Proof.
  intros Hkl [Hs Hroot]%repr_plug HQ. set (K := kl ++ FR c l x :: k) in *. cbn [nodes ptr] in *.
  set (ny := mk_node (pc (cptr K) cy) (ptr yr) 0) in *.
  assert (okaddr y) as Hy by (by eapply sat_ok).
  apply (sat_perm _ _ (nodes y yr ++ (y, ny) :: cnodes K y)) in Hs; [|solve_Permutation].
  assert (cptr K mod 4 = 0) as Hk.
  { apply (sat_cptr_in s K y (nodes y yr ++ [(y, ny)]) []). rewrite app_nil_r, <- app_assoc. done. }
  assert (forall p, top K p = top k x) as Htop.
  { intros p. subst K. clear. revert p. induction kl as [|f kl IH]; intros p; cbn [app top faddr]; auto. }
  rewrite Htop in Hroot. apply wp_bind.
  eapply (wp_reparent s y (cptr K) yr); [exact Hs|aligned|aligned|]. clear Hs. intros s1 Hs Hr1.
  apply (sat_perm _ _ ((y, ny) :: cnodes K y ++ nodes (cptr K) yr)) in Hs; [|solve_Permutation].
  assert (forall s', root_node s' = root_node s1 -> sat s' ((y, ny) :: cnodes K (ptr yr) ++ nodes (cptr K) yr) ->
     wp (rest (cptr (kl ++ FR c l y :: k))) s' Q) as HQ'.
  { intros s' Hr' Hs'. apply (HQ s' ny); [|congruence]. eapply sat_perm; [|exact Hs']. f_equiv.
    replace (plug k (T c l x (plug kl yr))) with (plug K yr) by (subst K; by rewrite plug_app).
    rewrite nodes_plug. apply Permutation_app_comm. }
  clear HQ. apply wp_bind. subst K. destruct kl as [|[cz z zr|] kl]; cbn [app cptr faddr cnodes] in *.
  - rewrite Z.eqb_refl. apply wp_bind. upd1 s2. apply wp_ret, HQ'; [done|]. by apply (sat_front s2 [_]) in Hs.
  - assert (z <> x) as Hne.
    { destruct (old_in_cnodes kl c l x k z) as [m Hm]. apply sat_tail in Hs.
      eapply (sat_ne s1 z _ x m); [exact Hs|]. rewrite <- app_assoc. apply elem_of_app. right. apply elem_of_app. by left. }
    rewrite (proj2 (Z.eqb_neq z x)) by done. apply wp_bind. upd1 s2. apply wp_ret, HQ'; [done|].
    by apply (sat_front s2 [_]) in Hs.
  - by inversion Hkl.
Qed.

Lemma wp_erase_splice fuel s k c l x r (Q : Z * Z * Z -> st -> Prop) :
  l <> E -> r <> E -> repr s (plug k (T c l x r)) -> (length (inorder r) <= fuel)%nat ->
  (forall s' kl cy y yr, r = plug kl (T cy E y yr) -> Forall is_left kl ->
     repr s' (plug (kl ++ FR c l y :: k) yr) -> Q (ptr yr, cptr (kl ++ FR c l y :: k), bit cy) s') ->
  wp (erase_splice fuel x) s Q.
Proof.
  intros Hl Hr Hs Hf HQ. unfold erase_splice. apply wp_bind.
  eapply (wpt_right s k); [exact Hs|]. apply wp_bind.
  eapply (wpt_leftmost s r fuel (FR c l x :: k)); [exact Hs|exact Hr|exact Hf|].
  intros kl cy y yr -> Hkl.
  replace (plug k (T c l x (plug kl (T cy E y yr)))) with (plug (kl ++ FR c l x :: k) (T cy E y yr)) in Hs
    by (by rewrite plug_app).
  apply wp_bind. eapply wpt_right; [exact Hs|]. apply wp_bind. eapply wpt_parent; [exact Hs|].
  apply wp_bind. eapply wpt_color; [exact Hs|].
  eapply wp_splice_out; [exact Hkl|exact Hs|]. clear s Hs. intros s n Hs Hroot.
  eapply wp_take_place; [exact Hl|exact Hs|exact Hroot|]. clear s Hs Hroot. intros s Hs.
  apply wp_ret, (HQ s kl cy y yr); [done..|]. by rewrite plug_app.
Qed.

(** The address of a node does not matter for the invariants. *)
Lemma rbctx_rename kl k c l x y c' n : rbctx (kl ++ FR c l x :: k) c' n -> rbctx (kl ++ FR c l y :: k) c' n.
Proof.
  revert c' n. induction kl as [|f kl IH]; intros c' n Hk; cbn [app] in *; inversion Hk; subst; eauto with rbtree.
Qed.

Lemma ptr_truthy s k t : repr s (plug k t) -> t <> E -> truthy (ptr t) = true.
Proof. intros Hs Ht. destruct t; [done|]. apply okaddr_truthy. by eapply repr_ok. Qed.

(** After a node of colour [c] with the single child [ch] is gone. *)
Lemma erase_fixup fuel s k c m y ch (Q : unit -> st -> Prop) :
  (length k < fuel)%nat -> repr s (plug k ch) -> rbctx k c m ->
  rbt c m (T c E y ch) \/ rbt c m (T c ch y E) ->
  (forall s' t', repr s' t' -> is_rb t' -> inorder t' = inorder (plug k ch) -> Q tt s') ->
  wp (if bit c =? RB_BLACK then __rb_erase_color fuel (ptr ch) (cptr k) else ret tt) s Q.
Proof.
  intros Hf Hs Hk Ht HQ.
  assert (exists n cc, rbt cc n ch /\ (c = Red /\ m = n /\ cc = Black \/ c = Black /\ m = S n)) as (n & cc & Hch & Hc).
  { destruct Ht as [Ht|Ht]; inversion Ht; subst; eexists _, _; (split; [eassumption|]); auto. }
  destruct Hc as [(-> & -> & ->)|[-> ->]]; cbn.
  - apply wp_ret, (HQ s _ Hs); [|done]. eapply rbt_plug; [by eapply rbctx_black|exact Hch].
  - eapply rb_erase_color_wp; [exact Hf|exact Hs|exact Hk| |exact HQ].
    inversion Hch; subst; eauto 8 with rbtree.
Qed.

(** ** Correctness of rb_erase *)

Lemma before_app k k' : before (k ++ k') = before k' ++ before k.
Proof.
  induction k as [|[] k IH]; cbn [app before]; [by rewrite app_nil_r|done|]. by rewrite IH, <- app_assoc.
Qed.

Lemma after_app k k' : after (k ++ k') = after k ++ after k'.
Proof. induction k as [|[] k IH]; cbn [app after]; [done| |done]. rewrite IH. simpl. by rewrite <- app_assoc. Qed.

(** Every element of the tree is the root of a subtree of it. *)
Lemma inorder_split t : forall a x b, inorder t = a ++ x :: b ->
  exists k c l r, t = plug k (T c l x r) /\ a = before k ++ inorder l /\ b = inorder r ++ after k.
Proof.
  induction t as [|c l IHl y r IHr]; intros a x b Heq; cbn [inorder] in Heq; [by destruct a|].
  apply app_eq_inv in Heq as [([|z d] & Hl & Hr)|([|z d] & Hl & Hr)]; cbn [app] in Hr; injection Hr as -> Hr.
  - exists [], c, l, r. rewrite app_nil_r in Hl. cbn [plug before after app]. rewrite app_nil_r. by subst.
  - destruct (IHl _ _ _ Hl) as (k & c' & l' & r' & -> & -> & ->). subst b.
    exists (k ++ [FL c y r]), c', l', r'. rewrite plug_app, before_app, after_app. cbn [before after app plug fill].
    by rewrite app_nil_r, <- !app_assoc.
  - exists [], c, l, r. cbn [plug before after app]. rewrite !app_nil_r. rewrite app_nil_r in Hl. by subst.
  - destruct (IHr _ _ _ Hr) as (k & c' & l' & r' & -> & -> & ->). subst a.
    exists (k ++ [FR c l z]), c', l', r'. rewrite plug_app, before_app, after_app. cbn [before after app plug fill].
    by rewrite app_nil_r, <- !app_assoc.
Qed.

Lemma length_ctx k t : (length k + length (inorder t) <= length (inorder (plug k t)))%nat.
Proof.
  revert t. induction k as [|f k IH]; intros t; cbn [plug length]; [lia|].
  specialize (IH (fill f t)). destruct f; cbn [fill inorder] in *; rewrite !length_app in IH; cbn [length] in IH; lia.
Qed.

Lemma rb_erase_wp fuel s k c l x r m (Q : unit -> st -> Prop) :
  repr s (plug k (T c l x r)) -> rbt Black m (plug k (T c l x r)) ->
  (length k + length (inorder (T c l x r)) < fuel)%nat ->
  (forall s' t', repr s' t' -> is_rb t' -> inorder t' = before k ++ inorder l ++ inorder r ++ after k -> Q tt s') ->
  wp (rb_erase fuel x) s Q.
Proof.
  intros Hs Hrb Hf HQ. cbn [inorder] in Hf. rewrite length_app in Hf. cbn [length] in Hf.
  unfold rb_erase. apply wp_bind. eapply (wpt_left s k); [exact Hs|]. apply wp_bind.
  eapply (wpt_right s k); [exact Hs|]. apply wp_bind.
  pose proof Hs as Hs0. apply repr_plug in Hs0 as [Hs0 Hroot]. cbn [nodes ptr] in Hs0, Hroot.
  destruct (rbt_unplug _ _ _ Hrb) as (c' & n & Hk & Ht). assert (c' = c) as -> by (by inversion Ht).
  destruct (decide (l = E)) as [->|Hl]; [|destruct (decide (r = E)) as [->|Hr]].
  - eapply (wp_erase_unlink s k c x _ _ r); [exact Hs0|exact Hroot|]. clear s Hs Hs0 Hroot. intros s Hs.
    eapply (erase_fixup fuel s k c n x r); [lia|exact Hs|exact Hk|by left|].
    intros s' t' Hs' Ht' Hio. apply (HQ s' t' Hs' Ht'). by rewrite Hio, inorder_plug.
  - rewrite (ptr_truthy s (FL c x E :: k) l) by done. cbn [nodes app] in Hs0. rewrite app_nil_r in Hs0.
    eapply (wp_erase_unlink s k c x _ _ l); [exact Hs0|exact Hroot|]. clear s Hs Hs0 Hroot. intros s Hs.
    eapply (erase_fixup fuel s k c n x l); [lia|exact Hs|exact Hk|by right|].
    intros s' t' Hs' Ht' Hio. apply (HQ s' t' Hs' Ht'). by rewrite Hio, inorder_plug.
  - rewrite (ptr_truthy s (FL c x r :: k) l), (ptr_truthy s (FR c l x :: k) r) by done.
    eapply wp_erase_splice; [exact Hl|exact Hr|exact Hs|lia|]. clear s Hs Hs0 Hroot.
    intros s kl cy y yr -> Hkl Hs.
    replace (plug k (T c l x (plug kl (T cy E y yr)))) with (plug (kl ++ FR c l x :: k) (T cy E y yr)) in Hrb
      by (by rewrite plug_app).
    destruct (rbt_unplug _ _ _ Hrb) as (cy' & n' & Hk' & Ht'). assert (cy' = cy) as -> by (by inversion Ht').
    pose proof (length_ctx kl (T cy E y yr)) as Hlen. cbn [inorder app length] in Hlen.
    eapply (erase_fixup fuel s _ cy n' y yr); [|exact Hs|by eapply rbctx_rename|by left|].
    { rewrite length_app. cbn [length]. lia. }
    intros s' t' Hs' Htt Hio. apply (HQ s' t' Hs' Htt). rewrite Hio, !inorder_plug.
    rewrite before_app, after_app, (before_left kl) by done. cbn [before after]. io.
Qed.

(** C2: rb_erase of any node of a red-black tree in memory, with no, one or two children, succeeds
    and leaves memory representing a red-black tree again whose in-order sequence is the old one
    without that node. *)
Theorem rb_erase_correct fuel s t a x b :
  repr s t -> is_rb t -> inorder t = a ++ x :: b -> (length (inorder t) < fuel)%nat ->
  exists s' t', rb_erase fuel x s = Some (tt, s') /\ repr s' t' /\ is_rb t' /\ inorder t' = a ++ b.
Proof.
  intros Hs [m Hrb] Hio Hf. apply inorder_split in Hio as (k & c & l & r & -> & -> & ->).
  pose proof (length_ctx k (T c l x r)) as Hlen.
  enough (wp (rb_erase fuel x) s (fun _ s' => exists t', repr s' t' /\ is_rb t' /\
    inorder t' = before k ++ inorder l ++ inorder r ++ after k)) as Hwp.
  { unfold wp in Hwp. destruct (rb_erase fuel x s) as [[[] s']|]; [|done].
    destruct Hwp as (t' & ? & ? & ?). exists s', t'. by rewrite <- app_assoc. }
  eapply rb_erase_wp; [exact Hs|exact Hrb|lia|]. intros s' t' Hs' Ht' Hio. by exists t'.
Qed.

Lemma rb_erase_correct_witness :
  exists s' t', rb_erase 9 8 demo_heap = Some (tt, s') /\ repr s' t' /\ is_rb t' /\ inorder t' = [4; 12].
Proof.
  apply (rb_erase_correct 9 demo_heap demo_tree [4] 8 [12]); [exact demo_repr|exact demo_rb|done|simpl; lia].
Defined.
