(* ===== verification/RbtreeWalk.v ===== *)
(** * Traversal and replacement

    rb_first, rb_last, rb_next and rb_prev return the neighbours in the in-order
    sequence; rb_replace_node exchanges one node of the tree for another. *)

From S2P Require Import Prelude Rbtree RbtreeLogic RbtreeInsert RbtreeErase.

Local Open Scope Z_scope.
Local Open Scope rb_scope.

(** What the functions return for a possibly missing neighbour. *)
Abbreviation node_or_null := (default 0).

(** ** Down a spine *)

Lemma inorder_nil t : inorder t = [] -> t = E.
Proof. destruct t as [|c l x r]; [done|]. simpl. by destruct (inorder l). Qed.

Lemma wpt_leftmost_head fuel s k t (Q : Z -> st -> Prop) :
  repr s (plug k t) -> t <> E -> (length (inorder t) <= fuel)%nat ->
  Q (node_or_null (head (inorder t))) s -> wp (leftmost fuel (ptr t)) s Q.
Proof.
  intros Hs Hne Hf HQ. eapply (wpt_leftmost s t); [exact Hs|exact Hne|exact Hf|].
  intros kl c y r -> Hkl. rewrite inorder_plug, (before_left kl Hkl) in HQ. exact HQ.
Qed.

Lemma wpt_rightmost s t : forall fuel k (Q : Z -> st -> Prop),
  repr s (plug k t) -> t <> E -> (length (inorder t) <= fuel)%nat ->
  Q (node_or_null (last (inorder t))) s -> wp (rightmost fuel (ptr t)) s Q.
Proof.
  induction t as [|c l _ x r IH]; intros fuel k Q Hs Hne Hf HQ; [done|].
  cbn [inorder] in *. rewrite length_app in Hf. cbn [length] in Hf. destruct fuel as [|fuel]; [lia|].
  cbn [rightmost ptr]. apply wp_bind. eapply wpt_right; [exact Hs|].
  destruct (decide (r = E)) as [->|Hr]; cbn [ptr].
  - apply wp_ret. cbn [inorder] in HQ. by rewrite last_snoc in HQ.
  - rewrite (ptr_truthy s (FR c l x :: k) r) by done.
    apply (IH fuel (FR c l x :: k)); [exact Hs|exact Hr|lia|].
    rewrite last_app, last_cons in HQ. destruct (last (inorder r)) eqn:Hz; [exact HQ|].
    by apply last_None, inorder_nil in Hz.
Qed.

(** ** Up to the first turn *)

Lemma wpt_next_up s k : forall fuel t (Q : Z -> st -> Prop),
  repr s (plug k t) -> t <> E -> (length k < fuel)%nat ->
  Q (node_or_null (head (after k))) s -> wp (next_up fuel (ptr t)) s Q.
Proof.
  induction k as [|f k IH]; intros fuel t Q Hs Hne Hf HQ; (destruct fuel as [|fuel]; [lia|]);
    cbn [next_up length] in *; apply wp_bind; destruct t as [|ct tl x tr] eqn:Et; try done; rewrite <- Et in Hs.
  - eapply (wpt_parent s [] ct tl x tr); [by subst|]. by apply wp_ret.
  - eapply (wpt_parent s (f :: k) ct tl x tr); [by subst|].
    assert (truthy (faddr f) = true) as Htr.
    { apply okaddr_truthy. destruct f; cbn [plug fill] in Hs; by eapply repr_ok. }
    cbn [cptr ptr]. rewrite Htr. apply wp_bind. destruct f as [c p r|c l p]; cbn [plug fill faddr] in *.
    + eapply (wpt_right s k); [exact Hs|]. rewrite (proj2 (Z.eqb_neq x (ptr r))); [by apply wp_ret|].
      intros Heq. by destruct (repr_children_ne s k c t p r Hs) as [-> _]; [subst|].
    + eapply (wpt_right s k); [exact Hs|]. subst t. cbn [ptr]. rewrite Z.eqb_refl.
      apply (IH fuel (T c l p (T ct tl x tr))); [exact Hs|done|lia|exact HQ].
Qed.

Lemma wpt_prev_up s k : forall fuel t (Q : Z -> st -> Prop),
  repr s (plug k t) -> t <> E -> (length k < fuel)%nat ->
  Q (node_or_null (last (before k))) s -> wp (prev_up fuel (ptr t)) s Q.
Proof.
  induction k as [|f k IH]; intros fuel t Q Hs Hne Hf HQ; (destruct fuel as [|fuel]; [lia|]);
    cbn [prev_up length] in *; apply wp_bind; destruct t as [|ct tl x tr] eqn:Et; try done; rewrite <- Et in Hs.
  - eapply (wpt_parent s [] ct tl x tr); [by subst|]. by apply wp_ret.
  - eapply (wpt_parent s (f :: k) ct tl x tr); [by subst|].
    assert (truthy (faddr f) = true) as Htr.
    { apply okaddr_truthy. destruct f; cbn [plug fill] in Hs; by eapply repr_ok. }
    cbn [cptr ptr]. rewrite Htr. apply wp_bind. destruct f as [c p r|c l p]; cbn [plug fill faddr before] in *.
    + eapply (wpt_left s k); [exact Hs|]. subst t. cbn [ptr]. rewrite Z.eqb_refl.
      apply (IH fuel (T c (T ct tl x tr) p r)); [exact Hs|done|lia|exact HQ].
    + eapply (wpt_left s k); [exact Hs|]. rewrite (proj2 (Z.eqb_neq x (ptr l))).
      * apply wp_ret. by rewrite app_assoc, last_snoc in HQ.
      * intros Heq. by destruct (repr_children_ne s k c l p t Hs) as [_ ->]; [subst|].
Qed.

(** ** The four functions *)

(** A node is not its own parent. *)
Lemma repr_parent_ne s k c l x r : repr s (plug k (T c l x r)) -> (cptr k =? x) = false.
Proof.
  intros Hs. pose proof (repr_ok _ _ _ _ _ _ Hs) as [Hx _]. apply Z.eqb_neq.
  apply repr_plug in Hs as [Hs _]. cbn [nodes app] in Hs. destruct k as [|f k]; cbn [cptr]; [lia|].
  intros Heq. destruct f; (eapply (sat_ne s x); [exact Hs| |exact (eq_sym Heq)]);
    apply elem_of_app; right; cbn [cnodes faddr]; by left.
Qed.

Lemma rb_next_wp fuel s k c l x r (Q : Z -> st -> Prop) :
  repr s (plug k (T c l x r)) -> (length (inorder (plug k (T c l x r))) < fuel)%nat ->
  Q (node_or_null (head (inorder r ++ after k))) s -> wp (rb_next fuel x) s Q.
Proof.
  intros Hs Hf HQ. pose proof (length_ctx k (T c l x r)) as Hlen.
  cbn [inorder] in Hlen. rewrite length_app in Hlen. cbn [length] in Hlen.
  unfold rb_next. apply wp_bind. eapply (wpt_parent s k); [exact Hs|].
  rewrite (repr_parent_ne s k c l x r Hs). apply wp_bind. eapply (wpt_right s k); [exact Hs|].
  destruct (decide (r = E)) as [->|Hr].
  - apply (wpt_next_up s k fuel (T c l x E)); [exact Hs|done|lia|exact HQ].
  - rewrite (ptr_truthy s (FR c l x :: k) r) by done.
    apply (wpt_leftmost_head fuel s (FR c l x :: k)); [exact Hs|exact Hr|lia|].
    destruct (inorder r) as [|z zs] eqn:Hz; [by apply inorder_nil in Hz|]. exact HQ.
Qed.

Lemma rb_prev_wp fuel s k c l x r (Q : Z -> st -> Prop) :
  repr s (plug k (T c l x r)) -> (length (inorder (plug k (T c l x r))) < fuel)%nat ->
  Q (node_or_null (last (before k ++ inorder l))) s -> wp (rb_prev fuel x) s Q.
Proof.
  intros Hs Hf HQ. pose proof (length_ctx k (T c l x r)) as Hlen.
  cbn [inorder] in Hlen. rewrite length_app in Hlen. cbn [length] in Hlen.
  unfold rb_prev. apply wp_bind. eapply (wpt_parent s k); [exact Hs|].
  rewrite (repr_parent_ne s k c l x r Hs). apply wp_bind. eapply (wpt_left s k); [exact Hs|].
  destruct (decide (l = E)) as [->|Hl].
  - apply (wpt_prev_up s k fuel (T c E x r)); [exact Hs|done|lia|]. cbn [inorder] in HQ. by rewrite app_nil_r in HQ.
  - rewrite (ptr_truthy s (FL c x r :: k) l) by done.
    apply (wpt_rightmost s l fuel (FL c x r :: k)); [exact Hs|exact Hl|lia|].
    rewrite last_app in HQ. destruct (last (inorder l)) eqn:Hz; [exact HQ|].
    by apply last_None, inorder_nil in Hz.
Qed.

Lemma wp_run {A} (m : M A) s a : wp m s (fun b s' => b = a /\ s' = s) -> m s = Some (a, s).
Proof. unfold wp. destruct (m s) as [[b s']|]; [by intros [-> ->]|done]. Qed.

(** The walks go along the in-order sequence. *)
Lemma rb_walk_spec fuel s t :
  repr s t -> (length (inorder t) < fuel)%nat ->
  rb_first fuel s = Some (node_or_null (head (inorder t)), s) /\
  rb_last fuel s = Some (node_or_null (last (inorder t)), s) /\
  forall a x b, inorder t = a ++ x :: b ->
    rb_next fuel x s = Some (node_or_null (head b), s) /\
    rb_prev fuel x s = Some (node_or_null (last a), s).
Proof.
  intros Hs Hf. assert (root_node s = ptr t) as Hroot by (by destruct Hs). split_and!.
  - apply wp_run, wp_bind, wp_get_root. rewrite Hroot. destruct (decide (t = E)) as [->|Ht]; [by apply wp_ret|].
    rewrite (ptr_truthy s [] t) by done. by apply (wpt_leftmost_head fuel s []); [..|lia|].
  - apply wp_run, wp_bind, wp_get_root. rewrite Hroot. destruct (decide (t = E)) as [->|Ht]; [by apply wp_ret|].
    rewrite (ptr_truthy s [] t) by done. by apply (wpt_rightmost s t fuel []); [..|lia|].
  - intros a x b Hio. apply inorder_split in Hio as (k & c & l & r & -> & -> & ->).
    split; apply wp_run; [by eapply rb_next_wp|by eapply rb_prev_wp].
Qed.

(** ** Replacement *)

Lemma rb_replace_wp s k c l x r y (Q : unit -> st -> Prop) :
  repr s (plug k (T c l x r)) -> okaddr y -> y ∉ inorder (plug k (T c l x r)) -> is_Some (nodes_mem s !! y) ->
  (forall s', repr s' (plug k (T c l y r)) -> Q tt s') -> wp (rb_replace_node x y) s Q.
Proof.
  intros Hrep Hy Hfresh Hn HQ. destruct (sat_fresh s _ y Hrep Hy Hfresh Hn) as [n Hs].
  destruct Hrep as [_ Hroot]. rewrite ptr_plug in Hroot. cbn [ptr] in Hroot.
  set (nx := mk_node (pc (cptr k) c) (ptr r) (ptr l)).
  apply (sat_perm _ _ ((x, nx) :: cnodes k x ++ (y, n) :: nodes x l ++ nodes x r)) in Hs.
  2: { rewrite nodes_plug. cbn [nodes ptr]. solve_Permutation. }
  assert (okaddr x) as Hx by (by eapply sat_ok).
  assert (cptr k mod 4 = 0) as Hk by exact (sat_cptr_in s k x [(x, nx)] _ Hs).
  unfold rb_replace_node. apply wp_bind. eapply wp_rb_parent; [exact Hs|aligned|]. apply wp_bind.
  fold (relink_l x y (cptr k)). eapply wp_relink_l; [exact Hs|exact Hroot|]. clear Hs. intros s1 Hs Hr1.
  apply wp_bind. eapply wp_get_left; [exact Hs|]. apply wp_bind.
  apply (sat_perm _ _ (nodes x l ++ (x, nx) :: cnodes k y ++ (y, n) :: nodes x r)) in Hs; [|solve_Permutation].
  eapply (wp_reparent s1 x y l); [exact Hs|aligned|aligned|]. clear Hs. intros s2 Hs Hr2.
  apply (sat_perm _ _ ((x, nx) :: cnodes k y ++ (y, n) :: nodes y l ++ nodes x r)) in Hs; [|solve_Permutation].
  apply wp_bind. eapply wp_get_right; [exact Hs|]. apply wp_bind.
  apply (sat_perm _ _ (nodes x r ++ (x, nx) :: cnodes k y ++ (y, n) :: nodes y l)) in Hs; [|solve_Permutation].
  eapply (wp_reparent s2 x y r); [exact Hs|aligned|aligned|]. clear Hs. intros s3 Hs Hr3.
  apply (sat_perm _ _ ((x, nx) :: (y, n) :: nodes y l ++ nodes y r ++ cnodes k y)) in Hs; [|solve_Permutation].
  apply wp_bind. eapply wp_load; [exact Hs|].
  apply (sat_perm _ _ ((y, n) :: (x, nx) :: nodes y l ++ nodes y r ++ cnodes k y)) in Hs; [|solve_Permutation].
  eapply wp_update; [exact Hs|]. clear Hs. intros s4 Hs Hr4.
  apply HQ, repr_plug. split; [|cbn [ptr]; congruence]. cbn [nodes ptr].
  apply (sat_tail _ (x, nx)). eapply sat_perm; [|exact Hs]. solve_Permutation.
Qed.

(** Replacement keeps the tree and the place. *)
Lemma rb_replace_spec s t a x b y :
  repr s t -> is_rb t -> inorder t = a ++ x :: b ->
  okaddr y -> y ∉ inorder t -> is_Some (nodes_mem s !! y) ->
  exists s' t', rb_replace_node x y s = Some (tt, s') /\ repr s' t' /\ is_rb t' /\ inorder t' = a ++ y :: b.
Proof.
  intros Hs [m Hrb] Hio Hy Hfresh Hn. apply inorder_split in Hio as (k & c & l & r & -> & -> & ->).
  assert (wp (rb_replace_node x y) s (fun _ s' => repr s' (plug k (T c l y r)))) as Hwp by (by eapply rb_replace_wp).
  unfold wp in Hwp. destruct (rb_replace_node x y s) as [[[] s']|]; [|done].
  exists s', (plug k (T c l y r)). split_and!; [done|done| |].
  - apply rbt_unplug in Hrb as (c' & n & Hk & Ht). eapply rbt_plug; [exact Hk|]. inversion Ht; subst; eauto with rbtree.
  - rewrite inorder_plug. cbn [inorder]. by rewrite <- !app_assoc.
Qed.

(** C37: rb_first and rb_last give the ends of the in-order sequence of a tree, rb_next and rb_prev
    step to the neighbours in it, NULL at the ends, and rb_replace_node puts a new node in the
    place of another: the tree stays a red-black tree and the in-order sequence changes only in
    that element. *)
Theorem rb_walk_and_replace fuel s t :
  repr s t -> is_rb t -> (length (inorder t) < fuel)%nat ->
  rb_first fuel s = Some (node_or_null (head (inorder t)), s) /\
  rb_last fuel s = Some (node_or_null (last (inorder t)), s) /\
  forall a x b, inorder t = a ++ x :: b ->
    rb_next fuel x s = Some (node_or_null (head b), s) /\
    rb_prev fuel x s = Some (node_or_null (last a), s) /\
    forall y, okaddr y -> y ∉ inorder t -> is_Some (nodes_mem s !! y) ->
      exists s' t', rb_replace_node x y s = Some (tt, s') /\ repr s' t' /\ is_rb t' /\ inorder t' = a ++ y :: b.
Proof.
  intros Hs Hrb Hf. destruct (rb_walk_spec fuel s t Hs Hf) as (Hfi & Hla & Hw). split_and!; [done..|].
  intros a x b Hio. destruct (Hw a x b Hio). split_and!; [done..|]. intros y. by apply rb_replace_spec.
Qed.

Lemma rb_walk_and_replace_witness :
  rb_first 9 demo_heap = Some (4, demo_heap) /\ rb_last 9 demo_heap = Some (12, demo_heap) /\
  rb_next 9 8 demo_heap = Some (12, demo_heap) /\ rb_prev 9 8 demo_heap = Some (4, demo_heap) /\
  exists s' t', rb_replace_node 8 16 demo_heap = Some (tt, s') /\ repr s' t' /\ is_rb t' /\ inorder t' = [4; 16; 12].
Proof.
  destruct (rb_walk_and_replace 9 demo_heap demo_tree) as (H1 & H2 & H); [exact demo_repr|exact demo_rb|simpl; lia|].
  destruct (H [4] 8 [12] eq_refl) as (H3 & H4 & H5).
  split; [exact H1|]. split; [exact H2|]. split; [exact H3|]. split; [exact H4|]. apply H5.
  - by split.
  - apply (bool_decide_unpack _). vm_compute. exact I.
  - by eexists.
Defined.

