(* ===== verification/Bitmap.v ===== *)
(** * Bitmaps (lib/bitmap.c)

    A bitmap is an array of 32-bit [unsigned long]s.  The bulk predicates and
    operations, the shifts and the power-of-two region allocator. *)

From S2P Require Import Prelude.

Local Open Scope Z_scope.

Definition BITS_PER_LONG : Z := 32.

Definition BITS_TO_LONGS (nr : Z) : Z := (nr + BITS_PER_LONG - 1) / BITS_PER_LONG.

Definition ULONG_MAX : Z := 2 ^ 32 - 1.

Definition BITMAP_LAST_WORD_MASK (nbits : Z) : Z :=
  if truthy (nbits mod BITS_PER_LONG) then u32 (Z.shiftl 1 (nbits mod BITS_PER_LONG)) - 1 else ULONG_MAX.

(** ** The loops over words *)

(** [for (; n; k++) if (f(k)) return true; return false] *)
Fixpoint any_word (f : Z -> option Z) (k : Z) (n : nat) : option bool :=
  match n with
  | O => Some false
  | S n' => w ← f k; if truthy w then Some true else any_word f (k + 1) n'
  end.

(** [for (; n; k++) dst[k] = f(k)] *)
Fixpoint store_words (f : Z -> option Z) (k : Z) (n : nat) (dst : list Z) : option (list Z) :=
  match n with
  | O => Some dst
  | S n' => w ← f k; dst ← set dst k w; store_words f (k + 1) n' dst
  end.

(** [for (k = n - 1; k >= 0; k--) dst[k + off] = f(k)] *)
Fixpoint store_down (f : Z -> option Z) (off : Z) (n : nat) (dst : list Z) : option (list Z) :=
  match n with
  | O => Some dst
  | S n' => w ← f (Z.of_nat n'); dst ← set dst (Z.of_nat n' + off) w; store_down f off n' dst
  end.

(** [for (; n; k++) bitmap[k] = g(bitmap[k])] *)
Fixpoint update_words (g : Z -> Z) (k : Z) (n : nat) (bitmap : list Z) : option (list Z) :=
  match n with
  | O => Some bitmap
  | S n' => w ← get bitmap k; bitmap ← set bitmap k (g w); update_words g (k + 1) n' bitmap
  end.

(** [memset(&dst[k], 0, n * sizeof(unsigned long))] *)
Definition zero_words (k n : Z) (dst : list Z) : option (list Z) :=
  store_words (fun _ => Some 0) k (Z.to_nat n) dst.

(** The shape of the predicates: [f] decides on the full words, [g] on the last one. *)
Definition any_bits (f g : Z -> option Z) (bits : Z) : option bool :=
  let lim := bits / BITS_PER_LONG in
  r ← any_word f 0 (Z.to_nat lim);
  if (r : bool) then Some true
  else if truthy (bits mod BITS_PER_LONG) then
    w ← g lim; Some (truthy (Z.land w (BITMAP_LAST_WORD_MASK bits)))
  else Some false.

(** ** Predicates *)

Definition __bitmap_empty (bitmap : list Z) (bits : Z) : option Z :=
  r ← any_bits (get bitmap) (get bitmap) bits; Some (if (r : bool) then 0 else 1).

Definition __bitmap_full (bitmap : list Z) (bits : Z) : option Z :=
  let f k := w ← get bitmap k; Some (not_w 32 w) in
  r ← any_bits f f bits; Some (if (r : bool) then 0 else 1).

Definition __bitmap_equal (bitmap1 bitmap2 : list Z) (bits : Z) : option Z :=
  let ne k := a ← get bitmap1 k; b ← get bitmap2 k; Some (b2z (negb (a =? b))) in
  let xor k := a ← get bitmap1 k; b ← get bitmap2 k; Some (Z.lxor a b) in
  r ← any_bits ne xor bits; Some (if (r : bool) then 0 else 1).

Definition __bitmap_intersects (bitmap1 bitmap2 : list Z) (bits : Z) : option Z :=
  let f k := a ← get bitmap1 k; b ← get bitmap2 k; Some (Z.land a b) in
  r ← any_bits f f bits; Some (if (r : bool) then 1 else 0).

Definition __bitmap_subset (bitmap1 bitmap2 : list Z) (bits : Z) : option Z :=
  let f k := a ← get bitmap1 k; b ← get bitmap2 k; Some (Z.land a (not_w 32 b)) in
  r ← any_bits f f bits; Some (if (r : bool) then 0 else 1).

(** ** Operations into [dst] *)

Definition __bitmap_complement (dst src : list Z) (bits : Z) : option (list Z) :=
  let lim := bits / BITS_PER_LONG in
  let f k := w ← get src k; Some (not_w 32 w) in
  dst ← store_words f 0 (Z.to_nat lim) dst;
  if truthy (bits mod BITS_PER_LONG) then
    w ← f lim; set dst lim (Z.land w (BITMAP_LAST_WORD_MASK bits))
  else Some dst.

Definition bitmap_op (op : Z -> Z -> Z) (dst bitmap1 bitmap2 : list Z) (bits : Z) : option (list Z) :=
  let f k := a ← get bitmap1 k; b ← get bitmap2 k; Some (op a b) in
  store_words f 0 (Z.to_nat (BITS_TO_LONGS bits)) dst.

Definition __bitmap_and := bitmap_op Z.land.

Definition __bitmap_or := bitmap_op Z.lor.

Definition __bitmap_xor := bitmap_op Z.lxor.

Definition __bitmap_andnot := bitmap_op (fun a b => Z.land a (not_w 32 b)).

(** ** Shifts *)

(** The word stored in [dst[k]] by the right shift. *)
Definition shift_right_word (src : list Z) (lim left off rem mask k : Z) : option Z :=
  upper ← (if negb (truthy rem) || (lim <=? off + k + 1) then Some 0
           else w ← get src (off + k + 1);
                Some (if (off + k + 1 =? lim - 1) && truthy left then Z.land w mask else w));
  lower ← get src (off + k);
  let lower := if truthy left && (off + k =? lim - 1) then Z.land lower mask else lower in
  let v := Z.lor (u32 (Z.shiftl upper (BITS_PER_LONG - rem))) (Z.shiftr lower rem) in
  Some (if truthy left && (k =? lim - 1) then Z.land v mask else v).

Definition __bitmap_shift_right (dst src : list Z) (shift bits : Z) : option (list Z) :=
  let lim := BITS_TO_LONGS bits in
  let left := bits mod BITS_PER_LONG in
  let off := shift / BITS_PER_LONG in
  let rem := shift mod BITS_PER_LONG in
  let mask := u32 (Z.shiftl 1 left) - 1 in
  dst ← store_words (shift_right_word src lim left off rem mask) 0 (Z.to_nat (lim - off)) dst;
  if truthy off then zero_words (lim - off) off dst else Some dst.

(** The word stored in [dst[k + off]] by the left shift. *)
Definition shift_left_word (src : list Z) (lim left off rem k : Z) : option Z :=
  lower ← (if truthy rem && (0 <? k) then get src (k - 1) else Some 0);
  upper ← get src k;
  let upper := if truthy left && (k =? lim - 1) then Z.land upper (u32 (Z.shiftl 1 left) - 1) else upper in
  let v := Z.lor (Z.shiftr lower (BITS_PER_LONG - rem)) (u32 (Z.shiftl upper rem)) in
  Some (if truthy left && (k + off =? lim - 1) then Z.land v (u32 (Z.shiftl 1 left) - 1) else v).

Definition __bitmap_shift_left (dst src : list Z) (shift bits : Z) : option (list Z) :=
  let lim := BITS_TO_LONGS bits in
  let left := bits mod BITS_PER_LONG in
  let off := shift / BITS_PER_LONG in
  let rem := shift mod BITS_PER_LONG in
  dst ← store_down (shift_left_word src lim left off rem) off (Z.to_nat (lim - off)) dst;
  if truthy off then zero_words 0 off dst else Some dst.

(** ** Regions *)

Inductive reg_op := REG_OP_ISFREE | REG_OP_ALLOC | REG_OP_RELEASE.

Definition __reg_op (bitmap : list Z) (pos order : Z) (op : reg_op) : option (Z * list Z) :=
  let nbits_reg := s32 (Z.shiftl 1 order) in
  let index := pos / BITS_PER_LONG in
  let offset := pos - index * BITS_PER_LONG in
  let nlongs_reg := BITS_TO_LONGS nbits_reg in
  let nbitsinlong := Z.min nbits_reg BITS_PER_LONG in
  let mask := u32 (Z.shiftl 1 (nbitsinlong - 1)) in
  let mask := u32 (mask + (mask - 1)) in
  let mask := u32 (Z.shiftl mask offset) in
  match op with
  | REG_OP_ISFREE =>
      r ← any_word (fun k => w ← get bitmap k; Some (Z.land w mask)) index (Z.to_nat nlongs_reg);
      Some (if (r : bool) then 0 else 1, bitmap)
  | REG_OP_ALLOC =>
      bitmap ← update_words (fun w => Z.lor w mask) index (Z.to_nat nlongs_reg) bitmap; Some (0, bitmap)
  | REG_OP_RELEASE =>
      bitmap ← update_words (fun w => Z.land w (not_w 32 mask)) index (Z.to_nat nlongs_reg) bitmap; Some (0, bitmap)
  end.

Definition ENOMEM : Z := 12.

Definition EBUSY : Z := 16.

Fixpoint find_free_loop (fuel : nat) (bitmap : list Z) (bits order pos : Z) : option (Z * list Z) :=
  match fuel with
  | O => None
  | S fuel' =>
      let last := s32 (pos + s32 (Z.shiftl 1 order)) in
      if bits <? last then Some (- ENOMEM, bitmap)
      else
        r ← __reg_op bitmap pos order REG_OP_ISFREE;
        if negb (truthy (fst r)) then find_free_loop fuel' bitmap bits order last
        else r ← __reg_op bitmap pos order REG_OP_ALLOC; Some (pos, snd r)
  end.

Definition bitmap_find_free_region (fuel : nat) (bitmap : list Z) (bits order : Z) : option (Z * list Z) :=
  find_free_loop fuel bitmap bits order 0.

Definition bitmap_release_region (bitmap : list Z) (pos order : Z) : option (list Z) :=
  r ← __reg_op bitmap pos order REG_OP_RELEASE; Some (snd r).

Definition bitmap_allocate_region (bitmap : list Z) (pos order : Z) : option (Z * list Z) :=
  r ← __reg_op bitmap pos order REG_OP_ISFREE;
  if negb (truthy (fst r)) then Some (- EBUSY, bitmap)
  else r ← __reg_op bitmap pos order REG_OP_ALLOC; Some (0, snd r).
