(* ===== verification/BitmapFacts.v ===== *)
(** * Bitmap operations act on the bits

    Every operation of [Bitmap] is described by its effect on the single bits;
    the region allocator finds the lowest free aligned region. *)

From S2P Require Import Prelude Bitmap.

Local Open Scope Z_scope.

(** All words are 32-bit values. *)
Definition wf (bm : list Z) : Prop := Forall (in_w 32) bm.

(** Bit [i] of a bitmap. *)
Definition tb (bm : list Z) (i : Z) : bool :=
  match get bm (i / 32) with Some w => Z.testbit w (i mod 32) | None => false end.

(** The bitmap has room for [bits] bits. *)
Definition holds_bits (bm : list Z) (bits : Z) : Prop := BITS_TO_LONGS bits <= blen bm.

(** ** Words *)

Lemma get_lt bm k : 0 <= k < blen bm -> exists w, get bm k = Some w.
Proof.
  intros Hk. unfold get, blen in *. rewrite (proj2 (Z.leb_le 0 k)) by lia.
  destruct (bm !! Z.to_nat k) eqn:Hw; [eauto|]. apply lookup_ge_None in Hw. lia.
Qed.

Lemma get_wf bm k w : wf bm -> get bm k = Some w -> in_w 32 w.
Proof. unfold get. intros Hwf Hw. case_match; [|done]. by eapply Forall_lookup_1 in Hw. Qed.

Lemma get_range bm k w : get bm k = Some w -> 0 <= k < blen bm.
Proof.
  unfold get, blen. destruct (Z.leb_spec 0 k); [|done]. intros Hw. apply lookup_lt_Some in Hw. lia.
Qed.

Lemma set_ok bm k v : 0 <= k < blen bm ->
  exists d, set bm k v = Some d /\ blen d = blen bm /\
    forall j, get d j = if j =? k then Some v else get bm j.
Proof.
  intros Hk. unfold set. rewrite (proj2 (Z.leb_le 0 k)), (proj2 (Z.ltb_lt k (blen bm))) by lia.
  eexists. split; [done|]. unfold blen in *. rewrite length_insert. split; [done|]. intros j. unfold get.
  destruct (Z.leb_spec 0 j), (Z.eqb_spec j k); try lia; try done.
  - subst. rewrite list_lookup_insert_eq; [done|lia].
  - rewrite list_lookup_insert_ne by lia. done.
Qed.

(** Two bitmaps of the same length with the same words are equal. *)
Lemma get_ext bm bm' : (forall j, get bm j = get bm' j) -> bm = bm'.
Proof.
  intros H. apply list_eq. intros i. specialize (H (Z.of_nat i)). unfold get in H.
  rewrite (proj2 (Z.leb_le 0 (Z.of_nat i))) in H by lia. by rewrite Nat2Z.id in H.
Qed.

Lemma wf_of_get bm : (forall j w, get bm j = Some w -> in_w 32 w) -> wf bm.
Proof.
  intros H. apply Forall_lookup. intros i w Hw. apply (H (Z.of_nat i)). unfold get.
  rewrite (proj2 (Z.leb_le 0 (Z.of_nat i))) by lia. by rewrite Nat2Z.id.
Qed.

(** The words of a position. *)
Lemma pos_div k b : 0 <= b < 32 -> (32 * k + b) / 32 = k /\ (32 * k + b) mod 32 = b.
Proof. intros. Z.div_mod_to_equations. lia. Qed.

Lemma tb_word bm k b w : 0 <= b < 32 -> get bm k = Some w -> tb bm (32 * k + b) = Z.testbit w b.
Proof. intros Hb Hw. unfold tb. destruct (pos_div k b Hb) as [-> ->]. by rewrite Hw. Qed.

(** Every position is bit [b] of word [k]. *)
Lemma pos_split i : 0 <= i -> exists k b, i = 32 * k + b /\ 0 <= k /\ 0 <= b < 32.
Proof. intros. exists (i / 32), (i mod 32). Z.div_mod_to_equations. lia. Qed.

Lemma word_nonzero w : in_w 32 w -> w <> 0 <-> exists b, 0 <= b < 32 /\ Z.testbit w b = true.
Proof.
  intros Hw. split.
  - intros Hnz. exists (Z.log2 w). unfold in_w in Hw. split; [|apply Z.bit_log2; lia].
    split; [apply Z.log2_nonneg|]. apply Z.log2_lt_pow2; lia.
  - intros (b & _ & Hb) ->. by rewrite Z.bits_0 in Hb.
Qed.

Lemma truthy_ne w : truthy w = true <-> w <> 0.
Proof. unfold truthy. rewrite negb_true_iff. apply Z.eqb_neq. Qed.

(** ** The loops *)

Lemma any_word_spec f g n : forall k,
  (forall j, k <= j < k + Z.of_nat n -> f j = Some (g j)) ->
  exists b, any_word f k n = Some b /\ (b = true <-> exists j, k <= j < k + Z.of_nat n /\ g j <> 0).
Proof.
  induction n as [|n IH]; intros k Hf; cbn [any_word].
  - exists false. split; [done|]. split; [done|]. intros (j & ? & _). lia.
  - rewrite (Hf k) by lia. cbn [mbind option_bind]. destruct (truthy (g k)) eqn:Ht.
    + exists true. split; [done|]. split; [|done]. intros _. exists k. split; [lia|]. by apply truthy_ne.
    + destruct (IH (k + 1)) as (b & -> & Hb); [intros; apply Hf; lia|]. exists b. split; [done|]. rewrite Hb.
      split; intros (j & Hj & Hg); exists j; (split; [|done]); [lia|].
      destruct (decide (j = k)) as [->|]; [|lia]. apply truthy_ne in Hg. congruence.
Qed.

Lemma store_words_spec f g n : forall k dst,
  0 <= k -> k + Z.of_nat n <= blen dst ->
  (forall j, k <= j < k + Z.of_nat n -> f j = Some (g j)) ->
  exists d, store_words f k n dst = Some d /\ blen d = blen dst /\
    forall j, get d j = if (k <=? j) && (j <? k + Z.of_nat n) then Some (g j) else get dst j.
Proof.
  induction n as [|n IH]; intros k dst Hk Hlen Hf; cbn [store_words].
  - exists dst. split_and!; [done..|]. intros j. destruct (Z.leb_spec k j), (Z.ltb_spec j (k + Z.of_nat 0)); try done; lia.
  - rewrite (Hf k) by lia. cbn [mbind option_bind].
    destruct (set_ok dst k (g k)) as (d1 & -> & Hl1 & Hg1); [lia|]. cbn [mbind option_bind].
    destruct (IH (k + 1) d1) as (d & -> & Hl & Hg); [lia|lia|intros; apply Hf; lia|].
    exists d. split_and!; [done|lia|]. intros j. rewrite Hg, Hg1.
    destruct (Z.leb_spec (k + 1) j), (Z.leb_spec k j), (Z.ltb_spec j (k + 1 + Z.of_nat n)),
      (Z.ltb_spec j (k + Z.of_nat (S n))), (Z.eqb_spec j k); subst; try done; lia.
Qed.

Lemma store_down_spec f g off n : forall dst,
  0 <= off -> off + Z.of_nat n <= blen dst ->
  (forall j, 0 <= j < Z.of_nat n -> f j = Some (g j)) ->
  exists d, store_down f off n dst = Some d /\ blen d = blen dst /\
    forall j, get d j = if (off <=? j) && (j <? off + Z.of_nat n) then Some (g (j - off)) else get dst j.
Proof.
  induction n as [|n IH]; intros dst Hoff Hlen Hf; cbn [store_down].
  - exists dst. split_and!; [done..|]. intros j. destruct (Z.leb_spec off j), (Z.ltb_spec j (off + Z.of_nat 0)); try done; lia.
  - rewrite Hf by lia. cbn [mbind option_bind].
    destruct (set_ok dst (Z.of_nat n + off) (g (Z.of_nat n))) as (d1 & -> & Hl1 & Hg1); [lia|]. cbn [mbind option_bind].
    destruct (IH d1) as (d & -> & Hl & Hg); [lia|lia|intros; apply Hf; lia|].
    exists d. split_and!; [done|lia|]. intros j. rewrite Hg, Hg1.
    destruct (Z.leb_spec off j), (Z.ltb_spec j (off + Z.of_nat n)),
      (Z.ltb_spec j (off + Z.of_nat (S n))), (Z.eqb_spec j (Z.of_nat n + off)); subst; try done; try lia.
    f_equal. f_equal. lia.
Qed.

Lemma update_words_spec g n : forall k bm,
  0 <= k -> k + Z.of_nat n <= blen bm ->
  exists d, update_words g k n bm = Some d /\ blen d = blen bm /\
    forall j, get d j = if (k <=? j) && (j <? k + Z.of_nat n) then g <$> get bm j else get bm j.
Proof.
  induction n as [|n IH]; intros k bm Hk Hlen; cbn [update_words].
  - exists bm. split_and!; [done..|]. intros j. destruct (Z.leb_spec k j), (Z.ltb_spec j (k + Z.of_nat 0)); try done; lia.
  - destruct (get_lt bm k) as [w Hw]; [lia|]. rewrite Hw. cbn [mbind option_bind].
    destruct (set_ok bm k (g w)) as (d1 & -> & Hl1 & Hg1); [lia|]. cbn [mbind option_bind].
    destruct (IH (k + 1) d1) as (d & -> & Hl & Hg); [lia|lia|].
    exists d. split_and!; [done|lia|]. intros j. rewrite Hg, Hg1.
    destruct (Z.leb_spec (k + 1) j), (Z.leb_spec k j), (Z.ltb_spec j (k + 1 + Z.of_nat n)),
      (Z.ltb_spec j (k + Z.of_nat (S n))), (Z.eqb_spec j k); subst; try done; try lia. by rewrite Hw.
Qed.

(** The last, partial word. *)
Lemma longs_lim bits : 0 <= bits ->
  BITS_TO_LONGS bits = bits / 32 + (if bits mod 32 =? 0 then 0 else 1).
Proof. intros. unfold BITS_TO_LONGS, BITS_PER_LONG. destruct (Z.eqb_spec (bits mod 32) 0); Z.div_mod_to_equations; lia. Qed.

Lemma low_mask_testbit n b : 0 <= n < 32 -> 0 <= b -> Z.testbit (u32 (Z.shiftl 1 n) - 1) b = (b <? n).
Proof.
  intros Hn Hb. rewrite Z.shiftl_1_l.
  assert (2 ^ n < 2 ^ 32) by (apply Z.pow_lt_mono_r; lia). rewrite u32_small by lia.
  rewrite Z.sub_1_r, <- Z.ones_equiv. destruct (Z.ltb_spec b n); [apply Z.ones_spec_low|apply Z.ones_spec_high]; lia.
Qed.

Lemma last_mask_testbit bits b : 0 <= bits -> 0 <= b < 32 -> bits mod 32 <> 0 ->
  Z.testbit (BITMAP_LAST_WORD_MASK bits) b = (b <? bits mod 32).
Proof.
  intros Hbits Hb Hm. unfold BITMAP_LAST_WORD_MASK, BITS_PER_LONG.
  rewrite (proj2 (truthy_ne _) Hm). apply low_mask_testbit; [|lia]. apply Z.mod_pos_bound. lia.
Qed.

Lemma last_mask_in bits : 0 <= bits -> in_w 32 (BITMAP_LAST_WORD_MASK bits).
Proof.
  intros. unfold BITMAP_LAST_WORD_MASK, BITS_PER_LONG, ULONG_MAX, in_w. destruct (truthy _); [|lia].
  pose proof (Z.mod_pos_bound bits 32). rewrite Z.shiftl_1_l.
  assert (0 < 2 ^ (bits mod 32) < 2 ^ 32) by (split; [apply Z.pow_pos_nonneg|apply Z.pow_lt_mono_r]; lia).
  rewrite u32_small by lia. lia.
Qed.

(** ** The predicates *)

Section AnyBits.
Context (P : Z -> Prop) (f g : Z -> option Z) (F G : Z -> Z) (bits : Z).
Hypothesis Hbits : 0 <= bits.
Hypothesis Hf : forall j, 0 <= j < bits / 32 ->
  f j = Some (F j) /\ (F j <> 0 <-> exists b, 0 <= b < 32 /\ P (32 * j + b)).
Hypothesis Hg : forall j, 0 <= j < BITS_TO_LONGS bits ->
  g j = Some (G j) /\ forall b, 0 <= b < 32 -> Z.testbit (G j) b = true <-> P (32 * j + b).

Lemma any_bits_spec : exists r, any_bits f g bits = Some r /\ (r = true <-> exists i, 0 <= i < bits /\ P i).
Proof using Hbits Hf Hg.
  unfold any_bits. assert (0 <= bits / 32) by (Z.div_mod_to_equations; lia).
  destruct (any_word_spec f F (Z.to_nat (bits / 32)) 0) as (r & Hr & Hany).
  { intros j Hj. apply Hf. lia. }
  unfold BITS_PER_LONG. rewrite Hr. cbn [mbind option_bind]. destruct r.
  { exists true. split; [done|]. split; [|done]. intros _. destruct (proj1 Hany eq_refl) as (j & Hj & HF).
    rewrite Z2Nat.id in Hj by lia. apply Hf in HF as (b & Hb & HP); [|lia].
    exists (32 * j + b). split; [|done]. Z.div_mod_to_equations. lia. }
  assert (forall i, 0 <= i < 32 * (bits / 32) -> ~ P i) as Hlow.
  { intros i Hi HP. destruct (pos_split i) as (k & b & -> & Hk & Hb); [lia|].
    enough (false = true) by done. apply Hany. exists k. rewrite Z2Nat.id by lia.
    split; [lia|]. apply Hf; [lia|]. eauto. }
  pose proof (Z.div_mod bits 32 ltac:(lia)). pose proof (Z.mod_pos_bound bits 32 ltac:(lia)).
  destruct (truthy (bits mod 32)) eqn:Ht.
  - apply truthy_ne in Ht. destruct (Hg (bits / 32)) as [-> Hbit].
    { rewrite longs_lim by lia. destruct (Z.eqb_spec (bits mod 32) 0); lia. }
    cbn [mbind option_bind]. eexists. split; [done|]. rewrite truthy_ne, word_nonzero.
    2: { rewrite Z.land_comm. pose proof (last_mask_in bits Hbits) as Hm.
         apply in_w_of_testbit; [lia|apply Z.land_nonneg; left; unfold in_w in Hm; lia|].
         intros i Hi. by rewrite Z.land_spec, (in_w_testbit 32 _ i Hm Hi). }
    split.
    + intros (b & Hb & Hx). rewrite Z.land_spec, last_mask_testbit in Hx by lia.
      apply andb_true_iff in Hx as [Hx Hlt]. exists (32 * (bits / 32) + b).
      split; [lia|]. by apply Hbit.
    + intros (i & Hi & HP). destruct (Z.ltb_spec i (32 * (bits / 32))); [exfalso; apply (Hlow i); [lia|done]|].
      exists (i - 32 * (bits / 32)). split; [lia|]. rewrite Z.land_spec, last_mask_testbit by lia.
      apply andb_true_iff. split; [|lia]. apply Hbit; [lia|]. by replace (32 * _ + _) with i by lia.
  - exists false. split; [done|]. split; [done|]. intros (i & Hi & HP). exfalso. apply (Hlow i); [|done].
    assert (bits mod 32 = 0); [|lia]. destruct (Z.eq_dec (bits mod 32) 0) as [|Hne]; [done|].
    apply truthy_ne in Hne. congruence.
Qed.
End AnyBits.

(** A word-level test whose bits are the test of the single bits. *)
Lemma any_bits_same P f (F : Z -> Z) bits :
  0 <= bits ->
  (forall j, 0 <= j < BITS_TO_LONGS bits -> f j = Some (F j) /\ in_w 32 (F j) /\
     forall b, 0 <= b < 32 -> Z.testbit (F j) b = true <-> P (32 * j + b)) ->
  exists r, any_bits f f bits = Some r /\ (r = true <-> exists i, 0 <= i < bits /\ P i).
Proof.
  intros Hbits HF. apply (any_bits_spec P f f F F); [done| |].
  - intros j Hj. destruct (HF j) as (-> & Hw & Hb).
    { rewrite longs_lim by lia. case_match; lia. }
    split; [done|]. rewrite (word_nonzero _ Hw). by split; intros (b & ? & ?); exists b; (split; [done|]); apply Hb.
  - intros j Hj. by destruct (HF j Hj) as (-> & _ & Hb).
Qed.

Lemma not_w_testbit w b : 0 <= b < 32 -> Z.testbit (not_w 32 w) b = negb (Z.testbit w b).
Proof.
  intros. unfold not_w. rewrite wrap_testbit by lia. rewrite Z.lnot_spec by lia.
  by rewrite (proj2 (Z.ltb_lt b 32)) by lia.
Qed.

(** The word at an index of the bitmap. *)
Definition word (bm : list Z) (j : Z) : Z := default 0 (get bm j).

Lemma word_get bm bits j : holds_bits bm bits -> 0 <= j < BITS_TO_LONGS bits -> get bm j = Some (word bm j).
Proof. unfold holds_bits, word. intros H Hj. by destruct (get_lt bm j) as [w ->]; [lia|]. Qed.

Lemma word_in bm j : wf bm -> in_w 32 (word bm j).
Proof. intros H. unfold word. destruct (get bm j) eqn:Hw; [by eapply get_wf|]. unfold in_w. simpl. lia. Qed.

Lemma word_bit bm j b : 0 <= b < 32 -> tb bm (32 * j + b) = Z.testbit (word bm j) b.
Proof.
  intros Hb. unfold word. destruct (get bm j) as [w|] eqn:Hw; [by apply tb_word|].
  unfold tb. destruct (pos_div j b Hb) as [-> _]. by rewrite Hw, Z.bits_0.
Qed.

Lemma in_w_not w : in_w 32 (not_w 32 w).
Proof. apply wrap_in. lia. Qed.

Lemma in_w_nonneg w x : in_w w x -> 0 <= x.
Proof. unfold in_w. lia. Qed.

#[export] Hint Resolve word_in in_w_not in_w_nonneg : width.

(** No bit fails a test iff every bit passes it. *)
Lemma none_of P (Q : Z -> Prop) bits (r : bool) :
  (r = true <-> exists i, 0 <= i < bits /\ P i) -> (forall i, P i \/ Q i) -> (forall i, P i -> ~ Q i) ->
  negb r = true <-> forall i, 0 <= i < bits -> Q i.
Proof.
  intros Hr Hor Hnot. destruct r; simpl; (split; [try done|]).
  - intros HQ. destruct (proj1 Hr eq_refl) as (i & Hi & HP). by destruct (Hnot i HP (HQ i Hi)).
  - intros _ i Hi. destruct (Hor i) as [HP|]; [|done]. enough (false = true) by done. apply Hr. by exists i.
  - done.
Qed.

(** Two words differ iff one of their bits does. *)
Lemma words_differ a b j : wf a -> wf b ->
  word a j <> word b j <-> exists k, 0 <= k < 32 /\ tb a (32 * j + k) <> tb b (32 * j + k).
Proof.
  intros Ha Hb. rewrite <- Z.lxor_eq_0_iff, (word_nonzero (Z.lxor _ _)) by eauto with width.
  split; intros (k & Hk & Hx); exists k; (split; [done|]); revert Hx; rewrite !word_bit, Z.lxor_spec by done;
    by destruct (Z.testbit (word a j) k), (Z.testbit (word b j) k).
Qed.

Section Predicates.
Context (a b : list Z) (bits : Z).
Hypotheses (Ha : wf a) (Hb : wf b) (Hal : holds_bits a bits) (Hbl : holds_bits b bits) (Hbits : 0 <= bits).

Lemma bitmap_empty_spec : exists e, __bitmap_empty a bits = Some (b2z e) /\
  (e = true <-> forall i, 0 <= i < bits -> tb a i = false).
Proof using Ha Hal Hbits.
  destruct (any_bits_same (fun i => tb a i = true) (get a) (word a) bits) as (r & H1 & H1'); [done| |].
  { intros j Hj. split_and!; [by eapply word_get|auto with width|]. intros k Hk. by rewrite word_bit. }
  exists (negb r). unfold __bitmap_empty. rewrite H1. split; [by destruct r|].
  apply (none_of _ _ _ _ H1'); intros i; destruct (tb a i); auto.
Qed.

Lemma bitmap_full_spec : exists e, __bitmap_full a bits = Some (b2z e) /\
  (e = true <-> forall i, 0 <= i < bits -> tb a i = true).
Proof using Ha Hal Hbits.
  destruct (any_bits_same (fun i => tb a i = false) (fun k => w ← get a k; Some (not_w 32 w))
    (fun k => not_w 32 (word a k)) bits) as (r & H1 & H1'); [done| |].
  { intros j Hj. rewrite (word_get a bits j) by done. split_and!; [done|auto with width|]. intros k Hk.
    rewrite word_bit, not_w_testbit by done. apply negb_true_iff. }
  exists (negb r). unfold __bitmap_full. rewrite H1. split; [by destruct r|].
  apply (none_of _ _ _ _ H1'); intros i; destruct (tb a i); auto.
Qed.

Lemma bitmap_equal_spec : exists e, __bitmap_equal a b bits = Some (b2z e) /\
  (e = true <-> forall i, 0 <= i < bits -> tb a i = tb b i).
Proof using Ha Hb Hal Hbl Hbits.
  destruct (any_bits_spec (fun i => tb a i <> tb b i)
    (fun k => x ← get a k; y ← get b k; Some (b2z (negb (x =? y))))
    (fun k => x ← get a k; y ← get b k; Some (Z.lxor x y))
    (fun k => b2z (negb (word a k =? word b k))) (fun k => Z.lxor (word a k) (word b k)) bits) as (r & H1 & H1');
    [done| | |].
  { intros j Hj. assert (0 <= j < BITS_TO_LONGS bits) by (rewrite longs_lim by lia; case_match; lia).
    rewrite (word_get a bits j), (word_get b bits j) by done. split; [done|].
    rewrite <- (words_differ a b j) by done. destruct (Z.eqb_spec (word a j) (word b j)); simpl; lia. }
  { intros j Hj. rewrite (word_get a bits j), (word_get b bits j) by done. split; [done|]. intros k Hk.
    rewrite !word_bit, Z.lxor_spec by done. by destruct (Z.testbit (word a j) k), (Z.testbit (word b j) k). }
  exists (negb r). unfold __bitmap_equal. rewrite H1. split; [by destruct r|].
  apply (none_of _ _ _ _ H1'); intros i; destruct (tb a i), (tb b i); auto.
Qed.

Lemma bitmap_intersects_spec : exists e, __bitmap_intersects a b bits = Some (b2z e) /\
  (e = true <-> exists i, 0 <= i < bits /\ tb a i = true /\ tb b i = true).
Proof using Ha Hb Hal Hbl Hbits.
  destruct (any_bits_same (fun i => tb a i = true /\ tb b i = true)
    (fun k => x ← get a k; y ← get b k; Some (Z.land x y)) (fun k => Z.land (word a k) (word b k)) bits)
    as (r & H1 & H1'); [done| |].
  { intros j Hj. rewrite (word_get a bits j), (word_get b bits j) by done. split_and!; [done|eauto with width|].
    intros k Hk. rewrite !word_bit, Z.land_spec by done. apply andb_true_iff. }
  exists r. unfold __bitmap_intersects. rewrite H1. by destruct r.
Qed.

Lemma bitmap_subset_spec : exists e, __bitmap_subset a b bits = Some (b2z e) /\
  (e = true <-> forall i, 0 <= i < bits -> tb a i = true -> tb b i = true).
Proof using Ha Hb Hal Hbl Hbits.
  destruct (any_bits_same (fun i => tb a i = true /\ tb b i = false)
    (fun k => x ← get a k; y ← get b k; Some (Z.land x (not_w 32 y)))
    (fun k => Z.land (word a k) (not_w 32 (word b k))) bits) as (r & H1 & H1'); [done| |].
  { intros j Hj. rewrite (word_get a bits j), (word_get b bits j) by done. split_and!; [done|eauto with width|].
    intros k Hk. rewrite !word_bit, Z.land_spec, not_w_testbit by done. by rewrite andb_true_iff, negb_true_iff. }
  exists (negb r). unfold __bitmap_subset. rewrite H1. split; [by destruct r|].
  apply (none_of _ _ _ _ H1'); intros i; destruct (tb a i), (tb b i); intuition congruence.
Qed.
End Predicates.

(** ** The operations *)

Lemma bitmap_op_spec op bop dst a b bits :
  0 <= bits -> holds_bits dst bits -> holds_bits a bits -> holds_bits b bits ->
  (forall x y k, 0 <= k < 32 -> Z.testbit (op x y) k = bop (Z.testbit x k) (Z.testbit y k)) ->
  exists d, bitmap_op op dst a b bits = Some d /\ blen d = blen dst /\
    forall i, 0 <= i < bits -> tb d i = bop (tb a i) (tb b i).
Proof.
  intros Hbits Hd Ha Hb Hop. assert (0 <= BITS_TO_LONGS bits) as H0.
  { unfold BITS_TO_LONGS, BITS_PER_LONG. Z.div_mod_to_equations. lia. }
  unfold bitmap_op, holds_bits in *.
  destruct (store_words_spec (fun k => x ← get a k; y ← get b k; Some (op x y)) (fun k => op (word a k) (word b k))
    (Z.to_nat (BITS_TO_LONGS bits)) 0 dst) as (d & Hs & Hl & Hg); [lia|lia| |].
  { intros j Hj. by rewrite (word_get a bits j), (word_get b bits j) by (done || lia). }
  exists d. split_and!; [done|done|]. intros i Hi.
  destruct (pos_split i) as (k & c & -> & Hk & Hc); [lia|]. rewrite !word_bit by done.
  unfold word at 1. rewrite Hg. assert (k < BITS_TO_LONGS bits).
  { unfold BITS_TO_LONGS, BITS_PER_LONG. Z.div_mod_to_equations. lia. }
  rewrite (proj2 (Z.leb_le 0 k)), (proj2 (Z.ltb_lt k _)) by lia. simpl. by apply Hop.
Qed.

(** The result of storing the words [g] over the words of [bits] bits. *)
Lemma tb_stored d dst g n i :
  (forall j, get d j = if (0 <=? j) && (j <? n) then Some (g j) else get dst j) ->
  0 <= i < 32 * n -> tb d i = Z.testbit (g (i / 32)) (i mod 32).
Proof.
  intros Hg Hi. unfold tb. rewrite Hg.
  rewrite (proj2 (Z.leb_le 0 (i / 32))), (proj2 (Z.ltb_lt (i / 32) n)) by (Z.div_mod_to_equations; lia). done.
Qed.

Lemma bitmap_complement_spec dst src bits :
  0 <= bits -> holds_bits dst bits -> holds_bits src bits ->
  exists d, __bitmap_complement dst src bits = Some d /\ blen d = blen dst /\
    forall i, 0 <= i < 32 * BITS_TO_LONGS bits -> tb d i = (i <? bits) && negb (tb src i).
Proof.
  intros Hbits Hd Hs. pose proof (longs_lim bits Hbits) as Hlim. unfold __bitmap_complement, BITS_PER_LONG.
  assert (0 <= bits / 32) by (Z.div_mod_to_equations; lia). unfold holds_bits in Hd.
  pose proof (Z.div_mod bits 32 ltac:(lia)) as Hdm. pose proof (Z.mod_pos_bound bits 32 ltac:(lia)) as Hmb.
  destruct (store_words_spec (fun k => w ← get src k; Some (not_w 32 w)) (fun k => not_w 32 (word src k))
    (Z.to_nat (bits / 32)) 0 dst) as (d1 & -> & Hl & Hg); [lia|destruct (bits mod 32 =? 0); lia| |].
  { intros j Hj. rewrite (word_get src bits j); [done|done|destruct (bits mod 32 =? 0); lia]. }
  cbn [mbind option_bind]. rewrite Z2Nat.id in Hg by lia.
  destruct (Z.eqb_spec (bits mod 32) 0) as [Hz|Hz].
  - rewrite Hz. cbn [truthy negb Z.eqb]. exists d1. split_and!; [done|done|]. intros i Hi.
    rewrite (tb_stored d1 dst _ _ i Hg) by lia. rewrite not_w_testbit by (apply Z.mod_pos_bound; lia).
    rewrite (proj2 (Z.ltb_lt i bits)) by lia. unfold tb, word.
    by destruct (get src (i / 32)); [|simpl; rewrite Z.bits_0].
  - rewrite (proj2 (truthy_ne _) Hz), (word_get src bits (bits / 32)) by (done || lia). cbn [mbind option_bind].
    destruct (set_ok d1 (bits / 32) (Z.land (not_w 32 (word src (bits / 32))) (BITMAP_LAST_WORD_MASK bits)))
      as (d & -> & Hl' & Hg'); [lia|]. exists d. split_and!; [done|lia|]. intros i Hi.
    destruct (pos_split i) as (k & c & -> & Hk & Hc); [lia|]. rewrite !word_bit by done. unfold word at 1.
    rewrite Hg', Hg. destruct (Z.eqb_spec k (bits / 32)) as [->|Hne]; cbn [from_option id].
    + rewrite Z.land_spec, not_w_testbit, last_mask_testbit, andb_comm by (done || lia). f_equal.
      destruct (Z.ltb_spec c (bits mod 32)), (Z.ltb_spec (32 * (bits / 32) + c) bits); lia.
    + rewrite (proj2 (Z.leb_le 0 k)), (proj2 (Z.ltb_lt k (0 + bits / 32))) by lia. cbn [andb from_option id].
      rewrite not_w_testbit by done. by rewrite (proj2 (Z.ltb_lt _ bits)) by lia.
Qed.

(** ** Shifts *)

(** Word [j] of the source with the unused bits masked off, zero past the end. *)
Definition masked (src : list Z) (bits j : Z) (b : Z) : bool := (32 * j + b <? bits) && tb src (32 * j + b).

Lemma mask_last v bits j b :
  0 < bits -> 0 <= b < 32 -> 0 <= j < BITS_TO_LONGS bits ->
  Z.testbit (if truthy (bits mod 32) && (j =? BITS_TO_LONGS bits - 1)
             then Z.land v (u32 (Z.shiftl 1 (bits mod 32)) - 1) else v) b = (32 * j + b <? bits) && Z.testbit v b.
Proof.
  intros Hbits Hb Hj. rewrite longs_lim in * by lia.
  pose proof (Z.div_mod bits 32 ltac:(lia)). pose proof (Z.mod_pos_bound bits 32 ltac:(lia)).
  destruct (Z.eqb_spec (bits mod 32) 0) as [Hz|Hz].
  - rewrite Hz. cbn [truthy negb Z.eqb andb]. by rewrite (proj2 (Z.ltb_lt _ bits)) by lia.
  - rewrite (proj2 (truthy_ne _) Hz). cbn [andb]. destruct (Z.eqb_spec j (bits / 32 + 1 - 1)).
    + rewrite Z.land_spec, low_mask_testbit, andb_comm by lia. f_equal.
      destruct (Z.ltb_spec b (bits mod 32)), (Z.ltb_spec (32 * j + b) bits); lia.
    + by rewrite (proj2 (Z.ltb_lt _ bits)) by lia.
Qed.

Lemma mask_word src bits j b :
  0 < bits -> 0 <= b < 32 -> 0 <= j < BITS_TO_LONGS bits ->
  Z.testbit (if truthy (bits mod 32) && (j =? BITS_TO_LONGS bits - 1)
             then Z.land (word src j) (u32 (Z.shiftl 1 (bits mod 32)) - 1) else word src j) b = masked src bits j b.
Proof. intros. rewrite mask_last by done. unfold masked. by rewrite word_bit. Qed.

Section Shift.
Context (src : list Z) (bits shift : Z).
Hypotheses (Hwf : wf src) (Hsrc : holds_bits src bits) (Hbits : 0 < bits) (Hshift : 0 <= shift <= bits).

Lemma shift_parts : shift = 32 * (shift / 32) + shift mod 32 /\ 0 <= shift mod 32 < 32 /\
  0 <= shift / 32 <= BITS_TO_LONGS bits /\ 32 * (BITS_TO_LONGS bits - 1) < bits <= 32 * BITS_TO_LONGS bits.
Proof using Hbits Hshift. unfold BITS_TO_LONGS, BITS_PER_LONG. Z.div_mod_to_equations. lia. Qed.


Lemma funnel_right U L rem b : 0 <= rem < 32 -> 0 <= b < 32 ->
  (forall c, 32 <= c -> Z.testbit L c = false) ->
  Z.testbit (Z.lor (u32 (Z.shiftl U (32 - rem))) (Z.shiftr L rem)) b =
  if b + rem <? 32 then Z.testbit L (b + rem) else Z.testbit U (b + rem - 32).
Proof using.
  intros Hr Hb HL. unfold u32. rewrite Z.lor_spec, wrap_testbit, Z.shiftl_spec, Z.shiftr_spec by lia.
  rewrite (proj2 (Z.ltb_lt b 32)) by lia. cbn [andb]. destruct (Z.ltb_spec (b + rem) 32).
  - by rewrite (Z.testbit_neg_r U) by lia.
  - rewrite HL, orb_false_r by lia. f_equal. lia.
Qed.

Lemma funnel_left U L rem b : 0 <= rem < 32 -> 0 <= b < 32 ->
  (forall c, 32 <= c -> Z.testbit L c = false) ->
  Z.testbit (Z.lor (Z.shiftr L (32 - rem)) (u32 (Z.shiftl U rem))) b =
  if rem <=? b then Z.testbit U (b - rem) else Z.testbit L (b - rem + 32).
Proof using.
  intros Hr Hb HL. unfold u32. rewrite Z.lor_spec, wrap_testbit, Z.shiftl_spec, Z.shiftr_spec by lia.
  rewrite (proj2 (Z.ltb_lt b 32)) by lia. cbn [andb]. destruct (Z.leb_spec rem b).
  - by rewrite HL by lia.
  - rewrite (Z.testbit_neg_r U), orb_false_r by lia. f_equal. lia.
Qed.

Abbreviation lim := (BITS_TO_LONGS bits).
Abbreviation left := (bits mod 32).
Abbreviation off := (shift / 32).
Abbreviation rem := (shift mod 32).
Abbreviation mask := (u32 (Z.shiftl 1 left) - 1).

(** A masked word has no bits above 32. *)
Lemma masked_word_high (m : bool) j c : 32 <= c ->
  Z.testbit (if m then Z.land (word src j) mask else word src j) c = false.
Proof using Hwf.
  intros Hc. pose proof (in_w_testbit 32 (word src j) c (word_in src j Hwf) Hc) as Hz.
  destruct m; [by rewrite Z.land_spec, Hz|done].
Qed.

Lemma shift_right_word_spec k :
  0 <= k -> off + k < lim ->
  exists v, shift_right_word src lim left off rem mask k = Some v /\
    forall b, 0 <= b < 32 ->
      Z.testbit v b = (32 * k + b + shift <? bits) && tb src (32 * k + b + shift).
Proof using Hwf Hsrc Hbits Hshift.
  intros Hk Hlt. destruct shift_parts as (Hsh & Hrem & Hoff & Hlim). unfold shift_right_word.
  set (upper := if negb (truthy rem) || (lim <=? off + k + 1) then 0
    else if (off + k + 1 =? lim - 1) && truthy left then Z.land (word src (off + k + 1)) mask else word src (off + k + 1)).
  replace (if negb (truthy rem) || (lim <=? off + k + 1) then Some 0 else _) with (Some upper).
  2: { subst upper. destruct (negb (truthy rem) || (lim <=? off + k + 1)) eqn:Hc; [done|].
       apply orb_false_iff in Hc as [_ Hc]. by rewrite (word_get src bits (off + k + 1)) by (done || lia). }
  rewrite (word_get src bits (off + k)) by (done || lia). cbn [mbind option_bind]. cbv zeta.
  eexists. split; [done|]. intros b Hb.
  assert (forall c, 0 <= c < 32 -> rem <> 0 -> Z.testbit upper c = masked src bits (off + k + 1) c) as HU.
  { intros c Hc Hr0. subst upper. apply truthy_ne in Hr0. rewrite Hr0. cbn [negb orb].
    destruct (Z.leb_spec lim (off + k + 1)); [|rewrite andb_comm; apply mask_word; lia].
    unfold masked. rewrite Z.bits_0, (proj2 (Z.ltb_ge _ bits)) by lia. done. }
  assert (Z.testbit (Z.lor (u32 (Z.shiftl upper (BITS_PER_LONG - rem)))
    (Z.shiftr (if truthy left && (off + k =? lim - 1) then Z.land (word src (off + k)) mask else word src (off + k)) rem)) b =
    (32 * k + b + shift <? bits) && tb src (32 * k + b + shift)) as Hv.
  { unfold BITS_PER_LONG. rewrite funnel_right by (done || lia || apply masked_word_high).
    destruct (Z.ltb_spec (b + rem) 32).
    - rewrite mask_word by lia. unfold masked. by replace (32 * (off + k) + (b + rem)) with (32 * k + b + shift) by lia.
    - rewrite HU by lia. unfold masked. by replace (32 * (off + k + 1) + (b + rem - 32)) with (32 * k + b + shift) by lia. }
  rewrite mask_last, Hv by lia. destruct (Z.ltb_spec (32 * k + b + shift) bits); [|by rewrite andb_false_r].
  by rewrite (proj2 (Z.ltb_lt _ bits)) by lia.
Qed.

Lemma zero_words_spec k n dst : 0 <= k -> 0 <= n -> k + n <= blen dst ->
  exists d, zero_words k n dst = Some d /\ blen d = blen dst /\
    forall j, get d j = if (k <=? j) && (j <? k + n) then Some 0 else get dst j.
Proof using.
  intros Hk Hn Hlen. destruct (store_words_spec (fun _ => Some 0) (fun _ => 0) (Z.to_nat n) k dst) as (d & Hd & Hl & Hg);
    [lia|lia|done|]. exists d. split_and!; [done|done|]. intros j. by rewrite Hg, Z2Nat.id by lia.
Qed.

Lemma shift_right_spec dst : holds_bits dst bits ->
  exists d, __bitmap_shift_right dst src shift bits = Some d /\ blen d = blen dst /\
    (forall i, 0 <= i < 32 * lim -> tb d i = (i + shift <? bits) && tb src (i + shift)) /\
    (forall j, lim <= j -> get d j = get dst j).
Proof using Hwf Hsrc Hbits Hshift.
  intros Hdst. destruct shift_parts as (Hsh & Hrem & Hoff & Hlim). unfold holds_bits in Hdst.
  unfold __bitmap_shift_right, BITS_PER_LONG.
  set (g := fun k => default 0 (shift_right_word src lim left off rem mask k)).
  destruct (store_words_spec (shift_right_word src lim left off rem mask) g (Z.to_nat (lim - off)) 0 dst)
    as (d1 & -> & Hl1 & Hg1); [lia|lia| |].
  { intros j Hj. subst g. cbv beta. destruct (shift_right_word_spec j) as (v & -> & _); [lia|lia|done]. }
  cbn [mbind option_bind]. rewrite Z2Nat.id, Z.add_0_l in Hg1 by lia.
  assert (exists d, (if truthy off then zero_words (lim - off) off d1 else Some d1) = Some d /\ blen d = blen d1 /\
    forall j, get d j = if (lim - off <=? j) && (j <? lim) then Some 0 else get d1 j) as (d & -> & Hl & Hg).
  { destruct (truthy off) eqn:Ht.
    - destruct (zero_words_spec (lim - off) off d1) as (d & ? & ? & Hz); [lia..|].
      exists d. split_and!; [done|done|]. intros j. rewrite Hz. by replace (lim - off + off) with lim by lia.
    - exists d1. split_and!; [done|done|]. intros j. unfold truthy in Ht. apply negb_false_iff, Z.eqb_eq in Ht.
      destruct (Z.leb_spec (lim - off) j), (Z.ltb_spec j lim); try done; lia. }
  exists d. split_and!; [done|lia| |].
  - intros i Hi. destruct (pos_split i) as (k & b & -> & Hk & Hb); [lia|].
    rewrite word_bit by done. unfold word. rewrite Hg, Hg1.
    destruct (Z.leb_spec (lim - off) k), (Z.ltb_spec k lim), (Z.leb_spec 0 k), (Z.ltb_spec k (lim - off)); try lia;
      cbn [andb from_option id].
    + rewrite Z.bits_0, (proj2 (Z.ltb_ge _ bits)) by lia. done.
    + subst g. cbv beta. destruct (shift_right_word_spec k) as (v & -> & Hv); [lia|lia|]. by apply Hv.
  - intros j Hj. rewrite Hg, Hg1. rewrite (proj2 (Z.ltb_ge j lim)), (proj2 (Z.ltb_ge j (lim - off))) by lia.
    by rewrite !andb_false_r.
Qed.

Lemma shift_left_word_spec k :
  0 <= k -> k + off < lim ->
  exists v, shift_left_word src lim left off rem k = Some v /\
    forall b, 0 <= b < 32 -> Z.testbit v b =
      (32 * (k + off) + b <? bits) && ((shift <=? 32 * (k + off) + b) && tb src (32 * (k + off) + b - shift)).
Proof using Hwf Hsrc Hbits Hshift.
  intros Hk Hlt. destruct shift_parts as (Hsh & Hrem & Hoff & Hlim). unfold shift_left_word.
  set (lower := if truthy rem && (0 <? k) then word src (k - 1) else 0).
  replace (if truthy rem && (0 <? k) then get src (k - 1) else Some 0) with (Some lower).
  2: { subst lower. destruct (truthy rem && (0 <? k)) eqn:Hc; [|done]. apply andb_true_iff in Hc as [_ Hc].
       by rewrite (word_get src bits (k - 1)) by (done || lia). }
  rewrite (word_get src bits k) by (done || lia). cbn [mbind option_bind]. cbv zeta.
  eexists. split; [done|]. intros b Hb.
  assert (forall c, 32 <= c -> Z.testbit lower c = false) as HL.
  { intros c Hc. subst lower. destruct (_ && _); [|apply Z.bits_0]. by eapply in_w_testbit; [apply word_in|]. }
  rewrite mask_last by lia. destruct (Z.ltb_spec (32 * (k + off) + b) bits) as [Hi|]; [|done]. cbn [andb].
  unfold BITS_PER_LONG. rewrite funnel_left by (done || lia).
  destruct (Z.leb_spec rem b).
  - rewrite mask_word by lia. unfold masked. rewrite (proj2 (Z.leb_le shift _)) by lia.
    replace (32 * k + (b - rem)) with (32 * (k + off) + b - shift) by lia. cbn [andb].
    destruct (Z.ltb_spec (32 * (k + off) + b - shift) bits); [done|]. lia.
  - subst lower. rewrite (proj2 (truthy_ne rem)) by lia. cbn [andb]. destruct (Z.ltb_spec 0 k).
    + rewrite (proj2 (Z.leb_le shift _)) by lia. rewrite <- word_bit by lia. cbn [andb]. f_equal. lia.
    + rewrite (proj2 (Z.leb_gt shift _)) by lia. by rewrite Z.bits_0.
Qed.

Lemma shift_left_spec dst : holds_bits dst bits ->
  exists d, __bitmap_shift_left dst src shift bits = Some d /\ blen d = blen dst /\
    (forall i, 0 <= i < 32 * lim -> tb d i = (i <? bits) && ((shift <=? i) && tb src (i - shift))) /\
    (forall j, lim <= j -> get d j = get dst j).
Proof using Hwf Hsrc Hbits Hshift.
  intros Hdst. destruct shift_parts as (Hsh & Hrem & Hoff & Hlim). unfold holds_bits in Hdst.
  unfold __bitmap_shift_left, BITS_PER_LONG.
  set (g := fun k => default 0 (shift_left_word src lim left off rem k)).
  destruct (store_down_spec (shift_left_word src lim left off rem) g off (Z.to_nat (lim - off)) dst)
    as (d1 & -> & Hl1 & Hg1); [lia|lia| |].
  { intros j Hj. subst g. cbv beta. destruct (shift_left_word_spec j) as (v & -> & _); [lia|lia|done]. }
  cbn [mbind option_bind]. rewrite Z2Nat.id in Hg1 by lia.
  assert (exists d, (if truthy off then zero_words 0 off d1 else Some d1) = Some d /\ blen d = blen d1 /\
    forall j, get d j = if (0 <=? j) && (j <? off) then Some 0 else get d1 j) as (d & -> & Hl & Hg).
  { destruct (truthy off) eqn:Ht.
    - destruct (zero_words_spec 0 off d1) as (d & ? & ? & Hz); [lia..|]. by exists d.
    - exists d1. split_and!; [done|done|]. intros j. unfold truthy in Ht. apply negb_false_iff, Z.eqb_eq in Ht.
      destruct (Z.leb_spec 0 j), (Z.ltb_spec j off); try done; lia. }
  exists d. split_and!; [done|lia| |].
  - intros i Hi. destruct (pos_split i) as (k & b & -> & Hk & Hb); [lia|].
    rewrite word_bit by done. unfold word. rewrite Hg, Hg1.
    destruct (Z.leb_spec 0 k), (Z.ltb_spec k off), (Z.leb_spec off k), (Z.ltb_spec k (off + (lim - off))); try lia;
      cbn [andb from_option id].
    + rewrite Z.bits_0, (proj2 (Z.leb_gt shift _)) by lia. cbn [andb]. by rewrite andb_false_r.
    + subst g. cbv beta. destruct (shift_left_word_spec (k - off)) as (v & -> & Hv); [lia|lia|].
      cbn [from_option id]. rewrite Hv by done. by replace (k - off + off) with k by lia.
  - intros j Hj. rewrite Hg, Hg1. rewrite (proj2 (Z.ltb_ge j off)), (proj2 (Z.ltb_ge j (off + (lim - off)))) by lia.
    by rewrite !andb_false_r.
Qed.
End Shift.

(** C36: __bitmap_empty, full, equal, intersects and subset decide their bit-by-bit meanings on the
    first bits bits, whatever the rest of the last word holds; __bitmap_and, or, xor, andnot and
    complement compute their operation on every bit, and the complement clears the unused bits
    of the last word; __bitmap_shift_right and __bitmap_shift_left move every bit by the shift,
    fill with zeros, cut at the last bit, and write no word past the bitmap, for every shift up
    to the number of bits. *)
Theorem bitmap_bitwise dst a b shift bits :
  wf a -> wf b -> holds_bits dst bits -> holds_bits a bits -> holds_bits b bits -> 0 < bits -> 0 <= shift <= bits ->
  (exists e, __bitmap_empty a bits = Some (b2z e) /\ (e = true <-> forall i, 0 <= i < bits -> tb a i = false)) /\
  (exists e, __bitmap_full a bits = Some (b2z e) /\ (e = true <-> forall i, 0 <= i < bits -> tb a i = true)) /\
  (exists e, __bitmap_equal a b bits = Some (b2z e) /\ (e = true <-> forall i, 0 <= i < bits -> tb a i = tb b i)) /\
  (exists e, __bitmap_intersects a b bits = Some (b2z e) /\
     (e = true <-> exists i, 0 <= i < bits /\ tb a i = true /\ tb b i = true)) /\
  (exists e, __bitmap_subset a b bits = Some (b2z e) /\
     (e = true <-> forall i, 0 <= i < bits -> tb a i = true -> tb b i = true)) /\
  (exists d, __bitmap_and dst a b bits = Some d /\ forall i, 0 <= i < bits -> tb d i = tb a i && tb b i) /\
  (exists d, __bitmap_or dst a b bits = Some d /\ forall i, 0 <= i < bits -> tb d i = tb a i || tb b i) /\
  (exists d, __bitmap_xor dst a b bits = Some d /\ forall i, 0 <= i < bits -> tb d i = xorb (tb a i) (tb b i)) /\
  (exists d, __bitmap_andnot dst a b bits = Some d /\ forall i, 0 <= i < bits -> tb d i = tb a i && negb (tb b i)) /\
  (exists d, __bitmap_complement dst a bits = Some d /\
     forall i, 0 <= i < 32 * BITS_TO_LONGS bits -> tb d i = (i <? bits) && negb (tb a i)) /\
  (exists d, __bitmap_shift_right dst a shift bits = Some d /\
     (forall i, 0 <= i < 32 * BITS_TO_LONGS bits -> tb d i = (i + shift <? bits) && tb a (i + shift)) /\
     (forall j, BITS_TO_LONGS bits <= j -> get d j = get dst j)) /\
  (exists d, __bitmap_shift_left dst a shift bits = Some d /\
     (forall i, 0 <= i < 32 * BITS_TO_LONGS bits -> tb d i = (i <? bits) && ((shift <=? i) && tb a (i - shift))) /\
     (forall j, BITS_TO_LONGS bits <= j -> get d j = get dst j)).
Proof.
  intros Ha Hb Hdst Hha Hhb Hpos Hshift. assert (0 <= bits) as Hbits by lia.
  split_and!; [by apply bitmap_empty_spec|by apply bitmap_full_spec|by apply bitmap_equal_spec
    |by apply bitmap_intersects_spec|by apply bitmap_subset_spec|..].
  - destruct (bitmap_op_spec Z.land andb dst a b bits) as (d & ? & ? & ?); eauto using Z.land_spec.
  - destruct (bitmap_op_spec Z.lor orb dst a b bits) as (d & ? & ? & ?); eauto using Z.lor_spec.
  - destruct (bitmap_op_spec Z.lxor xorb dst a b bits) as (d & ? & ? & ?); eauto using Z.lxor_spec.
  - destruct (bitmap_op_spec (fun x y => Z.land x (not_w 32 y)) (fun x y => x && negb y) dst a b bits)
      as (d & ? & ? & ?); eauto. intros. by rewrite Z.land_spec, not_w_testbit.
  - destruct (bitmap_complement_spec dst a bits) as (d & ? & ? & ?); eauto.
  - destruct (shift_right_spec a bits shift Ha Hha Hpos Hshift dst Hdst) as (d & ? & _ & ? & ?). eauto.
  - destruct (shift_left_spec a bits shift Ha Hha Hpos Hshift dst Hdst) as (d & ? & _ & ? & ?). eauto.
Qed.

Lemma bitmap_bitwise_witness :
  (exists e, __bitmap_subset [0x0f; 0x30] [0xff; 0xff] 40 = Some (b2z e) /\
    (e = true <-> forall i, 0 <= i < 40 -> tb [0x0f; 0x30] i = true -> tb [0xff; 0xff] i = true)) /\
  (exists d, __bitmap_complement [0; 0; 7] [0x0f; 0x30] 40 = Some d /\
    forall i, 0 <= i < 32 * BITS_TO_LONGS 40 -> tb d i = (i <? 40) && negb (tb [0x0f; 0x30] i)) /\
  (exists d, __bitmap_shift_right [0; 0; 7] [0x0f; 0x30] 33 40 = Some d /\
     (forall i, 0 <= i < 64 -> tb d i = (i + 33 <? 40) && tb [0x0f; 0x30] (i + 33)) /\
     (forall j, 2 <= j -> get d j = get [0; 0; 7] j)).
Proof.
  split_and!; apply (bitmap_bitwise [0; 0; 7] [0x0f; 0x30] [0xff; 0xff] 33 40);
    first [done | lia | (repeat constructor; unfold in_w; lia)].
Defined.
