(* ===== verification/BitmapRegion.v ===== *)
(** * The region allocator of lib/bitmap.c

    [bitmap_find_free_region] returns the lowest free region of the requested
    power-of-two size and marks exactly its bits; [bitmap_release_region] undoes it. *)

From S2P Require Import Prelude Bitmap BitmapFacts.

Local Open Scope Z_scope.

Definition in_region (pos order i : Z) : bool := (pos <=? i) && (i <? pos + 2 ^ order).

Definition region_free (bm : list Z) (pos order : Z) : Prop :=
  forall i, in_region pos order i = true -> tb bm i = false.

(** A region that [__reg_op] may be called on: aligned and inside the bitmap. *)
Definition region_ok (bm : list Z) (pos order : Z) : Prop :=
  0 <= order < 31 /\ 0 <= pos /\ pos mod 2 ^ order = 0 /\ pos + 2 ^ order <= 32 * blen bm.

(** ** The mask of a word of the region *)

Lemma s32_order order : 0 <= order < 31 -> s32 (Z.shiftl 1 order) = 2 ^ order.
Proof.
  intros. rewrite Z.shiftl_1_l. apply s32_small.
  assert (0 < 2 ^ order < 2 ^ 31) by (split; [apply Z.pow_pos_nonneg|apply Z.pow_lt_mono_r]; lia). lia.
Qed.

Lemma region_mask_testbit n offset b :
  1 <= n <= 32 -> 0 <= offset -> 0 <= b < 32 ->
  let m := u32 (Z.shiftl 1 (n - 1)) in
  Z.testbit (u32 (Z.shiftl (u32 (m + (m - 1))) offset)) b = (offset <=? b) && (b <? offset + n).
Proof.
  intros Hn Hoff Hb m. assert (m = 2 ^ (n - 1)) as Hm.
  { subst m. rewrite Z.shiftl_1_l. apply u32_small.
    split; [apply Z.pow_nonneg; lia|apply Z.pow_lt_mono_r; lia]. }
  assert (2 * 2 ^ (n - 1) = 2 ^ n) as H2.
  { rewrite <- Z.pow_succ_r by lia. f_equal. lia. }
  assert (0 < 2 ^ n <= 2 ^ 32) by (split; [apply Z.pow_pos_nonneg|apply Z.pow_le_mono_r]; lia).
  rewrite (u32_small (m + (m - 1))) by lia. replace (m + (m - 1)) with (Z.ones n) by (rewrite Z.ones_equiv; lia).
  unfold u32. rewrite wrap_testbit, Z.shiftl_spec by lia. rewrite (proj2 (Z.ltb_lt b 32)) by lia. cbn [andb].
  destruct (Z.leb_spec offset b); [|by rewrite Z.testbit_neg_r by lia].
  destruct (Z.ltb_spec b (offset + n)); [apply Z.ones_spec_low|apply Z.ones_spec_high]; lia.
Qed.

(** The words of a region, and their part of it. *)
Lemma region_words pos order j b :
  0 <= order < 31 -> 0 <= pos -> pos mod 2 ^ order = 0 -> 0 <= b < 32 ->
  in_region pos order (32 * j + b) =
  ((pos / 32 <=? j) && (j <? pos / 32 + BITS_TO_LONGS (2 ^ order))) &&
  ((pos - pos / 32 * 32 <=? b) && (b <? pos - pos / 32 * 32 + Z.min (2 ^ order) 32)).
Proof.
  intros Ho Hp Hal Hb. unfold in_region, BITS_TO_LONGS, BITS_PER_LONG.
  assert (2 ^ order = 1 \/ 2 ^ order = 2 \/ 2 ^ order = 4 \/ 2 ^ order = 8 \/ 2 ^ order = 16 \/
    exists q, 0 < q /\ 2 ^ order = 32 * q) as Hc.
  { destruct (Z.ltb_spec order 5).
    - assert (order = 0 \/ order = 1 \/ order = 2 \/ order = 3 \/ order = 4) as [->|[->|[->|[->| ->]]]] by lia; lia.
    - do 5 right. exists (2 ^ (order - 5)). split; [apply Z.pow_pos_nonneg; lia|].
      change 32 with (2 ^ 5). rewrite <- Z.pow_add_r by lia. f_equal. lia. }
  apply eq_iff_eq_true. rewrite !andb_true_iff, !Z.leb_le, !Z.ltb_lt.
  destruct Hc as [Hc|[Hc|[Hc|[Hc|[Hc|(q & Hq & Hc)]]]]]; rewrite Hc in *; clear Hc.
  1-5: Z.div_mod_to_equations; lia.
  assert (pos mod 32 = 0) as H32.
  { apply Z.mod_divide; [lia|]. apply (Z.divide_trans _ (32 * q)); [apply Z.divide_factor_l|].
    by apply Z.mod_divide; [lia|]. }
  clear Hal. Z.div_mod_to_equations. lia.
Qed.

Lemma region_longs pos order len :
  0 <= order < 31 -> 0 <= pos -> pos mod 2 ^ order = 0 -> pos + 2 ^ order <= 32 * len ->
  0 <= pos / 32 /\ 0 < BITS_TO_LONGS (2 ^ order) /\ pos / 32 + BITS_TO_LONGS (2 ^ order) <= len.
Proof.
  intros Ho Hp Hal Hlen. assert (0 < 2 ^ order) by (apply Z.pow_pos_nonneg; lia).
  assert (0 <= pos / 32 /\ 0 < BITS_TO_LONGS (2 ^ order)) as [H1 H2].
  { unfold BITS_TO_LONGS, BITS_PER_LONG. Z.div_mod_to_equations. lia. }
  split_and!; [done..|].
  (* the last word of the region holds a bit of it *)
  pose proof (region_words pos order (pos / 32 + BITS_TO_LONGS (2 ^ order) - 1) (pos - pos / 32 * 32) Ho Hp Hal) as Hr.
  rewrite (proj2 (Z.leb_le (pos / 32) _)), (proj2 (Z.ltb_lt (pos / 32 + _ - 1) _)), Z.leb_refl,
    (proj2 (Z.ltb_lt (pos - pos / 32 * 32) _)) in Hr by lia.
  unfold in_region in Hr. cbn [andb] in Hr.
  assert (0 <= pos - pos / 32 * 32 < 32) as Hb by (Z.div_mod_to_equations; lia).
  specialize (Hr Hb). lia.
Qed.

(** ** [__reg_op] *)

Section RegOp.
Context (bm : list Z) (pos order : Z).
Hypotheses (Hwf : wf bm) (Hok : region_ok bm pos order).

Definition reg_mask : Z :=
  let m := u32 (Z.shiftl 1 (Z.min (2 ^ order) 32 - 1)) in
  u32 (Z.shiftl (u32 (m + (m - 1))) (pos - pos / 32 * 32)).

Definition reg_longs : nat := Z.to_nat (BITS_TO_LONGS (2 ^ order)).

Lemma reg_geometry :
  0 <= pos / 32 /\ 0 < Z.of_nat reg_longs /\ pos / 32 + Z.of_nat reg_longs <= blen bm /\
  forall j b, 0 <= b < 32 -> in_region pos order (32 * j + b) =
    ((pos / 32 <=? j) && (j <? pos / 32 + Z.of_nat reg_longs)) && Z.testbit reg_mask b.
Proof using Hok.
  destruct Hok as (Ho & Hp & Hal & Hlen). unfold reg_longs.
  destruct (region_longs pos order (blen bm) Ho Hp Hal Hlen) as (H1 & H2 & H3).
  rewrite Z2Nat.id by lia. split_and!; [lia..|]. intros j b Hb.
  rewrite (region_words pos order j b Ho Hp Hal Hb). f_equal. unfold reg_mask.
  assert (0 < 2 ^ order) by (apply Z.pow_pos_nonneg; lia).
  rewrite region_mask_testbit; [done|lia|Z.div_mod_to_equations; lia|done].
Qed.

Lemma reg_op_unfold op :
  __reg_op bm pos order op =
  match op with
  | REG_OP_ISFREE =>
      r ← any_word (fun k => w ← get bm k; Some (Z.land w reg_mask)) (pos / 32) reg_longs;
      Some (if (r : bool) then 0 else 1, bm)
  | REG_OP_ALLOC =>
      d ← update_words (fun w => Z.lor w reg_mask) (pos / 32) reg_longs bm; Some (0, d)
  | REG_OP_RELEASE =>
      d ← update_words (fun w => Z.land w (not_w 32 reg_mask)) (pos / 32) reg_longs bm; Some (0, d)
  end.
Proof using Hok. destruct Hok as (Ho & _). unfold __reg_op. by rewrite (s32_order order Ho). Qed.

Lemma reg_isfree : exists r, __reg_op bm pos order REG_OP_ISFREE = Some (b2z r, bm) /\ (r = true <-> region_free bm pos order).
Proof using Hwf Hok.
  destruct reg_geometry as (Hi & Hn & Hlen & Hgeo). rewrite reg_op_unfold.
  destruct (any_word_spec (fun k => w ← get bm k; Some (Z.land w reg_mask))
    (fun k => Z.land (word bm k) reg_mask) reg_longs (pos / 32)) as (r & -> & Hr).
  { intros j Hj. unfold word. destruct (get_lt bm j) as [w ->]; [lia|done]. }
  exists (negb r). cbn [mbind option_bind]. split; [by destruct r|]. rewrite negb_true_iff. split.
  - intros -> i Hin. assert (0 <= i) by (unfold in_region in Hin; destruct Hok; lia).
    destruct (pos_split i) as (k & b & -> & Hk & Hb); [done|]. rewrite Hgeo in Hin by done.
    destruct (tb bm (32 * k + b)) eqn:Hbit; [|done]. enough (false = true) by done. apply Hr. exists k. split; [lia|].
    intros Hz. rewrite word_bit in Hbit by done. apply andb_true_iff in Hin as [_ Hm].
    assert (Z.testbit (Z.land (word bm k) reg_mask) b = true) as Ht by (by rewrite Z.land_spec, Hbit, Hm).
    by rewrite Hz, Z.bits_0 in Ht.
  - intros Hfree. destruct r; [|done]. destruct (proj1 Hr eq_refl) as (j & Hj & Hnz).
    apply word_nonzero in Hnz as (b & Hb & Ht); [|eauto with width].
    rewrite Z.land_spec in Ht. apply andb_true_iff in Ht as [Ht Hm].
    specialize (Hfree (32 * j + b)). rewrite Hgeo, Hm, word_bit, Ht in Hfree by done.
    rewrite (proj2 (Z.leb_le (pos / 32) j)), (proj2 (Z.ltb_lt j _)) in Hfree by lia. by discriminate Hfree.
Qed.

(** A loop that combines the mask into the words of the region. *)
Lemma reg_update g bop d :
  update_words g (pos / 32) reg_longs bm = Some d ->
  (forall w b, 0 <= b < 32 -> Z.testbit (g w) b = bop (Z.testbit w b) (Z.testbit reg_mask b)) ->
  (forall x, bop x false = x) -> (forall w, in_w 32 w -> in_w 32 (g w)) ->
  blen d = blen bm /\ wf d /\
  forall i, 0 <= i < 32 * blen bm -> tb d i = bop (tb bm i) (in_region pos order i).
Proof using Hwf Hok.
  intros Hu Hg Hb0 Hin. destruct reg_geometry as (Hi & Hn & Hlen & Hgeo).
  destruct (update_words_spec g reg_longs (pos / 32) bm) as (d' & Hd & Hl & Hget); [done|done|].
  rewrite Hd in Hu. injection Hu as ->. split_and!; [done| |].
  - apply wf_of_get. intros j w. rewrite Hget. destruct (_ && _).
    + destruct (get bm j) as [v|] eqn:Hv; [|done]. intros [= <-]. by eapply Hin, get_wf.
    + by apply get_wf.
  - intros i Hir. destruct (pos_split i) as (k & b & -> & Hk & Hb); [lia|].
    rewrite Hgeo, !word_bit by done. unfold word. rewrite Hget.
    destruct (get_lt bm k) as [w ->]; [lia|]. destruct (_ && _); cbn [andb from_option id fmap option_fmap option_map].
    + by apply Hg.
    + by rewrite Hb0.
Qed.
End RegOp.

Lemma reg_alloc bm pos order : wf bm -> region_ok bm pos order ->
  exists d, __reg_op bm pos order REG_OP_ALLOC = Some (0, d) /\ blen d = blen bm /\ wf d /\
    forall i, 0 <= i < 32 * blen bm -> tb d i = tb bm i || in_region pos order i.
Proof.
  intros Hwf Hok. destruct (reg_geometry bm pos order Hok) as (Hi & Hn & Hlen & _).
  rewrite (reg_op_unfold bm pos order Hok).
  destruct (update_words_spec (fun w => Z.lor w (reg_mask pos order)) (reg_longs order) (pos / 32) bm Hi Hlen)
    as (d & Hd & _ & _). exists d. rewrite Hd. split; [done|].
  apply (reg_update bm pos order Hwf Hok _ orb d Hd); [intros; apply Z.lor_spec|apply orb_false_r|].
  intros w Hw. apply in_w_lor; [lia|done|]. apply wrap_in. lia.
Qed.

Lemma reg_release bm pos order : wf bm -> region_ok bm pos order ->
  exists d, __reg_op bm pos order REG_OP_RELEASE = Some (0, d) /\ blen d = blen bm /\ wf d /\
    forall i, 0 <= i < 32 * blen bm -> tb d i = tb bm i && negb (in_region pos order i).
Proof.
  intros Hwf Hok. destruct (reg_geometry bm pos order Hok) as (Hi & Hn & Hlen & _).
  rewrite (reg_op_unfold bm pos order Hok).
  destruct (update_words_spec (fun w => Z.land w (not_w 32 (reg_mask pos order))) (reg_longs order) (pos / 32) bm Hi Hlen)
    as (d & Hd & _ & _). exists d. rewrite Hd. split; [done|].
  apply (reg_update bm pos order Hwf Hok _ (fun x y => x && negb y) d Hd).
  - intros w b Hb. by rewrite Z.land_spec, not_w_testbit.
  - apply andb_true_r.
  - intros w Hw. apply in_w_land; [lia|done|]. apply (in_w_nonneg 32), in_w_not.
Qed.

(** ** The search *)

(** The bits determine the bitmap. *)
Lemma tb_ext a b : wf a -> wf b -> blen a = blen b ->
  (forall i, 0 <= i < 32 * blen a -> tb a i = tb b i) -> a = b.
Proof.
  intros Ha Hb Hlen Hbits. apply get_ext. intros j. destruct (decide (0 <= j < blen a)) as [Hj|Hj].
  - destruct (get_lt a j Hj) as [v Hv], (get_lt b j ltac:(lia)) as [w Hw]. rewrite Hv, Hw. f_equal.
    apply Z.bits_inj'. intros c Hc. destruct (Z.ltb_spec c 32).
    + rewrite <- (tb_word a j c v), <- (tb_word b j c w) by (done || lia). apply Hbits. lia.
    + rewrite !(in_w_testbit 32); [done|eapply get_wf; [|eassumption]; done|lia|eapply get_wf; [|eassumption]; done|lia].
  - destruct (get a j) eqn:Hv; [by apply get_range in Hv|].
    destruct (get b j) eqn:Hw; [apply get_range in Hw; lia|done].
Qed.

Section Find.
Context (bm : list Z) (bits order : Z).
Hypotheses (Hwf : wf bm) (Hlen : bits <= 32 * blen bm) (Ho : 0 <= order < 31)
  (Hover : bits + 2 ^ order < 2 ^ 31) (Hbits : 0 <= bits).

(** The outcome of the search from [pos]. *)
Definition found (pos : Z) (res : Z * list Z) : Prop :=
  let '(r, d) := res in
  (r = - ENOMEM /\ d = bm /\
   forall p, pos <= p -> p mod 2 ^ order = 0 -> p + 2 ^ order <= bits -> ~ region_free bm p order) \/
  (pos <= r /\ r mod 2 ^ order = 0 /\ r + 2 ^ order <= bits /\ region_free bm r order /\
   (forall p, pos <= p < r -> p mod 2 ^ order = 0 -> ~ region_free bm p order) /\
   wf d /\ blen d = blen bm /\ forall i, 0 <= i < 32 * blen bm -> tb d i = tb bm i || in_region r order i).

(** Between a multiple and the next there is no other. *)
Lemma next_aligned pos p : pos mod 2 ^ order = 0 -> p mod 2 ^ order = 0 -> pos <= p -> p = pos \/ pos + 2 ^ order <= p.
Proof using Ho.
  intros H1 H2 Hle. assert (0 < 2 ^ order) by (apply Z.pow_pos_nonneg; lia).
  pose proof (Z.div_mod pos (2 ^ order) ltac:(lia)) as E1. pose proof (Z.div_mod p (2 ^ order) ltac:(lia)) as E2.
  pose proof (Z.div_le_mono pos p (2 ^ order) ltac:(lia) Hle) as E3. rewrite H1 in E1. rewrite H2 in E2.
  destruct (Z.eq_dec (pos / 2 ^ order) (p / 2 ^ order)) as [E|E]; [left; rewrite E1, E2, E; lia|right].
  assert (pos / 2 ^ order + 1 <= p / 2 ^ order) by lia. nia.
Qed.

Lemma find_free_loop_spec fuel : forall pos,
  0 <= pos <= bits -> pos mod 2 ^ order = 0 -> bits - pos < Z.of_nat fuel ->
  exists res, find_free_loop fuel bm bits order pos = Some res /\ found pos res.
Proof using Hwf Hlen Ho Hover Hbits.
  assert (0 < 2 ^ order) as Hp2 by (apply Z.pow_pos_nonneg; lia).
  induction fuel as [|fuel IH]; intros pos Hpos Hal Hf; [lia|]. cbn [find_free_loop].
  rewrite s32_order, s32_small by lia. destruct (Z.ltb_spec bits (pos + 2 ^ order)) as [Hend|Hend].
  { eexists. split; [done|]. left. split_and!; [done..|]. intros p Hp _ Hpe. lia. }
  assert (region_ok bm pos order) as Hok by (split_and!; [lia..|done|lia]).
  destruct (reg_isfree bm pos order Hwf Hok) as (r & -> & Hr). cbn [mbind option_bind fst]. destruct r; cbn [b2z].
  - destruct (reg_alloc bm pos order Hwf Hok) as (d & -> & Hl & Hd & Hbit). cbn.
    eexists. split; [done|]. right. split_and!; [lia|done|lia|by apply Hr|intros; lia|done|done|done].
  - cbn [truthy Z.eqb negb].
    assert (~ region_free bm pos order) as Hnf by (by intros ?%Hr).
    destruct (IH (pos + 2 ^ order)) as ([r d] & -> & Hfound); [lia| |lia|].
    { rewrite <- (Z.mul_1_l (2 ^ order)) at 1. by rewrite Z_mod_plus_full. }
    exists (r, d). split; [done|].
    destruct Hfound as [(-> & -> & Hno)|(H1 & H2 & H3 & H4 & H5 & H6)]; [left|right].
    + split_and!; [done..|]. intros p Hp Hpal Hpe. destruct (next_aligned pos p) as [->|]; [done..|]. by apply Hno.
    + split_and!; [lia|done|done|done| |apply H6..].
      intros p Hp Hpal. destruct (next_aligned pos p) as [->|]; [done|done|lia|done|]. by apply H5; [lia|].
Qed.
End Find.

(** C29: bitmap_find_free_region returns the first naturally aligned free region of the order and
    sets exactly its bits, and then bitmap_release_region undoes it; or it returns -ENOMEM with
    the bitmap unchanged, and then there is no such region. *)
Theorem bitmap_find_free_region_first_fit fuel bm bits order :
  wf bm -> bits <= 32 * blen bm -> 0 <= order < 31 -> 0 <= bits -> bits + 2 ^ order < 2 ^ 31 ->
  bits < Z.of_nat fuel ->
  exists r d, bitmap_find_free_region fuel bm bits order = Some (r, d) /\
    (r = - ENOMEM /\ d = bm /\
       (forall p, 0 <= p -> p mod 2 ^ order = 0 -> p + 2 ^ order <= bits -> ~ region_free bm p order) \/
     0 <= r /\ r mod 2 ^ order = 0 /\ r + 2 ^ order <= bits /\ region_free bm r order /\
       (forall p, 0 <= p < r -> p mod 2 ^ order = 0 -> ~ region_free bm p order) /\
       (forall i, 0 <= i < 32 * blen bm -> tb d i = tb bm i || in_region r order i) /\
       bitmap_release_region d r order = Some bm).
Proof.
  intros Hwf Hlen Ho Hbits Hover Hf.
  destruct (find_free_loop_spec bm bits order Hwf Hlen Ho Hover Hbits fuel 0) as ([r d] & Heq & Hfound);
    [lia|by rewrite Z.mod_0_l by (apply Z.pow_nonzero; lia)|lia|].
  exists r, d. split; [done|]. destruct Hfound as [?|(H1 & H2 & H3 & H4 & H5 & Hd & Hl & Hbit)]; [by left|right].
  split_and!; [done..|]. assert (region_ok d r order) as Hok by (split_and!; [lia..|done|lia]).
  unfold bitmap_release_region. destruct (reg_release d r order Hd Hok) as (d' & -> & Hl' & Hd' & Hbit').
  cbn. f_equal. apply tb_ext; [done|done|congruence|]. intros i Hi. rewrite Hl', Hl in Hi.
  rewrite Hbit', Hbit by lia. destruct (in_region r order i) eqn:Hin.
  - by rewrite (H4 i Hin).
  - by rewrite orb_false_r, andb_true_r.
Qed.

Lemma bitmap_find_free_region_first_fit_witness :
  exists r d, bitmap_find_free_region 65 [0x0000f0f1; 0] 64 2 = Some (r, d) /\
    (r = - ENOMEM /\ d = [0x0000f0f1; 0] /\
       (forall p, 0 <= p -> p mod 2 ^ 2 = 0 -> p + 2 ^ 2 <= 64 -> ~ region_free [0x0000f0f1; 0] p 2) \/
     0 <= r /\ r mod 2 ^ 2 = 0 /\ r + 2 ^ 2 <= 64 /\ region_free [0x0000f0f1; 0] r 2 /\
       (forall p, 0 <= p < r -> p mod 2 ^ 2 = 0 -> ~ region_free [0x0000f0f1; 0] p 2) /\
       (forall i, 0 <= i < 32 * blen [0x0000f0f1; 0] -> tb d i = tb [0x0000f0f1; 0] i || in_region r 2 i) /\
       bitmap_release_region d r 2 = Some [0x0000f0f1; 0]).
Proof.
  apply (bitmap_find_free_region_first_fit 65 [0x0000f0f1; 0] 64 2);
    [repeat constructor; unfold in_w; lia|unfold blen; simpl; lia|lia..].
Defined.
